(* ===== verification/_CoqProject ===== *)
-Q . S2P
Prelude.v
PyStr.v
Sha256.v
Regex.v
PyVal.v
PyJson.v
AsciiJson.v
PyTime.v
ActionLattice.v
RiskSignals.v
ApprovalReuse.v
Decisions.v
DecisionArtifacts.v
DecisionBoundaries.v
EffectContract.v
ExtensionEvidence.v
EffectDecision.v
CommandCatalog.v
ExtensionControl.v
ControlRuntime.v
NativeObservations.v
CommandEvaluation.v
NativeResilience.v
CommandActivity.v
IpAddress.v
NetworkContract.v
NetworkCapability.v
NetworkBroker.v
NetworkEvaluator.v
LinuxTcp.v
LinuxUdpDns.v
NetworkCompiler.v
NetworkGrants.v
NetworkLedger.v
NetworkLifecycle.v
NetworkCorrelator.v
JsSemver.v
ExecutionAssurance.v
PyPath.v
LinuxSupplyChain.v
LinuxArtifacts.v
LinuxArtifactHistory.v
ProviderRecovery.v
LocalAuthority.v
SavedApprovals.v
SavedApprovalsFacts.v
SavedApprovalsHistory.v
HookScheduler.v
HookSchedulerFacts.v
HookSchedulerCalls.v
HookSchedulerSystem.v
HookCapacity.v
HookFloor.v
HookResponses.v
NativeReceipt.v
WorkflowCapability.v
WorkflowLedger.v
WorkflowChain.v
WorkflowStore.v
WorkflowHistory.v
WorkflowClaims.v
