(* ===== verification/Prelude.v ===== *)
(** * Verification of HOL Guard: decisions, hook review, network mediation, artifacts

    HOL Guard decides what an agent harness may do: run a command, reach a
    network destination, install a package version, launch with a saved
    approval.  The Python code is under [src/src/codex_plugin_scanner/]; the
    development follows the modules that carry its decisions, all under
    [guard/] and most under [guard/runtime/] (file names below are relative to
    one of the two, [daemon/] is [guard/daemon/]).

    ** How the program is put together

    - An _action_ ([allow], [warn], [review], ..., [block]) is the common
      currency.  [action_lattice.py] normalizes what arrives from untyped
      boundaries and composes actions to the most restrictive one.
    - The _effect decision_ takes factors (what policy, a detector or an
      extension says of a command) and uncertainties (what could not be
      established), each with an action floor, and returns the maximum floor.
      Extensions contribute through _evidence batches_.
    - The _extension controls_ say which command-safety extensions and
      permissions are enabled: signed, managed and local layers are composed,
      closed under the relationships of the _command catalog_, and resolved;
      a failed resolution becomes a blocking factor of the effect decision.  A
      process-wide _control runtime_ holds the snapshot decisions read.
    - The _native runtime_ (Rust) sends observations of a command; they are
      validated, bound to the catalog and the snapshot, and evaluated by the
      _command evaluation_ into one decision.  Its calls are guarded by a
      health table with circuit breakers and one-shot leases.  A command's
      activity is recorded from the pre-hook decision to the proof of its
      execution.
    - A _run evaluation_ collects artifact rows.  Each carries an _authoritative
      decision_ with the trace of its composition from policy, risk signals
      and the reuse of a saved approval; the launch boundary checks all of it
      again.  Stored approvals and receipts are read back through projections
      that pick the canonical action.  _Saved approvals_ are rows signed with the
      store's key; the batch of a launch is claimed in one transaction.
    - A _workflow capability_ is a signed permission for a number of uses of one
      operation.  Issuing, using and revoking it are transitions of a chained
      ledger in the database, whose length and head are announced in an
      external control before the commit and confirmed after it.
    - The _daemon_ queues hook reviews in a scheduler, renders native decisions
      in each harness's format with a receipt that commits to them, and has an
      emergency floor for the time when review is unavailable.  A capacity
      policy says how many workers review.
    - The _network plane_ has a policy contract (destinations, rules, policies
      with a digest), a compiler that stages and activates policies, an
      evaluator that decides a flow from the active policy and the verified DNS
      bindings, its lowerings to Linux TCP, UDP and DNS hooks, grants that let a
      denied flow through for a scope, a ledger of evidence, a tracker of
      process trees, a correlator of destinations, and a registry of backends
      whose capabilities are negotiated.
    - _Execution assurance_ binds provider identities, leases and terminal
      statements with framed digests; the _recovery_ state machine and the
      network _supervisor_ say when a provider may enforce.  The privileged
      _Linux artifacts_ are installed from signed manifests, with a ledger of
      accepted releases and a check of the file's ownership.
    - Package rules use _JavaScript version ranges_, for which the program has
      two matchers.

    ** Files

    Language and library layer (what the source uses of Python):
    - [Prelude]: exceptions and the [result] monad, list, sorting and [Z]
      lemmas, the tactics and the hint database;
    - [PyStr]: [str] as a list of code points, its methods, decimal numerals;
    - [Sha256]: [hashlib.sha256] and [hmac];
    - [Regex]: [re.fullmatch] by derivatives, proved to decide the language;
    - [PyVal]: untyped values, [json.dumps] with sorted keys;
    - [PyJson]: [json.loads], with the round trip of what [json.dumps] writes;
    - [AsciiJson]: [json.dumps] with ASCII escapes, injective on encodable texts;
    - [PyTime]: the calendar of [datetime] and its ISO texts;
    - [PyPath]: POSIX path text, [os.path.normpath], [shlex.split];
    - [IpAddress]: the [ipaddress] module.

    Components (file: source):
    - [ActionLattice]: [action_lattice.py], [models.py] (actions),
      [policy/engine.py] ([decide_action]);
    - [RiskSignals]: [signals.py], [composition_rules.py];
    - [ApprovalReuse]: [approval_reuse.py];
    - [Decisions], [DecisionArtifacts]: [decisions.py], [data_flow_sink.py];
    - [DecisionBoundaries]: [decision_projection_boundaries.py],
      [decision_boundaries.py];
    - [EffectContract]: [effect_contract.py];
    - [ExtensionEvidence]: [extension_evidence.py];
    - [EffectDecision]: [effect_decision.py];
    - [CommandCatalog]: [generated_command_catalog.py],
      [extension_control_limits.py];
    - [ExtensionControl]: [extension_control_contract.py],
      [extension_control_resolver.py], [command_dns_control_migration.py];
    - [ControlRuntime]: [extension_control_runtime.py] and the view of
      [extension_control_authority.py];
    - [NativeObservations]: [native_command_observations.py],
      [native_command_extension_evidence.py];
    - [CommandEvaluation]: [command_evaluation.py] and the modules it composes
      (listed in the file);
    - [NativeResilience]: [native_runtime_resilience.py];
    - [CommandActivity]: [command_activity_contract.py],
      [command_activity_lifecycle.py];
    - [NetworkContract]: [network_policy_contract.py];
    - [NetworkCapability]: [network_capability_contract.py],
      [network_backend_registry.py], [network_plane_router.py];
    - [NetworkBroker]: [network_broker_contract.py];
    - [NetworkEvaluator]: [network_policy_evaluator.py],
      [network_legacy_config.py];
    - [LinuxTcp]: [linux_tcp_enforcement.py];
    - [LinuxUdpDns]: [linux_udp_dns_enforcement.py];
    - [NetworkCompiler], Module [Compiler]: [network_policy_compiler.py];
    - [NetworkGrants], Module [Grants]: [network_grant_engine.py] and
      [logical_flow_id] of [network_local_core.py];
    - [NetworkLedger], Module [Ledger]: [network_evidence_ledger.py];
    - [NetworkLifecycle], Module [Lifecycle]: [network_process_lifecycle.py];
    - [NetworkCorrelator], Module [Correlator]:
      [network_destination_correlator.py] and the resolution bindings of
      [network_local_core.py];
    - [JsSemver]: [js_semver.py], [node_semver.py];
    - [ExecutionAssurance]: [execution_assurance_contract.py];
    - [ProviderRecovery]: [provider_recovery.py], [network_supervisor.py];
    - [LinuxSupplyChain]: [linux_artifact_supply_chain.py];
    - [LinuxArtifacts], [LinuxArtifactHistory]: [linux_artifact_ownership.py],
      [linux_artifact_lifecycle.py] and their histories;
    - [HookScheduler], [HookSchedulerFacts], [HookSchedulerCalls],
      [HookSchedulerSystem]: [daemon/runtime_hook_scheduler.py] with its
      contracts, types and deadlines; a logic for its methods; its callers; any
      interleaving of them;
    - [HookFloor]: [daemon/hook_availability_floor.py],
      [daemon/hook_launcher_recovery.py], the readers of
      [daemon/hook_request_parsing.py], the paths of [secret_sensitivity.py];
    - [HookResponses]: [daemon/hook_pretool_rendering.py], the renderers of
      [daemon/hook_worker_responses.py], [daemon/hook_availability_policy.py];
    - [NativeReceipt]: [native_decision_receipt.py];
    - [HookCapacity]: [daemon/hook_process_capacity.py];
    - [LocalAuthority]: [local_authority_integrity.py], [policy_integrity.py],
      the purposes of [store_local_once_authority.py], the rows' verification;
    - [SavedApprovals], [SavedApprovalsFacts], [SavedApprovalsHistory]: the
      approvals of [store_event_receipts.py], [store_exact_cloud_local_once.py],
      [store_local_once_authority.py], the batch claim of [store_policy.py] and
      [native_review_claimed_allow]; what each call does; histories of calls;
    - [WorkflowCapability]: [workflow_capabilities.py],
      [workflow_capability_transitions.py],
      [workflow_capability_authority_state.py];
    - [WorkflowLedger]: [store_workflow_capability_transitions.py],
      [store_workflow_capability_control.py] and the tables;
    - [WorkflowChain]: what a valid ledger says;
    - [WorkflowStore]: [store_workflow_capabilities.py] and its authority,
      revocation and lookup mixins;
    - [WorkflowHistory], [WorkflowClaims]: histories of calls over databases
      replaced in between; single calls and interrupted ones.

    ** Conventions

    A dataclass is a [Record] with the source's fields; its [__post_init__] is
    [check_X] (the checks) or [make_X] (checks and canonicalization), which
    returns [Ok] or the exception the code raises, with its message.  An
    [Enum] is an [Inductive].  A class with state is a record of its
    attributes, one definition per method taking and returning the state; a
    history is a list of calls folded over the initial state.  Where a lock is
    given away or taken more than once (the scheduler, the one-shot leases), a
    step is one critical section of some caller and the theorems range over
    all interleavings.  What other threads do without the lock is an argument:
    the scheduler's [environment] gives the readings of its clock and the
    cancellation events set before each [is_set()].  The scheduler's theorems
    ask that no event is set between two readings of one critical section
    ([Undisturbed]) and that no reservation is used while a resize of it waits
    ([unshared_calls]); [cancellation_race_corrupts] shows what happens
    without the first.  Calls of the stores follow one another, as their
    transactions do; a history may replace the database between them.  A
    method that raises leaves the state as it was, because in the modelled
    classes its checks precede its updates; in the scheduler, where they do
    not, an exception keeps what was assigned before it, and in the stores the
    database is rolled back while the external control keeps what was
    announced.  Times are integers.

    [isinstance] guards on arguments with a declared type hold by the typing of
    the model; where the code dispatches on such a guard (the resolver's
    [surface] and [registry], the untyped action) the argument is an [option]
    or a [pyval].  A [frozenset] is a list used as a set, a [dict] an
    association list in insertion order or a [gmap].  A [pyval] has no
    fractional numbers; strings that are encoded to UTF-8 hold no lone
    surrogates where a theorem says so; a telemetry sink is the list of the
    events sent to it.  Paths are POSIX paths.  The retry delays are whole
    seconds.

    Third-party, table-driven and environment behaviour is a parameter: the
    classes [PyUnicode] (case mapping of [str.lower]), [IdnaCodec]
    ([idna.encode]), [PyDecimal] (the digits outside ASCII that [\d] and [int]
    accept), [PyIsoFormat] ([datetime.fromisoformat]), [Ed25519] (signatures)
    and [CommandAnalyses] (the syntactic analyses of a command), each with
    only the documented laws the proofs use and a concrete instance, at which
    the witnesses are evaluated; and the arguments [env] (the scheduler's
    environment), [isalnum], [float_of] (decoding of floating-point literals),
    [julianday] (of SQLite), [object_str] ([str] of a value that is no
    string), [native_review_reason], [home], [seal_key] (a random key) and
    [ArtifactReadings] (results of system calls).  SHA-256 is computed; a
    theorem that rests on its injectivity names the two colliding texts, or
    assumes that the texts of the ledger have distinct digests.  MACs are
    computed too: [grant_was_recorded] assumes of a tampered database that a
    row with a valid signature carries bytes the store signed before
    ([unforged]). The history of capabilities allows any database, and asks
    that the external control, which is not in it, can be read when a
    capability is issued ([failed_read_forgets] shows why).

    ** What the theorems show

    - _Actions_: composition is the least upper bound of the severity order,
      whatever the grouping; what is not a known action never composes to
      something permissive.
    - _Effect decisions_: a permissive decision rests on at least one factor, a
      positive proof for each and no uncertainty; the decision does not depend
      on the order of the inputs and can only grow with more of them; extension
      evidence cannot be lowered on its way into a decision.
    - _Controls_: a resolution that does not block has passed every check, a
      disable in one layer dominates every enable, and a blocked resolution
      blocks the command; the catalog's indexes agree with its entries;
      protected snapshots never move back between recoveries.
    - _Commands_: a silent allow is justified by bound native evidence, an
      authenticated snapshot and a positive proof, and uncertainty, a native
      block or blocked controls close the command; native evidence is bounded
      and bound to its command, catalog, program and snapshot; leases are exclusive under any interleaving; a
      command's record changes at most twice and proves an execution only with
      the evidence of one.
    - _Launch_: an evaluation passes the launch boundary only on final,
      consistent authority of every row and approved detector signals; an
      accepted reuse launches only with its claim; a saved approval relaxes in
      exactly one case; composition calibrates exactly; decisions survive
      serialization; projections of stored receipts and approvals are at least
      as severe as what they record.
    - _Saved approvals_: a batch is claimed together or not at all; of two
      launches decided on one revision one is refused; an approval that was used
      up is never granted again, and what is granted was recorded.
    - _Workflow capabilities_: the use numbers of a capability increase whatever
      is done to the database and no use follows a reported revocation; a claim
      is justified by its signature, window, binding and limit; an interrupted
      store refuses every call.
    - _Hook review_: the scheduler's counters are exact and its limits hold
      under any interleaving, slots are shared and never idle, the queue does
      not stall; the emergency floor admits confined inspection only; rendering
      keeps the decision for every harness and every response, an unavailable
      review denies what it does not merely record, and a receipt vouches for one decision; the pool of workers
      grows and shrinks by one, after lasting pressure or idleness only, and the
      memory of the process tree is exact.
    - _Network_: an allowed flow has a matching rule in force and, for a host,
      a verified binding of the connected address; adding rules only restricts;
      evaluation returns a decision on every well-formed request; the lowered
      Linux planes decide like the evaluator; policies and destinations are
      canonical; active generations only increase; a grant authorizes exactly
      its scope and a once-grant once; the ledger refines an unbounded log and
      stays within its bounds; sessions stay pinned to their tree; correlation
      is exact; selection returns the best admissible backend, independent of
      the registration order, and failures fail closed.
    - _Assurance_: the thumbprint's framing is injective, so equal framed bytes
      mean equal identities; unsatisfied guarantees are reported exactly.
    - _Artifacts_: a signed manifest verifies for its bytes; an ownership
      receipt is sound whatever happens to the file between the system calls;
      the lifecycle refines its specification on every reachable state, and no
      release is ever activated twice.
    - _Recovery_: the state after any history has a closed form in its last
      events; enforcement is permitted exactly after a fresh healthy probe.
    - _Version ranges_: the precedence is a strict total order, the two matchers
      agree on exact, tilde and caret specifiers, and the highest match is the
      maximum of the matching versions.

    Some theorems record behaviour at the edges: the resolver's sort of its
    failures can raise ([ExtensionControl]); a constructed request with an
    unusual IPv6 scope makes evaluation raise, and the IPv4-mapped form of a
    loopback address is not classified as loopback ([NetworkEvaluator]); a
    quarantined runtime is forgotten when its entry is evicted
    ([NativeResilience]); a cancellation between two readings corrupts the
    scheduler's lanes ([HookSchedulerSystem]); a rejected reuse that records
    [allow] launches, a detector's demand for reapproval can be erased
    ([DecisionArtifacts], [Decisions]); an unknown field weakens a stored block
    ([DecisionBoundaries]); the emergency floor judges a program by its name
    ([HookFloor]); an event that must pause is continued ([HookResponses]); an
    issue that cannot read the control starts it afresh ([WorkflowClaims]).

    ** Recursion and fuel

    Structural recursion is used wherever the code iterates over data.  The
    closures of the resolver run a worklist; their fuel bounds the pushes that the
    catalog's entries and the requested identifiers can cause, and
    [closure_total] shows that it is never used up, so the result is the
    code's.  The scheduler's dispatch loop has the number of queued hooks as
    fuel, each iteration removes one, and the theorems show that it returns.
    The JSON decoder's fuel is the length of its text.  Decimal numerals are
    printed with fuel from the binary logarithm of the number, which the
    round-trip lemmas show sufficient.  SHA-256 recurses on the blocks of the
    padded message.  Bounded repetition in patterns is unfolded by derivatives.

    ** Not modelled

    [consolidate_network_intent] and [detect_proxy_tunnel] of
    [network_local_core.py] (URL splitting and scanning of command text),
    [network_observer.py] and [network_status.py] (projections for display),
    [continuation_contract.py] and [npm_policy_range.py] (validation of records);
    the migration of the database schema, the file lock around the calls of the
    capability store, the ranking of policy rows and the refresh of their
    integrity state.  Outside the scope: the runner, the daemon's server, the
    rest of the store, command line and adapters (processes, sockets, SQL,
    terminal), managed enrolment and policy bundles (third-party cryptography
    and services), the repository scanner, the Rust runtime and the
    dashboard. *)

From stdpp Require Export base tactics.
From stdpp Require Export list gmap strings sorting.
From Stdlib Require Export ZArith Lia.

(** ** Exceptions and results *)

(** The exceptions the modelled code raises.  Messages are the source's
    message texts; an f-string message is built by concatenation. *)
Inductive exn :=
  | ValueError (msg : string)
  | RuntimeError (msg : string)
  | KeyError (msg : string)
  | TypeError (msg : string)
  | IndexError (msg : string).

Global Instance exn_eq_dec : EqDecision exn.
Proof. solve_decision. Defined.

(** A Python computation that returns a value or raises. *)
Inductive result (A : Type) :=
  | Ok (a : A)
  | Raise (e : exn).
Global Arguments Ok {_} _.
Global Arguments Raise {_} _.

Global Instance result_eq_dec `{EqDecision A} : EqDecision (result A).
Proof. solve_decision. Defined.

Global Instance result_ret : MRet result := λ A a, Ok a.
Global Instance result_bind : MBind result := λ A B f r,
  match r with Ok a => f a | Raise e => Raise e end.

(** [if c: raise e] *)
Definition raise_if (c : bool) (e : exn) : result unit :=
  if c then Raise e else Ok tt.

Definition is_ok {A} (r : result A) : bool :=
  match r with Ok _ => true | Raise _ => false end.

(** [for x in xs: body(x)], stopping at the first exception. *)
Fixpoint for_each {A} (body : A → result unit) (xs : list A) : result unit :=
  match xs with
  | [] => Ok tt
  | x :: xs => body x ;; for_each body xs
  end.

(** [tuple(f(x) for x in xs)], stopping at the first exception. *)
Fixpoint map_result {A B} (f : A → result B) (xs : list A) : result (list B) :=
  match xs with
  | [] => Ok []
  | x :: xs => y ← f x; ys ← map_result f xs; Ok (y :: ys)
  end.

(** [tuple(x for x in xs if test(x))], stopping at the first exception. *)
Fixpoint filter_result {A} (test : A → result bool) (xs : list A) : result (list A) :=
  match xs with
  | [] => Ok []
  | x :: xs =>
      keep ← test x ;
      rest ← filter_result test xs ;
      Ok (if keep : bool then x :: rest else rest)
  end.

Lemma bind_Ok {A B} (f : A → result B) (r : result A) (b : B) :
  r ≫= f = Ok b ↔ ∃ a, r = Ok a ∧ f a = Ok b.
Proof. destruct r; simpl; unfold mbind, result_bind; naive_solver. Qed.

(** [r ;; k] where [r] only validates. *)
Lemma then_Ok {B} (r : result unit) (k : result B) (b : B) :
  (r ;; k) = Ok b ↔ r = Ok tt ∧ k = Ok b.
Proof. rewrite bind_Ok. split; [by intros ([] & ? & ?) | eauto]. Qed.

Lemma raise_if_Ok (c : bool) (e : exn) (u : unit) : raise_if c e = Ok u ↔ c = false.
Proof. destruct c, u; unfold raise_if; naive_solver. Qed.

Global Instance Ok_inj {A} : Inj (=) (=) (@Ok A).
Proof. by intros x y [= ->]. Qed.

Lemma for_each_Ok {A} (body : A → result unit) (xs : list A) (u : unit) :
  for_each body xs = Ok u ↔ Forall (λ x, body x = Ok tt) xs.
Proof.
  destruct u. induction xs as [|x xs IH]; simpl.
  - split; [constructor | done].
  - rewrite bind_Ok, Forall_cons, <- IH. split; [|naive_solver].
    intros ([] & ? & ?); naive_solver.
Qed.

Lemma map_result_Ok {A B} (f : A → result B) (xs : list A) (ys : list B) :
  map_result f xs = Ok ys ↔ Forall2 (λ x y, f x = Ok y) xs ys.
Proof.
  revert ys. induction xs as [|x xs IH]; intros ys; simpl.
  - split; [intros [= <-]; constructor | by inversion 1].
  - rewrite bind_Ok. setoid_rewrite bind_Ok. split.
    + intros (y & Hy & zs & Hzs & [= <-]). constructor; [done | by apply IH].
    + inversion 1 as [|? y ? zs Hy Hzs]; subst.
      exists y; split; [done|]. exists zs; split; [by apply IH | done].
Qed.

Lemma filter_result_pure {A} (test : A → result bool) (f : A → bool) xs :
  (∀ x, test x = Ok (f x)) → filter_result test xs = Ok (filter (λ x, f x = true) xs).
Proof.
  intros Hf. induction xs as [|x xs IH]; [done|]. cbn [filter_result]. rewrite Hf, IH.
  unfold mbind, result_bind. rewrite filter_cons. destruct (f x); by case_decide.
Qed.

(** The members a filtering loop keeps. *)
Lemma filter_result_Ok {A} (test : A → result bool) (xs ys : list A) :
  filter_result test xs = Ok ys →
  (∀ x, x ∈ ys ↔ x ∈ xs ∧ test x = Ok true) ∧ (∀ x, x ∈ xs → is_ok (test x) = true).
Proof.
  revert ys. induction xs as [|x xs IH]; simpl; intros ys Hf.
  - injection Hf as <-. split; [set_solver | by intros x ?%elem_of_nil].
  - apply bind_Ok in Hf as (b & Hb & (rest & Hr & Hf)%bind_Ok). injection Hf as <-.
    destruct (IH rest Hr) as [Hin Hall]. split.
    + intros y. rewrite elem_of_cons. destruct b; rewrite ?elem_of_cons, Hin; [naive_solver|].
      split; [naive_solver|]. intros [[->|?] ?]; [congruence | done].
    + intros y [->|Hy]%elem_of_cons; [by rewrite Hb | auto].
Qed.

Lemma filter_result_total {A} (test : A → result bool) (xs : list A) :
  Forall (λ x, is_ok (test x) = true) xs → ∃ ys, filter_result test xs = Ok ys.
Proof.
  induction 1 as [|x xs Hx _ [ys IH]]; simpl; [eauto|].
  destruct (test x); [|done]. simpl. rewrite IH. simpl. eauto.
Qed.

(** The members of the concatenated results of a loop. *)
Lemma map_result_join {A B} (f : A → result (list B)) (xs : list A) (yss : list (list B)) :
  map_result f xs = Ok yss →
  (∀ x, x ∈ xs → ∃ l, f x = Ok l) ∧
  (∀ y, y ∈ mjoin yss ↔ ∃ x l, x ∈ xs ∧ f x = Ok l ∧ y ∈ l).
Proof.
  rewrite map_result_Ok. intros Hf. split.
  - intros x [i Hi]%list_elem_of_lookup.
    destruct (Forall2_lookup_l _ _ _ _ _ Hf Hi) as (l & _ & Hl). eauto.
  - intros y. rewrite list_elem_of_join. split.
    + intros (l & Hy & [i Hi]%list_elem_of_lookup).
      destruct (Forall2_lookup_r _ _ _ _ _ Hf Hi) as (x & Hx & Hl).
      apply list_elem_of_lookup_2 in Hx. eauto.
    + intros (x & l & [i Hi]%list_elem_of_lookup & Hl & Hy).
      destruct (Forall2_lookup_l _ _ _ _ _ Hf Hi) as (l' & Hl' & E).
      apply list_elem_of_lookup_2 in Hl'. simpl in E. rewrite Hl in E. injection E as <-. eauto.
Qed.

(** [inv_ok] decomposes hypotheses [e = Ok v] about code in the result monad:
    binds, guards, loops and literal results. *)
Ltac inv_ok_step :=
  match goal with
  | H : Ok _ = Ok _ |- _ => injection H as H; try subst
  | H : Raise _ = Ok _ |- _ => discriminate H
  | H : Ok _ = Raise _ |- _ => discriminate H
  | H : raise_if _ _ = Ok _ |- _ => apply raise_if_Ok in H
  | H : mbind _ _ = Ok _ |- _ => apply bind_Ok in H as (? & ? & ?)
  | H : mret _ = Ok _ |- _ => unfold mret, result_ret in H
  | u : unit |- _ => destruct u
  end.
Ltac inv_ok := repeat (inv_ok_step; simpl in * ).

(** ** Booleans *)

Create HintDb guard discriminated.

Lemma orb_false_2 (a b : bool) : a || b = false → a = false ∧ b = false.
Proof. apply orb_false_iff. Qed.

(** Split boolean hypotheses into their conjuncts. *)
Ltac split_bool :=
  repeat match goal with
  | H : _ && _ = true |- _ => apply andb_true_iff in H as [? ?]
  | H : _ || _ = false |- _ => apply orb_false_iff in H as [? ?]
  | H : negb _ = true |- _ => apply negb_true_iff in H
  | H : negb _ = false |- _ => apply negb_false_iff in H
  end.

(** Filters that keep everything, or nothing. *)
Lemma filter_all {A} (P : A → Prop) `{∀ x, Decision (P x)} (l : list A) : Forall P l → filter P l = l.
Proof. induction 1; [done|]. by rewrite filter_cons_True, IHForall. Qed.
Lemma filter_none {A} (P : A → Prop) `{∀ x, Decision (P x)} (l : list A) :
  Forall (λ x, ¬ P x) l → filter P l = [].
Proof. induction 1; [done|]. by rewrite filter_cons_False, IHForall. Qed.

Lemma existsb_false {A} (f : A → bool) (l : list A) :
  existsb f l = false ↔ Forall (λ x, f x = false) l.
Proof.
  induction l as [|x l IH]; simpl; [split; [constructor | done]|].
  rewrite orb_false_iff, Forall_cons, IH. done.
Qed.

Lemma forallb_Forall {A} (f : A → bool) (l : list A) :
  forallb f l = true ↔ Forall (λ x, f x = true) l.
Proof.
  induction l as [|x l IH]; simpl; [split; [constructor | done]|].
  rewrite andb_true_iff, Forall_cons, IH. done.
Qed.

Lemma existsb_Exists {A} (f : A → bool) (l : list A) :
  existsb f l = true ↔ Exists (λ x, f x = true) l.
Proof.
  induction l as [|x l IH]; simpl.
  - split; [done | by inversion 1].
  - rewrite orb_true_iff, Exists_cons, IH. done.
Qed.

(** ** Orderings *)

(** The total orders Python's [<] and [sorted] use on keys: integers, strings
    (lexicographic by code point) and tuples (lexicographic by component). *)
Class PyOrd (A : Type) := py_cmp : A → A → comparison.

Class PyOrdLaws (A : Type) `{PyOrd A} := {
  py_cmp_eq : ∀ x y : A, py_cmp x y = Eq ↔ x = y;
  py_cmp_flip : ∀ x y : A, py_cmp y x = CompOpp (py_cmp x y);
  py_cmp_trans : ∀ x y z : A, py_cmp x y = Lt → py_cmp y z = Lt → py_cmp x z = Lt;
}.

Definition py_leb `{PyOrd A} (x y : A) : bool :=
  match py_cmp x y with Gt => false | _ => true end.
Definition py_ltb `{PyOrd A} (x y : A) : bool :=
  match py_cmp x y with Lt => true | _ => false end.

Global Instance Z_py_ord : PyOrd Z := Z.compare.
Global Instance Z_py_ord_laws : PyOrdLaws Z.
Proof.
  split; unfold py_cmp, Z_py_ord.
  - apply Z.compare_eq_iff.
  - intros x y. apply Z.compare_antisym.
  - intros x y z. rewrite !Z.compare_lt_iff. lia.
Qed.

Fixpoint list_cmp `{PyOrd A} (l k : list A) : comparison :=
  match l, k with
  | [], [] => Eq
  | [], _ :: _ => Lt
  | _ :: _, [] => Gt
  | x :: l, y :: k =>
      match py_cmp x y with Eq => list_cmp l k | c => c end
  end.
Global Instance list_py_ord `{PyOrd A} : PyOrd (list A) := list_cmp.

Global Instance list_py_ord_laws `{PyOrdLaws A} : PyOrdLaws (list A).
Proof.
  split; unfold py_cmp, list_py_ord.
  - intros x. induction x as [|a x IH]; intros [|b y]; simpl; try naive_solver.
    destruct (py_cmp a b) eqn:E.
    + apply py_cmp_eq in E as ->. rewrite IH. naive_solver.
    + split; [done|]. intros [= -> _]. by rewrite (proj2 (py_cmp_eq b b)) in E.
    + split; [done|]. intros [= -> _]. by rewrite (proj2 (py_cmp_eq b b)) in E.
  - intros x. induction x as [|a x IH]; intros [|b y]; simpl; try done.
    rewrite (py_cmp_flip a b). destruct (py_cmp a b); simpl; auto.
  - intros x. induction x as [|a x IH]; intros [|b y] [|c z]; simpl; try done.
    destruct (py_cmp a b) eqn:E1, (py_cmp b c) eqn:E2; try done;
      repeat match goal with
      | E : py_cmp _ _ = Eq |- _ => apply py_cmp_eq in E; subst
      end.
    + rewrite (proj2 (py_cmp_eq c c)) by done. eauto.
    + by rewrite E2.
    + by rewrite E1.
    + by rewrite (py_cmp_trans _ _ _ E1 E2).
Qed.

Global Instance prod_py_ord `{PyOrd A, PyOrd B} : PyOrd (A * B) := λ p q,
  match py_cmp p.1 q.1 with Eq => py_cmp p.2 q.2 | c => c end.

Lemma prod_py_cmp `{PyOrd A, PyOrd B} (a a' : A) (b b' : B) :
  py_cmp (a, b) (a', b') = match py_cmp a a' with Eq => py_cmp b b' | c => c end.
Proof. done. Qed.

Global Instance prod_py_ord_laws `{PyOrdLaws A, PyOrdLaws B} : PyOrdLaws (A * B).
Proof.
  split.
  - intros [a b] [a' b']. rewrite prod_py_cmp. destruct (py_cmp a a') eqn:E.
    + apply py_cmp_eq in E as ->. rewrite py_cmp_eq. naive_solver.
    + split; [done|]. intros [= -> _]. by rewrite (proj2 (py_cmp_eq a' a')) in E.
    + split; [done|]. intros [= -> _]. by rewrite (proj2 (py_cmp_eq a' a')) in E.
  - intros [a b] [a' b']. rewrite !prod_py_cmp, (py_cmp_flip a a').
    destruct (py_cmp a a'); simpl; auto. apply py_cmp_flip.
  - intros [a b] [a' b'] [a'' b'']. rewrite !prod_py_cmp.
    destruct (py_cmp a a') eqn:E1, (py_cmp a' a'') eqn:E2; try done;
      repeat match goal with
      | E : py_cmp _ _ = Eq |- _ => apply py_cmp_eq in E; subst
      end.
    + rewrite (proj2 (py_cmp_eq a'' a'')) by done. apply py_cmp_trans.
    + by rewrite E2.
    + by rewrite E1.
    + by rewrite (py_cmp_trans _ _ _ E1 E2).
Qed.

Section py_order.
Context `{PyOrdLaws A}.

Lemma py_cmp_refl (x : A) : py_cmp x x = Eq.
Proof. by apply py_cmp_eq. Qed.

Lemma py_leb_refl (x : A) : py_leb x x = true.
Proof. unfold py_leb. by rewrite py_cmp_refl. Qed.

Lemma py_leb_total (x y : A) : py_leb x y = false → py_leb y x = true.
Proof. unfold py_leb. rewrite (py_cmp_flip x y). by destruct (py_cmp x y). Qed.

Lemma py_leb_trans (x y z : A) :
  py_leb x y = true → py_leb y z = true → py_leb x z = true.
Proof.
  unfold py_leb. destruct (py_cmp x y) eqn:E1; [| |done].
  - by apply py_cmp_eq in E1 as ->.
  - destruct (py_cmp y z) eqn:E2; [| |done].
    + apply py_cmp_eq in E2 as ->. by rewrite E1.
    + by rewrite (py_cmp_trans _ _ _ E1 E2).
Qed.

Lemma py_leb_antisym (x y : A) : py_leb x y = true → py_leb y x = true → x = y.
Proof.
  unfold py_leb. rewrite (py_cmp_flip x y).
  destruct (py_cmp x y) eqn:E; simpl; try done. by apply py_cmp_eq in E.
Qed.

Lemma py_ltb_leb (x y : A) : py_ltb x y = negb (py_leb y x).
Proof. unfold py_ltb, py_leb. rewrite (py_cmp_flip x y). by destruct (py_cmp x y). Qed.
End py_order.

(** ** [sorted(xs, key=...)]: a stable sort *)

Section sort.
Context {A K : Type} `{PyOrdLaws K} (key : A → K).

Fixpoint insert_on (x : A) (l : list A) : list A :=
  match l with
  | [] => [x]
  | y :: l' => if py_leb (key x) (key y) then x :: y :: l' else y :: insert_on x l'
  end.

Definition sort_on (l : list A) : list A := foldr insert_on [] l.

Definition key_le (x y : A) : Prop := py_leb (key x) (key y) = true.

Lemma insert_on_Permutation x l : insert_on x l ≡ₚ x :: l.
Proof.
  induction l as [|y l IH]; simpl; [done|].
  case_match; [done|]. rewrite IH. apply Permutation_swap.
Qed.

Lemma sort_on_Permutation l : sort_on l ≡ₚ l.
Proof.
  induction l as [|x l IH]; simpl; [done|]. by rewrite insert_on_Permutation, IH.
Qed.

Lemma insert_on_sorted x l : StronglySorted key_le l → StronglySorted key_le (insert_on x l).
Proof.
  induction 1 as [|y l Hs IH Hy]; simpl; [by repeat constructor|].
  destruct (py_leb (key x) (key y)) eqn:E.
  - constructor; [by constructor|]. constructor; [done|].
    eapply Forall_impl; [exact Hy|]. intros z Hz. by eapply py_leb_trans.
  - constructor; [done|]. rewrite insert_on_Permutation.
    constructor; [|done]. by apply py_leb_total.
Qed.

Lemma sort_on_sorted l : StronglySorted key_le (sort_on l).
Proof. induction l; simpl; [constructor | by apply insert_on_sorted]. Qed.

Lemma elem_of_sort_on x l : x ∈ sort_on l ↔ x ∈ l.
Proof. by rewrite sort_on_Permutation. Qed.

Lemma length_sort_on l : length (sort_on l) = length l.
Proof. by rewrite sort_on_Permutation. Qed.

Lemma Forall_sort_on (P : A → Prop) l : Forall P (sort_on l) ↔ Forall P l.
Proof. by rewrite sort_on_Permutation. Qed.

(** Sorting a sorted list changes nothing. *)
Lemma sort_on_id l : StronglySorted key_le l → sort_on l = l.
Proof.
  induction 1 as [|x l Hs IH Hx]; simpl; [done|]. rewrite IH.
  destruct l as [|y l]; [done|]. simpl.
  inversion Hx as [|? ? Hxy]; subst. unfold key_le in Hxy. by rewrite Hxy.
Qed.

Lemma sort_on_idemp l : sort_on (sort_on l) = sort_on l.
Proof. apply sort_on_id, sort_on_sorted. Qed.

(** Two sorted permutations of each other agree when the key separates
    their elements. *)
Lemma sorted_unique l k :
  (∀ x y, x ∈ l → y ∈ l → key x = key y → x = y) →
  StronglySorted key_le l → StronglySorted key_le k → l ≡ₚ k → l = k.
Proof.
  revert k. induction l as [|x l IH]; intros k Hinj Hl Hk Hp.
  { by apply Permutation_nil_l in Hp. }
  destruct k as [|y k]; [by apply Permutation_nil_r in Hp|].
  inversion Hl as [|? ? Hl' Hx]; subst. inversion Hk as [|? ? Hk' Hy]; subst.
  assert (x = y) as ->.
  { assert (y ∈ x :: l) as Hyl by (rewrite Hp; left).
    assert (x ∈ y :: k) as Hxk by (rewrite <- Hp; left).
    apply Hinj; [left | done |].
    apply elem_of_cons in Hyl as [->|Hyl]; [done|].
    apply elem_of_cons in Hxk as [->|Hxk]; [done|].
    rewrite Forall_forall in Hx, Hy.
    apply py_leb_antisym; [by apply Hx | by apply Hy]. }
  f_equal. apply Permutation_cons_inv in Hp.
  apply IH; try done. intros; apply Hinj; try right; done.
Qed.

(** With a separating key the result of [sorted] does not depend on the
    order of its input. *)
Lemma sort_on_perm l k :
  (∀ x y, x ∈ l → y ∈ l → key x = key y → x = y) →
  l ≡ₚ k → sort_on l = sort_on k.
Proof.
  intros Hinj Hp. apply sorted_unique; [|apply sort_on_sorted..|].
  - intros x y. rewrite !elem_of_sort_on. apply Hinj.
  - by rewrite !sort_on_Permutation.
Qed.
End sort.

(** [sorted(set(xs), key=...)] *)
Definition sorted_set_on {A K} `{EqDecision A, PyOrd K} (key : A → K) (l : list A) : list A :=
  sort_on key (remove_dups l).

Lemma elem_of_sorted_set_on {A K} `{EqDecision A, PyOrdLaws K} (key : A → K) x l :
  x ∈ sorted_set_on key l ↔ x ∈ l.
Proof. unfold sorted_set_on. by rewrite elem_of_sort_on, elem_of_remove_dups. Qed.

Lemma sorted_set_on_ext {A K} `{EqDecision A, PyOrdLaws K} (key : A → K) l k :
  (∀ x y, key x = key y → x = y) →
  (∀ x, x ∈ l ↔ x ∈ k) → sorted_set_on key l = sorted_set_on key k.
Proof.
  intros Hinj Heq. unfold sorted_set_on. apply sort_on_perm; [by intros; apply Hinj|].
  apply NoDup_Permutation; [apply NoDup_remove_dups..|].
  intros x. rewrite !elem_of_remove_dups. apply Heq.
Qed.

Lemma sorted_set_on_nil {A K} `{EqDecision A, PyOrdLaws K} (key : A → K) l :
  sorted_set_on key l = [] ↔ l = [].
Proof.
  split; [|by intros ->]. intros Hs. destruct l as [|x l]; [done|].
  assert (x ∈ sorted_set_on key (x :: l)) as Hx by (apply elem_of_sorted_set_on; left).
  rewrite Hs in Hx. by apply elem_of_nil in Hx.
Qed.

(** [len(xs) != len(set(xs))] *)
Definition has_dups {A} `{EqDecision A} (l : list A) : bool := bool_decide (¬ NoDup l).

Lemma has_dups_false {A} `{EqDecision A} (l : list A) : has_dups l = false ↔ NoDup l.
Proof.
  unfold has_dups. rewrite bool_decide_eq_false. split; [|tauto].
  intros Hn. by apply dec_stable.
Qed.

(** Distinct keys separate the members of a list. *)
Lemma NoDup_fmap_separates {A K} (key : A → K) l x y :
  NoDup (key <$> l) → x ∈ l → y ∈ l → key x = key y → x = y.
Proof.
  intros Hnd Hx Hy Heq. apply list_elem_of_lookup in Hx as [i Hi], Hy as [j Hj].
  assert (i = j) as ->; [|congruence].
  eapply NoDup_lookup; [exact Hnd| |]; rewrite list_lookup_fmap;
    [by rewrite Hi | by rewrite Hj, Heq].
Qed.

(** [x in xs] for a tuple, list or (frozen)set *)
Definition py_in {A} `{EqDecision A} (x : A) (l : list A) : bool := bool_decide (x ∈ l).

Lemma py_in_true {A} `{EqDecision A} (x : A) (l : list A) : py_in x l = true ↔ x ∈ l.
Proof. apply bool_decide_eq_true. Qed.
Lemma py_in_false {A} `{EqDecision A} (x : A) (l : list A) : py_in x l = false ↔ x ∉ l.
Proof. apply bool_decide_eq_false. Qed.

(** [a.issubset(b)] *)
Definition py_subset {A} `{EqDecision A} (a b : list A) : bool := forallb (λ x, py_in x b) a.

Lemma py_subset_true {A} `{EqDecision A} (a b : list A) :
  py_subset a b = true ↔ ∀ x, x ∈ a → x ∈ b.
Proof.
  unfold py_subset. rewrite forallb_Forall, Forall_forall. by setoid_rewrite py_in_true.
Qed.

#[export] Hint Resolve elem_of_sort_on elem_of_sorted_set_on py_leb_refl : guard.
