(* ===== verification/PyStr.v ===== *)
(** * Python strings

    A Python [str] is a sequence of Unicode code points: [pystr := list Z].
    The file defines the string methods the modelled code calls, with the
    behaviour the language defines for every code point (white space is
    Python's [str.isspace] set), and the decimal numerals with their round
    trips. *)

From S2P Require Import Prelude.
Local Open Scope Z_scope.

Notation pystr := (list Z).

(** String literals: [$"abc"]. *)
Definition lit (s : string) : pystr :=
  (λ a, Z.of_N (Ascii.N_of_ascii a)) <$> String.list_ascii_of_string s.
Declare Scope py_scope.
Delimit Scope py_scope with py.
Notation "$ s" := (lit s%string) (at level 1, s at level 0, format "$ s") : py_scope.
Local Open Scope py_scope.

(** A Python string inside an exception message; code points outside ASCII are
    shown as question marks. *)
Definition show (s : pystr) : string :=
  String.string_of_list_ascii
    ((λ c, if (0 <=? c) && (c <? 128) then Ascii.ascii_of_N (Z.to_N c) else Ascii.ascii_of_N 63) <$> s).

(** ** Character classes *)

Definition in_range (lo hi c : Z) : bool := (lo <=? c) && (c <=? hi).
Definition is_digit (c : Z) : bool := in_range 48 57 c.          (* 0-9 *)
Definition is_lower (c : Z) : bool := in_range 97 122 c.         (* a-z *)
Definition is_upper (c : Z) : bool := in_range 65 90 c.          (* A-Z *)
Definition is_alnum (c : Z) : bool := is_digit c || is_lower c || is_upper c.

(** [str.isspace] on one code point. *)
Definition is_space (c : Z) : bool :=
  in_range 9 13 c || in_range 28 32 c || (c =? 133) || (c =? 160) || (c =? 5760)
  || in_range 8192 8202 c || (c =? 8232) || (c =? 8233) || (c =? 8239) || (c =? 8287)
  || (c =? 12288).

(** [str.lower] restricted to one ASCII code point. *)
Definition lower_char (c : Z) : Z := if is_upper c then c + 32 else c.

(** ** String methods *)

Definition is_ascii (s : pystr) : bool := forallb (λ c, c <? 128) s.

(** [s.isdigit()] on strings whose digits are ASCII. *)
Definition str_isdigit (s : pystr) : bool :=
  match s with [] => false | _ => forallb is_digit s end.

Fixpoint lstrip (s : pystr) : pystr :=
  match s with
  | [] => []
  | c :: s' => if is_space c then lstrip s' else s
  end.
Definition rstrip (s : pystr) : pystr := reverse (lstrip (reverse s)).
Definition strip (s : pystr) : pystr := rstrip (lstrip s).

Fixpoint startswith (p s : pystr) : bool :=
  match p, s with
  | [], _ => true
  | _ :: _, [] => false
  | a :: p', b :: s' => (a =? b) && startswith p' s'
  end.
Definition endswith (p s : pystr) : bool := startswith (reverse p) (reverse s).

(** [p in s] *)
Fixpoint contains (p s : pystr) : bool :=
  startswith p s || match s with [] => false | _ :: s' => contains p s' end.

(** [s.split(sep)] for a one-character separator: never empty. *)
Fixpoint split_char (sep : Z) (s : pystr) : list pystr :=
  match s with
  | [] => [[]]
  | c :: s' =>
      if c =? sep then [] :: split_char sep s'
      else match split_char sep s' with
           | [] => [[c]]
           | w :: ws => (c :: w) :: ws
           end
  end.

(** [sep.join(parts)] *)
Fixpoint join (sep : pystr) (parts : list pystr) : pystr :=
  match parts with
  | [] => []
  | [p] => p
  | p :: ps => p ++ sep ++ join sep ps
  end.

(** [s.partition(sep)] for a one-character separator: the text before the
    first [sep], whether it occurs, and the text after it. *)
Fixpoint partition_char (sep : Z) (s : pystr) : pystr * bool * pystr :=
  match s with
  | [] => ([], false, [])
  | c :: s' =>
      if c =? sep then ([], true, s')
      else let '(a, f, b) := partition_char sep s' in (c :: a, f, b)
  end.

(** [s.split(sep)] for a two-character separator. *)
Fixpoint split_pair (a b : Z) (s : pystr) : list pystr :=
  match s with
  | [] => [[]]
  | [c] => [[c]]
  | c :: ((d :: s'') as s') =>
      if (c =? a) && (d =? b) then [] :: split_pair a b s''
      else match split_pair a b s' with
           | [] => [[c]]
           | w :: ws => (c :: w) :: ws
           end
  end.

(** [s.split()]: maximal runs of non-space characters. *)
Fixpoint split_ws_aux (s cur : pystr) : list pystr :=
  match s with
  | [] => match cur with [] => [] | _ => [reverse cur] end
  | c :: s' =>
      if is_space c then
        match cur with [] => split_ws_aux s' [] | _ => reverse cur :: split_ws_aux s' [] end
      else split_ws_aux s' (c :: cur)
  end.
Definition split_ws (s : pystr) : list pystr := split_ws_aux s [].

(** [int(s)] for a string of ASCII digits. *)
Definition py_int (s : pystr) : Z := foldl (λ n c, 10 * n + (c - 48)) 0 s.

(** [str(n)] for [0 <= n]: decimal digits, no leading zero. *)
Fixpoint dec_digits (fuel : nat) (n : Z) : pystr :=
  match fuel with
  | O => []
  | S f => if n <? 10 then [48 + n] else dec_digits f (n / 10) ++ [48 + n mod 10]
  end.
Definition str_of_nonneg (n : Z) : pystr := dec_digits (S (Z.to_nat (Z.log2 n))) n.
(** [str(n)] *)
Definition str_of_int (n : Z) : pystr :=
  if n <? 0 then 45 :: str_of_nonneg (- n) else str_of_nonneg n.

(** [s[:n]] *)
Definition str_take (n : nat) (s : pystr) : pystr := take n s.

(** [str.lower] on arbitrary text depends on the Unicode case tables; the
    class carries the method with its ASCII behaviour. *)
Class PyUnicode := {
  py_lower : pystr → pystr;
  py_lower_ascii : ∀ s, is_ascii s = true → py_lower s = lower_char <$> s;
}.

(** A concrete instance: ASCII letters only. *)
Definition ascii_unicode : PyUnicode :=
  {| py_lower := λ s, lower_char <$> s; py_lower_ascii := λ s _, eq_refl |}.

(** ** Lemmas *)

Lemma split_char_nonempty sep s : split_char sep s ≠ [].
Proof. destruct s as [|c s]; simpl; [done|]. destruct (c =? sep), (split_char sep s); done. Qed.

(** Joining the parts of a split restores the string. *)
Lemma join_split_char sep s : join [sep] (split_char sep s) = s.
Proof.
  induction s as [|c s IH]; simpl; [done|].
  pose proof (split_char_nonempty sep s).
  destruct (Z.eqb_spec c sep) as [->|].
  - destruct (split_char sep s); simpl in *; [done|]. by rewrite IH.
  - destruct (split_char sep s) as [|w [|w' ws]]; simpl in *; try done; by subst.
Qed.

Lemma split_char_no_sep sep s w : w ∈ split_char sep s → sep ∉ w.
Proof.
  revert w. induction s as [|c s IH]; simpl; intros w Hw.
  - apply list_elem_of_singleton in Hw as ->. apply not_elem_of_nil.
  - destruct (Z.eqb_spec c sep) as [->|].
    + apply elem_of_cons in Hw as [->|Hw]; [apply not_elem_of_nil | auto].
    + destruct (split_char sep s) as [|v vs] eqn:E.
      * by apply split_char_nonempty in E.
      * apply elem_of_cons in Hw as [->|Hw].
        -- apply not_elem_of_cons; split; [done|]. apply IH. left.
        -- apply IH. by right.
Qed.

Lemma split_char_single sep w : sep ∉ w → split_char sep w = [w].
Proof.
  induction w as [|c w IH]; intros Hn; simpl; [done|].
  apply not_elem_of_cons in Hn as [Hc Hn].
  destruct (Z.eqb_spec c sep); [congruence|]. by rewrite IH.
Qed.

Lemma split_char_app sep w s :
  sep ∉ w → split_char sep (w ++ sep :: s) = w :: split_char sep s.
Proof.
  induction w as [|c w IH]; intros Hn; simpl.
  - by rewrite Z.eqb_refl.
  - apply not_elem_of_cons in Hn as [Hc Hn].
    destruct (Z.eqb_spec c sep); [congruence|]. by rewrite IH.
Qed.

(** Splitting a join of separator-free parts restores the parts. *)
Lemma split_join_char sep ws :
  ws ≠ [] → Forall (λ w, sep ∉ w) ws → split_char sep (join [sep] ws) = ws.
Proof.
  intros Hne Hall. induction Hall as [|w ws Hw Hws IH]; [done|].
  destruct ws as [|w' ws].
  - by apply split_char_single.
  - simpl in *. rewrite split_char_app by done. by rewrite IH.
Qed.

Lemma partition_char_spec sep s a f b :
  partition_char sep s = (a, f, b) →
  sep ∉ a ∧ (if f : bool then s = a ++ sep :: b else s = a ∧ b = []).
Proof.
  revert a f b. induction s as [|c s IH]; simpl; intros a f b Hp.
  - injection Hp as <- <- <-. split; [apply not_elem_of_nil | done].
  - destruct (Z.eqb_spec c sep) as [->|].
    + injection Hp as <- <- <-. split; [apply not_elem_of_nil | done].
    + destruct (partition_char sep s) as [[a' f'] b'] eqn:E. injection Hp as <- <- <-.
      destruct (IH _ _ _ eq_refl) as [Hn Hf]. split.
      * by apply not_elem_of_cons.
      * destruct f'; [by rewrite Hf | by destruct Hf as [-> ->]].
Qed.

Lemma partition_char_app sep a b :
  sep ∉ a → partition_char sep (a ++ sep :: b) = (a, true, b).
Proof.
  induction a as [|c a IH]; intros Hn; simpl; [by rewrite Z.eqb_refl|].
  apply not_elem_of_cons in Hn as [Hc Hn].
  destruct (Z.eqb_spec c sep); [congruence|]. by rewrite IH.
Qed.

Lemma partition_char_absent sep a :
  sep ∉ a → partition_char sep a = (a, false, []).
Proof.
  induction a as [|c a IH]; intros Hn; simpl; [done|].
  apply not_elem_of_cons in Hn as [Hc Hn].
  destruct (Z.eqb_spec c sep); [congruence|]. by rewrite IH.
Qed.

Lemma startswith_app p s : startswith p s = true ↔ ∃ k, s = p ++ k.
Proof.
  revert s. induction p as [|a p IH]; intros s; simpl; [naive_solver|].
  destruct s as [|b s]; [split; [done | by intros [? [=]]]|].
  rewrite andb_true_iff, Z.eqb_eq, IH. naive_solver.
Qed.

Lemma lstrip_no_space s : Forall (λ c, is_space c = false) s → lstrip s = s.
Proof. destruct 1 as [|c s Hc]; simpl; [done|]. by rewrite Hc. Qed.

Lemma strip_no_space s : Forall (λ c, is_space c = false) s → strip s = s.
Proof.
  intros Hs. unfold strip, rstrip. rewrite (lstrip_no_space s) by done.
  rewrite lstrip_no_space by by apply Forall_reverse. apply reverse_involutive.
Qed.

(** A string is trimmed when neither end is white space. *)
Definition end_ok (c : option Z) : Prop :=
  match c with Some c => is_space c = false | None => True end.

Lemma lstrip_length s : (length (lstrip s) <= length s)%nat.
Proof. induction s as [|c s IH]; simpl; [lia|]. destruct (is_space c); simpl; lia. Qed.

Lemma lstrip_fixed s : lstrip s = s ↔ end_ok (head s).
Proof.
  destruct s as [|c s]; simpl; [done|]. destruct (is_space c) eqn:E; [|done].
  split; [|done]. intros Hs. pose proof (lstrip_length s). rewrite Hs in *. simpl in *. lia.
Qed.

Lemma rstrip_fixed s : rstrip s = s ↔ end_ok (last s).
Proof.
  unfold rstrip. rewrite <- head_reverse, <- lstrip_fixed. split; [|intros ->; apply reverse_involutive].
  intros E. rewrite <- E at 2. by rewrite reverse_involutive.
Qed.

Lemma lstrip_length_eq s : length (lstrip s) = length s → lstrip s = s.
Proof.
  destruct s as [|c s]; simpl; [done|]. destruct (is_space c); [|done].
  pose proof (lstrip_length s). lia.
Qed.

Lemma strip_fixed s : strip s = s ↔ end_ok (head s) ∧ end_ok (last s).
Proof.
  unfold strip. rewrite <- lstrip_fixed, <- rstrip_fixed. split; [|by intros [-> ->]].
  intros E. assert (lstrip s = s) as Hl.
  { apply lstrip_length_eq. pose proof (lstrip_length s) as H1.
    apply (f_equal length) in E. unfold rstrip in E. rewrite length_reverse in E.
    pose proof (lstrip_length (reverse (lstrip s))) as H2. rewrite length_reverse in H2. lia. }
  split; [done|]. by rewrite Hl in E.
Qed.

(** ** Decimal numerals *)

Lemma py_int_app s c : py_int (s ++ [c]) = 10 * py_int s + (c - 48).
Proof. unfold py_int. by rewrite foldl_app. Qed.

Lemma log2_div10 n : 10 <= n → (Z.to_nat (Z.log2 (n / 10)) < Z.to_nat (Z.log2 n))%nat.
Proof.
  intros Hn. assert (Z.log2 (n / 10) < Z.log2 n); [|pose proof (Z.log2_nonneg (n / 10)); lia].
  apply Z.log2_lt_pow2; [apply Z.div_str_pos; lia|].
  pose proof (Z.log2_spec n ltac:(lia)) as [_ Hlt].
  rewrite Z.pow_succ_r in Hlt by apply Z.log2_nonneg.
  apply Z.div_lt_upper_bound; lia.
Qed.

Lemma dec_digits_int fuel n :
  0 <= n → (Z.to_nat (Z.log2 n) < fuel)%nat → py_int (dec_digits fuel n) = n.
Proof.
  revert n. induction fuel as [|f IH]; intros n Hn Hf; [lia|]. simpl.
  destruct (Z.ltb_spec n 10) as [Hlt|Hge].
  - unfold py_int; simpl. lia.
  - rewrite py_int_app, IH.
    + pose proof (Z.div_mod n 10). lia.
    + apply Z.div_pos; lia.
    + pose proof (log2_div10 n Hge). lia.
Qed.

(** [int(str(n)) == n] *)
Lemma py_int_str n : 0 <= n → py_int (str_of_nonneg n) = n.
Proof. intros Hn. apply dec_digits_int; [done | lia]. Qed.

Lemma dec_digits_digits fuel n : 0 <= n → Forall (λ c, is_digit c = true) (dec_digits fuel n).
Proof.
  assert (∀ k, 0 <= k < 10 → is_digit (48 + k) = true) as Hd.
  { intros k Hk. unfold is_digit, in_range. apply andb_true_iff.
    split; apply Z.leb_le; lia. }
  revert n. induction fuel as [|f IH]; intros n Hn; simpl; [constructor|].
  destruct (Z.ltb_spec n 10).
  - constructor; [apply Hd; lia | constructor].
  - apply Forall_app; split; [apply IH, Z.div_pos; lia|].
    constructor; [|constructor]. apply Hd, Z.mod_pos_bound; lia.
Qed.

Lemma dec_digits_fuel f f' n :
  0 <= n → (Z.to_nat (Z.log2 n) < f)%nat → (Z.to_nat (Z.log2 n) < f')%nat →
  dec_digits f n = dec_digits f' n.
Proof.
  revert f' n. induction f as [|f IH]; intros [|f'] n Hn Hf Hf'; try lia. simpl.
  destruct (Z.ltb_spec n 10); [done|].
  pose proof (log2_div10 n ltac:(done)).
  rewrite (IH f' (n / 10)); [done | apply Z.div_pos; lia | lia | lia].
Qed.

Lemma str_of_nonneg_step n d :
  1 <= n → 0 <= d < 10 → str_of_nonneg (10 * n + d) = str_of_nonneg n ++ [48 + d].
Proof.
  intros Hn Hd. unfold str_of_nonneg at 1. simpl.
  destruct (Z.ltb_spec (10 * n + d) 10); [lia|].
  assert ((10 * n + d) / 10 = n) as Hdiv by (symmetry; apply Z.div_unique with d; lia).
  assert ((10 * n + d) mod 10 = d) as Hmod by (symmetry; apply Z.mod_unique with n; lia).
  rewrite Hdiv, Hmod. f_equal. unfold str_of_nonneg. apply dec_digits_fuel; [lia| |lia].
  pose proof (log2_div10 (10 * n + d) ltac:(lia)) as Hlog. by rewrite Hdiv in Hlog.
Qed.

(** The canonical decimal numerals [0|[1-9][0-9]*]. *)
Definition canonical_digits (s : pystr) : bool :=
  str_isdigit s && negb ((1 <? length s)%nat && startswith [48] s).

Lemma py_int_nonneg s : Forall (λ c, is_digit c = true) s → 0 <= py_int s.
Proof.
  induction s as [|c s IH] using rev_ind; [done|].
  rewrite Forall_app, py_int_app. intros [Hs Hc]. rewrite Forall_singleton in Hc.
  specialize (IH Hs). unfold is_digit, in_range in Hc. split_bool. lia.
Qed.

Lemma str_isdigit_Forall s :
  str_isdigit s = true ↔ s ≠ [] ∧ Forall (λ c, is_digit c = true) s.
Proof.
  destruct s as [|c s]; [split; [done | by intros []]|].
  change (str_isdigit (c :: s)) with (forallb is_digit (c :: s)).
  rewrite forallb_Forall. naive_solver.
Qed.

Lemma py_int_pos c s :
  c ≠ 48 → Forall (λ c, is_digit c = true) (c :: s) → 1 <= py_int (c :: s).
Proof.
  intros Hc. induction s as [|d s IH] using rev_ind; intros Hf.
  - rewrite Forall_singleton in Hf. unfold py_int, is_digit, in_range in *. simpl. split_bool. lia.
  - rewrite app_comm_cons, Forall_app in Hf. destruct Hf as [Hf Hd].
    rewrite Forall_singleton in Hd. specialize (IH Hf).
    rewrite app_comm_cons, py_int_app. unfold is_digit, in_range in Hd. split_bool. lia.
Qed.

(** [str(int(s)) == s] for a canonical numeral. *)
Lemma str_py_int s : canonical_digits s = true → str_of_nonneg (py_int s) = s.
Proof.
  induction s as [|c s IH] using rev_ind; [done|].
  unfold canonical_digits. intros Hc. apply andb_true_iff in Hc as [Hd Hz].
  apply str_isdigit_Forall in Hd as [_ Hd]. rewrite Forall_app in Hd. destruct Hd as [Hs Hc].
  rewrite Forall_singleton in Hc. rewrite py_int_app.
  assert (0 <= c - 48 < 10) by (unfold is_digit, in_range in Hc; split_bool; lia).
  destruct s as [|a s].
  - replace (10 * py_int [] + (c - 48)) with (c - 48) by (unfold py_int; simpl; lia).
    unfold str_of_nonneg. simpl. destruct (Z.ltb_spec (c - 48) 10); [f_equal; lia | lia].
  - assert (a ≠ 48) as Ha.
    { intros ->. apply negb_true_iff in Hz. rewrite length_app in Hz. simpl in Hz.
      rewrite Nat.add_comm in Hz. done. }
    rewrite str_of_nonneg_step; [|by apply py_int_pos | done].
    rewrite IH; [f_equal; f_equal; lia|].
    unfold canonical_digits. apply andb_true_iff. split.
    + by apply str_isdigit_Forall.
    + apply negb_true_iff, andb_false_iff. right.
      apply andb_false_iff. left. apply Z.eqb_neq. congruence.
Qed.

Lemma dec_digits_length fuel n k :
  0 <= n < 10 ^ (Z.of_nat k) → (1 <= k)%nat → (length (dec_digits fuel n) <= k)%nat.
Proof.
  revert n k. induction fuel as [|f IH]; intros n k Hn Hk; simpl; [lia|].
  destruct (Z.ltb_spec n 10); [simpl; lia|]. rewrite length_app. simpl.
  destruct k as [|[|k]]; [lia | simpl in Hn; lia|].
  assert (length (dec_digits f (n / 10)) <= S k)%nat; [|lia]. apply IH; [|lia].
  rewrite Nat2Z.inj_succ, Z.pow_succ_r in Hn by lia.
  split; [apply Z.div_pos; lia | apply Z.div_lt_upper_bound; lia].
Qed.

Lemma dec_digits_head fuel m :
  0 < m → (Z.to_nat (Z.log2 m) < fuel)%nat → ∃ c s, dec_digits fuel m = c :: s ∧ c ≠ 48.
Proof.
  revert m. induction fuel as [|f IH]; intros m Hm Hf; [lia|]. simpl.
  destruct (Z.ltb_spec m 10) as [|Hge].
  - exists (48 + m), []. split; [done | lia].
  - pose proof (log2_div10 m Hge).
    destruct (IH (m / 10)) as (c & s & -> & Hc); [apply Z.div_str_pos; lia | lia|].
    by exists c, (s ++ [48 + m mod 10]).
Qed.

Lemma str_of_nonneg_canonical n : 0 <= n → canonical_digits (str_of_nonneg n) = true.
Proof.
  intros Hn. destruct (Z.eq_dec n 0) as [->|Hne]; [done|].
  destruct (dec_digits_head (S (Z.to_nat (Z.log2 n))) n) as (c & s & E & Hc); [lia..|].
  pose proof (dec_digits_digits (S (Z.to_nat (Z.log2 n))) n Hn) as Hd.
  unfold canonical_digits, str_of_nonneg. rewrite E in *. apply andb_true_iff. split.
  - by apply str_isdigit_Forall.
  - apply negb_true_iff, andb_false_iff. right.
    apply andb_false_iff. left. apply Z.eqb_neq. congruence.
Qed.

Lemma py_int_bound s : Forall (λ c, is_digit c = true) s → py_int s < 10 ^ Z.of_nat (length s).
Proof.
  induction s as [|c s IH] using rev_ind; [done|].
  rewrite Forall_app, py_int_app, length_app. intros [Hs Hc]. rewrite Forall_singleton in Hc.
  specialize (IH Hs). unfold is_digit, in_range in Hc. split_bool.
  rewrite Nat.add_comm. simpl length. rewrite Nat2Z.inj_add, Z.pow_add_r by lia.
  change (Z.of_nat 1) with 1. lia.
Qed.

Lemma canonical_digits_Forall s :
  canonical_digits s = true → s ≠ [] ∧ Forall (λ c, is_digit c = true) s.
Proof. intros [Hd _]%andb_true_iff. by apply str_isdigit_Forall. Qed.
