(* ===== verification/Sha256.v ===== *)
(** * SHA-256 and HMAC-SHA-256

    An executable definition of the two digests of Python's [hashlib] and
    [hmac] that the modelled code uses, over byte strings [list Z].  The test
    vectors at the end are those of FIPS 180-4 and RFC 4231.  The components
    only use that a digest is a function of its input and has 64 lowercase
    hexadecimal digits ([hexdigest_shape]). *)

From S2P Require Import Prelude PyStr.
Local Open Scope Z_scope.

Definition w32 (x : Z) : Z := Z.land x 4294967295.
Definition rotr (n x : Z) : Z :=
  Z.lor (Z.shiftr x n) (w32 (Z.shiftl x (32 - n))).

Definition sha_k : list Z :=
  [1116352408; 1899447441; 3049323471; 3921009573; 961987163; 1508970993; 2453635748; 2870763221;
   3624381080; 310598401; 607225278; 1426881987; 1925078388; 2162078206; 2614888103; 3248222580;
   3835390401; 4022224774; 264347078; 604807628; 770255983; 1249150122; 1555081692; 1996064986;
   2554220882; 2821834349; 2952996808; 3210313671; 3336571891; 3584528711; 113926993; 338241895;
   666307205; 773529912; 1294757372; 1396182291; 1695183700; 1986661051; 2177026350; 2456956037;
   2730485921; 2820302411; 3259730800; 3345764771; 3516065817; 3600352804; 4094571909; 275423344;
   430227734; 506948616; 659060556; 883997877; 958139571; 1322822218; 1537002063; 1747873779;
   1955562222; 2024104815; 2227730452; 2361852424; 2428436474; 2756734187; 3204031479; 3329325298].

Definition sha_h0 : list Z :=
  [1779033703; 3144134277; 1013904242; 2773480762; 1359893119; 2600822924; 528734635; 1541459225].

(** Big-endian encoding of [x] in [n] bytes, and words of four bytes. *)
Fixpoint be_bytes (n : nat) (x : Z) : list Z :=
  match n with
  | O => []
  | S n => be_bytes n (Z.shiftr x 8) ++ [Z.land x 255]
  end.
Fixpoint be_words (bs : list Z) : list Z :=
  match bs with
  | a :: b :: c :: d :: bs =>
      Z.lor (Z.lor (Z.shiftl a 24) (Z.shiftl b 16)) (Z.lor (Z.shiftl c 8) d) :: be_words bs
  | _ => []
  end.

Definition sha_pad (m : list Z) : list Z :=
  let n := Z.of_nat (length m) in
  let zeros := (55 - n) mod 64 in
  m ++ [128] ++ replicate (Z.to_nat zeros) 0 ++ be_bytes 8 (8 * n).

(** Message schedule, kept most recent word first. *)
Fixpoint sha_schedule (n : nat) (w : list Z) : list Z :=
  match n with
  | O => w
  | S n =>
      match w with
      | w1 :: w2 :: w3 :: w4 :: w5 :: w6 :: w7 :: w8 :: w9 :: w10 :: w11 :: w12 :: w13 :: w14
        :: w15 :: w16 :: _ =>
          let s0 := Z.lxor (Z.lxor (rotr 7 w15) (rotr 18 w15)) (Z.shiftr w15 3) in
          let s1 := Z.lxor (Z.lxor (rotr 17 w2) (rotr 19 w2)) (Z.shiftr w2 10) in
          sha_schedule n (w32 (w16 + s0 + w7 + s1) :: w)
      | _ => w
      end
  end.

Definition sha_round (st : list Z) (kw : Z * Z) : list Z :=
  match st with
  | [a; b; c; d; e; f; g; h] =>
      let s1 := Z.lxor (Z.lxor (rotr 6 e) (rotr 11 e)) (rotr 25 e) in
      let ch := Z.lxor (Z.land e f) (Z.land (Z.lxor e 4294967295) g) in
      let t1 := w32 (h + s1 + ch + kw.1 + kw.2) in
      let s0 := Z.lxor (Z.lxor (rotr 2 a) (rotr 13 a)) (rotr 22 a) in
      let maj := Z.lxor (Z.lxor (Z.land a b) (Z.land a c)) (Z.land b c) in
      let t2 := w32 (s0 + maj) in
      [w32 (t1 + t2); a; b; c; w32 (d + t1); e; f; g]
  | _ => st
  end.

Definition sha_block (st : list Z) (block : list Z) : list Z :=
  let w := reverse (sha_schedule 48 (reverse (be_words block))) in
  let st' := foldl sha_round st (zip sha_k w) in
  zip_with (λ x y, w32 (x + y)) st st'.

Fixpoint sha_blocks (fuel : nat) (st : list Z) (m : list Z) : list Z :=
  match fuel, m with
  | S fuel, _ :: _ => sha_blocks fuel (sha_block st (take 64 m)) (drop 64 m)
  | _, _ => st
  end.

(** [hashlib.sha256(m).digest()]: the padded message has at most
    [length m / 64 + 2] blocks. *)
Definition sha256 (m : list Z) : list Z :=
  mjoin (be_bytes 4 <$> sha_blocks (length m / 64 + 2) sha_h0 (sha_pad m)).

Definition hex_digit (n : Z) : Z := if n <? 10 then 48 + n else 87 + n.
Definition hex_byte (b : Z) : pystr := [hex_digit (Z.land (Z.shiftr b 4) 15); hex_digit (Z.land b 15)].
(** [.hexdigest()] *)
Definition hexdigest (bs : list Z) : pystr := mjoin (hex_byte <$> bs).

(** [hashlib.sha256(m).hexdigest()] *)
Definition sha256_hex (m : list Z) : pystr := hexdigest (sha256 m).

(** [hmac.new(key, m, hashlib.sha256)], [.digest()] and [.hexdigest()] *)
Definition hmac_sha256 (key m : list Z) : list Z :=
  let k0 := if (64 <? Z.of_nat (length key)) then sha256 key else key in
  let k := k0 ++ replicate (64 - length k0) 0 in
  sha256 ((Z.lxor 92 <$> k) ++ sha256 ((Z.lxor 54 <$> k) ++ m)).
Definition hmac_sha256_hex (key m : list Z) : pystr := hexdigest (hmac_sha256 key m).

(** ** Shape of a digest *)

Definition is_hex (c : Z) : bool := is_digit c || in_range 97 102 c.

Lemma hex_digit_hex n : 0 <= n < 16 → is_hex (hex_digit n) = true.
Proof.
  intros Hn. unfold hex_digit, is_hex, is_digit, in_range.
  destruct (Z.ltb_spec n 10); apply orb_true_iff; [left | right];
    apply andb_true_iff; split; apply Z.leb_le; lia.
Qed.

Lemma land_15 x : 0 <= Z.land x 15 < 16.
Proof. change 15 with (Z.ones 4). rewrite Z.land_ones by lia. apply Z.mod_pos_bound. lia. Qed.

Lemma hexdigest_hex bs : Forall (λ c, is_hex c = true) (hexdigest bs).
Proof.
  unfold hexdigest. induction bs as [|b bs IH]; simpl; [constructor|].
  repeat constructor; [apply hex_digit_hex, land_15 .. | done].
Qed.

Lemma hexdigest_length bs : length (hexdigest bs) = (2 * length bs)%nat.
Proof.
  induction bs as [|b bs IH]; [done|].
  change (hexdigest (b :: bs)) with (hex_byte b ++ hexdigest bs).
  rewrite length_app, IH. simpl. lia.
Qed.

Lemma sha_round_length st kw : length (sha_round st kw) = length st.
Proof. unfold sha_round. by repeat case_match; subst. Qed.

Lemma sha_block_length st b : length st = 8%nat → length (sha_block st b) = 8%nat.
Proof.
  intros Hst. unfold sha_block. rewrite length_zip_with.
  assert (∀ l st, length (foldl sha_round st l) = length st) as ->.
  { induction l as [|x l IH]; intros s; simpl; [done|]. by rewrite IH, sha_round_length. }
  lia.
Qed.

Lemma be_bytes_length n x : length (be_bytes n x) = n.
Proof. revert x. induction n; intros x; simpl; [done|]. rewrite length_app, IHn. simpl. lia. Qed.

Lemma sha256_length m : length (sha256 m) = 32%nat.
Proof.
  unfold sha256.
  assert (∀ fuel st m, length st = 8%nat → length (sha_blocks fuel st m) = 8%nat) as Hb.
  { induction fuel as [|fuel IH]; intros st k Hst; simpl; [done|].
    destruct k; [done|]. by apply IH, sha_block_length. }
  generalize (Hb (length m / 64 + 2)%nat sha_h0 (sha_pad m) eq_refl).
  generalize (sha_blocks (length m / 64 + 2) sha_h0 (sha_pad m)).
  intros l Hl. do 9 (destruct l as [|? l]; try done).
Qed.

(** A digest is 64 lowercase hexadecimal digits. *)
Lemma sha256_hex_shape m :
  length (sha256_hex m) = 64%nat ∧ Forall (λ c, is_hex c = true) (sha256_hex m).
Proof.
  split; [|apply hexdigest_hex]. unfold sha256_hex. by rewrite hexdigest_length, sha256_length.
Qed.

(** ** Test vectors *)

Local Open Scope py_scope.

Example sha256_empty :
  sha256_hex [] = $"e3b0c44298fc1c149afbf4c8996fb92427ae41e4649b934ca495991b7852b855".
Proof. vm_compute. reflexivity. Qed.

Example sha256_abc :
  sha256_hex ($"abc") = $"ba7816bf8f01cfea414140de5dae2223b00361a396177a9cb410ff61f20015ad".
Proof. vm_compute. reflexivity. Qed.

Example sha256_two_blocks :
  sha256_hex ($"abcdbcdecdefdefgefghfghighijhijkijkljklmklmnlmnomnopnopq")
  = $"248d6a61d20638b8e5c026930c3e6039a33ce45964ff2167f6ecedd419db06c1".
Proof. vm_compute. reflexivity. Qed.

Example hmac_sha256_rfc4231_2 :
  hmac_sha256_hex ($"Jefe") ($"what do ya want for nothing?")
  = $"5bdcc146bf60754e6a042426089575c75a003f089d2739839dec58b964ec3843".
Proof. vm_compute. reflexivity. Qed.

Global Opaque sha256.
