(* ===== verification/Regex.v ===== *)
(** * Regular expressions: [re.fullmatch]

    The patterns of the modelled code use literals, character sets, grouping,
    alternation, [?], [*], [+] and bounded repetition, under [fullmatch]; for
    these [fullmatch] is membership in the regular language of the pattern.
    [fullmatch] below computes it with derivatives, and [fullmatch_spec] shows
    that it decides the inductively defined language. *)

From S2P Require Import Prelude PyStr Sha256.
Local Open Scope Z_scope.
Local Open Scope py_scope.

Inductive regex :=
  | RVoid
  | REps
  | RSet (ranges : list (Z * Z))     (* [a-z0-9] *)
  | RCat (r s : regex)
  | RAlt (r s : regex)
  | RStar (r : regex).

(** Derived forms: [r?], [r+], [r{n}], [r{m,n}], literal text, one character. *)
Definition ROpt (r : regex) : regex := RAlt REps r.
Definition RPlus (r : regex) : regex := RCat r (RStar r).
Definition RChr (c : Z) : regex := RSet [(c, c)].
Definition RLit (s : pystr) : regex := foldr (λ c r, RCat (RChr c) r) REps s.
Fixpoint RRep (n : nat) (r : regex) : regex :=
  match n with O => REps | S n => RCat r (RRep n r) end.
Fixpoint RUpTo (n : nat) (r : regex) : regex :=
  match n with O => REps | S n => ROpt (RCat r (RUpTo n r)) end.

Definition in_set (ranges : list (Z * Z)) (c : Z) : bool :=
  existsb (λ p, in_range p.1 p.2 c) ranges.

(** The language of a pattern. *)
Inductive re_matches : regex → pystr → Prop :=
  | m_eps : re_matches REps []
  | m_set rs c : in_set rs c = true → re_matches (RSet rs) [c]
  | m_cat r s x y : re_matches r x → re_matches s y → re_matches (RCat r s) (x ++ y)
  | m_alt_l r s x : re_matches r x → re_matches (RAlt r s) x
  | m_alt_r r s x : re_matches s x → re_matches (RAlt r s) x
  | m_star_nil r : re_matches (RStar r) []
  | m_star_cons r c x y :
      re_matches r (c :: x) → re_matches (RStar r) y → re_matches (RStar r) (c :: x ++ y).

Fixpoint nullable (r : regex) : bool :=
  match r with
  | RVoid => false
  | REps => true
  | RSet _ => false
  | RCat r s => nullable r && nullable s
  | RAlt r s => nullable r || nullable s
  | RStar _ => true
  end.

(** Constructors that drop void and empty operands, to keep derivatives small. *)
Definition rcat (r s : regex) : regex :=
  match r, s with
  | RVoid, _ => RVoid
  | _, RVoid => RVoid
  | REps, s => s
  | r, s => RCat r s
  end.
Definition ralt (r s : regex) : regex :=
  match r, s with
  | RVoid, s => s
  | r, RVoid => r
  | r, s => RAlt r s
  end.

Fixpoint deriv (c : Z) (r : regex) : regex :=
  match r with
  | RVoid | REps => RVoid
  | RSet rs => if in_set rs c then REps else RVoid
  | RCat r s =>
      if nullable r then ralt (rcat (deriv c r) s) (deriv c s) else rcat (deriv c r) s
  | RAlt r s => ralt (deriv c r) (deriv c s)
  | RStar r => rcat (deriv c r) (RStar r)
  end.

Fixpoint fullmatch (r : regex) (s : pystr) : bool :=
  match s with
  | [] => nullable r
  | c :: s => fullmatch (deriv c r) s
  end.

(** ** Correctness of the matcher *)

Lemma matches_void x : ¬ re_matches RVoid x.
Proof. inversion 1. Qed.

Lemma matches_cat r s z :
  re_matches (RCat r s) z ↔ ∃ x y, z = x ++ y ∧ re_matches r x ∧ re_matches s y.
Proof. split; [inversion 1; eauto 6 | intros (?&?&->&?&?); by constructor]. Qed.

Lemma matches_alt r s z : re_matches (RAlt r s) z ↔ re_matches r z ∨ re_matches s z.
Proof. split; [inversion 1; eauto | intros []; [by apply m_alt_l | by apply m_alt_r]]. Qed.

Lemma matches_eps z : re_matches REps z ↔ z = [].
Proof. split; [by inversion 1 | intros ->; constructor]. Qed.

Lemma rcat_spec r s z : re_matches (rcat r s) z ↔ re_matches (RCat r s) z.
Proof.
  assert (∀ s, re_matches (RCat REps s) z ↔ re_matches s z) as Heps.
  { intros k. rewrite matches_cat. setoid_rewrite matches_eps.
    split; [by intros (?&?&->&->&?) | intros; exists [], z; done]. }
  assert (∀ r, ¬ re_matches (RCat r RVoid) z) as Hv.
  { intros k. rewrite matches_cat. intros (?&?&?&?&[]%matches_void). }
  destruct r, s; simpl; try done; try (by rewrite Heps);
    split; try (by intros []%matches_void); try (by intros []%Hv);
    rewrite matches_cat; intros (?&?&?&[]%matches_void&?).
Qed.

Lemma ralt_spec r s z : re_matches (ralt r s) z ↔ re_matches (RAlt r s) z.
Proof.
  rewrite matches_alt.
  assert (¬ re_matches RVoid z) by apply matches_void.
  destruct r, s; simpl; rewrite ?matches_alt; tauto.
Qed.

Lemma nullable_spec r : nullable r = true ↔ re_matches r [].
Proof.
  induction r as [| |rs|r IHr s IHs|r IHr s IHs|r IHr]; simpl.
  - split; [done | by intros []%matches_void].
  - split; [constructor | done].
  - split; [done | inversion 1].
  - rewrite andb_true_iff, IHr, IHs, matches_cat. split.
    + intros []; by exists [], [].
    + intros (x & y & Hxy & ? & ?). symmetry in Hxy. by apply app_nil in Hxy as [-> ->].
  - by rewrite orb_true_iff, IHr, IHs, matches_alt.
  - split; [constructor | done].
Qed.

Lemma deriv_spec c r z : re_matches (deriv c r) z ↔ re_matches r (c :: z).
Proof.
  revert z. induction r as [| |rs|r IHr s IHs|r IHr s IHs|r IHr]; intros z; simpl.
  - split; intros []%matches_void.
  - split; [by intros []%matches_void | inversion 1].
  - destruct (in_set rs c) eqn:E.
    + rewrite matches_eps. split; [intros ->; by constructor | by inversion 1].
    + split; [by intros []%matches_void | inversion 1; congruence].
  - assert (re_matches (rcat (deriv c r) s) z ↔
      ∃ x y, z = x ++ y ∧ re_matches r (c :: x) ∧ re_matches s y) as Hd.
    { rewrite rcat_spec, matches_cat. by setoid_rewrite IHr. }
    assert (re_matches (RCat r s) (c :: z) ↔
      (∃ x y, z = x ++ y ∧ re_matches r (c :: x) ∧ re_matches s y) ∨
      (re_matches r [] ∧ re_matches s (c :: z))) as Hc.
    { rewrite matches_cat. split.
      - intros ([|d x] & y & Hxy & ? & ?); simplify_eq/=; eauto 6.
      - intros [(x & y & -> & ? & ?)|[? ?]]; [by exists (c :: x), y | by exists [], (c :: z)]. }
    rewrite Hc, <- nullable_spec. destruct (nullable r).
    + rewrite ralt_spec, matches_alt, Hd, IHs. naive_solver.
    + rewrite Hd. naive_solver.
  - by rewrite ralt_spec, !matches_alt, IHr, IHs.
  - rewrite rcat_spec, matches_cat. setoid_rewrite IHr. split.
    + intros (x & y & -> & ? & ?). by constructor.
    + inversion 1; subst; eauto 6.
Qed.

(** [fullmatch] decides the language of the pattern. *)
Lemma fullmatch_spec r s : fullmatch r s = true ↔ re_matches r s.
Proof.
  revert r. induction s as [|c s IH]; intros r; simpl.
  - apply nullable_spec.
  - by rewrite IH, deriv_spec.
Qed.

(** ** Lemmas on derived forms *)

Lemma matches_set rs z : re_matches (RSet rs) z ↔ ∃ c, z = [c] ∧ in_set rs c = true.
Proof. split; [inversion 1; eauto | intros (?&->&?); by constructor]. Qed.

Lemma matches_chr c z : re_matches (RChr c) z ↔ z = [c].
Proof.
  unfold RChr. rewrite matches_set. unfold in_set, in_range; simpl.
  split.
  - intros (d & -> & Hd). rewrite orb_false_r in Hd. split_bool. f_equal. lia.
  - intros ->. exists c. split; [done|]. rewrite orb_false_r.
    apply andb_true_iff; split; apply Z.leb_refl.
Qed.

Lemma matches_opt r z : re_matches (ROpt r) z ↔ z = [] ∨ re_matches r z.
Proof. unfold ROpt. by rewrite matches_alt, matches_eps. Qed.

Lemma matches_lit s z : re_matches (RLit s) z ↔ z = s.
Proof.
  revert z. induction s as [|c s IH]; intros z; simpl; [apply matches_eps|].
  rewrite matches_cat. split.
  - intros (x & y & -> & Hx%matches_chr & Hy%IH). by subst.
  - intros ->. exists [c], s. split; [done|]. by rewrite matches_chr, IH.
Qed.

(** Every character of a match comes from the sets of the pattern. *)
Fixpoint re_chars (P : Z → Prop) (r : regex) : Prop :=
  match r with
  | RVoid | REps => True
  | RSet rs => ∀ c, in_set rs c = true → P c
  | RCat r s | RAlt r s => re_chars P r ∧ re_chars P s
  | RStar r => re_chars P r
  end.

Lemma matches_chars P r z : re_chars P r → re_matches r z → Forall P z.
Proof.
  intros HP Hm. induction Hm as [|rs c Hc|r s x y ? IHx ? IHy|r s x ? IHx|r s x ? IHx
    |r|r c x y ? IHx ? IHy]; simpl in *; try constructor; eauto.
  - destruct HP. apply Forall_app; eauto.
  - apply IHx. tauto.
  - apply IHx. tauto.
  - by apply IHx in HP as HP'; inversion HP'.
  - apply Forall_app; split; [|auto]. specialize (IHx HP). by inversion IHx.
Qed.

Lemma matches_rep_length rs n z : re_matches (RRep n (RSet rs)) z → length z = n.
Proof.
  revert z. induction n as [|n IH]; simpl; intros z.
  - by intros ->%matches_eps.
  - intros (x & y & -> & (c & -> & _)%matches_set & Hy)%matches_cat. simpl. by rewrite (IH y).
Qed.

Lemma matches_rep_set rs n z :
  re_matches (RRep n (RSet rs)) z ↔ length z = n ∧ Forall (λ c, in_set rs c = true) z.
Proof.
  split.
  - intros Hm. split; [by eapply matches_rep_length|].
    eapply matches_chars; [|exact Hm]. clear. induction n; simpl; eauto.
  - revert z. induction n as [|n IH]; intros z [Hl Hf]; simpl.
    + destruct z; [constructor | done].
    + destruct z as [|c z]; [done|]. inversion Hf; subst. simplify_eq/=.
      apply (m_cat _ _ [c] z); [by constructor | by apply IH].
Qed.

Lemma matches_star_set rs z :
  re_matches (RStar (RSet rs)) z ↔ Forall (λ c, in_set rs c = true) z.
Proof.
  split.
  - intros Hm. eapply matches_chars; [|exact Hm]. simpl. done.
  - induction 1 as [|c z Hc Hz IH]; [constructor|].
    apply (m_star_cons (RSet rs) c [] z); [by constructor | done].
Qed.

(** Inclusion of languages, with its congruences. *)
Definition re_incl (r s : regex) : Prop := ∀ z, re_matches r z → re_matches s z.

Lemma re_incl_refl r : re_incl r r.
Proof. by intros z. Qed.

Lemma re_incl_set rs rs' :
  (∀ c, in_set rs c = true → in_set rs' c = true) → re_incl (RSet rs) (RSet rs').
Proof. intros H z (c & -> & Hc)%matches_set. constructor. auto. Qed.

Lemma re_incl_cat r r' s s' : re_incl r r' → re_incl s s' → re_incl (RCat r s) (RCat r' s').
Proof. intros Hr Hs z (x & y & -> & ? & ?)%matches_cat. constructor; auto. Qed.

Lemma re_incl_star r r' : re_incl r r' → re_incl (RStar r) (RStar r').
Proof.
  intros Hr z Hm. remember (RStar r) as k eqn:E.
  induction Hm as [| | | | |r0|r0 c x y ? _ ? IH]; try discriminate E; injection E as ->.
  - constructor.
  - constructor; auto.
Qed.

#[export] Hint Resolve re_incl_refl re_incl_cat re_incl_star : guard.

Lemma in_set_subrange rs rs' c :
  (∀ p, p ∈ rs → ∃ q, q ∈ rs' ∧ q.1 <= p.1 ∧ p.2 <= q.2) →
  in_set rs c = true → in_set rs' c = true.
Proof.
  intros Hsub. unfold in_set. rewrite !existsb_Exists, !Exists_exists.
  intros (p & Hp & Hc). destruct (Hsub p Hp) as (q & Hq & ? & ?). exists q. split; [done|].
  unfold in_range in *. split_bool. apply andb_true_iff. split; apply Z.leb_le; lia.
Qed.

(** Decides inclusion of concrete character sets, range by range. *)
Definition ranges_sub (rs rs' : list (Z * Z)) : bool :=
  forallb (λ p, existsb (λ q, (q.1 <=? p.1) && (p.2 <=? q.2)) rs') rs.

Lemma ranges_sub_spec rs rs' c :
  ranges_sub rs rs' = true → in_set rs c = true → in_set rs' c = true.
Proof.
  intros Hs. apply in_set_subrange. unfold ranges_sub in Hs.
  rewrite forallb_Forall, Forall_forall in Hs.
  intros p Hp. specialize (Hs p Hp). rewrite existsb_Exists, Exists_exists in Hs.
  destruct Hs as (q & Hq & Hs). exists q. split_bool. split; [done|]. lia.
Qed.

(** Implications between memberships in concrete character sets. *)
Ltac solve_in_set :=
  unfold in_set, in_range; simpl;
  rewrite ?orb_false_r, ?orb_true_iff, ?andb_true_iff, ?Z.leb_le; lia.

(** ** Character sets and patterns several modules share *)

Definition az : list (Z * Z) := [(97, 122)].                   (* [a-z] *)
Definition az09 : list (Z * Z) := [(97, 122); (48, 57)].       (* [a-z0-9] *)
Definition hex09 : list (Z * Z) := [(48, 57); (97, 102)].      (* [0-9a-f] *)

(** [[0-9a-f]{64}] *)
Definition SHA256_RE : regex := RRep 64 (RSet hex09).

Lemma sha256_hex_matches m : fullmatch SHA256_RE (sha256_hex m) = true.
Proof.
  apply fullmatch_spec, matches_rep_set. destruct (sha256_hex_shape m) as [Hl Hf].
  split; [done|]. eapply Forall_impl; [exact Hf|]. intros c Hc.
  unfold is_hex, is_digit in Hc. unfold in_set; simpl. by rewrite orb_false_r.
Qed.
