(* ===== verification/PyVal.v ===== *)
(** * Untyped Python values and canonical JSON

    [pyval] is what an [object]-typed argument can be at the boundaries of the
    modelled code: JSON data without fractional numbers, plus values of any
    other type ([POther], which carries the type's name and a tag that tells
    values that are not equal apart).  Mappings are association lists in insertion
    order with string keys.  [json] is the subset [json.dumps] serializes, and
    [dumps] is [json.dumps(v, sort_keys=True, separators=(",", ":"),
    ensure_ascii=True)]. *)

From S2P Require Import Prelude PyStr Sha256.
Local Open Scope Z_scope.
Local Open Scope py_scope.

Inductive pyval :=
  | PNone
  | PBool (b : bool)
  | PInt (n : Z)
  | PStr (s : pystr)
  | PList (l : list pyval)
  | PDict (kv : list (pystr * pyval))
  | POther (type_name : string) (tag : Z).

(** [type(v).__name__] *)
Definition type_name (v : pyval) : string :=
  match v with
  | PNone => "NoneType"
  | PBool _ => "bool"
  | PInt _ => "int"
  | PStr _ => "str"
  | PList _ => "list"
  | PDict _ => "dict"
  | POther n _ => n
  end.

(** ** Dictionaries *)

(** [d.get(k)] as an option: [None] when the key is absent. *)
Fixpoint dict_lookup {V} (k : pystr) (d : list (pystr * V)) : option V :=
  match d with
  | [] => None
  | (k', v) :: d' => if decide (k = k') then Some v else dict_lookup k d'
  end.

(** [d[k] = v]: in place when [k] is present, appended otherwise. *)
Fixpoint dict_set {V} (k : pystr) (v : V) (d : list (pystr * V)) : list (pystr * V) :=
  match d with
  | [] => [(k, v)]
  | (k', v') :: d' => if decide (k = k') then (k', v) :: d' else (k', v') :: dict_set k v d'
  end.

(** [d.pop(k, None)] *)
Fixpoint dict_pop {V} (k : pystr) (d : list (pystr * V)) : list (pystr * V) :=
  match d with
  | [] => []
  | (k', v') :: d' => if decide (k = k') then dict_pop k d' else (k', v') :: dict_pop k d'
  end.

(** [doomed = [k for k, v in d.items() if p(v)]; for k in doomed: del d[k]]:
    the keys a sweep removes, and the sweep. *)
Definition dict_doomed {V} (p : V → bool) (d : list (pystr * V)) : list pystr :=
  (filter (λ x, p x.2 = true) d).*1.
Definition dict_sweep {V} (p : V → bool) (d : list (pystr * V)) : list (pystr * V) :=
  foldl (λ d k, dict_pop k d) d (dict_doomed p d).

Definition dict_keys {V} (d : list (pystr * V)) : list pystr := d.*1.

(** [d.get(k)] with the default [None]. *)
Definition dict_get (k : pystr) (d : list (pystr * pyval)) : pyval :=
  default PNone (dict_lookup k d).

(** ** Equality: Python's [==]

    [True == 1] and [False == 0]; dictionaries compare without order. *)
Definition as_int (v : pyval) : option Z :=
  match v with PBool b => Some (Z.b2z b) | PInt n => Some n | _ => None end.

Fixpoint py_eqb (v w : pyval) {struct v} : bool :=
  match v, w with
  | PNone, PNone => true
  | PStr s, PStr t => bool_decide (s = t)
  | PList l, PList k =>
      (fix go (l k : list pyval) : bool :=
         match l, k with
         | [], [] => true
         | x :: l, y :: k => py_eqb x y && go l k
         | _, _ => false
         end) l k
  | PDict d, PDict e =>
      (length d =? length e)%nat &&
      (fix go (d : list (pystr * pyval)) : bool :=
         match d with
         | [] => true
         | (key, x) :: d =>
             match dict_lookup key e with Some y => py_eqb x y | None => false end && go d
         end) d
  | POther n i, POther m j => bool_decide (n = m) && bool_decide (i = j)
  | (PBool _ | PInt _), (PBool _ | PInt _) => bool_decide (as_int v = as_int w)
  | _, _ => false
  end.

(** A value equal to a text is that text. *)
Lemma py_eqb_str v s : py_eqb v (PStr s) = true ↔ v = PStr s.
Proof. destruct v; simpl; try done. rewrite bool_decide_eq_true. naive_solver. Qed.

(** [{k: v for k, v in pairs}]: a later pair overrides the value of an equal
    earlier key and keeps its place. *)
Definition dict_of {V} (pairs : list (pystr * V)) : list (pystr * V) :=
  foldl (λ d p, dict_set p.1 p.2 d) [] pairs.

(** ** Lemmas on dictionaries *)

Section dict.
Context {V : Type}.
Implicit Types d pairs : list (pystr * V).

Lemma dict_lookup_set_eq k v d : dict_lookup k (dict_set k v d) = Some v.
Proof.
  induction d as [|[k' v'] d IH]; simpl; [by rewrite decide_True|].
  case_decide as E; simpl; [by rewrite decide_True | by rewrite decide_False].
Qed.

Lemma dict_lookup_set_ne k k' v d :
  k ≠ k' → dict_lookup k' (dict_set k v d) = dict_lookup k' d.
Proof.
  intros Hne. induction d as [|[k'' v''] d IH]; simpl; [by rewrite decide_False|].
  case_decide as E; simpl; [|by rewrite IH].
  subst. by rewrite !decide_False.
Qed.

Lemma dict_lookup_pop_eq k d : dict_lookup k (dict_pop k d) = None.
Proof.
  induction d as [|[k' v'] d IH]; simpl; [done|].
  case_decide as E; simpl; [done | by rewrite decide_False].
Qed.

Lemma dict_lookup_pop_ne k k' d :
  k ≠ k' → dict_lookup k' (dict_pop k d) = dict_lookup k' d.
Proof.
  intros Hne. induction d as [|[k'' v''] d IH]; simpl; [done|].
  case_decide as E; simpl; [|by rewrite IH].
  subst. by rewrite decide_False.
Qed.

Lemma dict_lookup_None k d : dict_lookup k d = None ↔ k ∉ dict_keys d.
Proof.
  unfold dict_keys. induction d as [|[k' v'] d IH]; simpl.
  - split; [intros _; apply not_elem_of_nil | done].
  - rewrite not_elem_of_cons. case_decide; naive_solver.
Qed.

Lemma elem_of_dict_keys k d : k ∈ dict_keys d ↔ is_Some (dict_lookup k d).
Proof.
  rewrite <- not_eq_None_Some, dict_lookup_None.
  split; [tauto|]. intros Hn. by apply dec_stable.
Qed.

Lemma dict_lookup_set k k' v d :
  dict_lookup k' (dict_set k v d) = if decide (k = k') then Some v else dict_lookup k' d.
Proof.
  case_decide as E; [subst; apply dict_lookup_set_eq | by apply dict_lookup_set_ne].
Qed.

Lemma dict_lookup_elem k v d : dict_lookup k d = Some v → (k, v) ∈ d.
Proof.
  induction d as [|[k' v'] d IH]; simpl; [done|].
  case_decide; [intros [= ->]; subst; left | right; auto].
Qed.

Lemma dict_lookup_NoDup k v d : NoDup (dict_keys d) → (k, v) ∈ d → dict_lookup k d = Some v.
Proof.
  unfold dict_keys. induction d as [|[k' v'] d IH]; simpl; intros Hnd Hin.
  - by apply elem_of_nil in Hin.
  - apply NoDup_cons in Hnd as [Hk Hnd]. apply elem_of_cons in Hin as [[= <- <-]|Hin].
    + by rewrite decide_True.
    + rewrite decide_False; [auto|]. intros ->. destruct Hk.
      apply list_elem_of_fmap. by exists (k', v).
Qed.

Lemma dict_set_elem k v d p : p ∈ dict_set k v d → p = (k, v) ∨ p ∈ d.
Proof.
  induction d as [|[k' v'] d IH]; simpl.
  - intros ->%list_elem_of_singleton. by left.
  - case_decide as E; intros [->|Hin]%elem_of_cons.
    + left. by subst.
    + right. by right.
    + right. left.
    + destruct (IH Hin); [by left | right; by right].
Qed.

Lemma dict_keys_set k v d k' : k' ∈ dict_keys (dict_set k v d) ↔ k' = k ∨ k' ∈ dict_keys d.
Proof.
  rewrite !elem_of_dict_keys, dict_lookup_set. case_decide; [|naive_solver].
  subst. split; [by left | eauto].
Qed.

Lemma NoDup_dict_set k v d : NoDup (dict_keys d) → NoDup (dict_keys (dict_set k v d)).
Proof.
  induction d as [|[k' v'] d IH]; simpl; intros Hnd.
  - apply NoDup_singleton.
  - apply NoDup_cons in Hnd as [Hk Hnd]. case_decide; simpl; apply NoDup_cons; [done|].
    split; [|auto]. intros [->|]%dict_keys_set; done.
Qed.

(** Every value of a comprehension comes from one of its pairs. *)
Lemma dict_of_elem pairs p : p ∈ dict_of pairs → p ∈ pairs.
Proof.
  unfold dict_of. induction pairs as [|q pairs IH] using rev_ind; [done|].
  rewrite foldl_app. simpl. intros [->|Hin]%dict_set_elem; apply elem_of_app.
  - right. destruct q. by left.
  - left. auto.
Qed.

Lemma NoDup_dict_of pairs : NoDup (dict_keys (dict_of pairs)).
Proof.
  unfold dict_of. induction pairs as [|q pairs IH] using rev_ind; [constructor|].
  rewrite foldl_app. by apply NoDup_dict_set.
Qed.

Lemma dict_keys_dict_of pairs k : k ∈ dict_keys (dict_of pairs) ↔ k ∈ pairs.*1.
Proof.
  unfold dict_of. induction pairs as [|q pairs IH] using rev_ind; [done|].
  rewrite foldl_app, fmap_app, elem_of_app. simpl. rewrite dict_keys_set, IH, list_elem_of_singleton.
  naive_solver.
Qed.

Lemma dict_keys_set_present k v d : k ∈ dict_keys d → dict_keys (dict_set k v d) = dict_keys d.
Proof.
  unfold dict_keys. induction d as [|[k' v'] d IH]; simpl; intros Hk.
  - by apply elem_of_nil in Hk.
  - case_decide as E; simpl; [done|]. f_equal. apply IH.
    apply elem_of_cons in Hk as [->|]; done.
Qed.

Lemma dict_pop_elem k d x : x ∈ dict_pop k d → x ∈ d.
Proof.
  induction d as [|[k' v'] d IH]; simpl; [done|]. case_decide; [right; auto|].
  intros [->|Hin]%elem_of_cons; [left | right; auto].
Qed.

Lemma NoDup_dict_pop k d : NoDup (dict_keys d) → NoDup (dict_keys (dict_pop k d)).
Proof.
  unfold dict_keys. induction d as [|[k' v'] d IH]; simpl; intros Hnd; [done|].
  apply NoDup_cons in Hnd as [Hk Hnd]. case_decide; [auto|]. simpl. apply NoDup_cons. split; [|auto].
  intros (x & -> & Hx%dict_pop_elem)%list_elem_of_fmap. destruct Hk.
  apply list_elem_of_fmap. by exists x.
Qed.

Lemma dict_lookup_pops ks d k :
  dict_lookup k (foldl (λ d k, dict_pop k d) d ks) = if decide (k ∈ ks) then None else dict_lookup k d.
Proof.
  revert d. induction ks as [|i ks IH]; intros d; cbn [foldl]; [done|].
  rewrite IH. destruct (decide (k = i)) as [->|Hne].
  - rewrite dict_lookup_pop_eq. repeat case_decide; set_solver.
  - rewrite dict_lookup_pop_ne by done. repeat case_decide; set_solver.
Qed.

Lemma dict_sweep_elem p d x : x ∈ dict_sweep p d → x ∈ d.
Proof.
  unfold dict_sweep. generalize (dict_doomed p d) as ks. intros ks. revert d.
  induction ks as [|k ks IH]; intros d; [done|]. by intros ?%IH%dict_pop_elem.
Qed.

Lemma NoDup_dict_sweep p d : NoDup (dict_keys d) → NoDup (dict_keys (dict_sweep p d)).
Proof.
  unfold dict_sweep. generalize (dict_doomed p d) as ks. intros ks. revert d.
  induction ks as [|k ks IH]; intros d Hd; [done|]. by apply IH, NoDup_dict_pop.
Qed.

(** What a sweep leaves was there and is not doomed. *)
Lemma dict_lookup_sweep p d k v :
  dict_lookup k (dict_sweep p d) = Some v → dict_lookup k d = Some v ∧ p v = false.
Proof.
  unfold dict_sweep. rewrite dict_lookup_pops. case_decide as Hk; [done|]. intros Hv. split; [done|].
  apply not_true_is_false. intros Hp. destruct Hk. apply list_elem_of_fmap. exists (k, v).
  split; [done|]. apply list_elem_of_filter. split; [done|]. by apply dict_lookup_elem.
Qed.

Lemma dict_lookup_sweep_kept p d k v :
  NoDup (dict_keys d) → dict_lookup k d = Some v → p v = false → dict_lookup k (dict_sweep p d) = Some v.
Proof.
  intros Hnd Hv Hp. unfold dict_sweep. rewrite dict_lookup_pops, decide_False; [done|].
  intros ([k' v'] & -> & [Hp' Hin]%list_elem_of_filter)%list_elem_of_fmap. simpl in *.
  rewrite (dict_lookup_NoDup _ _ _ Hnd Hin) in Hv. congruence.
Qed.
End dict.

(** ** Canonical JSON *)

Inductive json :=
  | JNull
  | JBool (b : bool)
  | JInt (n : Z)
  | JStr (s : pystr)
  | JArr (l : list json)
  | JObj (kv : list (pystr * json)).

Definition jopt {A} (f : A → json) (o : option A) : json :=
  match o with Some a => f a | None => JNull end.

(** [\uXXXX] *)
Definition esc_u (n : Z) : pystr :=
  [92; 117] ++ (hex_digit <$>
    [Z.land (Z.shiftr n 12) 15; Z.land (Z.shiftr n 8) 15; Z.land (Z.shiftr n 4) 15; Z.land n 15]).

Definition esc_char (c : Z) : pystr :=
  if c =? 34 then [92; 34]
  else if c =? 92 then [92; 92]
  else if c =? 10 then [92; 110]
  else if c =? 13 then [92; 114]
  else if c =? 9 then [92; 116]
  else if c =? 12 then [92; 102]
  else if c =? 8 then [92; 98]
  else if in_range 32 126 c then [c]
  else if c <? 65536 then esc_u c
  else let v := c - 65536 in
       esc_u (55296 + Z.land (Z.shiftr v 10) 1023) ++ esc_u (56320 + Z.land v 1023).

(** With [ensure_ascii=False] only quotes, backslashes and controls are escaped. *)
Definition esc_char_raw (c : Z) : pystr := if 127 <=? c then [c] else esc_char c.

Section dumps.
Variable esc : Z → pystr.

Definition dumps_str (s : pystr) : pystr := [34] ++ mjoin (esc <$> s) ++ [34].

Fixpoint dumps_with (j : json) : pystr :=
  match j with
  | JNull => $"null"
  | JBool true => $"true"
  | JBool false => $"false"
  | JInt n => str_of_int n
  | JStr s => dumps_str s
  | JArr l => [91] ++ join [44] (map dumps_with l) ++ [93]
  | JObj kv =>
      [123] ++
      join [44] (map (λ e : pystr * pystr, dumps_str e.1 ++ [58] ++ e.2)
                   (sort_on fst (map (λ e : pystr * json, (e.1, dumps_with e.2)) kv)))
      ++ [125]
  end.
End dumps.

(** [ensure_ascii=True] and [ensure_ascii=False]. *)
Definition dumps : json → pystr := dumps_with esc_char.
Definition dumps_raw : json → pystr := dumps_with esc_char_raw.

(** [s.encode("utf-8")] for a string without lone surrogates. *)
Definition utf8_char (c : Z) : list Z :=
  if c <? 128 then [c]
  else if c <? 2048 then [192 + Z.shiftr c 6; 128 + Z.land c 63]
  else if c <? 65536 then
    [224 + Z.shiftr c 12; 128 + Z.land (Z.shiftr c 6) 63; 128 + Z.land c 63]
  else [240 + Z.shiftr c 18; 128 + Z.land (Z.shiftr c 12) 63;
        128 + Z.land (Z.shiftr c 6) 63; 128 + Z.land c 63].
Definition utf8 (s : pystr) : list Z := mjoin (utf8_char <$> s).

Example dumps_sorted :
  dumps (JObj [($"b", JArr [JInt (-12); JBool true]); ($"a", JStr [233; 34; 128512])])
  = [123; 34; 97; 34; 58; 34] ++ $"\u00e9\" ++ [34] ++ $"\ud83d\ude00" ++ [34]
    ++ [44; 34; 98; 34; 58] ++ $"[-12,true]}".
Proof. vm_compute. reflexivity. Qed.

(** The order of an object's entries does not matter when the keys differ. *)
Lemma dumps_obj_perm kv kv' :
  NoDup kv.*1 → kv ≡ₚ kv' → dumps (JObj kv) = dumps (JObj kv').
Proof.
  intros Hnd Hp. unfold dumps. simpl. do 2 f_equal. f_equal. f_equal.
  apply sort_on_perm; [|by apply Permutation_map].
  assert (NoDup (map (λ e : pystr * json, (e.1, dumps_with esc_char e.2)) kv).*1) as Hnd'.
  { by rewrite <- list_fmap_compose. }
  clear -Hnd'. revert Hnd'. generalize (map (λ e : pystr * json, (e.1, dumps_with esc_char e.2)) kv).
  intros l Hnd [a b] [a' b'] Hx Hy; simpl; intros ->. f_equal.
  apply list_elem_of_lookup in Hx as [i Hi], Hy as [j Hj].
  assert (i = j) as ->; [|congruence].
  eapply NoDup_lookup; [exact Hnd|..]; rewrite list_lookup_fmap; [by rewrite Hi | by rewrite Hj].
Qed.

(** ** [class E(str, Enum)] *)

(** A string-valued enumeration: its members and the [.value] of each. *)
Class PyEnum (A : Type) `{EqDecision A} := {
  enum_value : A → pystr;
  enum_members : list A;
  enum_members_all : ∀ a : A, a ∈ enum_members;
  enum_value_inj :: Inj (=) (=) enum_value;
}.
Global Hint Mode PyEnum ! - : typeclass_instances.

(** [E(value)]: the member with that value; [None] where Python raises. *)
Definition enum_of_value `{PyEnum A} (s : pystr) : option A :=
  list_find (λ a, enum_value a = s) enum_members ≫= λ p, Some p.2.

Lemma enum_of_value_value `{PyEnum A} (a : A) : enum_of_value (enum_value a) = Some a.
Proof.
  unfold enum_of_value.
  destruct (list_find (λ b, enum_value b = enum_value a) enum_members) as [[i b]|] eqn:E; simpl.
  - apply list_find_Some in E as (_ & Hb & _). by apply (inj enum_value) in Hb as ->.
  - apply list_find_None in E. rewrite Forall_forall in E.
    destruct (E a (enum_members_all a)). done.
Qed.

Lemma enum_of_value_Some `{PyEnum A} (s : pystr) (a : A) :
  enum_of_value s = Some a ↔ s = enum_value a.
Proof.
  split; [|intros ->; apply enum_of_value_value]. unfold enum_of_value.
  destruct (list_find _ _) as [[i b]|] eqn:E; simpl; [|done]. intros [= ->].
  by apply list_find_Some in E as (_ & Hb & _).
Qed.

(** Discharges the two laws of [PyEnum] for a concrete enumeration. *)
Ltac solve_enum :=
  match goal with
  | |- ∀ a, a ∈ _ => intros a; apply (bool_decide_unpack _); by destruct a
  | |- Inj _ _ _ => intros x y; by destruct x, y
  end.
