(* ===== verification/PyJson.v ===== *)
(** * Decoding JSON text

    [json.loads] on a string, as CPython's scanner reads it: white space, the
    three literals, strings with their escapes and surrogate pairs, numbers,
    arrays and objects (a later key overrides an earlier one).  [None] stands
    for the [ValueError] the decoder raises.  A number with a fraction or an
    exponent, and the literals [NaN] and [Infinity], are floating-point values,
    given by the parameter [float_of].  Recursion is bounded by the length of
    the text, which every nested value shortens; the interpreter's own recursion
    limit is not modelled.

    The round trip: decoding what [json.dumps] writes gives the value back. *)

From S2P Require Import Prelude PyStr Sha256 PyVal.
Local Open Scope Z_scope.
Local Open Scope py_scope.

Module Json.

(** ** Scanning *)

Definition is_ws (c : Z) : bool := (c =? 32) || (c =? 9) || (c =? 10) || (c =? 13).
Fixpoint skip_ws (s : pystr) : pystr :=
  match s with c :: r => if is_ws c then skip_ws r else s | [] => [] end.

Definition hex_val (c : Z) : option Z :=
  if in_range 48 57 c then Some (c - 48)
  else if in_range 97 102 c then Some (c - 87)
  else if in_range 65 70 c then Some (c - 55)
  else None.
Definition hex4 (a b c d : Z) : option Z :=
  a ← hex_val a ; b ← hex_val b ; c ← hex_val c ; d ← hex_val d ;
  Some (4096 * a + 256 * b + 16 * c + d).

(** The one-character escapes. *)
Definition short_escape (e : Z) : option Z :=
  if (e =? 34) || (e =? 92) || (e =? 47) then Some e
  else if e =? 98 then Some 8
  else if e =? 102 then Some 12
  else if e =? 110 then Some 10
  else if e =? 114 then Some 13
  else if e =? 116 then Some 9
  else None.

(** The rest of a string, up to and without its closing quote, and what
    follows it. *)
Fixpoint scan_string (s : pystr) : option (pystr * pystr) :=
  match s with
  | [] => None
  | c :: r =>
      if c =? 34 then Some ([], r)
      else if c <? 32 then None
      else if negb (c =? 92) then '(t, r) ← scan_string r ; Some (c :: t, r)
      else
        match r with
        | [] => None
        | e :: r1 =>
            if negb (e =? 117) then
              x ← short_escape e ; '(t, r) ← scan_string r1 ; Some (x :: t, r)
            else
              match r1 with
              | h1 :: h2 :: h3 :: h4 :: r2 =>
                  n ← hex4 h1 h2 h3 h4 ;
                  if negb (in_range 55296 56319 n) then '(t, r) ← scan_string r2 ; Some (n :: t, r)
                  else
                    match r2 with
                    | b :: u :: l1 :: l2 :: l3 :: l4 :: r3 =>
                        if (b =? 92) && (u =? 117) then
                          match hex4 l1 l2 l3 l4 with
                          | Some m =>
                              if in_range 56320 57343 m then
                                '(t, r) ← scan_string r3 ;
                                Some (65536 + 1024 * (n - 55296) + (m - 56320) :: t, r)
                              else '(t, r) ← scan_string r2 ; Some (n :: t, r)
                          | None => '(t, r) ← scan_string r2 ; Some (n :: t, r)
                          end
                        else '(t, r) ← scan_string r2 ; Some (n :: t, r)
                    | _ => '(t, r) ← scan_string r2 ; Some (n :: t, r)
                    end
              | _ => None
              end
        end
  end.

(** The digits at the head of a text. *)
Fixpoint span_digits (s : pystr) : pystr * pystr :=
  match s with
  | c :: r => if is_digit c then let '(d, r) := span_digits r in (c :: d, r) else ([], s)
  | [] => ([], [])
  end.

Section loads.
(** The value of a floating-point literal. *)
Variable float_of : pystr → pyval.

(** [sys.int_info.str_digits_check_threshold]'s limit for [int(text)] *)
Definition MAX_STR_DIGITS : nat := 4300.

(** [(\.\d+)?] and [([eE][-+]?\d+)?]: the text matched, and the rest. *)
Definition scan_fraction (s : pystr) : pystr * pystr :=
  match s with
  | 46 :: r => match span_digits r with ([], _) => ([], s) | (d, r) => (46 :: d, r) end
  | _ => ([], s)
  end.
Definition scan_exponent (s : pystr) : pystr * pystr :=
  match s with
  | e :: r =>
      if (e =? 101) || (e =? 69) then
        let '(sign, r1) := match r with
                           | c :: r1 => if (c =? 43) || (c =? 45) then ([c], r1) else ([], r)
                           | [] => ([], [])
                           end in
        match span_digits r1 with ([], _) => ([], s) | (d, r) => (e :: sign ++ d, r) end
      else ([], s)
  | [] => ([], s)
  end.

Definition scan_number (negative : bool) (s : pystr) : option (pyval * pystr) :=
  let '(digits, r) :=
    match s with
    | 48 :: r => ([48], r)
    | _ => span_digits s
    end in
  match digits with
  | [] => None
  | _ =>
      let '(fraction, r1) := scan_fraction r in
      let '(exponent, r2) := scan_exponent r1 in
      match fraction, exponent with
      | [], [] =>
          if (MAX_STR_DIGITS <? length digits)%nat then None
          else Some (PInt (if negative then - py_int digits else py_int digits), r)
      | _, _ => Some (float_of ((if negative then [45] else []) ++ digits ++ fraction ++ exponent), r2)
      end
  end.

(** [s] without the prefix [p] *)
Fixpoint strip_prefix (p s : pystr) : option pystr :=
  match p, s with
  | [], _ => Some s
  | c :: p, d :: s => if c =? d then strip_prefix p s else None
  | _ :: _, [] => None
  end.

(** [null], [true], [false], [NaN], [Infinity] and [-Infinity] *)
Definition scan_literal (s : pystr) : option (pyval * pystr) :=
  foldr (λ l found, match strip_prefix l.1 s with Some r => Some (l.2, r) | None => found end) None
    [($"null", PNone); ($"true", PBool true); ($"false", PBool false); ($"NaN", float_of ($"NaN"));
     ($"Infinity", float_of ($"Infinity")); ($"-Infinity", float_of ($"-Infinity"))].

(** Arrays and objects, for a scanner [value] of the values inside; [n] bounds
    the number of items. *)
Section items.
Variable value : pystr → option (pyval * pystr).

Fixpoint scan_elements (n : nat) (s : pystr) : option (list pyval * pystr) :=
  match n with
  | O => None
  | S n =>
      '(v, r) ← value s ;
      match skip_ws r with
      | 44 :: r => '(vs, r) ← scan_elements n (skip_ws r) ; Some (v :: vs, r)
      | 93 :: r => Some ([v], r)
      | _ => None
      end
  end.

Fixpoint scan_members (n : nat) (s : pystr) : option (list (pystr * pyval) * pystr) :=
  match n with
  | O => None
  | S n =>
      match s with
      | 34 :: r =>
          '(k, r) ← scan_string r ;
          match skip_ws r with
          | 58 :: r =>
              '(v, r) ← value (skip_ws r) ;
              match skip_ws r with
              | 44 :: r => '(kvs, r) ← scan_members n (skip_ws r) ; Some ((k, v) :: kvs, r)
              | 125 :: r => Some ([(k, v)], r)
              | _ => None
              end
          | _ => None
          end
      | _ => None
      end
  end.
End items.

(** [scan_once] *)
Fixpoint scan_value (fuel : nat) (s : pystr) : option (pyval * pystr) :=
  match fuel with
  | O => None
  | S fuel =>
      match s with
      | [] => None
      | c :: r =>
          if c =? 34 then '(t, r) ← scan_string r ; Some (PStr t, r)
          else if c =? 123 then
            match skip_ws r with
            | 125 :: r => Some (PDict [], r)
            | r => '(kvs, r) ← scan_members (scan_value fuel) (length r) r ; Some (PDict (dict_of kvs), r)
            end
          else if c =? 91 then
            match skip_ws r with
            | 93 :: r => Some (PList [], r)
            | r => '(vs, r) ← scan_elements (scan_value fuel) (length r) r ; Some (PList vs, r)
            end
          else if is_digit c then scan_number false s
          else
            match scan_literal s with
            | Some found => Some found
            | None => if c =? 45 then scan_number true r else None
            end
      end
  end.

Definition JSONDecodeError : exn := ValueError "JSONDecodeError".

Definition loads (s : pystr) : result pyval :=
  match s with
  | 65279 :: _ => Raise JSONDecodeError
  | _ =>
      match scan_value (S (length s)) (skip_ws s) with
      | Some (v, r) => match skip_ws r with [] => Ok v | _ => Raise JSONDecodeError end
      | None => Raise JSONDecodeError
      end
  end.

End loads.

Example loads_sample f :
  loads f ($"{" ++ [34] ++ $"a" ++ [34] ++ $": [1, -20 ,true,null, " ++ [34] ++ $"\u00e9\ud83d\ude00\n" ++ [34]
           ++ $"] , " ++ [34] ++ $"a" ++ [34] ++ $":{}} ")
  = Ok (PDict [($"a", PDict [])])
  ∧ loads f ($"[1, -20 ,true,null, " ++ [34] ++ $"\u00e9\ud83d\ude00\n" ++ [34] ++ $"]")
    = Ok (PList [PInt 1; PInt (-20); PBool true; PNone; PStr [233; 128512; 10]])
  ∧ loads f ($"[1,]") = Raise JSONDecodeError ∧ loads f ($"01") = Raise JSONDecodeError
  ∧ loads f ($"1.5e3") = Ok (f ($"1.5e3")).
Proof. vm_compute. auto. Qed.

(** ** The round trip *)

(** Unicode scalar values: code points that are not surrogates. *)
Definition scalar (c : Z) : bool := in_range 0 55295 c || in_range 57344 1114111 c.

Lemma hex_val_digit n : 0 <= n < 16 → hex_val (hex_digit n) = Some n.
Proof.
  intros Hn. unfold hex_val, hex_digit, in_range. destruct (Z.ltb_spec n 10).
  - replace ((48 <=? 48 + n) && (48 + n <=? 57)) with true by lia. f_equal. lia.
  - replace ((48 <=? 87 + n) && (87 + n <=? 57)) with false by lia.
    replace ((97 <=? 87 + n) && (87 + n <=? 102)) with true by lia. f_equal. lia.
Qed.

Lemma json_nibble n k : 0 <= k → Z.land (Z.shiftr n k) 15 = (n / 2 ^ k) mod 16.
Proof. intros Hk. change 15 with (Z.ones 4). by rewrite Z.land_ones, Z.shiftr_div_pow2 by lia. Qed.

Lemma esc_u_hex4 n : 0 <= n < 65536 → ∃ a b c d, esc_u n = [92; 117; a; b; c; d] ∧ hex4 a b c d = Some n.
Proof.
  intros Hn. do 4 eexists. split; [reflexivity|]. unfold hex4.
  rewrite !hex_val_digit by apply land_15. simpl. f_equal. rewrite <- (Z.shiftr_0_r n) at 4.
  rewrite !json_nibble by lia.
  change (2 ^ 12) with 4096. change (2 ^ 8) with 256. change (2 ^ 4) with 16. change (2 ^ 0) with 1.
  Z.to_euclidean_division_equations. lia.
Qed.

(** Reading back one character. *)
Lemma scan_esc c s :
  scalar c = true → scan_string (esc_char c ++ s) = '(t, r) ← scan_string s ; Some (c :: t, r).
Proof.
  intros Hc. unfold scalar, in_range in Hc. unfold esc_char.
  repeat match goal with
  | |- context [if ?x =? ?y then _ else _] => destruct (Z.eqb_spec x y) as [->|]; [reflexivity|]
  end.
  destruct (in_range 32 126 c) eqn:Er.
  { cbn [app scan_string]. unfold in_range in Er.
    rewrite (proj2 (Z.eqb_neq c 34)), (proj2 (Z.eqb_neq c 92)), (proj2 (Z.ltb_ge c 32)) by lia. done. }
  destruct (Z.ltb_spec c 65536) as [Hs|Hs].
  - destruct (esc_u_hex4 c) as (h1 & h2 & h3 & h4 & -> & Hn); [lia|]. cbn [app scan_string]. cbn -[hex4 scan_string in_range].
    rewrite Hn. cbn -[scan_string in_range]. unfold in_range.
    replace ((55296 <=? c) && (c <=? 56319)) with false by lia. done.
  - cbv zeta. set (v := c - 65536).
    assert (Z.land (Z.shiftr v 10) 1023 = v / 1024 ∧ Z.land v 1023 = v mod 1024) as [-> ->].
    { change 1023 with (Z.ones 10). rewrite !Z.land_ones, Z.shiftr_div_pow2 by lia.
      change (2 ^ 10) with 1024. split; [|done]. apply Z.mod_small.
      split; [apply Z.div_pos; lia | apply Z.div_lt_upper_bound; lia]. }
    assert (0 <= v / 1024 < 1024 ∧ 0 <= v mod 1024 < 1024 ∧ v = 1024 * (v / 1024) + v mod 1024)
      as (Hq & Hm & Hv).
    { split; [|split; [apply Z.mod_pos_bound; lia | apply Z.div_mod; lia]].
      split; [apply Z.div_pos; lia | apply Z.div_lt_upper_bound; lia]. }
    destruct (esc_u_hex4 (55296 + v / 1024)) as (h1 & h2 & h3 & h4 & -> & Hn); [lia|].
    destruct (esc_u_hex4 (56320 + v mod 1024)) as (l1 & l2 & l3 & l4 & -> & Hl); [lia|].
    cbn [app scan_string]. cbn -[hex4 scan_string in_range Z.add Z.mul Z.sub]. rewrite Hn, Hl.
    cbn -[scan_string in_range Z.add Z.mul Z.sub]. unfold in_range.
    replace ((55296 <=? 55296 + v / 1024) && (55296 + v / 1024 <=? 56319)) with true by lia.
    replace ((56320 <=? 56320 + v mod 1024) && (56320 + v mod 1024 <=? 57343)) with true by lia. cbn [negb].
    replace (65536 + 1024 * (55296 + v / 1024 - 55296) + (56320 + v mod 1024 - 56320)) with c by lia. done.
Qed.

Lemma scan_string_dumps s r :
  forallb scalar s = true → scan_string (mjoin (esc_char <$> s) ++ 34 :: r) = Some (s, r).
Proof.
  induction s as [|c s IH]; intros Hs; [done|]. simpl in Hs. apply andb_true_iff in Hs as [Hc Hs].
  change (mjoin (esc_char <$> c :: s)) with (esc_char c ++ mjoin (esc_char <$> s)).
  rewrite <- app_assoc, scan_esc by done. by rewrite IH.
Qed.

(** What may follow a value inside a text. *)
Definition stop (r : pystr) : Prop := match r with [] => True | c :: _ => c = 44 ∨ c = 93 ∨ c = 125 end.

Lemma span_digits_app d r :
  Forall (λ c, is_digit c = true) d → stop r → span_digits (d ++ r) = (d, r).
Proof.
  induction 1 as [|c d Hc _ IH]; intros Hr; simpl.
  - destruct r as [|c r]; [done|]. simpl in *. by destruct Hr as [->|[->| ->]].
  - by rewrite Hc, IH.
Qed.

Lemma canonical_shape d :
  canonical_digits d = true → Forall (λ c, is_digit c = true) d ∧ d ≠ [] ∧ (head d = Some 48 → d = [48]).
Proof.
  intros H. pose proof (canonical_digits_Forall d H) as [_ Hd]. unfold canonical_digits in H. apply andb_true_iff in H as [Hi Hz].
  split; [done|]. destruct d as [|c d]; [done|]. split; [done|]. simpl in Hz. intros [= ->].
  destruct d as [|c d]; [done|]. done.
Qed.

Lemma scan_number_digits f neg d r :
  canonical_digits d = true → (length d <= MAX_STR_DIGITS)%nat → stop r →
  scan_number f neg (d ++ r) = Some (PInt (if neg then - py_int d else py_int d), r).
Proof.
  intros Hd Hlen Hr. destruct (canonical_shape d Hd) as (Hall & Hne & Hz). unfold scan_number.
  assert (match d ++ r with 48 :: r => ([48], r) | _ => span_digits (d ++ r) end = (d, r)) as ->.
  { destruct d as [|c d]; [done|]. destruct (Z.eq_dec c 48) as [->|Hc].
    - specialize (Hz eq_refl). injection Hz as ->. done.
    - rewrite <- (span_digits_app (c :: d) r) by done. simpl app.
      by repeat (case_match; try done); subst; congruence. }
  assert (scan_fraction r = ([], r)) as ->.
  { destruct r as [|x r]; [done|]. by destruct Hr as [->|[->| ->]]. }
  assert (scan_exponent r = ([], r)) as ->.
  { destruct r as [|x r]; [done|]. by destruct Hr as [->|[->| ->]]. }
  destruct d as [|c d]; [done|]. by rewrite (proj2 (Nat.ltb_ge _ _)).
Qed.

(** The value a JSON document denotes, with its keys in the order written. *)
Fixpoint py_of (j : json) : pyval :=
  match j with
  | JNull => PNone
  | JBool b => PBool b
  | JInt n => PInt n
  | JStr t => PStr t
  | JArr l => PList (map py_of l)
  | JObj kv => PDict (sort_on fst (map (λ e : pystr * json, (e.1, py_of e.2)) kv))
  end.

(** Documents whose text can be read back: strings of scalar values, numerals
    the interpreter converts, no key twice. *)
Fixpoint readable (j : json) : Prop :=
  match j with
  | JNull | JBool _ => True
  | JInt n => (length (str_of_nonneg (Z.abs n)) <= MAX_STR_DIGITS)%nat
  | JStr t => forallb scalar t = true
  | JArr l => (fix all (l : list json) : Prop := match l with [] => True | x :: l => readable x ∧ all l end) l
  | JObj kv =>
      NoDup kv.*1
      ∧ (fix all (kv : list (pystr * json)) : Prop :=
           match kv with
           | [] => True
           | (k, x) :: kv => (forallb scalar k = true ∧ readable x) ∧ all kv
           end) kv
  end.

Lemma readable_arr l : readable (JArr l) ↔ Forall readable l.
Proof. simpl. induction l as [|x l IH]; [by split; [constructor|]|]. by rewrite Forall_cons, IH. Qed.
Lemma readable_obj kv :
  readable (JObj kv) ↔ NoDup kv.*1 ∧ Forall (λ e, forallb scalar e.1 = true ∧ readable e.2) kv.
Proof.
  simpl. split; intros [Hnd H]; (split; [done|]); clear Hnd.
  - induction kv as [|[k x] kv IH]; [constructor|]. destruct H. constructor; auto.
  - induction H as [|[k x] kv Hx _ IH]; [done|]. by split.
Qed.

(** Induction on documents. *)
Lemma json_induction (P : json → Prop) :
  P JNull → (∀ b, P (JBool b)) → (∀ n, P (JInt n)) → (∀ t, P (JStr t)) →
  (∀ l, Forall P l → P (JArr l)) → (∀ kv, Forall (λ e, P e.2) kv → P (JObj kv)) → ∀ j, P j.
Proof.
  intros H1 H2 H3 H4 H5 H6. fix IH 1. intros [|b|n|t|l|kv]; [done|apply H2|apply H3|apply H4| |].
  - apply H5. induction l; constructor; auto.
  - apply H6. induction kv; constructor; auto.
Qed.

(** A stable sort by key commutes with a map that keeps the keys. *)
Lemma sort_on_fst_map {A B} (f : A → B) (kv : list (pystr * A)) :
  sort_on fst (map (λ e, (e.1, f e.2)) kv) = map (λ e, (e.1, f e.2)) (sort_on fst kv).
Proof.
  assert (∀ (x : pystr * A) (l : list (pystr * A)), insert_on fst (x.1, f x.2) (map (λ e, (e.1, f e.2)) l)
                 = map (λ e, (e.1, f e.2)) (insert_on fst x l)) as Hins.
  { intros x l. induction l as [|y l IH]; [done|]. simpl. case_match; [done|]. simpl. by rewrite IH. }
  induction kv as [|x kv IH]; [done|]. simpl. unfold sort_on in *. simpl. by rewrite IH, Hins.
Qed.

Lemma dict_set_fresh {V} k (v : V) d : k ∉ dict_keys d → dict_set k v d = d ++ [(k, v)].
Proof.
  induction d as [|[k' v'] d IH]; intros H; [done|]. simpl. rewrite decide_False by (intros ->; apply H; left).
  rewrite IH; [done|]. intros ?. apply H. by right.
Qed.
Lemma dict_of_NoDup {V} (kv : list (pystr * V)) : NoDup kv.*1 → dict_of kv = kv.
Proof.
  unfold dict_of. assert (∀ kv d : list (pystr * V), NoDup (d ++ kv).*1 → foldl (λ d p, dict_set p.1 p.2 d) d kv = d ++ kv) as H.
  { clear kv. induction kv as [|[k v] kv IH]; intros d Hnd; simpl; [by rewrite app_nil_r|].
    rewrite dict_set_fresh.
    - rewrite IH by (by rewrite <- app_assoc). by rewrite <- app_assoc.
    - rewrite fmap_app in Hnd. apply NoDup_app in Hnd as (_ & Hd & _). intros Hk. apply (Hd k Hk). left. }
  apply (H kv []).
Qed.

(** The first character of a document is no white space and closes nothing. *)
Definition starts (s : pystr) : Prop :=
  match s with [] => False | c :: _ => is_ws c = false ∧ c ≠ 93 ∧ c ≠ 125 end.

Lemma digits_start d : d ≠ [] → Forall (λ c, is_digit c = true) d → starts d.
Proof.
  intros Hne Hd. destruct Hd as [|c d Hc _]; [done|]. simpl. unfold is_digit, in_range in Hc. unfold is_ws. lia.
Qed.
Lemma dumps_start j : starts (dumps j).
Proof.
  destruct j as [|[]|n|t|l|kv]; try done.
  unfold dumps. simpl. unfold str_of_int. case_match; [done|].
  destruct (canonical_shape (str_of_nonneg n)) as (Hd & Hne & _).
  { apply str_of_nonneg_canonical. lia. }
  by apply digits_start.
Qed.
Lemma starts_app s r : starts s → starts (s ++ r).
Proof. by destruct s. Qed.
Lemma starts_skip s : starts s → skip_ws s = s.
Proof. destruct s as [|c s]; [done|]. intros [H _]. simpl. by rewrite H. Qed.

Section roundtrip.
Variable float_of : pystr → pyval.

(** A scanner that reads the document [j] back from its text. *)
Definition reads (value : pystr → option (pyval * pystr)) (j : json) : Prop :=
  ∀ r, stop r → value (dumps j ++ r) = Some (py_of j, r).

Lemma join_cons2 (sep p q : pystr) ps : join sep (p :: q :: ps) = p ++ sep ++ join sep (q :: ps).
Proof. done. Qed.

Lemma scan_elements_dumps value l : ∀ n x r,
  Forall (reads value) (x :: l) → (length (x :: l) <= n)%nat →
  scan_elements value n (join [44] (map dumps (x :: l)) ++ 93 :: r) = Some (map py_of (x :: l), r).
Proof.
  induction l as [|y l IH]; intros n x r Hall Hn; (destruct n as [|n]; [simpl in Hn; lia|]);
    apply Forall_cons in Hall as [Hx Hl].
  - simpl. rewrite Hx by (simpl; auto). done.
  - cbn [map]. rewrite join_cons2, <- !app_assoc. cbn [scan_elements]. rewrite Hx by (simpl; auto).
    cbn [mbind option_bind app skip_ws is_ws Z.eqb Pos.eqb orb].
    rewrite starts_skip.
    + change (dumps y :: map dumps l) with (map dumps (y :: l)). rewrite IH; [done|done|simpl in *; lia].
    + apply starts_app. pose proof (dumps_start y). destruct l; [done|]. cbn [map]. rewrite join_cons2.
      by apply starts_app.
Qed.

(** The text of a member. *)
Definition member (e : pystr * json) : pystr := dumps_str esc_char e.1 ++ [58] ++ dumps e.2.

Lemma scan_members_dumps value l : ∀ n e r,
  Forall (λ e, forallb scalar e.1 = true ∧ reads value e.2) (e :: l) → (length (e :: l) <= n)%nat →
  scan_members value n (join [44] (map member (e :: l)) ++ 125 :: r)
  = Some (map (λ e, (e.1, py_of e.2)) (e :: l), r).
Proof.
  assert (∀ n e r, forallb scalar e.1 = true → reads value e.2 → stop r →
    scan_members value (S n) (member e ++ r)
    = match r with
      | 44 :: r => '(kvs, r) ← scan_members value n (skip_ws r) ; Some ((e.1, py_of e.2) :: kvs, r)
      | 125 :: r => Some ([(e.1, py_of e.2)], r)
      | _ => None
      end) as Hone.
  { intros n [k j] r Hk Hj Hr. unfold member, dumps_str. cbn [fst snd] in *. rewrite <- !app_assoc.
    cbn [app scan_members]. rewrite scan_string_dumps by done. cbn -[scan_members skip_ws dumps].
    rewrite (starts_skip (58 :: _)) by done. cbn -[scan_members skip_ws dumps]. rewrite starts_skip by (apply starts_app, dumps_start). rewrite Hj by done. cbn -[scan_members skip_ws dumps].
    destruct r as [|c r]; [done|]. by destruct Hr as [->|[->| ->]]. }
  induction l as [|y l IH]; intros n e r Hall Hn; (destruct n as [|n]; [simpl in Hn; lia|]);
    apply Forall_cons in Hall as [[Hk Hx] Hl].
  - cbn [map join]. rewrite Hone by (simpl; auto). done.
  - cbn [map]. rewrite join_cons2, <- !app_assoc. rewrite Hone by (simpl; auto). cbn [app].
    rewrite starts_skip.
    + change (member y :: map member l) with (map member (y :: l)). rewrite IH; [done|done|simpl in *; lia].
    + by destruct l.
Qed.

Lemma join_length (ps : list pystr) : Forall (λ p, p ≠ []) ps → (length ps <= length (join [44%Z] ps))%nat.
Proof.
  induction ps as [|p [|q ps] IH]; intros Hp; apply Forall_cons in Hp as [Hp Hq] || done.
  - destruct p; [done|]. simpl. lia.
  - rewrite join_cons2, !length_app. specialize (IH Hq). destruct p; [done|]. simpl in *. lia.
Qed.
Lemma join_elem_length (ps : list pystr) p : p ∈ ps → (length p <= length (join [44%Z] ps))%nat.
Proof.
  induction ps as [|q [|q' ps] IH]; intros Hp; [by apply elem_of_nil in Hp|..].
  - apply list_elem_of_singleton in Hp as ->. done.
  - rewrite join_cons2, !length_app. apply elem_of_cons in Hp as [->|Hp]; [lia|]. specialize (IH Hp). lia.
Qed.
Lemma dumps_nonempty j : dumps j ≠ [].
Proof. pose proof (dumps_start j). by destruct (dumps j). Qed.

Lemma dumps_obj kv :
  dumps (JObj kv) = 123 :: join [44] (map member (sort_on fst kv)) ++ [125].
Proof.
  unfold dumps at 1. simpl. do 2 f_equal. rewrite (sort_on_fst_map (dumps_with esc_char)), map_map. done.
Qed.
Lemma dumps_arr l : dumps (JArr l) = 91 :: join [44] (map dumps l) ++ [93].
Proof. done. Qed.
Lemma py_of_obj kv : py_of (JObj kv) = PDict (map (λ e, (e.1, py_of e.2)) (sort_on fst kv)).
Proof. simpl. by rewrite (sort_on_fst_map py_of). Qed.

Lemma scan_literal_minus d r :
  Forall (λ c, is_digit c = true) d → d ≠ [] → scan_literal float_of (45 :: d ++ r) = None.
Proof.
  intros Hd Hne. destruct Hd as [|c d Hc _]; [done|].
  assert (c = 48 ∨ c = 49 ∨ c = 50 ∨ c = 51 ∨ c = 52 ∨ c = 53 ∨ c = 54 ∨ c = 55 ∨ c = 56 ∨ c = 57) as Hcs.
  { unfold is_digit, in_range in Hc. lia. }
  by repeat (destruct Hcs as [->|Hcs]); try subst c.
Qed.

Lemma scan_int fuel n r :
  (length (str_of_nonneg (Z.abs n)) <= MAX_STR_DIGITS)%nat → stop r →
  scan_value float_of (S fuel) (str_of_int n ++ r) = Some (PInt n, r).
Proof.
  intros Hlen Hr. pose proof (str_of_nonneg_canonical (Z.abs n) ltac:(lia)) as Hc.
  destruct (canonical_shape _ Hc) as (Hd & Hne & _).
  pose proof (py_int_str (Z.abs n) ltac:(lia)) as Hi.
  unfold str_of_int. destruct (Z.ltb_spec n 0) as [Hn|Hn].
  - rewrite Z.abs_neq in * by lia. set (d := str_of_nonneg (- n)) in *. clearbody d.
    cbn -[scan_number scan_literal]. change (45 :: d ++ r) with (45 :: d ++ r).
    rewrite scan_literal_minus by done. rewrite scan_number_digits, Hi by done. do 2 f_equal. f_equal. lia.
  - rewrite Z.abs_eq in * by lia. set (d := str_of_nonneg n) in *. clearbody d.
    rewrite <- Hi. rewrite <- (scan_number_digits float_of false d r Hc Hlen Hr).
    destruct Hd as [|c d Hc1 _]; [done|]. cbn -[scan_number scan_literal scan_string scan_members scan_elements].
    rewrite Hc1. unfold is_digit, in_range in Hc1.
    by rewrite (proj2 (Z.eqb_neq c 34)), (proj2 (Z.eqb_neq c 123)), (proj2 (Z.eqb_neq c 91)) by lia.
Qed.

(** A non-empty array and a non-empty object. *)
Lemma scan_array fuel s :
  starts s →
  scan_value float_of (S fuel) (91 :: s)
  = '(vs, r) ← scan_elements (scan_value float_of fuel) (length s) s ; Some (PList vs, r).
Proof.
  intros Hs. cbn -[scan_elements skip_ws]. rewrite starts_skip by done.
  destruct s as [|c s]; [done|]. destruct Hs as (_ & H1 & _). by repeat (case_match; try done); subst.
Qed.
Lemma scan_object fuel s :
  starts s →
  scan_value float_of (S fuel) (123 :: s)
  = '(kvs, r) ← scan_members (scan_value float_of fuel) (length s) s ; Some (PDict (dict_of kvs), r).
Proof.
  intros Hs. cbn -[scan_members skip_ws]. rewrite starts_skip by done.
  destruct s as [|c s]; [done|]. destruct Hs as (_ & _ & H2). by repeat (case_match; try done); subst.
Qed.

Lemma join_starts ps : Forall starts ps → ps ≠ [] → ∀ r, starts (join [44] ps ++ r).
Proof.
  intros Hps Hne r. apply starts_app. destruct Hps as [|p [|q ps] Hp _]; [done|done|].
  rewrite join_cons2. by apply starts_app.
Qed.

(** The bounds the scanners of arrays and objects need. *)
Lemma items_fit (ps : list pystr) (r : pystr) :
  Forall starts ps → (length ps <= length (join [44%Z] ps ++ r))%nat.
Proof.
  intros Hps. rewrite length_app. assert (length ps <= length (join [44%Z] ps))%nat; [|lia].
  apply join_length. eapply Forall_impl; [exact Hps|]. by intros [|].
Qed.

(** Decoding a readable document at the head of a text. *)
Lemma scan_dumps j : readable j → ∀ fuel, (length (dumps j) <= fuel)%nat → reads (scan_value float_of fuel) j.
Proof.
  induction j as [|b|n|t|l IH|kv IH] using json_induction; intros Hj fuel Hf r Hr;
    (destruct fuel as [|fuel];
     [exfalso; match type of Hf with context [dumps ?d] => pose proof (dumps_nonempty d); destruct (dumps d); [done|simpl in Hf; lia] end|]).
  - done.
  - by destruct b.
  - by apply scan_int.
  - change (dumps (JStr t)) with (34 :: mjoin (esc_char <$> t) ++ [34]). rewrite <- app_comm_cons, <- app_assoc.
    cbn -[scan_string]. by rewrite scan_string_dumps.
  - rewrite readable_arr in Hj. rewrite dumps_arr in Hf |- *. rewrite <- app_comm_cons, <- app_assoc. cbn [app].
    destruct l as [|x l]; [done|].
    assert (Forall starts (map dumps (x :: l))) as Hst.
    { apply Forall_forall. intros ? (y & -> & _)%list_elem_of_fmap. apply dumps_start. }
    rewrite scan_array by (by apply join_starts). rewrite scan_elements_dumps; [done| |].
    + rewrite Forall_forall in *. intros y Hy. apply IH; [done|by apply Hj|].
      pose proof (join_elem_length (map dumps (x :: l)) (dumps y) (list_elem_of_fmap_2 _ _ _ Hy)) as Hlen.
      cbn [length] in Hf. rewrite length_app in Hf. simpl in *. lia.
    + etransitivity; [|by apply items_fit]. by rewrite length_map.
  - rewrite readable_obj in Hj. destruct Hj as [Hnd Hj]. rewrite dumps_obj in Hf |- *. rewrite py_of_obj.
    pose proof (sort_on_Permutation fst kv) as Hp.
    assert (NoDup (sort_on fst kv).*1) as Hnd' by (by rewrite Hp).
    assert (Forall (λ e, forallb scalar e.1 = true ∧ reads (scan_value float_of fuel) e.2) (sort_on fst kv)) as Hall.
    { rewrite Forall_forall in *. intros e He. assert (e ∈ kv) as Hin by (by rewrite <- Hp).
      destruct (Hj e Hin) as [Hk Hr']. split; [done|]. apply IH; [done..|].
      pose proof (join_elem_length (map member (sort_on fst kv)) (member e) (list_elem_of_fmap_2 _ _ _ He)) as Hlen.
      cbn [length] in Hf. unfold member in Hlen at 1. rewrite !length_app in Hf, Hlen. simpl in *. lia. }
    clear Hp. destruct (sort_on fst kv) as [|x l]; [done|]. rewrite <- app_comm_cons, <- app_assoc. cbn [app].
    assert (Forall starts (map member (x :: l))) as Hst.
    { apply Forall_forall. by intros ? (y & -> & _)%list_elem_of_fmap. }
    rewrite scan_object by (by apply join_starts). rewrite scan_members_dumps; [|done|].
    + cbn -[dict_of]. rewrite dict_of_NoDup; [done|]. cbn [fmap list_fmap fst] in *.
      rewrite <- list_fmap_compose. exact Hnd'.
    + etransitivity; [|by apply items_fit]. by rewrite length_map.
Qed.

(** [json.loads(json.dumps(x)) == x] *)
Lemma loads_dumps j : readable j → loads float_of (dumps j) = Ok (py_of j).
Proof.
  intros Hj. pose proof (starts_skip (dumps j) (dumps_start j)) as Hs.
  pose proof (scan_dumps j Hj (S (length (dumps j))) ltac:(lia) [] I) as Hv. rewrite app_nil_r in Hv.
  assert (head (dumps j) ≠ Some 65279) as Hc.
  { intros E. clear Hs Hv Hj. destruct j as [|[]|n|t|l|kv]; try done. unfold dumps, dumps_with, str_of_int in E.
    case_match; [done|]. pose proof (canonical_shape (str_of_nonneg n)) as (Hd & _).
    { apply str_of_nonneg_canonical. lia. } destruct Hd as [|c d Hc _]; [done|]. by injection E as ->. }
  unfold loads. rewrite Hs, Hv. destruct (dumps j) as [|c s]; [done|]. by repeat (case_match; try done); subst.
Qed.

End roundtrip.
End Json.
