(* ===== verification/AsciiJson.v ===== *)
(** * ASCII text in canonical JSON

    What [json.dumps] writes with [ensure_ascii=True] is ASCII, so that its
    UTF-8 encoding is itself; documents of ASCII strings are written the same
    with either setting; and the patterns of the program's identifiers, digests
    and codes admit ASCII only. *)

From S2P Require Import Prelude PyStr Sha256 Regex PyVal PyJson.
Local Open Scope Z_scope.
Local Open Scope py_scope.
Import Json.

Lemma utf8_ascii s : Forall (λ c, c < 128) s → utf8 s = s.
Proof.
  induction 1 as [|c s Hc _ IH]; [done|]. change (utf8 (c :: s)) with (utf8_char c ++ utf8 s).
  rewrite IH. unfold utf8_char. by rewrite (proj2 (Z.ltb_lt c 128)).
Qed.

Lemma hex_digit_ascii n : 0 <= n < 16 → 0 <= hex_digit n < 128.
Proof. intros Hn. unfold hex_digit. case_match; lia. Qed.

Lemma esc_u_ascii n : Forall (λ c, c < 128) (esc_u n).
Proof. unfold esc_u. repeat (constructor; [try lia; apply hex_digit_ascii, land_15|]). constructor. Qed.

Lemma esc_char_ascii c : Forall (λ c, c < 128) (esc_char c).
Proof.
  unfold esc_char. repeat case_match; first [apply Forall_app_2; apply esc_u_ascii | apply esc_u_ascii |
    repeat (constructor; [unfold in_range in *; lia|]); constructor].
Qed.

Lemma dumps_str_ascii s : Forall (λ c, c < 128) (dumps_str esc_char s).
Proof.
  unfold dumps_str. apply Forall_app_2; [by repeat constructor|]. apply Forall_app_2; [|by repeat constructor].
  induction s as [|c s IH]; [constructor|]. cbn. apply Forall_app_2; [apply esc_char_ascii | exact IH].
Qed.

(** ** ASCII documents *)

Definition ascii_text (s : pystr) : Prop := Forall (λ c, 0 <= c < 127) s.

(** The strings of a document, keys included. *)
Fixpoint json_strings (j : json) : list pystr :=
  match j with
  | JNull | JBool _ | JInt _ => []
  | JStr s => [s]
  | JArr l => flat_map json_strings l
  | JObj kv => flat_map (λ e, e.1 :: json_strings e.2) kv
  end.
Definition ascii_json (j : json) : Prop := Forall ascii_text (json_strings j).

Lemma ascii_json_arr l : ascii_json (JArr l) ↔ Forall ascii_json l.
Proof. unfold ascii_json. cbn. by rewrite Forall_flat_map. Qed.
Lemma ascii_json_obj kv : ascii_json (JObj kv) ↔ Forall (λ e, ascii_text e.1 ∧ ascii_json e.2) kv.
Proof.
  unfold ascii_json. cbn. rewrite Forall_flat_map. apply Forall_proper; [|done]. intros e. by rewrite Forall_cons.
Qed.

Lemma dumps_str_raw s : ascii_text s → dumps_str esc_char_raw s = dumps_str esc_char s.
Proof.
  intros Hs. unfold dumps_str. f_equal. f_equal. f_equal. apply list_fmap_ext. intros i c Hc.
  eapply Forall_lookup_1 in Hs; [|done]. unfold esc_char_raw. by rewrite (proj2 (Z.leb_gt _ _)) by lia.
Qed.

(** Without other characters [ensure_ascii] makes no difference. *)
Lemma dumps_raw_ascii j : ascii_json j → dumps_raw j = dumps j.
Proof.
  unfold dumps_raw, dumps. induction j as [|b|n|s|l IH|kv IH] using json_induction; intros Hj; try done.
  - apply dumps_str_raw. by apply Forall_cons in Hj as [Hj _].
  - rewrite ascii_json_arr in Hj. cbn. do 3 f_equal. apply map_ext_in. intros j Hin%list_elem_of_In.
    rewrite Forall_forall in IH, Hj. by apply IH, Hj.
  - rewrite ascii_json_obj in Hj. cbn [dumps_with]. f_equal. f_equal. f_equal.
    rewrite !(sort_on_fst_map (dumps_with _) kv), !map_map. apply map_ext_in. intros e He. cbn [fst snd].
    apply list_elem_of_In in He. rewrite elem_of_sort_on in He. rewrite Forall_forall in IH, Hj.
    destruct (Hj e He). rewrite dumps_str_raw by done. by rewrite IH.
Qed.

Lemma join_ascii sep parts :
  Forall (λ c, c < 128) sep → Forall (Forall (λ c, c < 128)) parts → Forall (λ c, c < 128) (join sep parts).
Proof.
  intros Hsep. induction 1 as [|w [|w' ws] Hw Hws IH]; cbn [join]; [constructor|done|]. by repeat apply Forall_app_2.
Qed.
Lemma str_of_int_ascii n : Forall (λ c, c < 128) (str_of_int n).
Proof.
  assert (∀ m, 0 <= m → Forall (λ c, c < 128) (str_of_nonneg m)) as Hm.
  { intros m Hm. destruct (canonical_shape (str_of_nonneg m)) as (Hd & _); [by apply str_of_nonneg_canonical|].
    eapply Forall_impl; [exact Hd|]. intros c Hc. unfold is_digit, in_range in Hc. lia. }
  unfold str_of_int. case_match; [constructor; [lia|]|]; apply Hm; lia.
Qed.
Lemma dumps_is_ascii j : Forall (λ c, c < 128) (dumps j).
Proof.
  unfold dumps. induction j as [|[]|n|s|l IH|kv IH] using json_induction;
    try (by repeat constructor); [apply str_of_int_ascii | apply dumps_str_ascii | |].
  - cbn. constructor; [lia|]. apply Forall_app_2; [|by repeat constructor]. apply join_ascii; [by repeat constructor|].
    by apply Forall_map.
  - cbn [dumps_with app]. constructor; [lia|]. apply Forall_app_2; [|by repeat constructor].
    apply join_ascii; [by repeat constructor|]. apply Forall_map. apply Forall_sort_on, Forall_map. eapply Forall_impl; [exact IH|]. intros e He. cbn [fst snd].
    apply Forall_app_2; [apply dumps_str_ascii|]. by constructor.
Qed.

(** Equal bytes come from equal documents. *)
Lemma canonical_bytes_inj j j' :
  readable j → readable j' → ascii_json j → ascii_json j' → utf8 (dumps_raw j) = utf8 (dumps_raw j') → py_of j = py_of j'.
Proof.
  intros Hr Hr' Ha Ha'. rewrite !dumps_raw_ascii by done. rewrite !utf8_ascii by apply dumps_is_ascii. intros E.
  pose proof (loads_dumps (λ _, PNone) j Hr) as H1. rewrite E, (loads_dumps _ _ Hr') in H1. by injection H1.
Qed.

(** ** Patterns *)

(** The patterns allow ASCII only. *)
Fixpoint ascii_regex (r : regex) : bool :=
  match r with
  | RVoid | REps => true
  | RSet rs => forallb (λ p, (0 <=? p.1) && (p.2 <? 127)) rs
  | RCat r s | RAlt r s => ascii_regex r && ascii_regex s
  | RStar r => ascii_regex r
  end.
Lemma ascii_regex_matches r s : ascii_regex r = true → fullmatch r s = true → ascii_text s.
Proof.
  rewrite fullmatch_spec. intros Hr Hm. unfold ascii_text. induction Hm as [|rs c Hc|r s x y _ IHx _ IHy| | | |r c x y _ IHx _ IHy];
    cbn in Hr; rewrite ?andb_true_iff in Hr; try (by repeat constructor); try (by naive_solver).
  - constructor; [|constructor]. unfold in_set in Hc. apply existsb_exists in Hc as (p & Hp & Hc).
    rewrite forallb_forall in Hr. specialize (Hr p Hp). unfold in_range in Hc. lia.
  - destruct Hr. apply Forall_app_2; auto.
  - rewrite app_comm_cons. apply Forall_app_2; auto.
Qed.

Lemma ascii_scalar s : ascii_text s → forallb scalar s = true.
Proof.
  intros Hs. apply forallb_Forall. eapply Forall_impl; [exact Hs|]. intros c Hc. cbn beta in Hc. unfold scalar, in_range. lia.
Qed.

Lemma dec_digits_fuel_length fuel n : (length (dec_digits fuel n) <= fuel)%nat.
Proof.
  revert n. induction fuel as [|fuel IH]; intros n; cbn [dec_digits]; [done|]. case_match; [cbn; lia|].
  rewrite length_app. specialize (IH (n / 10)). cbn. lia.
Qed.

Lemma ascii_texts l : forallb (forallb (λ c, (0 <=? c) && (c <? 127))) l = true → Forall ascii_text l.
Proof.
  intros Hl%forallb_Forall. eapply Forall_impl; [exact Hl|]. intros s Hs%forallb_Forall. eapply Forall_impl; [exact Hs|].
  intros c Hc. cbn in Hc. lia.
Qed.


Lemma int_readable n : Z.abs n < 2 ^ 64 → readable (JInt n).
Proof.
  intros Hn. cbn [readable]. pose proof (dec_digits_fuel_length (S (Z.to_nat (Z.log2 (Z.abs n)))) (Z.abs n)) as Hl.
  fold (str_of_nonneg (Z.abs n)) in Hl. assert (Z.log2 (Z.abs n) < 64); [|unfold MAX_STR_DIGITS; lia].
  destruct (decide (n = 0)) as [->|]; [done|]. apply Z.log2_lt_pow2; lia.
Qed.
