(* ===== verification/PyTime.v ===== *)
(** * UTC instants and their text

    The proleptic calendar of [datetime] and the text [isoformat] gives a UTC
    instant.  An instant is a number of microseconds since the start of the
    first day that [toordinal] counts from zero.

    [datetime.fromisoformat] reads more formats with each Python version the
    program supports (3.10 and later); [PyIsoFormat] carries it. *)

From S2P Require Import Prelude PyStr.
Local Open Scope Z_scope.
Local Open Scope py_scope.

(** ** The calendar *)

Definition leap (y : Z) : bool := ((y mod 4 =? 0) && negb (y mod 100 =? 0)) || (y mod 400 =? 0).
Definition days_in_month (y m : Z) : Z :=
  if m =? 2 then (if leap y then 29 else 28)
  else if (m =? 4) || (m =? 6) || (m =? 9) || (m =? 11) then 30 else 31.
(** Days of the year before its month. *)
Definition days_before_month (y m : Z) : Z :=
  default 0 ([0; 31; 59; 90; 120; 151; 181; 212; 243; 273; 304; 334] !! Z.to_nat (m - 1))
  + (if (2 <? m) && leap y then 1 else 0).
Definition days_before_year (y : Z) : Z := (y - 1) * 365 + (y - 1) / 4 - (y - 1) / 100 + (y - 1) / 400.
(** [datetime.toordinal] *)
Definition ordinal (y m d : Z) : Z := days_before_year y + days_before_month y m + d.

(** The year, month and day of an ordinal, as [datetime.fromordinal]. *)
Definition year_of (n : Z) : Z :=
  let guess := (n - 1) * 400 / 146097 in
  match filter (λ y, days_before_year y < n ∧ n <= days_before_year (y + 1)) [guess; guess + 1; guess + 2] with
  | y :: _ => y
  | [] => guess
  end.
Definition month_of (y day_of_year : Z) : Z :=
  Z.of_nat (length (filter (λ m, days_before_month y m < day_of_year) [1; 2; 3; 4; 5; 6; 7; 8; 9; 10; 11; 12])).

(** The guess is never more than one year away. *)
Lemma year_of_spec n : let y := year_of n in days_before_year y < n <= days_before_year (y + 1).
Proof.
  cbv zeta. unfold year_of. set (g := (n - 1) * 400 / 146097).
  destruct (filter _ _) as [|y l] eqn:E.
  - exfalso. assert (∀ y, y ∈ [g; g + 1; g + 2] → ¬ (days_before_year y < n ∧ n <= days_before_year (y + 1))) as Hno.
    { intros y Hy Hp. assert (y ∈ filter (λ y, days_before_year y < n ∧ n <= days_before_year (y + 1)) [g; g + 1; g + 2])
        as Hin by (by apply list_elem_of_filter). rewrite E in Hin. by apply elem_of_nil in Hin. }
    pose proof (Hno g ltac:(set_solver)) as H0. pose proof (Hno (g + 1) ltac:(set_solver)) as H1.
    pose proof (Hno (g + 2) ltac:(set_solver)) as H2. unfold days_before_year in *. subst g.
    Z.div_mod_to_equations. lia.
  - assert (y ∈ filter (λ y, days_before_year y < n ∧ n <= days_before_year (y + 1)) [g; g + 1; g + 2]) as Hin
      by (rewrite E; by left).
    apply list_elem_of_filter in Hin. tauto.
Qed.

(** ** Texts *)

(** [f"{n:0{w}d}"] of a number that is not negative *)
Fixpoint pad (w : nat) (n : Z) : pystr :=
  match w with O => [] | S w => pad w (n / 10) ++ [48 + n mod 10] end.

Definition DAY_US : Z := 86400 * 1000000.
(** The instants of the years 1 to 9999. *)
Definition in_datetime_range (t : Z) : bool := (ordinal 1 1 1 * DAY_US <=? t) && (t <? (ordinal 9999 12 31 + 1) * DAY_US).

(** [isoformat(timespec="microseconds")] of the UTC [datetime] at [t]. *)
Definition isoformat_utc (t : Z) : pystr :=
  let n := t / DAY_US in
  let us := t mod DAY_US in
  let y := year_of n in
  let day_of_year := n - days_before_year y in
  let m := month_of y day_of_year in
  pad 4 y ++ $"-" ++ pad 2 m ++ $"-" ++ pad 2 (day_of_year - days_before_month y m)
  ++ $"T" ++ pad 2 (us / 3600000000) ++ $":" ++ pad 2 (us / 60000000 mod 60) ++ $":" ++ pad 2 (us / 1000000 mod 60)
  ++ $"." ++ pad 6 (us mod 1000000) ++ $"+00:00".

Example isoformat_utc_example :
  isoformat_utc (((ordinal 2026 3 1 * 24 + 23) * 60 + 5) * 60000000 + 7000042) = $"2026-03-01T23:05:07.000042+00:00".
Proof. reflexivity. Qed.

(** ** Reading *)

(** What [fromisoformat] returns: the local time and the offset from UTC, which
    is [None] for a naive time. *)
Record py_datetime := { local_us : Z; utcoffset_us : option Z }.
Class PyIsoFormat := { fromisoformat : pystr → option py_datetime }.

(** [value.replace("Z", "+00:00")] *)
Definition replace_Z (s : pystr) : pystr := mjoin ((λ c : Z, if c =? 90 then $"+00:00" else [c]) <$> (s : list Z)).

(** A reader of the texts [isoformat_utc] writes, for the examples. *)
Definition digits_value (s : pystr) : Z := foldl (λ n c, n * 10 + (c - 48)) 0 s.
Definition canonical_reader : PyIsoFormat := {| fromisoformat s :=
  let y := digits_value (take 4 s) in
  let m := digits_value (take 2 (drop 5 s)) in
  let d := digits_value (take 2 (drop 8 s)) in
  let t := ((ordinal y m d * 24 + digits_value (take 2 (drop 11 s))) * 60 + digits_value (take 2 (drop 14 s))) * 60
           + digits_value (take 2 (drop 17 s)) in
  let t := t * 1000000 + digits_value (take 6 (drop 20 s)) in
  if in_datetime_range t && bool_decide (isoformat_utc t = s) then Some {| local_us := t; utcoffset_us := Some 0 |}
  else None |}.
