(* ===== verification/ActionLattice.v ===== *)
(** * Guard actions: normalization, total order, composition

    Models [guard/action_lattice.py], the action types of [guard/models.py]
    and the policy resolution of [guard/policy/engine.py].  An action that
    crosses an untyped boundary is a [pyval]; the theorems show that
    normalization fails closed and that composition is the join of the total
    order, whatever the order and grouping of the candidates. *)

From S2P Require Import Prelude PyStr Sha256 PyVal.
Local Open Scope Z_scope.
Local Open Scope py_scope.

(** ** The action type (models.py) *)

Inductive GuardAction :=
  | allow | warn | review | require_reapproval | sandbox_required | block.

Global Instance GuardAction_eq_dec : EqDecision GuardAction.
Proof. solve_decision. Defined.

(** The string a [GuardAction] literal is. *)
Definition action_value (a : GuardAction) : pystr :=
  match a with
  | allow => $"allow"
  | warn => $"warn"
  | review => $"review"
  | require_reapproval => $"require-reapproval"
  | sandbox_required => $"sandbox-required"
  | block => $"block"
  end.

Definition GUARD_ACTION_VALUES : list GuardAction :=
  [allow; warn; review; require_reapproval; sandbox_required; block].

(** ** Normalization (action_lattice.py) *)

Definition UNKNOWN_GUARD_ACTION_REASON : pystr := $"guard_action_unknown".
Definition DEFAULT_UNKNOWN_GUARD_ACTION : GuardAction := review.
Definition LEGACY_GUARD_ACTION_ALIASES : list (pystr * GuardAction) := [($"ask", review)].
Definition SEMANTIC_ACTION_FIELD_ALIASES : list pystr := [$"preexecutionresult"].

Definition GUARD_ACTION_SEVERITY (a : GuardAction) : Z :=
  match a with
  | allow => 0
  | warn => 1
  | review => 2
  | require_reapproval => 3
  | sandbox_required => 4
  | block => 5
  end.

(** The action a string denotes, by look-up in the severity table's keys. *)
Definition action_of_str (s : pystr) : option GuardAction :=
  dict_lookup s ((λ a, (action_value a, a)) <$> GUARD_ACTION_VALUES).

Record GuardActionNormalization := {
  gan_action : GuardAction;
  gan_reason_code : option pystr;
  gan_original_action : option pystr;
  gan_original_type : string;
}.

Definition recognized (n : GuardActionNormalization) : bool :=
  match gan_reason_code n with None => true | Some _ => false end.

(** [value if is_guard_action(value) else None] *)
Definition coerce_guard_action (value : pyval) : option GuardAction :=
  match value with PStr s => action_of_str s | _ => None end.

Definition is_guard_action (value : pyval) : bool :=
  match coerce_guard_action value with Some _ => true | None => false end.

(** [re.sub(r"(?<=[a-z0-9])(?=[A-Z])", " ", key)] *)
Fixpoint separate_camel (prev : option Z) (s : pystr) : pystr :=
  match s with
  | [] => []
  | c :: s' =>
      let boundary :=
        match prev with
        | Some p => (is_lower p || is_digit p) && is_upper c
        | None => false
        end in
      (if boundary then [32; c] else [c]) ++ separate_camel (Some c) s'
  end.

(** [re.sub(r"[^A-Za-z0-9]+", " ", s)] *)
Fixpoint sub_non_alnum (in_run : bool) (s : pystr) : pystr :=
  match s with
  | [] => []
  | c :: s' =>
      if is_alnum c then c :: sub_non_alnum false s'
      else if in_run then sub_non_alnum true s'
      else 32 :: sub_non_alnum true s'
  end.

Definition key_tokens (key : pystr) : list pystr :=
  filter (λ t, t ≠ []) (split_ws (lower_char <$> sub_non_alnum false (separate_camel None key))).

Definition is_action_bearing_key (key : pystr) : bool :=
  let tokens := key_tokens key in
  let compact := mjoin tokens in
  py_in compact SEMANTIC_ACTION_FIELD_ALIASES
  || existsb (λ t, py_in t [$"action"; $"actions"]) tokens.

(** The body of [normalize_guard_action_result] once [unknown_action] is known
    to be an action. *)
Definition normalize_with (value : pyval) (unknown_action : GuardAction)
    : GuardActionNormalization :=
  let unrecognized original :=
    {| gan_action := unknown_action;
       gan_reason_code := Some UNKNOWN_GUARD_ACTION_REASON;
       gan_original_action := original;
       gan_original_type := type_name value |} in
  match value with
  | PStr s =>
      match action_of_str s with
      | Some a => {| gan_action := a; gan_reason_code := None;
                     gan_original_action := Some s; gan_original_type := "str" |}
      | None =>
          match dict_lookup s LEGACY_GUARD_ACTION_ALIASES with
          | Some a => {| gan_action := a; gan_reason_code := None;
                         gan_original_action := Some s; gan_original_type := "str" |}
          | None => unrecognized (Some s)
          end
      end
  | _ => unrecognized None
  end.

Definition normalize_guard_action_result (value unknown_action : pyval)
    : result GuardActionNormalization :=
  match coerce_guard_action unknown_action with
  | None => Raise (ValueError "unknown_action is not a GuardAction")
  | Some u => Ok (normalize_with value u)
  end.

Definition normalize_guard_action (value : pyval) (unknown_action : GuardAction) : GuardAction :=
  gan_action (normalize_with value unknown_action).

Definition guard_action_severity (value : pyval) (unknown_action : GuardAction) : Z :=
  GUARD_ACTION_SEVERITY (normalize_guard_action value unknown_action).

(** The loop over the normalized candidates: a strictly more severe one wins. *)
Definition more_severe (winner candidate : GuardAction) : GuardAction :=
  if GUARD_ACTION_SEVERITY winner <? GUARD_ACTION_SEVERITY candidate then candidate else winner.

Definition most_restrictive_guard_action (actions : list pyval) (unknown_action : GuardAction)
    : GuardAction :=
  match (λ a, normalize_guard_action a unknown_action) <$> actions with
  | [] => normalize_guard_action PNone unknown_action
  | w :: candidates => foldl more_severe w candidates
  end.

(** ** Policy resolution (policy/engine.py) *)

Definition SAFE_CHANGED_HASH_ACTION : GuardAction := require_reapproval.
Definition SAFE_DEFAULT_ACTION : GuardAction := require_reapproval.

(** The two fields of [GuardConfig] policy resolution reads. *)
Record PolicyDefaults := { changed_hash_action : pystr; config_default_action : pystr }.

Definition decide_action (configured_action default_action : option pystr)
    (config : PolicyDefaults) (changed : bool) : GuardAction :=
  match configured_action with
  | Some c => normalize_guard_action (PStr c) SAFE_DEFAULT_ACTION
  | None =>
      if changed then
        normalize_guard_action (PStr (changed_hash_action config)) SAFE_CHANGED_HASH_ACTION
      else
        match default_action with
        | Some d => normalize_guard_action (PStr d) SAFE_DEFAULT_ACTION
        | None => normalize_guard_action (PStr (config_default_action config)) SAFE_DEFAULT_ACTION
        end
  end.

(** ** The order as a join semilattice *)

(** What a composition of decisions promises its clients: an order with a
    join, in which a decision bounds a composition from below. *)
Class Restrictiveness (A : Type) := {
  sev : A → Z;
  sev_inj : ∀ a b, sev a = sev b → a = b;
  sev_join : A → A → A;
  sev_join_spec : ∀ a b, sev (sev_join a b) = Z.max (sev a) (sev b);
}.

Lemma severity_inj a b : GUARD_ACTION_SEVERITY a = GUARD_ACTION_SEVERITY b → a = b.
Proof. by destruct a, b. Qed.

Lemma more_severe_max a b :
  GUARD_ACTION_SEVERITY (more_severe a b)
  = Z.max (GUARD_ACTION_SEVERITY a) (GUARD_ACTION_SEVERITY b).
Proof. by destruct a, b. Qed.

Global Instance guard_action_restrictiveness : Restrictiveness GuardAction := {
  sev := GUARD_ACTION_SEVERITY;
  sev_inj := severity_inj;
  sev_join := more_severe;
  sev_join_spec := more_severe_max;
}.

(** Read severities through the interface. *)
Ltac fold_sev := change GUARD_ACTION_SEVERITY with (sev (A:=GuardAction)) in *.

Section restrictiveness.
Context `{Restrictiveness A}.
Implicit Types a b c : A.

Lemma sev_join_comm a b : sev_join a b = sev_join b a.
Proof. apply sev_inj. rewrite !sev_join_spec. lia. Qed.
Lemma sev_join_assoc a b c : sev_join a (sev_join b c) = sev_join (sev_join a b) c.
Proof. apply sev_inj. rewrite !sev_join_spec. lia. Qed.
Lemma sev_join_idemp a : sev_join a a = a.
Proof. apply sev_inj. rewrite !sev_join_spec. lia. Qed.

(** Folding the join over candidates. *)
Definition sev_max (w : A) (l : list A) : A := foldl sev_join w l.

Lemma sev_max_cons w b l : sev_max w (b :: l) = sev_join b (sev_max w l).
Proof.
  unfold sev_max; simpl. revert w b. induction l as [|c l IH]; intros w b; simpl.
  - apply sev_join_comm.
  - rewrite <- sev_join_assoc, (sev_join_comm b c), sev_join_assoc. by rewrite !IH.
Qed.

Lemma sev_max_ge w l : sev w ≤ sev (sev_max w l).
Proof.
  induction l as [|b l IH]; [unfold sev_max; simpl; lia|].
  rewrite sev_max_cons, sev_join_spec. lia.
Qed.

Lemma sev_max_ge_elem w l b : b ∈ l → sev b ≤ sev (sev_max w l).
Proof.
  induction 1 as [b l|b c l ? IH]; rewrite sev_max_cons, sev_join_spec; lia.
Qed.

Lemma sev_max_in w l : sev_max w l ∈ w :: l.
Proof.
  revert w. induction l as [|b l IH]; intros w; [by left|].
  unfold sev_max; simpl. specialize (IH (sev_join w b)). unfold sev_max in IH.
  apply elem_of_cons in IH as [->|IH]; [|by do 2 right].
  pose proof (sev_join_spec w b) as Hj.
  destruct (Z.max_spec (sev w) (sev b)) as [[_ Hm]|[_ Hm]];
    rewrite Hm in Hj; apply sev_inj in Hj as ->; [right; left | left].
Qed.

Lemma sev_max_least w l n : sev w ≤ n → Forall (λ b, sev b ≤ n) l → sev (sev_max w l) ≤ n.
Proof.
  intros Hw. induction 1 as [|b l Hb Hl IH]; [done|].
  rewrite sev_max_cons, sev_join_spec. lia.
Qed.

Lemma sev_max_app w l k : sev_max w (l ++ k) = sev_max (sev_max w l) k.
Proof. unfold sev_max. apply foldl_app. Qed.

Lemma sev_max_join w b l : sev_max (sev_join w b) l = sev_join w (sev_max b l).
Proof.
  revert w b. unfold sev_max. induction l as [|c l IH]; intros w b; simpl; [done|].
  by rewrite <- sev_join_assoc, IH.
Qed.

Lemma sev_max_app_cons w l b k :
  sev_max w (l ++ b :: k) = sev_join (sev_max w l) (sev_max b k).
Proof. rewrite sev_max_app. apply sev_max_join. Qed.

Lemma sev_max_perm w v l k : w :: l ≡ₚ v :: k → sev_max w l = sev_max v k.
Proof.
  assert (∀ w v l k, w :: l ≡ₚ v :: k → sev (sev_max w l) ≤ sev (sev_max v k)) as Hle.
  { intros w' v' l' k' Hp.
    assert (∀ x, x ∈ w' :: l' → sev x ≤ sev (sev_max v' k')) as Hx.
    { intros x Hx. rewrite Hp in Hx. apply elem_of_cons in Hx as [->|Hx];
        [apply sev_max_ge | by apply sev_max_ge_elem]. }
    apply sev_max_least; [apply Hx; left|].
    apply Forall_forall. intros; apply Hx; by right. }
  intros Hp. apply sev_inj. pose proof (Hle _ _ _ _ Hp).
  pose proof (Hle _ _ _ _ (symmetry Hp)). lia.
Qed.
End restrictiveness.

Lemma most_restrictive_sev_max a actions u :
  most_restrictive_guard_action (a :: actions) u
  = sev_max (normalize_guard_action a u) ((λ x, normalize_guard_action x u) <$> actions).
Proof. done. Qed.

(** ** Properties *)

Lemma action_of_str_value a : action_of_str (action_value a) = Some a.
Proof. by destruct a. Qed.

Lemma action_of_str_Some s a : action_of_str s = Some a ↔ s = action_value a.
Proof.
  split; [|intros ->; apply action_of_str_value].
  unfold action_of_str; simpl. repeat (case_decide; [intros [= <-]; done|]). done.
Qed.

Global Instance action_value_inj : Inj (=) (=) action_value.
Proof. intros a b Heq. apply action_of_str_Some in Heq. by rewrite action_of_str_value in Heq; simplify_eq. Qed.

Lemma normalize_action u a : normalize_guard_action (PStr (action_value a)) u = a.
Proof. by destruct a. Qed.
#[export] Hint Rewrite normalize_action : guard.

(** Characterization of normalization: an action keeps its meaning, the alias
    [ask] means review, everything else is the supplied fallback. *)
Lemma normalize_guard_action_cases v u a :
  normalize_guard_action v u = a ↔
  v = PStr (action_value a) ∨
  (v = PStr ($"ask") ∧ a = review) ∨
  (recognized (normalize_with v u) = false ∧ a = u).
Proof.
  unfold normalize_guard_action, normalize_with, recognized.
  destruct v as [| | |s| | |]; simpl; try naive_solver.
  destruct (action_of_str s) as [b|] eqn:E; simpl.
  - apply action_of_str_Some in E as ->. split; [intros ->; by left|].
    intros [[= Heq]|[[[= Heq] ?]|[? ?]]]; try done.
    + by apply (inj action_value).
    + by destruct b.
  - case_decide as Hs; simpl.
    + subst. split; [naive_solver|]. intros [[= Heq]|[[_ ->]|[? ?]]]; try done. by destruct a.
    + split; [naive_solver|]. intros [[= ->]|[[[= ->] ?]|[? ?]]]; try done.
      by rewrite action_of_str_value in E.
Qed.

(** [most_restrictive_guard_action] returns the least upper bound of its
    normalized candidates: it is one of them, no candidate is more severe, and
    the result is the same for every permutation of the candidates. *)
Theorem most_restrictive_lub (a : pyval) (actions : list pyval) (u : GuardAction) :
  let r := most_restrictive_guard_action (a :: actions) u in
  (∃ v, v ∈ a :: actions ∧ normalize_guard_action v u = r) ∧
  (∀ v, v ∈ a :: actions → guard_action_severity v u ≤ GUARD_ACTION_SEVERITY r) ∧
  (∀ actions', a :: actions ≡ₚ actions' → most_restrictive_guard_action actions' u = r).
Proof.
  cbv zeta. rewrite most_restrictive_sev_max. split; [|split].
  - pose proof (sev_max_in (normalize_guard_action a u)
      ((λ x, normalize_guard_action x u) <$> actions)) as Hin.
    rewrite <- (fmap_cons (λ x, normalize_guard_action x u)) in Hin.
    apply list_elem_of_fmap in Hin as (v & Hv & Hin). by exists v.
  - intros v Hv. unfold guard_action_severity.
    fold_sev.
    apply elem_of_cons in Hv as [->|Hv].
    + apply sev_max_ge.
    + apply sev_max_ge_elem, list_elem_of_fmap. by exists v.
  - intros [|b k] Hp; [by apply Permutation_nil_r in Hp|].
    rewrite most_restrictive_sev_max. symmetry. apply sev_max_perm.
    rewrite <- !(fmap_cons (λ x, normalize_guard_action x u)). by apply Permutation_map.
Qed.

(** composition is compositional: composing two groups of candidates and
    then their results is composing all candidates, so the order and grouping
    in which Guard components combine actions cannot change the outcome. *)
Theorem most_restrictive_grouping (xs ys : list pyval) (u : GuardAction)
    (Hxs : xs ≠ []) (Hys : ys ≠ []) :
  most_restrictive_guard_action (xs ++ ys) u
  = most_restrictive_guard_action
      [PStr (action_value (most_restrictive_guard_action xs u));
       PStr (action_value (most_restrictive_guard_action ys u))] u.
Proof.
  destruct xs as [|x xs], ys as [|y ys]; try done.
  rewrite <- app_comm_cons, !most_restrictive_sev_max, fmap_app, fmap_cons, sev_max_app_cons.
  rewrite fmap_cons, fmap_nil, !normalize_action. done.
Qed.

Lemma most_restrictive_grouping_witness :
  most_restrictive_guard_action ([PStr ($"warn"); PInt 3] ++ [PStr ($"ask")]) require_reapproval
  = most_restrictive_guard_action
      [PStr (action_value (most_restrictive_guard_action [PStr ($"warn"); PInt 3] require_reapproval));
       PStr (action_value (most_restrictive_guard_action [PStr ($"ask")] require_reapproval))]
      require_reapproval.
Proof. apply most_restrictive_grouping; discriminate. Defined.

(** normalization fails closed: with the default fallback a value is
    normalized to a permissive action ([allow] or [warn]) only when it is that
    action's exact string; in particular no malformed or unknown value is
    ranked below [review]. *)
Theorem normalize_fail_closed (v : pyval) :
  guard_action_severity v DEFAULT_UNKNOWN_GUARD_ACTION < GUARD_ACTION_SEVERITY review ↔
  v = PStr ($"allow") ∨ v = PStr ($"warn").
Proof.
  unfold guard_action_severity, DEFAULT_UNKNOWN_GUARD_ACTION. split.
  - intros Hlt. destruct (normalize_guard_action v review) eqn:E; simpl in Hlt; try lia;
      apply normalize_guard_action_cases in E; naive_solver.
  - intros [-> | ->]; done.
Qed.

(** [decide_action] permits an artifact ([allow]) exactly when the source
    that takes precedence (the configured action, then the changed-hash action
    for a changed artifact, then the caller's default, then the configuration's
    default) says [allow]; an unknown text resolves to [require-reapproval]. *)
Theorem decide_action_allow (configured default_ : option pystr) (cfg : PolicyDefaults)
    (changed : bool) :
  let source :=
    match configured with
    | Some c => c
    | None => if changed then changed_hash_action cfg
              else default (config_default_action cfg) default_
    end in
  (decide_action configured default_ cfg changed = allow ↔ source = $"allow") ∧
  (action_of_str source = None → source ≠ $"ask" →
   decide_action configured default_ cfg changed = require_reapproval).
Proof.
  cbv zeta.
  assert (∀ s, (normalize_guard_action (PStr s) require_reapproval = allow ↔ s = $"allow") ∧
    (action_of_str s = None → s ≠ $"ask" →
     normalize_guard_action (PStr s) require_reapproval = require_reapproval)) as Hs.
  { intros s. split.
    - rewrite normalize_guard_action_cases. naive_solver.
    - intros Hn Ha. unfold normalize_guard_action, normalize_with. rewrite Hn.
      simpl. by rewrite decide_False. }
  unfold decide_action, SAFE_DEFAULT_ACTION, SAFE_CHANGED_HASH_ACTION.
  destruct configured as [c|]; [apply Hs|]. destruct changed; [apply Hs|].
  destruct default_ as [d|]; apply Hs.
Qed.
