(* ===== verification/RiskSignals.v ===== *)
(** * Risk signals and their composition

    Models [runtime/signals.py] (the typed signals, their dictionaries and
    parsers, with the accessors of [payload_coercion.py]) and
    [runtime/composition_rules.py], which calibrates a policy action by the
    signals of a detector run.

    A stored signal is an untyped dictionary; parsing returns a signal or
    raises.  The conversion of the older scored signals is not modelled. *)

From S2P Require Import Prelude PyStr Sha256 PyVal ActionLattice.
Local Open Scope Z_scope.
Local Open Scope py_scope.

Module Signals.

(** ** Accessors (payload_coercion.py) *)

Notation pydict := (list (pystr * pyval)).

Definition required_string (payload : pydict) (key : pystr) : result pystr :=
  match dict_get key payload with
  | PStr value =>
      raise_if (bool_decide (strip value = [])) (ValueError (show key +:+ " must be a non-empty string")) ;;
      Ok value
  | _ => Raise (ValueError (show key +:+ " must be a non-empty string"))
  end.

Definition optional_string (payload : pydict) (key : pystr) : result (option pystr) :=
  match dict_get key payload with
  | PNone => Ok None
  | PStr value => Ok (Some value)
  | _ => Raise (ValueError (show key +:+ " must be a string or null"))
  end.

(** ** Labels (signals.py) *)

Inductive RiskSignalCategory :=
  | cat_secret | cat_network | cat_prompt | cat_mcp | cat_skill | cat_supply_chain | cat_encoded
  | cat_persistence | cat_bypass | cat_false_positive | cat_filesystem | cat_execution | cat_publisher
  | cat_policy | cat_provenance.
Inductive RiskSeverityLabel := sev_info | sev_low | sev_medium | sev_high | sev_critical.
Inductive RiskConfidenceLabel := conf_weak | conf_likely | conf_strong.
Inductive RiskRedactionLevel := red_none | red_summary | red_redacted.
Inductive RiskSignalSource :=
  | src_native | src_cisco_mcp | src_cisco_skill | src_threat_intel | src_runtime_detector.
Inductive ScannerStatusLabel := scan_enabled | scan_skipped | scan_unavailable | scan_failed | scan_timed_out.

Global Instance RiskSignalCategory_eq_dec : EqDecision RiskSignalCategory.
Proof. solve_decision. Defined.
Global Instance RiskSeverityLabel_eq_dec : EqDecision RiskSeverityLabel.
Proof. solve_decision. Defined.
Global Instance RiskConfidenceLabel_eq_dec : EqDecision RiskConfidenceLabel.
Proof. solve_decision. Defined.
Global Instance RiskRedactionLevel_eq_dec : EqDecision RiskRedactionLevel.
Proof. solve_decision. Defined.
Global Instance RiskSignalSource_eq_dec : EqDecision RiskSignalSource.
Proof. solve_decision. Defined.
Global Instance ScannerStatusLabel_eq_dec : EqDecision ScannerStatusLabel.
Proof. solve_decision. Defined.

Definition category_value (c : RiskSignalCategory) : pystr :=
  match c with
  | cat_secret => $"secret" | cat_network => $"network" | cat_prompt => $"prompt" | cat_mcp => $"mcp"
  | cat_skill => $"skill" | cat_supply_chain => $"supply_chain" | cat_encoded => $"encoded"
  | cat_persistence => $"persistence" | cat_bypass => $"bypass" | cat_false_positive => $"false_positive"
  | cat_filesystem => $"filesystem" | cat_execution => $"execution" | cat_publisher => $"publisher"
  | cat_policy => $"policy" | cat_provenance => $"provenance"
  end.
Definition severity_value (s : RiskSeverityLabel) : pystr :=
  match s with
  | sev_info => $"info" | sev_low => $"low" | sev_medium => $"medium" | sev_high => $"high"
  | sev_critical => $"critical"
  end.
Definition confidence_value (c : RiskConfidenceLabel) : pystr :=
  match c with conf_weak => $"weak" | conf_likely => $"likely" | conf_strong => $"strong" end.
Definition redaction_value (r : RiskRedactionLevel) : pystr :=
  match r with red_none => $"none" | red_summary => $"summary" | red_redacted => $"redacted" end.
Definition source_value (s : RiskSignalSource) : pystr :=
  match s with
  | src_native => $"native" | src_cisco_mcp => $"cisco_mcp" | src_cisco_skill => $"cisco_skill"
  | src_threat_intel => $"threat_intel" | src_runtime_detector => $"runtime_detector"
  end.
Definition scanner_status_value (s : ScannerStatusLabel) : pystr :=
  match s with
  | scan_enabled => $"enabled" | scan_skipped => $"skipped" | scan_unavailable => $"unavailable"
  | scan_failed => $"failed" | scan_timed_out => $"timed_out"
  end.

Global Instance RiskSignalCategory_enum : PyEnum RiskSignalCategory.
Proof.
  refine {| enum_value := category_value;
  enum_members := [cat_secret; cat_network; cat_prompt; cat_mcp; cat_skill; cat_supply_chain; cat_encoded;
                   cat_persistence; cat_bypass; cat_false_positive; cat_filesystem; cat_execution;
                   cat_publisher; cat_policy; cat_provenance] |}; solve_enum.
Defined.
Global Instance RiskSeverityLabel_enum : PyEnum RiskSeverityLabel.
Proof.
  refine {| enum_value := severity_value; enum_members := [sev_info; sev_low; sev_medium; sev_high; sev_critical] |}; solve_enum.
Defined.
Global Instance RiskConfidenceLabel_enum : PyEnum RiskConfidenceLabel.
Proof.
  refine {| enum_value := confidence_value; enum_members := [conf_weak; conf_likely; conf_strong] |}; solve_enum.
Defined.
Global Instance RiskRedactionLevel_enum : PyEnum RiskRedactionLevel.
Proof.
  refine {| enum_value := redaction_value; enum_members := [red_none; red_summary; red_redacted] |}; solve_enum.
Defined.
Global Instance RiskSignalSource_enum : PyEnum RiskSignalSource.
Proof.
  refine {| enum_value := source_value;
  enum_members := [src_native; src_cisco_mcp; src_cisco_skill; src_threat_intel; src_runtime_detector] |}; solve_enum.
Defined.
Global Instance ScannerStatusLabel_enum : PyEnum ScannerStatusLabel.
Proof.
  refine {| enum_value := scanner_status_value;
  enum_members := [scan_enabled; scan_skipped; scan_unavailable; scan_failed; scan_timed_out] |}; solve_enum.
Defined.

(** [match value: case "...": return "..."; case _: raise] *)
Definition parse_label {A} `{PyEnum A} (message : string) (value : pyval) : result A :=
  match value with
  | PStr s => match enum_of_value s with Some a => Ok a | None => Raise (ValueError message) end
  | _ => Raise (ValueError message)
  end.

Definition parse_source : pyval → result RiskSignalSource :=
  parse_label "source must be a known risk signal source".
Definition parse_category : pyval → result RiskSignalCategory :=
  parse_label "category must be a known risk signal category".
Definition parse_severity : pyval → result RiskSeverityLabel :=
  parse_label "severity must be a known severity label".
Definition parse_risk_confidence : pyval → result RiskConfidenceLabel :=
  parse_label "confidence must be a known confidence label".
Definition parse_redaction_level : pyval → result RiskRedactionLevel :=
  parse_label "redaction_level must be a known redaction level".
Definition parse_scanner_status : pyval → result ScannerStatusLabel :=
  parse_label "scanner_status must be a known scanner status".

(** ** The signal *)

Record RiskSignalV2 := {
  signal_id : pystr;
  category : RiskSignalCategory;
  severity : RiskSeverityLabel;
  confidence : RiskConfidenceLabel;
  detector : pystr;
  title : pystr;
  plain_reason : pystr;
  technical_detail : option pystr;
  evidence_ref : option pystr;
  redaction_level : RiskRedactionLevel;
  false_positive_hint : option pystr;
  advisory_id : option pystr;
}.
Global Instance RiskSignalV2_eq_dec : EqDecision RiskSignalV2.
Proof. solve_decision. Defined.

Definition pyopt (o : option pystr) : pyval := match o with Some s => PStr s | None => PNone end.
Definition pylabel {A} `{PyEnum A} (a : A) : pyval := PStr (enum_value a).

Definition signal_to_dict (s : RiskSignalV2) : pydict :=
  [($"signal_id", PStr (signal_id s)); ($"category", pylabel (category s));
   ($"severity", pylabel (severity s)); ($"confidence", pylabel (confidence s));
   ($"detector", PStr (detector s)); ($"title", PStr (title s));
   ($"plain_reason", PStr (plain_reason s)); ($"technical_detail", pyopt (technical_detail s));
   ($"evidence_ref", pyopt (evidence_ref s)); ($"redaction_level", pylabel (redaction_level s));
   ($"false_positive_hint", pyopt (false_positive_hint s)); ($"advisory_id", pyopt (advisory_id s))].

Definition signal_from_dict (payload : pydict) : result RiskSignalV2 :=
  signal_id ← required_string payload ($"signal_id") ;
  category ← parse_category (dict_get ($"category") payload) ;
  severity ← parse_severity (dict_get ($"severity") payload) ;
  confidence ← parse_risk_confidence (dict_get ($"confidence") payload) ;
  detector ← required_string payload ($"detector") ;
  title ← required_string payload ($"title") ;
  plain_reason ← required_string payload ($"plain_reason") ;
  technical_detail ← optional_string payload ($"technical_detail") ;
  evidence_ref ← optional_string payload ($"evidence_ref") ;
  redaction_level ← parse_redaction_level (dict_get ($"redaction_level") payload) ;
  false_positive_hint ← optional_string payload ($"false_positive_hint") ;
  advisory_id ← optional_string payload ($"advisory_id") ;
  Ok {| signal_id := signal_id; category := category; severity := severity; confidence := confidence;
        detector := detector; title := title; plain_reason := plain_reason;
        technical_detail := technical_detail; evidence_ref := evidence_ref;
        redaction_level := redaction_level; false_positive_hint := false_positive_hint;
        advisory_id := advisory_id |}.

(** The scanner's signal *)
Record GuardRiskSignalV3 := {
  v3_signal_id : pystr;
  v3_source : RiskSignalSource;
  v3_source_version : pystr;
  v3_category : RiskSignalCategory;
  v3_severity : RiskSeverityLabel;
  v3_confidence : RiskConfidenceLabel;
  v3_title : pystr;
  v3_plain_language_summary : pystr;
  v3_technical_detail : option pystr;
  v3_evidence_ref : option pystr;
  v3_scanner_name : option pystr;
  v3_scanner_status : ScannerStatusLabel;
  v3_scanner_rule_id : option pystr;
  v3_redaction_level : RiskRedactionLevel;
  v3_source_path : option pystr;
  v3_source_line : option Z;
  v3_data_source : option pystr;
  v3_data_sink : option pystr;
  v3_recommended_action : option pystr;
}.

Definition v3_to_dict (s : GuardRiskSignalV3) : pydict :=
  [($"signal_id", PStr (v3_signal_id s)); ($"source", pylabel (v3_source s));
   ($"source_version", PStr (v3_source_version s)); ($"category", pylabel (v3_category s));
   ($"severity", pylabel (v3_severity s)); ($"confidence", pylabel (v3_confidence s));
   ($"title", PStr (v3_title s)); ($"plain_language_summary", PStr (v3_plain_language_summary s));
   ($"technical_detail", pyopt (v3_technical_detail s)); ($"evidence_ref", pyopt (v3_evidence_ref s));
   ($"scanner_name", pyopt (v3_scanner_name s)); ($"scanner_status", pylabel (v3_scanner_status s));
   ($"scanner_rule_id", pyopt (v3_scanner_rule_id s)); ($"redaction_level", pylabel (v3_redaction_level s));
   ($"source_path", pyopt (v3_source_path s));
   ($"source_line", match v3_source_line s with Some n => PInt n | None => PNone end);
   ($"data_source", pyopt (v3_data_source s)); ($"data_sink", pyopt (v3_data_sink s));
   ($"recommended_action", pyopt (v3_recommended_action s))].

(** [isinstance(value, int)] also holds for the booleans. *)
Definition optional_int (payload : pydict) (key : pystr) : result (option Z) :=
  match dict_get key payload with
  | PNone => Ok None
  | PInt n => Ok (Some n)
  | PBool b => Ok (Some (Z.b2z b))
  | _ => Raise (ValueError (show key +:+ " must be an integer or null"))
  end.

Definition v3_from_dict (payload : pydict) : result GuardRiskSignalV3 :=
  signal_id ← required_string payload ($"signal_id") ;
  source ← parse_source (dict_get ($"source") payload) ;
  source_version ← required_string payload ($"source_version") ;
  category ← parse_category (dict_get ($"category") payload) ;
  severity ← parse_severity (dict_get ($"severity") payload) ;
  confidence ← parse_risk_confidence (dict_get ($"confidence") payload) ;
  title ← required_string payload ($"title") ;
  summary ← required_string payload ($"plain_language_summary") ;
  technical_detail ← optional_string payload ($"technical_detail") ;
  evidence_ref ← optional_string payload ($"evidence_ref") ;
  scanner_name ← optional_string payload ($"scanner_name") ;
  scanner_status ← parse_scanner_status (dict_get ($"scanner_status") payload) ;
  scanner_rule_id ← optional_string payload ($"scanner_rule_id") ;
  redaction_level ← parse_redaction_level (dict_get ($"redaction_level") payload) ;
  source_path ← optional_string payload ($"source_path") ;
  source_line ← optional_int payload ($"source_line") ;
  data_source ← optional_string payload ($"data_source") ;
  data_sink ← optional_string payload ($"data_sink") ;
  recommended_action ← optional_string payload ($"recommended_action") ;
  Ok {| v3_signal_id := signal_id; v3_source := source; v3_source_version := source_version;
        v3_category := category; v3_severity := severity; v3_confidence := confidence; v3_title := title;
        v3_plain_language_summary := summary; v3_technical_detail := technical_detail;
        v3_evidence_ref := evidence_ref; v3_scanner_name := scanner_name;
        v3_scanner_status := scanner_status; v3_scanner_rule_id := scanner_rule_id;
        v3_redaction_level := redaction_level; v3_source_path := source_path;
        v3_source_line := source_line; v3_data_source := data_source; v3_data_sink := data_sink;
        v3_recommended_action := recommended_action |}.


(** ** Composition (composition_rules.py) *)

Definition SEVERITY_RANK (s : RiskSeverityLabel) : Z :=
  match s with sev_info => 0 | sev_low => 1 | sev_medium => 2 | sev_high => 3 | sev_critical => 4 end.

Definition DOWNGRADE_BLOCK_CATEGORIES : list RiskSignalCategory := [cat_bypass; cat_persistence].
Definition FP_DOWNGRADE_MAX_SEVERITY : list RiskSeverityLabel := [sev_info; sev_low].

Record CompositionResult := {
  cr_action : GuardAction;
  cr_reason : pystr;
  cr_downgraded : bool;
  cr_upgraded : bool;
  cr_normalization_reason_code : option pystr;
  cr_original_action : option pystr;
}.

(** [max(xs, key=...)]: the first of the largest. *)
Definition py_max_on {A} (key : A → Z) (x : A) (xs : list A) : A :=
  foldl (λ best y, if key best <? key y then y else best) x xs.

Definition confident (s : RiskSignalV2) : bool := py_in (confidence s) [conf_likely; conf_strong].

(** One of the three upgrade rules: [demand] is the action the rule asks for,
    [overwrite] whether its reason replaces an earlier one. *)
Definition upgrade (applies : bool) (demand : GuardAction) (overwrite : bool) (reason : pystr)
    (st : GuardAction * option pystr) : GuardAction * option pystr :=
  let '(current, upgrade_reason) := st in
  let upgraded := more_severe current demand in
  if applies && (GUARD_ACTION_SEVERITY current <? GUARD_ACTION_SEVERITY upgraded) then
    (upgraded,
     match upgrade_reason with
     | Some r => if overwrite then Some reason else Some r
     | None => Some reason
     end)
  else st.

(** The body of the loop over the risk signals. *)
Definition upgrade_by (st : GuardAction * option pystr) (s : RiskSignalV2) : GuardAction * option pystr :=
  let st := upgrade (bool_decide (category s = cat_bypass) && confident s) block true
              ($"bypass signal '" ++ detector s ++ $"' forces block") st in
  let st := upgrade (bool_decide (category s = cat_persistence) && py_in (severity s) [sev_high; sev_critical])
              review false ($"persistence signal '" ++ detector s ++ $"' requires review") st in
  upgrade (bool_decide (severity s = sev_critical) && confident s) block false
    ($"critical signal '" ++ detector s ++ $"' forces block") st.

Definition is_false_positive (s : RiskSignalV2) : bool := bool_decide (category s = cat_false_positive).
Definition risk_of (signals : list RiskSignalV2) : list RiskSignalV2 :=
  filter (λ s, is_false_positive s = false) signals.
Definition fp_of (signals : list RiskSignalV2) : list RiskSignalV2 :=
  filter (λ s, is_false_positive s = true) signals.

(** [all_fp_strong and only_low_risk and no_protected_cats] *)
Definition weak_risk (risk fp : list RiskSignalV2) : bool :=
  forallb (λ s, bool_decide (confidence s = conf_strong)) fp
  && forallb (λ s, py_in (severity s) FP_DOWNGRADE_MAX_SEVERITY) risk
  && forallb (λ s, negb (py_in (category s) DOWNGRADE_BLOCK_CATEGORIES)) risk.

(** [s.signal_id.startswith(("fp:source-search:", "fp:read-only-http-fetch:"))] *)
Definition review_noise (s : RiskSignalV2) : bool :=
  startswith ($"fp:source-search:") (signal_id s) || startswith ($"fp:read-only-http-fetch:") (signal_id s).

(** The downgrade, with its reason. *)
Definition downgrade (base : GuardAction) (risk fp : list RiskSignalV2) : option (GuardAction * pystr) :=
  if weak_risk risk fp && bool_decide (base = block) then
    Some (review, $"strong false-positive signals with only low-severity risk; downgraded block "
                  ++ [8594] ++ $" review")
  else if weak_risk risk fp && bool_decide (base = review) then
    if existsb review_noise fp && bool_decide (risk = []) then
      Some (warn, $"strong read-only false-positive with no risk signals; downgraded review "
                  ++ [8594] ++ $" warn")
    else None
  else None.

Definition compose_action_from_signals (signals : list RiskSignalV2) (base_action : pyval) : CompositionResult :=
  let normalization := normalize_with base_action block in
  let base := gan_action normalization in
  let risk := risk_of signals in
  let fp := fp_of signals in
  let answer action reason downgraded upgraded :=
    {| cr_action := action; cr_reason := reason; cr_downgraded := downgraded; cr_upgraded := upgraded;
       cr_normalization_reason_code := gan_reason_code normalization;
       cr_original_action := gan_original_action normalization |} in
  match signals with
  | [] => answer base ($"no detector signals; base policy action applies") false false
  | _ =>
      let '(current, upgrade_reason) := foldl upgrade_by (base, None) risk in
      match upgrade_reason with
      | Some reason => answer current reason false (GUARD_ACTION_SEVERITY base <? GUARD_ACTION_SEVERITY current)
      | None =>
          match (if negb (bool_decide (fp = [])) && recognized normalization then downgrade base risk fp else None) with
          | Some (action, reason) => answer action reason true false
          | None =>
              match risk with
              | s :: risk =>
                  let top := py_max_on (λ s, SEVERITY_RANK (severity s)) s risk in
                  answer current ($"risk signal '" ++ detector top ++ $"' (" ++ severity_value (severity top) ++ $"/"
                                  ++ confidence_value (confidence top) ++ $"); base action applies") false false
              | [] => answer current ($"advisory false-positive signals only; base action applies") false false
              end
          end
      end
  end.

(** ** Round trips *)

Lemma parse_label_value {A} `{PyEnum A} message (a : A) : parse_label message (pylabel a) = Ok a.
Proof. unfold parse_label, pylabel. by rewrite enum_of_value_value. Qed.

Lemma parse_label_Ok {A} `{PyEnum A} message v (a : A) : parse_label message v = Ok a ↔ v = pylabel a.
Proof.
  split; [|intros ->; apply parse_label_value]. unfold parse_label, pylabel.
  destruct v; try done. destruct (enum_of_value s) eqn:E; [|done]. intros [= ->].
  apply enum_of_value_Some in E as ->. done.
Qed.

Definition nonblank (s : pystr) : Prop := strip s ≠ [].

Lemma required_string_Ok payload key s :
  required_string payload key = Ok s ↔ dict_get key payload = PStr s ∧ nonblank s.
Proof.
  unfold required_string, nonblank. destruct (dict_get key payload); try naive_solver.
  rewrite then_Ok, raise_if_Ok, bool_decide_eq_false. naive_solver.
Qed.
Lemma optional_string_Ok payload key o :
  optional_string payload key = Ok o ↔ dict_get key payload = pyopt o.
Proof. unfold optional_string, pyopt. destruct (dict_get key payload), o; naive_solver. Qed.

(** The strings a signal has to have. *)
Definition signal_texts (s : RiskSignalV2) : Prop :=
  nonblank (signal_id s) ∧ nonblank (detector s) ∧ nonblank (title s) ∧ nonblank (plain_reason s).

(** Parsing succeeds exactly on the dictionaries that hold a signal's fields. *)
Lemma signal_from_dict_Ok payload s :
  signal_from_dict payload = Ok s ↔
  signal_texts s ∧ Forall (λ f, dict_get f.1 payload = f.2) (signal_to_dict s).
Proof.
  unfold signal_from_dict, signal_texts, signal_to_dict, parse_category, parse_severity, parse_risk_confidence,
    parse_redaction_level. repeat setoid_rewrite bind_Ok. repeat setoid_rewrite required_string_Ok.
  repeat setoid_rewrite optional_string_Ok. repeat setoid_rewrite parse_label_Ok. rewrite !Forall_cons.
  split.
  - intros (? & [? ?] & ? & ? & ? & ? & ? & ? & ? & [? ?] & ? & [? ?] & ? & [? ?] & ? & ? & ? & ? & ? & ? & ? & ? & ? & ? & [= <-]).
    simpl. by repeat split.
  - intros ((? & ? & ? & ?) & ? & ? & ? & ? & ? & ? & ? & ? & ? & ? & ? & ? & ?). simpl in *.
    repeat (eexists; split; [done|]). by destruct s.
Qed.

Lemma signal_roundtrip s : signal_texts s → signal_from_dict (signal_to_dict s) = Ok s.
Proof. intros H. apply signal_from_dict_Ok. split; [done|]. repeat constructor. Qed.

(** ** What composition does *)

(** The actions a risk signal asks for. *)
Definition demands (s : RiskSignalV2) : list GuardAction :=
  (if bool_decide (category s = cat_bypass) && confident s then [block] else [])
  ++ (if bool_decide (category s = cat_persistence) && py_in (severity s) [sev_high; sev_critical]
      then [review] else [])
  ++ (if bool_decide (severity s = sev_critical) && confident s then [block] else []).

(** The running action is at least the base, and has a reason once it is not. *)
Definition raised (base : GuardAction) (st : GuardAction * option pystr) : Prop :=
  GUARD_ACTION_SEVERITY base <= GUARD_ACTION_SEVERITY st.1 ∧ (st.2 = None ↔ st.1 = base).

Lemma more_severe_same a b : ¬ GUARD_ACTION_SEVERITY a < GUARD_ACTION_SEVERITY (more_severe a b) → more_severe a b = a.
Proof. destruct a, b; simpl; intros; try done; lia. Qed.

Lemma upgrade_fst applies demand o reason st :
  (upgrade applies demand o reason st).1 = sev_max st.1 (if applies then [demand] else []).
Proof.
  destruct st as [current r]. unfold upgrade. destruct applies; simpl; [|done].
  change (sev_max current [demand]) with (more_severe current demand).
  case (Z.ltb_spec (GUARD_ACTION_SEVERITY current) (GUARD_ACTION_SEVERITY (more_severe current demand))); [done|].
  intros H. simpl. symmetry. apply more_severe_same. apply Z.le_ngt, H.
Qed.

Lemma upgrade_raised base applies demand o reason st :
  raised base st → raised base (upgrade applies demand o reason st).
Proof.
  destruct st as [current r]. unfold raised, upgrade. intros [Hle Hr]. simpl in *. destruct applies; simpl; [|done].
  case (Z.ltb_spec (GUARD_ACTION_SEVERITY current) (GUARD_ACTION_SEVERITY (more_severe current demand))); [|done].
  simpl. intros Hlt. split; [lia|]. split.
  - destruct r; [by destruct o|done].
  - intros E. rewrite E in Hlt. lia.
Qed.

Lemma upgrade_by_spec base st s :
  (upgrade_by st s).1 = sev_max st.1 (demands s) ∧ (raised base st → raised base (upgrade_by st s)).
Proof.
  split; [|intros H; by repeat apply upgrade_raised].
  unfold upgrade_by, demands. rewrite !upgrade_fst. by rewrite !sev_max_app.
Qed.

Lemma upgrades_spec base risk : ∀ st,
  raised base st →
  (foldl upgrade_by st risk).1 = sev_max st.1 (risk ≫= demands) ∧ raised base (foldl upgrade_by st risk).
Proof.
  induction risk as [|s risk IH]; intros st Hst; [done|]. rewrite bind_cons, sev_max_app. simpl.
  destruct (upgrade_by_spec base st s) as [<- Hr]. apply IH. by apply Hr.
Qed.

Lemma weak_risk_demands risk fp : weak_risk risk fp = true → risk ≫= demands = [].
Proof.
  unfold weak_risk. rewrite !andb_true_iff, !forallb_Forall. intros [[_ Hs] Hc].
  induction risk as [|s risk IH]; [done|]. inversion_clear Hs as [|? ? Hs1 Hs2]. inversion_clear Hc as [|? ? Hc1 Hc2].
  rewrite bind_cons, IH by done. rewrite app_nil_r. unfold demands.
  rewrite negb_true_iff, py_in_false in Hc1. rewrite py_in_true in Hs1.
  rewrite (bool_decide_eq_false_2 (category s = cat_bypass)), (bool_decide_eq_false_2 (category s = cat_persistence)),
    (bool_decide_eq_false_2 (severity s = sev_critical)); [done|..].
  - unfold FP_DOWNGRADE_MAX_SEVERITY in Hs1. intros E. rewrite E, !elem_of_cons, elem_of_nil in Hs1. naive_solver.
  - unfold DOWNGRADE_BLOCK_CATEGORIES in Hc1. intros E. apply Hc1. rewrite E. set_solver.
  - unfold DOWNGRADE_BLOCK_CATEGORIES in Hc1. intros E. apply Hc1. rewrite E. set_solver.
Qed.

(** When an action is lowered: by strong false-positive evidence only, and
    only with weak risk beside it. *)
Definition lowers (n : GuardActionNormalization) (risk fp : list RiskSignalV2) : Prop :=
  recognized n = true ∧ fp ≠ [] ∧ weak_risk risk fp = true
  ∧ (gan_action n = block ∨ gan_action n = review ∧ risk = [] ∧ existsb review_noise fp = true).

Lemma downgrade_spec n risk fp :
  (∃ a r, (if negb (bool_decide (fp = [])) && recognized n then downgrade (gan_action n) risk fp else None) = Some (a, r))
  ↔ lowers n risk fp.
Proof.
  unfold lowers, downgrade. destruct (decide (fp = [])) as [->|Hfp].
  { simpl. split; [by intros (? & ? & ?)|by intros (_ & ? & _)]. }
  rewrite bool_decide_eq_false_2 by done.
  destruct (recognized n); simpl; [|split; [by intros (? & ? & ?)|by intros (? & _)]].
  destruct (weak_risk risk fp); simpl; [|split; [by intros (? & ? & ?)|by intros (_ & _ & ? & _)]].
  destruct (gan_action n); simpl; try (split; [by intros (? & ? & ?)|by intros (_ & _ & _ & [?|[? _]])]).
  - destruct (existsb review_noise fp), risk; simpl;
      (split; [|by intros (_ & _ & _ & [?|(_ & ? & ?)]); eauto]); [|by intros (? & ? & ?)..].
    intros _. split_and!; try done. by right.
  - split; [intros _; split_and!; try done; by left|eauto].
Qed.

Lemma downgrade_case base risk fp a r :
  downgrade base risk fp = Some (a, r) → base = block ∧ a = review ∨ base = review ∧ a = warn.
Proof.
  unfold downgrade. destruct (weak_risk risk fp); [|done]. destruct base; simpl; try done.
  - destruct (_ && _); [|done]. intros [= <- _]. by right.
  - intros [= <- _]. by left.
Qed.

(** C30: Composition calibrates the normalized base action exactly: every
    action a risk signal demands is a lower bound of the result; unless it is
    lowered, the result is the least upper bound of the base and the demands.
    It is lowered only from [block] to [review] or from [review] to [warn],
    exactly when the base is a known action, all false-positive signals are
    strong, there is one, and every risk signal is of low severity and outside
    the protected categories (for [review]: there is none, and the evidence is
    of a read-only kind).  The flags tell the two cases apart. *)
Theorem composition_calibrated signals base_action :
  let r := compose_action_from_signals signals base_action in
  let n := normalize_with base_action block in
  (∀ s a, s ∈ risk_of signals → a ∈ demands s → GUARD_ACTION_SEVERITY a <= GUARD_ACTION_SEVERITY (cr_action r))
  ∧ (cr_downgraded r = true ↔ lowers n (risk_of signals) (fp_of signals))
  ∧ (cr_downgraded r = true →
       gan_action n = block ∧ cr_action r = review ∨ gan_action n = review ∧ cr_action r = warn)
  ∧ (cr_downgraded r = false → cr_action r = sev_max (gan_action n) (risk_of signals ≫= demands))
  ∧ (cr_upgraded r = true ↔ GUARD_ACTION_SEVERITY (gan_action n) < GUARD_ACTION_SEVERITY (cr_action r)).
Proof.
  cbv zeta. set (n := normalize_with base_action block). set (risk := risk_of signals). set (fp := fp_of signals).
  destruct (upgrades_spec (gan_action n) risk (gan_action n, None)) as [Hmax [Hle Hraised]]; [by split|].
  pose proof (downgrade_spec n risk fp) as Hd.
  assert (∀ s a, s ∈ risk → a ∈ demands s → a ∈ risk ≫= demands) as Hin.
  { intros s a Hs Ha. apply list_elem_of_bind. eauto. }
  assert (∀ s a, s ∈ risk → a ∈ demands s →
    GUARD_ACTION_SEVERITY a <= GUARD_ACTION_SEVERITY (sev_max (gan_action n) (risk ≫= demands))) as Hbound.
  { intros s a Hs Ha. fold_sev. apply sev_max_ge_elem. eauto. }
  unfold compose_action_from_signals. fold n risk fp.
  assert (signals = [] → risk = [] ∧ fp = []) as Hnil by by intros ->.
  clearbody risk fp. destruct signals as [|s0 signals'].
  - simpl. split_and!; try done.
    + destruct (Hnil eq_refl) as [-> _]. intros s a Hs. by apply elem_of_nil in Hs.
    + destruct (Hnil eq_refl) as [_ ->]. split; [done|]. by intros (_ & ? & _).
    + by destruct (Hnil eq_refl) as [-> _].
    + split; [done|lia].
  - destruct (foldl upgrade_by (gan_action n, None) risk) as [current [reason|]] eqn:Ef;
      simpl in Hmax, Hle, Hraised; subst current.
    + simpl. split_and!; [done| |done|done|by rewrite Z.ltb_lt].
      split; [done|]. intros (_ & _ & Hw & _). apply weak_risk_demands in Hw. rewrite Hw in Hraised.
      by destruct Hraised as [_ Hr]; specialize (Hr eq_refl).
    + assert (sev_max (gan_action n) (risk ≫= demands) = gan_action n) as Hbase by by apply Hraised.
      destruct (if negb (bool_decide (fp = [])) && recognized n then downgrade (gan_action n) risk fp else None)
        as [[action reason]|] eqn:Edown.
      * assert (lowers n risk fp) as Hl by (apply Hd; eauto).
        assert (gan_action n = block ∧ action = review ∨ gan_action n = review ∧ action = warn) as Hcase.
        { destruct (negb _ && _); [|done]. by eapply downgrade_case. }
        simpl. split_and!; try done.
        -- intros s a Hs Ha. destruct Hl as (_ & _ & Hw & _). apply weak_risk_demands in Hw.
           specialize (Hin s a Hs Ha). rewrite Hw in Hin. by apply elem_of_nil in Hin.
        -- split; [done|]. destruct Hcase as [[-> ->]|[-> ->]]; simpl; lia.
      * assert (¬ lowers n risk fp) as Hl by (rewrite <- Hd; naive_solver).
        assert (¬ GUARD_ACTION_SEVERITY (gan_action n)
                  < GUARD_ACTION_SEVERITY (sev_max (gan_action n) (risk ≫= demands))) as Hirr by (rewrite Hbase; lia).
        by destruct risk as [|s risk']; simpl; split_and!.
Qed.

End Signals.
