(* ===== verification/ApprovalReuse.v ===== *)
(** * Reuse of saved approvals

    Models [runtime/approval_reuse.py]: how a recomputed action is composed
    with saved approval evidence.  The action and the saved action cross an
    untyped boundary.  The theorem shows when a saved approval relaxes the
    current action, and that it never does otherwise. *)

From S2P Require Import Prelude PyStr Sha256 PyVal ActionLattice RiskSignals.
Local Open Scope Z_scope.
Local Open Scope py_scope.

Module Reuse.
Import Signals.

Inductive ApprovalReuseStatus := accepted | rejected | not_applicable.
Global Instance ApprovalReuseStatus_eq_dec : EqDecision ApprovalReuseStatus.
Proof. solve_decision. Defined.
Definition status_value (s : ApprovalReuseStatus) : pystr :=
  match s with accepted => $"accepted" | rejected => $"rejected" | not_applicable => $"not-applicable" end.
Global Instance ApprovalReuseStatus_enum : PyEnum ApprovalReuseStatus.
Proof. refine {| enum_value := status_value; enum_members := [accepted; rejected; not_applicable] |}; solve_enum. Defined.

Inductive ApprovalReuseValidationFailure :=
  | identity_changed | content_changed | capability_changed | policy_changed | sandbox_changed | expired
  | integrity_failure | claim_failed | launch_identity_unverified | provider_account_unverified
  | context_changed_after_claim.
Global Instance ApprovalReuseValidationFailure_eq_dec : EqDecision ApprovalReuseValidationFailure.
Proof. solve_decision. Defined.
Definition failure_value (f : ApprovalReuseValidationFailure) : pystr :=
  match f with
  | identity_changed => $"approval_reuse_identity_changed"
  | content_changed => $"approval_reuse_content_changed"
  | capability_changed => $"approval_reuse_capability_changed"
  | policy_changed => $"approval_reuse_policy_changed"
  | sandbox_changed => $"approval_reuse_sandbox_changed"
  | expired => $"approval_reuse_expired"
  | integrity_failure => $"approval_reuse_integrity_failure"
  | claim_failed => $"approval_reuse_claim_failed"
  | launch_identity_unverified => $"approval_reuse_launch_identity_unverified"
  | provider_account_unverified => $"approval_reuse_provider_account_unverified"
  | context_changed_after_claim => $"approval_reuse_context_changed_after_claim"
  end.

Definition APPROVAL_REUSE_ACCEPTED : pystr := $"approval_reuse_accepted".
Definition APPROVAL_REUSE_NO_SAVED_DECISION : pystr := $"approval_reuse_no_saved_decision".
Definition APPROVAL_REUSE_CURRENT_ACTION_UNKNOWN : pystr := $"approval_reuse_current_action_unknown".
Definition APPROVAL_REUSE_SAVED_ACTION_UNKNOWN : pystr := $"approval_reuse_saved_action_unknown".
Definition APPROVAL_REUSE_CURRENT_BLOCK : pystr := $"approval_reuse_current_block".
Definition APPROVAL_REUSE_SANDBOX_REQUIRED : pystr := $"approval_reuse_sandbox_required".
Definition APPROVAL_REUSE_REAPPROVAL_REQUIRED : pystr := $"approval_reuse_reapproval_required".
Definition APPROVAL_REUSE_CURRENT_ACTION_NOT_REVIEW : pystr := $"approval_reuse_current_action_not_review".
Definition APPROVAL_REUSE_SAVED_ACTION_NOT_ALLOW : pystr := $"approval_reuse_saved_action_not_allow".
Definition APPROVAL_REUSE_SAVED_BLOCK : pystr := $"approval_reuse_saved_block".

Record ApprovalReuseDecision := {
  ar_action : GuardAction;
  ar_status : ApprovalReuseStatus;
  ar_reason_code : pystr;
  ar_current_action : GuardAction;
  ar_saved_action : option GuardAction;
  ar_should_claim : bool;
  ar_current_normalization_reason_code : option pystr;
  ar_saved_normalization_reason_code : option pystr;
  ar_original_current_action : option pystr;
  ar_original_saved_action : option pystr;
  ar_original_current_type : string;
  ar_original_saved_type : option string;
  ar_saved_artifact_hash_is_context_token : option bool;
}.

Definition pyaction (a : GuardAction) : pyval := PStr (action_value a).
Definition pyaction_opt (o : option GuardAction) : pyval := match o with Some a => pyaction a | None => PNone end.

Definition to_evidence (d : ApprovalReuseDecision) : list (pystr * pyval) :=
  [($"action", pyaction (ar_action d)); ($"status", pylabel (ar_status d));
   ($"reason_code", PStr (ar_reason_code d)); ($"current_action", pyaction (ar_current_action d));
   ($"saved_action", pyaction_opt (ar_saved_action d)); ($"should_claim", PBool (ar_should_claim d));
   ($"current_normalization_reason_code", pyopt (ar_current_normalization_reason_code d));
   ($"saved_normalization_reason_code", pyopt (ar_saved_normalization_reason_code d));
   ($"original_current_action", pyopt (ar_original_current_action d));
   ($"original_saved_action", pyopt (ar_original_saved_action d));
   ($"original_current_type", PStr (lit (ar_original_current_type d)));
   ($"original_saved_type", pyopt (lit <$> ar_original_saved_type d))]
  ++ match ar_saved_artifact_hash_is_context_token d with
     | Some b => [($"saved_artifact_hash_is_context_token", PBool b)]
     | None => []
     end.

(** [_decision] *)
Definition reuse_decision (action : GuardAction) (status : ApprovalReuseStatus) (reason_code : pystr)
    (current : GuardActionNormalization) (saved : option GuardActionNormalization) (should_claim : bool)
    : ApprovalReuseDecision :=
  {| ar_action := action; ar_status := status; ar_reason_code := reason_code;
     ar_current_action := gan_action current; ar_saved_action := gan_action <$> saved;
     ar_should_claim := should_claim;
     ar_current_normalization_reason_code := gan_reason_code current;
     ar_saved_normalization_reason_code := saved ≫= gan_reason_code;
     ar_original_current_action := gan_original_action current;
     ar_original_saved_action := saved ≫= gan_original_action;
     ar_original_current_type := gan_original_type current;
     ar_original_saved_type := gan_original_type <$> saved;
     ar_saved_artifact_hash_is_context_token := None |}.

Definition evaluate_approval_reuse (current_action saved_action : pyval) (saved_decision_present : option bool)
    (validation_reason : option ApprovalReuseValidationFailure) (fresh_local_approval durable_exact_approval : bool)
    : ApprovalReuseDecision :=
  let current := normalize_with current_action block in
  let present := match saved_decision_present with
                 | Some b => b
                 | None => match saved_action with PNone => false | _ => true end
                 end in
  if negb present then
    reuse_decision (gan_action current) (if recognized current then not_applicable else rejected)
      (if recognized current then APPROVAL_REUSE_NO_SAVED_DECISION else APPROVAL_REUSE_CURRENT_ACTION_UNKNOWN)
      current None false
  else
    let saved := normalize_with saved_action require_reapproval in
    let conservative := more_severe (gan_action current) (gan_action saved) in
    let answer action status reason claim := reuse_decision action status reason current (Some saved) claim in
    if negb (recognized current) then answer conservative rejected APPROVAL_REUSE_CURRENT_ACTION_UNKNOWN false
    else match validation_reason with
    | Some f =>
        answer (if decide (f = integrity_failure) then more_severe conservative require_reapproval else conservative)
          rejected (failure_value f) false
    | None =>
        if negb (recognized saved) then answer conservative rejected APPROVAL_REUSE_SAVED_ACTION_UNKNOWN false
        else if decide (gan_action saved = block) then answer block accepted APPROVAL_REUSE_SAVED_BLOCK false
        else if decide (gan_action current = block) then answer block rejected APPROVAL_REUSE_CURRENT_BLOCK false
        else if decide (gan_action current = sandbox_required) then
          answer sandbox_required rejected APPROVAL_REUSE_SANDBOX_REQUIRED false
        else if bool_decide (gan_action current = require_reapproval)
                && (fresh_local_approval || durable_exact_approval) && bool_decide (gan_action saved = allow) then
          answer allow accepted APPROVAL_REUSE_ACCEPTED true
        else if decide (gan_action current = require_reapproval) then
          answer conservative rejected APPROVAL_REUSE_REAPPROVAL_REQUIRED false
        else if bool_decide (gan_action current = review) && bool_decide (gan_action saved = allow) then
          answer allow accepted APPROVAL_REUSE_ACCEPTED true
        else if decide (gan_action saved = allow) then
          answer (gan_action current) not_applicable APPROVAL_REUSE_CURRENT_ACTION_NOT_REVIEW false
        else answer conservative rejected APPROVAL_REUSE_SAVED_ACTION_NOT_ALLOW false
    end.

(** ** Properties *)

(** When a saved approval may relax the current action: it says [allow],
    nothing is wrong with it, and the current action is a review, or a
    reapproval that the saved approval answers itself. *)
Definition relaxes (current saved : GuardActionNormalization)
    (validation : option ApprovalReuseValidationFailure) (fresh durable : bool) : bool :=
  recognized current && recognized saved && bool_decide (gan_action saved = allow)
  && bool_decide (validation = None)
  && (bool_decide (gan_action current = review)
      || bool_decide (gan_action current = require_reapproval) && (fresh || durable)).

(** C29: A saved approval relaxes the recomputed action in exactly one way:
    the result is less severe than the current action only if it is [allow],
    accepted and to be claimed, the saved action is [allow] without any
    validation failure, and the current action is [review], or
    [require-reapproval] answered by a fresh or durable exact approval; an
    unknown action, [sandbox-required] and [block] are never relaxed.  In every
    other case the result is at least as severe as both the current and the
    saved action, and after an integrity failure at least a reapproval. *)
Theorem reuse_relaxes_exactly (current_action saved_action : pyval) (present : option bool)
    (validation : option ApprovalReuseValidationFailure) (fresh durable : bool) :
  let d := evaluate_approval_reuse current_action saved_action present validation fresh durable in
  let current := normalize_with current_action block in
  let saved := normalize_with saved_action require_reapproval in
  let considered := default (match saved_action with PNone => false | _ => true end) present in
  (GUARD_ACTION_SEVERITY (ar_action d) < GUARD_ACTION_SEVERITY (gan_action current)
   ↔ considered = true ∧ relaxes current saved validation fresh durable = true)
  ∧ (ar_should_claim d = true
     ↔ considered = true ∧ relaxes current saved validation fresh durable = true)
  ∧ (ar_should_claim d = true → ar_action d = allow ∧ ar_status d = accepted)
  ∧ (considered = true → ar_should_claim d = false →
     GUARD_ACTION_SEVERITY (gan_action saved) <= GUARD_ACTION_SEVERITY (ar_action d)
     ∧ (recognized current = true → validation = Some integrity_failure →
        GUARD_ACTION_SEVERITY require_reapproval <= GUARD_ACTION_SEVERITY (ar_action d))).
Proof.
  cbv zeta. unfold evaluate_approval_reuse, relaxes.
  set (current := normalize_with current_action block). set (saved := normalize_with saved_action require_reapproval).
  replace (match present with Some b => b | None => match saved_action with PNone => false | _ => true end end)
    with (default (match saved_action with PNone => false | _ => true end) present) by by destruct present.
  generalize (default (match saved_action with PNone => false | _ => true end) present). intros considered.
  pose proof (more_severe_max (gan_action current) (gan_action saved)) as Hmax.
  set (cons := more_severe _ _) in *.
  destruct considered; simpl; [|split_and!; solve [done | lia | naive_solver]].
  destruct (recognized current); simpl; [|split_and!; solve [done | lia | naive_solver lia]].
  destruct validation as [f|]; simpl.
  { rewrite !andb_false_r. simpl. pose proof (more_severe_max cons require_reapproval).
    case_decide as Hf; split_and!; solve [done | lia | naive_solver lia]. }
  destruct (recognized saved); simpl; [|split_and!; solve [done | lia | naive_solver lia]].
  clearbody cons. destruct (gan_action current), (gan_action saved), fresh, durable; simpl in *;
    split_and!; solve [done | lia | naive_solver lia].
Qed.

End Reuse.
