(* ===== verification/Decisions.v ===== *)
(** * The authoritative decision

    Models the first half of [runtime/decisions.py] with
    [runtime/data_flow_sink.py]: the product-facing decision and its messages,
    the enforcement state derived from an action, the authoritative decision
    with its dictionaries, and the validation every decision passes, whether it
    is built or parsed.  [DecisionArtifacts.v] models the artifact rows and run
    evaluations that carry a decision.

    The composition trace is an untyped dictionary.  The theorems: a decision
    permits a launch only if its action is [allow] or [warn] and its authority
    is final, and no action its trace records is weakened but by an explicit
    approval; a decision survives serialization. *)

From S2P Require Import Prelude PyStr Sha256 PyVal ActionLattice RiskSignals ApprovalReuse.
Local Open Scope Z_scope.
Local Open Scope py_scope.

Module Decision.
Import Signals Reuse.

(** ** Data *)

Inductive GuardDecisionAction := da_allow | da_warn | da_ask | da_block.
Global Instance GuardDecisionAction_eq_dec : EqDecision GuardDecisionAction.
Proof. solve_decision. Defined.
Definition decision_action_value (a : GuardDecisionAction) : pystr :=
  match a with da_allow => $"allow" | da_warn => $"warn" | da_ask => $"ask" | da_block => $"block" end.
Global Instance GuardDecisionAction_enum : PyEnum GuardDecisionAction.
Proof. refine {| enum_value := decision_action_value; enum_members := [da_allow; da_warn; da_ask; da_block] |}; solve_enum. Defined.

Definition AUTHORITATIVE_DECISION_SCHEMA_VERSION : Z := 1.
Definition AUTHORITATIVE_DECISION_INCONSISTENT : pystr := $"authoritative_decision_inconsistent".
Definition BLOCKING_ACTIONS : list GuardAction := [review; require_reapproval; sandbox_required; block].
Definition COMPOSITION_ACTION_FIELDS : list pystr :=
  [$"configured_action"; $"current_action"; $"saved_action"; $"scanner_action"; $"runtime_detector_action"].
Definition KNOWN_COMPOSITION_ACTION_FIELDS : list pystr := COMPOSITION_ACTION_FIELDS ++ [$"final_action"].
Definition TERMINAL_COMPOSITION_ACTIONS : list GuardAction := [sandbox_required; block].
Definition DECISION_V2_FIELDS : list pystr :=
  [$"guard_action"; $"action"; $"reason"; $"user_title"; $"user_body"; $"harness_message";
   $"dashboard_primary_detail"; $"approval_scopes"; $"retry_instruction"; $"signals"; $"confidence"].
Definition DECISION_V2_ACTION_FIELDS : list pystr := [$"guard_action"; $"action"].
Definition ENFORCEMENT_FIELDS : list pystr :=
  [$"blocking"; $"authority_finalized"; $"launch_permitted"; $"prompt_required"; $"sandbox_required";
   $"snapshot_permitted"].
Definition AUTHORITATIVE_DECISION_FIELDS : list pystr :=
  [$"schema_version"; $"action"; $"source"; $"reason"; $"composition_trace"; $"signals"; $"enforcement";
   $"decision_v2"].

(** [_ACTION_MESSAGES] *)
Record ActionMessage := {
  am_action : GuardDecisionAction;
  am_title : pystr;
  am_message : pystr;
  am_retry : pystr;
}.
Definition ACTION_MESSAGES (a : GuardAction) : ActionMessage :=
  match a with
  | allow =>
      {| am_action := da_allow; am_title := $"Allowed by policy";
         am_message := $"Policy allows this action.";
         am_retry := $"HOL Guard allowed this action because policy already trusts it." |}
  | warn =>
      {| am_action := da_warn; am_title := $"Risk signals found";
         am_message := $"HOL Guard noticed risk signals, but policy allows the harness to continue.";
         am_retry := $"Review the warning if this action was unexpected." |}
  | review =>
      {| am_action := da_ask; am_title := $"Approval required";
         am_message := $"HOL Guard needs your approval before this action can run.";
         am_retry := $"Choose an approval scope, then retry in the harness." |}
  | sandbox_required =>
      {| am_action := da_ask; am_title := $"Sandbox review required";
         am_message := $"HOL Guard wants this action reviewed and run in a sandboxed path.";
         am_retry := $"Run this action in an approved sandbox, then retry." |}
  | require_reapproval =>
      {| am_action := da_ask; am_title := $"Fresh approval required";
         am_message := $"HOL Guard needs a fresh approval because this action changed.";
         am_retry := $"Choose the smallest approval scope that matches your intent, then retry." |}
  | block =>
      {| am_action := da_block; am_title := $"Blocked by policy";
         am_message := $"HOL Guard blocked this action.";
         am_retry := $"Review the details before changing policy or retrying." |}
  end.

Record GuardDecisionV2 := {
  v2_guard_action : GuardAction;
  v2_action : GuardDecisionAction;
  v2_reason : pystr;
  v2_user_title : pystr;
  v2_user_body : pystr;
  v2_harness_message : pystr;
  v2_dashboard_primary_detail : pystr;
  v2_approval_scopes : list pystr;
  v2_retry_instruction : option pystr;
  v2_signals : list RiskSignalV2;
  v2_confidence : RiskConfidenceLabel;
  v2_package_review_cloud_reason_code : option pystr;
}.
Global Instance GuardDecisionV2_eq_dec : EqDecision GuardDecisionV2.
Proof. solve_decision. Defined.

Record GuardDecisionEnforcementState := {
  blocking : bool;
  authority_finalized : bool;
  launch_permitted : bool;
  prompt_required : bool;
  enf_sandbox_required : bool;
  snapshot_permitted : bool;
}.

Record AuthoritativeGuardDecision := {
  ad_schema_version : Z;
  ad_action : GuardAction;
  ad_source : pystr;
  ad_reason : pystr;
  ad_composition_trace : pydict;
  ad_signals : list RiskSignalV2;
  ad_enforcement : GuardDecisionEnforcementState;
  ad_decision_v2 : GuardDecisionV2;
}.

(** ** Dictionaries *)

Definition pysignals (signals : list RiskSignalV2) : pyval := PList (map (λ s, PDict (signal_to_dict s)) signals).

Definition v2_to_dict (d : GuardDecisionV2) : pydict :=
  [($"guard_action", pyaction (v2_guard_action d)); ($"action", pylabel (v2_action d));
   ($"reason", PStr (v2_reason d)); ($"user_title", PStr (v2_user_title d));
   ($"user_body", PStr (v2_user_body d)); ($"harness_message", PStr (v2_harness_message d));
   ($"dashboard_primary_detail", PStr (v2_dashboard_primary_detail d));
   ($"approval_scopes", PList (map PStr (v2_approval_scopes d)));
   ($"retry_instruction", pyopt (v2_retry_instruction d)); ($"signals", pysignals (v2_signals d));
   ($"confidence", pylabel (v2_confidence d))]
  ++ match v2_package_review_cloud_reason_code d with
     | Some code => [($"package_review_cloud_reason_code", PStr code)]
     | None => []
     end.

Definition enforcement_to_dict (e : GuardDecisionEnforcementState) : pydict :=
  [($"blocking", PBool (blocking e)); ($"authority_finalized", PBool (authority_finalized e));
   ($"launch_permitted", PBool (launch_permitted e)); ($"prompt_required", PBool (prompt_required e));
   ($"sandbox_required", PBool (enf_sandbox_required e)); ($"snapshot_permitted", PBool (snapshot_permitted e))].

Definition authoritative_to_dict (d : AuthoritativeGuardDecision) : pydict :=
  [($"schema_version", PInt (ad_schema_version d)); ($"action", pyaction (ad_action d));
   ($"source", PStr (ad_source d)); ($"reason", PStr (ad_reason d));
   ($"composition_trace", PDict (ad_composition_trace d)); ($"signals", pysignals (ad_signals d));
   ($"enforcement", PDict (enforcement_to_dict (ad_enforcement d)));
   ($"decision_v2", PDict (v2_to_dict (ad_decision_v2 d)))].

Definition to_artifact_projection (d : AuthoritativeGuardDecision) : pydict :=
  [($"authoritative_decision", PDict (authoritative_to_dict d)); ($"policy_action", pyaction (ad_action d));
   ($"decision_v2_json", PDict (v2_to_dict (ad_decision_v2 d)));
   ($"policy_composition", PDict (ad_composition_trace d)); ($"verdict_action", pyaction (ad_action d))].

(** ** Parsing *)

(** [key in payload] *)
Definition dict_has (key : pystr) (payload : pydict) : bool := py_in key (dict_keys payload).

Definition parse_guard_action (value : pyval) : result GuardAction :=
  match coerce_guard_action value with
  | Some a => Ok a
  | None => Raise (ValueError "action must be a known Guard action")
  end.

Definition parse_action : pyval → result GuardDecisionAction :=
  parse_label "action must be a known Guard decision action".

Definition parse_signals (value : pyval) : result (list RiskSignalV2) :=
  match value with
  | PList items =>
      map_result (λ item, match item with
                          | PDict payload => signal_from_dict payload
                          | _ => Raise (ValueError ("signal item must be an object, got " +:+ type_name item))
                          end) items
  | _ => Raise (ValueError "signals must be a list")
  end.

Definition parse_string_tuple (value : pyval) (key : string) : result (list pystr) :=
  let error := ValueError (key +:+ " must be a list of non-empty strings") in
  match value with
  | PList items =>
      map_result (λ item, match item with
                          | PStr s => if decide (strip s = []) then Raise error else Ok s
                          | _ => Raise error
                          end) items
  | _ => Raise error
  end.

Definition required_bool (payload : pydict) (key : pystr) : result bool :=
  match dict_get key payload with
  | PBool b => Ok b
  | _ => Raise (ValueError (show key +:+ " must be a boolean"))
  end.

Definition reject_unknown_action_bearing_fields (payload : pydict) (allowed : list pystr) (context : string)
    : result unit :=
  for_each (λ key, raise_if (is_action_bearing_key key && negb (py_in key allowed))
                     (ValueError (context +:+ " contains unknown action-bearing field: " +:+ show key)))
    (dict_keys payload).

Definition require_exact_fields (payload : pydict) (expected : list pystr) (context : string) : result unit :=
  raise_if (negb (py_subset (dict_keys payload) expected && py_subset expected (dict_keys payload)))
    (ValueError (context +:+ " fields must match schema")).

Definition v2_from_dict (payload : pydict) : result GuardDecisionV2 :=
  reject_unknown_action_bearing_fields payload DECISION_V2_ACTION_FIELDS "decision_v2" ;;
  guard_action ← parse_guard_action (dict_get ($"guard_action") payload) ;
  action ← parse_action (dict_get ($"action") payload) ;
  raise_if (negb (bool_decide (action = am_action (ACTION_MESSAGES guard_action))))
    (ValueError "decision_v2.action must match guard_action") ;;
  reason ← required_string payload ($"reason") ;
  user_title ← required_string payload ($"user_title") ;
  user_body ← required_string payload ($"user_body") ;
  harness_message ← required_string payload ($"harness_message") ;
  dashboard_primary_detail ← required_string payload ($"dashboard_primary_detail") ;
  approval_scopes ← parse_string_tuple (dict_get ($"approval_scopes") payload) "approval_scopes" ;
  retry_instruction ← optional_string payload ($"retry_instruction") ;
  signals ← parse_signals (dict_get ($"signals") payload) ;
  confidence ← parse_risk_confidence (dict_get ($"confidence") payload) ;
  package_review_cloud_reason_code ← optional_string payload ($"package_review_cloud_reason_code") ;
  Ok {| v2_guard_action := guard_action; v2_action := action; v2_reason := reason;
        v2_user_title := user_title; v2_user_body := user_body; v2_harness_message := harness_message;
        v2_dashboard_primary_detail := dashboard_primary_detail; v2_approval_scopes := approval_scopes;
        v2_retry_instruction := retry_instruction; v2_signals := signals; v2_confidence := confidence;
        v2_package_review_cloud_reason_code := package_review_cloud_reason_code |}.

Definition enforcement_from_dict (payload : pydict) : result GuardDecisionEnforcementState :=
  require_exact_fields payload ENFORCEMENT_FIELDS "enforcement" ;;
  blocking ← required_bool payload ($"blocking") ;
  authority_finalized ← required_bool payload ($"authority_finalized") ;
  launch_permitted ← required_bool payload ($"launch_permitted") ;
  prompt_required ← required_bool payload ($"prompt_required") ;
  sandbox_required ← required_bool payload ($"sandbox_required") ;
  snapshot_permitted ← required_bool payload ($"snapshot_permitted") ;
  Ok {| blocking := blocking; authority_finalized := authority_finalized;
        launch_permitted := launch_permitted; prompt_required := prompt_required;
        enf_sandbox_required := sandbox_required; snapshot_permitted := snapshot_permitted |}.

(** ** Messages *)

(** [data_flow_sink_type] *)
Definition data_flow_sink_type (signals : list RiskSignalV2) : pystr :=
  let signal_ids := map signal_id signals in
  if existsb (λ s, bool_decide (category s = cat_network)) signals then $"network host"
  else if py_in ($"data-flow:clipboard-secret") signal_ids then $"clipboard"
  else if py_in ($"data-flow:world-readable-temp-secret") signal_ids then $"world-readable temp file"
  else if py_in ($"data-flow:git-remote-token") signal_ids then $"git remote configuration"
  else $"external sink".

Definition has_data_flow_exfiltration_signal (signals : list RiskSignalV2) : bool :=
  existsb (λ s, bool_decide (detector s = $"data_flow.exfiltration") || startswith ($"data-flow:") (signal_id s)) signals.

Definition confidence_rank (c : RiskConfidenceLabel) : Z :=
  match c with conf_strong => 3 | conf_likely => 2 | conf_weak => 1 end.

Definition highest_confidence (signals : list RiskSignalV2) : RiskConfidenceLabel :=
  match map confidence signals with
  | [] => conf_likely
  | c :: cs => py_max_on confidence_rank c cs
  end.

Definition approval_scopes_for_action (action : GuardAction) : list pystr :=
  if negb (py_in action [review; require_reapproval]) then []
  else [$"artifact"; $"workspace"; $"publisher"; $"harness"].

Definition dashboard_detail_from_signals (signals : list RiskSignalV2) (fallback : pystr) : pystr :=
  match signals with
  | [] => fallback
  | s :: rest =>
      if has_data_flow_exfiltration_signal signals then
        let sink_type := data_flow_sink_type signals in
        $"Source-to-sink route: local secret -> " ++ sink_type ++ $". "
        ++ $"This command sends local secret to " ++ sink_type
        ++ $" without exposing the raw secret in Guard evidence."
      else plain_reason (py_max_on (λ s, confidence_rank (confidence s)) s rest)
  end.

Definition harness_message_from_signals (signals : list RiskSignalV2) (fallback : pystr)
    (policy_action : GuardAction) : pystr :=
  if has_data_flow_exfiltration_signal signals then
    let sink_type := data_flow_sink_type signals in
    match policy_action with
    | allow => $"HOL Guard allowed this action after noting that it sends local secret to " ++ sink_type ++ $"."
    | warn => $"HOL Guard allowed this action with a warning because it sends local secret to " ++ sink_type ++ $"."
    | sandbox_required => $"HOL Guard requires a sandbox because this action sends local secret to " ++ sink_type ++ $"."
    | block => $"HOL Guard blocked this action because it sends local secret to " ++ sink_type ++ $"."
    | review | require_reapproval =>
        $"HOL Guard paused this action because it sends local secret to " ++ sink_type ++ $"."
    end
  else fallback.

Definition decision_from_legacy_policy_action (policy_action : GuardAction) (reason : pystr)
    (signals : list RiskSignalV2) : GuardDecisionV2 :=
  let m := ACTION_MESSAGES policy_action in
  let dashboard_detail := dashboard_detail_from_signals signals (am_message m) in
  {| v2_guard_action := policy_action; v2_action := am_action m; v2_reason := reason;
     v2_user_title := am_title m; v2_user_body := dashboard_detail;
     v2_harness_message := harness_message_from_signals signals (am_message m) policy_action;
     v2_dashboard_primary_detail := dashboard_detail;
     v2_approval_scopes := approval_scopes_for_action policy_action;
     v2_retry_instruction := if py_in (am_action m) [da_allow; da_warn] then None else Some (am_retry m);
     v2_signals := signals; v2_confidence := highest_confidence signals;
     v2_package_review_cloud_reason_code := None |}.

(** ** Validation *)

(** [visit] of [_reject_unknown_composition_action_fields]. *)
Fixpoint visit (value : pyval) (path : pystr) (top_level : bool) : result unit :=
  match value with
  | PDict kv =>
      (fix go (kv : list (pystr * pyval)) : result unit :=
         match kv with
         | [] => Ok tt
         | (raw_key, nested) :: kv =>
             let key_path := path ++ $"." ++ raw_key in
             let known_top_level_action := top_level && py_in raw_key KNOWN_COMPOSITION_ACTION_FIELDS in
             raise_if (is_action_bearing_key raw_key && negb known_top_level_action)
               (ValueError ("composition_trace contains unknown action-bearing field: " +:+ show key_path)) ;;
             visit nested key_path false ;;
             go kv
         end) kv
  | PList l =>
      (fix go (index : Z) (l : list pyval) : result unit :=
         match l with
         | [] => Ok tt
         | nested :: l => visit nested (path ++ $"[" ++ str_of_int index ++ $"]") false ;; go (index + 1) l
         end) 0 l
  | _ => Ok tt
  end.
Definition reject_unknown_composition_action_fields (trace : pydict) : result unit :=
  visit (PDict trace) ($"composition_trace") true.

(** One field of the loop that parses the trace. *)
Definition parse_trace_field (trace : pydict) (key : pystr) : result (pystr * option GuardAction) :=
  match dict_lookup key trace with
  | None => Ok (key, None)
  | Some value =>
      if match value with PNone => py_in key [$"configured_action"; $"saved_action"; $"scanner_action"] | _ => false end
      then Ok (key, None)
      else match coerce_guard_action value with
           | Some a => Ok (key, Some a)
           | None => Raise (ValueError ("composition_trace." +:+ show key +:+ " must be a known Guard action or null"))
           end
  end.

(** [trace.get(key, False)], which must be a boolean *)
Definition trace_flag (trace : pydict) (key : pystr) : result bool :=
  match default (PBool false) (dict_lookup key trace) with
  | PBool b => Ok b
  | _ => Raise (ValueError ("composition_trace." +:+ show key +:+ " must be a boolean"))
  end.

Definition parsed_get (key : pystr) (parsed : list (pystr * option GuardAction)) : option GuardAction :=
  mjoin (dict_lookup key parsed).

(** [a < b] on severities *)
Definition weaker (a b : GuardAction) : bool := GUARD_ACTION_SEVERITY a <? GUARD_ACTION_SEVERITY b.

(** [max(inputs, key=guard_action_severity, default=None)] *)
Definition strongest (inputs : list GuardAction) : option GuardAction :=
  match inputs with [] => None | a :: l => Some (py_max_on GUARD_ACTION_SEVERITY a l) end.

(** [explicit_approval_override] *)
Definition approval_override (action : GuardAction) (current saved : option GuardAction)
    (saved_state_present trusted : bool) : bool :=
  let saved_allow_override :=
    bool_decide (current = Some review) && bool_decide (saved = Some allow) && saved_state_present
    && py_in action [allow; warn] in
  (trusted && py_in action [allow; warn]) || saved_allow_override.

Definition validate_composition_trace (action : GuardAction) (trace : pydict) : result unit :=
  raise_if (negb (py_eqb (dict_get ($"final_action") trace) (pyaction action)))
    (ValueError "composition_trace.final_action must match action") ;;
  reject_unknown_composition_action_fields trace ;;
  parsed ← map_result (parse_trace_field trace) COMPOSITION_ACTION_FIELDS ;
  trusted_override ← trace_flag trace ($"trusted_request_override") ;
  saved_state_present ← trace_flag trace ($"saved_state_present") ;
  let runtime_action := parsed_get ($"runtime_detector_action") parsed in
  raise_if (bool_decide (runtime_action = Some block) && negb (bool_decide (action = block)))
    (ValueError "runtime detector block cannot be overridden") ;;
  let current_action := parsed_get ($"current_action") parsed in
  for_each (λ p : pystr * option GuardAction,
    raise_if match p.2 with
             | Some candidate => py_in candidate TERMINAL_COMPOSITION_ACTIONS && weaker action candidate
             | None => false
             end (ValueError ("composition_trace." +:+ show p.1 +:+ " cannot be weakened by the final action"))) parsed ;;
  for_each (λ key,
    raise_if match current_action, parsed_get key parsed with
             | Some current, Some candidate => weaker current candidate
             | _, _ => false
             end (ValueError ("composition_trace.current_action cannot be weaker than " +:+ show key)))
    [$"configured_action"; $"scanner_action"] ;;
  let explicit_approval_override :=
    approval_override action current_action (parsed_get ($"saved_action") parsed) saved_state_present trusted_override in
  raise_if (bool_decide (runtime_action = Some warn) && weaker action warn)
    (ValueError "runtime detector warning cannot be erased by the final action") ;;
  raise_if (bool_decide (runtime_action = Some review) && weaker action review && negb explicit_approval_override)
    (ValueError "runtime detector review requires an explicit allowed override") ;;
  let authority_inputs :=
    omap (λ p : pystr * option GuardAction, if decide (p.1 = $"runtime_detector_action") then None else p.2) parsed in
  raise_if match strongest authority_inputs with
           | None => false
           | Some input => weaker action input && negb explicit_approval_override
           end (ValueError "composition_trace final action weakens authority without an explicit allowed override").

Definition is_blocking (action : GuardAction) : bool := py_in action BLOCKING_ACTIONS.

Definition validate_authoritative_decision (d : AuthoritativeGuardDecision) : result unit :=
  validate_composition_trace (ad_action d) (ad_composition_trace d) ;;
  let e := ad_enforcement d in
  let expected_blocking := is_blocking (ad_action d) in
  let expected_launch := negb expected_blocking && authority_finalized e in
  raise_if (negb (Bool.eqb (blocking e) expected_blocking))
    (ValueError "enforcement.blocking must derive from action") ;;
  raise_if (negb (Bool.eqb (launch_permitted e) expected_launch))
    (ValueError "enforcement.launch_permitted must derive from action and authority state") ;;
  raise_if (negb (Bool.eqb (prompt_required e) (py_in (ad_action d) [review; require_reapproval])))
    (ValueError "enforcement.prompt_required must derive from action") ;;
  raise_if (negb (Bool.eqb (enf_sandbox_required e) (bool_decide (ad_action d = sandbox_required))))
    (ValueError "enforcement.sandbox_required must derive from action") ;;
  raise_if (negb (Bool.eqb (snapshot_permitted e) expected_launch))
    (ValueError "enforcement.snapshot_permitted must derive from action and authority state") ;;
  raise_if (negb (bool_decide (ad_decision_v2 d
                               = decision_from_legacy_policy_action (ad_action d) (ad_reason d) (ad_signals d))))
    (ValueError "decision_v2 must derive entirely from action, reason, and signals").

(** ** Construction *)

(** The enforcement of an action, from its authority. *)
Definition enforcement_of (action : GuardAction) (finalized : bool) : GuardDecisionEnforcementState :=
  let blocks := is_blocking action in
  {| blocking := blocks; authority_finalized := finalized; launch_permitted := negb blocks && finalized;
     prompt_required := py_in action [review; require_reapproval];
     enf_sandbox_required := bool_decide (action = sandbox_required);
     snapshot_permitted := negb blocks && finalized |}.

Definition COMPOSED_SOURCE : pystr := $"composed-consumer-policy".

Definition build_authoritative_decision (action : GuardAction) (reason : pystr) (composition_trace : pydict)
    (signals : list RiskSignalV2) (finalized : bool) (source : pystr) : result AuthoritativeGuardDecision :=
  raise_if (bool_decide (strip reason = [])) (ValueError "reason must be a non-empty string") ;;
  let decision :=
    {| ad_schema_version := AUTHORITATIVE_DECISION_SCHEMA_VERSION; ad_action := action; ad_source := source;
       ad_reason := reason;
       ad_composition_trace := dict_set ($"final_action") (pyaction action) composition_trace;
       ad_signals := signals; ad_enforcement := enforcement_of action finalized;
       ad_decision_v2 := decision_from_legacy_policy_action action reason signals |} in
  validate_authoritative_decision decision ;;
  Ok decision.

Definition authoritative_from_dict (payload : pydict) : result AuthoritativeGuardDecision :=
  require_exact_fields payload AUTHORITATIVE_DECISION_FIELDS "authoritative_decision" ;;
  raise_if (match dict_get ($"schema_version") payload with
            | PInt n => negb (n =? AUTHORITATIVE_DECISION_SCHEMA_VERSION)
            | _ => true
            end) (ValueError "schema_version must be 1") ;;
  action ← parse_guard_action (dict_get ($"action") payload) ;
  source ← required_string payload ($"source") ;
  reason ← required_string payload ($"reason") ;
  composition_trace ←
    match dict_get ($"composition_trace") payload with
    | PDict trace => Ok trace
    | _ => Raise (ValueError "composition_trace must be an object with string keys")
    end ;
  raise_if (negb (py_eqb (dict_get ($"final_action") composition_trace) (pyaction action)))
    (ValueError "composition_trace.final_action must match action") ;;
  signals ← parse_signals (dict_get ($"signals") payload) ;
  raw_enforcement ←
    match dict_get ($"enforcement") payload with
    | PDict e => Ok e
    | _ => Raise (ValueError "enforcement must be an object")
    end ;
  enforcement ← enforcement_from_dict raw_enforcement ;
  raw_decision_v2 ←
    match dict_get ($"decision_v2") payload with
    | PDict d => Ok d
    | _ => Raise (ValueError "decision_v2 must be an object")
    end ;
  require_exact_fields raw_decision_v2 DECISION_V2_FIELDS "decision_v2" ;;
  decision_v2 ← v2_from_dict raw_decision_v2 ;
  let decision :=
    {| ad_schema_version := AUTHORITATIVE_DECISION_SCHEMA_VERSION; ad_action := action; ad_source := source;
       ad_reason := reason; ad_composition_trace := composition_trace; ad_signals := signals;
       ad_enforcement := enforcement; ad_decision_v2 := decision_v2 |} in
  validate_authoritative_decision decision ;;
  Ok decision.

(** ** What validation guarantees *)

Lemma py_eqb_action v a : py_eqb v (pyaction a) = true ↔ v = pyaction a.
Proof. apply py_eqb_str. Qed.

Lemma coerce_action_Some v a : coerce_guard_action v = Some a ↔ v = pyaction a.
Proof. unfold pyaction. destruct v; simpl; try done. rewrite action_of_str_Some. naive_solver. Qed.
Lemma parse_guard_action_Ok v a : parse_guard_action v = Ok a ↔ v = pyaction a.
Proof. unfold parse_guard_action. rewrite <- coerce_action_Some. destruct (coerce_guard_action v); naive_solver. Qed.

Lemma parse_trace_field_Ok trace key p :
  parse_trace_field trace key = Ok p → p.1 = key ∧ ∀ a, p.2 = Some a ↔ dict_get key trace = pyaction a.
Proof.
  unfold parse_trace_field, dict_get. destruct (dict_lookup key trace) as [v|]; simpl.
  - destruct (coerce_guard_action v) as [a|] eqn:E.
    + apply coerce_action_Some in E as ->. intros [= <-]. split; [done|]. intros b. simpl. unfold pyaction.
      split; [by intros [= ->] | intros [= ->%(inj action_value)]; done].
    + destruct v; try done. case_match; [|done]. by intros [= <-].
  - by intros [= <-].
Qed.

Lemma trace_flag_Ok trace key b :
  trace_flag trace key = Ok b → b = true ↔ dict_get key trace = PBool true.
Proof.
  unfold trace_flag, dict_get. destruct (dict_lookup key trace) as [[]|]; simpl; try done; intros [= <-]; naive_solver.
Qed.

(** An action recorded in the trace was explicitly approved: by a trusted
    request, or by a saved approval of a review. *)
Definition approved (action : GuardAction) (trace : pydict) : Prop :=
  action ∈ [allow; warn]
  ∧ (dict_get ($"trusted_request_override") trace = PBool true
     ∨ dict_get ($"current_action") trace = pyaction review ∧ dict_get ($"saved_action") trace = pyaction allow
       ∧ dict_get ($"saved_state_present") trace = PBool true).

Lemma strongest_ge inputs a : a ∈ inputs → ∃ m, strongest inputs = Some m ∧ GUARD_ACTION_SEVERITY a <= GUARD_ACTION_SEVERITY m.
Proof.
  destruct inputs as [|b l]; intros Ha; [by apply elem_of_nil in Ha|]. eexists. split; [done|].
  assert (∀ b, GUARD_ACTION_SEVERITY b <= GUARD_ACTION_SEVERITY (py_max_on GUARD_ACTION_SEVERITY b l)
               ∧ ∀ a, a ∈ l → GUARD_ACTION_SEVERITY a <= GUARD_ACTION_SEVERITY (py_max_on GUARD_ACTION_SEVERITY b l)) as H.
  { clear. induction l as [|c l IH]; intros b; unfold py_max_on in *; simpl.
    - split; [done|]. by intros a ?%elem_of_nil.
    - destruct (IH (if GUARD_ACTION_SEVERITY b <? GUARD_ACTION_SEVERITY c then c else b)) as [H1 H2].
      destruct (Z.ltb_spec (GUARD_ACTION_SEVERITY b) (GUARD_ACTION_SEVERITY c)); (split; [lia|]);
        intros a [->|Ha]%elem_of_cons; solve [lia | auto]. }
  destruct (H b) as [Hb Hl]. apply elem_of_cons in Ha as [->|Ha]; auto.
Qed.

(** The five inputs a valid trace parses to. *)
Lemma trace_inputs_Ok trace parsed :
  map_result (parse_trace_field trace) COMPOSITION_ACTION_FIELDS = Ok parsed →
  ∀ key, key ∈ COMPOSITION_ACTION_FIELDS →
    ∃ o, (key, o) ∈ parsed ∧ parsed_get key parsed = o ∧ ∀ a, o = Some a ↔ dict_get key trace = pyaction a.
Proof.
  intros Hp%map_result_Ok. unfold COMPOSITION_ACTION_FIELDS in *.
  repeat match goal with
  | H : Forall2 _ (_ :: _) _ |- _ => apply Forall2_cons_inv_l in H as ([? ?] & ? & ?%parse_trace_field_Ok & H & ->)
  | H : Forall2 _ [] _ |- _ => apply Forall2_nil_inv_l in H as ->
  end.
  destruct_and!; simpl in *; subst. intros key Hkey. unfold parsed_get.
  repeat (apply elem_of_cons in Hkey as [->|Hkey]; [eexists; split; [|split; [reflexivity|done]]; set_solver|]).
  by apply elem_of_nil in Hkey.
Qed.

(** Reading off a validated trace. *)
Lemma validate_trace_Ok action trace :
  validate_composition_trace action trace = Ok tt →
  dict_get ($"final_action") trace = pyaction action
  ∧ (dict_get ($"runtime_detector_action") trace = pyaction block → action = block)
  ∧ ∀ key a, key ∈ COMPOSITION_ACTION_FIELDS → dict_get key trace = pyaction a →
      weaker action a = true →
      a ∉ TERMINAL_COMPOSITION_ACTIONS
      ∧ (approved action trace ∨ key = $"runtime_detector_action" ∧ a = require_reapproval).
Proof.
  unfold validate_composition_trace. rewrite !then_Ok, raise_if_Ok. intros (Hfinal & _ & Hv).
  apply negb_false_iff, py_eqb_action in Hfinal. split; [done|].
  apply bind_Ok in Hv as (parsed & Hp & (trusted & Ht%trace_flag_Ok & (present & Hs%trace_flag_Ok & Hv)%bind_Ok)%bind_Ok).
  pose proof (trace_inputs_Ok _ _ Hp) as Hin. cbv zeta in Hv.
  rewrite !then_Ok, !raise_if_Ok, !for_each_Ok in Hv. destruct Hv as (Hblock & Hterm & _ & Hwarn & Hrev & Hstrong).
  assert (approval_override action (parsed_get ($"current_action") parsed) (parsed_get ($"saved_action") parsed)
            present trusted = true → approved action trace) as Hover.
  { unfold approval_override, approved. rewrite orb_true_iff, !andb_true_iff, !bool_decide_eq_true, !py_in_true, Ht, Hs.
    destruct (Hin ($"current_action")) as (? & _ & -> & ->); [by repeat constructor|].
    destruct (Hin ($"saved_action")) as (? & _ & -> & ->); [by repeat constructor|]. naive_solver. }
  split.
  { destruct (Hin ($"runtime_detector_action")) as (o & _ & Ho & Hget); [by repeat constructor|].
    intros E. apply Hget in E. rewrite Ho, E in Hblock.
    destruct (decide (action = block)) as [|Hn]; [done|]. by rewrite bool_decide_eq_true_2, bool_decide_eq_false_2 in Hblock. }
  intros key a Hkey Hget Hweak. destruct (Hin key Hkey) as (o & Hel & Ho & Hiff). apply Hiff in Hget as ->. split.
  { intros Ha. rewrite Forall_forall in Hterm. specialize (Hterm _ Hel). simpl in Hterm.
    rewrite raise_if_Ok, Hweak, (proj2 (py_in_true _ _) Ha) in Hterm. done. }
  destruct (decide (key = $"runtime_detector_action")) as [->|Hne].
  - rewrite Ho in Hblock, Hwarn, Hrev. destruct a.
    + by destruct action.
    + rewrite Hweak in Hwarn. done.
    + rewrite Hweak in Hrev. simpl in Hrev. left. apply Hover. by destruct (approval_override _ _ _ _ _).
    + by right.
    + exfalso. rewrite Forall_forall in Hterm. specialize (Hterm _ Hel). simpl in Hterm.
      rewrite raise_if_Ok, Hweak in Hterm. done.
    + by destruct action.
  - left. apply Hover. destruct (strongest_ge (omap (λ p : pystr * option GuardAction,
        if decide (p.1 = $"runtime_detector_action") then None else p.2) parsed) a) as (m & Hm & Hle).
    { apply list_elem_of_omap. exists (key, Some a). split; [done|]. simpl. by rewrite decide_False. }
    rewrite Hm in Hstrong. assert (weaker action m = true) as Hw' by (unfold weaker in *; lia).
    rewrite Hw' in Hstrong. by destruct (approval_override _ _ _ _ _).
Qed.

(** The state of a decision that passed validation. *)
Lemma validate_decision_Ok d :
  validate_authoritative_decision d = Ok tt ↔
  validate_composition_trace (ad_action d) (ad_composition_trace d) = Ok tt
  ∧ ad_enforcement d = enforcement_of (ad_action d) (authority_finalized (ad_enforcement d))
  ∧ ad_decision_v2 d = decision_from_legacy_policy_action (ad_action d) (ad_reason d) (ad_signals d).
Proof.
  unfold validate_authoritative_decision. cbv zeta.
  rewrite !then_Ok, !raise_if_Ok, !negb_false_iff, !Bool.eqb_true_iff, bool_decide_eq_true.
  unfold enforcement_of. destruct (ad_enforcement d) as [b f l p s n]; simpl. split.
  - intros (? & -> & -> & -> & -> & -> & ?). done.
  - intros (? & [= -> -> -> -> ->] & ?). done.
Qed.

Lemma parse_signals_Ok v signals : parse_signals v = Ok signals → Forall signal_texts signals.
Proof.
  unfold parse_signals. destruct v; try done. rewrite map_result_Ok. induction 1 as [|x s xs ss Hx _ IH]; constructor; [|done].
  destruct x; try done. by apply signal_from_dict_Ok in Hx as [? _].
Qed.

(** What parsing a decision establishes. *)
Lemma from_dict_Ok payload d :
  authoritative_from_dict payload = Ok d →
  ad_schema_version d = AUTHORITATIVE_DECISION_SCHEMA_VERSION ∧ nonblank (ad_source d) ∧ nonblank (ad_reason d)
  ∧ Forall signal_texts (ad_signals d) ∧ validate_authoritative_decision d = Ok tt.
Proof.
  unfold authoritative_from_dict. intros [_ [_ Hd]%then_Ok]%then_Ok.
  apply bind_Ok in Hd as (a & _ & (src & Hsrc%required_string_Ok & (r & Hr%required_string_Ok & Hd)%bind_Ok)%bind_Ok).
  apply bind_Ok in Hd as (trace & _ & [_ (sigs & Hs%parse_signals_Ok & Hd)%bind_Ok]%then_Ok).
  apply bind_Ok in Hd as (re & _ & (e & _ & (rv & _ & [_ (v2 & _ & Hd)%bind_Ok]%then_Ok)%bind_Ok)%bind_Ok).
  cbv zeta in Hd. apply then_Ok in Hd as [Hv [= <-]]. simpl. naive_solver.
Qed.

(** Decisions that went through [build_authoritative_decision] or
    [AuthoritativeGuardDecision.from_dict]. *)
Inductive issued : AuthoritativeGuardDecision → Prop :=
  | issued_built action reason trace signals finalized source d :
      build_authoritative_decision action reason trace signals finalized source = Ok d → issued d
  | issued_parsed payload d : authoritative_from_dict payload = Ok d → issued d.

Lemma issued_valid d : issued d → validate_authoritative_decision d = Ok tt.
Proof.
  destruct 1 as [? ? ? ? ? ? d Hd|payload d Hd].
  - unfold build_authoritative_decision in Hd. cbv zeta in Hd. rewrite !then_Ok in Hd.
    by destruct Hd as (_ & Hv & [= <-]).
  - by apply from_dict_Ok in Hd as (_ & _ & _ & _ & Hv).
Qed.

(** ** Serialization *)

(** A text with a character that is no white space. *)
Lemma nonblank_char s c : c ∈ s → is_space c = false → nonblank s.
Proof.
  intros Hin Hc. unfold nonblank, strip, rstrip. intros E%(f_equal reverse). rewrite reverse_involutive in E. change (reverse []) with (@nil Z) in E.
  assert (∀ t, c ∈ t → c ∈ lstrip t) as Hl.
  { induction t as [|x t IH]; [done|]. simpl. intros [->|Ht]%elem_of_cons; [by rewrite Hc; left|].
    case_match; [auto|by right]. }
  apply Hl, elem_of_reverse, Hl in Hin. rewrite E in Hin. by apply elem_of_nil in Hin.
Qed.
Lemma nonblank_app s t : nonblank s → nonblank (s ++ t).
Proof.
  intros Hs. assert (∃ c, c ∈ s ∧ is_space c = false) as (c & Hin & Hc).
  { destruct (decide (Exists (λ c, is_space c = false) s)) as [He|He]; [by apply Exists_exists in He|].
    destruct Hs. apply not_Exists_Forall in He; [|intros ?; apply _].
    assert (lstrip s = []) as E; [|unfold strip; by rewrite E].
    induction He as [|c s Hc _ IH]; simpl; [done|]. destruct (is_space c) eqn:Hsp; [done | by destruct Hc]. }
  apply (nonblank_char _ c); [apply elem_of_app; by left | done].
Qed.

Definition nonblankb (s : pystr) : bool := negb (bool_decide (strip s = [])).
Lemma nonblank_dec s : nonblankb s = true → nonblank s.
Proof. unfold nonblankb, nonblank. by rewrite negb_true_iff, bool_decide_eq_false. Qed.
Ltac solve_nonblank := repeat apply nonblank_app; apply nonblank_dec; vm_compute; reflexivity.

Lemma py_max_on_elem {A} (key : A → Z) x xs : py_max_on key x xs ∈ x :: xs.
Proof.
  unfold py_max_on. revert x. induction xs as [|y xs IH]; intros x; simpl; [by left|].
  specialize (IH (if key x <? key y then y else x)). case_match; set_solver.
Qed.

(** The texts of a derived decision are never blank. *)
Lemma derived_texts action reason signals :
  Forall signal_texts signals →
  let v2 := decision_from_legacy_policy_action action reason signals in
  nonblank (v2_user_title v2) ∧ nonblank (v2_user_body v2) ∧ nonblank (v2_harness_message v2)
  ∧ nonblank (v2_dashboard_primary_detail v2) ∧ Forall nonblank (v2_approval_scopes v2).
Proof.
  intros Hs. simpl.
  assert (nonblank (dashboard_detail_from_signals signals (am_message (ACTION_MESSAGES action)))) as Hd.
  { unfold dashboard_detail_from_signals. destruct signals as [|s rest]; [destruct action; solve_nonblank|].
    case_match; [solve_nonblank|]. rewrite Forall_forall in Hs.
    apply (Hs (py_max_on (λ s, confidence_rank (confidence s)) s rest)), py_max_on_elem. }
  split_and!; try done.
  - destruct action; solve_nonblank.
  - unfold harness_message_from_signals. case_match; destruct action; solve_nonblank.
  - unfold approval_scopes_for_action. destruct action; simpl; repeat constructor; solve_nonblank.
Qed.

Lemma parse_signals_dict signals : Forall signal_texts signals → parse_signals (pysignals signals) = Ok signals.
Proof.
  intros Hs. simpl. apply map_result_Ok. induction Hs; simpl; constructor; [|done]. by apply signal_roundtrip.
Qed.
Lemma parse_string_tuple_list key l : Forall nonblank l → parse_string_tuple (PList (map PStr l)) key = Ok l.
Proof. intros Hl. simpl. apply map_result_Ok. induction Hl; simpl; constructor; [|done]. by rewrite decide_False. Qed.
Lemma parse_guard_action_value a : parse_guard_action (pyaction a) = Ok a.
Proof. by apply parse_guard_action_Ok. Qed.
Lemma required_string_value payload key s : dict_get key payload = PStr s → nonblank s → required_string payload key = Ok s.
Proof. intros. by apply required_string_Ok. Qed.

Lemma v2_roundtrip action reason signals :
  nonblank reason → Forall signal_texts signals →
  let v2 := decision_from_legacy_policy_action action reason signals in
  require_exact_fields (v2_to_dict v2) DECISION_V2_FIELDS "decision_v2" = Ok tt ∧ v2_from_dict (v2_to_dict v2) = Ok v2.
Proof.
  intros Hr Hs v2. destruct (derived_texts action reason signals Hs) as (Ht & Hb & Hh & Hd & Ha). fold v2 in Ht, Hb, Hh, Hd, Ha.
  split; [done|]. unfold v2_from_dict.
  change (dict_get ($"guard_action") (v2_to_dict v2)) with (pyaction (v2_guard_action v2)).
  change (dict_get ($"action") (v2_to_dict v2)) with (pylabel (v2_action v2)).
  change (dict_get ($"approval_scopes") (v2_to_dict v2)) with (PList (map PStr (v2_approval_scopes v2))).
  change (dict_get ($"signals") (v2_to_dict v2)) with (pysignals (v2_signals v2)).
  change (dict_get ($"confidence") (v2_to_dict v2)) with (pylabel (v2_confidence v2)).
  unfold parse_action, parse_risk_confidence.
  rewrite parse_guard_action_value, !parse_label_value, parse_string_tuple_list, parse_signals_dict by done.
  assert (optional_string (v2_to_dict v2) ($"retry_instruction") = Ok (v2_retry_instruction v2)) as ->.
  { by apply optional_string_Ok. }
  rewrite (required_string_value _ ($"reason") (v2_reason v2)), (required_string_value _ ($"user_title") (v2_user_title v2)),
    (required_string_value _ ($"user_body") (v2_user_body v2)), 
    (required_string_value _ ($"harness_message") (v2_harness_message v2)),
    (required_string_value _ ($"dashboard_primary_detail") (v2_dashboard_primary_detail v2)) by done.
  assert (reject_unknown_action_bearing_fields (v2_to_dict v2) DECISION_V2_ACTION_FIELDS "decision_v2" = Ok tt) as ->.
  { vm_compute. reflexivity. }
  cbn [mbind result_bind]. rewrite bool_decide_eq_true_2 by done. done.
Qed.

Lemma enforcement_roundtrip e : enforcement_from_dict (enforcement_to_dict e) = Ok e.
Proof. by destruct e. Qed.

Lemma issued_header d :
  issued d → ad_schema_version d = AUTHORITATIVE_DECISION_SCHEMA_VERSION ∧ nonblank (ad_reason d).
Proof.
  destruct 1 as [? ? ? ? ? ? d Hd|payload d Hd].
  - unfold build_authoritative_decision in Hd. cbv zeta in Hd.
    rewrite !then_Ok, raise_if_Ok, bool_decide_eq_false in Hd. by destruct Hd as (Hr & _ & [= <-]).
  - apply from_dict_Ok in Hd. naive_solver.
Qed.

(** C23: An authoritative decision survives serialization: whatever decision
    was built or parsed, with a named source and signals whose texts are not
    blank, parsing the dictionary it writes gives the same decision back, with
    its trace, signals, enforcement and derived texts; in particular a decision
    read from a dictionary can always be written and read again. *)
Theorem authority_roundtrip d :
  issued d → nonblank (ad_source d) → Forall signal_texts (ad_signals d) →
  authoritative_from_dict (authoritative_to_dict d) = Ok d.
Proof.
  intros Hd Hsrc Hs. pose proof (issued_valid d Hd) as Hv. destruct (issued_header d Hd) as [Hver Hr].
  pose proof (proj1 (validate_decision_Ok d) Hv) as (Htrace & _ & Hv2). apply validate_trace_Ok in Htrace as (Hfinal & _).
  destruct (v2_roundtrip (ad_action d) (ad_reason d) (ad_signals d) Hr Hs) as [Hfields Hparse]. rewrite <- Hv2 in Hfields, Hparse.
  unfold authoritative_from_dict. set (payload := authoritative_to_dict d).
  assert (require_exact_fields payload AUTHORITATIVE_DECISION_FIELDS "authoritative_decision" = Ok tt) as -> by done.
  change (dict_get ($"schema_version") payload) with (PInt (ad_schema_version d)). rewrite Hver.
  change (dict_get ($"action") payload) with (pyaction (ad_action d)).
  change (dict_get ($"composition_trace") payload) with (PDict (ad_composition_trace d)).
  change (dict_get ($"signals") payload) with (pysignals (ad_signals d)).
  change (dict_get ($"enforcement") payload) with (PDict (enforcement_to_dict (ad_enforcement d))).
  change (dict_get ($"decision_v2") payload) with (PDict (v2_to_dict (ad_decision_v2 d))).
  rewrite parse_guard_action_value, parse_signals_dict by done.
  rewrite (required_string_value _ ($"source") (ad_source d)), (required_string_value _ ($"reason") (ad_reason d)) by done.
  cbn [mbind result_bind]. rewrite enforcement_roundtrip, Hfinal. cbn [mbind result_bind].
  rewrite (proj2 (py_eqb_action _ _) eq_refl). cbn [negb raise_if]. rewrite Hfields. cbn [mbind result_bind].
  rewrite Hparse. cbn [mbind result_bind].
  assert (∀ d' : AuthoritativeGuardDecision, d' = d → (validate_authoritative_decision d' ;; Ok d') = Ok d) as Hend.
  { intros ? ->. by rewrite Hv. }
  apply Hend. destruct d. simpl in *. by rewrite Hver.
Qed.

(** A decision permits a launch, and a snapshot, exactly if its action is
    [allow] or [warn] and its authority is final; its user-facing action is the
    one derived from the action; and no action its composition trace records (a
    configured, current, saved or scanner action, or a runtime detector's) is
    stronger than the final action, except a review or reapproval that the
    trace shows approved, by a trusted request or a saved approval of a review,
    with [allow] or [warn] as the final action, and except a runtime
    detector's [require-reapproval].  A recorded [sandbox-required] or [block]
    is never weakened.  This holds of every decision built or parsed. *)
Theorem launch_authority_sound d :
  issued d →
  (launch_permitted (ad_enforcement d) = true
   ↔ ad_action d ∈ [allow; warn] ∧ authority_finalized (ad_enforcement d) = true)
  ∧ snapshot_permitted (ad_enforcement d) = launch_permitted (ad_enforcement d)
  ∧ v2_action (ad_decision_v2 d) = am_action (ACTION_MESSAGES (ad_action d))
  ∧ ∀ key a, key ∈ COMPOSITION_ACTION_FIELDS → dict_get key (ad_composition_trace d) = pyaction a →
      GUARD_ACTION_SEVERITY (ad_action d) < GUARD_ACTION_SEVERITY a →
      a ∈ [warn; review; require_reapproval]
      ∧ (approved (ad_action d) (ad_composition_trace d)
         ∨ key = $"runtime_detector_action" ∧ a = require_reapproval).
Proof.
  intros (Htrace & He & Hv2)%issued_valid%validate_decision_Ok. apply validate_trace_Ok in Htrace as (_ & _ & Hweak).
  rewrite He, Hv2. split; [|split; [done|split; [done|]]].
  - cbn [launch_permitted enforcement_of authority_finalized]. unfold is_blocking.
    rewrite andb_true_iff, negb_true_iff, py_in_false. destruct (ad_action d); set_solver.
  - intros key a Hkey Hget Hlt. destruct (Hweak key a Hkey Hget) as [Hterm Hwhy].
    { unfold weaker. lia. } split; [|done].
    assert (a ≠ allow) by (intros ->; destruct (ad_action d); simpl in Hlt; lia).
    unfold TERMINAL_COMPOSITION_ACTIONS in Hterm. destruct a; set_solver.
Qed.

(** The one hole of the validation: a trace may record that the runtime
    detectors asked for a reapproval, and the decision still allow the launch,
    with no trusted request, no saved approval and no other input in the trace.
    The comparison with the strongest input leaves the detector's action out,
    and the rules for it name [warn], [review] and [block] only. *)
Theorem detector_reapproval_erased :
  ∃ d, build_authoritative_decision allow ($"policy") [($"runtime_detector_action", pyaction require_reapproval)]
         [] true COMPOSED_SOURCE = Ok d
    ∧ launch_permitted (ad_enforcement d) = true ∧ ¬ approved allow (ad_composition_trace d)
    ∧ is_ok (build_authoritative_decision allow ($"policy") [($"runtime_detector_action", pyaction review)]
               [] true COMPOSED_SOURCE) = false.
Proof.
  eexists. split; [vm_compute; reflexivity|]. split; [done|]. split; [|vm_compute; reflexivity].
  intros [_ [H|(H & _)]]; by vm_compute in H.
Qed.

(** A review of a flagged command that a saved approval answered. *)
Notation sample_signal :=
  {| signal_id := $"data-flow:clipboard-secret"; category := cat_secret; severity := sev_high;
     confidence := conf_strong; detector := $"data_flow.exfiltration"; title := $"Secret leaves";
     plain_reason := $"Copies a secret"; technical_detail := None; evidence_ref := None;
     redaction_level := red_redacted; false_positive_hint := None; advisory_id := None |} (only parsing).
Notation sample_trace :=
  [($"current_action", pyaction review); ($"saved_action", pyaction allow);
   ($"saved_state_present", PBool true); ($"runtime_detector_action", pyaction review)] (only parsing).
Notation sample_build :=
  (build_authoritative_decision allow ($"approval_reuse_accepted") sample_trace [sample_signal] true COMPOSED_SOURCE)
    (only parsing).

Lemma authority_roundtrip_witness :
  ∃ d, sample_build = Ok d ∧ authoritative_from_dict (authoritative_to_dict d) = Ok d.
Proof.
  eexists. split; [vm_compute; reflexivity|]. apply authority_roundtrip.
  - apply (issued_built allow ($"approval_reuse_accepted") sample_trace [sample_signal] true COMPOSED_SOURCE).
    vm_compute. reflexivity.
  - apply nonblank_dec. vm_compute. reflexivity.
  - repeat constructor; apply nonblank_dec; vm_compute; reflexivity.
Defined.

Lemma launch_authority_sound_witness :
  ∃ d, sample_build = Ok d ∧ launch_permitted (ad_enforcement d) = true
       ∧ (launch_permitted (ad_enforcement d) = true
          ↔ ad_action d ∈ [allow; warn] ∧ authority_finalized (ad_enforcement d) = true).
Proof.
  eexists. split; [vm_compute; reflexivity|]. split; [done|].
  refine (proj1 (launch_authority_sound _ _)).
  apply (issued_built allow ($"approval_reuse_accepted") sample_trace [sample_signal] true COMPOSED_SOURCE).
  vm_compute. reflexivity.
Defined.

End Decision.
