(* ===== verification/DecisionArtifacts.v ===== *)
(** * Artifact rows and run evaluations

    Models the second half of [runtime/decisions.py]: the artifact row that
    carries an authoritative decision with its compatibility fields and
    approval evidence, the cross-checks between them, the fail-closed check of
    a whole run evaluation, and the rebuilding of a row's authority.

    An evaluation is an untyped dictionary.  The theorems: a launch is
    permitted only if every artifact carries launch authority, nothing in the
    evaluation contradicts it, and the runtime detectors' signals do not
    compose to [block]; rebuilding never changes the action or mints
    authority. *)

From S2P Require Import Prelude PyStr Sha256 PyVal ActionLattice RiskSignals ApprovalReuse Decisions.
Local Open Scope Z_scope.
Local Open Scope py_scope.

Module Artifacts.
Import Signals Reuse Decision.

Definition APPROVAL_REUSE_ACCEPTED_REASON : pystr := $"approval_reuse_accepted".
Definition TRUSTED_REQUEST_OVERRIDE_REASON : pystr := $"trusted_request_override_exact_context".
Definition SAVED_APPROVAL_CLAIM_DISPOSITIONS : list pystr := [$"consumed"; $"retained"].
Definition ARTIFACT_ACTION_FIELDS : list pystr := [$"policy_action"; $"verdict_action"; $"action_envelope_json"].
Definition ACTION_ENVELOPE_ACTION_FIELDS : list pystr :=
  [$"action_id"; $"action_type"; $"policy_action"; $"pre_execution_result";
   $"actionId"; $"actionType"; $"policyAction"; $"preExecutionResult"].

(** [v in {...}] for a set of strings: a list or dictionary is not hashable. *)
Definition in_str_set (v : pyval) (set : list pystr) : result bool :=
  match v with
  | PStr s => Ok (py_in s set)
  | PList _ | PDict _ => Raise (TypeError ("unhashable type: " +:+ type_name v))
  | _ => Ok false
  end.

(** [v is b] *)
Definition is_bool (v : pyval) (b : bool) : bool := match v with PBool c => Bool.eqb c b | _ => false end.
(** [v is None] *)
Definition is_none (v : pyval) : bool := match v with PNone => true | _ => false end.
(** [v == s] *)
Definition is_str (v : pyval) (s : pystr) : bool := py_eqb v (PStr s).

(** A value that has to be a dictionary, or a boolean. *)
Definition require_mapping (v : pyval) (message : string) : result pydict :=
  match v with PDict kv => Ok kv | _ => Raise (ValueError message) end.
Definition require_boolean (v : pyval) (message : string) : result bool :=
  match v with PBool b => Ok b | _ => Raise (ValueError message) end.

Definition require_matching_alias (payload : pydict) (snake_key camel_key : pystr) (context : string) : result unit :=
  raise_if match dict_lookup snake_key payload, dict_lookup camel_key payload with
           | Some v, Some w => negb (py_eqb v w)
           | _, _ => false
           end (ValueError (context +:+ "." +:+ show camel_key +:+ " must match " +:+ show snake_key)).

(** ** Approval evidence *)

Definition require_scanner_evidence (payload : pydict) (source status reason_code : pystr) (artifact_hash : pyval)
    : result unit :=
  match dict_get ($"scanner_evidence") payload with
  | PList raw_evidence =>
      raise_if (negb (existsb (λ entry,
        match entry with
        | PDict e =>
            is_str (dict_get ($"source") e) source && is_str (dict_get ($"status") e) status
            && is_str (dict_get ($"reason_code") e) reason_code
            && (is_none artifact_hash || py_eqb (dict_get ($"artifact_hash") e) artifact_hash)
        | _ => false
        end) raw_evidence))
        (ValueError ("scanner_evidence must contain matching " +:+ show source +:+ " evidence"))
  | _ => Raise (ValueError "scanner_evidence must be a list")
  end.

Definition validate_saved_approval_claim (payload claim : pydict) : result unit :=
  let expected_keys := [$"status"; $"approval_context_hash"; $"reason_code"] in
  raise_if (negb (py_subset (dict_keys claim) expected_keys && py_subset expected_keys (dict_keys claim)))
    (ValueError "saved approval claim has an invalid schema") ;;
  known ← in_str_set (dict_get ($"status") claim) SAVED_APPROVAL_CLAIM_DISPOSITIONS ;
  raise_if (negb known) (ValueError "saved approval claim status must be consumed or retained") ;;
  raise_if match dict_get ($"approval_context_hash") payload with
           | PStr h => bool_decide (h = []) || negb (is_str (dict_get ($"approval_context_hash") claim) h)
           | _ => true
           end (ValueError "saved approval claim must match approval_context_hash") ;;
  raise_if (negb (is_str (dict_get ($"reason_code") claim) APPROVAL_REUSE_ACCEPTED_REASON))
    (ValueError "saved approval claim must carry the accepted reuse reason").

(** The evidence an artifact carries about the reuse of a saved approval. *)
Record ReuseEvidence := {
  re_action : GuardAction;
  re_current_action : GuardAction;
  re_saved_action : option GuardAction;
  re_status : pyval;
  re_reason : pystr;
  re_should_claim : bool;
}.
(** The part of [_validate_artifact_approval_projection] that reads it. *)
Definition parse_reuse_evidence (payload trace : pydict) : result ReuseEvidence :=
  raw_reuse ← require_mapping (dict_get ($"approval_reuse") payload) "approval_reuse must be an object" ;
  reuse_action ← parse_guard_action (dict_get ($"action") raw_reuse) ;
  current_action ← parse_guard_action (dict_get ($"current_action") raw_reuse) ;
  saved_action ← (if is_none (dict_get ($"saved_action") raw_reuse) then Ok None
                  else a ← parse_guard_action (dict_get ($"saved_action") raw_reuse) ; Ok (Some a)) ;
  let reuse_status := dict_get ($"status") raw_reuse in
  known ← in_str_set reuse_status [$"accepted"; $"rejected"; $"not-applicable"] ;
  raise_if (negb known) (ValueError "approval_reuse.status must be a known status") ;;
  reuse_reason ← required_string raw_reuse ($"reason_code") ;
  reuse_should_claim ← require_boolean (dict_get ($"should_claim") raw_reuse) "approval_reuse.should_claim must be a boolean" ;
  raise_if (negb (py_eqb (dict_get ($"approval_reuse_status") payload) reuse_status))
    (ValueError "approval_reuse_status must match approval_reuse.status") ;;
  raise_if (negb (is_str (dict_get ($"approval_reuse_reason_code") payload) reuse_reason))
    (ValueError "approval_reuse_reason_code must match approval_reuse.reason_code") ;;
  raise_if (negb (py_eqb (dict_get ($"current_action") trace) (pyaction current_action)))
    (ValueError "composition_trace.current_action must match approval_reuse.current_action") ;;
  raise_if (negb (py_eqb (dict_get ($"saved_action") trace) (pyaction_opt saved_action)))
    (ValueError "composition_trace.saved_action must match approval_reuse.saved_action") ;;
  saved_state_present ← require_boolean (dict_get ($"saved_state_present") trace)
                          "composition_trace.saved_state_present must be a boolean" ;
  raise_if (negb (Bool.eqb saved_state_present (bool_decide (is_Some saved_action))))
    (ValueError "composition_trace.saved_state_present must match saved approval evidence") ;;
  Ok {| re_action := reuse_action; re_current_action := current_action; re_saved_action := saved_action;
        re_status := reuse_status; re_reason := reuse_reason; re_should_claim := reuse_should_claim |}.

(** The part that reads the trusted-request evidence. *)
Definition parse_trusted_override (payload trace : pydict) : result bool :=
  raw_trusted ← require_mapping (dict_get ($"trusted_request_override") payload) "trusted_request_override must be an object" ;
  trusted_applied ← require_boolean (dict_get ($"applied") raw_trusted) "trusted_request_override.applied must be a boolean" ;
  raise_if (negb (py_eqb (dict_get ($"reason_code") raw_trusted)
                    (if trusted_applied : bool then PStr TRUSTED_REQUEST_OVERRIDE_REASON else PNone)))
    (ValueError "trusted_request_override.reason_code must match applied state") ;;
  raise_if (negb (is_bool (dict_get ($"trusted_request_override") trace) trusted_applied))
    (ValueError "composition_trace.trusted_request_override must match outer evidence") ;;
  Ok trusted_applied.

Definition saved_allow_reuse (r : ReuseEvidence) : bool :=
  bool_decide (re_current_action r = review) && bool_decide (re_saved_action r = Some allow)
  && bool_decide (re_action r = allow) && is_str (re_status r) ($"accepted")
  && bool_decide (re_reason r = APPROVAL_REUSE_ACCEPTED_REASON) && re_should_claim r.
Definition saved_block_reuse (r : ReuseEvidence) : bool :=
  bool_decide (re_saved_action r = Some block) && bool_decide (re_action r = block)
  && is_str (re_status r) ($"accepted") && bool_decide (re_reason r = $"approval_reuse_saved_block")
  && negb (re_should_claim r).

(** The action the evidence and the runtime detectors lead to. *)
Definition expected_action (r : ReuseEvidence) (trusted_applied : bool) (runtime_action : pyval) : result GuardAction :=
  let expected := if trusted_applied then allow else re_action r in
  if is_none runtime_action then Ok expected
  else
    runtime ← parse_guard_action runtime_action ;
    let detector_review_was_approved :=
      bool_decide (runtime = review) && (trusted_applied || saved_allow_reuse r) in
    Ok (if detector_review_was_approved then expected
        else most_restrictive_guard_action [pyaction expected; pyaction runtime] DEFAULT_UNKNOWN_GUARD_ACTION).

(** The claim of a saved approval, recorded in the trace and in the row. *)
Definition parse_claim (payload trace : pydict) : result (option pydict) :=
  let raw_trace_claim := dict_get ($"saved_approval_claim") trace in
  let raw_outer_claim := dict_get ($"approval_claim") payload in
  raise_if (negb (Bool.eqb (is_none raw_trace_claim) (is_none raw_outer_claim)))
    (ValueError "saved approval claim must match its authoritative trace") ;;
  if is_none raw_trace_claim then Ok None
  else
    match raw_trace_claim, raw_outer_claim with
    | PDict claim, PDict outer =>
        raise_if (negb (py_eqb (PDict claim) (PDict outer)))
          (ValueError "saved approval claim must match its authoritative trace") ;;
        validate_saved_approval_claim payload claim ;;
        Ok (Some claim)
    | _, _ => Raise (ValueError "saved approval claim must be an object")
    end.

Definition validate_artifact_approval_projection (payload : pydict) (decision : AuthoritativeGuardDecision)
    : result unit :=
  let trace := ad_composition_trace decision in
  let finalized := authority_finalized (ad_enforcement decision) in
  let approval_fields_present :=
    existsb (λ key, dict_has key payload)
      [$"approval_reuse"; $"approval_reuse_status"; $"approval_reuse_reason_code"; $"trusted_request_override"] in
  let trace_fields_present :=
    existsb (λ key, dict_has key trace) [$"saved_state_present"; $"trusted_request_override"; $"saved_approval_claim"] in
  if negb approval_fields_present && negb trace_fields_present then Ok tt
  else
    r ← parse_reuse_evidence payload trace ;
    trusted_applied ← parse_trusted_override payload trace ;
    raise_if (is_str (re_status r) ($"accepted") && negb (saved_allow_reuse r || saved_block_reuse r))
      (ValueError "accepted approval reuse must be an exact saved allow or block") ;;
    raise_if (re_should_claim r && negb (saved_allow_reuse r))
      (ValueError "approval_reuse.should_claim requires accepted exact saved allow reuse") ;;
    expected ← expected_action r trusted_applied (dict_get ($"runtime_detector_action") trace) ;
    raise_if (negb (bool_decide (ad_action decision = expected)))
      (ValueError "authoritative action must derive from approval reuse and runtime authority") ;;
    claim ← parse_claim payload trace ;
    (if trusted_applied then
       raise_if (bool_decide (is_Some claim))
         (ValueError "trusted request and saved approval claim cannot both finalize authority") ;;
       raise_if (negb (py_in (re_action r) [review; require_reapproval]))
         (ValueError "trusted request override must satisfy a review action") ;;
       raise_if (negb finalized) (ValueError "trusted request override must finalize authority") ;;
       raise_if (bool_decide (ad_action decision = allow)
                 && negb (bool_decide (ad_reason decision = TRUSTED_REQUEST_OVERRIDE_REASON)))
         (ValueError "trusted request allow reason must match its evidence") ;;
       require_scanner_evidence payload ($"trusted_request_override") ($"accepted") TRUSTED_REQUEST_OVERRIDE_REASON
         (dict_get ($"approval_context_hash") payload)
     else Ok tt) ;;
    match claim with
    | Some _ =>
        raise_if (negb finalized) (ValueError "saved approval claim must finalize authority") ;;
        raise_if (negb (saved_allow_reuse r)) (ValueError "saved approval claim must match accepted exact allow reuse") ;;
        require_scanner_evidence payload ($"approval_reuse") ($"accepted") APPROVAL_REUSE_ACCEPTED_REASON PNone
    | None =>
        raise_if (re_should_claim r && finalized && negb trusted_applied)
          (ValueError "finalized saved approval reuse requires an atomic claim proof")
    end.

(** ** The row *)

(** [raw_action_envelope] *)
Definition validate_action_envelope (envelope : pydict) (action : GuardAction) : result unit :=
  let context := "action_envelope_json" in
  reject_unknown_action_bearing_fields envelope ACTION_ENVELOPE_ACTION_FIELDS context ;;
  require_matching_alias envelope ($"action_id") ($"actionId") context ;;
  require_matching_alias envelope ($"action_type") ($"actionType") context ;;
  require_matching_alias envelope ($"policy_action") ($"policyAction") context ;;
  require_matching_alias envelope ($"pre_execution_result") ($"preExecutionResult") context ;;
  for_each (λ k : pystr * pystr,
    let envelope_action := default (dict_get k.2 envelope) (dict_lookup k.1 envelope) in
    if is_none envelope_action then Ok tt
    else
      raise_if (negb (is_guard_action envelope_action))
        (ValueError ("action_envelope_json." +:+ show k.1 +:+ " must be a known Guard action")) ;;
      raise_if (negb (py_eqb envelope_action (pyaction action)))
        (ValueError ("action_envelope_json." +:+ show k.1 +:+ " must match authoritative action")))
    [($"policy_action", $"policyAction"); ($"pre_execution_result", $"preExecutionResult")].

(** [if v is not None: if not isinstance(v, Mapping): raise; body(v)] *)
Definition if_mapping (v : pyval) (message : string) (body : pydict → result unit) : result unit :=
  if is_none v then Ok tt else kv ← require_mapping v message ; body kv.

Definition validate_artifact_projection (payload : pydict) (decision : AuthoritativeGuardDecision) : result unit :=
  let action := ad_action decision in
  let has_authority := dict_has ($"authoritative_decision") payload in
  reject_unknown_action_bearing_fields payload ARTIFACT_ACTION_FIELDS "artifact projection" ;;
  raise_if (negb (py_eqb (dict_get ($"policy_action") payload) (pyaction action)))
    (ValueError "policy_action must match authoritative action") ;;
  let verdict_action := dict_get ($"verdict_action") payload in
  raise_if (negb (is_none verdict_action) && negb (py_eqb verdict_action (pyaction action)))
    (ValueError "verdict_action must match authoritative action") ;;
  if_mapping (dict_get ($"policy_composition") payload) "policy_composition must be an object" (λ raw_composition,
    raise_if (negb (py_eqb (dict_get ($"final_action") raw_composition) (pyaction action)))
      (ValueError "policy_composition.final_action must match authoritative action") ;;
    raise_if (has_authority && negb (py_eqb (PDict raw_composition) (PDict (ad_composition_trace decision))))
      (ValueError "policy_composition must match authoritative composition_trace")) ;;
  if_mapping (dict_get ($"decision_v2_json") payload) "decision_v2_json must be an object" (λ raw_decision_v2,
    raise_if (negb (py_eqb (dict_get ($"action") raw_decision_v2) (pylabel (v2_action (ad_decision_v2 decision)))))
      (ValueError "decision_v2_json.action must match authoritative action") ;;
    (if dict_has ($"guard_action") raw_decision_v2 then
       exact_guard_action ← parse_guard_action (dict_get ($"guard_action") raw_decision_v2) ;
       raise_if (negb (bool_decide (exact_guard_action = action)))
         (ValueError "decision_v2_json.guard_action must match authoritative action")
     else Ok tt) ;;
    raise_if (has_authority && negb (py_eqb (PDict raw_decision_v2) (PDict (v2_to_dict (ad_decision_v2 decision)))))
      (ValueError "decision_v2_json must match authoritative decision_v2")) ;;
  if_mapping (dict_get ($"action_envelope_json") payload) "action_envelope_json must be an object or null"
    (λ envelope, validate_action_envelope envelope action) ;;
  validate_artifact_approval_projection payload decision.

(** The adaptation of a row without an [authoritative_decision]. *)
Definition legacy_decision (payload : pydict) : result AuthoritativeGuardDecision :=
  action ← parse_guard_action (dict_get ($"policy_action") payload) ;
  let composition := match dict_get ($"policy_composition") payload with PDict kv => kv | _ => [] end in
  let composition := dict_set ($"final_action") (pyaction action) composition in
  let reason := match dict_get ($"decision_v2_json") payload with
                | PDict v2 => dict_get ($"reason") v2
                | _ => pyaction action
                end in
  let reason := match reason with
                | PStr r => if decide (strip r = []) then action_value action else r
                | _ => action_value action
                end in
  build_authoritative_decision action reason composition [] true ($"legacy-compatible-projection").

Definition authoritative_decision_from_artifact (payload : pydict) (require_authoritative : bool)
    : result AuthoritativeGuardDecision :=
  decision ←
    match dict_get ($"authoritative_decision") payload with
    | PDict raw_authoritative => authoritative_from_dict raw_authoritative
    | PNone =>
        raise_if require_authoritative (ValueError "authoritative_decision is required at the launch boundary") ;;
        legacy_decision payload
    | _ => Raise (ValueError "authoritative_decision must be an object")
    end ;
  validate_artifact_projection payload decision ;;
  Ok decision.

Definition is_disabled_codex_skill_inventory (raw_item : pydict) (decision : AuthoritativeGuardDecision) : bool :=
  is_bool (dict_get ($"inventory_only") raw_item) true
  && is_str (dict_get ($"artifact_type") raw_item) ($"skill")
  && match dict_get ($"artifact_id") raw_item with PStr artifact_id => startswith ($"codex:") artifact_id | _ => false end
  && bool_decide (ad_action decision = allow) && bool_decide (ad_reason decision = $"inventory_only")
  && is_bool (dict_get ($"inventory_only") (ad_composition_trace decision)) true
  && negb (authority_finalized (ad_enforcement decision)).

(** ** The evaluation of a run *)

Definition validate_run_decision_projection (evaluation : pydict) (decision : AuthoritativeGuardDecision) : result unit :=
  composition ← require_mapping (dict_get ($"runtime_detector_composition") evaluation)
                  "run authority requires runtime_detector_composition" ;
  raise_if (negb (py_eqb (dict_get ($"action") composition) (pyaction (ad_action decision)))
            || negb (is_str (dict_get ($"reason") composition) (ad_reason decision)))
    (ValueError "runtime detector composition must match run authority") ;;
  raise_if (negb (py_eqb (dict_get ($"runtime_detector_action") (ad_composition_trace decision)) (pyaction (ad_action decision))))
    (ValueError "run authority trace must match the runtime detector action") ;;
  match dict_get ($"runtime_detector_signals_v2") evaluation with
  | PList raw_signals =>
      raise_if (negb (py_eqb (pysignals (ad_signals decision)) (PList raw_signals)))
        (ValueError "runtime detector signals must match run authority") ;;
      raise_if (blocking (ad_enforcement decision)
                && negb (is_str (dict_get ($"blocked_by_detector") evaluation) (ad_reason decision)))
        (ValueError "blocked_by_detector must match run authority reason")
  | _ => Raise (ValueError "run authority requires runtime detector signals")
  end.

(** One row of the loop over [raw_artifacts]. *)
Definition artifact_decision_of (require_launch_permitted : bool) (raw_item : pyval) : result AuthoritativeGuardDecision :=
  item ← require_mapping raw_item "artifact decision must be an object" ;
  raise_if (negb (is_none (dict_get ($"decision_contract_error") item)))
    (ValueError "artifact decision carries a contract error") ;;
  authoritative_decision_from_artifact item require_launch_permitted.

(** The run's own decision, if the evaluation has one. *)
Definition run_decision_of (evaluation : pydict) : result (list AuthoritativeGuardDecision) :=
  let raw_run_decision := dict_get ($"run_authoritative_decision") evaluation in
  if is_none raw_run_decision then Ok []
  else
    raw ← require_mapping raw_run_decision "run_authoritative_decision must be an object" ;
    run_decision ← authoritative_from_dict raw ;
    validate_run_decision_projection evaluation run_decision ;;
    Ok [run_decision].

(** The detectors' result: its signals recompose to the recorded action, and
    every artifact's authority takes it into account. *)
Definition validate_runtime_result (evaluation : pydict) (artifact_decisions : list AuthoritativeGuardDecision)
    : result unit :=
  let raw_runtime_signals := dict_get ($"runtime_detector_signals_v2") evaluation in
  let runtime_composition := dict_get ($"runtime_detector_composition") evaluation in
  if is_none raw_runtime_signals && is_none runtime_composition then Ok tt
  else
    let message := "runtime detector signals and composition must be projected together" in
    raise_if (is_none raw_runtime_signals) (ValueError message) ;;
    composition ← require_mapping runtime_composition message ;
    runtime_signals ← parse_signals raw_runtime_signals ;
    let recomposed := compose_action_from_signals runtime_signals (pyaction allow) in
    raise_if (negb (py_eqb (dict_get ($"action") composition) (pyaction (cr_action recomposed)))
              || negb (is_str (dict_get ($"reason") composition) (cr_reason recomposed))
              || negb (is_bool (dict_get ($"downgraded") composition) (cr_downgraded recomposed))
              || negb (is_bool (dict_get ($"upgraded") composition) (cr_upgraded recomposed)))
      (ValueError "runtime detector composition must derive from its signals") ;;
    for_each (λ d, raise_if (existsb (λ s, negb (py_in s (ad_signals d))) runtime_signals)
                     (ValueError "artifact authority must include every runtime detector signal")) artifact_decisions ;;
    raise_if (match artifact_decisions with [] => true | _ => false end && is_none (dict_get ($"run_authoritative_decision") evaluation))
      (ValueError "zero-artifact detector results require run authority") ;;
    for_each (λ d, raise_if (negb (py_eqb (dict_get ($"runtime_detector_action") (ad_composition_trace d))
                                     (dict_get ($"action") composition)))
                     (ValueError "artifact trace must include the runtime detector action")) artifact_decisions.

(** The body of the [try]. *)
Definition evaluation_decisions (evaluation : pydict) (raw_artifacts : list pyval) (require_launch_permitted : bool)
    : result (list AuthoritativeGuardDecision * list AuthoritativeGuardDecision) :=
  artifact_decisions ← map_result (artifact_decision_of require_launch_permitted) raw_artifacts ;
  run_decisions ← run_decision_of evaluation ;
  validate_runtime_result evaluation artifact_decisions ;;
  Ok (artifact_decisions, run_decisions).

(** A row that may be launched, or is only inventory. *)
Definition row_permitted (row : pyval * AuthoritativeGuardDecision) : bool :=
  launch_permitted (ad_enforcement row.2)
  || match row.1 with PDict item => is_disabled_codex_skill_inventory item row.2 | _ => false end.

Definition evaluation_authority_error (evaluation : pydict) (require_launch_permitted : bool) : result (option pystr) :=
  let inconsistent := Ok (Some AUTHORITATIVE_DECISION_INCONSISTENT) in
  if negb (is_none (dict_get ($"decision_contract_error") evaluation)) then inconsistent
  else
    match dict_get ($"artifacts") evaluation with
    | PList raw_artifacts =>
        match evaluation_decisions evaluation raw_artifacts require_launch_permitted with
        | Raise (TypeError _ | ValueError _) => inconsistent
        | Raise e => Raise e
        | Ok (artifact_decisions, run_decisions) =>
            match dict_get ($"blocked") evaluation with
            | PBool blocked =>
                if negb (Bool.eqb blocked
                           (existsb (λ d, blocking (ad_enforcement d)) (artifact_decisions ++ run_decisions))) then inconsistent
                else if require_launch_permitted then
                  if negb (forallb row_permitted (zip raw_artifacts artifact_decisions)) then inconsistent
                  else if existsb (λ d, negb (launch_permitted (ad_enforcement d))) run_decisions then inconsistent
                  else Ok None
                else Ok None
            | _ => inconsistent
            end
        end
    | _ => inconsistent
    end.

(** ** Rebuilding a row's authority *)

(** The loop over the existing and the additional signals. *)
Fixpoint merge_from (seen : list pystr) (signals : list RiskSignalV2) : list RiskSignalV2 :=
  match signals with
  | [] => []
  | s :: signals =>
      if py_in (signal_id s) seen then merge_from seen signals
      else s :: merge_from (signal_id s :: seen) signals
  end.
Definition merge_signals (existing additional : list RiskSignalV2) : list RiskSignalV2 :=
  merge_from [] (existing ++ additional).

(** [d.update(updates)] and [{**d, **updates}] *)
Definition dict_update (d updates : pydict) : pydict := foldl (λ d p, dict_set p.1 p.2 d) d updates.

Definition rebuild_artifact_authority (payload : pydict) (reason : option pystr) (composition_updates : option pydict)
    (additional_signals : list RiskSignalV2) : result pydict :=
  decision ← authoritative_decision_from_artifact payload true ;
  let composition := dict_update (ad_composition_trace decision) (default [] composition_updates) in
  let merged_signals := merge_signals (ad_signals decision) additional_signals in
  let new_reason := match reason with
                    | Some r => if decide (r = []) then ad_reason decision else r
                    | None => ad_reason decision
                    end in
  rebuilt ← build_authoritative_decision (ad_action decision) new_reason composition merged_signals
              (authority_finalized (ad_enforcement decision)) (ad_source decision) ;
  Ok (dict_update payload (to_artifact_projection rebuilt)).

(** ** Lemmas *)

Lemma require_mapping_Ok v message kv : require_mapping v message = Ok kv ↔ v = PDict kv.
Proof. destruct v; naive_solver. Qed.
Lemma require_boolean_Ok v message b : require_boolean v message = Ok b ↔ v = PBool b.
Proof. destruct v; naive_solver. Qed.
Lemma is_none_true v : is_none v = true ↔ v = PNone.
Proof. by destruct v. Qed.
Lemma is_bool_true v b : is_bool v b = true ↔ v = PBool b.
Proof. destruct v; simpl; try done. rewrite Bool.eqb_true_iff. naive_solver. Qed.
Lemma is_str_true v s : is_str v s = true ↔ v = PStr s.
Proof. apply py_eqb_str. Qed.
Lemma in_str_set_true v set : in_str_set v set = Ok true ↔ ∃ s, v = PStr s ∧ s ∈ set.
Proof.
  destruct v as [| | |t| | |]; simpl; try naive_solver. split; [intros [= ?%py_in_true]; eauto|].
  intros (? & [= <-] & ->%py_in_true). done.
Qed.

(** What accepting a row at the launch boundary establishes. *)
Lemma from_artifact_Ok item d :
  authoritative_decision_from_artifact item true = Ok d →
  ∃ raw, dict_get ($"authoritative_decision") item = PDict raw ∧ authoritative_from_dict raw = Ok d
         ∧ validate_artifact_projection item d = Ok tt.
Proof.
  unfold authoritative_decision_from_artifact. intros (d' & Hd & [Hv [= ->]]%then_Ok)%bind_Ok.
  destruct (dict_get ($"authoritative_decision") item) as [| | | | |raw|]; simpl in Hd; try done.
  by exists raw.
Qed.
Lemma projection_action item d :
  validate_artifact_projection item d = Ok tt → dict_get ($"policy_action") item = pyaction (ad_action d).
Proof.
  unfold validate_artifact_projection. rewrite !then_Ok, !raise_if_Ok, negb_false_iff, py_eqb_action. naive_solver.
Qed.

Lemma artifact_decision_Ok row d :
  artifact_decision_of true row = Ok d →
  ∃ item raw, row = PDict item ∧ dict_get ($"authoritative_decision") item = PDict raw
    ∧ authoritative_from_dict raw = Ok d ∧ dict_get ($"policy_action") item = pyaction (ad_action d).
Proof.
  unfold artifact_decision_of.
  intros (item & ->%require_mapping_Ok & [_ (raw & Hraw & Hd & Hp%projection_action)%from_artifact_Ok]%then_Ok)%bind_Ok.
  by exists item, raw.
Qed.

(** The actions detectors compose to, from an allowed base. *)
Lemma compose_range signals :
  cr_action (compose_action_from_signals signals (pyaction allow)) ∈ [allow; review; block].
Proof.
  assert (∀ app a b r st, a ∈ [review; block] → st.1 ∈ [allow; review; block] →
            (upgrade app a b r st).1 ∈ [allow; review; block]) as Hup.
  { intros app a b r [c o] Ha Hc. simpl in *. case_match; [|done]. simpl. unfold more_severe. case_match; set_solver. }
  assert (∀ l st, st.1 ∈ [allow; review; block] → (foldl upgrade_by st l).1 ∈ [allow; review; block]) as Hfold.
  { induction l as [|s l IH]; intros st Hst; [done|]. simpl. apply IH. unfold upgrade_by.
    repeat (apply Hup; [set_solver|]). done. }
  unfold compose_action_from_signals. destruct signals as [|s l]; [set_solver|].
  specialize (Hfold (risk_of (s :: l)) (allow, None) ltac:(set_solver)).
  assert (gan_action (normalize_with (pyaction allow) block) = allow) as Hn by done. revert Hn.
  generalize (normalize_with (pyaction allow) block) as n. intros n Hn. cbv zeta. rewrite !Hn.
  destruct (foldl upgrade_by (allow, None) (risk_of (s :: l))) as [c [r|]]; [exact Hfold|].
  assert (downgrade allow (risk_of (s :: l)) (fp_of (s :: l)) = None) as ->.
  { unfold downgrade. by rewrite !andb_false_r. }
  cbn [fst] in Hfold. repeat case_match; simplify_eq; exact Hfold.
Qed.

(** What a detector result establishes about the artifacts' decisions. *)
Lemma runtime_result_Ok evaluation ds signals :
  validate_runtime_result evaluation ds = Ok tt →
  parse_signals (dict_get ($"runtime_detector_signals_v2") evaluation) = Ok signals →
  ∃ composition, dict_get ($"runtime_detector_composition") evaluation = PDict composition
    ∧ dict_get ($"action") composition = pyaction (cr_action (compose_action_from_signals signals (pyaction allow)))
    ∧ (ds = [] → dict_get ($"run_authoritative_decision") evaluation ≠ PNone)
    ∧ Forall (λ d, Forall (λ s, s ∈ ad_signals d) signals
                   ∧ dict_get ($"runtime_detector_action") (ad_composition_trace d)
                     = pyaction (cr_action (compose_action_from_signals signals (pyaction allow)))) ds.
Proof.
  intros Hv Hs. unfold validate_runtime_result in Hv.
  destruct (is_none (dict_get ($"runtime_detector_signals_v2") evaluation)) eqn:En.
  { apply is_none_true in En. by rewrite En in Hs. }
  cbn [andb] in Hv. cbv zeta in Hv. rewrite then_Ok in Hv. destruct Hv as [_ Hv].
  apply bind_Ok in Hv as (composition & Hc%require_mapping_Ok & Hv). rewrite Hs in Hv. cbn [mbind result_bind] in Hv.
  rewrite !then_Ok, !raise_if_Ok, !for_each_Ok, !orb_false_iff, !negb_false_iff in Hv.
  destruct Hv as ((((Ha & _) & _) & _) & Hsigs & Hz & Ht). apply py_eqb_action in Ha.
  exists composition. split; [done|]. split; [done|]. split.
  { intros -> E. by rewrite E in Hz. }
  rewrite Forall_forall in *. intros d Hd. specialize (Hsigs d Hd). specialize (Ht d Hd).
  rewrite raise_if_Ok, existsb_false in Hsigs. rewrite raise_if_Ok, negb_false_iff, Ha in Ht.
  split; [|by apply py_eqb_action in Ht].
  rewrite Forall_forall in *. intros s Hin. specialize (Hsigs s Hin). simpl in Hsigs.
  by apply negb_false_iff, py_in_true in Hsigs.
Qed.

(** The decision of a permitted row. *)
Lemma row_permitted_Ok row d :
  artifact_decision_of true row = Ok d → row_permitted (row, d) = true →
  ad_action d ∈ [allow; warn] ∧ blocking (ad_enforcement d) = false
  ∧ (authority_finalized (ad_enforcement d) = true
     ∨ ∃ item, row = PDict item ∧ is_disabled_codex_skill_inventory item d = true).
Proof.
  intros (item & raw & -> & _ & Hd & _)%artifact_decision_Ok Hp.
  apply issued_parsed, issued_valid, validate_decision_Ok in Hd as (_ & He & _).
  unfold row_permitted in Hp. cbn [fst snd] in Hp. apply orb_true_iff in Hp as [Hp|Hp].
  - rewrite He in Hp |- *. cbn [launch_permitted blocking authority_finalized enforcement_of] in *. unfold is_blocking in *.
    rewrite andb_true_iff, negb_true_iff in Hp. destruct Hp as [Hb Hf]. split; [|split; [done|by left]].
    apply py_in_false in Hb. destruct (ad_action d); set_solver.
  - pose proof Hp as Hi. unfold is_disabled_codex_skill_inventory in Hp. rewrite !andb_true_iff, !bool_decide_eq_true in Hp.
    destruct Hp as ((((_ & Ha) & _) & _) & _). rewrite Ha. split; [set_solver|]. split; [|eauto]. by rewrite He, Ha.
Qed.

(** The run's own decision is the detectors' action. *)
Lemma run_decision_Ok evaluation ds :
  run_decision_of evaluation = Ok ds →
  (dict_get ($"run_authoritative_decision") evaluation = PNone ∧ ds = [])
  ∨ ∃ d composition, ds = [d] ∧ issued d
      ∧ dict_get ($"runtime_detector_composition") evaluation = PDict composition
      ∧ dict_get ($"action") composition = pyaction (ad_action d).
Proof.
  unfold run_decision_of. destruct (is_none _) eqn:En.
  { intros [= <-]. left. by apply is_none_true in En. }
  intros (raw & _ & (d & Hd & [Hv [= <-]]%then_Ok)%bind_Ok)%bind_Ok. right.
  unfold validate_run_decision_projection in Hv.
  apply bind_Ok in Hv as (composition & Hc%require_mapping_Ok & [Ha _]%then_Ok).
  apply raise_if_Ok, orb_false_iff in Ha as [Ha%negb_false_iff%py_eqb_action _].
  exists d, composition. split_and!; [done|by eapply issued_parsed|done|done].
Qed.

Lemma issued_launch d : issued d → launch_permitted (ad_enforcement d) = true → ad_action d ∈ [allow; warn].
Proof.
  intros (_ & He & _)%issued_valid%validate_decision_Ok Hl. rewrite He in Hl. cbn in Hl.
  apply andb_true_iff in Hl as [Hl%negb_true_iff%py_in_false _]. destruct (ad_action d); set_solver.
Qed.

Lemma issued_blocking d : issued d → ad_action d ∈ [allow; warn] → blocking (ad_enforcement d) = false.
Proof.
  intros (_ & He & _)%issued_valid%validate_decision_Ok Ha. rewrite He. cbn. unfold is_blocking.
  apply py_in_false. destruct (ad_action d); set_solver.
Qed.

(** A decision to go on, whose trace records what the detectors composed to. *)
Lemma issued_detected d detected :
  issued d → ad_action d ∈ [allow; warn] → detected ∈ [allow; review; block] →
  dict_get ($"runtime_detector_action") (ad_composition_trace d) = pyaction detected →
  detected = allow ∨ detected = review ∧ approved (ad_action d) (ad_composition_trace d).
Proof.
  intros (Hv & _ & _)%issued_valid%validate_decision_Ok Ha Hin Htr. apply validate_trace_Ok in Hv as (_ & Hblk & Hweak).
  destruct detected; [by left|set_solver|right|set_solver|set_solver|].
  - split; [done|]. destruct (Hweak ($"runtime_detector_action") review) as [_ [?|[_ ?]]]; try done.
    + by repeat constructor.
    + unfold weaker. destruct (ad_action d); set_solver.
  - specialize (Hblk Htr). rewrite Hblk in Ha. set_solver.
Qed.

(** What an evaluation without an error established. *)
Lemma evaluation_None evaluation :
  evaluation_authority_error evaluation true = Ok None →
  ∃ rows ads rds, dict_get ($"artifacts") evaluation = PList rows
    ∧ Forall2 (λ row d, artifact_decision_of true row = Ok d ∧ row_permitted (row, d) = true) rows ads
    ∧ run_decision_of evaluation = Ok rds ∧ Forall (λ d, launch_permitted (ad_enforcement d) = true) rds
    ∧ validate_runtime_result evaluation ads = Ok tt
    ∧ dict_get ($"blocked") evaluation = PBool (existsb (λ d, blocking (ad_enforcement d)) (ads ++ rds)).
Proof.
  unfold evaluation_authority_error. case_match; [done|].
  destruct (dict_get ($"artifacts") evaluation) as [| | | |rows| |]; try done.
  destruct (evaluation_decisions evaluation rows true) as [[ads rds]|[]] eqn:Ed; try done.
  destruct (dict_get ($"blocked") evaluation) as [|blocked| | | | |]; try done.
  destruct (Bool.eqb blocked _) eqn:Eb; [|done]. apply Bool.eqb_prop in Eb. cbn [negb].
  destruct (forallb row_permitted (zip rows ads)) eqn:Er; [|done]. cbn [negb].
  destruct (existsb (λ d, negb _) rds) eqn:Ex; [done|]. intros _.
  unfold evaluation_decisions in Ed. apply bind_Ok in Ed as (ads' & Ha & (rds' & Hr & [Hv [= -> ->]]%then_Ok)%bind_Ok).
  exists rows, ads, rds. split_and!; [done| |done| |done|by rewrite Eb].
  - apply map_result_Ok in Ha. rewrite forallb_Forall in Er. clear -Ha Er. revert Er.
    induction Ha as [|row d rows ads Hd _ IH]; [constructor|]. cbn [zip_with]. rewrite Forall_cons. intros [Hp Hr].
    constructor; auto.
  - apply existsb_false in Ex. eapply Forall_impl; [exact Ex|]. intros d Hd. by apply negb_false_iff in Hd.
Qed.

(** A claim that passed validation. *)
Lemma saved_claim_Ok payload claim :
  validate_saved_approval_claim payload claim = Ok tt →
  ∃ hash status, hash ≠ [] ∧ dict_get ($"approval_context_hash") payload = PStr hash
    ∧ dict_get ($"approval_context_hash") claim = PStr hash
    ∧ dict_get ($"status") claim = PStr status ∧ status ∈ SAVED_APPROVAL_CLAIM_DISPOSITIONS
    ∧ dict_get ($"reason_code") claim = PStr APPROVAL_REUSE_ACCEPTED_REASON.
Proof.
  unfold validate_saved_approval_claim. intros [_ (known & Hk & Hv)%bind_Ok]%then_Ok.
  rewrite !then_Ok, !raise_if_Ok, !negb_false_iff, is_str_true in Hv. destruct Hv as (-> & Hh & Hr).
  apply in_str_set_true in Hk as (status & Hs & Hin).
  destruct (dict_get ($"approval_context_hash") payload) as [| | |h| | |] eqn:E; try done.
  apply orb_false_iff in Hh as [Hn%bool_decide_eq_false Hc%negb_false_iff%is_str_true]. by exists h, status.
Qed.

Lemma parse_claim_Ok payload trace claim :
  parse_claim payload trace = Ok (Some claim) →
  dict_get ($"saved_approval_claim") trace = PDict claim ∧ validate_saved_approval_claim payload claim = Ok tt.
Proof.
  unfold parse_claim. intros [_ Hc]%then_Ok. case_match; [done|].
  destruct (dict_get ($"saved_approval_claim") trace) as [| | | | |kv|]; try done.
  destruct (dict_get ($"approval_claim") payload) as [| | | | |kv'|]; try done.
  by apply then_Ok in Hc as [_ [Hv [= ->]]%then_Ok].
Qed.

(** The evidence read from a row is what the row and its trace say. *)
Lemma reuse_evidence_Ok payload trace r :
  parse_reuse_evidence payload trace = Ok r →
  ∃ raw, dict_get ($"approval_reuse") payload = PDict raw ∧ re_status r = dict_get ($"status") raw
    ∧ dict_get ($"current_action") trace = pyaction (re_current_action r)
    ∧ dict_get ($"saved_action") trace = pyaction_opt (re_saved_action r).
Proof.
  unfold parse_reuse_evidence. intros (raw & Hraw%require_mapping_Ok & Hr)%bind_Ok. exists raw. split; [done|].
  apply bind_Ok in Hr as (a & _ & (c & _ & (sv & _ & (k & _ & [_ Hr]%then_Ok)%bind_Ok)%bind_Ok)%bind_Ok).
  apply bind_Ok in Hr as (rs & _ & (cl & _ & [_ [_ [Hc [Hs Hr]%then_Ok]%then_Ok]%then_Ok]%then_Ok)%bind_Ok).
  apply raise_if_Ok, negb_false_iff in Hc, Hs. apply py_eqb_action in Hc.
  apply bind_Ok in Hr as (p & _ & [_ [= <-]]%then_Ok). simpl. split_and!; [done..|].
  destruct sv; [by apply py_eqb_action|]. by destruct (dict_get ($"saved_action") trace).
Qed.

Lemma expected_block r trusted runtime a :
  re_action r = block → trusted = false → expected_action r trusted runtime = Ok a → a = block.
Proof.
  unfold expected_action. intros -> ->. case_match; [by intros [= <-]|]. intros (x & _ & [= <-])%bind_Ok.
  case_match; [done|]. by destruct x.
Qed.

(** ** Properties *)

(** C4: A run evaluation without a contract error at the launch boundary
    permits a launch only on evidence: it is not blocked; every artifact row
    carries an authoritative decision that parses, agrees with the row's policy
    action, is [allow] or [warn], and has final authority or is the inventory
    of a disabled skill; and the runtime detectors' signals, recomposed, either
    ask for nothing, or for a review that every row's trace shows approved
    (with at least one row) and that includes every detector signal.  Signals
    that compose to [block] never launch. *)
Theorem launch_evaluation_sound evaluation :
  evaluation_authority_error evaluation true = Ok None →
  dict_get ($"blocked") evaluation = PBool false ∧
  ∃ rows ds, dict_get ($"artifacts") evaluation = PList rows
    ∧ Forall2 (λ row d, ∃ item raw, row = PDict item
        ∧ dict_get ($"authoritative_decision") item = PDict raw ∧ authoritative_from_dict raw = Ok d
        ∧ dict_get ($"policy_action") item = pyaction (ad_action d) ∧ ad_action d ∈ [allow; warn]
        ∧ (authority_finalized (ad_enforcement d) = true ∨ is_disabled_codex_skill_inventory item d = true)) rows ds
    ∧ ∀ signals, parse_signals (dict_get ($"runtime_detector_signals_v2") evaluation) = Ok signals →
        let detected := cr_action (compose_action_from_signals signals (pyaction allow)) in
        detected = allow
        ∨ detected = review ∧ ds ≠ []
          ∧ Forall (λ d, Forall (λ s, s ∈ ad_signals d) signals ∧ approved (ad_action d) (ad_composition_trace d)) ds.
Proof.
  intros (rows & ads & rds & Hrows & Hads & Hrun & Hlaunch & Hresult & Hblocked)%evaluation_None.
  assert (Forall (λ d, issued d ∧ ad_action d ∈ [allow; warn]) ads) as Hall.
  { apply Forall_forall. intros d [i Hi]%list_elem_of_lookup.
    destruct (Forall2_lookup_r _ _ _ _ _ Hads Hi) as (row & _ & Hd & Hp). destruct (row_permitted_Ok row d Hd Hp) as (Ha & _).
    apply artifact_decision_Ok in Hd as (item & raw & _ & _ & Hd & _). split; [by eapply issued_parsed | done]. }
  assert (Forall (λ d, issued d ∧ ad_action d ∈ [allow; warn]) rds) as Hrds.
  { destruct (run_decision_Ok _ _ Hrun) as [[_ ->]|(d & composition & -> & Hd & _)]; [constructor|].
    rewrite Forall_singleton in Hlaunch |- *. split; [done | by apply issued_launch]. }
  split.
  { rewrite Hblocked. f_equal. rewrite existsb_false, Forall_app.
    split; (eapply Forall_impl; [eassumption|]); intros d [? ?]; by apply issued_blocking. }
  exists rows, ads. split; [done|]. split.
  { eapply Forall2_impl; [exact Hads|]. intros row d [Hd Hp]. destruct (row_permitted_Ok row d Hd Hp) as (Ha & _ & Hf).
    apply artifact_decision_Ok in Hd as (item & raw & -> & Hraw & Hd & Hpa). exists item, raw. naive_solver. }
  intros signals Hs detected.
  destruct (runtime_result_Ok _ _ _ Hresult Hs) as (composition & Hc & Hact & Hnil & Hds). fold detected in Hact, Hds.
  pose proof (compose_range signals) as Hrange. fold detected in Hrange.
  clearbody detected. rewrite Forall_forall in Hall, Hds.
  assert (∀ d, d ∈ ads → detected = allow ∨ detected = review ∧ approved (ad_action d) (ad_composition_trace d)) as Heach.
  { intros d Hd. destruct (Hall d Hd), (Hds d Hd). by apply issued_detected. }
  destruct ads as [|d0 ads].
  - left. destruct (run_decision_Ok _ _ Hrun) as [[E _]|(d & composition' & -> & _ & Hc' & Ha)]; [by destruct (Hnil eq_refl)|].
    rewrite Hc in Hc'. injection Hc' as <-. rewrite Hact in Ha. injection Ha as ->%(inj action_value).
    rewrite Forall_singleton in Hrds. destruct Hrds as [_ Ha]. destruct (ad_action d); set_solver.
  - destruct (Heach d0) as [?|(Hd & _)]; [left|by left|]. right. split; [done|]. split; [done|].
    apply Forall_forall. intros d Hin. destruct (Heach d Hin) as [E|(_ & ?)]; [congruence|]. split; [by apply Hds | done].
Qed.

(** C14: An accepted reuse of a saved approval launches only with an atomic
    claim: if a row at the launch boundary records an accepted reuse and its
    decision permits the launch, then the trace holds the claim, consumed or
    retained, for exactly the row's non-empty approval context hash, with the
    accepted reason, and the reuse answers a review with a saved [allow]. *)
Theorem accepted_reuse_claimed item d reuse :
  authoritative_decision_from_artifact item true = Ok d →
  launch_permitted (ad_enforcement d) = true →
  dict_get ($"approval_reuse") item = PDict reuse → dict_get ($"status") reuse = PStr ($"accepted") →
  let trace := ad_composition_trace d in
  dict_get ($"current_action") trace = pyaction review ∧ dict_get ($"saved_action") trace = pyaction allow
  ∧ ∃ claim hash status, dict_get ($"saved_approval_claim") trace = PDict claim
      ∧ hash ≠ [] ∧ dict_get ($"approval_context_hash") item = PStr hash
      ∧ dict_get ($"approval_context_hash") claim = PStr hash
      ∧ dict_get ($"status") claim = PStr status ∧ status ∈ SAVED_APPROVAL_CLAIM_DISPOSITIONS
      ∧ dict_get ($"reason_code") claim = PStr APPROVAL_REUSE_ACCEPTED_REASON.
Proof.
  intros (raw & _ & Hd%issued_parsed & Hv)%from_artifact_Ok Hl Hre Hst trace.
  pose proof (issued_launch d Hd Hl) as Ha. apply issued_valid, validate_decision_Ok in Hd as (_ & He & _).
  assert (authority_finalized (ad_enforcement d) = true) as Hf.
  { rewrite He in Hl. cbn in Hl. by apply andb_true_iff in Hl as [_ ?]. }
  unfold validate_artifact_projection in Hv. cbv zeta in Hv. rewrite !then_Ok in Hv.
  destruct Hv as (_ & _ & _ & _ & _ & _ & Hv). unfold validate_artifact_approval_projection in Hv. fold trace in Hv.
  assert (dict_has ($"approval_reuse") item = true) as Hhas.
  { unfold dict_has. apply py_in_true, elem_of_dict_keys. unfold dict_get in Hre. by destruct (dict_lookup _ item). }
  cbn [existsb] in Hv. rewrite Hhas in Hv. cbn [orb negb andb] in Hv.
  apply bind_Ok in Hv as (r & Hr%reuse_evidence_Ok & (trusted & _ & Hv)%bind_Ok).
  destruct Hr as (raw' & Hraw & Hstatus & Hc & Hs). rewrite Hre in Hraw. injection Hraw as <-.
  apply then_Ok in Hv as [Hex%raise_if_Ok [_ (a & Hexp & Hv)%bind_Ok]%then_Ok].
  apply then_Ok in Hv as [Heq%raise_if_Ok%negb_false_iff%bool_decide_eq_true (claim & Hclaim & Hv)%bind_Ok]. subst a.
  assert (is_str (re_status r) ($"accepted") = true) as Hacc by (rewrite Hstatus; by apply is_str_true).
  rewrite Hacc in Hex. cbn [andb] in Hex. apply negb_false_iff in Hex. apply then_Ok in Hv as [Htr Hv].
  destruct (saved_allow_reuse r) eqn:Esa.
  - unfold saved_allow_reuse in Esa. rewrite !andb_true_iff, !bool_decide_eq_true in Esa.
    destruct Esa as (((((Hcur & Hsav) & Hact) & _) & _) & Hcl). rewrite Hcur in Hc. rewrite Hsav in Hs.
    split; [done|]. split; [done|]. destruct trusted.
    { exfalso. rewrite !then_Ok, !raise_if_Ok, Hact in Htr. by destruct Htr as (_ & ? & _). }
    destruct claim as [claim|].
    + apply parse_claim_Ok in Hclaim as [Hcl' (h & st & ? & ? & ? & ? & ? & ?)%saved_claim_Ok]. by exists claim, h, st.
    + rewrite Hcl, Hf in Hv. done.
  - cbn [orb] in Hex. unfold saved_block_reuse in Hex. rewrite !andb_true_iff, !bool_decide_eq_true in Hex.
    destruct Hex as ((((_ & Hact) & _) & _) & _). exfalso. destruct trusted.
    { rewrite !then_Ok, !raise_if_Ok, Hact in Htr. by destruct Htr as (_ & ? & _). }
    rewrite (expected_block _ _ _ _ Hact eq_refl Hexp) in Ha. set_solver.
Qed.

(** ** Rebuilding *)

Lemma merge_from_spec seen signals :
  NoDup (map signal_id (merge_from seen signals))
  ∧ (∀ s, s ∈ merge_from seen signals → s ∈ signals ∧ signal_id s ∉ seen)
  ∧ (∀ s, s ∈ signals → signal_id s ∈ seen ∨ signal_id s ∈ map signal_id (merge_from seen signals)).
Proof.
  revert seen. induction signals as [|x l IH]; intros seen; simpl.
  { split_and!; [constructor|set_solver|set_solver]. }
  destruct (py_in (signal_id x) seen) eqn:E.
  - apply py_in_true in E. destruct (IH seen) as (Hn & Hs & Hc). split_and!; [done|set_solver|set_solver].
  - apply py_in_false in E. destruct (IH (signal_id x :: seen)) as (Hn & Hs & Hc). simpl. split_and!.
    + constructor; [|done]. intros (y & Hy & Hin)%list_elem_of_fmap. destruct (Hs y Hin) as [_ Hy']. set_solver.
    + intros s [->|Hin]%elem_of_cons; [set_solver|]. destruct (Hs s Hin). set_solver.
    + intros s [->|Hin]%elem_of_cons; [set_solver|]. destruct (Hc s Hin); set_solver.
Qed.

Lemma dict_update_lookup k d updates :
  dict_lookup k (dict_update d updates) = match dict_lookup k (dict_of updates) with Some v => Some v | None => dict_lookup k d end.
Proof.
  unfold dict_update, dict_of. induction updates as [|[k' v] updates IH] using rev_ind; [done|].
  rewrite !foldl_app. simpl. rewrite !dict_lookup_set, IH. by case_decide.
Qed.

(** Rebuilding a row's authority with added evidence never changes what
    may run: it succeeds only on a row that carries an authoritative decision,
    and the decision it writes has the same action, finality and launch
    permission and is again a validated decision; the row's fields outside the
    projection are untouched; the merged signals have distinct ids, all come
    from the old or the added signals, and cover all their ids. *)
Theorem rebuild_keeps_authority payload reason updates additional row :
  rebuild_artifact_authority payload reason updates additional = Ok row →
  ∃ old new, authoritative_decision_from_artifact payload true = Ok old ∧ issued new
    ∧ dict_get ($"authoritative_decision") row = PDict (authoritative_to_dict new)
    ∧ dict_get ($"policy_action") row = pyaction (ad_action old)
    ∧ ad_action new = ad_action old ∧ ad_enforcement new = ad_enforcement old
    ∧ (∀ key, key ∉ dict_keys (to_artifact_projection new) → dict_get key row = dict_get key payload)
    ∧ NoDup (map signal_id (ad_signals new))
    ∧ (∀ s, s ∈ ad_signals new → s ∈ ad_signals old ∨ s ∈ additional)
    ∧ (∀ s, s ∈ ad_signals old ∨ s ∈ additional → signal_id s ∈ map signal_id (ad_signals new)).
Proof.
  unfold rebuild_artifact_authority. intros (old & Hold & (new & Hnew & Hrow)%bind_Ok)%bind_Ok.
  assert (row = dict_update payload (to_artifact_projection new)) as -> by congruence. clear Hrow.
  exists old, new. pose proof (issued_built _ _ _ _ _ _ _ Hnew) as Hi.
  destruct (from_artifact_Ok _ _ Hold) as (raw & _ & Hd%issued_parsed & _).
  apply issued_valid, validate_decision_Ok in Hd as (_ & He & _).
  unfold build_authoritative_decision in Hnew. cbv zeta in Hnew. rewrite !then_Ok in Hnew.
  destruct Hnew as (_ & _ & [= Hnew]).
  assert (ad_action new = ad_action old ∧ ad_enforcement new = ad_enforcement old
          ∧ ad_signals new = merge_signals (ad_signals old) additional) as (Hact & Henf & Hsig).
  { rewrite <- Hnew. simpl. by rewrite <- He. }
  destruct (merge_from_spec [] (ad_signals old ++ additional)) as (Hn & Hs & Hc). fold (merge_signals (ad_signals old) additional) in *.
  rewrite <- Hsig in *. split; [done|]. split; [done|].
  split; [unfold dict_get; by rewrite dict_update_lookup|].
  split; [unfold dict_get; by rewrite dict_update_lookup, <- Hact|]. split; [done|]. split; [done|]. split.
  - intros key Hk. unfold dict_get. rewrite dict_update_lookup.
    change (dict_of (to_artifact_projection new)) with (to_artifact_projection new).
    by rewrite (proj2 (dict_lookup_None _ _) Hk).
  - split; [done|]. split.
    + intros s Hin. destruct (Hs s Hin) as [?%elem_of_app _]. done.
    + intros s Hin. destruct (Hc s) as [?|?]; [by apply elem_of_app|set_solver|done].
Qed.

(** ** Concrete rows *)

(** A review that the detectors asked for, answered by a saved approval whose
    claim was consumed. *)
Notation sample_detector :=
  {| signal_id := $"persistence:cron"; category := cat_persistence; severity := sev_high;
     confidence := conf_weak; detector := $"persistence"; title := $"Cron entry";
     plain_reason := $"Adds a cron entry"; technical_detail := None; evidence_ref := None;
     redaction_level := red_none; false_positive_hint := None; advisory_id := None |} (only parsing).
Notation sample_claim :=
  (PDict [($"status", PStr ($"consumed")); ($"approval_context_hash", PStr ($"ctx"));
          ($"reason_code", PStr ($"approval_reuse_accepted"))]) (only parsing).
Notation sample_reuse status reason claim :=
  [($"action", pyaction allow); ($"current_action", pyaction review); ($"saved_action", pyaction allow);
   ($"status", PStr status); ($"reason_code", PStr reason); ($"should_claim", PBool claim)] (only parsing).
Notation sample_row trace signals status reason claim extra :=
  (match build_authoritative_decision allow ($"approval_reuse_accepted")
           ([($"current_action", pyaction review); ($"saved_action", pyaction allow);
             ($"saved_state_present", PBool true); ($"trusted_request_override", PBool false)] ++ trace)
           signals true COMPOSED_SOURCE with
   | Ok d =>
       to_artifact_projection d
       ++ [($"approval_reuse", PDict (sample_reuse status reason claim));
           ($"approval_reuse_status", PStr status); ($"approval_reuse_reason_code", PStr reason);
           ($"trusted_request_override", PDict [($"applied", PBool false); ($"reason_code", PNone)]);
           ($"approval_context_hash", PStr ($"ctx"))] ++ extra
   | Raise _ => []
   end) (only parsing).
Notation sample_item :=
  (sample_row [($"runtime_detector_action", pyaction review); ($"saved_approval_claim", sample_claim)] [sample_detector]
     ($"accepted") ($"approval_reuse_accepted") true
     [($"approval_claim", sample_claim);
      ($"scanner_evidence",
        PList [PDict [($"source", PStr ($"approval_reuse")); ($"status", PStr ($"accepted"));
                      ($"reason_code", PStr ($"approval_reuse_accepted"))]])]) (only parsing).
Notation sample_evaluation :=
  [($"artifacts", PList [PDict sample_item]); ($"blocked", PBool false);
   ($"runtime_detector_signals_v2", pysignals [sample_detector]);
   ($"runtime_detector_composition",
     PDict [($"action", pyaction review); ($"reason", PStr ($"persistence signal 'persistence' requires review"));
            ($"downgraded", PBool false); ($"upgraded", PBool true)])] (only parsing).

Lemma launch_evaluation_sound_witness :
  evaluation_authority_error sample_evaluation true = Ok None
  ∧ dict_get ($"blocked") sample_evaluation = PBool false.
Proof.
  assert (evaluation_authority_error sample_evaluation true = Ok None) as H by (vm_compute; reflexivity).
  split; [exact H|]. exact (proj1 (launch_evaluation_sound sample_evaluation H)).
Defined.

Lemma accepted_reuse_claimed_witness :
  ∃ d, authoritative_decision_from_artifact sample_item true = Ok d
       ∧ dict_get ($"saved_action") (ad_composition_trace d) = pyaction allow.
Proof.
  eexists. split; [vm_compute; reflexivity|].
  eapply (λ H1 H2 H3 H4, proj1 (proj2 (accepted_reuse_claimed sample_item _
    (sample_reuse ($"accepted") ($"approval_reuse_accepted") true) H1 H2 H3 H4))); vm_compute; reflexivity.
Defined.

Lemma rebuild_keeps_authority_witness :
  ∃ row, rebuild_artifact_authority sample_item (Some ($"approval_reuse_accepted"))
           (Some [($"note", PStr ($"n"))]) [sample_detector] = Ok row
    ∧ ∃ old, authoritative_decision_from_artifact sample_item true = Ok old
             ∧ dict_get ($"policy_action") row = pyaction (ad_action old).
Proof.
  eexists. split; [vm_compute; reflexivity|].
  edestruct (rebuild_keeps_authority sample_item (Some ($"approval_reuse_accepted"))
    (Some [($"note", PStr ($"n"))]) [sample_detector]) as (old & new & H1 & _ & _ & H2 & _); [vm_compute; reflexivity|].
  exists old. split; [exact H1 | exact H2].
Defined.

(** The evidence check has a hole: a row whose approval reuse was
    rejected, but which still records the action [allow] for a review with a
    saved [allow], is accepted at the launch boundary with final authority, with
    no trusted request and no claim of the saved approval, and the evaluation
    that holds it permits the launch.  Only an accepted reuse is compared with
    the exact forms a reuse can have. *)
Theorem rejected_reuse_launches :
  let item := sample_row [] [] ($"rejected") ($"approval_reuse_identity_changed") false [] in
  ∃ d, authoritative_decision_from_artifact item true = Ok d
    ∧ launch_permitted (ad_enforcement d) = true
    ∧ dict_get ($"current_action") (ad_composition_trace d) = pyaction review
    ∧ dict_get ($"saved_approval_claim") (ad_composition_trace d) = PNone
    ∧ dict_get ($"approval_reuse") item
      = PDict (sample_reuse ($"rejected") ($"approval_reuse_identity_changed") false)
    ∧ evaluation_authority_error [($"artifacts", PList [PDict item]); ($"blocked", PBool false)] true = Ok None
    ∧ (∀ fresh durable, ar_action (evaluate_approval_reuse (pyaction review) (pyaction allow) None
                                     (Some identity_changed) fresh durable) = review).
Proof.
  cbv zeta. eexists. split; [vm_compute; reflexivity|].
  split; [vm_compute; reflexivity|]. split; [vm_compute; reflexivity|]. split; [vm_compute; reflexivity|].
  split; [vm_compute; reflexivity|]. split; [vm_compute; reflexivity|]. intros [] []; vm_compute; reflexivity.
Qed.

End Artifacts.
