(* ===== verification/DecisionBoundaries.v ===== *)
(** * Canonical projections of stored decisions

    Models [guard/decision_projection_boundaries.py] and
    [guard/decision_boundaries.py]: rows of the approval queue and receipts are
    read back from an untyped store, and their action fields (the policy
    action, the product decision, the action envelope, the resolution of a
    linked approval request) are projected to one action.

    The theorems: a receipt is projected to an action at least as severe as
    everything it records when its fields disagree, and the projection is
    stable; a linked approval grants [allow] exactly for a consistent pending
    allow or a proper resolution of a request that was neither blocked nor
    confined.  [float_of] is the decoding of floating-point literals. *)

From S2P Require Import Prelude PyStr Sha256 PyVal PyJson ActionLattice RiskSignals ApprovalReuse Decisions DecisionArtifacts.
Local Open Scope Z_scope.
Local Open Scope py_scope.

Module Boundary.
Import Json Signals Reuse Decision Artifacts.

Definition PRODUCT_ACTIONS : list pystr := [$"allow"; $"warn"; $"ask"; $"block"].
Definition DEGRADED_TRUST_DETAIL_REASON : pystr := $"remembered_rule_ignored_degraded_trust".
Definition PACKAGE_REVIEW_CLOUD_REASON_CODES : list pystr :=
  [$"cloud_auth_error"; $"cloud_http_error"; $"cloud_timeout"; $"cloud_validation_error"].
Definition BOUNDARY_ENVELOPE_ACTION_FIELDS : list pystr :=
  [$"action_id"; $"action_type"; $"policy_action"; $"pre_execution_result"; $"observed_policy_action";
   $"actionId"; $"actionType"; $"policyAction"; $"preExecutionResult"; $"observedPolicyAction"].

(** ** The product decision *)

Record CanonicalApprovalDecision := {
  cad_policy_action : GuardAction;
  cad_decision_v2_json : pydict;
  cad_contract_error : option pystr;
}.

(** [normalize_guard_action_result(value, unknown_action="require-reapproval")] *)
Definition normalized (value : pyval) : GuardActionNormalization := normalize_with value require_reapproval.
Definition most_restrictive (actions : list GuardAction) : GuardAction :=
  most_restrictive_guard_action (map pyaction actions) require_reapproval.

(** [dict(value) if isinstance(value, Mapping) else None] *)
Definition as_mapping (value : pyval) : option pydict := match value with PDict kv => Some kv | _ => None end.

Definition unknown_action_bearing_fields (payload : option pydict) (allowed : list pystr) : list pystr :=
  match payload with
  | None => []
  | Some kv => filter (λ key, is_action_bearing_key key && negb (py_in key allowed) = true) (dict_keys kv)
  end.

Definition action_candidates (payload : option pydict) (keys : list pystr) : list GuardAction :=
  match payload with
  | None => []
  | Some kv => map (λ key, gan_action (normalized (dict_get key kv))) keys
  end.

Definition product_action_for_policy (action : GuardAction) : GuardDecisionAction :=
  match action with allow => da_allow | warn => da_warn | block => da_block | _ => da_ask end.
Definition policy_floor_for_product_action (action : pyval) : GuardAction :=
  if is_str action ($"allow") then allow
  else if is_str action ($"warn") then warn
  else if is_str action ($"block") then block
  else require_reapproval.

Definition default_signal (index : Z) : pydict :=
  [($"signal_id", PStr ($"approval-signal:" ++ str_of_int index)); ($"category", PStr ($"policy"));
   ($"severity", PStr ($"info")); ($"confidence", PStr ($"likely"));
   ($"detector", PStr ($"guard.approval-boundary")); ($"title", PStr ($"Guard risk signal"));
   ($"plain_reason", PStr ($"HOL Guard recorded a risk signal for this approval."));
   ($"technical_detail", PNone); ($"evidence_ref", PNone); ($"redaction_level", PStr ($"summary"));
   ($"false_positive_hint", PNone); ($"advisory_id", PNone)].

(** The loop of [_validated_signals]. *)
Fixpoint signals_from (index : Z) (raw_signals : list pyval) : list RiskSignalV2 :=
  match raw_signals with
  | [] => []
  | raw_signal :: rest =>
      match raw_signal with
      | PDict kv =>
          match signal_from_dict (dict_update (default_signal index) kv) with
          | Ok s => s :: signals_from (index + 1) rest
          | Raise _ => signals_from (index + 1) rest
          end
      | _ => signals_from (index + 1) rest
      end
  end.
Definition validated_signals (decision : option pydict) : list RiskSignalV2 :=
  match decision with
  | Some kv => match dict_get ($"signals") kv with PList raw => signals_from 0 raw | _ => [] end
  | None => []
  end.

Definition validated_degraded_trust_detail (raw_decision : option pydict) (canonical_v2 : pydict)
    (projected_action : GuardAction) : bool :=
  match raw_decision with
  | None => false
  | Some raw =>
      if negb (is_str (dict_get ($"detail_reason_code") raw) DEGRADED_TRUST_DETAIL_REASON)
         || negb (py_in projected_action [review; require_reapproval]) then false
      else
        match v2_from_dict raw with
        | Raise _ => false
        | Ok parsed =>
            bool_decide (v2_guard_action parsed = projected_action)
            && forallb (λ e : pystr * pyval,
                 py_in e.1 [$"user_title"; $"user_body"; $"harness_message"; $"dashboard_primary_detail"]
                 || py_eqb (dict_get e.1 raw) e.2) canonical_v2
            && match dict_get ($"harness_message") raw, dict_get ($"dashboard_primary_detail") raw with
               | PStr message, PStr dashboard_detail =>
                   bool_decide (message = dashboard_detail) && (length message <=? 2000)%nat
                   && forallb (λ fragment, contains fragment message)
                        [$"remembered local rule was ignored"; $"One-time approvals still work"]
               | _, _ => false
               end
        end
  end.

(** [canonical_v2], with what survives of the stored decision. *)
Definition project_v2 (raw_decision : option pydict) (projected_action : GuardAction) (reason : pystr) : pydict :=
  let canonical_v2 :=
    v2_to_dict (decision_from_legacy_policy_action projected_action reason (validated_signals raw_decision)) in
  let raw := default [] raw_decision in
  let v2 :=
    if validated_degraded_trust_detail raw_decision canonical_v2 projected_action then
      dict_set ($"detail_reason_code") (PStr DEGRADED_TRUST_DETAIL_REASON)
        (dict_set ($"dashboard_primary_detail") (dict_get ($"dashboard_primary_detail") raw)
           (dict_set ($"harness_message") (dict_get ($"harness_message") raw) canonical_v2))
    else canonical_v2 in
  let v2 := match dict_get ($"policyVersion") raw with
            | PStr version => if decide (strip version = []) then v2 else dict_set ($"policyVersion") (PStr version) v2
            | _ => v2
            end in
  match dict_get ($"package_review_cloud_reason_code") raw with
  | PStr code => if py_in code PACKAGE_REVIEW_CLOUD_REASON_CODES
                 then dict_set ($"package_review_cloud_reason_code") (PStr code) v2 else v2
  | _ => v2
  end.

(** [raw_decision.get(key)], [None] without a decision *)
Definition get_or_none (key : pystr) (d : option pydict) : pyval := match d with Some kv => dict_get key kv | None => PNone end.

Definition canonical_approval_decision (policy_action decision_v2_json : pyval) (reject_contradiction : bool)
    : result CanonicalApprovalDecision :=
  let normalization := normalized policy_action in
  let normalized_action := gan_action normalization in
  let raw_decision := as_mapping decision_v2_json in
  let invalid_payload := negb (is_none decision_v2_json) && bool_decide (raw_decision = None :> option _) in
  let unknown_action_fields := unknown_action_bearing_fields raw_decision DECISION_V2_ACTION_FIELDS in
  let hidden_action_candidates := action_candidates raw_decision unknown_action_fields in
  let raw_guard_action := get_or_none ($"guard_action") raw_decision in
  let guard := if is_none raw_guard_action then None else Some (normalized raw_guard_action) in
  let invalid_guard_action := match guard with Some n => negb (recognized n) | None => false end in
  let contradictory_guard_action :=
    match guard with Some n => recognized n && negb (bool_decide (gan_action n = normalized_action)) | None => false end in
  let raw_product_action := get_or_none ($"action") raw_decision in
  let known_product := match raw_product_action with PStr s => py_in s PRODUCT_ACTIONS | _ => false end in
  let invalid_product_action := negb (is_none raw_product_action) && negb known_product in
  let contradictory :=
    known_product && negb (py_eqb raw_product_action (pylabel (product_action_for_policy normalized_action))) in
  let unknown := negb (bool_decide (unknown_action_fields = [])) in
  raise_if (reject_contradiction
            && (invalid_payload || invalid_guard_action || contradictory_guard_action || invalid_product_action
                || contradictory || unknown)) (ValueError "authoritative_decision_inconsistent") ;;
  let '(contract_error, projected_action) :=
    if invalid_payload || invalid_guard_action || invalid_product_action || unknown then
      (Some AUTHORITATIVE_DECISION_INCONSISTENT,
       most_restrictive (normalized_action :: require_reapproval :: hidden_action_candidates))
    else if contradictory_guard_action || contradictory then
      let guard_action_floor := match guard with
                                | Some n => if recognized n then gan_action n else require_reapproval
                                | None => require_reapproval
                                end in
      (Some AUTHORITATIVE_DECISION_INCONSISTENT,
       most_restrictive [normalized_action; guard_action_floor; policy_floor_for_product_action raw_product_action])
    else (if recognized normalization then None else Some AUTHORITATIVE_DECISION_INCONSISTENT, normalized_action) in
  let reason :=
    match contract_error with
    | Some _ => $"Stored approval decision fields were inconsistent; HOL Guard failed closed."
    | None => match get_or_none ($"reason") raw_decision with
              | PStr r => if decide (strip r = []) then action_value projected_action else r
              | _ => action_value projected_action
              end
    end in
  Ok {| cad_policy_action := projected_action;
        cad_decision_v2_json := project_v2 raw_decision projected_action reason;
        cad_contract_error := contract_error |}.

(** ** The action envelope of a receipt *)

Record CanonicalReceiptDecision := {
  crd_policy_decision : GuardAction;
  crd_action_envelope_json : option pydict;
  crd_contract_error : option pystr;
}.

Definition aliases_conflict (payload : option pydict) (snake_key camel_key : pystr) : bool :=
  match payload with
  | Some kv => match dict_lookup snake_key kv, dict_lookup camel_key kv with
               | Some v, Some w => negb (py_eqb v w)
               | _, _ => false
               end
  | None => false
  end.

Definition ENVELOPE_ALIASES : list (pystr * pystr) :=
  [($"action_id", $"actionId"); ($"action_type", $"actionType"); ($"policy_action", $"policyAction");
   ($"pre_execution_result", $"preExecutionResult"); ($"observed_policy_action", $"observedPolicyAction")].
Definition FINAL_ACTION_FIELDS : list pystr :=
  [$"policy_action"; $"policyAction"; $"pre_execution_result"; $"preExecutionResult"].
Definition OBSERVED_ACTION_FIELDS : list pystr := [$"observed_policy_action"; $"observedPolicyAction"].

(** The normalizations of the fields that are present. *)
Definition present_actions (fields : list pystr) (envelope : pydict) : list GuardActionNormalization :=
  omap (λ field, let raw := dict_get field envelope in if is_none raw then None else Some (normalized raw)) fields.

(** [for key in keys: if envelope.get(key) is not None: envelope[key] = action] *)
Definition synchronize (keys : list pystr) (action : GuardAction) (envelope : pydict) : pydict :=
  foldl (λ e key, if is_none (dict_get key e) then e else dict_set key (pyaction action) e) envelope keys.
Definition remove_keys (keys : list pystr) (envelope : pydict) : pydict := foldl (λ e key, dict_pop key e) envelope keys.

(** The envelope without the fields that could conceal another action, the
    normalizations of its final actions, and whether anything in it disagrees
    with the receipt's action. *)
Definition receipt_envelope (raw : option pydict) : option pydict :=
  remove_keys (unknown_action_bearing_fields raw BOUNDARY_ENVELOPE_ACTION_FIELDS) <$> raw.
Definition receipt_actions (fields : list pystr) (raw : option pydict) : list GuardActionNormalization :=
  match receipt_envelope raw with Some e => present_actions fields e | None => [] end.
Definition receipt_contradiction (action : GuardAction) (raw : option pydict) : bool :=
  existsb (λ a : pystr * pystr, aliases_conflict raw a.1 a.2) ENVELOPE_ALIASES
  || negb (bool_decide (unknown_action_bearing_fields raw BOUNDARY_ENVELOPE_ACTION_FIELDS = []))
  || existsb (λ n, negb (recognized n) || negb (bool_decide (gan_action n = action)))
       (receipt_actions FINAL_ACTION_FIELDS raw)
  || existsb (λ n, negb (recognized n)) (receipt_actions OBSERVED_ACTION_FIELDS raw).
Definition receipt_candidates (raw : option pydict) : list GuardAction :=
  action_candidates raw (unknown_action_bearing_fields raw BOUNDARY_ENVELOPE_ACTION_FIELDS)
  ++ map gan_action (receipt_actions FINAL_ACTION_FIELDS raw).

Definition canonical_receipt_decision (policy_decision action_envelope_json : pyval) (reject_contradiction : bool)
    : result CanonicalReceiptDecision :=
  let normalization := normalized policy_decision in
  let normalized_action := gan_action normalization in
  let raw := as_mapping action_envelope_json in
  let invalid_payload := negb (is_none action_envelope_json) && bool_decide (raw = None :> option _) in
  let contradiction := receipt_contradiction normalized_action raw in
  raise_if (reject_contradiction && (invalid_payload || contradiction)) (ValueError "authoritative_decision_inconsistent") ;;
  let '(contract_error, projected_action) :=
    if invalid_payload then
      (Some AUTHORITATIVE_DECISION_INCONSISTENT, most_restrictive [normalized_action; require_reapproval])
    else if contradiction then
      (Some AUTHORITATIVE_DECISION_INCONSISTENT,
       most_restrictive (normalized_action :: require_reapproval :: receipt_candidates raw))
    else (if recognized normalization then None else Some AUTHORITATIVE_DECISION_INCONSISTENT, normalized_action) in
  Ok {| crd_policy_decision := projected_action;
        crd_action_envelope_json :=
          synchronize [$"policy_action"; $"pre_execution_result"; $"policyAction"; $"preExecutionResult"]
            projected_action <$> receipt_envelope raw;
        crd_contract_error := contract_error |}.

(** ** Approval surfaces *)

Record CanonicalApprovalSurfaces := {
  cas_policy_action : GuardAction;
  cas_decision_v2_json : pydict;
  cas_action_envelope_json : option pydict;
  cas_contract_error : option pystr;
}.

Definition pymapping_opt (o : option pydict) : pyval := match o with Some kv => PDict kv | None => PNone end.
(** [a or b] on optional texts that are never empty *)
Definition first_error (errors : list (option pystr)) : option pystr := head (omap id errors).

Definition canonical_approval_surfaces (policy_action decision_v2_json action_envelope_json : pyval)
    (reject_contradiction : bool) : result CanonicalApprovalSurfaces :=
  decision ← canonical_approval_decision policy_action decision_v2_json reject_contradiction ;
  envelope ← canonical_receipt_decision (pyaction (cad_policy_action decision)) action_envelope_json reject_contradiction ;
  final_decision ← canonical_approval_decision (pyaction (crd_policy_decision envelope))
                     (PDict (cad_decision_v2_json decision)) false ;
  final_envelope ← canonical_receipt_decision (pyaction (cad_policy_action final_decision))
                     (pymapping_opt (crd_action_envelope_json envelope)) false ;
  Ok {| cas_policy_action := cad_policy_action final_decision;
        cas_decision_v2_json := cad_decision_v2_json final_decision;
        cas_action_envelope_json := crd_action_envelope_json final_envelope;
        cas_contract_error := first_error [cad_contract_error decision; crd_contract_error envelope;
                                           cad_contract_error final_decision; crd_contract_error final_envelope] |}.

(** ** Linked approvals *)

Record CanonicalLinkedApprovalAuthority := {
  cla_policy_action : option GuardAction;
  cla_action_envelope_json : option pydict;
  cla_contract_error : option pystr;
}.

Definition invalid_linked_approval_authority (policy_action : GuardAction) : CanonicalLinkedApprovalAuthority :=
  {| cla_policy_action := Some policy_action; cla_action_envelope_json := None;
     cla_contract_error := Some AUTHORITATIVE_DECISION_INCONSISTENT |}.

Section linked.
Variable float_of : pystr → pyval.

Definition json_mapping_or_original (value : pyval) : pyval :=
  match value with
  | PStr s => match loads float_of s with
              | Ok (PDict parsed) => PDict parsed
              | _ => value
              end
  | _ => value
  end.

Definition resolved_approval_envelope (resolution_action : GuardAction) (action_envelope_json : pyval)
    : result (option pydict * option pystr) :=
  match json_mapping_or_original action_envelope_json with
  | PNone => Ok (None, None)
  | PDict parsed =>
      let inconsistent := Some AUTHORITATIVE_DECISION_INCONSISTENT in
      let '(envelope, contract_error) :=
        foldl (λ st key, if is_action_bearing_key key && negb (py_in key BOUNDARY_ENVELOPE_ACTION_FIELDS)
                         then (dict_pop key st.1, inconsistent) else st) (parsed, None) (dict_keys parsed) in
      let '(envelope, contract_error) :=
        foldl (λ st (a : pystr * pystr), if aliases_conflict (Some st.1) a.1 a.2
                                         then (dict_pop a.2 st.1, inconsistent) else st) (envelope, contract_error)
          [($"action_id", $"actionId"); ($"action_type", $"actionType");
           ($"observed_policy_action", $"observedPolicyAction")] in
      let envelope := foldl (λ e key, if dict_has key e then dict_set key (pyaction resolution_action) e else e)
                        envelope FINAL_ACTION_FIELDS in
      canonical ← canonical_receipt_decision (pyaction resolution_action) (PDict envelope) false ;
      Ok (crd_action_envelope_json canonical, first_error [contract_error; crd_contract_error canonical])
  | _ => Ok (None, Some AUTHORITATIVE_DECISION_INCONSISTENT)
  end.

(** The branch of a pending request. *)
Definition pending_authority (surfaces : CanonicalApprovalSurfaces) (resolution_action resolved_at : pyval)
    (invalid_action : GuardAction) : CanonicalLinkedApprovalAuthority :=
  if negb (is_none resolution_action) || negb (is_none resolved_at) then invalid_linked_approval_authority invalid_action
  else {| cla_policy_action := Some (cas_policy_action surfaces);
          cla_action_envelope_json := cas_action_envelope_json surfaces;
          cla_contract_error := cas_contract_error surfaces |}.

(** The branch of a resolved request. *)
Definition resolved_authority (surfaces : CanonicalApprovalSurfaces) (resolution_action resolved_at : pyval)
    (invalid_action : GuardAction) : result CanonicalLinkedApprovalAuthority :=
  let resolution_candidate := if is_str resolution_action ($"allow") then Some allow
                              else if is_str resolution_action ($"block") then Some block else None in
  let invalid := Ok (invalid_linked_approval_authority invalid_action) in
  if bool_decide (is_Some (cas_contract_error surfaces)) then invalid
  else if py_in (cas_policy_action surfaces) [block; sandbox_required] then invalid
  else match resolution_candidate, resolved_at with
       | Some resolution, PStr at_ =>
           if decide (strip at_ = []) then invalid
           else
             resolved ← resolved_approval_envelope resolution (pymapping_opt (cas_action_envelope_json surfaces)) ;
             Ok {| cla_policy_action := Some resolution; cla_action_envelope_json := resolved.1;
                   cla_contract_error := resolved.2 |}
       | _, _ => invalid
       end.

Definition canonical_linked_approval_authority
    (approval_request_id linked_request_id status resolution_action resolved_at
     policy_action decision_v2_json action_envelope_json : pyval) : result CanonicalLinkedApprovalAuthority :=
  let none := {| cla_policy_action := None; cla_action_envelope_json := None; cla_contract_error := None |} in
  if is_none approval_request_id then Ok none
  else if is_none linked_request_id then Ok none
  else if negb (py_eqb linked_request_id approval_request_id) then Ok (invalid_linked_approval_authority require_reapproval)
  else
    surfaces ← canonical_approval_surfaces policy_action (json_mapping_or_original decision_v2_json)
                 (json_mapping_or_original action_envelope_json) false ;
    let invalid_action :=
      most_restrictive_guard_action
        ([pyaction require_reapproval; pyaction (cas_policy_action surfaces)]
         ++ (if is_none resolution_action then [] else [resolution_action])) require_reapproval in
    if is_str status ($"pending") then Ok (pending_authority surfaces resolution_action resolved_at invalid_action)
    else if is_str status ($"resolved") then resolved_authority surfaces resolution_action resolved_at invalid_action
    else Ok (invalid_linked_approval_authority invalid_action).
End linked.

(** ** Lemmas *)

Lemma most_restrictive_max a l : most_restrictive (a :: l) = sev_max a l.
Proof.
  unfold most_restrictive. cbn [map]. rewrite most_restrictive_sev_max. unfold pyaction at 1. rewrite normalize_action.
  f_equal. rewrite <- list_fmap_compose. rewrite <- (list_fmap_id l) at 2. apply list_fmap_ext.
  intros ? x _. cbn. apply normalize_action.
Qed.
Lemma most_restrictive_ge l a : a ∈ l → GUARD_ACTION_SEVERITY a <= GUARD_ACTION_SEVERITY (most_restrictive l).
Proof.
  destruct l as [|b l]; intros Ha; [by apply elem_of_nil in Ha|]. rewrite most_restrictive_max.
  apply elem_of_cons in Ha as [->|Ha]; [exact (sev_max_ge b l) | exact (sev_max_ge_elem b l a Ha)].
Qed.
Lemma most_restrictive_fixed a l :
  (∀ b, b ∈ l → GUARD_ACTION_SEVERITY b <= GUARD_ACTION_SEVERITY a) → most_restrictive (a :: l) = a.
Proof.
  intros Hl. apply severity_inj, Z.le_antisymm; [|apply most_restrictive_ge; by left]. rewrite most_restrictive_max.
  refine (sev_max_least a l _ _ _); [done|]. by apply Forall_forall.
Qed.

Lemma normalized_action a : normalized (pyaction a) = {| gan_action := a; gan_reason_code := None;
  gan_original_action := Some (action_value a); gan_original_type := "str" |}.
Proof. by destruct a. Qed.
Lemma normalized_unknown v : recognized (normalized v) = false → gan_action (normalized v) = require_reapproval.
Proof. unfold normalized, normalize_with, recognized. repeat case_match; simplify_eq; done. Qed.

Lemma synchronize_cons k keys a e :
  synchronize (k :: keys) a e = synchronize keys a (if is_none (dict_get k e) then e else dict_set k (pyaction a) e).
Proof. done. Qed.

(** Fields after synchronization. *)
Lemma synchronize_get keys a e key :
  dict_get key (synchronize keys a e)
  = if py_in key keys && negb (is_none (dict_get key e)) then pyaction a else dict_get key e.
Proof.
  revert e. induction keys as [|k keys IH]; intros e; [done|]. rewrite synchronize_cons, IH. clear IH.
  assert (py_in key (k :: keys) = bool_decide (key = k) || py_in key keys) as ->.
  { apply eq_true_iff_eq. rewrite orb_true_iff, bool_decide_eq_true, !py_in_true. apply elem_of_cons. }
  destruct (is_none (dict_get k e)) eqn:En.
  - case_bool_decide as Hk; [subst; by rewrite En, !andb_false_r | done].
  - assert (dict_get key (dict_set k (pyaction a) e) = if decide (k = key) then pyaction a else dict_get key e) as ->.
    { unfold dict_get. rewrite dict_lookup_set. by case_decide. }
    case_decide as Hk; [subst; rewrite bool_decide_eq_true_2 by done | rewrite bool_decide_eq_false_2 by done]; [|done].
    rewrite En. cbn. by destruct (py_in _ _).
Qed.
Lemma synchronize_keys keys a e : dict_keys (synchronize keys a e) = dict_keys e.
Proof.
  revert e. induction keys as [|k keys IH]; intros e; [done|]. rewrite synchronize_cons, IH.
  destruct (is_none (dict_get k e)) eqn:En; [done|]. apply dict_keys_set_present, elem_of_dict_keys.
  unfold dict_get in En. by destruct (dict_lookup k e).
Qed.
Lemma dict_set_same {V} k (v : V) d : dict_lookup k d = Some v → dict_set k v d = d.
Proof. induction d as [|[k' v'] d IH]; [done|]. simpl. case_decide; [by intros [= ->]|]. intros Hl. by rewrite IH. Qed.
Lemma dict_get_present k d v : dict_get k d = v → v ≠ PNone → dict_lookup k d = Some v.
Proof. unfold dict_get. destruct (dict_lookup k d); simpl; intros <-; done. Qed.
Lemma synchronize_fixed keys a e :
  (∀ key, key ∈ keys → dict_get key e = PNone ∨ dict_get key e = pyaction a) → synchronize keys a e = e.
Proof.
  induction keys as [|k keys IH]; intros H; [done|]. rewrite synchronize_cons.
  destruct (H k) as [Hk|Hk]; [by left| |]; rewrite Hk; cbn [is_none pyaction].
  - apply IH. intros. apply H. by right.
  - rewrite dict_set_same by (by apply dict_get_present). apply IH. intros. apply H. by right.
Qed.

Lemma remove_keys_get keys e key :
  dict_get key (remove_keys keys e) = if decide (key ∈ keys) then PNone else dict_get key e.
Proof. unfold dict_get, remove_keys. rewrite dict_lookup_pops. by case_decide. Qed.
Lemma remove_unknown allowed e :
  unknown_action_bearing_fields (Some (remove_keys (unknown_action_bearing_fields (Some e) allowed) e)) allowed = [].
Proof.
  apply filter_none, Forall_forall. intros k Hk Hu. apply elem_of_dict_keys in Hk as [v Hv].
  unfold remove_keys in Hv. rewrite dict_lookup_pops in Hv. case_decide as Hin; [done|]. destruct Hin.
  apply list_elem_of_filter. split; [done|]. apply elem_of_dict_keys. eauto.
Qed.

Lemma present_actions_elem fields e n :
  n ∈ present_actions fields e ↔ ∃ field, field ∈ fields ∧ dict_get field e ≠ PNone ∧ n = normalized (dict_get field e).
Proof.
  unfold present_actions. rewrite list_elem_of_omap. split.
  - intros (f & Hf & Hn). cbv zeta in Hn. destruct (is_none (dict_get f e)) eqn:E; [done|]. injection Hn as <-.
    exists f. split_and!; [done| |done]. intros E'. by rewrite E' in E.
  - intros (f & Hf & Hv & ->). exists f. split; [done|]. cbv zeta. by destruct (dict_get f e).
Qed.

(** ** Receipts *)

Lemma final_fields_allowed key : key ∈ FINAL_ACTION_FIELDS → key ∈ BOUNDARY_ENVELOPE_ACTION_FIELDS.
Proof. intros Hk. assert (py_subset FINAL_ACTION_FIELDS BOUNDARY_ENVELOPE_ACTION_FIELDS = true) as H by done.
  rewrite py_subset_true in H. by apply H. Qed.

(** An allowed field is not removed. *)
Lemma receipt_envelope_get kv e key :
  receipt_envelope (Some kv) = Some e → key ∈ BOUNDARY_ENVELOPE_ACTION_FIELDS → dict_get key e = dict_get key kv.
Proof.
  intros [= <-] Hk. rewrite remove_keys_get, decide_False; [done|].
  intros [Hu _]%list_elem_of_filter. apply andb_true_iff in Hu as [_ Hu%negb_true_iff%py_in_false]. done.
Qed.

(** The projection is at least as severe as all the row records. *)
Lemma receipt_bounds p kv r :
  canonical_receipt_decision p (PDict kv) false = Ok r →
  GUARD_ACTION_SEVERITY (gan_action (normalized p)) <= GUARD_ACTION_SEVERITY (crd_policy_decision r)
  ∧ (∀ key, key ∈ FINAL_ACTION_FIELDS ++ unknown_action_bearing_fields (Some kv) BOUNDARY_ENVELOPE_ACTION_FIELDS →
       dict_get key kv ≠ PNone →
       GUARD_ACTION_SEVERITY (gan_action (normalized (dict_get key kv))) <= GUARD_ACTION_SEVERITY (crd_policy_decision r))
  ∧ (receipt_contradiction (gan_action (normalized p)) (Some kv) = true →
     GUARD_ACTION_SEVERITY require_reapproval <= GUARD_ACTION_SEVERITY (crd_policy_decision r)).
Proof.
  unfold canonical_receipt_decision. cbn [as_mapping is_none negb andb]. rewrite bool_decide_eq_false_2 by done.
  intros [_ Hr]%then_Ok. cbv zeta in Hr. destruct (receipt_contradiction _ _) eqn:Ec; injection Hr as <-; cbn [crd_policy_decision].
  - split; [apply most_restrictive_ge; by left|]. split; [|intros _; apply most_restrictive_ge; right; by left].
    intros key Hk Hv. apply most_restrictive_ge. do 2 right. unfold receipt_candidates. apply elem_of_app.
    apply elem_of_app in Hk as [Hk|Hk].
    + right. apply list_elem_of_fmap. exists (normalized (dict_get key kv)). split; [done|].
      unfold receipt_actions. destruct (receipt_envelope (Some kv)) as [e|] eqn:Ee; [|done]. apply present_actions_elem.
      exists key. rewrite (receipt_envelope_get kv e key) by (done || by apply final_fields_allowed). done.
    + left. unfold action_candidates. apply list_elem_of_fmap. eauto.
  - split; [done|]. split; [|done]. intros key Hk Hv. unfold receipt_contradiction in Ec.
    rewrite !orb_false_iff, negb_false_iff, bool_decide_eq_true in Ec. destruct Ec as (((_ & Hu) & Hf) & _).
    rewrite Hu, app_nil_r in Hk. rewrite existsb_false, Forall_forall in Hf.
    assert (gan_action (normalized (dict_get key kv)) = gan_action (normalized p)) as ->; [|done].
    specialize (Hf (normalized (dict_get key kv))). cbv beta in Hf.
    rewrite orb_false_iff, !negb_false_iff, bool_decide_eq_true in Hf. apply Hf.
    unfold receipt_actions. destruct (receipt_envelope (Some kv)) as [e|] eqn:Ee; [|done]. apply present_actions_elem.
    exists key. rewrite (receipt_envelope_get kv e key) by (done || by apply final_fields_allowed). done.
Qed.

Notation SYNC_FIELDS := [$"policy_action"; $"pre_execution_result"; $"policyAction"; $"preExecutionResult"] (only parsing).

Lemma dict_lookup_get k (d : pydict) : dict_lookup k d = if dict_has k d then Some (dict_get k d) else None.
Proof.
  unfold dict_has, dict_get. destruct (dict_lookup k d) as [v|] eqn:E.
  - rewrite (proj2 (py_in_true _ _)); [done|]. apply elem_of_dict_keys. eauto.
  - rewrite (proj2 (py_in_false _ _)); [done|]. by apply dict_lookup_None.
Qed.

(** The lookups of a synchronized envelope. *)
Lemma synced_lookup kv e a k :
  receipt_envelope (Some kv) = Some e → k ∈ BOUNDARY_ENVELOPE_ACTION_FIELDS →
  dict_lookup k (synchronize SYNC_FIELDS a e)
  = match dict_lookup k kv with
    | None => None
    | Some v => Some (if py_in k SYNC_FIELDS && negb (is_none v) then pyaction a else v)
    end.
Proof.
  intros He Hk. rewrite dict_lookup_get, synchronize_get. unfold dict_has. rewrite synchronize_keys.
  assert (dict_lookup k e = dict_lookup k kv) as Hl.
  { injection He as <-. unfold remove_keys. rewrite dict_lookup_pops, decide_False; [done|].
    intros [Hu _]%list_elem_of_filter. apply andb_true_iff in Hu as [_ Hu%negb_true_iff%py_in_false]. done. }
  rewrite (dict_lookup_get k e) in Hl. unfold dict_has in Hl. rewrite <- Hl. by case_match.
Qed.

(** No new conflict arises from synchronization. *)
Lemma synced_conflict kv e a alias :
  receipt_envelope (Some kv) = Some e → alias ∈ ENVELOPE_ALIASES →
  aliases_conflict (Some (synchronize SYNC_FIELDS a e)) alias.1 alias.2 = true →
  aliases_conflict (Some kv) alias.1 alias.2 = true.
Proof.
  intros He Ha. assert (alias.1 ∈ BOUNDARY_ENVELOPE_ACTION_FIELDS ∧ alias.2 ∈ BOUNDARY_ENVELOPE_ACTION_FIELDS
    ∧ py_in alias.1 SYNC_FIELDS = py_in alias.2 SYNC_FIELDS) as (H1 & H2 & Heq).
  { assert (forallb (λ x : pystr * pystr, py_in x.1 BOUNDARY_ENVELOPE_ACTION_FIELDS && py_in x.2 BOUNDARY_ENVELOPE_ACTION_FIELDS
      && Bool.eqb (py_in x.1 SYNC_FIELDS) (py_in x.2 SYNC_FIELDS)) ENVELOPE_ALIASES = true) as Hall by (vm_compute; reflexivity).
    rewrite forallb_Forall, Forall_forall in Hall. specialize (Hall alias Ha). cbv beta in Hall.
    rewrite !andb_true_iff, !py_in_true, Bool.eqb_true_iff in Hall. tauto. }
  unfold aliases_conflict. rewrite !(synced_lookup kv e a) by done. rewrite Heq.
  destruct (dict_lookup alias.1 kv) as [v|], (dict_lookup alias.2 kv) as [w|]; try done.
  destruct (py_in alias.2 SYNC_FIELDS); cbn [andb]; [|done].
  destruct (is_none v) eqn:Ev, (is_none w) eqn:Ew; cbn [negb].
  - apply is_none_true in Ev as ->. apply is_none_true in Ew as ->. done.
  - apply is_none_true in Ev as ->. by destruct w.
  - apply is_none_true in Ew as ->. by destruct v.
  - by rewrite (proj2 (py_eqb_action _ _) eq_refl).
Qed.

Lemma synced_final kv e a field :
  receipt_envelope (Some kv) = Some e → field ∈ FINAL_ACTION_FIELDS →
  dict_get field (synchronize SYNC_FIELDS a e) = PNone ∨ dict_get field (synchronize SYNC_FIELDS a e) = pyaction a.
Proof.
  intros He Hf. rewrite synchronize_get. destruct (is_none (dict_get field e)) eqn:En.
  - apply is_none_true in En. rewrite En. left. by rewrite andb_false_r.
  - right. assert (py_in field SYNC_FIELDS = true) as ->; [|done]. apply py_in_true. unfold FINAL_ACTION_FIELDS in Hf. set_solver.
Qed.

Lemma synced_unknown kv e a :
  receipt_envelope (Some kv) = Some e →
  unknown_action_bearing_fields (Some (synchronize SYNC_FIELDS a e)) BOUNDARY_ENVELOPE_ACTION_FIELDS = [].
Proof.
  intros [= <-]. unfold unknown_action_bearing_fields. rewrite synchronize_keys.
  apply (remove_unknown BOUNDARY_ENVELOPE_ACTION_FIELDS kv).
Qed.

(** A synchronized envelope contradicts its action only if it did before. *)
Lemma synced_contradiction kv e a p :
  receipt_envelope (Some kv) = Some e →
  receipt_contradiction a (Some (synchronize SYNC_FIELDS a e)) = true → receipt_contradiction p (Some kv) = true.
Proof.
  intros He. unfold receipt_contradiction. unfold receipt_actions at 1 2. unfold receipt_envelope at 1 2.
  rewrite (synced_unknown kv e a He). cbn [remove_keys foldl fmap option_fmap option_map].
  rewrite bool_decide_eq_true_2 by done. rewrite !orb_true_iff. intros [[[Hc|]|Hf]|Ho]; [|done|..].
  - left; left; left. apply existsb_Exists, Exists_exists in Hc as (alias & Ha & Hc).
    apply existsb_Exists, Exists_exists. exists alias. split; [done|]. by eapply synced_conflict.
  - exfalso. apply existsb_Exists, Exists_exists in Hf as (n & (field & Hfield & Hv & ->)%present_actions_elem & Hn).
    destruct (synced_final kv e a field He Hfield) as [E|E]; [done|]. rewrite E, normalized_action in Hn. cbn in Hn.
    by rewrite bool_decide_eq_true_2 in Hn.
  - right. apply existsb_Exists, Exists_exists in Ho as (n & (field & Hfield & Hv & ->)%present_actions_elem & Hn).
    apply existsb_Exists, Exists_exists. unfold receipt_actions. rewrite He.
    assert (py_in field SYNC_FIELDS = false) as Hno.
    { apply py_in_false. intros Hin. unfold OBSERVED_ACTION_FIELDS in Hfield. 
      repeat (apply elem_of_cons in Hfield as [->|Hfield]; [by repeat (apply elem_of_cons in Hin as [?|Hin]; [done|]); apply elem_of_nil in Hin|]).
      by apply elem_of_nil in Hfield. }
    rewrite synchronize_get, Hno in Hv, Hn. eexists. split; [|exact Hn]. apply present_actions_elem. eauto.
Qed.

Lemma sync_fields_final key : key ∈ SYNC_FIELDS → key ∈ FINAL_ACTION_FIELDS.
Proof.
  intros Hk. assert (py_subset SYNC_FIELDS FINAL_ACTION_FIELDS = true) as H by done.
  rewrite py_subset_true in H. by apply H.
Qed.

(** The receipt decision of an envelope. *)
Lemma receipt_decision_map p kv :
  canonical_receipt_decision p (PDict kv) false
  = let n := normalized p in
    let '(error, a) :=
      if receipt_contradiction (gan_action n) (Some kv) then
        (Some AUTHORITATIVE_DECISION_INCONSISTENT,
         most_restrictive (gan_action n :: require_reapproval :: receipt_candidates (Some kv)))
      else (if recognized n then None else Some AUTHORITATIVE_DECISION_INCONSISTENT, gan_action n) in
    Ok {| crd_policy_decision := a;
          crd_action_envelope_json := synchronize SYNC_FIELDS a <$> receipt_envelope (Some kv);
          crd_contract_error := error |}.
Proof. done. Qed.

Lemma receipt_map_inv p kv r e :
  canonical_receipt_decision p (PDict kv) false = Ok r → receipt_envelope (Some kv) = Some e →
  crd_action_envelope_json r = Some (synchronize SYNC_FIELDS (crd_policy_decision r) e)
  ∧ (crd_contract_error r = None →
     receipt_contradiction (gan_action (normalized p)) (Some kv) = false
     ∧ crd_policy_decision r = gan_action (normalized p)).
Proof.
  rewrite receipt_decision_map. cbv zeta. intros Hr He. rewrite He in Hr.
  destruct (receipt_contradiction _ _); by injection Hr as <-.
Qed.

Lemma receipt_stable_map kv e a :
  receipt_envelope (Some kv) = Some e →
  (receipt_contradiction a (Some (synchronize SYNC_FIELDS a e)) = true →
   GUARD_ACTION_SEVERITY require_reapproval <= GUARD_ACTION_SEVERITY a) →
  ∃ r, canonical_receipt_decision (pyaction a) (PDict (synchronize SYNC_FIELDS a e)) false = Ok r
       ∧ crd_policy_decision r = a ∧ crd_action_envelope_json r = Some (synchronize SYNC_FIELDS a e).
Proof.
  intros He Hc. set (env := synchronize SYNC_FIELDS a e) in *. rewrite receipt_decision_map, normalized_action.
  cbn [gan_action recognized gan_reason_code].
  assert (receipt_envelope (Some env) = Some env) as Henv.
  { unfold receipt_envelope. unfold env. by rewrite (synced_unknown kv e a He). }
  assert (synchronize SYNC_FIELDS a env = env) as Hsync.
  { apply synchronize_fixed. intros key Hk. by apply (synced_final kv e a key He), sync_fields_final. }
  assert (∀ b, b ∈ receipt_candidates (Some env) → b = a) as Hcand.
  { intros b. unfold receipt_candidates. unfold env at 1 2. rewrite (synced_unknown kv e a He). fold env. cbn [action_candidates map app].
    unfold receipt_actions. rewrite Henv. intros (n & -> & (field & Hf & Hv & ->)%present_actions_elem)%list_elem_of_fmap.
    destruct (synced_final kv e a field He Hf) as [E|E]; fold env in E; [done|]. by rewrite E, normalized_action. }
  cbv zeta. destruct (receipt_contradiction a (Some env)) eqn:Ec; cbv beta iota; (eexists; split; [apply eq_refl|]);
    cbn [crd_policy_decision crd_action_envelope_json].
  - rewrite most_restrictive_fixed.
    + rewrite Henv. cbn [fmap option_fmap option_map]. by rewrite Hsync.
    + intros b [->|Hb]%elem_of_cons; [by apply Hc|]. by rewrite (Hcand b Hb).
  - rewrite Henv. cbn [fmap option_fmap option_map]. by rewrite Hsync.
Qed.

(** What a projected receipt [r] makes of the recorded [policy]. *)
Record receipt_fails_closed (policy : pyval) (r : CanonicalReceiptDecision) : Prop := {
  receipt_covers_policy :
    GUARD_ACTION_SEVERITY (gan_action (normalized policy)) <= GUARD_ACTION_SEVERITY (crd_policy_decision r);
  receipt_error_reapproves :
    crd_contract_error r ≠ None → GUARD_ACTION_SEVERITY require_reapproval <= GUARD_ACTION_SEVERITY (crd_policy_decision r);
  receipt_exact :
    crd_contract_error r = None → gan_action (normalized policy) = crd_policy_decision r ∧ recognized (normalized policy) = true;
}.

(** What it makes of the envelope [kv], with [env] the one it writes. *)
Record receipt_covers (kv : pydict) (r : CanonicalReceiptDecision) (env : pydict) : Prop := {
  receipt_covers_fields :
    ∀ key, key ∈ FINAL_ACTION_FIELDS ++ unknown_action_bearing_fields (Some kv) BOUNDARY_ENVELOPE_ACTION_FIELDS →
      dict_get key kv ≠ PNone →
      GUARD_ACTION_SEVERITY (gan_action (normalized (dict_get key kv))) <= GUARD_ACTION_SEVERITY (crd_policy_decision r);
  receipt_agrees :
    crd_contract_error r = None →
    ∀ key, key ∈ FINAL_ACTION_FIELDS → dict_get key kv ≠ PNone → gan_action (normalized (dict_get key kv)) = crd_policy_decision r;
  receipt_writes :
    ∀ key, key ∈ FINAL_ACTION_FIELDS → dict_get key env = PNone ∨ dict_get key env = pyaction (crd_policy_decision r);
  receipt_hides_nothing : unknown_action_bearing_fields (Some env) BOUNDARY_ENVELOPE_ACTION_FIELDS = [];
}.

Lemma receipt_map_sound policy kv :
  ∃ r env, canonical_receipt_decision policy (PDict kv) false = Ok r ∧ crd_action_envelope_json r = Some env
    ∧ receipt_fails_closed policy r ∧ receipt_covers kv r env
    ∧ ∃ r', canonical_receipt_decision (pyaction (crd_policy_decision r)) (PDict env) false = Ok r'
            ∧ crd_policy_decision r' = crd_policy_decision r ∧ crd_action_envelope_json r' = Some env.
Proof.
  destruct (canonical_receipt_decision policy (PDict kv) false) as [r|] eqn:Hr.
  2:{ rewrite receipt_decision_map in Hr. cbv zeta in Hr. by case_match. }
  destruct (receipt_envelope (Some kv)) as [e|] eqn:He; [|done].
  destruct (receipt_bounds policy kv r Hr) as (Hn & Hall & Hcon).
  exists r, (synchronize SYNC_FIELDS (crd_policy_decision r) e).
  destruct (receipt_map_inv policy kv r e Hr He) as [Henv _].
  split; [done|]. split; [done|]. split; [split; [done|..]|split; [split; [done|..]|]].
  - intros Herr. rewrite receipt_decision_map in Hr. cbv zeta in Hr.
    destruct (receipt_contradiction _ _); [by apply Hcon|]. injection Hr as <-. cbn in *.
    destruct (recognized (normalized policy)) eqn:Erec; [done|]. by rewrite (normalized_unknown _ Erec).
  - intros Herr. rewrite receipt_decision_map in Hr. cbv zeta in Hr.
    destruct (receipt_contradiction _ _) eqn:Ec; injection Hr as <-; cbn in Herr; [done|]. cbn [crd_policy_decision] in *.
    by destruct (recognized (normalized policy)) eqn:Erec.
  - intros Herr. rewrite receipt_decision_map in Hr. cbv zeta in Hr.
    destruct (receipt_contradiction _ _) eqn:Ec; injection Hr as <-; cbn in Herr; [done|]. cbn [crd_policy_decision] in *.
    intros key Hk Hv. unfold receipt_contradiction in Ec. rewrite !orb_false_iff in Ec. destruct Ec as ((_ & Hf) & _).
    rewrite existsb_false, Forall_forall in Hf. specialize (Hf (normalized (dict_get key kv))). cbv beta in Hf.
    rewrite orb_false_iff, !negb_false_iff, bool_decide_eq_true in Hf. apply Hf.
    unfold receipt_actions. rewrite He. apply present_actions_elem. exists key.
    rewrite (receipt_envelope_get kv e key) by (done || by apply final_fields_allowed). done.
  - intros key Hk. by apply (synced_final kv).
  - by apply (synced_unknown kv).
  - apply (receipt_stable_map kv); [done|]. intros Hc. by eapply Hcon, synced_contradiction.
Qed.

(** Without an envelope the recorded action stands, if it is one; something
    else in its place is an error. *)
Lemma receipt_without_envelope policy json :
  as_mapping json = None →
  ∃ r, canonical_receipt_decision policy json false = Ok r ∧ crd_action_envelope_json r = None
    ∧ receipt_fails_closed policy r
    ∧ (crd_contract_error r = None ↔ is_none json = true ∧ recognized (normalized policy) = true).
Proof.
  intros Hj. unfold canonical_receipt_decision. rewrite Hj. rewrite bool_decide_eq_true_2 by done. rewrite andb_true_r.
  assert (∀ a, receipt_contradiction a None = false) as Hc by done. rewrite Hc.
  destruct (is_none json) eqn:Hn; cbn [negb andb orb raise_if mbind result_bind receipt_envelope fmap option_fmap option_map];
    (eexists; split; [reflexivity|]; split; [reflexivity|]); cbn [crd_policy_decision crd_contract_error].
  - split; [|by destruct (recognized (normalized policy)); naive_solver].
    destruct (recognized (normalized policy)) eqn:Erec; [by split|]. split; [done| |done].
    intros _. by rewrite (normalized_unknown _ Erec).
  - split; [|naive_solver]. split; [|intros _|done]; apply most_restrictive_ge; [left|right; left].
Qed.

(** C28: The projection of a stored receipt, whatever its policy decision and
    envelope are, always returns and fails closed: the action is at least as
    severe as the receipt's policy decision and, with a contract error, at least a
    reapproval; without one it is exactly the recorded action, which is a known
    one.  An envelope that is absent leaves only an unknown action as an error,
    and one that is present but no object is an error; neither leaves an
    envelope.  With an envelope that is an object, the action is also at least as
    severe as every final-action field and every field that could
    conceal an action; without a contract error every recorded final action is that
    action; in the envelope it writes every final-action field that is present
    holds the action and no other action-bearing field is left; and projecting
    the result again changes nothing. *)
Theorem receipt_projection_sound policy json :
  ∃ r, canonical_receipt_decision policy json false = Ok r ∧ receipt_fails_closed policy r
    ∧ match json with
      | PDict kv => ∃ env, crd_action_envelope_json r = Some env ∧ receipt_covers kv r env
          ∧ ∃ r', canonical_receipt_decision (pyaction (crd_policy_decision r)) (PDict env) false = Ok r'
                  ∧ crd_policy_decision r' = crd_policy_decision r ∧ crd_action_envelope_json r' = Some env
      | _ => crd_action_envelope_json r = None
          ∧ (crd_contract_error r = None ↔ json = PNone ∧ recognized (normalized policy) = true)
      end.
Proof.
  destruct json as [| | | | |kv|].
  6:{ destruct (receipt_map_sound policy kv) as (r & env & ? & ? & ? & ? & ?). exists r. split; [done|]. split; [done|]. by exists env. }
  all: match goal with |- context [canonical_receipt_decision _ ?j _] =>
    destruct (receipt_without_envelope policy j eq_refl) as (r & ? & ? & ? & Herr) end.
  all: exists r; split; [done|]; split; [done|]; split; [done|]; rewrite Herr; cbn [is_none]; naive_solver.
Qed.

(** ** Approval surfaces and linked approvals *)

Lemma allow_least a : GUARD_ACTION_SEVERITY a <= GUARD_ACTION_SEVERITY allow → a = allow.
Proof. by destruct a. Qed.
Lemma most_restrictive_allow l a : most_restrictive l = allow → a ∈ l → a = allow.
Proof. intros Hm Ha. apply allow_least. rewrite <- Hm. by apply most_restrictive_ge. Qed.

(** An approval decision never falls below the recorded action, and is [allow]
    only without a contract error. *)
Lemma approval_bounds p d r :
  canonical_approval_decision p d false = Ok r →
  GUARD_ACTION_SEVERITY (gan_action (normalized p)) <= GUARD_ACTION_SEVERITY (cad_policy_action r)
  ∧ (cad_policy_action r = allow → cad_contract_error r = None).
Proof.
  unfold canonical_approval_decision. cbn [andb raise_if]. cbv zeta. intros [_ Hr]%then_Ok.
  set (n := normalized p) in *. set (raw := as_mapping d) in *.
  set (guard := if is_none (get_or_none ($"guard_action") raw) then None else Some (normalized (get_or_none ($"guard_action") raw))) in *.
  set (product := get_or_none ($"action") raw) in *.
  destruct (_ || negb (bool_decide (unknown_action_bearing_fields _ _ = []))) in Hr.
  { injection Hr as <-. cbn [cad_policy_action]. split; [apply most_restrictive_ge; by left|]. intros Ha.
    assert (require_reapproval = allow) by (eapply most_restrictive_allow; [exact Ha|]; right; by left). done. }
  destruct (_ || _) eqn:Ec in Hr; injection Hr as <-; cbn [cad_policy_action cad_contract_error].
  2:{ split; [done|]. intros Ha. destruct (recognized n) eqn:En; [done|]. subst n.
      by rewrite (normalized_unknown _ En) in Ha. }
  split; [apply most_restrictive_ge; by left|]. intros Ha. exfalso.
  assert (gan_action n = allow) as Hn by (eapply most_restrictive_allow; [exact Ha|]; by left). rewrite Hn in Ec.
  apply orb_true_iff in Ec as [Ec|Ec].
  - destruct guard as [g|]; [|done]. apply andb_true_iff in Ec as [Hrec Hne]. rewrite Hrec in Ha.
    apply negb_true_iff, bool_decide_eq_false in Hne. destruct Hne.
    eapply most_restrictive_allow; [exact Ha|]. right; by left.
  - assert (policy_floor_for_product_action product = allow) as Hf.
    { eapply most_restrictive_allow; [exact Ha|]. do 2 right. by left. }
    apply andb_true_iff in Ec as [Hk Hne]. unfold policy_floor_for_product_action in Hf.
    destruct (is_str product ($"allow")) eqn:E1; [|by repeat case_match]. apply is_str_true in E1. rewrite E1 in Hne. done.
Qed.

Lemma receipt_error p v r :
  canonical_receipt_decision p v false = Ok r →
  GUARD_ACTION_SEVERITY (gan_action (normalized p)) <= GUARD_ACTION_SEVERITY (crd_policy_decision r)
  ∧ (crd_policy_decision r = allow → crd_contract_error r = None).
Proof.
  unfold canonical_receipt_decision. cbn [andb raise_if]. cbv zeta. intros [_ Hr]%then_Ok.
  destruct (_ && _) in Hr; [|destruct (receipt_contradiction _ _) in Hr]; injection Hr as <-; cbn [crd_policy_decision crd_contract_error].
  - split; [apply most_restrictive_ge; by left|]. intros Ha.
    assert (require_reapproval = allow) by (eapply most_restrictive_allow; [exact Ha|]; right; by left). done.
  - split; [apply most_restrictive_ge; by left|]. intros Ha.
    assert (require_reapproval = allow) by (eapply most_restrictive_allow; [exact Ha|]; right; by left). done.
  - split; [done|]. intros Ha. destruct (recognized (normalized p)) eqn:En; [done|]. by rewrite (normalized_unknown _ En) in Ha.
Qed.

Lemma receipt_total p v : ∃ r, canonical_receipt_decision p v false = Ok r.
Proof.
  unfold canonical_receipt_decision. cbv zeta. cbn [andb raise_if mbind result_bind].
  destruct (_ && _); [|destruct (receipt_contradiction _ _)]; cbv beta iota; eexists; apply eq_refl.
Qed.

(** A consistent receipt stays consistent. *)
Lemma receipt_clean p v r a r' :
  canonical_receipt_decision p v false = Ok r → crd_contract_error r = None → crd_policy_decision r = a →
  canonical_receipt_decision (pyaction a) (pymapping_opt (crd_action_envelope_json r)) false = Ok r' →
  crd_contract_error r' = None.
Proof.
  intros Hr Herr <- Hr'. destruct v as [| | | | |kv|]; try (injection Hr as <-; done).
  - injection Hr as <-. cbn [crd_action_envelope_json crd_policy_decision pymapping_opt] in Hr'.
    revert Hr'. generalize (gan_action (normalized p)). intros a Hr'. destruct a; by injection Hr' as <-.
  - destruct (receipt_envelope (Some kv)) as [e|] eqn:He; [|done].
    destruct (receipt_map_inv p kv r e Hr He) as [Henv Hclean]. destruct (Hclean Herr) as [Ec _].
    rewrite Henv in Hr'. cbn [pymapping_opt] in Hr'. revert Hr' Ec. generalize (crd_policy_decision r). intros a Hr' Ec.
    rewrite receipt_decision_map, normalized_action in Hr'. cbn [gan_action] in Hr'. cbv zeta in Hr'.
    destruct (receipt_contradiction a _) eqn:Ec' in Hr'.
    + apply (synced_contradiction _ _ _ (gan_action (normalized p)) He) in Ec'. congruence.
    + cbn [recognized gan_reason_code] in Hr'. apply (inj Ok) in Hr' as <-. reflexivity.
Qed.

Lemma surfaces_allow p d e s :
  canonical_approval_surfaces p d e false = Ok s → cas_policy_action s = allow →
  cas_contract_error s = None ∧ gan_action (normalized p) = allow.
Proof.
  unfold canonical_approval_surfaces.
  intros (r1 & H1 & (r2 & H2 & (r3 & H3 & (r4 & H4 & [= <-])%bind_Ok)%bind_Ok)%bind_Ok)%bind_Ok. cbn [cas_policy_action cas_contract_error].
  intros Ha. destruct (approval_bounds _ _ _ H1) as [B1 E1], (receipt_error _ _ _ H2) as [B2 E2], (approval_bounds _ _ _ H3) as [B3 E3].
  rewrite normalized_action in B2, B3. cbn [gan_action] in B2, B3.
  rewrite Ha in B3. apply allow_least in B3. rewrite B3 in B2. apply allow_least in B2. rewrite B2 in B1. apply allow_least in B1.
  rewrite Ha in H4. assert (crd_contract_error r4 = None) as E4 by exact (receipt_clean _ _ _ _ _ H2 (E2 B3) B3 H4).
  by rewrite E1, E2, E3, E4 by done.
Qed.

Section linked_properties.
Variable float_of : pystr → pyval.

(** The envelope of a resolved approval is always computed. *)
Lemma resolved_envelope_total a v : ∃ res, resolved_approval_envelope float_of a v = Ok res.
Proof.
  unfold resolved_approval_envelope. destruct (json_mapping_or_original float_of v) as [| | | | |kv|]; eauto.
  destruct (foldl _ (kv, None) _) as [e1 err1]. destruct (foldl _ (e1, err1) _) as [e2 err2].
  destruct (receipt_total (pyaction a) (PDict (foldl (λ e key, if dict_has key e then dict_set key (pyaction a) e else e)
    e2 FINAL_ACTION_FIELDS))) as [c ->]. eexists. apply eq_refl.
Qed.

(** What it takes for a pending, and for a resolved request to grant [allow]. *)
Definition pending_grants (resolution resolved_at : pyval) (s : CanonicalApprovalSurfaces) : Prop :=
  resolution = PNone ∧ resolved_at = PNone ∧ cas_policy_action s = allow ∧ cas_contract_error s = None.
Definition resolved_grants (resolution resolved_at : pyval) (s : CanonicalApprovalSurfaces) : Prop :=
  resolution = PStr ($"allow") ∧ (∃ t, resolved_at = PStr t ∧ nonblank t) ∧ cas_contract_error s = None
  ∧ cas_policy_action s ∉ [block; sandbox_required].

Lemma pending_allow s resolution resolved_at invalid :
  invalid ≠ allow → (cas_policy_action s = allow → cas_contract_error s = None) →
  cla_policy_action (pending_authority s resolution resolved_at invalid) = Some allow
  ↔ pending_grants resolution resolved_at s.
Proof.
  intros Hinv Hs. unfold pending_authority, pending_grants. destruct resolution, resolved_at; cbn; split; intros H;
    try solve [destruct H as (? & ? & _); done | by injection H].
  - injection H as H. auto.
  - destruct H as (_ & _ & -> & _). done.
Qed.

Lemma resolved_allow s resolution resolved_at invalid r :
  invalid ≠ allow → resolved_authority float_of s resolution resolved_at invalid = Ok r →
  cla_policy_action r = Some allow ↔ resolved_grants resolution resolved_at s.
Proof.
  intros Hinv. unfold resolved_authority, resolved_grants. cbv zeta.
  assert (∀ P : Prop, ¬ P → Ok (invalid_linked_approval_authority invalid) = Ok r → cla_policy_action r = Some allow ↔ P) as Hno.
  { intros P HP <-%(inj Ok). cbn. split; [by intros [= ?] | done]. }
  case_bool_decide as E6; [apply Hno; intros (_ & _ & E & _); rewrite E in E6; by destruct E6|]. apply eq_None_not_Some in E6.
  destruct (py_in (cas_policy_action s) _) eqn:E7; [apply py_in_true in E7; apply Hno; tauto|]. apply py_in_false in E7.
  destruct (is_str resolution ($"allow")) eqn:E8.
  - apply is_str_true in E8 as ->. destruct resolved_at as [| | |t| | |]; try (apply Hno; naive_solver).
    case_decide as E9; [apply Hno; unfold nonblank; naive_solver|].
    destruct (resolved_envelope_total allow (pymapping_opt (cas_action_envelope_json s))) as [res ->].
    intros <-%(inj Ok). cbn. split; [|done]. intros _. split_and!; eauto.
  - assert (resolution ≠ PStr ($"allow")) as Hna by (by intros ->; rewrite (proj2 (is_str_true _ _) eq_refl) in E8).
    destruct (is_str resolution ($"block")); [|apply Hno; tauto].
    destruct resolved_at as [| | |t| | |]; try (apply Hno; tauto). case_decide as E9; [apply Hno; tauto|].
    destruct (resolved_envelope_total block (pymapping_opt (cas_action_envelope_json s))) as [res ->].
    intros <-%(inj Ok). cbn. split; [done | tauto].
Qed.

Lemma invalid_action_strict l : most_restrictive_guard_action (pyaction require_reapproval :: l) require_reapproval ≠ allow.
Proof.
  intros Hi. assert (sev (normalize_guard_action (pyaction require_reapproval) require_reapproval)
    ≤ sev (most_restrictive_guard_action (pyaction require_reapproval :: l) require_reapproval)) as Hle.
  { rewrite most_restrictive_sev_max. apply sev_max_ge. }
  rewrite Hi in Hle. change (3 <= 0) in Hle. lia.
Qed.

(** C20: A linked approval request grants [allow] to a receipt in exactly two
    cases: the request is pending, without any trace of a resolution, and all
    its recorded surfaces agree on [allow]; or it was resolved with [allow] at
    a recorded time, its surfaces agree with each other, and they ask neither
    for a block nor for a sandbox.  In particular a resolution never revives a
    request that was blocked or confined, an inconsistent row never grants
    [allow], and a request of another id never does. *)
Theorem linked_allow_exactly approval linked status resolution resolved_at policy v2 envelope s r :
  canonical_approval_surfaces policy (json_mapping_or_original float_of v2)
    (json_mapping_or_original float_of envelope) false = Ok s →
  canonical_linked_approval_authority float_of approval linked status resolution resolved_at policy v2 envelope = Ok r →
  (cla_policy_action r = Some allow
   ↔ approval ≠ PNone ∧ linked ≠ PNone ∧ py_eqb linked approval = true
     ∧ (status = PStr ($"pending") ∧ pending_grants resolution resolved_at s
        ∨ status = PStr ($"resolved") ∧ resolved_grants resolution resolved_at s)).
Proof.
  intros Hs. unfold canonical_linked_approval_authority. rewrite Hs. cbn [mbind result_bind].
  destruct (is_none approval) eqn:E1; [apply is_none_true in E1 as ->; intros <-%(inj Ok); cbn; naive_solver|].
  destruct (is_none linked) eqn:E2; [apply is_none_true in E2 as ->; intros <-%(inj Ok); cbn; naive_solver|].
  assert (approval ≠ PNone) by (by intros ->). assert (linked ≠ PNone) by (by intros ->).
  destruct (py_eqb linked approval) eqn:E3; cbn [negb]; [|intros <-%(inj Ok); cbn; naive_solver]. cbv zeta. cbn [app].
  set (invalid := most_restrictive_guard_action _ _). assert (invalid ≠ allow) as Hinv by apply invalid_action_strict.
  clearbody invalid. pose proof (surfaces_allow _ _ _ _ Hs) as Hsa.
  destruct (is_str status ($"pending")) eqn:E4.
  { apply is_str_true in E4 as ->. intros <-%(inj Ok). rewrite pending_allow by naive_solver. naive_solver. }
  destruct (is_str status ($"resolved")) eqn:E5.
  { apply is_str_true in E5 as ->. intros Hr%resolved_allow; [|done]. naive_solver. }
  intros <-%(inj Ok). cbn. split; [by intros [= ?]|].
  intros (_ & _ & _ & [(-> & _)|(-> & _)]); [by rewrite (proj2 (is_str_true _ _) eq_refl) in E4 | by rewrite (proj2 (is_str_true _ _) eq_refl) in E5].
Qed.
End linked_properties.

(** A reviewed request, stored as JSON text, resolved with [allow]. *)
Notation sample_v2 :=
  (PStr ([123; 34] ++ $"guard_action" ++ [34; 58; 34] ++ $"review" ++ [34; 44; 34] ++ $"action" ++ [34; 58; 34]
         ++ $"ask" ++ [34; 125])) (only parsing).
Notation sample_linked :=
  (canonical_linked_approval_authority (λ _, PNone) (PStr ($"r1")) (PStr ($"r1")) (PStr ($"resolved"))
     (PStr ($"allow")) (PStr ($"2026-01-01")) (PStr ($"review")) sample_v2
     (PDict [($"policy_action", PStr ($"review"))])) (only parsing).

Lemma linked_allow_exactly_witness :
  ∃ r, sample_linked = Ok r ∧ cla_policy_action r = Some allow.
Proof.
  eexists. split; [vm_compute; reflexivity|].
  eapply (λ H1 H2, proj2 (linked_allow_exactly (λ _, PNone) (PStr ($"r1")) (PStr ($"r1")) (PStr ($"resolved"))
     (PStr ($"allow")) (PStr ($"2026-01-01")) (PStr ($"review")) sample_v2
     (PDict [($"policy_action", PStr ($"review"))]) _ _ H1 H2)); [vm_compute; reflexivity..|].
  split; [done|]. split; [done|]. split; [vm_compute; reflexivity|]. right. split; [done|].
  split; [done|]. split; [eexists; split; [reflexivity|]; apply nonblank_dec; vm_compute; reflexivity|].
  split; [vm_compute; reflexivity|]. apply (bool_decide_unpack _). vm_compute. exact I.
Defined.

(** Adding an unknown action field to a stored decision can lower its
    projection: a row whose policy action is [review] and whose product
    decision records [block] is projected to [block], but the same row with one
    more action-bearing field, even one that says [allow], is projected to
    [require-reapproval], because the branch for unknown fields leaves out the
    recorded guard action and product action. *)
Theorem unknown_field_weakens_block :
  let row := [($"guard_action", PStr ($"block")); ($"action", PStr ($"block"))] in
  (∃ r, canonical_approval_decision (PStr ($"review")) (PDict row) false = Ok r ∧ cad_policy_action r = block)
  ∧ ∀ v, gan_action (normalized v) ∈ [allow; warn; review; require_reapproval] →
      ∃ r, canonical_approval_decision (PStr ($"review")) (PDict (row ++ [($"hidden_action", v)])) false = Ok r
           ∧ cad_policy_action r = require_reapproval.
Proof.
  split; [eexists; split; vm_compute; reflexivity|]. intros v Hv.
  eexists. split; [apply eq_refl|].
  change (most_restrictive [review; require_reapproval; gan_action (normalized v)] = require_reapproval).
  repeat (apply elem_of_cons in Hv as [->|Hv]; [done|]). by apply elem_of_nil in Hv.
Qed.

Lemma unknown_field_weakens_block_witness :
  ∃ r, canonical_approval_decision (PStr ($"review"))
         (PDict [($"guard_action", PStr ($"block")); ($"action", PStr ($"block")); ($"hidden_action", PStr ($"allow"))]) false
       = Ok r ∧ cad_policy_action r = require_reapproval.
Proof.
  apply (proj2 unknown_field_weakens_block (PStr ($"allow"))). apply (bool_decide_unpack _). vm_compute. exact I.
Defined.

End Boundary.
