(* ===== verification/EffectContract.v ===== *)
(** * Effect contract

    Models [guard/runtime/effect_contract.py]: the vocabulary of command
    effects, the decision basis that ties a permissive floor to a proof route,
    uncertainty floors, the truthful protection and activity states, and the
    classification of boundary versions.  A dataclass is a record; its
    [__post_init__] is the smart constructor [make_...] that returns the record
    or raises.  Guards that only re-check an argument's static type are
    discharged by the typing of the model; a [frozenset] is a list used as a
    set. *)

From S2P Require Import Prelude PyStr Sha256 PyVal ActionLattice.
Local Open Scope Z_scope.
Local Open Scope py_scope.

Definition EFFECT_CONTRACT_SCHEMA_VERSION : pystr := $"1.0.0".

(** ** Vocabulary *)

Inductive EffectKind :=
  | WORKSPACE_OR_PUBLIC_READ | SENSITIVE_READ | WORKSPACE_WRITE | EXTERNAL_FILESYSTEM_WRITE
  | PROCESS_EXECUTION | NETWORK_READ | NETWORK_WRITE | REMOTE_STATE_READ | REMOTE_STATE_MUTATION
  | PERMISSION_OR_ACCESS_CHANGE | CREDENTIAL_OR_SECRET_OPERATION | SYSTEM_OR_PRIVILEGE_OPERATION
  | PACKAGE_OR_SOURCE_INSTALLATION | DESTRUCTIVE_OR_IRREVERSIBLE_OPERATION
  | GUARD_CONTROL_OPERATION.
Global Instance EffectKind_eq_dec : EqDecision EffectKind.
Proof. solve_decision. Defined.

Definition EffectKind_value (k : EffectKind) : pystr :=
  match k with
  | WORKSPACE_OR_PUBLIC_READ => $"workspace-or-public-read"
  | SENSITIVE_READ => $"sensitive-read"
  | WORKSPACE_WRITE => $"workspace-write"
  | EXTERNAL_FILESYSTEM_WRITE => $"external-filesystem-write"
  | PROCESS_EXECUTION => $"process-execution"
  | NETWORK_READ => $"network-read"
  | NETWORK_WRITE => $"network-write"
  | REMOTE_STATE_READ => $"remote-state-read"
  | REMOTE_STATE_MUTATION => $"remote-state-mutation"
  | PERMISSION_OR_ACCESS_CHANGE => $"permission-or-access-change"
  | CREDENTIAL_OR_SECRET_OPERATION => $"credential-or-secret-operation"
  | SYSTEM_OR_PRIVILEGE_OPERATION => $"system-or-privilege-operation"
  | PACKAGE_OR_SOURCE_INSTALLATION => $"package-or-source-installation"
  | DESTRUCTIVE_OR_IRREVERSIBLE_OPERATION => $"destructive-or-irreversible-operation"
  | GUARD_CONTROL_OPERATION => $"guard-control-operation"
  end.
Global Instance EffectKind_enum : PyEnum EffectKind.
Proof.
  refine {| enum_value := EffectKind_value;
    enum_members := [WORKSPACE_OR_PUBLIC_READ; SENSITIVE_READ; WORKSPACE_WRITE;
      EXTERNAL_FILESYSTEM_WRITE; PROCESS_EXECUTION; NETWORK_READ; NETWORK_WRITE;
      REMOTE_STATE_READ; REMOTE_STATE_MUTATION; PERMISSION_OR_ACCESS_CHANGE;
      CREDENTIAL_OR_SECRET_OPERATION; SYSTEM_OR_PRIVILEGE_OPERATION;
      PACKAGE_OR_SOURCE_INSTALLATION; DESTRUCTIVE_OR_IRREVERSIBLE_OPERATION;
      GUARD_CONTROL_OPERATION] |}; solve_enum.
Defined.

Inductive EffectTargetScope :=
  | Scope_PUBLIC_RESOURCE | Scope_WORKSPACE | Scope_SENSITIVE_LOCAL | Scope_EXTERNAL_LOCAL
  | Scope_NETWORK_ENDPOINT | Scope_REMOTE_RESOURCE | Scope_SYSTEM | Scope_GUARD | Scope_UNKNOWN.
Global Instance EffectTargetScope_eq_dec : EqDecision EffectTargetScope.
Proof. solve_decision. Defined.

Definition EffectTargetScope_value (k : EffectTargetScope) : pystr :=
  match k with
  | Scope_PUBLIC_RESOURCE => $"public-resource"
  | Scope_WORKSPACE => $"workspace"
  | Scope_SENSITIVE_LOCAL => $"sensitive-local"
  | Scope_EXTERNAL_LOCAL => $"external-local"
  | Scope_NETWORK_ENDPOINT => $"network-endpoint"
  | Scope_REMOTE_RESOURCE => $"remote-resource"
  | Scope_SYSTEM => $"system"
  | Scope_GUARD => $"guard"
  | Scope_UNKNOWN => $"unknown"
  end.
Global Instance EffectTargetScope_enum : PyEnum EffectTargetScope.
Proof.
  refine {| enum_value := EffectTargetScope_value;
    enum_members := [Scope_PUBLIC_RESOURCE; Scope_WORKSPACE; Scope_SENSITIVE_LOCAL;
      Scope_EXTERNAL_LOCAL; Scope_NETWORK_ENDPOINT; Scope_REMOTE_RESOURCE; Scope_SYSTEM;
      Scope_GUARD; Scope_UNKNOWN] |}; solve_enum.
Defined.

Inductive EffectReversibility :=
  | REVERSIBLE | TRIVIALLY_RECOVERABLE | RECOVERABLE_WITH_REVIEW | IRREVERSIBLE
  | Reversibility_UNKNOWN.
Global Instance EffectReversibility_eq_dec : EqDecision EffectReversibility.
Proof. solve_decision. Defined.

Definition EffectReversibility_value (k : EffectReversibility) : pystr :=
  match k with
  | REVERSIBLE => $"reversible"
  | TRIVIALLY_RECOVERABLE => $"trivially-recoverable"
  | RECOVERABLE_WITH_REVIEW => $"recoverable-with-review"
  | IRREVERSIBLE => $"irreversible"
  | Reversibility_UNKNOWN => $"unknown"
  end.
Global Instance EffectReversibility_enum : PyEnum EffectReversibility.
Proof.
  refine {| enum_value := EffectReversibility_value;
    enum_members := [REVERSIBLE; TRIVIALLY_RECOVERABLE; RECOVERABLE_WITH_REVIEW; IRREVERSIBLE;
      Reversibility_UNKNOWN] |}; solve_enum.
Defined.

Inductive EffectBlastRadius :=
  | Radius_SINGLE_RESOURCE | Radius_WORKSPACE | Radius_MULTIPLE_RESOURCES | Radius_SYSTEM_WIDE
  | Radius_CATASTROPHIC | Radius_UNKNOWN.
Global Instance EffectBlastRadius_eq_dec : EqDecision EffectBlastRadius.
Proof. solve_decision. Defined.

Definition EffectBlastRadius_value (k : EffectBlastRadius) : pystr :=
  match k with
  | Radius_SINGLE_RESOURCE => $"single-resource"
  | Radius_WORKSPACE => $"workspace"
  | Radius_MULTIPLE_RESOURCES => $"multiple-resources"
  | Radius_SYSTEM_WIDE => $"system-wide"
  | Radius_CATASTROPHIC => $"catastrophic"
  | Radius_UNKNOWN => $"unknown"
  end.
Global Instance EffectBlastRadius_enum : PyEnum EffectBlastRadius.
Proof.
  refine {| enum_value := EffectBlastRadius_value;
    enum_members := [Radius_SINGLE_RESOURCE; Radius_WORKSPACE; Radius_MULTIPLE_RESOURCES;
      Radius_SYSTEM_WIDE; Radius_CATASTROPHIC; Radius_UNKNOWN] |}; solve_enum.
Defined.

Inductive EffectEvidenceSource :=
  | Source_PARSER | Source_EXTENSION | Source_LAUNCH_IDENTITY | Source_MANIFEST | Source_LOCKFILE
  | Source_CONFIGURATION | Source_POLICY | Source_CONTAINMENT | Source_CAPABILITY
  | Source_RUNTIME.
Global Instance EffectEvidenceSource_eq_dec : EqDecision EffectEvidenceSource.
Proof. solve_decision. Defined.

Definition EffectEvidenceSource_value (k : EffectEvidenceSource) : pystr :=
  match k with
  | Source_PARSER => $"parser"
  | Source_EXTENSION => $"extension"
  | Source_LAUNCH_IDENTITY => $"launch-identity"
  | Source_MANIFEST => $"manifest"
  | Source_LOCKFILE => $"lockfile"
  | Source_CONFIGURATION => $"configuration"
  | Source_POLICY => $"policy"
  | Source_CONTAINMENT => $"containment"
  | Source_CAPABILITY => $"capability"
  | Source_RUNTIME => $"runtime"
  end.
Global Instance EffectEvidenceSource_enum : PyEnum EffectEvidenceSource.
Proof.
  refine {| enum_value := EffectEvidenceSource_value;
    enum_members := [Source_PARSER; Source_EXTENSION; Source_LAUNCH_IDENTITY; Source_MANIFEST;
      Source_LOCKFILE; Source_CONFIGURATION; Source_POLICY; Source_CONTAINMENT;
      Source_CAPABILITY; Source_RUNTIME] |}; solve_enum.
Defined.

Inductive EffectConfidence :=
  | Confidence_EXACT | Confidence_STRONG | Confidence_PARTIAL | Confidence_DYNAMIC
  | Confidence_UNKNOWN.
Global Instance EffectConfidence_eq_dec : EqDecision EffectConfidence.
Proof. solve_decision. Defined.

Definition EffectConfidence_value (k : EffectConfidence) : pystr :=
  match k with
  | Confidence_EXACT => $"exact"
  | Confidence_STRONG => $"strong"
  | Confidence_PARTIAL => $"partial"
  | Confidence_DYNAMIC => $"dynamic"
  | Confidence_UNKNOWN => $"unknown"
  end.
Global Instance EffectConfidence_enum : PyEnum EffectConfidence.
Proof.
  refine {| enum_value := EffectConfidence_value;
    enum_members := [Confidence_EXACT; Confidence_STRONG; Confidence_PARTIAL; Confidence_DYNAMIC;
      Confidence_UNKNOWN] |}; solve_enum.
Defined.

Inductive ContainmentRequirement :=
  | Containment_NONE | Containment_ELIGIBLE | Containment_REQUIRED | Containment_NOT_ELIGIBLE.
Global Instance ContainmentRequirement_eq_dec : EqDecision ContainmentRequirement.
Proof. solve_decision. Defined.

Definition ContainmentRequirement_value (k : ContainmentRequirement) : pystr :=
  match k with
  | Containment_NONE => $"none"
  | Containment_ELIGIBLE => $"eligible"
  | Containment_REQUIRED => $"required"
  | Containment_NOT_ELIGIBLE => $"not-eligible"
  end.
Global Instance ContainmentRequirement_enum : PyEnum ContainmentRequirement.
Proof.
  refine {| enum_value := ContainmentRequirement_value;
    enum_members := [Containment_NONE; Containment_ELIGIBLE; Containment_REQUIRED;
      Containment_NOT_ELIGIBLE] |}; solve_enum.
Defined.

Inductive ProofRequirement :=
  | OPERATION_AND_TARGETS | WORKSPACE_IDENTITY | REPOSITORY_IDENTITY | REMOTE_RESOURCE_IDENTITY
  | WORKING_DIRECTORY_IDENTITY | EXECUTABLE_IDENTITY | LAUNCH_CHAIN | DEPENDENCY_PROVENANCE
  | CONFIGURATION_IDENTITY | SHELL_DATA_FLOW | PARSER_CONFIDENCE | EXPECTED_EFFECTS
  | CONTAINMENT_IDENTITY | CAPABILITY_CONSTRAINTS.
Global Instance ProofRequirement_eq_dec : EqDecision ProofRequirement.
Proof. solve_decision. Defined.

Definition ProofRequirement_value (k : ProofRequirement) : pystr :=
  match k with
  | OPERATION_AND_TARGETS => $"operation-and-targets"
  | WORKSPACE_IDENTITY => $"workspace-identity"
  | REPOSITORY_IDENTITY => $"repository-identity"
  | REMOTE_RESOURCE_IDENTITY => $"remote-resource-identity"
  | WORKING_DIRECTORY_IDENTITY => $"working-directory-identity"
  | EXECUTABLE_IDENTITY => $"executable-identity"
  | LAUNCH_CHAIN => $"launch-chain"
  | DEPENDENCY_PROVENANCE => $"dependency-provenance"
  | CONFIGURATION_IDENTITY => $"configuration-identity"
  | SHELL_DATA_FLOW => $"shell-data-flow"
  | PARSER_CONFIDENCE => $"parser-confidence"
  | EXPECTED_EFFECTS => $"expected-effects"
  | CONTAINMENT_IDENTITY => $"containment-identity"
  | CAPABILITY_CONSTRAINTS => $"capability-constraints"
  end.
Global Instance ProofRequirement_enum : PyEnum ProofRequirement.
Proof.
  refine {| enum_value := ProofRequirement_value;
    enum_members := [OPERATION_AND_TARGETS; WORKSPACE_IDENTITY; REPOSITORY_IDENTITY;
      REMOTE_RESOURCE_IDENTITY; WORKING_DIRECTORY_IDENTITY; EXECUTABLE_IDENTITY; LAUNCH_CHAIN;
      DEPENDENCY_PROVENANCE; CONFIGURATION_IDENTITY; SHELL_DATA_FLOW; PARSER_CONFIDENCE;
      EXPECTED_EFFECTS; CONTAINMENT_IDENTITY; CAPABILITY_CONSTRAINTS] |}; solve_enum.
Defined.

Inductive ProofRoute := VERIFIED | CONTAINED | WORKFLOW_AUTHORIZED.
Global Instance ProofRoute_eq_dec : EqDecision ProofRoute.
Proof. solve_decision. Defined.

Definition ProofRoute_value (k : ProofRoute) : pystr :=
  match k with
  | VERIFIED => $"verified"
  | CONTAINED => $"contained"
  | WORKFLOW_AUTHORIZED => $"workflow-authorized"
  end.
Global Instance ProofRoute_enum : PyEnum ProofRoute.
Proof.
  refine {| enum_value := ProofRoute_value;
    enum_members := [VERIFIED; CONTAINED; WORKFLOW_AUTHORIZED] |}; solve_enum.
Defined.

Inductive UncertaintyKind :=
  | PARTIAL_PARSE | DYNAMIC_INPUT | UNSUPPORTED_INPUT | MALFORMED_INPUT
  | PARSER_BUDGET_EXHAUSTED | MATCHER_FAILURE | PARSER_FAILURE | UNRESOLVED_LAUNCH_IDENTITY
  | UNKNOWN_EFFECT | DEGRADED_CONTAINMENT | PROTECTION_HEALTH_DEGRADED
  | POLICY_VERSION_MISMATCH | MALFORMED_BOUNDARY_VERSION | UNKNOWN_BOUNDARY_VERSION
  | ROLLBACK_BOUNDARY_VERSION.
Global Instance UncertaintyKind_eq_dec : EqDecision UncertaintyKind.
Proof. solve_decision. Defined.

Definition UncertaintyKind_value (k : UncertaintyKind) : pystr :=
  match k with
  | PARTIAL_PARSE => $"partial-parse"
  | DYNAMIC_INPUT => $"dynamic-input"
  | UNSUPPORTED_INPUT => $"unsupported-input"
  | MALFORMED_INPUT => $"malformed-input"
  | PARSER_BUDGET_EXHAUSTED => $"parser-budget-exhausted"
  | MATCHER_FAILURE => $"matcher-failure"
  | PARSER_FAILURE => $"parser-failure"
  | UNRESOLVED_LAUNCH_IDENTITY => $"unresolved-launch-identity"
  | UNKNOWN_EFFECT => $"unknown-effect"
  | DEGRADED_CONTAINMENT => $"degraded-containment"
  | PROTECTION_HEALTH_DEGRADED => $"protection-health-degraded"
  | POLICY_VERSION_MISMATCH => $"policy-version-mismatch"
  | MALFORMED_BOUNDARY_VERSION => $"malformed-boundary-version"
  | UNKNOWN_BOUNDARY_VERSION => $"unknown-boundary-version"
  | ROLLBACK_BOUNDARY_VERSION => $"rollback-boundary-version"
  end.
Global Instance UncertaintyKind_enum : PyEnum UncertaintyKind.
Proof.
  refine {| enum_value := UncertaintyKind_value;
    enum_members := [PARTIAL_PARSE; DYNAMIC_INPUT; UNSUPPORTED_INPUT; MALFORMED_INPUT;
      PARSER_BUDGET_EXHAUSTED; MATCHER_FAILURE; PARSER_FAILURE; UNRESOLVED_LAUNCH_IDENTITY;
      UNKNOWN_EFFECT; DEGRADED_CONTAINMENT; PROTECTION_HEALTH_DEGRADED;
      POLICY_VERSION_MISMATCH; MALFORMED_BOUNDARY_VERSION; UNKNOWN_BOUNDARY_VERSION;
      ROLLBACK_BOUNDARY_VERSION] |}; solve_enum.
Defined.

Definition UNCERTAINTY_FLOOR (k : UncertaintyKind) : GuardAction :=
  match k with
  | PARTIAL_PARSE => review
  | DYNAMIC_INPUT => review
  | UNSUPPORTED_INPUT => review
  | MALFORMED_INPUT => review
  | PARSER_BUDGET_EXHAUSTED => require_reapproval
  | MATCHER_FAILURE => block
  | PARSER_FAILURE => block
  | UNRESOLVED_LAUNCH_IDENTITY => require_reapproval
  | UNKNOWN_EFFECT => require_reapproval
  | DEGRADED_CONTAINMENT => block
  | PROTECTION_HEALTH_DEGRADED => block
  | POLICY_VERSION_MISMATCH => block
  | MALFORMED_BOUNDARY_VERSION => block
  | UNKNOWN_BOUNDARY_VERSION => block
  | ROLLBACK_BOUNDARY_VERSION => block
  end.

(** ** Decision basis *)

Record DecisionBasis := { action_floor : GuardAction; proof_route : option ProofRoute }.
Global Instance DecisionBasis_eq_dec : EqDecision DecisionBasis.
Proof. solve_decision. Defined.

Definition make_DecisionBasis (floor : GuardAction) (route : option ProofRoute)
    : result DecisionBasis :=
  raise_if ((GUARD_ACTION_SEVERITY floor <? GUARD_ACTION_SEVERITY review)
            && bool_decide (route = None))
    (ValueError "permissive action floors require a positive proof route") ;;
  Ok {| action_floor := floor; proof_route := route |}.

(** ** Effect assessment *)

Record EffectAssessment := {
  kind : EffectKind;
  target_scope : EffectTargetScope;
  reversibility : EffectReversibility;
  blast_radius : EffectBlastRadius;
  evidence_source : EffectEvidenceSource;
  confidence : EffectConfidence;
  containment : ContainmentRequirement;
  proof_requirements : list ProofRequirement;
  uncertainty_reasons : list UncertaintyKind;
  assessment_schema_version : pystr;
}.

(** [_require_enum_frozenset]: the set is not empty. *)
Definition require_enum_frozenset {A} (items : list A) (label : string) : result unit :=
  raise_if (match items with [] => true | _ => false end)
    (ValueError (label +:+ " must be a non-empty frozenset")).

(** [_require_enum_tuple]: no duplicates. *)
Definition require_enum_tuple {A} `{EqDecision A} (items : list A) (label : string) : result unit :=
  raise_if (has_dups items) (ValueError (label +:+ " cannot contain duplicates")).

Definition uncertain_confidence (c : EffectConfidence) : bool :=
  py_in c [Confidence_PARTIAL; Confidence_DYNAMIC; Confidence_UNKNOWN].

Definition has_unknown_dimension (a : EffectAssessment) : bool :=
  bool_decide (target_scope a = Scope_UNKNOWN)
  || bool_decide (reversibility a = Reversibility_UNKNOWN)
  || bool_decide (blast_radius a = Radius_UNKNOWN).

(** [EffectAssessment.__post_init__]: the checks run on the given fields. *)
Definition check_EffectAssessment (a : EffectAssessment) : result unit :=
  raise_if (negb (bool_decide (assessment_schema_version a = EFFECT_CONTRACT_SCHEMA_VERSION)))
    (ValueError "unsupported effect contract schema version") ;;
  require_enum_frozenset (proof_requirements a) "proof_requirements" ;;
  require_enum_tuple (uncertainty_reasons a) "uncertainty_reasons" ;;
  raise_if (uncertain_confidence (confidence a) && bool_decide (uncertainty_reasons a = []))
    (ValueError "partial, dynamic, and unknown effects require an uncertainty reason") ;;
  raise_if (bool_decide (confidence a = Confidence_EXACT)
            && negb (bool_decide (uncertainty_reasons a = [])))
    (ValueError "exact effects cannot carry uncertainty reasons") ;;
  raise_if (has_unknown_dimension a
            && (bool_decide (confidence a = Confidence_EXACT)
                || bool_decide (uncertainty_reasons a = [])))
    (ValueError "unknown effect dimensions require non-exact confidence and typed uncertainty") ;;
  raise_if (bool_decide (containment a = Containment_REQUIRED)
            && negb (py_in CONTAINMENT_IDENTITY (proof_requirements a)))
    (ValueError "required containment must bind containment identity").

Definition make_EffectAssessment (a : EffectAssessment) : result EffectAssessment :=
  check_EffectAssessment a ;; Ok a.

(** ** Floors *)

Definition maximum_action_floor (floors : list GuardAction) : GuardAction :=
  most_restrictive_guard_action ((λ a, PStr (action_value a)) <$> floors)
    DEFAULT_UNKNOWN_GUARD_ACTION.

Definition apply_uncertainty_floor (current : GuardAction) (uncertainties : list UncertaintyKind)
    : GuardAction :=
  maximum_action_floor (current :: (UNCERTAINTY_FLOOR <$> uncertainties)).

(** ** Truthful states *)

Inductive TruthfulState :=
  | PROTECTED | PARTIAL | DEGRADED | CHECKED | PERMITTED | ALLOWED_UNCONFIRMED
  | CONFIRMED_SUCCESS | CONFIRMED_FAILURE | INTERRUPTED | BLOCKED.
Global Instance TruthfulState_eq_dec : EqDecision TruthfulState.
Proof. solve_decision. Defined.

Definition TruthfulState_value (k : TruthfulState) : pystr :=
  match k with
  | PROTECTED => $"protected"
  | PARTIAL => $"partial"
  | DEGRADED => $"degraded"
  | CHECKED => $"checked"
  | PERMITTED => $"permitted"
  | ALLOWED_UNCONFIRMED => $"allowed-unconfirmed"
  | CONFIRMED_SUCCESS => $"confirmed-success"
  | CONFIRMED_FAILURE => $"confirmed-failure"
  | INTERRUPTED => $"interrupted"
  | BLOCKED => $"blocked"
  end.
Global Instance TruthfulState_enum : PyEnum TruthfulState.
Proof.
  refine {| enum_value := TruthfulState_value;
    enum_members := [PROTECTED; PARTIAL; DEGRADED; CHECKED; PERMITTED; ALLOWED_UNCONFIRMED;
      CONFIRMED_SUCCESS; CONFIRMED_FAILURE; INTERRUPTED; BLOCKED] |}; solve_enum.
Defined.

Record ProtectionHealth := {
  required_hooks : bool;
  daemon_and_policy : bool;
  rules_and_containment : bool;
  tamper_checks : bool;
  evidence_health : bool;
}.

Inductive EnforcementOutcome :=
  | Outcome_CHECKED | Outcome_PERMITTED | Outcome_INTERRUPTED | Outcome_BLOCKED.
Global Instance EnforcementOutcome_eq_dec : EqDecision EnforcementOutcome.
Proof. solve_decision. Defined.

Inductive PostProofEligibility := INELIGIBLE | STRONG_CORRELATION.
Global Instance PostProofEligibility_eq_dec : EqDecision PostProofEligibility.
Proof. solve_decision. Defined.

Inductive PostExecutionOutcome := SUCCESS | FAILURE.
Global Instance PostExecutionOutcome_eq_dec : EqDecision PostExecutionOutcome.
Proof. solve_decision. Defined.

Record PostExecutionProof := {
  eligibility : PostProofEligibility;
  post_outcome : option PostExecutionOutcome;
}.

Definition make_PostExecutionProof (e : PostProofEligibility) (o : option PostExecutionOutcome)
    : result PostExecutionProof :=
  raise_if (bool_decide (e = INELIGIBLE) && negb (bool_decide (o = None)))
    (ValueError "ineligible post-execution proof cannot claim an outcome") ;;
  raise_if (bool_decide (e = STRONG_CORRELATION) && bool_decide (o = None))
    (ValueError "strongly correlated post-execution proof requires an outcome") ;;
  Ok {| eligibility := e; post_outcome := o |}.

Definition derive_protection_state (h : ProtectionHealth) : TruthfulState :=
  let core_healthy :=
    required_hooks h && daemon_and_policy h && rules_and_containment h && tamper_checks h in
  if negb core_healthy then DEGRADED
  else if negb (evidence_health h) then PARTIAL
  else PROTECTED.

Definition derive_activity_state (outcome : EnforcementOutcome) (proof : PostExecutionProof)
    : result TruthfulState :=
  match outcome with
  | Outcome_PERMITTED =>
      match post_outcome proof with
      | Some SUCCESS => Ok CONFIRMED_SUCCESS
      | Some FAILURE => Ok CONFIRMED_FAILURE
      | None => Ok ALLOWED_UNCONFIRMED
      end
  | _ =>
      raise_if (negb (bool_decide (post_outcome proof = None)))
        (ValueError "only a permitted command may consume post-execution proof") ;;
      match outcome with
      | Outcome_CHECKED => Ok CHECKED
      | Outcome_INTERRUPTED => Ok INTERRUPTED
      | Outcome_BLOCKED => Ok BLOCKED
      | Outcome_PERMITTED => Raise (KeyError "outcome")
      end
  end.

(** ** Boundary versions *)

Inductive BoundaryVersionStatus := CURRENT | MALFORMED | UNKNOWN | ROLLBACK.
Global Instance BoundaryVersionStatus_eq_dec : EqDecision BoundaryVersionStatus.
Proof. solve_decision. Defined.

Definition BoundaryVersionStatus_value (k : BoundaryVersionStatus) : pystr :=
  match k with
  | CURRENT => $"current"
  | MALFORMED => $"malformed"
  | UNKNOWN => $"unknown"
  | ROLLBACK => $"rollback"
  end.

Record BoundaryVersionClassification := {
  bv_status : BoundaryVersionStatus;
  bv_version : option pystr;
  bv_expected_version : pystr;
  bv_uncertainty : option UncertaintyKind;
  bv_action_floor : option GuardAction;
}.

(** [_parse_boundary_version] *)
Definition version_part_ok (part : pystr) : bool :=
  negb (negb (is_ascii part) || negb (str_isdigit part) || (9 <? length part)%nat
        || ((1 <? length part)%nat && startswith [48] part)).

Definition parse_boundary_version (value : pyval) : option (Z * Z * Z) :=
  match value with
  | PStr s =>
      if (32 <? length s)%nat then None
      else
        match split_char 46 s with
        | [a; b; c] =>
            if version_part_ok a && version_part_ok b && version_part_ok c
            then Some (py_int a, py_int b, py_int c) else None
        | _ => None
        end
  | _ => None
  end.

(** [_parse_boundary_version] applied to an optional string. *)
Definition parse_optional_version (v : option pystr) : option (Z * Z * Z) :=
  parse_boundary_version (match v with Some s => PStr s | None => PNone end).

(** [BoundaryVersionClassification.__post_init__] *)
Definition make_BoundaryVersionClassification (c : BoundaryVersionClassification)
    : result BoundaryVersionClassification :=
  let invalid := ValueError "invalid boundary version classification" in
  let received := parse_optional_version (bv_version c) in
  match parse_boundary_version (PStr (bv_expected_version c)) with
  | None => Raise invalid
  | Some expected =>
      let failure :=
        match bv_status c with
        | MALFORMED => Some MALFORMED_BOUNDARY_VERSION
        | UNKNOWN => Some UNKNOWN_BOUNDARY_VERSION
        | ROLLBACK => Some ROLLBACK_BOUNDARY_VERSION
        | CURRENT => None
        end in
      let valid :=
        if bool_decide (bv_status c = CURRENT) then
          bool_decide (received = Some expected) && bool_decide (bv_uncertainty c = None)
          && bool_decide (bv_action_floor c = None)
        else if bool_decide (failure = None) || negb (bool_decide (bv_uncertainty c = failure))
                || negb (bool_decide (bv_action_floor c = Some block)) then false
        else if bool_decide (bv_status c = MALFORMED) then bool_decide (bv_version c = None)
        else
          match received with
          | None => false
          | Some r =>
              (bool_decide (bv_status c = UNKNOWN) && py_ltb expected r)
              || (bool_decide (bv_status c = ROLLBACK) && py_ltb r expected)
          end in
      raise_if (negb valid) invalid ;; Ok c
  end.

(** [_boundary_version_failure]: the uncertainty kind is looked up by the
    value [f"{status.value}-boundary-version"]. *)
Definition boundary_version_failure (status : BoundaryVersionStatus) (version : option pystr)
    (expected_version : pystr) : result BoundaryVersionClassification :=
  match enum_of_value (A:=UncertaintyKind)
          (BoundaryVersionStatus_value status ++ $"-boundary-version") with
  | None => Raise (ValueError "not a valid UncertaintyKind")
  | Some u =>
      make_BoundaryVersionClassification
        {| bv_status := status; bv_version := version; bv_expected_version := expected_version;
           bv_uncertainty := Some u; bv_action_floor := Some (UNCERTAINTY_FLOOR u) |}
  end.

Definition decode_boundary_version (value : pyval) (current_version : pystr)
    : result BoundaryVersionClassification :=
  match parse_boundary_version (PStr current_version) with
  | None => Raise (ValueError "current_version must be a canonical semantic boundary version")
  | Some current =>
      match parse_boundary_version value with
      | None => boundary_version_failure MALFORMED None current_version
      | Some received =>
          let received_version := match value with PStr s => Some s | _ => None end in
          if bool_decide (received = current) then
            make_BoundaryVersionClassification
              {| bv_status := CURRENT; bv_version := received_version;
                 bv_expected_version := current_version;
                 bv_uncertainty := None; bv_action_floor := None |}
          else if py_ltb received current then
            boundary_version_failure ROLLBACK received_version current_version
          else boundary_version_failure UNKNOWN received_version current_version
      end
  end.

(** ** Lemmas *)

Lemma maximum_action_floor_sev_max a l :
  maximum_action_floor (a :: l) = sev_max a l.
Proof.
  unfold maximum_action_floor. rewrite fmap_cons, most_restrictive_sev_max, normalize_action.
  f_equal. induction l as [|b l IH]; [done|]. by rewrite !fmap_cons, normalize_action, IH.
Qed.

Lemma maximum_action_floor_ge a l :
  a ∈ l → GUARD_ACTION_SEVERITY a ≤ GUARD_ACTION_SEVERITY (maximum_action_floor l).
Proof.
  destruct l as [|b l]; [by intros ?%elem_of_nil|]. rewrite maximum_action_floor_sev_max.
  fold_sev.
  intros [->|Hin]%elem_of_cons; [apply sev_max_ge | by apply sev_max_ge_elem].
Qed.

Lemma maximum_action_floor_in a l : maximum_action_floor (a :: l) ∈ a :: l.
Proof. rewrite maximum_action_floor_sev_max. apply sev_max_in. Qed.

Lemma maximum_action_floor_perm l k : l ≡ₚ k → maximum_action_floor l = maximum_action_floor k.
Proof.
  destruct l as [|a l], k as [|b k]; intros Hp.
  - done.
  - by apply Permutation_nil_l in Hp.
  - by apply Permutation_nil_r in Hp.
  - rewrite !maximum_action_floor_sev_max. by apply sev_max_perm.
Qed.

Lemma maximum_action_floor_app l k :
  l ≠ [] → maximum_action_floor (l ++ k)
           = maximum_action_floor (maximum_action_floor l :: k).
Proof.
  destruct l as [|a l]; [done|]. intros _.
  by rewrite <- app_comm_cons, !maximum_action_floor_sev_max, sev_max_app.
Qed.

Lemma maximum_action_floor_least l n :
  l ≠ [] → Forall (λ a, GUARD_ACTION_SEVERITY a ≤ n) l →
  GUARD_ACTION_SEVERITY (maximum_action_floor l) ≤ n.
Proof.
  destruct l as [|a l]; [done|]. intros _ Hf. inversion Hf; subst.
  rewrite maximum_action_floor_sev_max. fold_sev. by apply sev_max_least.
Qed.

Lemma uncertainty_floor_review u :
  GUARD_ACTION_SEVERITY review ≤ GUARD_ACTION_SEVERITY (UNCERTAINTY_FLOOR u).
Proof. destruct u; vm_compute; done. Qed.

Lemma version_part_ok_canonical p :
  version_part_ok p = true ↔ canonical_digits p = true ∧ (length p ≤ 9)%nat.
Proof.
  unfold version_part_ok, canonical_digits.
  rewrite negb_true_iff, !orb_false_iff, andb_true_iff, !negb_false_iff, negb_true_iff.
  rewrite Nat.ltb_ge. split; [tauto|]. intros ((Hd & Hz) & Hl). repeat split; try done.
  apply str_isdigit_Forall in Hd as [_ Hd]. apply forallb_Forall.
  eapply Forall_impl; [exact Hd|]. intros c Hc. unfold is_digit, in_range in Hc. split_bool. lia.
Qed.

Definition version_text (v : Z * Z * Z) : pystr :=
  join [46] [str_of_nonneg v.1.1; str_of_nonneg v.1.2; str_of_nonneg v.2].

Lemma version_part_no_dot p : version_part_ok p = true → 46 ∉ p.
Proof.
  intros [Hc _]%version_part_ok_canonical. apply canonical_digits_Forall in Hc as [_ Hd].
  rewrite Forall_forall in Hd. intros Hin. by specialize (Hd _ Hin).
Qed.

Lemma version_part_read p :
  version_part_ok p = true → p = str_of_nonneg (py_int p) ∧ 0 <= py_int p < 10 ^ 9.
Proof.
  intros [Hc Hl]%version_part_ok_canonical. split; [by rewrite str_py_int|].
  apply canonical_digits_Forall in Hc as [_ Hd].
  split; [by apply py_int_nonneg|]. eapply Z.lt_le_trans; [by apply py_int_bound|].
  apply Z.pow_le_mono_r; lia.
Qed.

Lemma version_part_print n :
  0 <= n < 10 ^ 9 → version_part_ok (str_of_nonneg n) = true.
Proof.
  intros Hn. apply version_part_ok_canonical. split; [apply str_of_nonneg_canonical; lia|].
  apply dec_digits_length; [done | lia].
Qed.

(** ** Properties *)

(** an accepted decision basis with a permissive floor ([allow] or [warn])
    always names a proof route, and the constructor rejects nothing else. *)
Theorem decision_basis_permissive_needs_route (floor : GuardAction) (route : option ProofRoute) :
  (∃ b, make_DecisionBasis floor route = Ok b ∧ action_floor b = floor ∧ proof_route b = route)
  ↔ (GUARD_ACTION_SEVERITY floor < GUARD_ACTION_SEVERITY review → is_Some route).
Proof.
  unfold make_DecisionBasis. split.
  - intros (b & Hb & _) Hlt. inv_ok. apply Z.ltb_lt in Hlt. rewrite Hlt in *. simpl in *.
    by apply not_eq_None_Some, (bool_decide_eq_false_1 _).
  - intros Hs. exists {| action_floor := floor; proof_route := route |}. split; [|done].
    destruct (Z.ltb_spec (GUARD_ACTION_SEVERITY floor) (GUARD_ACTION_SEVERITY review)) as [Hlt|_];
      [by destruct (Hs Hlt) as [r ->] | done].
Qed.

(** adding uncertainty never weakens a decision: the floor is at least the
    current action and every uncertainty's canonical floor, any uncertainty
    makes it at least [review], and the order of the uncertainties is
    irrelevant. *)
Theorem apply_uncertainty_floor_monotone (current : GuardAction) (us : list UncertaintyKind) :
  let r := apply_uncertainty_floor current us in
  GUARD_ACTION_SEVERITY current ≤ GUARD_ACTION_SEVERITY r ∧
  Forall (λ u, GUARD_ACTION_SEVERITY (UNCERTAINTY_FLOOR u) ≤ GUARD_ACTION_SEVERITY r) us ∧
  (us ≠ [] → GUARD_ACTION_SEVERITY review ≤ GUARD_ACTION_SEVERITY r) ∧
  (r = current ∨ ∃ u, u ∈ us ∧ r = UNCERTAINTY_FLOOR u) ∧
  (∀ us', us ≡ₚ us' → apply_uncertainty_floor current us' = r).
Proof.
  cbv zeta. unfold apply_uncertainty_floor.
  assert (Forall (λ u, GUARD_ACTION_SEVERITY (UNCERTAINTY_FLOOR u) ≤ GUARD_ACTION_SEVERITY
    (maximum_action_floor (current :: (UNCERTAINTY_FLOOR <$> us)))) us) as Hall.
  { apply Forall_forall. intros u Hu. apply maximum_action_floor_ge. right.
    apply list_elem_of_fmap. by exists u. }
  split; [apply maximum_action_floor_ge; left|]. split; [done|]. split; [|split].
  - destruct us as [|u us]; [done|]. inversion Hall; subst. intros _.
    pose proof (uncertainty_floor_review u). lia.
  - pose proof (maximum_action_floor_in current (UNCERTAINTY_FLOOR <$> us)) as Hin.
    apply elem_of_cons in Hin as [->|(u & -> & Hu)%list_elem_of_fmap]; [by left | right; eauto].
  - intros us' Hp. apply maximum_action_floor_perm. by rewrite Hp.
Qed.

(** boundary versions are parsed exactly: [parse_boundary_version] accepts
    the canonical text of every triple of components below 10^9, and nothing
    but canonical texts. *)
Theorem boundary_version_roundtrip (s : pystr) (v : Z * Z * Z) :
  parse_boundary_version (PStr s) = Some v ↔
  s = version_text v ∧ 0 <= v.1.1 < 10 ^ 9 ∧ 0 <= v.1.2 < 10 ^ 9 ∧ 0 <= v.2 < 10 ^ 9.
Proof.
  destruct v as [[x y] z]. simpl. split.
  - destruct (Nat.ltb_spec 32 (length s)) as [|_]; [done|].
    destruct (split_char 46 s) as [|a [|b [|c [|]]]] eqn:Hs; try done.
    destruct (version_part_ok a && version_part_ok b && version_part_ok c) eqn:E; [|done].
    intros [= <- <- <-]. split_bool.
    pose proof (join_split_char 46 s) as Hj. rewrite Hs in Hj.
    destruct (version_part_read a) as [Ha ?], (version_part_read b) as [Hb ?],
      (version_part_read c) as [Hc ?]; try done.
    split; [|done]. unfold version_text; simpl. by rewrite <- Ha, <- Hb, <- Hc.
  - intros (-> & Hx & Hy & Hz).
    pose proof (version_part_print x Hx) as Px. pose proof (version_part_print y Hy) as Py.
    pose proof (version_part_print z Hz) as Pz.
    unfold version_text. cbn [fst snd].
    rewrite split_join_char by first [done | repeat constructor; by apply version_part_no_dot].
    rewrite Px, Py, Pz, !py_int_str by lia. simpl.
    apply version_part_ok_canonical in Px as [_ Lx], Py as [_ Ly], Pz as [_ Lz].
    rewrite !length_app. simpl. rewrite !length_app. simpl.
    destruct (Nat.ltb_spec 32 (length (str_of_nonneg x)
      + S (length (str_of_nonneg y) + S (length (str_of_nonneg z)))))%nat; [lia | done].
Qed.

Global Arguments parse_boundary_version : simpl never.

(** Runs the validation of a classification built from known versions. *)
Ltac check_version :=
  unfold boundary_version_failure, make_BoundaryVersionClassification, parse_optional_version;
  simpl;
  repeat match goal with H : parse_boundary_version _ = _ |- _ => rewrite H; clear H end;
  simpl; rewrite ?bool_decide_true by done; unfold py_ltb;
  repeat match goal with
  | H : py_cmp ?x ?y = _ |- context [py_cmp ?x ?y] => rewrite H
  | H : py_cmp ?x ?y = _ |- context [py_cmp ?y ?x] => rewrite (py_cmp_flip x y)
  end; reflexivity.

(** with a canonical current version, [decode_boundary_version] never
    raises (its result always passes the classification's own validation) and
    classifies exactly: current iff the versions are equal, rollback iff
    strictly older, unknown iff strictly newer, malformed iff unreadable; and
    everything that is not current carries the [block] floor. *)
Theorem decode_boundary_version_classifies (value : pyval) (cur : pystr) (c : Z * Z * Z)
    (Hcur : parse_boundary_version (PStr cur) = Some c) :
  ∃ b, decode_boundary_version value cur = Ok b ∧
    bv_status b = match parse_boundary_version value with
                  | None => MALFORMED
                  | Some r => match py_cmp r c with Eq => CURRENT | Lt => ROLLBACK | Gt => UNKNOWN end
                  end ∧
    bv_action_floor b = (if bool_decide (bv_status b = CURRENT) then None else Some block).
Proof.
  unfold decode_boundary_version. rewrite Hcur.
  destruct (parse_boundary_version value) as [r|] eqn:Hr.
  - assert (∃ s, value = PStr s) as [s ->] by (destruct value; naive_solver).
    destruct (py_cmp r c) eqn:E.
    + apply py_cmp_eq in E as ->. rewrite bool_decide_true by done.
      eexists. split; [check_version | done].
    + rewrite bool_decide_false by (intros ->; by rewrite py_cmp_refl in E).
      unfold py_ltb at 1. rewrite E. eexists. split; [check_version | done].
    + rewrite bool_decide_false by (intros ->; by rewrite py_cmp_refl in E).
      unfold py_ltb at 1. rewrite E. eexists. split; [check_version | done].
  - eexists. split; [check_version | done].
Qed.

Lemma decode_boundary_version_witness :
  ∃ b, decode_boundary_version (PStr ($"1.10.0")) ($"1.9.2") = Ok b ∧
    bv_status b = UNKNOWN ∧ bv_action_floor b = Some block.
Proof.
  destruct (decode_boundary_version_classifies (PStr ($"1.10.0")) ($"1.9.2") (1, 9, 2))
    as (b & Hb & Hs & Hf); [reflexivity|].
  exists b. split; [exact Hb|].
  assert (bv_status b = UNKNOWN) as Hu by (rewrite Hs; vm_compute; reflexivity).
  split; [exact Hu|]. rewrite Hu in Hf. exact Hf.
Defined.
