(* ===== verification/ExtensionEvidence.v ===== *)
(** * Extension evidence

    Models [guard/runtime/extension_evidence.py]: what a command safety
    extension may observe.  An observation names its owning rule, declares a
    floor that cannot understate its class, and can be neutralized only by a
    safe variant of exactly that rule; a batch keeps every observation, in a
    canonical order. *)

From S2P Require Import Prelude PyStr Sha256 Regex PyVal ActionLattice EffectContract.
Local Open Scope Z_scope.
Local Open Scope py_scope.

(** [[a-z][a-z0-9]*(?:[.-][a-z0-9]+)*] *)
Definition EVIDENCE_STABLE_ID : regex :=
  RCat (RSet az) (RCat (RStar (RSet az09))
    (RStar (RCat (RSet [(45, 46)]) (RPlus (RSet az09))))).

(** A decimal numeral without leading zeros. *)
Definition NUMERIC_COMPONENT : regex :=
  RAlt (RChr 48) (RCat (RSet [(49, 57)]) (RStar (RSet [(48, 57)]))).
(** [[0-9a-z]+(?:[.-][0-9a-z]+)*] *)
Definition VERSION_SUFFIX : regex :=
  RCat (RPlus (RSet az09)) (RStar (RCat (RSet [(45, 46)]) (RPlus (RSet az09)))).
Definition SEMANTIC_VERSION : regex :=
  RCat NUMERIC_COMPONENT (RCat (RChr 46) (RCat NUMERIC_COMPONENT (RCat (RChr 46)
    (RCat NUMERIC_COMPONENT
      (RCat (ROpt (RCat (RChr 45) VERSION_SUFFIX)) (ROpt (RCat (RChr 43) VERSION_SUFFIX))))))).

(** [[a-z][a-z0-9_-]*:[a-z0-9][a-z0-9._/-]*] *)
Definition CANONICAL_REFERENCE : regex :=
  RCat (RSet az) (RCat (RStar (RSet [(97, 122); (48, 57); (95, 95); (45, 45)]))
    (RCat (RChr 58) (RCat (RSet az09)
      (RStar (RSet [(97, 122); (48, 57); (46, 46); (95, 95); (47, 47); (45, 45)]))))).

Definition EXTENSION_EVIDENCE_SCHEMA_VERSION : pystr := $"1.0.0".

(** ** Data *)

Inductive ExtensionMatchClass := UNSAFE | UNCERTAINTY.
Global Instance ExtensionMatchClass_eq_dec : EqDecision ExtensionMatchClass.
Proof. solve_decision. Defined.
Definition ExtensionMatchClass_value (c : ExtensionMatchClass) : pystr :=
  match c with UNSAFE => $"unsafe" | UNCERTAINTY => $"uncertainty" end.

Inductive EvidenceSeverity := INFO | LOW | MEDIUM | HIGH | CRITICAL.
Global Instance EvidenceSeverity_eq_dec : EqDecision EvidenceSeverity.
Proof. solve_decision. Defined.
Definition EvidenceSeverity_value (c : EvidenceSeverity) : pystr :=
  match c with
  | INFO => $"info" | LOW => $"low" | MEDIUM => $"medium" | HIGH => $"high"
  | CRITICAL => $"critical"
  end.

Inductive SafeVariantOutcome := OWNED_RULE_NOT_RAISED.
Global Instance SafeVariantOutcome_eq_dec : EqDecision SafeVariantOutcome.
Proof. solve_decision. Defined.
Definition SafeVariantOutcome_value (c : SafeVariantOutcome) : pystr :=
  match c with OWNED_RULE_NOT_RAISED => $"owned-rule-not-raised" end.

Record ExtensionRuleIdentity := {
  extension_id : pystr;
  extension_version : pystr;
  rule_id : pystr;
  rule_version : pystr;
}.
Global Instance ExtensionRuleIdentity_eq_dec : EqDecision ExtensionRuleIdentity.
Proof. solve_decision. Defined.

Record OwnedSafeVariant := {
  sv_identity : ExtensionRuleIdentity;
  safe_variant_id : pystr;
  sv_outcome : SafeVariantOutcome;
}.
Global Instance OwnedSafeVariant_eq_dec : EqDecision OwnedSafeVariant.
Proof. solve_decision. Defined.

Record ExtensionEvidence := {
  identity : ExtensionRuleIdentity;
  match_class : ExtensionMatchClass;
  severity : EvidenceSeverity;
  declared_floor : GuardAction;
  base_fact : pystr;
  ev_segment_ref : pystr;
  ev_operation_ref : pystr;
  effect_claims : list EffectKind;
  ev_proof_requirements : list ProofRequirement;
  ev_uncertainty_reasons : list UncertaintyKind;
  safe_variant : option OwnedSafeVariant;
  ev_schema_version : pystr;
}.

(** ** Validation *)

Definition require_stable_id (value : pystr) (label : string) : result unit :=
  raise_if ((128 <? length value)%nat || negb (fullmatch EVIDENCE_STABLE_ID value))
    (ValueError (label +:+ " must be a stable lowercase identifier")).

Definition require_stable_version (value : pystr) (label : string) : result unit :=
  raise_if (negb (fullmatch SEMANTIC_VERSION value))
    (ValueError (label +:+ " must be a stable semantic version")).

Definition require_reference (value : pystr) (label : string) : result unit :=
  raise_if ((256 <? length value)%nat || negb (fullmatch CANONICAL_REFERENCE value))
    (ValueError (label +:+ " must be a canonical reference")).

(** [ExtensionRuleIdentity.__post_init__] *)
Definition check_ExtensionRuleIdentity (i : ExtensionRuleIdentity) : result unit :=
  require_stable_id (extension_id i) "extension_id" ;;
  require_stable_id (rule_id i) "rule_id" ;;
  require_stable_version (extension_version i) "extension_version" ;;
  require_stable_version (rule_version i) "rule_version" ;;
  raise_if (negb (startswith (extension_id i ++ [46]) (rule_id i)))
    (ValueError "rule_id must be owned by extension_id").

(** [OwnedSafeVariant.__post_init__]; its identity has been validated. *)
Definition check_OwnedSafeVariant (v : OwnedSafeVariant) : result unit :=
  check_ExtensionRuleIdentity (sv_identity v) ;;
  require_stable_id (safe_variant_id v) "safe_variant.safe_variant_id".

(** [ExtensionEvidence.__post_init__]; the identity and the safe variant are
    validated values themselves. *)
Definition check_ExtensionEvidence (e : ExtensionEvidence) : result unit :=
  check_ExtensionRuleIdentity (identity e) ;;
  match safe_variant e with Some v => check_OwnedSafeVariant v | None => Ok tt end ;;
  raise_if (negb (bool_decide (ev_schema_version e = EXTENSION_EVIDENCE_SCHEMA_VERSION)))
    (ValueError "unsupported extension evidence schema version") ;;
  require_stable_id (base_fact e) "base_fact" ;;
  require_reference (ev_segment_ref e) "segment_ref" ;;
  require_reference (ev_operation_ref e) "operation_ref" ;;
  require_enum_frozenset (effect_claims e) "effect_claims" ;;
  require_enum_frozenset (ev_proof_requirements e) "proof_requirements" ;;
  require_enum_tuple (ev_uncertainty_reasons e) "uncertainty_reasons" ;;
  match safe_variant e with
  | Some v =>
      raise_if (negb (bool_decide (sv_identity v = identity e)))
        (ValueError "safe variant must be owned by the exact matched rule identity")
  | None => Ok tt
  end ;;
  match match_class e with
  | UNCERTAINTY =>
      raise_if (negb (bool_decide (safe_variant e = None)))
        (ValueError "uncertainty evidence cannot declare a safe variant") ;;
      raise_if (bool_decide (ev_uncertainty_reasons e = []))
        (ValueError "uncertainty evidence requires at least one uncertainty reason") ;;
      raise_if (GUARD_ACTION_SEVERITY (declared_floor e)
                <? GUARD_ACTION_SEVERITY
                     (maximum_action_floor (UNCERTAINTY_FLOOR <$> ev_uncertainty_reasons e)))
        (ValueError "uncertainty evidence cannot understate its canonical uncertainty floor")
  | UNSAFE =>
      raise_if (negb (bool_decide (ev_uncertainty_reasons e = [])))
        (ValueError "unsafe evidence must use a separate uncertainty observation") ;;
      raise_if (GUARD_ACTION_SEVERITY (declared_floor e) <? GUARD_ACTION_SEVERITY review)
        (ValueError "unsafe evidence must declare a review-or-stronger floor")
  end.

Definition effective_floor (e : ExtensionEvidence) : option GuardAction :=
  match safe_variant e with Some _ => None | None => Some (declared_floor e) end.

(** [sorted(item.value for item in s)] for a frozenset [s] of an enumeration. *)
Definition sorted_values {A} `{PyEnum A} (s : list A) : list pystr :=
  enum_value <$> sorted_set_on enum_value s.

(** Ten strings, three tuples of strings, the safe-variant tuple, the schema. *)
Definition SemanticEvidenceKey : Type :=
  list pystr * list pystr * list pystr * list pystr * list pystr * pystr.

Definition safe_variant_key (v : option OwnedSafeVariant) : list pystr :=
  match v with
  | None => [$"0"; []; []; []; []; []; []]
  | Some v =>
      [$"1"; extension_id (sv_identity v); extension_version (sv_identity v);
       rule_id (sv_identity v); rule_version (sv_identity v); safe_variant_id v;
       SafeVariantOutcome_value (sv_outcome v)]
  end.

Definition evidence_semantic_key (e : ExtensionEvidence) : SemanticEvidenceKey :=
  ([extension_id (identity e); extension_version (identity e); rule_id (identity e);
    rule_version (identity e); ev_segment_ref e; ev_operation_ref e;
    ExtensionMatchClass_value (match_class e); EvidenceSeverity_value (severity e);
    action_value (declared_floor e); base_fact e],
   sorted_values (effect_claims e), sorted_values (ev_proof_requirements e),
   sort_on (λ s : pystr, s) (enum_value <$> ev_uncertainty_reasons e),
   safe_variant_key (safe_variant e), ev_schema_version e).

(** ** Batches *)

Record ExtensionEvidenceBatch := { evidence : list ExtensionEvidence }.

Definition make_ExtensionEvidenceBatch (observations : list ExtensionEvidence)
    : result ExtensionEvidenceBatch :=
  let ordered := sort_on evidence_semantic_key observations in
  raise_if (has_dups (evidence_semantic_key <$> ordered))
    (ValueError "duplicate extension evidence is not allowed") ;;
  Ok {| evidence := ordered |}.

Definition evidence_floor (b : ExtensionEvidenceBatch) : option GuardAction :=
  match omap effective_floor (evidence b) with
  | [] => None
  | floors => Some (maximum_action_floor floors)
  end.

(** ** Lemmas *)

(** A validated observation, as the constructor of the dataclass guarantees it. *)
Definition evidence_ok (e : ExtensionEvidence) : Prop := check_ExtensionEvidence e = Ok tt.

Lemma evidence_ok_floor e :
  evidence_ok e → GUARD_ACTION_SEVERITY review ≤ GUARD_ACTION_SEVERITY (declared_floor e).
Proof.
  unfold evidence_ok, check_ExtensionEvidence. intros H.
  repeat (apply bind_Ok in H as (? & _ & H)).
  destruct (match_class e); inv_ok.
  - by apply Z.ltb_ge.
  - destruct (ev_uncertainty_reasons e) as [|u us]; [done|].
    match goal with H : (_ <? _) = false |- _ => apply Z.ltb_ge in H; rename H into Hf end.
    pose proof (uncertainty_floor_review u).
    assert (GUARD_ACTION_SEVERITY (UNCERTAINTY_FLOOR u) ≤ GUARD_ACTION_SEVERITY
      (maximum_action_floor (UNCERTAINTY_FLOOR <$> u :: us))) as Hge.
    { apply maximum_action_floor_ge. left. }
    etrans; [done|]. etrans; [exact Hge | exact Hf].
Qed.

Lemma make_batch_Ok obs b :
  make_ExtensionEvidenceBatch obs = Ok b ↔
  NoDup (evidence_semantic_key <$> obs) ∧ evidence b = sort_on evidence_semantic_key obs.
Proof.
  unfold make_ExtensionEvidenceBatch.
  assert (NoDup (evidence_semantic_key <$> sort_on evidence_semantic_key obs)
    ↔ NoDup (evidence_semantic_key <$> obs)) as Hnd by by rewrite sort_on_Permutation.
  rewrite bind_Ok. setoid_rewrite raise_if_Ok. setoid_rewrite has_dups_false.
  setoid_rewrite Hnd. destruct b as [ev]; simpl. naive_solver.
Qed.

Lemma make_batch_perm obs obs' :
  obs ≡ₚ obs' → make_ExtensionEvidenceBatch obs = make_ExtensionEvidenceBatch obs'.
Proof.
  intros Hp. destruct (decide (NoDup (evidence_semantic_key <$> obs))) as [Hnd|Hnd].
  - unfold make_ExtensionEvidenceBatch.
    assert (sort_on evidence_semantic_key obs = sort_on evidence_semantic_key obs') as ->; [|done].
    apply sort_on_perm; [|done]. intros x y. by apply NoDup_fmap_separates.
  - unfold make_ExtensionEvidenceBatch.
    assert (∀ l, l ≡ₚ obs → has_dups (evidence_semantic_key <$> l) = true) as Hd.
    { intros l Hl. unfold has_dups. apply bool_decide_eq_true. by rewrite Hl. }
    rewrite !Hd; [done | rewrite sort_on_Permutation; done | by rewrite sort_on_Permutation].
Qed.

(** a batch of validated observations depends only on which observations
    it holds: any permutation builds the same batch (or the same rejection),
    and its floor is [None] exactly when every observation was neutralized by
    its own rule's safe variant, and otherwise bounds every remaining declared
    floor and is at least [review]. *)
Theorem evidence_batch_floor (obs : list ExtensionEvidence) (b : ExtensionEvidenceBatch)
    (Hvalid : Forall evidence_ok obs) (Hb : make_ExtensionEvidenceBatch obs = Ok b) :
  (∀ obs', obs ≡ₚ obs' → make_ExtensionEvidenceBatch obs' = Ok b) ∧
  (evidence_floor b = None ↔ Forall (λ e, is_Some (safe_variant e)) obs) ∧
  (∀ f, evidence_floor b = Some f →
     GUARD_ACTION_SEVERITY review ≤ GUARD_ACTION_SEVERITY f ∧
     ∀ e, e ∈ obs → safe_variant e = None →
       GUARD_ACTION_SEVERITY (declared_floor e) ≤ GUARD_ACTION_SEVERITY f).
Proof.
  split; [intros obs' Hp; by rewrite <- (make_batch_perm _ _ Hp)|].
  apply make_batch_Ok in Hb as [_ Hb]. unfold evidence_floor. rewrite Hb.
  assert (∀ f, f ∈ omap effective_floor (sort_on evidence_semantic_key obs) ↔
    ∃ e, e ∈ obs ∧ safe_variant e = None ∧ f = declared_floor e) as Hin.
  { intros f. rewrite list_elem_of_omap. setoid_rewrite elem_of_sort_on.
    unfold effective_floor. split.
    - intros (e & He & Hf). exists e. destruct (safe_variant e); naive_solver.
    - intros (e & He & Hs & ->). exists e. by rewrite Hs. }
  split.
  - rewrite Forall_forall. split.
    + intros Hn e He. destruct (safe_variant e) eqn:Hs; [done|].
      destruct (omap effective_floor _) as [|g l]; [|done].
      destruct (proj1 (elem_of_nil (declared_floor e))). apply Hin. eauto.
    + intros Hall. destruct (omap effective_floor _) as [|g l]; [done|].
      destruct (proj1 (Hin g)) as (e & He & Hs & _); [left|]. destruct (Hall e He). congruence.
  - intros f Hf. split.
    + destruct (omap effective_floor _) as [|g l]; [done|]. injection Hf as <-.
      destruct (proj1 (Hin g)) as (e & He & _ & ->); [left|].
      rewrite Forall_forall in Hvalid. pose proof (evidence_ok_floor e (Hvalid e He)).
      pose proof (maximum_action_floor_ge (declared_floor e) (declared_floor e :: l)
        (list_elem_of_here _ _)). lia.
    + intros e He Hs. destruct (omap effective_floor _) as [|g l]; [done|]. injection Hf as <-.
      apply maximum_action_floor_ge, Hin. eauto.
Qed.

(** ** Witness *)

Definition sample_identity : ExtensionRuleIdentity :=
  {| extension_id := $"git-safety"; extension_version := $"1.2.0";
     rule_id := $"git-safety.force-push"; rule_version := $"1.0.3" |}.

Definition sample_unsafe : ExtensionEvidence :=
  {| identity := sample_identity; match_class := UNSAFE; severity := HIGH;
     declared_floor := sandbox_required; base_fact := $"git.force-push";
     ev_segment_ref := $"segment:0"; ev_operation_ref := $"operation:0/1";
     effect_claims := [REMOTE_STATE_MUTATION]; ev_proof_requirements := [OPERATION_AND_TARGETS];
     ev_uncertainty_reasons := []; safe_variant := None; ev_schema_version := $"1.0.0" |}.

(** The same rule on another segment, not raised because of its safe variant. *)
Definition sample_neutralized : ExtensionEvidence :=
  {| identity := sample_identity; match_class := UNSAFE; severity := HIGH;
     declared_floor := block; base_fact := $"git.force-push";
     ev_segment_ref := $"segment:1"; ev_operation_ref := $"operation:1/0";
     effect_claims := [REMOTE_STATE_MUTATION]; ev_proof_requirements := [OPERATION_AND_TARGETS];
     ev_uncertainty_reasons := [];
     safe_variant := Some {| sv_identity := sample_identity; safe_variant_id := $"with-lease";
       sv_outcome := OWNED_RULE_NOT_RAISED |};
     ev_schema_version := $"1.0.0" |}.

Lemma evidence_batch_floor_witness :
  ∃ b, make_ExtensionEvidenceBatch [sample_unsafe; sample_neutralized] = Ok b ∧
    evidence_floor b = Some sandbox_required ∧
    make_ExtensionEvidenceBatch [sample_neutralized; sample_unsafe] = Ok b.
Proof.
  eexists. split; [vm_compute; reflexivity|]. split; [vm_compute; reflexivity|].
  eapply (evidence_batch_floor [sample_unsafe; sample_neutralized]).
  - repeat constructor; vm_compute; reflexivity.
  - vm_compute. reflexivity.
  - apply Permutation_swap.
Defined.
