(* ===== verification/EffectDecision.v ===== *)
(** * Effect decisions

    Models [guard/runtime/effect_decision.py]: decision factors with their
    proofs, the canonical request, and [evaluate_effect_decision], which takes
    the maximum floor over every factor and uncertainty; and the translation of
    extension evidence into factors. *)

From S2P Require Import Prelude PyStr Sha256 Regex PyVal ActionLattice EffectContract.
From S2P Require Import ExtensionEvidence.
Local Open Scope Z_scope.
Local Open Scope py_scope.

Definition EFFECT_DECISION_SCHEMA_VERSION : pystr := $"1.1.0".

(** [[a-z][a-z0-9]*(?:[._-][a-z0-9]+)*] *)
Definition REASON_CODE : regex :=
  RCat (RSet az) (RCat (RStar (RSet az09))
    (RStar (RCat (RSet [(46, 46); (95, 95); (45, 45)]) (RPlus (RSet az09))))).
(** [[a-z][a-z0-9_-]*:[a-z0-9][a-z0-9._/-]*] *)
Definition REFERENCE : regex :=
  RCat (RSet az) (RCat (RStar (RSet [(97, 122); (48, 57); (95, 95); (45, 45)]))
    (RCat (RChr 58) (RCat (RSet az09)
      (RStar (RSet [(97, 122); (48, 57); (46, 46); (95, 95); (47, 47); (45, 45)]))))).

(** ** Data *)

Inductive DecisionFactorSource :=
  | Factor_EFFECT | Factor_MATCH | Factor_POLICY | Factor_CONTAINMENT | Factor_AUTHORIZATION
  | Factor_ASSURANCE | Factor_CONTROL.
Global Instance DecisionFactorSource_eq_dec : EqDecision DecisionFactorSource.
Proof. solve_decision. Defined.
Definition DecisionFactorSource_value (s : DecisionFactorSource) : pystr :=
  match s with
  | Factor_EFFECT => $"effect"
  | Factor_MATCH => $"match"
  | Factor_POLICY => $"policy"
  | Factor_CONTAINMENT => $"containment"
  | Factor_AUTHORIZATION => $"authorization"
  | Factor_ASSURANCE => $"assurance"
  | Factor_CONTROL => $"control"
  end.

Inductive FinalDisposition :=
  | Final_SILENT_VERIFIED | Final_SILENT_CONTAINED | Final_WORKFLOW_AUTHORIZED | Final_WARN
  | Final_REVIEW | Final_REQUIRE_REAPPROVAL | Final_SANDBOX_REQUIRED | Final_BLOCK.
Global Instance FinalDisposition_eq_dec : EqDecision FinalDisposition.
Proof. solve_decision. Defined.
Definition FinalDisposition_value (s : FinalDisposition) : pystr :=
  match s with
  | Final_SILENT_VERIFIED => $"silent-verified"
  | Final_SILENT_CONTAINED => $"silent-contained"
  | Final_WORKFLOW_AUTHORIZED => $"workflow-authorized"
  | Final_WARN => $"warn"
  | Final_REVIEW => $"review"
  | Final_REQUIRE_REAPPROVAL => $"require-reapproval"
  | Final_SANDBOX_REQUIRED => $"sandbox-required"
  | Final_BLOCK => $"block"
  end.
Global Instance FinalDisposition_enum : PyEnum FinalDisposition.
Proof.
  refine {| enum_value := FinalDisposition_value;
    enum_members := [Final_SILENT_VERIFIED; Final_SILENT_CONTAINED; Final_WORKFLOW_AUTHORIZED;
      Final_WARN; Final_REVIEW; Final_REQUIRE_REAPPROVAL; Final_SANDBOX_REQUIRED;
      Final_BLOCK] |}; solve_enum.
Defined.

Record PositiveProof := {
  route : ProofRoute;
  binding_digest : pystr;
  satisfied_requirements : list ProofRequirement;
  enforced : bool;
}.

(** [PositiveProof.__post_init__] *)
Definition check_PositiveProof (p : PositiveProof) : result unit :=
  raise_if (negb (fullmatch SHA256_RE (binding_digest p)))
    (ValueError "binding_digest must be a lowercase SHA-256 digest") ;;
  if bool_decide (route p = CONTAINED) then
    raise_if (negb (enforced p)) (ValueError "contained proof must be enforced") ;;
    raise_if (negb (py_in CONTAINMENT_IDENTITY (satisfied_requirements p)))
      (ValueError "contained proof must bind containment identity")
  else raise_if (enforced p) (ValueError "only contained proof may claim enforcement").

Record DecisionFactor := {
  source : DecisionFactorSource;
  reason_code : pystr;
  basis : DecisionBasis;
  segment_ref : option pystr;
  operation_ref : option pystr;
  producer_ref : option pystr;
  evidence_digest : option pystr;
  assessment : option EffectAssessment;
  proof : option PositiveProof;
}.

(** An optional string is absent or matches the pattern. *)
Definition optional_match (r : regex) (v : option pystr) : bool :=
  match v with Some s => fullmatch r s | None => true end.

(** [DecisionFactor.__post_init__].  The components of a factor are values of
    their own validated classes, so their checks come first. *)
Definition check_DecisionFactor (f : DecisionFactor) : result unit :=
  b ← make_DecisionBasis (action_floor (basis f)) (proof_route (basis f));
  match assessment f with Some a => check_EffectAssessment a | None => Ok tt end ;;
  match proof f with Some p => check_PositiveProof p | None => Ok tt end ;;
  raise_if (negb (fullmatch REASON_CODE (reason_code f)))
    (ValueError "reason_code must be a stable lowercase identifier") ;;
  raise_if (negb (optional_match REFERENCE (segment_ref f)))
    (ValueError "segment_ref must be a canonical reference") ;;
  raise_if (negb (optional_match REFERENCE (operation_ref f)))
    (ValueError "operation_ref must be a canonical reference") ;;
  raise_if (negb (optional_match REFERENCE (producer_ref f)))
    (ValueError "producer_ref must be a canonical reference") ;;
  raise_if (negb (optional_match SHA256_RE (evidence_digest f)))
    (ValueError "evidence_digest must be a lowercase SHA-256 digest") ;;
  raise_if (bool_decide (source f = Factor_EFFECT) && negb (bool_decide (is_Some (assessment f))))
    (ValueError "effect factors require an assessment") ;;
  raise_if (negb (bool_decide (source f = Factor_EFFECT)) && bool_decide (is_Some (assessment f)))
    (ValueError "only effect factors may carry an assessment") ;;
  match proof_route (basis f), proof f with
  | None, Some _ => Raise (ValueError "proof requires a matching proof route")
  | None, None => Ok tt
  | Some r, None => Raise (ValueError "permissive basis requires proof on the exact route")
  | Some r, Some p =>
      raise_if (negb (bool_decide (route p = r)))
        (ValueError "permissive basis requires proof on the exact route")
  end ;;
  match proof f, assessment f with
  | Some p, Some a =>
      raise_if (negb (py_subset (proof_requirements a) (satisfied_requirements p)))
        (ValueError "proof does not satisfy every effect requirement") ;;
      raise_if (bool_decide (route p = CONTAINED)
                && negb (py_in (containment a) [Containment_ELIGIBLE; Containment_REQUIRED]))
        (ValueError "contained proof is incompatible with the effect containment requirement") ;;
      raise_if (bool_decide (containment a = Containment_REQUIRED)
                && negb (bool_decide (route p = CONTAINED)))
        (ValueError "containment-required effects require contained proof")
  | _, _ => Ok tt
  end.

(** ** Semantic keys *)

Definition or_empty (v : option pystr) : pystr := default [] v.

Definition comma_join (parts : list pystr) : pystr := join [44] parts.

Definition assessment_key (a : option EffectAssessment) : list pystr :=
  match a with
  | None => replicate 11 []
  | Some a =>
      [enum_value (kind a); enum_value (target_scope a); enum_value (reversibility a);
       enum_value (blast_radius a); enum_value (evidence_source a); enum_value (confidence a);
       enum_value (containment a);
       comma_join (sorted_values (proof_requirements a));
       comma_join (sort_on (λ s : pystr, s) (enum_value <$> uncertainty_reasons a));
       assessment_schema_version a; $"assessment"]
  end.

Definition proof_key (p : option PositiveProof) : list pystr :=
  match p with
  | None => [[]; []; []; []]
  | Some p =>
      [enum_value (route p); binding_digest p; comma_join (sorted_values (satisfied_requirements p));
       if enforced p then $"enforced" else $"not-enforced"]
  end.

Definition semantic_key (f : DecisionFactor) : list pystr :=
  [or_empty (segment_ref f); or_empty (operation_ref f); or_empty (producer_ref f);
   or_empty (evidence_digest f); DecisionFactorSource_value (source f); reason_code f;
   action_value (action_floor (basis f));
   match proof_route (basis f) with Some r => enum_value r | None => [] end]
  ++ assessment_key (assessment f) ++ proof_key (proof f).

(** ** Requests and decisions *)

Record DecisionReason := {
  dr_source : DecisionFactorSource;
  dr_reason_code : pystr;
  dr_action_floor : GuardAction;
  dr_segment_ref : option pystr;
  dr_operation_ref : option pystr;
}.
Global Instance DecisionReason_eq_dec : EqDecision DecisionReason.
Proof. solve_decision. Defined.

Record EffectDecisionRequest := {
  factors : list DecisionFactor;
  uncertainties : list UncertaintyKind;
}.

(** [EffectDecisionRequest.__post_init__], with its default schema version. *)
Definition make_EffectDecisionRequest (fs : list DecisionFactor) (us : list UncertaintyKind)
    : result EffectDecisionRequest :=
  let ordered := sort_on semantic_key fs in
  raise_if (has_dups (semantic_key <$> ordered))
    (ValueError "duplicate decision factors are not allowed") ;;
  raise_if (has_dups us) (ValueError "uncertainties cannot contain duplicates") ;;
  Ok {| factors := ordered; uncertainties := sort_on enum_value us |}.

Record EffectDecision := {
  action : GuardAction;
  final_disposition : FinalDisposition;
  controlling_reasons : list DecisionReason;
  reasons : list DecisionReason;
  proof_routes : list ProofRoute;
}.

(** [_reason_key]: four strings and the severity rank. *)
Definition reason_key (r : DecisionReason) : list pystr * Z :=
  ([or_empty (dr_segment_ref r); or_empty (dr_operation_ref r);
    DecisionFactorSource_value (dr_source r); dr_reason_code r],
   GUARD_ACTION_SEVERITY (dr_action_floor r)).

(** [_disposition] *)
Definition disposition (a : GuardAction) (routes : list ProofRoute) : result FinalDisposition :=
  match a with
  | allow =>
      if py_in WORKFLOW_AUTHORIZED routes then Ok Final_WORKFLOW_AUTHORIZED
      else if py_in CONTAINED routes then Ok Final_SILENT_CONTAINED
      else Ok Final_SILENT_VERIFIED
  | _ =>
      match enum_of_value (A:=FinalDisposition) (action_value a) with
      | Some d => Ok d
      | None => Raise (ValueError "not a valid FinalDisposition")
      end
  end.

Definition uncertainty_reason (src : DecisionFactorSource) (seg op : option pystr)
    (u : UncertaintyKind) : DecisionReason :=
  {| dr_source := src; dr_reason_code := $"uncertainty." ++ enum_value u;
     dr_action_floor := UNCERTAINTY_FLOOR u; dr_segment_ref := seg; dr_operation_ref := op |}.

Definition factor_reason (f : DecisionFactor) : DecisionReason :=
  {| dr_source := source f; dr_reason_code := reason_code f;
     dr_action_floor := action_floor (basis f);
     dr_segment_ref := segment_ref f; dr_operation_ref := operation_ref f |}.

Definition assessment_reasons (f : DecisionFactor) : list DecisionReason :=
  match assessment f with
  | None => []
  | Some a =>
      uncertainty_reason Factor_EFFECT (segment_ref f) (operation_ref f) <$> uncertainty_reasons a
  end.

(** The reasons in the order they are collected, before sorting. *)
Definition collected_reasons (r : EffectDecisionRequest) : list DecisionReason :=
  (factor_reason <$> factors r)
  ++ (uncertainty_reason Factor_POLICY None None <$> uncertainties r)
  ++ mjoin (assessment_reasons <$> factors r).

Definition evaluate_effect_decision (r : EffectDecisionRequest) : result EffectDecision :=
  let rs := sort_on reason_key (collected_reasons r) in
  let act := maximum_action_floor (dr_action_floor <$> rs) in
  let routes := sorted_set_on enum_value (omap (λ f, route <$> proof f) (factors r)) in
  d ← disposition act routes;
  Ok {| action := act;
        final_disposition := d;
        controlling_reasons := filter (λ x, dr_action_floor x = act) rs;
        reasons := rs;
        proof_routes := routes |}.

(** ** Extension evidence as factors *)

Definition key_json (k : SemanticEvidenceKey) : json :=
  match k with
  | (heads, claims, reqs, unc, safe, schema) =>
      JArr ((JStr <$> heads)
            ++ [JArr (JStr <$> claims); JArr (JStr <$> reqs); JArr (JStr <$> unc);
                JArr (JStr <$> safe); JStr schema])
  end.

(** [_extension_evidence_digest] *)
Definition extension_evidence_digest (k : SemanticEvidenceKey) : pystr :=
  sha256_hex ($"guard-extension-evidence-factor-v1" ++ [0]
    ++ dumps (JObj [($"schema", JStr ($"guard-extension-evidence-factor-v1"));
                    ($"semantic_key", key_json k)])).

Definition factor_of_evidence (e : ExtensionEvidence) (floor : GuardAction) : DecisionFactor :=
  {| source := Factor_MATCH;
     reason_code := base_fact e;
     basis := {| action_floor := floor; proof_route := None |};
     segment_ref := Some (ev_segment_ref e);
     operation_ref := Some (ev_operation_ref e);
     producer_ref := Some ($"extension:" ++ extension_id (identity e) ++ $"/" ++ rule_id (identity e));
     evidence_digest := Some (extension_evidence_digest (evidence_semantic_key e));
     assessment := None;
     proof := None |}.

Fixpoint collect_factors (es : list ExtensionEvidence) : result (list DecisionFactor) :=
  match es with
  | [] => Ok []
  | e :: es =>
      match effective_floor e with
      | None => collect_factors es
      | Some floor =>
          let f := factor_of_evidence e floor in
          check_DecisionFactor f ;;
          fs ← collect_factors es;
          Ok (f :: fs)
      end
  end.

Definition factors_from_extension_evidence (b : ExtensionEvidenceBatch)
    : result (list DecisionFactor) :=
  fs ← collect_factors (evidence b);
  Ok (sort_on semantic_key fs).

(** ** Lemmas *)

(** A validated factor, as the constructor of the dataclass guarantees it. *)
Definition factor_ok (f : DecisionFactor) : Prop := check_DecisionFactor f = Ok tt.

(** What validation guarantees of a factor with a permissive floor. *)
Definition positively_proved (f : DecisionFactor) : Prop :=
  ∃ p, proof f = Some p ∧ proof_route (basis f) = Some (route p) ∧
    (route p = CONTAINED → enforced p = true) ∧
    ∀ a, assessment f = Some a →
      (∀ q, q ∈ proof_requirements a → q ∈ satisfied_requirements p) ∧
      (containment a = Containment_REQUIRED → route p = CONTAINED).

Lemma factor_ok_permissive f :
  factor_ok f → GUARD_ACTION_SEVERITY (action_floor (basis f)) < GUARD_ACTION_SEVERITY review →
  positively_proved f.
Proof.
  unfold factor_ok, check_DecisionFactor. intros H Hlt.
  apply bind_Ok in H as (b & Hb & H). apply bind_Ok in H as ([] & _ & H).
  apply bind_Ok in H as ([] & Hp & H).
  do 7 (apply bind_Ok in H as ([] & _ & H)). apply bind_Ok in H as ([] & Hr & H).
  unfold make_DecisionBasis in Hb. apply bind_Ok in Hb as ([] & Hb & _).
  apply raise_if_Ok in Hb. apply Z.ltb_lt in Hlt. rewrite Hlt in Hb. simpl in Hb.
  destruct (proof_route (basis f)) as [r|] eqn:Er; [|done].
  destruct (proof f) as [p|] eqn:Ep; [|done]. apply raise_if_Ok in Hr.
  rewrite negb_false_iff, bool_decide_eq_true in Hr. subst r.
  exists p. split; [done|]. split; [done|]. split.
  - intros Hc. unfold check_PositiveProof in Hp. rewrite bool_decide_true in Hp by done.
    inv_ok. by apply negb_false_iff.
  - intros a Ea. rewrite Ea in H. inv_ok. split_bool. split.
    + by apply py_subset_true.
    + intros Hc. match goal with H : _ && _ = false |- _ => rename H into Hreq end.
      rewrite Hc, bool_decide_true in Hreq by done. simpl in Hreq.
      by rewrite negb_false_iff, bool_decide_eq_true in Hreq.
Qed.

(** An assessment without uncertainty has every dimension known. *)
Lemma factor_ok_known f a :
  factor_ok f → assessment f = Some a → uncertainty_reasons a = [] →
  has_unknown_dimension a = false ∧ uncertain_confidence (confidence a) = false.
Proof.
  unfold factor_ok, check_DecisionFactor. intros H Ea Hu.
  apply bind_Ok in H as (b & _ & H). apply bind_Ok in H as ([] & Ha & _). rewrite Ea in Ha.
  unfold check_EffectAssessment in Ha. inv_ok. rewrite Hu in *. simpl in *.
  rewrite !orb_true_r, !andb_true_r in *. done.
Qed.

Lemma make_request_Ok fs us r :
  make_EffectDecisionRequest fs us = Ok r ↔
  NoDup (semantic_key <$> fs) ∧ NoDup us ∧
  factors r = sort_on semantic_key fs ∧ uncertainties r = sort_on enum_value us.
Proof.
  unfold make_EffectDecisionRequest.
  assert (NoDup (semantic_key <$> sort_on semantic_key fs) ↔ NoDup (semantic_key <$> fs)) as Hnd
    by by rewrite sort_on_Permutation.
  rewrite bind_Ok. setoid_rewrite bind_Ok. setoid_rewrite raise_if_Ok.
  setoid_rewrite has_dups_false. setoid_rewrite Hnd. destruct r as [rf ru]; simpl. naive_solver.
Qed.

Lemma make_request_perm fs fs' us us' :
  fs ≡ₚ fs' → us ≡ₚ us' → make_EffectDecisionRequest fs us = make_EffectDecisionRequest fs' us'.
Proof.
  intros Hf Hu. unfold make_EffectDecisionRequest. cbv zeta.
  assert (sort_on enum_value us = sort_on enum_value us') as ->.
  { apply sort_on_perm; [|done]. intros x y _ _. apply (inj enum_value). }
  assert (has_dups us = has_dups us') as ->.
  { unfold has_dups. apply bool_decide_ext. by rewrite Hu. }
  assert (has_dups (semantic_key <$> sort_on semantic_key fs)
    = has_dups (semantic_key <$> sort_on semantic_key fs')) as Hd.
  { unfold has_dups. apply bool_decide_ext. by rewrite !sort_on_Permutation, Hf. }
  destruct (has_dups (semantic_key <$> sort_on semantic_key fs)) eqn:E; rewrite <- Hd; [done|].
  rewrite has_dups_false, sort_on_Permutation in E.
  assert (sort_on semantic_key fs = sort_on semantic_key fs') as ->; [|done].
  apply sort_on_perm; [|done]. intros x y. by apply NoDup_fmap_separates.
Qed.

Lemma disposition_total a routes : ∃ d, disposition a routes = Ok d.
Proof. destruct a; simpl; repeat case_match; eauto. Qed.

Lemma evaluate_floor r d :
  evaluate_effect_decision r = Ok d →
  action d = maximum_action_floor (dr_action_floor <$> collected_reasons r) ∧
  reasons d ≡ₚ collected_reasons r ∧
  controlling_reasons d = filter (λ x, dr_action_floor x = action d) (reasons d).
Proof.
  unfold evaluate_effect_decision. intros H. inv_ok. split; [|split; [|done]].
  - apply maximum_action_floor_perm. by rewrite sort_on_Permutation.
  - apply sort_on_Permutation.
Qed.

Lemma elem_of_collected r x :
  x ∈ collected_reasons r ↔
  (∃ f, f ∈ factors r ∧ x = factor_reason f) ∨
  (∃ u, u ∈ uncertainties r ∧ x = uncertainty_reason Factor_POLICY None None u) ∨
  (∃ f a u, f ∈ factors r ∧ assessment f = Some a ∧ u ∈ uncertainty_reasons a ∧
     x = uncertainty_reason Factor_EFFECT (segment_ref f) (operation_ref f) u).
Proof.
  unfold collected_reasons. rewrite !elem_of_app, list_elem_of_join.
  rewrite !list_elem_of_fmap. setoid_rewrite list_elem_of_fmap. unfold assessment_reasons. split.
  - intros [(f & -> & ?)|[(u & -> & ?)|(l & Hl & f & -> & Hf)]]; eauto.
    destruct (assessment f) as [a|] eqn:Ea; [|by apply elem_of_nil in Hl].
    apply list_elem_of_fmap in Hl as (u & -> & Hu). right; right. by exists f, a, u.
  - intros [(f & ? & ->)|[(u & ? & ->)|(f & a & u & ? & Ea & ? & ->)]]; eauto.
    right; right. eexists. split; [|exists f; split; [reflexivity | done]].
    rewrite Ea. apply list_elem_of_fmap. eauto.
Qed.

(** ** Properties *)

(** C1: Guard permits a command ([allow] or [warn]) only on positive proof:
    from validated factors, a permissive decision means that there was at least
    one factor, no uncertainty anywhere, every factor carries a proof on its
    basis's exact route that satisfies all requirements of its effect (an
    enforced containment proof where containment is required), and no effect
    dimension was unknown. *)
Theorem permissive_decision_is_proved (fs : list DecisionFactor) (us : list UncertaintyKind)
    (r : EffectDecisionRequest) (d : EffectDecision)
    (Hvalid : Forall factor_ok fs)
    (Hr : make_EffectDecisionRequest fs us = Ok r)
    (Hd : evaluate_effect_decision r = Ok d)
    (Hperm : GUARD_ACTION_SEVERITY (action d) < GUARD_ACTION_SEVERITY review) :
  fs ≠ [] ∧ us = [] ∧
  (∀ f, f ∈ fs → positively_proved f) ∧
  (∀ f a, f ∈ fs → assessment f = Some a →
     uncertainty_reasons a = [] ∧ has_unknown_dimension a = false).
Proof.
  apply make_request_Ok in Hr as (_ & _ & Hf & Hu).
  apply evaluate_floor in Hd as (Hact & _ & _). rewrite Hact in Hperm.
  assert (∀ x, x ∈ collected_reasons r →
    GUARD_ACTION_SEVERITY (dr_action_floor x) < GUARD_ACTION_SEVERITY review) as Hall.
  { intros x Hx. eapply Z.le_lt_trans; [|exact Hperm].
    apply maximum_action_floor_ge, list_elem_of_fmap. eauto. }
  assert (∀ u, ¬ GUARD_ACTION_SEVERITY (UNCERTAINTY_FLOOR u) < GUARD_ACTION_SEVERITY review) as Hnu.
  { intros u. pose proof (uncertainty_floor_review u). lia. }
  assert (∀ f, f ∈ fs ↔ f ∈ factors r) as Hfs by (intros f; by rewrite Hf, elem_of_sort_on).
  rewrite Forall_forall in Hvalid.
  assert (∀ f a, f ∈ fs → assessment f = Some a → uncertainty_reasons a = []) as Ha.
  { intros f a Hin Ea. destruct (uncertainty_reasons a) as [|u l] eqn:El; [done|].
    destruct (Hnu u). apply (Hall (uncertainty_reason Factor_EFFECT (segment_ref f)
      (operation_ref f) u)). apply elem_of_collected. right; right.
    exists f, a, u. rewrite El. repeat split; [by apply Hfs | done | left]. }
  split; [|split; [|split]].
  - intros ->. destruct (collected_reasons r) as [|x l] eqn:E; [by vm_compute in Hperm|].
    assert (x ∈ collected_reasons r) as Hx by (rewrite E; left).
    specialize (Hall x ltac:(left)). apply elem_of_collected in Hx.
    rewrite Hf in Hx. setoid_rewrite elem_of_sort_on in Hx.
    destruct Hx as [(f & ?%elem_of_nil & _)|[(u & _ & ->)|(f & _ & _ & ?%elem_of_nil & _)]];
      [done | by destruct (Hnu u) | done].
  - destruct us as [|u us]; [done|]. destruct (Hnu u).
    apply (Hall (uncertainty_reason Factor_POLICY None None u)), elem_of_collected.
    right; left. exists u. split; [|done]. rewrite Hu, elem_of_sort_on. left.
  - intros f Hin. apply factor_ok_permissive; [auto|].
    apply (Hall (factor_reason f)), elem_of_collected. left. exists f. by rewrite <- Hfs.
  - intros f a Hin Ea. split; [by eapply Ha|].
    by apply (factor_ok_known f a); [auto | done | eapply Ha].
Qed.

(** a decision depends only on which factors and uncertainties it was
    given: building the request and evaluating it gives the same decision (or
    the same rejection) for every permutation, and evaluation never raises. *)
Theorem effect_decision_order_independent (fs fs' : list DecisionFactor)
    (us us' : list UncertaintyKind) (Hf : fs ≡ₚ fs') (Hu : us ≡ₚ us') :
  (make_EffectDecisionRequest fs us ≫= evaluate_effect_decision)
  = (make_EffectDecisionRequest fs' us' ≫= evaluate_effect_decision) ∧
  ∀ r, ∃ d, evaluate_effect_decision r = Ok d.
Proof.
  split; [by rewrite (make_request_perm fs fs' us us')|]. intros r.
  unfold evaluate_effect_decision.
  destruct (disposition_total
    (maximum_action_floor (dr_action_floor <$> sort_on reason_key (collected_reasons r)))
    (sorted_set_on enum_value (omap (λ f, route <$> proof f) (factors r)))) as [x ->].
  simpl. eauto.
Qed.

Lemma collected_incl r r' :
  (∀ f, f ∈ factors r → f ∈ factors r') → (∀ u, u ∈ uncertainties r → u ∈ uncertainties r') →
  ∀ x, x ∈ collected_reasons r → x ∈ collected_reasons r'.
Proof.
  intros Hf Hu x. rewrite !elem_of_collected.
  intros [(f & ? & ->)|[(u & ? & ->)|(f & a & u & ? & ? & ? & ->)]]; eauto 10.
Qed.

(** evidence only restricts: adding factors and uncertainties to a
    request that has some never lowers the action, and every controlling
    reason of a decision carries exactly the decided action. *)
Theorem effect_decision_monotone (fs gs : list DecisionFactor) (us vs : list UncertaintyKind)
    (r r' : EffectDecisionRequest) (d d' : EffectDecision)
    (Hne : fs ≠ [] ∨ us ≠ [])
    (Hr : make_EffectDecisionRequest fs us = Ok r) (Hd : evaluate_effect_decision r = Ok d)
    (Hr' : make_EffectDecisionRequest (fs ++ gs) (us ++ vs) = Ok r')
    (Hd' : evaluate_effect_decision r' = Ok d') :
  GUARD_ACTION_SEVERITY (action d) ≤ GUARD_ACTION_SEVERITY (action d') ∧
  Forall (λ x, dr_action_floor x = action d) (controlling_reasons d) ∧
  controlling_reasons d ≠ [].
Proof.
  apply make_request_Ok in Hr as (_ & _ & Hf & Hu), Hr' as (_ & _ & Hf' & Hu').
  apply evaluate_floor in Hd as (Ha & Hp & Hc), Hd' as (Ha' & _ & _).
  assert (∃ x, x ∈ collected_reasons r) as [x0 Hx0].
  { destruct Hne as [Hne|Hne].
    - destruct fs as [|f fs]; [done|]. exists (factor_reason f). apply elem_of_collected.
      left. exists f. rewrite Hf, elem_of_sort_on. split; [left | done].
    - destruct us as [|u us]; [done|]. exists (uncertainty_reason Factor_POLICY None None u).
      apply elem_of_collected. right; left. exists u. rewrite Hu, elem_of_sort_on.
      split; [left | done]. }
  assert (∃ x, x ∈ collected_reasons r ∧ dr_action_floor x = action d) as (x & Hx & Hxa).
  { rewrite Ha. destruct (dr_action_floor <$> collected_reasons r) as [|a l] eqn:E.
    - destruct (collected_reasons r); [by apply elem_of_nil in Hx0 | done].
    - pose proof (maximum_action_floor_in a l) as Hin. rewrite <- E in Hin at 2.
      apply list_elem_of_fmap in Hin as (x & ? & ?). eauto. }
  split; [|split].
  - rewrite <- Hxa, Ha'. apply maximum_action_floor_ge, list_elem_of_fmap. exists x.
    split; [done|]. eapply collected_incl; [| |exact Hx].
    + intros f. rewrite Hf, Hf', !elem_of_sort_on, elem_of_app. auto.
    + intros u. rewrite Hu, Hu', !elem_of_sort_on, elem_of_app. auto.
  - rewrite Hc. apply Forall_forall. by intros y [? _]%list_elem_of_filter.
  - rewrite Hc. intros Hnil. apply (not_elem_of_nil x). rewrite <- Hnil.
    apply list_elem_of_filter. by rewrite Hp.
Qed.

(** ** Extension evidence as factors *)

Definition REFERENCE_TAIL : list (Z * Z) :=
  [(97, 122); (48, 57); (46, 46); (95, 95); (47, 47); (45, 45)].

Lemma stable_id_reason_code s :
  fullmatch EVIDENCE_STABLE_ID s = true → fullmatch REASON_CODE s = true.
Proof.
  rewrite !fullmatch_spec. revert s. apply re_incl_cat; [auto with guard|].
  apply re_incl_cat; [auto with guard|]. apply re_incl_star, re_incl_cat; [|auto with guard].
  apply re_incl_set. intros c. solve_in_set.
Qed.

Lemma stable_id_tail s :
  fullmatch EVIDENCE_STABLE_ID s = true →
  ∃ c z, s = c :: z ∧ in_set az09 c = true ∧ Forall (λ c, in_set REFERENCE_TAIL c = true) s.
Proof.
  rewrite fullmatch_spec. intros Hm.
  assert (Forall (λ c, in_set REFERENCE_TAIL c = true) s) as Hall.
  { eapply matches_chars; [|exact Hm]. simpl. repeat split; intros c; solve_in_set. }
  apply matches_cat in Hm as (x & z & -> & (c & -> & Hc)%matches_set & _).
  exists c, z. split; [done|]. split; [|done]. by eapply ranges_sub_spec in Hc.
Qed.

(** The producer reference of an observation is a canonical reference. *)
Lemma producer_ref_reference ext rule :
  fullmatch EVIDENCE_STABLE_ID ext = true → fullmatch EVIDENCE_STABLE_ID rule = true →
  fullmatch REFERENCE ($"extension:" ++ ext ++ $"/" ++ rule) = true.
Proof.
  intros (c & z & -> & Hc & Hz)%stable_id_tail (_ & _ & _ & _ & Hr)%stable_id_tail.
  apply fullmatch_spec.
  change ($"extension:" ++ (c :: z) ++ $"/" ++ rule)
    with ([101] ++ ([120; 116; 101; 110; 115; 105; 111; 110] ++ ([58] ++ ([c] ++ (z ++ [47] ++ rule))))).
  constructor; [by constructor|].
  constructor; [apply matches_star_set; repeat constructor|].
  constructor; [by constructor|]. constructor; [by constructor|].
  apply matches_star_set. inversion Hz; subst. apply Forall_app; split; [done|].
  constructor; [reflexivity | done].
Qed.

Lemma factor_of_evidence_ok e floor :
  evidence_ok e → effective_floor e = Some floor → factor_ok (factor_of_evidence e floor).
Proof.
  intros He Hf. pose proof (evidence_ok_floor e He) as Hfl.
  assert (floor = declared_floor e) as ->
    by (unfold effective_floor in Hf; destruct (safe_variant e); congruence).
  unfold evidence_ok, check_ExtensionEvidence, check_ExtensionRuleIdentity,
    require_stable_id, require_reference in He. inv_ok. split_bool.
  assert (fullmatch REFERENCE ($"extension:" ++ extension_id (identity e) ++ $"/"
    ++ rule_id (identity e)) = true) as Hpr by by apply producer_ref_reference.
  unfold factor_ok, check_DecisionFactor, factor_of_evidence, make_DecisionBasis.
  simpl in Hpr |- *.
  rewrite (proj2 (Z.ltb_ge _ _) Hfl). simpl. unfold optional_match.
  rewrite stable_id_reason_code by done.
  unfold extension_evidence_digest. rewrite sha256_hex_matches.
  change REFERENCE with CANONICAL_REFERENCE.
  repeat match goal with
  | H : fullmatch CANONICAL_REFERENCE _ = true |- _ => rewrite H
  end.
  change CANONICAL_REFERENCE with REFERENCE. rewrite Hpr. reflexivity.
Qed.

Lemma collect_factors_Ok es :
  Forall evidence_ok es →
  ∃ fs, collect_factors es = Ok fs ∧
    fs = omap (λ e, factor_of_evidence e <$> effective_floor e) es.
Proof.
  induction 1 as [|e es He Hes (fs & IH & ->)]; simpl; [eauto|].
  destruct (effective_floor e) as [a|] eqn:Ea; simpl; [|eauto].
  pose proof (factor_of_evidence_ok e a He Ea) as Hok. unfold factor_ok in Hok.
  rewrite Hok. simpl. rewrite IH. simpl. eauto.
Qed.

Lemma omap_floors (es : list ExtensionEvidence) :
  (action_floor ∘ basis) <$> omap (λ e, factor_of_evidence e <$> effective_floor e) es
  = omap effective_floor es.
Proof.
  induction es as [|e es IH]; simpl; [done|].
  destruct (effective_floor e); simpl; [f_equal; exact IH | exact IH].
Qed.

Lemma collected_no_assessment r :
  uncertainties r = [] → Forall (λ f, assessment f = None) (factors r) →
  dr_action_floor <$> collected_reasons r = (action_floor ∘ basis) <$> factors r.
Proof.
  intros Hu Hf. unfold collected_reasons. rewrite Hu. simpl.
  assert (mjoin (assessment_reasons <$> factors r) = []) as ->.
  { induction Hf as [|f fs E _ IH]; [done|]. simpl. unfold assessment_reasons at 1. by rewrite E. }
  by rewrite app_nil_r, <- list_fmap_compose.
Qed.

(** translating a batch of validated extension observations into factors
    never raises, gives only validated factors that carry no proof, and loses
    no floor: deciding on exactly these factors gives the batch's own floor,
    and there are none exactly when the batch has no floor. *)
Theorem extension_factors_keep_floor (obs : list ExtensionEvidence) (b : ExtensionEvidenceBatch)
    (Hvalid : Forall evidence_ok obs) (Hb : make_ExtensionEvidenceBatch obs = Ok b) :
  ∃ fs, factors_from_extension_evidence b = Ok fs ∧
    Forall (λ f, factor_ok f ∧ proof f = None ∧ source f = Factor_MATCH) fs ∧
    (fs = [] ↔ evidence_floor b = None) ∧
    (∀ r d, fs ≠ [] → make_EffectDecisionRequest fs [] = Ok r →
       evaluate_effect_decision r = Ok d → evidence_floor b = Some (action d)).
Proof.
  apply make_batch_Ok in Hb as [_ Hb].
  assert (Forall evidence_ok (evidence b)) as Hv by by rewrite Hb, Forall_sort_on.
  destruct (collect_factors_Ok (evidence b) Hv) as (fs & Hc & Hfs).
  unfold factors_from_extension_evidence. rewrite Hc. simpl. eexists. split; [done|].
  pose proof (omap_floors (evidence b)) as Hfl. rewrite <- Hfs in Hfl.
  assert (Forall (λ f, factor_ok f ∧ proof f = None ∧ source f = Factor_MATCH ∧
    assessment f = None) fs) as Hall.
  { rewrite Hfs. apply Forall_forall. intros f (e & He & Hf)%list_elem_of_omap.
    destruct (effective_floor e) as [a|] eqn:Ea; [|done]. injection Hf as <-.
    rewrite Forall_forall in Hv. split; [|done]. apply factor_of_evidence_ok; auto. }
  split; [|split].
  - rewrite Forall_sort_on. eapply Forall_impl; [exact Hall|]. naive_solver.
  - unfold evidence_floor. rewrite <- Hfl. split.
    + intros Hn. pose proof (sort_on_Permutation semantic_key fs) as Hp. rewrite Hn in Hp.
      by apply Permutation_nil_l in Hp as <-.
    + destruct fs; [done|]. by intros [=].
  - intros r d Hne (_ & _ & Hf & Hu)%make_request_Ok (Ha & _ & _)%evaluate_floor.
    rewrite Ha, collected_no_assessment; [|by rewrite Hu|].
    + rewrite Hf, sort_on_idemp. unfold evidence_floor.
      erewrite (maximum_action_floor_perm _ (omap effective_floor (evidence b)))
        by by rewrite sort_on_Permutation, Hfl.
      destruct (omap effective_floor (evidence b)); [|done].
      destruct fs; [done | by simpl in Hfl].
    + rewrite Hf, !Forall_sort_on. eapply Forall_impl; [exact Hall|]. naive_solver.
Qed.

(** ** Witnesses *)

Definition sample_digest : pystr := replicate 64 97.

Definition sample_assessment : EffectAssessment :=
  {| kind := WORKSPACE_WRITE; target_scope := Scope_WORKSPACE; reversibility := REVERSIBLE;
     blast_radius := Radius_WORKSPACE; evidence_source := Source_PARSER;
     confidence := Confidence_EXACT; containment := Containment_REQUIRED;
     proof_requirements := [CONTAINMENT_IDENTITY; LAUNCH_CHAIN]; uncertainty_reasons := [];
     assessment_schema_version := $"1.0.0" |}.

Definition sample_contained : DecisionFactor :=
  {| source := Factor_EFFECT; reason_code := $"workspace.write";
     basis := {| action_floor := allow; proof_route := Some CONTAINED |};
     segment_ref := Some ($"segment:0"); operation_ref := None; producer_ref := None;
     evidence_digest := None; assessment := Some sample_assessment;
     proof := Some {| route := CONTAINED; binding_digest := sample_digest;
       satisfied_requirements := [LAUNCH_CHAIN; CONTAINMENT_IDENTITY]; enforced := true |} |}.

Definition sample_policy : DecisionFactor :=
  {| source := Factor_POLICY; reason_code := $"policy.review";
     basis := {| action_floor := sandbox_required; proof_route := None |};
     segment_ref := None; operation_ref := None; producer_ref := None;
     evidence_digest := None; assessment := None; proof := None |}.

Lemma permissive_decision_witness : positively_proved sample_contained.
Proof.
  destruct (make_EffectDecisionRequest [sample_contained] []) as [r|] eqn:Hr;
    [|vm_compute in Hr; discriminate Hr].
  destruct (evaluate_effect_decision r) as [d|] eqn:Hd;
    [|vm_compute in Hr; injection Hr as <-; vm_compute in Hd; discriminate Hd].
  apply (permissive_decision_is_proved [sample_contained] [] r d).
  - repeat constructor; vm_compute; reflexivity.
  - exact Hr.
  - exact Hd.
  - vm_compute in Hr. injection Hr as <-. vm_compute in Hd. injection Hd as <-.
    vm_compute. reflexivity.
  - left.
Defined.

Lemma effect_decision_order_witness :
  (make_EffectDecisionRequest [sample_contained; sample_policy] [] ≫= evaluate_effect_decision)
  = (make_EffectDecisionRequest [sample_policy; sample_contained] [] ≫= evaluate_effect_decision).
Proof.
  apply (effect_decision_order_independent _ _ [] []); [apply Permutation_swap | reflexivity].
Defined.

Lemma effect_decision_monotone_witness :
  ∃ r d r' d',
    make_EffectDecisionRequest [sample_contained] [] = Ok r ∧
    evaluate_effect_decision r = Ok d ∧
    make_EffectDecisionRequest [sample_contained; sample_policy] [PARTIAL_PARSE] = Ok r' ∧
    evaluate_effect_decision r' = Ok d' ∧
    action d = allow ∧ action d' = sandbox_required ∧
    GUARD_ACTION_SEVERITY (action d) ≤ GUARD_ACTION_SEVERITY (action d').
Proof.
  do 4 eexists. do 4 (split; [vm_compute; reflexivity|]).
  split; [vm_compute; reflexivity|]. split; [vm_compute; reflexivity|].
  eapply (effect_decision_monotone [sample_contained] [sample_policy] [] [PARTIAL_PARSE]);
    [left; discriminate | vm_compute; reflexivity..].
Defined.

Lemma extension_factors_witness :
  ∃ b fs, make_ExtensionEvidenceBatch [sample_unsafe; sample_neutralized] = Ok b ∧
    factors_from_extension_evidence b = Ok fs ∧ (fs = [] ↔ evidence_floor b = None).
Proof.
  destruct (make_ExtensionEvidenceBatch [sample_unsafe; sample_neutralized]) as [b|] eqn:Hb;
    [|vm_compute in Hb; discriminate Hb].
  destruct (extension_factors_keep_floor [sample_unsafe; sample_neutralized] b)
    as (fs & Hfs & _ & Hn & _).
  - repeat constructor; vm_compute; reflexivity.
  - exact Hb.
  - exists b, fs. split; [reflexivity|]. split; [exact Hfs | exact Hn].
Defined.
