(* ===== verification/CommandCatalog.v ===== *)
(** * Command catalog

    Models [guard/runtime/generated_command_catalog.py] (the registry
    [CommandSafetyExtensionRegistry] of [command_extensions.py]) and
    [guard/runtime/extension_control_limits.py]: the metadata records with
    their canonical dictionaries, the catalog constructor with its validation
    and relationship indexes, and the lookups.

    A [Mapping[str, object]] of metadata is a [metadata] value; strings hold
    no lone surrogates.  [str.lower] is the method of [PyUnicode]. *)

From S2P Require Import Prelude PyStr Sha256 Regex PyVal.
Local Open Scope Z_scope.
Local Open Scope py_scope.

(** ** Limits *)

Definition LIMITS_SCHEMA_VERSION : Z := 1.
Definition MAX_CATALOG_EXTENSIONS : Z := 512.
Definition MAX_CATALOG_PAYLOAD_BYTES : Z := 1000000.
Definition MAX_CONTROL_LAYERS : Z := 2.
Definition MAX_CONTROL_SET_RULES : Z := 1024.
Definition MAX_CONTROL_SET_TARGETS : Z := 1024.
Definition MAX_CONTROLS_PER_LAYER : Z := 512.
Definition MAX_CONTROLS_TOTAL : Z := MAX_CONTROL_LAYERS * MAX_CONTROLS_PER_LAYER.
Definition MAX_INPUT_TEXT_LENGTH : Z := 256.
Definition MAX_OBSERVATIONS : Z := 2048.
Definition MAX_PERMISSIONS_PER_EXTENSION : Z := 512.
Definition MAX_RESOLUTION_IDS : Z := 1024.

(** [len(xs)] *)
Definition zlen {A} (l : list A) : Z := Z.of_nat (length l).

Inductive ExtensionControlLimitViolation :=
  | LAYERS | PER_LAYER | TOTAL_CONTROLS | RESOLUTION_IDS | OBSERVATIONS | INPUT_TEXT.

Definition extension_control_limit_violation (layer_sizes : list Z)
    (extension_id_count permission_id_count observation_count max_input_length : Z)
    : option ExtensionControlLimitViolation :=
  if MAX_CONTROL_LAYERS <? zlen layer_sizes then Some LAYERS
  else if existsb (λ size, MAX_CONTROLS_PER_LAYER <? size) layer_sizes then Some PER_LAYER
  else if MAX_CONTROLS_TOTAL <? foldr Z.add 0 layer_sizes then Some TOTAL_CONTROLS
  else if (MAX_RESOLUTION_IDS <? extension_id_count) || (MAX_RESOLUTION_IDS <? permission_id_count)
       then Some RESOLUTION_IDS
  else if MAX_OBSERVATIONS <? observation_count then Some OBSERVATIONS
  else if MAX_INPUT_TEXT_LENGTH <? max_input_length then Some INPUT_TEXT
  else None.

Definition advertised_extension_control_limits : list (pystr * Z) :=
  [($"schema_version", LIMITS_SCHEMA_VERSION);
   ($"max_catalog_extensions", MAX_CATALOG_EXTENSIONS);
   ($"max_catalog_payload_bytes", MAX_CATALOG_PAYLOAD_BYTES);
   ($"max_control_layers", MAX_CONTROL_LAYERS);
   ($"max_control_set_rules", MAX_CONTROL_SET_RULES);
   ($"max_control_set_targets", MAX_CONTROL_SET_TARGETS);
   ($"max_controls_per_layer", MAX_CONTROLS_PER_LAYER);
   ($"max_controls_total", MAX_CONTROLS_TOTAL);
   ($"max_input_text_length", MAX_INPUT_TEXT_LENGTH);
   ($"max_observations", MAX_OBSERVATIONS);
   ($"max_permissions_per_extension", MAX_PERMISSIONS_PER_EXTENSION);
   ($"max_resolution_ids", MAX_RESOLUTION_IDS)].

(** ** Frozen metadata *)

(** Metadata values: JSON data, with lists told apart from tuples and plain
    dictionaries from the read-only mapping proxies of [immutable_mapping]. *)
Inductive metadata :=
  | MAtom (j : json)
  | MList (l : list metadata)
  | MTuple (l : list metadata)
  | MDict (kv : list (pystr * metadata))
  | MProxy (kv : list (pystr * metadata)).

(** [freeze_metadata] with [immutable_mapping] inlined. *)
Fixpoint freeze_metadata (m : metadata) : metadata :=
  match m with
  | MAtom j => MAtom j
  | MList l | MTuple l => MTuple (map freeze_metadata l)
  | MDict kv | MProxy kv => MProxy (map (λ p, (p.1, freeze_metadata p.2)) kv)
  end.

Definition immutable_mapping (kv : list (pystr * metadata)) : metadata :=
  MProxy (map (λ p, (p.1, freeze_metadata p.2)) kv).

Fixpoint thaw_metadata (m : metadata) : metadata :=
  match m with
  | MAtom j => MAtom j
  | MList l => MList l
  | MTuple l => MList (map thaw_metadata l)
  | MDict kv | MProxy kv => MDict (map (λ p, (p.1, thaw_metadata p.2)) kv)
  end.

(** What [json.dumps] sees of a thawed value. *)
Fixpoint metadata_json (m : metadata) : json :=
  match m with
  | MAtom j => j
  | MList l | MTuple l => JArr (map metadata_json l)
  | MDict kv | MProxy kv => JObj (map (λ p, (p.1, metadata_json p.2)) kv)
  end.

(** Values as [json.loads] gives them: no tuples and no proxies. *)
Fixpoint plain_metadata (m : metadata) : bool :=
  match m with
  | MAtom _ => true
  | MList l => forallb plain_metadata l
  | MDict kv => forallb (λ p, plain_metadata p.2) kv
  | MTuple _ | MProxy _ => false
  end.

(** ** Records *)

Record GeneratedCommandSafeVariant := {
  variant_id : pystr;
  variant_title : pystr;
  variant_matcher_kind : pystr;
  variant_matcher_contract_digest : pystr;
}.

Global Instance GeneratedCommandSafeVariant_eq_dec : EqDecision GeneratedCommandSafeVariant.
Proof. solve_decision. Defined.

Inductive CommandRuleMode := mode_required | mode_enforce | mode_review | mode_monitor | mode_disabled.
Global Instance CommandRuleMode_eq_dec : EqDecision CommandRuleMode.
Proof. solve_decision. Defined.
Definition CommandRuleMode_value (m : CommandRuleMode) : pystr :=
  match m with
  | mode_required => $"required" | mode_enforce => $"enforce" | mode_review => $"review"
  | mode_monitor => $"monitor" | mode_disabled => $"disabled"
  end.

Record GeneratedCommandRule := {
  rule_id : pystr;
  rule_version : pystr;
  rule_title : pystr;
  rule_description : pystr;
  rule_severity : pystr;
  default_mode : CommandRuleMode;
  rule_action_classes : list pystr;
  rule_risk_classes : list pystr;
  rule_safer_alternatives : list pystr;
  compatibility_fallback : bool;
  rule_matcher_kind : pystr;
  rule_matcher_contract_digest : pystr;
  safe_variants : list GeneratedCommandSafeVariant;
  rule_family : option pystr;
}.
Global Instance GeneratedCommandRule_eq_dec : EqDecision GeneratedCommandRule.
Proof. solve_decision. Defined.

Record GeneratedCommandPermission := {
  permission_id : pystr;
  permission_schema_version : Z;
  permission_extension_id : pystr;
  implementation_version : pystr;
  label : pystr;
  permission_description : pystr;
  risk_tier : pystr;
  baseline_floor : pystr;
  default_enabled : bool;
  configurable : bool;
  fixed_reason : option pystr;
  typed_capabilities : list pystr;
  permission_action_classes : list pystr;
  permission_rule_ids : list pystr;
  permission_dependencies : list pystr;
  permission_conflicts : list pystr;
  implied_permissions : list pystr;
  introduced_version : pystr;
  deprecated : bool;
  replacement_permission_id : option pystr;
  safer_guidance : list pystr;
  example_command : option pystr;
  permission_family : option pystr;
}.
Global Instance GeneratedCommandPermission_eq_dec : EqDecision GeneratedCommandPermission.
Proof. solve_decision. Defined.

Record GeneratedCommandExtension := {
  extension_id : pystr;
  version : pystr;
  name : pystr;
  description : pystr;
  action_classes : list pystr;
  risk_classes : list pystr;
  safer_alternatives : list pystr;
  rules : list GeneratedCommandRule;
  required : bool;
  ext_source : pystr;
  aliases : list pystr;
  dependencies : list pystr;
  conflicts : list pystr;
  delegated_protection : option pystr;
  ecosystem_ids : list pystr;
  executables : list pystr;
  project_markers : list pystr;
  reference_urls : list pystr;
  permissions : list GeneratedCommandPermission;
  ext_schema_version : Z;
  activation : pystr;
  enabled : bool;
  trust_class : pystr;
  icon : list (pystr * metadata);
  publisher : list (pystr * metadata);
  ext_surface : option pystr;
  mcp_launch : option (list (pystr * metadata));
  mcp_tools : list (list (pystr * metadata));
}.

(** ** [to_dict] *)

Definition jstrs (l : list pystr) : json := JArr (JStr <$> l).
Definition jmapping (kv : list (pystr * metadata)) : json :=
  metadata_json (thaw_metadata (MProxy kv)).

Definition variant_to_dict (v : GeneratedCommandSafeVariant) : json :=
  JObj [($"variant_id", JStr (variant_id v));
        ($"title", JStr (variant_title v));
        ($"matcher_kind", JStr (variant_matcher_kind v));
        ($"matcher_contract_digest", JStr (variant_matcher_contract_digest v))].

Definition rule_to_dict (r : GeneratedCommandRule) : json :=
  JObj [($"rule_id", JStr (rule_id r));
        ($"rule_version", JStr (rule_version r));
        ($"title", JStr (rule_title r));
        ($"description", JStr (rule_description r));
        ($"severity", JStr (rule_severity r));
        ($"default_mode", JStr (CommandRuleMode_value (default_mode r)));
        ($"action_classes", jstrs (rule_action_classes r));
        ($"risk_classes", jstrs (rule_risk_classes r));
        ($"safer_alternatives", jstrs (rule_safer_alternatives r));
        ($"compatibility_fallback", JBool (compatibility_fallback r));
        ($"matcher_kind", JStr (rule_matcher_kind r));
        ($"matcher_contract_digest", JStr (rule_matcher_contract_digest r));
        ($"safe_variants", JArr (variant_to_dict <$> safe_variants r));
        ($"family", jopt JStr (rule_family r))].

Definition permission_to_dict (p : GeneratedCommandPermission) : json :=
  JObj [($"permission_id", JStr (permission_id p));
        ($"schema_version", JInt (permission_schema_version p));
        ($"extension_id", JStr (permission_extension_id p));
        ($"implementation_version", JStr (implementation_version p));
        ($"label", JStr (label p));
        ($"description", JStr (permission_description p));
        ($"risk_tier", JStr (risk_tier p));
        ($"baseline_floor", JStr (baseline_floor p));
        ($"default_enabled", JBool (default_enabled p));
        ($"configurable", JBool (configurable p));
        ($"fixed_reason", jopt JStr (fixed_reason p));
        ($"typed_capabilities", jstrs (typed_capabilities p));
        ($"action_classes", jstrs (permission_action_classes p));
        ($"rule_ids", jstrs (permission_rule_ids p));
        ($"dependencies", jstrs (permission_dependencies p));
        ($"conflicts", jstrs (permission_conflicts p));
        ($"implied_permissions", jstrs (implied_permissions p));
        ($"introduced_version", JStr (introduced_version p));
        ($"deprecated", JBool (deprecated p));
        ($"replacement_permission_id", jopt JStr (replacement_permission_id p));
        ($"safer_guidance", jstrs (safer_guidance p));
        ($"example_command", jopt JStr (example_command p));
        ($"family", jopt JStr (permission_family p))].

Definition extension_to_dict (e : GeneratedCommandExtension) : json :=
  JObj ([($"schema_version", JInt (ext_schema_version e));
         ($"extension_id", JStr (extension_id e));
         ($"version", JStr (version e));
         ($"name", JStr (name e));
         ($"description", JStr (description e));
         ($"required", JBool (required e));
         ($"source", JStr (ext_source e));
         ($"aliases", jstrs (aliases e));
         ($"dependencies", jstrs (dependencies e));
         ($"conflicts", jstrs (conflicts e));
         ($"delegated_protection", jopt JStr (delegated_protection e));
         ($"ecosystem_ids", jstrs (ecosystem_ids e));
         ($"executables", jstrs (executables e));
         ($"project_markers", jstrs (project_markers e));
         ($"reference_urls", jstrs (reference_urls e));
         ($"action_classes", jstrs (action_classes e));
         ($"risk_classes", jstrs (risk_classes e));
         ($"safer_alternatives", jstrs (safer_alternatives e));
         ($"rule_count", JInt (zlen (rules e)));
         ($"rules", JArr (rule_to_dict <$> rules e));
         ($"permission_count", JInt (zlen (permissions e)));
         ($"permissions", JArr (permission_to_dict <$> permissions e));
         ($"activation", JStr (activation e));
         ($"enabled", JBool (enabled e));
         ($"trust_class", JStr (trust_class e));
         ($"icon", jmapping (icon e));
         ($"publisher", jmapping (publisher e))]
        ++ match ext_surface e with Some s => [($"surface", JStr s)] | None => [] end
        ++ match mcp_launch e with
           | Some l => [($"mcp_launch", jmapping l);
                        ($"mcp_tools", JArr (jmapping <$> mcp_tools e))]
           | None => []
           end).

(** ** Construction *)

(** [_validate_generated_extension] *)
Definition validate_generated_extension (e : GeneratedCommandExtension) : result unit :=
  raise_if (MAX_PERMISSIONS_PER_EXTENSION <? zlen (permissions e))
    (ValueError ("Generated command extension " +:+ show (extension_id e)
                 +:+ " exceeds permission limit")) ;;
  match delegated_protection e with
  | Some _ =>
      raise_if (negb (bool_decide (action_classes e = [])) || negb (match rules e with [] => true | _ => false end))
        (ValueError ("Delegated command safety extension " +:+ show (extension_id e)
                     +:+ " cannot own command rules")) ;;
      raise_if (bool_decide (ecosystem_ids e = []) || bool_decide (executables e = []))
        (ValueError ("Delegated command safety extension " +:+ show (extension_id e)
                     +:+ " requires ecosystem and executable metadata")) ;;
      raise_if (bool_decide (reference_urls e = [])
                || existsb (λ v, negb (startswith ($"https://") v)) (reference_urls e))
        (ValueError ("Delegated command safety extension " +:+ show (extension_id e)
                     +:+ " requires HTTPS references"))
  | None => Ok tt
  end ;;
  raise_if (existsb (λ v, contains [47] v || contains [92] v) (executables e))
    (ValueError ("Command safety extension " +:+ show (extension_id e)
                 +:+ " executable metadata must use basenames")) ;;
  (* [PurePosixPath(v).is_absolute()]: a leading slash;
     [".." in PurePosixPath(v).parts]: one of the slash-separated components. *)
  raise_if (existsb (λ v, startswith [47] v || py_in ($"..") (split_char 47 v) || contains [92] v)
              (project_markers e))
    (ValueError ("Command safety extension " +:+ show (extension_id e)
                 +:+ " has unsafe project marker metadata")).

Section catalog.
Context `{PyUnicode}.

(** [value.strip().lower()] *)
Definition normalized (s : pystr) : pystr := py_lower (strip s).

Record GeneratedCommandCatalog := {
  cat_extensions : list GeneratedCommandExtension;
  owned_executables : list pystr;
  cat_permissions : list GeneratedCommandPermission;
  by_id : list (pystr * GeneratedCommandExtension);
  cat_aliases : list (pystr * pystr);
  by_rule_id : list (pystr * GeneratedCommandRule);
  by_action_class : list (pystr * GeneratedCommandExtension);
  by_action_rule : list (pystr * GeneratedCommandRule);
  by_permission_id : list (pystr * GeneratedCommandPermission);
  permission_by_rule_id : list (pystr * GeneratedCommandPermission);
  permission_by_action_class : list (pystr * GeneratedCommandPermission);
  permission_by_capability : list (pystr * GeneratedCommandPermission);
  catalog_digest : pystr;
  program_digest : option pystr;
  source_digest : option pystr;
  implementation_digest : option pystr;
}.

(** The loop that assigns each action class its one owner. *)
Fixpoint own_actions (item : GeneratedCommandExtension) (actions : list pystr)
    (owners : list (pystr * GeneratedCommandExtension))
    : result (list (pystr * GeneratedCommandExtension)) :=
  match actions with
  | [] => Ok owners
  | a :: actions =>
      let n := normalized a in
      raise_if (bool_decide (is_Some (dict_lookup n owners)))
        (ValueError ("Duplicate command action class: " +:+ show n)) ;;
      own_actions item actions (dict_set n item owners)
  end.

Fixpoint action_owners (items : list GeneratedCommandExtension)
    (owners : list (pystr * GeneratedCommandExtension))
    : result (list (pystr * GeneratedCommandExtension)) :=
  match items with
  | [] => Ok owners
  | item :: items =>
      owners' ← own_actions item (action_classes item) owners;
      action_owners items owners'
  end.

Definition canonical_catalog_digest (ordered : list GeneratedCommandExtension) : pystr :=
  sha256_hex (utf8 (dumps_raw (JArr (extension_to_dict <$> ordered)))).

(** [GeneratedCommandCatalog.__init__] *)
Definition make_GeneratedCommandCatalog (extensions : list GeneratedCommandExtension)
    (digest program source implementation : option pystr) (candidate_executables : list pystr)
    : result GeneratedCommandCatalog :=
  let ordered := sort_on extension_id extensions in
  raise_if (MAX_CATALOG_EXTENSIONS <? zlen ordered)
    (ValueError "Generated command catalog exceeds catalog extension limit") ;;
  for_each validate_generated_extension ordered ;;
  let ids := dict_of ((λ i, (extension_id i, i)) <$> ordered) in
  raise_if (negb (zlen ids =? zlen ordered))
    (ValueError "Duplicate command safety extension ID") ;;
  owners ← action_owners ordered [];
  let perms := dict_of (ordered ≫= λ i, (λ p, (permission_id p, p)) <$> permissions i) in
  raise_if (negb (zlen perms =? foldr Z.add 0 ((λ i, zlen (permissions i)) <$> ordered)))
    (ValueError "Duplicate generated command permission ID") ;;
  let sorted_perms := sort_on permission_id perms.*2 in
  Ok {| cat_extensions := ordered;
        owned_executables :=
          normalized <$> filter (λ n, strip n ≠ [])
            (candidate_executables ++ (ordered ≫= executables));
        cat_permissions := sorted_perms;
        by_id := ids;
        cat_aliases := dict_of (ordered ≫= λ i, (λ a, (a, extension_id i)) <$> aliases i);
        by_rule_id := dict_of (ordered ≫= λ i, (λ r, (rule_id r, r)) <$> rules i);
        by_action_class := owners;
        by_action_rule :=
          dict_of (ordered ≫= λ i, filter (λ r, compatibility_fallback r = true) (rules i)
                     ≫= λ r, (λ a, (normalized a, r)) <$> rule_action_classes r);
        by_permission_id := perms;
        permission_by_rule_id :=
          dict_of (sorted_perms ≫= λ p, (λ r, (normalized r, p)) <$> permission_rule_ids p);
        permission_by_action_class :=
          dict_of (reverse sorted_perms
                     ≫= λ p, (λ a, (normalized a, p)) <$> permission_action_classes p);
        permission_by_capability :=
          dict_of (sorted_perms ≫= λ p, (λ c, (normalized c, p)) <$> typed_capabilities p);
        catalog_digest := default (canonical_catalog_digest ordered) digest;
        program_digest := program;
        source_digest := source;
        implementation_digest := implementation |}.

(** ** Lookups *)

Definition get (c : GeneratedCommandCatalog) (id : pystr) : option GeneratedCommandExtension :=
  let n := normalized id in
  dict_lookup (default n (dict_lookup n (cat_aliases c))) (by_id c).
Definition for_action_class (c : GeneratedCommandCatalog) (a : pystr)
    : option GeneratedCommandExtension :=
  dict_lookup (normalized a) (by_action_class c).
Definition get_rule (c : GeneratedCommandCatalog) (r : pystr) : option GeneratedCommandRule :=
  dict_lookup (normalized r) (by_rule_id c).
Definition rule_for_action_class (c : GeneratedCommandCatalog) (a : pystr)
    : option GeneratedCommandRule :=
  dict_lookup (normalized a) (by_action_rule c).
Definition permission (c : GeneratedCommandCatalog) (id : pystr)
    : option GeneratedCommandPermission :=
  dict_lookup (normalized id) (by_permission_id c).
Definition permission_for_rule_id (c : GeneratedCommandCatalog) (r : pystr)
    : option GeneratedCommandPermission :=
  dict_lookup (normalized r) (permission_by_rule_id c).
Definition permission_for_action_class (c : GeneratedCommandCatalog) (a : pystr)
    : option GeneratedCommandPermission :=
  dict_lookup (normalized a) (permission_by_action_class c).
Definition permission_for_typed_capability (c : GeneratedCommandCatalog) (cap : pystr)
    : option GeneratedCommandPermission :=
  dict_lookup (normalized cap) (permission_by_capability c).
End catalog.

(** ** Lemmas *)

(** A comprehension with as many entries as pairs had distinct keys. *)
Lemma dict_of_length_NoDup {V} (pairs : list (pystr * V)) :
  length (dict_of pairs) = length pairs → NoDup pairs.*1.
Proof.
  intros Hlen. apply NoDup_ListNoDup.
  apply (@List.NoDup_incl_NoDup _ (dict_keys (dict_of pairs))).
  - apply NoDup_ListNoDup, NoDup_dict_of.
  - unfold dict_keys. rewrite !length_fmap. lia.
  - intros k. rewrite <- !list_elem_of_In. by rewrite dict_keys_dict_of.
Qed.

Lemma dict_of_lookup {V} (pairs : list (pystr * V)) k v :
  NoDup pairs.*1 → (k, v) ∈ pairs → dict_lookup k (dict_of pairs) = Some v.
Proof.
  intros Hnd Hin.
  assert (k ∈ dict_keys (dict_of pairs)) as [w Hw]%elem_of_dict_keys.
  { apply dict_keys_dict_of, list_elem_of_fmap. by exists (k, v). }
  assert ((k, w) ∈ pairs) as Hw' by by apply dict_of_elem, dict_lookup_elem.
  rewrite Hw. f_equal.
  apply list_elem_of_lookup in Hin as [i Hi], Hw' as [j Hj].
  assert (i = j) as ->; [|congruence].
  eapply NoDup_lookup; [exact Hnd|..]; rewrite list_lookup_fmap; [by rewrite Hi | by rewrite Hj].
Qed.

Section metadata_ind.
Variable P : metadata → Prop.
Hypothesis atom : ∀ j, P (MAtom j).
Hypothesis lists : ∀ l, Forall P l → P (MList l).
Hypothesis tuples : ∀ l, Forall P l → P (MTuple l).
Hypothesis dicts : ∀ kv, Forall (λ p : pystr * metadata, P p.2) kv → P (MDict kv).
Hypothesis proxies : ∀ kv, Forall (λ p : pystr * metadata, P p.2) kv → P (MProxy kv).

Fixpoint metadata_nested_ind (m : metadata) : P m :=
  match m with
  | MAtom j => atom j
  | MList l => lists l ((fix go l : Forall P l :=
      match l with [] => Forall_nil_2 _ | x :: l => Forall_cons_2 _ _ _ (metadata_nested_ind x) (go l) end) l)
  | MTuple l => tuples l ((fix go l : Forall P l :=
      match l with [] => Forall_nil_2 _ | x :: l => Forall_cons_2 _ _ _ (metadata_nested_ind x) (go l) end) l)
  | MDict kv => dicts kv ((fix go kv : Forall (λ p : pystr * metadata, P p.2) kv :=
      match kv with [] => Forall_nil_2 _ | x :: kv => Forall_cons_2 _ _ _ (metadata_nested_ind x.2) (go kv) end) kv)
  | MProxy kv => proxies kv ((fix go kv : Forall (λ p : pystr * metadata, P p.2) kv :=
      match kv with [] => Forall_nil_2 _ | x :: kv => Forall_cons_2 _ _ _ (metadata_nested_ind x.2) (go kv) end) kv)
  end.
End metadata_ind.

Lemma map_id_Forall {A} (f : A → A) (l : list A) : Forall (λ x, f x = x) l → map f l = l.
Proof. induction 1; simpl; congruence. Qed.

(** Freezing loses nothing: a plain value thaws back to itself, and a frozen
    value serializes like the original. *)
Lemma thaw_freeze_metadata m : plain_metadata m = true → thaw_metadata (freeze_metadata m) = m.
Proof.
  induction m as [j|l IH|l IH|kv IH|kv IH] using metadata_nested_ind; simpl; try done;
    rewrite forallb_Forall; intros Hp; f_equal; rewrite map_map; apply map_id_Forall.
  - apply (Forall_impl _ _ _ (proj2 (Forall_and _ _) (conj IH Hp))). naive_solver.
  - apply (Forall_impl _ _ _ (proj2 (Forall_and _ _) (conj IH Hp))). intros [k v] [Hv ?]. simpl in *.
    f_equal. auto.
Qed.

Lemma permission_pairs_keys (l : list GeneratedCommandExtension) :
  (l ≫= λ e, (λ q, (permission_id q, q)) <$> permissions e).*1
  = permission_id <$> (l ≫= permissions).
Proof.
  induction l as [|e l IH]; [done|]. rewrite !bind_cons, !fmap_app, IH.
  f_equal. by rewrite <- list_fmap_compose.
Qed.

Section catalog_lemmas.
Context `{PyUnicode}.

Lemma own_actions_lookup item actions owners owners' k e :
  own_actions item actions owners = Ok owners' →
  dict_lookup k owners' = Some e ↔
  dict_lookup k owners = Some e ∨ (e = item ∧ ∃ a, a ∈ actions ∧ normalized a = k).
Proof.
  revert owners. induction actions as [|a actions IH]; simpl; intros owners Ho.
  - injection Ho as ->. split; [by left|]. intros [?|(_ & a & Ha%elem_of_nil & _)]; done.
  - cbv zeta in Ho. apply bind_Ok in Ho as ([] & Hn & Ho).
    apply raise_if_Ok, bool_decide_eq_false in Hn.
    rewrite (IH _ Ho), dict_lookup_set. setoid_rewrite elem_of_cons.
    case_decide as E; [|naive_solver]. subst k. split.
    + intros [[= ->]|(-> & a' & ? & ?)]; [right; eauto | right; eauto].
    + intros [He|(-> & a' & [->|?] & ?)]; [destruct Hn; eauto | by left | right; eauto].
Qed.

Lemma action_owners_lookup items owners owners' k e :
  action_owners items owners = Ok owners' →
  dict_lookup k owners' = Some e ↔
  dict_lookup k owners = Some e ∨ (e ∈ items ∧ ∃ a, a ∈ action_classes e ∧ normalized a = k).
Proof.
  revert owners. induction items as [|i items IH]; simpl; intros owners Ho.
  - injection Ho as ->. split; [by left|]. intros [?|(He%elem_of_nil & _)]; done.
  - apply bind_Ok in Ho as (mid & Hi & Ho). rewrite (IH _ Ho), (own_actions_lookup _ _ _ _ _ _ Hi).
    rewrite elem_of_cons. split; [|naive_solver].
    intros [[?|(-> & ?)]|(? & ?)]; auto.
Qed.

(** What the constructor established of a catalog. *)
Lemma make_catalog_Ok exts d p s i ce c :
  make_GeneratedCommandCatalog exts d p s i ce = Ok c →
  NoDup (extension_id <$> exts) ∧ cat_extensions c = sort_on extension_id exts ∧
  by_id c = dict_of ((λ e, (extension_id e, e)) <$> sort_on extension_id exts) ∧
  action_owners (sort_on extension_id exts) [] = Ok (by_action_class c) ∧
  NoDup (permission_id <$> (sort_on extension_id exts ≫= permissions)) ∧
  by_permission_id c =
    dict_of (sort_on extension_id exts ≫= λ e, (λ q, (permission_id q, q)) <$> permissions e) ∧
  Forall (λ e, validate_generated_extension e = Ok tt) exts.
Proof.
  unfold make_GeneratedCommandCatalog. cbv zeta. intros Hc.
  apply bind_Ok in Hc as ([] & _ & Hc). apply bind_Ok in Hc as ([] & Hval & Hc).
  apply bind_Ok in Hc as ([] & Hids & Hc). apply bind_Ok in Hc as (owners & Hown & Hc).
  apply bind_Ok in Hc as ([] & Hperms & Hc). injection Hc as <-. simpl.
  apply raise_if_Ok, negb_false_iff, Z.eqb_eq in Hids, Hperms.
  split; [|split; [done|split; [done|split; [done|split; [|split; [done|]]]]]].
  - assert (NoDup ((λ e, (extension_id e, e)) <$> sort_on extension_id exts).*1) as Hnd.
    { apply dict_of_length_NoDup. rewrite length_fmap. unfold zlen in Hids. lia. }
    rewrite <- list_fmap_compose in Hnd. by rewrite sort_on_Permutation in Hnd.
  - rewrite <- permission_pairs_keys. apply dict_of_length_NoDup. unfold zlen in Hperms.
    assert (∀ l : list GeneratedCommandExtension,
      foldr Z.add 0 ((λ e, Z.of_nat (length (permissions e))) <$> l)
      = Z.of_nat (length (l ≫= λ e, (λ q, (permission_id q, q)) <$> permissions e))) as Hlen.
    { induction l as [|e l IHl]; [done|].
      rewrite bind_cons, fmap_cons. simpl foldr. rewrite IHl, length_app, length_fmap. lia. }
    rewrite Hlen in Hperms. lia.
  - apply for_each_Ok in Hval. by rewrite Forall_sort_on in Hval.
Qed.

Lemma get_elem c exts d p s i ce id e :
  make_GeneratedCommandCatalog exts d p s i ce = Ok c → get c id = Some e → e ∈ cat_extensions c.
Proof.
  intros Hc Hg. apply make_catalog_Ok in Hc as (_ & He & Hb & _). rewrite He.
  unfold get in Hg. rewrite Hb in Hg. apply dict_lookup_elem, dict_of_elem in Hg.
  apply list_elem_of_fmap in Hg as (x & [= _ ->] & Hx). done.
Qed.
End catalog_lemmas.

(** a catalog does not depend on the order its extensions come in, its
    ids are distinct, each action class has exactly one owner (the lookup finds
    the extension that declares it, and only that one), and each permission id
    is found with its own permission. *)
Theorem catalog_indexes_sound `{PyUnicode} (exts : list GeneratedCommandExtension)
    (d p s i : option pystr) (ce : list pystr) (c : GeneratedCommandCatalog)
    (Hc : make_GeneratedCommandCatalog exts d p s i ce = Ok c) :
  (∀ exts', exts ≡ₚ exts' → make_GeneratedCommandCatalog exts' d p s i ce = Ok c) ∧
  NoDup (extension_id <$> exts) ∧
  (∀ a e, for_action_class c a = Some e ↔
     e ∈ exts ∧ ∃ a', a' ∈ action_classes e ∧ normalized a' = normalized a) ∧
  (∀ e q, e ∈ exts → q ∈ permissions e → normalized (permission_id q) = permission_id q →
     permission c (permission_id q) = Some q).
Proof.
  pose proof (make_catalog_Ok _ _ _ _ _ _ _ Hc) as (Hnd & _ & _ & Hown & Hpnd & Hperm & _).
  split; [|split; [done|split]].
  - intros exts' Hp. rewrite <- Hc. unfold make_GeneratedCommandCatalog.
    rewrite (sort_on_perm extension_id exts' exts); [done| |done].
    intros x y. apply NoDup_fmap_separates. by rewrite <- Hp.
  - intros a e. unfold for_action_class. rewrite (action_owners_lookup _ _ _ _ _ Hown).
    rewrite elem_of_sort_on. simpl. naive_solver.
  - intros e q He Hq Hn. unfold permission. rewrite Hn, Hperm. apply dict_of_lookup.
    + by rewrite permission_pairs_keys.
    + apply list_elem_of_bind. exists e. rewrite elem_of_sort_on. split; [|done].
      apply list_elem_of_fmap. eauto.
Qed.

(** ** Witness *)

Definition sample_permission (id ext : pystr) (deps implied : list pystr)
    : GeneratedCommandPermission :=
  {| permission_id := id; permission_schema_version := 2; permission_extension_id := ext;
     implementation_version := $"1.0.0"; label := $"Deletion"; permission_description := [];
     risk_tier := $"high"; baseline_floor := $"review"; default_enabled := true;
     configurable := true; fixed_reason := None; typed_capabilities := [];
     permission_action_classes := []; permission_rule_ids := [];
     permission_dependencies := deps; permission_conflicts := [];
     implied_permissions := implied; introduced_version := $"1.0.0"; deprecated := false;
     replacement_permission_id := None; safer_guidance := []; example_command := None;
     permission_family := None |}.

Definition sample_extension (id : pystr) (actions deps : list pystr)
    (perms : list GeneratedCommandPermission) : GeneratedCommandExtension :=
  {| extension_id := id; version := $"1.0.0"; name := id; description := [];
     action_classes := actions; risk_classes := []; safer_alternatives := []; rules := [];
     required := false; ext_source := $"built-in"; aliases := []; dependencies := deps;
     conflicts := []; delegated_protection := None; ecosystem_ids := []; executables := [$"aws"];
     project_markers := [$"infra/dns"]; reference_urls := []; permissions := perms;
     ext_schema_version := 2; activation := $"always"; enabled := true;
     trust_class := $"built-in"; icon := []; publisher := []; ext_surface := None;
     mcp_launch := None; mcp_tools := [] |}.

Definition sample_extensions : list GeneratedCommandExtension :=
  [sample_extension ($"command.git") [$"git force push"] [$"command.shell"]
     [sample_permission ($"command.git.permission.force-push") ($"command.git") [] []];
   sample_extension ($"command.dns.aws") [$"dns zone deletion"] [$"command.shell"]
     [sample_permission ($"command.dns.aws.permission.zone-deletion") ($"command.dns.aws") []
        [$"command.git.permission.force-push"]];
   sample_extension ($"command.shell") [] [$"command.git"] []].

Definition sample_catalog : result (@GeneratedCommandCatalog) :=
  make_GeneratedCommandCatalog (H:=ascii_unicode) sample_extensions (Some (replicate 64 97))
    None None None [].

Lemma catalog_indexes_witness :
  ∃ c, sample_catalog = Ok c ∧
    permission (H:=ascii_unicode) c ($"command.git.permission.force-push")
    = Some (sample_permission ($"command.git.permission.force-push") ($"command.git") [] []).
Proof.
  destruct sample_catalog as [c|] eqn:Hc; [|vm_compute in Hc; discriminate Hc].
  exists c. split; [reflexivity|].
  destruct (catalog_indexes_sound (H:=ascii_unicode) sample_extensions (Some (replicate 64 97))
    None None None [] c Hc) as (_ & _ & _ & Hp).
  apply (Hp _ (sample_permission ($"command.git.permission.force-push") ($"command.git") [] [])
    (list_elem_of_here _ _)); [left | vm_compute; reflexivity].
Defined.
