(* ===== verification/ExtensionControl.v ===== *)
(** * Command-extension controls

    Models [guard/runtime/extension_control_contract.py],
    [extension_control_resolver.py] and [command_dns_control_migration.py]:
    control layers, their composition with disable dominance, the expansion of
    the retired DNS targets, the dependency closures, and
    [resolve_extension_controls], which blocks on every failure.

    An argument the code checks with [isinstance] before use ([surface],
    [registry]) is an [option]: [None] is a value of another type.  Sets are
    duplicate-free lists in insertion order.  [sorted] on failures raises
    [TypeError] where Python does: two failures with one code, only one of
    which names a layer, compare [None] with a [ControlLayerKind]. *)

From S2P Require Import Prelude PyStr Sha256 Regex PyVal ActionLattice EffectContract.
From S2P Require Import EffectDecision CommandCatalog.
Local Open Scope Z_scope.
Local Open Scope py_scope.

(** ** Contract *)

Definition CONTROL_SCHEMA_VERSION : pystr := $"1.0.0".

(** [command\.[a-z0-9]+(?:[.-][a-z0-9]+)*] *)
Definition TARGET_ID : regex :=
  RCat (RLit ($"command.")) (RCat (RPlus (RSet az09))
    (RStar (RCat (RSet [(45, 46)]) (RPlus (RSet az09))))).

Inductive ControlLayerKind := LOCAL_ADMIN | SIGNED_CLOUD.
Global Instance ControlLayerKind_eq_dec : EqDecision ControlLayerKind.
Proof. solve_decision. Defined.
Definition ControlLayerKind_value (k : ControlLayerKind) : pystr :=
  match k with LOCAL_ADMIN => $"local-admin" | SIGNED_CLOUD => $"signed-cloud" end.

Inductive ControlTargetKind := EXTENSION | PERMISSION.
Global Instance ControlTargetKind_eq_dec : EqDecision ControlTargetKind.
Proof. solve_decision. Defined.
Definition ControlTargetKind_value (k : ControlTargetKind) : pystr :=
  match k with EXTENSION => $"extension" | PERMISSION => $"permission" end.

Inductive ControlState := ENABLED | DISABLED.
Global Instance ControlState_eq_dec : EqDecision ControlState.
Proof. solve_decision. Defined.

Inductive ControlSurface := COMMAND_EVALUATION | TRUSTED_LOCAL_RECOVERY | TRUSTED_LOCAL_PROOF.
Global Instance ControlSurface_eq_dec : EqDecision ControlSurface.
Proof. solve_decision. Defined.

Inductive ResolverFailureCode :=
  | AUTHORITY_TAMPERED | AUTHORITY_UNAVAILABLE | UNSUPPORTED_CONTROL_SCHEMA | DUPLICATE_LAYER_KIND
  | DUPLICATE_TARGET_IN_LAYER | CATALOG_DIGEST_MISMATCH | UNKNOWN_EXTENSION_TARGET
  | UNKNOWN_PERMISSION_TARGET | INVALID_CONTROL_SURFACE | INVALID_OBSERVATION_BINDING
  | CATALOG_UNAVAILABLE | INPUT_LIMIT_EXCEEDED | NON_CANONICAL_TARGET
  | MANAGED_POLICY_UNAVAILABLE | MANAGED_POLICY_NOT_YET_VALID | MANAGED_POLICY_EXPIRED
  | MANAGED_POLICY_REVOKED | MANAGED_POLICY_ROLLBACK.
Global Instance ResolverFailureCode_eq_dec : EqDecision ResolverFailureCode.
Proof. solve_decision. Defined.
Definition ResolverFailureCode_value (c : ResolverFailureCode) : pystr :=
  match c with
  | AUTHORITY_TAMPERED => $"authority-tampered"
  | AUTHORITY_UNAVAILABLE => $"authority-unavailable"
  | UNSUPPORTED_CONTROL_SCHEMA => $"unsupported-control-schema"
  | DUPLICATE_LAYER_KIND => $"duplicate-layer-kind"
  | DUPLICATE_TARGET_IN_LAYER => $"duplicate-target-in-layer"
  | CATALOG_DIGEST_MISMATCH => $"catalog-digest-mismatch"
  | UNKNOWN_EXTENSION_TARGET => $"unknown-extension-target"
  | UNKNOWN_PERMISSION_TARGET => $"unknown-permission-target"
  | INVALID_CONTROL_SURFACE => $"invalid-control-surface"
  | INVALID_OBSERVATION_BINDING => $"invalid-observation-binding"
  | CATALOG_UNAVAILABLE => $"catalog-unavailable"
  | INPUT_LIMIT_EXCEEDED => $"input-limit-exceeded"
  | NON_CANONICAL_TARGET => $"non-canonical-target"
  | MANAGED_POLICY_UNAVAILABLE => $"managed-policy-unavailable"
  | MANAGED_POLICY_NOT_YET_VALID => $"managed-policy-not-yet-valid"
  | MANAGED_POLICY_EXPIRED => $"managed-policy-expired"
  | MANAGED_POLICY_REVOKED => $"managed-policy-revoked"
  | MANAGED_POLICY_ROLLBACK => $"managed-policy-rollback"
  end.

Record ControlTarget := { target_kind : ControlTargetKind; target_id : pystr }.
Global Instance ControlTarget_eq_dec : EqDecision ControlTarget.
Proof. solve_decision. Defined.

(** [ControlTarget.__post_init__] *)
Definition make_ControlTarget (k : ControlTargetKind) (id : pystr) : result ControlTarget :=
  raise_if (negb (fullmatch TARGET_ID id))
    (ValueError "target_id must be a canonical command catalog ID") ;;
  raise_if (bool_decide (k = PERMISSION) && negb (contains ($".permission.") id))
    (ValueError "permission targets must contain a permission segment") ;;
  raise_if (bool_decide (k = EXTENSION) && contains ($".permission.") id)
    (ValueError "extension targets cannot contain a permission segment") ;;
  Ok {| target_kind := k; target_id := id |}.

Record ExtensionControl := { control_target : ControlTarget; control_state : ControlState }.

Record ExtensionControlLayer := {
  layer_schema_version : pystr;
  layer_kind : ControlLayerKind;
  layer_catalog_digest : pystr;
  layer_global_lockdown : bool;
  layer_controls : list ExtensionControl;
}.

(** [ExtensionControlLayer.__post_init__] *)
Definition check_ExtensionControlLayer (l : ExtensionControlLayer) : result unit :=
  raise_if (negb (bool_decide (layer_schema_version l = CONTROL_SCHEMA_VERSION)))
    (ValueError "unsupported control schema version") ;;
  raise_if (negb (fullmatch SHA256_RE (layer_catalog_digest l)))
    (ValueError "catalog_digest must be a lowercase SHA-256 digest").

Record ControlResolverFailure := {
  failure_code : ResolverFailureCode;
  failure_layer : option ControlLayerKind;
}.
Global Instance ControlResolverFailure_eq_dec : EqDecision ControlResolverFailure.
Proof. solve_decision. Defined.

Record ComposedExtensionControls := {
  global_lockdown : bool;
  controls : list ExtensionControl;
  composed_failures : list ControlResolverFailure;
}.

(** [ComposedExtensionControls.state_for] *)
Definition state_for (c : ComposedExtensionControls) (k : ControlTargetKind) (id : pystr)
    : result ControlState :=
  t ← make_ControlTarget k id;
  Ok (match list_find (λ x, control_target x = t) (controls c) with
      | Some (_, x) => control_state x
      | None => ENABLED
      end).

Record ControlResolution := {
  composed : ComposedExtensionControls;
  blocked : bool;
  res_factors : list DecisionFactor;
  failures : list ControlResolverFailure;
  observations : list pystr;
  explicitly_enabled_permission_ids : list pystr;
}.

(** ** Sets and sorting of failures *)

(** [s.add(x)] *)
Definition set_add {A} `{EqDecision A} (x : A) (s : list A) : list A :=
  if py_in x s then s else s ++ [x].

(** The order of the dataclass: the code, then the layer kind. *)
Definition failure_key (f : ControlResolverFailure) : pystr * pystr :=
  (ResolverFailureCode_value (failure_code f),
   match failure_layer f with Some k => ControlLayerKind_value k | None => [] end).

(** Two different failures the dataclass order cannot compare. *)
Definition incomparable (f g : ControlResolverFailure) : bool :=
  bool_decide (failure_code f = failure_code g)
  && negb (bool_decide (is_Some (failure_layer f) ↔ is_Some (failure_layer g))).

(** [tuple(sorted(failures))] *)
Definition sorted_failures (fs : list ControlResolverFailure)
    : result (list ControlResolverFailure) :=
  raise_if (existsb (λ f, existsb (incomparable f) fs) fs)
    (TypeError "'<' not supported between instances of 'NoneType' and 'ControlLayerKind'") ;;
  Ok (sort_on failure_key fs).

(** ** Composition *)

(** [states[target]] as an association list with target keys. *)
Fixpoint states_get (t : ControlTarget) (d : list (ControlTarget * ControlState))
    : option ControlState :=
  match d with
  | [] => None
  | (t', s) :: d => if decide (t = t') then Some s else states_get t d
  end.
Fixpoint states_set (t : ControlTarget) (s : ControlState)
    (d : list (ControlTarget * ControlState)) : list (ControlTarget * ControlState) :=
  match d with
  | [] => [(t, s)]
  | (t', s') :: d => if decide (t = t') then (t', s) :: d else (t', s') :: states_set t s d
  end.

Record compose_state := {
  cs_states : list (ControlTarget * ControlState);
  cs_seen_kinds : list ControlLayerKind;
  cs_failures : list ControlResolverFailure;
  cs_lockdown : bool;
}.

(** The inner loop over one layer's controls. *)
Fixpoint compose_controls (kind : ControlLayerKind) (cs : list ExtensionControl)
    (seen : list ControlTarget) (states : list (ControlTarget * ControlState))
    (fs : list ControlResolverFailure)
    : list (ControlTarget * ControlState) * list ControlResolverFailure :=
  match cs with
  | [] => (states, fs)
  | c :: cs =>
      let t := control_target c in
      if py_in t seen then
        compose_controls kind cs seen states
          (set_add {| failure_code := DUPLICATE_TARGET_IN_LAYER; failure_layer := Some kind |} fs)
      else
        let state :=
          if bool_decide (states_get t states = Some DISABLED)
             || bool_decide (control_state c = DISABLED)
          then DISABLED else ENABLED in
        compose_controls kind cs (t :: seen) (states_set t state states) fs
  end.

Definition compose_layer (st : compose_state) (layer : ExtensionControlLayer) : compose_state :=
  let fs :=
    if py_in (layer_kind layer) (cs_seen_kinds st) then
      set_add {| failure_code := DUPLICATE_LAYER_KIND;
                 failure_layer := Some (layer_kind layer) |} (cs_failures st)
    else cs_failures st in
  let '(states, fs) :=
    compose_controls (layer_kind layer) (layer_controls layer) [] (cs_states st) fs in
  {| cs_states := states;
     cs_seen_kinds := set_add (layer_kind layer) (cs_seen_kinds st);
     cs_failures := fs;
     cs_lockdown := cs_lockdown st || layer_global_lockdown layer |}.

(** [sorted(states)]: by kind, then id. *)
Definition target_key (t : ControlTarget) : pystr * pystr :=
  (ControlTargetKind_value (target_kind t), target_id t).

Definition compose_control_layers (layers : list ExtensionControlLayer)
    : result ComposedExtensionControls :=
  let st := foldl compose_layer
    {| cs_states := []; cs_seen_kinds := []; cs_failures := []; cs_lockdown := false |} layers in
  fs ← sorted_failures (cs_failures st);
  Ok {| global_lockdown := cs_lockdown st;
        controls :=
          (λ t, {| control_target := t; control_state := default ENABLED (states_get t (cs_states st)) |})
            <$> sort_on target_key (cs_states st).*1;
        composed_failures := fs |}.

(** ** Retired DNS targets *)

Definition LEGACY_DNS_EXTENSION_ID : pystr := $"command.dns".
Definition LEGACY_DNS_PERMISSION_ID : pystr := $"command.dns.permission.delete".
Definition DNS_PROVIDER_EXTENSION_IDS : list pystr :=
  [$"command.dns.aws"; $"command.dns.gcp"; $"command.dns.azure"].
Definition DNS_ZONE_PERMISSION_IDS : list pystr :=
  [$"command.dns.aws.permission.zone-deletion"; $"command.dns.gcp.permission.zone-deletion";
   $"command.dns.azure.permission.public-zone-deletion"].

(** The identifiers are literals that pass [ControlTarget.__post_init__]. *)
Definition expand_legacy_dns_target (t : ControlTarget) : list ControlTarget :=
  if bool_decide (target_kind t = EXTENSION) && bool_decide (target_id t = LEGACY_DNS_EXTENSION_ID)
  then (λ i, {| target_kind := EXTENSION; target_id := i |}) <$> DNS_PROVIDER_EXTENSION_IDS
  else if bool_decide (target_kind t = PERMISSION)
          && bool_decide (target_id t = LEGACY_DNS_PERMISSION_ID)
  then (λ i, {| target_kind := PERMISSION; target_id := i |}) <$> DNS_ZONE_PERMISSION_IDS
  else [t].

(** [merged] is kept in the order of [order], in which its keys were added. *)
Definition merge_target (s : ControlState) (merged : list (ControlTarget * ControlState))
    (t : ControlTarget) : list (ControlTarget * ControlState) :=
  match states_get t merged with
  | None => merged ++ [(t, s)]
  | Some previous =>
      if bool_decide (previous = DISABLED) || bool_decide (s = DISABLED)
      then states_set t DISABLED merged else merged
  end.

Fixpoint expand_controls (cs : list ExtensionControl) (seen : list ControlTarget)
    (merged : list (ControlTarget * ControlState)) (extras : list ExtensionControl)
    : list ExtensionControl :=
  match cs with
  | [] => ((λ p, {| control_target := p.1; control_state := p.2 |}) <$> merged) ++ extras
  | c :: cs =>
      let expanded := expand_legacy_dns_target (control_target c) in
      if py_in (control_target c) seen then
        expand_controls cs seen merged
          (extras ++ ((λ t, {| control_target := t; control_state := control_state c |}) <$> expanded))
      else
        expand_controls cs (control_target c :: seen)
          (foldl (merge_target (control_state c)) merged expanded) extras
  end.

Definition expand_legacy_dns_layers (layers : list ExtensionControlLayer)
    : list ExtensionControlLayer :=
  (λ l, {| layer_schema_version := layer_schema_version l;
           layer_kind := layer_kind l;
           layer_catalog_digest := layer_catalog_digest l;
           layer_global_lockdown := layer_global_lockdown l;
           layer_controls := expand_controls (layer_controls l) [] [] [] |}) <$> layers.

(** ** Closures *)

Section closure.
Context {N : Type} (lookup_node : pystr → option N) (node_id : N → pystr)
  (successors : N → list pystr).

(** The [while pending] loop: [pending] is a stack with its top first, and
    the second component records whether some identifier was unknown.  [None]
    is running out of fuel, which [closure_total] excludes. *)
Fixpoint closure_loop (fuel : nat) (resolved pending : list pystr) (unknown : bool)
    : option (list pystr * bool) :=
  match fuel with
  | O => None
  | S fuel =>
      match pending with
      | [] => Some (resolved, unknown)
      | id :: pending =>
          match lookup_node id with
          | None => closure_loop fuel resolved pending true
          | Some n =>
              if py_in (node_id n) resolved then closure_loop fuel resolved pending unknown
              else closure_loop fuel (resolved ++ [node_id n])
                     (reverse (successors n) ++ pending) unknown
          end
      end
  end.
End closure.

Section resolver.
Context `{PyUnicode}.

(** Every extension is expanded at most once. *)
Definition extension_fuel (r : GeneratedCommandCatalog) (ids : list pystr) : nat :=
  S (length ids + length (mjoin (dependencies <$> (by_id r).*2))).
Definition permission_successors (p : GeneratedCommandPermission) : list pystr :=
  permission_dependencies p ++ implied_permissions p.
Definition permission_fuel (r : GeneratedCommandCatalog) (ids : list pystr) : nat :=
  S (length ids + length (mjoin (permission_successors <$> (by_permission_id r).*2))).

Definition add_unknown (code : ResolverFailureCode) (unknown : bool)
    (fs : list ControlResolverFailure) : list ControlResolverFailure :=
  if unknown then set_add {| failure_code := code; failure_layer := None |} fs else fs.

(** [_extension_closure]: the resolved ids and the updated failures. *)
Definition extension_closure (r : GeneratedCommandCatalog) (ids : list pystr)
    (fs : list ControlResolverFailure) : list pystr * list ControlResolverFailure :=
  match closure_loop (get r) extension_id dependencies (extension_fuel r ids) []
          (reverse ids) false with
  | Some (resolved, unknown) => (resolved, add_unknown UNKNOWN_EXTENSION_TARGET unknown fs)
  | None => ([], fs)
  end.

(** [_permission_closure] *)
Definition permission_closure (r : GeneratedCommandCatalog) (ids : list pystr)
    (fs : list ControlResolverFailure) : list pystr * list ControlResolverFailure :=
  match closure_loop (permission r) permission_id permission_successors (permission_fuel r ids) []
          (reverse ids) false with
  | Some (resolved, unknown) => (resolved, add_unknown UNKNOWN_PERMISSION_TARGET unknown fs)
  | None => ([], fs)
  end.

(** ** Resolution *)

Definition FAILURE_REASON : pystr := $"control.resolver-failure".

Definition control_factor (reason : pystr) : DecisionFactor :=
  {| source := Factor_CONTROL; reason_code := reason;
     basis := {| action_floor := block; proof_route := None |};
     segment_ref := None; operation_ref := None; producer_ref := Some ($"control:resolver");
     evidence_digest := None; assessment := None; proof := None |}.

(** [_resolution] *)
Definition resolution (c : ComposedExtensionControls) (fs : list ControlResolverFailure)
    (obs : list pystr) (reason : option pystr) : result ControlResolution :=
  ordered ← sorted_failures fs;
  match (if bool_decide (ordered = []) then reason else Some FAILURE_REASON) with
  | None => Ok {| composed := c; blocked := false; res_factors := []; failures := ordered;
                  observations := obs; explicitly_enabled_permission_ids := [] |}
  | Some code =>
      check_DecisionFactor (control_factor code) ;;
      Ok {| composed := c; blocked := true; res_factors := [control_factor code];
            failures := ordered; observations := obs;
            explicitly_enabled_permission_ids := [] |}
  end.

Definition has_explicit_enabled_permission (c : ComposedExtensionControls) (id : pystr)
    : result bool :=
  t ← make_ControlTarget PERMISSION id;
  Ok (existsb (λ x, bool_decide (control_target x = t)
                    && bool_decide (control_state x = ENABLED)) (controls c)).

Fixpoint validate_controls (kind : ControlLayerKind) (r : GeneratedCommandCatalog)
    (cs : list ExtensionControl) (fs : list ControlResolverFailure)
    : list ControlResolverFailure :=
  match cs with
  | [] => fs
  | c :: cs =>
      let fail code := set_add {| failure_code := code; failure_layer := Some kind |} fs in
      validate_controls kind r cs
        (match target_kind (control_target c) with
         | EXTENSION =>
             match get r (target_id (control_target c)) with
             | None => fail UNKNOWN_EXTENSION_TARGET
             | Some e =>
                 if bool_decide (extension_id e = target_id (control_target c)) then fs
                 else fail NON_CANONICAL_TARGET
             end
         | PERMISSION =>
             match permission r (target_id (control_target c)) with
             | None => fail UNKNOWN_PERMISSION_TARGET
             | Some _ => fs
             end
         end)
  end.

(** [_validate_layer_targets] *)
Definition validate_layer_targets (l : ExtensionControlLayer) (r : GeneratedCommandCatalog)
    (fs : list ControlResolverFailure) : list ControlResolverFailure :=
  validate_controls (layer_kind l) r (layer_controls l) fs.

Definition validate_layer (r : GeneratedCommandCatalog) (fs : list ControlResolverFailure)
    (l : ExtensionControlLayer) : list ControlResolverFailure :=
  validate_layer_targets l r
    (if bool_decide (layer_catalog_digest l = catalog_digest r) then fs
     else set_add {| failure_code := CATALOG_DIGEST_MISMATCH;
                     failure_layer := Some (layer_kind l) |} fs).

(** The loop that adds the owners of the expanded permissions. *)
Fixpoint add_owners (r : GeneratedCommandCatalog) (perms exts : list pystr)
    (fs : list ControlResolverFailure) : list pystr * list ControlResolverFailure :=
  match perms with
  | [] => (exts, fs)
  | p :: perms =>
      match permission r p with
      | None => add_owners r perms exts fs
      | Some q =>
          let '(more, fs) := extension_closure r [permission_extension_id q] fs in
          add_owners r perms (foldl (λ s x, set_add x s) exts more) fs
      end
  end.

(** [any(composed.state_for(kind, id) is ControlState.DISABLED for id in ids)] *)
Fixpoint any_disabled (c : ComposedExtensionControls) (k : ControlTargetKind) (ids : list pystr)
    : result bool :=
  match ids with
  | [] => Ok false
  | id :: ids =>
      s ← state_for c k id;
      if bool_decide (s = DISABLED) then Ok true else any_disabled c k ids
  end.

Fixpoint enabled_ids (c : ComposedExtensionControls) (ids : list pystr) : result (list pystr) :=
  match ids with
  | [] => Ok []
  | id :: ids =>
      b ← has_explicit_enabled_permission c id;
      rest ← enabled_ids c ids;
      Ok (if b : bool then id :: rest else rest)
  end.

Definition limit_exceeded (layers : list ExtensionControlLayer)
    (extension_ids permission_ids obs : list pystr) : bool :=
  (MAX_CONTROL_LAYERS <? zlen layers)
  || existsb (λ l, MAX_CONTROLS_PER_LAYER <? zlen (layer_controls l)) layers
  || (MAX_RESOLUTION_IDS <? zlen extension_ids)
  || (MAX_RESOLUTION_IDS <? zlen permission_ids)
  || (MAX_OBSERVATIONS <? zlen obs)
  || existsb (existsb (λ v, MAX_INPUT_TEXT_LENGTH <? zlen v)) [extension_ids; permission_ids; obs].

Definition trusted_lockdown_surface (s : option ControlSurface) : bool :=
  py_in s [Some TRUSTED_LOCAL_RECOVERY; Some TRUSTED_LOCAL_PROOF].

Definition resolve_extension_controls (layers : list ExtensionControlLayer)
    (registry : option GeneratedCommandCatalog) (extension_ids permission_ids : list pystr)
    (surface : option ControlSurface) (obs : list pystr)
    (authority_failure : option ResolverFailureCode) : result ControlResolution :=
  let layer_values :=
    expand_legacy_dns_layers (take (Z.to_nat (MAX_CONTROL_LAYERS + 1)) layers) in
  c ← compose_control_layers layer_values;
  let fs := composed_failures c in
  let fs :=
    match authority_failure with
    | Some code =>
        if bool_decide (surface = Some TRUSTED_LOCAL_PROOF) then fs
        else set_add {| failure_code := code; failure_layer := None |} fs
    | None => fs
    end in
  if limit_exceeded layer_values extension_ids permission_ids obs then
    resolution c (set_add {| failure_code := INPUT_LIMIT_EXCEEDED; failure_layer := None |} fs)
      (take (Z.to_nat MAX_OBSERVATIONS) obs) None
  else
  let fs :=
    match surface with
    | Some _ => fs
    | None => set_add {| failure_code := INVALID_CONTROL_SURFACE; failure_layer := None |} fs
    end in
  match registry with
  | None =>
      resolution c (set_add {| failure_code := CATALOG_UNAVAILABLE; failure_layer := None |} fs)
        obs None
  | Some r =>
      let fs := foldl (validate_layer r) fs layer_values in
      let '(exts, fs) := extension_closure r extension_ids fs in
      let '(perms, fs) := permission_closure r permission_ids fs in
      let '(exts, fs) := add_owners r perms exts fs in
      if negb (bool_decide (fs = [])) then resolution c fs obs None
      else if global_lockdown c && negb (trusted_lockdown_surface surface) then
        resolution c fs obs (Some ($"control.global-lockdown"))
      else
      ext_disabled ← any_disabled c EXTENSION exts;
      if ext_disabled : bool then resolution c fs obs (Some ($"control.disabled-extension"))
      else
      perm_disabled ← any_disabled c PERMISSION perms;
      if perm_disabled : bool then resolution c fs obs (Some ($"control.disabled-permission"))
      else
      ids ← enabled_ids c permission_ids;
      Ok {| composed := c; blocked := false; res_factors := []; failures := [];
            observations := obs;
            explicitly_enabled_permission_ids := sort_on (λ s : pystr, s) ids |}
  end.
End resolver.

(** ** Lemmas on closures *)

Section closure_lemmas.
Context {N : Type} (lookup_node : pystr → option N) (node_id : N → pystr)
  (successors : N → list pystr).
Notation loop := (closure_loop lookup_node node_id successors).

(** The identifiers the closure must consider. *)
Inductive needed (ids : list pystr) : pystr → Prop :=
  | needed_root id : id ∈ ids → needed ids id
  | needed_step id n s :
      needed ids id → lookup_node id = Some n → s ∈ successors n → needed ids s.

(** Edges still to be pushed: the successors of the unresolved nodes. *)
Definition unexpanded (U : list N) (resolved : list pystr) : list pystr :=
  mjoin (successors <$> filter (λ n, node_id n ∉ resolved) U).

Lemma unexpanded_mono U r x :
  (length (unexpanded U (r ++ x)) <= length (unexpanded U r))%nat.
Proof.
  unfold unexpanded. induction U as [|n U IH]; [done|].
  rewrite !filter_cons. repeat case_decide; csimpl; rewrite ?length_app; try lia. set_solver.
Qed.

Lemma unexpanded_decrease U r n :
  n ∈ U → node_id n ∉ r →
  (length (successors n) + length (unexpanded U (r ++ [node_id n]))
   <= length (unexpanded U r))%nat.
Proof.
  intros Hn Hr. induction U as [|m U IH]; [by apply elem_of_nil in Hn|].
  pose proof (unexpanded_mono U r [node_id n]) as Hmono. unfold unexpanded in *.
  rewrite !filter_cons. apply elem_of_cons in Hn as [->|Hn].
  - rewrite (decide_True (P:=node_id m ∉ r)), decide_False by set_solver.
    csimpl. rewrite length_app. lia.
  - specialize (IH Hn). repeat case_decide; csimpl; rewrite ?length_app; try lia. set_solver.
Qed.

Section fuel.
Context (U : list N) (HU : ∀ id n, lookup_node id = Some n → n ∈ U).

Lemma closure_total fuel resolved pending unknown :
  (length pending + length (unexpanded U resolved) < fuel)%nat →
  ∃ r u, loop fuel resolved pending unknown = Some (r, u).
Proof.
  revert resolved pending unknown. induction fuel as [|fuel IH]; intros r p u Hf; [lia|].
  destruct p as [|id p]; simpl; [eauto|]. simpl in Hf.
  destruct (lookup_node id) as [n|] eqn:E; [|apply IH; lia].
  destruct (py_in (node_id n) r) eqn:Hin; [apply IH; lia|].
  apply py_in_false in Hin. apply IH. rewrite length_app, length_reverse.
  pose proof (unexpanded_decrease U r n (HU _ _ E) Hin). lia.
Qed.
End fuel.

Context (Hinj : ∀ i j n m,
  lookup_node i = Some n → lookup_node j = Some m → node_id n = node_id m → n = m).

(** An identifier the loop has dealt with, or still will. *)
Definition settled (resolved pending : list pystr) (unknown : bool) (id : pystr) : Prop :=
  id ∈ pending ∨ (lookup_node id = None ∧ unknown = true) ∨
  ∃ n, lookup_node id = Some n ∧ node_id n ∈ resolved.

Record closure_inv (ids resolved pending : list pystr) (unknown : bool) : Prop := {
  inv_pending : ∀ id, id ∈ pending → needed ids id;
  inv_resolved : ∀ x, x ∈ resolved → ∃ id n, needed ids id ∧ lookup_node id = Some n ∧ node_id n = x;
  inv_unknown : unknown = true → ∃ id, needed ids id ∧ lookup_node id = None;
  inv_roots : ∀ id, id ∈ ids → settled resolved pending unknown id;
  inv_steps : ∀ id n s, lookup_node id = Some n → node_id n ∈ resolved → s ∈ successors n →
    settled resolved pending unknown s;
}.

Lemma closure_inv_final ids resolved unknown :
  closure_inv ids resolved [] unknown →
  (∀ x, x ∈ resolved ↔ ∃ id n, needed ids id ∧ lookup_node id = Some n ∧ node_id n = x) ∧
  (unknown = true ↔ ∃ id, needed ids id ∧ lookup_node id = None).
Proof.
  intros [_ Hres Hunk Hroots Hsteps].
  assert (∀ id, needed ids id → settled resolved [] unknown id) as Hall.
  { induction 1 as [id Hid|id n s _ IH E Hs]; [auto|].
    destruct IH as [Hi%elem_of_nil|[[? _]|(m & Em & Hm)]]; [done|congruence|].
    rewrite E in Em. injection Em as <-. eauto. }
  split.
  - intros x. split; [apply Hres|]. intros (id & n & Hid & E & <-).
    destruct (Hall id Hid) as [Hi%elem_of_nil|[[? _]|(m & Em & Hm)]]; [done|congruence|].
    rewrite E in Em. by injection Em as <-.
  - split; [apply Hunk|]. intros (id & Hid & E).
    destruct (Hall id Hid) as [Hi%elem_of_nil|[[_ ?]|(m & Em & Hm)]]; [done|done|congruence].
Qed.

Lemma settled_mono r r' p p' (u u' : bool) id :
  (∀ x, x ∈ r → x ∈ r') → (∀ x, x ∈ p → settled r' p' u' x) → (u = true → u' = true) →
  settled r p u id → settled r' p' u' id.
Proof.
  intros Hr Hp Hu [?|[[? ?]|(n & ? & ?)]]; [auto | right; left; auto | right; right; eauto].
Qed.

Lemma closure_loop_inv fuel ids resolved pending unknown r u :
  closure_inv ids resolved pending unknown →
  loop fuel resolved pending unknown = Some (r, u) → closure_inv ids r [] u.
Proof.
  revert resolved pending unknown.
  induction fuel as [|fuel IH]; intros res p unk Hinv; simpl; [done|].
  destruct p as [|id p]; [by intros [= <- <-]|].
  destruct Hinv as [Hp Hres Hunk Hroots Hsteps].
  assert (needed ids id) as Hid by (apply Hp; left).
  assert (∀ x, x ∈ p → needed ids x) as Hp' by (intros; apply Hp; by right).
  destruct (lookup_node id) as [n|] eqn:E.
  - destruct (py_in (node_id n) res) eqn:Hin.
    + apply py_in_true in Hin.
      assert (∀ x, settled res (id :: p) unk x → settled res p unk x) as Hs.
      { intros x. apply settled_mono; [done| |done].
        intros y [->|Hy]%elem_of_cons; [right; right; eauto | by left]. }
      apply IH. split; eauto.
    + assert (∀ x, settled res (id :: p) unk x →
        settled (res ++ [node_id n]) (reverse (successors n) ++ p) unk x) as Hs.
      { intros x. apply settled_mono; [set_solver| |done].
        intros y [->|Hy]%elem_of_cons; [right; right; exists n; set_solver | left; set_solver]. }
      apply IH. split; eauto.
      * intros x [Hx|Hx]%elem_of_app; [|auto]. rewrite elem_of_reverse in Hx.
        by eapply needed_step.
      * intros x [Hx|Hx%list_elem_of_singleton]%elem_of_app; subst; eauto.
      * intros i m s Em [Hm|Hm%list_elem_of_singleton]%elem_of_app Hs'; [eauto|].
        left. rewrite (Hinj _ _ _ _ Em E Hm) in Hs'. apply elem_of_app. left.
        by apply elem_of_reverse.
  - assert (∀ x, settled res (id :: p) unk x → settled res p true x) as Hs.
    { intros x. apply settled_mono; [done| |done].
      intros y [->|Hy]%elem_of_cons; [right; left; done | by left]. }
    apply IH. split; eauto.
Qed.
End closure_lemmas.

(** The closure of [ids]: the loop ends with exactly the nodes reachable from
    [ids], and reports an unknown identifier exactly when it needs one. *)
Lemma closure_correct {N} (lookup_node : pystr → option N) node_id successors U ids fuel :
  (∀ id n, lookup_node id = Some n → n ∈ U) →
  (∀ i j n m, lookup_node i = Some n → lookup_node j = Some m → node_id n = node_id m → n = m) →
  (length ids + length (mjoin (successors <$> U)) < fuel)%nat →
  ∃ r u, closure_loop lookup_node node_id successors fuel [] (reverse ids) false = Some (r, u) ∧
    (∀ x, x ∈ r ↔ ∃ id n, needed lookup_node successors ids id ∧ lookup_node id = Some n ∧
                          node_id n = x) ∧
    (u = true ↔ ∃ id, needed lookup_node successors ids id ∧ lookup_node id = None).
Proof.
  intros HU Hinj Hf.
  destruct (closure_total lookup_node node_id successors U HU fuel [] (reverse ids) false)
    as (r & u & E).
  { rewrite length_reverse. unfold unexpanded.
    replace (filter (λ n, node_id n ∉ []) U) with U; [done|].
    clear. induction U as [|n U IH]; [done|]. rewrite filter_cons, decide_True by apply not_elem_of_nil.
    by f_equal. }
  exists r, u. split; [done|]. apply closure_inv_final.
  eapply closure_loop_inv; [done| |exact E]. split.
  - intros id Hid. apply needed_root. by apply elem_of_reverse.
  - by intros x Hx%elem_of_nil.
  - done.
  - intros id Hid. left. by apply elem_of_reverse.
  - by intros ? ? ? _ Hx%elem_of_nil.
Qed.

(** ** Lemmas on composition *)

Lemma states_get_set t t' s d :
  states_get t' (states_set t s d) = if decide (t' = t) then Some s else states_get t' d.
Proof.
  induction d as [|[u v] d IH]; simpl.
  - repeat case_decide; congruence.
  - destruct (decide (t = u)) as [<-|Hne]; simpl; repeat case_decide; congruence.
Qed.

Lemma states_get_app t d e :
  states_get t (d ++ e) = match states_get t d with Some s => Some s | None => states_get t e end.
Proof. induction d as [|[u v] d IH]; simpl; [done|]. by case_decide. Qed.

Lemma states_get_keys t d : t ∈ d.*1 ↔ is_Some (states_get t d).
Proof.
  induction d as [|[u v] d IH]; simpl.
  - rewrite elem_of_nil. split; [done | by intros [? ?]].
  - rewrite elem_of_cons. case_decide; [naive_solver|]. rewrite <- IH. naive_solver.
Qed.

Lemma states_set_NoDup t s d : NoDup d.*1 → NoDup (states_set t s d).*1.
Proof.
  induction d as [|[u v] d IH]; simpl; intros Hnd; [apply NoDup_singleton|].
  apply NoDup_cons in Hnd as [Hu Hnd].
  destruct (decide (t = u)) as [->|Hne]; simpl; apply NoDup_cons; [done|].
  split; [|auto]. rewrite states_get_keys, states_get_set in *. by rewrite decide_False.
Qed.

Lemma set_add_elem {A} `{EqDecision A} (x y : A) s : y ∈ set_add x s ↔ y = x ∨ y ∈ s.
Proof.
  unfold set_add. destruct (py_in x s) eqn:E; [apply py_in_true in E | ]; set_solver.
Qed.

Lemma set_add_not_nil {A} `{EqDecision A} (x : A) s : set_add x s ≠ [].
Proof. intros E. apply (not_elem_of_nil x). rewrite <- E. apply set_add_elem. by left. Qed.

(** The targets of a list of controls. *)
Definition targets (cs : list ExtensionControl) : list ControlTarget := control_target <$> cs.

(** Some control of the list disables the target. *)
Definition disables (cs : list ExtensionControl) (t : ControlTarget) : Prop :=
  ∃ c, c ∈ cs ∧ control_target c = t ∧ control_state c = DISABLED.

Lemma compose_controls_failures kind cs seen states fs states' fs' :
  compose_controls kind cs seen states fs = (states', fs') →
  fs' = [] ↔ fs = [] ∧ NoDup (targets cs) ∧ ∀ t, t ∈ targets cs → t ∉ seen.
Proof.
  revert seen states fs. unfold targets.
  induction cs as [|c cs IH]; simpl; intros seen states fs E; simplify_eq.
  { split; [|naive_solver]. intros ->. split; [done|]. split; [constructor|].
    by intros t Ht%elem_of_nil. }
  destruct (py_in (control_target c) seen) eqn:Hin; rewrite (IH _ _ _ E).
  - apply py_in_true in Hin. split; [by intros [?%set_add_not_nil _]|].
    intros (_ & _ & Hs). destruct (Hs (control_target c)); [left | done].
  - apply py_in_false in Hin. rewrite NoDup_cons. setoid_rewrite elem_of_cons. naive_solver.
Qed.

Lemma compose_controls_states kind cs seen states fs states' fs' :
  compose_controls kind cs seen states fs = (states', fs') →
  NoDup (targets cs) → (∀ t, t ∈ targets cs → t ∉ seen) →
  (NoDup states.*1 → NoDup states'.*1) ∧
  ∀ t, (is_Some (states_get t states') ↔ is_Some (states_get t states) ∨ t ∈ targets cs) ∧
    (states_get t states' = Some DISABLED ↔ states_get t states = Some DISABLED ∨ disables cs t).
Proof.
  unfold targets, disables. revert seen states fs.
  induction cs as [|c cs IH]; simpl; intros seen states fs E Hnd Hs; simplify_eq.
  { split; [done|]. intros t. split; [set_solver|]. split; [by left|].
    intros [?|(? & ?%elem_of_nil & _)]; done. }
  apply NoDup_cons in Hnd as [Hc Hnd].
  destruct (py_in (control_target c) seen) eqn:Hin.
  { apply py_in_true in Hin. destruct (Hs (control_target c)); [left | done]. }
  apply IH in E as [Hkeys Hget]; [|done|].
  2: { intros t Ht [->|?]%elem_of_cons; [done|]. eapply Hs; [by right | done]. }
  split; [intros ?; by apply Hkeys, states_set_NoDup|].
  intros t. destruct (Hget t) as [Hd Hdis]. rewrite Hd, Hdis, states_get_set.
  setoid_rewrite elem_of_cons. destruct (decide (t = control_target c)) as [->|Hne].
  - split; [naive_solver|].
    destruct (bool_decide_reflect (states_get (control_target c) states = Some DISABLED)),
      (bool_decide_reflect (control_state c = DISABLED)); simpl.
    + naive_solver.
    + naive_solver.
    + split; [right; eauto|naive_solver].
    + split; [|naive_solver]. intros [?|(x & ? & ? & ?)]; [done|]. destruct Hc.
      apply list_elem_of_fmap. eauto.
  - split; [naive_solver|]. split.
    + intros [?|(x & ? & ? & ?)]; eauto 10.
    + intros [?|(x & [->|?] & ? & ?)]; [by left | congruence | eauto 10].
Qed.

(** A state of the outer loop that has met [layers] without a failure. *)
Record composed_from (layers : list ExtensionControlLayer) (st : compose_state) : Prop := {
  cf_kinds : ∀ k, k ∈ cs_seen_kinds st ↔ k ∈ (layer_kind <$> layers);
  cf_lockdown : cs_lockdown st = existsb layer_global_lockdown layers;
  cf_failures : cs_failures st = [] ↔
    NoDup (layer_kind <$> layers) ∧ Forall (λ l, NoDup (targets (layer_controls l))) layers;
  cf_layered : Forall (λ f, is_Some (failure_layer f)) (cs_failures st);
  cf_states : cs_failures st = [] →
    NoDup (cs_states st).*1 ∧
    ∀ t, (is_Some (states_get t (cs_states st)) ↔ ∃ l, l ∈ layers ∧ t ∈ targets (layer_controls l)) ∧
      (states_get t (cs_states st) = Some DISABLED ↔
       ∃ l, l ∈ layers ∧ disables (layer_controls l) t);
}.

Lemma set_add_layered f fs :
  is_Some (failure_layer f) → Forall (λ f, is_Some (failure_layer f)) fs →
  Forall (λ f, is_Some (failure_layer f)) (set_add f fs).
Proof.
  rewrite !Forall_forall. intros Hf Hfs x [->|?]%set_add_elem; auto.
Qed.

Lemma compose_controls_layered kind cs seen states fs states' fs' :
  compose_controls kind cs seen states fs = (states', fs') →
  Forall (λ f, is_Some (failure_layer f)) fs → Forall (λ f, is_Some (failure_layer f)) fs'.
Proof.
  revert seen states fs. induction cs as [|c cs IH]; simpl; intros seen states fs E Hf.
  - by simplify_eq.
  - destruct (py_in (control_target c) seen); [|by eapply IH].
    eapply IH; [exact E|]. by apply set_add_layered.
Qed.

Lemma compose_layer_from layers st l :
  composed_from layers st → composed_from (layers ++ [l]) (compose_layer st l).
Proof.
  intros [Hk Hl Hf Hlay Hs]. unfold compose_layer. cbv zeta.
  set (fs0 := if py_in (layer_kind l) (cs_seen_kinds st) then _ else _).
  assert (fs0 = [] ↔ cs_failures st = [] ∧ layer_kind l ∉ layer_kind <$> layers) as Hfs0.
  { subst fs0. destruct (py_in (layer_kind l) (cs_seen_kinds st)) eqn:E.
    - apply py_in_true, Hk in E. split; [by intros ?%set_add_not_nil | naive_solver].
    - apply py_in_false in E. rewrite Hk in E. naive_solver. }
  assert (Forall (λ f, is_Some (failure_layer f)) fs0) as Hlay0.
  { subst fs0. case_match; [by apply set_add_layered | done]. }
  destruct (compose_controls _ _ _ _ fs0) as [states fs] eqn:E.
  pose proof (compose_controls_failures _ _ _ _ _ _ _ E) as Hfails.
  assert (∀ t, t ∈ targets (layer_controls l) → t ∉ []) as Hnil
    by (intros; apply not_elem_of_nil).
  split; simpl.
  - intros k. rewrite set_add_elem, fmap_app, elem_of_app, Hk. simpl. set_solver.
  - rewrite existsb_app, Hl. simpl. by rewrite orb_false_r.
  - rewrite Hfails, Hfs0, Hf, fmap_app, NoDup_app, Forall_app, Forall_singleton.
    setoid_rewrite list_elem_of_singleton. split.
    + intros [[[? ?] ?] [? _]]. repeat split; try done; [naive_solver|]. apply NoDup_singleton.
    + intros ((? & Hd & _) & ? & ?). repeat split; try done. intros Hin. by eapply Hd.
  - by eapply compose_controls_layered.
  - intros Hnf. apply Hfails in Hnf as ([Hst _]%Hfs0 & Hnd & _).
    destruct (compose_controls_states _ _ _ _ _ _ _ E Hnd Hnil) as [Hkeys Hget].
    destruct (Hs Hst) as [Hkeys' Hget']. split; [auto|].
    intros t. destruct (Hget t) as [-> ->], (Hget' t) as [-> ->].
    setoid_rewrite elem_of_app. setoid_rewrite list_elem_of_singleton. naive_solver.
Qed.

Lemma compose_layers_from layers :
  composed_from layers (foldl compose_layer
    {| cs_states := []; cs_seen_kinds := []; cs_failures := []; cs_lockdown := false |} layers).
Proof.
  induction layers as [|l layers IH] using rev_ind.
  - split; simpl; try done.
    + split; [|done]. intros _. split; constructor.
    + intros _. split; [constructor|]. intros t. split; split; try done;
        first [by intros (? & ?%elem_of_nil & _) | by intros [? ?]].
  - rewrite foldl_app. simpl. by apply compose_layer_from.
Qed.

Lemma sorted_failures_comparable fs :
  (∀ f g, f ∈ fs → g ∈ fs → failure_code f = failure_code g →
     is_Some (failure_layer f) ↔ is_Some (failure_layer g)) →
  sorted_failures fs = Ok (sort_on failure_key fs).
Proof.
  intros Hc. unfold sorted_failures.
  replace (existsb _ fs) with false; [done|]. symmetry. apply existsb_false, Forall_forall.
  intros f Hf. apply existsb_false, Forall_forall. intros g Hg. unfold incomparable.
  destruct (bool_decide_reflect (failure_code f = failure_code g)) as [E|]; [simpl|done].
  rewrite bool_decide_true; [done | by apply Hc].
Qed.

Lemma sorted_failures_Ok fs ordered :
  sorted_failures fs = Ok ordered → ordered ≡ₚ fs.
Proof. unfold sorted_failures. intros H. inv_ok. apply sort_on_Permutation. Qed.

Lemma target_key_inj t u : target_key t = target_key u → t = u.
Proof.
  destruct t as [k i], u as [k' i']. unfold target_key; simpl. intros [= Hk ->].
  destruct k, k'; done.
Qed.

Lemma list_find_fmap_state (states : list (ControlTarget * ControlState)) t keys :
  match list_find (λ x, control_target x = t)
    ((λ t, {| control_target := t; control_state := default ENABLED (states_get t states) |}) <$> keys)
  with Some (_, x) => control_state x | None => ENABLED end
  = if decide (t ∈ keys) then default ENABLED (states_get t states) else ENABLED.
Proof.
  destruct (list_find _ _) as [[i x]|] eqn:E.
  - apply list_find_Some in E as (Hi & Ht & _). apply list_elem_of_lookup_2 in Hi.
    apply list_elem_of_fmap in Hi as (u & -> & Hu). simpl in *. subst u. by rewrite decide_True.
  - apply list_find_None in E. rewrite Forall_fmap, Forall_forall in E.
    case_decide as Hin; [|done]. by destruct (E t Hin).
Qed.

(** What composition returns, in terms of the loop's final state. *)
Lemma compose_Ok layers :
  ∃ c st, compose_control_layers layers = Ok c ∧ composed_from layers st ∧
    global_lockdown c = cs_lockdown st ∧
    composed_failures c = sort_on failure_key (cs_failures st) ∧
    controls c = (λ t, {| control_target := t;
                          control_state := default ENABLED (states_get t (cs_states st)) |})
                   <$> sort_on target_key (cs_states st).*1.
Proof.
  unfold compose_control_layers. pose proof (compose_layers_from layers) as Hst. cbv zeta.
  set (st := foldl _ _ _) in *. rewrite sorted_failures_comparable; simpl.
  - eexists _, st. split; [reflexivity|]. split; [exact Hst|]. by repeat split.
  - intros f g Hf Hg _. pose proof (cf_layered _ _ Hst) as Hl. rewrite Forall_forall in Hl.
    split; auto.
Qed.

Lemma sort_on_nil {A K} `{PyOrdLaws K} (key : A → K) l : sort_on key l = [] ↔ l = [].
Proof.
  split; [|by intros ->]. intros E. pose proof (sort_on_Permutation key l) as Hp. rewrite E in Hp.
  by apply Permutation_nil_l in Hp.
Qed.

Lemma state_for_spec layers c k id t :
  compose_control_layers layers = Ok c → composed_failures c = [] →
  make_ControlTarget k id = Ok t →
  ∃ s, state_for c k id = Ok s ∧
    (s = DISABLED ↔ ∃ l, l ∈ layers ∧ disables (layer_controls l) t).
Proof.
  intros Hc Hf Ht. destruct (compose_Ok layers) as (c' & st & Hc' & Hst & _ & Hfs & Hctl).
  rewrite Hc in Hc'. injection Hc' as <-. rewrite Hf in Hfs. symmetry in Hfs.
  apply sort_on_nil in Hfs. destruct (cf_states _ _ Hst Hfs) as [_ Hget].
  unfold state_for. rewrite Ht. simpl. eexists. split; [reflexivity|].
  rewrite Hctl, list_find_fmap_state. destruct (Hget t) as [_ <-].
  destruct (decide _) as [Hin|Hin].
  - rewrite elem_of_sort_on, states_get_keys in Hin. destruct Hin as [s ->]. simpl. naive_solver.
  - rewrite elem_of_sort_on, states_get_keys in Hin. split; [done|].
    intros E. destruct Hin. eauto.
Qed.

Lemma default_disabled (a b : option ControlState) :
  (is_Some a ↔ is_Some b) → (a = Some DISABLED ↔ b = Some DISABLED) →
  default ENABLED a = default ENABLED b.
Proof. destruct a as [[]|], b as [[]|]; simpl; naive_solver. Qed.

Lemma compose_perm layers layers' c :
  layers ≡ₚ layers' → compose_control_layers layers = Ok c → composed_failures c = [] →
  compose_control_layers layers' = Ok c.
Proof.
  intros Hp Hc Hf. destruct (compose_Ok layers) as (c0 & st & Hc0 & Hst & Hl & Hfs & Hctl).
  rewrite Hc in Hc0. injection Hc0 as <-.
  destruct (compose_Ok layers') as (c' & st' & -> & Hst' & Hl' & Hfs' & Hctl'). f_equal.
  assert (cs_failures st = []) as Hnil by (rewrite Hf in Hfs; symmetry in Hfs; by apply sort_on_nil in Hfs).
  assert (cs_failures st' = []) as Hnil'.
  { apply (cf_failures _ _ Hst'). rewrite <- Hp. by apply (cf_failures _ _ Hst). }
  destruct (cf_states _ _ Hst Hnil) as [Hnd Hget], (cf_states _ _ Hst' Hnil') as [Hnd' Hget'].
  assert (∀ t, default ENABLED (states_get t (cs_states st'))
    = default ENABLED (states_get t (cs_states st))) as Hsame.
  { intros t. destruct (Hget t) as [H1 H2], (Hget' t) as [H1' H2'].
    apply default_disabled; [rewrite H1, H1' | rewrite H2, H2'];
      by setoid_rewrite <- Hp. }
  destruct c as [gl ctl fs], c' as [gl' ctl' fs']. simpl in *. subst. f_equal.
  - rewrite (cf_lockdown _ _ Hst), (cf_lockdown _ _ Hst'). apply eq_bool_prop_intro.
    rewrite !Is_true_true, !existsb_Exists. by rewrite Hp.
  - assert (sort_on target_key (cs_states st').*1 = sort_on target_key (cs_states st).*1) as ->.
    { apply sort_on_perm; [intros ? ? _ _; apply target_key_inj|].
      apply NoDup_Permutation; [done..|]. intros t. rewrite !states_get_keys.
      destruct (Hget t) as [-> _], (Hget' t) as [-> _]. by setoid_rewrite <- Hp. }
    apply list_fmap_ext. intros _ t _. by rewrite Hsame.
  - by rewrite Hnil'.
Qed.

(** composition never raises, and disabling dominates: when the layers are
    well-formed (one layer per kind, no target twice in a layer, which is
    exactly when no failure is reported) a target is disabled if and only if
    some layer disables it, lockdown holds if and only if some layer sets it,
    and the result does not depend on the order of the layers. *)
Theorem compose_disable_dominance (layers : list ExtensionControlLayer) :
  ∃ c, compose_control_layers layers = Ok c ∧
    global_lockdown c = existsb layer_global_lockdown layers ∧
    (composed_failures c = [] ↔
       NoDup (layer_kind <$> layers) ∧ Forall (λ l, NoDup (targets (layer_controls l))) layers) ∧
    (composed_failures c = [] →
       (∀ layers', layers ≡ₚ layers' → compose_control_layers layers' = Ok c) ∧
       ∀ k id t, make_ControlTarget k id = Ok t →
         state_for c k id = Ok DISABLED ↔ ∃ l, l ∈ layers ∧ disables (layer_controls l) t).
Proof.
  destruct (compose_Ok layers) as (c & st & Hc & Hst & Hl & Hfs & _). exists c. split; [done|].
  split; [by rewrite Hl, (cf_lockdown _ _ Hst)|].
  split; [by rewrite Hfs, sort_on_nil, (cf_failures _ _ Hst)|]. intros Hnil. split.
  - intros layers' Hp. by eapply compose_perm.
  - intros k id t Ht. destruct (state_for_spec _ _ _ _ _ Hc Hnil Ht) as (s & -> & Hs).
    rewrite <- Hs. split; [by intros [= ->] | by intros ->].
Qed.

(** ** Lemmas on the DNS expansion *)

Lemma merge_target_get s merged t u :
  states_get u (merge_target s merged t) =
  if decide (u = t) then
    Some (match states_get t merged with
          | Some DISABLED => DISABLED
          | Some ENABLED | None => s
          end)
  else states_get u merged.
Proof.
  unfold merge_target. destruct (states_get t merged) as [p|] eqn:E.
  - destruct p, s; simpl; rewrite ?states_get_set; case_decide; try congruence.
  - rewrite states_get_app. simpl. case_decide as Hu.
    + subst. rewrite E. done.
    + by destruct (states_get u merged).
Qed.

Lemma merge_targets_disabled s ts merged u :
  states_get u (foldl (merge_target s) merged ts) = Some DISABLED ↔
  states_get u merged = Some DISABLED ∨ (u ∈ ts ∧ s = DISABLED).
Proof.
  revert merged. induction ts as [|t ts IH]; intros merged; simpl.
  - rewrite elem_of_nil. naive_solver.
  - rewrite IH, merge_target_get, elem_of_cons. case_decide as E; [subst u|naive_solver].
    destruct (states_get t merged) as [[]|]; naive_solver.
Qed.

Lemma merge_target_NoDup s merged t : NoDup merged.*1 → NoDup (merge_target s merged t).*1.
Proof.
  intros Hnd. unfold merge_target. destruct (states_get t merged) as [p|] eqn:E.
  - case_match; [by apply states_set_NoDup | done].
  - rewrite fmap_app. apply NoDup_app. split; [done|]. split; [|apply NoDup_singleton].
    intros u Hu ->%list_elem_of_singleton. simpl in Hu. apply states_get_keys in Hu.
    rewrite E in Hu. by destruct Hu.
Qed.

Lemma merge_targets_NoDup s ts merged :
  NoDup merged.*1 → NoDup (foldl (merge_target s) merged ts).*1.
Proof.
  revert merged. induction ts as [|t ts IH]; intros merged Hnd; simpl; [done|].
  by apply IH, merge_target_NoDup.
Qed.

(** The association list of merged states lists exactly its lookups. *)
Lemma states_get_elem t s d : NoDup d.*1 → (t, s) ∈ d ↔ states_get t d = Some s.
Proof.
  induction d as [|[u v] d IH]; simpl; intros Hnd; [rewrite elem_of_nil; done|].
  apply NoDup_cons in Hnd as [Hu Hnd]. rewrite elem_of_cons. case_decide as E.
  - subst. split; [|intros [= ->]; by left]. intros [[= ->]|Hin]; [done|]. destruct Hu.
    apply list_elem_of_fmap. by exists (u, s).
  - rewrite <- IH by done. split; [|by right]. intros [[= -> ->]|?]; done.
Qed.

Lemma expand_controls_disables cs seen merged extras t :
  NoDup merged.*1 →
  disables (expand_controls cs seen merged extras) t ↔
  states_get t merged = Some DISABLED ∨ disables extras t ∨
  ∃ c, c ∈ cs ∧ t ∈ expand_legacy_dns_target (control_target c) ∧ control_state c = DISABLED.
Proof.
  revert seen merged extras. induction cs as [|c cs IH]; intros seen merged extras Hnd; simpl.
  - unfold disables. setoid_rewrite elem_of_app. setoid_rewrite list_elem_of_fmap.
    setoid_rewrite elem_of_nil. rewrite <- states_get_elem by done. split.
    + intros (x & [([t' s] & -> & Hin)|Hx] & <- & Hs); simpl in *; subst; eauto 10.
    + intros [Hin|[(x & ? & ? & ?)|(? & [] & _)]]; [|eauto 10].
      eexists. split; [left; exists (t, DISABLED); eauto | done].
  - setoid_rewrite elem_of_cons. destruct (py_in (control_target c) seen).
    + rewrite IH by done. unfold disables. setoid_rewrite elem_of_app.
      setoid_rewrite list_elem_of_fmap. split.
      * intros [?|[(x & [?|(u & -> & ?)] & Ht & Hs)|(x & ? & ? & ?)]]; simpl in *; subst; eauto 10.
      * intros [?|[(x & ? & ? & ?)|(x & [->|?] & ? & ?)]]; [eauto 10..| |eauto 10].
        right; left. eexists. split; [right; eauto | done].
    + rewrite IH by by apply merge_targets_NoDup. rewrite merge_targets_disabled. naive_solver.
Qed.

Lemma merge_targets_keys s ts merged u :
  u ∈ merged.*1 ∨ u ∈ ts → u ∈ (foldl (merge_target s) merged ts).*1.
Proof.
  revert merged. induction ts as [|t ts IH]; intros merged; simpl; [by intros [?|?%elem_of_nil]|].
  rewrite elem_of_cons. intros H. apply IH.
  rewrite !states_get_keys, merge_target_get in *. case_decide; naive_solver.
Qed.

(** The expansion keeps every target a layer names, under its present
    identifiers. *)
Lemma expand_controls_targets cs seen merged extras t :
  t ∈ merged.*1 ∨ t ∈ control_target <$> extras ∨
    (∃ c, c ∈ cs ∧ t ∈ expand_legacy_dns_target (control_target c)) →
  t ∈ control_target <$> expand_controls cs seen merged extras.
Proof.
  revert seen merged extras. induction cs as [|c cs IH]; intros seen merged extras; simpl.
  - rewrite fmap_app, elem_of_app, <- list_fmap_compose. intros [?|[?|(? & []%elem_of_nil & _)]]; by auto.
  - intros H. destruct (py_in (control_target c) seen); apply IH.
    + destruct H as [?|[?|(x & [->|?]%elem_of_cons & Ht)]]; [by auto|..|by eauto 10].
      * right; left. rewrite fmap_app, elem_of_app. by left.
      * right; left. rewrite fmap_app, elem_of_app, <- list_fmap_compose. right.
        apply list_elem_of_fmap. by exists t.
    + destruct H as [?|[?|(x & [->|?]%elem_of_cons & Ht)]]; [left; apply merge_targets_keys; by left|by auto|..|by eauto 10].
      left. apply merge_targets_keys. by right.
Qed.

(** ** Lemmas on resolution *)

Section resolver_lemmas.
Context `{PyUnicode}.

(** A registry as its constructor builds it. *)
Definition built_catalog (r : GeneratedCommandCatalog) : Prop :=
  ∃ exts d p s i ce, make_GeneratedCommandCatalog exts d p s i ce = Ok r.

Lemma dict_of_key {V} (key : V → pystr) pairs k v :
  (∀ p, p ∈ pairs → p.1 = key p.2) → dict_lookup k (dict_of pairs) = Some v → key v = k.
Proof. intros Hp Hk%dict_lookup_elem%dict_of_elem. by apply Hp in Hk. Qed.

Lemma get_key r id e : built_catalog r → get r id = Some e →
  dict_lookup (extension_id e) (by_id r) = Some e.
Proof.
  intros (exts & d & p & s & i & ce & Hr) Hg.
  apply make_catalog_Ok in Hr as (_ & _ & Hb & _). unfold get in Hg. rewrite Hb in *.
  erewrite (dict_of_key extension_id); [exact Hg| |exact Hg].
  by intros x (y & -> & _)%list_elem_of_fmap.
Qed.

Lemma permission_key r id q : built_catalog r → permission r id = Some q →
  dict_lookup (permission_id q) (by_permission_id r) = Some q.
Proof.
  intros (exts & d & p & s & i & ce & Hr) Hg.
  apply make_catalog_Ok in Hr as (_ & _ & _ & _ & _ & Hb & _). unfold permission in Hg.
  rewrite Hb in *. erewrite (dict_of_key permission_id); [exact Hg| |exact Hg].
  intros x (e & Hx & _)%list_elem_of_bind.
  by apply list_elem_of_fmap in Hx as (y & -> & _).
Qed.

Lemma dict_lookup_value {V} k v (d : list (pystr * V)) : dict_lookup k d = Some v → v ∈ d.*2.
Proof. intros Hk%dict_lookup_elem. apply list_elem_of_fmap. by exists (k, v). Qed.

Notation needed_extension r := (needed (get r) dependencies).
Notation needed_permission r := (needed (permission r) permission_successors).

Lemma extension_closure_spec r ids fs :
  built_catalog r →
  ∃ res, extension_closure r ids fs = (res.1, add_unknown UNKNOWN_EXTENSION_TARGET res.2 fs) ∧
    (∀ x, x ∈ res.1 ↔ ∃ id e, needed_extension r ids id ∧ get r id = Some e ∧ extension_id e = x) ∧
    (res.2 = true ↔ ∃ id, needed_extension r ids id ∧ get r id = None).
Proof.
  intros Hr. unfold extension_closure.
  destruct (closure_correct (get r) extension_id dependencies (by_id r).*2 ids
    (extension_fuel r ids)) as (res & u & -> & Hres & Hu).
  - intros id e Hg. by eapply dict_lookup_value, get_key.
  - intros i j n m Hn Hm Heq. apply (get_key _ _ _ Hr) in Hn, Hm. congruence.
  - unfold extension_fuel. lia.
  - by exists (res, u).
Qed.

Lemma permission_closure_spec r ids fs :
  built_catalog r →
  ∃ res, permission_closure r ids fs = (res.1, add_unknown UNKNOWN_PERMISSION_TARGET res.2 fs) ∧
    (∀ x, x ∈ res.1 ↔
       ∃ id q, needed_permission r ids id ∧ permission r id = Some q ∧ permission_id q = x) ∧
    (res.2 = true ↔ ∃ id, needed_permission r ids id ∧ permission r id = None).
Proof.
  intros Hr. unfold permission_closure.
  destruct (closure_correct (permission r) permission_id permission_successors
    (by_permission_id r).*2 ids (permission_fuel r ids)) as (res & u & -> & Hres & Hu).
  - intros id e Hg. by eapply dict_lookup_value, permission_key.
  - intros i j n m Hn Hm Heq. apply (permission_key _ _ _ Hr) in Hn, Hm. congruence.
  - unfold permission_fuel. lia.
  - by exists (res, u).
Qed.

Lemma add_unknown_nil code u fs : add_unknown code u fs = [] ↔ u = false ∧ fs = [].
Proof.
  destruct u; simpl; [|naive_solver]. split; [by intros ?%set_add_not_nil | by intros [? _]].
Qed.

Lemma unknown_false {A} (u : bool) (P : pystr → Prop) (f : pystr → option A) :
  (u = true ↔ ∃ id, P id ∧ f id = None) → u = false → ∀ id, P id → ∃ a, f id = Some a.
Proof.
  intros Hu Hf id Hid. destruct (f id) as [a|] eqn:E; [eauto|].
  assert (u = true) by (apply Hu; eauto). congruence.
Qed.

(** Owners: with no failure every permission's owner is fully resolved. *)
Lemma add_owners_spec r perms exts fs exts' :
  built_catalog r → add_owners r perms exts fs = (exts', []) →
  fs = [] ∧ (∀ x, x ∈ exts → x ∈ exts') ∧
  ∀ p q id, p ∈ perms → permission r p = Some q →
    needed_extension r [permission_extension_id q] id →
    ∃ e, get r id = Some e ∧ extension_id e ∈ exts'.
Proof.
  intros Hr. revert exts fs. induction perms as [|p perms IH]; simpl; intros exts fs E.
  - injection E as -> ->. split; [done|]. split; [done|]. by intros ? ? ? Hp%elem_of_nil.
  - destruct (permission r p) as [q|] eqn:Eq.
    2: { apply IH in E as (-> & Hsub & Hall). split; [done|]. split; [done|].
         intros p' q' id [->|Hp]%elem_of_cons; [congruence | eauto]. }
    destruct (extension_closure_spec r [permission_extension_id q] fs Hr)
      as (res & Hcl & Hres & Hu). rewrite Hcl in E.
    apply IH in E as (Hnil & Hsub & Hall). apply add_unknown_nil in Hnil as [Huf ->].
    assert (∀ (l s : list pystr) x, x ∈ foldl (λ s x, set_add x s) s l ↔ x ∈ s ∨ x ∈ l) as Hfold.
    { intros l. induction l as [|y l IHl]; intros s x; simpl; [set_solver|].
      rewrite IHl, set_add_elem, elem_of_cons. naive_solver. }
    split; [done|]. split; [intros x Hx; apply Hsub, Hfold; by left|].
    intros p' q' id [->|Hp]%elem_of_cons Hq' Hid; [|eauto].
    rewrite Eq in Hq'. injection Hq' as <-.
    destruct (unknown_false _ _ _ Hu Huf id Hid) as [e He]. exists e. split; [done|].
    apply Hsub, Hfold. right. apply Hres. eauto.
Qed.

(** Whether a layer targets only what the catalog knows, canonically. *)
Definition target_known (r : GeneratedCommandCatalog) (t : ControlTarget) : Prop :=
  match target_kind t with
  | EXTENSION => ∃ e, get r (target_id t) = Some e ∧ extension_id e = target_id t
  | PERMISSION => is_Some (permission r (target_id t))
  end.
Definition control_known (r : GeneratedCommandCatalog) (c : ExtensionControl) : Prop :=
  target_known r (control_target c).

Lemma validate_controls_nil kind r cs fs :
  validate_controls kind r cs fs = [] → fs = [] ∧ Forall (control_known r) cs.
Proof.
  revert fs. induction cs as [|c cs IH]; simpl; intros fs E; [by split|].
  apply IH in E as [E Hcs]. unfold control_known at 1, target_known.
  destruct (target_kind (control_target c)) eqn:Ek.
  - destruct (get r _) as [e|] eqn:Eg; [|by apply set_add_not_nil in E].
    destruct (bool_decide_reflect (extension_id e = target_id (control_target c)));
      [|by apply set_add_not_nil in E].
    split; [done|]. constructor; [|done]. rewrite Ek. eauto.
  - destruct (permission r _) as [q|] eqn:Eg; [|by apply set_add_not_nil in E].
    split; [done|]. constructor; [|done]. rewrite Ek. eauto.
Qed.

Lemma validate_layers_nil r layers fs :
  foldl (validate_layer r) fs layers = [] →
  fs = [] ∧ Forall (λ l, layer_catalog_digest l = catalog_digest r ∧
                         Forall (control_known r) (layer_controls l)) layers.
Proof.
  revert fs. induction layers as [|l layers IH]; simpl; intros fs E; [by split|].
  apply IH in E as [E Hl]. unfold validate_layer, validate_layer_targets in E.
  apply validate_controls_nil in E as [E Hc].
  destruct (bool_decide_reflect (layer_catalog_digest l = catalog_digest r));
    [|by apply set_add_not_nil in E].
  split; [done|]. by constructor.
Qed.

Lemma any_disabled_false c k ids id :
  any_disabled c k ids = Ok false → id ∈ ids →
  ∃ s, state_for c k id = Ok s ∧ s ≠ DISABLED.
Proof.
  induction ids as [|i ids IH]; simpl; [by intros _ ?%elem_of_nil|].
  intros (s & Hs & E)%bind_Ok. destruct (bool_decide_reflect (s = DISABLED)); [done|].
  intros [->|Hin]%elem_of_cons; eauto.
Qed.
End resolver_lemmas.

(** No layer disables the target, be it under a retired DNS identifier. *)
Definition not_disabled (layers : list ExtensionControlLayer) (k : ControlTargetKind) (id : pystr)
    : Prop :=
  ∀ l x, l ∈ layers → x ∈ layer_controls l → control_state x = DISABLED →
    {| target_kind := k; target_id := id |} ∉ expand_legacy_dns_target (control_target x).

Lemma state_for_not_disabled layers c k id s :
  compose_control_layers (expand_legacy_dns_layers layers) = Ok c → composed_failures c = [] →
  state_for c k id = Ok s → s ≠ DISABLED → not_disabled layers k id.
Proof.
  intros Hc Hf Hs Hne. pose proof Hs as Ht. unfold state_for in Ht.
  apply bind_Ok in Ht as (t & Ht & _). intros l x Hl Hx Hdis Hin. destruct Hne.
  destruct (state_for_spec _ _ _ _ _ Hc Hf Ht) as (s' & Hs' & Hiff).
  rewrite Hs in Hs'. injection Hs' as <-. apply Hiff.
  assert (t = {| target_kind := k; target_id := id |}) as -> by (unfold make_ControlTarget in Ht; by inv_ok).
  eexists. split; [apply list_elem_of_fmap; exists l; split; [reflexivity|done]|]. simpl.
  apply expand_controls_disables; [constructor|]. eauto 10.
Qed.

Lemma resolution_blocked c fs obs reason res :
  resolution c fs obs reason = Ok res → fs ≠ [] ∨ reason ≠ None → blocked res = true.
Proof.
  unfold resolution. intros (ordered & Hs & E)%bind_Ok Hne. apply sorted_failures_Ok in Hs.
  case_bool_decide as Ho.
  - subst ordered. apply Permutation_nil_l in Hs. destruct reason; [by inv_ok|]. naive_solver.
  - by inv_ok.
Qed.

(** Canonical target ids are already normalized. *)
Lemma target_id_normalized `{PyUnicode} k id t : make_ControlTarget k id = Ok t → normalized id = id.
Proof.
  unfold make_ControlTarget. intros ([] & Hm & _)%bind_Ok.
  apply raise_if_Ok, negb_false_iff, fullmatch_spec in Hm.
  assert (Forall (λ c, (97 ≤ c ≤ 122 ∨ 45 ≤ c ≤ 57)) id) as Hc.
  { eapply matches_chars; [|exact Hm]. simpl. unfold in_set, in_range. simpl.
    repeat split; intros c; rewrite ?orb_false_r, ?orb_true_iff, ?andb_true_iff, ?Z.leb_le; lia. }
  unfold normalized. rewrite strip_no_space.
  2: { eapply Forall_impl; [exact Hc|]. intros c Hr. unfold is_space, in_range.
       rewrite !orb_false_iff, !andb_false_iff, !Z.leb_gt, !Z.eqb_neq.
       simpl in Hr. lia. }
  rewrite py_lower_ascii.
  - clear Hm. induction Hc as [|c id Hr Hc IH]; [done|]. simpl. f_equal; [|exact IH].
    unfold lower_char, is_upper, in_range.
    destruct (Z.leb_spec 65 c), (Z.leb_spec c 90); simpl; lia.
  - unfold is_ascii. apply forallb_Forall. eapply Forall_impl; [exact Hc|].
    intros c Hr. simpl in Hr. apply Z.ltb_lt. lia.
Qed.

(** What an unblocked resolution went through. *)
Record unblocked_run `{PyUnicode} (layers : list ExtensionControlLayer) (r : GeneratedCommandCatalog)
    (ext_ids perm_ids obs : list pystr) (surface : option ControlSurface)
    (authority : option ResolverFailureCode) (res : ControlResolution)
    (exts perms : list pystr) : Prop := {
  ur_surface : is_Some surface;
  ur_authority : authority = None ∨ surface = Some TRUSTED_LOCAL_PROOF;
  ur_composed : compose_control_layers (expand_legacy_dns_layers layers) = Ok (composed res);
  ur_no_failures : composed_failures (composed res) = [];
  ur_result : failures res = [] ∧ res_factors res = [] ∧ observations res = obs;
  ur_limits : limit_exceeded (expand_legacy_dns_layers layers) ext_ids perm_ids obs = false;
  ur_layers : Forall (λ l, layer_catalog_digest l = catalog_digest r ∧
      Forall (control_known r) (layer_controls l)) (expand_legacy_dns_layers layers);
  ur_lockdown : global_lockdown (composed res) && negb (trusted_lockdown_surface surface) = false;
  ur_exts : any_disabled (composed res) EXTENSION exts = Ok false;
  ur_perms : any_disabled (composed res) PERMISSION perms = Ok false;
  ur_needed_exts : ∀ id, needed (get r) dependencies ext_ids id →
    ∃ e, get r id = Some e ∧ extension_id e ∈ exts;
  ur_needed_perms : ∀ id, needed (permission r) permission_successors perm_ids id →
    ∃ q, permission r id = Some q ∧ permission_id q ∈ perms;
  ur_owners : ∀ p q id, p ∈ perms → permission r p = Some q →
    needed (get r) dependencies [permission_extension_id q] id →
    ∃ e, get r id = Some e ∧ extension_id e ∈ exts;
}.

(** Within the limits, [islice] did not drop a layer. *)
Lemma limits_keep_layers layers ext_ids perm_ids obs :
  let kept := take (Z.to_nat (MAX_CONTROL_LAYERS + 1)) layers in
  limit_exceeded (expand_legacy_dns_layers kept) ext_ids perm_ids obs = false →
  expand_legacy_dns_layers kept = expand_legacy_dns_layers layers.
Proof.
  intros kept Hlim. subst kept. rewrite take_ge; [done|]. unfold limit_exceeded in Hlim. split_bool.
  rewrite Z.ltb_ge in *. unfold expand_legacy_dns_layers, zlen in *.
  rewrite length_fmap, length_take in *. change (MAX_CONTROL_LAYERS) with 2 in *. lia.
Qed.

Lemma resolve_unblocked `{PyUnicode} layers registry ext_ids perm_ids surface obs authority res :
  (∀ r, registry = Some r → built_catalog r) →
  resolve_extension_controls layers registry ext_ids perm_ids surface obs authority = Ok res →
  blocked res = false →
  ∃ r exts perms, registry = Some r ∧
    unblocked_run layers r ext_ids perm_ids obs surface authority res exts perms.
Proof.
  intros Hbuilt Hres Hfree.
  unfold resolve_extension_controls in Hres. cbv zeta in Hres.
  set (lv := expand_legacy_dns_layers (take _ layers)) in *.
  apply bind_Ok in Hres as (c & Hc & Hres).
  destruct (limit_exceeded lv ext_ids perm_ids obs) eqn:Hlim.
  { apply resolution_blocked in Hres; [congruence|]. left. apply set_add_not_nil. }
  assert (lv = expand_legacy_dns_layers layers) as Hlv by by eapply limits_keep_layers.
  clearbody lv. subst lv.
  destruct registry as [r|].
  2: { apply resolution_blocked in Hres; [congruence|]. left. apply set_add_not_nil. }
  specialize (Hbuilt r eq_refl).
  set (fs0 := foldl (validate_layer r) _ _) in *.
  destruct (extension_closure_spec r ext_ids fs0 Hbuilt) as (ex & Hex & Hexin & Hexu).
  rewrite Hex in Hres. set (fs1 := add_unknown _ ex.2 fs0) in *.
  destruct (permission_closure_spec r perm_ids fs1 Hbuilt) as (px & Hpx & Hpxin & Hpxu).
  rewrite Hpx in Hres. set (fs2 := add_unknown _ px.2 fs1) in *.
  destruct (add_owners r px.1 ex.1 fs2) as [exts fs3] eqn:Hown.
  destruct (bool_decide_reflect (fs3 = [])) as [->|Hne]; simpl in Hres.
  2: { apply resolution_blocked in Hres; [congruence | by left]. }
  apply add_owners_spec in Hown as (Hfs2 & Hsub & Howned); [|done]. subst fs2.
  apply add_unknown_nil in Hfs2 as [Hpu Hfs1]. subst fs1.
  apply add_unknown_nil in Hfs1 as [Heu Hfs0]. subst fs0.
  apply validate_layers_nil in Hfs0 as [Hfs Hlayers].
  destruct surface as [sf|]; [|by apply set_add_not_nil in Hfs].
  destruct (global_lockdown c && negb (trusted_lockdown_surface (Some sf))) eqn:Hlock.
  { apply resolution_blocked in Hres; [congruence | by right]. }
  apply bind_Ok in Hres as ([] & Hexd & Hres).
  { apply resolution_blocked in Hres; [congruence | by right]. }
  apply bind_Ok in Hres as ([] & Hpd & Hres).
  { apply resolution_blocked in Hres; [congruence | by right]. }
  apply bind_Ok in Hres as (ids & _ & Hres). injection Hres as <-. simpl.
  assert (composed_failures c = [] ∧ (authority = None ∨ Some sf = Some TRUSTED_LOCAL_PROOF))
    as [Hcf Hauth].
  { destruct authority as [code|]; [|by auto]. case_bool_decide; [by auto|].
    by apply set_add_not_nil in Hfs. }
  exists r, exts, px.1. split; [done|]. split; simpl; eauto.
  - intros id Hid. destruct (unknown_false _ _ _ Hexu Heu id Hid) as [e He]. exists e.
    split; [done|]. apply Hsub, Hexin. eauto.
  - intros id Hid. destruct (unknown_false _ _ _ Hpxu Hpu id Hid) as [q Hq]. exists q.
    split; [done|]. apply Hpxin. eauto.
Qed.

Lemma unblocked_lockdown layers c l :
  compose_control_layers (expand_legacy_dns_layers layers) = Ok c →
  l ∈ layers → layer_global_lockdown l = true → global_lockdown c = true.
Proof.
  intros Hc Hl Hgl.
  destruct (compose_Ok (expand_legacy_dns_layers layers)) as (c' & st & Hc' & Hst & Hg & _).
  rewrite Hc in Hc'. injection Hc' as <-. rewrite Hg, (cf_lockdown _ _ Hst).
  apply existsb_Exists, Exists_exists. eexists. split; [by apply list_elem_of_fmap_2, Hl|]. done.
Qed.

(** C6: fail closed.  If a resolution is not blocked then there was a valid
    surface and a catalog, no authority failure (except on the trusted proof
    surface), the limits held, every layer is bound to this catalog, every
    target that a layer names (under its present identifiers when it is a
    retired DNS target) is in the catalog, no layer is in lockdown (except on a trusted local
    surface), and every extension and permission reachable from the request
    through dependencies, implied permissions and permission owners is known
    and disabled by no layer, retired DNS identifiers included. *)
Theorem resolve_fail_closed `{PyUnicode} (layers : list ExtensionControlLayer)
    (registry : option GeneratedCommandCatalog) (ext_ids perm_ids obs : list pystr)
    (surface : option ControlSurface) (authority : option ResolverFailureCode)
    (res : ControlResolution)
    (Hbuilt : ∀ r, registry = Some r → built_catalog r)
    (Hres : resolve_extension_controls layers registry ext_ids perm_ids surface obs authority = Ok res)
    (Hfree : blocked res = false) :
  ∃ r, registry = Some r ∧ is_Some surface ∧
    (authority = None ∨ surface = Some TRUSTED_LOCAL_PROOF) ∧
    failures res = [] ∧ res_factors res = [] ∧ observations res = obs ∧
    limit_exceeded (expand_legacy_dns_layers layers) ext_ids perm_ids obs = false ∧
    Forall (λ l, layer_catalog_digest l = catalog_digest r ∧
                 (∀ x t, x ∈ layer_controls l → t ∈ expand_legacy_dns_target (control_target x) →
                    target_known r t) ∧
                 (layer_global_lockdown l = true → trusted_lockdown_surface surface = true)) layers ∧
    (∀ id, needed (get r) dependencies ext_ids id →
       ∃ e, get r id = Some e ∧ not_disabled layers EXTENSION (extension_id e)) ∧
    (∀ id, needed (permission r) permission_successors perm_ids id →
       ∃ q, permission r id = Some q ∧ not_disabled layers PERMISSION (permission_id q) ∧
         ∀ id', needed (get r) dependencies [permission_extension_id q] id' →
           ∃ e, get r id' = Some e ∧ not_disabled layers EXTENSION (extension_id e)).
Proof.
  destruct (resolve_unblocked _ _ _ _ _ _ _ _ Hbuilt Hres Hfree) as (r & exts & perms & Hr & U).
  specialize (Hbuilt r Hr). destruct U as [Hsf Hau Hc Hcf (? & ? & ?) Hlim Hlay Hlock Hex Hpe Hne Hnp Hown].
  assert (∀ k ids, any_disabled (composed res) k ids = Ok false →
    ∀ id, id ∈ ids → normalized id = id ∧ not_disabled layers k id) as Hnd.
  { intros k ids Hany id Hid. destruct (any_disabled_false _ _ _ _ Hany Hid) as (s & Hs & Hsd).
    split; [|by eapply state_for_not_disabled].
    unfold state_for in Hs. apply bind_Ok in Hs as (t & Ht & _). by eapply target_id_normalized. }
  exists r. do 7 (split; [by eauto|]). split; [|split].
  - unfold expand_legacy_dns_layers in Hlay. rewrite Forall_fmap in Hlay.
    rewrite Forall_forall in Hlay |- *. intros l Hl. destruct (Hlay l Hl) as [Hd Hknown].
    split; [exact Hd|]. split; [intros x t Hx Ht; simpl in Hknown|intros Hgl].
    { rewrite Forall_forall in Hknown.
      assert (t ∈ control_target <$> expand_controls (layer_controls l) [] [] [])
        as (x' & -> & Hx')%list_elem_of_fmap by (apply expand_controls_targets; eauto).
      by apply Hknown. }
    rewrite (unblocked_lockdown _ _ l Hc Hl Hgl) in Hlock.
    by apply negb_false_iff.
  - intros id Hid. destruct (Hne id Hid) as (e & He & Hin). exists e. split; [done|].
    by apply (Hnd EXTENSION exts).
  - intros id Hid. destruct (Hnp id Hid) as (q & Hq & Hin). exists q. split; [done|].
    destruct (Hnd PERMISSION perms Hpe _ Hin) as [Hnorm Hndq]. split; [done|].
    intros id' Hid'. destruct (Hown (permission_id q) q id' Hin) as (e & He & Hine); [|done|].
    + unfold permission. rewrite Hnorm. by eapply permission_key.
    + exists e. split; [done|]. by apply (Hnd EXTENSION exts).
Qed.

(** A resolution's factors: none when free, one validated control factor when
    blocked. *)
Definition factors_agree (res : ControlResolution) : Prop :=
  if blocked res then ∃ code, res_factors res = [control_factor code] ∧ factor_ok (control_factor code)
  else res_factors res = [] ∧ failures res = [].

Lemma resolution_factors c fs obs reason res :
  resolution c fs obs reason = Ok res → factors_agree res.
Proof.
  unfold resolution, factors_agree. intros (ordered & _ & E)%bind_Ok.
  case_bool_decide as Ho; [destruct reason as [code|]|].
  - apply bind_Ok in E as ([] & Hok & E). injection E as <-. simpl. eauto.
  - injection E as <-. done.
  - apply bind_Ok in E as ([] & Hok & E). injection E as <-. simpl. eauto.
Qed.

Lemma resolve_factors `{PyUnicode} layers registry ext_ids perm_ids surface obs authority res :
  resolve_extension_controls layers registry ext_ids perm_ids surface obs authority = Ok res →
  factors_agree res.
Proof.
  unfold resolve_extension_controls. cbv zeta. intros (c & _ & E)%bind_Ok.
  destruct (limit_exceeded _ _ _ _); [by eapply resolution_factors|].
  destruct registry as [r|]; [|by eapply resolution_factors].
  repeat match type of E with context [let '(_, _) := ?x in _] => destruct x end.
  case_match; [by eapply resolution_factors|]. case_match; [by eapply resolution_factors|].
  apply bind_Ok in E as ([] & _ & E); [by eapply resolution_factors|].
  apply bind_Ok in E as ([] & _ & E); [by eapply resolution_factors|].
  apply bind_Ok in E as (ids & _ & E). injection E as <-. done.
Qed.

Lemma severity_block a : GUARD_ACTION_SEVERITY a ≤ GUARD_ACTION_SEVERITY block.
Proof. by destruct a. Qed.

(** a blocked resolution cannot be overruled: it contributes a validated
    control factor, and whatever factors and uncertainties are decided together
    with it, the decision is [block]; a free resolution contributes nothing. *)
Theorem blocked_resolution_blocks `{PyUnicode} (layers : list ExtensionControlLayer)
    (registry : option GeneratedCommandCatalog) (ext_ids perm_ids obs : list pystr)
    (surface : option ControlSurface) (authority : option ResolverFailureCode)
    (res : ControlResolution)
    (Hres : resolve_extension_controls layers registry ext_ids perm_ids surface obs authority = Ok res) :
  (blocked res = false → res_factors res = []) ∧
  (blocked res = true → Forall factor_ok (res_factors res) ∧
     ∀ fs us r d, make_EffectDecisionRequest (res_factors res ++ fs) us = Ok r →
       evaluate_effect_decision r = Ok d → action d = block ∧ final_disposition d = Final_BLOCK).
Proof.
  apply resolve_factors in Hres. unfold factors_agree in Hres.
  split; intros Hb; rewrite Hb in Hres; [naive_solver|]. destruct Hres as (code & -> & Hok).
  split; [by repeat constructor|]. intros fs us r d Hr Hd.
  apply make_request_Ok in Hr as (_ & _ & Hf & _). pose proof (evaluate_floor _ _ Hd) as (Ha & _ & _).
  assert (action d = block) as Hact.
  { apply severity_inj, Z.le_antisymm; [apply severity_block|]. rewrite Ha.
    apply maximum_action_floor_ge, list_elem_of_fmap. exists (factor_reason (control_factor code)).
    split; [done|]. apply elem_of_collected. left. exists (control_factor code). split; [|done].
    rewrite Hf, elem_of_sort_on. left. }
  split; [done|]. unfold evaluate_effect_decision in Hd. apply bind_Ok in Hd as (x & Hx & Hd).
  injection Hd as <-. simpl in *. rewrite Hact in Hx. simpl in Hx. by injection Hx as <-.
Qed.

(** ** Witnesses *)

Definition sample_target (k : ControlTargetKind) (id : string) : ControlTarget :=
  {| target_kind := k; target_id := lit id |}.
Definition sample_layer (kind : ControlLayerKind) (cs : list ExtensionControl)
    : ExtensionControlLayer :=
  {| layer_schema_version := $"1.0.0"; layer_kind := kind; layer_catalog_digest := replicate 64 97;
     layer_global_lockdown := false; layer_controls := cs |}.

(** The resolver on the sample catalog. *)
Definition sample_resolve (layers : list ExtensionControlLayer) (ext_ids perm_ids : list pystr)
    : result ControlResolution :=
  c ← sample_catalog;
  resolve_extension_controls (H:=ascii_unicode) layers (Some c) ext_ids perm_ids
    (Some COMMAND_EVALUATION) [] None.

Definition sample_layers : list ExtensionControlLayer :=
  [sample_layer LOCAL_ADMIN
     [{| control_target := sample_target EXTENSION "command.git"; control_state := ENABLED |}];
   sample_layer SIGNED_CLOUD
     [{| control_target := sample_target EXTENSION "command.dns.aws"; control_state := DISABLED |}]].

Lemma resolve_fail_closed_witness :
  ∃ c res, sample_catalog = Ok c ∧
    sample_resolve sample_layers [$"command.git"] [$"command.git.permission.force-push"] = Ok res ∧
    blocked res = false ∧
    ∃ e, get (H:=ascii_unicode) c ($"command.shell") = Some e ∧
      not_disabled sample_layers EXTENSION (extension_id e).
Proof.
  destruct sample_catalog as [c|] eqn:Hc; [|vm_compute in Hc; discriminate Hc].
  destruct (sample_resolve sample_layers [$"command.git"] [$"command.git.permission.force-push"])
    as [res|] eqn:Hres; [|vm_compute in Hres; discriminate Hres].
  assert (blocked res = false) as Hb.
  { vm_compute in Hres. injection Hres as <-. reflexivity. }
  exists c, res. split; [reflexivity|]. split; [reflexivity|]. split; [exact Hb|].
  unfold sample_resolve in Hres. rewrite Hc in Hres.
  destruct (resolve_fail_closed (H:=ascii_unicode) sample_layers (Some c) [$"command.git"]
    [$"command.git.permission.force-push"] [] (Some COMMAND_EVALUATION) None res)
    as (r & Hr & _ & _ & _ & _ & _ & _ & _ & Hext & _).
  - intros r [= <-]. unfold built_catalog, sample_catalog in *. eauto 10.
  - exact Hres.
  - exact Hb.
  - injection Hr as <-. apply Hext.
    eapply (needed_step _ _ _ ($"command.git"));
      [apply needed_root; left | vm_compute in Hc; injection Hc as <-; vm_compute; reflexivity | left].
Defined.

Lemma blocked_resolution_witness :
  ∃ c res, sample_catalog = Ok c ∧
    sample_resolve sample_layers [$"command.dns.aws"] [] = Ok res ∧
    blocked res = true ∧ Forall factor_ok (res_factors res).
Proof.
  destruct sample_catalog as [c|] eqn:Hc; [|vm_compute in Hc; discriminate Hc].
  destruct (sample_resolve sample_layers [$"command.dns.aws"] []) as [res|] eqn:Hres;
    [|vm_compute in Hres; discriminate Hres].
  assert (blocked res = true) as Hb.
  { vm_compute in Hres. injection Hres as <-. reflexivity. }
  exists c, res. split; [reflexivity|]. split; [reflexivity|]. split; [exact Hb|].
  unfold sample_resolve in Hres. rewrite Hc in Hres.
  destruct (blocked_resolution_blocks (H:=ascii_unicode) sample_layers (Some c) [$"command.dns.aws"]
    [] [] (Some COMMAND_EVALUATION) None res Hres) as (_ & Hblk).
  destruct (Hblk Hb) as [Hok _]. exact Hok.
Defined.

(** ordering failures can itself fail.  A layer that names an unknown
    extension together with a request for an unknown extension gives two
    failures with one code, only one of which names a layer; the order of
    [ControlResolverFailure] cannot compare them and the resolver raises
    [TypeError] instead of returning a blocked resolution. *)
Theorem resolver_failure_order_raises :
  (∃ c, sample_catalog = Ok c) ∧
  sample_resolve
    [sample_layer LOCAL_ADMIN
       [{| control_target := sample_target EXTENSION "command.retired"; control_state := ENABLED |}]]
    [$"command.retired"] []
  = Raise (TypeError "'<' not supported between instances of 'NoneType' and 'ControlLayerKind'").
Proof.
  split; [|vm_compute; reflexivity].
  destruct sample_catalog as [c|] eqn:Hc; [eauto | vm_compute in Hc; discriminate Hc].
Qed.
