(* ===== verification/ControlRuntime.v ===== *)
(** * Extension control runtime

    Models [extension_control_runtime.py] and the view, the layers and their
    JSON values of [extension_control_authority.py]: the snapshot of the
    control layers that decisions read, and the process-wide holder that swaps
    it.  The holder keeps the highest protected revision with its digest; each
    method runs under one lock and is a function on the holder's state, an
    exception leaves that state as it was.  The durable commit of
    [publish_after_commit] is a callback on a store of its own. *)

From S2P Require Import Prelude PyStr Sha256 Regex PyVal ActionLattice EffectContract ExtensionEvidence.
From S2P Require Import EffectDecision CommandCatalog ExtensionControl.
Local Open Scope Z_scope.
Local Open Scope py_scope.

Module ControlRuntime.

(** ** Authority *)

Inductive AuthorityHealth :=
  | UNENROLLED | PROTECTED | DEGRADED_UNACKNOWLEDGED | DEGRADED_ACKNOWLEDGED | TAMPERED | RECOVERY_REQUIRED.
Global Instance AuthorityHealth_eq_dec : EqDecision AuthorityHealth.
Proof. solve_decision. Defined.
Definition AuthorityHealth_value (h : AuthorityHealth) : pystr :=
  match h with
  | UNENROLLED => $"unenrolled"
  | PROTECTED => $"protected"
  | DEGRADED_UNACKNOWLEDGED => $"degraded-unacknowledged"
  | DEGRADED_ACKNOWLEDGED => $"degraded-acknowledged"
  | TAMPERED => $"tampered"
  | RECOVERY_REQUIRED => $"recovery-required"
  end.

Record ExtensionControlAuthorityView := {
  view_health : AuthorityHealth;
  view_revision : Z;
  view_catalog_digest : pystr;
  view_layers : list ExtensionControlLayer;
  view_managed_revision : Z;
}.

(** A view that is not protected shows a lockdown, except to local recovery. *)
Definition layers_for (v : ExtensionControlAuthorityView) (surface : ControlSurface)
    : result (list ExtensionControlLayer) :=
  if bool_decide (view_health v = PROTECTED) then Ok (view_layers v)
  else if py_in surface [TRUSTED_LOCAL_RECOVERY; TRUSTED_LOCAL_PROOF] then Ok []
  else
    let layer := {| layer_schema_version := CONTROL_SCHEMA_VERSION; layer_kind := LOCAL_ADMIN;
                    layer_catalog_digest := view_catalog_digest v; layer_global_lockdown := true;
                    layer_controls := [] |} in
    check_ExtensionControlLayer layer ;; Ok [layer].

Definition ControlState_value (s : ControlState) : pystr :=
  match s with ENABLED => $"enabled" | DISABLED => $"disabled" end.

(** ** Layers as JSON values *)

Definition control_to_value (c : ExtensionControl) : pyval :=
  PDict [($"target_kind", PStr (ControlTargetKind_value (target_kind (control_target c))));
         ($"target_id", PStr (target_id (control_target c)));
         ($"state", PStr (ControlState_value (control_state c)))].

Definition layer_to_value (l : ExtensionControlLayer) : pyval :=
  PDict [($"schema_version", PStr (layer_schema_version l));
         ($"kind", PStr (ControlLayerKind_value (layer_kind l)));
         ($"catalog_digest", PStr (layer_catalog_digest l));
         ($"global_lockdown", PBool (layer_global_lockdown l));
         ($"controls", PList (control_to_value <$> layer_controls l))].

(** [ControlTargetKind(v)], [ControlState(v)] and [ControlLayerKind(v)] *)
Definition target_kind_of (v : pyval) : result ControlTargetKind :=
  if py_eqb v (PStr ($"extension")) then Ok EXTENSION
  else if py_eqb v (PStr ($"permission")) then Ok PERMISSION
  else Raise (ValueError "not a valid ControlTargetKind").
Definition state_of_value (v : pyval) : result ControlState :=
  if py_eqb v (PStr ($"enabled")) then Ok ENABLED
  else if py_eqb v (PStr ($"disabled")) then Ok DISABLED
  else Raise (ValueError "not a valid ControlState").
Definition layer_kind_of (v : pyval) : result ControlLayerKind :=
  if py_eqb v (PStr ($"local-admin")) then Ok LOCAL_ADMIN
  else if py_eqb v (PStr ($"signed-cloud")) then Ok SIGNED_CLOUD
  else Raise (ValueError "not a valid ControlLayerKind").

(** [ExtensionControlAuthorityError] is a [RuntimeError]. *)
Definition authority_error {A} (msg : string) : result A := Raise (RuntimeError msg).

(** [except (TypeError, ValueError) as exc: raise ...] *)
Definition rewrap {A} (r : result A) : result A :=
  match r with
  | Raise (ValueError _) | Raise (TypeError _) => authority_error "invalid extension control layer"
  | r => r
  end.

Definition as_str (v : pyval) (msg : string) : result pystr :=
  match v with PStr s => Ok s | _ => authority_error msg end.

Definition control_from_value (raw : pyval) : result ExtensionControl :=
  match raw with
  | PDict item =>
      k ← target_kind_of (dict_get ($"target_kind") item) ;
      id ← as_str (dict_get ($"target_id") item) "invalid extension control target" ;
      t ← make_ControlTarget k id ;
      s ← state_of_value (dict_get ($"state") item) ;
      Ok {| control_target := t; control_state := s |}
  | _ => authority_error "invalid extension control"
  end.

Definition layer_from_value (raw : pyval) : result ExtensionControlLayer :=
  match raw with
  | PDict value =>
      match dict_get ($"controls") value with
      | PList controls_raw =>
          rewrap (
            controls ← map_result control_from_value controls_raw ;
            schema ← as_str (dict_get ($"schema_version") value) "invalid extension control layer metadata" ;
            catalog ← as_str (dict_get ($"catalog_digest") value) "invalid extension control layer metadata" ;
            match dict_get ($"global_lockdown") value with
            | PBool lockdown =>
                kind ← layer_kind_of (dict_get ($"kind") value) ;
                let layer := {| layer_schema_version := schema; layer_kind := kind;
                                layer_catalog_digest := catalog; layer_global_lockdown := lockdown;
                                layer_controls := controls |} in
                check_ExtensionControlLayer layer ;; Ok layer
            | _ => authority_error "invalid extension control lockdown"
            end)
      | _ => authority_error "invalid extension controls"
      end
  | _ => authority_error "invalid extension control layer"
  end.

(** ** Snapshots *)

Definition RUNTIME_SNAPSHOT_SCHEMA : pystr := $"guard.extension-control-runtime-snapshot.v1".

Record ExtensionControlDecisionEvidence := {
  evidence_revision : Z;
  evidence_managed_revision : Z;
  evidence_effective_digest : pystr;
}.

Record ExtensionControlRuntimeSnapshot := {
  health : AuthorityHealth;
  revision : Z;
  snap_catalog_digest : pystr;
  effective_digest : pystr;
  layers : list ExtensionControlLayer;
  managed_revision : Z;
}.

(** [_layer_payload] *)
Definition control_key (c : ExtensionControl) : pystr * pystr :=
  (ControlTargetKind_value (target_kind (control_target c)), target_id (control_target c)).
Definition control_payload (c : ExtensionControl) : json :=
  JObj [($"state", JStr (ControlState_value (control_state c)));
        ($"target_id", JStr (target_id (control_target c)));
        ($"target_kind", JStr (ControlTargetKind_value (target_kind (control_target c))))].
Definition layer_payload (l : ExtensionControlLayer) : json :=
  JObj [($"catalog_digest", JStr (layer_catalog_digest l));
        ($"controls", JArr (control_payload <$> sort_on control_key (layer_controls l)));
        ($"global_lockdown", JBool (layer_global_lockdown l));
        ($"kind", JStr (ControlLayerKind_value (layer_kind l)));
        ($"schema_version", JStr (layer_schema_version l))].
Definition layer_key (l : ExtensionControlLayer) : pystr := ControlLayerKind_value (layer_kind l).

Definition view_digest (v : ExtensionControlAuthorityView) : pystr :=
  let canonical := dumps (JObj
    [($"catalog_digest", JStr (view_catalog_digest v));
     ($"health", JStr (AuthorityHealth_value (view_health v)));
     ($"layers", JArr (layer_payload <$> sort_on layer_key (view_layers v)));
     ($"revision", JInt (view_revision v));
     ($"managed_revision", JInt (view_managed_revision v));
     ($"schema_version", JStr RUNTIME_SNAPSHOT_SCHEMA)]) in
  sha256_hex (utf8 (RUNTIME_SNAPSHOT_SCHEMA ++ [0] ++ str_of_int (Z.of_nat (length canonical)) ++ [0]
                    ++ canonical)).

Definition from_authority_view (v : ExtensionControlAuthorityView) : ExtensionControlRuntimeSnapshot :=
  {| health := view_health v; revision := view_revision v; snap_catalog_digest := view_catalog_digest v;
     effective_digest := view_digest v; layers := view_layers v;
     managed_revision := view_managed_revision v |}.

Definition authority_failure (s : ExtensionControlRuntimeSnapshot) : option ResolverFailureCode :=
  match health s with
  | PROTECTED => None
  | TAMPERED | RECOVERY_REQUIRED => Some AUTHORITY_TAMPERED
  | _ => Some AUTHORITY_UNAVAILABLE
  end.

Definition private_evidence (s : ExtensionControlRuntimeSnapshot) : ExtensionControlDecisionEvidence :=
  {| evidence_revision := revision s; evidence_managed_revision := managed_revision s;
     evidence_effective_digest := effective_digest s |}.

(** ** The holder *)

Record ExtensionControlRuntime := {
  current : ExtensionControlRuntimeSnapshot;
  highest_protected_revision : Z * Z;
  highest_protected_digest : option pystr;
}.

Definition revision_pair (s : ExtensionControlRuntimeSnapshot) : Z * Z := (revision s, managed_revision s).

(** [ExtensionControlRuntime.__init__] *)
Definition make_ExtensionControlRuntime (v : ExtensionControlAuthorityView) : ExtensionControlRuntime :=
  let s := from_authority_view v in
  if bool_decide (view_health v = PROTECTED)
  then {| current := s; highest_protected_revision := revision_pair s;
          highest_protected_digest := Some (effective_digest s) |}
  else {| current := s; highest_protected_revision := (0, 0); highest_protected_digest := None |}.

Definition validate_candidate (r : ExtensionControlRuntime) (c : ExtensionControlRuntimeSnapshot)
    : result unit :=
  if negb (bool_decide (health c = PROTECTED)) then Ok tt
  else
    raise_if ((revision c <? (highest_protected_revision r).1)
              || (managed_revision c <? (highest_protected_revision r).2))
      (ValueError "extension control runtime revision cannot move backwards") ;;
    raise_if (bool_decide (revision_pair c = highest_protected_revision r)
              && match highest_protected_digest r with
                 | Some d => negb (bool_decide (effective_digest c = d))
                 | None => false
                 end)
      (ValueError "extension control runtime revision cannot be replaced").

Definition install (r : ExtensionControlRuntime) (c : ExtensionControlRuntimeSnapshot)
    : ExtensionControlRuntime :=
  if bool_decide (health c = PROTECTED)
  then {| current := c; highest_protected_revision := revision_pair c;
          highest_protected_digest := Some (effective_digest c) |}
  else {| current := c; highest_protected_revision := highest_protected_revision r;
          highest_protected_digest := highest_protected_digest r |}.

Definition install_candidate (r : ExtensionControlRuntime) (c : ExtensionControlRuntimeSnapshot)
    (validated : bool) : result ExtensionControlRuntime :=
  (if validated then Ok tt else validate_candidate r c) ;; Ok (install r c).

Definition refresh (v : ExtensionControlAuthorityView) (r : ExtensionControlRuntime)
    : result ExtensionControlRuntime :=
  install_candidate r (from_authority_view v) false.

Definition replace_after_recovery (v : ExtensionControlAuthorityView) (r : ExtensionControlRuntime)
    : result ExtensionControlRuntime :=
  let c := from_authority_view v in
  if bool_decide (health (current r) = PROTECTED)
     && bool_decide (effective_digest (current r) = effective_digest c)
  then Ok r
  else
    raise_if (negb (py_in (health (current r)) [TAMPERED; RECOVERY_REQUIRED]))
      (ValueError "extension control runtime is not awaiting recovery") ;;
    raise_if (negb (bool_decide (health c = PROTECTED)))
      (ValueError "extension control runtime recovery is not protected") ;;
    Ok {| current := c; highest_protected_revision := revision_pair c;
          highest_protected_digest := Some (effective_digest c) |}.

Section commit.
(** [commit()] acts on a durable store and may raise. *)
Context {D : Type} (commit : D → D * result unit).

(** The store, the holder and the outcome after the call. *)
Definition publish_after_commit (v : ExtensionControlAuthorityView) (r : ExtensionControlRuntime) (d : D)
    : D * ExtensionControlRuntime * result ExtensionControlRuntimeSnapshot :=
  let c := from_authority_view v in
  match validate_candidate r c with
  | Raise e => (d, r, Raise e)
  | Ok _ =>
      let '(d', outcome) := commit d in
      match outcome with
      | Raise e => (d', r, Raise e)
      | Ok _ =>
          match install_candidate r c true with
          | Raise e => (d', r, Raise e)
          | Ok r' => (d', r', Ok c)
          end
      end
  end.
End commit.

(** What the daemon does to the holder; a method that raises changes nothing. *)
Inductive runtime_event :=
  | Refresh (v : ExtensionControlAuthorityView)
  | Publish (v : ExtensionControlAuthorityView)
  | Recover (v : ExtensionControlAuthorityView).
Inductive runtime_step : ExtensionControlRuntime → runtime_event → ExtensionControlRuntime → Prop :=
  | step_refresh r v r' : refresh v r = Ok r' → runtime_step r (Refresh v) r'
  | step_publish {D} (commit : D → D * result unit) r v d d' r' s :
      publish_after_commit commit v r d = (d', r', Ok s) → runtime_step r (Publish v) r'
  | step_recover r v r' : replace_after_recovery v r = Ok r' → runtime_step r (Recover v) r'
  | step_raise r e : runtime_step r e r.

(** ** Lemmas *)

(** The holder remembers the protected snapshot it shows. *)
Definition remembers (r : ExtensionControlRuntime) : Prop :=
  health (current r) = PROTECTED →
  highest_protected_revision r = revision_pair (current r) ∧
  highest_protected_digest r = Some (effective_digest (current r)).

Lemma install_remembers r c : remembers (install r c).
Proof. unfold remembers, install. case_bool_decide; simpl; [done|]. by intros ?. Qed.

Lemma step_remembers r e r' : runtime_step r e r' → remembers r → remembers r'.
Proof.
  destruct 1 as [r v r' H|D commit r v d d' r' s H|r v r' H|r e]; intros Hr; [| | |done].
  - unfold refresh, install_candidate in H. apply then_Ok in H as [_ [= <-]]. apply install_remembers.
  - unfold publish_after_commit in H. destruct (validate_candidate _ _); [|congruence].
    destruct (commit d) as [d1 [[]|]]; [|congruence]. injection H as _ <- _. apply install_remembers.
  - unfold replace_after_recovery in H. destruct (_ && _); [by injection H as <-|].
    apply then_Ok in H as [_ [_ [= <-]]%then_Ok]. by intros _.
Qed.

(** Componentwise order of revisions. *)
Definition revision_le (a b : Z * Z) : Prop := a.1 <= b.1 ∧ a.2 <= b.2.

(** What a holder that took no recovery step keeps: its protected revision only
    grows, and keeps its digest while it stands still. *)
Definition advances (r r' : ExtensionControlRuntime) : Prop :=
  revision_le (highest_protected_revision r) (highest_protected_revision r') ∧
  (highest_protected_revision r = highest_protected_revision r' →
   is_Some (highest_protected_digest r) → highest_protected_digest r' = highest_protected_digest r).

Lemma validated_install_advances r c :
  validate_candidate r c = Ok tt → advances r (install r c).
Proof.
  unfold validate_candidate, install, advances, revision_le. case_bool_decide as Hp; simpl; [|done].
  rewrite then_Ok, !raise_if_Ok. intros [Hle Heq]. split_bool.
  split; [unfold revision_pair; simpl; lia|]. intros E [d Hd]. rewrite Hd in *. f_equal.
  rewrite (bool_decide_eq_true_2 _ (eq_sym E)) in Heq. simpl in Heq.
  by apply negb_false_iff, bool_decide_eq_true in Heq.
Qed.

Lemma advances_refl r : advances r r.
Proof. split; [split; lia | done]. Qed.

Lemma advances_trans r1 r2 r3 : advances r1 r2 → advances r2 r3 → advances r1 r3.
Proof.
  intros [[Ha Hb] Hd] [[Ha' Hb'] Hd']. split; [split; lia|]. intros E Hs.
  destruct (highest_protected_revision r1) as [a1 b1], (highest_protected_revision r2) as [a2 b2],
    (highest_protected_revision r3) as [a3 b3]; simpl in *. injection E as -> ->.
  assert (a2 = a3) as -> by lia. assert (b2 = b3) as -> by lia.
  rewrite <- (Hd eq_refl Hs). apply Hd'; [done|]. by rewrite (Hd eq_refl Hs).
Qed.

Definition not_recovery (e : runtime_event) : Prop := match e with Recover _ => False | _ => True end.

Lemma step_advances r e r' : runtime_step r e r' → not_recovery e → advances r r'.
Proof.
  destruct 1 as [r v r' H|D commit r v d d' r' s H|r v r' H|r e]; intros Hn; [| |done|apply advances_refl].
  - unfold refresh, install_candidate in H. apply then_Ok in H as [? [= <-]].
    by apply validated_install_advances.
  - unfold publish_after_commit in H. destruct (validate_candidate _ _) as [[]|] eqn:Hv; [|congruence].
    destruct (commit d) as [d1 [[]|]]; [|congruence]. injection H as _ <- _.
    by apply validated_install_advances.
Qed.

(** Runs of the holder. *)
Definition live_step (r r' : ExtensionControlRuntime) : Prop := ∃ e, not_recovery e ∧ runtime_step r e r'.

Lemma run_advances r r' : rtc live_step r r' → advances r r'.
Proof.
  induction 1 as [|x y z (e & Hn & Hs) _ IH]; [apply advances_refl|].
  eapply advances_trans; [by eapply step_advances | done].
Qed.

Lemma run_remembers r r' : rtc live_step r r' → remembers r → remembers r'.
Proof. induction 1 as [|x y z (e & _ & Hs) _ IH]; [done|]. intros Hx. apply IH. by eapply step_remembers. Qed.

(** ** Theorems *)

(** C26: no replay of control state.  Between recoveries the protected snapshots
    a holder shows never move back in either revision, and two protected
    snapshots with the same revisions have the same effective digest. *)
Theorem protected_snapshots_monotone (r r' : ExtensionControlRuntime) :
  remembers r → health (current r) = PROTECTED → rtc live_step r r' → health (current r') = PROTECTED →
  revision_le (revision_pair (current r)) (revision_pair (current r')) ∧
  (revision_pair (current r) = revision_pair (current r') →
   effective_digest (current r') = effective_digest (current r)).
Proof.
  intros Hr Hp Hrun Hp'. destruct (run_advances _ _ Hrun) as [Hle Hd].
  destruct (Hr Hp) as [E1 E2]. destruct (run_remembers _ _ Hrun Hr Hp') as [E1' E2'].
  rewrite E1, E1' in *. split; [done|]. intros E. rewrite E2, E2' in Hd.
  specialize (Hd E (mk_is_Some _ _ eq_refl)). congruence.
Qed.

(** what [publish_after_commit] exposes is what was committed: the durable
    commit runs only after the candidate has been validated, a commit that
    raises leaves the snapshot as it was, and once the commit has returned the
    new snapshot is installed without a further check that could fail. *)
Theorem publish_atomic {D} (commit : D → D * result unit) v r d d' r' out :
  publish_after_commit commit v r d = (d', r', out) →
  match out with
  | Ok s => s = from_authority_view v ∧ current r' = s ∧ validate_candidate r s = Ok tt ∧
            commit d = (d', Ok tt)
  | Raise e => r' = r ∧
      (d' = d ∧ validate_candidate r (from_authority_view v) = Raise e ∨
       validate_candidate r (from_authority_view v) = Ok tt ∧ commit d = (d', Raise e))
  end.
Proof.
  unfold publish_after_commit. destruct (validate_candidate r _) as [[]|e] eqn:Hv.
  - destruct (commit d) as [d1 [[]|e]] eqn:Hc; intros [= <- <- <-].
    + split_and!; try done. simpl. unfold install. by case_bool_decide.
    + split; [done | by right].
  - intros [= <- <- <-]. split; [done | by left].
Qed.

(** the revision floor is lowered only by a recovery: a holder whose
    snapshot is neither tampered nor awaiting recovery keeps its state, and a
    recovery always ends with a protected snapshot. *)
Theorem recovery_guarded (r r' : ExtensionControlRuntime) (v : ExtensionControlAuthorityView) :
  replace_after_recovery v r = Ok r' →
  health (current r') = PROTECTED ∧ effective_digest (current r') = view_digest v ∧
  (r' = r ∨ health (current r) ∈ [TAMPERED; RECOVERY_REQUIRED] ∧ remembers r').
Proof.
  unfold replace_after_recovery. destruct (_ && _) eqn:E.
  - intros [= <-]. apply andb_true_iff in E as [Hp Hd].
    apply bool_decide_eq_true in Hp, Hd. split_and!; [done | done | by left].
  - rewrite !then_Ok, !raise_if_Ok. intros (Hin & Hp & [= <-]).
    apply negb_false_iff, py_in_true in Hin. apply negb_false_iff, bool_decide_eq_true in Hp.
    simpl. split_and!; [done | done | by right].
Qed.

(** layers survive their JSON value: reading back what was written gives
    the same layer, for every validated layer with validated targets. *)
Theorem layer_value_roundtrip (l : ExtensionControlLayer) :
  check_ExtensionControlLayer l = Ok tt →
  Forall (λ c, make_ControlTarget (target_kind (control_target c)) (target_id (control_target c))
               = Ok (control_target c)) (layer_controls l) →
  layer_from_value (layer_to_value l) = Ok l.
Proof.
  intros Hl Hc. unfold layer_from_value, layer_to_value. simpl.
  assert (map_result control_from_value (control_to_value <$> layer_controls l) = Ok (layer_controls l)) as ->.
  { apply map_result_Ok. apply Forall2_fmap_l. induction Hc as [|c cs Hc _ IH]; constructor; [|exact IH].
    destruct c as [[k id] s]. unfold control_from_value, control_to_value. simpl in *.
    destruct k, s; simpl; rewrite Hc; done. }
  destruct l as [schema kind catalog lock cs]. simpl in *. destruct kind; simpl; by rewrite Hl.
Qed.

(** the digest of a snapshot depends on its content only: views that list
    the same layers in another order, one per kind, have the same digest. *)
Theorem view_digest_order (v w : ExtensionControlAuthorityView) :
  view_health v = view_health w → view_revision v = view_revision w →
  view_catalog_digest v = view_catalog_digest w → view_managed_revision v = view_managed_revision w →
  view_layers v ≡ₚ view_layers w → NoDup (layer_key <$> view_layers v) →
  view_digest v = view_digest w.
Proof.
  intros Hh Hr Hcat Hm Hl Hd. unfold view_digest. rewrite Hh, Hr, Hcat, Hm.
  by rewrite (sort_on_perm layer_key (view_layers v) (view_layers w)) by
    (done || (intros x y Hx Hy; by apply (NoDup_fmap_separates layer_key _ x y Hd Hx Hy))).
Qed.

(** ** Instances *)

Definition sample_control_layer : ExtensionControlLayer :=
  {| layer_schema_version := CONTROL_SCHEMA_VERSION; layer_kind := LOCAL_ADMIN;
     layer_catalog_digest := replicate 64 97; layer_global_lockdown := false;
     layer_controls := [{| control_target := {| target_kind := EXTENSION; target_id := $"command.git" |};
                           control_state := DISABLED |}] |}.

Definition sample_view (h : AuthorityHealth) (rev : Z) : ExtensionControlAuthorityView :=
  {| view_health := h; view_revision := rev; view_catalog_digest := replicate 64 97;
     view_layers :=
       [sample_control_layer;
        {| layer_schema_version := CONTROL_SCHEMA_VERSION; layer_kind := SIGNED_CLOUD;
           layer_catalog_digest := replicate 64 97; layer_global_lockdown := false;
           layer_controls := [] |}];
     view_managed_revision := 0 |}.
Definition sample_runtime (h : AuthorityHealth) : ExtensionControlRuntime :=
  make_ExtensionControlRuntime (sample_view h 1).
Definition sample_refreshed : ExtensionControlRuntime :=
  install (sample_runtime PROTECTED) (from_authority_view (sample_view PROTECTED 2)).

Lemma make_remembers v : remembers (make_ExtensionControlRuntime v).
Proof. unfold remembers, make_ExtensionControlRuntime. by case_bool_decide. Qed.

Lemma sample_refresh : refresh (sample_view PROTECTED 2) (sample_runtime PROTECTED) = Ok sample_refreshed.
Proof. vm_compute. reflexivity. Qed.

Lemma protected_monotone_witness :
  revision_le (revision_pair (current (sample_runtime PROTECTED))) (revision_pair (current sample_refreshed)).
Proof.
  refine (proj1 (protected_snapshots_monotone (sample_runtime PROTECTED) sample_refreshed
    (make_remembers _) _ _ _)).
  - reflexivity.
  - apply rtc_once. exists (Refresh (sample_view PROTECTED 2)). split; [exact I|].
    constructor. exact sample_refresh.
  - reflexivity.
Defined.

Definition sample_commit (store : list Z) : list Z * result unit := (1 :: store, Ok tt).
Lemma sample_publish :
  publish_after_commit sample_commit (sample_view PROTECTED 2) (sample_runtime PROTECTED) []
  = ([1], sample_refreshed, Ok (from_authority_view (sample_view PROTECTED 2))).
Proof. vm_compute. reflexivity. Qed.

Lemma publish_atomic_witness : sample_commit [] = ([1], Ok tt).
Proof.
  exact (proj2 (proj2 (proj2 (publish_atomic sample_commit (sample_view PROTECTED 2)
    (sample_runtime PROTECTED) [] _ _ _ sample_publish)))).
Defined.

Definition sample_recovered : ExtensionControlRuntime :=
  let c := from_authority_view (sample_view PROTECTED 0) in
  {| current := c; highest_protected_revision := (0, 0);
     highest_protected_digest := Some (effective_digest c) |}.
Lemma sample_recovery :
  replace_after_recovery (sample_view PROTECTED 0) (sample_runtime TAMPERED) = Ok sample_recovered.
Proof. vm_compute. reflexivity. Qed.

Lemma recovery_guarded_witness : health (current sample_recovered) = PROTECTED.
Proof. exact (proj1 (recovery_guarded _ _ _ sample_recovery)). Defined.

Lemma layer_roundtrip_witness :
  layer_from_value (layer_to_value sample_control_layer) = Ok sample_control_layer.
Proof.
  apply (layer_value_roundtrip sample_control_layer); [vm_compute; reflexivity|].
  repeat constructor.
Defined.

Lemma view_digest_order_witness :
  view_digest (sample_view PROTECTED 1)
  = view_digest {| view_health := PROTECTED; view_revision := 1; view_catalog_digest := replicate 64 97;
      view_layers := reverse (view_layers (sample_view PROTECTED 1)); view_managed_revision := 0 |}.
Proof.
  apply (view_digest_order (sample_view PROTECTED 1)); try reflexivity.
  - simpl. constructor.
  - apply (bool_decide_unpack _). vm_compute. exact I.
Defined.

End ControlRuntime.
