(* ===== verification/NativeObservations.v ===== *)
(** * Native command observations

    Models [native_command_observations.py] (the strict validator of the
    redacted evidence the native runtime sends) and
    [native_command_extension_evidence.py] (its projection onto the catalog).

    The wire value is an untyped [pyval]; the evidence budget, a one-element
    list the helpers decrement, is threaded as an integer.  The canonical JSON
    whose digest binds the observations is [dumps_raw]. *)

From S2P Require Import Prelude PyStr Sha256 Regex PyVal ActionLattice EffectContract.
From S2P Require Import ExtensionEvidence EffectDecision CommandCatalog ExtensionControl ControlRuntime.
Local Open Scope Z_scope.
Local Open Scope py_scope.

Module Native.
Import ControlRuntime.

(** ** The validator *)

(** [command\.[a-z0-9]+(?:[.-][a-z0-9]+)*] *)
Definition CATALOG_ID : regex :=
  RCat (RLit ($"command.")) (RCat (RPlus (RSet az09))
    (RStar (RCat (RSet [(45, 46)]) (RPlus (RSet az09))))).
(** [[1-9][0-9]*\.[0-9]+\.[0-9]+] *)
Definition VERSION : regex :=
  RCat (RSet [(49, 57)]) (RCat (RStar (RSet [(48, 57)])) (RCat (RChr 46) (RCat (RPlus (RSet [(48, 57)]))
    (RCat (RChr 46) (RPlus (RSet [(48, 57)])))))).
(** [[a-z0-9][a-z0-9_.:-]{0,255}] *)
Definition VARIANT : regex :=
  RCat (RSet az09) (RUpTo 255 (RSet [(97, 122); (48, 57); (95, 95); (46, 46); (58, 58); (45, 45)])).
(** [[A-Za-z0-9][A-Za-z0-9._+-]{0,127}] *)
Definition EXECUTABLE : regex :=
  RCat (RSet [(65, 90); (97, 122); (48, 57)])
    (RUpTo 127 (RSet [(65, 90); (97, 122); (48, 57); (46, 46); (95, 95); (43, 43); (45, 45)])).
(** [[a-z0-9][a-z0-9_-]{0,127}] *)
Definition MCP_TOOL : regex :=
  RCat (RSet az09) (RUpTo 127 (RSet [(97, 122); (48, 57); (95, 95); (45, 45)])).

Definition DETAIL : pystr := $"Matched bounded structured command constraints.".
Definition MAX_OBSERVATIONS : Z := 2048.
Definition MAX_EVIDENCE : Z := 8192.
Definition BINDING_FIELDS : list pystr :=
  [$"schema"; $"program_digest"; $"catalog_digest"; $"trust_digest"; $"control_revision";
   $"managed_control_revision"; $"control_effective_digest"; $"observations_digest";
   $"observation_count"; $"uncertainty_count"].
Definition OBSERVATION_FIELDS : list pystr :=
  [$"extension_id"; $"extension_version"; $"rule_id"; $"rule_version"; $"match_class";
   $"match_classes"; $"matcher_evidence"; $"safe_variants"; $"uncertainty_reasons";
   $"effective_segment_indexes"].

(** [set(value) == fields] *)
Definition has_fields (d : list (pystr * pyval)) (fields : list pystr) : bool :=
  py_subset (dict_keys d) fields && py_subset fields (dict_keys d).

(** [bool(value)] *)
Definition truthy (v : pyval) : bool :=
  match v with
  | PNone => false
  | PBool b => b
  | PInt n => negb (n =? 0)
  | PStr s => negb (bool_decide (s = []))
  | PList l => negb (bool_decide (length l = 0%nat))
  | PDict d => negb (bool_decide (length d = 0%nat))
  | POther _ _ => true
  end.

Definition matches (v : pyval) (pattern : regex) (maximum : nat) : bool :=
  match v with PStr s => (length s <=? maximum)%nat && fullmatch pattern s | _ => false end.
Definition integer (v : pyval) (maximum : Z) : bool :=
  match v with PInt n => (0 <=? n) && (n <=? maximum) | _ => false end.
Definition int_of (v : pyval) : Z := match v with PInt n => n | _ => 0 end.
Definition str_of (v : pyval) : pystr := match v with PStr s => s | _ => [] end.
Definition is_none (v : pyval) : bool := match v with PNone => true | _ => false end.

Definition valid_native_command_receipt_binding (v : pyval) : bool :=
  match v with
  | PDict d =>
      has_fields d BINDING_FIELDS
      && py_eqb (dict_get ($"schema") d) (PStr ($"guard.native-command-receipt-binding.v1"))
      && forallb (λ key, matches (dict_get key d) SHA256_RE 64)
           [$"program_digest"; $"catalog_digest"; $"trust_digest"; $"control_effective_digest";
            $"observations_digest"]
      && integer (dict_get ($"control_revision") d) (2 ^ 64 - 1)
      && integer (dict_get ($"managed_control_revision") d) (2 ^ 64 - 1)
      && integer (dict_get ($"observation_count") d) MAX_OBSERVATIONS
      && integer (dict_get ($"uncertainty_count") d) (MAX_OBSERVATIONS + 1)
  | _ => false
  end.

Definition evidence_index (item : pyval) : option Z :=
  match item with
  | PDict d =>
      if has_fields d [$"segment_index"; $"executable"; $"detail"]
         && integer (dict_get ($"segment_index") d) 127
         && py_eqb (dict_get ($"detail") d) (PStr DETAIL)
         && (is_none (dict_get ($"executable") d) || matches (dict_get ($"executable") d) EXECUTABLE 128)
      then Some (int_of (dict_get ($"segment_index") d)) else None
  | _ => None
  end.

(** The indexes, and the budget left. *)
Definition evidence_indexes (v : pyval) (budget : Z) : option (list Z * Z) :=
  match v with
  | PList items =>
      if (MAX_EVIDENCE <? zlen items) || (budget - zlen items <? 0) then None
      else indexes ← mapM evidence_index items ; Some (indexes, budget - zlen items)
  | _ => None
  end.

Fixpoint valid_variants (vs : list pyval) (variant_ids : list pystr) (safe_indexes : list Z) (budget : Z)
    : option (list Z * Z) :=
  match vs with
  | [] => Some (safe_indexes, budget)
  | PDict d :: vs =>
      let variant_id := str_of (dict_get ($"variant_id") d) in
      if has_fields d [$"match_class"; $"variant_id"; $"matcher_evidence"]
         && py_eqb (dict_get ($"match_class") d) (PStr ($"safe-variant"))
         && matches (dict_get ($"variant_id") d) VARIANT 256
         && negb (py_in variant_id variant_ids)
      then
        '(indexes, budget) ← evidence_indexes (dict_get ($"matcher_evidence") d) budget ;
        if bool_decide (indexes = []) then None
        else valid_variants vs (variant_id :: variant_ids) (safe_indexes ++ indexes) budget
      else None
  | _ :: _ => None
  end.

(** [uncertainty in ([], ["matcher-failure"])] *)
Definition known_uncertainty (v : pyval) : bool :=
  py_eqb v (PList []) || py_eqb v (PList [PStr ($"matcher-failure")]).

Definition expected_classes (base : list Z) (uncertainty : pyval) : list pyval :=
  (if bool_decide (base = []) then [] else [PStr ($"unsafe")])
  ++ (if truthy uncertainty then [PStr ($"uncertainty")] else []).

(** [_valid_observation]: the budget left when the observation is valid. *)
Definition valid_observation (v : pyval) (budget : Z) : option Z :=
  match v with
  | PDict d =>
      if negb (has_fields d OBSERVATION_FIELDS
               && matches (dict_get ($"extension_id") d) CATALOG_ID 256
               && matches (dict_get ($"rule_id") d) CATALOG_ID 256
               && startswith (str_of (dict_get ($"extension_id") d) ++ [46]) (str_of (dict_get ($"rule_id") d))
               && matches (dict_get ($"extension_version") d) VERSION 64
               && matches (dict_get ($"rule_version") d) VERSION 64)
      then None
      else
        '(base, budget) ← evidence_indexes (dict_get ($"matcher_evidence") d) budget ;
        let uncertainty := dict_get ($"uncertainty_reasons") d in
        match dict_get ($"safe_variants") d with
        | PList variants =>
            let classes := expected_classes base uncertainty in
            if (64 <? zlen variants)
               || negb (known_uncertainty uncertainty)
               || negb (py_eqb (dict_get ($"match_classes") d) (PList classes))
               || negb (py_eqb (dict_get ($"match_class") d)
                          (PStr (if truthy uncertainty then $"uncertainty" else $"unsafe")))
               || bool_decide (length classes = 0%nat)
               || (bool_decide (base = []) && negb (bool_decide (length variants = 0%nat)))
            then None
            else
              '(safe, budget) ← valid_variants variants [] [] budget ;
              match dict_get ($"effective_segment_indexes") d with
              | PList effective =>
                  if forallb (λ index, integer index 127) effective
                     && bool_decide ((int_of <$> effective) = filter (λ i, i ∉ safe) base)
                  then Some budget else None
              | _ => None
              end
        | _ => None
        end
  | _ => None
  end.

Definition PERMISSION_FIELDS : list pystr :=
  [$"extension_id"; $"permission_id"; $"matcher_evidence"; $"uncertainty_reasons"].

Definition valid_permission_observation (v : pyval) (budget : Z) : option Z :=
  match v with
  | PDict d =>
      let mcp := bool_decide ($"mcp_tool" ∈ dict_keys d) in
      let uncertainty := dict_get ($"uncertainty_reasons") d in
      if negb (has_fields d PERMISSION_FIELDS || has_fields d (PERMISSION_FIELDS ++ [$"mcp_tool"]))
         || (mcp && (negb (match dict_get ($"mcp_tool") d with PStr s => fullmatch MCP_TOOL s | _ => false end)
                     || truthy (dict_get ($"matcher_evidence") d)))
         || negb (matches (dict_get ($"extension_id") d) CATALOG_ID 256)
         || negb (matches (dict_get ($"permission_id") d) CATALOG_ID 256)
         || negb (startswith (str_of (dict_get ($"extension_id") d) ++ $".permission.")
                    (str_of (dict_get ($"permission_id") d)))
      then None
      else
        '(evidence, budget) ← evidence_indexes (dict_get ($"matcher_evidence") d) budget ;
        if known_uncertainty uncertainty
           && (negb (bool_decide (evidence = [])) || truthy uncertainty || mcp)
        then Some budget else None
  | _ => None
  end.

(** [all(valid(item, budget) for item in items)] *)
Fixpoint all_valid (valid : pyval → Z → option Z) (items : list pyval) (budget : Z) : option Z :=
  match items with
  | [] => Some budget
  | item :: items => budget ← valid item budget ; all_valid valid items budget
  end.

(** A JSON value as [json.dumps] sees it. *)
Fixpoint as_json (v : pyval) : json :=
  match v with
  | PNone | POther _ _ => JNull
  | PBool b => JBool b
  | PInt n => JInt n
  | PStr s => JStr s
  | PList l => JArr (map as_json l)
  | PDict d => JObj (map (λ p, (p.1, as_json p.2)) d)
  end.

Definition observations_digest (observations permission_observations : list pyval) (error : pyval) : pystr :=
  sha256_hex ($"hol-guard.native-command-observations.v1" ++ [0] ++ utf8 (dumps_raw (JObj
    [($"observations", JArr (as_json <$> observations));
     ($"permission_observations", JArr (as_json <$> permission_observations));
     ($"evaluation_error", as_json error)]))).

Definition dict_field (key : pystr) (v : pyval) : pyval :=
  match v with PDict d => dict_get key d | _ => PNone end.

(** What an accepted value holds. *)
Record ValidatedObservations := {
  binding : list (pystr * pyval);
  wire_observations : list pyval;
  wire_permission_observations : list pyval;
  evaluation_error : bool;
}.

Definition uncertain_count (items : list pyval) : Z :=
  zlen (filter (λ item, truthy (dict_field ($"uncertainty_reasons") item) = true) items).

Definition validate_native_command_observations (v : pyval) : option ValidatedObservations :=
  match v with
  | PDict d =>
      match dict_get ($"binding") d, dict_get ($"observations") d, dict_get ($"permission_observations") d with
      | PDict b, PList observations, PList permissions =>
          let error := dict_get ($"evaluation_error") d in
          let count := zlen observations + zlen permissions in
          if negb (has_fields d [$"schema"; $"binding"; $"observations"; $"permission_observations";
                                 $"evaluation_error"])
             || negb (py_eqb (dict_get ($"schema") d) (PStr ($"guard.native-command-observations.v1")))
             || negb (valid_native_command_receipt_binding (PDict b))
             || (MAX_OBSERVATIONS <? count)
             || (negb (is_none error)
                 && (negb (py_eqb error (PStr ($"native_command_evaluation_failed"))) || negb (count =? 0)))
          then None
          else
            budget ← all_valid valid_observation observations MAX_EVIDENCE ;
            _ ← all_valid valid_permission_observation permissions budget ;
            if has_dups (str_of ∘ dict_field ($"rule_id") <$> observations)
               || has_dups (str_of ∘ dict_field ($"permission_id") <$> permissions)
               || negb (int_of (dict_get ($"observation_count") b) =? count)
               || negb (int_of (dict_get ($"uncertainty_count") b)
                        =? uncertain_count (observations ++ permissions) + (if is_none error then 0 else 1))
               || negb (bool_decide (str_of (dict_get ($"observations_digest") b)
                                     = observations_digest observations permissions error))
            then None
            else Some {| binding := b; wire_observations := observations;
                         wire_permission_observations := permissions;
                         evaluation_error := negb (is_none error) |}
      | _, _, _ => None
      end
  | _ => None
  end.

(** ** The projection *)

Record NativeMatcherEvidence := { segment_index : Z; executable : option pystr; detail : pystr }.
Global Instance NativeMatcherEvidence_eq_dec : EqDecision NativeMatcherEvidence.
Proof. solve_decision. Defined.

Record NativeSafeVariantObservation := {
  observed_variant_id : pystr;
  variant_matcher_evidence : list NativeMatcherEvidence;
}.
Global Instance NativeSafeVariantObservation_eq_dec : EqDecision NativeSafeVariantObservation.
Proof. solve_decision. Defined.

Record NativeCommandExtensionObservation := {
  obs_extension : GeneratedCommandExtension;
  obs_rule : GeneratedCommandRule;
  matcher_evidence : list NativeMatcherEvidence;
  obs_safe_variants : list NativeSafeVariantObservation;
  obs_uncertainty_reasons : list UncertaintyKind;
}.

Definition safe_segments (o : NativeCommandExtensionObservation) : list Z :=
  mjoin ((λ v, segment_index <$> variant_matcher_evidence v) <$> obs_safe_variants o).
Definition effective_evidence (o : NativeCommandExtensionObservation) : list NativeMatcherEvidence :=
  filter (λ e, segment_index e ∉ safe_segments o) (matcher_evidence o).

(** [to_dict] *)
Definition matcher_evidence_to_dict (e : NativeMatcherEvidence) : pyval :=
  PDict [($"segment_index", PInt (segment_index e));
         ($"executable", match executable e with Some s => PStr s | None => PNone end);
         ($"detail", PStr (detail e))].
Definition safe_variant_to_dict (v : NativeSafeVariantObservation) : pyval :=
  PDict [($"match_class", PStr ($"safe-variant")); ($"variant_id", PStr (observed_variant_id v));
         ($"matcher_evidence", PList (matcher_evidence_to_dict <$> variant_matcher_evidence v))].
Definition observation_to_dict (o : NativeCommandExtensionObservation) : pyval :=
  let uncertain := negb (bool_decide (obs_uncertainty_reasons o = [])) in
  PDict [($"extension_id", PStr (CommandCatalog.extension_id (obs_extension o)));
         ($"extension_version", PStr (version (obs_extension o)));
         ($"rule_id", PStr (CommandCatalog.rule_id (obs_rule o)));
         ($"rule_version", PStr (CommandCatalog.rule_version (obs_rule o)));
         ($"match_class", PStr (if uncertain then $"uncertainty" else $"unsafe"));
         ($"match_classes", PList ((if bool_decide (matcher_evidence o = []) then [] else [PStr ($"unsafe")])
                                   ++ (if uncertain then [PStr ($"uncertainty")] else [])));
         ($"matcher_evidence", PList (matcher_evidence_to_dict <$> matcher_evidence o));
         ($"safe_variants", PList (safe_variant_to_dict <$> obs_safe_variants o));
         ($"uncertainty_reasons", PList (PStr ∘ enum_value <$> obs_uncertainty_reasons o));
         ($"effective_segment_indexes", PList (PInt ∘ segment_index <$> effective_evidence o))].

(** [NativeCommandExtensionEvidenceError] is a [RuntimeError]. *)
Definition evidence_error {A} (msg : string) : result A := Raise (RuntimeError msg).

(** [value[key]] *)
Definition item_of (key : pystr) (v : pyval) : result pyval :=
  match v with
  | PDict d => match dict_lookup key d with Some x => Ok x | None => Raise (KeyError (show key)) end
  | _ => Raise (TypeError "object is not subscriptable")
  end.

Definition matcher_evidence_of (item : pyval) : result NativeMatcherEvidence :=
  i ← item_of ($"segment_index") item ;
  e ← item_of ($"executable") item ;
  t ← item_of ($"detail") item ;
  Ok {| segment_index := int_of i;
        executable := match e with PStr s => Some s | _ => None end;
        detail := str_of t |}.

Definition evidence (v : pyval) : result (list NativeMatcherEvidence) :=
  match v with
  | PList items => map_result matcher_evidence_of items
  | _ => evidence_error "native_command_extension_evidence_invalid"
  end.

Definition safe_variant_of (item : pyval) : result NativeSafeVariantObservation :=
  id ← item_of ($"variant_id") item ;
  ev ← item_of ($"matcher_evidence") item ;
  ev ← evidence ev ;
  Ok {| observed_variant_id := str_of id; variant_matcher_evidence := ev |}.

(** Iterating over a list-valued item. *)
Definition list_item (key : pystr) (v : pyval) : result (list pyval) :=
  x ← item_of key v ;
  match x with PList l => Ok l | _ => Raise (TypeError "object is not iterable") end.

Section projection.
Context `{PyUnicode}.

Definition observation_of (registry : GeneratedCommandCatalog) (raw : pyval)
    : result NativeCommandExtensionObservation :=
  extension_id ← item_of ($"extension_id") raw ;
  rule_id ← item_of ($"rule_id") raw ;
  match get registry (str_of extension_id), get_rule registry (str_of rule_id) with
  | Some extension, Some rule =>
      extension_version ← item_of ($"extension_version") raw ;
      rule_version ← item_of ($"rule_version") raw ;
      raise_if (negb (py_in rule (rules extension))
                || negb (bool_decide (str_of extension_version = version extension))
                || negb (bool_decide (str_of rule_version = CommandCatalog.rule_version rule)))
        (RuntimeError "native_command_extension_evidence_unknown_identity") ;;
      variants_raw ← list_item ($"safe_variants") raw ;
      variants ← map_result safe_variant_of variants_raw ;
      raise_if (existsb (λ v, negb (py_in (observed_variant_id v) (variant_id <$> safe_variants rule))) variants)
        (RuntimeError "native_command_extension_evidence_unknown_identity") ;;
      uncertainty ← list_item ($"uncertainty_reasons") raw ;
      ev_raw ← item_of ($"matcher_evidence") raw ;
      ev ← evidence ev_raw ;
      Ok {| obs_extension := extension; obs_rule := rule; matcher_evidence := ev;
            obs_safe_variants := variants;
            obs_uncertainty_reasons := if bool_decide (length uncertainty = 0%nat) then [] else [MATCHER_FAILURE] |}
  | _, _ => evidence_error "native_command_extension_evidence_unknown_identity"
  end.

Definition check_permission_observation (registry : GeneratedCommandCatalog) (raw : pyval) : result unit :=
  extension_id ← item_of ($"extension_id") raw ;
  permission_id ← item_of ($"permission_id") raw ;
  match get registry (str_of extension_id), permission registry (str_of permission_id) with
  | Some extension, Some p =>
      raise_if (negb (py_in p (permissions extension)))
        (RuntimeError "native_command_extension_evidence_unknown_identity")
  | _, _ => evidence_error "native_command_extension_evidence_unknown_identity"
  end.

(** [value] is the dictionary of the native response. *)
Definition observations_from_native_evidence (value : pyval) (registry : GeneratedCommandCatalog)
    (normalized_text : pystr) (snapshot : ExtensionControlRuntimeSnapshot)
    : result (list NativeCommandExtensionObservation) :=
  match value with
  | PDict d =>
      raise_if (negb (match dict_get ($"command_model") d with
                      | PDict m => py_eqb (dict_get ($"normalized_text") m) (PStr normalized_text)
                      | _ => false
                      end))
        (RuntimeError "native_command_extension_evidence_command_mismatch") ;;
      match validate_native_command_observations (dict_get ($"command_extensions") d) with
      | None => evidence_error "native_command_extension_evidence_invalid"
      | Some validated =>
          let b := binding validated in
          raise_if (negb (py_eqb (dict_get ($"catalog_digest") b) (PStr (catalog_digest registry)))
                    || negb (match program_digest registry with
                             | Some p => py_eqb (dict_get ($"program_digest") b) (PStr p)
                             | None => false
                             end)
                    || negb (py_eqb (dict_get ($"control_revision") b) (PInt (revision snapshot)))
                    || negb (py_eqb (dict_get ($"managed_control_revision") b) (PInt (managed_revision snapshot)))
                    || negb (py_eqb (dict_get ($"control_effective_digest") b) (PStr (effective_digest snapshot))))
            (RuntimeError "native_command_extension_evidence_binding_mismatch") ;;
          if evaluation_error validated then
            raise_if (negb (py_eqb (dict_get ($"decision") d) (PStr ($"deny")))
                      || negb (py_eqb (dict_get ($"policy_action") d) (PStr ($"block")))
                      || negb (py_eqb (dict_get ($"minimum_action") d) (PStr ($"block")))
                      || negb (match dict_get ($"explicitly_benign") d with PBool false => true | _ => false end))
              (RuntimeError "native_command_extension_evidence_invalid") ;;
            Ok []
          else
            observations ← map_result (observation_of registry) (wire_observations validated) ;
            for_each (check_permission_observation registry) (wire_permission_observations validated) ;;
            Ok observations
      end
  | _ => evidence_error "native_command_extension_evidence_invalid"
  end.
End projection.

(** ** Lemmas *)

Lemma has_fields_lookup d fields k :
  has_fields d fields = true → k ∈ fields → ∃ v, dict_lookup k d = Some v.
Proof.
  unfold has_fields. intros [_ Hf]%andb_true_iff Hk.
  apply py_subset_true with (x := k) in Hf; [|done]. by apply elem_of_dict_keys.
Qed.

Lemma item_of_lookup k d v : dict_lookup k d = Some v → item_of k (PDict d) = Ok v.
Proof. simpl. by intros ->. Qed.

Lemma dict_get_lookup k d v : dict_lookup k d = Some v → dict_get k d = v.
Proof. unfold dict_get. by intros ->. Qed.

(** The field of a value that passed [has_fields]. *)
Lemma item_of_field d fields k :
  has_fields d fields = true → k ∈ fields → item_of k (PDict d) = Ok (dict_get k d).
Proof.
  intros Hf Hk. destruct (has_fields_lookup _ _ _ Hf Hk) as [v Hv].
  by rewrite (item_of_lookup _ _ _ Hv), (dict_get_lookup _ _ _ Hv).
Qed.

Lemma evidence_index_Some item i :
  evidence_index item = Some i →
  ∃ e, matcher_evidence_of item = Ok e ∧ segment_index e = i ∧ 0 <= i <= 127 ∧ detail e = DETAIL.
Proof.
  destruct item as [| | | | |d|]; try done. simpl. destruct (_ && _) eqn:E; [|done]. intros [= <-].
  apply andb_true_iff in E as [[[Hf Hi]%andb_true_iff Hd]%andb_true_iff He].
  unfold matcher_evidence_of. rewrite !(item_of_field d _ _ Hf) by set_solver. simpl.
  eexists. split; [reflexivity|]. simpl.
  destruct (dict_get ($"segment_index") d); try done. simpl in *. apply andb_true_iff in Hi as [? ?].
  split_and!; [done | lia | lia |].
  destruct (dict_get ($"detail") d); try done. simpl in Hd. by apply bool_decide_eq_true in Hd as ->.
Qed.

Lemma evidence_indexes_Some v b idx b' :
  evidence_indexes v b = Some (idx, b') →
  ∃ ev, evidence v = Ok ev ∧ segment_index <$> ev = idx ∧ b' = b - zlen ev ∧ 0 <= b' ∧
        Forall (λ e, 0 <= segment_index e <= 127 ∧ detail e = DETAIL) ev.
Proof.
  destruct v as [| | | |items| |]; try done. simpl. destruct (_ || _) eqn:E; [done|].
  apply orb_false_iff in E as [_ Hb]. apply Z.ltb_ge in Hb.
  intros (idx' & Hm & [= <- <-])%bind_Some.
  assert (∃ ev, map_result matcher_evidence_of items = Ok ev ∧ segment_index <$> ev = idx' ∧
    length ev = length items ∧ Forall (λ e, 0 <= segment_index e <= 127 ∧ detail e = DETAIL) ev)
    as (ev & Hev & Hi & Hl & Hfa).
  { clear Hb. revert idx' Hm. induction items as [|item items IH]; simpl; intros idx' Hm.
    - injection Hm as <-. by exists [].
    - apply bind_Some in Hm as (i & Hi & (rest & His & [= <-])%bind_Some).
      destruct (IH _ His) as (ev & -> & <- & Hl & Hfa).
      destruct (evidence_index_Some _ _ Hi) as (e & -> & <- & ? & ?).
      exists (e :: ev). split_and!; try done; [simpl; by rewrite Hl | by constructor]. }
  exists ev. split_and!; try done; unfold zlen in *; rewrite Hl; lia.
Qed.

(** The evidence items of safe variants. *)
Definition variant_evidence (vs : list NativeSafeVariantObservation) : list NativeMatcherEvidence :=
  mjoin (variant_matcher_evidence <$> vs).

Lemma valid_variants_Some vs ids safe b safe' b' :
  valid_variants vs ids safe b = Some (safe', b') →
  0 <= b → ∃ os, map_result safe_variant_of vs = Ok os ∧
    safe' = safe ++ (segment_index <$> variant_evidence os) ∧
    b' = b - zlen (variant_evidence os) ∧ 0 <= b' ∧ NoDup (observed_variant_id <$> os) ∧
    Forall (λ o, observed_variant_id o ∉ ids ∧ variant_matcher_evidence o ≠ []) os.
Proof.
  revert ids safe b. induction vs as [|v vs IH]; intros ids safe b Hv Hb.
  - injection Hv as <- <-. exists []. unfold zlen. simpl.
    rewrite app_nil_r. split_and!; try done; try lia; constructor.
  - destruct v as [| | | | |d|]; try done. cbn [valid_variants] in Hv.
    destruct (_ && _ && _ && _) eqn:E; [|done].
    apply andb_true_iff in E as [[[Hf _]%andb_true_iff _]%andb_true_iff Hid].
    apply bind_Some in Hv as ([idx b1] & He & Hv). case_bool_decide as Hne; [done|].
    destruct (evidence_indexes_Some _ _ _ _ He) as (ev & Hev & Hi & Hb1 & Hb1' & _).
    destruct (IH _ _ _ Hv Hb1') as (os & Hos & -> & -> & Hb' & Hnd & Hfa).
    assert (safe_variant_of (PDict d) = Ok {| observed_variant_id := str_of (dict_get ($"variant_id") d);
              variant_matcher_evidence := ev |}) as Hd.
    { unfold safe_variant_of. rewrite !(item_of_field d _ _ Hf) by set_solver.
      unfold mbind, result_bind. by rewrite Hev. }
    cbn [map_result]. rewrite Hd, Hos. eexists. split; [reflexivity|].
    unfold variant_evidence. cbn [fmap list_fmap mjoin list_join variant_matcher_evidence].
    change (mjoin (variant_matcher_evidence <$> os)) with (variant_evidence os).
    rewrite fmap_app, <- Hi, app_assoc. unfold zlen in *. rewrite length_app.
    split_and!; [done | lia | lia | |].
    + apply NoDup_cons. split; [|done]. intros (o & Ho & Hin)%list_elem_of_fmap.
      rewrite Forall_forall in Hfa. destruct (Hfa o Hin) as [Hni _]. set_solver.
    + constructor.
      * simpl. split; [by apply negb_true_iff, py_in_false in Hid|]. intros ->. by apply Hne; rewrite <- Hi.
      * eapply Forall_impl; [exact Hfa|]. simpl. set_solver.
Qed.

(** What a valid observation contains, as its projection reads it. *)
Record observation_shape (d : list (pystr * pyval)) (b b' : Z) : Prop := {
  shape_fields : has_fields d OBSERVATION_FIELDS = true;
  shape_content : ∃ ev vs u,
    evidence (dict_get ($"matcher_evidence") d) = Ok ev ∧
    dict_get ($"safe_variants") d = PList vs ∧
    dict_get ($"uncertainty_reasons") d = PList u ∧
    ∃ os, map_result safe_variant_of vs = Ok os ∧
      b' = b - zlen ev - zlen (variant_evidence os) ∧ 0 <= b' ∧
      ∃ eff, dict_get ($"effective_segment_indexes") d = PList eff ∧
        (int_of <$> eff) = filter (λ i, i ∉ segment_index <$> variant_evidence os) (segment_index <$> ev) ∧
        (u = [] → ev ≠ []);
}.

Lemma known_uncertainty_list v : known_uncertainty v = true → ∃ l, v = PList l.
Proof. destruct v; try done. eauto. Qed.

Lemma valid_observation_shape v b b' :
  valid_observation v b = Some b' → ∃ d, v = PDict d ∧ observation_shape d b b'.
Proof.
  destruct v as [| | | | |d|]; try done. cbn [valid_observation].
  destruct (negb _) eqn:E; [done|]. apply negb_false_iff in E.
  do 5 (apply andb_true_iff in E as [E _]). rename E into Hf.
  intros ([base b1] & He & H)%bind_Some.
  destruct (dict_get ($"safe_variants") d) as [| | | |vs| |] eqn:Hvs; try done.
  destruct (_ || _) eqn:Hg; [done|]. apply orb_false_iff in Hg as [Hg _].
  do 4 (apply orb_false_iff in Hg as [Hg ?]).
  apply bind_Some in H as ([safe b2] & Hv & H).
  destruct (dict_get ($"effective_segment_indexes") d) as [| | | |eff| |] eqn:Heff; try done.
  destruct (_ && _) eqn:Hx; [|done]. injection H as <-.
  apply andb_true_iff in Hx as [_ Hx%bool_decide_eq_true].
  destruct (evidence_indexes_Some _ _ _ _ He) as (ev & Hev & Hi & Hb1 & Hb1' & _).
  destruct (valid_variants_Some _ _ _ _ _ _ Hv Hb1') as (os & Hos & -> & -> & Hb2 & _).
  exists d. split; [done|]. split; [done|].
  assert (known_uncertainty (dict_get ($"uncertainty_reasons") d) = true) as Hk
    by by apply negb_false_iff.
  destruct (known_uncertainty_list _ Hk) as [u Hu].
  exists ev, vs, u. split_and!; try done. exists os. split_and!; try done; [lia|].
  exists eff. split_and!; [done | by rewrite Hx, <- Hi, app_nil_l|]. intros -> ->. simpl in Hi. subst base.
  rewrite Hu in *. simpl in *. discriminate.
Qed.

(** How many evidence items an observation carries. *)
Definition evidence_size (v : pyval) : Z :=
  match evidence (dict_field ($"matcher_evidence") v), list_item ($"safe_variants") v with
  | Ok ev, Ok vs =>
      zlen ev + match map_result safe_variant_of vs with Ok os => zlen (variant_evidence os) | Raise _ => 0 end
  | _, _ => 0
  end.

Lemma valid_observation_size v b b' :
  valid_observation v b = Some b' → b' = b - evidence_size v ∧ 0 <= b' ∧ 0 <= evidence_size v.
Proof.
  intros (d & -> & [Hf (ev & vs & u & Hev & Hvs & _ & os & Hos & -> & Hb & _)])%valid_observation_shape.
  unfold evidence_size. simpl dict_field. rewrite Hev. unfold list_item.
  rewrite (item_of_field d _ _ Hf), Hvs by set_solver. unfold mbind, result_bind. rewrite Hos.
  unfold zlen in *. lia.
Qed.

Lemma all_valid_size items b b' :
  all_valid valid_observation items b = Some b' → 0 <= b →
  foldr Z.add 0 (evidence_size <$> items) = b - b' ∧ 0 <= b' ∧
  Forall (λ v, ∃ c c', valid_observation v c = Some c') items.
Proof.
  revert b. induction items as [|v items IH]; intros b; simpl.
  - intros [= <-] ?. split_and!; [lia | done | constructor].
  - intros (b1 & Hv & Hr)%bind_Some Hb. destruct (valid_observation_size _ _ _ Hv) as (E & Hb1 & _).
    destruct (IH b1 Hr Hb1) as (H1 & H2 & H3). split_and!; [|done|constructor; eauto].
    change (list_fmap _ _ evidence_size items) with (evidence_size <$> items). lia.
Qed.

(** The evidence items of a permission observation. *)
Definition permission_evidence_size (v : pyval) : Z :=
  match dict_field ($"matcher_evidence") v with PList items => zlen items | _ => 0 end.

Lemma evidence_length v ev : evidence v = Ok ev → ∃ items, v = PList items ∧ zlen ev = zlen items.
Proof.
  destruct v as [| | | |items| |]; try done. simpl. intros H%map_result_Ok%Forall2_length.
  exists items. unfold zlen. by rewrite H.
Qed.

Lemma all_valid_permission_size items b b' :
  all_valid valid_permission_observation items b = Some b' → 0 <= b →
  foldr Z.add 0 (permission_evidence_size <$> items) = b - b' ∧ 0 <= b'.
Proof.
  revert b. induction items as [|v items IH]; intros b; simpl.
  - intros [= <-] ?. lia.
  - intros (b1 & Hv & Hr)%bind_Some Hb. destruct v as [| | | | |d|]; try done. simpl in Hv.
    destruct (_ || _); [done|]. apply bind_Some in Hv as ([e b2] & He & Hv).
    destruct (_ && _); [|done]. injection Hv as <-.
    destruct (evidence_indexes_Some _ _ _ _ He) as (ev & Hev & _ & ? & ? & _).
    destruct (evidence_length _ _ Hev) as (l & Hl & Hlen). destruct (IH b2 Hr ltac:(done)) as [Hs ?].
    change (list_fmap _ _ permission_evidence_size items) with (permission_evidence_size <$> items).
    unfold permission_evidence_size at 1. simpl dict_field. rewrite Hl. lia.
Qed.

Lemma integer_eqb v m n : integer v m = true → py_eqb v (PInt n) = true → v = PInt n.
Proof. destruct v; try done. simpl. intros _ E%bool_decide_eq_true. by injection E as ->. Qed.

Lemma accepted_binding_ints v o :
  validate_native_command_observations v = Some o →
  integer (dict_get ($"control_revision") (binding o)) (2 ^ 64 - 1) = true ∧
  integer (dict_get ($"managed_control_revision") (binding o)) (2 ^ 64 - 1) = true.
Proof.
  destruct v as [| | | | |d|]; try done. unfold validate_native_command_observations.
  destruct (dict_get ($"binding") d) as [| | | | |b|]; try done.
  destruct (dict_get ($"observations") d) as [| | | |obs| |]; try done.
  destruct (dict_get ($"permission_observations") d) as [| | | |perms| |]; try done.
  cbv zeta. destruct (_ || _) eqn:Hg; [done|]. apply orb_false_iff in Hg as [Hg _].
  apply orb_false_iff in Hg as [[_ Hbind]%orb_false_iff _]. apply negb_false_iff in Hbind.
  intros (b1 & _ & (b2 & _ & H)%bind_Some)%bind_Some.
  destruct (_ || _) in H; [done|]. injection H as <-. simpl binding.
  unfold valid_native_command_receipt_binding in Hbind.
  by apply andb_true_iff in Hbind as [[[[_ ?]%andb_true_iff ?]%andb_true_iff _]%andb_true_iff _].
Qed.

(** ** Theorems *)

(** C38: the validator accepts bounded, self-consistent evidence only: at most
    2048 rule and permission observations, which carry at most 8192 evidence
    items all together, no rule and no permission twice, no observation besides
    a failed evaluation, a valid receipt binding, and a digest in the binding
    that is the digest of exactly the accepted observations. *)
Theorem accepted_observations_bounded (v : pyval) (o : ValidatedObservations) :
  validate_native_command_observations v = Some o →
  zlen (wire_observations o) + zlen (wire_permission_observations o) <= MAX_OBSERVATIONS ∧
  foldr Z.add 0 (evidence_size <$> wire_observations o)
  + foldr Z.add 0 (permission_evidence_size <$> wire_permission_observations o) <= MAX_EVIDENCE ∧
  NoDup (str_of ∘ dict_field ($"rule_id") <$> wire_observations o) ∧
  NoDup (str_of ∘ dict_field ($"permission_id") <$> wire_permission_observations o) ∧
  (evaluation_error o = true → wire_observations o = [] ∧ wire_permission_observations o = []) ∧
  valid_native_command_receipt_binding (PDict (binding o)) = true ∧
  str_of (dict_get ($"observations_digest") (binding o))
  = observations_digest (wire_observations o) (wire_permission_observations o)
      (dict_field ($"evaluation_error") v).
Proof.
  destruct v as [| | | | |d|]; try done. unfold validate_native_command_observations.
  destruct (dict_get ($"binding") d) as [| | | | |b|]; try done.
  destruct (dict_get ($"observations") d) as [| | | |obs| |]; try done.
  destruct (dict_get ($"permission_observations") d) as [| | | |perms| |]; try done.
  cbv zeta. destruct (_ || _) eqn:Hg; [done|]. apply orb_false_iff in Hg as [Hg Herr].
  apply orb_false_iff in Hg as [[Hg Hbind]%orb_false_iff Hcount].
  apply negb_false_iff in Hbind. apply Z.ltb_ge in Hcount.
  intros (b1 & Hobs & (b2 & Hperms & H)%bind_Some)%bind_Some.
  destruct (_ || _) eqn:Hd in H; [done|]. injection H as <-. simpl.
  apply orb_false_iff in Hd as [[[[Hr Hp]%orb_false_iff _]%orb_false_iff _]%orb_false_iff Hdig].
  destruct (all_valid_size _ _ _ Hobs ltac:(done)) as (Hsum & Hb1 & _).
  destruct (all_valid_permission_size _ _ _ Hperms Hb1) as [Hsum' Hb2].
  split_and!; [done | lia | by apply has_dups_false | by apply has_dups_false | | done |].
  - intros He. rewrite He in Herr. simpl in Herr. apply orb_false_iff in Herr as [_ Hz].
    apply negb_false_iff, Z.eqb_eq in Hz. unfold zlen in Hz. split; apply length_zero_iff_nil; lia.
  - by apply negb_false_iff, bool_decide_eq_true in Hdig.
Qed.

(** the projection of a valid observation can fail in one way only, by naming
    an identity the catalog does not have; when it succeeds the projected
    observation belongs to the catalog, has matched evidence or is uncertain,
    and its effective evidence is what the native runtime declared. *)
Theorem projection_exact `{PyUnicode} (registry : GeneratedCommandCatalog) (v : pyval) (b b' : Z) :
  valid_observation v b = Some b' →
  match observation_of registry v with
  | Raise e => e = RuntimeError "native_command_extension_evidence_unknown_identity"
  | Ok o =>
      get registry (str_of (dict_field ($"extension_id") v)) = Some (obs_extension o) ∧
      get_rule registry (str_of (dict_field ($"rule_id") v)) = Some (obs_rule o) ∧
      obs_rule o ∈ rules (obs_extension o) ∧
      PList (PInt ∘ segment_index <$> effective_evidence o)
      = PList (PInt ∘ int_of <$> (match dict_field ($"effective_segment_indexes") v with
                                  | PList l => l | _ => [] end)) ∧
      (matcher_evidence o = [] → obs_uncertainty_reasons o = [MATCHER_FAILURE])
  end.
Proof.
  intros (d & -> & [Hf (ev & vs & u & Hev & Hvs & Hu & os & Hos & _ & _ & eff & Heff & Hfil & Hne)])
    %valid_observation_shape.
  assert (∀ k, k ∈ OBSERVATION_FIELDS → item_of k (PDict d) = Ok (dict_get k d)) as Hitem
    by (intros; by eapply item_of_field).
  unfold observation_of, list_item. rewrite !Hitem by set_solver. unfold mbind, result_bind. simpl dict_field.
  destruct (get registry _) as [ext|] eqn:Hext; [|done].
  destruct (get_rule registry _) as [rule|] eqn:Hrule; [|done].
  unfold raise_if at 1. destruct (_ || _) eqn:Hid; [done|].
  rewrite Hvs, Hos. unfold raise_if at 1. destruct (existsb _ os); [done|].
  rewrite Hu, Hev. simpl.
  apply orb_false_iff in Hid as [[Hin%negb_false_iff%py_in_true _]%orb_false_iff _].
  split_and!; [done | done | done | |].
  - rewrite Heff. f_equal. rewrite (list_fmap_compose int_of PInt), Hfil.
    unfold effective_evidence. rewrite (list_fmap_compose segment_index PInt). f_equal.
    unfold safe_segments. simpl.
    assert (∀ i, i ∈ mjoin ((λ w, segment_index <$> variant_matcher_evidence w) <$> os) ↔
                 i ∈ segment_index <$> variant_evidence os) as Hiff.
    { intros i. unfold variant_evidence. rewrite list_elem_of_join, list_elem_of_fmap. split.
      - intros (l & Hi & (w & -> & Hw)%list_elem_of_fmap). apply list_elem_of_fmap in Hi as (e & -> & He).
        exists e. split; [done|]. apply list_elem_of_join. eexists. split; [exact He|]. apply list_elem_of_fmap. eauto.
      - intros (e & -> & (l & He & (w & -> & Hw)%list_elem_of_fmap)%list_elem_of_join).
        exists (segment_index <$> variant_matcher_evidence w). split; apply list_elem_of_fmap; eauto. }
    clear -Hiff. induction ev as [|e ev IH]; [done|]. rewrite fmap_cons, !filter_cons.
    simpl. repeat case_decide; try (by rewrite ?fmap_cons, IH); exfalso; by rewrite Hiff in *.
  - intros ->. destruct u; [by destruct Hne|]. done.
Qed.

Lemma evidence_roundtrip (ev : list NativeMatcherEvidence) :
  evidence (PList (matcher_evidence_to_dict <$> ev)) = Ok ev.
Proof.
  apply map_result_Ok, Forall2_fmap_l, Forall_Forall2_diag, Forall_true. intros [i [e|] t]; done.
Qed.

Lemma safe_variants_roundtrip (vs : list NativeSafeVariantObservation) :
  map_result safe_variant_of (safe_variant_to_dict <$> vs) = Ok vs.
Proof.
  apply map_result_Ok, Forall2_fmap_l, Forall_Forall2_diag, Forall_true. intros [id ev].
  unfold compose, safe_variant_of, safe_variant_to_dict. cbn [observed_variant_id variant_matcher_evidence].
  rewrite (item_of_lookup ($"variant_id") _ (PStr id)) by reflexivity.
  rewrite (item_of_lookup ($"matcher_evidence") _ (PList (matcher_evidence_to_dict <$> ev))) by reflexivity.
  unfold mbind, result_bind. cbv beta iota. by rewrite evidence_roundtrip.
Qed.

(** an observation of catalog rules survives its own serialization: the
    projection of [to_dict] gives the observation back. *)
Theorem observation_roundtrip `{PyUnicode} (registry : GeneratedCommandCatalog)
    (o : NativeCommandExtensionObservation) :
  get registry (CommandCatalog.extension_id (obs_extension o)) = Some (obs_extension o) →
  get_rule registry (CommandCatalog.rule_id (obs_rule o)) = Some (obs_rule o) →
  obs_rule o ∈ rules (obs_extension o) →
  Forall (λ v, observed_variant_id v ∈ variant_id <$> safe_variants (obs_rule o)) (obs_safe_variants o) →
  obs_uncertainty_reasons o ∈ [[]; [MATCHER_FAILURE]] →
  observation_of registry (observation_to_dict o) = Ok o.
Proof.
  intros He Hr Hin Hv Hu. destruct o as [ext rule ev vs us]. simpl in *.
  unfold observation_of, list_item, observation_to_dict. cbn [obs_extension obs_rule matcher_evidence
    obs_safe_variants obs_uncertainty_reasons].
  rewrite (item_of_lookup ($"extension_id") _ (PStr (CommandCatalog.extension_id ext))) by reflexivity.
  rewrite (item_of_lookup ($"rule_id") _ (PStr (CommandCatalog.rule_id rule))) by reflexivity.
  rewrite (item_of_lookup ($"extension_version") _ (PStr (version ext))) by reflexivity.
  rewrite (item_of_lookup ($"rule_version") _ (PStr (CommandCatalog.rule_version rule))) by reflexivity.
  rewrite (item_of_lookup ($"safe_variants") _ (PList (safe_variant_to_dict <$> vs))) by reflexivity.
  rewrite (item_of_lookup ($"uncertainty_reasons") _ (PList (PStr ∘ enum_value <$> us))) by reflexivity.
  rewrite (item_of_lookup ($"matcher_evidence") _ (PList (matcher_evidence_to_dict <$> ev))) by reflexivity.
  unfold mbind, result_bind. cbn [str_of]. rewrite He, Hr. cbn [str_of].
  rewrite !bool_decide_eq_true_2, (proj2 (py_in_true _ _) Hin) by done. cbn [raise_if negb orb].
  rewrite safe_variants_roundtrip. rewrite (proj2 (existsb_false _ _)).
  2: { eapply Forall_impl; [exact Hv|]. intros v Hx. simpl. by rewrite (proj2 (py_in_true _ _) Hx). }
  cbn [raise_if]. rewrite evidence_roundtrip, length_fmap.
  apply list_elem_of_In in Hu. by destruct Hu as [<-|[<-|[]]].
Qed.

(** What ties the accepted evidence [d] to a command text, a catalog with its
    rule program and a control snapshot. *)
Record evidence_binding (d : list (pystr * pyval)) (registry : GeneratedCommandCatalog) (text : pystr)
    (snapshot : ExtensionControlRuntimeSnapshot) (validated : ValidatedObservations) : Prop := {
  bound_text : py_eqb (dict_field ($"normalized_text") (dict_get ($"command_model") d)) (PStr text) = true;
  bound_evidence : validate_native_command_observations (dict_get ($"command_extensions") d) = Some validated;
  bound_catalog : dict_get ($"catalog_digest") (binding validated) = PStr (catalog_digest registry);
  bound_program : ∃ p, program_digest registry = Some p ∧ dict_get ($"program_digest") (binding validated) = PStr p;
  bound_revision : dict_get ($"control_revision") (binding validated) = PInt (revision snapshot);
  bound_managed : dict_get ($"managed_control_revision") (binding validated) = PInt (managed_revision snapshot);
  bound_controls : dict_get ($"control_effective_digest") (binding validated) = PStr (effective_digest snapshot);
}.

Lemma native_evidence_binding `{PyUnicode} value registry text snapshot obs :
  observations_from_native_evidence value registry text snapshot = Ok obs →
  ∃ d validated, value = PDict d ∧ evidence_binding d registry text snapshot validated ∧
    (evaluation_error validated = true →
      obs = [] ∧ py_eqb (dict_get ($"minimum_action") d) (PStr ($"block")) = true) ∧
    (evaluation_error validated = false →
      Forall2 (λ raw o, observation_of registry raw = Ok o) (wire_observations validated) obs).
Proof.
  destruct value as [| | | | |d|]; try done. cbn [observations_from_native_evidence].
  intros [Hm Hs]%then_Ok. apply raise_if_Ok, negb_false_iff in Hm.
  destruct (validate_native_command_observations _) as [validated|] eqn:Hv; [|done].
  apply then_Ok in Hs as [Hb Hs]. apply raise_if_Ok in Hb.
  apply orb_false_iff in Hb as [[[[Hc Hp]%orb_false_iff Hr]%orb_false_iff Hmr]%orb_false_iff Hd].
  apply negb_false_iff in Hc, Hp, Hr, Hmr, Hd.
  pose proof (accepted_binding_ints _ _ Hv) as (Hi1 & Hi2).
  exists d, validated. split_and!; [done|split; try done| |].
  - destruct (dict_get ($"command_model") d); done.
  - by apply py_eqb_str.
  - destruct (program_digest registry) as [p|]; [|done]. exists p. split; [done | by apply py_eqb_str].
  - by apply integer_eqb with (2 ^ 64 - 1).
  - by apply integer_eqb with (2 ^ 64 - 1).
  - by apply py_eqb_str.
  - intros E. rewrite E in Hs. apply then_Ok in Hs as [Hx [= <-]]. split; [done|].
    apply raise_if_Ok in Hx. apply orb_false_iff in Hx as [[[_ _]%orb_false_iff Hx]%orb_false_iff _].
    by apply negb_false_iff in Hx.
  - intros E. rewrite E in Hs. apply bind_Ok in Hs as (os & Hos & [_ [= <-]]%then_Ok).
    by apply map_result_Ok.
Qed.

(** C24: native evidence cannot be replayed: what the host evaluates was sent for
    this very command text, validated by the wire validator, and bound to this
    catalog, this rule program and this control snapshot; a native evaluation
    that failed yields no observation and only together with a hard block. *)
Theorem native_evidence_bound `{PyUnicode} value registry text snapshot obs :
  observations_from_native_evidence value registry text snapshot = Ok obs →
  ∃ d validated, value = PDict d ∧
    py_eqb (dict_field ($"normalized_text") (dict_get ($"command_model") d)) (PStr text) = true ∧
    validate_native_command_observations (dict_get ($"command_extensions") d) = Some validated ∧
    dict_get ($"catalog_digest") (binding validated) = PStr (catalog_digest registry) ∧
    (∃ p, program_digest registry = Some p ∧ dict_get ($"program_digest") (binding validated) = PStr p) ∧
    dict_get ($"control_revision") (binding validated) = PInt (revision snapshot) ∧
    dict_get ($"managed_control_revision") (binding validated) = PInt (managed_revision snapshot) ∧
    dict_get ($"control_effective_digest") (binding validated) = PStr (effective_digest snapshot) ∧
    (evaluation_error validated = true →
      obs = [] ∧ py_eqb (dict_get ($"minimum_action") d) (PStr ($"block")) = true) ∧
    (evaluation_error validated = false →
      Forall2 (λ raw o, observation_of registry raw = Ok o) (wire_observations validated) obs).
Proof.
  intros (d & validated & -> & [? ? ? ? ? ? ?] & He & Hn)%native_evidence_binding.
  by exists d, validated.
Qed.

(** ** Instances *)

Section samples.
Local Instance sample_unicode : PyUnicode := ascii_unicode.

Definition sample_rule (id : pystr) : GeneratedCommandRule :=
  {| CommandCatalog.rule_id := id; CommandCatalog.rule_version := $"1.0.0"; rule_title := [];
     rule_description := []; rule_severity := $"high"; default_mode := mode_review;
     rule_action_classes := []; rule_risk_classes := [$"destructive_shell"];
     rule_safer_alternatives := []; compatibility_fallback := false; rule_matcher_kind := [];
     rule_matcher_contract_digest := [];
     safe_variants := [{| variant_id := $"dry-run"; variant_title := []; variant_matcher_kind := [];
                          variant_matcher_contract_digest := [] |}];
     rule_family := None |}.
Definition sample_git : GeneratedCommandExtension :=
  {| CommandCatalog.extension_id := $"command.git"; version := $"1.0.0"; name := []; description := [];
     action_classes := []; risk_classes := []; safer_alternatives := [];
     rules := [sample_rule ($"command.git.push"); sample_rule ($"command.git.reset")];
     required := false; ext_source := $"built-in"; aliases := []; dependencies := [];
     conflicts := []; delegated_protection := None; ecosystem_ids := []; executables := [];
     project_markers := []; reference_urls := []; permissions := []; ext_schema_version := 2;
     activation := $"always"; enabled := true; trust_class := $"first-party"; icon := [];
     publisher := []; ext_surface := None; mcp_launch := None; mcp_tools := [] |}.
Definition empty_catalog : GeneratedCommandCatalog :=
  {| cat_extensions := []; owned_executables := []; cat_permissions := []; by_id := []; cat_aliases := [];
     by_rule_id := []; by_action_class := []; by_action_rule := []; by_permission_id := [];
     permission_by_rule_id := []; permission_by_action_class := []; permission_by_capability := [];
     catalog_digest := []; program_digest := None; source_digest := None; implementation_digest := None |}.
Definition sample_registry : GeneratedCommandCatalog :=
  match make_GeneratedCommandCatalog [sample_git] (Some (replicate 64 97)) (Some (replicate 64 98)) None None [] with
  | Ok c => c
  | Raise _ => empty_catalog
  end.
Definition sample_evidence (i : Z) : NativeMatcherEvidence :=
  {| segment_index := i; executable := Some ($"git"); detail := DETAIL |}.
Definition sample_observation : NativeCommandExtensionObservation :=
  {| obs_extension := sample_git; obs_rule := sample_rule ($"command.git.push");
     matcher_evidence := [sample_evidence 0; sample_evidence 1];
     obs_safe_variants := [{| observed_variant_id := $"dry-run";
                              variant_matcher_evidence := [sample_evidence 1] |}];
     obs_uncertainty_reasons := [] |}.
Definition sample_snapshot : ExtensionControlRuntimeSnapshot :=
  from_authority_view (sample_view PROTECTED 1).

Definition sample_command_extensions (observations : list pyval) : pyval :=
  PDict [($"schema", PStr ($"guard.native-command-observations.v1"));
         ($"binding", PDict
            [($"schema", PStr ($"guard.native-command-receipt-binding.v1"));
             ($"program_digest", PStr (replicate 64 98)); ($"catalog_digest", PStr (replicate 64 97));
             ($"trust_digest", PStr (replicate 64 99)); ($"control_revision", PInt 1);
             ($"managed_control_revision", PInt 0);
             ($"control_effective_digest", PStr (effective_digest sample_snapshot));
             ($"observations_digest", PStr (observations_digest observations [] PNone));
             ($"observation_count", PInt (zlen observations)); ($"uncertainty_count", PInt 0)]);
         ($"observations", PList observations); ($"permission_observations", PList []);
         ($"evaluation_error", PNone)].
Definition sample_value : pyval :=
  PDict [($"command_model", PDict [($"normalized_text", PStr ($"git push"))]);
         ($"command_extensions", sample_command_extensions [observation_to_dict sample_observation]);
         ($"minimum_action", PStr ($"review")); ($"explicitly_benign", PBool false)].

Lemma sample_projected :
  match observations_from_native_evidence sample_value sample_registry ($"git push") sample_snapshot with
  | Ok [o] => bool_decide (segment_index <$> effective_evidence o = [0])
  | _ => false
  end = true.
Proof. vm_compute. reflexivity. Qed.

Lemma sample_validated :
  is_Some (validate_native_command_observations
    (sample_command_extensions [observation_to_dict sample_observation])).
Proof. vm_compute. eauto. Qed.

Lemma accepted_observations_witness : ∃ o,
  validate_native_command_observations
    (sample_command_extensions [observation_to_dict sample_observation]) = Some o ∧
  foldr Z.add 0 (evidence_size <$> wire_observations o)
  + foldr Z.add 0 (permission_evidence_size <$> wire_permission_observations o) <= MAX_EVIDENCE.
Proof.
  destruct sample_validated as [o Ho]. exists o. split; [exact Ho|].
  exact (proj1 (proj2 (accepted_observations_bounded _ o Ho))).
Defined.

Lemma projection_exact_witness : ∃ o,
  observation_of sample_registry (observation_to_dict sample_observation) = Ok o ∧
  obs_rule o ∈ rules (obs_extension o).
Proof.
  pose proof (projection_exact sample_registry (observation_to_dict sample_observation) 100 97
    ltac:(vm_compute; reflexivity)) as Hp.
  destruct (observation_of sample_registry (observation_to_dict sample_observation)) as [o|] eqn:E;
    [|vm_compute in E; discriminate E].
  exists o. split; [reflexivity | exact (proj1 (proj2 (proj2 Hp)))].
Defined.

Lemma observation_roundtrip_witness :
  observation_of sample_registry (observation_to_dict sample_observation) = Ok sample_observation.
Proof.
  apply (observation_roundtrip sample_registry sample_observation).
  - vm_compute. reflexivity.
  - vm_compute. reflexivity.
  - left.
  - repeat constructor.
  - left.
Defined.

Lemma native_evidence_bound_witness : ∃ obs d, sample_value = PDict d ∧
  observations_from_native_evidence sample_value sample_registry ($"git push") sample_snapshot = Ok obs.
Proof.
  pose proof sample_projected as Hp.
  destruct (observations_from_native_evidence sample_value sample_registry ($"git push") sample_snapshot)
    as [obs|] eqn:E; [|discriminate Hp].
  destruct (native_evidence_bound _ _ _ _ obs E) as (d & v & Hd & _). exists obs, d.
  split; [exact Hd | reflexivity].
Defined.

End samples.

End Native.
