(* ===== verification/CommandEvaluation.v ===== *)
(** * Command evaluation

    Models [command_evaluation.py] with the modules it composes:
    [command_risk_effects.py], [command_evaluation_types.py],
    [command_decision_adapter.py], [command_native_factors.py], the observation
    filter of [extension_trust.py] and the sealed authorization of
    [github_workflow_authorization.py].

    Of a [CanonicalCommand] the record keeps what these modules read; its
    security identity is a property computed elsewhere.  The syntactic
    analyses that contribute factors of their own (critical floors, read
    floors, proof candidates, GitHub capabilities) are the methods of
    [CommandAnalyses], with what the evaluator relies on as laws: their factors
    are validated, a candidate asks for at least a review, and floors carry no
    proof except the authorization the caller claimed. *)

From S2P Require Import Prelude PyStr Sha256 Regex PyVal ActionLattice EffectContract.
From S2P Require Import ExtensionEvidence EffectDecision CommandCatalog ExtensionControl.
From S2P Require Import ControlRuntime NativeObservations.
Local Open Scope Z_scope.
Local Open Scope py_scope.

Module Evaluation.
Import ControlRuntime Native.

(** ** Risk classes *)

(** [command_risk_effects.py] *)
Definition COMMAND_RISK_EFFECTS : list (pystr * list EffectKind) :=
  [($"credential_exfiltration", [CREDENTIAL_OR_SECRET_OPERATION]);
   ($"data_flow_exfiltration", [NETWORK_WRITE]);
   ($"destructive_shell", [DESTRUCTIVE_OR_IRREVERSIBLE_OPERATION]);
   ($"encoded_execution", [PROCESS_EXECUTION]);
   ($"execution", [PROCESS_EXECUTION]);
   ($"local_secret_read", [SENSITIVE_READ]);
   ($"network_egress", [NETWORK_WRITE]);
   ($"policy_bypass", [GUARD_CONTROL_OPERATION]);
   ($"supply_chain", [PACKAGE_OR_SOURCE_INSTALLATION])].

(** A [frozenset] is the list of its members without repetition. *)
Definition command_risk_effects (risk_classes : list pystr) (unknown_fallback : option (list EffectKind))
    : result (list EffectKind) :=
  found ← map_result (λ risk_class,
    match dict_lookup risk_class COMMAND_RISK_EFFECTS, unknown_fallback with
    | Some effects, _ => Ok effects
    | None, Some effects => Ok effects
    | None, None => Raise (ValueError "unsupported command risk class")
    end) risk_classes ;
  Ok (remove_dups (mjoin found)).

(** ** Commands and matches *)

Inductive ParseConfidence := parse_exact | parse_fallback | parse_uncertain.
Global Instance ParseConfidence_eq_dec : EqDecision ParseConfidence.
Proof. solve_decision. Defined.

Record CanonicalCommand := {
  normalized_text : pystr;
  security_identity : pystr;
  confidence : ParseConfidence;
  uncertainty_reason : option pystr;
  redirect_operators : list pystr;
}.

(** An [OwnedCommandRuleMatch] with its [CommandRuleMatch]. *)
Record OwnedCommandRuleMatch := {
  owned_extension : GeneratedCommandExtension;
  owned_rule : GeneratedCommandRule;
  owned_action_class : option pystr;
  owned_reason : pystr;
  owned_matcher_evidence : list NativeMatcherEvidence;
}.

(** ** Floors *)

Inductive CommandDecisionFloor := Floor_ALLOW | Floor_MONITOR | Floor_REVIEW | Floor_BLOCK.
Global Instance CommandDecisionFloor_eq_dec : EqDecision CommandDecisionFloor.
Proof. solve_decision. Defined.

Definition FLOOR_RANK (f : CommandDecisionFloor) : Z :=
  match f with Floor_ALLOW => 0 | Floor_MONITOR => 1 | Floor_REVIEW => 2 | Floor_BLOCK => 3 end.

Definition MODE_FLOOR (m : CommandRuleMode) : CommandDecisionFloor :=
  match m with
  | mode_disabled => Floor_ALLOW | mode_monitor => Floor_MONITOR | mode_review => Floor_REVIEW
  | mode_enforce => Floor_BLOCK | mode_required => Floor_REVIEW
  end.

(** [_rule_floor], and [legacy_rule_floor] of the adapter. *)
Definition rule_floor (extension : GeneratedCommandExtension) (rule : GeneratedCommandRule)
    : CommandDecisionFloor :=
  if required extension && bool_decide (rule_severity rule = $"critical") then Floor_BLOCK
  else match default_mode rule with
       | mode_disabled => Floor_ALLOW
       | mode => if required extension then Floor_REVIEW else MODE_FLOOR mode
       end.
Definition owned_floor (m : OwnedCommandRuleMatch) : CommandDecisionFloor :=
  rule_floor (owned_extension m) (owned_rule m).

Definition stronger_floor (left right : CommandDecisionFloor) : CommandDecisionFloor :=
  if FLOOR_RANK right <=? FLOOR_RANK left then left else right.

Definition decision_action_floor (action : GuardAction) : CommandDecisionFloor :=
  match action with
  | allow => Floor_ALLOW
  | warn => Floor_MONITOR
  | block => Floor_BLOCK
  | _ => Floor_REVIEW
  end.

Definition SEVERITY_RANK (s : pystr) : result Z :=
  match dict_lookup s [($"low", 0); ($"medium", 1); ($"high", 2); ($"critical", 3)] with
  | Some n => Ok n
  | None => Raise (KeyError (show s))
  end.

Definition match_precedence_key (m : OwnedCommandRuleMatch) : result (Z * Z * Z) :=
  severity ← SEVERITY_RANK (rule_severity (owned_rule m)) ;
  Ok (FLOOR_RANK (owned_floor m), severity, if compatibility_fallback (owned_rule m) then 0 else 1).

(** [max(xs, key=key, default=None)]: the first of the greatest. *)
Fixpoint max_by {A K} `{PyOrd K} (best : A * K) (xs : list (A * K)) : A :=
  match xs with
  | [] => best.1
  | x :: xs => if py_ltb best.2 x.2 then max_by x xs else max_by best xs
  end.
Definition controlling_match_of (ms : list OwnedCommandRuleMatch) : result (option OwnedCommandRuleMatch) :=
  keyed ← map_result (λ m, k ← match_precedence_key m ; Ok (m, k)) ms ;
  Ok (match keyed with [] => None | x :: xs => Some (max_by x xs) end).

(** ** Evidence and factors of the adapter *)

Definition CANONICAL_FLOOR (f : CommandDecisionFloor) : GuardAction :=
  match f with Floor_ALLOW => allow | Floor_MONITOR => warn | Floor_REVIEW => review | Floor_BLOCK => block end.

Definition SEVERITY (s : pystr) : result EvidenceSeverity :=
  match dict_lookup s [($"low", LOW); ($"medium", MEDIUM); ($"high", HIGH); ($"critical", CRITICAL)] with
  | Some v => Ok v
  | None => Raise (KeyError (show s))
  end.

(** [security_identity.rsplit(":", 1)[-1]] *)
Definition operation_ref_of (c : CanonicalCommand) : pystr :=
  $"operation:" ++ default [] (last (split_char 58 (security_identity c))).
Definition segment_ref_of (i : Z) : pystr := $"segment:" ++ str_of_int i.

Definition effect_claims_of (risk_classes : list pystr) : result (list EffectKind) :=
  effects ← command_risk_effects risk_classes (Some [PROCESS_EXECUTION]) ;
  Ok (if bool_decide (effects = []) then [PROCESS_EXECUTION] else effects).

Definition rule_identity (o : NativeCommandExtensionObservation) : ExtensionRuleIdentity :=
  {| ExtensionEvidence.extension_id := CommandCatalog.extension_id (obs_extension o);
     ExtensionEvidence.extension_version := version (obs_extension o);
     ExtensionEvidence.rule_id := CommandCatalog.rule_id (obs_rule o);
     ExtensionEvidence.rule_version := CommandCatalog.rule_version (obs_rule o) |}.

Definition extension_proof_requirements : list ProofRequirement :=
  [OPERATION_AND_TARGETS; PARSER_CONFIDENCE; EXPECTED_EFFECTS].

(** [ExtensionEvidence(...)] *)
Definition make_evidence (e : ExtensionEvidence) : result ExtensionEvidence :=
  check_ExtensionEvidence e ;; Ok e.

Definition uncertainty_evidence (command : CanonicalCommand) (o : NativeCommandExtensionObservation)
    : result (list ExtensionEvidence) :=
  if bool_decide (obs_uncertainty_reasons o = []) then Ok []
  else
    claims ← effect_claims_of (rule_risk_classes (obs_rule o)) ;
    e ← make_evidence
      {| identity := rule_identity o; match_class := UNCERTAINTY; severity := CRITICAL;
         declared_floor := maximum_action_floor (UNCERTAINTY_FLOOR <$> obs_uncertainty_reasons o);
         base_fact := $"matcher-failure"; ev_segment_ref := $"segment:unknown";
         ev_operation_ref := operation_ref_of command; effect_claims := claims;
         ev_proof_requirements := extension_proof_requirements;
         ev_uncertainty_reasons := obs_uncertainty_reasons o; safe_variant := None;
         ev_schema_version := EXTENSION_EVIDENCE_SCHEMA_VERSION |} ;
    Ok [e].

(** The safe variants that cover a segment. *)
Definition segment_variants (o : NativeCommandExtensionObservation) (i : Z) : list (option OwnedSafeVariant) :=
  let ids := sorted_set_on (λ s : pystr, s)
    (observed_variant_id <$> filter (λ v, i ∈ segment_index <$> variant_matcher_evidence v) (obs_safe_variants o)) in
  match ids with
  | [] => [None]
  | _ => (λ id, Some {| sv_identity := rule_identity o; safe_variant_id := id;
                        sv_outcome := OWNED_RULE_NOT_RAISED |}) <$> ids
  end.

Definition match_evidence (command : CanonicalCommand) (o : NativeCommandExtensionObservation)
    (floor : GuardAction) (i : Z) (variant : option OwnedSafeVariant) : result ExtensionEvidence :=
  severity ← SEVERITY (rule_severity (obs_rule o)) ;
  claims ← effect_claims_of (rule_risk_classes (obs_rule o)) ;
  make_evidence
    {| identity := rule_identity o; match_class := UNSAFE; severity := severity;
       declared_floor := floor; base_fact := $"rule-match"; ev_segment_ref := segment_ref_of i;
       ev_operation_ref := operation_ref_of command; effect_claims := claims;
       ev_proof_requirements := extension_proof_requirements; ev_uncertainty_reasons := [];
       safe_variant := variant; ev_schema_version := EXTENSION_EVIDENCE_SCHEMA_VERSION |}.

Definition rule_match_evidence (command : CanonicalCommand) (o : NativeCommandExtensionObservation)
    : result (list ExtensionEvidence) :=
  let floor := CANONICAL_FLOOR (rule_floor (obs_extension o) (obs_rule o)) in
  if py_in floor [allow; warn] then Ok []
  else
    check_ExtensionRuleIdentity (rule_identity o) ;;
    rows ← map_result (λ i, map_result (match_evidence command o floor i) (segment_variants o i))
             (sorted_set_on (λ i : Z, i) (segment_index <$> matcher_evidence o)) ;
    Ok (mjoin (rows : list (list ExtensionEvidence))).

Definition extension_evidence_batch (command : CanonicalCommand)
    (observations : list NativeCommandExtensionObservation) : result ExtensionEvidenceBatch :=
  rows ← map_result (λ o,
    uncertain ← uncertainty_evidence command o ;
    matched ← rule_match_evidence command o ;
    Ok (uncertain ++ matched)) observations ;
  make_ExtensionEvidenceBatch (mjoin rows).

(** [DecisionFactor(...)] *)
Definition make_factor (f : DecisionFactor) : result DecisionFactor := check_DecisionFactor f ;; Ok f.

Section adapter.
Context `{PyUnicode}.

Definition decision_factors (batch : ExtensionEvidenceBatch) (compatibility_action_class : option pystr)
    (compatibility_rule : option (GeneratedCommandExtension * GeneratedCommandRule))
    : result (list DecisionFactor) :=
  factors ← factors_from_extension_evidence batch ;
  match compatibility_action_class with
  | None => Ok factors
  | Some class_ =>
      let '(floor, producer) :=
        match compatibility_rule with
        | Some (extension, rule) =>
            (maximum_action_floor [review; CANONICAL_FLOOR (rule_floor extension rule)],
             $"rule:" ++ CommandCatalog.rule_id rule)
        | None => (review, $"legacy:" ++ sha256_hex (utf8 (py_lower (strip class_))))
        end in
      f ← make_factor
        {| source := Factor_POLICY; reason_code := $"compatibility-action";
           basis := {| action_floor := floor; proof_route := None |};
           segment_ref := None; operation_ref := None; producer_ref := Some producer;
           evidence_digest := None; assessment := None; proof := None |} ;
      Ok (factors ++ [f])
  end.
End adapter.

Definition interaction_policy_factors (observations : list NativeCommandExtensionObservation)
    : result (list DecisionFactor) :=
  rows ← map_result (λ o,
    if bool_decide (effective_evidence o = []) || bool_decide (rule_action_classes (obs_rule o) = [])
       || py_in (rule_floor (obs_extension o) (obs_rule o)) [Floor_ALLOW; Floor_MONITOR]
    then Ok []
    else map_result (λ i, make_factor
      {| source := Factor_POLICY; reason_code := $"extension-interaction-floor";
         basis := {| action_floor := review; proof_route := None |};
         segment_ref := Some (segment_ref_of i); operation_ref := None;
         producer_ref := Some ($"rule:" ++ CommandCatalog.rule_id (obs_rule o));
         evidence_digest := None; assessment := None; proof := None |})
      (sorted_set_on (λ i : Z, i) (segment_index <$> effective_evidence o))) observations ;
  Ok (mjoin (rows : list (list DecisionFactor))).

Definition command_uncertainties (command : CanonicalCommand) (sensitive : bool) : list UncertaintyKind :=
  if negb sensitive then []
  else match confidence command with
       | parse_exact => []
       | parse_fallback => [PARTIAL_PARSE]
       | parse_uncertain => [DYNAMIC_INPUT]
       end.

Definition extension_uncertainties (observations : list NativeCommandExtensionObservation)
    : list UncertaintyKind :=
  sorted_set_on enum_value (mjoin (obs_uncertainty_reasons <$> observations)).

(** [EffectDecisionRequest(...)] evaluated. *)
Definition decide_request (fs : list DecisionFactor) (us : list UncertaintyKind) : result EffectDecision :=
  r ← make_EffectDecisionRequest fs us ; evaluate_effect_decision r.

Definition evaluate_extension_interaction `{PyUnicode} (command : CanonicalCommand)
    (observations : list NativeCommandExtensionObservation) : result EffectDecision :=
  batch ← extension_evidence_batch command observations ;
  evidence_factors ← decision_factors batch None None ;
  interaction ← interaction_policy_factors observations ;
  decide_request (evidence_factors ++ interaction) (extension_uncertainties observations).

(** ** Native and permission factors *)

Definition is_str (v : pyval) (s : pystr) : bool := py_eqb v (PStr s).
Definition is_true (v : pyval) : bool := match v with PBool true => true | _ => false end.

(** [value] is the dictionary of the native response. *)
Definition explicitly_benign (value : list (pystr * pyval)) (command : CanonicalCommand) : bool :=
  bool_decide (confidence command = parse_exact)
  && is_str (dict_get ($"minimum_action") value) ($"allow")
  && is_true (dict_get ($"explicitly_benign") value).

Definition native_classification_factors (value : list (pystr * pyval)) (command : CanonicalCommand)
    (allow_benign_proof : bool) : result (list DecisionFactor) :=
  let blocked := is_str (dict_get ($"minimum_action") value) ($"block") in
  let requires_reapproval := is_str (dict_get ($"minimum_action") value) ($"require-reapproval") in
  let benign := allow_benign_proof && explicitly_benign value command in
  if blocked || requires_reapproval || benign then
    extensions ← item_of ($"command_extensions") (PDict value) ;
    let digest := sha256_hex (utf8 (dumps (JObj
      [($"schema", JStr ($"guard.native-classification-projection.v1"));
       ($"command_security_identity", JStr (security_identity command));
       ($"command_extensions", as_json extensions);
       ($"minimum_action",
        JStr (if blocked then $"block" else if requires_reapproval then $"require-reapproval" else $"allow"));
       ($"explicitly_benign", JBool benign)]))) in
    let factor code floor route p :=
      make_factor
        {| source := Factor_ASSURANCE; reason_code := code;
           basis := {| action_floor := floor; proof_route := route |};
           segment_ref := None; operation_ref := None;
           producer_ref := Some ($"native:command-classification");
           evidence_digest := Some digest; assessment := None; proof := p |} in
    f ← (if blocked then factor ($"native.classification-block") block None None
         else if requires_reapproval then
           factor (if is_str (dict_get ($"reason_code") value) ($"native_privileged_wrapper_reapproval")
                   then $"native.privileged-wrapper-reapproval" else $"native.classification-reapproval")
             require_reapproval None None
         else
           factor ($"native.explicit-benign") allow (Some VERIFIED)
             (Some {| route := VERIFIED; binding_digest := digest;
                      satisfied_requirements := [CONFIGURATION_IDENTITY; PARSER_CONFIDENCE];
                      enforced := false |})) ;
    Ok [f]
  else Ok [].

(** The canonical layers of [_explicit_permission_allow_factors]. *)
Definition permission_layer_json (l : ExtensionControlLayer) : json :=
  JObj [($"kind", JStr (ControlLayerKind_value (layer_kind l)));
        ($"catalog_digest", JStr (layer_catalog_digest l));
        ($"global_lockdown", JBool (layer_global_lockdown l));
        ($"controls", JArr ((λ c, JObj
           [($"kind", JStr (ControlTargetKind_value (target_kind (control_target c))));
            ($"target_id", JStr (target_id (control_target c)));
            ($"state", JStr (ControlState_value (control_state c)))])
           <$> sort_on control_key (layer_controls l)))].

Definition permission_digest (command : CanonicalCommand) (layers : list ExtensionControlLayer)
    (permission_id : pystr) (authority : option ExtensionControlDecisionEvidence) : pystr :=
  sha256_hex (utf8 (dumps (JObj
    [($"command_security_identity", JStr (security_identity command));
     ($"permission_id", JStr permission_id);
     ($"layers", JArr (permission_layer_json <$> sort_on layer_key layers));
     ($"authority", match authority with
                    | Some a => JObj [($"revision", JInt (evidence_revision a));
                                      ($"effective_digest", JStr (evidence_effective_digest a))]
                    | None => JNull
                    end)]))).

Definition explicit_permission_allow_factors (command : CanonicalCommand)
    (layers : list ExtensionControlLayer) (permission_ids : list pystr)
    (authority : option ExtensionControlDecisionEvidence) : result (list DecisionFactor) :=
  if negb (bool_decide (confidence command = parse_exact)) || bool_decide (permission_ids = []) then Ok []
  else map_result (λ permission_id,
    let digest := permission_digest command layers permission_id authority in
    make_factor
      {| source := Factor_CONTROL; reason_code := $"control.explicitly-enabled-permission";
         basis := {| action_floor := allow; proof_route := Some VERIFIED |};
         segment_ref := None; operation_ref := None;
         producer_ref := Some ($"control:" ++ permission_id);
         evidence_digest := Some digest; assessment := None;
         proof := Some {| route := VERIFIED; binding_digest := digest;
                          satisfied_requirements :=
                            [CONFIGURATION_IDENTITY; PARSER_CONFIDENCE; CAPABILITY_CONSTRAINTS];
                          enforced := false |} |})
    (sort_on (λ s : pystr, s) permission_ids).

(** ** Trust *)

Inductive TrustClass := first_party | trusted_library | external.
Global Instance TrustClass_eq_dec : EqDecision TrustClass.
Proof. solve_decision. Defined.

(** The loaded trust-class map, an index from extension ids to classes. *)
Notation trust_index := (list (pystr * TrustClass)).

Definition trust_class_for (index : trust_index) (extension_id : pystr) : TrustClass :=
  default first_party (dict_lookup extension_id index).

Definition enables_locally (id : pystr) (l : ExtensionControlLayer) : bool :=
  bool_decide (layer_kind l = LOCAL_ADMIN)
  && existsb (λ c, bool_decide (target_kind (control_target c) = EXTENSION)
                   && bool_decide (target_id (control_target c) = id)
                   && bool_decide (control_state c = ENABLED)) (layer_controls l).

Definition extension_is_active (index : trust_index) (extension_id : pystr)
    (layers : list ExtensionControlLayer) (required : bool) : result bool :=
  if required || negb (bool_decide (trust_class_for index extension_id = external)) then Ok true
  else
    composed ← compose_control_layers layers ;
    state ← state_for composed EXTENSION extension_id ;
    if bool_decide (state = DISABLED) then Ok false
    else Ok (existsb (enables_locally extension_id) layers).

Definition filter_inert_external_observations (index : trust_index)
    (observations : list NativeCommandExtensionObservation) (layers : list ExtensionControlLayer)
    : result (list NativeCommandExtensionObservation) :=
  filter_result (λ o, extension_is_active index (CommandCatalog.extension_id (obs_extension o)) layers
                        (required (obs_extension o))) observations.

(** ** Workflow authorization *)

Record GitHubWorkflowAuthorization := {
  operation_identity : pystr;
  compatibility_action_class : pystr;
  authorization_proof : PositiveProof;
  receipt_sha256 : pystr;
  sealed : bool;
}.

Definition github_workflow_authorization_evidence (a : option GitHubWorkflowAuthorization)
    (command_identity : pystr) : option (PositiveProof * pystr) :=
  match a with
  | Some a =>
      if sealed a && bool_decide (operation_identity a = command_identity)
         && (length (receipt_sha256 a) =? 64)%nat
      then Some (authorization_proof a, compatibility_action_class a) else None
  | None => None
  end.

(** ** The syntactic analyses *)

Definition at_least_review_floor (f : DecisionFactor) : Prop :=
  GUARD_ACTION_SEVERITY review <= GUARD_ACTION_SEVERITY (action_floor (basis f)).

Class CommandAnalyses := {
  direct_github_permission_ids : CanonicalCommand → list pystr;
  contained_routine_candidate_factor : CanonicalCommand → option DecisionFactor;
  verified_read_candidate_factor : CanonicalCommand → option DecisionFactor;
  workspace_write_candidate_factors : CanonicalCommand → list DecisionFactor;
  shell_read_floor_factors : pystr → CanonicalCommand → list DecisionFactor;
  command_critical_floor_factors :
    CanonicalCommand → option GitHubWorkflowAuthorization → list pystr → list DecisionFactor;
  risk_classes_for_command_action : pystr → list pystr;
  contained_routine_ok c f :
    contained_routine_candidate_factor c = Some f → factor_ok f ∧ at_least_review_floor f;
  verified_read_ok c f :
    verified_read_candidate_factor c = Some f → factor_ok f ∧ at_least_review_floor f;
  workspace_write_ok c f :
    f ∈ workspace_write_candidate_factors c → factor_ok f ∧ at_least_review_floor f;
  shell_read_ok text c f :
    f ∈ shell_read_floor_factors text c → factor_ok f ∧ at_least_review_floor f;
  critical_floor_ok c a caps f :
    f ∈ command_critical_floor_factors c a caps → factor_ok f ∧
      (at_least_review_floor f ∨
       ∃ p cls, github_workflow_authorization_evidence a (security_identity c) = Some (p, cls) ∧
         proof f = Some p);
}.

(** ** The evaluator *)

Record CompositeCommandEvaluation := {
  command : CanonicalCommand;
  evaluation_matches : list OwnedCommandRuleMatch;
  controlling_action_class : option pystr;
  controlling_reason : option pystr;
  evaluation_controlling_rule_id : option pystr;
  minimum_action : CommandDecisionFloor;
  extension_observations : list NativeCommandExtensionObservation;
  decision_plane : EffectDecision;
  baseline_factors : list DecisionFactor;
  baseline_uncertainties : list UncertaintyKind;
  control_resolution : ControlResolution;
  private_control_evidence : ExtensionControlDecisionEvidence;
}.

Definition UNAVAILABLE_AUTHORITY_FAIL_CLOSED_RISKS : list pystr :=
  [$"destructive_shell"; $"credential_exfiltration"; $"data_flow_exfiltration"; $"encoded_execution";
   $"encoded_exfiltration"; $"guard_bypass"; $"policy_bypass"].

Definition fail_closed_risk (risks : list pystr) : bool :=
  existsb (λ r, py_in r UNAVAILABLE_AUTHORITY_FAIL_CLOSED_RISKS) risks.

(** [operator.lstrip("0123456789") in {">", ">>", ">|"}] *)
Fixpoint lstrip_digits (s : pystr) : pystr :=
  match s with c :: s' => if is_digit c then lstrip_digits s' else s | [] => [] end.
Definition write_redirect (operator : pystr) : bool :=
  py_in (lstrip_digits operator) [$">"; $">>"; $">|"].

Definition opt_list {A} (o : option A) : list A := match o with Some x => [x] | None => [] end.

Definition sorted_ids (ids : list pystr) : list pystr := sorted_set_on (λ s : pystr, s) ids.
Definition sorted_uncertainties (us : list UncertaintyKind) : list UncertaintyKind :=
  sorted_set_on enum_value us.

Section evaluate.
Context `{PyUnicode, CommandAnalyses}.

(** The first selected rule with the compatibility label. *)
Definition compatibility_rule_of (label : option pystr) (selected : list NativeCommandExtensionObservation)
    : option (GeneratedCommandExtension * GeneratedCommandRule) :=
  match label with
  | None => None
  | Some l => (λ o, (obs_extension o, obs_rule o)) <$>
                find (λ o, py_in l (rule_action_classes (obs_rule o))) selected
  end.

Definition effective_compatibility_class (registry : GeneratedCommandCatalog) (label : option pystr)
    (rule : option (GeneratedCommandExtension * GeneratedCommandRule)) : option pystr :=
  match rule, label with
  | Some _, _ => label
  | None, Some l => match for_action_class registry l with None => Some l | Some _ => None end
  | None, None => None
  end.

Definition owned_match (effective_class reason : option pystr) (o : NativeCommandExtensionObservation)
    : OwnedCommandRuleMatch :=
  {| owned_extension := obs_extension o; owned_rule := obs_rule o;
     owned_action_class := match rule_action_classes (obs_rule o) with c :: _ => Some c | [] => effective_class end;
     owned_reason := match reason with
                     | Some r => if compatibility_fallback (obs_rule o) then r else rule_description (obs_rule o)
                     | None => rule_description (obs_rule o)
                     end;
     owned_matcher_evidence := effective_evidence o |}.

(** The rule ids the permissions [ids] cover. *)
Definition permission_rules (registry : GeneratedCommandCatalog) (ids : list pystr) : list pystr :=
  ids ≫= λ id, match permission registry id with Some p => permission_rule_ids p | None => [] end.
Definition permission_capabilities (registry : GeneratedCommandCatalog) (ids : list pystr) : list pystr :=
  ids ≫= λ id, match permission registry id with Some p => typed_capabilities p | None => [] end.
Definition relaxable_permissions (registry : GeneratedCommandCatalog) (ids : list pystr) : list pystr :=
  filter (λ id, match permission registry id with Some p => configurable p | None => false end = true) ids.

(** The floors of the matches that no permission, authorization or benign
    classification discharges. *)
Definition matches_floor (discharged : list pystr) (ms : list OwnedCommandRuleMatch) : CommandDecisionFloor :=
  foldl (λ floor m, if py_in (CommandCatalog.rule_id (owned_rule m)) discharged then floor
                    else stronger_floor floor (owned_floor m)) Floor_ALLOW ms.

(** Whether a blocked resolution closes this command. *)
Definition applies_fail_closed (res : ControlResolution) (extension_ids : list pystr)
    (floor : CommandDecisionFloor) (writes : list DecisionFactor) (c : CanonicalCommand)
    (ms : list OwnedCommandRuleMatch) (effective_class : option pystr) : bool :=
  let authority_unavailable_only :=
    negb (bool_decide (failures res = []))
    && forallb (λ f, bool_decide (failure_code f = AUTHORITY_UNAVAILABLE)) (failures res) in
  blocked res
  && (negb authority_unavailable_only
      || negb (bool_decide (extension_ids = []))
      || bool_decide (floor = Floor_BLOCK)
      || negb (bool_decide (length writes = 0%nat))
      || existsb write_redirect (redirect_operators c)
      || existsb (λ m, fail_closed_risk (rule_risk_classes (owned_rule m))) ms
      || match effective_class with
         | Some l => fail_closed_risk (risk_classes_for_command_action l)
         | None => false
         end).

(** [bool(ids) and ids.issubset(covered)] *)
Definition covered_by (ids covered : list pystr) : bool :=
  negb (bool_decide (ids = [])) && py_subset ids covered.

(** What the observations, the controls and the proofs discharge. *)
Record discharge := {
  native_benign_rule_ids : list pystr;
  explicitly_enabled_rule_ids : list pystr;
  workflow_authorized_rule_ids : list pystr;
}.
Definition discharged_ids (x : discharge) : list pystr :=
  native_benign_rule_ids x ++ explicitly_enabled_rule_ids x ++ workflow_authorized_rule_ids x.

Definition discharge_of (benign : bool) (enabled_rules : list pystr) (authorized : option pystr)
    (observations : list NativeCommandExtensionObservation) (ms : list OwnedCommandRuleMatch) : discharge :=
  let certain o := bool_decide (obs_uncertainty_reasons o = []) in
  {| native_benign_rule_ids :=
       if benign then
         (λ m, CommandCatalog.rule_id (owned_rule m)) <$>
         filter (λ m, bool_decide (owned_floor m = Floor_ALLOW)
                      && existsb (λ o, bool_decide (CommandCatalog.rule_id (obs_rule o)
                                                    = CommandCatalog.rule_id (owned_rule m)) && certain o)
                           observations = true) ms
       else [];
     explicitly_enabled_rule_ids := enabled_rules;
     workflow_authorized_rule_ids :=
       match authorized with
       | Some a => (λ o, CommandCatalog.rule_id (obs_rule o)) <$>
                     filter (λ o, certain o && py_in a (rule_action_classes (obs_rule o)) = true) observations
       | None => []
       end |}.

(** The evidence that still counts: neither benign, nor enabled, nor authorized,
    but whatever is uncertain stays. *)
Definition effective_batch (x : discharge) (authorized : option pystr) (b : ExtensionEvidenceBatch)
    : result ExtensionEvidenceBatch :=
  let id e := ExtensionEvidence.rule_id (identity e) in
  let uncertain e := negb (bool_decide (ev_uncertainty_reasons e = [])) in
  b1 ← make_ExtensionEvidenceBatch
    (filter (λ e, negb (py_in (id e) (native_benign_rule_ids x))
                  && (negb (py_in (id e) (explicitly_enabled_rule_ids x)) || uncertain e) = true)
       (ExtensionEvidence.evidence b)) ;
  match authorized with
  | None => Ok b1
  | Some _ =>
      make_ExtensionEvidenceBatch
        (filter (λ e, negb (py_in (id e) (workflow_authorized_rule_ids x)) || uncertain e = true)
           (ExtensionEvidence.evidence b1))
  end.

Definition secret_reads_only (fs : list DecisionFactor) : list DecisionFactor :=
  filter (λ f, reason_code f = $"critical.local-secret-read") fs.

Definition candidate_floor (f : DecisionFactor) : CommandDecisionFloor :=
  if bool_decide (action_floor (basis f) = block) then Floor_BLOCK else Floor_REVIEW.

(** The snapshot a call uses; layers without a snapshot authenticate nothing. *)
Definition runtime_snapshot (layers : option (list ExtensionControlLayer))
    (snapshot active : option ExtensionControlRuntimeSnapshot)
    : result (option ExtensionControlRuntimeSnapshot) :=
  match layers, snapshot with
  | Some _, Some _ => Raise (ValueError "provide extension control layers or a runtime snapshot, not both")
  | None, None => Ok active
  | _, _ => Ok snapshot
  end.

(** What the call is about, once its arguments are there. *)
Record evaluation_context := {
  ctx_text : pystr;
  ctx_command : CanonicalCommand;
  ctx_label : option pystr;
  ctx_reason : option pystr;
  ctx_authorization : option GitHubWorkflowAuthorization;
  ctx_registry : GeneratedCommandCatalog;
  ctx_native : list (pystr * pyval);
  ctx_snapshot : ExtensionControlRuntimeSnapshot;
  ctx_observations : list NativeCommandExtensionObservation;
}.

Section context.
Variable x : evaluation_context.

Definition selected : list NativeCommandExtensionObservation :=
  filter (λ o, effective_evidence o ≠ []) (ctx_observations x).
Definition compatibility_rule : option (GeneratedCommandExtension * GeneratedCommandRule) :=
  compatibility_rule_of (ctx_label x) selected.
Definition effective_class : option pystr :=
  effective_compatibility_class (ctx_registry x) (ctx_label x) compatibility_rule.
Definition owned_matches : list OwnedCommandRuleMatch :=
  owned_match effective_class (ctx_reason x) <$> selected.

Definition extension_ids : list pystr :=
  sorted_ids ((λ o, CommandCatalog.extension_id (obs_extension o)) <$> ctx_observations x).
Definition permission_ids : list pystr :=
  sorted_ids (omap (λ m, permission_id <$> permission_for_rule_id (ctx_registry x)
                           (CommandCatalog.rule_id (owned_rule m))) owned_matches
              ++ direct_github_permission_ids (ctx_command x)).
Definition resolve_controls : result ControlResolution :=
  resolve_extension_controls (layers (ctx_snapshot x)) (Some (ctx_registry x)) extension_ids permission_ids
    (Some COMMAND_EVALUATION)
    ((λ o, CommandCatalog.extension_id (obs_extension o) ++ [58] ++ CommandCatalog.rule_id (obs_rule o))
       <$> ctx_observations x)
    (authority_failure (ctx_snapshot x)).

Definition authorized_action_class : option pystr :=
  snd <$> github_workflow_authorization_evidence (ctx_authorization x) (security_identity (ctx_command x)).
Definition native_explicitly_benign : bool := explicitly_benign (ctx_native x) (ctx_command x).

Definition execution_proof_required : bool :=
  bool_decide (is_Some (contained_routine_candidate_factor (ctx_command x)))
  || bool_decide (is_Some (verified_read_candidate_factor (ctx_command x)))
  || negb (bool_decide (length (workspace_write_candidate_factors (ctx_command x)) = 0%nat)).
Definition native_host_floor_exempt : bool := native_explicitly_benign && negb execution_proof_required.

Definition read_factors : list DecisionFactor :=
  let fs := shell_read_floor_factors (ctx_text x) (ctx_command x) in
  let fs := if native_host_floor_exempt then secret_reads_only fs else fs in
  if bool_decide (is_Some authorized_action_class) then secret_reads_only fs else fs.

Definition critical_floor_factors (enabled : list pystr) : list DecisionFactor :=
  if native_host_floor_exempt then []
  else command_critical_floor_factors (ctx_command x) (ctx_authorization x)
         (if bool_decide (confidence (ctx_command x) = parse_exact)
          then permission_capabilities (ctx_registry x) enabled else []).

(** [compatibility_explicitly_enabled] and [compatibility_workflow_authorized] *)
Definition label_rules : list pystr :=
  (λ m, CommandCatalog.rule_id (owned_rule m)) <$>
  filter (λ m, owned_action_class m = effective_class) owned_matches.
Definition label_enabled (d : discharge) : bool :=
  covered_by label_rules (explicitly_enabled_rule_ids d)
  || match compatibility_rule with
     | Some (_, rule) => py_in (CommandCatalog.rule_id rule) (explicitly_enabled_rule_ids d)
     | None => false
     end.
Definition label_authorized (d : discharge) : bool :=
  covered_by label_rules (workflow_authorized_rule_ids d).

Definition observation_uncertainties : list UncertaintyKind := extension_uncertainties (ctx_observations x).

(** [minimum_action] before the controls and the decision plane are known. *)
Definition rules_minimum (d : discharge) : CommandDecisionFloor :=
  let floor := matches_floor (discharged_ids d) owned_matches in
  let floor := if bool_decide (is_Some effective_class) && negb (label_enabled d) && negb (label_authorized d)
               then stronger_floor floor Floor_REVIEW else floor in
  let floor := if negb (bool_decide (confidence (ctx_command x) = parse_exact))
                  && (bool_decide (is_Some effective_class) || negb (bool_decide (length owned_matches = 0%nat)))
               then stronger_floor floor Floor_REVIEW else floor in
  let floor := if bool_decide (observation_uncertainties = []) then floor else Floor_BLOCK in
  let floor := if bool_decide (length read_factors = 0%nat) then floor else stronger_floor floor Floor_REVIEW in
  let floor := if bool_decide (is_Some (contained_routine_candidate_factor (ctx_command x)))
               then stronger_floor floor Floor_REVIEW else floor in
  let floor := if bool_decide (is_Some (verified_read_candidate_factor (ctx_command x)))
               then stronger_floor floor Floor_REVIEW else floor in
  foldl (λ floor f, stronger_floor floor (candidate_floor f)) floor
    (workspace_write_candidate_factors (ctx_command x)).

Definition candidate_factors : list DecisionFactor :=
  opt_list (contained_routine_candidate_factor (ctx_command x))
  ++ opt_list (verified_read_candidate_factor (ctx_command x))
  ++ workspace_write_candidate_factors (ctx_command x).

Definition uncertainties_when (sensitive : bool) : list UncertaintyKind :=
  sorted_uncertainties (command_uncertainties (ctx_command x) sensitive ++ observation_uncertainties).

(** The label that still counts as a factor. *)
Definition decision_label (d : discharge) : option pystr :=
  match effective_class with
  | None => None
  | Some l =>
      if label_enabled d || bool_decide (authorized_action_class = Some l) then None else Some l
  end.

(** The body of [evaluate_command] once the observations are projected. *)
Definition evaluate_context : result CompositeCommandEvaluation :=
  res ← resolve_controls ;
  let enabled := match authority_failure (ctx_snapshot x) with
                 | None => relaxable_permissions (ctx_registry x) (explicitly_enabled_permission_ids res)
                 | Some _ => []
                 end in
  controlling ← controlling_match_of owned_matches ;
  let d := discharge_of native_explicitly_benign (permission_rules (ctx_registry x) enabled)
             authorized_action_class (ctx_observations x) owned_matches in
  batch ← extension_evidence_batch (ctx_command x) (ctx_observations x) ;
  counted ← effective_batch d authorized_action_class batch ;
  let critical := critical_floor_factors enabled in
  permitted ← explicit_permission_allow_factors (ctx_command x) (layers (ctx_snapshot x))
                (remove_dups enabled) (Some (private_evidence (ctx_snapshot x))) ;
  baseline ← decision_factors batch None None ;
  current ← decision_factors counted (decision_label d) compatibility_rule ;
  native ← native_classification_factors (ctx_native x) (ctx_command x) (negb execution_proof_required) ;
  let fail_closed := applies_fail_closed res extension_ids (rules_minimum d)
                       (workspace_write_candidate_factors (ctx_command x)) (ctx_command x) owned_matches
                       effective_class in
  let floor := if fail_closed then stronger_floor (rules_minimum d) Floor_BLOCK else rules_minimum d in
  plane ← decide_request
    (native ++ current ++ candidate_factors ++ critical ++ read_factors
     ++ (if fail_closed then res_factors res else []) ++ permitted)
    (uncertainties_when (bool_decide (is_Some effective_class) || negb (bool_decide (length owned_matches = 0%nat)))) ;
  Ok {| command := ctx_command x;
        evaluation_matches := owned_matches;
        controlling_action_class :=
          match effective_class, controlling with
          | Some l, _ => Some l
          | None, Some m => owned_action_class m
          | None, None => None
          end;
        controlling_reason :=
          match effective_class, controlling with
          | Some _, _ => ctx_reason x
          | None, Some m => Some (owned_reason m)
          | None, None => None
          end;
        evaluation_controlling_rule_id := (λ m, CommandCatalog.rule_id (owned_rule m)) <$> controlling;
        minimum_action := stronger_floor floor (decision_action_floor (action plane));
        extension_observations := ctx_observations x;
        decision_plane := plane;
        baseline_factors :=
          (if is_str (dict_get ($"reason_code") (ctx_native x)) ($"native_command_explicit_permission_allow")
           then [] else native)
          ++ baseline ++ candidate_factors ++ critical ++ read_factors;
        baseline_uncertainties := uncertainties_when (negb (bool_decide (length owned_matches = 0%nat)));
        control_resolution := res;
        private_control_evidence := private_evidence (ctx_snapshot x) |}.
End context.

Definition evaluate_command (index : trust_index) (command_text : pystr)
    (canonical_command : option CanonicalCommand) (compatibility_label compatibility_reason : option pystr)
    (authorization : option GitHubWorkflowAuthorization) (registry : GeneratedCommandCatalog)
    (native_extension_evidence : option pyval) (control_layers : option (list ExtensionControlLayer))
    (snapshot active : option ExtensionControlRuntimeSnapshot) : result CompositeCommandEvaluation :=
  snap ← runtime_snapshot control_layers snapshot active ;
  match native_extension_evidence, canonical_command, snap with
  | None, _, _ =>
      Raise (RuntimeError "native command extension evidence is required; the Python matcher oracle is retired")
  | Some _, None, _ =>
      Raise (RuntimeError "native canonical command model is required; Python semantic parsing is retired")
  | Some _, Some _, None =>
      Raise (RuntimeError "authenticated extension control snapshot is required with native evidence")
  | Some value, Some c, Some snap =>
      projected ← observations_from_native_evidence value registry (normalized_text c) snap ;
      observations ← filter_inert_external_observations index projected (layers snap) ;
      match value with
      | PDict native =>
          evaluate_context
            {| ctx_text := command_text; ctx_command := c; ctx_label := compatibility_label;
               ctx_reason := compatibility_reason; ctx_authorization := authorization;
               ctx_registry := registry; ctx_native := native; ctx_snapshot := snap;
               ctx_observations := observations |}
      | _ => Raise (RuntimeError "native_command_extension_evidence_invalid")
      end
  end.

End evaluate.

(** ** Lemmas on floors *)

Lemma stronger_floor_rank a b : FLOOR_RANK (stronger_floor a b) = Z.max (FLOOR_RANK a) (FLOOR_RANK b).
Proof. by destruct a, b. Qed.

Lemma floor_rank_inj a b : FLOOR_RANK a = FLOOR_RANK b → a = b.
Proof. by destruct a, b. Qed.

Lemma floor_rank_bounds a : 0 <= FLOOR_RANK a <= 3.
Proof. destruct a; simpl; lia. Qed.

Lemma stronger_floor_allow a b : stronger_floor a b = Floor_ALLOW → a = Floor_ALLOW ∧ b = Floor_ALLOW.
Proof. by destruct a, b. Qed.

Lemma stronger_floor_block a b : stronger_floor a b = Floor_BLOCK ↔ a = Floor_BLOCK ∨ b = Floor_BLOCK.
Proof. destruct a, b; naive_solver. Qed.

Lemma decision_floor_allow a : decision_action_floor a = Floor_ALLOW → a = allow.
Proof. by destruct a. Qed.

Lemma foldl_floor_ge {A} (f : A → CommandDecisionFloor) floor xs :
  FLOOR_RANK floor <= FLOOR_RANK (foldl (λ floor x, stronger_floor floor (f x)) floor xs) ∧
  ∀ x, x ∈ xs → FLOOR_RANK (f x) <= FLOOR_RANK (foldl (λ floor x, stronger_floor floor (f x)) floor xs).
Proof.
  revert floor. induction xs as [|y xs IH]; intros floor; simpl; [split; [lia | by intros x ?%elem_of_nil]|].
  destruct (IH (stronger_floor floor (f y))) as [H1 H2]. rewrite stronger_floor_rank in H1.
  split; [lia|]. intros x [->|Hx]%elem_of_cons; [lia | auto].
Qed.

Lemma matches_floor_ge discharged ms m :
  m ∈ ms → CommandCatalog.rule_id (owned_rule m) ∉ discharged →
  FLOOR_RANK (owned_floor m) <= FLOOR_RANK (matches_floor discharged ms).
Proof.
  intros Hm Hd. unfold matches_floor.
  assert (∀ floor, FLOOR_RANK (owned_floor m) <=
    FLOOR_RANK (foldl (λ floor m, if py_in (CommandCatalog.rule_id (owned_rule m)) discharged then floor
      else stronger_floor floor (owned_floor m)) floor ms)) as H; [|apply H].
  assert (∀ l floor, FLOOR_RANK floor <=
    FLOOR_RANK (foldl (λ floor m, if py_in (CommandCatalog.rule_id (owned_rule m)) discharged then floor
      else stronger_floor floor (owned_floor m)) floor l)) as Hmono.
  { intros l. induction l as [|y l IH]; intros floor; simpl; [lia|].
    etrans; [|apply IH]. case_match; [done|]. rewrite stronger_floor_rank. lia. }
  induction Hm as [ms|m y ms Hm IH]; intros floor; simpl; [|by apply IH].
  rewrite (proj2 (py_in_false _ _) Hd). etrans; [|apply Hmono]. rewrite stronger_floor_rank. lia.
Qed.

(** ** Lemmas on factors *)

Lemma unproved_floor f : factor_ok f → proof f = None → at_least_review_floor f.
Proof.
  intros Hok Hp. unfold at_least_review_floor.
  destruct (Z.le_gt_cases (GUARD_ACTION_SEVERITY review) (GUARD_ACTION_SEVERITY (action_floor (basis f)))); [done|].
  destruct (factor_ok_permissive f Hok) as (p & Hp' & _); [lia | congruence].
Qed.

Lemma make_factor_Ok f g : make_factor f = Ok g → g = f ∧ factor_ok f.
Proof. unfold make_factor. by intros [? [= <-]]%then_Ok. Qed.

Lemma extension_factors_unproved b fs :
  factors_from_extension_evidence b = Ok fs → Forall (λ f, factor_ok f ∧ proof f = None) fs.
Proof.
  unfold factors_from_extension_evidence. intros (gs & Hgs & [= <-])%bind_Ok. apply Forall_sort_on.
  revert gs Hgs. induction (ExtensionEvidence.evidence b) as [|e es IH]; simpl; intros gs Hgs.
  - injection Hgs as <-. constructor.
  - destruct (effective_floor e); [|by apply IH].
    apply then_Ok in Hgs as [Hok (rest & Hr & [= <-])%bind_Ok]. constructor; [done | by apply IH].
Qed.

Lemma decision_factors_unproved `{PyUnicode} b label rule fs :
  decision_factors b label rule = Ok fs → Forall (λ f, factor_ok f ∧ proof f = None) fs.
Proof.
  unfold decision_factors. intros (gs & Hgs & Hf)%bind_Ok. apply extension_factors_unproved in Hgs.
  destruct label as [l|]; [|by injection Hf as <-].
  destruct (match rule with Some _ => _ | None => _ end) as [floor producer].
  apply bind_Ok in Hf as (g & [-> Hok]%make_factor_Ok & [= <-]).
  apply Forall_app. split; [done|]. by repeat constructor.
Qed.

Lemma native_factors_cases value c benign fs :
  native_classification_factors value c benign = Ok fs →
  Forall factor_ok fs ∧
  (Exists (λ f, proof f ≠ None) fs → benign = true ∧ explicitly_benign value c = true) ∧
  (is_str (dict_get ($"minimum_action") value) ($"block") = true →
   Exists (λ f, action_floor (basis f) = block) fs).
Proof.
  unfold native_classification_factors. cbv zeta.
  destruct (is_str (dict_get ($"minimum_action") value) ($"block")) eqn:Hb.
  - simpl. intros (ext & _ & (f & [-> Hok]%make_factor_Ok & [= <-])%bind_Ok)%bind_Ok.
    split_and!; [by repeat constructor | |].
    { intros Hx. by inversion Hx as [? ? Hn|? ? Hn]; [|inversion Hn]. }
    intros _. by constructor.
  - simpl. destruct (is_str _ ($"require-reapproval")).
    + simpl. intros (ext & _ & (f & [-> Hok]%make_factor_Ok & [= <-])%bind_Ok)%bind_Ok.
      split_and!; [by repeat constructor | | done]. intros Hx. by inversion Hx as [? ? Hn|? ? Hn]; [|inversion Hn].
    + simpl. destruct (benign && explicitly_benign value c) eqn:He.
      * intros (ext & _ & (f & [-> Hok]%make_factor_Ok & [= <-])%bind_Ok)%bind_Ok.
        apply andb_true_iff in He. split_and!; [by repeat constructor | tauto | done].
      * intros [= <-]. split_and!; [constructor | by intros ?%Exists_nil | done].
Qed.

Lemma permission_factors_cases c ls ids a fs :
  explicit_permission_allow_factors c ls ids a = Ok fs →
  Forall factor_ok fs ∧ (fs ≠ [] → confidence c = parse_exact ∧ ids ≠ []).
Proof.
  unfold explicit_permission_allow_factors. destruct (_ || _) eqn:E.
  - intros [= <-]. split; [constructor | done].
  - apply orb_false_iff in E as [E1%negb_false_iff%bool_decide_eq_true E2%bool_decide_eq_false].
    intros Hm%map_result_Ok. split; [|done].
    clear E2. revert fs Hm. induction (sort_on _ ids) as [|id l IH]; intros fs Hm; inversion Hm; subst; constructor; [|auto].
    match goal with H : make_factor _ = Ok _ |- _ => by apply make_factor_Ok in H as [-> ?] end.
Qed.

(** ** Lemmas on decisions *)

Lemma decide_request_ge fs us d :
  decide_request fs us = Ok d →
  (∀ f, f ∈ fs → GUARD_ACTION_SEVERITY (action_floor (basis f)) <= GUARD_ACTION_SEVERITY (action d)) ∧
  (∀ u, u ∈ us → GUARD_ACTION_SEVERITY (UNCERTAINTY_FLOOR u) <= GUARD_ACTION_SEVERITY (action d)) ∧
  (fs = [] → us = [] → action d = review).
Proof.
  unfold decide_request. intros (r & Hr & Hd)%bind_Ok.
  apply make_request_Ok in Hr as (_ & _ & Hf & Hu). destruct (evaluate_floor _ _ Hd) as (Ha & _ & _).
  split_and!.
  - intros f Hin. rewrite Ha. apply maximum_action_floor_ge, list_elem_of_fmap.
    exists (factor_reason f). split; [done|]. apply elem_of_collected. left. exists f.
    split; [by rewrite Hf, elem_of_sort_on | done].
  - intros u Hin. rewrite Ha. apply maximum_action_floor_ge, list_elem_of_fmap.
    exists (EffectDecision.uncertainty_reason Factor_POLICY None None u). split; [done|].
    apply elem_of_collected. right. left. exists u. split; [by rewrite Hu, elem_of_sort_on | done].
  - intros -> ->. rewrite Ha. unfold collected_reasons. by rewrite Hf, Hu.
Qed.

Lemma severity_allow a : GUARD_ACTION_SEVERITY a <= GUARD_ACTION_SEVERITY allow → a = allow.
Proof. by destruct a. Qed.

Lemma severity_at_least_block a : GUARD_ACTION_SEVERITY block <= GUARD_ACTION_SEVERITY a → a = block.
Proof. by destruct a. Qed.

(** A silent decision rests on a factor with a positive proof, and meets no
    floor without one. *)
Lemma decide_allow fs us d :
  decide_request fs us = Ok d → action d = allow → Forall factor_ok fs →
  us = [] ∧ (∀ f, f ∈ fs → ¬ at_least_review_floor f ∧ proof f ≠ None) ∧ ∃ f, f ∈ fs ∧ proof f ≠ None.
Proof.
  intros Hd Ha Hok. destruct (decide_request_ge _ _ _ Hd) as (Hf & Hu & Hn). rewrite Ha in *.
  assert (∀ f, f ∈ fs → ¬ at_least_review_floor f ∧ proof f ≠ None) as Hall.
  { intros f Hin. rewrite Forall_forall in Hok. specialize (Hf f Hin).
    assert (¬ at_least_review_floor f) as Hr.
    { unfold at_least_review_floor. apply severity_allow in Hf. rewrite Hf. by vm_compute. }
    split; [done|]. intros Hp. by apply Hr, unproved_floor; [apply Hok|]. }
  assert (us = []) as Hus.
  { destruct us as [|u us]; [done|]. exfalso. specialize (Hu u (list_elem_of_here u us)).
    apply severity_allow in Hu. by destruct u. }
  split_and!; [done | done|]. destruct fs as [|f fs]; [|exists f; split; [left | apply Hall; left]].
  specialize (Hn eq_refl Hus). discriminate Hn.
Qed.

(** ** Lemmas on the evaluator *)

Section run.
Context `{PyUnicode, CommandAnalyses}.
Implicit Types x : evaluation_context.

(** The permissions an authenticated layer enables and the catalog lets relax. *)
Definition enabled_permissions x (res : ControlResolution) : list pystr :=
  match authority_failure (ctx_snapshot x) with
  | None => relaxable_permissions (ctx_registry x) (explicitly_enabled_permission_ids res)
  | Some _ => []
  end.
Definition discharge_in x (res : ControlResolution) : discharge :=
  discharge_of (native_explicitly_benign x) (permission_rules (ctx_registry x) (enabled_permissions x res))
    (authorized_action_class x) (ctx_observations x) (owned_matches x).
Definition closes x (res : ControlResolution) : bool :=
  applies_fail_closed res (extension_ids x) (rules_minimum x (discharge_in x res))
    (workspace_write_candidate_factors (ctx_command x)) (ctx_command x) (owned_matches x) (effective_class x).

(** The values an evaluation that returned went through. *)
Record evaluation_run x (ev : CompositeCommandEvaluation) : Prop := {
  run_resolved : resolve_controls x = Ok (control_resolution ev);
  run_matches : evaluation_matches ev = owned_matches x;
  run_decided : ∃ native current permitted,
    native_classification_factors (ctx_native x) (ctx_command x) (negb (execution_proof_required x)) = Ok native ∧
    Forall (λ f, factor_ok f ∧ proof f = None) current ∧
    explicit_permission_allow_factors (ctx_command x) (layers (ctx_snapshot x))
      (remove_dups (enabled_permissions x (control_resolution ev)))
      (Some (private_evidence (ctx_snapshot x))) = Ok permitted ∧
    decide_request
      (native ++ current ++ candidate_factors x
       ++ critical_floor_factors x (enabled_permissions x (control_resolution ev)) ++ read_factors x
       ++ (if closes x (control_resolution ev) then res_factors (control_resolution ev) else []) ++ permitted)
      (uncertainties_when x (bool_decide (is_Some (effective_class x))
                             || negb (bool_decide (length (owned_matches x) = 0%nat))))
    = Ok (decision_plane ev);
  run_minimum : minimum_action ev =
    stronger_floor
      (if closes x (control_resolution ev)
       then stronger_floor (rules_minimum x (discharge_in x (control_resolution ev))) Floor_BLOCK
       else rules_minimum x (discharge_in x (control_resolution ev)))
      (decision_action_floor (action (decision_plane ev)));
  run_controlling : ∃ m, controlling_match_of (owned_matches x) = Ok m ∧
    evaluation_controlling_rule_id ev = (λ m, CommandCatalog.rule_id (owned_rule m)) <$> m;
}.

Lemma evaluate_context_run x ev : evaluate_context x = Ok ev → evaluation_run x ev.
Proof.
  unfold evaluate_context. cbv zeta. intros (res & Hres & He)%bind_Ok.
  apply bind_Ok in He as (controlling & Hctl & He). apply bind_Ok in He as (batch & _ & He).
  apply bind_Ok in He as (counted & _ & He). apply bind_Ok in He as (permitted & Hperm & He).
  apply bind_Ok in He as (baseline & _ & He). apply bind_Ok in He as (current & Hcur & He).
  apply bind_Ok in He as (native & Hnat & He). apply bind_Ok in He as (plane & Hplane & He).
  apply decision_factors_unproved in Hcur. injection He as <-.
  split; simpl; try done; [exists native, current, permitted; split_and!; done | by exists controlling].
Qed.

Lemma secret_reads_sub fs f : f ∈ secret_reads_only fs → f ∈ fs.
Proof. unfold secret_reads_only. by intros [_ ?]%list_elem_of_filter. Qed.

Lemma read_factors_ok x f : f ∈ read_factors x → factor_ok f ∧ at_least_review_floor f.
Proof.
  unfold read_factors. intros Hf. apply (shell_read_ok (ctx_text x) (ctx_command x)).
  repeat case_match; repeat apply secret_reads_sub in Hf; done.
Qed.

Lemma candidate_factors_ok x f : f ∈ candidate_factors x → factor_ok f ∧ at_least_review_floor f.
Proof.
  unfold candidate_factors, opt_list. rewrite !elem_of_app. intros [Hf|[Hf|Hf]].
  - destruct (contained_routine_candidate_factor _) eqn:E; [|by apply elem_of_nil in Hf].
    apply list_elem_of_singleton in Hf as ->. by eapply contained_routine_ok.
  - destruct (verified_read_candidate_factor _) eqn:E; [|by apply elem_of_nil in Hf].
    apply list_elem_of_singleton in Hf as ->. by eapply verified_read_ok.
  - by eapply workspace_write_ok.
Qed.

Lemma critical_factors_ok x enabled f :
  f ∈ critical_floor_factors x enabled → factor_ok f ∧
  (at_least_review_floor f ∨ is_Some (authorized_action_class x)).
Proof.
  unfold critical_floor_factors. destruct (native_host_floor_exempt x); [by intros ?%elem_of_nil|].
  intros Hf. apply critical_floor_ok in Hf as [? [?|(p & cls & E & _)]]; [by eauto|].
  split; [done|]. right. unfold authorized_action_class. rewrite E. by eexists.
Qed.

Lemma control_factors_ok x res f :
  resolve_controls x = Ok res → f ∈ (if closes x res then res_factors res else []) →
  factor_ok f ∧ proof f = None ∧ action_floor (basis f) = block.
Proof.
  intros Hres%resolve_factors Hf. unfold factors_agree in Hres.
  destruct (closes x res); [|by apply elem_of_nil in Hf].
  destruct (blocked res).
  - destruct Hres as (code & E & Hok). rewrite E in Hf. apply list_elem_of_singleton in Hf as ->. done.
  - destruct Hres as [E _]. rewrite E in Hf. by apply elem_of_nil in Hf.
Qed.

Lemma closes_blocks x res : resolve_controls x = Ok res → closes x res = true → res_factors res ≠ [].
Proof.
  intros Hres%resolve_factors Hc. unfold factors_agree in Hres. unfold closes, applies_fail_closed in Hc.
  apply andb_true_iff in Hc as [Hb _]. rewrite Hb in Hres. by destruct Hres as (code & -> & _).
Qed.

(** The lower bounds of the floor the rules and candidates give. *)
Lemma rules_minimum_ge x d :
  FLOOR_RANK (matches_floor (discharged_ids d) (owned_matches x)) <= FLOOR_RANK (rules_minimum x d) ∧
  (observation_uncertainties x ≠ [] → rules_minimum x d = Floor_BLOCK) ∧
  (read_factors x ≠ [] ∨ candidate_factors x ≠ [] ∨
   confidence (ctx_command x) ≠ parse_exact ∧ (owned_matches x ≠ [] ∨ effective_class x ≠ None) →
   FLOOR_RANK Floor_REVIEW <= FLOOR_RANK (rules_minimum x d)).
Proof.
  unfold rules_minimum. cbv zeta.
  set (f0 := matches_floor _ _).
  set (f1 := if bool_decide (is_Some (effective_class x)) && _ && _ then _ else _).
  set (f2 := if negb (bool_decide (confidence _ = _)) && _ then _ else _).
  set (f3 := if bool_decide (observation_uncertainties x = []) then _ else _).
  set (f4 := if bool_decide (length (read_factors x) = _) then _ else _).
  set (f5 := if bool_decide (is_Some (contained_routine_candidate_factor _)) then _ else _).
  set (f6 := if bool_decide (is_Some (verified_read_candidate_factor _)) then _ else _).
  destruct (foldl_floor_ge candidate_floor f6 (workspace_write_candidate_factors (ctx_command x))) as [H1 H2].
  assert (FLOOR_RANK f0 <= FLOOR_RANK f1) as E1
    by (unfold f1; case_match; [rewrite stronger_floor_rank; lia | lia]).
  assert (FLOOR_RANK f1 <= FLOOR_RANK f2) as E2
    by (unfold f2; case_match; [rewrite stronger_floor_rank; lia | lia]).
  assert (FLOOR_RANK f2 <= FLOOR_RANK f3) as E3
    by (unfold f3; case_match; [lia | pose proof (floor_rank_bounds f2); simpl; lia]).
  assert (FLOOR_RANK f3 <= FLOOR_RANK f4) as E4
    by (unfold f4; case_match; [lia | rewrite stronger_floor_rank; lia]).
  assert (FLOOR_RANK f4 <= FLOOR_RANK f5) as E5
    by (unfold f5; case_match; [rewrite stronger_floor_rank; lia | lia]).
  assert (FLOOR_RANK f5 <= FLOOR_RANK f6) as E6
    by (unfold f6; case_match; [rewrite stronger_floor_rank; lia | lia]).
  split_and!; [lia | |].
  - intros Hu. apply floor_rank_inj. pose proof (floor_rank_bounds (foldl (λ floor f,
      stronger_floor floor (candidate_floor f)) f6 (workspace_write_candidate_factors (ctx_command x)))).
    assert (FLOOR_RANK f3 = 3) by (unfold f3; by rewrite bool_decide_eq_false_2).
    simpl. lia.
  - change (FLOOR_RANK Floor_REVIEW) with 2. intros [Hr|[Hc|[Hx Hm]]].
    + assert (2 <= FLOOR_RANK f4); [|lia]. unfold f4. rewrite bool_decide_eq_false_2 by by destruct (read_factors x).
      rewrite stronger_floor_rank. simpl. lia.
    + unfold candidate_factors, opt_list in Hc.
      destruct (contained_routine_candidate_factor (ctx_command x)) eqn:Ec.
      { assert (2 <= FLOOR_RANK f5); [|lia]. unfold f5. rewrite bool_decide_eq_true_2 by eauto.
        rewrite stronger_floor_rank. simpl. lia. }
      destruct (verified_read_candidate_factor (ctx_command x)) eqn:Ev.
      { assert (2 <= FLOOR_RANK f6); [|lia]. unfold f6. rewrite bool_decide_eq_true_2 by eauto.
        rewrite stronger_floor_rank. simpl. lia. }
      destruct (workspace_write_candidate_factors (ctx_command x)) as [|w ws]; [done|].
      specialize (H2 w (list_elem_of_here w ws)).
      assert (2 <= FLOOR_RANK (candidate_floor w)) by (unfold candidate_floor; case_match; simpl; lia). lia.
    + assert (2 <= FLOOR_RANK f2); [|lia]. unfold f2. rewrite (bool_decide_eq_false_2 _ Hx).
      assert (bool_decide (is_Some (effective_class x)) || negb (bool_decide (length (owned_matches x) = 0%nat)) = true)
        as ->.
      { apply orb_true_iff. destruct Hm as [Hm|Hm].
        - right. rewrite bool_decide_eq_false_2; [done|]. by destruct (owned_matches x).
        - left. apply bool_decide_eq_true. by apply not_eq_None_Some. }
      simpl. rewrite stronger_floor_rank. simpl. lia.
Qed.

(** Every factor an evaluation decides on is validated. *)
Lemma run_factors_ok x ev native current permitted :
  evaluation_run x ev →
  native_classification_factors (ctx_native x) (ctx_command x) (negb (execution_proof_required x)) = Ok native →
  Forall (λ f, factor_ok f ∧ proof f = None) current →
  explicit_permission_allow_factors (ctx_command x) (layers (ctx_snapshot x))
    (remove_dups (enabled_permissions x (control_resolution ev)))
    (Some (private_evidence (ctx_snapshot x))) = Ok permitted →
  Forall factor_ok (native ++ current ++ candidate_factors x
    ++ critical_floor_factors x (enabled_permissions x (control_resolution ev)) ++ read_factors x
    ++ (if closes x (control_resolution ev) then res_factors (control_resolution ev) else []) ++ permitted).
Proof.
  intros Hrun Hn Hc Hp. rewrite !Forall_app. split_and!.
  - by apply native_factors_cases in Hn as (? & _).
  - eapply Forall_impl; [exact Hc | by intros f [? _]].
  - apply Forall_forall. intros f Hf. by apply candidate_factors_ok in Hf as [? _].
  - apply Forall_forall. intros f Hf. by apply critical_factors_ok in Hf as [? _].
  - apply Forall_forall. intros f Hf. by apply read_factors_ok in Hf as [? _].
  - apply Forall_forall. intros f Hf. by apply (control_factors_ok x) in Hf as [? _]; [|apply Hrun].
  - by apply permission_factors_cases in Hp as [? _].
Qed.

(** *** The controlling match *)

Lemma max_by_in {A K} `{PyOrd K} (best : A * K) (xs : list (A * K)) : max_by best xs ∈ (best :: xs).*1.
Proof.
  revert best. induction xs as [|y xs IH]; intros best; simpl; [left|].
  case_match; [specialize (IH y) | specialize (IH best)]; simpl in IH; set_solver.
Qed.

Lemma controlling_match_elem ms m : controlling_match_of ms = Ok (Some m) → m ∈ ms.
Proof.
  unfold controlling_match_of. intros (keyed & Hk & Hm)%bind_Ok. injection Hm as Hm.
  assert (keyed.*1 = ms) as <-.
  { apply map_result_Ok in Hk. clear Hm. induction Hk as [|a b ms keyed Hab _ IH]; [done|].
    apply bind_Ok in Hab as (k & _ & [= <-]). by rewrite fmap_cons, IH. }
  destruct keyed as [|b keyed]; [done|]. injection Hm as <-. apply max_by_in.
Qed.

(** A call that returned had its evidence, its command model and its snapshot,
    and evaluated the observations projected from them. *)
Lemma evaluate_command_context index text c label reason auth registry native_ev ls snap active ev :
  evaluate_command index text c label reason auth registry native_ev ls snap active = Ok ev →
  ∃ x projected, native_ev = Some (PDict (ctx_native x)) ∧ c = Some (ctx_command x) ∧
    runtime_snapshot ls snap active = Ok (Some (ctx_snapshot x)) ∧
    ctx_text x = text ∧ ctx_label x = label ∧ ctx_authorization x = auth ∧ ctx_registry x = registry ∧
    observations_from_native_evidence (PDict (ctx_native x)) registry (normalized_text (ctx_command x))
      (ctx_snapshot x) = Ok projected ∧
    filter_inert_external_observations index projected (layers (ctx_snapshot x)) = Ok (ctx_observations x) ∧
    evaluate_context x = Ok ev.
Proof.
  unfold evaluate_command. intros (sn & Hs & He)%bind_Ok.
  destruct native_ev as [value|]; [|done]. destruct c as [c|]; [|done]. destruct sn as [sn|]; [|done].
  apply bind_Ok in He as (projected & Hp & He). apply bind_Ok in He as (observations & Ho & He).
  destruct value as [| | | | |native|]; try done.
  eexists {| ctx_text := text; ctx_command := c; ctx_label := label; ctx_reason := reason;
    ctx_authorization := auth; ctx_registry := registry; ctx_native := native; ctx_snapshot := sn;
    ctx_observations := observations |}, projected. done.
Qed.

(** C2: a command evaluated to a silent allow has a positive proof and nothing
    against it.  The call resolved a control snapshot and was given a canonical
    command and native evidence, which the evidence validator accepted and which
    is bound to that command's text, to the catalog, its rule program and that
    snapshot; the observations judged are those projected from that evidence,
    less those of extensions that are not active under that snapshot's layers
    ([filter_inert_external_observations]); the decision plane says allow; no
    observation judged is uncertain, no proof candidate and no read floor is pending and the controls
    do not close the command; every match has an allow floor or was discharged;
    a command parsed inexactly matched nothing; and either the native runtime
    classified it as explicitly benign, or an enabled, configurable permission
    covers it, or its exact identity was authorized. *)
Theorem silent_evaluation_justified index text c label reason auth registry native_ev ls snap active ev :
  evaluate_command index text c label reason auth registry native_ev ls snap active = Ok ev →
  minimum_action ev = Floor_ALLOW →
  ∃ x projected validated, native_ev = Some (PDict (ctx_native x)) ∧ c = Some (ctx_command x) ∧
    runtime_snapshot ls snap active = Ok (Some (ctx_snapshot x)) ∧
    ctx_text x = text ∧ ctx_label x = label ∧ ctx_authorization x = auth ∧ ctx_registry x = registry ∧
    evidence_binding (ctx_native x) registry (normalized_text (ctx_command x)) (ctx_snapshot x) validated ∧
    observations_from_native_evidence (PDict (ctx_native x)) registry (normalized_text (ctx_command x))
      (ctx_snapshot x) = Ok projected ∧
    filter_inert_external_observations index projected (layers (ctx_snapshot x)) = Ok (ctx_observations x) ∧
    evaluate_context x = Ok ev ∧
    action (decision_plane ev) = allow ∧
    observation_uncertainties x = [] ∧ candidate_factors x = [] ∧ read_factors x = [] ∧
    closes x (control_resolution ev) = false ∧
    (∀ m, m ∈ evaluation_matches ev → owned_floor m = Floor_ALLOW ∨
       CommandCatalog.rule_id (owned_rule m) ∈ discharged_ids (discharge_in x (control_resolution ev))) ∧
    (confidence (ctx_command x) ≠ parse_exact → evaluation_matches ev = [] ∧ effective_class x = None) ∧
    (native_explicitly_benign x = true ∨
     confidence (ctx_command x) = parse_exact ∧ enabled_permissions x (control_resolution ev) ≠ [] ∨
     is_Some (authorized_action_class x)).
Proof.
  intros (x & projected & Hn & Hc & Hs & Ht & Hl & Ha & Hg & Hproj & Hfi & He)%evaluate_command_context Hmin.
  destruct (native_evidence_binding _ _ _ _ _ Hproj) as (d & validated & [= <-] & Hbound & _).
  pose proof (evaluate_context_run x ev He) as Hrun. exists x, projected, validated.
  destruct Hrun as [Hres Hms (native & current & permitted & Hnat & Hcur & Hperm & Hdec) Hm _].
  rewrite Hm in Hmin. apply stronger_floor_allow in Hmin as [Hrules Hact%decision_floor_allow].
  destruct (closes x (control_resolution ev)) eqn:Hcl.
  { apply stronger_floor_allow in Hrules as [_ ?]. done. }
  pose proof (run_factors_ok x ev native current permitted (evaluate_context_run x ev He) Hnat Hcur Hperm) as Hok.
  rewrite Hcl in Hok. destruct (decide_allow _ _ _ Hdec Hact Hok) as (_ & Hall & f & Hf & Hp).
  destruct (rules_minimum_ge x (discharge_in x (control_resolution ev))) as (H1 & H2 & H3).
  rewrite Hrules in H1, H2, H3. simpl in H1, H3.
  split_and!; try done.
  - apply dec_stable. intros ?. by specialize (H2 ltac:(done)).
  - destruct (candidate_factors x) eqn:E; [done|]. exfalso. apply H3; [|done]. by right; left.
  - destruct (read_factors x) eqn:E; [done|]. exfalso. apply H3; [|done]. by left.
  - intros m Hin. rewrite Hms in Hin.
    destruct (decide (CommandCatalog.rule_id (owned_rule m) ∈ discharged_ids (discharge_in x (control_resolution ev))))
      as [|Hnot]; [by right|]. left. apply floor_rank_inj.
    pose proof (matches_floor_ge _ _ m Hin Hnot). pose proof (floor_rank_bounds (owned_floor m)). simpl. lia.
  - intros Hx. rewrite Hms. split.
    + destruct (owned_matches x) eqn:E; [done|]. exfalso. apply H3; [|done]. right; right. by split; [|left].
    + destruct (effective_class x) eqn:E; [|done]. exfalso. apply H3; [|done]. right; right. by split; [|right].
  - destruct (Hall f Hf) as [Hr _]. rewrite !elem_of_app in Hf. destruct Hf as [Hf|[Hf|[Hf|[Hf|[Hf|[Hf|Hf]]]]]].
    + left. apply native_factors_cases in Hnat as (_ & Hx & _). apply Hx. apply Exists_exists. eauto.
    + rewrite Forall_forall in Hcur. destruct (Hcur f Hf) as [_ Hx]. destruct (Hp Hx).
    + destruct Hr. apply (candidate_factors_ok x f Hf).
    + apply critical_factors_ok in Hf as [_ [Hx|Hx]]; [destruct (Hr Hx) | right; right; exact Hx].
    + destruct Hr. apply (read_factors_ok x f Hf).
    + by apply elem_of_nil in Hf.
    + right; left. apply permission_factors_cases in Hperm as [_ Hx].
      destruct Hx as [Hex Hids]; [by intros ->; apply elem_of_nil in Hf|]. split; [done|].
      intros E. by rewrite E in Hids.
Qed.

(** C8: the evaluator fails closed.  An uncertain observation, a native hard
    block, and controls that block for any reason but an unavailable authority
    (or that block while an extension was observed) give the block floor, and
    in the last two cases the decision plane blocks as well. *)
Theorem evaluation_fails_closed (x : evaluation_context) (ev : CompositeCommandEvaluation) :
  evaluate_context x = Ok ev →
  (observation_uncertainties x ≠ [] → minimum_action ev = Floor_BLOCK) ∧
  (is_str (dict_get ($"minimum_action") (ctx_native x)) ($"block") = true →
   minimum_action ev = Floor_BLOCK ∧ action (decision_plane ev) = block) ∧
  (blocked (control_resolution ev) = true →
   failures (control_resolution ev) = [] ∨
   Exists (λ f, failure_code f ≠ AUTHORITY_UNAVAILABLE) (failures (control_resolution ev)) ∨
   extension_ids x ≠ [] →
   minimum_action ev = Floor_BLOCK ∧ action (decision_plane ev) = block).
Proof.
  intros He. pose proof (evaluate_context_run x ev He) as Hrun.
  destruct Hrun as [Hres Hms (native & current & permitted & Hnat & Hcur & Hperm & Hdec) Hm _].
  destruct (decide_request_ge _ _ _ Hdec) as (Hge & _ & _).
  assert (action (decision_plane ev) = block → minimum_action ev = Floor_BLOCK) as Hplane.
  { intros Ha. rewrite Hm, Ha. apply stronger_floor_block. by right. }
  split_and!.
  - intros Hu. rewrite Hm. apply stronger_floor_block. left.
    destruct (rules_minimum_ge x (discharge_in x (control_resolution ev))) as (_ & H2 & _).
    rewrite (H2 Hu). by case_match.
  - intros Hb. apply native_factors_cases in Hnat as (_ & _ & Hx).
    apply Exists_exists in Hx as (f & Hf & Hbl); [|done].
    assert (action (decision_plane ev) = block) as Ha; [|by split; [apply Hplane|]].
    apply severity_at_least_block. rewrite <- Hbl. apply Hge. apply elem_of_app. by left.
  - intros Hb Hwhy.
    assert (closes x (control_resolution ev) = true) as Hcl.
    { unfold closes, applies_fail_closed. rewrite Hb. simpl. rewrite !orb_true_iff.
      destruct Hwhy as [->|[Hex|Hne]].
      - by repeat left.
      - repeat left. apply negb_true_iff, andb_false_iff. right. apply not_true_iff_false.
        intros Hall%forallb_Forall. apply Exists_exists in Hex as (g & Hg & Hne).
        rewrite Forall_forall in Hall. specialize (Hall g Hg). by apply bool_decide_eq_true in Hall.
      - do 5 left. right. by rewrite bool_decide_eq_false_2. }
    pose proof (closes_blocks x _ Hres Hcl) as Hne.
    destruct (res_factors (control_resolution ev)) as [|f fs] eqn:Ef; [done|].
    assert (action (decision_plane ev) = block) as Ha; [|by split; [apply Hplane|]].
    apply severity_at_least_block.
    destruct (control_factors_ok x _ f Hres) as (_ & _ & Hbl); [rewrite Hcl, ?Ef; left|].
    rewrite <- Hbl. apply Hge. rewrite !elem_of_app. rewrite Hcl. do 5 right. left. rewrite ?Ef. left.
Qed.

(** the public floor is never below its parts: not below what the decision
    plane decided, nor below the floor of a match that nothing discharged; and
    the controlling rule is one of the matches. *)
Theorem evaluation_floor_covers (x : evaluation_context) (ev : CompositeCommandEvaluation) :
  evaluate_context x = Ok ev →
  FLOOR_RANK (decision_action_floor (action (decision_plane ev))) <= FLOOR_RANK (minimum_action ev) ∧
  (∀ m, m ∈ evaluation_matches ev →
     CommandCatalog.rule_id (owned_rule m) ∉ discharged_ids (discharge_in x (control_resolution ev)) →
     FLOOR_RANK (owned_floor m) <= FLOOR_RANK (minimum_action ev)) ∧
  (∀ r, evaluation_controlling_rule_id ev = Some r →
     r ∈ (λ m, CommandCatalog.rule_id (owned_rule m)) <$> evaluation_matches ev).
Proof.
  intros He. pose proof (evaluate_context_run x ev He) as [_ Hms _ Hm (ctl & Hctl & Hid)].
  destruct (rules_minimum_ge x (discharge_in x (control_resolution ev))) as (H1 & _ & _).
  rewrite Hm, stronger_floor_rank. split_and!; [lia | |].
  - intros m Hin Hnot. rewrite Hms in Hin. pose proof (matches_floor_ge _ _ m Hin Hnot).
    case_match; rewrite ?stronger_floor_rank; lia.
  - intros r Hr. rewrite Hid in Hr. destruct ctl as [m|]; [|done]. injection Hr as <-.
    rewrite Hms. apply list_elem_of_fmap. exists m. split; [done | by apply controlling_match_elem].
Qed.

End run.

(** ** Instances *)

Section samples.
Local Instance evaluation_unicode : PyUnicode := ascii_unicode.

(** Analyses that find nothing. *)
Local Instance no_analyses : CommandAnalyses.
Proof.
  refine {| direct_github_permission_ids := λ _, []; contained_routine_candidate_factor := λ _, None;
    verified_read_candidate_factor := λ _, None; workspace_write_candidate_factors := λ _, [];
    shell_read_floor_factors := λ _ _, []; command_critical_floor_factors := λ _ _ _, [];
    risk_classes_for_command_action := λ _, [] |}; by intros; set_solver.
Defined.

Definition sample_command : CanonicalCommand :=
  {| normalized_text := $"git push"; security_identity := $"guard:v1:abc"; confidence := parse_exact;
     uncertainty_reason := None; redirect_operators := [] |}.
Definition sample_native (observations : list pyval) (minimum : pystr) (benign : bool) : pyval :=
  PDict [($"command_model", PDict [($"normalized_text", PStr ($"git push"))]);
         ($"command_extensions", sample_command_extensions observations);
         ($"minimum_action", PStr minimum); ($"explicitly_benign", PBool benign)].
Notation sample_evaluate value :=
  (evaluate_command [] ($"git push") (Some sample_command) None None None sample_registry (Some value)
    None (Some sample_snapshot) None).
Definition sample_benign : pyval := sample_native [] ($"allow") true.
Definition sample_push : pyval := sample_native [observation_to_dict sample_observation] ($"review") false.

Lemma sample_benign_allows :
  match sample_evaluate sample_benign with Ok ev => bool_decide (minimum_action ev = Floor_ALLOW) | Raise _ => false end
  = true.
Proof. vm_compute. reflexivity. Qed.

(** The local administrator's layer disables the extension of the match. *)
Lemma sample_push_blocked :
  match sample_evaluate sample_push with
  | Ok ev => bool_decide (minimum_action ev = Floor_BLOCK) && blocked (control_resolution ev)
             && bool_decide (failures (control_resolution ev) = [])
             && bool_decide (length (evaluation_matches ev) = 1%nat)
  | Raise _ => false
  end = true.
Proof. vm_compute. reflexivity. Qed.

Lemma sample_push_returns : ∃ ev, sample_evaluate sample_push = Ok ev ∧ blocked (control_resolution ev) = true ∧
  failures (control_resolution ev) = [].
Proof.
  pose proof sample_push_blocked as Hs. destruct (sample_evaluate sample_push) as [ev|]; [|discriminate Hs].
  exists ev. apply andb_true_iff in Hs as [[[_ Hb]%andb_true_iff Hf]%andb_true_iff _].
  apply bool_decide_eq_true in Hf. split; [reflexivity | split; assumption].
Qed.

Lemma sample_benign_returns : ∃ ev, sample_evaluate sample_benign = Ok ev ∧ minimum_action ev = Floor_ALLOW.
Proof.
  pose proof sample_benign_allows as Hs. destruct (sample_evaluate sample_benign) as [ev|]; [|discriminate Hs].
  exists ev. apply bool_decide_eq_true in Hs. split; [reflexivity | assumption].
Qed.

Lemma silent_evaluation_witness : ∃ ev,
  sample_evaluate sample_benign = Ok ev ∧ action (decision_plane ev) = allow.
Proof.
  destruct sample_benign_returns as (ev & Hev & Hmin). exists ev. split; [exact Hev|].
  destruct (silent_evaluation_justified _ _ _ _ _ _ _ _ _ _ _ ev Hev Hmin)
    as (x & projected & validated & _ & _ & _ & _ & _ & _ & _ & _ & _ & _ & _ & Ha & _).
  exact Ha.
Defined.

Lemma sample_push_context : ∃ x ev, evaluate_context x = Ok ev ∧ blocked (control_resolution ev) = true ∧
  failures (control_resolution ev) = [].
Proof.
  destruct sample_push_returns as (ev & Hev & Hb & Hf).
  destruct (evaluate_command_context _ _ _ _ _ _ _ _ _ _ _ _ Hev) as (x & _ & _ & _ & _ & _ & _ & _ & _ & _ & _ & He).
  exists x, ev. split; [assumption | split; assumption].
Qed.

Lemma evaluation_fails_closed_witness : ∃ x ev,
  evaluate_context x = Ok ev ∧ minimum_action ev = Floor_BLOCK ∧ action (decision_plane ev) = block.
Proof.
  destruct sample_push_context as (x & ev & He & Hb & Hf). exists x, ev. split; [exact He|].
  exact (proj2 (proj2 (evaluation_fails_closed x ev He)) Hb (or_introl Hf)).
Defined.

Lemma evaluation_floor_witness : ∃ x ev, evaluate_context x = Ok ev ∧
  FLOOR_RANK (decision_action_floor (action (decision_plane ev))) <= FLOOR_RANK (minimum_action ev).
Proof.
  destruct sample_push_context as (x & ev & He & _). exists x, ev. split; [exact He|].
  exact (proj1 (evaluation_floor_covers x ev He)).
Defined.

End samples.

End Evaluation.
