(* ===== verification/NativeResilience.v ===== *)
(** * Native runtime resilience

    Models [native_runtime_resilience.py]: the process-local health table of
    the native runtime (an ordered dictionary of at most 128 entries, evicted
    from the least recently used end but never while a one-shot call is in
    flight), the circuit breaker of each entry, permanent quarantine, and the
    one-shot leases under a process-wide bounded semaphore.

    Times are integers in nanoseconds; [float("inf")] is [Inf].  The critical
    sections of [_STATE_LOCK] are functions on the table, and the threads of
    [native_oneshot_lease] interleave between them: [step] is one critical
    section or one semaphore operation of some thread.  An entry evicted by
    its own insertion is still written to by the section that inserted it, but
    no longer reachable from the table.  [str.isalnum] of one character is the
    parameter [isalnum]; the bytes of the resolved home directory come from
    the file system and are an argument. *)

From S2P Require Import Prelude PyStr Sha256 PyVal.
Local Open Scope Z_scope.
Local Open Scope py_scope.

Module Resilience.

Definition MAX_HEALTH_ENTRIES : nat := 128.
Definition CIRCUIT_FAILURE_THRESHOLD : Z := 3.
Definition CIRCUIT_COOLDOWN : Z := 15000000000.
Definition ONESHOT_RETRY_COOLDOWN : Z := 50000000.
Definition GLOBAL_ONESHOT_LIMIT : Z := 2.
Definition REASON_MAX_LENGTH : nat := 96.
Definition REASON_CHARACTERS : list Z := [95; 45; 46].

(** A time, or [float("inf")]. *)
Inductive deadline := At (t : Z) | Inf.
Global Instance deadline_eq_dec : EqDecision deadline.
Proof. solve_decision. Defined.

(** [now < d] and [d <= 0] *)
Definition before (now : Z) (d : deadline) : bool := match d with At t => now <? t | Inf => true end.
Definition unset (d : deadline) : bool := match d with At t => t <=? 0 | Inf => false end.

(** [_MutableNativeRuntimeHealth] *)
Record health := {
  state : pystr;
  reason : pystr;
  consecutive_failures : Z;
  resident_failures : Z;
  oneshot_failures : Z;
  overloads : Z;
  starts : Z;
  restarts : Z;
  circuit_until : deadline;
  permanently_quarantined : bool;
  oneshot_in_flight : bool;
  next_oneshot_allowed_at : Z;
}.
Global Instance health_eq_dec : EqDecision health.
Proof. solve_decision. Defined.

Definition fresh : health :=
  {| state := $"unknown"; reason := $"native_state_uninitialized"; consecutive_failures := 0;
     resident_failures := 0; oneshot_failures := 0; overloads := 0; starts := 0; restarts := 0;
     circuit_until := At 0; permanently_quarantined := false; oneshot_in_flight := false;
     next_oneshot_allowed_at := 0 |}.

(** Assignments to fields. *)
Definition set_phase (s r : pystr) (h : health) : health :=
  {| state := s; reason := r; consecutive_failures := consecutive_failures h;
     resident_failures := resident_failures h; oneshot_failures := oneshot_failures h;
     overloads := overloads h; starts := starts h; restarts := restarts h;
     circuit_until := circuit_until h; permanently_quarantined := permanently_quarantined h;
     oneshot_in_flight := oneshot_in_flight h; next_oneshot_allowed_at := next_oneshot_allowed_at h |}.
Definition set_circuit (failures : Z) (until : deadline) (h : health) : health :=
  {| state := state h; reason := reason h; consecutive_failures := failures;
     resident_failures := resident_failures h; oneshot_failures := oneshot_failures h;
     overloads := overloads h; starts := starts h; restarts := restarts h;
     circuit_until := until; permanently_quarantined := permanently_quarantined h;
     oneshot_in_flight := oneshot_in_flight h; next_oneshot_allowed_at := next_oneshot_allowed_at h |}.
Definition add_counts (resident oneshot over start restart : Z) (h : health) : health :=
  {| state := state h; reason := reason h; consecutive_failures := consecutive_failures h;
     resident_failures := resident_failures h + resident;
     oneshot_failures := oneshot_failures h + oneshot; overloads := overloads h + over;
     starts := starts h + start; restarts := restarts h + restart;
     circuit_until := circuit_until h; permanently_quarantined := permanently_quarantined h;
     oneshot_in_flight := oneshot_in_flight h; next_oneshot_allowed_at := next_oneshot_allowed_at h |}.
Definition set_quarantined (h : health) : health :=
  {| state := state h; reason := reason h; consecutive_failures := consecutive_failures h;
     resident_failures := resident_failures h; oneshot_failures := oneshot_failures h;
     overloads := overloads h; starts := starts h; restarts := restarts h;
     circuit_until := circuit_until h; permanently_quarantined := true;
     oneshot_in_flight := oneshot_in_flight h; next_oneshot_allowed_at := next_oneshot_allowed_at h |}.
Definition set_flight (flight : bool) (next : Z) (h : health) : health :=
  {| state := state h; reason := reason h; consecutive_failures := consecutive_failures h;
     resident_failures := resident_failures h; oneshot_failures := oneshot_failures h;
     overloads := overloads h; starts := starts h; restarts := restarts h;
     circuit_until := circuit_until h; permanently_quarantined := permanently_quarantined h;
     oneshot_in_flight := flight; next_oneshot_allowed_at := next |}.

(** ** The health table *)

Notation table := (list (pystr * health)).

(** [_privacy_safe_key]; [home] holds the encoded path. *)
Definition privacy_safe_key (identity_sha256 : pystr) (home : list Z) : pystr :=
  sha256_hex (take 128 (filter (λ c, c < 128) identity_sha256) ++ [0] ++ home).

(** The first entry, in order of use, with no one-shot call in flight. *)
Fixpoint first_idle (t : table) : option pystr :=
  match t with
  | [] => None
  | (k, h) :: t => if oneshot_in_flight h then first_idle t else Some k
  end.

Fixpoint evict_loop (fuel : nat) (t : table) : table :=
  match fuel with
  | O => t
  | S fuel =>
      if (length t <=? MAX_HEALTH_ENTRIES)%nat then t
      else match first_idle t with
           | Some k => evict_loop fuel (dict_pop k t)
           | None => t
           end
  end.
(** Each turn removes an entry: as many turns as entries are enough. *)
Definition evict_if_needed (t : table) : table := evict_loop (length t) t.

(** [_state]: the table after the call, and the entry. *)
Definition state_of (k : pystr) (t : table) : table * health :=
  match dict_lookup k t with
  | None => (evict_if_needed (dict_set k fresh t), fresh)
  | Some h => (dict_set k h (dict_pop k t), h)
  end.

(** The entry is an object the table shares: what is assigned to it shows in
    the table while the entry is still there. *)
Definition write_back (k : pystr) (h : health) (t : table) : table :=
  match dict_lookup k t with Some _ => dict_set k h t | None => t end.
Definition with_state (k : pystr) (f : health → health) (t : table) : table :=
  let '(t, h) := state_of k t in write_back k (f h) t.

(** ** The circuit *)

Section operations.
Context `{PyUnicode} (isalnum : Z → bool).

Definition public_reason (r fallback : pystr) : pystr :=
  let candidate := take REASON_MAX_LENGTH (py_lower (strip r)) in
  if negb (bool_decide (candidate = []))
     && forallb (λ c, isalnum c || py_in c REASON_CHARACTERS) candidate
  then candidate else fallback.

Definition refresh_circuit (now : Z) (h : health) : health :=
  if permanently_quarantined h || unset (circuit_until h) || before now (circuit_until h) then h
  else set_phase ($"recovering") ($"native_circuit_half_open")
         (set_circuit (Z.max 0 (CIRCUIT_FAILURE_THRESHOLD - 1)) (At 0) h).

Definition record_failure (r fallback : pystr) (now : Z) (h : health) : health :=
  if permanently_quarantined h then h
  else
    let failures := consecutive_failures h + 1 in
    if CIRCUIT_FAILURE_THRESHOLD <=? failures
    then set_phase ($"circuit_open") ($"native_circuit_open")
           (set_circuit failures (At (now + CIRCUIT_COOLDOWN)) h)
    else set_phase ($"degraded") (public_reason r fallback) (set_circuit failures (circuit_until h) h).

(** [if state.permanently_quarantined: return] *)
Definition unless_quarantined (f : health → health) (h : health) : health :=
  if permanently_quarantined h then h else f h.

Definition native_record_starting (k : pystr) : table → table :=
  with_state k (unless_quarantined (λ h,
    set_phase ($"starting") ($"native_starting") (add_counts 0 0 0 1 0 h))).
Definition native_record_restart (k : pystr) : table → table :=
  with_state k (unless_quarantined (λ h,
    set_phase ($"recovering") ($"native_recovering") (add_counts 0 0 0 0 1 h))).
Definition native_record_resident_success (k : pystr) : table → table :=
  with_state k (unless_quarantined (λ h,
    set_circuit 0 (At 0) (set_phase ($"healthy") ($"native_ready") h))).
Definition native_record_resident_failure (r : pystr) (now : Z) (k : pystr) : table → table :=
  with_state k (λ h, record_failure r ($"native_resident_failed") now (add_counts 1 0 0 0 0 h)).
Definition native_record_oneshot_success (k : pystr) : table → table :=
  with_state k (unless_quarantined (λ h,
    set_circuit 0 (At 0) (set_phase ($"degraded") ($"native_oneshot_fallback") h))).
Definition native_record_oneshot_failure (r : pystr) (now : Z) (k : pystr) : table → table :=
  with_state k (λ h, record_failure r ($"native_oneshot_failed") now (add_counts 0 1 0 0 0 h)).
Definition native_record_overload (k : pystr) : table → table :=
  with_state k (unless_quarantined (λ h,
    set_phase ($"overloaded") ($"native_overloaded") (add_counts 0 0 1 0 0 h))).
Definition native_record_integrity_failure (r : pystr) (k : pystr) : table → table :=
  with_state k (λ h,
    set_circuit (Z.max (consecutive_failures h) CIRCUIT_FAILURE_THRESHOLD) Inf
      (set_quarantined (set_phase ($"quarantined") (public_reason r ($"native_integrity_failed")) h))).

Record NativeRuntimeHealthSnapshot := {
  snap_state : pystr;
  snap_reason : pystr;
  circuit_open : bool;
  snap_consecutive_failures : Z;
  snap_resident_failures : Z;
  snap_oneshot_failures : Z;
  snap_overloads : Z;
  snap_starts : Z;
  snap_restarts : Z;
  cooldown_remaining_ms : Z;
}.

(** [round(seconds, 3)], half to even, of a time in nanoseconds. *)
Definition round_ms (ns : Z) : Z :=
  let q := ns / 1000000 in
  let r := 2 * (ns mod 1000000) in
  if (r <? 1000000) || ((r =? 1000000) && Z.even q) then q else q + 1.

Definition is_open (now : Z) (h : health) : bool :=
  permanently_quarantined h || before now (circuit_until h).
Definition cooldown (now : Z) (h : health) : Z :=
  if permanently_quarantined h then CIRCUIT_COOLDOWN
  else match circuit_until h with At t => Z.max 0 (t - now) | Inf => 0 end.

Definition snapshot_of (now : Z) (h : health) : NativeRuntimeHealthSnapshot :=
  {| snap_state := state h; snap_reason := reason h; circuit_open := is_open now h;
     snap_consecutive_failures := consecutive_failures h;
     snap_resident_failures := resident_failures h; snap_oneshot_failures := oneshot_failures h;
     snap_overloads := overloads h; snap_starts := starts h; snap_restarts := restarts h;
     cooldown_remaining_ms := round_ms (cooldown now h) |}.

Definition native_runtime_health_snapshot (k : pystr) (now : Z) (t : table)
    : table * NativeRuntimeHealthSnapshot :=
  let '(t, h) := state_of k t in
  let h := refresh_circuit now h in
  (write_back k h t, snapshot_of now h).

(** ** One-shot leases *)

(** The first critical section: the table, and [acquired_key]. *)
Definition lease_enter (k : pystr) (now : Z) (t : table) : table * bool :=
  let '(t, h) := state_of k t in
  let h := refresh_circuit now h in
  if negb (is_open now h) && negb (oneshot_in_flight h) && (next_oneshot_allowed_at h <=? now)
  then (write_back k (set_flight true (now + ONESHOT_RETRY_COOLDOWN) h) t, true)
  else (write_back k h t, false).

(** [_GLOBAL_ONESHOT.acquire(blocking=False)] and [.release()] *)
Definition semaphore_acquire (available : Z) : option Z :=
  if 0 <? available then Some (available - 1) else None.
Definition semaphore_release (available : Z) : result Z :=
  raise_if (GLOBAL_ONESHOT_LIMIT <=? available) (ValueError "Semaphore released too many times") ;;
  Ok (available + 1).

(** [current = _STATES.get(key); if current is not None: ...] *)
Definition lease_refused (k : pystr) (t : table) : table :=
  match dict_lookup k t with
  | None => t
  | Some h => dict_set k (set_phase ($"overloaded") ($"native_oneshot_capacity")
                (add_counts 0 0 1 0 0 (set_flight false (next_oneshot_allowed_at h) h))) t
  end.
Definition lease_exit (k : pystr) (t : table) : table :=
  match dict_lookup k t with
  | None => t
  | Some h => dict_set k (set_flight false (next_oneshot_allowed_at h) h) t
  end.

(** [with native_oneshot_lease(...) as granted:] with no other thread between
    its sections: the table and the semaphore as the body starts, and
    [granted]. *)
Definition native_oneshot_lease (k : pystr) (now : Z) (t : table) (available : Z) : table * Z * bool :=
  let '(t, acquired) := lease_enter k now t in
  if acquired then
    match semaphore_acquire available with
    | Some available => (t, available, true)
    | None => (lease_refused k t, available, false)
    end
  else (t, available, false).

(** ** Threads *)

(** A call of [native_oneshot_lease] between two of its sections: it set the
    entry's flag; it got no slot; its body runs with the lease; it returned
    the slot.  A call refused at once does nothing more. *)
Inductive lease_call := Entered (k : pystr) | Refused (k : pystr) | Holding (k : pystr) | Returned (k : pystr).
Definition call_key (c : lease_call) : pystr :=
  match c with Entered k | Refused k | Holding k | Returned k => k end.
Definition is_holding (c : lease_call) : bool := match c with Holding _ => true | _ => false end.

Inductive operation :=
  | Starting | Restart | Resident_success | Resident_failure (r : pystr) | Oneshot_success
  | Oneshot_failure (r : pystr) | Overload | Integrity_failure (r : pystr) | Snapshot.

Definition run_operation (op : operation) (k : pystr) (now : Z) (t : table) : table :=
  match op with
  | Starting => native_record_starting k t
  | Restart => native_record_restart k t
  | Resident_success => native_record_resident_success k t
  | Resident_failure r => native_record_resident_failure r now k t
  | Oneshot_success => native_record_oneshot_success k t
  | Oneshot_failure r => native_record_oneshot_failure r now k t
  | Overload => native_record_overload k t
  | Integrity_failure r => native_record_integrity_failure r k t
  | Snapshot => (native_runtime_health_snapshot k now t).1
  end.

Record system := {
  states : table;
  available : Z;
  calls : list lease_call;
  clock : Z;
}.

Definition initial (now : Z) : system :=
  {| states := []; available := GLOBAL_ONESHOT_LIMIT; calls := []; clock := now |}.

Inductive step : system → system → Prop :=
  | step_operation s op k now :
      clock s <= now →
      step s {| states := run_operation op k now (states s); available := available s;
                calls := calls s; clock := now |}
  | step_enter s k now t acquired :
      clock s <= now → lease_enter k now (states s) = (t, acquired) →
      step s {| states := t; available := available s;
                calls := if acquired : bool then Entered k :: calls s else calls s; clock := now |}
  | step_acquire s k a c1 c2 :
      calls s = c1 ++ Entered k :: c2 → semaphore_acquire (available s) = Some a →
      step s {| states := states s; available := a; calls := c1 ++ Holding k :: c2; clock := clock s |}
  | step_full s k c1 c2 :
      calls s = c1 ++ Entered k :: c2 → semaphore_acquire (available s) = None →
      step s {| states := states s; available := available s; calls := c1 ++ Refused k :: c2;
                clock := clock s |}
  | step_refused s k c1 c2 :
      calls s = c1 ++ Refused k :: c2 →
      step s {| states := lease_refused k (states s); available := available s; calls := c1 ++ c2;
                clock := clock s |}
  | step_release s k a c1 c2 :
      calls s = c1 ++ Holding k :: c2 → semaphore_release (available s) = Ok a →
      step s {| states := states s; available := a; calls := c1 ++ Returned k :: c2; clock := clock s |}
  | step_exit s k c1 c2 :
      calls s = c1 ++ Returned k :: c2 →
      step s {| states := lease_exit k (states s); available := available s; calls := c1 ++ c2;
                clock := clock s |}.

(** ** Lemmas on the table *)

(** A table as the code keeps it. *)
Definition bounded (t : table) : Prop :=
  NoDup (dict_keys t) ∧ (length t <= MAX_HEALTH_ENTRIES)%nat.

Lemma dict_set_absent {V} k (v : V) (t : list (pystr * V)) :
  dict_lookup k t = None → dict_set k v t = t ++ [(k, v)].
Proof.
  induction t as [|[k' v'] t IH]; simpl; [done|]. case_decide; [done|]. intros ?. by rewrite IH.
Qed.

Lemma length_dict_set_present {V} k (v w : V) (t : list (pystr * V)) :
  dict_lookup k t = Some w → length (dict_set k v t) = length t.
Proof.
  induction t as [|[k' v'] t IH]; simpl; [done|]. case_decide; simpl; [done|]. intros ?. by rewrite IH.
Qed.

Lemma dict_pop_absent {V} k (t : list (pystr * V)) : dict_lookup k t = None → dict_pop k t = t.
Proof. induction t as [|[k' v'] t IH]; simpl; [done|]. case_decide; [done|]. intros ?. by rewrite IH. Qed.

Lemma length_dict_pop {V} k (v : V) (t : list (pystr * V)) :
  NoDup (dict_keys t) → dict_lookup k t = Some v → S (length (dict_pop k t)) = length t.
Proof.
  induction t as [|[k' v'] t IH]; simpl; [done|]. intros [Hn Hd]%NoDup_cons Hl.
  case_decide as E; simpl.
  - subst. by rewrite dict_pop_absent by by apply dict_lookup_None.
  - by rewrite IH.
Qed.

Lemma first_idle_Some t k :
  first_idle t = Some k → NoDup (dict_keys t) →
  ∃ h, dict_lookup k t = Some h ∧ oneshot_in_flight h = false.
Proof.
  induction t as [|[k' h'] t IH]; simpl; [done|].
  destruct (oneshot_in_flight h') eqn:E.
  - intros Hf [Hn Hd]%NoDup_cons. destruct (IH Hf Hd) as (h & Hl & Hh). exists h.
    rewrite decide_False; [done|]. intros ->. by apply dict_lookup_None in Hn; congruence.
  - intros [= ->] _. exists h'. by rewrite decide_True.
Qed.

Lemma first_idle_app t u :
  first_idle (t ++ u) = match first_idle t with Some k => Some k | None => first_idle u end.
Proof. induction t as [|[k h] t IH]; simpl; [done|]. by destruct (oneshot_in_flight h). Qed.

Lemma first_idle_None t :
  first_idle t = None ↔ filter (λ x, oneshot_in_flight x.2 = true) t = t.
Proof.
  induction t as [|[k h] t IH]; [done|]. rewrite filter_cons. simpl.
  destruct (oneshot_in_flight h); simpl.
  - rewrite IH. split; [by intros -> | by intros [=]].
  - split; [done|]. intros E. apply (f_equal length) in E.
    pose proof (length_filter (λ x : pystr * health, oneshot_in_flight x.2 = true) t). simpl in *. lia.
Qed.

Lemma evict_loop_small fuel t : (length t <= MAX_HEALTH_ENTRIES)%nat → evict_loop fuel t = t.
Proof. intros Hl. destruct fuel; simpl; [done|]. by rewrite (proj2 (Nat.leb_le _ _) Hl). Qed.

(** Inserting a fresh entry in a full table evicts one idle entry, possibly the
    new one, and never more. *)
Lemma evict_insert t k :
  bounded t → dict_lookup k t = None →
  (evict_if_needed (dict_set k fresh t) = dict_set k fresh t ∧ (length t < MAX_HEALTH_ENTRIES)%nat) ∨
  (∃ v, first_idle t = Some v ∧ evict_if_needed (dict_set k fresh t) = dict_pop v (dict_set k fresh t) ∧
        length (dict_pop v (dict_set k fresh t)) = length t ∧ v ≠ k ∧ length t = MAX_HEALTH_ENTRIES) ∨
  (first_idle t = None ∧ length t = MAX_HEALTH_ENTRIES ∧ evict_if_needed (dict_set k fresh t) = t).
Proof.
  intros [Hd Hl] Hk. unfold evict_if_needed. rewrite dict_set_absent by done.
  rewrite length_app. cbn [length]. rewrite Nat.add_1_r. cbn [evict_loop].
  rewrite length_app. cbn [length]. rewrite Nat.add_1_r.
  assert (NoDup (dict_keys (t ++ [(k, fresh)]))) as Hd'.
  { rewrite <- (dict_set_absent k fresh) by done. by apply NoDup_dict_set. }
  destruct (Nat.leb_spec (S (length t)) MAX_HEALTH_ENTRIES); [left; split; [done | lia]|]. right.
  rewrite first_idle_app. destruct (first_idle t) as [v|] eqn:Hv.
  - left. exists v. destruct (first_idle_Some t v Hv Hd) as (h & Hh & _).
    assert (v ≠ k) as Hne by congruence.
    assert (length (dict_pop v (t ++ [(k, fresh)])) = length t) as Hlen.
    { apply Nat.succ_inj. rewrite (length_dict_pop v h); [rewrite length_app; simpl; lia | done |].
      rewrite <- (dict_set_absent k fresh) by done. by rewrite dict_lookup_set_ne. }
    split_and!; try done; [apply evict_loop_small; lia | unfold MAX_HEALTH_ENTRIES in *; lia].
  - right. split; [done|]. split; [unfold MAX_HEALTH_ENTRIES in *; lia|].
    cbn [first_idle oneshot_in_flight fresh].
    rewrite <- (dict_set_absent k fresh), <- (dict_pop_absent k t) at 1 by done.
    assert (dict_pop k (dict_set k fresh t) = t) as ->.
    { rewrite dict_set_absent by done. clear -Hk. induction t as [|[k' h'] t IH]; simpl in *.
      - by rewrite decide_True. - case_decide; [done|]. by rewrite IH. }
    rewrite dict_pop_absent by done. by apply evict_loop_small.
Qed.

(** What [_state] does to a table: it keeps the bound, changes no other entry,
    and evicts idle entries only; the entry itself stays unless every other one
    of a full table is in flight. *)
Lemma state_of_spec k t t' h :
  bounded t → state_of k t = (t', h) →
  bounded t' ∧ h = default fresh (dict_lookup k t) ∧
  (dict_lookup k t' = Some h ∨
   (dict_lookup k t' = None ∧ dict_lookup k t = None ∧ first_idle t = None ∧ length t = MAX_HEALTH_ENTRIES)) ∧
  (∀ j, j ≠ k → dict_lookup j t' = dict_lookup j t ∨
     (dict_lookup j t' = None ∧ length t = MAX_HEALTH_ENTRIES ∧ ∃ g, dict_lookup j t = Some g ∧ oneshot_in_flight g = false)).
Proof.
  intros [Hd Hl] Hs. unfold state_of in Hs. destruct (dict_lookup k t) as [g|] eqn:Hk; injection Hs as <- <-.
  - split_and!; [split| done | left; apply dict_lookup_set_eq | intros j Hj; left].
    + by apply NoDup_dict_set, NoDup_dict_pop.
    + rewrite dict_set_absent by apply dict_lookup_pop_eq. rewrite length_app. simpl.
      pose proof (length_dict_pop k g t Hd Hk). lia.
    + by rewrite dict_lookup_set_ne, dict_lookup_pop_ne.
  - destruct (evict_insert t k (conj Hd Hl) Hk) as [[-> Hlt] | [(v & Hv & -> & Hlen & Hne & Hmax) | (Hn & Hfull & ->)]].
    + split_and!; [split| done | left; apply dict_lookup_set_eq | intros j Hj; left; by apply dict_lookup_set_ne].
      * by apply NoDup_dict_set.
      * rewrite dict_set_absent, length_app by done. simpl. lia.
    + destruct (first_idle_Some t v Hv Hd) as (g & Hg & Hfl).
      split_and!; [split; [by apply NoDup_dict_pop, NoDup_dict_set | lia] | done | left |].
      * rewrite dict_lookup_pop_ne by done. apply dict_lookup_set_eq.
      * intros j Hj. destruct (decide (v = j)) as [<-|].
        -- right. split; [apply dict_lookup_pop_eq | eauto].
        -- left. by rewrite dict_lookup_pop_ne, dict_lookup_set_ne.
    + split_and!; [done | done | by right | by left].
Qed.

Lemma write_back_spec k h t :
  bounded t →
  bounded (write_back k h t) ∧
  dict_lookup k (write_back k h t) = (if dict_lookup k t then Some h else None) ∧
  ∀ j, j ≠ k → dict_lookup j (write_back k h t) = dict_lookup j t.
Proof.
  intros [Hd Hl]. unfold write_back. destruct (dict_lookup k t) as [g|] eqn:Hk; [|done].
  split_and!; [split; [by apply NoDup_dict_set | by rewrite (length_dict_set_present k h g)] | |].
  - apply dict_lookup_set_eq.
  - intros j ?. by apply dict_lookup_set_ne.
Qed.

(** One critical section: the entry [k] becomes [h'], other entries stay or are
    evicted while idle. *)
Record touched (k : pystr) (t t' : table) (h' : health) : Prop := {
  touched_bounded : bounded t';
  touched_key : dict_lookup k t' = Some h' ∨
    (dict_lookup k t' = None ∧ dict_lookup k t = None ∧ first_idle t = None ∧ length t = MAX_HEALTH_ENTRIES);
  touched_other j : j ≠ k → dict_lookup j t' = dict_lookup j t ∨
    (dict_lookup j t' = None ∧ length t = MAX_HEALTH_ENTRIES ∧ ∃ g, dict_lookup j t = Some g ∧ oneshot_in_flight g = false);
}.

Lemma section_touched k t t1 h h' :
  bounded t → state_of k t = (t1, h) → touched k t (write_back k h' t1) h'.
Proof.
  intros Hb Hs. destruct (state_of_spec _ _ _ _ Hb Hs) as (Hb1 & _ & Hk & Ho).
  destruct (write_back_spec k h' t1 Hb1) as (Hb2 & Hk2 & Ho2). split; [done | |].
  - rewrite Hk2. destruct Hk as [->|(-> & ?)]; [by left | by right].
  - intros j Hj. rewrite Ho2 by done. by apply Ho.
Qed.

Lemma with_state_touched k f t :
  bounded t → touched k t (with_state k f t) (f (default fresh (dict_lookup k t))).
Proof.
  intros Hb. unfold with_state. destruct (state_of k t) as [t1 h] eqn:Hs.
  pose proof (state_of_spec _ _ _ _ Hb Hs) as (_ & -> & _). by eapply section_touched.
Qed.

(** Every operation of the interface is one critical section that leaves the
    flag of the entry alone. *)
Definition op_entry (op : operation) (now : Z) (h : health) : health :=
  match op with
  | Starting => unless_quarantined (λ h,
      set_phase ($"starting") ($"native_starting") (add_counts 0 0 0 1 0 h)) h
  | Restart => unless_quarantined (λ h,
      set_phase ($"recovering") ($"native_recovering") (add_counts 0 0 0 0 1 h)) h
  | Resident_success => unless_quarantined (λ h,
      set_circuit 0 (At 0) (set_phase ($"healthy") ($"native_ready") h)) h
  | Resident_failure r => record_failure r ($"native_resident_failed") now (add_counts 1 0 0 0 0 h)
  | Oneshot_success => unless_quarantined (λ h,
      set_circuit 0 (At 0) (set_phase ($"degraded") ($"native_oneshot_fallback") h)) h
  | Oneshot_failure r => record_failure r ($"native_oneshot_failed") now (add_counts 0 1 0 0 0 h)
  | Overload => unless_quarantined (λ h,
      set_phase ($"overloaded") ($"native_overloaded") (add_counts 0 0 1 0 0 h)) h
  | Integrity_failure r =>
      set_circuit (Z.max (consecutive_failures h) CIRCUIT_FAILURE_THRESHOLD) Inf
        (set_quarantined (set_phase ($"quarantined") (public_reason r ($"native_integrity_failed")) h))
  | Snapshot => refresh_circuit now h
  end.

Lemma run_operation_with_state op k now t : run_operation op k now t = with_state k (op_entry op now) t.
Proof.
  destruct op; try done. simpl. unfold native_runtime_health_snapshot, with_state.
  by destruct (state_of k t).
Qed.

Lemma op_entry_flight op now h : oneshot_in_flight (op_entry op now h) = oneshot_in_flight h.
Proof.
  destruct op; simpl; unfold unless_quarantined, record_failure, refresh_circuit; simpl;
    repeat case_match; done.
Qed.

Lemma lease_enter_touched k now t t' acquired :
  bounded t → lease_enter k now t = (t', acquired) →
  let h := refresh_circuit now (default fresh (dict_lookup k t)) in
  acquired = negb (is_open now h) && negb (oneshot_in_flight h) && (next_oneshot_allowed_at h <=? now) ∧
  touched k t t' (if acquired then set_flight true (now + ONESHOT_RETRY_COOLDOWN) h else h).
Proof.
  intros Hb. unfold lease_enter. destruct (state_of k t) as [t1 h] eqn:Hs.
  pose proof (state_of_spec _ _ _ _ Hb Hs) as (_ & -> & _).
  destruct (_ && _) eqn:E; intros [= <- <-]; (split; [done|]); by eapply section_touched.
Qed.

(** *** Calls in flight *)

Definition flying (t : table) (k : pystr) : bool :=
  match dict_lookup k t with Some h => oneshot_in_flight h | None => false end.

Lemma touched_other_flying k t t' h' j : touched k t t' h' → j ≠ k → flying t' j = flying t j.
Proof.
  intros [_ _ Ho] Hne. unfold flying. by destruct (Ho j Hne) as [-> | (-> & _ & g & -> & ->)].
Qed.

Lemma touched_flying k t t' h' j :
  touched k t t' h' → oneshot_in_flight h' = oneshot_in_flight (default fresh (dict_lookup k t)) →
  flying t' j = flying t j.
Proof.
  intros Ht Hf. destruct (decide (j = k)) as [->|Hne]; [|by eapply touched_other_flying].
  unfold flying. destruct (touched_key _ _ _ _ Ht) as [-> | (-> & -> & _)]; [|done].
  by destruct (dict_lookup k t).
Qed.

Lemma touched_takes_off k t t' h' j :
  touched k t t' h' → oneshot_in_flight h' = true →
  ¬ (first_idle t = None ∧ length t = MAX_HEALTH_ENTRIES) →
  flying t' j = bool_decide (j = k) || flying t j.
Proof.
  intros Ht Hf Hroom. case_bool_decide as Hj; [subst | by eapply touched_other_flying].
  unfold flying. by destruct (touched_key _ _ _ _ Ht) as [-> | (_ & _ & ? & ?)]; [|tauto].
Qed.

Lemma set_lands k t h' j :
  oneshot_in_flight h' = false → flying (dict_set k h' t) j = negb (bool_decide (j = k)) && flying t j.
Proof.
  intros Hf. unfold flying. case_bool_decide as Hj; [subst; by rewrite dict_lookup_set_eq|].
  by rewrite dict_lookup_set_ne.
Qed.

Lemma first_idle_None_flying t j : first_idle t = None → j ∈ dict_keys t → flying t j = true.
Proof.
  intros Hf%first_idle_None (h & Hl)%elem_of_dict_keys. unfold flying. rewrite Hl.
  apply dict_lookup_elem in Hl. rewrite <- Hf in Hl. by apply list_elem_of_filter in Hl as [? _].
Qed.

(** With fewer calls than entries a full table has an idle entry. *)
Lemma room_for_one t (cs : list lease_call) :
  bounded t → (∀ k, flying t k = true → k ∈ call_key <$> cs) → (length cs < MAX_HEALTH_ENTRIES)%nat →
  ¬ (first_idle t = None ∧ length t = MAX_HEALTH_ENTRIES).
Proof.
  intros [Hd _] Hfly Hlt [Hn Hlen].
  assert (dict_keys t ⊆+ call_key <$> cs) as Hsub.
  { apply NoDup_submseteq; [done|]. intros j Hj. apply Hfly. by apply first_idle_None_flying. }
  apply submseteq_length in Hsub. unfold dict_keys in Hsub. rewrite !length_fmap in Hsub. lia.
Qed.

(** *** The invariant *)

(** The entry of a runtime at a time: the circuit is set exactly from the third
    failure on, for at most the cooldown; it never closes exactly when the entry
    is quarantined; the retry time is near. *)
Definition entry_ok (now : Z) (h : health) : Prop :=
  0 <= consecutive_failures h ∧
  match circuit_until h with
  | At t => (t = 0 ∧ consecutive_failures h < CIRCUIT_FAILURE_THRESHOLD ∨
             0 < t <= now + CIRCUIT_COOLDOWN ∧ CIRCUIT_FAILURE_THRESHOLD <= consecutive_failures h) ∧
            permanently_quarantined h = false
  | Inf => CIRCUIT_FAILURE_THRESHOLD <= consecutive_failures h ∧ permanently_quarantined h = true
  end ∧
  next_oneshot_allowed_at h <= now + ONESHOT_RETRY_COOLDOWN.

Lemma entry_ok_fresh now : 0 <= now → entry_ok now fresh.
Proof.
  intros ?. unfold entry_ok, CIRCUIT_FAILURE_THRESHOLD, ONESHOT_RETRY_COOLDOWN. simpl.
  split_and!; [lia | left; lia | done | lia].
Qed.

Lemma entry_ok_later now now' h : entry_ok now h → now <= now' → entry_ok now' h.
Proof.
  intros (H1 & H2 & H3) Hle. unfold entry_ok. split_and!; [done | | lia].
  destruct (circuit_until h); [|done]. destruct H2 as [[?|?] ?]; split; [left; lia | done | right; lia | done].
Qed.

Lemma refresh_circuit_ok now h : entry_ok now h → entry_ok now (refresh_circuit now h).
Proof.
  intros Hok. unfold refresh_circuit. destruct (_ || _ || _) eqn:E; [done|].
  destruct Hok as (? & Hc & ?). split_bool. unfold entry_ok, CIRCUIT_FAILURE_THRESHOLD in *. simpl.
  split_and!; [lia | left; lia | by destruct (circuit_until h) | done].
Qed.

Lemma op_entry_ok op now h : 0 <= now → entry_ok now h → entry_ok now (op_entry op now h).
Proof.
  intros Hnow Hok. destruct op; simpl; try (by apply refresh_circuit_ok);
    unfold unless_quarantined, record_failure; simpl;
    destruct (permanently_quarantined h) eqn:Hq; try done.
  all: try (destruct (Z.leb_spec CIRCUIT_FAILURE_THRESHOLD (consecutive_failures h + 1))).
  all: destruct Hok as (? & Hc & ?); unfold entry_ok, CIRCUIT_FAILURE_THRESHOLD, CIRCUIT_COOLDOWN in *;
    simpl; rewrite ?Hq in *; destruct (circuit_until h); split_and!; try done; try lia.
Qed.

Lemma entry_default_ok now t k :
  0 <= now → (∀ j h, dict_lookup j t = Some h → entry_ok now h) →
  entry_ok now (default fresh (dict_lookup k t)).
Proof. intros ? Ht. destruct (dict_lookup k t) eqn:E; simpl; [eauto | by apply entry_ok_fresh]. Qed.

Lemma touched_entries_ok now k t t' h' :
  touched k t t' h' → (∀ j h, dict_lookup j t = Some h → entry_ok now h) → entry_ok now h' →
  ∀ j h, dict_lookup j t' = Some h → entry_ok now h.
Proof.
  intros [_ Hk Ho] Ht Hh j h Hj. destruct (decide (j = k)) as [->|Hne].
  - destruct Hk as [E | (E & _)]; congruence.
  - destruct (Ho j Hne) as [E | (E & _)]; [rewrite E in Hj; eauto | congruence].
Qed.

Definition holders (cs : list lease_call) : Z :=
  Z.of_nat (length (filter (λ c, is_holding c = true) cs)).

Lemma holders_app c1 c2 : holders (c1 ++ c2) = holders c1 + holders c2.
Proof. unfold holders. rewrite filter_app, length_app. lia. Qed.
Lemma holders_cons c cs : holders (c :: cs) = (if is_holding c then 1 else 0) + holders cs.
Proof. unfold holders. rewrite filter_cons. destruct c; simpl; lia. Qed.
Lemma holders_nonneg cs : 0 <= holders cs.
Proof. unfold holders. lia. Qed.

Record sane (s : system) : Prop := {
  sane_bounded : bounded (states s);
  sane_clock : 0 <= clock s;
  sane_entries k h : dict_lookup k (states s) = Some h → entry_ok (clock s) h;
  sane_slots : available s + holders (calls s) = GLOBAL_ONESHOT_LIMIT;
  sane_available : 0 <= available s;
}.

Lemma dict_set_sane now k h h' t :
  bounded t → (∀ j g, dict_lookup j t = Some g → entry_ok now g) →
  dict_lookup k t = Some h → entry_ok now h' →
  bounded (dict_set k h' t) ∧ ∀ j g, dict_lookup j (dict_set k h' t) = Some g → entry_ok now g.
Proof.
  intros [Hd Hl] Ht Hk Hh. split.
  - split; [by apply NoDup_dict_set | by rewrite (length_dict_set_present k h' h)].
  - intros j g Hj. destruct (decide (k = j)) as [<-|Hne].
    + rewrite dict_lookup_set_eq in Hj. by injection Hj as <-.
    + rewrite dict_lookup_set_ne in Hj by done. eauto.
Qed.

Lemma lease_end_sane now k t :
  bounded t → (∀ j g, dict_lookup j t = Some g → entry_ok now g) →
  (bounded (lease_refused k t) ∧ ∀ j g, dict_lookup j (lease_refused k t) = Some g → entry_ok now g) ∧
  (bounded (lease_exit k t) ∧ ∀ j g, dict_lookup j (lease_exit k t) = Some g → entry_ok now g).
Proof.
  intros Hb Ht. unfold lease_refused, lease_exit. destruct (dict_lookup k t) as [h|] eqn:Hk; [|done].
  pose proof (Ht k h Hk) as Hh. split; eapply dict_set_sane; eauto.
Qed.

Lemma lease_end_lands k t j :
  flying t k = true →
  flying (lease_refused k t) j = negb (bool_decide (j = k)) && flying t j ∧
  flying (lease_exit k t) j = negb (bool_decide (j = k)) && flying t j.
Proof.
  intros Hk. unfold lease_refused, lease_exit. unfold flying in Hk.
  destruct (dict_lookup k t) as [h|]; [|done]. split; by apply set_lands.
Qed.

Lemma step_sane s s' : step s s' → sane s → sane s'.
Proof.
  intros Hstep [Hb Hc He Hs Ha]. destruct Hstep as
    [s op k now Hle | s k now t acquired Hle Hen | s k a c1 c2 Hcs Hacq | s k c1 c2 Hcs Hacq
    | s k c1 c2 Hcs | s k a c1 c2 Hcs Hrel | s k c1 c2 Hcs]; try rewrite Hcs in Hs;
    rewrite ?holders_app, ?holders_cons in Hs; cbn [is_holding] in Hs.
  - assert (∀ j h, dict_lookup j (states s) = Some h → entry_ok now h) as He'
      by (intros j h Hj; eapply entry_ok_later; eauto).
    pose proof (with_state_touched k (op_entry op now) (states s) Hb) as Ht.
    rewrite <- run_operation_with_state in Ht. split; simpl; try done; [apply Ht | lia |].
    eapply touched_entries_ok; [exact Ht | done |].
    apply op_entry_ok; [lia|]. apply entry_default_ok; [lia | done].
  - assert (∀ j h, dict_lookup j (states s) = Some h → entry_ok now h) as He'
      by (intros j h Hj; eapply entry_ok_later; eauto).
    destruct (lease_enter_touched _ _ _ _ _ Hb Hen) as [_ Ht].
    split; simpl; try done; [apply Ht | lia | |].
    + eapply touched_entries_ok; [exact Ht | done |].
      assert (entry_ok now (refresh_circuit now (default fresh (dict_lookup k (states s))))) as Hok
        by (apply refresh_circuit_ok, entry_default_ok; [lia | done]).
      destruct acquired; [|done]. destruct Hok as (? & ? & ?). split_and!; simpl; [done | done | lia].
    + destruct acquired; [rewrite holders_cons|]; done.
  - unfold semaphore_acquire in Hacq. destruct (Z.ltb_spec 0 (available s)); [|done].
    injection Hacq as <-. split; simpl; try done; [rewrite holders_app, holders_cons; simpl; lia | lia].
  - split; simpl; try done. rewrite holders_app, holders_cons; simpl; lia.
  - destruct (lease_end_sane (clock s) k (states s) Hb He) as [[? ?] _].
    split; simpl; try done. rewrite holders_app; lia.
  - unfold semaphore_release in Hrel. apply then_Ok in Hrel as [_ Hrel]. injection Hrel as <-.
    split; simpl; try done; [rewrite holders_app, holders_cons; simpl; lia | lia].
  - destruct (lease_end_sane (clock s) k (states s) Hb He) as [_ [? ?]].
    split; simpl; try done. rewrite holders_app; lia.
Qed.

(** The flags of the table and the running calls correspond one to one. *)
Definition matched (s : system) : Prop :=
  NoDup (call_key <$> calls s) ∧ ∀ k, flying (states s) k = true ↔ k ∈ call_key <$> calls s.

Lemma matched_relabel s s' c c' c1 c2 :
  calls s = c1 ++ c :: c2 → calls s' = c1 ++ c' :: c2 → call_key c' = call_key c →
  states s' = states s → matched s → matched s'.
Proof.
  unfold matched. intros -> -> Hc ->. rewrite !fmap_app, !fmap_cons, Hc. done.
Qed.

Lemma matched_finish s s' c c1 c2 :
  calls s = c1 ++ c :: c2 → calls s' = c1 ++ c2 →
  (∀ j, flying (states s) (call_key c) = true →
    flying (states s') j = negb (bool_decide (j = call_key c)) && flying (states s) j) →
  matched s → matched s'.
Proof.
  unfold matched. intros -> -> Hf [Hd Hm]. rewrite fmap_app, fmap_cons in Hd.
  apply NoDup_app in Hd as (Hd1 & Hx & [Hn Hd2]%NoDup_cons).
  assert (flying (states s) (call_key c) = true) as Hc by (apply Hm; rewrite fmap_app, fmap_cons; set_solver).
  split.
  - rewrite fmap_app. apply NoDup_app. set_solver.
  - intros k. rewrite (Hf k Hc), andb_true_iff, Hm, negb_true_iff, bool_decide_eq_false.
    rewrite !fmap_app, !fmap_cons, !elem_of_app, elem_of_cons.
    split; [tauto|]. intros Hk. split; [|tauto]. intros ->. destruct Hk as [Hk|Hk]; [|done].
    by apply (Hx _ Hk), elem_of_cons; left.
Qed.

Lemma step_matched s s' :
  step s s' → (length (calls s') < MAX_HEALTH_ENTRIES)%nat → sane s → matched s → matched s'.
Proof.
  intros Hstep Hlt Hsane Hm. pose proof (sane_bounded _ Hsane) as Hb. destruct Hstep as
    [s op k now Hle | s k now t acquired Hle Hen | s k a c1 c2 Hcs Hacq | s k c1 c2 Hcs Hacq
    | s k c1 c2 Hcs | s k a c1 c2 Hcs Hrel | s k c1 c2 Hcs]; simpl in *.
  - pose proof (with_state_touched k (op_entry op now) (states s) Hb) as Ht.
    rewrite <- run_operation_with_state in Ht. destruct Hm as [Hd Hf]. split; [done|]. intros j. simpl.
    rewrite (touched_flying _ _ _ _ j Ht); [apply Hf | by rewrite op_entry_flight].
  - destruct (lease_enter_touched _ _ _ _ _ Hb Hen) as [Ha Ht]. destruct Hm as [Hd Hf].
    assert (oneshot_in_flight (refresh_circuit now (default fresh (dict_lookup k (states s))))
            = oneshot_in_flight (default fresh (dict_lookup k (states s)))) as Hfl
      by exact (op_entry_flight Snapshot now _).
    destruct acquired; [|split; [done|]; intros j; simpl; by rewrite (touched_flying _ _ _ _ j Ht Hfl)].
    symmetry in Ha. apply andb_true_iff in Ha as [[_ Hidle]%andb_true_iff _].
    apply negb_true_iff in Hidle. rewrite Hfl in Hidle.
    assert (flying (states s) k = false) as Hk
      by (unfold flying; by destruct (dict_lookup k (states s))).
    split.
    + simpl. apply NoDup_cons. split; [|done]. rewrite <- Hf. by rewrite Hk.
    + intros j. simpl. rewrite (touched_takes_off _ _ _ _ j Ht); [|done|].
      * rewrite orb_true_iff, bool_decide_eq_true, elem_of_cons, Hf. done.
      * apply (room_for_one _ (calls s) Hb); [intros; by apply Hf | simpl in Hlt; lia].
  - by eapply matched_relabel.
  - by eapply matched_relabel.
  - eapply (matched_finish s _ (Refused k)); [done | done | | done].
    intros j Hj. by apply lease_end_lands.
  - by eapply matched_relabel.
  - eapply (matched_finish s _ (Returned k)); [done | done | | done].
    intros j Hj. by apply lease_end_lands.
Qed.

(** Runs in which fewer calls than table entries are under way at a time. *)
Definition run_step (s s' : system) : Prop :=
  step s s' ∧ (length (calls s') < MAX_HEALTH_ENTRIES)%nat.
Definition reachable (s : system) : Prop := ∃ now, 0 <= now ∧ rtc run_step (initial now) s.

Lemma reachable_inv s : reachable s → sane s ∧ matched s.
Proof.
  intros (now & Hnow & Hrun). revert s Hrun. apply (rtc_ind_r (λ s, sane s ∧ matched s) (initial now)).
  - split.
    + split; simpl; try done. split; [constructor | simpl; lia].
    + split; [constructor|]. intros k. split; [done | by intros ?%elem_of_nil].
  - intros y z _ [Hstep Hlt] [Hs Hm]. split; [by eapply step_sane | by eapply step_matched].
Qed.

Lemma op_entry_quarantined op now h :
  permanently_quarantined h = true → permanently_quarantined (op_entry op now h) = true.
Proof.
  intros Hq. destruct op; simpl; unfold unless_quarantined, record_failure, refresh_circuit; simpl;
    rewrite ?Hq; done.
Qed.

Lemma lease_end_quarantined j k t h :
  dict_lookup k t = Some h → permanently_quarantined h = true →
  (∃ h', dict_lookup k (lease_refused j t) = Some h' ∧ permanently_quarantined h' = true) ∧
  (∃ h', dict_lookup k (lease_exit j t) = Some h' ∧ permanently_quarantined h' = true).
Proof.
  intros Hk Hq. unfold lease_refused, lease_exit. destruct (decide (j = k)) as [->|Hne].
  - rewrite Hk, !dict_lookup_set_eq. split; eexists; split; done.
  - destruct (dict_lookup j t); rewrite ?dict_lookup_set_ne by done; split; exists h; done.
Qed.

(** ** Theorems *)

(** C13: whatever operations and lease calls interleave, as long as fewer than
    128 calls are under way at a time, at most two bodies run with a lease, no
    two calls of one runtime are under way, a slot can always be given back
    without overflowing the bounded semaphore, the flags of the table are
    exactly those of the calls under way, and the table holds at most 128
    entries without repetition. *)
Theorem lease_discipline (s : system) :
  reachable s →
  0 <= holders (calls s) <= GLOBAL_ONESHOT_LIMIT ∧ NoDup (call_key <$> calls s) ∧
  (∀ k, Holding k ∈ calls s → is_ok (semaphore_release (available s)) = true) ∧
  (∀ k, flying (states s) k = true ↔ k ∈ call_key <$> calls s) ∧
  bounded (states s).
Proof.
  intros [Hs [Hd Hf]]%reachable_inv. pose proof (sane_slots _ Hs). pose proof (sane_available _ Hs).
  split_and!; [apply holders_nonneg | lia | done | | done | apply Hs].
  intros k (c1 & c2 & E)%list_elem_of_split. rewrite E, holders_app, holders_cons in *. simpl in *.
  unfold semaphore_release, raise_if, GLOBAL_ONESHOT_LIMIT in *.
  pose proof (holders_nonneg c1). pose proof (holders_nonneg c2).
  by destruct (Z.leb_spec 2 (available s)); [lia|].
Qed.

(** recovery is always possible: in any reachable state, once the cooldown
    has passed since the last event, a runtime that is not quarantined and has
    no call under way is granted a lease as soon as a slot is free, and the run
    in which it holds the lease exists. *)
Theorem lease_granted_after_cooldown (s : system) (k : pystr) (now : Z) :
  reachable s → k ∉ call_key <$> calls s →
  permanently_quarantined (default fresh (dict_lookup k (states s))) = false →
  0 < available s → clock s + CIRCUIT_COOLDOWN <= now →
  (S (length (calls s)) < MAX_HEALTH_ENTRIES)%nat →
  (native_oneshot_lease k now (states s) (available s)).2 = true ∧
  ∃ s', rtc run_step s s' ∧ Holding k ∈ calls s'.
Proof.
  intros [Hs [Hd Hf]]%reachable_inv Hk Hq Hav Hnow Hlen.
  assert (∃ t, lease_enter k now (states s) = (t, true)) as [t Ht].
  { destruct (lease_enter k now (states s)) as [t acquired] eqn:E.
    destruct (lease_enter_touched _ _ _ _ _ (sane_bounded _ Hs) E) as [-> _].
    exists t. f_equal.
    assert (entry_ok (clock s) (default fresh (dict_lookup k (states s)))) as (Hn & Hc & Hr)
      by (apply entry_default_ok; [apply Hs | apply Hs]).
    assert (oneshot_in_flight (default fresh (dict_lookup k (states s))) = false) as Hi.
    { apply not_true_iff_false. intros Hfl. apply Hk, Hf. unfold flying.
      by destruct (dict_lookup k (states s)). }
    pose proof (op_entry_flight Snapshot now (default fresh (dict_lookup k (states s)))) as Hi'.
    simpl in Hi'. revert Hi'. unfold is_open, refresh_circuit, unset, before. rewrite Hi, Hq.
    pose proof (sane_clock _ Hs). unfold CIRCUIT_COOLDOWN, ONESHOT_RETRY_COOLDOWN in *.
    destruct (circuit_until _) as [u|] eqn:Hu; [|naive_solver congruence].
    destruct (Z.leb_spec u 0), (Z.ltb_spec now u); simpl; rewrite ?Hq, ?Hu; simpl; try lia;
      intros ->; simpl; rewrite ?andb_true_r; apply andb_true_iff; split; (apply Z.leb_le || apply negb_true_iff, Z.ltb_ge); lia. }
  assert (semaphore_acquire (available s) = Some (available s - 1)) as Ha
    by (unfold semaphore_acquire; by destruct (Z.ltb_spec 0 (available s)); [|lia]).
  split; [unfold native_oneshot_lease; by rewrite Ht, Ha|].
  exists {| states := t; available := available s - 1; calls := Holding k :: calls s; clock := now |}.
  split; [|left].
  eapply rtc_l; [split|eapply rtc_once; split].
  - eapply (step_enter s k now t true); [|done]. unfold CIRCUIT_COOLDOWN in *. lia.
  - simpl. lia.
  - by apply (step_acquire {| states := t; available := available s; calls := Entered k :: calls s; clock := now |}
      k (available s - 1) [] (calls s)).
  - simpl. lia.
Qed.

(** the diagnostics agree with the breaker: in any reachable state a
    snapshot reports the circuit open exactly from the third consecutive
    failure on, and a remaining cooldown between zero and fifteen seconds. *)
Theorem snapshot_consistent (s : system) (k : pystr) (now : Z) :
  reachable s → clock s <= now →
  let snap := (native_runtime_health_snapshot k now (states s)).2 in
  circuit_open snap = (CIRCUIT_FAILURE_THRESHOLD <=? snap_consecutive_failures snap) ∧
  0 <= cooldown_remaining_ms snap <= 15000 ∧
  (snap_state snap = $"quarantined" → dict_lookup k (states s) ≠ None).
Proof.
  intros [Hs _]%reachable_inv Hnow. unfold native_runtime_health_snapshot.
  destruct (state_of k (states s)) as [t h] eqn:E.
  destruct (state_of_spec _ _ _ _ (sane_bounded _ Hs) E) as (_ & -> & _). simpl.
  pose proof (sane_clock _ Hs) as Hc0.
  assert (entry_ok (clock s) (default fresh (dict_lookup k (states s)))) as Hok
    by (apply entry_default_ok; apply Hs).
  assert (∀ c, 0 <= c <= CIRCUIT_COOLDOWN → 0 <= round_ms c <= 15000) as Hround.
  { intros c Hc. unfold round_ms, CIRCUIT_COOLDOWN in *.
    pose proof (Z.div_pos c 1000000). pose proof (Z.div_le_upper_bound c 1000000 15000).
    pose proof (Z.div_mod c 1000000). pose proof (Z.mod_pos_bound c 1000000).
    destruct (_ || _) eqn:Hr; [lia|]. apply orb_false_iff in Hr as [Hr _]. apply Z.ltb_ge in Hr. lia. }
  split; [|split].
  - destruct Hok as (Hn & Hc & Hr). unfold is_open, refresh_circuit, unset, before.
    destruct (circuit_until _) as [u|] eqn:Hu; destruct Hc as [Hc Hq]; rewrite Hq; simpl;
      [|rewrite Hq; simpl; symmetry; by apply Z.leb_le].
    destruct (Z.leb_spec u 0), (Z.ltb_spec now u); simpl; rewrite ?Hq, ?Hu; simpl; try done;
      unfold CIRCUIT_FAILURE_THRESHOLD in *;
      repeat (destruct (Z.ltb_spec _ _) || destruct (Z.leb_spec _ _)); lia || done.
  - apply Hround. unfold cooldown.
    pose proof (refresh_circuit_ok now _ (entry_ok_later _ now _ Hok Hnow)) as (_ & Hc & _).
    destruct (permanently_quarantined _); [unfold CIRCUIT_COOLDOWN; lia|].
    destruct (circuit_until _); unfold CIRCUIT_COOLDOWN in *; lia.
  - intros Hst Hnone. rewrite Hnone in Hst. simpl in Hst. vm_compute in Hst. discriminate Hst.
Qed.

(** quarantine is permanent while the entry is kept: no operation or lease
    section lifts it, and no lease is granted to it; the entry can disappear
    only by eviction from a full table. *)
Theorem quarantine_holds (s s' : system) (k : pystr) (h : health) (now : Z) :
  reachable s → run_step s s' → dict_lookup k (states s) = Some h → permanently_quarantined h = true →
  ((∃ h', dict_lookup k (states s') = Some h' ∧ permanently_quarantined h' = true) ∨
   (dict_lookup k (states s') = None ∧ length (states s) = MAX_HEALTH_ENTRIES)) ∧
  (native_oneshot_lease k now (states s) (available s)).2 = false.
Proof.
  intros [Hs _]%reachable_inv [Hstep _] Hk Hq. pose proof (sane_bounded _ Hs) as Hb. split.
  - assert (∀ j t' g, touched j (states s) t' g →
      (j = k → permanently_quarantined g = true) →
      (∃ h', dict_lookup k t' = Some h' ∧ permanently_quarantined h' = true) ∨
      (dict_lookup k t' = None ∧ length (states s) = MAX_HEALTH_ENTRIES)) as Hsection.
    { intros j t' g Ht Hg. destruct (decide (k = j)) as [->|Hne].
      - destruct (touched_key _ _ _ _ Ht) as [?|(? & ? & _)]; [eauto | congruence].
      - destruct (touched_other _ _ _ _ Ht k Hne) as [->|(-> & ? & _)]; eauto. }
    destruct Hstep as [s op j now' Hle | s j now' t acquired Hle Hen | | | s j c1 c2 Hcs | | s j c1 c2 Hcs];
      simpl in *; try (by eauto).
    + rewrite run_operation_with_state. eapply Hsection; [by apply with_state_touched|].
      intros ->. rewrite Hk. simpl. by apply op_entry_quarantined.
    + destruct (lease_enter_touched _ _ _ _ _ Hb Hen) as [Ha Ht]. eapply Hsection; [exact Ht|].
      intros ->. rewrite Hk. cbn [default option_map]. unfold refresh_circuit.
      destruct acquired; simpl; by rewrite Hq.
    + left. by apply lease_end_quarantined with h.
    + left. by apply lease_end_quarantined with h.
  - unfold native_oneshot_lease. destruct (lease_enter k now (states s)) as [t acquired] eqn:E.
    destruct (lease_enter_touched _ _ _ _ _ Hb E) as [-> _]. rewrite Hk. simpl.
    unfold is_open, refresh_circuit. rewrite Hq. simpl. by rewrite Hq.
Qed.

End operations.

(** ** Instances *)

Definition key_a : pystr := $"a".
Definition key_b : pystr := $"b".
Definition key_c : pystr := $"c".

Section samples.
Local Instance sample_unicode : PyUnicode := ascii_unicode.
Notation run := (run_step is_alnum).
Ltac few := unfold MAX_HEALTH_ENTRIES; simpl; lia.

(** Two leases are held when a third call enters. *)
Definition sample_entered (k : pystr) (s : system) : system :=
  {| states := (lease_enter k 0 (states s)).1; available := available s;
     calls := Entered k :: calls s; clock := 0 |}.
Definition sample_held (k : pystr) (s : system) : system :=
  {| states := (lease_enter k 0 (states s)).1; available := available s - 1;
     calls := Holding k :: calls s; clock := 0 |}.
Definition sample_two : system := sample_held key_b (sample_held key_a (initial 0)).

Lemma sample_enters k s :
  (lease_enter k 0 (states s)).2 = true → clock s = 0 → (length (calls s) < 127)%nat →
  run s (sample_entered k s).
Proof.
  intros He Hc Hl. split; [|few].
  apply (step_enter is_alnum s k 0 (lease_enter k 0 (states s)).1 true); [lia|].
  rewrite <- He. by destruct (lease_enter k 0 (states s)).
Qed.

Lemma sample_holds k s :
  (lease_enter k 0 (states s)).2 = true → clock s = 0 → (length (calls s) < 127)%nat →
  0 < available s → rtc run s (sample_held k s).
Proof.
  intros He Hc Hl Ha. eapply rtc_l; [by apply (sample_enters k s)|]. apply rtc_once. split.
  - apply (step_acquire is_alnum (sample_entered k s) k (available s - 1) [] (calls s)); [done|].
    unfold semaphore_acquire. simpl. by destruct (Z.ltb_spec 0 (available s)); [|lia].
  - few.
Qed.

Lemma sample_two_reachable : reachable is_alnum sample_two.
Proof.
  exists 0. split; [lia|]. etrans; [apply (sample_holds key_a)|apply (sample_holds key_b)];
    try reflexivity; simpl; lia.
Qed.

Definition sample_quarantined : system :=
  {| states := native_record_integrity_failure is_alnum ($"digest mismatch") key_c (states sample_two);
     available := 0; calls := calls sample_two; clock := 0 |}.

Lemma sample_quarantine_step op :
  run sample_two {| states := run_operation is_alnum op key_c 0 (states sample_two); available := 0;
                    calls := calls sample_two; clock := 0 |}.
Proof. split; [apply (step_operation is_alnum sample_two op key_c 0); few | few]. Qed.

Lemma sample_quarantined_reachable : reachable is_alnum sample_quarantined.
Proof.
  destruct sample_two_reachable as (now & Hn & Hr). exists now. split; [done|].
  eapply rtc_r; [exact Hr | exact (sample_quarantine_step (Integrity_failure ($"digest mismatch")))].
Qed.

(** A call that entered before its runtime is quarantined, and then finds no
    slot, overwrites the state "quarantined" with "overloaded". *)
Lemma quarantine_relabelled :
  ∃ s h, reachable is_alnum s ∧ dict_lookup key_c (states s) = Some h ∧
    permanently_quarantined h = true ∧ state h = $"overloaded".
Proof.
  destruct sample_two_reachable as (now & Hn & Hr).
  set (s1 := sample_entered key_c sample_two).
  set (s2 := {| states := native_record_integrity_failure is_alnum [] key_c (states s1);
                available := 0; calls := calls s1; clock := 0 |}).
  set (s3 := {| states := states s2; available := 0; calls := [Refused key_c] ++ calls sample_two;
                clock := 0 |}).
  set (s4 := {| states := lease_refused key_c (states s3); available := 0; calls := calls sample_two;
                clock := 0 |}).
  exists s4. eexists. split; [|by vm_compute].
  exists now. split; [done|]. etrans; [exact Hr|].
  apply (rtc_l _ _ s1); [by apply sample_enters; try reflexivity; simpl; lia|].
  apply (rtc_l _ _ s2).
  { split; [apply (step_operation is_alnum s1 (Integrity_failure []) key_c 0); few | few]. }
  apply (rtc_l _ _ s3); [split; [by apply (step_full is_alnum s2 key_c [] (calls sample_two)) | few]|].
  apply rtc_once. split; [by apply (step_refused is_alnum s3 key_c [] (calls sample_two)) | few].
Qed.

(** "permanent" quarantine does not survive the bound of the table: after an
    integrity failure the runtime gets no lease, but once 128 other runtimes
    have been seen its entry has been evicted and the same runtime is granted a
    lease at the same instant. *)
Theorem quarantine_forgotten :
  ∃ others : list pystr,
    let quarantined := native_record_integrity_failure is_alnum ($"digest mismatch") key_a [] in
    let later := foldl (λ t j, native_record_starting j t) quarantined others in
    length others = MAX_HEALTH_ENTRIES ∧
    (native_oneshot_lease key_a 0 quarantined GLOBAL_ONESHOT_LIMIT).2 = false ∧
    (native_oneshot_lease key_a 0 later GLOBAL_ONESHOT_LIMIT).2 = true.
Proof. exists ((λ i, [Z.of_nat i]) <$> seq 200 128). vm_compute. done. Qed.

Lemma lease_discipline_witness : 0 <= holders (calls sample_two) <= GLOBAL_ONESHOT_LIMIT.
Proof. exact (proj1 (lease_discipline is_alnum sample_two sample_two_reachable)). Defined.

Lemma initial_reachable : reachable is_alnum (initial 0).
Proof. exists 0. split; [lia | constructor]. Qed.

Lemma lease_granted_witness :
  (native_oneshot_lease key_a CIRCUIT_COOLDOWN [] GLOBAL_ONESHOT_LIMIT).2 = true.
Proof.
  apply (lease_granted_after_cooldown is_alnum (initial 0) key_a CIRCUIT_COOLDOWN).
  - exact initial_reachable.
  - apply not_elem_of_nil.
  - reflexivity.
  - reflexivity.
  - unfold CIRCUIT_COOLDOWN; simpl; lia.
  - few.
Defined.

Lemma snapshot_consistent_witness :
  circuit_open (native_runtime_health_snapshot key_c 0 (states sample_quarantined)).2 = true.
Proof.
  rewrite (proj1 (snapshot_consistent is_alnum sample_quarantined key_c 0 sample_quarantined_reachable
    (Z.le_refl 0))). vm_compute. reflexivity.
Defined.

Lemma quarantine_holds_witness :
  (native_oneshot_lease key_c 99 (states sample_quarantined) 0).2 = false.
Proof.
  refine (proj2 (quarantine_holds is_alnum sample_quarantined _ key_c _ 99
    sample_quarantined_reachable _ _ _)).
  - split; [apply (step_operation is_alnum sample_quarantined Starting key_c 0); simpl; lia|].
    few.
  - vm_compute. reflexivity.
  - reflexivity.
Defined.

End samples.

End Resilience.
