(* ===== verification/CommandActivity.v ===== *)
(** * Command activity

    Models [command_activity_contract.py] and [command_activity_lifecycle.py]:
    the privacy-safe record of one command from its pre-hook decision to the
    proof of its execution, the lifecycle its updates follow, and the builders
    of evidence, which take the evaluation of [CommandEvaluation].

    A [datetime] is its instant with its offset from UTC ([None] when it is
    naive). *)

From S2P Require Import Prelude PyStr Sha256 Regex PyVal ActionLattice EffectContract.
From S2P Require Import ExtensionEvidence EffectDecision CommandCatalog ExtensionControl.
From S2P Require Import ControlRuntime NativeObservations CommandEvaluation.
Local Open Scope Z_scope.
Local Open Scope py_scope.

Module Activity.
Import Evaluation.

Definition COMMAND_ACTIVITY_SCHEMA_VERSION : pystr := $"1.0.0".

(** [[A-Za-z0-9][A-Za-z0-9._:-]{0,255}] *)
Definition OPAQUE_ID : regex :=
  RCat (RSet [(65, 90); (97, 122); (48, 57)])
    (RUpTo 255 (RSet [(65, 90); (97, 122); (48, 57); (46, 46); (95, 95); (58, 58); (45, 45)])).
(** [[a-z][a-z0-9]*(?:[._-][a-z0-9]+)*] *)
Definition STABLE_ID : regex :=
  RCat (RSet [(97, 122)]) (RCat (RStar (RSet [(97, 122); (48, 57)]))
    (RStar (RCat (RSet [(46, 46); (95, 95); (45, 45)]) (RPlus (RSet [(97, 122); (48, 57)]))))).
Definition COMMAND_ACTIVITY_HARNESSES : list pystr :=
  [$"codex"; $"claude-code"; $"opencode"; $"copilot"; $"cursor"; $"cline"; $"gemini"; $"hermes";
   $"openclaw"; $"antigravity"; $"kimi"; $"grok"; $"pi"; $"omp"; $"zcode"; $"devin"; $"paseo"].

(** ** Vocabulary *)

Inductive CommandHookPhase := PRE | POST_SUCCESS | POST_FAILURE.
Global Instance CommandHookPhase_eq_dec : EqDecision CommandHookPhase.
Proof. solve_decision. Defined.

Inductive CommandExecutionStatus :=
  | ATTEMPTED | PREVENTED | ALLOWED_UNCONFIRMED | CONFIRMED_SUCCESS | CONFIRMED_FAILURE | UNPAIRED_POST.
Global Instance CommandExecutionStatus_eq_dec : EqDecision CommandExecutionStatus.
Proof. solve_decision. Defined.

Inductive CommandProofLevel := Proof_PRE_HOOK | Proof_POST_HOOK | Proof_UNPAIRED_POST.
Global Instance CommandProofLevel_eq_dec : EqDecision CommandProofLevel.
Proof. solve_decision. Defined.

Inductive ActivityParseConfidence := EXACT | FALLBACK | UNCERTAIN.
Global Instance ActivityParseConfidence_eq_dec : EqDecision ActivityParseConfidence.
Proof. solve_decision. Defined.

Inductive ActivityDecisionReason :=
  | Reason_NO_MATCH | Reason_EXTENSION_MATCH | Reason_UNCERTAINTY | Reason_POLICY
  | Reason_APPROVAL_REUSE | Reason_CONTAINMENT | Reason_CAPABILITY.
Global Instance ActivityDecisionReason_eq_dec : EqDecision ActivityDecisionReason.
Proof. solve_decision. Defined.

Inductive ActivityApprovalReuseStatus := Reuse_ACCEPTED | Reuse_REJECTED | Reuse_NOT_APPLICABLE.
Global Instance ActivityApprovalReuseStatus_eq_dec : EqDecision ActivityApprovalReuseStatus.
Proof. solve_decision. Defined.

Inductive ReceiptLinkStatus := Receipt_NOT_APPLICABLE | LINKED.
Global Instance ReceiptLinkStatus_eq_dec : EqDecision ReceiptLinkStatus.
Proof. solve_decision. Defined.

Inductive ActivityMatchClass := Match_UNSAFE | Match_SAFE_VARIANT | Match_UNCERTAINTY.
Global Instance ActivityMatchClass_eq_dec : EqDecision ActivityMatchClass.
Proof. solve_decision. Defined.

Inductive ActivityLatencyBucket :=
  | NOT_MEASURED | LE_1_MS | LE_2_MS | LE_5_MS | LE_10_MS | LE_20_MS | LE_50_MS | LE_100_MS | GT_100_MS.
Global Instance ActivityLatencyBucket_eq_dec : EqDecision ActivityLatencyBucket.
Proof. solve_decision. Defined.

Inductive CorrelationKind := Kind_REQUEST | Kind_SESSION.
Global Instance CorrelationKind_eq_dec : EqDecision CorrelationKind.
Proof. solve_decision. Defined.

(** ** Field checks *)

Definition require_schema_version (value : pystr) : result unit :=
  raise_if (negb (bool_decide (value = COMMAND_ACTIVITY_SCHEMA_VERSION)))
    (ValueError "unsupported command activity schema version").

Record datetime := { instant : Z; utcoffset : option Z }.
Global Instance datetime_eq_dec : EqDecision datetime.
Proof. solve_decision. Defined.

Definition require_utc_datetime (value : datetime) : result unit :=
  raise_if (negb (bool_decide (utcoffset value = Some 0)))
    (ValueError "occurred_at must be a timezone-aware UTC datetime").

Definition require_opaque_id (value : pystr) (label : string) : result unit :=
  raise_if (negb (fullmatch OPAQUE_ID value))
    (ValueError (label +:+ " must be a bounded opaque identifier")).

Definition require_stable_id (value : pystr) (label : string) : result unit :=
  raise_if ((128 <? length value)%nat || negb (fullmatch STABLE_ID value)
            || (bool_decide (label = "harness") && negb (py_in value COMMAND_ACTIVITY_HARNESSES)))
    (ValueError (label +:+ " must be a stable lowercase identifier")).

Definition require_optional_stable_id (value : option pystr) (label : string) : result unit :=
  match value with Some v => require_stable_id v label | None => Ok tt end.

(** ** Records *)

Record CorrelationHandle := {
  kind : CorrelationKind;
  handle_harness : pystr;
  key_id : pystr;
  digest : pystr;
}.
Global Instance CorrelationHandle_eq_dec : EqDecision CorrelationHandle.
Proof. solve_decision. Defined.

Definition check_CorrelationHandle (h : CorrelationHandle) : result unit :=
  require_stable_id (handle_harness h) "harness" ;;
  require_stable_id (key_id h) "key_id" ;;
  raise_if (negb (fullmatch SHA256_RE (digest h)))
    (ValueError "digest must be a 256-bit lowercase hexadecimal HMAC").

Definition require_optional_correlation (value : option CorrelationHandle) (k : CorrelationKind)
    (harness : pystr) : result unit :=
  match value with
  | None => Ok tt
  | Some h =>
      raise_if (negb (bool_decide (kind h = k)) || negb (bool_decide (handle_harness h = harness)))
        (ValueError "correlation kind and harness must match the activity")
  end.

Record CommandActivity := {
  activity_id : pystr;
  occurred_at : datetime;
  harness : pystr;
  hook_phase : CommandHookPhase;
  execution_status : CommandExecutionStatus;
  proof_level : CommandProofLevel;
  policy_action : option GuardAction;
  decision_reason_code : option ActivityDecisionReason;
  controlling_rule_id : option pystr;
  parse_confidence : option ActivityParseConfidence;
  uncertainty_class : option UncertaintyKind;
  match_count : Z;
  prompted : bool;
  approval_reuse_status : ActivityApprovalReuseStatus;
  request_correlation : option CorrelationHandle;
  session_correlation : option CorrelationHandle;
  receipt_link_status : ReceiptLinkStatus;
  receipt_id : option pystr;
  evaluation_latency_bucket : ActivityLatencyBucket;
  persistence_latency_bucket : ActivityLatencyBucket;
  schema_version : pystr;
}.
Global Instance CommandActivity_eq_dec : EqDecision CommandActivity.
Proof. solve_decision. Defined.

(** [_validate_activity_state]: the facts each status requires *)
Definition check_status_facts (a : CommandActivity) : result unit :=
  match execution_status a with
  | ATTEMPTED | PREVENTED | ALLOWED_UNCONFIRMED =>
      raise_if (negb (bool_decide (hook_phase a = PRE)) || negb (bool_decide (proof_level a = Proof_PRE_HOOK)))
        (ValueError "pre-hook statuses require pre phase and pre-hook proof")
  | CONFIRMED_SUCCESS | CONFIRMED_FAILURE =>
      let phase := if bool_decide (execution_status a = CONFIRMED_SUCCESS) then POST_SUCCESS else POST_FAILURE in
      raise_if (negb (bool_decide (hook_phase a = phase)) || negb (bool_decide (proof_level a = Proof_POST_HOOK)))
        (ValueError "confirmed status requires its matching post phase and post-hook proof") ;;
      raise_if (bool_decide (request_correlation a = None))
        (ValueError "confirmed status requires one strong request correlation")
  | UNPAIRED_POST =>
      raise_if (bool_decide (hook_phase a = PRE) || negb (bool_decide (proof_level a = Proof_UNPAIRED_POST)))
        (ValueError "unpaired post requires a post phase and unpaired-post proof") ;;
      raise_if (negb (bool_decide (request_correlation a = None)))
        (ValueError "unpaired post cannot claim request correlation") ;;
      raise_if (negb (bool_decide (policy_action a = None))
                || negb (bool_decide (decision_reason_code a = None))
                || negb (bool_decide (controlling_rule_id a = None))
                || negb (bool_decide (parse_confidence a = None))
                || negb (bool_decide (uncertainty_class a = None))
                || negb (match_count a =? 0)
                || prompted a
                || negb (bool_decide (approval_reuse_status a = Reuse_NOT_APPLICABLE))
                || negb (bool_decide (receipt_link_status a = Receipt_NOT_APPLICABLE))
                || negb (bool_decide (receipt_id a = None))
                || negb (bool_decide (evaluation_latency_bucket a = NOT_MEASURED)))
        (ValueError "unpaired post cannot invent pre-hook decision or match facts")
  end.

(** A policy decision taken without an evaluation of the command. *)
Definition policy_only (a : CommandActivity) : bool :=
  bool_decide (decision_reason_code a = Some Reason_POLICY) && bool_decide (parse_confidence a = None).

(** [guard_action_severity(action) >= guard_action_severity("review")] *)
Definition at_least_review (a : GuardAction) : bool :=
  GUARD_ACTION_SEVERITY review <=? GUARD_ACTION_SEVERITY a.

Definition validate_activity_state (a : CommandActivity) : result unit :=
  let paired := negb (bool_decide (execution_status a = UNPAIRED_POST)) in
  check_status_facts a ;;
  raise_if (bool_decide (parse_confidence a = Some EXACT) && negb (bool_decide (uncertainty_class a = None)))
    (ValueError "exact parse confidence cannot carry uncertainty") ;;
  raise_if (py_in (parse_confidence a) [Some FALLBACK; Some UNCERTAIN]
            && bool_decide (uncertainty_class a = None))
    (ValueError "non-exact parse confidence requires a bounded uncertainty class") ;;
  raise_if (paired
            && (bool_decide (policy_action a = None) || bool_decide (decision_reason_code a = None)
                || (bool_decide (parse_confidence a = None)
                    && negb (py_in (decision_reason_code a) [Some Reason_POLICY; Some Reason_CAPABILITY]))))
    (ValueError "pre and confirmed activity requires complete bounded decision facts") ;;
  raise_if ((match_count a =? 0) && negb (bool_decide (controlling_rule_id a = None)))
    (ValueError "an activity without matches cannot name a controlling rule") ;;
  raise_if (paired && bool_decide (decision_reason_code a = Some Reason_NO_MATCH) && negb (match_count a =? 0))
    (ValueError "no-match reason cannot carry activity matches") ;;
  raise_if (paired && (match_count a =? 0)
            && negb (py_in (decision_reason_code a) [Some Reason_NO_MATCH; Some Reason_CAPABILITY])
            && negb (policy_only a))
    (ValueError "an activity without matches requires a no-match reason or capability reason") ;;
  raise_if (bool_decide (receipt_link_status a = LINKED) && bool_decide (receipt_id a = None))
    (ValueError "linked receipt status requires receipt_id") ;;
  raise_if (bool_decide (receipt_link_status a = Receipt_NOT_APPLICABLE) && negb (bool_decide (receipt_id a = None)))
    (ValueError "receipt_id requires linked receipt status") ;;
  raise_if (match policy_action a with Some act => at_least_review act | None => false end
            && negb (bool_decide (receipt_link_status a = LINKED)) && negb (policy_only a))
    (ValueError "review-or-stronger activity requires a linked receipt").

(** [CommandActivity.__post_init__] *)
Definition check_CommandActivity (a : CommandActivity) : result unit :=
  require_opaque_id (activity_id a) "activity_id" ;;
  require_utc_datetime (occurred_at a) ;;
  require_stable_id (harness a) "harness" ;;
  require_optional_stable_id (controlling_rule_id a) "controlling_rule_id" ;;
  raise_if (match_count a <? 0) (ValueError "match_count must be a non-negative integer") ;;
  raise_if (prompted a && bool_decide (approval_reuse_status a = Reuse_ACCEPTED))
    (ValueError "accepted approval reuse cannot claim a prompt") ;;
  require_optional_correlation (request_correlation a) Kind_REQUEST (harness a) ;;
  require_optional_correlation (session_correlation a) Kind_SESSION (harness a) ;;
  match receipt_id a with Some r => require_opaque_id r "receipt_id" | None => Ok tt end ;;
  require_schema_version (schema_version a) ;;
  validate_activity_state a.

Record CommandActivityMatch := {
  match_activity_id : pystr;
  ordinal : Z;
  match_identity : ExtensionRuleIdentity;
  match_class : ActivityMatchClass;
  match_severity : EvidenceSeverity;
  default_floor : GuardAction;
  match_effect_claims : list EffectKind;
  match_safe_variant_id : option pystr;
  match_schema_version : pystr;
}.

(** [CommandActivityMatch.__post_init__] *)
Definition check_CommandActivityMatch (m : CommandActivityMatch) : result unit :=
  require_opaque_id (match_activity_id m) "activity_id" ;;
  raise_if (ordinal m <? 0) (ValueError "ordinal must be a non-negative integer") ;;
  raise_if (bool_decide (match_effect_claims m = []))
    (ValueError "effect_claims must be a non-empty frozenset") ;;
  require_optional_stable_id (match_safe_variant_id m) "safe_variant_id" ;;
  raise_if (negb (Bool.eqb (bool_decide (match_class m = Match_SAFE_VARIANT))
                           (negb (bool_decide (match_safe_variant_id m = None)))))
    (ValueError "safe_variant match class requires exactly one safe_variant_id") ;;
  require_schema_version (match_schema_version m).

Record CommandActivityEvidence := {
  activity : CommandActivity;
  matches : list CommandActivityMatch;
}.

(** [tuple(range(n))] *)
Definition range (n : nat) : list Z := Z.of_nat <$> seq 0 n.

(** [CommandActivityEvidence.__post_init__] *)
Definition check_CommandActivityEvidence (e : CommandActivityEvidence) : result unit :=
  raise_if (negb (match_count (activity e) =? Z.of_nat (length (matches e))))
    (ValueError "match_count must equal the number of match rows") ;;
  raise_if (existsb (λ m, negb (bool_decide (match_activity_id m = activity_id (activity e)))) (matches e))
    (ValueError "every match must reference the parent activity_id") ;;
  raise_if (negb (bool_decide ((ordinal <$> matches e) = range (length (matches e)))))
    (ValueError "match ordinals must be unique, ordered, and contiguous from zero") ;;
  raise_if (has_dups (match_identity <$> matches e))
    (ValueError "an activity cannot repeat an extension rule identity") ;;
  raise_if (has_dups ((λ m, ExtensionEvidence.rule_id (match_identity m)) <$> matches e))
    (ValueError "an activity cannot repeat a logical rule_id across versions") ;;
  raise_if (match controlling_rule_id (activity e) with
            | Some id => negb (py_in id ((λ m, ExtensionEvidence.rule_id (match_identity m)) <$> matches e))
            | None => false
            end)
    (ValueError "controlling_rule_id must identify one of the activity matches").

(** ** Transitions *)

(** The facts an update must not change. *)
Definition same_facts (p c : CommandActivity) : bool :=
  bool_decide (activity_id p = activity_id c) && bool_decide (occurred_at p = occurred_at c)
  && bool_decide (harness p = harness c) && bool_decide (policy_action p = policy_action c)
  && bool_decide (decision_reason_code p = decision_reason_code c)
  && bool_decide (controlling_rule_id p = controlling_rule_id c)
  && bool_decide (parse_confidence p = parse_confidence c)
  && bool_decide (uncertainty_class p = uncertainty_class c)
  && bool_decide (match_count p = match_count c) && bool_decide (prompted p = prompted c)
  && bool_decide (approval_reuse_status p = approval_reuse_status c)
  && bool_decide (request_correlation p = request_correlation c)
  && bool_decide (session_correlation p = session_correlation c)
  && bool_decide (receipt_link_status p = receipt_link_status c)
  && bool_decide (receipt_id p = receipt_id c)
  && bool_decide (evaluation_latency_bucket p = evaluation_latency_bucket c)
  && bool_decide (schema_version p = schema_version c).

Definition allowed_next (s : CommandExecutionStatus) : list CommandExecutionStatus :=
  match s with
  | ATTEMPTED => [PREVENTED; ALLOWED_UNCONFIRMED]
  | ALLOWED_UNCONFIRMED => [CONFIRMED_SUCCESS; CONFIRMED_FAILURE]
  | _ => []
  end.

Definition validate_activity_transition (previous current : CommandActivity) : result unit :=
  raise_if (negb (same_facts previous current))
    (ValueError "activity transitions cannot change decision, identity, proof, or match facts") ;;
  if bool_decide (execution_status previous = execution_status current) then
    raise_if (negb (bool_decide (previous = current)))
      (ValueError "idempotent activity replay cannot change persisted fields")
  else
    raise_if (negb (py_in (execution_status current) (allowed_next (execution_status previous))))
      (ValueError "invalid or conflicting command activity lifecycle transition").

(** ** Decisions *)

Record CommandActivityDecisionFacts := {
  facts_policy_action : GuardAction;
  facts_decision_reason_code : ActivityDecisionReason;
  facts_prompted : bool;
  facts_approval_reuse_status : ActivityApprovalReuseStatus;
  facts_receipt_id : option pystr;
  workflow_authorization_claimed : bool;
}.

(** [CommandActivityDecisionFacts.__post_init__] *)
Definition check_CommandActivityDecisionFacts (d : CommandActivityDecisionFacts) : result unit :=
  raise_if (bool_decide (facts_decision_reason_code d = Reason_CAPABILITY)
            && (negb (workflow_authorization_claimed d)
                || negb (bool_decide (facts_policy_action d = allow))))
    (ValueError "capability reason requires a claimed workflow authorization and final allow").

Definition RULE_MODE_FLOOR (m : CommandRuleMode) : GuardAction :=
  match m with
  | mode_disabled => allow | mode_monitor => warn | mode_review => review
  | mode_enforce => block | mode_required => review
  end.

Definition UNCERTAINTY_REASON : list (pystr * UncertaintyKind) :=
  [($"command_byte_limit_exceeded", PARSER_BUDGET_EXHAUSTED);
   ($"command_segment_limit_exceeded", PARSER_BUDGET_EXHAUSTED);
   ($"command_token_limit_exceeded", PARSER_BUDGET_EXHAUSTED);
   ($"embedded_command_limit_exceeded", PARSER_BUDGET_EXHAUSTED);
   ($"malformed_shell_quoting", MALFORMED_INPUT);
   ($"wrapper_normalization_limit_exceeded", PARSER_BUDGET_EXHAUSTED)].

(** ** Builders *)

(** The floor an activity row records for a matched rule. *)
Definition recorded_floor (owned : OwnedCommandRuleMatch) : GuardAction :=
  if required (owned_extension owned)
  then if bool_decide (rule_severity (owned_rule owned) = $"critical") then block else review
  else RULE_MODE_FLOOR (default_mode (owned_rule owned)).

Definition activity_match (activity_id : pystr) (ordinal : Z) (owned : OwnedCommandRuleMatch)
    : result CommandActivityMatch :=
  let ext := owned_extension owned in
  let rule := owned_rule owned in
  effects ← command_risk_effects (rule_risk_classes rule) None ;
  let identity :=
    {| ExtensionEvidence.extension_id := CommandCatalog.extension_id ext;
       ExtensionEvidence.extension_version := version ext;
       ExtensionEvidence.rule_id := CommandCatalog.rule_id rule;
       ExtensionEvidence.rule_version := version ext |} in
  check_ExtensionRuleIdentity identity ;;
  severity ← SEVERITY (rule_severity rule) ;
  let m := {| match_activity_id := activity_id; ordinal := ordinal; match_identity := identity;
              match_class := Match_UNSAFE; match_severity := severity;
              default_floor := recorded_floor owned; match_effect_claims := effects;
              match_safe_variant_id := None;
              match_schema_version := COMMAND_ACTIVITY_SCHEMA_VERSION |} in
  check_CommandActivityMatch m ;; Ok m.

(** [tuple(_activity_match(activity_id, i, owned) for i, owned in enumerate(matches))] *)
Fixpoint activity_matches (activity_id : pystr) (i : nat) (ms : list OwnedCommandRuleMatch)
    : result (list CommandActivityMatch) :=
  match ms with
  | [] => Ok []
  | m :: ms =>
      row ← activity_match activity_id (Z.of_nat i) m ;
      rows ← activity_matches activity_id (S i) ms ;
      Ok (row :: rows)
  end.

Definition uncertainty_kind (e : CompositeCommandEvaluation) : option UncertaintyKind :=
  match confidence (command e) with
  | parse_exact => None
  | _ =>
      match uncertainty_reason (command e) with
      | Some reason =>
          if startswith ($"unsupported_") reason then Some UNSUPPORTED_INPUT
          else Some (default PARTIAL_PARSE (dict_lookup reason UNCERTAINTY_REASON))
      | None => Some (default PARTIAL_PARSE (dict_lookup [] UNCERTAINTY_REASON))
      end
  end.

(** [ActivityParseConfidence(confidence)] *)
Definition activity_confidence (c : ParseConfidence) : ActivityParseConfidence :=
  match c with parse_exact => EXACT | parse_fallback => FALLBACK | parse_uncertain => UNCERTAIN end.

Definition validate_reason_matches (reason : ActivityDecisionReason) (ms : list CommandActivityMatch)
    : result unit :=
  raise_if (bool_decide (reason = Reason_NO_MATCH) && negb (bool_decide (length ms = 0%nat)))
    (ValueError "no-match decision reason cannot carry rule matches") ;;
  raise_if (bool_decide (length ms = 0%nat) && negb (py_in reason [Reason_NO_MATCH; Reason_CAPABILITY]))
    (ValueError "only no-match or capability decisions may omit rule matches").

Definition make_CommandActivity (a : CommandActivity) : result CommandActivity :=
  check_CommandActivity a ;; Ok a.
Definition make_CommandActivityEvidence (a : CommandActivity) (ms : list CommandActivityMatch)
    : result CommandActivityEvidence :=
  let e := {| activity := a; matches := ms |} in
  check_CommandActivityEvidence e ;; Ok e.

Definition linked (receipt : option pystr) : ReceiptLinkStatus :=
  match receipt with Some _ => LINKED | None => Receipt_NOT_APPLICABLE end.

Definition decided_status (action : GuardAction) : CommandExecutionStatus :=
  if at_least_review action then PREVENTED else ALLOWED_UNCONFIRMED.

Definition policy_only_activity (id : pystr) (at_ : datetime) (harness : pystr) (action : GuardAction)
    (request : option CorrelationHandle) (receipt : option pystr) (prompted : bool)
    (reuse : ActivityApprovalReuseStatus) (claimed : bool) : CommandActivity :=
  {| activity_id := id; occurred_at := at_; harness := harness; hook_phase := PRE;
     execution_status := decided_status action; proof_level := Proof_PRE_HOOK;
     policy_action := Some action;
     decision_reason_code :=
       Some (if claimed && bool_decide (action = allow) then Reason_CAPABILITY else Reason_POLICY);
     controlling_rule_id := None; parse_confidence := None; uncertainty_class := None;
     match_count := 0; prompted := prompted; approval_reuse_status := reuse;
     request_correlation := request; session_correlation := None;
     receipt_link_status := linked receipt; receipt_id := receipt;
     evaluation_latency_bucket := NOT_MEASURED; persistence_latency_bucket := NOT_MEASURED;
     schema_version := COMMAND_ACTIVITY_SCHEMA_VERSION |}.

Definition build_policy_only_pre_hook_evidence (id : pystr) (at_ : datetime) (harness : pystr)
    (action : GuardAction) (request : option CorrelationHandle) (receipt : option pystr)
    (prompted : bool) (reuse : ActivityApprovalReuseStatus) (claimed : bool)
    : result CommandActivityEvidence :=
  a ← make_CommandActivity
        (policy_only_activity id at_ harness action request receipt prompted reuse claimed) ;
  make_CommandActivityEvidence a [].

Definition pre_hook_activity (e : CompositeCommandEvaluation) (d : CommandActivityDecisionFacts)
    (id : pystr) (at_ : datetime) (harness : pystr) (request session : option CorrelationHandle)
    (evaluation persistence : ActivityLatencyBucket) (count : nat) : CommandActivity :=
  {| activity_id := id; occurred_at := at_; harness := harness; hook_phase := PRE;
     execution_status := decided_status (facts_policy_action d); proof_level := Proof_PRE_HOOK;
     policy_action := Some (facts_policy_action d);
     decision_reason_code := Some (facts_decision_reason_code d);
     controlling_rule_id := evaluation_controlling_rule_id e;
     parse_confidence := Some (activity_confidence (confidence (command e))); uncertainty_class := uncertainty_kind e;
     match_count := Z.of_nat count; prompted := facts_prompted d;
     approval_reuse_status := facts_approval_reuse_status d;
     request_correlation := request; session_correlation := session;
     receipt_link_status := linked (facts_receipt_id d); receipt_id := facts_receipt_id d;
     evaluation_latency_bucket := evaluation; persistence_latency_bucket := persistence;
     schema_version := COMMAND_ACTIVITY_SCHEMA_VERSION |}.

Definition build_pre_hook_evidence (e : CompositeCommandEvaluation) (d : CommandActivityDecisionFacts)
    (id : pystr) (at_ : datetime) (harness : pystr) (request session : option CorrelationHandle)
    (evaluation persistence : ActivityLatencyBucket) : result CommandActivityEvidence :=
  ms ← activity_matches id 0 (evaluation_matches e) ;
  validate_reason_matches (facts_decision_reason_code d) ms ;;
  a ← make_CommandActivity
        (pre_hook_activity e d id at_ harness request session evaluation persistence (length ms)) ;
  make_CommandActivityEvidence a ms.

(** [replace(previous, hook_phase=..., execution_status=..., ...)] *)
Definition post_activity (p : CommandActivity) (succeeded : bool) (persistence : ActivityLatencyBucket)
    : CommandActivity :=
  {| activity_id := activity_id p; occurred_at := occurred_at p; harness := harness p;
     hook_phase := if succeeded then POST_SUCCESS else POST_FAILURE;
     execution_status := if succeeded then CONFIRMED_SUCCESS else CONFIRMED_FAILURE;
     proof_level := Proof_POST_HOOK; policy_action := policy_action p;
     decision_reason_code := decision_reason_code p; controlling_rule_id := controlling_rule_id p;
     parse_confidence := parse_confidence p; uncertainty_class := uncertainty_class p;
     match_count := match_count p; prompted := prompted p;
     approval_reuse_status := approval_reuse_status p;
     request_correlation := request_correlation p; session_correlation := session_correlation p;
     receipt_link_status := receipt_link_status p; receipt_id := receipt_id p;
     evaluation_latency_bucket := evaluation_latency_bucket p;
     persistence_latency_bucket := persistence; schema_version := schema_version p |}.

Definition build_correlated_post_activity (p : CommandActivity) (request : CorrelationHandle)
    (succeeded : bool) (persistence : ActivityLatencyBucket) : result CommandActivity :=
  raise_if (negb (bool_decide (execution_status p = ALLOWED_UNCONFIRMED)))
    (ValueError "only allowed-unconfirmed activity can receive post-hook proof") ;;
  raise_if (negb (bool_decide (request_correlation p = Some request)))
    (ValueError "post-hook proof requires the exact pre-hook request correlation") ;;
  make_CommandActivity (post_activity p succeeded persistence).

Definition build_correlated_post_evidence (p : CommandActivityEvidence) (request : CorrelationHandle)
    (succeeded : bool) (persistence : ActivityLatencyBucket) : result CommandActivityEvidence :=
  a ← build_correlated_post_activity (activity p) request succeeded persistence ;
  make_CommandActivityEvidence a (matches p).

Definition unpaired_activity (id : pystr) (at_ : datetime) (harness : pystr) (succeeded : bool)
    (session : option CorrelationHandle) (persistence : ActivityLatencyBucket) : CommandActivity :=
  {| activity_id := id; occurred_at := at_; harness := harness;
     hook_phase := if succeeded then POST_SUCCESS else POST_FAILURE;
     execution_status := UNPAIRED_POST; proof_level := Proof_UNPAIRED_POST;
     policy_action := None; decision_reason_code := None; controlling_rule_id := None;
     parse_confidence := None; uncertainty_class := None; match_count := 0; prompted := false;
     approval_reuse_status := Reuse_NOT_APPLICABLE; request_correlation := None;
     session_correlation := session; receipt_link_status := Receipt_NOT_APPLICABLE;
     receipt_id := None; evaluation_latency_bucket := NOT_MEASURED;
     persistence_latency_bucket := persistence; schema_version := COMMAND_ACTIVITY_SCHEMA_VERSION |}.

Definition build_unpaired_post_evidence (id : pystr) (at_ : datetime) (harness : pystr)
    (succeeded : bool) (session : option CorrelationHandle) (persistence : ActivityLatencyBucket)
    : result CommandActivityEvidence :=
  a ← make_CommandActivity (unpaired_activity id at_ harness succeeded session persistence) ;
  make_CommandActivityEvidence a [].

(** ** Lemmas *)

Definition facts (a : CommandActivity) :=
  (activity_id a, occurred_at a, harness a, policy_action a, decision_reason_code a,
   controlling_rule_id a, parse_confidence a, uncertainty_class a, match_count a, prompted a,
   approval_reuse_status a, request_correlation a, session_correlation a, receipt_link_status a,
   receipt_id a, evaluation_latency_bucket a, schema_version a).

Lemma same_facts_iff (p c : CommandActivity) : same_facts p c = true ↔ facts p = facts c.
Proof.
  unfold same_facts, facts. split.
  - intros H. split_bool.
    repeat match goal with E : bool_decide _ = true |- _ => apply bool_decide_eq_true in E end. congruence.
  - intros [=]. by repeat (apply andb_true_iff; split; [|by apply bool_decide_eq_true]); apply bool_decide_eq_true.
Qed.

Lemma validate_transition_Ok (p c : CommandActivity) :
  validate_activity_transition p c = Ok tt ↔
  facts p = facts c ∧ (p = c ∨ execution_status c ∈ allowed_next (execution_status p)).
Proof.
  unfold validate_activity_transition. rewrite then_Ok, raise_if_Ok.
  rewrite negb_false_iff, same_facts_iff. case_bool_decide as E.
  - rewrite raise_if_Ok, negb_false_iff, bool_decide_eq_true. split; [tauto|].
    intros [? [->|Hin]]; [done|]. exfalso. rewrite <- E in Hin.
    destruct (execution_status p); set_solver.
  - rewrite raise_if_Ok, negb_false_iff, py_in_true. split; [tauto|].
    intros [? [->|?]]; done.
Qed.

(** An update of a stored activity: a well-formed row the lifecycle accepts. *)
Definition recorded_update (p c : CommandActivity) : Prop :=
  check_CommandActivity c = Ok tt ∧ validate_activity_transition p c = Ok tt.

Lemma update_facts (p c : CommandActivity) : recorded_update p c → facts p = facts c.
Proof. intros [_ [? _]%validate_transition_Ok]. done. Qed.

Lemma updates_facts (p c : CommandActivity) : rtc recorded_update p c → facts p = facts c.
Proof. induction 1 as [|x y z Hs _ IH]; [done|]. apply update_facts in Hs. congruence. Qed.

Lemma final_absorbing (p c : CommandActivity) :
  allowed_next (execution_status p) = [] → rtc recorded_update p c → c = p.
Proof.
  intros Hp. induction 1 as [|x y z [_ Hs] _ IH]; [done|].
  apply validate_transition_Ok in Hs as [_ [->|Hin]]; [by apply IH|].
  rewrite Hp in Hin. by apply elem_of_nil in Hin.
Qed.

(** Sequences of checks, taken apart and put together. *)
Ltac inv_then H := repeat (apply then_Ok in H as [? H]).
Ltac solve_then := repeat (apply then_Ok; split); try done; try assumption.

(** A post-hook proof of a well-formed allowed activity is well formed. *)
Lemma post_activity_well_formed (p : CommandActivity) (succeeded : bool)
    (persistence : ActivityLatencyBucket) :
  check_CommandActivity p = Ok tt → execution_status p = ALLOWED_UNCONFIRMED →
  request_correlation p ≠ None → check_CommandActivity (post_activity p succeeded persistence) = Ok tt.
Proof.
  intros Hp Hs Hr. unfold check_CommandActivity, validate_activity_state in *.
  inv_then Hp. unfold check_status_facts. rewrite Hs in *.
  destruct succeeded; simpl; solve_then; apply raise_if_Ok; by apply bool_decide_eq_false.
Qed.

(** How far an activity has come. *)
Definition progress (s : CommandExecutionStatus) : nat :=
  match s with ATTEMPTED => 0 | ALLOWED_UNCONFIRMED => 1 | _ => 2 end.

Lemma update_progress (p c : CommandActivity) :
  recorded_update p c → p ≠ c → (progress (execution_status p) < progress (execution_status c))%nat.
Proof.
  intros [_ [_ [->|Hin]]%validate_transition_Ok] Hne; [done|].
  destruct (execution_status p), (execution_status c); simpl in *; try lia; set_solver.
Qed.

Lemma post_activity_facts (p : CommandActivity) succeeded persistence :
  facts (post_activity p succeeded persistence) = facts p.
Proof. done. Qed.

(** The rows of a pre-hook record are pre-hook rows with the decided status. *)
Lemma build_pre_hook_activity e d id at_ h request session ev pe out :
  build_pre_hook_evidence e d id at_ h request session ev pe = Ok out →
  activity out = pre_hook_activity e d id at_ h request session ev pe (length (matches out)) ∧
  activity_matches id 0 (evaluation_matches e) = Ok (matches out) ∧
  check_CommandActivity (activity out) = Ok tt ∧ check_CommandActivityEvidence out = Ok tt.
Proof.
  unfold build_pre_hook_evidence, make_CommandActivity, make_CommandActivityEvidence.
  intros (ms & Hms & [_ (a & [Ha Ea]%then_Ok & [He Eo]%then_Ok)%bind_Ok]%then_Ok)%bind_Ok.
  injection Ea as <-. injection Eo as <-. done.
Qed.

Lemma activity_match_Ok id i owned m :
  activity_match id i owned = Ok m →
  match_activity_id m = id ∧ ordinal m = i ∧ default_floor m = recorded_floor owned ∧
  ExtensionEvidence.rule_id (match_identity m) = CommandCatalog.rule_id (owned_rule owned) ∧
  match_effect_claims m ≠ [] ∧
  command_risk_effects (rule_risk_classes (owned_rule owned)) None = Ok (match_effect_claims m).
Proof.
  unfold activity_match. intros (effects & He & [_ (sev & _ & [Hc [= <-]]%then_Ok)%bind_Ok]%then_Ok)%bind_Ok.
  simpl. repeat split; try done. intros ->.
  unfold check_CommandActivityMatch in Hc. inv_then Hc. simpl in *.
  discriminate.
Qed.

Lemma activity_matches_Ok id i owned ms :
  activity_matches id i owned = Ok ms →
  Forall2 (λ o m, ∃ j, activity_match id j o = Ok m) owned ms ∧
  ordinal <$> ms = Z.of_nat <$> seq i (length ms).
Proof.
  revert i ms. induction owned as [|o owned IH]; simpl; intros i ms H.
  - injection H as <-. split; [constructor | done].
  - apply bind_Ok in H as (m & Hm & (rows & Hr & H)%bind_Ok). injection H as <-.
    destruct (IH _ _ Hr) as [H1 H2]. split; [constructor; eauto|].
    rewrite fmap_cons, H2. simpl. f_equal. by apply activity_match_Ok in Hm as (_ & ? & _).
Qed.

(** What a well-formed row with a confirmed status shows. *)
Definition phase_of (s : CommandExecutionStatus) : CommandHookPhase :=
  if bool_decide (s = CONFIRMED_SUCCESS) then POST_SUCCESS else POST_FAILURE.

Lemma confirmed_row (c : CommandActivity) :
  check_CommandActivity c = Ok tt → execution_status c ∈ [CONFIRMED_SUCCESS; CONFIRMED_FAILURE] →
  request_correlation c ≠ None ∧ hook_phase c = phase_of (execution_status c) ∧
  proof_level c = Proof_POST_HOOK.
Proof.
  intros Hc Hin. unfold check_CommandActivity, validate_activity_state in Hc. inv_then Hc.
  match goal with H : check_status_facts c = _ |- _ => unfold check_status_facts in H; rename H into Hs end.
  apply list_elem_of_In in Hin. destruct Hin as [E|[E|[]]]; rewrite <- E in *;
    apply then_Ok in Hs as [Ha%raise_if_Ok Hb%raise_if_Ok%bool_decide_eq_false]; simpl in Ha; split_bool;
    split_and!; try done; by eapply bool_decide_eq_true_1.
Qed.

(** ** Theorems *)

(** C27: in any sequence of updates the lifecycle accepts, starting from the
    record of a pre-hook decision, a row that proves an execution carries the
    decision unchanged: its policy action is below review, the strong request
    handle of the proof is the one given before the command ran, and every
    decision and match fact is the one first recorded. *)
Theorem execution_proof_justified e d id at_ h request session ev pe out b :
  build_pre_hook_evidence e d id at_ h request session ev pe = Ok out →
  rtc recorded_update (activity out) b →
  execution_status b ∈ [CONFIRMED_SUCCESS; CONFIRMED_FAILURE] →
  at_least_review (facts_policy_action d) = false ∧ facts b = facts (activity out) ∧
  (∃ handle, request = Some handle ∧ request_correlation b = Some handle) ∧
  hook_phase b = phase_of (execution_status b) ∧
  proof_level b = Proof_POST_HOOK.
Proof.
  intros (Ha & _ & Hc & _)%build_pre_hook_activity Hsteps Hb.
  pose proof (updates_facts _ _ Hsteps) as Hf.
  assert (check_CommandActivity b = Ok tt) as Hcb.
  { apply rtc_inv_r in Hsteps as [<-|(x & _ & [Hx _])]; done. }
  assert (at_least_review (facts_policy_action d) = false) as Hr.
  { apply not_true_iff_false. intros Hr.
    assert (b = activity out) as -> by
      (apply final_absorbing; [by rewrite Ha; simpl; unfold decided_status; rewrite Hr | done]).
    rewrite Ha in Hb. simpl in Hb. unfold decided_status in Hb. rewrite Hr in Hb. set_solver. }
  assert (request_correlation b = request) as Hreq by (rewrite Ha in Hf; by injection Hf).
  destruct (confirmed_row b Hcb Hb) as (Hn & Hph & Hpl).
  repeat split; try done. destruct (request_correlation b) as [handle|]; [|done]. by exists handle.
Qed.

(** C34: a row of a command changes at most twice: whatever updates are tried,
    no chain of accepted updates that change the row has more than two. *)
Theorem activity_lifecycle_bounded (n : nat) (a b : CommandActivity) :
  nsteps (λ p c, recorded_update p c ∧ p ≠ c) n a b →
  (n <= 2)%nat ∧ facts b = facts a ∧ (allowed_next (execution_status a) = [] → n = 0%nat).
Proof.
  intros H.
  assert (progress (execution_status a) + n <= progress (execution_status b))%nat as Hp.
  { induction H as [|n x y z [Hs Hne] _ IH]; [lia|]. pose proof (update_progress _ _ Hs Hne). lia. }
  assert (progress (execution_status b) <= 2)%nat by (destruct (execution_status b); simpl; lia).
  split_and!; [lia | | intros E; destruct (execution_status a); simpl in *; (lia || done)].
  symmetry. apply updates_facts. apply rtc_nsteps_2 in H.
  revert H. apply rtc_subrel. by intros ?? [].
Qed.

(** the post-hook builder makes exactly the updates the lifecycle accepts:
    a well-formed row whose command was allowed can be changed, by an accepted
    update, to the proofs [build_correlated_post_activity] returns for its own
    request handle and to nothing else, and each of those is accepted. *)
Theorem post_proof_exact (p c : CommandActivity) :
  check_CommandActivity p = Ok tt → execution_status p = ALLOWED_UNCONFIRMED →
  (recorded_update p c ∧ p ≠ c) ↔
  (∃ request succeeded persistence,
    build_correlated_post_activity p request succeeded persistence = Ok c).
Proof.
  intros Hp Hs. split.
  - intros [[Hc Hv] Hne]. apply validate_transition_Ok in Hv as [Hf [->|Hin]]; [done|].
    rewrite Hs in Hin. simpl in Hin.
    destruct (confirmed_row c Hc Hin) as (Hn & Hph & Hpl).
    assert (∃ request succeeded, request_correlation p = Some request ∧
      c = post_activity p succeeded (persistence_latency_bucket c)) as (request & succeeded & Hr & Ec).
    { destruct (request_correlation c) as [request|] eqn:Er; [|done].
      exists request, (bool_decide (execution_status c = CONFIRMED_SUCCESS)).
      destruct c, p. unfold facts, post_activity, phase_of in *. simpl in *.
      injection Hf; intros; subst. split; [done|].
      apply list_elem_of_In in Hin. by destruct Hin as [<-|[<-|[]]]. }
    exists request, succeeded, (persistence_latency_bucket c).
    unfold build_correlated_post_activity, make_CommandActivity. rewrite Hs, Hr, <- Ec.
    rewrite !bool_decide_eq_true_2 by done. simpl. by rewrite Hc.
  - intros (request & succeeded & persistence & H).
    unfold build_correlated_post_activity, make_CommandActivity in H.
    inv_then H. injection H as <-. split.
    + split; [done|]. apply validate_transition_Ok. split; [by rewrite post_activity_facts|].
      right. rewrite Hs. simpl. destruct succeeded; set_solver.
    + intros E. apply (f_equal execution_status) in E. rewrite Hs in E. by destruct succeeded.
Qed.

(** the builders of rows without an evaluation never trip over the
    invariant of the rows.  They succeed exactly on well-formed identifiers, a
    UTC time and a handle of the right kind and harness (and, before the
    command, a decision that does not claim both a prompt and an accepted
    reuse); an unpaired post-hook row then claims no decision, match or
    receipt, and a policy row records the decision as prevented exactly from
    review on. *)
Theorem unevaluated_rows_exact id at_ h action request session receipt prompted reuse claimed succeeded pe :
  let fields := fullmatch OPAQUE_ID id && bool_decide (utcoffset at_ = Some 0)
                && is_ok (require_stable_id h "harness") in
  let fits k c := is_ok (require_optional_correlation c k h) in
  (is_ok (build_policy_only_pre_hook_evidence id at_ h action request receipt prompted reuse claimed)
   = fields && negb (prompted && bool_decide (reuse = Reuse_ACCEPTED)) && fits Kind_REQUEST request
     && match receipt with Some r => fullmatch OPAQUE_ID r | None => true end) ∧
  (is_ok (build_unpaired_post_evidence id at_ h succeeded session pe)
   = fields && fits Kind_SESSION session).
Proof.
  unfold build_policy_only_pre_hook_evidence, build_unpaired_post_evidence, make_CommandActivity,
    make_CommandActivityEvidence, check_CommandActivity, require_opaque_id, require_utc_datetime.
  split.
  - simpl. destruct (fullmatch OPAQUE_ID id); [|done]. destruct (bool_decide (utcoffset at_ = _)); [|done].
    simpl. destruct (require_stable_id h _) as [[]|]; [|done].
    simpl. destruct (prompted && _); [done|]. simpl.
    destruct (require_optional_correlation request _ h) as [[]|]; [|done]. simpl.
    destruct receipt as [r|]; simpl; [destruct (fullmatch OPAQUE_ID r); [|done] |];
      destruct action, claimed; vm_compute; reflexivity.
  - simpl. destruct (fullmatch OPAQUE_ID id); [|done]. destruct (bool_decide (utcoffset at_ = _)); [|done].
    simpl. destruct (require_stable_id h _) as [[]|]; [|done].
    simpl. destruct (require_optional_correlation session _ h) as [[]|]; [|done].
    destruct succeeded; reflexivity.
Qed.

(** C39: evidence built from an evaluation keeps every match of it, in order and
    under contiguous ordinals: each row names the parent, the matched rule, the
    floor recorded for it and a non-empty set of effects; no rule appears
    twice, the controlling rule is one of the rows, and the activity is
    prevented exactly when the final action is at least a review. *)
Theorem pre_hook_evidence_rows e d id at_ h request session ev pe out :
  build_pre_hook_evidence e d id at_ h request session ev pe = Ok out →
  Forall2 (λ o m, match_activity_id m = id ∧ default_floor m = recorded_floor o ∧
                  ExtensionEvidence.rule_id (match_identity m) = CommandCatalog.rule_id (owned_rule o) ∧
                  match_effect_claims m ≠ []) (evaluation_matches e) (matches out) ∧
  ordinal <$> matches out = range (length (matches out)) ∧
  NoDup ((λ m, ExtensionEvidence.rule_id (match_identity m)) <$> matches out) ∧
  (∀ r, evaluation_controlling_rule_id e = Some r →
    r ∈ (λ m, ExtensionEvidence.rule_id (match_identity m)) <$> matches out) ∧
  (execution_status (activity out) = PREVENTED ↔ at_least_review (facts_policy_action d) = true).
Proof.
  intros (Ha & Hm & _ & He)%build_pre_hook_activity.
  destruct (activity_matches_Ok _ _ _ _ Hm) as [H1 H2].
  unfold check_CommandActivityEvidence in He. inv_then He.
  rewrite !raise_if_Ok in *. split_and!.
  - eapply Forall2_impl; [exact H1|]. intros o m (j & Hj).
    apply activity_match_Ok in Hj as (? & ? & ? & ? & ? & ?). done.
  - exact H2.
  - by apply has_dups_false.
  - intros r Hr. rewrite Ha in He. simpl in He. rewrite Hr in He.
    by apply negb_false_iff, py_in_true in He.
  - rewrite Ha. simpl. unfold decided_status. by destruct (at_least_review _).
Qed.

(** the floor an activity row records for a matched rule is the floor the
    evaluator applies to it, except for a disabled rule below critical severity
    of a required extension, where the row says review and the evaluator asks
    for nothing. *)
Theorem recorded_floor_agrees (owned : OwnedCommandRuleMatch) :
  let severity := rule_severity (owned_rule owned) in
  let mode := default_mode (owned_rule owned) in
  if required (owned_extension owned) && negb (bool_decide (severity = $"critical"))
     && match mode with mode_disabled => true | _ => false end
  then recorded_floor owned = review ∧ owned_floor owned = Floor_ALLOW
  else decision_action_floor (recorded_floor owned) = owned_floor owned.
Proof.
  unfold recorded_floor, owned_floor, rule_floor. simpl.
  destruct (required _), (bool_decide _), (default_mode _); done.
Qed.

(** ** Instances *)

Definition sample_handle : CorrelationHandle :=
  {| kind := Kind_REQUEST; handle_harness := $"codex"; key_id := $"local.k1";
     digest := replicate 64 97 |}.
Definition sample_composite (conf : ParseConfidence) (reason : option pystr)
    (ms : list OwnedCommandRuleMatch) (controlling : option pystr) : CompositeCommandEvaluation :=
  {| command := {| normalized_text := $"git push"; security_identity := $"guard:v1:abc";
                   confidence := conf; uncertainty_reason := reason; redirect_operators := [] |};
     evaluation_matches := ms; controlling_action_class := None; controlling_reason := None;
     evaluation_controlling_rule_id := controlling; minimum_action := Floor_REVIEW;
     extension_observations := [];
     decision_plane := {| action := review; final_disposition := Final_REVIEW; controlling_reasons := [];
                          reasons := []; proof_routes := [] |};
     baseline_factors := []; baseline_uncertainties := [];
     control_resolution :=
       {| composed := {| global_lockdown := false; controls := []; composed_failures := [] |};
          blocked := false; res_factors := []; failures := []; observations := [];
          explicitly_enabled_permission_ids := [] |};
     private_control_evidence :=
       {| ControlRuntime.evidence_revision := 1; ControlRuntime.evidence_managed_revision := 0;
          ControlRuntime.evidence_effective_digest := [] |} |}.
Definition sample_evaluation : CompositeCommandEvaluation := sample_composite parse_exact None [] None.
Definition sample_facts (action : GuardAction) : CommandActivityDecisionFacts :=
  {| facts_policy_action := action; facts_decision_reason_code := Reason_NO_MATCH;
     facts_prompted := false; facts_approval_reuse_status := Reuse_NOT_APPLICABLE;
     facts_receipt_id := Some ($"r1"); workflow_authorization_claimed := false |}.
Definition sample_time : datetime := {| instant := 0; utcoffset := Some 0 |}.
Definition sample_row (action : GuardAction) : CommandActivity :=
  pre_hook_activity sample_evaluation (sample_facts action) ($"a1") sample_time ($"codex")
    (Some sample_handle) None LE_1_MS NOT_MEASURED 0.

Lemma sample_built action :
  build_pre_hook_evidence sample_evaluation (sample_facts action) ($"a1") sample_time ($"codex")
    (Some sample_handle) None LE_1_MS NOT_MEASURED = Ok {| activity := sample_row action; matches := [] |}.
Proof. destruct action; vm_compute; reflexivity. Qed.

Lemma sample_row_ok : check_CommandActivity (sample_row allow) = Ok tt.
Proof. vm_compute; reflexivity. Qed.

Lemma sample_post_update : recorded_update (sample_row allow) (post_activity (sample_row allow) true LE_2_MS).
Proof. split; vm_compute; reflexivity. Qed.

Lemma execution_proof_witness :
  at_least_review allow = false ∧
  facts (post_activity (sample_row allow) true LE_2_MS) = facts (sample_row allow).
Proof.
  destruct (execution_proof_justified _ _ _ _ _ _ _ _ _ _ (post_activity (sample_row allow) true LE_2_MS)
    (sample_built allow)) as (H1 & H2 & _).
  - apply rtc_once, sample_post_update.
  - left.
  - split; [exact H1 | exact H2].
Defined.

Lemma sample_step :
  nsteps (λ p c, recorded_update p c ∧ p ≠ c) 1 (sample_row allow) (post_activity (sample_row allow) true LE_2_MS).
Proof.
  apply (nsteps_l _ _ _ (post_activity (sample_row allow) true LE_2_MS)); [|constructor].
  split; [exact sample_post_update | by intros E%(f_equal execution_status)].
Qed.

Lemma lifecycle_bounded_witness : (1 <= 2)%nat ∧
  facts (post_activity (sample_row allow) true LE_2_MS) = facts (sample_row allow).
Proof.
  destruct (activity_lifecycle_bounded 1 _ _ sample_step) as (H1 & H2 & _). exact (conj H1 H2).
Defined.

Lemma post_proof_witness : ∃ request succeeded persistence,
  build_correlated_post_activity (sample_row allow) request succeeded persistence
  = Ok (post_activity (sample_row allow) true LE_2_MS).
Proof.
  apply (post_proof_exact (sample_row allow)); [exact sample_row_ok | reflexivity|].
  split; [exact sample_post_update | by intros E%(f_equal execution_status)].
Defined.

Definition sample_owned (id : pystr) : OwnedCommandRuleMatch :=
  {| owned_extension := sample_extension ($"command.git") [] [] [];
     owned_rule :=
       {| CommandCatalog.rule_id := id; CommandCatalog.rule_version := $"1.0.0"; rule_title := [];
          rule_description := []; rule_severity := $"high"; default_mode := mode_review;
          rule_action_classes := []; rule_risk_classes := [$"destructive_shell"; $"network_egress"];
          rule_safer_alternatives := []; compatibility_fallback := false; rule_matcher_kind := [];
          rule_matcher_contract_digest := []; safe_variants := []; rule_family := None |};
     owned_action_class := None; owned_reason := []; owned_matcher_evidence := [] |}.
Definition sample_matched : CompositeCommandEvaluation :=
  sample_composite parse_fallback (Some ($"unsupported_glob"))
    [sample_owned ($"command.git.push"); sample_owned ($"command.git.reset")] (Some ($"command.git.reset")).
Definition sample_matched_facts : CommandActivityDecisionFacts :=
  {| facts_policy_action := require_reapproval; facts_decision_reason_code := Reason_EXTENSION_MATCH;
     facts_prompted := true; facts_approval_reuse_status := Reuse_REJECTED;
     facts_receipt_id := Some ($"r1"); workflow_authorization_claimed := false |}.
Definition sample_matched_evidence : result CommandActivityEvidence :=
  build_pre_hook_evidence sample_matched sample_matched_facts ($"a1") sample_time ($"codex")
    (Some sample_handle) None LE_1_MS NOT_MEASURED.

Lemma pre_hook_rows_witness : ∃ out,
  sample_matched_evidence = Ok out ∧ ordinal <$> matches out = range (length (matches out)).
Proof.
  destruct sample_matched_evidence as [out|] eqn:E; [|vm_compute in E; discriminate E].
  exists out. split; [reflexivity|].
  exact (proj1 (proj2 (pre_hook_evidence_rows _ _ _ _ _ _ _ _ _ out E))).
Defined.

End Activity.
