(* ===== verification/IpAddress.v ===== *)
(** * IP addresses and networks

    The parts of Python's standard module [ipaddress] (as of CPython 3.11) that
    the network mediation code calls: [ip_address], [ip_network] with
    [strict=True], [.compressed], [.version], [address in network] and the
    address classes.  A parse error ([AddressValueError], [NetmaskValueError],
    both [ValueError]s) is [None]; so is the strict host-bits error.

    The main result is that [compressed] is canonical: parsing it gives the
    address back. *)

From S2P Require Import Prelude PyStr Sha256.
Local Open Scope Z_scope.
Local Open Scope py_scope.

Inductive ip := IPv4 (n : Z) | IPv6 (n : Z) (scope_id : option pystr).
Global Instance ip_eq_dec : EqDecision ip.
Proof. solve_decision. Defined.

Definition ip_version (a : ip) : Z := match a with IPv4 _ => 4 | IPv6 _ _ => 6 end.

(** ** Parsing *)

Definition parse_octet (s : pystr) : option Z :=
  if negb (str_isdigit s) then None
  else if (3 <? length s)%nat then None
  else if negb (bool_decide (s = [48])) && startswith [48] s then None
  else if 255 <? py_int s then None
  else Some (py_int s).

(** [_BaseV4._ip_int_from_string] *)
Definition v4_from_string (s : pystr) : option Z :=
  match split_char 46 s with
  | [a; b; c; d] =>
      a ← parse_octet a; b ← parse_octet b; c ← parse_octet c; d ← parse_octet d;
      Some (((a * 256 + b) * 256 + c) * 256 + d)
  | _ => None
  end.

(** [IPv4Address(s)] *)
Definition parse_v4 (s : pystr) : option Z :=
  if contains [47] s then None else v4_from_string s.

Definition hex_value (c : Z) : option Z :=
  if in_range 48 57 c then Some (c - 48)
  else if in_range 97 102 c then Some (c - 87)
  else if in_range 65 70 c then Some (c - 55)
  else None.

Definition hex_step (acc : option Z) (c : Z) : option Z :=
  n ← acc; d ← hex_value c; Some (16 * n + d).

Definition parse_hextet (s : pystr) : option Z :=
  if bool_decide (s = []) || (4 <? length s)%nat then None else foldl hex_step (Some 0) s.

(** [ip_int <<= 16; ip_int |= hextet] over a list of parts *)
Fixpoint shift_hextets (acc : Z) (parts : list pystr) : option Z :=
  match parts with
  | [] => Some acc
  | p :: parts => h ← parse_hextet p; shift_hextets (Z.lor (Z.shiftl acc 16) h) parts
  end.

(** [b'%x' % n] for [0 <= n < 65536] *)
Definition hex16 (n : Z) : pystr :=
  if n <? 16 then [hex_digit n]
  else if n <? 256 then hex_digit <$> [n / 16; n mod 16]
  else if n <? 4096 then hex_digit <$> [n / 256; n / 16 mod 16; n mod 16]
  else hex_digit <$> [n / 4096; n / 256 mod 16; n / 16 mod 16; n mod 16].

(** The indices [i] with [1 <= i < len(parts) - 1] and [parts[i] == ""]. *)
Definition empty_inner (parts : list pystr) : list nat :=
  filter (λ i, parts !! i = Some []) (seq 1 (length parts - 2)).

Definition first_empty (parts : list pystr) : bool := bool_decide (head parts = Some []).
Definition last_empty (parts : list pystr) : bool := bool_decide (last parts = Some []).

(** The part of [_BaseV6._ip_int_from_string] after the split on colons and
    the conversion of an IPv4 suffix. *)
Definition v6_from_parts (parts : list pystr) : option Z :=
  if (9 <? length parts)%nat then None
  else
  match empty_inner parts with
  | [] =>
      if negb (length parts =? 8)%nat || first_empty parts || last_empty parts then None
      else shift_hextets 0 parts
  | [skip] =>
      let hi := (skip - if first_empty parts then 1 else 0)%nat in
      let lo := (length parts - skip - 1 - if last_empty parts then 1 else 0)%nat in
      if (first_empty parts && negb (hi =? 0)%nat) || (last_empty parts && negb (lo =? 0)%nat)
         || (8 <=? hi + lo)%nat then None
      else
      top ← shift_hextets 0 (take hi parts);
      shift_hextets (Z.shiftl top (16 * (8 - Z.of_nat (hi + lo)))) (drop (length parts - lo) parts)
  | _ => None
  end.

(** The last part with a dot is an IPv4 address. *)
Definition convert_suffix (parts : list pystr) : option (list pystr) :=
  match last parts with
  | Some p =>
      if contains [46] p then
        n ← parse_v4 p;
        Some (take (length parts - 1) parts
              ++ [hex16 (Z.land (Z.shiftr n 16) 65535); hex16 (Z.land n 65535)])
      else Some parts
  | None => Some parts
  end.

(** [_BaseV6._ip_int_from_string] *)
Definition v6_from_string (s : pystr) : option Z :=
  let parts := split_char 58 s in
  if bool_decide (s = []) || (length parts <? 3)%nat then None
  else parts ← convert_suffix parts; v6_from_parts parts.

(** [_split_scope_id] *)
Definition split_scope_id (s : pystr) : option (pystr * option pystr) :=
  match partition_char 37 s with
  | (addr, false, _) => Some (addr, None)
  | (addr, true, scope) =>
      if bool_decide (scope = []) || contains [37] scope then None else Some (addr, Some scope)
  end.

(** [IPv6Address(s)] *)
Definition parse_v6 (s : pystr) : option ip :=
  if contains [47] s then None
  else
  r ← split_scope_id s;
  n ← v6_from_string r.1;
  Some (IPv6 n r.2).

(** [ip_address(s)] *)
Definition ip_address (s : pystr) : option ip :=
  match parse_v4 s with
  | Some n => Some (IPv4 n)
  | None => parse_v6 s
  end.

(** ** Printing *)

Definition byte_of (n : Z) (i : Z) : Z := Z.land (Z.shiftr n (8 * i)) 255.
Definition hextet_of (n : Z) (i : Z) : Z := Z.land (Z.shiftr n (16 * i)) 65535.

Definition v4_string (n : Z) : pystr :=
  join [46] (str_of_nonneg <$> [byte_of n 3; byte_of n 2; byte_of n 1; byte_of n 0]).

(** The scan of [_compress_hextets]: the start and length of the best run and
    of the current one, over the remaining hextets. *)
Fixpoint best_run (index start len best_start best_len : nat) (hextets : list pystr) : nat * nat :=
  match hextets with
  | [] => (best_start, best_len)
  | h :: hextets =>
      if bool_decide (h = [48]) then
        let start := if (len =? 0)%nat then index else start in
        let len := S len in
        if (best_len <? len)%nat then best_run (S index) start len start len hextets
        else best_run (S index) start len best_start best_len hextets
      else best_run (S index) 0 0 best_start best_len hextets
  end.

Definition compress_hextets (hextets : list pystr) : list pystr :=
  let '(start, len) := best_run 0 0 0 0 0 hextets in
  if (1 <? len)%nat then
    (if (start =? 0)%nat then [[]] else [])
    ++ take start hextets ++ [[]] ++ drop (start + len) hextets
    ++ (if (start + len =? length hextets)%nat then [[]] else [])
  else hextets.

Definition v6_hextets (n : Z) : list Z := hextet_of n <$> [7; 6; 5; 4; 3; 2; 1; 0].
Definition v6_string (n : Z) : pystr := join [58] (compress_hextets (hex16 <$> v6_hextets n)).

(** [address.compressed] *)
Definition compressed (a : ip) : pystr :=
  match a with
  | IPv4 n => v4_string n
  | IPv6 n None => v6_string n
  | IPv6 n (Some scope) => v6_string n ++ [37] ++ scope
  end.

(** ** Networks *)

Record ip_net := { network_address : ip; prefixlen : Z }.
Global Instance ip_net_eq_dec : EqDecision ip_net.
Proof. solve_decision. Defined.

(** [_ALL_ONES ^ (_ALL_ONES >> prefixlen)] for an address of [w] bits *)
Definition netmask (w prefixlen : Z) : Z :=
  Z.lxor (2 ^ w - 1) (Z.shiftr (2 ^ w - 1) prefixlen).

(** [_prefix_from_prefix_string] *)
Definition prefix_from_prefix_string (w : Z) (s : pystr) : option Z :=
  if negb (str_isdigit s) then None
  else if w <? py_int s then None else Some (py_int s).

(** [_count_righthand_zero_bits(n, w)] *)
Fixpoint righthand_zero_bits (w : nat) (n : Z) : Z :=
  match w with
  | O => 0
  | S w => if Z.odd n then 0 else 1 + righthand_zero_bits w (n / 2)
  end.

(** [_prefix_from_ip_int] for an address of [w] bits *)
Definition prefix_from_ip_int (w n : Z) : option Z :=
  let zeroes := righthand_zero_bits (Z.to_nat w) n in
  let prefix := w - zeroes in
  if Z.shiftr n zeroes =? Z.shiftl 1 prefix - 1 then Some prefix else None.

(** [_prefix_from_ip_string]: a dotted netmask, or else a hostmask. *)
Definition prefix_from_ip_string (s : pystr) : option Z :=
  n ← v4_from_string s;
  match prefix_from_ip_int 32 n with
  | Some p => Some p
  | None => prefix_from_ip_int 32 (Z.lxor n (2 ^ 32 - 1))
  end.

(** [IPv4Network(s)._make_netmask] and [IPv6Network(s)._make_netmask]; the
    argument is absent when the text has no slash. *)
Definition v4_prefix (mask : option pystr) : option Z :=
  match mask with
  | None => Some 32
  | Some m =>
      match prefix_from_prefix_string 32 m with
      | Some p => Some p
      | None => prefix_from_ip_string m
      end
  end.
Definition v6_prefix (mask : option pystr) : option Z :=
  match mask with None => Some 128 | Some m => prefix_from_prefix_string 128 m end.

(** The value of an address and the width of its version. *)
Definition ip_int (a : ip) : Z := match a with IPv4 n | IPv6 n _ => n end.
Definition ip_width (a : ip) : Z := match a with IPv4 _ => 32 | IPv6 _ _ => 128 end.

(** [packed & int(netmask) != packed] with [strict=True] raises. *)
Definition strict_network (a : ip) (p : Z) : option ip_net :=
  if Z.land (ip_int a) (netmask (ip_width a) p) =? ip_int a
  then Some {| network_address := a; prefixlen := p |} else None.

(** [ip_network(s, strict=True)].  The host-bits error of [IPv4Network] is a
    plain [ValueError], which [ip_network] does not catch. *)
Definition ip_network (s : pystr) : option ip_net :=
  match split_char 47 s with
  | [] => None
  | addr :: rest =>
      match rest with
      | _ :: _ :: _ => None
      | _ =>
          let mask := head rest in
          match parse_v4 addr, v4_prefix mask with
          | Some n, Some p => strict_network (IPv4 n) p
          | _, _ =>
              a ← parse_v6 addr;
              p ← v6_prefix mask;
              strict_network a p
          end
      end
  end.

(** [packed & int(netmask)] with [strict=False]: an address with host bits is
    replaced by the masked one, which has no scope id. *)
Definition masked_network (a : ip) (p : Z) : ip_net :=
  let packed := Z.land (ip_int a) (netmask (ip_width a) p) in
  if packed =? ip_int a then {| network_address := a; prefixlen := p |}
  else {| network_address := match a with IPv4 _ => IPv4 packed | IPv6 _ _ => IPv6 packed None end;
          prefixlen := p |}.

(** [ip_network(s, strict=False)] *)
Definition ip_network_lax (s : pystr) : option ip_net :=
  match split_char 47 s with
  | [] => None
  | addr :: rest =>
      match rest with
      | _ :: _ :: _ => None
      | _ =>
          let mask := head rest in
          match parse_v4 addr, v4_prefix mask with
          | Some n, Some p => Some (masked_network (IPv4 n) p)
          | _, _ =>
              a ← parse_v6 addr;
              p ← v6_prefix mask;
              Some (masked_network a p)
          end
      end
  end.

(** [network.compressed] *)
Definition net_compressed (n : ip_net) : pystr :=
  compressed (network_address n) ++ [47] ++ str_of_nonneg (prefixlen n).

(** [address in network] *)
Definition in_network (a : ip) (n : ip_net) : bool :=
  (ip_version a =? ip_version (network_address n))
  && (Z.land (ip_int a) (netmask (ip_width a) (prefixlen n)) =? ip_int (network_address n)).

(** ** Address classes *)

Definition v4net (a b c d p : Z) : ip_net :=
  {| network_address := IPv4 (((a * 256 + b) * 256 + c) * 256 + d); prefixlen := p |}.
(** A network from its first three hextets. *)
Definition v6net (a b c p : Z) : ip_net :=
  {| network_address := IPv6 (Z.shiftl (Z.shiftl (Z.shiftl a 16 + b) 16 + c) 80) None;
     prefixlen := p |}.
Definition v6host (n : Z) : ip_net := {| network_address := IPv6 n None; prefixlen := 128 |}.

Definition v4_private_networks : list ip_net :=
  [v4net 0 0 0 0 8; v4net 10 0 0 0 8; v4net 127 0 0 0 8; v4net 169 254 0 0 16;
   v4net 172 16 0 0 12; v4net 192 0 0 0 24; v4net 192 0 0 170 31; v4net 192 0 2 0 24;
   v4net 192 168 0 0 16; v4net 198 18 0 0 15; v4net 198 51 100 0 24; v4net 203 0 113 0 24;
   v4net 240 0 0 0 4; v4net 255 255 255 255 32].
Definition v4_private_exceptions : list ip_net := [v4net 192 0 0 9 32; v4net 192 0 0 10 32].

Definition v6_private_networks : list ip_net :=
  [v6host 1; v6host 0;
   {| network_address := IPv6 (Z.shiftl 65535 32) None; prefixlen := 96 |};
   v6net 0x64 0xff9b 1 48; v6net 0x100 0 0 64; v6net 0x2001 0 0 23; v6net 0x2001 0xdb8 0 32;
   v6net 0x2002 0 0 16; v6net 0xfc00 0 0 7; v6net 0xfe80 0 0 10].
Definition v6_private_exceptions : list ip_net :=
  [v6host (Z.shiftl 0x20010001 96 + 1); v6host (Z.shiftl 0x20010001 96 + 2);
   v6net 0x2001 3 0 32; v6net 0x2001 4 0x112 48; v6net 0x2001 0x20 0 28; v6net 0x2001 0x30 0 28].

(** [IPv6Address.ipv4_mapped] *)
Definition ipv4_mapped (n : Z) : option Z :=
  if Z.shiftr n 32 =? 65535 then Some (Z.land n (2 ^ 32 - 1)) else None.

Definition is_loopback (a : ip) : bool :=
  match a with IPv4 _ => in_network a (v4net 127 0 0 0 8) | IPv6 n _ => n =? 1 end.
Definition is_link_local (a : ip) : bool :=
  match a with
  | IPv4 _ => in_network a (v4net 169 254 0 0 16)
  | IPv6 _ _ => in_network a (v6net 0xfe80 0 0 10)
  end.
Definition is_multicast (a : ip) : bool :=
  match a with
  | IPv4 _ => in_network a (v4net 224 0 0 0 4)
  | IPv6 _ _ => in_network a (v6net 0xff00 0 0 8)
  end.
Definition is_unspecified (a : ip) : bool := ip_int a =? 0.

Definition in_private (a : ip) (nets exceptions : list ip_net) : bool :=
  existsb (in_network a) nets && forallb (λ n, negb (in_network a n)) exceptions.
Definition is_private (a : ip) : bool :=
  match a with
  | IPv4 _ => in_private a v4_private_networks v4_private_exceptions
  | IPv6 n _ =>
      match ipv4_mapped n with
      | Some m => in_private (IPv4 m) v4_private_networks v4_private_exceptions
      | None => in_private a v6_private_networks v6_private_exceptions
      end
  end.

(** ** Examples from the module's documentation *)

Example ip_compressed_examples :
  (λ s, compressed <$> ip_address (lit s)) <$>
    ["192.168.0.1"; "2001:0db8:0000:0000:0000:ff00:0042:8329"; "::"; "::1"; "1::";
     "1:0:0:2:0:0:0:3"; "1:0:2:3:4:5:6:7"; "::ffff:10.0.0.1"; "fe80::1%eth0"; "01.2.3.4"; "1::2::3"; "1:2"; ":1:2:3:4:5:6:7"]%string
  = [Some ($"192.168.0.1"); Some ($"2001:db8::ff00:42:8329"); Some ($"::"); Some ($"::1");
     Some ($"1::"); Some ($"1:0:0:2::3"); Some ($"1:0:2:3:4:5:6:7"); Some ($"::ffff:a00:1");
     Some ($"fe80::1%eth0"); None; None; None; None].
Proof. vm_compute. reflexivity. Qed.

Example ip_network_examples :
  (λ s, net_compressed <$> ip_network (lit s)) <$>
    ["10.0.0.0/8"; "10.0.0.1/8"; "10.0.0.0/255.0.0.0"; "10.0.0.0/0.255.255.255"; "1.2.3.4";
     "2001:db8::/32"; "2001:db8::1/32"; "10.0.0.0/8/9"; "10.0.0.0/33"]%string
  = [Some ($"10.0.0.0/8"); None; Some ($"10.0.0.0/8"); Some ($"10.0.0.0/8");
     Some ($"1.2.3.4/32"); Some ($"2001:db8::/32"); None; None; None].
Proof. vm_compute. reflexivity. Qed.

(** ** Lemmas *)

Lemma contains_single c s : contains [c] s = true ↔ c ∈ s.
Proof.
  induction s as [|d s IH]; simpl; [rewrite elem_of_nil; done|].
  rewrite orb_true_iff, andb_true_iff, IH, elem_of_cons, Z.eqb_eq. naive_solver.
Qed.
Lemma contains_single_false c s : contains [c] s = false ↔ c ∉ s.
Proof. rewrite <- contains_single. by destruct (contains [c] s). Qed.

(** Finite checks over an interval of integers. *)
Fixpoint z_all (fuel : nat) (f : Z → bool) (n : Z) : bool :=
  match fuel with O => true | S fuel => f n && z_all fuel f (n + 1) end.

Lemma z_all_spec fuel f a n : z_all fuel f a = true → a <= n < a + Z.of_nat fuel → f n = true.
Proof.
  revert a. induction fuel as [|fuel IH]; simpl; intros a Hf Hn; [lia|]. split_bool.
  destruct (Z.eq_dec a n) as [->|]; [done|]. apply (IH (a + 1)); [done | lia].
Qed.

(** *** IPv4 *)

Definition octet_check (b : Z) : bool := bool_decide (parse_octet (str_of_nonneg b) = Some b).

Lemma parse_octet_str b : 0 <= b < 256 → parse_octet (str_of_nonneg b) = Some b.
Proof.
  intros Hb. apply (bool_decide_eq_true_1 (parse_octet (str_of_nonneg b) = Some b)).
  apply (z_all_spec 256 octet_check 0); [vm_compute; reflexivity | lia].
Qed.

Lemma parse_octet_bounds s b : parse_octet s = Some b → 0 <= b < 256 ∧ Forall (λ c, is_digit c = true) s.
Proof.
  unfold parse_octet. destruct (str_isdigit s) eqn:Ed; simpl; [|done].
  apply str_isdigit_Forall in Ed as [_ Hd]. pose proof (py_int_nonneg s Hd).
  destruct (3 <? length s)%nat; [done|]. destruct (_ && _); [done|].
  destruct (Z.ltb_spec 255 (py_int s)); [done|]. intros [= <-]. split; [lia | done].
Qed.

Lemma byte_of_bounds n i : 0 <= byte_of n i < 256.
Proof. unfold byte_of. change 255 with (Z.ones 8). rewrite Z.land_ones by lia. apply Z.mod_pos_bound. lia. Qed.

Lemma v4_join n :
  0 <= n < 2 ^ 32 →
  ((byte_of n 3 * 256 + byte_of n 2) * 256 + byte_of n 1) * 256 + byte_of n 0 = n.
Proof.
  intros Hn. unfold byte_of. change 255 with (Z.ones 8). rewrite !Z.land_ones, !Z.shiftr_div_pow2 by lia.
  simpl Z.mul. change (2 ^ 0) with 1. change (2 ^ 8) with 256. change (2 ^ 16) with 65536.
  change (2 ^ 24) with 16777216. change (2 ^ 32) with 4294967296 in Hn.
  Z.to_euclidean_division_equations. lia.
Qed.

Lemma digits_avoid c s : Forall (λ c, is_digit c = true) s → is_digit c = false → c ∉ s.
Proof. rewrite Forall_forall. intros Hs Hc Hin. specialize (Hs c Hin). congruence. Qed.

Lemma str_digits n : 0 <= n → Forall (λ c, is_digit c = true) (str_of_nonneg n).
Proof. intros. by apply dec_digits_digits. Qed.

Lemma join_avoid c sep parts : c ∉ sep → Forall (λ p, c ∉ p) parts → c ∉ join sep parts.
Proof.
  intros Hs. induction 1 as [|p parts Hp Hps IH]; simpl; [apply not_elem_of_nil|].
  destruct parts; [done|]. rewrite !elem_of_app. tauto.
Qed.

Lemma v4_parts_avoid n c :
  is_digit c = false → Forall (λ p, c ∉ p) (str_of_nonneg <$> [byte_of n 3; byte_of n 2; byte_of n 1; byte_of n 0]).
Proof.
  intros Hc. rewrite Forall_fmap. repeat constructor; simpl;
    apply (digits_avoid c); try done; apply str_digits, byte_of_bounds.
Qed.

Lemma parse_v4_string n : 0 <= n < 2 ^ 32 → parse_v4 (v4_string n) = Some n.
Proof.
  intros Hn. unfold parse_v4.
  rewrite (proj2 (contains_single_false 47 (v4_string n))).
  2: { apply join_avoid; [by intros ?%list_elem_of_singleton | by apply v4_parts_avoid]. }
  unfold v4_from_string, v4_string. rewrite split_join_char; [|done|by apply v4_parts_avoid].
  rewrite !fmap_cons, fmap_nil. cbv beta iota.
  rewrite !parse_octet_str by apply byte_of_bounds. cbn [mbind option_bind]. by rewrite v4_join.
Qed.

Lemma parse_v4_chars s n :
  parse_v4 s = Some n → 0 <= n < 2 ^ 32 ∧ Forall (λ c, is_digit c = true ∨ c = 46) s.
Proof.
  unfold parse_v4. case_match; [done|]. unfold v4_from_string.
  pose proof (join_split_char 46 s) as Hj. intros Hs.
  destruct (split_char 46 s) as [|a [|b [|c [|d [|]]]]]; try done.
  destruct (parse_octet a) as [x|] eqn:Ea; [|done]. destruct (parse_octet b) as [y|] eqn:Eb; [|done].
  destruct (parse_octet c) as [z|] eqn:Ec; [|done]. destruct (parse_octet d) as [w|] eqn:Ed; [|done].
  apply parse_octet_bounds in Ea as [? Ha], Eb as [? Hb], Ec as [? Hc], Ed as [? Hd].
  simpl in Hs. injection Hs as <-. split; [change (2 ^ 32) with 4294967296; lia|].
  rewrite <- Hj. simpl. assert (∀ l, Forall (λ c, is_digit c = true) l →
    Forall (λ c, is_digit c = true ∨ c = 46) l) as Hw.
  { intros l Hl. eapply Forall_impl; [exact Hl|]. auto. }
  repeat (apply Forall_app; split; [by apply Hw|]; apply Forall_cons; split; [by right|]).
  by apply Hw.
Qed.

(** *** Hextets *)

Definition nibble_check (k : Z) : bool :=
  bool_decide (hex_value (hex_digit k) = Some k) && is_hex (hex_digit k)
  && bool_decide (hex_digit k = 48 → k = 0).

Lemma nibble_facts k :
  0 <= k < 16 →
  hex_value (hex_digit k) = Some k ∧ is_hex (hex_digit k) = true ∧ (hex_digit k = 48 → k = 0).
Proof.
  intros Hk. assert (nibble_check k = true) as Hc.
  { apply (z_all_spec 16 nibble_check 0); [vm_compute; reflexivity | lia]. }
  unfold nibble_check in Hc. split_bool. rewrite !bool_decide_eq_true in *. done.
Qed.

Lemma fold_nibbles ks acc :
  Forall (λ k, 0 <= k < 16) ks →
  foldl hex_step (Some acc) (hex_digit <$> ks) = Some (foldl (λ n d, 16 * n + d) acc ks).
Proof.
  intros Hks. revert acc. induction Hks as [|k ks Hk Hks IH]; intros acc; [done|].
  rewrite fmap_cons. cbn [foldl]. unfold hex_step at 2. cbn [mbind option_bind].
  destruct (nibble_facts k Hk) as (-> & _). cbn [mbind option_bind]. apply IH.
Qed.

Lemma parse_nibbles ks :
  Forall (λ k, 0 <= k < 16) ks → ks ≠ [] → (length ks <= 4)%nat →
  parse_hextet (hex_digit <$> ks) = Some (foldl (λ n d, 16 * n + d) 0 ks) ∧
  Forall (λ c, is_hex c = true) (hex_digit <$> ks).
Proof.
  intros Hks Hne Hlen. split.
  - unfold parse_hextet. rewrite length_fmap, (proj2 (Nat.ltb_ge _ _) Hlen).
    rewrite bool_decide_false by by destruct ks. simpl. by apply fold_nibbles.
  - rewrite Forall_fmap. eapply Forall_impl; [exact Hks|]. intros k Hk. by apply nibble_facts.
Qed.

Lemma hextet_facts h :
  0 <= h < 65536 →
  parse_hextet (hex16 h) = Some h ∧ Forall (λ c, is_hex c = true) (hex16 h) ∧
  (hex16 h = [48] → h = 0).
Proof.
  intros Hh.
  assert (∀ ks, Forall (λ k, 0 <= k < 16) ks → ks ≠ [] → (length ks <= 4)%nat →
    foldl (λ n d, 16 * n + d) 0 ks = h → hex16 h = hex_digit <$> ks → (length ks = 1)%nat ∨ 16 <= h →
    parse_hextet (hex16 h) = Some h ∧ Forall (λ c, is_hex c = true) (hex16 h) ∧
    (hex16 h = [48] → h = 0)) as Hgen.
  { intros ks Hks Hne Hlen Hval Hhex Hone. destruct (parse_nibbles ks Hks Hne Hlen) as [Hp Hx].
    rewrite Hhex. rewrite Hval in Hp. split; [exact Hp|]. split; [exact Hx|]. intros E.
    destruct ks as [|k [|k' ks]]; [done| |done]. injection E as E. rewrite Forall_singleton in Hks.
    simpl in Hval. destruct (nibble_facts k Hks) as (_ & _ & H0). specialize (H0 E). lia. }
  unfold hex16 in Hgen |- *.
  destruct (Z.ltb_spec h 16); [|destruct (Z.ltb_spec h 256); [|destruct (Z.ltb_spec h 4096)]].
  - apply (Hgen [h]); [repeat constructor; lia|done|simpl; lia|simpl; lia|done|by left].
  - apply (Hgen [h / 16; h mod 16]); [|done|simpl; lia| |done|by right].
    + repeat constructor; Z.to_euclidean_division_equations; lia.
    + simpl foldl. Z.to_euclidean_division_equations; lia.
  - apply (Hgen [h / 256; h / 16 mod 16; h mod 16]); [|done|simpl; lia| |done|right; lia].
    + repeat constructor; Z.to_euclidean_division_equations; lia.
    + simpl foldl. Z.to_euclidean_division_equations; lia.
  - apply (Hgen [h / 4096; h / 256 mod 16; h / 16 mod 16; h mod 16]);
      [|done|simpl; lia| |done|right; lia].
    + repeat constructor; Z.to_euclidean_division_equations; lia.
    + simpl foldl. Z.to_euclidean_division_equations; lia.
Qed.

Lemma hex_step_bound s acc k r :
  foldl hex_step (Some acc) s = Some r → 0 <= acc < 16 ^ Z.of_nat k →
  0 <= r < 16 ^ Z.of_nat (k + length s).
Proof.
  revert acc k. induction s as [|c s IH]; simpl; intros acc k Hr Hacc.
  - injection Hr as <-. by rewrite Nat.add_0_r.
  - unfold hex_value in Hr.
    assert (∃ d, 0 <= d < 16 ∧ foldl hex_step (Some (16 * acc + d)) s = Some r) as (d & Hd & Hr').
    { assert (foldl hex_step None s = None) as Hn by (clear; induction s; done).
      unfold in_range in Hr.
      destruct (Z.leb_spec 48 c), (Z.leb_spec c 57), (Z.leb_spec 97 c), (Z.leb_spec c 102),
        (Z.leb_spec 65 c), (Z.leb_spec c 70); simpl in Hr; try congruence;
        (eexists; split; [|exact Hr]; lia). }
    replace (k + S (length s))%nat with (S k + length s)%nat by lia.
    apply (IH (16 * acc + d)); [done|]. rewrite Nat2Z.inj_succ, Z.pow_succ_r by lia. lia.
Qed.

Lemma parse_hextet_bounds s h : parse_hextet s = Some h → 0 <= h < 65536.
Proof.
  unfold parse_hextet. case_match eqn:E; [done|]. intros Hh. split_bool.
  apply (hex_step_bound s 0 0) in Hh; [|simpl; lia]. simpl in Hh.
  match goal with H : (4 <? _)%nat = false |- _ => apply Nat.ltb_ge in H end.
  assert (16 ^ Z.of_nat (length s) <= 16 ^ 4) by (apply Z.pow_le_mono_r; lia).
  change (16 ^ 4) with 65536 in *. lia.
Qed.

Lemma lor_shift acc h : 0 <= h < 65536 → Z.lor (Z.shiftl acc 16) h = acc * 65536 + h.
Proof.
  intros Hh. assert (Z.land (Z.shiftl acc 16) h = 0) as Hl.
  { apply Z.bits_inj'. intros i Hi. rewrite Z.land_spec, Z.bits_0.
    destruct (Z.ltb_spec i 16).
    - by rewrite Z.shiftl_spec_low.
    - rewrite <- (Z.mod_small h (2 ^ 16)) by (change (2 ^ 16) with 65536; lia).
      rewrite Z.mod_pow2_bits_high by lia. apply andb_false_r. }
  rewrite <- Z.lxor_lor, <- Z.add_nocarry_lxor by done. rewrite Z.shiftl_mul_pow2 by lia. done.
Qed.

Lemma shift_hextets_bound parts acc k r :
  shift_hextets acc parts = Some r → 0 <= acc < 65536 ^ Z.of_nat k →
  0 <= r < 65536 ^ Z.of_nat (k + length parts).
Proof.
  revert acc k. induction parts as [|p parts IH]; simpl; intros acc k Hr Hacc.
  - injection Hr as <-. by rewrite Nat.add_0_r.
  - destruct (parse_hextet p) as [h|] eqn:E; [|done]. apply parse_hextet_bounds in E. simpl in Hr.
    rewrite lor_shift in Hr by done.
    replace (k + S (length parts))%nat with (S k + length parts)%nat by lia.
    apply (IH (acc * 65536 + h)); [done|]. rewrite Nat2Z.inj_succ, Z.pow_succ_r by lia. lia.
Qed.

Lemma v6_from_parts_bound parts n : v6_from_parts parts = Some n → 0 <= n < 2 ^ 128.
Proof.
  change (2 ^ 128) with (65536 ^ Z.of_nat 8). unfold v6_from_parts.
  case_match; [done|]. destruct (empty_inner parts) as [|skip [|]]; [| |done].
  - destruct (length parts =? 8)%nat eqn:El; simpl; [|done]. case_match; [done|].
    apply Nat.eqb_eq in El. intros Hn. apply (shift_hextets_bound _ 0 0) in Hn; [|done].
    by rewrite El in Hn.
  - cbv zeta. set (hi := (skip - _)%nat). set (lo := (length parts - skip - 1 - _)%nat).
    case_match eqn:E; [done|]. split_bool.
    match goal with H : (8 <=? _)%nat = false |- _ => apply Nat.leb_gt in H end.
    destruct (shift_hextets 0 (take hi parts)) as [top|] eqn:Et; simpl; [|done].
    apply (shift_hextets_bound _ 0 0) in Et; [|done]. simpl in Et. intros Hn.
    pose proof (length_take_le parts hi) as Htake.
    assert (length (take hi parts) <= hi)%nat by (rewrite length_take; lia).
    assert (top < 65536 ^ Z.of_nat hi) as Htop.
    { eapply Z.lt_le_trans; [apply Et|]. apply Z.pow_le_mono_r; lia. }
    apply (shift_hextets_bound _ _ (8 - lo)) in Hn.
    + split; [lia|]. eapply Z.lt_le_trans; [apply Hn|]. apply Z.pow_le_mono_r; [lia|].
      rewrite length_drop. lia.
    + rewrite Z.shiftl_mul_pow2 by lia.
      replace (2 ^ (16 * (8 - Z.of_nat (hi + lo)))) with (65536 ^ Z.of_nat (8 - (hi + lo)))
        by (change 65536 with (2 ^ 16); rewrite <- Z.pow_mul_r by lia; f_equal; lia).
      replace (8 - lo)%nat with (hi + (8 - (hi + lo)))%nat by lia.
      rewrite Nat2Z.inj_add, Z.pow_add_r by lia.
      assert (0 < 65536 ^ Z.of_nat (8 - (hi + lo))) by (apply Z.pow_pos_nonneg; lia). nia.
Qed.

(** *** IPv6 *)

Lemma hextet_of_bounds n i : 0 <= hextet_of n i < 65536.
Proof.
  unfold hextet_of. change 65535 with (Z.ones 16). rewrite Z.land_ones by lia.
  apply Z.mod_pos_bound. lia.
Qed.

(** [ip_int <<= 16; ip_int |= h] *)
Definition push_hextet (acc h : Z) : Z := Z.lor (Z.shiftl acc 16) h.

Lemma push_hextet_of n i :
  0 <= i → push_hextet (Z.shiftr n (16 * (i + 1))) (hextet_of n i) = Z.shiftr n (16 * i).
Proof.
  intros Hi. unfold push_hextet. rewrite lor_shift by apply hextet_of_bounds. unfold hextet_of.
  change 65535 with (Z.ones 16). rewrite Z.land_ones by lia. change (2 ^ 16) with 65536.
  replace (16 * (i + 1)) with (16 * i + 16) by lia. rewrite <- Z.shiftr_shiftr by lia.
  rewrite (Z.shiftr_div_pow2 _ 16) by lia. change (2 ^ 16) with 65536.
  pose proof (Z.div_mod (Z.shiftr n (16 * i)) 65536). lia.
Qed.

Lemma push_hextets_of n : 0 <= n < 2 ^ 128 → foldl push_hextet 0 (v6_hextets n) = n.
Proof.
  intros Hn. unfold v6_hextets. rewrite !fmap_cons, fmap_nil. cbn [foldl].
  replace 0 with (Z.shiftr n (16 * (7 + 1))) at 1
    by (rewrite Z.shiftr_div_pow2 by lia; apply Z.div_small; exact Hn).
  rewrite (push_hextet_of n 7) by lia.
  change 7 with (6 + 1). rewrite (push_hextet_of n 6) by lia.
  change 6 with (5 + 1). rewrite (push_hextet_of n 5) by lia.
  change 5 with (4 + 1). rewrite (push_hextet_of n 4) by lia.
  change 4 with (3 + 1). rewrite (push_hextet_of n 3) by lia.
  change 3 with (2 + 1). rewrite (push_hextet_of n 2) by lia.
  change 2 with (1 + 1). rewrite (push_hextet_of n 1) by lia.
  change 1 with (0 + 1). rewrite (push_hextet_of n 0) by lia. apply Z.shiftr_0_r.
Qed.

(** A printed hextet with its value. *)
Definition token (s : pystr) (h : Z) : Prop := parse_hextet s = Some h ∧ s ≠ [].

Lemma shift_tokens ss hs acc :
  Forall2 token ss hs → shift_hextets acc ss = Some (foldl push_hextet acc hs).
Proof.
  intros Hs. revert acc. induction Hs as [|s h ss hs [Hp _] _ IH]; intros acc; [done|].
  simpl. rewrite Hp. simpl. apply IH.
Qed.

(** The run of zeros the scan finds. *)
Definition zero_run (full : list pystr) (start len : nat) : Prop :=
  ∀ i, (start <= i < start + len)%nat → full !! i = Some [48].

Lemma best_run_spec full hextets index start len bs bl s l :
  drop index full = hextets →
  (len = 0 ∨ start + len = index)%nat → zero_run full start len → zero_run full bs bl →
  best_run index start len bs bl hextets = (s, l) → zero_run full s l.
Proof.
  revert index start len bs bl. induction hextets as [|h hextets IH]; intros index start len bs bl;
    simpl; intros Hdrop Hidx Hcur Hbest E.
  - by injection E as <- <-.
  - assert (full !! index = Some h) as Hh.
    { rewrite <- (Nat.add_0_r index), <- lookup_drop, Hdrop. done. }
    assert (drop (S index) full = hextets) as Hdrop'.
    { by rewrite <- Nat.add_1_r, <- drop_drop, Hdrop. }
    destruct (bool_decide_reflect (h = [48])) as [->|Hne].
    + assert (zero_run full (if (len =? 0)%nat then index else start) (S len)) as Hrun.
      { intros i Hi. destruct (Nat.eqb_spec len 0).
        - by replace i with index by lia.
        - destruct (decide (i = index)) as [->|]; [done|]. apply Hcur. lia. }
      assert (S len = 0 ∨ (if (len =? 0)%nat then index else start) + S len = S index)%nat as Hidx'.
      { destruct (Nat.eqb_spec len 0); lia. }
      destruct (bl <? S len)%nat;
        (eapply IH; [exact Hdrop'|exact Hidx'|exact Hrun| |exact E]; assumption).
    + eapply IH; [exact Hdrop'|by left| |exact Hbest|exact E]. intros i Hi. lia.
Qed.

Lemma zero_run_bound full s l : zero_run full s l → (1 < l)%nat → (s + l <= length full)%nat.
Proof.
  intros Hz Hl. specialize (Hz (s + l - 1)%nat ltac:(lia)). apply lookup_lt_Some in Hz. lia.
Qed.

Lemma push_zero acc : push_hextet acc 0 = Z.shiftl acc 16.
Proof. apply Z.lor_0_r. Qed.

(** The printed form of eight hextets with the run [start, start + len) left
    out parses to their value. *)
Definition skip_run (start len : nat) (ss : list pystr) : list pystr :=
  (if (start =? 0)%nat then [[]] else []) ++ take start ss ++ [[]] ++ drop (start + len) ss
  ++ (if (start + len =? length ss)%nat then [[]] else []).

Lemma skip_run_parses ss hs start len :
  Forall2 token ss hs → length ss = 8%nat → (1 < len)%nat → (start + len <= 8)%nat →
  (∀ i, (start <= i < start + len)%nat → hs !! i = Some 0) →
  v6_from_parts (skip_run start len ss) = Some (foldl push_hextet 0 hs).
Proof.
  intros Hs H8 Hl Hsl Hz. pose proof (Forall2_length _ _ _ Hs) as Hlen.
  destruct ss as [|s0 [|s1 [|s2 [|s3 [|s4 [|s5 [|s6 [|s7 [|]]]]]]]]]; try discriminate H8.
  destruct hs as [|h0 [|h1 [|h2 [|h3 [|h4 [|h5 [|h6 [|h7 [|]]]]]]]]]; try discriminate Hlen.
  rewrite !Forall2_cons in Hs.
  destruct Hs as ([P0 N0] & [P1 N1] & [P2 N2] & [P3 N3] & [P4 N4] & [P5 N5] & [P6 N6] & [P7 N7] & _).
  destruct s0 as [|c0 t0], s1 as [|c1 t1], s2 as [|c2 t2], s3 as [|c3 t3], s4 as [|c4 t4],
    s5 as [|c5 t5], s6 as [|c6 t6], s7 as [|c7 t7]; try done.
  assert (start ∈ seq 0 7 ∧ len ∈ seq 2 7) as [Hst Hle] by (rewrite !elem_of_seq; lia).
  clear Hl Hlen H8 N0 N1 N2 N3 N4 N5 N6 N7.
  assert (∀ i k, (start <= k < start + len)%nat → [h0; h1; h2; h3; h4; h5; h6; h7] !! k = Some i → i = 0)
    as Hz' by (intros i k Hk; rewrite Hz by done; congruence). clear Hz.
  cbn [seq] in Hst, Hle. rewrite !elem_of_cons, elem_of_nil in Hst, Hle.
  destruct_or! Hst; destruct_or! Hle; try done; subst start len; try lia;
    repeat match goal with
    | _ => progress (pose proof (Hz' h0 0%nat ltac:(lia) eq_refl); subst h0)
    | _ => progress (pose proof (Hz' h1 1%nat ltac:(lia) eq_refl); subst h1)
    | _ => progress (pose proof (Hz' h2 2%nat ltac:(lia) eq_refl); subst h2)
    | _ => progress (pose proof (Hz' h3 3%nat ltac:(lia) eq_refl); subst h3)
    | _ => progress (pose proof (Hz' h4 4%nat ltac:(lia) eq_refl); subst h4)
    | _ => progress (pose proof (Hz' h5 5%nat ltac:(lia) eq_refl); subst h5)
    | _ => progress (pose proof (Hz' h6 6%nat ltac:(lia) eq_refl); subst h6)
    | _ => progress (pose proof (Hz' h7 7%nat ltac:(lia) eq_refl); subst h7)
    end; clear Hz';
    cbv - [shift_hextets foldl push_hextet Z.shiftl]; cbn [shift_hextets];
    rewrite ?P0, ?P1, ?P2, ?P3, ?P4, ?P5, ?P6, ?P7; cbn [mbind option_bind shift_hextets];
    rewrite ?P0, ?P1, ?P2, ?P3, ?P4, ?P5, ?P6, ?P7; cbn [mbind option_bind foldl];
    unfold push_hextet; rewrite ?Z.lor_0_r, ?Z.shiftl_0_l, ?Z.shiftl_shiftl, ?Z.lor_0_r by lia;
    try reflexivity.
Qed.

(** Characters of printed hextets: hexadecimal digits only. *)
Definition hex_part (p : pystr) : Prop := Forall (λ c, is_hex c = true) p.

Lemma hex_part_avoid c p : hex_part p → is_hex c = false → c ∉ p.
Proof. unfold hex_part. rewrite Forall_forall. intros Hp Hc Hin. specialize (Hp c Hin). congruence. Qed.

Lemma v6_tokens n :
  let ss := hex16 <$> v6_hextets n in
  Forall2 token ss (v6_hextets n) ∧ Forall hex_part ss ∧ length ss = 8%nat ∧
  ∀ i, ss !! i = Some [48] → v6_hextets n !! i = Some 0.
Proof.
  assert (Forall (λ h, 0 <= h < 65536) (v6_hextets n)) as Hb.
  { unfold v6_hextets. rewrite Forall_fmap. repeat constructor; apply hextet_of_bounds. }
  cbv zeta. split; [|split; [|split; [done|]]].
  - revert Hb. generalize (v6_hextets n). intros l Hb. induction Hb as [|h hs Hh Hhs IH]; constructor; [|done].
    destruct (hextet_facts h Hh) as (Hp & _). split; [done|]. intros E. by rewrite E in Hp.
  - rewrite Forall_fmap. eapply Forall_impl; [exact Hb|]. intros h Hh. by apply hextet_facts.
  - intros i Hi. rewrite list_lookup_fmap in Hi.
    destruct (v6_hextets n !! i) as [h|] eqn:E; [|done]. injection Hi as Hi.
    rewrite Forall_lookup in Hb. destruct (hextet_facts h (Hb i h E)) as (_ & _ & H0).
    by rewrite H0.
Qed.

(** The parts a printed address has: hexadecimal or empty, at least three of
    them, and they parse to the address. *)
Lemma compress_parts n :
  0 <= n < 2 ^ 128 →
  let parts := compress_hextets (hex16 <$> v6_hextets n) in
  v6_from_parts parts = Some n ∧ Forall hex_part parts ∧ (3 <= length parts)%nat.
Proof.
  intros Hn. destruct (v6_tokens n) as (Htok & Hhex & H8 & Hzero). cbv zeta.
  set (ss := hex16 <$> v6_hextets n) in *. clearbody ss. unfold compress_hextets.
  destruct (best_run 0 0 0 0 0 ss) as [start len] eqn:E.
  assert (zero_run ss start len) as Hz.
  { eapply (best_run_spec ss ss); [apply drop_0|by left| | |exact E]; intros i Hi; lia. }
  destruct (Nat.ltb_spec 1 len) as [Hl|Hl].
  - pose proof (zero_run_bound _ _ _ Hz Hl) as Hb. rewrite H8 in Hb.
    fold (skip_run start len ss).
    split; [|split].
    + rewrite (skip_run_parses ss (v6_hextets n)); [by rewrite push_hextets_of|done..|].
      intros i Hi. by apply Hzero, Hz.
    + unfold skip_run, hex_part in *.
      repeat (apply Forall_app; split); try case_match; repeat constructor;
        [by apply Forall_take | by apply Forall_drop].
    + unfold skip_run. rewrite !length_app, length_take, length_drop, H8. simpl.
      destruct (Nat.eqb_spec start 0), (Nat.eqb_spec (start + len) 8); simpl; lia.
  - split; [|split; [done | by rewrite H8; lia]].
    assert (∀ i, ss !! i ≠ Some []) as Hne.
    { intros i Hi. eapply Forall2_lookup_l in Htok as (h & _ & [_ Ht]); [|exact Hi]. done. }
    unfold v6_from_parts. rewrite H8. simpl (9 <? 8)%nat. cbv iota.
    assert (empty_inner ss = []) as ->.
    { unfold empty_inner. induction (seq 1 (length ss - 2)) as [|i l IH]; [done|].
      by rewrite filter_cons, decide_False by apply Hne. }
    assert (first_empty ss = false ∧ last_empty ss = false) as [-> ->].
    { unfold first_empty, last_empty. rewrite !bool_decide_eq_false, head_lookup, last_lookup.
      split; apply Hne. }
    rewrite (shift_tokens _ _ _ Htok), push_hextets_of by done. reflexivity.
Qed.

Lemma v6_string_avoid n c : 0 <= n < 2 ^ 128 → is_hex c = false → c ≠ 58 → c ∉ v6_string n.
Proof.
  intros Hn Hc Hne. apply join_avoid; [by intros ->%list_elem_of_singleton|].
  destruct (compress_parts n Hn) as (_ & Hp & _). eapply Forall_impl; [exact Hp|].
  intros p Hpp. by eapply hex_part_avoid.
Qed.

Lemma v6_from_string_print n : 0 <= n < 2 ^ 128 → v6_from_string (v6_string n) = Some n.
Proof.
  intros Hn. destruct (compress_parts n Hn) as (Hv & Hp & Hl).
  unfold v6_from_string, v6_string. set (parts := compress_hextets _) in *. clearbody parts.
  rewrite split_join_char; [|by intros ->; simpl in Hl; lia|].
  2: { eapply Forall_impl; [exact Hp|]. intros p Hpp. by apply hex_part_avoid with (c:=58) in Hpp. }
  rewrite bool_decide_false.
  2: { destruct parts as [|a [|b parts]]; [simpl in Hl; lia..|]. simpl.
       intros E. apply (f_equal length) in E. rewrite length_app in E. simpl in E. lia. }
  destruct (Nat.ltb_spec (length parts) 3); [lia|]. simpl.
  unfold convert_suffix. destruct (last parts) as [p|] eqn:E; [|done].
  rewrite (proj2 (contains_single_false 46 p)); [done|].
  apply hex_part_avoid; [|done]. rewrite Forall_forall in Hp. apply Hp.
  rewrite last_lookup in E. by eapply list_elem_of_lookup_2.
Qed.

Lemma v6_string_colon n : 0 <= n < 2 ^ 128 → 58 ∈ v6_string n.
Proof.
  intros Hn. destruct (compress_parts n Hn) as (_ & _ & Hl). unfold v6_string.
  destruct (compress_hextets _) as [|a [|b parts]]; [simpl in Hl; lia..|].
  simpl. rewrite elem_of_app. right. left.
Qed.

Lemma v6_from_string_bound s n : v6_from_string s = Some n → 0 <= n < 2 ^ 128.
Proof.
  unfold v6_from_string. case_match; [done|].
  destruct (convert_suffix _); [|done]. apply v6_from_parts_bound.
Qed.

Lemma v4_string_avoid n c : is_digit c = false → c ≠ 46 → c ∉ v4_string n.
Proof.
  intros Hc Hne. apply join_avoid; [by intros ?%list_elem_of_singleton | by apply v4_parts_avoid].
Qed.

(** *** Round trips *)

Local Opaque v4_string v6_string v6_from_string.

(** A valid scope id: what [_split_scope_id] lets through. *)
Definition scope_ok (scope : option pystr) : Prop :=
  match scope with None => True | Some s => s ≠ [] ∧ 37 ∉ s ∧ 47 ∉ s end.

Definition ip_ok (a : ip) : Prop :=
  match a with
  | IPv4 n => 0 <= n < 2 ^ 32
  | IPv6 n scope => 0 <= n < 2 ^ 128 ∧ scope_ok scope
  end.

Lemma parse_v6_print n scope :
  0 <= n < 2 ^ 128 → scope_ok scope → parse_v6 (compressed (IPv6 n scope)) = Some (IPv6 n scope).
Proof.
  intros Hn Hs. pose proof (v6_string_avoid n 37 Hn eq_refl ltac:(done)) as H37.
  pose proof (v6_string_avoid n 47 Hn eq_refl ltac:(done)) as H47.
  unfold parse_v6, split_scope_id. destruct scope as [s|]; simpl compressed.
  - destruct Hs as (Hne & Hp & Hsl). rewrite (proj2 (contains_single_false 47 _)).
    2: { rewrite elem_of_app, elem_of_cons. naive_solver. }
    rewrite partition_char_app by done. rewrite bool_decide_false by done.
    rewrite (proj2 (contains_single_false 37 s)) by done. simpl.
    by rewrite v6_from_string_print.
  - rewrite (proj2 (contains_single_false 47 _)) by done.
    rewrite partition_char_absent by done. simpl. by rewrite v6_from_string_print.
Qed.

Lemma parse_v4_v6_string n scope :
  0 <= n < 2 ^ 128 → parse_v4 (compressed (IPv6 n scope)) = None.
Proof.
  intros Hn. destruct (parse_v4 _) as [m|] eqn:E; [|done].
  apply parse_v4_chars in E as [_ Hc]. rewrite Forall_forall in Hc.
  destruct (Hc 58) as [Hd|Hd]; [|done|done].
  pose proof (v6_string_colon n Hn). destruct scope; simpl; [|done]. apply elem_of_app. by left.
Qed.

Lemma ip_address_print a : ip_ok a → ip_address (compressed a) = Some a.
Proof.
  unfold ip_address. destruct a as [n|n scope]; simpl ip_ok.
  - intros Hn. simpl. by rewrite parse_v4_string.
  - intros [Hn Hs]. rewrite parse_v4_v6_string by done. by apply parse_v6_print.
Qed.

Lemma parse_v6_ok s a : parse_v6 s = Some a → ip_ok a.
Proof.
  unfold parse_v6. destruct (contains [47] s) eqn:E47; [done|]. apply contains_single_false in E47.
  destruct (split_scope_id s) as [[addr scope]|] eqn:Es; simpl; [|done].
  destruct (v6_from_string addr) as [n|] eqn:En; simpl; [|done]. intros [= <-]. split.
  - by eapply v6_from_string_bound.
  - unfold split_scope_id in Es. destruct (partition_char 37 s) as [[x f] y] eqn:Ep.
    apply partition_char_spec in Ep as [_ Hs].
    destruct f; [|by injection Es as <- <-]. destruct (bool_decide_reflect (y = [])); [done|].
    simpl in Es. destruct (contains [37] y) eqn:E37; [done|]. injection Es as <- <-.
    apply contains_single_false in E37. split; [done|]. split; [done|]. intros Hy. apply E47.
    rewrite Hs. apply elem_of_app. right. by right.
Qed.

Lemma ip_address_ok s a : ip_address s = Some a → ip_ok a.
Proof.
  unfold ip_address. destruct (parse_v4 s) as [n|] eqn:E; [|apply parse_v6_ok].
  intros [= <-]. by apply parse_v4_chars in E as [? _].
Qed.

(** [compressed] is canonical: it parses back to the same address. *)
Lemma ip_address_canonical s a : ip_address s = Some a → ip_address (compressed a) = Some a.
Proof. intros Ha. by apply ip_address_print, (ip_address_ok s). Qed.

Lemma righthand_zero_bits_bound w n : 0 <= righthand_zero_bits w n <= Z.of_nat w.
Proof.
  revert n. induction w as [|w IH]; intros n; simpl righthand_zero_bits; [lia|].
  destruct (Z.odd n); [lia|]. specialize (IH (n / 2)). lia.
Qed.

Lemma prefix_from_ip_int_bound n p : prefix_from_ip_int 32 n = Some p → 0 <= p <= 32.
Proof.
  unfold prefix_from_ip_int. pose proof (righthand_zero_bits_bound (Z.to_nat 32) n) as Hb.
  rewrite Z2Nat.id in Hb by lia. revert Hb. generalize (righthand_zero_bits (Z.to_nat 32) n).
  intros z Hz. cbv zeta. case_match; [|done]. intros [= <-]. lia.
Qed.

Lemma prefix_string_bound w s p : prefix_from_prefix_string w s = Some p → 0 <= p <= w.
Proof.
  unfold prefix_from_prefix_string. destruct (str_isdigit s) eqn:E; simpl; [|done].
  apply str_isdigit_Forall in E as [_ Hd]. pose proof (py_int_nonneg s Hd).
  destruct (Z.ltb_spec w (py_int s)); [done|]. intros [= <-]. lia.
Qed.

Lemma prefix_string_print w p : 0 <= p <= w → prefix_from_prefix_string w (str_of_nonneg p) = Some p.
Proof.
  intros Hp. unfold prefix_from_prefix_string.
  pose proof (str_of_nonneg_canonical p ltac:(lia)) as Hc. unfold canonical_digits in Hc.
  split_bool. match goal with H : str_isdigit _ = true |- _ => rewrite H end. simpl.
  rewrite py_int_str by lia. by destruct (Z.ltb_spec w p); [lia|].
Qed.

Lemma v4_prefix_bound m p : v4_prefix m = Some p → 0 <= p <= 32.
Proof.
  unfold v4_prefix. destruct m as [m|]; [|intros [= <-]; lia].
  destruct (prefix_from_prefix_string 32 m) eqn:E.
  - intros [= <-]. by eapply prefix_string_bound.
  - unfold prefix_from_ip_string. destruct (v4_from_string m); [|done]. simpl.
    case_match eqn:E'; [intros [= <-]|]; by eapply prefix_from_ip_int_bound.
Qed.

Lemma v6_prefix_bound m p : v6_prefix m = Some p → 0 <= p <= 128.
Proof.
  unfold v6_prefix. destruct m as [m|]; [apply prefix_string_bound | intros [= <-]; lia].
Qed.

(** A network [ip_network] can return. *)
Definition net_ok (n : ip_net) : Prop :=
  ip_ok (network_address n) ∧ 0 <= prefixlen n <= ip_width (network_address n) ∧
  strict_network (network_address n) (prefixlen n) = Some n.

Lemma strict_network_ok a p n :
  ip_ok a → 0 <= p <= ip_width a → strict_network a p = Some n → net_ok n.
Proof.
  intros Ha Hp Hs. pose proof Hs as Hs'. unfold strict_network in Hs.
  destruct (_ =? _); [|done]. injection Hs as <-. done.
Qed.

Lemma ip_network_ok s n : ip_network s = Some n → net_ok n.
Proof.
  unfold ip_network. destruct (split_char 47 s) as [|addr rest]; [done|].
  assert ((match parse_v4 addr, v4_prefix (head rest) with
           | Some n, Some p => strict_network (IPv4 n) p
           | _, _ => a ← parse_v6 addr; p ← v6_prefix (head rest); strict_network a p
           end) = Some n → net_ok n) as Hgen.
  { assert ((a ← parse_v6 addr; p ← v6_prefix (head rest); strict_network a p) = Some n → net_ok n) as H6.
    { destruct (parse_v6 addr) as [a|] eqn:Ea; [|done]. simpl.
      destruct (v6_prefix (head rest)) as [p|] eqn:Ep; [|done]. simpl.
      apply strict_network_ok; [by eapply parse_v6_ok|].
      apply v6_prefix_bound in Ep. unfold parse_v6 in Ea. case_match; [done|].
      destruct (split_scope_id addr) as [[]|]; [|done]. simpl in Ea.
      destruct (v6_from_string _); [|done]. simpl in Ea. by injection Ea as <-. }
    destruct (parse_v4 addr) as [m|] eqn:Em; [|done].
    destruct (v4_prefix (head rest)) as [p|] eqn:Ep; [|done].
    apply strict_network_ok; [by apply parse_v4_chars in Em as [? _] | by apply v4_prefix_bound in Ep]. }
  destruct rest as [|m [|]]; [exact Hgen | exact Hgen | done].
Qed.

Lemma compressed_no_slash a : ip_ok a → 47 ∉ compressed a.
Proof.
  destruct a as [n|n [s|]]; simpl.
  - intros _. by apply v4_string_avoid.
  - intros (Hn & _ & _ & Hs). rewrite elem_of_app, elem_of_cons.
    pose proof (v6_string_avoid n 47 Hn eq_refl ltac:(done)). naive_solver.
  - intros [Hn _]. by apply v6_string_avoid.
Qed.

(** The printed form of a network parses back to the same network. *)
Lemma ip_network_canonical s n : ip_network s = Some n → ip_network (net_compressed n) = Some n.
Proof.
  intros Hs. apply ip_network_ok in Hs as (Ha & Hp & Hst). unfold ip_network, net_compressed.
  change ([47] ++ str_of_nonneg (prefixlen n)) with (47 :: str_of_nonneg (prefixlen n)).
  rewrite split_char_app by by apply compressed_no_slash.
  rewrite split_char_single by (apply (digits_avoid 47); [apply str_digits; lia | done]).
  simpl head. destruct (network_address n) as [m|m scope]; simpl in Hp |- *.
  - rewrite parse_v4_string by exact Ha. unfold v4_prefix. by rewrite prefix_string_print.
  - destruct Ha as [Hm Hsc]. pose proof (parse_v4_v6_string m scope Hm) as E. simpl in E. rewrite E.
    pose proof (parse_v6_print m scope Hm Hsc) as E6. simpl in E6. rewrite E6. simpl.
    unfold v6_prefix. rewrite prefix_string_print by done. simpl. exact Hst.
Qed.

(** On text without host bits both readings of a network agree. *)
Lemma strict_masked a p n : strict_network a p = Some n → masked_network a p = n.
Proof. unfold strict_network, masked_network. cbv zeta. case_match; [by intros [= <-] | done]. Qed.

Lemma ip_network_lax_strict s n : ip_network s = Some n → ip_network_lax s = Some n.
Proof.
  unfold ip_network, ip_network_lax. destruct (split_char 47 s) as [|addr rest]; [done|].
  assert ((a ← parse_v6 addr; p ← v6_prefix (head rest); strict_network a p) = Some n →
          (a ← parse_v6 addr; p ← v6_prefix (head rest); Some (masked_network a p)) = Some n) as H6.
  { destruct (parse_v6 addr); [|done]. simpl. destruct (v6_prefix (head rest)); [|done]. simpl.
    intros Hn. f_equal. by apply strict_masked. }
  destruct rest as [|m [|]]; [| |done]; cbv zeta;
    (destruct (parse_v4 addr); [|exact H6]; case_match; [|exact H6];
     intros Hn; f_equal; by apply strict_masked).
Qed.

Lemma netmask_host a : netmask (ip_width a) (ip_width a) = 2 ^ ip_width a - 1.
Proof. by destruct a. Qed.

(** An address is a network of its own. *)
Lemma strict_network_host a : ip_ok a →
  strict_network a (ip_width a) = Some {| network_address := a; prefixlen := ip_width a |}.
Proof.
  intros Ha. unfold strict_network. rewrite netmask_host.
  replace (2 ^ ip_width a - 1) with (Z.ones (ip_width a)) by (rewrite Z.ones_equiv; lia).
  rewrite Z.land_ones by (destruct a; simpl; lia).
  rewrite Z.mod_small by (destruct a; simpl in *; lia). by rewrite Z.eqb_refl.
Qed.

Lemma parse_v6_version s a : parse_v6 s = Some a → ip_width a = 128.
Proof.
  unfold parse_v6. case_match; [done|]. destruct (split_scope_id s) as [[]|]; [|done]. simpl.
  destruct (v6_from_string _); [|done]. simpl. by intros [= <-].
Qed.

Lemma ip_network_of_address s a : ip_address s = Some a →
  ip_network s = Some {| network_address := a; prefixlen := ip_width a |}.
Proof.
  intros Ha. pose proof (ip_address_ok _ _ Ha) as Hok. pose proof (strict_network_host a Hok) as Hst.
  unfold ip_address in Ha. unfold ip_network. destruct (parse_v4 s) as [n|] eqn:E4.
  - injection Ha as <-.
    assert (47 ∉ s) as Hs.
    { apply contains_single_false. unfold parse_v4 in E4. by destruct (contains [47] s). }
    rewrite split_char_single by done. simpl head. by rewrite E4.
  - assert (47 ∉ s) as Hs.
    { apply contains_single_false. unfold parse_v6 in Ha. by destruct (contains [47] s). }
    rewrite split_char_single by done. simpl head. rewrite E4. simpl. rewrite Ha. simpl.
    by rewrite <- (parse_v6_version _ _ Ha).
Qed.

Definition unscoped (a : ip) : Prop := match a with IPv6 _ (Some _) => False | _ => True end.

(** Without scope ids, a host network contains its address only. *)
Lemma in_host_network a b : ip_ok a → unscoped a → unscoped b →
  in_network a {| network_address := b; prefixlen := ip_width b |} = true ↔ a = b.
Proof.
  intros Ha Hua Hub. unfold in_network. simpl. split.
  - intros [Hv Hn]%andb_true_iff. apply Z.eqb_eq in Hv, Hn.
    assert (ip_width b = ip_width a) as E by by destruct a, b. rewrite E, netmask_host in Hn.
    replace (2 ^ ip_width a - 1) with (Z.ones (ip_width a)) in Hn by (rewrite Z.ones_equiv; lia).
    rewrite Z.land_ones in Hn by (destruct a; simpl; lia).
    rewrite Z.mod_small in Hn by (destruct a; simpl in *; lia).
    destruct a as [n|n [?|]], b as [m|m [?|]]; simpl in *; try done; congruence.
  - intros <-. rewrite Z.eqb_refl. simpl. rewrite netmask_host.
    replace (2 ^ ip_width a - 1) with (Z.ones (ip_width a)) by (rewrite Z.ones_equiv; lia).
    rewrite Z.land_ones by (destruct a; simpl; lia).
    rewrite Z.mod_small by (destruct a; simpl in *; lia). by rewrite Z.eqb_refl.
Qed.
