(* ===== verification/NetworkContract.v ===== *)
(** * Network policy contract

    Models [guard/runtime/network_policy_contract.py]: destinations, ports,
    process identities, rules, policies, flow requests, decisions, backend
    advertisements and evidence, each with its [__post_init__] as a checked
    constructor, and the canonical JSON and digests the broker signs.

    [isinstance] guards on fields hold by typing; what is left of a
    [__post_init__] is its value checks and its canonicalizations.  The
    third-party [idna.encode] is the operation of the class [IdnaCodec]. *)

From S2P Require Import Prelude PyStr Sha256 Regex PyVal IpAddress.
Local Open Scope Z_scope.
Local Open Scope py_scope.

Definition NETWORK_POLICY_SCHEMA_VERSION : pystr := $"guard.network-policy.v1".
Definition NETWORK_BROKER_SCHEMA_VERSION : pystr := $"guard.network-broker.v1".
Definition NETWORK_BACKEND_SCHEMA_VERSION : pystr := $"guard.network-backend.v1".
Definition NETWORK_EVIDENCE_SCHEMA_VERSION : pystr := $"guard.network-evidence.v1".
Definition NETWORK_PRIVACY_SCHEMA_VERSION : pystr := $"guard.network-privacy.v1".

(** [[a-z][a-z0-9]*(?:[._-][a-z0-9]+)*] *)
Definition STABLE_ID : regex :=
  RCat (RSet az) (RCat (RStar (RSet az09))
    (RStar (RCat (RSet [(46, 46); (95, 95); (45, 45)]) (RPlus (RSet az09))))).

(** [r{0,n}] *)
Fixpoint RUpTo (n : nat) (r : regex) : regex :=
  match n with O => REps | S n => ROpt (RCat r (RUpTo n r)) end.
(** [[a-z0-9](?:[a-z0-9-]{0,61}[a-z0-9])?] *)
Definition LABEL : regex :=
  RCat (RSet az09)
    (ROpt (RCat (RUpTo 61 (RSet [(97, 122); (48, 57); (45, 45)])) (RSet az09))).

Definition require_id (value : pystr) (name : string) : result unit :=
  raise_if (negb (fullmatch STABLE_ID value)) (ValueError (name +:+ " must be a stable identifier")).
Definition require_digest (value : pystr) (name : string) : result unit :=
  raise_if (negb (fullmatch SHA256_RE value))
    (ValueError (name +:+ " must be a lowercase SHA-256 digest")).

(** ** Enumerations *)

Inductive NetworkAction := DENY | APPROVE | ALLOW.
Global Instance NetworkAction_eq_dec : EqDecision NetworkAction.
Proof. solve_decision. Defined.
Definition NetworkAction_value (a : NetworkAction) : pystr :=
  match a with DENY => $"deny" | APPROVE => $"approve" | ALLOW => $"allow" end.

Inductive NetworkProtocol := TCP | UDP | DNS | Protocol_UNKNOWN.
Global Instance NetworkProtocol_eq_dec : EqDecision NetworkProtocol.
Proof. solve_decision. Defined.
Definition NetworkProtocol_value (p : NetworkProtocol) : pystr :=
  match p with TCP => $"tcp" | UDP => $"udp" | DNS => $"dns" | Protocol_UNKNOWN => $"unknown" end.
Global Instance NetworkProtocol_enum : PyEnum NetworkProtocol.
Proof.
  refine {| enum_value := NetworkProtocol_value;
            enum_members := [TCP; UDP; DNS; Protocol_UNKNOWN] |}; solve_enum.
Defined.

Inductive DestinationKind := HOST | IP | CIDR | PRIVATE_CLASS.
Global Instance DestinationKind_eq_dec : EqDecision DestinationKind.
Proof. solve_decision. Defined.
Definition DestinationKind_value (k : DestinationKind) : pystr :=
  match k with
  | HOST => $"host" | IP => $"ip" | CIDR => $"cidr" | PRIVATE_CLASS => $"private-class"
  end.

Inductive PrivateNetworkClass := LOOPBACK | LINK_LOCAL | PRIVATE | MULTICAST | UNSPECIFIED.
Global Instance PrivateNetworkClass_eq_dec : EqDecision PrivateNetworkClass.
Proof. solve_decision. Defined.
Definition PrivateNetworkClass_value (c : PrivateNetworkClass) : pystr :=
  match c with
  | LOOPBACK => $"loopback" | LINK_LOCAL => $"link-local" | PRIVATE => $"private"
  | MULTICAST => $"multicast" | UNSPECIFIED => $"unspecified"
  end.
Global Instance PrivateNetworkClass_enum : PyEnum PrivateNetworkClass.
Proof.
  refine {| enum_value := PrivateNetworkClass_value;
            enum_members := [LOOPBACK; LINK_LOCAL; PRIVATE; MULTICAST; UNSPECIFIED] |}; solve_enum.
Defined.

Inductive ProcessScopeKind := INSTALLATION | SESSION.
Global Instance ProcessScopeKind_eq_dec : EqDecision ProcessScopeKind.
Proof. solve_decision. Defined.
Definition ProcessScopeKind_value (k : ProcessScopeKind) : pystr :=
  match k with INSTALLATION => $"installation" | SESSION => $"session" end.

Inductive EnforcementGrade :=
  | Grade_UNAVAILABLE | Grade_OBSERVE | Grade_DENY_ALL | Grade_PROXY_ONLY
  | Grade_TCP_IP_DESTINATION_ENFORCED | Grade_UDP_DNS_DESTINATION_ENFORCED
  | Grade_DESTINATION_ENFORCED.
Global Instance EnforcementGrade_eq_dec : EqDecision EnforcementGrade.
Proof. solve_decision. Defined.
Definition EnforcementGrade_value (g : EnforcementGrade) : pystr :=
  match g with
  | Grade_UNAVAILABLE => $"unavailable"
  | Grade_OBSERVE => $"observe"
  | Grade_DENY_ALL => $"deny-all"
  | Grade_PROXY_ONLY => $"proxy-only"
  | Grade_TCP_IP_DESTINATION_ENFORCED => $"tcp-ip-destination-enforced"
  | Grade_UDP_DNS_DESTINATION_ENFORCED => $"udp-dns-destination-enforced"
  | Grade_DESTINATION_ENFORCED => $"destination-enforced"
  end.

Inductive BackendCapability :=
  | Cap_OBSERVE | Cap_DENY_ALL | Cap_TCP_DESTINATION | Cap_UDP_DESTINATION | Cap_DNS_CORRELATION
  | Cap_PROXY_ONLY | Cap_PROCESS_TREE | Cap_ATOMIC_POLICY | Cap_RECEIPTS
  | Cap_FORCED_BROKER_ROUTING | Cap_RESOLVER_ROUTE_ATTESTATION
  | Cap_DOH_CLASSIFICATION_OR_APP_INTENT.
Global Instance BackendCapability_eq_dec : EqDecision BackendCapability.
Proof. solve_decision. Defined.
Definition BackendCapability_value (c : BackendCapability) : pystr :=
  match c with
  | Cap_OBSERVE => $"observe"
  | Cap_DENY_ALL => $"deny-all"
  | Cap_TCP_DESTINATION => $"tcp-destination"
  | Cap_UDP_DESTINATION => $"udp-destination"
  | Cap_DNS_CORRELATION => $"dns-correlation"
  | Cap_PROXY_ONLY => $"proxy-only"
  | Cap_PROCESS_TREE => $"process-tree"
  | Cap_ATOMIC_POLICY => $"atomic-policy"
  | Cap_RECEIPTS => $"receipts"
  | Cap_FORCED_BROKER_ROUTING => $"forced-broker-routing"
  | Cap_RESOLVER_ROUTE_ATTESTATION => $"resolver-route-attestation"
  | Cap_DOH_CLASSIFICATION_OR_APP_INTENT => $"doh-classification-or-app-intent"
  end.
Global Instance BackendCapability_enum : PyEnum BackendCapability.
Proof.
  refine {| enum_value := BackendCapability_value;
    enum_members := [Cap_OBSERVE; Cap_DENY_ALL; Cap_TCP_DESTINATION; Cap_UDP_DESTINATION;
      Cap_DNS_CORRELATION; Cap_PROXY_ONLY; Cap_PROCESS_TREE; Cap_ATOMIC_POLICY; Cap_RECEIPTS;
      Cap_FORCED_BROKER_ROUTING; Cap_RESOLVER_ROUTE_ATTESTATION;
      Cap_DOH_CLASSIFICATION_OR_APP_INTENT] |}; solve_enum.
Defined.

Definition UDP_DNS_CAPABILITIES : list BackendCapability :=
  [Cap_DENY_ALL; Cap_TCP_DESTINATION; Cap_UDP_DESTINATION; Cap_DNS_CORRELATION; Cap_PROCESS_TREE;
   Cap_ATOMIC_POLICY; Cap_RECEIPTS; Cap_FORCED_BROKER_ROUTING; Cap_RESOLVER_ROUTE_ATTESTATION;
   Cap_DOH_CLASSIFICATION_OR_APP_INTENT].

Definition grade_required_capabilities (g : EnforcementGrade) : list BackendCapability :=
  match g with
  | Grade_UNAVAILABLE => []
  | Grade_OBSERVE => [Cap_OBSERVE]
  | Grade_DENY_ALL => [Cap_DENY_ALL]
  | Grade_PROXY_ONLY => [Cap_PROXY_ONLY; Cap_PROCESS_TREE]
  | Grade_TCP_IP_DESTINATION_ENFORCED =>
      [Cap_DENY_ALL; Cap_TCP_DESTINATION; Cap_PROCESS_TREE; Cap_ATOMIC_POLICY; Cap_RECEIPTS]
  | Grade_UDP_DNS_DESTINATION_ENFORCED => UDP_DNS_CAPABILITIES
  | Grade_DESTINATION_ENFORCED => UDP_DNS_CAPABILITIES
  end.

Inductive PolicyOwner := BUILTIN | LOCAL | WORKSPACE | ORGANIZATION | EMERGENCY.
Global Instance PolicyOwner_eq_dec : EqDecision PolicyOwner.
Proof. solve_decision. Defined.
Definition PolicyOwner_value (o : PolicyOwner) : pystr :=
  match o with
  | BUILTIN => $"builtin" | LOCAL => $"local" | WORKSPACE => $"workspace"
  | ORGANIZATION => $"organization" | EMERGENCY => $"emergency"
  end.

Inductive FailureMode := Failure_DENY | Failure_OFFLINE | Failure_REQUIRE_APPROVAL.
Global Instance FailureMode_eq_dec : EqDecision FailureMode.
Proof. solve_decision. Defined.
Definition FailureMode_value (m : FailureMode) : pystr :=
  match m with
  | Failure_DENY => $"deny" | Failure_OFFLINE => $"offline"
  | Failure_REQUIRE_APPROVAL => $"require-approval"
  end.

(** ** Destinations *)

(** [idna.encode(s, uts46=False, std3_rules=True).decode("ascii")]; [None] is
    [idna.IDNAError]. *)
Class IdnaCodec := { idna_encode : pystr → option pystr }.

Record Destination := { dest_kind : DestinationKind; dest_value : pystr }.
Global Instance Destination_eq_dec : EqDecision Destination.
Proof. solve_decision. Defined.

Definition ip_error : exn := ValueError "does not appear to be an IPv4 or IPv6 address".

(** [ipaddress.ip_address(s)] *)
Definition py_ip_address (s : pystr) : result ip :=
  match ip_address s with Some a => Ok a | None => Raise ip_error end.
(** [ipaddress.ip_network(s)] *)
Definition py_ip_network (s : pystr) : result ip_net :=
  match ip_network s with
  | Some n => Ok n
  | None => Raise (ValueError "does not appear to be an IPv4 or IPv6 network")
  end.

Section destination.
Context `{PyUnicode, IdnaCodec}.

Definition canonical_host (value : pystr) : result pystr :=
  let candidate := if endswith [46] value then take (length value - 1) value else value in
  raise_if (bool_decide (candidate = [])) (ValueError "host must contain at least one label") ;;
  match idna_encode (py_lower candidate) with
  | None => Raise (ValueError "host contains invalid IDNA")
  | Some candidate =>
      raise_if (253 <? length candidate)%nat
        (ValueError "host exceeds the DNS length limit") ;;
      raise_if (existsb (λ l, negb (fullmatch LABEL l)) (split_char 46 candidate))
        (ValueError "host contains an invalid label") ;;
      Ok candidate
  end.

Definition canonical_destination (kind : DestinationKind) (value : pystr) : result pystr :=
  raise_if (bool_decide (value = []) || contains [0] value
            || negb (bool_decide (value = strip value)))
    (ValueError "destination must be a trimmed non-empty string") ;;
  match kind with
  | HOST => canonical_host value
  | IP => a ← py_ip_address value; Ok (compressed a)
  | CIDR => n ← py_ip_network value; Ok (net_compressed n)
  | PRIVATE_CLASS =>
      match enum_of_value (A:=PrivateNetworkClass) value with
      | Some c => Ok (enum_value c)
      | None => Raise (ValueError "unsupported private network class")
      end
  end.

(** [Destination.__post_init__] *)
Definition make_Destination (kind : DestinationKind) (value : pystr) : result Destination :=
  canonical ← canonical_destination kind value;
  Ok {| dest_kind := kind; dest_value := canonical |}.
End destination.

Definition classify_address (a : ip) : option PrivateNetworkClass :=
  if is_loopback a then Some LOOPBACK
  else if is_link_local a then Some LINK_LOCAL
  else if is_multicast a then Some MULTICAST
  else if is_unspecified a then Some UNSPECIFIED
  else if is_private a then Some PRIVATE
  else None.

Definition classify_private_address (value : pystr) : result (option PrivateNetworkClass) :=
  a ← py_ip_address value; Ok (classify_address a).

Definition destination_key (d : Destination) : pystr * pystr :=
  (DestinationKind_value (dest_kind d), dest_value d).

(** ** Ports, processes, rules *)

Record PortRange := { port_start : Z; port_end : Z }.
Global Instance PortRange_eq_dec : EqDecision PortRange.
Proof. solve_decision. Defined.

Definition check_PortRange (p : PortRange) : result unit :=
  raise_if (negb ((1 <=? port_start p) && (port_start p <=? port_end p) && (port_end p <=? 65535)))
    (ValueError "ports must be within 1..65535").

Record ProcessTreeIdentity := {
  installation_id : pystr;
  session_id : pystr;
  root_pid : Z;
  root_start_time_ns : Z;
  executable_digest : pystr;
}.
Global Instance ProcessTreeIdentity_eq_dec : EqDecision ProcessTreeIdentity.
Proof. solve_decision. Defined.

Definition check_ProcessTreeIdentity (p : ProcessTreeIdentity) : result unit :=
  require_id (installation_id p) "installation_id" ;;
  require_id (session_id p) "session_id" ;;
  raise_if (root_pid p <=? 0) (ValueError "root_pid must be a positive integer") ;;
  raise_if (root_start_time_ns p <=? 0)
    (ValueError "root_start_time_ns must be a positive integer") ;;
  require_digest (executable_digest p) "executable_digest".

Record ProcessScope := { scope_kind : ProcessScopeKind; scope_value : pystr }.
Global Instance ProcessScope_eq_dec : EqDecision ProcessScope.
Proof. solve_decision. Defined.

Definition check_ProcessScope (s : ProcessScope) : result unit :=
  require_id (scope_value s) "process scope value".

Record NetworkRule := {
  rule_id : pystr;
  owner : PolicyOwner;
  rule_action : NetworkAction;
  destinations : list Destination;
  protocols : list NetworkProtocol;
  ports : list PortRange;
  process_scopes : list ProcessScope;
  expires_at_epoch_seconds : option Z;
}.

Definition scope_key (s : ProcessScope) : pystr * pystr :=
  (ProcessScopeKind_value (scope_kind s), scope_value s).
Definition port_key (p : PortRange) : Z * Z := (port_start p, port_end p).

(** [NetworkRule.__post_init__] *)
Definition make_NetworkRule (r : NetworkRule) : result NetworkRule :=
  require_id (rule_id r) "rule_id" ;;
  raise_if (bool_decide (destinations r = []))
    (ValueError "destinations must contain exact Destination values") ;;
  raise_if (bool_decide (protocols r = []))
    (ValueError "protocols must contain exact NetworkProtocol values") ;;
  raise_if (py_in DNS (protocols r) && negb (bool_decide (ports r = []))
            && forallb (λ p, negb ((port_start p <=? 53) && (53 <=? port_end p))) (ports r))
    (ValueError "DNS rules with ports must include port 53") ;;
  raise_if (py_in Protocol_UNKNOWN (protocols r))
    (ValueError "rules cannot authorize unknown protocols") ;;
  raise_if (match expires_at_epoch_seconds r with Some e => e <=? 0 | None => false end)
    (ValueError "expires_at_epoch_seconds must be positive") ;;
  Ok {| rule_id := rule_id r; owner := owner r; rule_action := rule_action r;
        destinations := sorted_set_on destination_key (destinations r);
        protocols := sorted_set_on enum_value (protocols r);
        ports := sorted_set_on port_key (ports r);
        process_scopes := sorted_set_on scope_key (process_scopes r);
        expires_at_epoch_seconds := expires_at_epoch_seconds r |}.

Record NetworkPolicy := {
  policy_id : pystr;
  generation : Z;
  rules : list NetworkRule;
  required_grade : EnforcementGrade;
  failure_mode : FailureMode;
  policy_schema_version : pystr;
}.

(** [NetworkPolicy.__post_init__] *)
Definition make_NetworkPolicy (p : NetworkPolicy) : result NetworkPolicy :=
  raise_if (negb (bool_decide (policy_schema_version p = NETWORK_POLICY_SCHEMA_VERSION)))
    (ValueError "unsupported network policy schema version") ;;
  require_id (policy_id p) "policy_id" ;;
  raise_if (generation p <? 1) (ValueError "generation must be a positive integer") ;;
  raise_if (has_dups (rule_id <$> rules p)) (ValueError "rule_id values must be unique") ;;
  Ok {| policy_id := policy_id p; generation := generation p;
        rules := sort_on rule_id (rules p);
        required_grade := required_grade p; failure_mode := failure_mode p;
        policy_schema_version := policy_schema_version p |}.

Record NetworkFlowRequest := {
  request_id : pystr;
  process_tree : ProcessTreeIdentity;
  destination : Destination;
  protocol : NetworkProtocol;
  port : Z;
  observed_at_epoch_ms : Z;
  connected_address : option pystr;
  dns_binding_digest : option pystr;
  request_schema_version : pystr;
}.

Definition port_in_range (p : Z) : bool := (1 <=? p) && (p <=? 65535).

(** [NetworkFlowRequest.__post_init__] *)
Definition make_NetworkFlowRequest (r : NetworkFlowRequest) : result NetworkFlowRequest :=
  raise_if (negb (bool_decide (request_schema_version r = NETWORK_BROKER_SCHEMA_VERSION)))
    (ValueError "unsupported broker schema version") ;;
  require_id (request_id r) "request_id" ;;
  raise_if (negb (port_in_range (port r))) (ValueError "port must be within 1..65535") ;;
  raise_if (observed_at_epoch_ms r <=? 0) (ValueError "observed_at_epoch_ms must be positive") ;;
  match dns_binding_digest r with
  | Some d => require_digest d "dns_binding_digest"
  | None => Ok tt
  end ;;
  address ←
    match connected_address r with
    | None => Ok None
    | Some s =>
        match ip_address s with
        | Some a => Ok (Some (compressed a))
        | None => Raise (ValueError "connected_address must be a canonical IP address")
        end
    end;
  Ok {| request_id := request_id r; process_tree := process_tree r; destination := destination r;
        protocol := protocol r; port := port r; observed_at_epoch_ms := observed_at_epoch_ms r;
        connected_address := address; dns_binding_digest := dns_binding_digest r;
        request_schema_version := request_schema_version r |}.

Record NetworkDecision := {
  request_digest : pystr;
  policy_digest : pystr;
  decision_generation : Z;
  action : NetworkAction;
  rule_ids : list pystr;
  expires_at_epoch_ms : Z;
}.

(** [NetworkDecision.__post_init__] *)
Definition make_NetworkDecision (d : NetworkDecision) : result NetworkDecision :=
  require_digest (request_digest d) "request_digest" ;;
  require_digest (policy_digest d) "policy_digest" ;;
  raise_if (decision_generation d <? 1) (ValueError "generation must be positive") ;;
  raise_if (bool_decide (rule_ids d = [])) (ValueError "rule_ids cannot be empty") ;;
  for_each (λ r, require_id r "rule_id") (rule_ids d) ;;
  raise_if (expires_at_epoch_ms d <=? 0) (ValueError "expires_at_epoch_ms must be positive") ;;
  Ok {| request_digest := request_digest d; policy_digest := policy_digest d;
        decision_generation := decision_generation d; action := action d;
        rule_ids := sorted_set_on (λ s : pystr, s) (rule_ids d);
        expires_at_epoch_ms := expires_at_epoch_ms d |}.

Record BackendAdvertisement := {
  backend_id : pystr;
  backend_digest : pystr;
  capabilities : list BackendCapability;
  maximum_grade : EnforcementGrade;
  healthy_until_epoch_ms : Z;
  advertisement_schema_version : pystr;
}.

(** [BackendAdvertisement.__post_init__] *)
Definition check_BackendAdvertisement (a : BackendAdvertisement) : result unit :=
  raise_if (negb (bool_decide (advertisement_schema_version a = NETWORK_BACKEND_SCHEMA_VERSION)))
    (ValueError "unsupported backend schema version") ;;
  require_id (backend_id a) "backend_id" ;;
  require_digest (backend_digest a) "backend_digest" ;;
  raise_if (bool_decide (capabilities a = [])) (ValueError "capabilities must contain exact values") ;;
  raise_if (negb (py_subset (grade_required_capabilities (maximum_grade a)) (capabilities a)))
    (ValueError "maximum_grade exceeds verified capabilities") ;;
  raise_if (healthy_until_epoch_ms a <=? 0) (ValueError "healthy_until_epoch_ms must be positive").

Record NetworkEvidence := {
  flow_id : pystr;
  ev_process_tree_digest : pystr;
  destination_digest : pystr;
  ev_protocol : NetworkProtocol;
  ev_port : Z;
  ev_action : NetworkAction;
  ev_policy_digest : pystr;
  ev_backend_digest : pystr;
  grade : EnforcementGrade;
  ev_observed_at_epoch_ms : Z;
  raw_destination : option pystr;
  evidence_schema_version : pystr;
}.

(** [NetworkEvidence.__post_init__] *)
Definition check_NetworkEvidence (e : NetworkEvidence) : result unit :=
  raise_if (negb (bool_decide (evidence_schema_version e = NETWORK_EVIDENCE_SCHEMA_VERSION)))
    (ValueError "unsupported network evidence schema version") ;;
  require_id (flow_id e) "flow_id" ;;
  require_digest (ev_process_tree_digest e) "process_tree_digest" ;;
  require_digest (destination_digest e) "destination_digest" ;;
  require_digest (ev_policy_digest e) "policy_digest" ;;
  require_digest (ev_backend_digest e) "backend_digest" ;;
  raise_if (negb (port_in_range (ev_port e))) (ValueError "port must be within 1..65535") ;;
  raise_if (ev_observed_at_epoch_ms e <=? 0) (ValueError "observed_at_epoch_ms must be positive") ;;
  raise_if (bool_decide (is_Some (raw_destination e)))
    (ValueError "raw destinations require the separate opt-in privacy service").

(** ** Canonical JSON: [_json_value] of each dataclass *)

Definition destination_json (d : Destination) : json :=
  JObj [($"kind", JStr (DestinationKind_value (dest_kind d))); ($"value", JStr (dest_value d))].
Definition port_json (p : PortRange) : json :=
  JObj [($"start", JInt (port_start p)); ($"end", JInt (port_end p))].
Definition process_tree_json (p : ProcessTreeIdentity) : json :=
  JObj [($"installation_id", JStr (installation_id p)); ($"session_id", JStr (session_id p));
        ($"root_pid", JInt (root_pid p)); ($"root_start_time_ns", JInt (root_start_time_ns p));
        ($"executable_digest", JStr (executable_digest p))].
Definition scope_json (s : ProcessScope) : json :=
  JObj [($"kind", JStr (ProcessScopeKind_value (scope_kind s))); ($"value", JStr (scope_value s))].
Definition rule_json (r : NetworkRule) : json :=
  JObj [($"rule_id", JStr (rule_id r)); ($"owner", JStr (PolicyOwner_value (owner r)));
        ($"action", JStr (NetworkAction_value (rule_action r)));
        ($"destinations", JArr (destination_json <$> destinations r));
        ($"protocols", JArr ((λ p, JStr (enum_value p)) <$> protocols r));
        ($"ports", JArr (port_json <$> ports r));
        ($"process_scopes", JArr (scope_json <$> process_scopes r));
        ($"expires_at_epoch_seconds", jopt JInt (expires_at_epoch_seconds r))].
Definition policy_json (p : NetworkPolicy) : json :=
  JObj [($"policy_id", JStr (policy_id p)); ($"generation", JInt (generation p));
        ($"rules", JArr (rule_json <$> rules p));
        ($"required_grade", JStr (EnforcementGrade_value (required_grade p)));
        ($"failure_mode", JStr (FailureMode_value (failure_mode p)));
        ($"schema_version", JStr (policy_schema_version p))].
Definition request_json (r : NetworkFlowRequest) : json :=
  JObj [($"request_id", JStr (request_id r)); ($"process_tree", process_tree_json (process_tree r));
        ($"destination", destination_json (destination r));
        ($"protocol", JStr (enum_value (protocol r))); ($"port", JInt (port r));
        ($"observed_at_epoch_ms", JInt (observed_at_epoch_ms r));
        ($"connected_address", jopt JStr (connected_address r));
        ($"dns_binding_digest", jopt JStr (dns_binding_digest r));
        ($"schema_version", JStr (request_schema_version r))].

(** The JSON of a set: its items in the order of their serialization. *)
Definition json_of_set (items : list json) : json := JArr (sort_on dumps items).

Definition canonical_json (v : json) : pystr := dumps v.
Definition canonical_digest (v : json) : pystr := sha256_hex (canonical_json v).

Definition process_tree_digest (p : ProcessTreeIdentity) : pystr :=
  canonical_digest (process_tree_json p).
Definition policy_digest_of (p : NetworkPolicy) : pystr := canonical_digest (policy_json p).

(** ** Lemmas *)

Lemma require_digest_canonical v name : require_digest (canonical_digest v) name = Ok tt.
Proof. unfold require_digest, canonical_digest. by rewrite sha256_hex_matches. Qed.

Definition trimmed (s : pystr) : Prop := end_ok (head s) ∧ end_ok (last s).

(** What passes the first check of [canonical_destination]. *)
Lemma destination_text_ok s :
  bool_decide (s = []) || contains [0] s || negb (bool_decide (s = strip s)) = false ↔
  s ≠ [] ∧ 0 ∉ s ∧ trimmed s.
Proof.
  rewrite !orb_false_iff, bool_decide_eq_false, contains_single_false, negb_false_iff,
    bool_decide_eq_true. unfold trimmed. rewrite <- strip_fixed. naive_solver.
Qed.

Lemma digit_not_space c : is_digit c = true → is_space c = false.
Proof.
  unfold is_digit, is_space, in_range. rewrite andb_true_iff, !Z.leb_le. intros Hc.
  rewrite !orb_false_iff, !andb_false_iff, !Z.leb_gt, !Z.eqb_neq. lia.
Qed.
Lemma hex_not_space c : is_hex c = true → is_space c = false.
Proof.
  unfold is_hex. rewrite orb_true_iff. intros [?|Hc]; [by apply digit_not_space|].
  unfold is_space, in_range in *. rewrite andb_true_iff, !Z.leb_le in Hc.
  rewrite !orb_false_iff, !andb_false_iff, !Z.leb_gt, !Z.eqb_neq. lia.
Qed.

Lemma Forall_ends (P : Z → Prop) s :
  Forall P s → (∀ c, P c → is_space c = false) → trimmed s.
Proof.
  intros Hs HP. rewrite Forall_lookup in Hs. unfold trimmed. rewrite head_lookup, last_lookup.
  split; destruct (s !! _) eqn:E; simpl; eauto.
Qed.

Lemma trimmed_app_head a b : a ≠ [] → trimmed a → end_ok (last (a ++ b)) → trimmed (a ++ b).
Proof. destruct a as [|c a]; [done|]. intros _ [Hh _] Hl. by split. Qed.

Lemma str_of_nonneg_nonempty n : 0 <= n → str_of_nonneg n ≠ [].
Proof.
  intros Hn. pose proof (str_of_nonneg_canonical n Hn) as Hc.
  by apply canonical_digits_Forall in Hc as [? _].
Qed.

Lemma last_app_ne {A} (a b : list A) : b ≠ [] → last (a ++ b) = last b.
Proof.
  intros Hb. destruct b as [|x b]; [done|]. rewrite last_app. destruct (last (x :: b)) eqn:E; [done|].
  by apply last_None in E.
Qed.

Lemma v4_string_nonempty n : v4_string n ≠ [].
Proof.
  unfold v4_string. rewrite !fmap_cons, fmap_nil. cbn [join]. intros [E _]%app_eq_nil.
  by apply str_of_nonneg_nonempty in E; [|apply byte_of_bounds].
Qed.

Local Opaque v4_string v6_string v6_from_string str_of_nonneg.

(** The characters of a printed address without its scope. *)
Lemma v4_text n : v4_string n ≠ [] ∧ 0 ∉ v4_string n ∧ trimmed (v4_string n).
Proof.
  assert (Forall (λ c, is_digit c = true ∨ c = 46) (v4_string n)) as Hc.
  { apply Forall_forall. intros c Hc. destruct (is_digit c) eqn:E; [by left|right].
    destruct (decide (c = 46)); [done|]. by apply (v4_string_avoid n c E) in Hc. }
  split; [|split].
  - apply v4_string_nonempty.
  - by apply v4_string_avoid.
  - eapply Forall_ends; [exact Hc|]. intros c [?| ->]; [by apply digit_not_space | done].
Qed.

Lemma v6_text n :
  0 <= n < 2 ^ 128 → v6_string n ≠ [] ∧ 0 ∉ v6_string n ∧ trimmed (v6_string n).
Proof.
  intros Hn. split; [|split].
  - intros E. pose proof (v6_string_colon n Hn) as Hc. rewrite E in Hc. by apply elem_of_nil in Hc.
  - by apply v6_string_avoid.
  - assert (Forall (λ c, is_hex c = true ∨ c = 58) (v6_string n)) as Hc.
    { apply Forall_forall. intros c Hc. destruct (is_hex c) eqn:E; [by left|right].
      destruct (decide (c = 58)); [done|]. by apply (v6_string_avoid n c Hn E) in Hc. }
    eapply Forall_ends; [exact Hc|]. intros c [?| ->]; [by apply hex_not_space | done].
Qed.

(** The scope of a parsed address is a suffix of its text. *)
Lemma ip_address_scope s n scope :
  ip_address s = Some (IPv6 n (Some scope)) → ∃ pre, s = pre ++ scope.
Proof.
  unfold ip_address. destruct (parse_v4 s); [done|]. unfold parse_v6. case_match; [done|].
  unfold split_scope_id. destruct (partition_char 37 s) as [[x f] y] eqn:Ep.
  apply partition_char_spec in Ep as [_ Hs]. destruct f; simpl.
  - case_match; [done|]. simpl. destruct (v6_from_string x); [|done]. simpl. intros [= _ <-].
    exists (x ++ [37]). by rewrite <- app_assoc.
  - destruct (v6_from_string x); done.
Qed.

(** The printed form of an address whose scope fits is itself a valid text. *)
Definition scope_text (a : ip) : Prop :=
  match a with
  | IPv6 _ (Some scope) => 0 ∉ scope
  | _ => True
  end.

Lemma compressed_text a :
  ip_ok a → scope_text a →
  compressed a ≠ [] ∧ 0 ∉ compressed a ∧ end_ok (head (compressed a)).
Proof.
  destruct a as [n|n [scope|]]; simpl.
  - intros _ _. pose proof (v4_text n) as (? & ? & [? _]). done.
  - intros [Hn (Hne & _)] H0. destruct (v6_text n Hn) as (Hv & Hv0 & [Hh _]). split; [|split].
    + by intros [? _]%app_eq_nil.
    + rewrite elem_of_app, elem_of_cons. naive_solver.
    + destruct (v6_string n); done.
  - intros [Hn _] _. pose proof (v6_text n Hn) as (? & ? & [? _]). done.
Qed.

Lemma ip_text_canonical s a :
  s ≠ [] → 0 ∉ s → trimmed s → ip_address s = Some a →
  compressed a ≠ [] ∧ 0 ∉ compressed a ∧ trimmed (compressed a).
Proof.
  intros Hs H0 Ht Ha. pose proof (ip_address_ok s a Ha) as Hok.
  assert (scope_text a ∧ end_ok (last (compressed a))) as [Hsc Hl].
  { destruct a as [n|n [scope|]]; simpl.
    - split; [done|]. by destruct (v4_text n) as (_ & _ & [_ ?]).
    - destruct (ip_address_scope _ _ _ Ha) as [pre ->]. destruct Hok as (_ & Hne & _).
      rewrite elem_of_app in H0. split; [tauto|].
      rewrite last_app_ne by done. change (37 :: scope) with ([37] ++ scope).
      rewrite last_app_ne by done. destruct Ht as [_ Hl]. by rewrite last_app_ne in Hl.
    - split; [done|]. destruct Hok as [Hn _]. by destruct (v6_text n Hn) as (_ & _ & [_ ?]). }
  destruct (compressed_text a Hok Hsc) as (? & ? & ?). by repeat split.
Qed.

Lemma parse_v6_scope s n scope : parse_v6 s = Some (IPv6 n (Some scope)) → ∃ pre, s = pre ++ scope.
Proof.
  intros Hp. destruct (parse_v4 s) as [m|] eqn:E.
  - apply parse_v4_chars in E as [_ Hc]. unfold parse_v6 in Hp. case_match; [done|].
    unfold split_scope_id in Hp. rewrite partition_char_absent in Hp; simpl in Hp.
    + by destruct (v6_from_string s).
    + rewrite Forall_forall in Hc. intros Hin. by destruct (Hc 37 Hin).
  - apply (ip_address_scope s n). unfold ip_address. by rewrite E.
Qed.

Lemma strict_network_address a p n : strict_network a p = Some n → network_address n = a.
Proof. unfold strict_network. case_match; [|done]. by intros [= <-]. Qed.

Lemma ip_network_address s n :
  ip_network s = Some n →
  ∃ addr rest, split_char 47 s = addr :: rest ∧
    (parse_v6 addr = Some (network_address n) ∨ ∃ m, network_address n = IPv4 m).
Proof.
  unfold ip_network. destruct (split_char 47 s) as [|addr rest]; [done|]. intros Hn.
  exists addr, rest. split; [done|].
  assert ((match parse_v4 addr, v4_prefix (head rest) with
           | Some n, Some p => strict_network (IPv4 n) p
           | _, _ => a ← parse_v6 addr; p ← v6_prefix (head rest); strict_network a p
           end) = Some n) as E by (destruct rest as [|? [|]]; done). clear Hn.
  assert ((a ← parse_v6 addr; p ← v6_prefix (head rest); strict_network a p) = Some n →
    parse_v6 addr = Some (network_address n)) as H6.
  { destruct (parse_v6 addr) as [b|]; simpl; [|done].
    destruct (v6_prefix (head rest)); simpl; [|done]. by intros ->%strict_network_address. }
  destruct (parse_v4 addr) as [v|]; [|by left; apply H6].
  destruct (v4_prefix (head rest)) as [q|]; [|by left; apply H6].
  right. exists v. by apply strict_network_address in E.
Qed.

Lemma net_text_canonical s n :
  0 ∉ s → ip_network s = Some n →
  net_compressed n ≠ [] ∧ 0 ∉ net_compressed n ∧ trimmed (net_compressed n).
Proof.
  intros H0 Hn. pose proof (ip_network_ok s n Hn) as (Hok & Hp & _).
  assert (scope_text (network_address n)) as Hsc.
  { destruct (network_address n) as [m|m [scope|]] eqn:Ea; simpl; try done.
    pose proof (join_split_char 47 s) as Hj.
    apply ip_network_address in Hn as (addr & rest & Hsplit & [Hpar|[v Hv]]); [|congruence].
    rewrite Hsplit in Hj.
    rewrite Ea in Hpar. apply parse_v6_scope in Hpar as [pre Hpre].
    intros Hin. apply H0. rewrite <- Hj. destruct rest; simpl; [|rewrite elem_of_app; left];
      rewrite Hpre, elem_of_app; by right. }
  destruct (compressed_text _ Hok Hsc) as (Hne & Hnz & Hh).
  pose proof (str_digits (prefixlen n) ltac:(lia)) as Hd. unfold net_compressed.
  pose proof (str_of_nonneg_nonempty (prefixlen n) ltac:(lia)) as Hsn.
  split; [by intros [? _]%app_eq_nil|]. split.
  - rewrite !elem_of_app, list_elem_of_singleton. intros [?|[?|Hin]]; [done|done|].
    rewrite Forall_forall in Hd. by apply Hd in Hin.
  - split; [by destruct (compressed (network_address n))|].
    rewrite last_app_ne by done. rewrite last_app_ne by done.
    destruct (Forall_ends _ _ Hd digit_not_space) as [_ ?]. done.
Qed.

(** Labels of a canonical host. *)
Lemma label_chars l : fullmatch LABEL l = true →
  l ≠ [] ∧ Forall (λ c, in_set [(97, 122); (48, 57); (45, 45)] c = true) l.
Proof.
  rewrite fullmatch_spec. intros Hm. split.
  - intros ->. apply matches_cat in Hm as (x & y & E & (c & -> & _)%matches_set & _). done.
  - eapply matches_chars; [|exact Hm].
    assert (∀ n, re_chars (λ c, in_set [(97, 122); (48, 57); (45, 45)] c = true)
      (RUpTo n (RSet [(97, 122); (48, 57); (45, 45)]))) as Hup.
    { induction n as [|n IH]; simpl; [done|]. repeat split; [|exact IH]. done. }
    specialize (Hup 61%nat). unfold LABEL. revert Hup.
    generalize (RUpTo 61 (RSet [(97, 122); (48, 57); (45, 45)])). intros U HU.
    cbn [re_chars ROpt]. repeat split; [|exact HU|]; intros c; solve_in_set.
Qed.

Definition host_char (c : Z) : Prop := c = 46 ∨ 97 ≤ c ≤ 122 ∨ 48 ≤ c ≤ 57 ∨ c = 45.

Lemma host_labels_ok s :
  existsb (λ l, negb (fullmatch LABEL l)) (split_char 46 s) = false →
  s ≠ [] ∧ Forall host_char s ∧ last s ≠ Some 46.
Proof.
  rewrite existsb_false, Forall_forall. intros Hl.
  assert (∀ l, l ∈ split_char 46 s → l ≠ [] ∧ Forall host_char l) as Hlab.
  { intros l Hin. specialize (Hl l Hin). apply negb_false_iff, label_chars in Hl as [Hne Hc].
    split; [done|]. eapply Forall_impl; [exact Hc|]. intros c. unfold host_char.
    simpl. unfold in_set, in_range. simpl.
    rewrite ?orb_false_r, ?orb_true_iff, ?andb_true_iff, ?Z.leb_le. lia. }
  pose proof (join_split_char 46 s) as Hj. pose proof (split_char_nonempty 46 s) as Hne.
  assert (∀ ls, ls ≠ [] → (∀ l, l ∈ ls → l ≠ [] ∧ Forall host_char l ∧ 46 ∉ l) →
    join [46] ls ≠ [] ∧ Forall host_char (join [46] ls) ∧ last (join [46] ls) ≠ Some 46) as Hgen.
  { induction ls as [|l ls IH]; [done|]. intros _ Hall.
    destruct (Hall l ltac:(left)) as (Hln & Hlc & Hld).
    destruct ls as [|l' ls]; [simpl; split; [done|split; [done|]]|].
    - intros E%last_Some_elem_of. done.
    - destruct IH as (In & Ic & Il); [done|intros; apply Hall; by right|].
      change (join [46] (l :: l' :: ls)) with (l ++ [46] ++ join [46] (l' :: ls)).
      split; [by intros [? _]%app_eq_nil|]. split.
      + apply Forall_app; split; [done|]. apply Forall_app; split; [|done].
        constructor; [by left | done].
      + rewrite last_app_ne by done. by rewrite last_app_ne. }
  rewrite <- Hj. apply Hgen; [done|]. intros l Hin. destruct (Hlab l Hin). split; [done|].
  split; [done|]. by eapply split_char_no_sep.
Qed.

Lemma host_lower `{PyUnicode} s : Forall host_char s → py_lower s = s.
Proof.
  intros Hs. rewrite py_lower_ascii.
  - induction Hs as [|c s Hc Hs IH]; [done|]. rewrite fmap_cons, IH. f_equal.
    unfold lower_char, is_upper, in_range. unfold host_char in Hc.
    destruct (Z.leb_spec 65 c), (Z.leb_spec c 90); simpl; lia.
  - unfold is_ascii. apply forallb_Forall. eapply Forall_impl; [exact Hs|].
    intros c Hc. unfold host_char in Hc. apply Z.ltb_lt. lia.
Qed.

Lemma endswith_dot s : endswith [46] s = true → last s = Some 46.
Proof.
  unfold endswith. rewrite startswith_app. intros [k Hk].
  rewrite <- head_reverse, Hk. done.
Qed.

Lemma canonical_host_fixed `{PyUnicode, IdnaCodec} v c :
  (∀ s t, idna_encode s = Some t → idna_encode t = Some t) →
  canonical_host v = Ok c → c ≠ [] ∧ 0 ∉ c ∧ trimmed c ∧ canonical_host c = Ok c.
Proof.
  intros Hidem Hc. unfold canonical_host in Hc.
  apply bind_Ok in Hc as ([] & _ & Hc).
  destruct (idna_encode _) as [e|] eqn:Ee; [|done].
  apply bind_Ok in Hc as ([] & Hlen & Hc). apply bind_Ok in Hc as ([] & Hlab & Hc).
  injection Hc as <-. apply raise_if_Ok in Hlab as Hl.
  apply host_labels_ok in Hl as (Hne & Hch & Hlast).
  split; [done|]. split.
  { intros Hin. rewrite Forall_forall in Hch. specialize (Hch 0 Hin). unfold host_char in Hch. lia. }
  split.
  { eapply Forall_ends; [exact Hch|]. intros x Hx. unfold host_char in Hx. unfold is_space, in_range.
    rewrite !orb_false_iff, !andb_false_iff, !Z.leb_gt, !Z.eqb_neq. lia. }
  unfold canonical_host. destruct (endswith [46] e) eqn:Ew; [by apply endswith_dot in Ew|].
  rewrite bool_decide_false by done. cbn [raise_if mbind result_bind].
  rewrite host_lower by done. rewrite (Hidem _ _ Ee).
  apply bind_Ok. exists tt. split; [done|]. apply bind_Ok. exists tt. by split.
Qed.

Lemma canonical_ip_fixed `{PyUnicode, IdnaCodec} v c :
  canonical_destination IP v = Ok c → canonical_destination IP c = Ok c.
Proof.
  unfold canonical_destination, py_ip_address. intros Hc. apply bind_Ok in Hc as ([] & Hv & Hc).
  apply raise_if_Ok, destination_text_ok in Hv as (Hne & H0' & Ht).
  destruct (ip_address v) as [a|] eqn:Ea; [|done]. cbn [mbind result_bind] in Hc. injection Hc as <-.
  rewrite (proj2 (destination_text_ok (compressed a))) by by eapply ip_text_canonical.
  by rewrite (ip_address_canonical _ _ Ea).
Qed.

(** destinations are comparison-safe: canonicalization is idempotent for
    every kind (hosts, addresses, networks, private classes), so a destination
    built from an already canonical text is itself, and two texts denote the
    same destination exactly when their canonical forms are equal strings.  The
    IDNA library is assumed to map its own output to itself. *)
Theorem canonical_destination_idempotent `{PyUnicode, IdnaCodec} (k : DestinationKind) (v c : pystr)
    (Hidna : ∀ s t, idna_encode s = Some t → idna_encode t = Some t)
    (Hc : canonical_destination k v = Ok c) :
  canonical_destination k c = Ok c ∧ make_Destination k c = make_Destination k v.
Proof.
  assert (canonical_destination k c = Ok c) as Hid; [|by unfold make_Destination; rewrite Hid, Hc].
  unfold canonical_destination in Hc. apply bind_Ok in Hc as ([] & Hv & Hc).
  apply raise_if_Ok, destination_text_ok in Hv as (Hne & H0' & Ht).
  assert (c ≠ [] ∧ 0 ∉ c ∧ trimmed c ∧
    (match k with
     | HOST => canonical_host c
     | IP => a ← py_ip_address c; Ok (compressed a)
     | CIDR => n ← py_ip_network c; Ok (net_compressed n)
     | PRIVATE_CLASS =>
         match enum_of_value (A:=PrivateNetworkClass) c with
         | Some c => Ok (enum_value c)
         | None => Raise (ValueError "unsupported private network class")
         end
     end = Ok c)) as (Hcne & Hc0 & Hct & Hcan).
  { destruct k.
    - by eapply canonical_host_fixed.
    - unfold py_ip_address in *. destruct (ip_address v) as [a|] eqn:Ea; [|done].
      cbn [mbind result_bind] in Hc. injection Hc as <-.
      destruct (ip_text_canonical v a Hne H0' Ht Ea) as (? & ? & ?).
      do 3 (split; [done|]). by rewrite (ip_address_canonical _ _ Ea).
    - unfold py_ip_network in *. destruct (ip_network v) as [n|] eqn:En; [|done].
      cbn [mbind result_bind] in Hc. injection Hc as <-.
      destruct (net_text_canonical v n H0' En) as (? & ? & ?).
      do 3 (split; [done|]). by rewrite (ip_network_canonical _ _ En).
    - destruct (enum_of_value v) as [p|] eqn:Ep; [|done]. injection Hc as <-.
      split; [by destruct p|]. split; [apply contains_single_false; by destruct p|].
      split; [split; by destruct p | by destruct p]. }
  unfold canonical_destination. rewrite (proj2 (destination_text_ok c)) by done. exact Hcan.
Qed.

(** A codec for witnesses: plain ASCII host names. *)
Definition ascii_idna : IdnaCodec :=
  {| idna_encode := λ s, if is_ascii s then Some s else None |}.

Lemma canonical_destination_witness :
  canonical_destination (H:=ascii_unicode) (H0:=ascii_idna) IP ($"fe80::1%eth0") = Ok ($"fe80::1%eth0") ∧
  canonical_destination (H:=ascii_unicode) (H0:=ascii_idna) HOST ($"api.example.com")
  = Ok ($"api.example.com").
Proof.
  split.
  - apply (canonical_destination_idempotent (H:=ascii_unicode) (H0:=ascii_idna) IP
      ($"FE80:0:0::1%eth0")); [|vm_compute; reflexivity].
    intros s t. simpl. destruct (is_ascii s) eqn:E; [|discriminate]. intros [= <-]. by rewrite E.
  - apply (canonical_destination_idempotent (H:=ascii_unicode) (H0:=ascii_idna) HOST
      ($"API.Example.com.")); [|vm_compute; reflexivity].
    intros s t. simpl. destruct (is_ascii s) eqn:E; [|discriminate]. intros [= <-]. by rewrite E.
Defined.

(** ** Canonical rules and policies *)

Lemma destination_key_inj x y : destination_key x = destination_key y → x = y.
Proof.
  destruct x as [k v], y as [k' v']. unfold destination_key; simpl. intros [= Hk ->].
  by destruct k, k'.
Qed.
Lemma scope_key_inj x y : scope_key x = scope_key y → x = y.
Proof.
  destruct x as [k v], y as [k' v']. unfold scope_key; simpl. intros [= Hk ->]. by destruct k, k'.
Qed.
Lemma port_key_inj x y : port_key x = port_key y → x = y.
Proof. destruct x, y. unfold port_key; simpl. by intros [= -> ->]. Qed.

(** Two rules that say the same: equal up to order and repetition. *)
Record same_rule (r s : NetworkRule) : Prop := {
  sr_id : rule_id r = rule_id s;
  sr_owner : owner r = owner s;
  sr_action : rule_action r = rule_action s;
  sr_expiry : expires_at_epoch_seconds r = expires_at_epoch_seconds s;
  sr_destinations : ∀ d, d ∈ destinations r ↔ d ∈ destinations s;
  sr_protocols : ∀ p, p ∈ protocols r ↔ p ∈ protocols s;
  sr_ports : ∀ p, p ∈ ports r ↔ p ∈ ports s;
  sr_scopes : ∀ p, p ∈ process_scopes r ↔ p ∈ process_scopes s;
}.

Lemma same_elements_nil {A} (l k : list A) : (∀ x, x ∈ l ↔ x ∈ k) → l = [] ↔ k = [].
Proof.
  intros Heq. split; intros ->; [destruct k as [|x k] | destruct l as [|x l]]; try done;
    (destruct (not_elem_of_nil x); apply Heq; left).
Qed.
Lemma py_in_ext {A} `{EqDecision A} (x : A) (l k : list A) :
  (∀ x, x ∈ l ↔ x ∈ k) → py_in x l = py_in x k.
Proof. intros Heq. apply bool_decide_ext, Heq. Qed.
Lemma forallb_ext_elem {A} (f : A → bool) (l k : list A) :
  (∀ x, x ∈ l ↔ x ∈ k) → forallb f l = forallb f k.
Proof.
  intros Heq. apply eq_bool_prop_intro. rewrite !Is_true_true, !forallb_Forall, !Forall_forall.
  by setoid_rewrite Heq.
Qed.

Lemma make_rule_same r s : same_rule r s → make_NetworkRule r = make_NetworkRule s.
Proof.
  intros [Hid Ho Ha He Hd Hp Hpo Hs]. unfold make_NetworkRule.
  rewrite Hid, Ho, Ha, He.
  rewrite (bool_decide_ext _ _ (same_elements_nil _ _ Hd)).
  rewrite (bool_decide_ext _ _ (same_elements_nil _ _ Hp)).
  rewrite (bool_decide_ext _ _ (same_elements_nil _ _ Hpo)).
  rewrite !(py_in_ext _ _ _ Hp), (forallb_ext_elem _ _ _ Hpo).
  rewrite (sorted_set_on_ext destination_key _ _ destination_key_inj Hd).
  rewrite (sorted_set_on_ext scope_key _ _ scope_key_inj Hs).
  rewrite (sorted_set_on_ext port_key _ _ port_key_inj Hpo).
  rewrite (sorted_set_on_ext enum_value (protocols r) (protocols s)
    (λ x y, inj enum_value x y) Hp). done.
Qed.

Lemma make_rule_Ok r s : make_NetworkRule r = Ok s → same_rule s r ∧ protocols s ≠ [] ∧
  Protocol_UNKNOWN ∉ protocols s ∧ fullmatch STABLE_ID (rule_id s) = true ∧
  (∀ e, expires_at_epoch_seconds s = Some e → 0 < e).
Proof.
  unfold make_NetworkRule, require_id. intros H. inv_ok. split_bool.
  split; [split; simpl; try done; intros x; apply elem_of_sorted_set_on|]. simpl.
  rewrite bool_decide_eq_false in *. split; [by rewrite sorted_set_on_nil|].
  split; [rewrite elem_of_sorted_set_on; by apply py_in_false|]. split; [done|].
  intros e E. rewrite E in *. lia.
Qed.

(** The same policy with other rules. *)
Definition with_rules (p : NetworkPolicy) (rs : list NetworkRule) : NetworkPolicy :=
  {| policy_id := policy_id p; generation := generation p; rules := rs;
     required_grade := required_grade p; failure_mode := failure_mode p;
     policy_schema_version := policy_schema_version p |}.

Lemma make_policy_Ok p c :
  make_NetworkPolicy p = Ok c ↔
  policy_schema_version p = NETWORK_POLICY_SCHEMA_VERSION ∧
  fullmatch STABLE_ID (policy_id p) = true ∧ 1 <= generation p ∧ NoDup (rule_id <$> rules p) ∧
  c = with_rules p (sort_on rule_id (rules p)).
Proof.
  unfold make_NetworkPolicy, require_id. split.
  - intros E. apply bind_Ok in E as ([] & Hv & E). apply bind_Ok in E as ([] & Hi & E).
    apply bind_Ok in E as ([] & Hg & E). apply bind_Ok in E as ([] & Hd & E). injection E as <-.
    apply raise_if_Ok in Hv, Hi, Hg, Hd.
    rewrite negb_false_iff, bool_decide_eq_true in Hv. rewrite negb_false_iff in Hi.
    apply Z.ltb_ge in Hg. apply has_dups_false in Hd. done.
  - intros (Hv & Hi & Hg & Hd & ->). rewrite bool_decide_true by done.
    rewrite Hi, (proj2 (Z.ltb_ge _ _) Hg), (proj2 (has_dups_false _) Hd). done.
Qed.

(** a rule and a policy have one canonical form: constructing a rule from
    its own canonical fields changes nothing, rules that differ only in order
    and repetition of their parts become equal, and a policy (hence its digest,
    the token that activation compares) does not depend on the order of its
    rules. *)
Theorem policy_canonical (r s : NetworkRule) (p c : NetworkPolicy)
    (Hr : make_NetworkRule r = Ok s) (Hp : make_NetworkPolicy p = Ok c) :
  make_NetworkRule s = Ok s ∧ (∀ r', same_rule r r' → make_NetworkRule r' = Ok s) ∧
  make_NetworkPolicy c = Ok c ∧
  ∀ rs, rules p ≡ₚ rs → make_NetworkPolicy (with_rules p rs) = Ok c.
Proof.
  split; [|split].
  - rewrite <- Hr. apply make_rule_same. by apply make_rule_Ok in Hr as [? _].
  - intros r' Hs. by rewrite <- (make_rule_same _ _ Hs).
  - apply make_policy_Ok in Hp as (Hv & Hi & Hg & Hd & ->). split.
    + apply make_policy_Ok. simpl. rewrite sort_on_idemp.
      do 3 (split; [done|]). split; [|done]. by rewrite sort_on_Permutation.
    + intros rs Hperm. apply make_policy_Ok. simpl. do 3 (split; [done|]).
      split; [by rewrite <- Hperm|]. unfold with_rules. simpl. f_equal.
      apply sort_on_perm; [|done]. intros x y. by apply NoDup_fmap_separates.
Qed.

(** ** Witness *)

Definition sample_destination : Destination :=
  {| dest_kind := IP; dest_value := $"10.0.0.7" |}.
Definition sample_rule (id : string) (a : NetworkAction) (d : Destination) : NetworkRule :=
  {| rule_id := lit id; owner := LOCAL; rule_action := a; destinations := [d];
     protocols := [UDP; TCP; UDP]; ports := [{| port_start := 443; port_end := 443 |}];
     process_scopes := []; expires_at_epoch_seconds := Some 2000 |}.
Definition sample_network_policy : NetworkPolicy :=
  {| policy_id := $"workspace.default"; generation := 3;
     rules := [sample_rule "b.deny" DENY sample_destination;
               sample_rule "a.allow" ALLOW sample_destination];
     required_grade := Grade_DENY_ALL; failure_mode := Failure_DENY;
     policy_schema_version := $"guard.network-policy.v1" |}.

Lemma policy_canonical_witness :
  ∃ s c, make_NetworkRule (sample_rule "a.allow" ALLOW sample_destination) = Ok s ∧
    make_NetworkPolicy sample_network_policy = Ok c ∧ make_NetworkRule s = Ok s ∧
    make_NetworkPolicy c = Ok c.
Proof.
  destruct (make_NetworkRule (sample_rule "a.allow" ALLOW sample_destination)) as [s|] eqn:Hs;
    [|vm_compute in Hs; discriminate Hs].
  destruct (make_NetworkPolicy sample_network_policy) as [c|] eqn:Hc;
    [|vm_compute in Hc; discriminate Hc].
  destruct (policy_canonical _ _ _ _ Hs Hc) as (Hss & _ & Hcc & _).
  exists s, c. split; [reflexivity|]. split; [reflexivity|]. split; [exact Hss | exact Hcc].
Defined.
