(* ===== verification/NetworkCapability.v ===== *)
(** * Backend capabilities, failures and the control plane

    Models [network_capability_contract.py], [network_backend_registry.py] and
    [network_plane_router.py].  A [frozenset] field is a list compared as a
    set; the registry is its insertion-ordered [dict] from backend
    identifiers to profiles. *)

From S2P Require Import Prelude PyStr Sha256 Regex PyVal IpAddress NetworkContract.
Local Open Scope Z_scope.
Local Open Scope py_scope.

(** ** [network_capability_contract.py] *)

Inductive PlatformFamily := LINUX | MACOS | WINDOWS | KUBERNETES.
Global Instance PlatformFamily_eq_dec : EqDecision PlatformFamily.
Proof. solve_decision. Defined.

Inductive BackendState :=
  | State_AVAILABLE | State_UNAVAILABLE | State_STALE | State_TAMPERED | State_DEGRADED.
Global Instance BackendState_eq_dec : EqDecision BackendState.
Proof. solve_decision. Defined.
Definition BackendState_value (s : BackendState) : pystr :=
  match s with
  | State_AVAILABLE => $"available" | State_UNAVAILABLE => $"unavailable"
  | State_STALE => $"stale" | State_TAMPERED => $"tampered" | State_DEGRADED => $"degraded"
  end.

Inductive RecoveryAction := Recovery_NONE | RETRY | REPAIR | REQUIRE_ADMIN | ROLLBACK.
Global Instance RecoveryAction_eq_dec : EqDecision RecoveryAction.
Proof. solve_decision. Defined.

Inductive ControlPlaneRoute := Route_POLICY | Route_HEALTH | Route_UPDATE | Route_REVOCATION.
Global Instance ControlPlaneRoute_eq_dec : EqDecision ControlPlaneRoute.
Proof. solve_decision. Defined.

(** Equality of two frozensets. *)
Definition set_eqb {A} `{EqDecision A} (a b : list A) : bool := py_subset a b && py_subset b a.

Record PlatformCapabilityProfile := {
  platform : PlatformFamily;
  profile_backend_id : pystr;
  profile_capabilities : list BackendCapability;
  profile_maximum_grade : EnforcementGrade;
  requires_privilege : bool;
  production_ready : bool;
  reason_code : pystr;
}.

(** [PlatformCapabilityProfile.__post_init__] *)
Definition check_PlatformCapabilityProfile (p : PlatformCapabilityProfile) : result unit :=
  require_id (profile_backend_id p) "backend_id" ;;
  raise_if (negb (py_subset (grade_required_capabilities (profile_maximum_grade p))
    (profile_capabilities p))) (ValueError "maximum_grade exceeds verified capabilities") ;;
  require_id (reason_code p) "reason_code".

(** Dataclass equality of profiles. *)
Definition profile_eqb (p q : PlatformCapabilityProfile) : bool :=
  bool_decide (platform p = platform q)
  && bool_decide (profile_backend_id p = profile_backend_id q)
  && set_eqb (profile_capabilities p) (profile_capabilities q)
  && bool_decide (profile_maximum_grade p = profile_maximum_grade q)
  && Bool.eqb (requires_privilege p) (requires_privilege q)
  && Bool.eqb (production_ready p) (production_ready q)
  && bool_decide (reason_code p = reason_code q).

Record CapabilityRequirement := {
  required_capabilities : list BackendCapability;
  minimum_grade : EnforcementGrade;
}.

(** [CapabilityRequirement.__post_init__] *)
Definition check_CapabilityRequirement (r : CapabilityRequirement) : result unit :=
  raise_if (bool_decide (required_capabilities r = []))
    (ValueError "capabilities must contain exact values") ;;
  raise_if (negb (py_subset (grade_required_capabilities (minimum_grade r)) (required_capabilities r)))
    (ValueError "minimum_grade exceeds required capabilities").

Record FailureDisposition := {
  backend_state : BackendState;
  policy_mode : FailureMode;
  effective_grade : EnforcementGrade;
  permit_workload_network : bool;
  recovery : RecoveryAction;
  disposition_reason_code : pystr;
}.

(** [FailureDisposition.__post_init__] *)
Definition check_FailureDisposition (d : FailureDisposition) : result unit :=
  require_id (disposition_reason_code d) "reason_code" ;;
  raise_if (negb (bool_decide (backend_state d = State_AVAILABLE)) && permit_workload_network d)
    (ValueError "unhealthy enforcement cannot permit workload networking") ;;
  raise_if (permit_workload_network d && py_in (effective_grade d) [Grade_UNAVAILABLE; Grade_OBSERVE])
    (ValueError "non-enforcing grades cannot permit workload networking").

Record ControlPlaneEscapeHatch := {
  hatch_installation_id : pystr;
  routes : list ControlPlaneRoute;
  endpoint_digests : list pystr;
  hatch_executable_digest : pystr;
  hatch_expires_at_epoch_ms : Z;
  inheritable_by_workload : bool;
}.

(** [ControlPlaneEscapeHatch.__post_init__] *)
Definition make_ControlPlaneEscapeHatch (h : ControlPlaneEscapeHatch) : result ControlPlaneEscapeHatch :=
  require_id (hatch_installation_id h) "installation_id" ;;
  raise_if (bool_decide (routes h = [])) (ValueError "routes must contain exact values") ;;
  raise_if (bool_decide (endpoint_digests h = [])) (ValueError "endpoint_digests cannot be empty") ;;
  for_each (λ d, require_digest d "endpoint_digest") (endpoint_digests h) ;;
  require_digest (hatch_executable_digest h) "executable_digest" ;;
  raise_if (hatch_expires_at_epoch_ms h <=? 0) (ValueError "expires_at_epoch_ms must be positive") ;;
  raise_if (inheritable_by_workload h)
    (ValueError "control-plane routes cannot be inherited by workloads") ;;
  Ok {| hatch_installation_id := hatch_installation_id h; routes := routes h;
        endpoint_digests := sorted_set_on (λ d, d) (endpoint_digests h);
        hatch_executable_digest := hatch_executable_digest h;
        hatch_expires_at_epoch_ms := hatch_expires_at_epoch_ms h;
        inheritable_by_workload := inheritable_by_workload h |}.

Record NetworkPrivacyPolicy := {
  raw_destination_enabled : bool;
  retention_seconds : Z;
  maximum_events : Z;
  include_process_arguments : bool;
  include_url_components : bool;
  include_payload_bytes : bool;
  privacy_schema_version : pystr;
}.

(** [NetworkPrivacyPolicy.__post_init__] *)
Definition check_NetworkPrivacyPolicy (p : NetworkPrivacyPolicy) : result unit :=
  raise_if (negb (bool_decide (privacy_schema_version p = NETWORK_PRIVACY_SCHEMA_VERSION)))
    (ValueError "unsupported network privacy schema version") ;;
  raise_if (negb ((60 <=? retention_seconds p) && (retention_seconds p <=? 2592000)))
    (ValueError "retention_seconds must be within 60..2592000") ;;
  raise_if (negb ((1 <=? maximum_events p) && (maximum_events p <=? 1000000)))
    (ValueError "maximum_events must be within 1..1000000") ;;
  raise_if (include_process_arguments p || include_url_components p || include_payload_bytes p)
    (ValueError "sensitive flow fields are prohibited") ;;
  raise_if (raw_destination_enabled p && (86400 <? retention_seconds p))
    (ValueError "raw destination retention cannot exceed one day").

Definition enforcement_grade_rank (g : EnforcementGrade) : Z :=
  match g with
  | Grade_UNAVAILABLE => 0 | Grade_OBSERVE => 1 | Grade_DENY_ALL => 2 | Grade_PROXY_ONLY => 3
  | Grade_TCP_IP_DESTINATION_ENFORCED => 4 | Grade_UDP_DNS_DESTINATION_ENFORCED => 5
  | Grade_DESTINATION_ENFORCED => 6
  end.

Definition negotiate_capability (p : PlatformCapabilityProfile) (r : CapabilityRequirement)
    : EnforcementGrade :=
  if negb (production_ready p) || negb (py_subset (required_capabilities r) (profile_capabilities p))
  then Grade_UNAVAILABLE
  else if negb (py_subset (grade_required_capabilities (minimum_grade r)) (profile_capabilities p))
  then Grade_UNAVAILABLE
  else if enforcement_grade_rank (profile_maximum_grade p) <? enforcement_grade_rank (minimum_grade r)
  then Grade_UNAVAILABLE
  else profile_maximum_grade p.

(** The recovery table of [failure_disposition]; its [dict] has no entry for
    an available backend. *)
Definition recovery_of (s : BackendState) : option RecoveryAction :=
  match s with
  | State_UNAVAILABLE => Some RETRY
  | State_STALE => Some REPAIR
  | State_TAMPERED => Some REQUIRE_ADMIN
  | State_DEGRADED => Some ROLLBACK
  | State_AVAILABLE => None
  end.

Definition failure_disposition (s : BackendState) (m : FailureMode) : result FailureDisposition :=
  raise_if (bool_decide (s = State_AVAILABLE))
    (ValueError "available backend disposition requires verified runtime grade") ;;
  rec ← match recovery_of s with
        | Some a => Ok a
        | None => Raise (KeyError (show (BackendState_value s)))
        end ;
  let d := {| backend_state := s; policy_mode := m;
              effective_grade := if decide (m = Failure_OFFLINE) then Grade_DENY_ALL
                                 else Grade_UNAVAILABLE;
              permit_workload_network := false; recovery := rec;
              disposition_reason_code := $"backend-" ++ BackendState_value s |} in
  check_FailureDisposition d ;;
  Ok d.

Definition default_platform_profiles : list PlatformCapabilityProfile :=
  [ {| platform := LINUX; profile_backend_id := $"linux.oci-proxy";
       profile_capabilities :=
         [Cap_DENY_ALL; Cap_PROXY_ONLY; Cap_PROCESS_TREE; Cap_ATOMIC_POLICY; Cap_RECEIPTS];
       profile_maximum_grade := Grade_PROXY_ONLY; requires_privilege := true;
       production_ready := false; reason_code := $"alpha-not-validated" |};
    {| platform := MACOS; profile_backend_id := $"macos.observe";
       profile_capabilities := [Cap_OBSERVE];
       profile_maximum_grade := Grade_OBSERVE; requires_privilege := false;
       production_ready := false; reason_code := $"feasibility-pending" |};
    {| platform := WINDOWS; profile_backend_id := $"windows.observe";
       profile_capabilities := [Cap_OBSERVE];
       profile_maximum_grade := Grade_OBSERVE; requires_privilege := false;
       production_ready := false; reason_code := $"feasibility-pending" |};
    {| platform := KUBERNETES; profile_backend_id := $"kubernetes.network-policy";
       profile_capabilities := [Cap_DENY_ALL; Cap_RECEIPTS];
       profile_maximum_grade := Grade_DENY_ALL; requires_privilege := true;
       production_ready := false; reason_code := $"provider-pending" |} ].

(** ** [network_backend_registry.py] *)

Definition registry : Type := list (pystr * PlatformCapabilityProfile).

Record BackendSelection := {
  profile : PlatformCapabilityProfile;
  achieved_grade : EnforcementGrade;
}.

Definition register (r : registry) (p : PlatformCapabilityProfile) : result registry :=
  raise_if (match dict_lookup (profile_backend_id p) r with
            | Some existing => negb (profile_eqb existing p)
            | None => false
            end)
    (ValueError ("backend profile conflict: " +:+ show (profile_backend_id p))) ;;
  Ok (dict_set (profile_backend_id p) p r).

Fixpoint register_all (r : registry) (ps : list PlatformCapabilityProfile) : result registry :=
  match ps with
  | [] => Ok r
  | p :: ps => r' ← register r p ; register_all r' ps
  end.
(** [NetworkBackendRegistry.__init__] *)
Definition new_registry (ps : list PlatformCapabilityProfile) : result registry := register_all [] ps.

Definition on_platform (f : option PlatformFamily) (p : PlatformCapabilityProfile) : bool :=
  match f with None => true | Some f => bool_decide (platform p = f) end.
Definition profiles (r : registry) (f : option PlatformFamily) : list PlatformCapabilityProfile :=
  sort_on profile_backend_id (filter (λ p, on_platform f p = true) (r.*2)).

Definition selections (r : registry) (f : PlatformFamily) (q : CapabilityRequirement)
    : list BackendSelection :=
  omap (λ p, let g := negotiate_capability p q in
             if decide (g = Grade_UNAVAILABLE) then None
             else Some {| profile := p; achieved_grade := g |}) (profiles r (Some f)).

Definition selection_key (s : BackendSelection) : Z * pystr :=
  (- enforcement_grade_rank (achieved_grade s), profile_backend_id (profile s)).

(** [min(items, key=key)]: the first item of least key. *)
Definition min_on {A K} `{PyOrd K} (key : A → K) (x : A) (l : list A) : A :=
  foldl (λ best y, if py_ltb (key y) (key best) then y else best) x l.

Definition select (r : registry) (f : PlatformFamily) (q : CapabilityRequirement)
    : option BackendSelection :=
  match selections r f q with
  | [] => None
  | s :: rest => Some (min_on selection_key s rest)
  end.

(** ** [network_plane_router.py] *)

Inductive NetworkPlane := GUARD_CONTROL | WORKLOAD.
Global Instance NetworkPlane_eq_dec : EqDecision NetworkPlane.
Proof. solve_decision. Defined.

Record ControlPlaneRequest := {
  request_installation_id : pystr;
  request_executable_digest : pystr;
  endpoint_digest : pystr;
  route : ControlPlaneRoute;
  plane : NetworkPlane;
}.

(** [ControlPlaneRequest.__post_init__] *)
Definition check_ControlPlaneRequest (r : ControlPlaneRequest) : result unit :=
  require_id (request_installation_id r) "installation_id" ;;
  require_digest (request_executable_digest r) "executable_digest" ;;
  require_digest (endpoint_digest r) "endpoint_digest" ;;
  raise_if (negb (bool_decide (plane r = GUARD_CONTROL)))
    (ValueError "control-plane requests must use the Guard control plane").

Definition escape_hatch_allows (h : ControlPlaneEscapeHatch) (r : ControlPlaneRequest) (now : Z) : bool :=
  (now <? hatch_expires_at_epoch_ms h)
  && bool_decide (plane r = GUARD_CONTROL)
  && bool_decide (request_installation_id r = hatch_installation_id h)
  && bool_decide (request_executable_digest r = hatch_executable_digest h)
  && py_in (endpoint_digest r) (endpoint_digests h)
  && py_in (route r) (routes h).

(** ** Lemmas *)

Lemma negotiate_sound p q :
  negotiate_capability p q ≠ Grade_UNAVAILABLE →
  production_ready p = true ∧ (∀ c, c ∈ required_capabilities q → c ∈ profile_capabilities p) ∧
  (∀ c, c ∈ grade_required_capabilities (minimum_grade q) → c ∈ profile_capabilities p) ∧
  enforcement_grade_rank (minimum_grade q) <= enforcement_grade_rank (profile_maximum_grade p) ∧
  negotiate_capability p q = profile_maximum_grade p.
Proof.
  unfold negotiate_capability.
  destruct (production_ready p); [|done]. cbn [negb orb].
  destruct (py_subset (required_capabilities q) _) eqn:E1; [|done].
  destruct (py_subset (grade_required_capabilities _) _) eqn:E2; [|done]. cbn [negb].
  destruct (Z.ltb_spec (enforcement_grade_rank (profile_maximum_grade p))
    (enforcement_grade_rank (minimum_grade q))); [done|]. intros _.
  rewrite py_subset_true in E1, E2. done.
Qed.

(** Every entry of a registry is filed under its own identifier. *)
Definition filed (r : registry) : Prop :=
  NoDup (dict_keys r) ∧ Forall (λ e, e.1 = profile_backend_id e.2) r.

Lemma register_Ok r p r' :
  register r p = Ok r' → r' = dict_set (profile_backend_id p) p r.
Proof. unfold register. intros E. apply bind_Ok in E as ([] & _ & E). by injection E as <-. Qed.

Lemma filed_set r p : filed r → filed (dict_set (profile_backend_id p) p r).
Proof.
  intros [Hnd Hf]. split; [by apply NoDup_dict_set|]. rewrite Forall_forall in *.
  intros e [->|He]%dict_set_elem; [done | by apply Hf].
Qed.

Lemma register_all_filed r ps r' : filed r → register_all r ps = Ok r' → filed r'.
Proof.
  revert r. induction ps as [|p ps IH]; cbn [register_all]; intros r Hr E.
  - by injection E as <-.
  - apply bind_Ok in E as (r1 & E1 & E). apply register_Ok in E1 as ->.
    by apply (IH _ (filed_set r p Hr)).
Qed.

Lemma new_registry_filed ps r : new_registry ps = Ok r → filed r.
Proof. apply register_all_filed. by split; constructor. Qed.

(** Membership in a registry is lookup by identifier. *)
Lemma filed_values r p : filed r → p ∈ r.*2 ↔ dict_lookup (profile_backend_id p) r = Some p.
Proof.
  intros [Hnd Hf]. rewrite Forall_forall in Hf. split.
  - intros ([k q] & -> & Hin)%list_elem_of_fmap. pose proof (Hf _ Hin) as Hk. simpl in *. subst.
    by apply dict_lookup_NoDup.
  - intros Hp%dict_lookup_elem. apply list_elem_of_fmap. by exists (profile_backend_id p, p).
Qed.

Lemma elem_of_profiles r f p : p ∈ profiles r f ↔ on_platform f p = true ∧ p ∈ r.*2.
Proof. unfold profiles. by rewrite elem_of_sort_on, list_elem_of_filter. Qed.

Lemma elem_of_selections r f q s :
  s ∈ selections r f q ↔
  platform (profile s) = f ∧ profile s ∈ r.*2 ∧
  achieved_grade s = negotiate_capability (profile s) q ∧ achieved_grade s ≠ Grade_UNAVAILABLE.
Proof.
  unfold selections. rewrite list_elem_of_omap. split.
  - intros (p & (Hp & Hin)%elem_of_profiles & E). cbv zeta in E. apply bool_decide_eq_true in Hp.
    case_decide; [done|]. by injection E as <-.
  - intros (Hp & Hin & Hg & Hne). exists (profile s). rewrite elem_of_profiles.
    split; [split; [by apply bool_decide_eq_true | done]|]. cbv zeta. rewrite <- Hg, decide_False by done.
    by destruct s.
Qed.

Lemma min_on_spec {A K} `{PyOrdLaws K} (key : A → K) x l :
  min_on key x l ∈ x :: l ∧ ∀ y, y ∈ x :: l → py_leb (key (min_on key x l)) (key y) = true.
Proof.
  unfold min_on. revert x. induction l as [|z l IH]; intros x; cbn [foldl].
  - split; [left|]. intros y ->%list_elem_of_singleton. apply py_leb_refl.
  - set (b := if py_ltb (key z) (key x) then z else x). destruct (IH b) as [Hin Hle].
    assert (py_leb (key b) (key x) = true ∧ py_leb (key b) (key z) = true) as [Hbx Hbz].
    { unfold b. rewrite py_ltb_leb. destruct (py_leb (key x) (key z)) eqn:E; cbn [negb].
      - split; [apply py_leb_refl | done].
      - split; [by apply py_leb_total | apply py_leb_refl]. }
    assert (py_leb (key (foldl (λ best y, if py_ltb (key y) (key best) then y else best) b l)) (key b) = true)
      as Hb by (apply Hle; left).
    split.
    + apply elem_of_cons in Hin as [->|Hin]; [|right; by right].
      unfold b. case_match; [right; left | left].
    + intros y [->|[->|Hy]%elem_of_cons]%elem_of_cons.
      * by apply (py_leb_trans _ (key b)).
      * by apply (py_leb_trans _ (key b)).
      * apply Hle. by right.
Qed.

(** The selection is a best candidate, and there is one as soon as there is a
    candidate. *)
Lemma select_spec r f q :
  match select r f q with
  | Some s => s ∈ selections r f q ∧
      ∀ t, t ∈ selections r f q → py_leb (selection_key s) (selection_key t) = true
  | None => ∀ t, t ∉ selections r f q
  end.
Proof.
  unfold select. destruct (selections r f q) as [|s l]; [apply not_elem_of_nil|].
  apply min_on_spec.
Qed.

Lemma selection_key_le s t :
  py_leb (selection_key s) (selection_key t) = true →
  enforcement_grade_rank (achieved_grade t) <= enforcement_grade_rank (achieved_grade s) ∧
  (enforcement_grade_rank (achieved_grade t) = enforcement_grade_rank (achieved_grade s) →
   py_leb (profile_backend_id (profile s)) (profile_backend_id (profile t)) = true).
Proof.
  unfold selection_key, py_leb. rewrite prod_py_cmp. unfold py_cmp at 1, Z_py_ord.
  destruct (Z.compare_spec (- enforcement_grade_rank (achieved_grade s))
    (- enforcement_grade_rank (achieved_grade t))); intros Hle; split; try done; lia.
Qed.

Lemma register_all_values r ps r' p :
  register_all r ps = Ok r' → p ∈ r'.*2 → p ∈ r.*2 ∨ p ∈ ps.
Proof.
  revert r. induction ps as [|x ps IH]; cbn [register_all]; intros r E Hp.
  - injection E as <-. by left.
  - apply bind_Ok in E as (r1 & E1 & E). apply register_Ok in E1 as ->.
    destruct (IH _ E Hp) as [([k y] & -> & Hin)%list_elem_of_fmap|Hin]; [|right; by right].
    apply dict_set_elem in Hin as [[= -> ->]|Hin]; [right; left|].
    left. apply list_elem_of_fmap. by exists (k, y).
Qed.

(** Profiles with distinct identifiers all register, in order. *)
Lemma register_all_distinct r ps :
  filed r → NoDup (r.*1 ++ (profile_backend_id <$> ps)) →
  register_all r ps = Ok (r ++ ((λ p, (profile_backend_id p, p)) <$> ps)).
Proof.
  revert r. induction ps as [|p ps IH]; intros r Hr Hnd; cbn [register_all fmap list_fmap].
  - by rewrite app_nil_r.
  - assert (profile_backend_id p ∉ dict_keys r) as Hp.
    { apply NoDup_app in Hnd as (_ & Hd & _). intros Hin. apply (Hd _ Hin). left. }
    unfold register. rewrite (proj2 (dict_lookup_None _ _) Hp). unfold mbind, result_bind. cbn [raise_if].
    assert (dict_set (profile_backend_id p) p r = r ++ [(profile_backend_id p, p)]) as Hset.
    { clear -Hp. induction r as [|[k v] r IHr]; [done|]. cbn in *.
      apply not_elem_of_cons in Hp as [Hne Hp]. rewrite decide_False by congruence.
      by rewrite IHr. }
    rewrite Hset, IH.
    + by rewrite <- app_assoc.
    + rewrite <- Hset. by apply filed_set.
    + rewrite fmap_app, <- app_assoc. done.
Qed.

Lemma new_registry_distinct ps :
  NoDup (profile_backend_id <$> ps) →
  new_registry ps = Ok ((λ p, (profile_backend_id p, p)) <$> ps).
Proof. intros Hnd. unfold new_registry. rewrite register_all_distinct; [done| |done]. by split; constructor. Qed.

(** ** Properties *)

(** [NetworkBackendRegistry.select] returns the best registered backend:
    it selects one exactly when some registered profile of the platform
    negotiates a grade; the selected profile was registered, is production
    ready, has every required capability and reaches the minimum grade, and
    every other candidate has a lower grade or, on a tie, a later identifier. *)
Theorem select_best (ps : list PlatformCapabilityProfile) (r : registry) (f : PlatformFamily)
    (q : CapabilityRequirement) (Hr : new_registry ps = Ok r) :
  match select r f q with
  | Some s =>
      profile s ∈ ps ∧ platform (profile s) = f ∧ production_ready (profile s) = true ∧
      achieved_grade s = profile_maximum_grade (profile s) ∧
      (∀ c, c ∈ required_capabilities q → c ∈ profile_capabilities (profile s)) ∧
      enforcement_grade_rank (minimum_grade q) <= enforcement_grade_rank (achieved_grade s) ∧
      ∀ p, dict_lookup (profile_backend_id p) r = Some p → platform p = f →
        negotiate_capability p q ≠ Grade_UNAVAILABLE →
        enforcement_grade_rank (negotiate_capability p q) < enforcement_grade_rank (achieved_grade s) ∨
        enforcement_grade_rank (negotiate_capability p q) = enforcement_grade_rank (achieved_grade s) ∧
        py_leb (profile_backend_id (profile s)) (profile_backend_id p) = true
  | None =>
      ∀ p, dict_lookup (profile_backend_id p) r = Some p → platform p = f →
        negotiate_capability p q = Grade_UNAVAILABLE
  end.
Proof.
  pose proof (new_registry_filed _ _ Hr) as Hf. pose proof (select_spec r f q) as Hs.
  destruct (select r f q) as [s|].
  - destruct Hs as [(Hp & Hv & Hg & Hne)%elem_of_selections Hmin].
    pose proof Hne as Hneg. rewrite Hg in Hneg. apply negotiate_sound in Hneg as (Hr1 & Hc & _ & Hm & Heq).
    rewrite Hg, Heq. destruct (register_all_values _ _ _ _ Hr Hv) as [[]%elem_of_nil|Hin].
    do 6 (split; [done|]). intros p Hl Hpf Hpn.
    destruct (selection_key_le s {| profile := p; achieved_grade := negotiate_capability p q |})
      as [Hle Htie].
    { apply Hmin, elem_of_selections. cbn. split; [done|]. by rewrite filed_values. }
    cbn in Hle, Htie. rewrite Hg, Heq in Hle, Htie.
    destruct (decide (enforcement_grade_rank (negotiate_capability p q) =
      enforcement_grade_rank (profile_maximum_grade (profile s)))); [right; auto | left; lia].
  - intros p Hl Hpf. destruct (decide (negotiate_capability p q = Grade_UNAVAILABLE)); [done|].
    destruct (Hs {| profile := p; achieved_grade := negotiate_capability p q |}).
    apply elem_of_selections. cbn. split; [done|]. by rewrite filed_values.
Qed.

(** selection does not depend on the order of registration: profiles with
    distinct identifiers register without conflict in any order, and every
    order selects the same backend for every platform and requirement. *)
Theorem select_order_independent (ps ps' : list PlatformCapabilityProfile)
    (Hids : NoDup (profile_backend_id <$> ps)) (Hperm : ps ≡ₚ ps') :
  ∃ r r', new_registry ps = Ok r ∧ new_registry ps' = Ok r' ∧
    ∀ f q, select r f q = select r' f q.
Proof.
  assert (NoDup (profile_backend_id <$> ps')) as Hids' by by rewrite <- Hperm.
  exists ((λ p, (profile_backend_id p, p)) <$> ps), ((λ p, (profile_backend_id p, p)) <$> ps').
  rewrite !new_registry_distinct by done. split; [done|]. split; [done|].
  intros f q. unfold select, selections.
  assert (∀ l, ((λ p, (profile_backend_id p, p)) <$> l).*2 = l) as Hv.
  { intros l. induction l; [done|]. cbn. by f_equal. }
  assert (profiles ((λ p, (profile_backend_id p, p)) <$> ps) (Some f) =
    profiles ((λ p, (profile_backend_id p, p)) <$> ps') (Some f)) as ->; [|done].
  unfold profiles. rewrite !Hv. apply sort_on_perm; [|by rewrite Hperm].
  intros x y [_ Hx]%list_elem_of_filter [_ Hy]%list_elem_of_filter.
  by apply (NoDup_fmap_separates profile_backend_id ps).
Qed.

(** an unhealthy backend never permits workload networking: every
    constructible disposition that permits is of an available backend with an
    enforcing grade, and [failure_disposition] yields, for every other state and
    every failure mode, a valid disposition that permits nothing and reports
    deny-all when offline and no enforcement otherwise. *)
Theorem failure_disposition_fails_closed :
  (∀ d, check_FailureDisposition d = Ok tt → permit_workload_network d = true →
    backend_state d = State_AVAILABLE ∧
    enforcement_grade_rank Grade_OBSERVE < enforcement_grade_rank (effective_grade d)) ∧
  (∀ s m, s ≠ State_AVAILABLE → ∃ d, failure_disposition s m = Ok d ∧
    check_FailureDisposition d = Ok tt ∧ permit_workload_network d = false ∧
    recovery d ≠ Recovery_NONE ∧
    effective_grade d = (if decide (m = Failure_OFFLINE) then Grade_DENY_ALL else Grade_UNAVAILABLE)) ∧
  (∀ m, failure_disposition State_AVAILABLE m =
    Raise (ValueError "available backend disposition requires verified runtime grade")).
Proof.
  split; [|split].
  - intros d Hc Hp. unfold check_FailureDisposition in Hc. apply bind_Ok in Hc as ([] & _ & Hc).
    apply bind_Ok in Hc as ([] & H1 & H2). apply raise_if_Ok in H1, H2. rewrite Hp in H1, H2.
    split.
    + rewrite andb_true_r in H1. by apply negb_false_iff, bool_decide_eq_true in H1.
    + destruct (effective_grade d); done.
  - intros s m Hs. destruct s; try done; eexists; (split; [vm_compute; reflexivity|]);
      (split; [vm_compute; reflexivity|]); by destruct m.
  - done.
Qed.

(** the shipped platform profiles are all valid and register without
    conflict, and no requirement on any platform selects one of them: with the
    default profiles nothing is reported as enforced. *)
Theorem default_registry_enforces_nothing :
  Forall (λ p, check_PlatformCapabilityProfile p = Ok tt) default_platform_profiles ∧
  ∃ r, new_registry default_platform_profiles = Ok r ∧ ∀ f q, select r f q = None.
Proof.
  split; [repeat constructor; vm_compute; reflexivity|].
  eexists. split; [vm_compute; reflexivity|]. intros f q.
  match goal with |- select ?r f q = None => set (r0 := r) end.
  pose proof (select_spec r0 f q) as Hs. destruct (select r0 f q) as [s|]; [|done].
  destruct Hs as [(_ & Hv & Hg & Hne)%elem_of_selections _]. rewrite Hg in Hne.
  apply negotiate_sound in Hne as (Hr & _). exfalso. clear -Hv Hr. unfold r0 in Hv. cbn in Hv.
  repeat (apply elem_of_cons in Hv as [Hv|Hv]; [rewrite Hv in Hr; discriminate Hr|]).
  by apply elem_of_nil in Hv.
Qed.

(** *** Witnesses *)

Definition ready (id : string) (g : EnforcementGrade) : PlatformCapabilityProfile :=
  {| platform := LINUX; profile_backend_id := lit id; profile_capabilities := UDP_DNS_CAPABILITIES;
     profile_maximum_grade := g; requires_privilege := true; production_ready := true;
     reason_code := $"validated" |}.
Definition ready_profiles : list PlatformCapabilityProfile :=
  [ready "linux.b" Grade_TCP_IP_DESTINATION_ENFORCED; ready "linux.c" Grade_DENY_ALL;
   ready "linux.a" Grade_TCP_IP_DESTINATION_ENFORCED].
Definition deny_all_requirement : CapabilityRequirement :=
  {| required_capabilities := [Cap_DENY_ALL; Cap_RECEIPTS]; minimum_grade := Grade_DENY_ALL |}.

Lemma select_best_witness :
  ∃ r s, new_registry ready_profiles = Ok r ∧ select r LINUX deny_all_requirement = Some s ∧
    profile s = ready "linux.a" Grade_TCP_IP_DESTINATION_ENFORCED ∧ profile s ∈ ready_profiles.
Proof.
  destruct (new_registry ready_profiles) as [r|] eqn:Hr; [|vm_compute in Hr; discriminate Hr].
  pose proof (select_best ready_profiles r LINUX deny_all_requirement Hr) as Hs.
  destruct (select r LINUX deny_all_requirement) as [s|] eqn:Es;
    [|vm_compute in Hr; injection Hr as <-; vm_compute in Es; discriminate Es].
  exists r, s. split; [reflexivity|]. split; [exact Es|]. split; [|apply Hs].
  vm_compute in Hr. injection Hr as <-. vm_compute in Es. injection Es as <-. reflexivity.
Defined.

Lemma select_order_witness :
  ∃ r r', new_registry ready_profiles = Ok r ∧ new_registry (reverse ready_profiles) = Ok r' ∧
    r ≠ r' ∧ ∀ f q, select r f q = select r' f q.
Proof.
  destruct (select_order_independent ready_profiles (reverse ready_profiles)) as (r & r' & Hr & Hr' & Hs).
  - apply (bool_decide_unpack _). vm_compute. exact I.
  - symmetry. apply reverse_Permutation.
  - exists r, r'. split; [exact Hr|]. split; [exact Hr'|]. split; [|exact Hs].
    vm_compute in Hr, Hr'. injection Hr as <-. injection Hr' as <-. discriminate.
Defined.
