(* ===== verification/NetworkBroker.v ===== *)
(** * Broker contract

    Models [guard/runtime/network_broker_contract.py]: DNS bindings and their
    correlation with connections, backend receipts and the currency of their
    authority, and the broker's budgets. *)

From S2P Require Import Prelude PyStr Sha256 Regex PyVal IpAddress NetworkContract.
Local Open Scope Z_scope.
Local Open Scope py_scope.

Inductive CorrelationStatus :=
  | MATCHED | EXPIRED | BEFORE_RESOLUTION | PROCESS_MISMATCH | ADDRESS_MISMATCH | MISSING.
Global Instance CorrelationStatus_eq_dec : EqDecision CorrelationStatus.
Proof. solve_decision. Defined.

Inductive ReceiptTrust := UNVERIFIED | VERIFIED | REJECTED.
Global Instance ReceiptTrust_eq_dec : EqDecision ReceiptTrust.
Proof. solve_decision. Defined.

(** ** DNS bindings *)

Record DnsResolutionBinding := {
  binding_id : pystr;
  binding_process_tree_digest : pystr;
  query_name : pystr;
  canonical_name : pystr;
  addresses : list pystr;
  binding_observed_at_epoch_ms : Z;
  binding_expires_at_epoch_ms : Z;
  resolver_digest : pystr;
  binding_schema_version : pystr;
}.

Section binding.
Context `{PyUnicode, IdnaCodec}.

Definition check_canonical_host (name : string) (value : pystr) : result unit :=
  c ← canonical_destination HOST value;
  raise_if (negb (bool_decide (value = c)))
    (ValueError (name +:+ " must be a canonical ASCII host")).

(** [DnsResolutionBinding.__post_init__] *)
Definition make_DnsResolutionBinding (b : DnsResolutionBinding) : result DnsResolutionBinding :=
  raise_if (negb (bool_decide (binding_schema_version b = NETWORK_BROKER_SCHEMA_VERSION)))
    (ValueError "unsupported broker schema version") ;;
  require_digest (binding_process_tree_digest b) "process_tree_digest" ;;
  require_digest (resolver_digest b) "resolver_digest" ;;
  require_id (binding_id b) "binding_id" ;;
  check_canonical_host "query_name" (query_name b) ;;
  check_canonical_host "canonical_name" (canonical_name b) ;;
  raise_if (bool_decide (addresses b = [])) (ValueError "addresses cannot be empty") ;;
  texts ← map_result (λ v, a ← py_ip_address v; Ok (compressed a)) (addresses b);
  raise_if (binding_observed_at_epoch_ms b <=? 0)
    (ValueError "observed_at_epoch_ms must be positive") ;;
  raise_if (binding_expires_at_epoch_ms b <=? binding_observed_at_epoch_ms b)
    (ValueError "expires_at_epoch_ms must follow observation") ;;
  Ok {| binding_id := binding_id b;
        binding_process_tree_digest := binding_process_tree_digest b;
        query_name := query_name b; canonical_name := canonical_name b;
        addresses := sorted_set_on (λ s : pystr, s) texts;
        binding_observed_at_epoch_ms := binding_observed_at_epoch_ms b;
        binding_expires_at_epoch_ms := binding_expires_at_epoch_ms b;
        resolver_digest := resolver_digest b;
        binding_schema_version := binding_schema_version b |}.
End binding.

Definition binding_json (b : DnsResolutionBinding) : json :=
  JObj [($"binding_id", JStr (binding_id b));
        ($"process_tree_digest", JStr (binding_process_tree_digest b));
        ($"query_name", JStr (query_name b)); ($"canonical_name", JStr (canonical_name b));
        ($"addresses", JArr (JStr <$> addresses b));
        ($"observed_at_epoch_ms", JInt (binding_observed_at_epoch_ms b));
        ($"expires_at_epoch_ms", JInt (binding_expires_at_epoch_ms b));
        ($"resolver_digest", JStr (resolver_digest b));
        ($"schema_version", JStr (binding_schema_version b))].
Definition binding_digest (b : DnsResolutionBinding) : pystr := canonical_digest (binding_json b).

Record ConnectionObservation := {
  obs_flow_id : pystr;
  obs_process_tree : ProcessTreeIdentity;
  remote_address : pystr;
  remote_port : Z;
  obs_protocol : NetworkProtocol;
  obs_observed_at_epoch_ms : Z;
}.

(** [ConnectionObservation.__post_init__] *)
Definition make_ConnectionObservation (o : ConnectionObservation) : result ConnectionObservation :=
  require_id (obs_flow_id o) "flow_id" ;;
  a ← py_ip_address (remote_address o);
  raise_if (negb (port_in_range (remote_port o))) (ValueError "remote_port must be within 1..65535") ;;
  raise_if (negb (py_in (obs_protocol o) [TCP; UDP]))
    (ValueError "connections support only TCP or UDP") ;;
  raise_if (obs_observed_at_epoch_ms o <=? 0) (ValueError "observed_at_epoch_ms must be positive") ;;
  Ok {| obs_flow_id := obs_flow_id o; obs_process_tree := obs_process_tree o;
        remote_address := compressed a; remote_port := remote_port o;
        obs_protocol := obs_protocol o; obs_observed_at_epoch_ms := obs_observed_at_epoch_ms o |}.

Definition correlate_dns_connection (o : ConnectionObservation) (binding : option DnsResolutionBinding)
    : CorrelationStatus :=
  match binding with
  | None => MISSING
  | Some b =>
      if negb (bool_decide (binding_process_tree_digest b = process_tree_digest (obs_process_tree o)))
      then PROCESS_MISMATCH
      else if obs_observed_at_epoch_ms o <? binding_observed_at_epoch_ms b then BEFORE_RESOLUTION
      else if binding_expires_at_epoch_ms b <=? obs_observed_at_epoch_ms o then EXPIRED
      else if negb (py_in (remote_address o) (addresses b)) then ADDRESS_MISMATCH
      else MATCHED
  end.

(** ** Receipts *)

Record BackendReceipt := {
  receipt_id : pystr;
  receipt_backend_id : pystr;
  receipt_backend_digest : pystr;
  receipt_process_tree_digest : pystr;
  receipt_policy_digest : pystr;
  receipt_generation : Z;
  flow_digest : pystr;
  receipt_action : NetworkAction;
  achieved_grade : EnforcementGrade;
  receipt_capabilities : list BackendCapability;
  applied_at_epoch_ms : Z;
  valid_until_epoch_ms : Z;
  signature_key_id : pystr;
  signature : pystr;
  receipt_schema_version : pystr;
}.

(** [BackendReceipt.__post_init__] *)
Definition check_BackendReceipt (r : BackendReceipt) : result unit :=
  raise_if (negb (bool_decide (receipt_schema_version r = NETWORK_BACKEND_SCHEMA_VERSION)))
    (ValueError "unsupported backend schema version") ;;
  require_id (receipt_id r) "receipt_id" ;;
  require_id (receipt_backend_id r) "backend_id" ;;
  require_id (signature_key_id r) "signature_key_id" ;;
  require_digest (receipt_backend_digest r) "backend_digest" ;;
  require_digest (receipt_process_tree_digest r) "process_tree_digest" ;;
  require_digest (receipt_policy_digest r) "policy_digest" ;;
  require_digest (flow_digest r) "flow_digest" ;;
  raise_if (receipt_generation r <? 1) (ValueError "generation must be positive") ;;
  raise_if (negb (py_in Cap_RECEIPTS (receipt_capabilities r)))
    (ValueError "receipt capability must be asserted") ;;
  raise_if (negb (py_subset (grade_required_capabilities (achieved_grade r))
                            (receipt_capabilities r)))
    (ValueError "achieved_grade exceeds receipt capabilities") ;;
  raise_if (applied_at_epoch_ms r <=? 0) (ValueError "applied_at_epoch_ms must be positive") ;;
  raise_if (valid_until_epoch_ms r <=? applied_at_epoch_ms r)
    (ValueError "valid_until_epoch_ms must follow apply time") ;;
  raise_if (bool_decide (signature r = []) || (4096 <? length (signature r))%nat)
    (ValueError "signature must be present and bounded").

(** Every field but the signature. *)
Definition receipt_payload (r : BackendReceipt) : list (pystr * json) :=
  [($"receipt_id", JStr (receipt_id r)); ($"backend_id", JStr (receipt_backend_id r));
   ($"backend_digest", JStr (receipt_backend_digest r));
   ($"process_tree_digest", JStr (receipt_process_tree_digest r));
   ($"policy_digest", JStr (receipt_policy_digest r));
   ($"generation", JInt (receipt_generation r)); ($"flow_digest", JStr (flow_digest r));
   ($"action", JStr (NetworkAction_value (receipt_action r)));
   ($"achieved_grade", JStr (EnforcementGrade_value (achieved_grade r)));
   ($"capabilities", json_of_set ((λ c, JStr (enum_value c)) <$> remove_dups (receipt_capabilities r)));
   ($"applied_at_epoch_ms", JInt (applied_at_epoch_ms r));
   ($"valid_until_epoch_ms", JInt (valid_until_epoch_ms r));
   ($"signature_key_id", JStr (signature_key_id r));
   ($"schema_version", JStr (receipt_schema_version r))].
Definition signed_payload_digest (r : BackendReceipt) : pystr :=
  canonical_digest (JObj (receipt_payload r)).
Definition receipt_json (r : BackendReceipt) : json :=
  JObj (receipt_payload r ++ [($"signature", JStr (signature r))]).

Record ReceiptVerification := {
  receipt_digest : pystr;
  verifier_id : pystr;
  trust : ReceiptTrust;
  verified_at_epoch_ms : Z;
  verification_reason_code : pystr;
}.

(** [ReceiptVerification.__post_init__] *)
Definition check_ReceiptVerification (v : ReceiptVerification) : result unit :=
  require_digest (receipt_digest v) "receipt_digest" ;;
  require_id (verifier_id v) "verifier_id" ;;
  raise_if (verified_at_epoch_ms v <=? 0) (ValueError "verified_at_epoch_ms must be positive") ;;
  require_id (verification_reason_code v) "reason_code".

Definition receipt_authority_current (r : BackendReceipt) (verification : option ReceiptVerification)
    (now_epoch_ms : Z) : bool :=
  match verification with
  | None => false
  | Some v =>
      negb (now_epoch_ms <=? 0)
      && bool_decide (trust v = VERIFIED)
      && bool_decide (receipt_digest v = canonical_digest (receipt_json r))
      && ((applied_at_epoch_ms r <=? verified_at_epoch_ms v) && (verified_at_epoch_ms v <=? now_epoch_ms))
      && (now_epoch_ms <? valid_until_epoch_ms r)
  end.

(** ** Budgets *)

Record BrokerPerformanceBudget := {
  decision_p95_ms : Z;
  decision_p99_ms : Z;
  approval_dedup_window_ms : Z;
  maximum_pending_flows : Z;
  maximum_evidence_bytes : Z;
  maximum_prompts_per_logical_flow : Z;
  primary_view_usable_ms : Z;
}.

Definition default_budget : BrokerPerformanceBudget :=
  {| decision_p95_ms := 20; decision_p99_ms := 50; approval_dedup_window_ms := 2000;
     maximum_pending_flows := 1024; maximum_evidence_bytes := 16384;
     maximum_prompts_per_logical_flow := 1; primary_view_usable_ms := 1000 |}.

(** [BrokerPerformanceBudget.__post_init__] *)
Definition check_BrokerPerformanceBudget (b : BrokerPerformanceBudget) : result unit :=
  raise_if (existsb (λ v, v <=? 0)
      [decision_p95_ms b; decision_p99_ms b; approval_dedup_window_ms b; maximum_pending_flows b;
       maximum_evidence_bytes b; maximum_prompts_per_logical_flow b; primary_view_usable_ms b])
    (ValueError "performance budgets must be positive integers") ;;
  raise_if (decision_p99_ms b <? decision_p95_ms b) (ValueError "p95 cannot exceed p99") ;;
  raise_if (negb (maximum_prompts_per_logical_flow b =? 1))
    (ValueError "one logical flow permits at most one prompt") ;;
  raise_if (1000 <? primary_view_usable_ms b)
    (ValueError "primary view budget cannot exceed one second").

Example default_budget_ok : check_BrokerPerformanceBudget default_budget = Ok tt.
Proof. reflexivity. Qed.

(** ** Lemmas *)

Lemma correlate_matched o b :
  correlate_dns_connection o (Some b) = MATCHED ↔
  binding_process_tree_digest b = process_tree_digest (obs_process_tree o) ∧
  binding_observed_at_epoch_ms b <= obs_observed_at_epoch_ms o < binding_expires_at_epoch_ms b ∧
  remote_address o ∈ addresses b.
Proof.
  unfold correlate_dns_connection.
  destruct (bool_decide_reflect (binding_process_tree_digest b = process_tree_digest (obs_process_tree o)));
    simpl; [|naive_solver].
  destruct (Z.ltb_spec (obs_observed_at_epoch_ms o) (binding_observed_at_epoch_ms b));
    [naive_solver lia|].
  destruct (Z.leb_spec (binding_expires_at_epoch_ms b) (obs_observed_at_epoch_ms o));
    [naive_solver lia|].
  destruct (py_in (remote_address o) (addresses b)) eqn:E; simpl.
  - apply py_in_true in E. naive_solver lia.
  - apply py_in_false in E. naive_solver.
Qed.

(** a receipt carries authority exactly while an external verification of
    this very receipt is in force: it was verified, the verification names the
    receipt's digest, happened between its application and now, and the receipt
    has not run out; an unverified or rejected receipt, a missing verification
    or a non-positive clock never give authority, and once the receipt has run
    out it never regains it. *)
Theorem receipt_authority_window (r : BackendReceipt) (v : option ReceiptVerification) (now : Z) :
  (receipt_authority_current r v now = true ↔
     ∃ w, v = Some w ∧ 0 < now ∧ trust w = VERIFIED ∧
       receipt_digest w = canonical_digest (receipt_json r) ∧
       applied_at_epoch_ms r <= verified_at_epoch_ms w <= now ∧ now < valid_until_epoch_ms r) ∧
  (∀ later, now <= later → valid_until_epoch_ms r <= now → receipt_authority_current r v later = false).
Proof.
  assert (∀ now, receipt_authority_current r v now = true ↔
     ∃ w, v = Some w ∧ 0 < now ∧ trust w = VERIFIED ∧
       receipt_digest w = canonical_digest (receipt_json r) ∧
       applied_at_epoch_ms r <= verified_at_epoch_ms w <= now ∧ now < valid_until_epoch_ms r) as Hiff.
  { clear now. intros now. unfold receipt_authority_current. destruct v as [w|].
    - rewrite !andb_true_iff, negb_true_iff, !bool_decide_eq_true, !Z.leb_le, Z.leb_gt, Z.ltb_lt.
      split; [intros; exists w; naive_solver|]. intros (? & [= <-] & ?). naive_solver.
    - split; [done|]. by intros (? & ? & _). }
  split; [apply Hiff|]. intros later Hl Hv. apply not_true_is_false. rewrite Hiff.
  intros (w & _ & _ & _ & _ & _ & ?). lia.
Qed.
