(* ===== verification/NetworkEvaluator.v ===== *)
(** * Policy evaluation

    Models [guard/runtime/network_policy_evaluator.py] and
    [network_legacy_config.py]: which rules match a flow, the verified DNS
    binding a host flow needs, and [evaluate_policy], in which the most
    restrictive matching action wins and nothing matching means deny. *)

From S2P Require Import Prelude PyStr Sha256 Regex PyVal ActionLattice.
From S2P Require Import IpAddress NetworkContract NetworkBroker.
Local Open Scope Z_scope.
Local Open Scope py_scope.

Definition ACTION_ORDER (a : NetworkAction) : Z :=
  match a with DENY => 0 | APPROVE => 1 | ALLOW => 2 end.

Definition action_is_no_less_restrictive (candidate baseline : NetworkAction) : bool :=
  ACTION_ORDER candidate <=? ACTION_ORDER baseline.

Record PolicyEvaluation := {
  decision : NetworkDecision;
  matched_rule_ids : list pystr;
}.

Definition protocol_requires_dns_binding (p : NetworkProtocol) (d : Destination) : bool :=
  bool_decide (dest_kind d = HOST) && py_in p [TCP; UDP].

(** [_scope_matches] *)
Definition scope_matches (s : ProcessScope) (p : ProcessTreeIdentity) : bool :=
  match scope_kind s with
  | INSTALLATION => bool_decide (scope_value s = installation_id p)
  | SESSION => bool_decide (scope_value s = session_id p)
  end.

(** [any(f(x) for x in xs)], stopping at the first true or exception. *)
Fixpoint any_result {A} (f : A → result bool) (xs : list A) : result bool :=
  match xs with
  | [] => Ok false
  | x :: xs => b ← f x; if b : bool then Ok true else any_result f xs
  end.

(** [_destination_matches] *)
Definition destination_matches (rule requested : Destination) : result bool :=
  if bool_decide (rule = requested) then Ok true
  else
  match dest_kind rule, dest_kind requested with
  | CIDR, IP =>
      a ← py_ip_address (dest_value requested);
      n ← py_ip_network (dest_value rule);
      Ok (in_network a n)
  | PRIVATE_CLASS, IP =>
      c ← classify_private_address (dest_value requested);
      match enum_of_value (A:=PrivateNetworkClass) (dest_value rule) with
      | Some k => Ok (bool_decide (c = Some k))
      | None => Raise (ValueError "not a valid PrivateNetworkClass")
      end
  | _, _ => Ok false
  end.

Section evaluator.
Context `{PyUnicode, IdnaCodec}.

Definition requested_destinations (r : NetworkFlowRequest) : result (list Destination) :=
  match dest_kind (destination r), connected_address r with
  | HOST, Some address =>
      d ← make_Destination IP address;
      Ok [destination r; d]
  | _, _ => Ok [destination r]
  end.

Definition rule_expired (rule : NetworkRule) (now : Z) : bool :=
  match expires_at_epoch_seconds rule with Some e => e * 1000 <=? now | None => false end.

(** [_rule_matches] *)
Definition rule_matches (rule : NetworkRule) (r : NetworkFlowRequest) (now : Z) : result bool :=
  if rule_expired rule now then Ok false
  else if negb (py_in (protocol r) (protocols rule)) then Ok false
  else if negb (bool_decide (ports rule = []))
          && negb (existsb (λ p, (port_start p <=? port r) && (port r <=? port_end p)) (ports rule))
       then Ok false
  else if negb (bool_decide (process_scopes rule = []))
          && negb (existsb (λ s, scope_matches s (process_tree r)) (process_scopes rule))
       then Ok false
  else
  ds ← requested_destinations r;
  any_result (λ d, any_result (destination_matches d) ds) (destinations rule).

(** [tuple(rule for rule in rules if _rule_matches(rule, ...))] *)
Fixpoint matching_rules (rules : list NetworkRule) (r : NetworkFlowRequest) (now : Z)
    : result (list NetworkRule) :=
  match rules with
  | [] => Ok []
  | rule :: rules =>
      b ← rule_matches rule r now;
      rest ← matching_rules rules r now;
      Ok (if b : bool then rule :: rest else rest)
  end.

(** The tests one binding must pass for the request. *)
Definition binding_candidate (r : NetworkFlowRequest) (address digest : pystr) (now : Z)
    (b : DnsResolutionBinding) : bool :=
  py_in (dest_value (destination r)) [query_name b; canonical_name b]
  && py_in address (addresses b)
  && bool_decide (binding_digest b = digest)
  && negb (binding_expires_at_epoch_ms b <=? now).

Fixpoint find_binding (r : NetworkFlowRequest) (address digest : pystr) (now : Z)
    (bindings : list DnsResolutionBinding) : result (option DnsResolutionBinding) :=
  match bindings with
  | [] => Ok None
  | b :: bindings =>
      if negb (binding_candidate r address digest now b) then find_binding r address digest now bindings
      else
      o ← make_ConnectionObservation
            {| obs_flow_id := request_id r; obs_process_tree := process_tree r;
               remote_address := address; remote_port := port r; obs_protocol := protocol r;
               obs_observed_at_epoch_ms := observed_at_epoch_ms r |};
      if bool_decide (correlate_dns_connection o (Some b) = MATCHED) then Ok (Some b)
      else find_binding r address digest now bindings
  end.

(** [_verified_dns_binding] *)
Definition verified_dns_binding (r : NetworkFlowRequest) (bindings : list DnsResolutionBinding)
    (now : Z) : result (option DnsResolutionBinding) :=
  if negb (protocol_requires_dns_binding (protocol r) (destination r)) then Ok None
  else
  match dns_binding_digest r, connected_address r with
  | Some digest, Some address => find_binding r address digest now bindings
  | _, _ => Ok None
  end.

(** [min(actions, key=_ACTION_ORDER.__getitem__)] of a non-empty list *)
Definition stricter (a b : NetworkAction) : NetworkAction :=
  if ACTION_ORDER b <? ACTION_ORDER a then b else a.
Definition min_action (a : NetworkAction) (l : list NetworkAction) : NetworkAction :=
  foldl stricter a l.

Definition decide_flow (matches : list NetworkRule) (r : NetworkFlowRequest)
    (binding : option DnsResolutionBinding) : NetworkAction * list pystr :=
  if bool_decide (protocol r = Protocol_UNKNOWN) then (DENY, [$"builtin.unsupported-protocol"])
  else if protocol_requires_dns_binding (protocol r) (destination r)
          && bool_decide (binding = None) then (DENY, [$"builtin.dns-binding-required"])
  else
  match matches with
  | [] => (DENY, [$"builtin.default-deny"])
  | rule :: rest =>
      let a := min_action (rule_action rule) (rule_action <$> rest) in
      (a, rule_id <$> filter (λ x, rule_action x = a) matches)
  end.

Definition rule_expiries (a : NetworkAction) (matches : list NetworkRule) : list Z :=
  omap (λ x, (λ e, e * 1000) <$> expires_at_epoch_seconds x)
    (filter (λ x, rule_action x = a) matches).

Definition expiry_candidates (a : NetworkAction) (matches : list NetworkRule)
    (binding : option DnsResolutionBinding) : list Z :=
  if py_in a [ALLOW; APPROVE] then
    rule_expiries a matches
    ++ match binding with Some b => [binding_expires_at_epoch_ms b] | None => [] end
  else [].

Definition evaluate_policy (policy : NetworkPolicy) (r : NetworkFlowRequest) (now ttl : Z)
    (bindings : list DnsResolutionBinding) : result PolicyEvaluation :=
  raise_if (now <=? 0) (ValueError "now_epoch_ms must be positive") ;;
  raise_if (negb ((1 <=? ttl) && (ttl <=? 300000)))
    (ValueError "decision_ttl_ms must be within 1..300000") ;;
  matches ← matching_rules (rules policy) r now;
  binding ← verified_dns_binding r bindings now;
  let '(a, ids) := decide_flow matches r binding in
  d ← make_NetworkDecision
        {| request_digest := canonical_digest (request_json r);
           policy_digest := policy_digest_of policy;
           decision_generation := generation policy;
           action := a;
           rule_ids := ids;
           expires_at_epoch_ms := foldl Z.min (now + ttl) (expiry_candidates a matches binding) |};
  Ok {| decision := d; matched_rule_ids := rule_id <$> matches |}.
End evaluator.

(** ** Legacy configuration *)

Record MigratedNetworkDomainAction := {
  migrated_action : NetworkAction;
  sandbox_required : bool;
}.

Definition migrate_new_network_domain_action (a : ActionLattice.GuardAction)
    : MigratedNetworkDomainAction :=
  match a with
  | ActionLattice.allow => {| migrated_action := ALLOW; sandbox_required := false |}
  | ActionLattice.block => {| migrated_action := DENY; sandbox_required := false |}
  | ActionLattice.sandbox_required => {| migrated_action := DENY; sandbox_required := true |}
  | _ => {| migrated_action := APPROVE; sandbox_required := false |}
  end.

(** ** Lemmas *)

Lemma min_action_spec a l :
  min_action a l ∈ a :: l ∧ ∀ x, x ∈ a :: l → ACTION_ORDER (min_action a l) <= ACTION_ORDER x.
Proof.
  unfold min_action. revert a. induction l as [|b l IH]; intros a; simpl.
  - split; [left|]. by intros x ->%list_elem_of_singleton.
  - destruct (IH (stricter a b)) as [Hin Hle].
    assert (stricter a b = a ∨ stricter a b = b) as Hs by (unfold stricter; case_match; auto).
    assert (ACTION_ORDER (stricter a b) <= ACTION_ORDER a ∧
            ACTION_ORDER (stricter a b) <= ACTION_ORDER b) as [Hsa Hsb].
    { unfold stricter. destruct (Z.ltb_spec (ACTION_ORDER b) (ACTION_ORDER a)); lia. }
    pose proof (Hle (stricter a b) (list_elem_of_here _ _)).
    split.
    + apply elem_of_cons in Hin as [->|Hin]; [|by right; right].
      destruct Hs as [->| ->]; [left | right; left].
    + intros x [->|[->|Hx]%elem_of_cons]%elem_of_cons; [lia|lia|]. apply Hle. by right.
Qed.

Lemma foldl_min_spec l a :
  foldl Z.min a l <= a ∧ (∀ x, x ∈ l → foldl Z.min a l <= x) ∧
  (∀ n, n < a → (∀ x, x ∈ l → n < x) → n < foldl Z.min a l).
Proof.
  revert a. induction l as [|b l IH]; intros a; simpl.
  - split; [lia|]. split; [by intros x ?%elem_of_nil | auto].
  - destruct (IH (Z.min a b)) as (H1 & H2 & H3). split; [lia|]. split.
    + intros x [->|Hx]%elem_of_cons; [lia | auto].
    + intros n Hn Hall. apply H3; [|intros; apply Hall; by right].
      specialize (Hall b (list_elem_of_here _ _)). lia.
Qed.

Section evaluator_lemmas.
Context `{PyUnicode, IdnaCodec}.

Lemma matching_rules_Ok rs r now ms :
  matching_rules rs r now = Ok ms →
  (∀ x, x ∈ ms ↔ x ∈ rs ∧ rule_matches x r now = Ok true) ∧
  (∀ x, x ∈ rs → ∃ b, rule_matches x r now = Ok b).
Proof.
  revert ms. induction rs as [|rule rs IH]; simpl; intros ms Hm.
  - injection Hm as <-. split; [set_solver | by intros x ?%elem_of_nil].
  - apply bind_Ok in Hm as (b & Hb & Hm). apply bind_Ok in Hm as (rest & Hr & Hm).
    injection Hm as <-. destruct (IH rest Hr) as [Hin Hall]. split.
    + intros x. rewrite elem_of_cons. destruct b; rewrite ?elem_of_cons, Hin; [naive_solver|].
      split; [naive_solver|]. intros [[->|?] ?]; [congruence | done].
    + intros x [->|Hx]%elem_of_cons; eauto.
Qed.

Lemma rule_matches_unexpired x r now e :
  rule_matches x r now = Ok true → expires_at_epoch_seconds x = Some e → now < e * 1000.
Proof.
  unfold rule_matches, rule_expired. intros Hm He. rewrite He in Hm.
  destruct (Z.leb_spec (e * 1000) now); [done | lia].
Qed.

(** A binding that proves who resolved the name of a host flow. *)
Definition binding_proves (r : NetworkFlowRequest) (now : Z) (b : DnsResolutionBinding) : Prop :=
  (dest_value (destination r) = query_name b ∨ dest_value (destination r) = canonical_name b) ∧
  dns_binding_digest r = Some (binding_digest b) ∧
  (∃ address, connected_address r = Some address ∧ address ∈ addresses b) ∧
  binding_process_tree_digest b = process_tree_digest (process_tree r) ∧
  binding_observed_at_epoch_ms b <= observed_at_epoch_ms r < binding_expires_at_epoch_ms b ∧
  now < binding_expires_at_epoch_ms b.

Lemma find_binding_Some r address digest now bs b :
  connected_address r = Some address → dns_binding_digest r = Some digest →
  find_binding r address digest now bs = Ok (Some b) → b ∈ bs ∧ binding_proves r now b.
Proof.
  intros Ha Hd. induction bs as [|x bs IH]; simpl; [done|].
  destruct (binding_candidate r address digest now x) eqn:Hc; simpl.
  2: { intros Hf. destruct (IH Hf). split; [by right | done]. }
  intros Hf. apply bind_Ok in Hf as (o & Ho & Hf).
  case_bool_decide as Hm; [|destruct (IH Hf); split; [by right | done]].
  injection Hf as ->. split; [left|]. apply correlate_matched in Hm as (Hp & Ht & _).
  unfold make_ConnectionObservation in Ho. inv_ok.
  unfold binding_candidate in Hc. split_bool.
  repeat match goal with H : py_in _ _ = true |- _ => apply py_in_true in H end.
  match goal with H : bool_decide _ = true |- _ => apply bool_decide_eq_true in H; subst digest end.
  match goal with H : (_ <=? now) = false |- _ => apply Z.leb_gt in H end.
  unfold binding_proves. simpl in *. rewrite Ha, Hd.
  split; [set_solver|]. split; [done|]. split; [eauto|]. split; [done|]. split; [done | lia].
Qed.

Lemma verified_binding_Some r bs now b :
  verified_dns_binding r bs now = Ok (Some b) → b ∈ bs ∧ binding_proves r now b.
Proof.
  unfold verified_dns_binding. case_match; [done|].
  destruct (dns_binding_digest r) eqn:Hd; [|done]. destruct (connected_address r) eqn:Ha; [|done].
  by apply find_binding_Some.
Qed.

(** What a successful evaluation computed. *)
Lemma evaluate_policy_Ok policy r now ttl bs ev :
  evaluate_policy policy r now ttl bs = Ok ev →
  ∃ ms binding, matching_rules (rules policy) r now = Ok ms ∧
    verified_dns_binding r bs now = Ok binding ∧
    action (decision ev) = (decide_flow ms r binding).1 ∧
    expires_at_epoch_ms (decision ev) =
      foldl Z.min (now + ttl) (expiry_candidates (action (decision ev)) ms binding) ∧
    (∀ x, x ∈ rule_ids (decision ev) ↔ x ∈ (decide_flow ms r binding).2) ∧ 1 <= ttl ∧ 0 < now.
Proof.
  unfold evaluate_policy. intros E. apply bind_Ok in E as ([] & Hn & E).
  apply bind_Ok in E as ([] & Ht & E). apply raise_if_Ok in Hn, Ht.
  apply Z.leb_gt in Hn. apply negb_false_iff in Ht. split_bool.
  apply bind_Ok in E as (ms & Hms & E). apply bind_Ok in E as (b & Hb & E).
  destruct (decide_flow ms r b) as [a ids] eqn:Hd. apply bind_Ok in E as (d & Hmk & E).
  injection E as <-. unfold make_NetworkDecision in Hmk. cbn [decision].
  repeat (apply bind_Ok in Hmk as ([] & _ & Hmk)). injection Hmk as <-. simpl.
  exists ms, b. rewrite Hd. simpl. do 4 (split; [done|]).
  split; [intros x; apply elem_of_sorted_set_on | lia].
Qed.

Lemma decide_flow_permits ms r binding :
  (decide_flow ms r binding).1 ≠ DENY →
  protocol r ≠ Protocol_UNKNOWN ∧
  (protocol_requires_dns_binding (protocol r) (destination r) = true → binding ≠ None) ∧
  (∃ x, x ∈ ms ∧ rule_action x = (decide_flow ms r binding).1) ∧
  (∀ x, x ∈ ms → ACTION_ORDER (decide_flow ms r binding).1 <= ACTION_ORDER (rule_action x)).
Proof.
  unfold decide_flow. case_bool_decide as Hp; [done|].
  destruct (protocol_requires_dns_binding _ _); simpl.
  - case_bool_decide as Hb; [done|]. destruct ms as [|x ms]; [done|]. intros _.
    split; [done|]. split; [done|]. simpl.
    destruct (min_action_spec (rule_action x) (rule_action <$> ms)) as [Hin Hle].
    rewrite <- fmap_cons in Hin, Hle. split.
    + apply list_elem_of_fmap in Hin as (y & ? & ?). by exists y.
    + intros y Hy. apply Hle, list_elem_of_fmap. by exists y.
  - destruct ms as [|x ms]; [done|]. intros _.
    split; [done|]. split; [done|]. simpl.
    destruct (min_action_spec (rule_action x) (rule_action <$> ms)) as [Hin Hle].
    rewrite <- fmap_cons in Hin, Hle. split.
    + apply list_elem_of_fmap in Hin as (y & ? & ?). by exists y.
    + intros y Hy. apply Hle, list_elem_of_fmap. by exists y.
Qed.
End evaluator_lemmas.

(** C7: a flow is permitted (allowed, or sent to approval) only on explicit
    authority: its protocol is known, some unexpired rule of the policy matches
    it with exactly that action, no matching rule is more restrictive, a TCP or
    UDP flow to a host carries a current DNS binding made by the same process
    tree for the address it connects to, and the decision lapses within the
    requested time and no later than the binding and every rule it rests on. *)
Theorem permitted_flow_sound `{PyUnicode, IdnaCodec} (policy : NetworkPolicy)
    (r : NetworkFlowRequest) (now ttl : Z) (bs : list DnsResolutionBinding) (ev : PolicyEvaluation)
    (Hev : evaluate_policy policy r now ttl bs = Ok ev)
    (Hperm : action (decision ev) ≠ DENY) :
  protocol r ≠ Protocol_UNKNOWN ∧
  (∃ x, x ∈ rules policy ∧ rule_matches x r now = Ok true ∧ rule_action x = action (decision ev)) ∧
  (∀ x, x ∈ rules policy → rule_matches x r now = Ok true →
     ACTION_ORDER (action (decision ev)) <= ACTION_ORDER (rule_action x)) ∧
  (protocol_requires_dns_binding (protocol r) (destination r) = true →
     ∃ b, b ∈ bs ∧ binding_proves r now b ∧
       expires_at_epoch_ms (decision ev) <= binding_expires_at_epoch_ms b) ∧
  now < expires_at_epoch_ms (decision ev) <= now + ttl ∧
  (∀ x e, x ∈ rules policy → rule_matches x r now = Ok true →
     rule_action x = action (decision ev) → expires_at_epoch_seconds x = Some e →
     expires_at_epoch_ms (decision ev) <= e * 1000).
Proof.
  destruct (evaluate_policy_Ok _ _ _ _ _ _ Hev) as (ms & bind & Hms & Hb & Ha & Hexp & _ & Httl & _).
  destruct (matching_rules_Ok _ _ _ _ Hms) as [Hin _].
  rewrite Ha in Hperm. destruct (decide_flow_permits _ _ _ Hperm) as (Hp & Hbn & (x & Hx & Hxa) & Hle).
  rewrite <- Ha in *. set (a := action (decision ev)) in *.
  assert (py_in a [ALLOW; APPROVE] = true) as Hpa by by destruct a.
  unfold expiry_candidates in Hexp. rewrite Hpa in Hexp.
  destruct (foldl_min_spec (rule_expiries a ms ++
    match bind with Some b => [binding_expires_at_epoch_ms b] | None => [] end) (now + ttl))
    as (Hmin & Hcand & Hgt). rewrite <- Hexp in *.
  assert (∀ z, z ∈ rule_expiries a ms ↔
    ∃ y e, y ∈ ms ∧ rule_action y = a ∧ expires_at_epoch_seconds y = Some e ∧ z = e * 1000) as Hre.
  { intros z. unfold rule_expiries. rewrite list_elem_of_omap. setoid_rewrite list_elem_of_filter.
    split.
    - intros (y & [? ?] & Hz). destruct (expires_at_epoch_seconds y) as [e|] eqn:E; [|done].
      injection Hz as <-. eauto 10.
    - intros (y & e & ? & ? & E & ->). exists y. by rewrite E. }
  split; [done|]. split; [exists x; apply Hin in Hx as [? ?]; done|].
  split; [intros y Hy Hm; apply Hle, Hin; done|]. split; [|split; [split; [|lia]|]].
  - intros Hreq. destruct bind as [b|]; [|by destruct (Hbn Hreq)].
    destruct (verified_binding_Some _ _ _ _ Hb) as [? ?]. exists b. split; [done|]. split; [done|].
    apply Hcand, elem_of_app. right. left.
  - apply Hgt; [lia|]. intros z [Hz|Hz]%elem_of_app.
    + apply Hre in Hz as (y & e & Hy & _ & He & ->). apply Hin in Hy as [_ Hm].
      by eapply rule_matches_unexpired.
    + destruct bind as [b|]; [|by apply elem_of_nil in Hz]. apply list_elem_of_singleton in Hz as ->.
      by destruct (verified_binding_Some _ _ _ _ Hb) as [_ (_ & _ & _ & _ & _ & ?)].
  - intros y e Hy Hm Hya He. apply Hcand, elem_of_app. left. apply Hre.
    exists y, e. split; [by apply Hin | done].
Qed.

Lemma decide_flow_order ms ms' r b :
  ms ≠ [] → (∀ x, x ∈ ms → x ∈ ms') →
  ACTION_ORDER (decide_flow ms' r b).1 <= ACTION_ORDER (decide_flow ms r b).1.
Proof.
  intros Hne Hsub. destruct (decide ((decide_flow ms' r b).1 = DENY)) as [->|Hd].
  { by destruct (decide_flow ms r b).1. }
  destruct (decide_flow_permits _ _ _ Hd) as (Hp & Hb & _ & Hle).
  assert (∃ x, x ∈ ms ∧ rule_action x = (decide_flow ms r b).1) as (x & Hx & <-).
  { unfold decide_flow. rewrite bool_decide_false by done.
    destruct (protocol_requires_dns_binding _ _); simpl.
    - rewrite bool_decide_false by auto. destruct ms as [|x ms]; [done|]. simpl.
      destruct (min_action_spec (rule_action x) (rule_action <$> ms)) as [Hin _].
      rewrite <- fmap_cons in Hin. apply list_elem_of_fmap in Hin as (y & ? & ?). by exists y.
    - destruct ms as [|x ms]; [done|]. simpl.
      destruct (min_action_spec (rule_action x) (rule_action <$> ms)) as [Hin _].
      rewrite <- fmap_cons in Hin. apply list_elem_of_fmap in Hin as (y & ? & ?). by exists y. }
  auto.
Qed.

(** rules only restrict: adding rules to a policy that some rule of
    already matched never makes the answer to the same flow more permissive. *)
Theorem adding_rules_restricts `{PyUnicode, IdnaCodec} (policy : NetworkPolicy)
    (extra : list NetworkRule) (r : NetworkFlowRequest) (now ttl : Z)
    (bs : list DnsResolutionBinding) (ev ev' : PolicyEvaluation) (x : NetworkRule)
    (Hx : x ∈ rules policy) (Hmatch : rule_matches x r now = Ok true)
    (Hev : evaluate_policy policy r now ttl bs = Ok ev)
    (Hev' : evaluate_policy (with_rules policy (rules policy ++ extra)) r now ttl bs = Ok ev') :
  action_is_no_less_restrictive (action (decision ev')) (action (decision ev)) = true.
Proof.
  destruct (evaluate_policy_Ok _ _ _ _ _ _ Hev) as (ms & b & Hms & Hb & Ha & _).
  destruct (evaluate_policy_Ok _ _ _ _ _ _ Hev') as (ms' & b' & Hms' & Hb' & Ha' & _).
  rewrite Hb in Hb'. injection Hb' as <-.
  destruct (matching_rules_Ok _ _ _ _ Hms) as [Hin _], (matching_rules_Ok _ _ _ _ Hms') as [Hin' _].
  unfold action_is_no_less_restrictive. rewrite Ha, Ha'. apply Z.leb_le, decide_flow_order.
  - intros ->. apply (not_elem_of_nil x), Hin. done.
  - intros y [Hy Hm]%Hin. apply Hin'. simpl. rewrite elem_of_app. auto.
Qed.

(** ** Totality *)

(** A destination as its constructor leaves it. *)
Definition destination_ok `{PyUnicode, IdnaCodec} (d : Destination) : Prop :=
  canonical_destination (dest_kind d) (dest_value d) = Ok (dest_value d).

Section totality.
Context `{PyUnicode, IdnaCodec}.

Lemma destination_ok_ip d :
  destination_ok d → dest_kind d = IP → ∃ a, py_ip_address (dest_value d) = Ok a.
Proof.
  unfold destination_ok, canonical_destination. intros (_ & _ & Hd)%bind_Ok Hk. rewrite Hk in Hd.
  apply bind_Ok in Hd as (a & Ha & _). eauto.
Qed.
Lemma destination_ok_cidr d :
  destination_ok d → dest_kind d = CIDR → ∃ n, py_ip_network (dest_value d) = Ok n.
Proof.
  unfold destination_ok, canonical_destination. intros (_ & _ & Hd)%bind_Ok Hk. rewrite Hk in Hd.
  apply bind_Ok in Hd as (a & Ha & _). eauto.
Qed.
Lemma destination_ok_class d :
  destination_ok d → dest_kind d = PRIVATE_CLASS →
  ∃ c, enum_of_value (A:=PrivateNetworkClass) (dest_value d) = Some c.
Proof.
  unfold destination_ok, canonical_destination. intros (_ & _ & Hd)%bind_Ok Hk. rewrite Hk in Hd.
  destruct (enum_of_value _); [eauto | done].
Qed.

Lemma destination_matches_total d q :
  destination_ok d → destination_ok q → ∃ b, destination_matches d q = Ok b.
Proof.
  intros Hd Hq. unfold destination_matches. case_bool_decide; [eauto|].
  destruct (dest_kind d) eqn:Kd, (dest_kind q) eqn:Kq; eauto.
  - destruct (destination_ok_ip q Hq Kq) as [a ->], (destination_ok_cidr d Hd Kd) as [n ->].
    simpl. eauto.
  - unfold classify_private_address. destruct (destination_ok_ip q Hq Kq) as [a ->].
    destruct (destination_ok_class d Hd Kd) as [c ->]. simpl. eauto.
Qed.

Lemma any_result_total {A} (f : A → result bool) xs :
  Forall (λ x, ∃ b, f x = Ok b) xs → ∃ b, any_result f xs = Ok b.
Proof.
  induction 1 as [|x xs [b Hb] _ IH]; simpl; [eauto|]. rewrite Hb. simpl. destruct b; eauto.
Qed.

(** The connected address of a request is canonical and usable as a destination. *)
Definition connected_ok (r : NetworkFlowRequest) : Prop :=
  ∀ address, connected_address r = Some address → canonical_destination IP address = Ok address.

Lemma rule_matches_total x r now :
  Forall destination_ok (destinations x) → destination_ok (destination r) → connected_ok r →
  ∃ b, rule_matches x r now = Ok b.
Proof.
  intros Hx Hr Hc. unfold rule_matches. repeat (case_match; [eauto|]).
  assert (∃ ds, requested_destinations r = Ok ds ∧ Forall destination_ok ds) as (ds & -> & Hds).
  { unfold requested_destinations, make_Destination.
    destruct (dest_kind (destination r)); [|eauto..].
    destruct (connected_address r) as [address|] eqn:Ea; [|eauto].
    rewrite (Hc _ Ea). simpl. eexists. split; [done|].
    constructor; [done|]. constructor; [|done]. exact (Hc _ Ea). }
  simpl. apply any_result_total. eapply Forall_impl; [exact Hx|]. intros d Hd. simpl in Hd.
  apply any_result_total. eapply Forall_impl; [exact Hds|]. intros q Hq. simpl in Hq.
  by apply destination_matches_total.
Qed.

Lemma matching_rules_total rs r now :
  Forall (λ x, ∃ b, rule_matches x r now = Ok b) rs → ∃ ms, matching_rules rs r now = Ok ms.
Proof.
  induction 1 as [|x rs [b Hb] _ [ms IH]]; simpl; [eauto|]. rewrite Hb. simpl. rewrite IH. simpl. eauto.
Qed.

Lemma find_binding_total r address digest now bs :
  make_NetworkFlowRequest r = Ok r → connected_address r = Some address →
  py_in (protocol r) [TCP; UDP] = true → ∃ b, find_binding r address digest now bs = Ok b.
Proof.
  intros Hr Ha Hp. induction bs as [|b bs IH]; simpl; [eauto|]. case_match; [done|].
  unfold make_NetworkFlowRequest in Hr. rewrite Ha in Hr.
  apply bind_Ok in Hr as ([] & _ & Hr). apply bind_Ok in Hr as ([] & Hid & Hr).
  apply bind_Ok in Hr as ([] & Hport & Hr). apply bind_Ok in Hr as ([] & Hobs & Hr).
  apply bind_Ok in Hr as ([] & _ & Hr).
  unfold make_ConnectionObservation. cbn [obs_flow_id remote_address remote_port obs_protocol
    obs_observed_at_epoch_ms obs_process_tree].
  unfold require_id in Hid |- *. apply raise_if_Ok in Hid, Hport, Hobs.
  rewrite Hid. cbn [raise_if mbind result_bind].
  unfold py_ip_address. destruct (ip_address address); [|done]. cbn [mbind result_bind].
  rewrite Hport, Hp, Hobs. simpl. case_match; eauto.
Qed.
End totality.

(** Evaluation is given a constructed policy. *)
Definition policy_ok `{PyUnicode, IdnaCodec} (p : NetworkPolicy) : Prop :=
  make_NetworkPolicy p = Ok p ∧
  Forall (λ x, make_NetworkRule x = Ok x ∧ Forall destination_ok (destinations x)) (rules p).

Lemma decide_flow_ids `{PyUnicode, IdnaCodec} ms r b :
  Forall (λ x, fullmatch STABLE_ID (rule_id x) = true) ms →
  (decide_flow ms r b).2 ≠ [] ∧
  Forall (λ i, fullmatch STABLE_ID i = true) (decide_flow ms r b).2.
Proof.
  intros Hms. unfold decide_flow. case_match; [by split; [|repeat constructor]|].
  case_match; [by split; [|repeat constructor]|].
  destruct ms as [|x ms]; [by split; [|repeat constructor]|]. simpl.
  destruct (min_action_spec (rule_action x) (rule_action <$> ms)) as [Hin _].
  rewrite <- fmap_cons in Hin. apply list_elem_of_fmap in Hin as (y & Hy & Hin).
  set (a := min_action _ _) in *. split.
  - intros E. apply (not_elem_of_nil (rule_id y)). rewrite <- E. apply list_elem_of_fmap.
    exists y. split; [done|]. apply list_elem_of_filter. done.
  - rewrite Forall_fmap. apply Forall_forall. intros z [_ Hz]%list_elem_of_filter.
    rewrite Forall_forall in Hms. by apply Hms.
Qed.

Lemma evaluate_policy_returns `{PyUnicode, IdnaCodec} (policy : NetworkPolicy)
    (r : NetworkFlowRequest) (now ttl : Z) (bs : list DnsResolutionBinding)
    (Hpol : policy_ok policy) (Hreq : make_NetworkFlowRequest r = Ok r)
    (Hdest : destination_ok (destination r)) (Hconn : connected_ok r)
    (Hnow : 0 < now) (Httl : 1 <= ttl <= 300000) :
  ∃ ev, evaluate_policy policy r now ttl bs = Ok ev.
Proof.
  destruct Hpol as [Hp Hrules]. apply make_policy_Ok in Hp as (_ & _ & Hgen & _).
  unfold evaluate_policy. rewrite (proj2 (Z.leb_gt _ _) Hnow).
  rewrite (proj2 (Z.leb_le 1 ttl)), (proj2 (Z.leb_le ttl 300000)) by lia. simpl.
  destruct (matching_rules_total (rules policy) r now) as [ms Hms].
  { eapply Forall_impl; [exact Hrules|]. intros x [_ Hx]. by apply rule_matches_total. }
  rewrite Hms. simpl. destruct (matching_rules_Ok _ _ _ _ Hms) as [Hin _].
  assert (∃ b, verified_dns_binding r bs now = Ok b) as [b Hb].
  { unfold verified_dns_binding. destruct (protocol_requires_dns_binding _ _) eqn:Hpr; simpl; [|eauto].
    destruct (dns_binding_digest r); [|eauto]. destruct (connected_address r) eqn:Ea; [|eauto].
    apply find_binding_total; [done|done|]. unfold protocol_requires_dns_binding in Hpr. by split_bool. }
  rewrite Hb. simpl.
  assert (Forall (λ x, fullmatch STABLE_ID (rule_id x) = true) ms) as Hids.
  { apply Forall_forall. intros x [Hx _]%Hin. rewrite Forall_forall in Hrules.
    destruct (Hrules x Hx) as [Hmk _]. apply make_rule_Ok in Hmk. naive_solver. }
  destruct (decide_flow_ids ms r b Hids) as [Hne Hall].
  assert (0 < foldl Z.min (now + ttl) (expiry_candidates (decide_flow ms r b).1 ms b)) as Hexp.
  { destruct (foldl_min_spec (expiry_candidates (decide_flow ms r b).1 ms b) (now + ttl)) as (_ & _ & Hgt).
    apply Hgt; [lia|]. intros z Hz. unfold expiry_candidates in Hz.
    destruct (py_in _ _); [|by apply elem_of_nil in Hz]. apply elem_of_app in Hz as [Hz|Hz].
    - unfold rule_expiries in Hz. apply list_elem_of_omap in Hz as (y & [_ Hy]%list_elem_of_filter & Hz).
      destruct (expires_at_epoch_seconds y) as [e|] eqn:Ee; [|done]. injection Hz as <-.
      apply Hin in Hy as [_ Hm]. pose proof (rule_matches_unexpired _ _ _ _ Hm Ee). lia.
    - destruct b as [b|]; [|by apply elem_of_nil in Hz]. apply list_elem_of_singleton in Hz as ->.
      destruct (verified_binding_Some _ _ _ _ Hb) as [_ (_ & _ & _ & _ & _ & ?)]. lia. }
  destruct (decide_flow ms r b) as [a ids]. cbn [fst snd] in *. unfold make_NetworkDecision, policy_digest_of.
  cbn [request_digest policy_digest decision_generation rule_ids expires_at_epoch_ms action].
  rewrite !require_digest_canonical. cbn [mbind result_bind].
  rewrite (proj2 (Z.ltb_ge _ _) Hgen), bool_decide_false by done. cbn [raise_if mbind result_bind].
  assert (for_each (λ i, require_id i "rule_id") ids = Ok tt) as ->.
  { apply for_each_Ok. eapply Forall_impl; [exact Hall|]. intros i Hi. unfold require_id. by rewrite Hi. }
  rewrite (proj2 (Z.leb_gt _ _) Hexp). simpl. eauto.
Qed.

(** on a constructed policy and request, with a connected address that is
    itself a canonical destination, and with clock and lifetime in range,
    evaluation always returns a decision. *)
Theorem evaluate_policy_total `{PyUnicode, IdnaCodec} (policy : NetworkPolicy)
    (r : NetworkFlowRequest) (now ttl : Z) (bs : list DnsResolutionBinding)
    (Hpol : policy_ok policy) (Hreq : make_NetworkFlowRequest r = Ok r)
    (Hdest : destination_ok (destination r)) (Hconn : connected_ok r)
    (Hnow : 0 < now) (Httl : 1 <= ttl <= 300000) :
  ∃ ev, evaluate_policy policy r now ttl bs = Ok ev.
Proof. by apply evaluate_policy_returns. Qed.

(** ** Witnesses *)

Definition sample_tree : ProcessTreeIdentity :=
  {| installation_id := $"install.one"; session_id := $"session.one"; root_pid := 4242;
     root_start_time_ns := 1; executable_digest := replicate 64 97 |}.

Definition sample_host : Destination := {| dest_kind := HOST; dest_value := $"api.example.com" |}.

Definition sample_binding : DnsResolutionBinding :=
  {| binding_id := $"binding.one"; binding_process_tree_digest := process_tree_digest sample_tree;
     query_name := $"api.example.com"; canonical_name := $"edge.example.net";
     addresses := [$"10.0.0.7"]; binding_observed_at_epoch_ms := 1000;
     binding_expires_at_epoch_ms := 50000; resolver_digest := replicate 64 98;
     binding_schema_version := $"guard.network-broker.v1" |}.

Definition sample_request (d : Destination) (address digest : option pystr) : NetworkFlowRequest :=
  {| request_id := $"request.one"; process_tree := sample_tree; destination := d; protocol := TCP;
     port := 443; observed_at_epoch_ms := 2000; connected_address := address;
     dns_binding_digest := digest; request_schema_version := $"guard.network-broker.v1" |}.

Definition host_request : NetworkFlowRequest :=
  sample_request sample_host (Some ($"10.0.0.7")) (Some (binding_digest sample_binding)).

Definition one_rule (id : string) (a : NetworkAction) (k : DestinationKind) (v : string) : NetworkRule :=
  {| rule_id := lit id; owner := LOCAL; rule_action := a;
     destinations := [{| dest_kind := k; dest_value := lit v |}]; protocols := [TCP];
     ports := [{| port_start := 443; port_end := 443 |}]; process_scopes := [];
     expires_at_epoch_seconds := Some 40 |}.

Definition policy_of (rs : list NetworkRule) : NetworkPolicy :=
  {| policy_id := $"workspace.default"; generation := 3; rules := rs;
     required_grade := Grade_DENY_ALL; failure_mode := Failure_DENY;
     policy_schema_version := $"guard.network-policy.v1" |}.

(** Evaluation with ASCII host names, at time 3000. *)
Definition sample_evaluate (rs : list NetworkRule) (r : NetworkFlowRequest)
    (bs : list DnsResolutionBinding) : result PolicyEvaluation :=
  evaluate_policy (H:=ascii_unicode) (H0:=ascii_idna) (policy_of rs) r 3000 30000 bs.

Definition allow_host : list NetworkRule := [one_rule "a.allow" ALLOW HOST "api.example.com"].

Lemma permitted_flow_witness :
  ∃ ev, sample_evaluate allow_host host_request [sample_binding] = Ok ev ∧
    action (decision ev) = ALLOW ∧
    ∃ b, b ∈ [sample_binding] ∧ binding_proves host_request 3000 b ∧
      expires_at_epoch_ms (decision ev) <= binding_expires_at_epoch_ms b.
Proof.
  destruct (sample_evaluate allow_host host_request [sample_binding]) as [ev|] eqn:Hev;
    [|vm_compute in Hev; discriminate Hev].
  assert (action (decision ev) = ALLOW) as Ha.
  { vm_compute in Hev. injection Hev as <-. reflexivity. }
  exists ev. split; [reflexivity|]. split; [exact Ha|].
  apply (permitted_flow_sound (H:=ascii_unicode) (H0:=ascii_idna) (policy_of allow_host) host_request
    3000 30000 [sample_binding] ev Hev); [rewrite Ha; discriminate | vm_compute; reflexivity].
Defined.

Lemma adding_rules_witness :
  ∃ ev ev',
    sample_evaluate allow_host host_request [sample_binding] = Ok ev ∧
    sample_evaluate (allow_host ++ [one_rule "b.deny" DENY CIDR "10.0.0.0/8"]) host_request
      [sample_binding] = Ok ev' ∧
    action_is_no_less_restrictive (action (decision ev')) (action (decision ev)) = true.
Proof.
  destruct (sample_evaluate allow_host host_request [sample_binding]) as [ev|] eqn:Hev;
    [|vm_compute in Hev; discriminate Hev].
  destruct (sample_evaluate (allow_host ++ [one_rule "b.deny" DENY CIDR "10.0.0.0/8"]) host_request
    [sample_binding]) as [ev'|] eqn:Hev'; [|vm_compute in Hev'; discriminate Hev'].
  exists ev, ev'. split; [reflexivity|]. split; [reflexivity|].
  apply (adding_rules_restricts (H:=ascii_unicode) (H0:=ascii_idna) (policy_of allow_host)
    [one_rule "b.deny" DENY CIDR "10.0.0.0/8"] host_request 3000 30000 [sample_binding] ev ev'
    (one_rule "a.allow" ALLOW HOST "api.example.com"));
    [left | vm_compute; reflexivity | exact Hev | exact Hev'].
Defined.

Lemma evaluate_policy_total_witness :
  ∃ ev, sample_evaluate allow_host host_request [sample_binding] = Ok ev.
Proof.
  apply (evaluate_policy_total (H:=ascii_unicode) (H0:=ascii_idna)).
  - split; [vm_compute; reflexivity|].
    repeat constructor; vm_compute; reflexivity.
  - vm_compute. reflexivity.
  - vm_compute. reflexivity.
  - intros address Ha. vm_compute in Ha. injection Ha as <-. vm_compute. reflexivity.
  - lia.
  - lia.
Defined.

(** totality of evaluation needs its assumption on the connected address:
    the constructor of a request accepts an IPv6 scope that ends in
    white space, which the destination built from it during evaluation rejects,
    so evaluation of a constructed request can raise [ValueError]. *)
Theorem evaluate_policy_scope_raises :
  let r := sample_request sample_host (Some ($"fe80::1%eth0 ")) None in
  make_NetworkFlowRequest r = Ok r ∧
  sample_evaluate allow_host r []
  = Raise (ValueError "destination must be a trimmed non-empty string").
Proof. split; vm_compute; reflexivity. Qed.

(** private classes follow the textual version of an address: the
    IPv4-mapped form of a loopback address is not classified as loopback, so a
    policy that denies loopback and allows private addresses denies
    [127.0.0.1] and allows [::ffff:127.0.0.1] (as canonicalized). *)
Theorem mapped_loopback_allowed :
  let rs := [one_rule "a.allow" ALLOW PRIVATE_CLASS "private";
             one_rule "b.deny" DENY PRIVATE_CLASS "loopback"] in
  let flow v := sample_request {| dest_kind := IP; dest_value := v |} None None in
  let mapped := $"::ffff:7f00:1" in
  make_Destination (H:=ascii_unicode) (H0:=ascii_idna) IP ($"::ffff:127.0.0.1")
  = Ok {| dest_kind := IP; dest_value := mapped |} ∧
  (ev ← sample_evaluate rs (flow ($"127.0.0.1")) []; Ok (action (decision ev))) = Ok DENY ∧
  (ev ← sample_evaluate rs (flow mapped) []; Ok (action (decision ev))) = Ok ALLOW.
Proof. split; [|split]; vm_compute; reflexivity. Qed.
