(* ===== verification/LinuxTcp.v ===== *)
(** * Linux TCP enforcement

    Models [linux_tcp_enforcement.py]: the lowering of a network policy to the
    entries of a cgroup connect hook, and the reference evaluation of the
    lowered artifact.  The main theorem is that the lowering preserves the
    decisions of [NetworkEvaluator]. *)

From S2P Require Import Prelude PyStr Sha256 Regex PyVal ActionLattice.
From S2P Require Import IpAddress NetworkContract NetworkBroker NetworkEvaluator.
Local Open Scope Z_scope.
Local Open Scope py_scope.

Definition LINUX_TCP_POLICY_SCHEMA_VERSION : pystr := $"guard.linux-tcp-policy.v1".
Definition LINUX_TCP_DECISION_SEMANTICS : pystr := $"all-matches-deny-wins".
Definition LINUX_TCP_EXPIRY_SEMANTICS : pystr := $"inactive-at-or-after-epoch-second".
Definition LINUX_TCP_ATTACHMENT_SEMANTICS : pystr := $"cgroup-v2-descendants-pid-start-time-verified".

Record LinuxTcpRuleEntry := {
  tcp_rule_id : pystr;
  tcp_action : NetworkAction;
  tcp_network : pystr;
  tcp_port_start : Z;
  tcp_port_end : Z;
  tcp_expires_at_epoch_seconds : option Z;
}.

Record LinuxTcpPolicyArtifact := {
  tcp_policy_id : pystr;
  tcp_generation : Z;
  tcp_policy_digest : pystr;
  tcp_process_tree_digest : pystr;
  tcp_process_tree : ProcessTreeIdentity;
  tcp_default_action : NetworkAction;
  tcp_entries : list LinuxTcpRuleEntry;
  tcp_decision_semantics : pystr;
  tcp_expiry_semantics : pystr;
  tcp_attachment_semantics : pystr;
  tcp_schema_version : pystr;
}.

Definition tcp_entry_json (e : LinuxTcpRuleEntry) : json :=
  JObj [($"rule_id", JStr (tcp_rule_id e)); ($"action", JStr (NetworkAction_value (tcp_action e)));
        ($"network", JStr (tcp_network e)); ($"port_start", JInt (tcp_port_start e));
        ($"port_end", JInt (tcp_port_end e));
        ($"expires_at_epoch_seconds", jopt JInt (tcp_expires_at_epoch_seconds e))].
Definition tcp_artifact_json (a : LinuxTcpPolicyArtifact) : json :=
  JObj [($"policy_id", JStr (tcp_policy_id a)); ($"generation", JInt (tcp_generation a));
        ($"policy_digest", JStr (tcp_policy_digest a));
        ($"process_tree_digest", JStr (tcp_process_tree_digest a));
        ($"process_tree", process_tree_json (tcp_process_tree a));
        ($"default_action", JStr (NetworkAction_value (tcp_default_action a)));
        ($"entries", JArr (tcp_entry_json <$> tcp_entries a));
        ($"decision_semantics", JStr (tcp_decision_semantics a));
        ($"expiry_semantics", JStr (tcp_expiry_semantics a));
        ($"attachment_semantics", JStr (tcp_attachment_semantics a));
        ($"schema_version", JStr (tcp_schema_version a))].

(** [LinuxTcpPolicyArtifact.digest] and [.payload] *)
Definition tcp_artifact_digest (a : LinuxTcpPolicyArtifact) : pystr :=
  canonical_digest (tcp_artifact_json a).
Definition tcp_artifact_payload (a : LinuxTcpPolicyArtifact) : list Z :=
  utf8 (canonical_json (tcp_artifact_json a)).

(** ** Lowering *)

(** [ipaddress.ip_network(s, strict=False)] *)
Definition py_ip_network_lax (s : pystr) : result ip_net :=
  match ip_network_lax s with
  | Some n => Ok n
  | None => Raise (ValueError "does not appear to be an IPv4 or IPv6 network")
  end.

(** The scope test of the lowering loops. *)
Definition lowered_scope (s : ProcessScope) (t : ProcessTreeIdentity) : bool :=
  (bool_decide (ProcessScopeKind_value (scope_kind s) = $"installation")
   && bool_decide (scope_value s = installation_id t))
  || (bool_decide (ProcessScopeKind_value (scope_kind s) = $"session")
      && bool_decide (scope_value s = session_id t)).
Definition out_of_scope (rule : NetworkRule) (t : ProcessTreeIdentity) : bool :=
  negb (bool_decide (process_scopes rule = []))
  && negb (existsb (λ s, lowered_scope s t) (process_scopes rule)).

(** [tuple((item.start, item.end) for item in rule.ports) or ((1, 65535),)] *)
Definition lowered_ports (rule : NetworkRule) : list (Z * Z) :=
  match (λ p, (port_start p, port_end p)) <$> ports rule with
  | [] => [(1, 65535)]
  | ranges => ranges
  end.

Definition lower_tcp_destination (grade : EnforcementGrade) (rule : NetworkRule) (d : Destination)
    : result (list LinuxTcpRuleEntry) :=
  match dest_kind d with
  | HOST =>
      if bool_decide (grade = Grade_UDP_DNS_DESTINATION_ENFORCED) then Ok []
      else Raise (ValueError "host destinations require authenticated DNS correlation before TCP lowering")
  | PRIVATE_CLASS => Raise (ValueError "private classes must be expanded before native lowering")
  | IP | CIDR =>
      n ← py_ip_network_lax (dest_value d);
      Ok ((λ range,
             {| tcp_rule_id := rule_id rule; tcp_action := rule_action rule;
                tcp_network := net_compressed n; tcp_port_start := range.1; tcp_port_end := range.2;
                tcp_expires_at_epoch_seconds := expires_at_epoch_seconds rule |})
          <$> lowered_ports rule)
  end.

Definition lower_tcp_rule (grade : EnforcementGrade) (t : ProcessTreeIdentity) (rule : NetworkRule)
    : result (list LinuxTcpRuleEntry) :=
  if negb (py_in TCP (protocols rule)) then Ok []
  else
  raise_if (bool_decide (rule_action rule = APPROVE))
    (ValueError "approval rules require broker mediation") ;;
  if out_of_scope rule t then Ok []
  else
  es ← map_result (lower_tcp_destination grade rule) (destinations rule);
  Ok (mjoin (es : list (list LinuxTcpRuleEntry))).

Definition tcp_entry_key (e : LinuxTcpRuleEntry) : pystr * Z * Z * Z * pystr :=
  (tcp_network e, tcp_port_start e, tcp_port_end e,
   if bool_decide (tcp_action e = DENY) then 0 else 1, tcp_rule_id e).

Definition compile_linux_tcp_policy (policy : NetworkPolicy) (t : ProcessTreeIdentity)
    : result LinuxTcpPolicyArtifact :=
  raise_if (negb (py_in (required_grade policy)
                        [Grade_TCP_IP_DESTINATION_ENFORCED; Grade_UDP_DNS_DESTINATION_ENFORCED]))
    (ValueError "Linux TCP lowering requires the exact TCP IP enforcement grade or composite UDP/DNS grade") ;;
  es ← map_result (lower_tcp_rule (required_grade policy) t) (rules policy);
  Ok {| tcp_policy_id := policy_id policy; tcp_generation := generation policy;
        tcp_policy_digest := policy_digest_of policy;
        tcp_process_tree_digest := process_tree_digest t; tcp_process_tree := t;
        tcp_default_action := DENY; tcp_entries := sort_on tcp_entry_key (mjoin (es : list (list LinuxTcpRuleEntry)));
        tcp_decision_semantics := LINUX_TCP_DECISION_SEMANTICS;
        tcp_expiry_semantics := LINUX_TCP_EXPIRY_SEMANTICS;
        tcp_attachment_semantics := LINUX_TCP_ATTACHMENT_SEMANTICS;
        tcp_schema_version := LINUX_TCP_POLICY_SCHEMA_VERSION |}.

(** ** Evaluation *)

(** [expires_at is None or now < expires_at] *)
Definition not_lapsed (expires : option Z) (now : Z) : bool :=
  match expires with Some e => now <? e | None => true end.

Definition tcp_entry_matches (address : ip) (port now : Z) (e : LinuxTcpRuleEntry) : result bool :=
  if negb ((tcp_port_start e <=? port) && (port <=? tcp_port_end e)) then Ok false
  else if negb (not_lapsed (tcp_expires_at_epoch_seconds e) now) then Ok false
  else n ← py_ip_network (tcp_network e); Ok (in_network address n).

Definition evaluate_linux_tcp_artifact (a : LinuxTcpPolicyArtifact) (t : ProcessTreeIdentity)
    (installed_artifact_digest remote_address : pystr) (remote_port now_epoch_seconds : Z)
    : result NetworkAction :=
  raise_if (negb (bool_decide (tcp_artifact_digest a = installed_artifact_digest)))
    (ValueError "Linux TCP policy artifact digest does not match installation") ;;
  raise_if (negb (bool_decide (tcp_schema_version a = LINUX_TCP_POLICY_SCHEMA_VERSION))
            || negb (bool_decide (tcp_decision_semantics a = LINUX_TCP_DECISION_SEMANTICS))
            || negb (bool_decide (tcp_expiry_semantics a = LINUX_TCP_EXPIRY_SEMANTICS))
            || negb (bool_decide (tcp_attachment_semantics a = LINUX_TCP_ATTACHMENT_SEMANTICS))
            || negb (bool_decide (tcp_default_action a = DENY))
            || negb (bool_decide (process_tree_digest (tcp_process_tree a) = tcp_process_tree_digest a)))
    (ValueError "invalid Linux TCP policy artifact") ;;
  raise_if (negb (bool_decide (process_tree_digest t = tcp_process_tree_digest a)))
    (ValueError "process tree identity does not match the compiled artifact") ;;
  address ← py_ip_address remote_address;
  matched ← filter_result (tcp_entry_matches address remote_port now_epoch_seconds) (tcp_entries a);
  let matched_actions := tcp_action <$> matched in
  Ok (if py_in DENY matched_actions then DENY
      else if py_in ALLOW matched_actions then ALLOW
      else tcp_default_action a).

(** ** Lemmas *)

Lemma any_result_true {A} (f : A → result bool) xs :
  Forall (λ x, is_ok (f x) = true) xs → any_result f xs = Ok true ↔ ∃ x, x ∈ xs ∧ f x = Ok true.
Proof.
  induction 1 as [|x xs Hx _ IH]; simpl.
  { split; [done|]. by intros (x & ?%elem_of_nil & _). }
  destruct (f x) as [[]|] eqn:E; simpl; [|rewrite IH|done].
  - split; [|done]. exists x. split; [left | done].
  - split; [intros (y & ? & ?); exists y; split; [by right | done]|].
    intros (y & [->|Hy]%elem_of_cons & Hf); [congruence | eauto].
Qed.

Lemma lowered_scope_matches s t : lowered_scope s t = scope_matches s t.
Proof. unfold lowered_scope, scope_matches. destruct (scope_kind s); simpl; by rewrite ?orb_false_r. Qed.

Lemma out_of_scope_matches x t :
  out_of_scope x t = negb (bool_decide (process_scopes x = []))
                     && negb (existsb (λ s, scope_matches s t) (process_scopes x)).
Proof.
  unfold out_of_scope. do 2 f_equal. induction (process_scopes x) as [|s l IH]; [done|].
  simpl. by rewrite lowered_scope_matches, IH.
Qed.

(** A port range of the rule admits a valid port exactly when a lowered one does. *)
Lemma lowered_ports_match x p : 1 <= p <= 65535 →
  (∃ range, range ∈ lowered_ports x ∧ range.1 <= p <= range.2) ↔
  negb (bool_decide (ports x = []))
  && negb (existsb (λ q, (port_start q <=? p) && (p <=? port_end q)) (ports x)) = false.
Proof.
  intros Hp. unfold lowered_ports. destruct (ports x) as [|q qs].
  - simpl. split; [done|]. intros _. exists (1, 65535). split; [left | done].
  - rewrite bool_decide_false by done. cbn [negb andb]. rewrite negb_false_iff, existsb_Exists, Exists_exists.
    change ((λ p0, (port_start p0, port_end p0)) <$> q :: qs) with
      ((port_start q, port_end q) :: ((λ p0, (port_start p0, port_end p0)) <$> qs)).
    cbv iota. rewrite <- (fmap_cons (λ p0, (port_start p0, port_end p0)) q qs). split.
    + intros (range & (y & -> & Hy)%list_elem_of_fmap & Hr). exists y. split; [done|]. simpl in Hr.
      rewrite andb_true_iff, !Z.leb_le. lia.
    + intros (y & Hy & Hm). apply andb_true_iff in Hm. rewrite !Z.leb_le in Hm.
      exists (port_start y, port_end y). split; [|done]. apply list_elem_of_fmap. eauto.
Qed.

(** An IP destination without a scope id. *)
Definition dest_unscoped (d : Destination) : Prop :=
  dest_kind d = IP → ∀ a, ip_address (dest_value d) = Some a → unscoped a.

Section lowering.
Context `{PyUnicode, IdnaCodec}.

Lemma destination_ok_text d : destination_ok d → dest_kind d = IP →
  ∃ a, ip_address (dest_value d) = Some a ∧ dest_value d = compressed a.
Proof.
  unfold destination_ok, canonical_destination. intros (_ & _ & Hd)%bind_Ok Hk. rewrite Hk in Hd.
  apply bind_Ok in Hd as (a & Ha & Hd). injection Hd as Hd. unfold py_ip_address in Ha.
  destruct (ip_address (dest_value d)); [injection Ha as ->; eauto | done].
Qed.

(** The network an IP or CIDR destination is lowered to matches exactly the
    addresses the destination matches. *)
Lemma lowered_network d q a :
  destination_ok d → dest_unscoped d → dest_kind d = IP ∨ dest_kind d = CIDR →
  destination_ok q → dest_kind q = IP → ip_address (dest_value q) = Some a → unscoped a →
  ∃ n, ip_network_lax (dest_value d) = Some n ∧ ip_network (net_compressed n) = Some n ∧
    destination_matches d q = Ok (in_network a n).
Proof.
  intros Hd Hu Hk Hq Kq Ha Hua. unfold destination_matches.
  destruct (destination_ok_text q Hq Kq) as (a' & Ha' & Eq). rewrite Ha in Ha'. injection Ha' as <-.
  destruct Hk as [Kd|Kd].
  - destruct (destination_ok_text d Hd Kd) as (b & Hb & Ed). specialize (Hu Kd b Hb).
    pose proof (ip_network_of_address _ _ Hb) as Hn. eexists.
    split; [by apply ip_network_lax_strict|]. split; [by apply (ip_network_canonical (dest_value d))|].
    pose proof (in_host_network a b (ip_address_ok _ _ Ha) Hua Hu) as Hin.
    case_bool_decide as Heq.
    + f_equal. symmetry. apply Hin. subst q. rewrite Hb in Ha. by injection Ha as ->.
    + rewrite Kd. f_equal. symmetry. apply not_true_iff_false. rewrite Hin. intros <-.
      apply Heq. destruct d, q; simpl in *; congruence.
  - rewrite bool_decide_false by (intros <-; congruence). rewrite Kd, Kq.
    destruct (destination_ok_cidr d Hd Kd) as [n Hn]. unfold py_ip_address. rewrite Ha, Hn.
    exists n. unfold py_ip_network in Hn. destruct (ip_network (dest_value d)) as [m|] eqn:Em; [|done].
    injection Hn as ->. split; [by apply ip_network_lax_strict|].
    split; [by apply (ip_network_canonical (dest_value d)) | done].
Qed.

(** What a rule is lowered to, entry by entry. *)
Lemma lower_tcp_destination_spec grade x d es q a :
  destination_ok d → dest_unscoped d →
  destination_ok q → dest_kind q = IP → ip_address (dest_value q) = Some a → unscoped a →
  lower_tcp_destination grade x d = Ok es →
  (es = [] ∧ destination_matches d q = Ok false) ∨
  ∃ n, ip_network (net_compressed n) = Some n ∧ destination_matches d q = Ok (in_network a n) ∧
    ∀ e, e ∈ es ↔ ∃ range, range ∈ lowered_ports x ∧
      e = {| tcp_rule_id := rule_id x; tcp_action := rule_action x;
             tcp_network := net_compressed n; tcp_port_start := range.1; tcp_port_end := range.2;
             tcp_expires_at_epoch_seconds := expires_at_epoch_seconds x |}.
Proof.
  intros Hd Hu Hq Kq Ha Hua. unfold lower_tcp_destination. destruct (dest_kind d) eqn:Kd; [| | |done].
  { case_bool_decide; [|done]. intros [= <-]. left. split; [done|]. unfold destination_matches.
    rewrite bool_decide_false by (intros ->; congruence). by rewrite Kd. }
  all: destruct (lowered_network d q a Hd Hu ltac:(eauto) Hq Kq Ha Hua) as (n & Hn & Hc & Hm);
    unfold py_ip_network_lax; rewrite Hn; simpl;
    intros [= <-]; right; exists n; split; [done|]; split; [done|]; intros e; rewrite list_elem_of_fmap;
    naive_solver.
Qed.

(** The flow an address and a port describe, for [NetworkEvaluator]. *)
Definition tcp_flow (r : NetworkFlowRequest) (t : ProcessTreeIdentity) (p : Z) : Prop :=
  make_NetworkFlowRequest r = Ok r ∧ protocol r = TCP ∧ dest_kind (destination r) = IP ∧
  destination_ok (destination r) ∧ process_tree r = t ∧ port r = p.

(** When a rule matches a flow to some requested destinations. *)
Lemma rule_matches_flow x r ds now :
  requested_destinations r = Ok ds → Forall destination_ok ds → 1 <= port r <= 65535 →
  Forall destination_ok (destinations x) →
  rule_matches x r (now * 1000) = Ok true ↔
  not_lapsed (expires_at_epoch_seconds x) now = true ∧ protocol r ∈ protocols x ∧
  (∃ range, range ∈ lowered_ports x ∧ range.1 <= port r <= range.2) ∧
  out_of_scope x (process_tree r) = false ∧
  ∃ d q, d ∈ destinations x ∧ q ∈ ds ∧ destination_matches d q = Ok true.
Proof.
  intros Hreq Hds Hrange Hx.
  rewrite lowered_ports_match by done. rewrite out_of_scope_matches. unfold rule_matches.
  assert (rule_expired x (now * 1000) = negb (not_lapsed (expires_at_epoch_seconds x) now)) as ->.
  { unfold rule_expired, not_lapsed. destruct (expires_at_epoch_seconds x) as [e|]; [|done].
    destruct (Z.leb_spec (e * 1000) (now * 1000)), (Z.ltb_spec now e); lia. }
  rewrite Hreq. destruct (not_lapsed _ now); simpl; [|naive_solver].
  destruct (py_in (protocol r) (protocols x)) eqn:Hin; simpl.
  2: { apply py_in_false in Hin. naive_solver. }
  apply py_in_true in Hin. case_match; [naive_solver|]. case_match; [naive_solver|].
  assert (∀ d, destination_ok d → Forall (λ q, is_ok (destination_matches d q) = true) ds) as Hdq.
  { intros d Hd. eapply Forall_impl; [exact Hds|]. intros q Hq. simpl in Hq.
    by destruct (destination_matches_total d q Hd Hq) as [b ->]. }
  rewrite Forall_forall in Hx. rewrite any_result_true.
  - split; [|intros (_ & _ & _ & _ & d & q & ? & ? & Hm); exists d; split; [done|]].
    + intros (d & Hdx & Hm). do 4 (split; [done|]). exists d.
      apply any_result_true in Hm as (q & Hq & Hm); [|by apply Hdq, Hx]. eauto.
    + apply any_result_true; [by apply Hdq, Hx | eauto].
  - apply Forall_forall. intros d Hd.
    destruct (any_result_total (destination_matches d) ds) as [b ->]; [|done].
    eapply Forall_impl; [exact (Hdq d (Hx d Hd))|]. intros q Hq. simpl in Hq.
    destruct (destination_matches d q); [eauto | done].
Qed.

Definition lowerable (x : NetworkRule) : Prop :=
  Forall destination_ok (destinations x) ∧ Forall dest_unscoped (destinations x).

(** An entry made from a network matches by port, lapse and membership. *)
Lemma tcp_entry_matches_net a p now e n :
  tcp_network e = net_compressed n → ip_network (net_compressed n) = Some n →
  tcp_entry_matches a p now e =
  Ok ((tcp_port_start e <=? p) && (p <=? tcp_port_end e)
      && not_lapsed (tcp_expires_at_epoch_seconds e) now && in_network a n).
Proof.
  intros He Hn. unfold tcp_entry_matches, py_ip_network. rewrite He, Hn. simpl.
  destruct (_ && (p <=? _)); simpl; [|done]. by destruct (not_lapsed _ now).
Qed.

(** An entry of a lowered rule matches exactly when its destination and port do. *)
Lemma lower_tcp_entries grade x l d q p now a :
  lowerable x → d ∈ destinations x → destination_ok q → dest_kind q = IP →
  ip_address (dest_value q) = Some a → unscoped a → lower_tcp_destination grade x d = Ok l →
  (∀ e, e ∈ l → tcp_action e = rule_action x ∧ is_ok (tcp_entry_matches a p now e) = true) ∧
  ((∃ e, e ∈ l ∧ tcp_entry_matches a p now e = Ok true) ↔
   not_lapsed (expires_at_epoch_seconds x) now = true ∧
   (∃ range, range ∈ lowered_ports x ∧ range.1 <= p <= range.2) ∧
   destination_matches d q = Ok true).
Proof.
  intros [Hok Hun] Hd Hq Kq Ha Hua Hl. rewrite Forall_forall in Hok, Hun.
  destruct (lower_tcp_destination_spec grade x d l q a (Hok d Hd) (Hun d Hd) Hq Kq Ha Hua Hl)
    as [[-> Hf]|(n & Hn & Hm & Hall)].
  { split; [by intros e ?%elem_of_nil|]. rewrite Hf.
    split; [by intros (e & ?%elem_of_nil & _) | naive_solver]. }
  rewrite Hm. split.
  - intros e (range & _ & ->)%Hall. by rewrite (tcp_entry_matches_net a p now _ n).
  - split.
    + intros (e & (range & Hr & ->)%Hall & He). rewrite (tcp_entry_matches_net a p now _ n) in He by done.
      injection He as He. simpl in He. split_bool. rewrite !Z.leb_le in *.
      split; [done|]. split; [by exists range | by f_equal].
    + intros (Hlap & (range & Hr & Hrp) & Hin). injection Hin as Hin. eexists.
      split; [apply Hall; by exists range|].
      rewrite (tcp_entry_matches_net a p now _ n) by done. simpl. rewrite Hlap, Hin.
      by rewrite (proj2 (Z.leb_le _ _) (proj1 Hrp)), (proj2 (Z.leb_le _ _) (proj2 Hrp)).
Qed.

Lemma lower_tcp_rule_spec grade t x es r p now a :
  lowerable x → tcp_flow r t p → 1 <= p <= 65535 →
  ip_address (dest_value (destination r)) = Some a → unscoped a →
  lower_tcp_rule grade t x = Ok es →
  (∀ e, e ∈ es → tcp_action e = rule_action x ∧ is_ok (tcp_entry_matches a p now e) = true) ∧
  ((∃ e, e ∈ es ∧ tcp_entry_matches a p now e = Ok true) ↔ rule_matches x r (now * 1000) = Ok true) ∧
  (rule_matches x r (now * 1000) = Ok true → rule_action x ≠ APPROVE).
Proof.
  intros Hx Hflow Hp Ha Hua Hl. pose proof Hflow as (_ & _ & Hk & Hd & _).
  rewrite (rule_matches_flow x r [destination r] now); [| |by repeat constructor|by destruct Hflow as (? & ? & ? & ? & ? & ->)|exact (proj1 Hx)].
  2: { unfold requested_destinations. by rewrite Hk. }
  destruct Hflow as (_ & -> & _ & _ & -> & ->). unfold lower_tcp_rule in Hl.
  destruct (py_in TCP (protocols x)) eqn:Hin; simpl in Hl.
  2: { apply py_in_false in Hin. injection Hl as <-. set_solver. }
  apply py_in_true in Hin. apply bind_Ok in Hl as ([] & Happ%raise_if_Ok & Hl).
  apply bool_decide_eq_false in Happ. destruct (out_of_scope x t); [injection Hl as <-; set_solver|].
  apply bind_Ok in Hl as (ess & [Htot Hjoin]%map_result_join & Hl). injection Hl as <-.
  split; [|split; [|done]].
  - intros e (d & l & Hdx & Hdl & He)%Hjoin.
    by apply (lower_tcp_entries grade x l d (destination r) p now a Hx Hdx Hd Hk Ha Hua Hdl).
  - split.
    + intros (e & (d & l & Hdx & Hdl & He)%Hjoin & Hm).
      destruct (lower_tcp_entries grade x l d (destination r) p now a Hx Hdx Hd Hk Ha Hua Hdl) as [_ Hiff].
      destruct (proj1 Hiff (ex_intro _ e (conj He Hm))) as (? & ? & ?).
      do 4 (split; [done|]). exists d, (destination r). split; [done|]. split; [left | done].
    + intros (Hlap & _ & Hr & _ & d & q & Hdx & ->%list_elem_of_singleton & Hdm). destruct (Htot d Hdx) as [l Hdl].
      destruct (lower_tcp_entries grade x l d (destination r) p now a Hx Hdx Hd Hk Ha Hua Hdl) as [_ Hiff].
      destruct (proj2 Hiff (conj Hlap (conj Hr Hdm))) as (e & He & Hm). exists e.
      split; [|done]. apply Hjoin. eauto.
Qed.
End lowering.

(** The action of a decision, read off the actions of the matching rules. *)
Lemma decide_flow_deny_wins ms r b :
  protocol r ≠ Protocol_UNKNOWN →
  protocol_requires_dns_binding (protocol r) (destination r) = false ∨ b ≠ None →
  Forall (λ x, rule_action x ≠ APPROVE) ms →
  (decide_flow ms r b).1 =
  (if py_in DENY (rule_action <$> ms) then DENY
   else if py_in ALLOW (rule_action <$> ms) then ALLOW else DENY).
Proof.
  intros Hp Hb Hms. unfold decide_flow. rewrite bool_decide_false by done.
  assert (protocol_requires_dns_binding (protocol r) (destination r) && bool_decide (b = None) = false) as ->.
  { destruct Hb as [->|Hb]; [done|]. rewrite (bool_decide_false _ Hb). apply andb_false_r. }
  destruct ms as [|x ms]; [done|]. simpl.
  destruct (min_action_spec (rule_action x) (rule_action <$> ms)) as [Hin Hle].
  rewrite <- fmap_cons in Hin, Hle |- *. set (m := min_action _ _) in *.
  destruct (py_in DENY _) eqn:Hd.
  - apply py_in_true, Hle in Hd. destruct m; simpl in Hd; [done|lia|lia].
  - apply py_in_false in Hd. destruct m eqn:Em; [done| |].
    + apply list_elem_of_fmap in Hin as (y & Hy & Hyx). rewrite Forall_forall in Hms.
      destruct (Hms y Hyx). done.
    + by rewrite (proj2 (py_in_true _ _) Hin).
Qed.

Lemma compile_tcp_Ok policy t art :
  compile_linux_tcp_policy policy t = Ok art →
  tcp_default_action art = DENY ∧ tcp_process_tree art = t ∧
  tcp_process_tree_digest art = process_tree_digest t ∧
  tcp_schema_version art = LINUX_TCP_POLICY_SCHEMA_VERSION ∧
  tcp_decision_semantics art = LINUX_TCP_DECISION_SEMANTICS ∧
  tcp_expiry_semantics art = LINUX_TCP_EXPIRY_SEMANTICS ∧
  tcp_attachment_semantics art = LINUX_TCP_ATTACHMENT_SEMANTICS ∧
  (∀ x, x ∈ rules policy → ∃ es, lower_tcp_rule (required_grade policy) t x = Ok es) ∧
  (∀ e, e ∈ tcp_entries art ↔
     ∃ x es, x ∈ rules policy ∧ lower_tcp_rule (required_grade policy) t x = Ok es ∧ e ∈ es).
Proof.
  unfold compile_linux_tcp_policy. intros (_ & _ & (es & [Htot Hes]%map_result_join & E)%bind_Ok)%bind_Ok.
  injection E as <-. simpl. do 7 (split; [done|]). split; [done|].
  intros e. by rewrite elem_of_sort_on, Hes.
Qed.

(** Evaluating an installed artifact, once its identity is established. *)
Lemma evaluate_tcp_Ok policy t art text a p now :
  compile_linux_tcp_policy policy t = Ok art → ip_address text = Some a →
  Forall (λ e, is_ok (tcp_entry_matches a p now e) = true) (tcp_entries art) →
  ∃ matched, (∀ e, e ∈ matched ↔ e ∈ tcp_entries art ∧ tcp_entry_matches a p now e = Ok true) ∧
    evaluate_linux_tcp_artifact art t (tcp_artifact_digest art) text p now =
    Ok (if py_in DENY (tcp_action <$> matched) then DENY
        else if py_in ALLOW (tcp_action <$> matched) then ALLOW else DENY).
Proof.
  intros Hc Ha Hok. apply compile_tcp_Ok in Hc as (Hd & Ht & Htd & Hs & Hds & Hes & Has & _).
  destruct (filter_result_total _ _ Hok) as [matched Hm]. exists matched.
  split; [apply (proj1 (filter_result_Ok _ _ _ Hm))|].
  unfold evaluate_linux_tcp_artifact, py_ip_address.
  rewrite Hd, Ht, Htd, Hs, Hds, Hes, Has, Ha, !bool_decide_true by done. simpl. by rewrite Hm.
Qed.

Lemma matched_actions (es matched : list LinuxTcpRuleEntry) (hit : LinuxTcpRuleEntry → Prop) :
  (∀ e, e ∈ matched ↔ e ∈ es ∧ hit e) →
  ∀ act, act ∈ tcp_action <$> matched ↔ ∃ e, e ∈ es ∧ hit e ∧ act = tcp_action e.
Proof. intros Hm act. rewrite list_elem_of_fmap. setoid_rewrite Hm. naive_solver. Qed.

(** Actions of hitting entries and of matching rules. *)
Lemma same_actions {A} (action_of : A → NetworkAction) (ms : list NetworkRule) (es : list A)
    (hit : A → Prop) (hits : list NetworkAction) (entries : NetworkRule → list A → Prop)
    (rs : list NetworkRule) (matches : NetworkRule → Prop) :
  (∀ x, x ∈ ms ↔ x ∈ rs ∧ matches x) →
  (∀ act, act ∈ hits ↔ ∃ e, e ∈ es ∧ hit e ∧ act = action_of e) →
  (∀ e, e ∈ es ↔ ∃ x l, x ∈ rs ∧ entries x l ∧ e ∈ l) →
  (∀ x, x ∈ rs → ∃ l, entries x l) →
  (∀ x l, x ∈ rs → entries x l →
     (∀ e, e ∈ l → action_of e = rule_action x) ∧ ((∃ e, e ∈ l ∧ hit e) ↔ matches x)) →
  ∀ act, act ∈ hits ↔ act ∈ rule_action <$> ms.
Proof.
  intros Hms Hhits Hes Htot Hspec act. rewrite Hhits, list_elem_of_fmap. split.
  - intros (e & He & Hhit & ->). apply Hes in He as (x & l & Hx & Hl & He).
    destruct (Hspec x l Hx Hl) as [Hact Hiff]. exists x. split; [by apply Hact|].
    apply Hms. split; [done|]. apply Hiff. eauto.
  - intros (x & -> & [Hx Hm]%Hms). destruct (Htot x Hx) as [l Hl].
    destruct (Hspec x l Hx Hl) as [Hact Hiff]. destruct (proj2 Hiff Hm) as (e & He & Hhit).
    exists e. split; [apply Hes; eauto|]. split; [done|]. by symmetry; apply Hact.
Qed.

(** Lowering preserves decisions: for a constructed policy that the lowering
    accepts, and a TCP flow of the compiled process tree to an address, the
    broker's evaluation and the evaluation of the installed artifact both
    return, with the same action.  Addresses carry no IPv6 scope id: the
    lowered networks ignore them. *)
Theorem tcp_lowering_preserves `{PyUnicode, IdnaCodec} (policy : NetworkPolicy)
    (t : ProcessTreeIdentity) (art : LinuxTcpPolicyArtifact) (r : NetworkFlowRequest)
    (a : ip) (p now ttl : Z) (bs : list DnsResolutionBinding)
    (Hpol : policy_ok policy)
    (Hun : Forall (λ x, Forall dest_unscoped (destinations x)) (rules policy))
    (Hc : compile_linux_tcp_policy policy t = Ok art)
    (Hflow : tcp_flow r t p) (Hconn : connected_ok r)
    (Ha : ip_address (dest_value (destination r)) = Some a) (Hua : unscoped a)
    (Hnow : 0 < now) (Httl : 1 <= ttl <= 300000) :
  ∃ ev, evaluate_policy policy r (now * 1000) ttl bs = Ok ev ∧
    evaluate_linux_tcp_artifact art t (tcp_artifact_digest art) (dest_value (destination r)) p now =
    Ok (action (decision ev)).
Proof.
  pose proof Hflow as (Hr & Hpr & Hk & Hd & Ht & Hport).
  assert (1 <= p <= 65535) as Hp.
  { subst p. unfold make_NetworkFlowRequest, port_in_range in Hr. inv_ok. split_bool. lia. }
  destruct (evaluate_policy_returns policy r (now * 1000) ttl bs) as [ev Hev]; [done..|lia|done|].
  exists ev. split; [done|].
  destruct (evaluate_policy_Ok _ _ _ _ _ _ Hev) as (ms & bind & Hms & _ & -> & _).
  destruct (matching_rules_Ok _ _ _ _ Hms) as [Hin _].
  pose proof (compile_tcp_Ok _ _ _ Hc) as (_ & _ & _ & _ & _ & _ & _ & Htot & Hes).
  assert (∀ x, x ∈ rules policy → lowerable x) as Hlow.
  { destruct Hpol as [_ Hpol]. rewrite Forall_forall in Hpol, Hun. intros x Hx.
    split; [by apply Hpol | by apply Hun]. }
  assert (Hspec := λ x es Hx Hl,
    lower_tcp_rule_spec (required_grade policy) t x es r p now a (Hlow x Hx) Hflow Hp Ha Hua Hl).
  destruct (evaluate_tcp_Ok policy t art (dest_value (destination r)) a p now Hc Ha)
    as (matched & Hmat & ->).
  { apply Forall_forall. intros e (x & es & Hx & Hl & He)%Hes. by apply (Hspec x es Hx Hl). }
  rewrite (decide_flow_deny_wins ms r bind); [|by rewrite Hpr|by left; unfold protocol_requires_dns_binding; rewrite Hk|].
  2: { apply Forall_forall. intros x [Hx Hm]%Hin. destruct (Htot x Hx) as [es Hl].
       by apply (Hspec x es Hx Hl). }
  by rewrite !(py_in_ext _ _ _ (same_actions tcp_action ms (tcp_entries art)
    (λ e, tcp_entry_matches a p now e = Ok true) _ _ _ _ Hin (matched_actions _ _ _ Hmat) Hes Htot
    (λ x l Hx Hl, conj (λ e He, proj1 (proj1 (Hspec x l Hx Hl) e He)) (proj1 (proj2 (Hspec x l Hx Hl)))))).
Qed.

(** ** Examples *)

Definition lowered_policy (grade : EnforcementGrade) (rs : list NetworkRule) : NetworkPolicy :=
  {| policy_id := $"workspace.default"; generation := 3; rules := rs;
     required_grade := grade; failure_mode := Failure_DENY;
     policy_schema_version := $"guard.network-policy.v1" |}.

Definition tcp_rules : list NetworkRule :=
  [one_rule "a.allow" ALLOW CIDR "10.0.0.0/8"; one_rule "b.deny" DENY IP "10.0.0.9"].
Definition tcp_policy : NetworkPolicy := lowered_policy Grade_TCP_IP_DESTINATION_ENFORCED tcp_rules.

Definition ip_request (v : string) : NetworkFlowRequest :=
  sample_request {| dest_kind := IP; dest_value := lit v |} None None.

Definition tcp_installed (policy : NetworkPolicy) (address : string) : result NetworkAction :=
  art ← compile_linux_tcp_policy policy sample_tree;
  evaluate_linux_tcp_artifact art sample_tree (tcp_artifact_digest art) (lit address) 443 3.

Lemma tcp_lowering_witness :
  ∃ art ev, compile_linux_tcp_policy tcp_policy sample_tree = Ok art ∧
    evaluate_policy (H:=ascii_unicode) (H0:=ascii_idna) tcp_policy (ip_request "10.0.0.7") (3 * 1000) 30000 []
    = Ok ev ∧
    evaluate_linux_tcp_artifact art sample_tree (tcp_artifact_digest art) ($"10.0.0.7") 443 3
    = Ok (action (decision ev)).
Proof.
  destruct (compile_linux_tcp_policy tcp_policy sample_tree) as [art|] eqn:Hc;
    [|vm_compute in Hc; discriminate Hc].
  exists art.
  destruct (tcp_lowering_preserves (H:=ascii_unicode) (H0:=ascii_idna) tcp_policy sample_tree art
    (ip_request "10.0.0.7") (IPv4 167772167) 443 3 30000 []) as [ev Hev].
  - split; [vm_compute; reflexivity|]. repeat constructor; vm_compute; reflexivity.
  - repeat constructor; intros _ a Ha; vm_compute in Ha; first [discriminate Ha | injection Ha as <-];
      exact I.
  - exact Hc.
  - repeat split; vm_compute; reflexivity.
  - intros address Ha. discriminate Ha.
  - vm_compute. reflexivity.
  - exact I.
  - lia.
  - lia.
  - exists ev. split; [reflexivity | exact Hev].
Defined.

(** The lowering forgets IPv6 scope ids: a rule that allows [fe80::1] on one
    interface is lowered to a network that contains [fe80::1] on every
    interface, so the installed artifact allows a flow the broker denies. *)
Theorem tcp_lowering_forgets_scope :
  let policy := lowered_policy Grade_TCP_IP_DESTINATION_ENFORCED
    [one_rule "a.allow" ALLOW IP "fe80::1%eth0"] in
  policy_ok (H:=ascii_unicode) (H0:=ascii_idna) policy ∧
  (ev ← evaluate_policy (H:=ascii_unicode) (H0:=ascii_idna) policy (ip_request "fe80::1%eth1") 3000 30000 [];
   Ok (action (decision ev))) = Ok DENY ∧
  tcp_installed policy "fe80::1%eth1" = Ok ALLOW.
Proof.
  split; [split; [vm_compute; reflexivity | repeat constructor; vm_compute; reflexivity]|].
  split; vm_compute; reflexivity.
Qed.
