(* ===== verification/LinuxUdpDns.v ===== *)
(** * Linux UDP and brokered DNS enforcement

    Models [linux_udp_dns_enforcement.py]: resolver routes and DNS binding
    leases with their signatures, the lowering of a policy to address and host
    entries, and the reference evaluation of the artifact.

    Ed25519 of the [cryptography] package is the class [Ed25519]; its laws are
    the documented sizes and that a key's own signatures verify. *)

From S2P Require Import Prelude PyStr Sha256 Regex PyVal ActionLattice.
From S2P Require Import IpAddress NetworkContract NetworkBroker NetworkEvaluator LinuxTcp.
Local Open Scope Z_scope.
Local Open Scope py_scope.

Definition is_byte (b : Z) : Prop := 0 <= b < 256.

(** [verify] is [public_key.verify] without [InvalidSignature], and
    [accepts_public_bytes] is [from_public_bytes] without [ValueError]. *)
Class Ed25519 := {
  private_key : Type;
  public_bytes : private_key → list Z;
  sign : private_key → list Z → list Z;
  accepts_public_bytes : list Z → bool;
  verify : list Z → list Z → list Z → bool;
  public_bytes_shape : ∀ k, length (public_bytes k) = 32%nat ∧ Forall is_byte (public_bytes k);
  sign_shape : ∀ k m, length (sign k m) = 64%nat ∧ Forall is_byte (sign k m);
  accepts_public : ∀ k, accepts_public_bytes (public_bytes k) = true;
  verify_sign : ∀ k m, verify (public_bytes k) (sign k m) m = true;
}.

(** [bytes.fromhex(s)]: pairs of hexadecimal digits, with ASCII white space
    skipped between pairs; [None] is [ValueError]. *)
Definition is_ascii_space (c : Z) : bool := (c =? 32) || in_range 9 13 c.
Fixpoint bytes_fromhex (s : pystr) : option (list Z) :=
  match s with
  | [] => Some []
  | c :: s =>
      if is_ascii_space c then bytes_fromhex s
      else
      match s with
      | [] => None
      | d :: s =>
          hi ← hex_value c; lo ← hex_value d; rest ← bytes_fromhex s; Some (16 * hi + lo :: rest)
      end
  end.

Definition LINUX_UDP_DNS_SCHEMA_VERSION : pystr := $"guard.linux-udp-dns-policy.v1".

Inductive LinuxSocketHook := CONNECT4 | CONNECT6 | UDP4_SENDMSG | UDP6_SENDMSG.
Global Instance LinuxSocketHook_eq_dec : EqDecision LinuxSocketHook.
Proof. solve_decision. Defined.
Definition LinuxSocketHook_value (h : LinuxSocketHook) : pystr :=
  match h with
  | CONNECT4 => $"connect4"
  | CONNECT6 => $"connect6"
  | UDP4_SENDMSG => $"udp4-sendmsg"
  | UDP6_SENDMSG => $"udp6-sendmsg"
  end.

Record LinuxL4RuleEntry := {
  l4_rule_id : pystr;
  l4_action : NetworkAction;
  l4_protocol : NetworkProtocol;
  l4_network : pystr;
  l4_port_start : Z;
  l4_port_end : Z;
  l4_expires_at_epoch_seconds : option Z;
}.

Record LinuxHostRuleEntry := {
  host_rule_id : pystr;
  host_action : NetworkAction;
  host_protocol : NetworkProtocol;
  host_name : pystr;
  host_port_start : Z;
  host_port_end : Z;
  host_expires_at_epoch_seconds : option Z;
}.

(** ** Resolver routes *)

Record LinuxResolverRoute := {
  route_address : pystr;
  udp_port : Z;
  tcp_port : Z;
  broker_cgroup_id : Z;
  route_executable_digest : pystr;
  route_attestation_digest : pystr;
  doh_boundary_digest : pystr;
  resolver_public_key : pystr;
  route_signature : pystr;
}.

(** [len(value) != n] or [bytes.fromhex(value)] raises *)
Definition not_hex_of_length (n : Z) (value : pystr) : bool :=
  negb (Z.of_nat (length value) =? n) || negb (bool_decide (is_Some (bytes_fromhex value))).

(** [LinuxResolverRoute.__post_init__] *)
Definition make_LinuxResolverRoute (r : LinuxResolverRoute) : result LinuxResolverRoute :=
  address ← py_ip_address (route_address r);
  raise_if (negb (is_loopback address)) (ValueError "resolver route must terminate on loopback") ;;
  raise_if (negb (port_in_range (udp_port r)) || negb (port_in_range (tcp_port r)))
    (ValueError "resolver route ports must be within 1..65535") ;;
  raise_if (broker_cgroup_id r <=? 0) (ValueError "resolver broker cgroup id must be positive") ;;
  raise_if (not_hex_of_length 64 (route_executable_digest r))
    (ValueError "resolver executable digest must be SHA-256") ;;
  raise_if (not_hex_of_length 64 (route_attestation_digest r))
    (ValueError "resolver route attestation digest must be SHA-256") ;;
  raise_if (not_hex_of_length 64 (doh_boundary_digest r))
    (ValueError "resolver DoH boundary digest must be SHA-256") ;;
  raise_if (not_hex_of_length 64 (resolver_public_key r))
    (ValueError "resolver route public key is not valid Ed25519 evidence") ;;
  raise_if (not_hex_of_length 128 (route_signature r))
    (ValueError "resolver route signature is not valid Ed25519 evidence") ;;
  Ok {| route_address := compressed address; udp_port := udp_port r; tcp_port := tcp_port r;
        broker_cgroup_id := broker_cgroup_id r; route_executable_digest := route_executable_digest r;
        route_attestation_digest := route_attestation_digest r;
        doh_boundary_digest := doh_boundary_digest r; resolver_public_key := resolver_public_key r;
        route_signature := route_signature r |}.

Definition route_json (r : LinuxResolverRoute) : json :=
  JObj [($"address", JStr (route_address r)); ($"udp_port", JInt (udp_port r));
        ($"tcp_port", JInt (tcp_port r)); ($"broker_cgroup_id", JInt (broker_cgroup_id r));
        ($"executable_digest", JStr (route_executable_digest r));
        ($"route_attestation_digest", JStr (route_attestation_digest r));
        ($"doh_boundary_digest", JStr (doh_boundary_digest r));
        ($"resolver_public_key", JStr (resolver_public_key r));
        ($"route_signature", JStr (route_signature r))].
Definition route_digest (r : LinuxResolverRoute) : pystr := canonical_digest (route_json r).

Definition resolver_route_manifest_digest (r : LinuxResolverRoute) : pystr :=
  canonical_digest
    (JObj [($"address", JStr (route_address r)); ($"broker_cgroup_id", JInt (broker_cgroup_id r));
           ($"doh_boundary_digest", JStr (doh_boundary_digest r));
           ($"executable_digest", JStr (route_executable_digest r));
           ($"resolver_public_key", JStr (resolver_public_key r));
           ($"tcp_port", JInt (tcp_port r)); ($"udp_port", JInt (udp_port r))]).

(** ** DNS binding leases *)

Record DnsBindingLease := {
  lease_policy_id : pystr;
  lease_generation : Z;
  lease_process_tree_digest : pystr;
  lease_workload_cgroup_id : Z;
  lease_host : pystr;
  lease_address : pystr;
  lease_protocol : NetworkProtocol;
  lease_port_start : Z;
  lease_port_end : Z;
  issued_at_epoch_seconds : Z;
  authoritative_ttl_seconds : Z;
  lease_expires_at_epoch_seconds : Z;
  resolver_route_digest : pystr;
  resolver_nonce : pystr;
  issuance_receipt_digest : pystr;
  resolver_signature : pystr;
}.

(** [replace(lease, address=...)] and the evidence fields *)
Definition lease_with (b : DnsBindingLease) (address receipt signature : pystr) : DnsBindingLease :=
  {| lease_policy_id := lease_policy_id b; lease_generation := lease_generation b;
     lease_process_tree_digest := lease_process_tree_digest b;
     lease_workload_cgroup_id := lease_workload_cgroup_id b; lease_host := lease_host b;
     lease_address := address; lease_protocol := lease_protocol b;
     lease_port_start := lease_port_start b; lease_port_end := lease_port_end b;
     issued_at_epoch_seconds := issued_at_epoch_seconds b;
     authoritative_ttl_seconds := authoritative_ttl_seconds b;
     lease_expires_at_epoch_seconds := lease_expires_at_epoch_seconds b;
     resolver_route_digest := resolver_route_digest b; resolver_nonce := resolver_nonce b;
     issuance_receipt_digest := receipt; resolver_signature := signature |}.

(** [DnsBindingLease.__post_init__] *)
Definition make_DnsBindingLease (b : DnsBindingLease) : result DnsBindingLease :=
  raise_if (negb (py_in (lease_protocol b) [TCP; UDP]))
    (ValueError "DNS binding protocol must be TCP or UDP") ;;
  raise_if (authoritative_ttl_seconds b <=? 0) (ValueError "DNS binding TTL must be positive") ;;
  raise_if (issued_at_epoch_seconds b + authoritative_ttl_seconds b <? lease_expires_at_epoch_seconds b)
    (ValueError "DNS binding expiry must not exceed authoritative TTL") ;;
  raise_if (not_hex_of_length 64 (resolver_nonce b))
    (ValueError "DNS binding resolver nonce must be SHA-256") ;;
  raise_if (not_hex_of_length 64 (issuance_receipt_digest b))
    (ValueError "DNS binding issuance receipt must be SHA-256") ;;
  raise_if (not_hex_of_length 128 (resolver_signature b))
    (ValueError "DNS binding signature is not valid Ed25519 evidence") ;;
  address ← py_ip_address (lease_address b);
  Ok (lease_with b (compressed address) (issuance_receipt_digest b) (resolver_signature b)).

Definition lease_json (b : DnsBindingLease) : json :=
  JObj [($"policy_id", JStr (lease_policy_id b)); ($"generation", JInt (lease_generation b));
        ($"process_tree_digest", JStr (lease_process_tree_digest b));
        ($"workload_cgroup_id", JInt (lease_workload_cgroup_id b));
        ($"host", JStr (lease_host b)); ($"address", JStr (lease_address b));
        ($"protocol", JStr (enum_value (lease_protocol b)));
        ($"port_start", JInt (lease_port_start b)); ($"port_end", JInt (lease_port_end b));
        ($"issued_at_epoch_seconds", JInt (issued_at_epoch_seconds b));
        ($"authoritative_ttl_seconds", JInt (authoritative_ttl_seconds b));
        ($"expires_at_epoch_seconds", JInt (lease_expires_at_epoch_seconds b));
        ($"resolver_route_digest", JStr (resolver_route_digest b));
        ($"resolver_nonce", JStr (resolver_nonce b));
        ($"issuance_receipt_digest", JStr (issuance_receipt_digest b));
        ($"resolver_signature", JStr (resolver_signature b))].
Definition lease_digest (b : DnsBindingLease) : pystr := canonical_digest (lease_json b).

Definition binding_manifest_digest (b : DnsBindingLease) : pystr :=
  canonical_digest
    (JObj [($"address", JStr (lease_address b));
           ($"authoritative_ttl_seconds", JInt (authoritative_ttl_seconds b));
           ($"expires_at_epoch_seconds", JInt (lease_expires_at_epoch_seconds b));
           ($"generation", JInt (lease_generation b)); ($"host", JStr (lease_host b));
           ($"issued_at_epoch_seconds", JInt (issued_at_epoch_seconds b));
           ($"policy_id", JStr (lease_policy_id b)); ($"port_end", JInt (lease_port_end b));
           ($"port_start", JInt (lease_port_start b));
           ($"process_tree_digest", JStr (lease_process_tree_digest b));
           ($"protocol", JStr (enum_value (lease_protocol b)));
           ($"resolver_nonce", JStr (resolver_nonce b));
           ($"resolver_route_digest", JStr (resolver_route_digest b));
           ($"workload_cgroup_id", JInt (lease_workload_cgroup_id b))]).

(** ** Issuing and checking evidence *)

Section evidence.
Context `{Ed25519}.

Definition create_linux_resolver_route (address : pystr) (udp tcp cgroup : Z)
    (executable doh : pystr) (key : private_key) : result LinuxResolverRoute :=
  provisional ← make_LinuxResolverRoute
    {| route_address := address; udp_port := udp; tcp_port := tcp; broker_cgroup_id := cgroup;
       route_executable_digest := executable; route_attestation_digest := replicate 64 48;
       doh_boundary_digest := doh; resolver_public_key := hexdigest (public_bytes key);
       route_signature := replicate 128 48 |};
  let digest := resolver_route_manifest_digest provisional in
  match bytes_fromhex digest with
  | None => Raise (ValueError "non-hexadecimal number found in fromhex() arg")
  | Some message =>
      make_LinuxResolverRoute
        {| route_address := route_address provisional; udp_port := udp_port provisional;
           tcp_port := tcp_port provisional; broker_cgroup_id := broker_cgroup_id provisional;
           route_executable_digest := route_executable_digest provisional;
           route_attestation_digest := digest;
           doh_boundary_digest := doh_boundary_digest provisional;
           resolver_public_key := resolver_public_key provisional;
           route_signature := hexdigest (sign key message) |}
  end.

(** [create_dns_binding_lease]; the evidence fields of the argument are unused *)
Definition create_dns_binding_lease (key : private_key) (fields : DnsBindingLease)
    : result DnsBindingLease :=
  provisional ← make_DnsBindingLease
    (lease_with fields (lease_address fields) (replicate 64 48) (replicate 128 48));
  let digest := binding_manifest_digest provisional in
  match bytes_fromhex digest with
  | None => Raise (ValueError "non-hexadecimal number found in fromhex() arg")
  | Some message =>
      make_DnsBindingLease
        (lease_with provisional (lease_address provisional) digest (hexdigest (sign key message)))
  end.

(** The [try] block that verifies a signature over a digest. *)
Definition signature_valid (public_key signature digest : pystr) : bool :=
  match bytes_fromhex public_key with
  | Some key =>
      accepts_public_bytes key
      && match bytes_fromhex signature, bytes_fromhex digest with
         | Some s, Some m => verify key s m
         | _, _ => false
         end
  | None => false
  end.

Definition resolver_route_is_attested (r : LinuxResolverRoute) (trusted_resolver_public_key : pystr) : bool :=
  if negb (bool_decide (resolver_public_key r = trusted_resolver_public_key)) then false
  else
  let digest := resolver_route_manifest_digest r in
  if negb (bool_decide (digest = route_attestation_digest r)) then false
  else signature_valid (resolver_public_key r) (route_signature r) digest.

Definition canonical_trusted_resolver_public_key (public_key : pystr) : result pystr :=
  raise_if (negb (Z.of_nat (length public_key) =? 64))
    (ValueError "trusted resolver public key is not valid Ed25519 evidence") ;;
  match bytes_fromhex public_key with
  | None => Raise (ValueError "trusted resolver public key is not valid Ed25519 evidence")
  | Some key =>
      raise_if (negb (accepts_public_bytes key))
        (ValueError "trusted resolver public key is not valid Ed25519 evidence") ;;
      raise_if (negb (bool_decide (public_key = hexdigest key)))
        (ValueError "trusted resolver public key must use canonical lowercase hex") ;;
      Ok public_key
  end.

Definition binding_is_attested (b : DnsBindingLease) (public_key : pystr) : bool :=
  let digest := binding_manifest_digest b in
  if negb (bool_decide (digest = issuance_receipt_digest b)) then false
  else signature_valid public_key (resolver_signature b) digest.
End evidence.

(** ** Lowering *)

Record LinuxUdpDnsPolicyArtifact := {
  udp_policy_id : pystr;
  udp_generation : Z;
  udp_policy_digest : pystr;
  udp_tcp_artifact_digest : pystr;
  udp_process_tree_digest : pystr;
  udp_process_tree : ProcessTreeIdentity;
  workload_cgroup_id : Z;
  resolver_route : LinuxResolverRoute;
  trusted_resolver_public_key : pystr;
  l4_entries : list LinuxL4RuleEntry;
  host_entries : list LinuxHostRuleEntry;
  udp_default_action : NetworkAction;
  udp_decision_semantics : pystr;
  resolver_semantics : pystr;
  udp_schema_version : pystr;
}.

Definition UDP_DECISION_SEMANTICS : pystr := $"all-matches-deny-wins".
Definition RESOLVER_SEMANTICS : pystr := $"deny-external-53-853-attested-route-only".

Definition l4_entry_json (e : LinuxL4RuleEntry) : json :=
  JObj [($"rule_id", JStr (l4_rule_id e)); ($"action", JStr (NetworkAction_value (l4_action e)));
        ($"protocol", JStr (enum_value (l4_protocol e))); ($"network", JStr (l4_network e));
        ($"port_start", JInt (l4_port_start e)); ($"port_end", JInt (l4_port_end e));
        ($"expires_at_epoch_seconds", jopt JInt (l4_expires_at_epoch_seconds e))].
Definition host_entry_json (e : LinuxHostRuleEntry) : json :=
  JObj [($"rule_id", JStr (host_rule_id e)); ($"action", JStr (NetworkAction_value (host_action e)));
        ($"protocol", JStr (enum_value (host_protocol e))); ($"host", JStr (host_name e));
        ($"port_start", JInt (host_port_start e)); ($"port_end", JInt (host_port_end e));
        ($"expires_at_epoch_seconds", jopt JInt (host_expires_at_epoch_seconds e))].
Definition udp_artifact_json (a : LinuxUdpDnsPolicyArtifact) : json :=
  JObj [($"policy_id", JStr (udp_policy_id a)); ($"generation", JInt (udp_generation a));
        ($"policy_digest", JStr (udp_policy_digest a));
        ($"tcp_artifact_digest", JStr (udp_tcp_artifact_digest a));
        ($"process_tree_digest", JStr (udp_process_tree_digest a));
        ($"process_tree", process_tree_json (udp_process_tree a));
        ($"workload_cgroup_id", JInt (workload_cgroup_id a));
        ($"resolver_route", route_json (resolver_route a));
        ($"trusted_resolver_public_key", JStr (trusted_resolver_public_key a));
        ($"l4_entries", JArr (l4_entry_json <$> l4_entries a));
        ($"host_entries", JArr (host_entry_json <$> host_entries a));
        ($"default_action", JStr (NetworkAction_value (udp_default_action a)));
        ($"decision_semantics", JStr (udp_decision_semantics a));
        ($"resolver_semantics", JStr (resolver_semantics a));
        ($"schema_version", JStr (udp_schema_version a))].
Definition udp_artifact_digest (a : LinuxUdpDnsPolicyArtifact) : pystr :=
  canonical_digest (udp_artifact_json a).
Definition udp_artifact_payload (a : LinuxUdpDnsPolicyArtifact) : list Z :=
  utf8 (canonical_json (udp_artifact_json a)).

(** The entries one destination of a rule contributes, in the order of the
    loops: every lowered protocol, every port range. *)
Definition entry_slots (rule : NetworkRule) : list (NetworkProtocol * (Z * Z)) :=
  mjoin ((λ p, if py_in p [TCP; UDP] then (λ range, (p, range)) <$> lowered_ports rule else [])
         <$> protocols rule).
Definition l4_entry (rule : NetworkRule) (n : ip_net) (slot : NetworkProtocol * (Z * Z)) : LinuxL4RuleEntry :=
  {| l4_rule_id := rule_id rule; l4_action := rule_action rule; l4_protocol := slot.1;
     l4_network := net_compressed n; l4_port_start := slot.2.1; l4_port_end := slot.2.2;
     l4_expires_at_epoch_seconds := expires_at_epoch_seconds rule |}.
Definition host_entry (rule : NetworkRule) (host : pystr) (slot : NetworkProtocol * (Z * Z)) : LinuxHostRuleEntry :=
  {| host_rule_id := rule_id rule; host_action := rule_action rule; host_protocol := slot.1;
     host_name := host; host_port_start := slot.2.1; host_port_end := slot.2.2;
     host_expires_at_epoch_seconds := expires_at_epoch_seconds rule |}.

Definition lower_udp_destination (rule : NetworkRule) (d : Destination)
    : result (list (LinuxL4RuleEntry + LinuxHostRuleEntry)) :=
  match dest_kind d with
  | PRIVATE_CLASS => Raise (ValueError "private classes must be expanded before native lowering")
  | HOST => Ok ((λ slot, inr (host_entry rule (dest_value d) slot)) <$> entry_slots rule)
  | IP | CIDR =>
      match entry_slots rule with
      | [] => Ok []
      | slots => n ← py_ip_network_lax (dest_value d); Ok ((λ slot, inl (l4_entry rule n slot)) <$> slots)
      end
  end.

Definition lower_udp_rule (t : ProcessTreeIdentity) (rule : NetworkRule)
    : result (list (LinuxL4RuleEntry + LinuxHostRuleEntry)) :=
  raise_if (py_in DNS (protocols rule))
    (ValueError "direct DNS rules cannot authorize workload DNS sockets") ;;
  if negb (py_in UDP (protocols rule)) && negb (py_in TCP (protocols rule)) then Ok []
  else
  raise_if (bool_decide (rule_action rule = APPROVE))
    (ValueError "approval rules require interactive broker mediation") ;;
  if out_of_scope rule t then Ok []
  else
  es ← map_result (lower_udp_destination rule) (destinations rule);
  Ok (mjoin (es : list (list (LinuxL4RuleEntry + LinuxHostRuleEntry)))).

Definition get_l4 (e : LinuxL4RuleEntry + LinuxHostRuleEntry) : option LinuxL4RuleEntry :=
  match e with inl e => Some e | inr _ => None end.
Definition get_host (e : LinuxL4RuleEntry + LinuxHostRuleEntry) : option LinuxHostRuleEntry :=
  match e with inl _ => None | inr e => Some e end.

Definition l4_key (e : LinuxL4RuleEntry) : pystr * Z * Z * pystr * pystr * pystr :=
  (l4_network e, l4_port_start e, l4_port_end e, enum_value (l4_protocol e),
   NetworkAction_value (l4_action e), l4_rule_id e).
Definition host_key (e : LinuxHostRuleEntry) : pystr * pystr * Z * Z * pystr * pystr :=
  (enum_value (host_protocol e), host_name e, host_port_start e, host_port_end e,
   NetworkAction_value (host_action e), host_rule_id e).

Section udp_dns.
Context `{Ed25519}.

Definition compile_linux_udp_dns_policy (policy : NetworkPolicy) (t : ProcessTreeIdentity)
    (tcp_artifact : LinuxTcpPolicyArtifact) (cgroup : Z) (route : LinuxResolverRoute)
    (trusted_key : pystr) : result LinuxUdpDnsPolicyArtifact :=
  raise_if (negb (bool_decide (required_grade policy = Grade_UDP_DNS_DESTINATION_ENFORCED)))
    (ValueError "Linux UDP/DNS lowering requires its exact additive grade") ;;
  raise_if (cgroup <=? 0) (ValueError "workload cgroup id must be positive") ;;
  raise_if (cgroup =? broker_cgroup_id route)
    (ValueError "resolver broker must be outside the workload cgroup") ;;
  raise_if (negb (bool_decide (tcp_policy_id tcp_artifact = policy_id policy))
            || negb (tcp_generation tcp_artifact =? generation policy)
            || negb (bool_decide (tcp_policy_digest tcp_artifact = policy_digest_of policy))
            || negb (bool_decide (tcp_process_tree_digest tcp_artifact = process_tree_digest t))
            || negb (bool_decide (process_tree_digest (tcp_process_tree tcp_artifact)
                                  = tcp_process_tree_digest tcp_artifact)))
    (ValueError "TCP artifact does not match policy generation and process tree") ;;
  trusted_key ← canonical_trusted_resolver_public_key trusted_key;
  raise_if (negb (resolver_route_is_attested route trusted_key))
    (ValueError "resolver route attestation is invalid") ;;
  es ← map_result (lower_udp_rule t) (rules policy);
  check_ProcessTreeIdentity t ;;
  let entries := mjoin (es : list (list (LinuxL4RuleEntry + LinuxHostRuleEntry))) in
  Ok {| udp_policy_id := policy_id policy; udp_generation := generation policy;
        udp_policy_digest := policy_digest_of policy;
        udp_tcp_artifact_digest := tcp_artifact_digest tcp_artifact;
        udp_process_tree_digest := process_tree_digest t; udp_process_tree := t;
        workload_cgroup_id := cgroup; resolver_route := route;
        trusted_resolver_public_key := trusted_key;
        l4_entries := sort_on l4_key (omap get_l4 entries);
        host_entries := sort_on host_key (omap get_host entries);
        udp_default_action := DENY; udp_decision_semantics := UDP_DECISION_SEMANTICS;
        resolver_semantics := RESOLVER_SEMANTICS;
        udp_schema_version := LINUX_UDP_DNS_SCHEMA_VERSION |}.

(** ** Evaluation *)

Definition binding_matches (a : LinuxUdpDnsPolicyArtifact) (t : ProcessTreeIdentity) (cgroup : Z)
    (address : pystr) (port : Z) (protocol : NetworkProtocol) (now : Z) (b : DnsBindingLease) : bool :=
  bool_decide (lease_policy_id b = udp_policy_id a)
  && (lease_generation b =? udp_generation a)
  && bool_decide (lease_process_tree_digest b = process_tree_digest t)
  && (lease_workload_cgroup_id b =? cgroup)
  && bool_decide (lease_address b = address)
  && bool_decide (lease_protocol b = protocol)
  && ((lease_port_start b <=? port) && (port <=? lease_port_end b))
  && (now <? lease_expires_at_epoch_seconds b)
  && bool_decide (resolver_route_digest b = route_digest (resolver_route a)).

Definition l4_entry_matches (protocol : NetworkProtocol) (address : ip) (port now : Z)
    (e : LinuxL4RuleEntry) : result bool :=
  if negb (bool_decide (l4_protocol e = protocol)) then Ok false
  else if negb ((l4_port_start e <=? port) && (port <=? l4_port_end e)) then Ok false
  else if negb (not_lapsed (l4_expires_at_epoch_seconds e) now) then Ok false
  else n ← py_ip_network (l4_network e); Ok (in_network address n).

Definition host_entry_matches (host : pystr) (protocol : NetworkProtocol) (port now : Z)
    (e : LinuxHostRuleEntry) : bool :=
  bool_decide (host_name e = host) && bool_decide (host_protocol e = protocol)
  && ((host_port_start e <=? port) && (port <=? host_port_end e))
  && not_lapsed (host_expires_at_epoch_seconds e) now.

(** The binding, when it is attested and matches the flow. *)
Definition valid_binding (a : LinuxUdpDnsPolicyArtifact) (t : ProcessTreeIdentity) (cgroup : Z)
    (address : pystr) (port : Z) (protocol : NetworkProtocol) (now : Z) (trusted_key : pystr)
    (binding : option DnsBindingLease) : option DnsBindingLease :=
  match binding with
  | Some b =>
      if binding_is_attested b trusted_key && binding_matches a t cgroup address port protocol now b
      then Some b else None
  | None => None
  end.

Record socket_flow := {
  flow_hook : LinuxSocketHook;
  flow_protocol : NetworkProtocol;
  flow_address : pystr;
  flow_port : Z;
  flow_now : Z;
  flow_binding : option DnsBindingLease;
  flow_intent : option pystr;
}.

(** From the established address on: entries, resolver route, binding. *)
Definition decide_socket (a : LinuxUdpDnsPolicyArtifact) (t : ProcessTreeIdentity) (cgroup : Z)
    (trusted_key : pystr) (address : ip) (f : socket_flow) : result NetworkAction :=
  let protocol := flow_protocol f in
  let port := flow_port f in
  let now := flow_now f in
  let route := resolver_route a in
  let route_port := if bool_decide (protocol = TCP) then tcp_port route else udp_port route in
  route_ip ← py_ip_address (route_address route);
  let on_route := bool_decide (address = route_ip) && (port =? route_port) in
  let valid := valid_binding a t cgroup (compressed address) port protocol now trusted_key (flow_binding f) in
  let doh := bool_decide (flow_intent f = Some (doh_boundary_digest route)) in
  matched ← filter_result (l4_entry_matches protocol address port now) (l4_entries a);
  let actions := l4_action <$> matched in
  if py_in DENY actions then Ok DENY
  else if py_in port [53; 853] && negb on_route then Ok DENY
  else if on_route && (port =? 443) && negb doh then Ok DENY
  else if negb on_route && (port =? 443) && negb (bool_decide (is_Some valid)) && negb doh then Ok DENY
  else
  let actions := actions ++ (if on_route then [ALLOW] else []) in
  let actions := actions ++
    match valid with
    | Some b =>
        host_action <$> filter (λ e, host_entry_matches (lease_host b) protocol port now e = true) (host_entries a)
    | None => []
    end in
  Ok (if py_in DENY actions then DENY else if py_in ALLOW actions then ALLOW else udp_default_action a).

Definition evaluate_linux_udp_dns_artifact (a : LinuxUdpDnsPolicyArtifact) (t : ProcessTreeIdentity)
    (cgroup : Z) (installed_artifact_digest : pystr) (f : socket_flow) : result NetworkAction :=
  trusted_key ← canonical_trusted_resolver_public_key (trusted_resolver_public_key a);
  raise_if (negb (bool_decide (udp_artifact_digest a = installed_artifact_digest)))
    (ValueError "Linux UDP/DNS policy artifact digest does not match installation") ;;
  raise_if (negb (resolver_route_is_attested (resolver_route a) trusted_key)
            || negb (bool_decide (udp_schema_version a = LINUX_UDP_DNS_SCHEMA_VERSION))
            || negb (bool_decide (udp_decision_semantics a = UDP_DECISION_SEMANTICS))
            || negb (bool_decide (resolver_semantics a = RESOLVER_SEMANTICS))
            || negb (bool_decide (udp_default_action a = DENY))
            || negb (bool_decide (process_tree_digest (udp_process_tree a) = udp_process_tree_digest a)))
    (ValueError "invalid Linux UDP/DNS policy artifact") ;;
  if negb (bool_decide (process_tree_digest t = udp_process_tree_digest a))
     || negb (cgroup =? workload_cgroup_id a) then Ok DENY
  else
  address ← py_ip_address (flow_address f);
  let expected_family := if ip_version address =? 4 then $"4" else $"6" in
  if negb (contains expected_family (LinuxSocketHook_value (flow_hook f))) then Ok DENY
  else if negb (py_in (flow_protocol f) [TCP; UDP]) then Ok DENY
  else if bool_decide (flow_protocol f = TCP) && negb (py_in (flow_hook f) [CONNECT4; CONNECT6]) then Ok DENY
  else decide_socket a t cgroup trusted_key address f.
End udp_dns.

(** ** Lemmas *)

Lemma hex_value_digit n : 0 <= n < 16 → hex_value (hex_digit n) = Some n ∧ is_ascii_space (hex_digit n) = false.
Proof.
  intros Hn. assert (n ∈ [0;1;2;3;4;5;6;7;8;9;10;11;12;13;14;15]) as Hin.
  { rewrite !elem_of_cons. lia. }
  repeat (apply elem_of_cons in Hin as [->|Hin]; [done|]). by apply elem_of_nil in Hin.
Qed.

Lemma bytes_fromhex_hexdigest bs : Forall is_byte bs → bytes_fromhex (hexdigest bs) = Some bs.
Proof.
  induction 1 as [|b bs Hb _ IH]; [done|].
  change (hexdigest (b :: bs)) with (hex_byte b ++ hexdigest bs). unfold hex_byte.
  destruct (hex_value_digit _ (land_15 (Z.shiftr b 4))) as [Hhi Hs].
  destruct (hex_value_digit _ (land_15 b)) as [Hlo _].
  cbn [app bytes_fromhex]. rewrite Hs, Hhi. simpl. rewrite Hlo. simpl. rewrite IH. simpl. do 2 f_equal.
  unfold is_byte in Hb. change 15 with (Z.ones 4). rewrite !Z.land_ones, Z.shiftr_div_pow2 by lia.
  rewrite (Z.mod_small (b / 2 ^ 4)) by (split; [apply Z.div_pos; lia | apply Z.div_lt_upper_bound; lia]).
  change (2 ^ 4) with 16. pose proof (Z.div_mod b 16). lia.
Qed.

Section evidence_lemmas.
Context `{Ed25519}.

Lemma signature_valid_sign k digest m : bytes_fromhex digest = Some m →
  signature_valid (hexdigest (public_bytes k)) (hexdigest (sign k m)) digest = true.
Proof.
  intros Hm. unfold signature_valid. rewrite Hm.
  rewrite !bytes_fromhex_hexdigest by (apply sign_shape || apply public_bytes_shape).
  by rewrite accepts_public, verify_sign.
Qed.

Lemma make_route_Ok r r' : make_LinuxResolverRoute r = Ok r' →
  ∃ a, ip_address (route_address r) = Some a ∧ is_loopback a = true ∧
    r' = {| route_address := compressed a; udp_port := udp_port r; tcp_port := tcp_port r;
            broker_cgroup_id := broker_cgroup_id r; route_executable_digest := route_executable_digest r;
            route_attestation_digest := route_attestation_digest r;
            doh_boundary_digest := doh_boundary_digest r; resolver_public_key := resolver_public_key r;
            route_signature := route_signature r |}.
Proof.
  unfold make_LinuxResolverRoute, py_ip_address. destruct (ip_address (route_address r)) as [a|]; [|done].
  simpl. intros E. apply bind_Ok in E as ([] & Hl%raise_if_Ok & E).
  repeat (apply bind_Ok in E as ([] & _ & E)). injection E as <-. exists a.
  by apply negb_false_iff in Hl.
Qed.

Lemma make_lease_Ok b b' : make_DnsBindingLease b = Ok b' →
  ∃ a, ip_address (lease_address b) = Some a ∧
    b' = lease_with b (compressed a) (issuance_receipt_digest b) (resolver_signature b).
Proof.
  unfold make_DnsBindingLease, py_ip_address. intros E. do 6 (apply bind_Ok in E as ([] & _ & E)).
  destruct (ip_address (lease_address b)) as [a|]; [|done]. injection E as <-. by exists a.
Qed.

Lemma created_route_attested key address udp tcp cgroup executable doh route :
  create_linux_resolver_route address udp tcp cgroup executable doh key = Ok route →
  resolver_route_is_attested route (hexdigest (public_bytes key)) = true ∧
  ∃ a, ip_address address = Some a ∧ is_loopback a = true ∧ route_address route = compressed a.
Proof.
  unfold create_linux_resolver_route. intros (r1 & Hr1 & Hr2)%bind_Ok.
  apply make_route_Ok in Hr1 as (a & Ha & Hla & ->). cbv zeta in Hr2.
  destruct (bytes_fromhex _) as [m|] eqn:Em; [|done].
  apply make_route_Ok in Hr2 as (a2 & Ha2 & _ & ->). cbn [route_address] in Ha, Ha2.
  rewrite (ip_address_canonical _ _ Ha) in Ha2. injection Ha2 as <-. split; [|by exists a].
  unfold resolver_route_is_attested. cbn [resolver_public_key route_attestation_digest route_signature].
  rewrite !bool_decide_true by done. by apply signature_valid_sign.
Qed.

Lemma created_lease_attested key fields lease :
  create_dns_binding_lease key fields = Ok lease →
  binding_is_attested lease (hexdigest (public_bytes key)) = true ∧
  ∃ b, ip_address (lease_address fields) = Some b ∧ lease_address lease = compressed b.
Proof.
  unfold create_dns_binding_lease. intros (b1 & Hb1 & Hb2)%bind_Ok.
  apply make_lease_Ok in Hb1 as (b & Hb & ->). cbv zeta in Hb2.
  destruct (bytes_fromhex _) as [m|] eqn:Em; [|done].
  apply make_lease_Ok in Hb2 as (b2 & Hb2 & ->). cbn [lease_address lease_with] in Hb, Hb2.
  rewrite (ip_address_canonical _ _ Hb) in Hb2. injection Hb2 as <-. split; [|by exists b].
  unfold binding_is_attested. cbn [issuance_receipt_digest resolver_signature lease_with].
  rewrite bool_decide_true by done. by apply signature_valid_sign.
Qed.
End evidence_lemmas.

(** The resolver's own evidence is accepted: under the canonical form of its
    public key, every route and every binding lease that can be created is
    attested, with its address in canonical form. *)
Theorem resolver_evidence_attested `{Ed25519} (key : private_key) (address executable doh : pystr)
    (udp tcp cgroup : Z) (route : LinuxResolverRoute) (fields lease : DnsBindingLease)
    (Hroute : create_linux_resolver_route address udp tcp cgroup executable doh key = Ok route)
    (Hlease : create_dns_binding_lease key fields = Ok lease) :
  let trusted := hexdigest (public_bytes key) in
  canonical_trusted_resolver_public_key trusted = Ok trusted ∧
  resolver_route_is_attested route trusted = true ∧ binding_is_attested lease trusted = true ∧
  ∃ a b, ip_address address = Some a ∧ is_loopback a = true ∧ route_address route = compressed a ∧
    ip_address (lease_address fields) = Some b ∧ lease_address lease = compressed b.
Proof.
  apply created_route_attested in Hroute as (Hr & a & ? & ? & ?).
  apply created_lease_attested in Hlease as (Hl & b & ? & ?).
  split; [|split; [done|]; split; [done|]; by exists a, b].
  destruct (public_bytes_shape key) as [Hlen Hbytes].
  unfold canonical_trusted_resolver_public_key. rewrite hexdigest_length, Hlen, bytes_fromhex_hexdigest by done.
  simpl. rewrite accepts_public. simpl. by rewrite bool_decide_true.
Qed.

(** ** Lowering preserves decisions *)

Lemma elem_of_entry_slots x p range :
  (p, range) ∈ entry_slots x ↔ p ∈ protocols x ∧ p ∈ [TCP; UDP] ∧ range ∈ lowered_ports x.
Proof.
  unfold entry_slots. rewrite list_elem_of_join. setoid_rewrite list_elem_of_fmap. split.
  - intros (l & Hl & q & -> & Hq). destruct (py_in q [TCP; UDP]) eqn:E; [|by apply elem_of_nil in Hl].
    apply py_in_true in E. apply list_elem_of_fmap in Hl as (y & [= -> ->] & Hy). done.
  - intros (Hp & Hpr & Hr). eexists. split; [|by exists p].
    rewrite (proj2 (py_in_true _ _) Hpr). apply list_elem_of_fmap. by exists range.
Qed.

(** What an entry contributes to a flow to [a] that is bound to the host [oh]. *)
Definition entry_action (e : LinuxL4RuleEntry + LinuxHostRuleEntry) : NetworkAction :=
  match e with inl e => l4_action e | inr e => host_action e end.
Definition entry_hits (pr : NetworkProtocol) (a : ip) (p now : Z) (oh : option pystr)
    (e : LinuxL4RuleEntry + LinuxHostRuleEntry) : Prop :=
  match e with
  | inl e => l4_entry_matches pr a p now e = Ok true
  | inr e => ∃ h, oh = Some h ∧ host_entry_matches h pr p now e = true
  end.
Definition entry_returns (pr : NetworkProtocol) (a : ip) (p now : Z)
    (e : LinuxL4RuleEntry + LinuxHostRuleEntry) : Prop :=
  match e with inl e => is_ok (l4_entry_matches pr a p now e) = true | inr _ => True end.

Lemma l4_entry_matches_net x n slot pr a p now :
  ip_network (net_compressed n) = Some n →
  l4_entry_matches pr a p now (l4_entry x n slot) =
  Ok (bool_decide (slot.1 = pr) && ((slot.2.1 <=? p) && (p <=? slot.2.2))
      && not_lapsed (expires_at_epoch_seconds x) now && in_network a n).
Proof.
  intros Hn. unfold l4_entry_matches, l4_entry, py_ip_network. simpl. rewrite Hn.
  case_bool_decide; simpl; [|done]. destruct (_ && (p <=? _)); simpl; [|done].
  by destruct (not_lapsed _ now).
Qed.

(** The destinations a flow asks for: the address, and the host it is bound to. *)
Definition flow_destinations (oh : option pystr) (v : pystr) : list Destination :=
  match oh with
  | Some h => [{| dest_kind := HOST; dest_value := h |}; {| dest_kind := IP; dest_value := v |}]
  | None => [{| dest_kind := IP; dest_value := v |}]
  end.

Section lower_udp.
Context `{PyUnicode, IdnaCodec}.

Lemma host_destination_matches d q :
  dest_kind d = HOST ∨ dest_kind q = HOST → destination_matches d q = Ok (bool_decide (d = q)).
Proof.
  intros Hk. unfold destination_matches. case_bool_decide as E; [done|].
  destruct Hk as [->| ->]; [done|]. by destruct (dest_kind d).
Qed.

(** What matches a host destination. *)
Lemma lower_udp_host x d oh v a pr p now : dest_kind d = HOST → pr ∈ [TCP; UDP] →
  (∃ slot, slot ∈ entry_slots x ∧ entry_hits pr a p now oh (inr (host_entry x (dest_value d) slot))) ↔
  not_lapsed (expires_at_epoch_seconds x) now = true ∧ pr ∈ protocols x ∧
  (∃ range, range ∈ lowered_ports x ∧ range.1 <= p <= range.2) ∧
  ∃ q, q ∈ flow_destinations oh v ∧ destination_matches d q = Ok true.
Proof.
  intros Kd Hpr. split.
  - intros ([pr' range] & (Hp1 & Hp2 & Hr)%elem_of_entry_slots & h & -> & Hm).
    unfold host_entry_matches, host_entry in Hm. cbn in Hm. split_bool.
    repeat match goal with E : bool_decide _ = true |- _ => apply bool_decide_eq_true in E end.
    rewrite !Z.leb_le in *. subst pr'. split; [done|]. split; [done|]. split; [by exists range|].
    exists {| dest_kind := HOST; dest_value := h |}. split; [left|].
    rewrite host_destination_matches by (by left). rewrite bool_decide_true; [done|].
    destruct d; simpl in *; congruence.
  - intros (Hlap & Hp & (range & Hr & Hrp) & q & Hqf & Hm).
    rewrite host_destination_matches in Hm by (by left). injection Hm as Hm.
    apply bool_decide_eq_true in Hm as <-.
    destruct oh as [h|]; [|by apply list_elem_of_singleton in Hqf; subst d].
    apply elem_of_cons in Hqf as [->|Hqf]; [|by apply list_elem_of_singleton in Hqf; subst d].
    exists (pr, range). split; [by apply elem_of_entry_slots|].
    exists h. split; [done|]. unfold host_entry_matches, host_entry. cbn.
    rewrite !bool_decide_true, Hlap by done.
    by rewrite (proj2 (Z.leb_le _ _) (proj1 Hrp)), (proj2 (Z.leb_le _ _) (proj2 Hrp)).
Qed.

(** What matches an address or network destination. *)
Lemma lower_udp_net x d oh v a n pr p now : dest_kind d ≠ HOST → pr ∈ [TCP; UDP] →
  ip_network (net_compressed n) = Some n →
  destination_matches d {| dest_kind := IP; dest_value := v |} = Ok (in_network a n) →
  (∃ slot, slot ∈ entry_slots x ∧ entry_hits pr a p now oh (inl (l4_entry x n slot))) ↔
  not_lapsed (expires_at_epoch_seconds x) now = true ∧ pr ∈ protocols x ∧
  (∃ range, range ∈ lowered_ports x ∧ range.1 <= p <= range.2) ∧
  ∃ q, q ∈ flow_destinations oh v ∧ destination_matches d q = Ok true.
Proof.
  intros Kd Hpr Hn Hdm. unfold entry_hits. setoid_rewrite l4_entry_matches_net; [|done]. split.
  - intros ([pr' range] & (Hp1 & Hp2 & Hr)%elem_of_entry_slots & Hm). injection Hm as Hm.
    cbn in Hm. split_bool.
    repeat match goal with E : bool_decide _ = true |- _ => apply bool_decide_eq_true in E end.
    rewrite !Z.leb_le in *. subst pr'. split; [done|]. split; [done|]. split; [by exists range|].
    exists {| dest_kind := IP; dest_value := v |}. split; [|by rewrite Hdm; f_equal].
    destruct oh; [right|]; left.
  - intros (Hlap & Hp & (range & Hr & Hrp) & q & Hqf & Hm).
    assert (q = {| dest_kind := IP; dest_value := v |}) as ->.
    { destruct oh as [h|]; [|by apply list_elem_of_singleton in Hqf].
      apply elem_of_cons in Hqf as [->|Hqf]; [|by apply list_elem_of_singleton in Hqf].
      rewrite host_destination_matches in Hm by (by right). injection Hm as ->%bool_decide_eq_true. done. }
    rewrite Hdm in Hm. injection Hm as Hm. exists (pr, range). split; [by apply elem_of_entry_slots|].
    cbn. rewrite bool_decide_true, Hlap, Hm by done.
    by rewrite (proj2 (Z.leb_le _ _) (proj1 Hrp)), (proj2 (Z.leb_le _ _) (proj2 Hrp)).
Qed.

(** What the entries of one destination match. *)
Lemma lower_udp_destination_spec x d l oh v a pr p now :
  destination_ok d → dest_unscoped d → destination_ok {| dest_kind := IP; dest_value := v |} →
  ip_address v = Some a → unscoped a → pr ∈ [TCP; UDP] →
  lower_udp_destination x d = Ok l →
  (∀ e, e ∈ l → entry_action e = rule_action x ∧ entry_returns pr a p now e) ∧
  ((∃ e, e ∈ l ∧ entry_hits pr a p now oh e) ↔
   not_lapsed (expires_at_epoch_seconds x) now = true ∧ pr ∈ protocols x ∧
   (∃ range, range ∈ lowered_ports x ∧ range.1 <= p <= range.2) ∧
   ∃ q, q ∈ flow_destinations oh v ∧ destination_matches d q = Ok true).
Proof.
  intros Hd Hu Hq Ha Hua Hpr Hl.
  assert (∀ f : NetworkProtocol * (Z * Z) → LinuxL4RuleEntry + LinuxHostRuleEntry,
    (∃ e, e ∈ f <$> entry_slots x ∧ entry_hits pr a p now oh e) ↔
    ∃ slot, slot ∈ entry_slots x ∧ entry_hits pr a p now oh (f slot)) as Hmap.
  { intros f. setoid_rewrite list_elem_of_fmap. naive_solver. }
  unfold lower_udp_destination in Hl. destruct (dest_kind d) eqn:Kd; [| | |done].
  { injection Hl as <-. split; [by intros e (slot & -> & _)%list_elem_of_fmap|].
    rewrite Hmap. by apply lower_udp_host. }
  all: destruct (lowered_network d {| dest_kind := IP; dest_value := v |} a Hd Hu ltac:(eauto) Hq eq_refl Ha Hua)
      as (n & Hlax & Hn & Hm);
    assert (l = (λ slot, inl (l4_entry x n slot)) <$> entry_slots x) as ->
      by (unfold py_ip_network_lax in Hl; rewrite Hlax in Hl; destruct (entry_slots x);
          simpl in Hl; by injection Hl as <-);
    split; [intros e (slot & -> & _)%list_elem_of_fmap; split; [done|];
            unfold entry_returns; by rewrite l4_entry_matches_net|];
    rewrite Hmap; apply lower_udp_net; [by rewrite Kd|done..].
Qed.

Lemma lower_udp_rule_spec t x es r oh v a now :
  lowerable x → requested_destinations r = Ok (flow_destinations oh v) →
  Forall destination_ok (flow_destinations oh v) → 1 <= port r <= 65535 →
  process_tree r = t → protocol r ∈ [TCP; UDP] → ip_address v = Some a → unscoped a →
  lower_udp_rule t x = Ok es →
  (∀ e, e ∈ es → entry_action e = rule_action x ∧ entry_returns (protocol r) a (port r) now e) ∧
  ((∃ e, e ∈ es ∧ entry_hits (protocol r) a (port r) now oh e) ↔ rule_matches x r (now * 1000) = Ok true) ∧
  (rule_matches x r (now * 1000) = Ok true → rule_action x ≠ APPROVE).
Proof.
  intros [Hok Hun] Hreq Hds Hp <- Hpr Ha Hua Hl.
  assert (destination_ok {| dest_kind := IP; dest_value := v |}) as Hq.
  { rewrite Forall_forall in Hds. apply Hds. destruct oh; [right|]; left. }
  rewrite (rule_matches_flow x r _ now Hreq Hds Hp Hok). unfold lower_udp_rule in Hl.
  apply bind_Ok in Hl as ([] & _ & Hl).
  destruct (negb (py_in UDP (protocols x)) && negb (py_in TCP (protocols x))) eqn:Hin.
  { injection Hl as <-. apply andb_true_iff in Hin as [Hudp Htcp].
    rewrite negb_true_iff, py_in_false in Hudp, Htcp.
    assert (protocol r ∉ protocols x).
    { apply elem_of_cons in Hpr as [E|E%list_elem_of_singleton]; by rewrite E. }
    split; [by intros e ?%elem_of_nil|]. split; [|tauto].
    split; [by intros (e & ?%elem_of_nil & _) | tauto]. }
  apply bind_Ok in Hl as ([] & Happ%raise_if_Ok & Hl). apply bool_decide_eq_false in Happ.
  destruct (out_of_scope x (process_tree r)); [injection Hl as <-; set_solver|].
  apply bind_Ok in Hl as (ess & [Htot Hjoin]%map_result_join & Hl). injection Hl as <-.
  rewrite Forall_forall in Hok, Hun.
  assert (Hspec := λ d l Hdx Hdl, lower_udp_destination_spec x d l oh v a (protocol r) (port r) now
    (Hok d Hdx) (Hun d Hdx) Hq Ha Hua Hpr Hdl).
  split; [|split; [|done]].
  - intros e (d & l & Hdx & Hdl & He)%Hjoin. by apply (Hspec d l Hdx Hdl).
  - split.
    + intros (e & He & Hm). apply Hjoin in He as (d & l & Hdx & Hdl & He).
      destruct (proj1 (proj2 (Hspec d l Hdx Hdl)) (ex_intro _ e (conj He Hm))) as (? & ? & ? & q & ? & ?).
      do 4 (split; [done|]). by exists d, q.
    + intros (Hlap & Hpx & Hr & _ & d & q & Hdx & Hqf & Hdm). destruct (Htot d Hdx) as [l Hdl].
      destruct (proj2 (proj2 (Hspec d l Hdx Hdl))) as (e & He & Hm); [by eauto 10|].
      exists e. split; [|done]. apply Hjoin. eauto.
Qed.
End lower_udp.

Section installed.
Context `{Ed25519}.

Lemma canonical_key_same k k' : canonical_trusted_resolver_public_key k = Ok k' → k' = k.
Proof.
  unfold canonical_trusted_resolver_public_key. intros (_ & _ & E)%bind_Ok.
  destruct (bytes_fromhex k); [|done]. inv_ok. done.
Qed.

(** The hook sees flows of the address's family, and TCP only on connect. *)
Definition hook_admits (f : socket_flow) (a : ip) : Prop :=
  contains (if ip_version a =? 4 then $"4" else $"6") (LinuxSocketHook_value (flow_hook f)) = true ∧
  flow_protocol f ∈ [TCP; UDP] ∧ (flow_protocol f = TCP → flow_hook f ∈ [CONNECT4; CONNECT6]).

(** A compiled artifact, installed, decides every flow of its workload that a
    hook can see. *)
Lemma compile_udp_Ok policy t tcp cgroup route key art :
  compile_linux_udp_dns_policy policy t tcp cgroup route key = Ok art →
  udp_default_action art = DENY ∧ resolver_route art = route ∧ workload_cgroup_id art = cgroup ∧
  trusted_resolver_public_key art = key ∧ udp_process_tree_digest art = process_tree_digest t ∧
  (∀ f a, ip_address (flow_address f) = Some a → hook_admits f a →
     evaluate_linux_udp_dns_artifact art t cgroup (udp_artifact_digest art) f =
     decide_socket art t cgroup key a f) ∧
  (∀ x, x ∈ rules policy → ∃ es, lower_udp_rule t x = Ok es) ∧
  (∀ e, e ∈ (inl <$> l4_entries art) ++ (inr <$> host_entries art) ↔
     ∃ x es, x ∈ rules policy ∧ lower_udp_rule t x = Ok es ∧ e ∈ es).
Proof.
  unfold compile_linux_udp_dns_policy. intros E. do 4 (apply bind_Ok in E as ([] & _ & E)).
  apply bind_Ok in E as (key' & Hkey & E). pose proof (canonical_key_same _ _ Hkey) as ->.
  apply bind_Ok in E as ([] & Hatt%raise_if_Ok & E). apply negb_false_iff in Hatt.
  apply bind_Ok in E as (ess & [Htot Hjoin]%map_result_join & E).
  apply bind_Ok in E as ([] & _ & E). injection E as <-. simpl.
  do 5 (split; [done|]). split; [|split; [done|]].
  - intros f a Ha (Hfam & Hpr & Hconn). unfold evaluate_linux_udp_dns_artifact.
    cbn [trusted_resolver_public_key resolver_route udp_schema_version udp_decision_semantics
      resolver_semantics udp_default_action udp_process_tree udp_process_tree_digest workload_cgroup_id].
    rewrite Hkey. cbn [mbind result_bind].
    rewrite (bool_decide_true (udp_artifact_digest _ = _)) by done. cbn [raise_if negb mbind result_bind].
    rewrite Hatt, !bool_decide_true by done. cbn [raise_if negb orb mbind result_bind].
    rewrite Z.eqb_refl. unfold py_ip_address. rewrite Ha. cbn [raise_if negb orb mbind result_bind].
    rewrite Hfam, (proj2 (py_in_true _ _) Hpr). cbn [negb].
    case_bool_decide as Ht; [|done]. by rewrite (proj2 (py_in_true _ _) (Hconn Ht)).
  - intros e. rewrite elem_of_app, !list_elem_of_fmap, <- Hjoin. setoid_rewrite elem_of_sort_on.
    setoid_rewrite list_elem_of_omap. destruct e as [e|e]; split.
    + intros [(y & [= ->] & [z|z] & Hz & [= ->])|(y & ? & _)]; done.
    + intros He. left. exists e. split; [done|]. by exists (inl e).
    + intros [(y & ? & _)|(y & [= ->] & [z|z] & Hz & [= ->])]; done.
    + intros He. right. exists e. split; [done|]. by exists (inr e).
Qed.

(** Away from the resolver's route and the guarded ports, the decision is
    deny-wins over every entry that hits. *)
Lemma decide_socket_plain art t cgroup key a f :
  udp_default_action art = DENY → is_Some (ip_address (route_address (resolver_route art))) →
  (flow_port f ∉ [53; 853; 443]) →
  (ip_address (route_address (resolver_route art)) = Some a → flow_port f ≠
     if bool_decide (flow_protocol f = TCP) then tcp_port (resolver_route art) else udp_port (resolver_route art)) →
  Forall (entry_returns (flow_protocol f) a (flow_port f) (flow_now f)) (inl <$> l4_entries art) →
  let oh := lease_host <$> valid_binding art t cgroup (compressed a) (flow_port f) (flow_protocol f)
              (flow_now f) key (flow_binding f) in
  ∃ hits, (∀ act, act ∈ hits ↔ ∃ e, e ∈ (inl <$> l4_entries art) ++ (inr <$> host_entries art) ∧
             entry_hits (flow_protocol f) a (flow_port f) (flow_now f) oh e ∧ act = entry_action e) ∧
    decide_socket art t cgroup key a f =
    Ok (if py_in DENY hits then DENY else if py_in ALLOW hits then ALLOW else DENY).
Proof.
  intros Hdef [ra Hra] Hport Hroute Hret oh. unfold decide_socket, py_ip_address. rewrite Hra.
  cbn [mbind result_bind]. rewrite Forall_fmap in Hret.
  destruct (filter_result_total (l4_entry_matches (flow_protocol f) a (flow_port f) (flow_now f)) (l4_entries art))
    as [matched Hm]; [exact Hret|].
  rewrite Hm. cbn [mbind result_bind].
  assert (bool_decide (a = ra) && (flow_port f =? (if bool_decide (flow_protocol f = TCP)
            then tcp_port (resolver_route art) else udp_port (resolver_route art))) = false) as ->.
  { apply andb_false_iff. destruct (bool_decide_reflect (a = ra)) as [<-|Ea]; [right | by left]. apply Z.eqb_neq. by apply Hroute. }
  rewrite !not_elem_of_cons in Hport. destruct Hport as (H53 & H853 & H443 & _).
  assert (py_in (flow_port f) [53; 853] = false) as ->.
  { apply py_in_false. intros [E|E%list_elem_of_singleton]%elem_of_cons; done. }
  rewrite (proj2 (Z.eqb_neq _ _) H443).
  rewrite !andb_false_r. cbn [andb negb app]. rewrite app_nil_r.
  set (valid := valid_binding _ _ _ _ _ _ _ _ _) in *.
  set (host_hits := match valid with Some _ => _ | None => _ end).
  exists ((l4_action <$> matched) ++ host_hits). split.
  - apply filter_result_Ok in Hm as [Hm _]. intros act. rewrite elem_of_app, list_elem_of_fmap. split.
    + intros [(e & -> & [He Hhit]%Hm)|Hhost].
      * exists (inl e). split; [|done]. apply elem_of_app. left. by apply list_elem_of_fmap_2.
      * unfold host_hits in Hhost. destruct valid as [b|] eqn:Ev; [|by apply elem_of_nil in Hhost].
        apply list_elem_of_fmap in Hhost as (e & -> & [Hhit He]%list_elem_of_filter).
        exists (inr e). split; [|by split; [exists (lease_host b)|]].
        apply elem_of_app. right. by apply list_elem_of_fmap_2.
    + intros (e & [(y & -> & Hy)%list_elem_of_fmap|(y & -> & Hy)%list_elem_of_fmap]%elem_of_app & Hhit & ->).
      * left. exists y. split; [done|]. by apply Hm.
      * right. destruct Hhit as (h & Hoh & Hh). unfold host_hits, oh in *.
        destruct valid as [b|]; [|done]. injection Hoh as <-.
        apply list_elem_of_fmap. exists y. split; [done|]. by apply list_elem_of_filter.
  - rewrite Hdef. assert (∀ l k : list NetworkAction, py_in DENY l = true → py_in DENY (l ++ k) = true) as Happ.
    { intros l k. rewrite !py_in_true. set_solver. }
    destruct (py_in DENY (l4_action <$> matched)) eqn:E; [|done]. by rewrite Happ.
Qed.
End installed.

(** The request's own destination is the first one asked for. *)
Lemma requested_head `{PyUnicode, IdnaCodec} r oh v :
  requested_destinations r = Ok (flow_destinations oh v) →
  destination r ∈ flow_destinations oh v ∧ (oh = None → dest_kind (destination r) = IP).
Proof.
  unfold requested_destinations. intros E.
  assert (head (flow_destinations oh v) = Some (destination r)) as Hh.
  { destruct (dest_kind (destination r)); [destruct (connected_address r)|..]; inv_ok;
      by match goal with E : _ = flow_destinations _ _ |- _ => rewrite <- E end. }
  destruct oh; injection Hh as <-; split; [left | done | left | done].
Qed.

Lemma destination_ok_compressed `{PyUnicode, IdnaCodec} v a :
  destination_ok {| dest_kind := IP; dest_value := v |} → ip_address v = Some a → compressed a = v.
Proof.
  intros Hd Ha. destruct (destination_ok_text _ Hd eq_refl) as (b & Hb & E). simpl in *. congruence.
Qed.

(** C15: The two lowered planes decide like the broker.  Let a constructed
    policy without scoped IPv6 destinations compile for a process tree and a
    route, and let a TCP or UDP flow of that tree go to an address without a
    scope, outside the guarded ports 53, 443 and 853 and not to the resolver's
    route, with the address family and protocol its hook admits.  Let the broker
    be asked for the same flow: a request whose destinations are the address
    and, when a valid lease binds the flow to a host, that host, in which case
    the broker's own bindings verify the request too; at a positive time and
    with a lifetime in the broker's range.  Then the installed artifact and the
    broker's evaluation both return, and give the flow the same action.
    (Scoped destinations are excluded because the lowering drops the scope, so
    that a rule for [fe80::1%eth0] would admit [fe80::1%wlan0].) *)
Theorem udp_dns_lowering_preserves `{PyUnicode, IdnaCodec, Ed25519} (policy : NetworkPolicy)
    (t : ProcessTreeIdentity) (tcp : LinuxTcpPolicyArtifact) (cgroup : Z) (route : LinuxResolverRoute)
    (key : pystr) (art : LinuxUdpDnsPolicyArtifact) (r : NetworkFlowRequest) (f : socket_flow)
    (oh : option pystr) (a : ip) (ttl : Z) (bs : list DnsResolutionBinding)
    (Hpol : policy_ok policy)
    (Hun : Forall (λ x, Forall dest_unscoped (destinations x)) (rules policy))
    (Hc : compile_linux_udp_dns_policy policy t tcp cgroup route key = Ok art)
    (Hroute : make_LinuxResolverRoute route = Ok route)
    (Hr : make_NetworkFlowRequest r = Ok r) (Hconn : connected_ok r)
    (Hflow : process_tree r = t ∧ protocol r = flow_protocol f ∧ port r = flow_port f)
    (Hreq : requested_destinations r = Ok (flow_destinations oh (flow_address f)))
    (Hds : Forall destination_ok (flow_destinations oh (flow_address f)))
    (Ha : ip_address (flow_address f) = Some a) (Hua : unscoped a) (Hhook : hook_admits f a)
    (Hport : flow_port f ∉ [53; 853; 443])
    (Hoff : route_address route = flow_address f → flow_port f ≠ tcp_port route ∧ flow_port f ≠ udp_port route)
    (Hbound : lease_host <$> valid_binding art t cgroup (flow_address f) (flow_port f) (flow_protocol f)
                (flow_now f) key (flow_binding f) = oh)
    (Hverified : is_Some oh → ∃ b, verified_dns_binding r bs (flow_now f * 1000) = Ok (Some b))
    (Hnow : 0 < flow_now f) (Httl : 1 <= ttl <= 300000) :
  ∃ ev, evaluate_policy policy r (flow_now f * 1000) ttl bs = Ok ev ∧
    evaluate_linux_udp_dns_artifact art t cgroup (udp_artifact_digest art) f = Ok (action (decision ev)).
Proof.
  destruct Hflow as (Ht & Hpr & Hp).
  assert (1 <= port r <= 65535) as Hprange.
  { unfold make_NetworkFlowRequest, port_in_range in Hr. inv_ok. split_bool. lia. }
  destruct (requested_head r oh _ Hreq) as [Hhead Hkind].
  assert (destination_ok (destination r)) as Hd by (rewrite Forall_forall in Hds; by apply Hds).
  assert (compressed a = flow_address f) as Hcomp.
  { apply destination_ok_compressed; [|done]. rewrite Forall_forall in Hds. apply Hds.
    destruct oh; [right|]; left. }
  destruct (evaluate_policy_returns policy r (flow_now f * 1000) ttl bs) as [ev Hev]; [done..|lia|done|].
  exists ev. split; [done|].
  destruct (evaluate_policy_Ok _ _ _ _ _ _ Hev) as (ms & bind & Hms & Hbind & -> & _).
  destruct (matching_rules_Ok _ _ _ _ Hms) as [Hin _].
  destruct (compile_udp_Ok _ _ _ _ _ _ _ Hc) as (Hdef & Hrt & _ & _ & _ & Heval & Htot & Hes).
  rewrite (Heval f a Ha Hhook).
  assert (∀ x, x ∈ rules policy → lowerable x) as Hlow.
  { destruct Hpol as [_ Hpol]. rewrite Forall_forall in Hpol, Hun. intros x Hx.
    split; [by apply Hpol | by apply Hun]. }
  assert (Hspec := λ x es Hx Hl, lower_udp_rule_spec t x es r oh (flow_address f) a (flow_now f)
    (Hlow x Hx) Hreq Hds Hprange Ht ltac:(rewrite Hpr; apply Hhook) Ha Hua Hl).
  rewrite Hpr, Hp in Hspec. apply make_route_Ok in Hroute as (ra & Hra & _ & Eroute).
  destruct (decide_socket_plain art t cgroup key a f) as (hits & Hhits & ->);
    [done|by rewrite Hrt, Hra|done| | |].
  { rewrite Hrt, Hra. intros [= ->]. destruct Hoff as [Htcp Hudp]; [|by case_bool_decide].
    rewrite Eroute. done. }
  { apply Forall_fmap, Forall_forall. intros e He.
    destruct (proj1 (Hes (inl e))) as (x & es & Hx & Hl & Hel).
    { apply elem_of_app. left. by apply list_elem_of_fmap_2. }
    by apply (Hspec x es Hx Hl). }
  rewrite Hcomp, Hbound in Hhits. rewrite (decide_flow_deny_wins ms r bind).
  - by rewrite !(py_in_ext _ _ _ (same_actions entry_action ms _ _ hits _ _ _ Hin Hhits Hes Htot
      (λ x l Hx Hl, conj (λ e He, proj1 (proj1 (Hspec x l Hx Hl) e He)) (proj1 (proj2 (Hspec x l Hx Hl)))))).
  - rewrite Hpr. destruct Hhook as (_ & [->| ->%list_elem_of_singleton]%elem_of_cons & _); done.
  - destruct oh as [h|]; [right | left].
    + destruct (Hverified ltac:(eauto)) as [b Hb]. rewrite Hbind in Hb. by injection Hb as ->.
    + unfold protocol_requires_dns_binding. by rewrite Hkind.
  - apply Forall_forall. intros x [Hx Hm]%Hin. destruct (Htot x Hx) as [es Hl].
    by apply (Hspec x es Hx Hl).
Qed.

Section allowed.
Context `{Ed25519} (art : LinuxUdpDnsPolicyArtifact) (t : ProcessTreeIdentity) (cgroup : Z).
Context (key : pystr) (a : ip) (f : socket_flow).

(** The flow ends on the resolver's route. *)
Definition on_route (ra : ip) : Prop :=
  a = ra ∧ flow_port f = if bool_decide (flow_protocol f = TCP) then tcp_port (resolver_route art)
                         else udp_port (resolver_route art).
(** The flow carries an attested lease that matches it. *)
Definition bound_by (b : DnsBindingLease) : Prop :=
  flow_binding f = Some b ∧ binding_is_attested b key = true ∧
  binding_matches art t cgroup (compressed a) (flow_port f) (flow_protocol f) (flow_now f) b = true.
(** An address entry applies to the flow. *)
Definition l4_applies (e : LinuxL4RuleEntry) : Prop :=
  e ∈ l4_entries art ∧ l4_entry_matches (flow_protocol f) a (flow_port f) (flow_now f) e = Ok true.

Lemma valid_binding_Some b :
  valid_binding art t cgroup (compressed a) (flow_port f) (flow_protocol f) (flow_now f) key (flow_binding f)
  = Some b ↔ bound_by b.
Proof.
  unfold valid_binding, bound_by. destruct (flow_binding f) as [c|]; [|naive_solver].
  destruct (binding_is_attested c key && _) eqn:E.
  - split; [intros [= <-]; apply andb_true_iff in E; naive_solver | naive_solver].
  - split; [done|]. intros ([= ->] & Hb1 & Hb2). rewrite Hb1, Hb2 in E. done.
Qed.

Lemma decide_socket_allow :
  udp_default_action art = DENY → decide_socket art t cgroup key a f = Ok ALLOW →
  ∃ ra, ip_address (route_address (resolver_route art)) = Some ra ∧
    (∀ e, l4_applies e → l4_action e ≠ DENY) ∧
    (flow_port f ∈ [53; 853] → on_route ra) ∧
    (flow_port f = 443 → flow_intent f = Some (doh_boundary_digest (resolver_route art)) ∨
       (¬ on_route ra ∧ ∃ b, bound_by b)) ∧
    (on_route ra ∨ (∃ e, l4_applies e ∧ l4_action e = ALLOW) ∨
     ∃ b e, bound_by b ∧ e ∈ host_entries art ∧ host_action e = ALLOW ∧
       host_entry_matches (lease_host b) (flow_protocol f) (flow_port f) (flow_now f) e = true).
Proof.
  intros Hdef E. unfold decide_socket, py_ip_address in E.
  destruct (ip_address (route_address (resolver_route art))) as [ra|]; [|done].
  exists ra. split; [done|]. cbn [mbind result_bind] in E.
  apply bind_Ok in E as (matched & [Hm _]%filter_result_Ok & E).
  set (onr := bool_decide (a = ra) && _) in E.
  assert (onr = true ↔ on_route ra) as Hon.
  { unfold onr, on_route. by rewrite andb_true_iff, bool_decide_eq_true, Z.eqb_eq. }
  clearbody onr. set (valid := valid_binding _ _ _ _ _ _ _ _ _) in E.
  destruct (py_in DENY (l4_action <$> matched)) eqn:Hdeny; [done|]. apply py_in_false in Hdeny.
  destruct (py_in (flow_port f) [53; 853] && negb onr) eqn:H53; [done|].
  destruct (onr && (flow_port f =? 443) && negb _) eqn:H443; [done|].
  destruct (negb onr && (flow_port f =? 443) && negb (bool_decide (is_Some valid)) && negb _) eqn:Hdoh; [done|].
  injection E as E. split; [|split; [|split]].
  - intros e He Hact. apply Hdeny, list_elem_of_fmap. exists e. split; [done|]. by apply Hm.
  - intros Hp. rewrite (proj2 (py_in_true _ _) Hp) in H53. apply Hon. by destruct onr.
  - intros Hp. rewrite (proj2 (Z.eqb_eq _ _) Hp) in H443, Hdoh.
    destruct (bool_decide_reflect (flow_intent f = Some (doh_boundary_digest (resolver_route art)))); [by left|].
    right. destruct onr; [done|]. split; [by rewrite <- Hon|]. simpl in Hdoh.
    case_bool_decide as Hv; [|done]. destruct Hv as [b Hb]. exists b. by apply valid_binding_Some.
  - rewrite Hdef in E. destruct (py_in DENY _); [done|]. destruct (py_in ALLOW _) eqn:Hal; [|done].
    apply py_in_true in Hal. rewrite !elem_of_app in Hal. destruct Hal as [[Hl4|Hr]|Hhost].
    + apply list_elem_of_fmap in Hl4 as (e & He & ?%Hm). right. left. by exists e.
    + left. apply Hon. destruct onr; [done | by apply elem_of_nil in Hr].
    + right. right. destruct valid as [b|] eqn:Hv; [|by apply elem_of_nil in Hhost].
      apply list_elem_of_fmap in Hhost as (e & He & [? ?]%list_elem_of_filter).
      exists b, e. split; [by apply valid_binding_Some | done].
Qed.
End allowed.

(** What an allowed socket operation rests on, whatever the artifact: the
    artifact is the installed one, with an attested resolver route and the
    deny-by-default semantics, the flow belongs to its process tree and
    workload, no unexpired entry for the address denies it, plain DNS ports are
    reached on the resolver's route only, port 443 needs the declared DoH
    intent or a valid binding, and what allows the flow is the route itself, an
    unexpired address entry, or an unexpired host entry for the host of an
    attested lease that binds this address, process tree and workload. *)
Theorem socket_allow_justified `{Ed25519} (art : LinuxUdpDnsPolicyArtifact) (t : ProcessTreeIdentity)
    (cgroup : Z) (installed : pystr) (f : socket_flow)
    (Hallow : evaluate_linux_udp_dns_artifact art t cgroup installed f = Ok ALLOW) :
  let route := resolver_route art in
  let key := trusted_resolver_public_key art in
  udp_artifact_digest art = installed ∧ resolver_route_is_attested route key = true ∧
  udp_default_action art = DENY ∧
  process_tree_digest t = udp_process_tree_digest art ∧ cgroup = workload_cgroup_id art ∧
  ∃ a ra, ip_address (flow_address f) = Some a ∧ hook_admits f a ∧
    ip_address (route_address route) = Some ra ∧
    (∀ e, l4_applies art a f e → l4_action e ≠ DENY) ∧
    (flow_port f ∈ [53; 853] → on_route art a f ra) ∧
    (flow_port f = 443 → flow_intent f = Some (doh_boundary_digest route) ∨
       (¬ on_route art a f ra ∧ ∃ b, bound_by art t cgroup key a f b)) ∧
    (on_route art a f ra ∨ (∃ e, l4_applies art a f e ∧ l4_action e = ALLOW) ∨
     ∃ b e, bound_by art t cgroup key a f b ∧ e ∈ host_entries art ∧ host_action e = ALLOW ∧
       host_entry_matches (lease_host b) (flow_protocol f) (flow_port f) (flow_now f) e = true).
Proof.
  intros route key. unfold evaluate_linux_udp_dns_artifact in Hallow.
  apply bind_Ok in Hallow as (key' & Hkey & Hallow). apply canonical_key_same in Hkey as ->.
  apply bind_Ok in Hallow as ([] & Hdig%raise_if_Ok & Hallow).
  apply bind_Ok in Hallow as ([] & Hshape%raise_if_Ok & Hallow).
  apply negb_false_iff, bool_decide_eq_true in Hdig. split_bool.
  repeat match goal with E : bool_decide _ = true |- _ => apply bool_decide_eq_true in E end.
  destruct (negb (bool_decide (process_tree_digest t = _)) || _) eqn:Hid; [done|]. split_bool.
  repeat match goal with E : bool_decide _ = true |- _ => apply bool_decide_eq_true in E end.
  match goal with E : (cgroup =? _) = true |- _ => apply Z.eqb_eq in E end.
  do 5 (split; [done|]).
  apply bind_Ok in Hallow as (a & Ha & Hallow). unfold py_ip_address in Ha.
  destruct (ip_address (flow_address f)) as [a'|]; [injection Ha as ->|done].
  destruct (contains _ _) eqn:Hfam; [|done]. destruct (py_in (flow_protocol f) _) eqn:Hpr; [|done].
  apply py_in_true in Hpr. cbn [negb] in Hallow.
  destruct (bool_decide (flow_protocol f = TCP) && negb (py_in (flow_hook f) _)) eqn:Hconn; [done|].
  apply decide_socket_allow in Hallow as (ra & Hra & Hall); [|done].
  exists a, ra. split; [done|]. split; [|done]. split; [done|]. split; [done|]. intros Ht.
  rewrite (bool_decide_true _ Ht) in Hconn. apply negb_false_iff in Hconn. by apply py_in_true in Hconn.
Qed.

(** ** Examples *)

(** A signature scheme that satisfies the laws (not a secure one). *)
Definition as_byte (c : Z) : Z := c mod 256.
Definition toy_sign (k : Z) (m : list Z) : list Z := as_byte <$> resize 64 (as_byte k) m.
Lemma as_byte_is_byte c : is_byte (as_byte c).
Proof. unfold is_byte, as_byte. apply Z.mod_pos_bound. lia. Qed.
Local Program Instance toy_ed25519 : Ed25519 :=
  {| private_key := Z; public_bytes := λ k, replicate 32 (as_byte k); sign := toy_sign;
     accepts_public_bytes := λ b, bool_decide (length b = 32%nat);
     verify := λ pk s m, bool_decide (s = toy_sign (default 0 (head pk)) m) |}.
Next Obligation.
  intros k. split; [apply length_replicate|]. apply Forall_replicate, as_byte_is_byte.
Qed.
Next Obligation.
  intros k m. unfold toy_sign. split; [by rewrite length_fmap, length_resize|].
  apply Forall_fmap, Forall_true. intros x. apply as_byte_is_byte.
Qed.
Next Obligation. intros k. done. Qed.
Next Obligation.
  intros k m. apply bool_decide_eq_true. unfold toy_sign, as_byte. simpl head. simpl default.
  by rewrite Z.mod_mod.
Qed.

Definition sample_key : Z := 42.
Definition sample_trusted : pystr := hexdigest (public_bytes (sample_key : private_key)).
Definition sample_route : result LinuxResolverRoute :=
  create_linux_resolver_route ($"127.0.0.1") 5353 5353 77 (replicate 64 97) (replicate 64 98)
    (sample_key : private_key).

Definition udp_rule (id : string) (a : NetworkAction) (k : DestinationKind) (v : string) : NetworkRule :=
  {| rule_id := lit id; owner := LOCAL; rule_action := a;
     destinations := [{| dest_kind := k; dest_value := lit v |}]; protocols := [TCP; UDP];
     ports := [{| port_start := 8443; port_end := 8443 |}]; process_scopes := [];
     expires_at_epoch_seconds := Some 40 |}.
Definition udp_policy : NetworkPolicy :=
  lowered_policy Grade_UDP_DNS_DESTINATION_ENFORCED
    [udp_rule "a.allow" ALLOW HOST "api.example.com"; udp_rule "b.deny" DENY IP "10.0.0.9"].

Definition sample_lease (route : LinuxResolverRoute) : result DnsBindingLease :=
  create_dns_binding_lease (sample_key : private_key)
    {| lease_policy_id := $"workspace.default"; lease_generation := 3;
       lease_process_tree_digest := process_tree_digest sample_tree; lease_workload_cgroup_id := 88;
       lease_host := $"api.example.com"; lease_address := $"10.0.0.7"; lease_protocol := UDP;
       lease_port_start := 8443; lease_port_end := 8443; issued_at_epoch_seconds := 1;
       authoritative_ttl_seconds := 30; lease_expires_at_epoch_seconds := 30;
       resolver_route_digest := route_digest route; resolver_nonce := replicate 64 99;
       issuance_receipt_digest := []; resolver_signature := [] |}.

Definition sample_flow (b : DnsBindingLease) : socket_flow :=
  {| flow_hook := UDP4_SENDMSG; flow_protocol := UDP; flow_address := $"10.0.0.7"; flow_port := 8443;
     flow_now := 3; flow_binding := Some b; flow_intent := None |}.

Definition udp_request : NetworkFlowRequest :=
  {| request_id := $"request.one"; process_tree := sample_tree; destination := sample_host;
     protocol := UDP; port := 8443; observed_at_epoch_ms := 2000; connected_address := Some ($"10.0.0.7");
     dns_binding_digest := Some (binding_digest sample_binding);
     request_schema_version := $"guard.network-broker.v1" |}.

Definition sample_art
    : result (LinuxUdpDnsPolicyArtifact * LinuxTcpPolicyArtifact * LinuxResolverRoute * DnsBindingLease) :=
  route ← sample_route;
  lease ← sample_lease route;
  tcp ← compile_linux_tcp_policy udp_policy sample_tree;
  art ← compile_linux_udp_dns_policy udp_policy sample_tree tcp 88 route sample_trusted;
  Ok (art, tcp, route, lease).

Lemma sample_art_Ok art tcp route lease : sample_art = Ok (art, tcp, route, lease) →
  sample_route = Ok route ∧ sample_lease route = Ok lease ∧
  compile_linux_udp_dns_policy udp_policy sample_tree tcp 88 route sample_trusted = Ok art.
Proof.
  unfold sample_art. intros E. apply bind_Ok in E as (route' & Hr & E).
  apply bind_Ok in E as (lease' & Hl & E). apply bind_Ok in E as (tcp' & _ & E).
  apply bind_Ok in E as (art' & Hc & E).
  assert (art' = art ∧ tcp' = tcp ∧ route' = route ∧ lease' = lease) as (-> & -> & -> & ->)
    by (clear Hr Hl Hc; by inversion E).
  split; [exact Hr|]. split; [exact Hl | exact Hc].
Qed.

(** What evaluation needs to know of the sample, computed once. *)
Definition sample_checks : bool :=
  match sample_art with
  | Ok (art, tcp, route, lease) =>
      bool_decide (ip_address (route_address route) = Some (IPv4 2130706433))
      && bool_decide (compressed (IPv4 2130706433) = route_address route)
      && is_ok (make_LinuxResolverRoute route)
      && bool_decide (lease_host <$> valid_binding art sample_tree 88 ($"10.0.0.7") 8443 UDP 3 sample_trusted
                        (Some lease) = Some ($"api.example.com"))
      && bool_decide (evaluate_linux_udp_dns_artifact art sample_tree 88 (udp_artifact_digest art)
                        (sample_flow lease) = Ok ALLOW)
  | Raise _ => false
  end.
Lemma sample_checks_pass : sample_checks = true.
Proof. vm_compute. reflexivity. Qed.

Lemma sample_art_exists : ∃ art tcp route lease, sample_art = Ok (art, tcp, route, lease) ∧
  make_LinuxResolverRoute route = Ok route ∧ route_address route = compressed (IPv4 2130706433) ∧
  lease_host <$> valid_binding art sample_tree 88 ($"10.0.0.7") 8443 UDP 3 sample_trusted (Some lease)
  = Some ($"api.example.com") ∧
  evaluate_linux_udp_dns_artifact art sample_tree 88 (udp_artifact_digest art) (sample_flow lease) = Ok ALLOW.
Proof.
  pose proof sample_checks_pass as Hp. unfold sample_checks in Hp.
  destruct sample_art as [[[[art tcp] route] lease]|]; [|done]. exists art, tcp, route, lease.
  split; [done|]. split_bool. repeat match goal with E : bool_decide _ = true |- _ => apply bool_decide_eq_true in E end.
  split; [|by split_and!].
  destruct (make_LinuxResolverRoute route) as [r'|] eqn:E; [|done].
  apply make_route_Ok in E as (ra & Hra & _ & ->). f_equal.
  assert (ra = IPv4 2130706433) as -> by congruence.
  destruct route. cbn [route_address udp_port tcp_port broker_cgroup_id route_executable_digest
    route_attestation_digest doh_boundary_digest resolver_public_key route_signature] in *. by f_equal.
Qed.

Lemma resolver_evidence_witness :
  ∃ route lease, sample_route = Ok route ∧ sample_lease route = Ok lease ∧
    resolver_route_is_attested route sample_trusted = true ∧
    binding_is_attested lease sample_trusted = true.
Proof.
  destruct sample_art_exists as (art & tcp & route & lease & Hs & _).
  apply sample_art_Ok in Hs as (Hr & Hl & _). exists route, lease.
  destruct (resolver_evidence_attested (H:=toy_ed25519) sample_key _ _ _ _ _ _ _ _ _ Hr Hl)
    as (_ & H1 & H2 & _).
  split; [exact Hr|]. split; [exact Hl|]. split; [exact H1 | exact H2].
Defined.

Lemma udp_lowering_witness :
  ∃ art tcp route lease ev, sample_art = Ok (art, tcp, route, lease) ∧
    evaluate_policy (H:=ascii_unicode) (H0:=ascii_idna) udp_policy udp_request (3 * 1000) 30000 [sample_binding]
    = Ok ev ∧
    evaluate_linux_udp_dns_artifact art sample_tree 88 (udp_artifact_digest art) (sample_flow lease)
    = Ok (action (decision ev)).
Proof.
  destruct sample_art_exists as (art & tcp & route & lease & Hs & Hroute & Haddr & Hb & _).
  pose proof (sample_art_Ok _ _ _ _ Hs) as (_ & _ & Hc). exists art, tcp, route, lease.
  destruct (udp_dns_lowering_preserves (H:=ascii_unicode) (H0:=ascii_idna) (H1:=toy_ed25519)
    udp_policy sample_tree tcp 88 route sample_trusted art udp_request (sample_flow lease)
    (Some ($"api.example.com")) (IPv4 167772167) 30000 [sample_binding]) as [ev Hev].
  - split; [vm_compute; reflexivity|]. repeat constructor; vm_compute; reflexivity.
  - repeat constructor; intros _ a Ha; vm_compute in Ha; first [discriminate Ha | injection Ha as <-];
      exact I.
  - exact Hc.
  - exact Hroute.
  - vm_compute. reflexivity.
  - intros address Ha. injection Ha as <-. vm_compute. reflexivity.
  - repeat split.
  - vm_compute. reflexivity.
  - repeat constructor; vm_compute; reflexivity.
  - vm_compute. reflexivity.
  - exact I.
  - split; [vm_compute; reflexivity|]. split; [right; left | discriminate].
  - apply (bool_decide_eq_true_1 _). vm_compute. reflexivity.
  - intros E. rewrite Haddr in E. discriminate E.
  - exact Hb.
  - intros _. exists sample_binding. vm_compute. reflexivity.
  - reflexivity.
  - lia.
  - exists ev. split; [exact Hs | exact Hev].
Defined.

Lemma socket_allow_witness :
  ∃ art tcp route lease, sample_art = Ok (art, tcp, route, lease) ∧
    resolver_route_is_attested (resolver_route art) (trusted_resolver_public_key art) = true ∧
    ∃ a, ip_address ($"10.0.0.7") = Some a ∧ hook_admits (sample_flow lease) a.
Proof.
  destruct sample_art_exists as (art & tcp & route & lease & Hs & _ & _ & _ & Hev).
  exists art, tcp, route, lease. split; [exact Hs|].
  destruct (socket_allow_justified (H:=toy_ed25519) art sample_tree 88 _ (sample_flow lease) Hev)
    as (_ & H1 & _ & _ & _ & a & ra & H2 & H3 & _).
  split; [exact H1|]. exists a. split; [exact H2 | exact H3].
Defined.

(** The digests of a resolver route need not be SHA-256 digests: [bytes.fromhex]
    skips white space, so sixty-four blanks pass the check. *)
Lemma route_accepts_blank_digest :
  is_ok (create_linux_resolver_route ($"127.0.0.1") 5353 5353 77 (replicate 64 32) (replicate 64 98)
    (sample_key : private_key)) = true.
Proof. vm_compute. reflexivity. Qed.
