(* ===== verification/NetworkCompiler.v ===== *)
(** * Policy compiler

    Models [network_policy_compiler.py]: the staged and the active policy, one
    function per method.  A method that raises leaves the state unchanged: its
    checks precede its updates. *)

From S2P Require Import Prelude PyStr Sha256 Regex PyVal IpAddress NetworkContract.
Local Open Scope Z_scope.
Local Open Scope py_scope.

Module Compiler.

Record CompiledPolicy := { policy : NetworkPolicy; artifact : list Z }.
Definition digest (c : CompiledPolicy) : pystr := policy_digest_of (policy c).

Record state := { active : option CompiledPolicy; staged : option CompiledPolicy }.
Definition init : state := {| active := None; staged := None |}.

Definition stage (s : state) (p : NetworkPolicy) : result (CompiledPolicy * state) :=
  raise_if (match active s with Some a => generation p <=? generation (policy a) | None => false end)
    (ValueError "staged generation must exceed active generation") ;;
  raise_if (match staged s with Some a => generation p <=? generation (policy a) | None => false end)
    (ValueError "staged generation must increase monotonically") ;;
  let compiled := {| policy := p; artifact := utf8 (canonical_json (policy_json p)) |} in
  Ok (compiled, {| active := active s; staged := Some compiled |}).

Definition activate (s : state) (expected_digest : pystr) : result (CompiledPolicy * state) :=
  match staged s with
  | None => Raise (RuntimeError "no staged policy")
  | Some c =>
      raise_if (negb (bool_decide (digest c = expected_digest)))
        (RuntimeError "staged policy digest mismatch") ;;
      Ok (c, {| active := Some c; staged := None |})
  end.

Definition discard (s : state) (expected_digest : pystr) : bool * state :=
  match staged s with
  | Some c =>
      if bool_decide (digest c = expected_digest)
      then (true, {| active := active s; staged := None |}) else (false, s)
  | None => (false, s)
  end.

(** One call of a method; a call that raises changes nothing. *)
Inductive step : state → state → Prop :=
  | step_stage s p c s' : stage s p = Ok (c, s') → step s s'
  | step_activate s d c s' : activate s d = Ok (c, s') → step s s'
  | step_discard s d b s' : discard s d = (b, s') → step s s'.

Definition gen (c : option CompiledPolicy) : Z :=
  match c with Some c => generation (policy c) | None => 0 end.

(** The staged policy is newer than the active one, and artifacts are the
    canonical bytes of their policies. *)
Definition compiled_ok (c : CompiledPolicy) : Prop :=
  artifact c = utf8 (canonical_json (policy_json (policy c))).
Record inv (s : state) : Prop := {
  inv_newer : ∀ a c, active s = Some a → staged s = Some c →
    generation (policy a) < generation (policy c);
  inv_active : ∀ a, active s = Some a → compiled_ok a;
  inv_staged : ∀ c, staged s = Some c → compiled_ok c;
}.

Lemma inv_init : inv init.
Proof. by split. Qed.

Lemma stage_Ok s p c s' :
  stage s p = Ok (c, s') ↔
  (∀ a, active s = Some a → generation (policy a) < generation p) ∧
  (∀ a, staged s = Some a → generation (policy a) < generation p) ∧
  c = {| policy := p; artifact := utf8 (canonical_json (policy_json p)) |} ∧
  s' = {| active := active s; staged := Some c |}.
Proof.
  unfold stage. split.
  - intros E. apply bind_Ok in E as ([] & H1 & E). apply bind_Ok in E as ([] & H2 & E).
    apply raise_if_Ok in H1, H2. injection E as <- <-.
    split; [|split; [|done]]; intros a Ha; rewrite Ha in *; lia.
  - intros (H1 & H2 & -> & ->).
    assert (match active s with Some a => generation p <=? generation (policy a) | None => false end = false)
      as -> by (destruct (active s); [specialize (H1 _ eq_refl); lia | done]).
    assert (match staged s with Some a => generation p <=? generation (policy a) | None => false end = false)
      as -> by (destruct (staged s); [specialize (H2 _ eq_refl); lia | done]). done.
Qed.

Lemma activate_Ok s d c s' :
  activate s d = Ok (c, s') ↔
  staged s = Some c ∧ d = digest c ∧ s' = {| active := Some c; staged := None |}.
Proof.
  unfold activate. destruct (staged s) as [x|]; [|naive_solver].
  destruct (bool_decide_reflect (digest x = d)); simpl; naive_solver.
Qed.

Lemma step_inv s s' : inv s → step s s' → inv s'.
Proof.
  intros [Hn Ha Hs] Hstep. destruct Hstep as [s p c s' E|s d c s' E|s d b s' E].
  - apply stage_Ok in E as (H1 & _ & -> & ->). split; simpl; [|done|].
    + intros a c Hac [= <-]. by apply H1.
    + by intros c [= <-].
  - apply activate_Ok in E as (Hc & _ & ->). split; simpl; [done| |done]. intros a [= <-]. auto.
  - unfold discard in E. destruct (staged s) as [x|] eqn:Ex; [case_bool_decide|];
      injection E as <- <-; split; simpl; naive_solver.
Qed.

(** The active generation after any further calls. *)
Lemma step_active s s' :
  inv s → step s s' →
  active s' = active s ∨ (∃ a, active s' = Some a ∧ staged s = Some a ∧
    ∀ b, active s = Some b → generation (policy b) < generation (policy a)).
Proof.
  intros [Hn _ _] Hstep. destruct Hstep as [s p c s' E|s d c s' E|s d b s' E].
  - apply stage_Ok in E as (_ & _ & _ & ->). by left.
  - apply activate_Ok in E as (Hc & _ & ->). right. exists c. simpl. split; [done|].
    split; [done|]. intros b Hb. by eapply Hn.
  - unfold discard in E. destruct (staged s) as [x|]; [case_bool_decide|];
      injection E as <- <-; by left.
Qed.

(** A call leaves the active policy alone, or it is [activate] with the digest
    of the staged policy. *)
Lemma step_activates s t :
  step s t →
  active t = active s ∨ ∃ c, staged s = Some c ∧ activate s (digest c) = Ok (c, t) ∧ t = {| active := Some c; staged := None |}.
Proof.
  intros Hstep. destruct Hstep as [s p c s' E|s d c s' E|s d b s' E].
  - apply stage_Ok in E as (_ & _ & _ & ->). by left.
  - right. exists c. pose proof E as (Hc & -> & Ht)%activate_Ok. by split_and!.
  - unfold discard in E. destruct (staged s) as [x|]; [case_bool_decide|]; injection E as <- <-; by left.
Qed.

Lemma rtc_inv s s' : inv s → rtc step s s' → inv s'.
Proof. intros Hi Hs. induction Hs as [|s x s' Hx _ IH]; [done|]. by apply IH, (step_inv s). Qed.

(** C35: activation is atomic and never rolls back: in every state reachable
    from a fresh compiler the staged policy is strictly newer than the active
    one and artifacts are the canonical bytes of their policies; every call from
    there, be it [stage], [activate] or [discard], leaves the active policy alone
    unless it is an [activate] that presents the digest of the staged policy,
    which then is the active one and staged no more; an [activate] with that
    digest does succeed, and with any other digest it raises;
    and along any run the active policy stays the same or moves to a strictly
    greater generation. *)
Theorem activation_monotone (s s' : state) (Hreach : rtc step init s) (Hrun : rtc step s s') :
  inv s' ∧
  (∀ t, step s' t → active t = active s' ∨
     ∃ c, staged s' = Some c ∧ activate s' (digest c) = Ok (c, t) ∧ t = {| active := Some c; staged := None |}) ∧
  (∀ d c t, activate s' d = Ok (c, t) ↔
     staged s' = Some c ∧ d = digest c ∧ t = {| active := Some c; staged := None |}) ∧
  (∀ a, active s = Some a → ∃ a', active s' = Some a' ∧
     (a' = a ∨ generation (policy a) < generation (policy a'))).
Proof.
  assert (inv s) as Hs by by apply (rtc_inv init). split; [by apply (rtc_inv s)|].
  split; [exact (step_activates s')|]. split.
  - intros d c t. apply activate_Ok.
  - clear Hreach. induction Hrun as [s|s x s' Hx Hrun IH]; intros a Ha; [eauto|].
    pose proof (step_inv _ _ Hs Hx) as Hxi.
    destruct (step_active _ _ Hs Hx) as [He|(b & Hb & _ & Hlt)].
    + apply (IH Hxi). by rewrite He.
    + destruct (IH Hxi b Hb) as (a' & Ha' & Hor). exists a'. split; [done|]. right.
      specialize (Hlt a Ha). destruct Hor as [->|?]; lia.
Qed.

Definition sample (g : Z) : NetworkPolicy :=
  {| policy_id := $"p"; generation := g; rules := []; required_grade := Grade_DENY_ALL;
     failure_mode := Failure_DENY; policy_schema_version := NETWORK_POLICY_SCHEMA_VERSION |}.

Lemma activation_monotone_witness :
  ∃ s a, rtc step init s ∧ active s = Some a ∧ inv s.
Proof.
  pose (c := {| policy := sample 1; artifact := utf8 (canonical_json (policy_json (sample 1))) |}).
  assert (rtc step init {| active := Some c; staged := None |}) as Hr.
  { eapply rtc_l; [apply (step_stage init (sample 1) c); reflexivity|].
    eapply rtc_l; [|apply rtc_refl]. apply (step_activate _ (digest c) c). unfold activate. simpl.
    rewrite bool_decide_true by done. reflexivity. }
  exists {| active := Some c; staged := None |}, c. split; [exact Hr|]. split; [reflexivity|].
  apply (activation_monotone _ _ Hr (rtc_refl _ _)).
Defined.

End Compiler.
