(* ===== verification/NetworkGrants.v ===== *)
(** * Scoped grants

    Models [network_grant_engine.py] with [logical_flow_id] of
    [network_local_core.py]: the engine is its [dict] of grants, one function
    per method, and a history is a list of calls. *)

From S2P Require Import Prelude PyStr Sha256 Regex PyVal IpAddress NetworkContract.
Local Open Scope Z_scope.
Local Open Scope py_scope.

Module Grants.

Inductive GrantUse := ONCE | SESSION_USE.
Global Instance GrantUse_eq_dec : EqDecision GrantUse.
Proof. solve_decision. Defined.
Definition GrantUse_value (u : GrantUse) : pystr :=
  match u with ONCE => $"once" | SESSION_USE => $"session" end.

(** [logical_flow_id] of [network_local_core.py] *)
Definition logical_flow_id (r : NetworkFlowRequest) : pystr :=
  $"flow." ++ take 32 (canonical_digest
    (JObj [($"process_tree", JStr (process_tree_digest (process_tree r)));
           ($"destination", destination_json (destination r));
           ($"protocol", JStr (enum_value (protocol r)));
           ($"port", JInt (port r))])).

Record ScopedNetworkGrant := {
  grant_id : pystr;
  tree_digest : pystr;
  grant_session_id : pystr;
  grant_destination : Destination;
  grant_protocol : NetworkProtocol;
  grant_port : Z;
  issued_at_epoch_ms : Z;
  grant_expires_at_epoch_ms : Z;
  use : GrantUse;
}.

(** [ScopedNetworkGrant.__post_init__] *)
Definition check_ScopedNetworkGrant (g : ScopedNetworkGrant) : result unit :=
  require_id (grant_id g) "grant_id" ;;
  require_digest (tree_digest g) "process_tree_digest" ;;
  require_id (grant_session_id g) "session_id" ;;
  raise_if (negb (port_in_range (grant_port g))) (ValueError "port must be within 1..65535") ;;
  raise_if (issued_at_epoch_ms g <=? 0) (ValueError "issued_at_epoch_ms must be positive") ;;
  raise_if (grant_expires_at_epoch_ms g <=? issued_at_epoch_ms g)
    (ValueError "expires_at_epoch_ms must follow issue time").

Definition engine : Type := list (pystr * ScopedNetworkGrant).
Definition init : engine := [].

(** The grant [issue] builds for a request. *)
Definition grant_for (r : NetworkFlowRequest) (expires : Z) (u : GrantUse) : ScopedNetworkGrant :=
  {| grant_id := $"grant." ++ take 32 (canonical_digest
       (JObj [($"flow", JStr (logical_flow_id r)); ($"request", JStr (request_id r));
              ($"expires_at_epoch_ms", JInt expires); ($"use", JStr (GrantUse_value u))]));
     tree_digest := process_tree_digest (process_tree r);
     grant_session_id := session_id (process_tree r);
     grant_destination := destination r; grant_protocol := protocol r; grant_port := port r;
     issued_at_epoch_ms := observed_at_epoch_ms r; grant_expires_at_epoch_ms := expires;
     use := u |}.

Definition issue (e : engine) (r : NetworkFlowRequest) (expires : Z) (u : GrantUse)
    : result (ScopedNetworkGrant * engine) :=
  raise_if (expires <=? observed_at_epoch_ms r) (ValueError "grant must expire after its request") ;;
  let g := grant_for r expires u in
  check_ScopedNetworkGrant g ;;
  Ok (g, dict_set (grant_id g) g e).

Definition grant_matches (g : ScopedNetworkGrant) (r : NetworkFlowRequest) : bool :=
  bool_decide (tree_digest g = process_tree_digest (process_tree r))
  && bool_decide (grant_session_id g = session_id (process_tree r))
  && bool_decide (grant_destination g = destination r)
  && bool_decide (grant_protocol g = protocol r)
  && (grant_port g =? port r).

Definition authorize (e : engine) (id : pystr) (r : NetworkFlowRequest) (now : Z) : bool * engine :=
  match dict_lookup id e with
  | None => (false, e)
  | Some g =>
      if now <? issued_at_epoch_ms g then (false, e)
      else if grant_expires_at_epoch_ms g <=? now then (false, dict_pop id e)
      else
      let matches := grant_matches g r in
      (matches, if matches && bool_decide (use g = ONCE) then dict_pop id e else e)
  end.

Definition of_tree (t : ProcessTreeIdentity) (g : ScopedNetworkGrant) : bool :=
  bool_decide (tree_digest g = process_tree_digest t).
Definition revoke_tree (e : engine) (t : ProcessTreeIdentity) : Z * engine :=
  (Z.of_nat (length (dict_doomed (of_tree t) e)), dict_sweep (of_tree t) e).

Definition lapsed (now : Z) (g : ScopedNetworkGrant) : bool := grant_expires_at_epoch_ms g <=? now.
Definition expire (e : engine) (now : Z) : Z * engine :=
  (Z.of_nat (length (dict_doomed (lapsed now) e)), dict_sweep (lapsed now) e).

(** *** Histories *)

Inductive op :=
  | Issue (r : NetworkFlowRequest) (expires : Z) (u : GrantUse)
  | Authorize (id : pystr) (r : NetworkFlowRequest) (now : Z)
  | Revoke (t : ProcessTreeIdentity)
  | Expire (now : Z).

(** What a call did: nothing (it raised or refused), issued a grant, or
    authorized a flow under a grant. *)
Inductive event := Nothing | Issued (g : ScopedNetworkGrant) | Granted (id : pystr).

Definition perform (e : engine) (o : op) : event * engine :=
  match o with
  | Issue r expires u =>
      match issue e r expires u with Ok (g, e') => (Issued g, e') | Raise _ => (Nothing, e) end
  | Authorize id r now =>
      let '(ok, e') := authorize e id r now in (if ok : bool then Granted id else Nothing, e')
  | Revoke t => (Nothing, (revoke_tree e t).2)
  | Expire now => (Nothing, (expire e now).2)
  end.

Fixpoint run (e : engine) (ops : list op) : list event * engine :=
  match ops with
  | [] => ([], e)
  | o :: ops =>
      let '(ev, e) := perform e o in
      let '(evs, e) := run e ops in
      (ev :: evs, e)
  end.

(** *** Lemmas *)

Lemma issue_Ok e r x u g e' :
  issue e r x u = Ok (g, e') → g = grant_for r x u ∧ e' = dict_set (grant_id g) g e ∧
  observed_at_epoch_ms r < x.
Proof.
  unfold issue. intros E. apply bind_Ok in E as ([] & Hx & E). apply raise_if_Ok, Z.leb_gt in Hx.
  cbv zeta in E. apply bind_Ok in E as ([] & _ & E). injection E as <- <-. done.
Qed.

Lemma authorize_sub e id r now ok e' k g :
  authorize e id r now = (ok, e') → dict_lookup k e' = Some g → dict_lookup k e = Some g.
Proof.
  unfold authorize. destruct (dict_lookup id e) as [h|] eqn:Eh; [|by intros [= <- <-]].
  assert (∀ d : engine, d = dict_pop id e → dict_lookup k d = Some g → dict_lookup k e = Some g) as Hpop.
  { intros d -> Hg. destruct (decide (k = id)) as [->|Hne].
    - by rewrite dict_lookup_pop_eq in Hg.
    - by rewrite dict_lookup_pop_ne in Hg. }
  repeat case_match; intros [= <- <-]; try done; by apply Hpop.
Qed.

Lemma authorize_true e id r now e' :
  authorize e id r now = (true, e') →
  ∃ g, dict_lookup id e = Some g ∧ issued_at_epoch_ms g <= now < grant_expires_at_epoch_ms g ∧
    grant_matches g r = true ∧ (use g = ONCE → dict_lookup id e' = None).
Proof.
  unfold authorize. destruct (dict_lookup id e) as [g|] eqn:Eg; [|done].
  destruct (Z.ltb_spec now (issued_at_epoch_ms g)); [done|].
  destruct (Z.leb_spec (grant_expires_at_epoch_ms g) now); [done|]. cbv zeta. intros [= Hm <-].
  exists g. split; [done|]. split; [lia|]. split; [done|]. intros Hu.
  rewrite Hm, bool_decide_true by done. apply dict_lookup_pop_eq.
Qed.

(** A grant held under [k] was issued in the history [ops] for the flow it
    covers, and its process tree was not revoked since. *)
Definition justified (ops : list op) (k : pystr) (g : ScopedNetworkGrant) : Prop :=
  ∃ pre post r x u, ops = pre ++ Issue r x u :: post ∧ g = grant_for r x u ∧ k = grant_id g ∧
    observed_at_epoch_ms r < x ∧
    (∀ t, Revoke t ∈ post → process_tree_digest t ≠ process_tree_digest (process_tree r)).

Lemma justified_snoc ops o k g :
  justified ops k g →
  (∀ t, o = Revoke t → process_tree_digest t ≠ tree_digest g) → justified (ops ++ [o]) k g.
Proof.
  intros (pre & post & r & x & u & -> & -> & -> & Hx & Hpost) Ho.
  exists pre, (post ++ [o]), r, x, u. split; [by rewrite <- app_assoc|]. do 3 (split; [done|]).
  intros t [Ht|Ht%list_elem_of_singleton]%elem_of_app; [by apply Hpost | by apply (Ho t)].
Qed.

Lemma perform_justified ops e o ev e' :
  (∀ k g, dict_lookup k e = Some g → justified ops k g) → perform e o = (ev, e') →
  ∀ k g, dict_lookup k e' = Some g → justified (ops ++ [o]) k g.
Proof.
  intros Hj Hp k g Hk. destruct o as [r x u|id r now|t|now]; simpl in Hp.
  - destruct (issue e r x u) as [[h e1]|] eqn:Ei; injection Hp as <- <-.
    + apply issue_Ok in Ei as (-> & -> & Hx). rewrite dict_lookup_set in Hk. case_decide as Hid.
      * injection Hk as <-. exists ops, [], r, x, u. split; [done|]. split; [done|].
        split; [done|]. split; [done|]. by intros t ?%elem_of_nil.
      * apply justified_snoc; [by apply Hj | done].
    + apply justified_snoc; [by apply Hj | done].
  - destruct (authorize e id r now) as [ok e1] eqn:Ea. injection Hp as <- <-.
    apply justified_snoc; [|done]. eapply Hj, authorize_sub; done.
  - injection Hp as <- <-. apply dict_lookup_sweep in Hk as [Hk Hf].
    apply justified_snoc; [by apply Hj|]. intros t' [= <-]. unfold of_tree in Hf.
    by rewrite bool_decide_eq_false in Hf.
  - injection Hp as <- <-. apply dict_lookup_sweep in Hk as [Hk _].
    apply justified_snoc; [by apply Hj | done].
Qed.

Lemma run_app e ops ops' :
  run e (ops ++ ops') =
  ((run e ops).1 ++ (run (run e ops).2 ops').1, (run (run e ops).2 ops').2).
Proof.
  revert e. induction ops as [|o ops IH]; intros e; simpl; [by destruct (run e ops')|].
  destruct (perform e o) as [ev e1]. rewrite IH. destruct (run e1 ops). done.
Qed.

Lemma run_justified ops k g :
  dict_lookup k (run init ops).2 = Some g → justified ops k g.
Proof.
  revert k g. induction ops as [|o ops IH] using rev_ind; [done|].
  intros k g. rewrite run_app. simpl. destruct (perform (run init ops).2 o) as [ev e] eqn:Ep. simpl.
  by apply (perform_justified ops (run init ops).2 o ev e IH Ep).
Qed.

(** C18: grants never cross process trees: after any history of calls, a flow
    is authorized only under a grant that was issued, earlier in that history,
    for the same process tree, session, destination, protocol and port, at a
    time inside the grant's lifetime, and with no revocation of that process
    tree since it was issued. *)
Theorem authorization_justified (ops : list op) (id : pystr) (r : NetworkFlowRequest) (now : Z)
    (e : engine) (Hok : authorize (run init ops).2 id r now = (true, e)) :
  ∃ pre post r0 x u, ops = pre ++ Issue r0 x u :: post ∧ id = grant_id (grant_for r0 x u) ∧
    process_tree_digest (process_tree r0) = process_tree_digest (process_tree r) ∧
    session_id (process_tree r0) = session_id (process_tree r) ∧
    destination r0 = destination r ∧ protocol r0 = protocol r ∧ port r0 = port r ∧
    observed_at_epoch_ms r0 <= now < x ∧
    (∀ t, Revoke t ∈ post → process_tree_digest t ≠ process_tree_digest (process_tree r)).
Proof.
  apply authorize_true in Hok as (g & Hg & Hnow & Hm & _).
  apply run_justified in Hg as (pre & post & r0 & x & u & -> & -> & -> & _ & Hrev).
  unfold grant_matches in Hm. split_bool. rewrite !bool_decide_eq_true, Z.eqb_eq in *. simpl in *.
  exists pre, post, r0, x, u. do 8 (split; [done|]). intros t Ht. rewrite <- H. by apply Hrev.
Qed.

(** How often the identifier was authorized, and issued. *)
Definition granted_with (id : pystr) (ev : event) : bool :=
  match ev with Granted i => bool_decide (i = id) | _ => false end.
Definition granted_count (id : pystr) (evs : list event) : nat :=
  length (filter (λ ev, granted_with id ev = true) evs).
Definition issued_with (id : pystr) (ev : event) : bool :=
  match ev with Issued g => bool_decide (grant_id g = id) | _ => false end.
Definition issued_count (id : pystr) (evs : list event) : nat :=
  length (filter (λ ev, issued_with id ev = true) evs).

(** The credit of an identifier: one use if a grant is held under it. *)
Definition credit (id : pystr) (e : engine) : nat :=
  match dict_lookup id e with Some _ => 1 | None => 0 end.

Lemma granted_count_cons id ev evs :
  granted_count id (ev :: evs) = ((if granted_with id ev then 1 else 0) + granted_count id evs)%nat.
Proof. unfold granted_count. rewrite filter_cons. destruct (granted_with id ev); by case_decide. Qed.
Lemma issued_count_cons id ev evs :
  issued_count id (ev :: evs) = ((if issued_with id ev then 1 else 0) + issued_count id evs)%nat.
Proof. unfold issued_count. rewrite filter_cons. destruct (issued_with id ev); by case_decide. Qed.

(** All the grants held under [id] are single-use. *)
Definition once_only (id : pystr) (e : engine) : Prop :=
  ∀ g, dict_lookup id e = Some g → use g = ONCE.
Definition issues_once (id : pystr) (o : op) : Prop :=
  match o with Issue r x u => grant_id (grant_for r x u) = id → u = ONCE | _ => True end.

Lemma credit_le id (e e' : engine) :
  (∀ g, dict_lookup id e' = Some g → dict_lookup id e = Some g) → (credit id e' <= credit id e)%nat.
Proof.
  intros Hs. unfold credit. destruct (dict_lookup id e') as [g|]; [|lia].
  by rewrite (Hs g eq_refl).
Qed.

(** One call spends at most the credit it has and the issue it makes. *)
Lemma perform_once id e o ev e' :
  once_only id e → issues_once id o → perform e o = (ev, e') →
  once_only id e' ∧
  ((if granted_with id ev then 1 else 0) + credit id e' <=
   (if issued_with id ev then 1 else 0) + credit id e)%nat.
Proof.
  intros Ho Hi Hp. destruct o as [r x u|k r now|t|now]; simpl in Hp.
  - destruct (issue e r x u) as [[g e1]|] eqn:Ei; injection Hp as <- <-.
    + apply issue_Ok in Ei as (-> & -> & _). cbn [granted_with]. split.
      * intros h. rewrite dict_lookup_set. case_decide as Hk; [|apply Ho]. intros [= <-]. by apply Hi.
      * unfold credit, issued_with. rewrite dict_lookup_set.
        case_decide as Hk; [|case_bool_decide; lia]. rewrite bool_decide_true by done. lia.
    + by split.
  - destruct (authorize e k r now) as [ok e1] eqn:Ea.
    assert (∀ g, dict_lookup id e1 = Some g → dict_lookup id e = Some g) as Hsub
      by (intros g; by eapply authorize_sub).
    destruct ok; injection Hp as <- <-; cbn [granted_with issued_with]; (split; [intros g Hg; by apply Ho, Hsub|]).
    + case_bool_decide as E; [|by apply credit_le]. subst k.
      apply authorize_true in Ea as (g & Hg & _ & _ & Hn). unfold credit. rewrite Hg, Hn; [done|].
      by apply Ho.
    + by apply credit_le.
  - injection Hp as <- <-. cbn [granted_with issued_with].
    split; [intros g [Hg _]%dict_lookup_sweep; by apply Ho|]. apply credit_le. by intros g [Hg _]%dict_lookup_sweep.
  - injection Hp as <- <-. cbn [granted_with issued_with].
    split; [intros g [Hg _]%dict_lookup_sweep; by apply Ho|]. apply credit_le. by intros g [Hg _]%dict_lookup_sweep.
Qed.

Lemma run_once id e ops :
  once_only id e → Forall (issues_once id) ops →
  (granted_count id (run e ops).1 <= issued_count id (run e ops).1 + credit id e)%nat.
Proof.
  revert e. induction ops as [|o ops IH]; intros e Ho Hops; [cbn; lia|].
  inversion_clear Hops as [|? ? Hio Hops']. cbn [run]. destruct (perform e o) as [ev e1] eqn:Ep.
  destruct (perform_once _ _ _ _ _ Ho Hio Ep) as [Ho1 Hc].
  specialize (IH e1 Ho1 Hops'). destruct (run e1 ops) as [evs e2]. cbn [fst] in *.
  rewrite granted_count_cons, issued_count_cons. lia.
Qed.

(** a single-use grant is used at most once: along any history of calls,
    when every grant issued under an identifier is single-use, the engine
    authorizes under it at most as often as it issued it, whatever other
    grants, revocations and expirations happen in between. *)
Theorem once_grant_used_once (id : pystr) (ops : list op)
    (Honce : Forall (issues_once id) ops) :
  (granted_count id (run init ops).1 <= issued_count id (run init ops).1)%nat.
Proof.
  pose proof (run_once id init ops) as H. unfold credit in H. cbn [dict_lookup init] in H.
  rewrite Nat.add_0_r in H. by apply H.
Qed.

(** *** Witnesses *)

Definition sample_tree : ProcessTreeIdentity :=
  {| installation_id := $"install-1"; session_id := $"session-1"; root_pid := 42;
     root_start_time_ns := 7; executable_digest := sha256_hex ($"exe") |}.
Definition sample_request : NetworkFlowRequest :=
  {| request_id := $"request-1"; process_tree := sample_tree;
     destination := {| dest_kind := IP; dest_value := $"10.0.0.7" |};
     protocol := TCP; port := 443; observed_at_epoch_ms := 1000; connected_address := None;
     dns_binding_digest := None; request_schema_version := NETWORK_BROKER_SCHEMA_VERSION |}.
Definition sample_id : pystr := Eval vm_compute in grant_id (grant_for sample_request 2000 ONCE).
Definition sample_history : list op :=
  [Issue sample_request 2000 ONCE; Expire 1200; Authorize sample_id sample_request 1500;
   Authorize sample_id sample_request 1600].

Lemma authorization_justified_witness :
  ∃ e, authorize (run init (take 2 sample_history)).2 sample_id sample_request 1500 = (true, e) ∧
    ∃ pre post r0 x u, take 2 sample_history = pre ++ Issue r0 x u :: post ∧
      observed_at_epoch_ms r0 <= 1500 < x.
Proof.
  destruct (authorize (run init (take 2 sample_history)).2 sample_id sample_request 1500) as [b e] eqn:E.
  destruct b; [|vm_compute in E; discriminate E].
  exists e. split; [reflexivity|].
  destruct (authorization_justified (take 2 sample_history) sample_id sample_request 1500 e E)
    as (pre & post & r0 & x & u & H1 & _ & _ & _ & _ & _ & _ & H2 & _).
  exists pre, post, r0, x, u. split; [exact H1 | exact H2].
Defined.

Lemma once_grant_witness :
  granted_count sample_id (run init sample_history).1 = 1%nat ∧
  (granted_count sample_id (run init sample_history).1 <=
   issued_count sample_id (run init sample_history).1)%nat.
Proof.
  split; [vm_compute; reflexivity|]. apply (once_grant_used_once sample_id sample_history).
  repeat constructor.
Defined.

End Grants.
