(* ===== verification/NetworkLedger.v ===== *)
(** * Evidence ledger

    Models [network_evidence_ledger.py]: the bounded queue with its pruning
    loop, and the unbounded log it refines. *)

From S2P Require Import Prelude PyStr Sha256 Regex PyVal IpAddress NetworkContract NetworkCapability.
Local Open Scope Z_scope.
Local Open Scope py_scope.

Module Ledger.

(** The ledger; [telemetry] is [None] without a sink, else the events the
    ledger recorded on it, in order. *)
Record state := {
  capacity : Z;
  retention_ms : Z;
  entries : list NetworkEvidence;
  telemetry : option (list (pystr * pystr));
  latest_reference_epoch_ms : option Z;
}.

(** [NetworkEvidenceLedger.__init__] *)
Definition init (p : NetworkPrivacyPolicy) (sink : bool) : state :=
  {| capacity := maximum_events p; retention_ms := retention_seconds p * 1000; entries := [];
     telemetry := if sink then Some [] else None; latest_reference_epoch_ms := None |}.

(** The loop of [_prune], for a cutoff. *)
Fixpoint prune_entries (cutoff : Z) (l : list NetworkEvidence) : list NetworkEvidence :=
  match l with
  | e :: l' => if ev_observed_at_epoch_ms e <? cutoff then prune_entries cutoff l' else e :: l'
  | [] => []
  end.
Definition prune (s : state) (reference : Z) : list NetworkEvidence :=
  prune_entries (reference - retention_ms s) (entries s).

(** [for _ in range(max(n, 0)): entries.popleft()] *)
Definition pop_overflow (cap : Z) (l : list NetworkEvidence) : list NetworkEvidence :=
  drop (Z.to_nat (Z.max (Z.of_nat (length l) - cap) 0)) l.

Definition appended_event (e : NetworkEvidence) : pystr * pystr :=
  ($"network_evidence_appended",
   $"action=" ++ NetworkAction_value (ev_action e) ++ $" grade=" ++ EnforcementGrade_value (grade e)).

Definition append (s : state) (e : NetworkEvidence) : result state :=
  raise_if (bool_decide (is_Some (raw_destination e)))
    (ValueError "raw destinations are prohibited in the local ledger") ;;
  raise_if (match latest_reference_epoch_ms s with
            | Some latest => ev_observed_at_epoch_ms e <? latest
            | None => false
            end) (ValueError "evidence timestamps must be monotonic") ;;
  let s1 := {| capacity := capacity s; retention_ms := retention_ms s; entries := entries s ++ [e];
               telemetry := telemetry s;
               latest_reference_epoch_ms := Some (ev_observed_at_epoch_ms e) |} in
  Ok {| capacity := capacity s; retention_ms := retention_ms s;
        entries := pop_overflow (capacity s) (prune s1 (ev_observed_at_epoch_ms e));
        telemetry := (λ l, l ++ [appended_event e]) <$> telemetry s;
        latest_reference_epoch_ms := Some (ev_observed_at_epoch_ms e) |}.

Definition snapshot (s : state) (now : Z) : list NetworkEvidence * state :=
  let reference := match latest_reference_epoch_ms s with Some l => Z.max now l | None => now end in
  let l := prune s reference in
  (l, {| capacity := capacity s; retention_ms := retention_ms s; entries := l;
         telemetry := telemetry s; latest_reference_epoch_ms := Some reference |}).

Definition clear (s : state) : Z * state :=
  (Z.of_nat (length (entries s)),
   {| capacity := capacity s; retention_ms := retention_ms s; entries := [];
      telemetry := telemetry s; latest_reference_epoch_ms := latest_reference_epoch_ms s |}).

(** *** Calls and what they return *)

Inductive call := Append (e : NetworkEvidence) | Snapshot (now : Z) | Clear.
Inductive reply := Appended | Refused (e : exn) | Entries (l : list NetworkEvidence) | Cleared (n : Z).

Definition serve (s : state) (c : call) : reply * state :=
  match c with
  | Append e => match append s e with Ok s' => (Appended, s') | Raise x => (Refused x, s) end
  | Snapshot now => let '(l, s') := snapshot s now in (Entries l, s')
  | Clear => let '(n, s') := clear s in (Cleared n, s')
  end.

Fixpoint serve_all (s : state) (cs : list call) : list reply * state :=
  match cs with
  | [] => ([], s)
  | c :: cs => let '(r, s) := serve s c in let '(rs, s) := serve_all s cs in (r :: rs, s)
  end.

(** *** Abstract ledger

    An unbounded log of the accepted evidence since the last [clear] and the
    latest time seen.  What it reports is computed from the whole log: of the
    evidence inside the retention window, the newest [capacity]. *)

Record log := { accepted : list NetworkEvidence; reference : option Z }.

Definition last_n {A} (n : nat) (l : list A) : list A := drop (length l - n) l.

Definition within (cutoff : Z) (e : NetworkEvidence) : bool := cutoff <=? ev_observed_at_epoch_ms e.

Definition retained (p : NetworkPrivacyPolicy) (a : log) : list NetworkEvidence :=
  match reference a with
  | None => []
  | Some r =>
      last_n (Z.to_nat (maximum_events p))
        (filter (λ e, within (r - retention_seconds p * 1000) e = true) (accepted a))
  end.

Definition log_serve (p : NetworkPrivacyPolicy) (a : log) (c : call) : reply * log :=
  match c with
  | Append e =>
      if bool_decide (is_Some (raw_destination e))
      then (Refused (ValueError "raw destinations are prohibited in the local ledger"), a)
      else if match reference a with Some r => ev_observed_at_epoch_ms e <? r | None => false end
      then (Refused (ValueError "evidence timestamps must be monotonic"), a)
      else (Appended, {| accepted := accepted a ++ [e]; reference := Some (ev_observed_at_epoch_ms e) |})
  | Snapshot now =>
      let a' := {| accepted := accepted a;
                   reference := Some (match reference a with Some r => Z.max now r | None => now end) |} in
      (Entries (retained p a'), a')
  | Clear =>
      (Cleared (Z.of_nat (length (retained p a))), {| accepted := []; reference := reference a |})
  end.

Fixpoint log_serve_all (p : NetworkPrivacyPolicy) (a : log) (cs : list call) : list reply * log :=
  match cs with
  | [] => ([], a)
  | c :: cs => let '(r, a) := log_serve p a c in let '(rs, a) := log_serve_all p a cs in (r :: rs, a)
  end.

(** *** Lemmas *)

(** The log is in time order and nothing in it is later than the reference. *)
Definition chronological (l : list NetworkEvidence) : Prop :=
  StronglySorted (λ e f, ev_observed_at_epoch_ms e <= ev_observed_at_epoch_ms f) l.

Lemma last_n_split {A} (n : nat) (l : list A) : ∃ k, l = k ++ last_n n l.
Proof. exists (take (length l - n) l). symmetry. apply take_drop. Qed.

Lemma last_n_short {A} n (l : list A) : (length l <= n)%nat → last_n n l = l.
Proof. intros. unfold last_n. by replace (length l - n)%nat with 0%nat by lia. Qed.

Lemma last_n_app_le {A} n (l k : list A) : (n <= length k)%nat → last_n n (l ++ k) = last_n n k.
Proof.
  intros. unfold last_n. rewrite length_app, drop_app_ge by lia. f_equal. lia.
Qed.

Lemma last_n_app_ge {A} n (l k : list A) :
  (length k <= n)%nat → last_n n (l ++ k) = last_n (n - length k) l ++ k.
Proof.
  intros. unfold last_n. rewrite length_app.
  replace (length l + length k - n)%nat with (length l - (n - length k))%nat by lia.
  rewrite drop_app_le by lia. done.
Qed.

Lemma length_last_n {A} n (l : list A) : (length (last_n n l) <= n)%nat.
Proof. unfold last_n. rewrite length_drop. lia. Qed.

Lemma chronological_split c l :
  chronological l → ∃ old new, l = old ++ new ∧
    Forall (λ e, within c e = false) old ∧ Forall (λ e, within c e = true) new.
Proof.
  induction 1 as [|e l Hs IH He]; [by exists [], []|].
  destruct IH as (old & new & -> & Ho & Hn). destruct (within c e) eqn:E.
  - exists [], (e :: old ++ new). split; [done|]. split; [constructor|]. constructor; [done|].
    eapply Forall_impl; [exact He|]. intros f Hf. unfold within in *. lia.
  - exists (e :: old), new. split; [done|]. by split; [constructor|].
Qed.

Lemma filter_split c old new :
  Forall (λ e, within c e = false) old → Forall (λ e, within c e = true) new →
  filter (λ e, within c e = true) (old ++ new) = new.
Proof.
  intros Ho Hn. rewrite filter_app, filter_none, (filter_all _ new); [done|done|].
  eapply Forall_impl; [exact Ho|]. by intros e ->.
Qed.

Lemma prune_filter c l :
  chronological l → prune_entries c l = filter (λ e, within c e = true) l.
Proof.
  intros (old & new & -> & Ho & Hn)%(chronological_split c). rewrite filter_split by done.
  induction Ho as [|e old He _ IH]; simpl.
  - destruct new as [|e new]; [done|]. simpl. inversion_clear Hn. unfold within in *.
    by replace (ev_observed_at_epoch_ms e <? c) with false by lia.
  - unfold within in He. by replace (ev_observed_at_epoch_ms e <? c) with true by lia.
Qed.

(** In a chronological log, keeping the newest and dropping the old commute. *)
Lemma filter_last_n c n l :
  chronological l →
  filter (λ e, within c e = true) (last_n n l) = last_n n (filter (λ e, within c e = true) l).
Proof.
  intros (old & new & -> & Ho & Hn)%(chronological_split c). rewrite filter_split by done.
  destruct (decide (n <= length new)%nat) as [Hle|Hgt].
  - rewrite last_n_app_le by done. apply filter_all. by apply Forall_drop.
  - rewrite last_n_app_ge, filter_split, last_n_short; [done|lia|by apply Forall_drop|done|lia].
Qed.

Lemma last_n_snoc {A} n (l : list A) x : last_n n (last_n n l ++ [x]) = last_n n (l ++ [x]).
Proof.
  destruct (last_n_split n l) as [k Hk]. destruct (decide (length l <= n)%nat) as [Hle|Hgt].
  - by rewrite (last_n_short n l).
  - assert (length (last_n n l) = n) as Hlen by (unfold last_n; rewrite length_drop; lia).
    transitivity (last_n n ((k ++ last_n n l) ++ [x])); [|by rewrite <- Hk].
    symmetry. rewrite <- app_assoc. apply last_n_app_le. rewrite length_app, Hlen. lia.
Qed.

Lemma pop_overflow_last_n cap l : 0 <= cap → pop_overflow cap l = last_n (Z.to_nat cap) l.
Proof. intros. unfold pop_overflow, last_n. f_equal. lia. Qed.

Lemma filter_filter_within c c' (l : list NetworkEvidence) :
  c <= c' → filter (λ e, within c' e = true) (filter (λ e, within c e = true) l) =
            filter (λ e, within c' e = true) l.
Proof.
  intros Hc. rewrite list_filter_filter. apply list_filter_iff. intros e. unfold within. lia.
Qed.

Lemma privacy_bounds p :
  check_NetworkPrivacyPolicy p = Ok tt →
  60 <= retention_seconds p <= 2592000 ∧ 1 <= maximum_events p <= 1000000.
Proof.
  unfold check_NetworkPrivacyPolicy. intros E. apply bind_Ok in E as ([] & _ & E).
  apply bind_Ok in E as ([] & H1 & E). apply bind_Ok in E as ([] & H2 & _).
  apply raise_if_Ok in H1, H2. lia.
Qed.

(** The simulation relation: the ledger holds exactly what the log retains. *)
Record simulates (p : NetworkPrivacyPolicy) (s : state) (a : log) : Prop := {
  sim_capacity : capacity s = maximum_events p;
  sim_retention : retention_ms s = retention_seconds p * 1000;
  sim_entries : entries s = retained p a;
  sim_reference : latest_reference_epoch_ms s = reference a;
  sim_log : chronological (accepted a);
  sim_past : ∀ r, reference a = Some r → Forall (λ e, ev_observed_at_epoch_ms e <= r) (accepted a);
  sim_empty : reference a = None → accepted a = [];
  sim_private : Forall (λ e, raw_destination e = None) (accepted a);
}.

Lemma chronological_snoc l e :
  chronological l → Forall (λ f, ev_observed_at_epoch_ms f <= ev_observed_at_epoch_ms e) l →
  chronological (l ++ [e]).
Proof.
  induction 1 as [|f l Hs IH Hf]; simpl; intros Hle; [by repeat constructor|].
  inversion_clear Hle. constructor; [by apply IH|]. apply Forall_app. by repeat constructor.
Qed.

(** What is retained is the newest part of the log. *)
Lemma retained_suffix p a :
  chronological (accepted a) → ∃ old, accepted a = old ++ retained p a.
Proof.
  unfold retained. intros Hs. destruct (reference a) as [r|]; [|exists (accepted a); by rewrite app_nil_r].
  destruct (chronological_split (r - retention_seconds p * 1000) _ Hs) as (old & new & -> & Ho & Hn).
  rewrite filter_split by done. destruct (last_n_split (Z.to_nat (maximum_events p)) new) as [k Hk].
  exists (old ++ k). by rewrite <- app_assoc, <- Hk.
Qed.

Lemma retained_chronological p a : chronological (accepted a) → chronological (retained p a).
Proof.
  intros Hs. destruct (retained_suffix p a Hs) as [old Ho]. rewrite Ho in Hs.
  by apply StronglySorted_app_1_r in Hs.
Qed.

(** Advancing the reference prunes the retained evidence. *)
Lemma retained_advance p a r :
  chronological (accepted a) → (∀ r0, reference a = Some r0 → r0 <= r) →
  (reference a = None → accepted a = []) →
  prune_entries (r - retention_seconds p * 1000) (retained p a) =
  retained p {| accepted := accepted a; reference := Some r |}.
Proof.
  intros Hs Hr He. rewrite prune_filter by by apply retained_chronological.
  unfold retained. cbn [reference accepted]. destruct (reference a) as [r0|].
  - specialize (Hr r0 eq_refl). rewrite filter_last_n, filter_filter_within; [done|lia|].
    destruct (chronological_split (r0 - retention_seconds p * 1000) _ Hs) as (old & new & Hl & Ho & Hn).
    rewrite Hl in Hs |- *. rewrite filter_split by done. by apply StronglySorted_app_1_r in Hs.
  - by rewrite He.
Qed.

Lemma retained_snoc p a e :
  check_NetworkPrivacyPolicy p = Ok tt → chronological (accepted a) →
  (∀ r, reference a = Some r → r <= ev_observed_at_epoch_ms e) →
  (reference a = None → accepted a = []) →
  pop_overflow (maximum_events p)
    (prune_entries (ev_observed_at_epoch_ms e - retention_seconds p * 1000) (retained p a ++ [e])) =
  retained p {| accepted := accepted a ++ [e]; reference := Some (ev_observed_at_epoch_ms e) |}.
Proof.
  intros Hp Hs Hr He. apply privacy_bounds in Hp as [Hret Hmax].
  set (c := ev_observed_at_epoch_ms e - retention_seconds p * 1000).
  assert (filter (λ x, within c x = true) [e] = [e]) as Hce.
  { apply filter_all. constructor; [|done]. unfold within, c. lia. }
  rewrite pop_overflow_last_n by lia.
  assert (prune_entries c (retained p a ++ [e]) = prune_entries c (retained p a) ++ [e]) as ->.
  { clear -Hce. induction (retained p a) as [|x l IH]; cbn [prune_entries app].
    - unfold within in Hce. cbn in Hce. case_decide; [|done].
      by replace (ev_observed_at_epoch_ms e <? c) with false by lia.
    - by case_match. }
  unfold c. rewrite retained_advance by done. unfold retained. cbn [reference accepted].
  rewrite last_n_snoc, filter_app. fold c. by rewrite Hce.
Qed.

Lemma init_simulates p sink : simulates p (init p sink) {| accepted := []; reference := None |}.
Proof. split; try done; constructor. Qed.

Lemma past_le a t :
  (∀ r, reference a = Some r → Forall (λ e, ev_observed_at_epoch_ms e <= r) (accepted a)) →
  (reference a = None → accepted a = []) → (∀ r, reference a = Some r → r <= t) →
  Forall (λ e, ev_observed_at_epoch_ms e <= t) (accepted a).
Proof.
  intros Hpast Hempty Hle. destruct (reference a) as [r|]; [|by rewrite Hempty].
  specialize (Hle r eq_refl). eapply Forall_impl; [by apply (Hpast r)|]. simpl. lia.
Qed.

(** Every call of the ledger answers what the log answers. *)
Lemma serve_simulates p s a c :
  check_NetworkPrivacyPolicy p = Ok tt → simulates p s a →
  (serve s c).1 = (log_serve p a c).1 ∧ simulates p (serve s c).2 (log_serve p a c).2.
Proof.
  intros Hp [Hc Hr He Hl Hch Hpast Hempty Hpriv]. destruct c as [e|now|].
  - unfold serve, append, log_serve. rewrite Hl.
    case_bool_decide as Hraw; [done|]. cbn [raise_if].
    destruct (match reference a with Some _ => _ | None => _ end) eqn:Em; [done|].
    assert (∀ r, reference a = Some r → r <= ev_observed_at_epoch_ms e) as Hle.
    { intros r Er. rewrite Er in Em. lia. }
    split; [done|]. unfold prune. cbn. rewrite Hc, Hr, He. split; cbn; try done.
    + by apply retained_snoc.
    + apply chronological_snoc; [done|]. eapply past_le; done.
    + intros r [= <-]. apply Forall_app. split; [|by repeat constructor].
      eapply past_le; done.
    + apply Forall_app. split; [done|]. constructor; [|done]. by apply eq_None_not_Some.
  - unfold serve, snapshot, log_serve, prune. rewrite Hl, Hr, He.
    set (r := match reference a with Some r => Z.max now r | None => now end).
    assert (∀ r0, reference a = Some r0 → r0 <= r) as Hle.
    { unfold r. intros r0 ->. lia. }
    rewrite retained_advance by done. split; [done|]. split; cbn; try done.
    intros r1 [= <-]. eapply past_le; done.
  - unfold serve, clear, log_serve. rewrite He. split; [done|]. split; cbn; try done.
    + unfold retained. by destruct (reference a).
    + constructor.
Qed.

Lemma serve_all_simulates p s a cs :
  check_NetworkPrivacyPolicy p = Ok tt → simulates p s a →
  (serve_all s cs).1 = (log_serve_all p a cs).1 ∧
  simulates p (serve_all s cs).2 (log_serve_all p a cs).2.
Proof.
  intros Hp. revert s a. induction cs as [|c cs IH]; intros s a Hs; [done|]. cbn [serve_all log_serve_all].
  destruct (serve_simulates p s a c Hp Hs) as [Hr Hs'].
  destruct (serve s c) as [r s1], (log_serve p a c) as [r' a1]. cbn [fst snd] in *. subst r'.
  destruct (IH s1 a1 Hs') as [Hrs Hss]. destruct (serve_all s1 cs), (log_serve_all p a1 cs).
  cbn [fst snd] in *. by subst.
Qed.

(** C11: the bounded ledger refines an unbounded log: for every valid privacy
    policy and every sequence of appends, snapshots and clears, the ledger
    answers exactly what a ledger that keeps all accepted evidence and reports
    the newest [maximum_events] inside the retention window would answer; what
    it drops eagerly is never missed. *)
Theorem ledger_refines_log (p : NetworkPrivacyPolicy) (sink : bool) (cs : list call)
    (Hp : check_NetworkPrivacyPolicy p = Ok tt) :
  (serve_all (init p sink) cs).1 =
  (log_serve_all p {| accepted := []; reference := None |} cs).1.
Proof. by apply (serve_all_simulates p (init p sink)), init_simulates. Qed.

(** after any calls, a snapshot holds at most [maximum_events] records, in
    time order, none older than the retention period and none with a raw
    destination. *)
Theorem ledger_snapshot_bounded (p : NetworkPrivacyPolicy) (sink : bool) (cs : list call) (now : Z)
    (Hp : check_NetworkPrivacyPolicy p = Ok tt) :
  let l := (snapshot (serve_all (init p sink) cs).2 now).1 in
  Z.of_nat (length l) <= maximum_events p ∧ chronological l ∧
  Forall (λ e, now - retention_seconds p * 1000 <= ev_observed_at_epoch_ms e) l ∧
  Forall (λ e, raw_destination e = None) l.
Proof.
  destruct (serve_all_simulates p (init p sink) _ cs Hp (init_simulates p sink)) as [_ Hs].
  destruct (serve_simulates p _ _ (Snapshot now) Hp Hs) as [Hr Hs'].
  apply privacy_bounds in Hp as [_ Hmax].
  set (s := (serve_all (init p sink) cs).2) in *. set (a := (log_serve_all p _ cs).2) in *.
  assert ((snapshot s now).1 = retained p (log_serve p a (Snapshot now)).2) as -> by by injection Hr.
  destruct Hs' as [_ _ _ _ Hch _ _ Hpriv]. set (a' := (log_serve p a (Snapshot now)).2) in *.
  cbv zeta. destruct (retained_suffix p a' Hch) as [old Ho].
  split; [|split; [by apply retained_chronological|split]].
  - unfold retained. destruct (reference a'); [|simpl; lia].
    pose proof (length_last_n (Z.to_nat (maximum_events p)) (filter (λ e,
      within (z - retention_seconds p * 1000) e = true) (accepted a'))). lia.
  - unfold retained. destruct (reference a') as [r|] eqn:Er; [|constructor].
    apply Forall_drop, Forall_forall. intros e [He _]%list_elem_of_filter. unfold within in He.
    unfold a' in Er. cbn in Er. injection Er as <-. destruct (reference a); lia.
  - rewrite Ho in Hpriv. by apply Forall_app in Hpriv as [_ ?].
Qed.

(** *** Witnesses *)

Definition sample_privacy : NetworkPrivacyPolicy :=
  {| raw_destination_enabled := false; retention_seconds := 60; maximum_events := 2;
     include_process_arguments := false; include_url_components := false;
     include_payload_bytes := false; privacy_schema_version := NETWORK_PRIVACY_SCHEMA_VERSION |}.
Definition sample_evidence (id : string) (at_ms : Z) : NetworkEvidence :=
  {| flow_id := lit id; ev_process_tree_digest := sha256_hex ($"tree");
     destination_digest := sha256_hex ($"dest"); ev_protocol := TCP; ev_port := 443;
     ev_action := DENY; ev_policy_digest := sha256_hex ($"policy");
     ev_backend_digest := sha256_hex ($"backend"); grade := Grade_DENY_ALL;
     ev_observed_at_epoch_ms := at_ms; raw_destination := None;
     evidence_schema_version := NETWORK_EVIDENCE_SCHEMA_VERSION |}.
(** Three appends overflow the capacity, one is out of order, and time then
    passes the retention of the oldest left. *)
Definition sample_calls : list call :=
  [Append (sample_evidence "a" 1000); Append (sample_evidence "b" 2000);
   Append (sample_evidence "c" 50000); Append (sample_evidence "d" 4000); Snapshot 50000;
   Snapshot 62001; Clear].

Lemma ledger_refines_witness :
  (serve_all (init sample_privacy true) sample_calls).1 =
    [Appended; Appended; Appended; Refused (ValueError "evidence timestamps must be monotonic");
     Entries [sample_evidence "b" 2000; sample_evidence "c" 50000];
     Entries [sample_evidence "c" 50000]; Cleared 1] ∧
  (serve_all (init sample_privacy true) sample_calls).1 =
    (log_serve_all sample_privacy {| accepted := []; reference := None |} sample_calls).1.
Proof.
  split; [vm_compute; reflexivity|].
  apply (ledger_refines_log sample_privacy true sample_calls). vm_compute. reflexivity.
Defined.

Lemma ledger_bounded_witness :
  let l := (snapshot (serve_all (init sample_privacy false) (take 3 sample_calls)).2 50000).1 in
  length l = 2%nat ∧ Z.of_nat (length l) <= 2.
Proof.
  split; [vm_compute; reflexivity|].
  apply (ledger_snapshot_bounded sample_privacy false (take 3 sample_calls) 50000).
  vm_compute. reflexivity.
Defined.

End Ledger.
