(* ===== verification/NetworkLifecycle.v ===== *)
(** * Process-tree lifecycle

    Models [network_process_lifecycle.py]: the active process trees by
    installation and session. *)

From S2P Require Import Prelude PyStr Sha256 Regex PyVal IpAddress NetworkContract.
Local Open Scope Z_scope.
Local Open Scope py_scope.

Module Lifecycle.

Definition key : Type := pystr * pystr.
Definition key_of (i : ProcessTreeIdentity) : key := (installation_id i, session_id i).

(** The active trees by installation and session; the only method that lists
    them sorts them by that key. *)
Definition state : Type := gmap key ProcessTreeIdentity.

Definition start (s : state) (i : ProcessTreeIdentity) : result state :=
  raise_if (match s !! key_of i with
            | Some existing => negb (bool_decide (existing = i))
            | None => false
            end) (RuntimeError "process-tree session identity changed while active") ;;
  Ok (<[key_of i := i]> s).

Definition resolve (s : state) (installation session : pystr) : option ProcessTreeIdentity :=
  s !! (installation, session).

Definition stop (s : state) (i : ProcessTreeIdentity) : bool * state :=
  if bool_decide (s !! key_of i = Some i) then (true, delete (key_of i) s) else (false, s).

Definition active (s : state) : list ProcessTreeIdentity :=
  sort_on key_of ((map_to_list s).*2).

Inductive call := Start (i : ProcessTreeIdentity) | Stop (i : ProcessTreeIdentity).

(** One call; a call that raises changes nothing. *)
Definition serve (s : state) (c : call) : state :=
  match c with
  | Start i => match start s i with Ok s' => s' | Raise _ => s end
  | Stop i => (stop s i).2
  end.
Definition serve_all (s : state) (cs : list call) : state := foldl serve s cs.

(** Every tree is filed under its own key. *)
Definition filed (s : state) : Prop := map_Forall (λ k i, k = key_of i) s.

Lemma start_Ok s i s' :
  start s i = Ok s' ↔ (s !! key_of i = None ∨ s !! key_of i = Some i) ∧ s' = <[key_of i := i]> s.
Proof.
  unfold start. destruct (s !! key_of i) as [j|]; [|naive_solver].
  case_bool_decide; simpl; naive_solver.
Qed.

Lemma serve_filed s c : filed s → filed (serve s c).
Proof.
  intros Hf. destruct c as [i|i]; simpl.
  - destruct (start s i) as [s'|] eqn:E; [|done]. apply start_Ok in E as [_ ->].
    by apply map_Forall_insert_2.
  - unfold stop. case_bool_decide; [|done]. by apply map_Forall_delete.
Qed.

Lemma serve_all_filed s cs : filed s → filed (serve_all s cs).
Proof. revert s. induction cs as [|c cs IH]; intros s Hs; [done|]. by apply IH, serve_filed. Qed.

Lemma serve_keeps s c i :
  s !! key_of i = Some i → c ≠ Stop i → serve s c !! key_of i = Some i.
Proof.
  intros Hi Hc. destruct c as [j|j]; cbn [serve].
  - destruct (start s j) as [s'|] eqn:E; [|done]. apply start_Ok in E as [Hj ->].
    destruct (decide (key_of j = key_of i)) as [Ek|Ek].
    + rewrite Ek, Hi in Hj. destruct Hj as [|[= ->]]; [done|]. apply lookup_insert_eq.
    + etransitivity; [by apply lookup_insert_ne | done].
  - unfold stop. case_bool_decide as Ej; [|done]. cbn [snd].
    etransitivity; [apply lookup_delete_ne | done]. intros Ek. rewrite Ek, Hi in Ej. congruence.
Qed.

Lemma serve_all_keeps s cs i :
  s !! key_of i = Some i → Stop i ∉ cs → serve_all s cs !! key_of i = Some i.
Proof.
  revert s. induction cs as [|c cs IH]; intros s Hi Hc; [done|].
  apply not_elem_of_cons in Hc as [Hc Hcs]. apply IH; [|done]. by apply serve_keeps.
Qed.

(** a session is pinned to the process tree that started it: after a
    successful [start], through any calls that do not stop exactly that tree,
    [resolve] keeps returning it and starting a different tree under the same
    installation and session raises; and in every reachable state [active]
    lists exactly the trees [resolve] returns, sorted by installation and
    session. *)
Theorem session_pinned (before after : list call) (i : ProcessTreeIdentity) (s : state)
    (Hstart : start (serve_all ∅ before) i = Ok s) (Hstop : Stop i ∉ after) :
  let s' := serve_all s after in
  resolve s' (installation_id i) (session_id i) = Some i ∧
  (∀ j, key_of j = key_of i → j ≠ i →
    start s' j = Raise (RuntimeError "process-tree session identity changed while active")) ∧
  (∀ j, j ∈ active s' ↔ resolve s' (installation_id j) (session_id j) = Some j) ∧
  StronglySorted (key_le key_of) (active s').
Proof.
  assert (filed (serve_all ∅ before)) as Hf by apply serve_all_filed, map_Forall_empty.
  apply start_Ok in Hstart as [_ ->].
  assert (filed (serve_all (<[key_of i:=i]> (serve_all ∅ before)) after)) as Hf'
    by by apply serve_all_filed, map_Forall_insert_2.
  assert (serve_all (<[key_of i:=i]> (serve_all ∅ before)) after !! key_of i = Some i) as Hi
    by (apply serve_all_keeps; [apply lookup_insert_eq | done]).
  cbv zeta. split; [done|]. split; [|split; [|apply sort_on_sorted]].
  - intros j Hk Hne. unfold start. rewrite Hk, Hi, bool_decide_false by done. done.
  - intros j. unfold active. rewrite elem_of_sort_on, list_elem_of_fmap. split.
    + intros ([k j'] & -> & Hin%elem_of_map_to_list). simpl. pose proof (Hf' _ _ Hin) as ->. done.
    + intros Hj. exists (key_of j, j). split; [done|]. by apply elem_of_map_to_list.
Qed.

Definition tree (pid : Z) : ProcessTreeIdentity :=
  {| installation_id := $"install-1"; session_id := $"session-1"; root_pid := pid;
     root_start_time_ns := 7; executable_digest := replicate 64 97 |}.

Lemma session_pinned_witness :
  ∃ s, start (serve_all ∅ [Start (tree 1); Stop (tree 1)]) (tree 2) = Ok s ∧
    resolve (serve_all s [Stop (tree 1); Start (tree 3)]) ($"install-1") ($"session-1") = Some (tree 2).
Proof.
  pose (s := <[key_of (tree 2) := tree 2]> (serve_all ∅ [Start (tree 1); Stop (tree 1)])).
  assert (start (serve_all ∅ [Start (tree 1); Stop (tree 1)]) (tree 2) = Ok s) as E.
  { apply start_Ok. split; [left; vm_compute; reflexivity | reflexivity]. }
  exists s. split; [exact E|].
  apply (session_pinned [Start (tree 1); Stop (tree 1)] [Stop (tree 1); Start (tree 3)] (tree 2) s E).
  intros [Hx|[Hx|Hx%elem_of_nil]%elem_of_cons]%elem_of_cons; [discriminate Hx|discriminate Hx|exact Hx].
Defined.

End Lifecycle.
