(* ===== verification/NetworkCorrelator.v ===== *)
(** * Destination correlation

    Models [network_destination_correlator.py] with [ResolutionBinding],
    [bind_resolution] and [resolution_allows] of [network_local_core.py]. *)

From S2P Require Import Prelude PyStr Sha256 Regex PyVal IpAddress NetworkContract.
Local Open Scope Z_scope.
Local Open Scope py_scope.

Module Correlator.

Record ResolutionBinding := {
  host : Destination;
  addresses : list Destination;
  binding_observed_at : Z;
  binding_expires_at : Z;
}.
Global Instance ResolutionBinding_eq_dec : EqDecision ResolutionBinding.
Proof. solve_decision. Defined.

(** The key of [__post_init__]'s sort, for a value [ip_address] accepts. *)
Definition address_key (d : Destination) : Z * pystr :=
  (match ip_address (dest_value d) with Some a => ip_version a | None => 0 end, dest_value d).

(** [ResolutionBinding.__post_init__] *)
Definition make_ResolutionBinding (b : ResolutionBinding) : result ResolutionBinding :=
  raise_if (negb (bool_decide (dest_kind (host b) = HOST)))
    (ValueError "resolution host must be a hostname") ;;
  raise_if (bool_decide (addresses b = [])
            || existsb (λ d, negb (bool_decide (dest_kind d = IP))) (addresses b))
    (ValueError "resolution addresses must contain IP destinations") ;;
  raise_if ((binding_observed_at b <=? 0) || (binding_expires_at b <=? binding_observed_at b))
    (ValueError "resolution lifetime must be positive") ;;
  for_each (λ d, py_ip_address (dest_value d) ;; Ok tt) (addresses b) ;;
  Ok {| host := host b; addresses := sorted_set_on address_key (addresses b);
        binding_observed_at := binding_observed_at b; binding_expires_at := binding_expires_at b |}.

(** [ResolutionBinding.digest] *)
Definition binding_digest (b : ResolutionBinding) : pystr :=
  canonical_digest
    (JObj [($"host", destination_json (host b));
           ($"addresses", JArr (destination_json <$> addresses b));
           ($"observed_at_epoch_ms", JInt (binding_observed_at b));
           ($"expires_at_epoch_ms", JInt (binding_expires_at b))]).

Definition state : Type := list (pystr * ResolutionBinding).
Definition init : state := [].

Record DestinationCorrelation := {
  correlated_address : Destination;
  hosts : list Destination;
  binding_digests : list pystr;
}.

Section correlator.
Context `{PyUnicode, IdnaCodec}.

Definition bind_resolution (h : pystr) (addrs : list pystr) (observed ttl_seconds : Z)
    : result ResolutionBinding :=
  raise_if (ttl_seconds <=? 0) (ValueError "ttl_seconds must be positive") ;;
  hd ← make_Destination HOST h ;
  ads ← map_result (make_Destination IP) addrs ;
  make_ResolutionBinding
    {| host := hd; addresses := ads; binding_observed_at := observed;
       binding_expires_at := observed + ttl_seconds * 1000 |}.

Definition resolution_allows (b : ResolutionBinding) (address : pystr) (now : Z) : result bool :=
  if (now <? binding_observed_at b) || (binding_expires_at b <=? now) then Ok false
  else
  candidate ← make_Destination IP address ;
  Ok (py_in candidate (addresses b)).

Definition observe (s : state) (b : ResolutionBinding) : state := dict_set (binding_digest b) b s.

Definition correlate (s : state) (address : pystr) (now : Z) : result DestinationCorrelation :=
  ip ← make_Destination IP address ;
  allowed ← filter_result (λ b, resolution_allows b (dest_value ip) now) (s.*2) ;
  let matches := sort_on (λ b, (dest_value (host b), binding_digest b)) allowed in
  Ok {| correlated_address := ip;
        hosts := sorted_set_on dest_value (host <$> matches);
        binding_digests := binding_digest <$> matches |}.

Definition binding_lapsed (now : Z) (b : ResolutionBinding) : bool := binding_expires_at b <=? now.
Definition expire (s : state) (now : Z) : Z * state :=
  (Z.of_nat (length (dict_doomed (binding_lapsed now) s)), dict_sweep (binding_lapsed now) s).
End correlator.

(** *** Histories *)

Inductive op := Observe (b : ResolutionBinding) | Expire (now : Z).
Definition perform (s : state) (o : op) : state :=
  match o with Observe b => observe s b | Expire now => (expire s now).2 end.
Definition run (ops : list op) : state := foldl perform init ops.

(** A binding proves, at [now], that its host resolved to the address. *)
Definition binds (b : ResolutionBinding) (ip : Destination) (now : Z) : bool :=
  (binding_observed_at b <=? now) && (now <? binding_expires_at b) && py_in ip (addresses b).

(** *** Lemmas *)

(** For a canonical address [resolution_allows] cannot raise. *)
Lemma resolution_allows_binds `{PyUnicode, IdnaCodec} address ip b now :
  make_Destination IP address = Ok ip → resolution_allows b (dest_value ip) now = Ok (binds b ip now).
Proof.
  intros Hip. unfold make_Destination in Hip. apply bind_Ok in Hip as (c & Hc & Hip).
  injection Hip as <-. unfold resolution_allows, binds. cbn [dest_value].
  destruct (Z.ltb_spec now (binding_observed_at b)), (Z.leb_spec (binding_expires_at b) now),
    (Z.leb_spec (binding_observed_at b) now), (Z.ltb_spec now (binding_expires_at b)); try lia; try done.
  unfold make_Destination. by rewrite (canonical_ip_fixed _ _ Hc).
Qed.

Lemma correlate_Ok `{PyUnicode, IdnaCodec} s address ip now :
  make_Destination IP address = Ok ip →
  ∃ c, correlate s address now = Ok c ∧ correlated_address c = ip ∧
    (∀ h, h ∈ hosts c ↔ ∃ b, b ∈ s.*2 ∧ host b = h ∧ binds b ip now = true) ∧
    (∀ d, d ∈ binding_digests c ↔ ∃ b, b ∈ s.*2 ∧ binding_digest b = d ∧ binds b ip now = true).
Proof.
  intros Hip. unfold correlate. rewrite Hip. unfold mbind at 1, result_bind at 1.
  rewrite (filter_result_pure _ (λ b, binds b ip now)) by (intros b; by eapply resolution_allows_binds).
  unfold mbind at 1, result_bind at 1. cbv zeta. eexists. split; [reflexivity|]. cbn [correlated_address hosts binding_digests].
  split; [done|]. split; intros x; rewrite ?elem_of_sorted_set_on, list_elem_of_fmap;
    setoid_rewrite elem_of_sort_on; setoid_rewrite list_elem_of_filter; naive_solver.
Qed.

(** Bindings are filed under their digests, and each was observed. *)
Record filed (ops : list op) (s : state) : Prop := {
  filed_unique : NoDup (dict_keys s);
  filed_digest : ∀ k b, (k, b) ∈ s → k = binding_digest b ∧ Observe b ∈ ops;
}.

Lemma perform_filed ops s o : filed ops s → filed (ops ++ [o]) (perform s o).
Proof.
  intros [Hu Hd]. destruct o as [b|now]; simpl.
  - split; [by apply NoDup_dict_set|]. intros k c [[= -> ->]|Hin]%dict_set_elem.
    + split; [done|]. apply elem_of_app. right. by left.
    + destruct (Hd _ _ Hin). split; [done|]. apply elem_of_app. by left.
  - split; [by apply NoDup_dict_sweep|]. intros k c Hin%dict_sweep_elem.
    destruct (Hd _ _ Hin). split; [done|]. apply elem_of_app. by left.
Qed.

Lemma run_snoc ops o : run (ops ++ [o]) = perform (run ops) o.
Proof. unfold run. by rewrite foldl_app. Qed.

Lemma run_filed ops : filed ops (run ops).
Proof.
  induction ops as [|o ops IH] using rev_ind; [split; [constructor|by intros k b ?%elem_of_nil]|].
  rewrite run_snoc. by apply perform_filed.
Qed.

(** Distinct observed bindings have distinct digests. *)
Definition collision_free (ops : list op) : Prop :=
  ∀ b c, Observe b ∈ ops → Observe c ∈ ops → binding_digest b = binding_digest c → b = c.

(** A binding that outlives every sweep is still held. *)
Lemma run_holds ops b now :
  collision_free ops → (∀ t, Expire t ∈ ops → t <= now) → Observe b ∈ ops →
  now < binding_expires_at b → dict_lookup (binding_digest b) (run ops) = Some b.
Proof.
  induction ops as [|o ops IH] using rev_ind; intros Hcf Ht Hb Hnow; [by apply elem_of_nil in Hb|].
  assert (Observe b ∈ ops → dict_lookup (binding_digest b) (run ops) = Some b) as Hold.
  { intros Hin. apply IH; [|set_solver|done|done]. intros x y Hx Hy. apply Hcf; set_solver. }
  rewrite run_snoc. destruct o as [c|t]; simpl.
  - unfold observe. rewrite dict_lookup_set. case_decide as Hd.
    + f_equal. apply Hcf; [set_solver|done|done].
    + apply Hold. apply elem_of_app in Hb as [Hb|Hb%list_elem_of_singleton]; [done|]. congruence.
  - apply dict_lookup_sweep_kept; [apply run_filed| |].
    + apply Hold. set_solver.
    + unfold binding_lapsed. specialize (Ht t). apply Z.leb_gt.
      assert (t <= now) by (apply Ht; set_solver). lia.
Qed.

(** correlation reports exactly what unexpired observations prove: after
    any history of observations and sweeps, for an address that parses, at a
    time no sweep has passed and with no digest collision among the observed
    bindings, [correlate] returns (it never raises) and names a host if and only
    if some observed binding of that host, valid at that time, lists the
    canonical address; sweeping expired bindings loses nothing. *)
Theorem correlation_exact `{PyUnicode, IdnaCodec} (ops : list op) (address : pystr) (ip : Destination)
    (now : Z) (Hip : make_Destination IP address = Ok ip)
    (Hsweeps : ∀ t, Expire t ∈ ops → t <= now) (Hcf : collision_free ops) :
  ∃ c, correlate (run ops) address now = Ok c ∧ correlated_address c = ip ∧
    ∀ h, h ∈ hosts c ↔ ∃ b, Observe b ∈ ops ∧ host b = h ∧
      binding_observed_at b <= now < binding_expires_at b ∧ ip ∈ addresses b.
Proof.
  destruct (correlate_Ok (run ops) address ip now Hip) as (c & Hc & Ha & Hh & _).
  exists c. split; [done|]. split; [done|]. intros h. rewrite Hh. unfold binds.
  setoid_rewrite andb_true_iff. setoid_rewrite andb_true_iff. setoid_rewrite py_in_true.
  setoid_rewrite Z.leb_le. setoid_rewrite Z.ltb_lt. split.
  - intros (b & ([k b'] & -> & Hin)%list_elem_of_fmap & Hb & [? ?] & ?). exists b'.
    by destruct (filed_digest _ _ (run_filed ops) k b' Hin).
  - intros (b & Hb & Hbh & Hlive & Hin). exists b. split; [|done].
    apply list_elem_of_fmap. exists (binding_digest b, b). split; [done|].
    apply dict_lookup_elem, (run_holds ops b now); [done..|lia].
Qed.

Definition sample_binding (h : string) (addr : string) : ResolutionBinding :=
  {| host := {| dest_kind := HOST; dest_value := lit h |};
     addresses := [{| dest_kind := IP; dest_value := lit addr |}];
     binding_observed_at := 1000; binding_expires_at := 5000 |}.
Definition sample_ops : list op :=
  [Observe (sample_binding "a.example" "10.0.0.1"); Expire 1500;
   Observe (sample_binding "b.example" "10.0.0.2")].

Lemma correlation_exact_witness :
  ∃ c, correlate (H:=ascii_unicode) (H0:=ascii_idna) (run sample_ops) ($"10.0.0.1") 2000 = Ok c ∧
    host (sample_binding "a.example" "10.0.0.1") ∈ hosts c.
Proof.
  destruct (correlation_exact (H:=ascii_unicode) (H0:=ascii_idna) sample_ops ($"10.0.0.1")
    {| dest_kind := IP; dest_value := $"10.0.0.1" |} 2000) as (c & Hc & _ & Hh).
  - vm_compute. reflexivity.
  - intros t Ht. unfold sample_ops in Ht.
    repeat (apply elem_of_cons in Ht as [Ht|Ht]; [first [discriminate Ht | injection Ht as ->; lia]|]).
    by apply elem_of_nil in Ht.
  - assert (∀ b, Observe b ∈ sample_ops → b = sample_binding "a.example" "10.0.0.1" ∨
      b = sample_binding "b.example" "10.0.0.2") as Hobs.
    { intros b Hb. unfold sample_ops in Hb.
      repeat (apply elem_of_cons in Hb as [Hb|Hb];
        [first [discriminate Hb | injection Hb as ->; auto]|]).
      by apply elem_of_nil in Hb. }
    intros x y Hx Hy Hd. destruct (Hobs x Hx) as [->| ->], (Hobs y Hy) as [->| ->]; try reflexivity;
      vm_compute in Hd; discriminate Hd.
  - exists c. split; [exact Hc|]. apply Hh. exists (sample_binding "a.example" "10.0.0.1").
    split; [left|]. split; [reflexivity|]. split; [simpl; lia | left].
Defined.

End Correlator.
