(* ===== verification/JsSemver.v ===== *)
(** * JavaScript version ranges

    Models [js_semver.py] and [node_semver.py]: parsing of versions and of
    range selectors, the precedence of versions, the expansion of selectors to
    comparators, and the two matchers.

    The patterns are decomposed: [_NUMERIC_COMPONENT] is [canonical_digits],
    [_IDENTIFIER] is [is_identifier], and in [_JS_VERSION_RE] the first plus
    sign starts the build and the first dash before it the prerelease, since
    neither occurs in what precedes.  The digits that [\d] and [int] accept
    outside ASCII are the parameter [PyDecimal]. *)

From S2P Require Import Prelude PyStr Sha256 Regex PyVal.
Local Open Scope Z_scope.
Local Open Scope py_scope.

Definition MAX_SEMVER_LENGTH : nat := 256.
Definition MAX_SELECTOR_LENGTH : nat := 1024.
Definition MAX_SELECTOR_CLAUSES : nat := 32.
Definition MAX_COMPARATORS_PER_CLAUSE : nat := 64.
Definition MAX_SAFE_INTEGER : Z := 9007199254740991.

(** [[0-9A-Za-z-]+] *)
Definition identifier_char (c : Z) : bool := is_alnum c || (c =? 45).
Definition is_identifier (s : pystr) : bool :=
  match s with [] => false | _ => forallb identifier_char s end.

(** ** Versions *)

Record JsSemverVersion := {
  major : Z;
  minor : Z;
  patch : Z;
  prerelease : option (list pystr);
}.
Global Instance JsSemverVersion_eq_dec : EqDecision JsSemverVersion.
Proof. solve_decision. Defined.

Definition stable (x y z : Z) : JsSemverVersion :=
  {| major := x; minor := y; patch := z; prerelease := None |}.
(** [JsSemverVersion(x, y, z, ("0",))]: below every version of that base. *)
Definition floor_of (x y z : Z) : JsSemverVersion :=
  {| major := x; minor := y; patch := z; prerelease := Some [$"0"] |}.

Definition base (v : JsSemverVersion) : Z * Z * Z := (major v, minor v, patch v).

(** [_compare_prerelease]; the lists are consumed in step, so the difference of
    the lengths left is the difference of the lengths. *)
Fixpoint compare_prerelease (left right : list pystr) : Z :=
  match left, right with
  | x :: left', y :: right' =>
      if bool_decide (x = y) then compare_prerelease left' right'
      else if str_isdigit x && str_isdigit y then py_int x - py_int y
      else if str_isdigit x then -1
      else if str_isdigit y then 1
      else if py_ltb x y then -1 else 1
  | _, _ => Z.of_nat (length left) - Z.of_nat (length right)
  end.

(** [JsSemverVersion.__lt__] and the comparisons [total_ordering] derives. *)
Definition version_lt (a b : JsSemverVersion) : bool :=
  if negb (bool_decide (base a = base b)) then py_ltb (base a) (base b)
  else match prerelease a, prerelease b with
       | None, _ => false
       | Some _, None => true
       | Some p, Some q => compare_prerelease p q <? 0
       end.
Definition version_eq (a b : JsSemverVersion) : bool := bool_decide (a = b).
Definition version_ge (a b : JsSemverVersion) : bool := negb (version_lt a b).
Definition version_le (a b : JsSemverVersion) : bool := version_lt a b || version_eq a b.
Definition version_gt (a b : JsSemverVersion) : bool := negb (version_lt a b) && negb (version_eq a b).

(** ** Parsing versions *)

(** [_parse_identifiers] *)
Definition parse_identifiers (value : option pystr) (numeric_leading_zero_forbidden : bool)
    : option (list pystr) :=
  match value with
  | None => None
  | Some value =>
      let identifiers := split_char 46 value in
      if existsb (λ i, negb (is_identifier i)) identifiers then None
      else if numeric_leading_zero_forbidden
              && existsb (λ i, str_isdigit i && (1 <? length i)%nat && startswith [48] i) identifiers
      then None
      else Some identifiers
  end.

Definition strip_v (s : pystr) : pystr := if startswith [118] s then drop 1 s else s.

(** [s.partition(sep)] as the text before and the text after, if any. *)
Definition cut (sep : Z) (s : pystr) : pystr * option pystr :=
  let '(a, found, b) := partition_char sep s in (a, if found : bool then Some b else None).

(** The groups of [_JS_VERSION_RE.fullmatch]. *)
Definition js_version_groups (s : pystr)
    : option (pystr * pystr * pystr * option pystr * option pystr) :=
  let '(rest, build) := cut 43 (strip_v s) in
  let '(core, pre) := cut 45 rest in
  match split_char 46 core with
  | [x; y; z] =>
      if canonical_digits x && canonical_digits y && canonical_digits z
         && match pre with Some p => forallb is_identifier (split_char 46 p) | None => true end
         && match build with Some b => forallb is_identifier (split_char 46 b) | None => true end
      then Some (x, y, z, pre, build) else None
  | _ => None
  end.

Definition parse_js_semver (value : option pystr) : option JsSemverVersion :=
  match value with
  | None | Some [] => None
  | Some value =>
      let normalized := strip value in
      if bool_decide (normalized = []) || negb (bool_decide (normalized = value))
         || (MAX_SEMVER_LENGTH <? length normalized)%nat then None
      else
      match js_version_groups normalized with
      | None => None
      | Some (x, y, z, pre, build) =>
          let prerelease := parse_identifiers pre true in
          if bool_decide (is_Some pre) && bool_decide (prerelease = None) then None
          else if bool_decide (is_Some build) && bool_decide (parse_identifiers build false = None) then None
          else
          let components := [py_int x; py_int y; py_int z] in
          if existsb (λ c, MAX_SAFE_INTEGER <? c) components then None
          else Some {| major := py_int x; minor := py_int y; patch := py_int z; prerelease := prerelease |}
      end
  end.

(** ** Range versions *)

Record RangeVersion := {
  range_major : option Z;
  range_minor : option Z;
  range_patch : option Z;
  range_prerelease : option (list pystr);
}.

Definition complete (r : RangeVersion) : bool :=
  bool_decide (is_Some (range_major r)) && bool_decide (is_Some (range_minor r))
  && bool_decide (is_Some (range_patch r)).

Definition lower_bound (r : RangeVersion) : option JsSemverVersion :=
  match range_major r with
  | None => None
  | Some m =>
      Some {| major := m; minor := default 0 (range_minor r); patch := default 0 (range_patch r);
              prerelease := range_prerelease r |}
  end.

Definition is_wildcard (s : pystr) : bool := bool_decide (s ∈ [$"*"; $"x"; $"X"]).

(** The loop over the parts of a range's core. *)
Fixpoint range_components (parts : list pystr) (wildcard_seen : bool) : option (list (option Z)) :=
  match parts with
  | [] => Some []
  | p :: parts =>
      if is_wildcard p then cons None <$> range_components parts true
      else if wildcard_seen || negb (canonical_digits p) then None
      else if MAX_SAFE_INTEGER <? py_int p then None
      else cons (Some (py_int p)) <$> range_components parts wildcard_seen
  end.

(** [_parse_range_version] *)
Definition parse_range_version (value : pystr) : option RangeVersion :=
  if bool_decide (value = []) || (MAX_SEMVER_LENGTH <? length value)%nat
     || negb (bool_decide (value = strip value)) then None
  else
  let normalized := strip_v value in
  if bool_decide (normalized = []) then None
  else
  let '(core_and_prerelease, plus, build) := partition_char 43 normalized in
  if plus && (bool_decide (build = []) || contains [43] build) then None
  else
  let '(core, dash, prerelease_raw) := partition_char 45 core_and_prerelease in
  if dash && bool_decide (prerelease_raw = []) then None
  else
  let parts := split_char 46 core in
  if negb ((1 <=? length parts)%nat && (length parts <=? 3)%nat)
     || existsb (λ p, bool_decide (p = [])) parts then None
  else
  match range_components parts false with
  | None => None
  | Some components =>
      let components := components ++ replicate (3 - length components) None in
      let complete := forallb (λ c, bool_decide (is_Some c)) components in
      let prerelease := if dash then parse_identifiers (Some prerelease_raw) true else None in
      if dash && (negb complete || bool_decide (prerelease = None)) then None
      else
      let parsed_build := if plus then parse_identifiers (Some build) false else None in
      if plus && (negb complete || bool_decide (parsed_build = None)) then None
      else
      match components with
      | [x; y; z] =>
          Some {| range_major := x; range_minor := y; range_patch := z; range_prerelease := prerelease |}
      | _ => None
      end
  end.

(** ** Comparators *)

Inductive Operator := OpGe | OpLe | OpGt | OpLt | OpEq.
Global Instance Operator_eq_dec : EqDecision Operator.
Proof. solve_decision. Defined.

Record Comparator := { operator : Operator; version : JsSemverVersion }.
Global Instance Comparator_eq_dec : EqDecision Comparator.
Proof. solve_decision. Defined.
Notation comparator o v := {| operator := o; version := v |}.

(** [_Comparator.matches] *)
Definition comparator_matches (c : Comparator) (candidate : JsSemverVersion) : bool :=
  match operator c with
  | OpGe => version_ge candidate (version c)
  | OpLe => version_le candidate (version c)
  | OpGt => version_gt candidate (version c)
  | OpLt => version_lt candidate (version c)
  | OpEq => version_eq candidate (version c)
  end.

(** [_comparator_set_matches] *)
Definition comparator_set_matches (v : JsSemverVersion) (cs : list Comparator) : bool :=
  if negb (forallb (λ c, comparator_matches c v) cs) then false
  else match prerelease v with
       | None => true
       | Some _ =>
           existsb (λ c, bool_decide (is_Some (prerelease (version c)))
                         && bool_decide (base (version c) = base v)) cs
       end.

(** [_partial_upper_bound] *)
Definition partial_upper_bound (r : RangeVersion) : JsSemverVersion :=
  match range_major r, range_minor r with
  | None, _ => floor_of 0 0 0
  | Some x, None => floor_of (x + 1) 0 0
  | Some x, Some y => floor_of x (y + 1) 0
  end.

(** [_expand_caret] *)
Definition expand_caret (r : RangeVersion) : list Comparator :=
  match lower_bound r with
  | None => []
  | Some lower =>
      let upper :=
        if (0 <? major lower) || bool_decide (range_minor r = None) then floor_of (major lower + 1) 0 0
        else if (0 <? minor lower) || bool_decide (range_patch r = None) then floor_of 0 (minor lower + 1) 0
        else floor_of 0 0 (patch lower + 1) in
      [comparator OpGe lower; comparator OpLt upper]
  end.

(** [_expand_tilde] *)
Definition expand_tilde (r : RangeVersion) : list Comparator :=
  match lower_bound r with
  | None => []
  | Some lower =>
      let upper :=
        if bool_decide (range_minor r = None) then floor_of (major lower + 1) 0 0
        else floor_of (major lower) (minor lower + 1) 0 in
      [comparator OpGe lower; comparator OpLt upper]
  end.

(** [_expand_primitive_comparator]; [None] is the empty operator. *)
Definition expand_primitive_comparator (o : option Operator) (r : RangeVersion) : list Comparator :=
  match lower_bound r with
  | None =>
      match o with
      | None | Some OpEq | Some OpGe | Some OpLe => []
      | _ => [comparator OpLt (floor_of 0 0 0)]
      end
  | Some lower =>
      if complete r then [comparator (default OpEq o) lower]
      else
      let upper := partial_upper_bound r in
      match o with
      | None | Some OpEq => [comparator OpGe lower; comparator OpLt upper]
      | Some OpGe => [comparator OpGe lower]
      | Some OpGt => [comparator OpGe (stable (major upper) (minor upper) (patch upper))]
      | Some OpLe => [comparator OpLt upper]
      | Some OpLt => [comparator OpLt (floor_of (major lower) (minor lower) (patch lower))]
      end
  end.

(** [_expand_hyphen_range] *)
Definition expand_hyphen_range (lower_raw upper_raw : pystr) : option (list Comparator) :=
  match parse_range_version lower_raw, parse_range_version upper_raw with
  | Some lower, Some upper =>
      Some (match lower_bound lower with Some l => [comparator OpGe l] | None => [] end ++
            match lower_bound upper with
            | Some u => if complete upper then [comparator OpLe u]
                        else [comparator OpLt (partial_upper_bound upper)]
            | None => []
            end)
  | _, _ => None
  end.

(** The alternatives of [_COMPARATOR_RE], in order: the first whose operator
    starts the token and leaves a version. *)
Definition operator_alternatives : list (pystr * Operator) :=
  [($">=", OpGe); ($"<=", OpLe); ($">", OpGt); ($"<", OpLt); ($"=", OpEq)].
Fixpoint split_operator (alts : list (pystr * Operator)) (token : pystr) : option Operator * pystr :=
  match alts with
  | [] => (None, token)
  | (p, o) :: alts =>
      if startswith p token && (length p <? length token)%nat then (Some o, drop (length p) token)
      else split_operator alts token
  end.

(** [_expand_selector_token] *)
Definition expand_selector_token (token : pystr) : option (list Comparator) :=
  if startswith [94] token then expand_caret <$> parse_range_version (drop 1 token)
  else if startswith [126] token then expand_tilde <$> parse_range_version (drop 1 token)
  else if bool_decide (token = []) then None
  else
  let '(o, version) := split_operator operator_alternatives token in
  expand_primitive_comparator o <$> parse_range_version version.

(** The loop over the tokens of a clause. *)
Fixpoint expand_tokens (tokens : list pystr) (comparators : list Comparator) : option (list Comparator) :=
  match tokens with
  | [] => Some comparators
  | t :: tokens =>
      match expand_selector_token t with
      | None => None
      | Some expanded =>
          let comparators := comparators ++ expanded in
          if (MAX_COMPARATORS_PER_CLAUSE <? length comparators)%nat then None
          else expand_tokens tokens comparators
      end
  end.

(** The groups of [_HYPHEN_RANGE_RE.fullmatch]: three words, the second a dash,
    with nothing around them. *)
Definition hyphen_groups (clause : pystr) : option (pystr * pystr) :=
  if negb (bool_decide (clause = strip clause)) then None
  else match split_ws clause with
       | [lower; dash; upper] => if bool_decide (dash = $"-") then Some (lower, upper) else None
       | _ => None
       end.

(** [_parse_selector_clause] *)
Definition parse_selector_clause (clause : pystr) : option (list Comparator) :=
  if bool_decide (clause = []) || contains [44] clause then None
  else
  let comparators :=
    match hyphen_groups clause with
    | Some (lower, upper) => expand_hyphen_range lower upper
    | None =>
        let tokens := split_ws clause in
        if bool_decide (tokens = []) || (MAX_COMPARATORS_PER_CLAUSE <? length tokens)%nat then None
        else expand_tokens tokens []
    end in
  match comparators with
  | None => None
  | Some comparators =>
      if existsb (λ c, (MAX_SAFE_INTEGER <? major (version c)) || (MAX_SAFE_INTEGER <? minor (version c))
                       || (MAX_SAFE_INTEGER <? patch (version c))) comparators then None
      else Some (filter (λ c, negb (bool_decide (operator c = OpGe) && version_eq (version c) (stable 0 0 0))
                              = true) comparators)
  end.

(** The loop over the clauses. *)
Fixpoint parse_clauses (raw : list pystr) : option (list (list Comparator)) :=
  match raw with
  | [] => Some []
  | r :: raw =>
      match parse_selector_clause (strip r) with
      | None => None
      | Some clause => cons clause <$> parse_clauses raw
      end
  end.

Definition version_matches_js_selector (version selector : pystr) : bool :=
  match parse_js_semver (Some version) with
  | None => false
  | Some parsed =>
      if (MAX_SELECTOR_LENGTH <? length selector)%nat then false
      else
      let normalized := strip selector in
      let normalized :=
        if bool_decide (normalized = []) || bool_decide (normalized = $"latest") then $"*" else normalized in
      let raw := split_pair 124 124 normalized in
      if (MAX_SELECTOR_CLAUSES <? length raw)%nat then false
      else match parse_clauses raw with
           | None => false
           | Some clauses => existsb (comparator_set_matches parsed) clauses
           end
  end.

(** Tuple comparison of [(version, text)]. *)
Definition entry_lt (a b : JsSemverVersion * pystr) : bool :=
  if negb (version_eq a.1 b.1) then version_lt a.1 b.1 else py_ltb a.2 b.2.
(** [list.sort()] *)
Fixpoint insert_entry (x : JsSemverVersion * pystr) (l : list (JsSemverVersion * pystr)) :=
  match l with
  | [] => [x]
  | y :: l' => if entry_lt y x then y :: insert_entry x l' else x :: y :: l'
  end.
Definition sort_entries (l : list (JsSemverVersion * pystr)) : list (JsSemverVersion * pystr) :=
  foldr insert_entry [] l.

Definition highest_js_version_for_selector (versions : list pystr) (selector : pystr) : option pystr :=
  let matching :=
    omap (λ v, match parse_js_semver (Some v) with
               | Some p => if version_matches_js_selector v selector then Some (p, v) else None
               | None => None
               end) versions in
  snd <$> last (sort_entries matching).

(** ** [node_semver.py] *)

(** The characters [\d] matches, with the digits [int] reads them as; none is a
    surrogate. *)
Class PyDecimal := {
  decimal : Z → option Z;
  decimal_ascii : ∀ c, c < 128 → decimal c = if is_digit c then Some (c - 48) else None;
  decimal_scalar : ∀ c, is_Some (decimal c) → in_range 0 55295 c || in_range 57344 1114111 c = true;
}.
Lemma ascii_decimal_scalar (c : Z) :
  is_Some (if is_digit c then Some (c - 48) else None) → in_range 0 55295 c || in_range 57344 1114111 c = true.
Proof. destruct (is_digit c) eqn:E; [|by intros []]. unfold is_digit, in_range in *. lia. Qed.
Definition ascii_decimal : PyDecimal :=
  {| decimal := λ c, if is_digit c then Some (c - 48) else None; decimal_ascii := λ c _, eq_refl;
     decimal_scalar := ascii_decimal_scalar |}.

Section node.
Context `{PyDecimal}.

(** [\d+], with the value [int] gives it. *)
Definition decimal_number (s : pystr) : option Z :=
  match s with
  | [] => None
  | _ => foldl (λ acc c, n ← acc; d ← decimal c; Some (10 * n + d)) (Some 0) s
  end.

(** [(\d+)\.(\d+)\.(\d+)] *)
Definition stable_version (s : pystr) : option (Z * Z * Z) :=
  match split_char 46 s with
  | [x; y; z] =>
      match decimal_number x, decimal_number y, decimal_number z with
      | Some x, Some y, Some z => Some (x, y, z)
      | _, _, _ => None
      end
  | _ => None
  end.

(** [\d+\.\d+\.\d+(?:-[0-9A-Za-z.-]+)?] *)
Definition exact_version (s : pystr) : bool :=
  let '(core, suffix) := cut 45 s in
  bool_decide (is_Some (stable_version core))
  && match suffix with
     | Some t => negb (bool_decide (t = [])) && forallb (λ c, identifier_char c || (c =? 46)) t
     | None => true
     end.

Definition node_semver_spec_matches (specifier version : pystr) : bool :=
  if bool_decide (specifier = version) && exact_version version then true
  else
  let '(op, rest) :=
    match specifier with
    | c :: s => if (c =? 126) || (c =? 94) then (Some c, s) else (None, specifier)
    | [] => (None, [])
    end in
  match stable_version rest, stable_version version with
  | Some requested, Some installed =>
      if py_ltb installed requested then false
      else match op with
           | Some 94 =>
               if 0 <? requested.1.1 then installed.1.1 =? requested.1.1
               else if 0 <? requested.1.2 then bool_decide (installed.1 = requested.1)
               else bool_decide (installed = requested)
           | Some _ => bool_decide (installed.1 = requested.1)
           | None => bool_decide (installed = requested)
           end
  | _, _ => false
  end.
End node.

(** Examples of each form of range. *)
Example selector_examples :
  (λ p : string * string, version_matches_js_selector (lit p.1) (lit p.2)) <$>
    [("1.2.3", "^1.2.0"); ("2.0.0", "^1.2.0"); ("2.0.0-0", "^1.2.0"); ("0.2.9", "^0.2.3");
     ("1.2.3-rc.1", ">=1.2.3-rc.0 <2"); ("1.3.0-rc.1", ">=1.2.3-rc.0 <2"); ("1.5.0", "1.2 - 1.5");
     ("1.5.9", "1.2 - 1.5"); ("1.6.0", "1.2 - 1.5"); ("3.0.0", "1.x || >=2.5.0"); ("3.0.0", "1.x || =>2")]
  = [true; false; false; true; true; false; true; true; false; true; false].
Proof. vm_compute. reflexivity. Qed.

(** ** Precedence *)

(** What parsing ensures of a prerelease identifier and of a version. *)
Definition wf_identifier (i : pystr) : bool :=
  is_identifier i && negb (str_isdigit i && (1 <? length i)%nat && startswith [48] i).
Definition wf_version (v : JsSemverVersion) : Prop :=
  ∀ p, prerelease v = Some p → Forall (λ i, wf_identifier i = true) p.

(** Sort keys: numbers before words, a prerelease before its release. *)
Definition identifier_key (i : pystr) : Z * Z * pystr :=
  if str_isdigit i then (0, py_int i, []) else (1, 0, i).
Definition version_key (v : JsSemverVersion) : Z * Z * Z * (Z * list (Z * Z * pystr)) :=
  (base v, match prerelease v with None => (1, []) | Some p => (0, identifier_key <$> p) end).

Lemma wf_digits i : wf_identifier i = true → str_isdigit i = true → canonical_digits i = true.
Proof.
  unfold wf_identifier, canonical_digits. intros [_ Hz]%andb_true_iff Hd. rewrite Hd in *. exact Hz.
Qed.

Lemma identifier_key_inj i j :
  wf_identifier i = true → wf_identifier j = true → identifier_key i = identifier_key j → i = j.
Proof.
  intros Hi Hj. unfold identifier_key.
  destruct (str_isdigit i) eqn:Di, (str_isdigit j) eqn:Dj; try done; [|by intros [= ->]].
  intros [= E]. by rewrite <- (str_py_int i), <- (str_py_int j), E by by apply wf_digits.
Qed.

(** One step of [_compare_prerelease]. *)
Lemma identifier_key_cmp i j :
  wf_identifier i = true → wf_identifier j = true → i ≠ j →
  py_cmp (identifier_key i) (identifier_key j) =
  (if str_isdigit i && str_isdigit j then py_int i ?= py_int j
   else if str_isdigit i then Lt else if str_isdigit j then Gt else py_cmp i j).
Proof.
  intros Hi Hj Hne. unfold identifier_key.
  destruct (str_isdigit i) eqn:Di, (str_isdigit j) eqn:Dj; cbn [andb]; [|done..|].
  - unfold py_cmp, prod_py_ord, py_cmp, prod_py_ord, py_cmp, Z_py_ord. cbn [fst snd Z.compare].
    destruct (py_int i ?= py_int j) eqn:E; [|done..]. apply Z.compare_eq in E. exfalso. apply Hne.
    by rewrite <- (str_py_int i), <- (str_py_int j), E by by apply wf_digits.
  - done.
Qed.

Lemma list_py_cmp_cons `{PyOrd A} (x y : A) l k :
  py_cmp (x :: l) (y :: k) = match py_cmp x y with Eq => py_cmp l k | c => c end.
Proof. done. Qed.

Lemma compare_prerelease_key p q :
  Forall (λ i, wf_identifier i = true) p → Forall (λ i, wf_identifier i = true) q →
  (compare_prerelease p q <? 0) = py_ltb (identifier_key <$> p) (identifier_key <$> q).
Proof.
  intros Hp. revert q. induction Hp as [|i p Hi _ IH]; intros q Hq.
  - destruct Hq as [|j q _ _]; [done|]. cbn [compare_prerelease length]. rewrite fmap_cons.
    change (py_ltb _ _) with true. apply Z.ltb_lt. lia.
  - destruct Hq as [|j q Hj Hq]; cbn [compare_prerelease].
    { cbn [length]. rewrite fmap_cons. change (py_ltb _ _) with false. apply Z.ltb_ge. lia. }
    rewrite !fmap_cons. unfold py_ltb. rewrite list_py_cmp_cons.
    case_bool_decide as E; [subst j; rewrite py_cmp_refl; by apply IH|].
    rewrite identifier_key_cmp by done.
    destruct (str_isdigit i) eqn:Di, (str_isdigit j) eqn:Dj; cbn [andb]; try done.
    + destruct (Z.compare_spec (py_int i) (py_int j)) as [Hn|Hn|Hn]; [|by apply Z.ltb_lt; lia|by apply Z.ltb_ge; lia].
      destruct E. by rewrite <- (str_py_int i), <- (str_py_int j), Hn by by apply wf_digits.
    + unfold py_ltb. destruct (py_cmp i j) eqn:Ec; [|done..]. apply py_cmp_eq in Ec. done.
Qed.

Lemma version_lt_key a b :
  wf_version a → wf_version b → version_lt a b = py_ltb (version_key a) (version_key b).
Proof.
  intros Ha Hb. unfold version_lt, version_key, py_ltb. rewrite !prod_py_cmp.
  case_bool_decide as E; cbn [negb].
  - rewrite E, py_cmp_refl.
    destruct (prerelease a) as [p|] eqn:Ep, (prerelease b) as [q|] eqn:Eq; [|done..].
    rewrite prod_py_cmp, py_cmp_refl. rewrite compare_prerelease_key; [done|by apply Ha|by apply Hb].
  - destruct (py_cmp (base a) (base b)) eqn:Ec; [|done..]. by apply py_cmp_eq in Ec.
Qed.

Lemma version_key_inj a b : wf_version a → wf_version b → version_key a = version_key b → a = b.
Proof.
  intros Ha Hb. unfold version_key, base. destruct a as [x y z p], b as [x' y' z' q]. cbn in *.
  intros [= -> -> -> E]. f_equal. destruct p as [p|], q as [q|]; try done. f_equal.
  injection E as E. specialize (Ha p eq_refl). specialize (Hb q eq_refl). revert q Hb E.
  induction Ha as [|i p Hi _ IH]; intros [|j q] Hb E; try done.
  inversion_clear Hb as [|? ? Hj Hq]. injection E as Ei E. f_equal; [by apply identifier_key_inj | auto].
Qed.

Lemma parse_identifiers_wf o p :
  parse_identifiers o true = Some p → Forall (λ i, wf_identifier i = true) p.
Proof.
  unfold parse_identifiers. destruct o as [s|]; [|done]. cbv zeta.
  destruct (existsb _ _) eqn:E1; [done|]. destruct (true && existsb _ _) eqn:E2; [done|].
  intros [= <-]. cbn [andb] in E2. apply existsb_false in E1, E2. rewrite Forall_forall in *.
  intros i Hi. specialize (E1 i Hi). specialize (E2 i Hi). cbv beta in E1, E2. unfold wf_identifier.
  apply negb_false_iff in E1. by rewrite E1, E2.
Qed.

Lemma parse_js_semver_wf s v : parse_js_semver s = Some v → wf_version v.
Proof.
  unfold parse_js_semver. destruct s as [[|c s]|]; [done| |done]. cbv zeta. case_match; [done|].
  destruct (js_version_groups _) as [[[[[x y] z] pre] build]|]; [|done].
  repeat (case_match; [done|]). intros [= <-] p Hp. by eapply parse_identifiers_wf.
Qed.

(** precedence of parsed versions is a strict total order: irreflexive,
    transitive, and of two distinct versions exactly one precedes the other; the
    comparisons derived from it by [total_ordering] are the converse and the
    complements they should be.  (Without the ban on leading zeros this would
    fail: [01] and [1] would be distinct identifiers of equal rank.) *)
Theorem version_order_total (s t u : pystr) (a b c : JsSemverVersion)
    (Ha : parse_js_semver (Some s) = Some a) (Hb : parse_js_semver (Some t) = Some b)
    (Hc : parse_js_semver (Some u) = Some c) :
  version_lt a a = false ∧
  (version_lt a b = true → version_lt b c = true → version_lt a c = true) ∧
  (a ≠ b → version_lt a b = negb (version_lt b a)) ∧
  version_gt a b = version_lt b a ∧ version_le a b = negb (version_lt b a) ∧
  version_ge a b = version_le b a.
Proof.
  apply parse_js_semver_wf in Ha, Hb, Hc. unfold version_gt, version_le, version_ge, version_eq.
  rewrite !version_lt_key by done. unfold py_ltb. split; [by rewrite py_cmp_refl|]. split.
  { destruct (py_cmp (version_key a) (version_key b)) eqn:E1; try done.
    destruct (py_cmp (version_key b) (version_key c)) eqn:E2; try done.
    by rewrite (py_cmp_trans _ _ _ E1 E2). }
  rewrite (py_cmp_flip (version_key a) (version_key b)).
  destruct (py_cmp (version_key a) (version_key b)) eqn:E; cbn [CompOpp negb andb orb].
  - apply py_cmp_eq, version_key_inj in E as ->; [|done..]. by rewrite bool_decide_true.
  - assert (a ≠ b) by (intros ->; by rewrite py_cmp_refl in E). rewrite !bool_decide_false by congruence. done.
  - assert (a ≠ b) by (intros ->; by rewrite py_cmp_refl in E). rewrite !bool_decide_false by congruence. done.
Qed.

Lemma version_order_witness :
  ∃ a b c, parse_js_semver (Some ($"1.0.0-rc.2")) = Some a ∧ parse_js_semver (Some ($"1.0.0-rc.10")) = Some b ∧
    parse_js_semver (Some ($"v1.0.0+x")) = Some c ∧ version_lt a b = true ∧ version_lt a c = true.
Proof.
  destruct (parse_js_semver (Some ($"1.0.0-rc.2"))) as [a|] eqn:Ha; [|vm_compute in Ha; discriminate Ha].
  destruct (parse_js_semver (Some ($"1.0.0-rc.10"))) as [b|] eqn:Hb; [|vm_compute in Hb; discriminate Hb].
  destruct (parse_js_semver (Some ($"v1.0.0+x"))) as [c|] eqn:Hc; [|vm_compute in Hc; discriminate Hc].
  destruct (version_order_total ($"1.0.0-rc.2") ($"1.0.0-rc.10") ($"v1.0.0+x") a b c Ha Hb Hc)
    as (_ & Htrans & _).
  vm_compute in Ha, Hb, Hc. injection Ha as <-. injection Hb as <-. injection Hc as <-.
  eexists _, _, _. do 3 (split; [reflexivity|]). split; [reflexivity|].
  apply Htrans; vm_compute; reflexivity.
Defined.

(** ** The highest matching version *)

Definition entry_key (e : JsSemverVersion * pystr) := (version_key e.1, e.2).

Lemma entry_lt_key a b :
  wf_version a.1 → wf_version b.1 → entry_lt a b = py_ltb (entry_key a) (entry_key b).
Proof.
  intros Ha Hb. unfold entry_lt, entry_key, version_eq. rewrite version_lt_key by done.
  unfold py_ltb. rewrite prod_py_cmp. case_bool_decide as E; cbn [negb].
  - by rewrite E, py_cmp_refl.
  - destruct (py_cmp (version_key a.1) (version_key b.1)) eqn:Ec; [|done..].
    by apply py_cmp_eq, version_key_inj in Ec.
Qed.

Lemma sort_entries_key l :
  Forall (λ e, wf_version e.1) l → sort_entries l = sort_on entry_key l.
Proof.
  induction 1 as [|x l Hx Hl IH]; [done|]. cbn [sort_entries foldr sort_on].
  fold (sort_entries l). fold (sort_on entry_key l). rewrite IH.
  assert (Forall (λ e, wf_version e.1) (sort_on entry_key l)) as Hs by by rewrite Forall_sort_on.
  clear IH Hl. induction Hs as [|y k Hy _ IH]; [done|]. cbn [insert_entry insert_on].
  rewrite entry_lt_key, py_ltb_leb by done. destruct (py_leb (entry_key x) (entry_key y)); cbn [negb]; [done|].
  by rewrite IH.
Qed.

Lemma sorted_last {A K} `{PyOrdLaws K} (key : A → K) l x y :
  StronglySorted (key_le key) l → last l = Some x → y ∈ l → key_le key y x.
Proof.
  intros Hs Hx Hy. apply last_Some in Hx as [k ->]. apply elem_of_app in Hy as [Hy|Hy%list_elem_of_singleton].
  - apply (StronglySorted_app_1_elem_of _ _ _ _ _ Hs Hy). by left.
  - subst. apply py_leb_refl.
Qed.

Lemma version_le_key a b :
  wf_version a → wf_version b → version_le a b = py_leb (version_key a) (version_key b).
Proof.
  intros Ha Hb. unfold version_le, version_eq. rewrite version_lt_key by done. unfold py_ltb, py_leb.
  destruct (py_cmp (version_key a) (version_key b)) eqn:E; cbn [orb].
  - apply py_cmp_eq, version_key_inj in E as ->; [|done..]. by apply bool_decide_true.
  - done.
  - apply bool_decide_false. intros ->. by rewrite py_cmp_refl in E.
Qed.

(** [highest_js_version_for_selector] returns a best version: nothing
    exactly when no given version satisfies the selector, and otherwise one of
    the given versions that satisfies it and that no other satisfying version
    exceeds. *)
Theorem highest_version_spec (versions : list pystr) (selector : pystr) :
  match highest_js_version_for_selector versions selector with
  | None => ∀ v, v ∈ versions → version_matches_js_selector v selector = false
  | Some h => h ∈ versions ∧ version_matches_js_selector h selector = true ∧
      ∃ p, parse_js_semver (Some h) = Some p ∧
        ∀ v q, v ∈ versions → version_matches_js_selector v selector = true →
          parse_js_semver (Some v) = Some q → version_le q p = true
  end.
Proof.
  unfold highest_js_version_for_selector. cbv zeta.
  set (pick := λ v, match parse_js_semver (Some v) with
    | Some p => if version_matches_js_selector v selector then Some (p, v) else None | None => None end).
  assert (∀ p v, (p, v) ∈ omap pick versions ↔
    v ∈ versions ∧ parse_js_semver (Some v) = Some p ∧ version_matches_js_selector v selector = true) as Hin.
  { intros p v. rewrite list_elem_of_omap. unfold pick. split.
    - intros (u & Hu & E). destruct (parse_js_semver (Some u)) eqn:Ep; [|done].
      destruct (version_matches_js_selector u selector) eqn:Em; [|done]. injection E as -> ->. done.
    - intros (Hv & Hp & Hm). exists v. by rewrite Hp, Hm. }
  rewrite sort_entries_key.
  2:{ apply Forall_forall. intros [p v] (_ & Hp & _)%Hin. by apply parse_js_semver_wf in Hp. }
  destruct (last (sort_on entry_key (omap pick versions))) as [[p h]|] eqn:El; cbn [fmap option_fmap option_map snd].
  - assert ((p, h) ∈ omap pick versions) as Hh.
    { rewrite <- (elem_of_sort_on entry_key). apply last_Some in El as [k ->]. apply elem_of_app. right. by left. }
    apply Hin in Hh as (Hh & Hp & Hm). split; [done|]. split; [done|]. exists p. split; [done|].
    intros v q Hv Hmv Hq. pose proof (parse_js_semver_wf _ _ Hp). pose proof (parse_js_semver_wf _ _ Hq).
    rewrite version_le_key by done.
    assert (key_le entry_key (q, v) (p, h)) as Hle.
    { eapply sorted_last; [apply sort_on_sorted | exact El |]. by rewrite elem_of_sort_on, Hin. }
    unfold key_le, entry_key, py_leb in Hle |- *. rewrite prod_py_cmp in Hle. cbn [fst] in Hle.
    by destruct (py_cmp (version_key q) (version_key p)).
  - apply last_None in El. intros v Hv. apply not_true_is_false. intros Hm.
    unfold version_matches_js_selector in Hm. destruct (parse_js_semver (Some v)) as [p|] eqn:Hp; [|done].
    eapply (not_elem_of_nil (p, v)). rewrite <- El, elem_of_sort_on. apply Hin. split; [done|].
    split; [done|]. unfold version_matches_js_selector. by rewrite Hp.
Qed.

(** ** Texts of versions *)

Definition base_text (x y z : Z) : pystr := join [46] [str_of_nonneg x; str_of_nonneg y; str_of_nonneg z].
Definition js_version_text (v : JsSemverVersion) : pystr :=
  base_text (major v) (minor v) (patch v) ++
  match prerelease v with Some p => 45 :: join [46] p | None => [] end.

(** Versions that have a text: parsed numbers, a non-empty list of identifiers
    and a text of bounded length. *)
Definition component_ok (n : Z) : Prop := 0 <= n <= MAX_SAFE_INTEGER.
Record printable (v : JsSemverVersion) : Prop := {
  print_wf : wf_version v;
  print_pre : prerelease v ≠ Some [];
  print_major : component_ok (major v);
  print_minor : component_ok (minor v);
  print_patch : component_ok (patch v);
  print_length : (length (js_version_text v) <= MAX_SEMVER_LENGTH)%nat;
}.

(** The characters of numerals and of ranges built from them. *)
Definition number_char (c : Z) : bool := is_digit c || (c =? 46).

Lemma str_number n : 0 <= n → Forall (λ c, is_digit c = true) (str_of_nonneg n) ∧ str_of_nonneg n ≠ [].
Proof. intros Hn. apply str_of_nonneg_canonical, canonical_digits_Forall in Hn as [? ?]. done. Qed.

Lemma not_in_digits c s : Forall (λ c, is_digit c = true) s → is_digit c = false → c ∉ s.
Proof. intros Hs Hc Hin. rewrite Forall_forall in Hs. apply Hs in Hin. congruence. Qed.

Lemma base_text_split x y z :
  0 <= x → 0 <= y → 0 <= z →
  split_char 46 (base_text x y z) = [str_of_nonneg x; str_of_nonneg y; str_of_nonneg z].
Proof.
  intros Hx Hy Hz. apply split_join_char; [done|].
  repeat constructor; (apply not_in_digits; [by apply str_number | done]).
Qed.

Lemma base_text_chars x y z :
  0 <= x → 0 <= y → 0 <= z → Forall (λ c, number_char c = true) (base_text x y z).
Proof.
  intros Hx Hy Hz. unfold base_text. cbn [join].
  assert (∀ n, 0 <= n → Forall (λ c, number_char c = true) (str_of_nonneg n)) as Hn.
  { intros n Hn. eapply Forall_impl; [by apply (proj1 (str_number n Hn))|].
    intros c Hc. unfold number_char. by rewrite Hc. }
  repeat first [apply Forall_app_2 | apply Hn; done | by repeat constructor].
Qed.

Lemma base_text_not_nil x y z : 0 <= x → base_text x y z ≠ [].
Proof. intros Hx E. apply app_eq_nil in E as [E _]. by apply (str_number x Hx) in E. Qed.

(** A text without white space, bars and commas is one token of one clause. *)
Definition token_char (c : Z) : bool := negb (is_space c) && negb (c =? 124) && negb (c =? 44).

Lemma number_char_token c : number_char c = true → token_char c = true.
Proof.
  unfold number_char, token_char, is_digit, is_space, in_range. intros Hc. lia.
Qed.

Lemma split_ws_aux_token s cur :
  Forall (λ c, token_char c = true) s → cur ++ s ≠ [] → split_ws_aux s cur = [reverse cur ++ s].
Proof.
  intros Hs. revert cur. induction Hs as [|c s Hc _ IH]; intros cur Hne; cbn [split_ws_aux].
  - rewrite app_nil_r in *. by destruct cur.
  - unfold token_char in Hc. destruct (is_space c); [done|].
    rewrite IH by done. by rewrite reverse_cons, <- app_assoc.
Qed.

Lemma split_ws_token s : Forall (λ c, token_char c = true) s → s ≠ [] → split_ws s = [s].
Proof. intros Hs Hne. unfold split_ws. by rewrite split_ws_aux_token. Qed.

Lemma split_pair_token s : Forall (λ c, token_char c = true) s → split_pair 124 124 s = [s].
Proof.
  induction 1 as [|c s Hc Hs IH]; [done|]. destruct s as [|d s]; [done|].
  change (split_pair 124 124 (c :: d :: s)) with
    (if (c =? 124) && (d =? 124) then [] :: split_pair 124 124 s
     else match split_pair 124 124 (d :: s) with [] => [[c]] | w :: ws => (c :: w) :: ws end).
  assert (c =? 124 = false) as -> by (unfold token_char in Hc; destruct (c =? 124); [lia|done]).
  cbn [andb]. by rewrite IH.
Qed.

Lemma contains_token s : Forall (λ c, token_char c = true) s → contains [44] s = false.
Proof.
  induction 1 as [|c s Hc Hs IH]; [done|]. cbn [contains startswith].
  assert (44 =? c = false) as -> by (apply Z.eqb_neq; intros <-; done). by rewrite IH.
Qed.

Lemma strip_token s : Forall (λ c, token_char c = true) s → strip s = s.
Proof.
  intros Hs. apply strip_no_space. eapply Forall_impl; [exact Hs|]. intros c Hc.
  unfold token_char in Hc. by destruct (is_space c).
Qed.

(** The selector with one token, matched against a version. *)
Lemma one_token_selector v text token :
  parse_js_semver (Some text) = Some v → Forall (λ c, token_char c = true) token → token ≠ [] →
  token ≠ $"latest" → (length token <= MAX_SELECTOR_LENGTH)%nat →
  version_matches_js_selector text token =
  match expand_selector_token token with
  | None => false
  | Some cs =>
      if (MAX_COMPARATORS_PER_CLAUSE <? length cs)%nat then false
      else if existsb (λ c, (MAX_SAFE_INTEGER <? major (version c)) || (MAX_SAFE_INTEGER <? minor (version c))
                       || (MAX_SAFE_INTEGER <? patch (version c))) cs then false
      else comparator_set_matches v
        (filter (λ c, negb (bool_decide (operator c = OpGe) && version_eq (version c) (stable 0 0 0)) = true) cs)
  end.
Proof.
  intros Hv Ht Hne Hl Hlen. unfold version_matches_js_selector. rewrite Hv.
  rewrite (proj2 (Nat.ltb_ge _ _) Hlen), (strip_token token Ht), !bool_decide_false by done. cbn [orb].
  rewrite split_pair_token by done. cbn [length]. change (MAX_SELECTOR_CLAUSES <? 1)%nat with false. cbv iota.
  cbn [parse_clauses]. rewrite (strip_token token Ht). unfold parse_selector_clause.
  rewrite bool_decide_false, contains_token by done. cbn [orb]. unfold hyphen_groups.
  rewrite (strip_token token Ht), bool_decide_true, split_ws_token by done. cbn [negb]. cbv zeta iota.
  rewrite bool_decide_false by done. cbn [length orb].
  change (MAX_COMPARATORS_PER_CLAUSE <? 1)%nat with false. cbv iota. cbn [expand_tokens].
  destruct (expand_selector_token token) as [cs|]; [|done]. cbv zeta. cbn [app].
  destruct (MAX_COMPARATORS_PER_CLAUSE <? length cs)%nat; [done|].
  destruct (existsb _ cs); [done|]. cbn. by rewrite orb_false_r.
Qed.

Lemma base_text_avoid c x y z :
  0 <= x → 0 <= y → 0 <= z → number_char c = false → c ∉ base_text x y z.
Proof.
  intros Hx Hy Hz Hc Hin. pose proof (base_text_chars x y z Hx Hy Hz) as Hf.
  rewrite Forall_forall in Hf. apply Hf in Hin. congruence.
Qed.

Lemma strip_v_number s : head s ≠ Some 118 → strip_v s = s.
Proof.
  unfold strip_v. destruct s as [|c s]; [done|]. cbn [startswith head]. intros Hc.
  rewrite (proj2 (Z.eqb_neq 118 c)) by congruence. done.
Qed.

(** A version text starts with a digit. *)
Lemma base_text_digit x y z : 0 <= x → ∃ c s, base_text x y z = c :: s ∧ is_digit c = true.
Proof.
  intros Hx. destruct (str_number x Hx) as [Hd Hne]. unfold base_text. cbn [join].
  destruct (str_of_nonneg x) as [|c s]; [done|]. inversion_clear Hd. cbn. eauto.
Qed.

Lemma base_text_head x y z rest : 0 <= x → head (base_text x y z ++ rest) ≠ Some 118.
Proof.
  intros Hx. destruct (base_text_digit x y z Hx) as (c & s & -> & Hc). cbn. intros [= ->]. done.
Qed.

Lemma cut_absent sep s : sep ∉ s → cut sep s = (s, None).
Proof. intros Hs. unfold cut. by rewrite partition_char_absent. Qed.
Lemma cut_found sep a b : sep ∉ a → cut sep (a ++ sep :: b) = (a, Some b).
Proof. intros Hs. unfold cut. by rewrite partition_char_app. Qed.

Lemma identifier_chars i : wf_identifier i = true → i ≠ [] ∧ Forall (λ c, identifier_char c = true) i.
Proof.
  unfold wf_identifier, is_identifier. intros [Hi _]%andb_true_iff. destruct i; [done|].
  split; [done|]. by apply forallb_Forall.
Qed.

Lemma identifier_avoid c i : wf_identifier i = true → identifier_char c = false → c ∉ i.
Proof.
  intros [_ Hi]%identifier_chars Hc Hin. rewrite Forall_forall in Hi. apply Hi in Hin. congruence.
Qed.

Lemma prerelease_split p :
  p ≠ [] → Forall (λ i, wf_identifier i = true) p → split_char 46 (join [46] p) = p.
Proof.
  intros Hne Hp. apply split_join_char; [done|]. eapply Forall_impl; [exact Hp|].
  intros i Hi. by apply identifier_avoid.
Qed.

Lemma join_chars (P : Z → Prop) p : P 46 → Forall (Forall P) p → Forall P (join [46] p).
Proof.
  intros Hd. induction 1 as [|i p Hi Hp IH]; [constructor|]. destruct p as [|j p]; [done|].
  cbn [join] in *. apply Forall_app_2; [done|]. by constructor.
Qed.

(** The identifiers of a printed prerelease parse back. *)
Lemma parse_identifiers_print p :
  p ≠ [] → Forall (λ i, wf_identifier i = true) p → parse_identifiers (Some (join [46] p)) true = Some p.
Proof.
  intros Hne Hp. unfold parse_identifiers. rewrite prerelease_split by done. cbv zeta.
  rewrite Forall_forall in Hp.
  assert (existsb (λ i, negb (is_identifier i)) p = false) as ->.
  { apply existsb_false, Forall_forall. intros i Hi. specialize (Hp i Hi). unfold wf_identifier in Hp.
    by destruct (is_identifier i). }
  assert (existsb (λ i, str_isdigit i && (1 <? length i)%nat && startswith [48] i) p = false) as ->; [|done].
  apply existsb_false, Forall_forall. intros i Hi. specialize (Hp i Hi). unfold wf_identifier in Hp.
  by apply andb_true_iff in Hp as [_ Hp%negb_true_iff].
Qed.

Definition text_char (c : Z) : bool := identifier_char c || (c =? 46).

Lemma js_text_chars v : printable v → Forall (λ c, text_char c = true) (js_version_text v).
Proof.
  intros [Hwf Hne [Hx _] [Hy _] [Hz _] _]. unfold js_version_text. apply Forall_app_2.
  - eapply Forall_impl; [by apply base_text_chars|]. intros c. unfold number_char, text_char, identifier_char, is_alnum.
    intros [-> | ->]%orb_true_iff; [done|by rewrite orb_true_r].
  - destruct (prerelease v) as [p|] eqn:Ep; [|constructor]. constructor; [done|]. apply join_chars; [done|].
    eapply Forall_impl; [by apply Hwf|]. intros i [_ Hi]%identifier_chars.
    eapply Forall_impl; [exact Hi|]. intros c Hc. unfold text_char. by rewrite Hc.
Qed.

Lemma text_char_spec c : text_char c = true → is_space c = false ∧ c ≠ 43.
Proof.
  unfold text_char, identifier_char, is_alnum, is_digit, is_lower, is_upper, is_space, in_range. lia.
Qed.

Lemma component_int n : component_ok n → py_int (str_of_nonneg n) = n.
Proof. intros [Hn _]. by apply py_int_str. Qed.

Lemma js_groups_print v :
  printable v → js_version_groups (js_version_text v) =
  Some (str_of_nonneg (major v), str_of_nonneg (minor v), str_of_nonneg (patch v), join [46] <$> prerelease v, None).
Proof.
  intros Hv. pose proof (js_text_chars v Hv) as Hc. destruct Hv as [Hwf Hne [Hx _] [Hy _] [Hz _] _].
  unfold js_version_groups. rewrite strip_v_number by (unfold js_version_text; by apply base_text_head).
  rewrite cut_absent.
  2:{ intros Hin. rewrite Forall_forall in Hc. by destruct (text_char_spec _ (Hc _ Hin)). }
  unfold js_version_text. destruct (prerelease v) as [p|] eqn:Ep.
  - rewrite cut_found by (by apply base_text_avoid). rewrite base_text_split by done.
    rewrite !str_of_nonneg_canonical by done. cbn [andb fmap option_fmap option_map].
    rewrite prerelease_split; [|congruence|by apply Hwf].
    assert (forallb is_identifier p = true) as ->; [|done].
    apply forallb_Forall. eapply Forall_impl; [by apply Hwf|]. intros i.
    unfold wf_identifier. by intros [? _]%andb_true_iff.
  - rewrite app_nil_r, cut_absent by (by apply base_text_avoid). rewrite base_text_split by done.
    by rewrite !str_of_nonneg_canonical.
Qed.

(** A printable version parses back from its text. *)
Lemma parse_js_semver_print v : printable v → parse_js_semver (Some (js_version_text v)) = Some v.
Proof.
  intros Hv. pose proof (js_groups_print v Hv) as Hg. pose proof (js_text_chars v Hv) as Hc.
  assert (strip (js_version_text v) = js_version_text v) as Hs.
  { apply strip_no_space. eapply Forall_impl; [exact Hc|]. intros c ?%text_char_spec. tauto. }
  assert (js_version_text v ≠ []) as Hne.
  { unfold js_version_text. intros [E _]%app_eq_nil. by apply base_text_not_nil in E; [|apply Hv]. }
  destruct Hv as [Hwf Hpre Hx Hy Hz Hl]. unfold parse_js_semver.
  destruct (js_version_text v) as [|c s] eqn:Et; [done|]. rewrite <- Et in *. cbv zeta.
  rewrite Hs, bool_decide_false, bool_decide_true, (proj2 (Nat.ltb_ge _ _) Hl) by done. cbn [negb orb].
  rewrite Hg. rewrite !component_int by done.
  assert (parse_identifiers (join [46] <$> prerelease v) true = prerelease v) as ->.
  { destruct (prerelease v) as [p|] eqn:Ep; [|done]. apply parse_identifiers_print; [congruence|by apply Hwf]. }
  assert (bool_decide (is_Some (join [46] <$> prerelease v)) && bool_decide (prerelease v = None) = false) as ->.
  { by destruct (prerelease v). }
  cbn [existsb]. unfold component_ok in *.
  rewrite !(proj2 (Z.ltb_ge MAX_SAFE_INTEGER _)) by lia. cbn [orb]. by destruct v.
Qed.

Definition exact_range (x y z : Z) : RangeVersion :=
  {| range_major := Some x; range_minor := Some y; range_patch := Some z; range_prerelease := None |}.

Lemma base_text_length x y z :
  component_ok x → component_ok y → component_ok z → (length (base_text x y z) <= 50)%nat.
Proof.
  intros Hx Hy Hz. unfold base_text. cbn [join]. rewrite !length_app. cbn [length].
  assert (∀ n, component_ok n → (length (str_of_nonneg n) <= 16)%nat) as Hn.
  { intros n [Hn Hm]. apply dec_digits_length; [|lia]. split; [done|].
    eapply Z.le_lt_trans; [exact Hm|]. reflexivity. }
  pose proof (Hn x Hx). pose proof (Hn y Hy). pose proof (Hn z Hz). lia.
Qed.

(** A numeral is not a wildcard. *)
Lemma number_not_wildcard n : 0 <= n → is_wildcard (str_of_nonneg n) = false.
Proof.
  intros Hn. apply bool_decide_false. destruct (str_number n Hn) as [Hd _]. intros Hin.
  repeat (apply elem_of_cons in Hin as [Hin|Hin]; [rewrite Hin in Hd; by inversion_clear Hd|]).
  by apply elem_of_nil in Hin.
Qed.

Lemma parse_range_print x y z :
  component_ok x → component_ok y → component_ok z →
  parse_range_version (base_text x y z) = Some (exact_range x y z).
Proof.
  intros Hx Hy Hz. pose proof (base_text_length x y z Hx Hy Hz) as Hl.
  pose proof (component_int x Hx) as Ix. pose proof (component_int y Hy) as Iy. pose proof (component_int z Hz) as Iz.
  destruct Hx as [Hx Mx], Hy as [Hy My], Hz as [Hz Mz]. unfold parse_range_version.
  rewrite strip_token by (eapply Forall_impl; [by apply base_text_chars|]; apply number_char_token).
  rewrite bool_decide_false, bool_decide_true by (done || by apply base_text_not_nil).
  rewrite (proj2 (Nat.ltb_ge _ _)) by (unfold MAX_SEMVER_LENGTH; lia). cbn [negb orb]. cbv zeta.
  rewrite strip_v_number by (rewrite <- (app_nil_r (base_text x y z)); by apply base_text_head).
  rewrite bool_decide_false by by apply base_text_not_nil.
  rewrite partition_char_absent by (by apply base_text_avoid). cbn [andb].
  rewrite partition_char_absent by (by apply base_text_avoid). cbn [andb].
  rewrite base_text_split by done. cbn [length existsb].
  rewrite !bool_decide_false by by apply str_number. cbn [orb negb andb Nat.leb range_components].
  rewrite !number_not_wildcard, !str_of_nonneg_canonical by done. cbn [negb orb].
  rewrite Ix, Iy, Iz, !(proj2 (Z.ltb_ge MAX_SAFE_INTEGER _)) by done. reflexivity.
Qed.

(** ** The two matchers agree *)

(** A specifier both matchers support: an optional tilde or caret and a full
    version; and what it means on numbers. *)
Inductive RangeOp := Exact | Tilde | Caret.
Definition specifier (o : RangeOp) (x y z : Z) : pystr :=
  match o with Exact => [] | Tilde => [126] | Caret => [94] end ++ base_text x y z.

Definition admits (o : RangeOp) (r i : Z * Z * Z) : bool :=
  negb (py_ltb i r) &&
  match o with
  | Caret =>
      if 0 <? r.1.1 then i.1.1 =? r.1.1
      else if 0 <? r.1.2 then bool_decide (i.1 = r.1)
      else bool_decide (i = r)
  | Tilde => bool_decide (i.1 = r.1)
  | Exact => bool_decide (i = r)
  end.

Lemma triple_ltb (a b c x y z : Z) :
  py_ltb (a, b, c) (x, y, z) = (a <? x) || ((a =? x) && ((b <? y) || ((b =? y) && (c <? z)))).
Proof.
  unfold py_ltb, py_cmp, prod_py_ord, py_cmp, prod_py_ord, py_cmp, Z_py_ord. cbn [fst snd].
  unfold Z.ltb. destruct (Z.compare_spec a x) as [->| |]; cbn [orb andb].
  - rewrite Z.eqb_refl. cbn [andb]. destruct (Z.compare_spec b y) as [->| |]; cbn [orb].
    + by rewrite Z.eqb_refl.
    + done.
    + by rewrite (proj2 (Z.eqb_neq b y)) by lia.
  - done.
  - by rewrite (proj2 (Z.eqb_neq a x)) by lia.
Qed.

Lemma pair_eqb (a b x y : Z) : bool_decide ((a, b) = (x, y)) = (a =? x) && (b =? y).
Proof.
  destruct (Z.eqb_spec a x), (Z.eqb_spec b y); cbn [andb]; first [apply bool_decide_true | apply bool_decide_false];
    congruence.
Qed.
Lemma triple_eqb (a b c x y z : Z) : bool_decide ((a, b, c) = (x, y, z)) = (a =? x) && (b =? y) && (c =? z).
Proof.
  destruct (Z.eqb_spec a x), (Z.eqb_spec b y), (Z.eqb_spec c z); cbn [andb];
    first [apply bool_decide_true | apply bool_decide_false]; congruence.
Qed.

(** Comparisons of a release with a release and with the floor of a base. *)
Lemma release_lt v x y z p :
  prerelease v = None → version_lt v {| major := x; minor := y; patch := z; prerelease := p |} = py_ltb (base v) (x, y, z).
Proof.
  intros Hv. unfold version_lt. rewrite Hv. change (base {| major := x |}) with (x, y, z).
  case_bool_decide as E; cbn [negb]; [|done]. rewrite E. unfold py_ltb. by rewrite py_cmp_refl.
Qed.

Lemma release_eq v x y z :
  prerelease v = None → version_eq v (stable x y z) = bool_decide (base v = (x, y, z)).
Proof.
  intros Hv. destruct v as [a b c p]. cbn in Hv. subst p. unfold version_eq, stable, base. cbn [major minor patch].
  destruct (decide ((a, b, c) = (x, y, z))) as [E|E].
  - injection E as -> -> ->. by rewrite !bool_decide_true.
  - rewrite !bool_decide_false; [done|congruence|congruence].
Qed.

(** A prerelease is never below the floor of its own base. *)
Lemma prerelease_not_below_floor v p :
  prerelease v = Some p → p ≠ [] → version_lt v (floor_of (major v) (minor v) (patch v)) = false.
Proof.
  intros Hp Hne. unfold version_lt. rewrite bool_decide_true by done. cbn [negb]. rewrite Hp.
  cbn [floor_of prerelease]. destruct p as [|i p]; [done|]. apply Z.ltb_ge. cbn [compare_prerelease].
  case_bool_decide as E; [destruct p; cbn [compare_prerelease length]; lia|].
  change (str_isdigit ($"0")) with true. rewrite andb_true_r. destruct (str_isdigit i) eqn:Hd; [|done].
  change (py_int ($"0")) with 0. apply str_isdigit_Forall in Hd as [_ Hd]. apply py_int_nonneg in Hd. lia.
Qed.

Lemma expand_specifier o x y z :
  component_ok x → component_ok y → component_ok z →
  expand_selector_token (specifier o x y z) =
  Some (match o with
        | Exact => [comparator OpEq (stable x y z)]
        | Tilde => [comparator OpGe (stable x y z); comparator OpLt (floor_of x (y + 1) 0)]
        | Caret => [comparator OpGe (stable x y z);
                    comparator OpLt (if 0 <? x then floor_of (x + 1) 0 0
                                     else if 0 <? y then floor_of 0 (y + 1) 0 else floor_of 0 0 (z + 1))]
        end).
Proof.
  intros Hx Hy Hz. unfold expand_selector_token, specifier. destruct o; cbn [app].
  - destruct (base_text_digit x y z) as (c & s & E & Hc); [apply Hx|].
    pose proof (parse_range_print x y z Hx Hy Hz) as Hp. rewrite E in *.
    assert (∀ d, is_digit d = false → d =? c = false) as Hd' by (intros d ?; apply Z.eqb_neq; intros ->; congruence).
    cbn [startswith]. rewrite !Hd' by done. cbn [andb]. rewrite bool_decide_false by done.
    cbn [operator_alternatives split_operator startswith lit].
    change (startswith ($">=") (c :: s)) with ((62 =? c) && startswith [61] s).
    change (startswith ($"<=") (c :: s)) with ((60 =? c) && startswith [61] s).
    change (startswith ($">") (c :: s)) with ((62 =? c) && true).
    change (startswith ($"<") (c :: s)) with ((60 =? c) && true).
    change (startswith ($"=") (c :: s)) with ((61 =? c) && true).
    rewrite !Hd' by done. cbn [andb]. by rewrite Hp.
  - cbn [startswith Z.eqb Pos.eqb andb]. change (drop 1 (_ :: base_text x y z)) with (base_text x y z).
    by rewrite parse_range_print.
  - cbn [startswith Z.eqb Pos.eqb andb]. change (drop 1 (_ :: base_text x y z)) with (base_text x y z).
    rewrite parse_range_print by done. cbn [fmap option_fmap option_map].
    unfold expand_caret. cbn [lower_bound exact_range range_major range_minor range_patch range_prerelease default
      major minor patch]. rewrite !bool_decide_false, !orb_false_r by done. reflexivity.
Qed.

Lemma specifier_token o x y z :
  component_ok x → component_ok y → component_ok z →
  Forall (λ c, token_char c = true) (specifier o x y z) ∧ specifier o x y z ≠ [] ∧
  specifier o x y z ≠ $"latest" ∧ (length (specifier o x y z) <= MAX_SELECTOR_LENGTH)%nat.
Proof.
  intros Hx Hy Hz. pose proof (base_text_length x y z Hx Hy Hz).
  assert (0 <= x ∧ 0 <= y ∧ 0 <= z) as (Px & Py & Pz) by (unfold component_ok in *; lia).
  pose proof (base_text_chars x y z Px Py Pz) as Hc. pose proof (base_text_not_nil x y z Px) as Hn.
  unfold specifier. split; [|split; [|split]].
  - apply Forall_app_2; [destruct o; by repeat constructor|]. eapply Forall_impl; [exact Hc|].
    apply number_char_token.
  - by intros [_ ?]%app_eq_nil.
  - intros E. assert (101 ∈ base_text x y z) as Hin.
    { destruct o; cbn [app] in E; [|discriminate E..]. rewrite E. apply (bool_decide_unpack _). vm_compute. exact I. }
    rewrite Forall_forall in Hc. by apply Hc in Hin.
  - rewrite length_app. unfold MAX_SELECTOR_LENGTH. destruct o; cbn [length]; lia.
Qed.

Lemma forallb_filter {A} (f g : A → bool) (l : list A) :
  (∀ x, x ∈ l → f x = false → g x = true) →
  forallb g (filter (λ x, f x = true) l) = forallb g l.
Proof.
  induction l as [|x l IH]; intros Hl; [done|]. rewrite filter_cons. cbn [forallb].
  assert (forallb g (filter (λ x, f x = true) l) = forallb g l) as E.
  { apply IH. intros y Hy. apply Hl. by right. }
  case_decide as Hf; [cbn [forallb]; by rewrite E|].
  rewrite E, (Hl x); [done|left|by destruct (f x)].
Qed.

(** On a release, dropping [>=0.0.0] changes nothing. *)
Lemma release_set_matches v cs :
  prerelease v = None → 0 <= major v → 0 <= minor v → 0 <= patch v →
  comparator_set_matches v
    (filter (λ c, negb (bool_decide (operator c = OpGe) && version_eq (version c) (stable 0 0 0)) = true) cs)
  = forallb (λ c, comparator_matches c v) cs.
Proof.
  intros Hv Hx Hy Hz. unfold comparator_set_matches. rewrite Hv, forallb_filter; [by destruct (forallb _ _)|].
  intros [o w] _ Hf. cbn [operator version] in Hf. apply negb_false_iff, andb_true_iff in Hf as [Ho Hw].
  apply bool_decide_eq_true in Ho as ->. apply bool_decide_eq_true in Hw as ->.
  unfold comparator_matches, version_ge. cbn [operator version]. unfold stable. rewrite release_lt by done.
  unfold base. rewrite triple_ltb. apply negb_true_iff. lia.
Qed.

(** A prerelease satisfies no range made of a release and the floor of a base. *)
Lemma prerelease_set_matches v p cs :
  prerelease v = Some p → p ≠ [] →
  Forall (λ c, prerelease (version c) = None ∨
    operator c = OpLt ∧ ∃ x y z, version c = floor_of x y z) cs →
  comparator_set_matches v cs = false.
Proof.
  intros Hp Hne Hcs. unfold comparator_set_matches. destruct (forallb _ cs) eqn:Hall; [|done]. cbn [negb].
  rewrite Hp. apply existsb_false, Forall_forall. intros c Hc. rewrite Forall_forall in Hcs.
  apply forallb_Forall in Hall. rewrite Forall_forall in Hall. specialize (Hall c Hc).
  destruct (Hcs c Hc) as [Hn|(Ho & x & y & z & Hw)].
  - by rewrite Hn.
  - rewrite Hw. case_bool_decide as Hb1; [|done]. cbn [andb]. apply bool_decide_false. intros Hb.
    injection Hb as -> -> ->. unfold comparator_matches in Hall. rewrite Ho, Hw in Hall.
    by rewrite (prerelease_not_below_floor v p) in Hall.
Qed.

Lemma js_specifier_admits o x y z v :
  0 <= x < MAX_SAFE_INTEGER → 0 <= y < MAX_SAFE_INTEGER → 0 <= z < MAX_SAFE_INTEGER → printable v →
  version_matches_js_selector (js_version_text v) (specifier o x y z) =
  match prerelease v with None => admits o (x, y, z) (base v) | Some _ => false end.
Proof.
  intros Hx Hy Hz Hv.
  assert (component_ok x ∧ component_ok y ∧ component_ok z) as (Cx & Cy & Cz) by (unfold component_ok; lia).
  destruct (specifier_token o x y z Cx Cy Cz) as (Ht & Hne & Hl & Hlen).
  rewrite (one_token_selector v _ _ (parse_js_semver_print v Hv) Ht Hne Hl Hlen).
  rewrite expand_specifier by done. destruct Hv as [_ Hpre [Px _] [Py _] [Pz _] _].
  match goal with |- context [existsb ?f ?cs] => assert (existsb f cs = false) as -> end.
  { apply existsb_false. unfold MAX_SAFE_INTEGER in *.
    destruct o; repeat constructor; cbn [version]; repeat case_match; cbn [major minor patch stable floor_of]; lia. }
  match goal with |- context [(MAX_COMPARATORS_PER_CLAUSE <? length ?cs)%nat] =>
    assert ((MAX_COMPARATORS_PER_CLAUSE <? length cs)%nat = false) as -> by by destruct o end.
  destruct (prerelease v) as [p|] eqn:Ep.
  - apply (prerelease_set_matches v p); [done|congruence|].
    apply Forall_forall. intros w [_ Hw]%list_elem_of_filter. revert w Hw. apply Forall_forall.
    destruct o; repeat (apply Forall_cons_2; [first [left; reflexivity |
      right; split; [reflexivity|]; cbn [version]; repeat case_match; eauto]|]); apply Forall_nil_2.
  - rewrite release_set_matches by done. unfold admits, base.
    destruct v as [a b c q]. cbn in *. subst q. unfold comparator_matches, version_ge.
    destruct o; cbn [forallb operator version fst snd]; rewrite ?andb_true_r.
    + rewrite release_eq by done. unfold base. cbn [major minor patch]. rewrite triple_ltb, triple_eqb. lia.
    + unfold stable, floor_of. rewrite !release_lt by done. unfold base. cbn [major minor patch].
      rewrite !triple_ltb, pair_eqb. lia.
    + unfold stable, floor_of. rewrite triple_eqb, pair_eqb, triple_ltb.
      destruct (Z.ltb_spec 0 x), (Z.ltb_spec 0 y); rewrite !release_lt by done; unfold base; cbn [major minor patch];
        rewrite !triple_ltb; lia.
Qed.

Lemma decimal_number_digits `{PyDecimal} s :
  s ≠ [] → Forall (λ c, is_digit c = true) s → decimal_number s = Some (py_int s).
Proof.
  intros Hne Hs. unfold decimal_number. destruct s as [|c0 s0]; [done|]. revert Hs. generalize (c0 :: s0).
  clear. intros s. unfold py_int. induction s as [|c s IH] using rev_ind; intros Hs; [done|].
  apply Forall_app in Hs as [Hs Hc]. rewrite Forall_singleton in Hc. rewrite !foldl_app, IH by done.
  cbn. rewrite decimal_ascii by (unfold is_digit, in_range in Hc; lia). by rewrite Hc.
Qed.

Lemma decimal_number_dash `{PyDecimal} a b : decimal_number (a ++ 45 :: b) = None.
Proof.
  assert (∀ t, foldl (λ acc c, n ← acc; d ← decimal c; Some (10 * n + d)) None t = @None Z) as Hn.
  { intros t. by induction t. }
  unfold decimal_number.
  assert (foldl (λ acc c, n ← acc; d ← decimal c; Some (10 * n + d)) (Some 0) (a ++ 45 :: b) = None) as ->;
    [|by destruct (a ++ 45 :: b)].
  rewrite foldl_app. cbn [foldl]. destruct (foldl _ (Some 0) a); cbn [mbind option_bind].
  - rewrite decimal_ascii by done. apply Hn.
  - apply Hn.
Qed.

Lemma stable_version_base `{PyDecimal} x y z :
  0 <= x → 0 <= y → 0 <= z → stable_version (base_text x y z) = Some (x, y, z).
Proof.
  intros Hx Hy Hz. unfold stable_version. rewrite base_text_split by done.
  destruct (str_number x Hx), (str_number y Hy), (str_number z Hz).
  by rewrite !decimal_number_digits, !py_int_str.
Qed.

Lemma split_last_dash s p w :
  split_char 46 (s ++ 45 :: p) = w → ∃ i, i ∈ w ∧ ∃ a b, i = a ++ 45 :: b.
Proof.
  intros <-. induction s as [|c s IH]; cbn [app].
  - destruct (split_char 46 p) as [|v vs] eqn:E; [by apply split_char_nonempty in E|].
    cbn [split_char]. rewrite E. cbn [Z.eqb Pos.eqb]. exists (45 :: v). split; [left|]. by exists [], v.
  - destruct IH as (i & Hi & a & b & ->). cbn [split_char]. destruct (c =? 46).
    + exists (a ++ 45 :: b). split; [by right|]. by eauto.
    + destruct (split_char 46 (s ++ 45 :: p)) as [|v vs]; [by apply elem_of_nil in Hi|].
      apply elem_of_cons in Hi as [<-|Hi].
      * exists (c :: a ++ 45 :: b). split; [left|]. by exists (c :: a), b.
      * exists (a ++ 45 :: b). split; [by right|]. by eauto.
Qed.

(** A text with a prerelease is not a stable version. *)
Lemma stable_version_dash `{PyDecimal} s p : stable_version (s ++ 45 :: p) = None.
Proof.
  unfold stable_version. destruct (split_last_dash s p _ eq_refl) as (i & Hi & a & b & ->).
  destruct (split_char 46 (s ++ 45 :: p)) as [|u [|v [|w [|]]]]; try done.
  repeat (apply elem_of_cons in Hi as [<-|Hi]; [rewrite decimal_number_dash; by repeat case_match|]).
  by apply elem_of_nil in Hi.
Qed.

Lemma admits_refl r : admits Exact r r = true.
Proof. unfold admits, py_ltb. rewrite py_cmp_refl, bool_decide_true by done. done. Qed.

Lemma node_specifier_admits `{PyDecimal} o x y z v :
  0 <= x → 0 <= y → 0 <= z → printable v →
  node_semver_spec_matches (specifier o x y z) (js_version_text v) =
  match prerelease v with None => admits o (x, y, z) (base v) | Some _ => false end.
Proof.
  intros Hx Hy Hz Hv. destruct Hv as [_ Hpre [Px _] [Py _] [Pz _] _]. unfold node_semver_spec_matches.
  assert (stable_version (js_version_text v) = match prerelease v with None => Some (base v) | Some _ => None end) as Hsv.
  { unfold js_version_text. destruct (prerelease v) as [p|]; [apply stable_version_dash|].
    rewrite app_nil_r. by apply stable_version_base. }
  assert (specifier o x y z = js_version_text v → prerelease v = None ∧ o = Exact ∧ base v = (x, y, z)) as Heq.
  { intros E. destruct o; unfold specifier in E; cbn [app] in E.
    - rewrite <- E, stable_version_base in Hsv by done. destruct (prerelease v); [done|]. split; [done|]. split; [done|]. congruence.
    - exfalso. unfold js_version_text in E.
      destruct (base_text_digit (major v) (minor v) (patch v) Px) as (c & s & Eb & Hc). rewrite Eb in E.
      injection E as <- _. done.
    - exfalso. unfold js_version_text in E.
      destruct (base_text_digit (major v) (minor v) (patch v) Px) as (c & s & Eb & Hc). rewrite Eb in E.
      injection E as <- _. done. }
  case_bool_decide as E; cbn [andb].
  - destruct (Heq E) as (Hp & -> & Hb). rewrite Hp, Hb, admits_refl. rewrite Hp in Hsv.
    destruct (exact_version (js_version_text v)) eqn:Hex; [done|].
    exfalso. unfold exact_version, js_version_text in Hex. rewrite Hp, app_nil_r in Hex.
    rewrite cut_absent in Hex by (by apply base_text_avoid). unfold js_version_text in Hsv.
    rewrite Hp, app_nil_r in Hsv. by rewrite Hsv in Hex.
  - clear Heq E. rewrite Hsv. unfold specifier, admits.
    destruct o; cbn [app].
    + destruct (base_text_digit x y z Hx) as (c & s & Eb & Hc). rewrite Eb.
      assert ((c =? 126) || (c =? 94) = false) as -> by (unfold is_digit, in_range in Hc; lia).
      rewrite <- Eb, stable_version_base by done. destruct (prerelease v); [done|]. by destruct (py_ltb _ _).
    + cbn [Z.eqb Pos.eqb orb]. rewrite stable_version_base by done.
      destruct (prerelease v); [done|]. by destruct (py_ltb _ _).
    + cbn [Z.eqb Pos.eqb orb]. rewrite stable_version_base by done.
      destruct (prerelease v); [done|]. by destruct (py_ltb _ _).
Qed.

(** C37: the two range matchers agree where both apply: for every exact, tilde
    or caret specifier on a full version and every printable candidate version,
    prereleases included, [node_semver_spec_matches] and
    [version_matches_js_selector] give the same answer, which is [admits] on
    releases and false on prereleases.  (Components stay below the largest safe
    integer, where the general matcher rejects ranges.) *)
Theorem semver_matchers_agree `{PyDecimal} (o : RangeOp) (x y z : Z) (v : JsSemverVersion)
    (Hx : 0 <= x < MAX_SAFE_INTEGER) (Hy : 0 <= y < MAX_SAFE_INTEGER) (Hz : 0 <= z < MAX_SAFE_INTEGER)
    (Hv : printable v) :
  version_matches_js_selector (js_version_text v) (specifier o x y z) =
  node_semver_spec_matches (specifier o x y z) (js_version_text v) ∧
  parse_js_semver (Some (js_version_text v)) = Some v ∧
  node_semver_spec_matches (specifier o x y z) (js_version_text v) =
  match prerelease v with None => admits o (x, y, z) (base v) | Some _ => false end.
Proof.
  rewrite js_specifier_admits, node_specifier_admits by (done || lia).
  split; [done|]. split; [by apply parse_js_semver_print | done].
Qed.

Lemma semver_matchers_witness :
  version_matches_js_selector (js_version_text (stable 1 4 2)) (specifier Caret 1 2 3) = true ∧
  node_semver_spec_matches (H:=ascii_decimal) (specifier Caret 1 2 3) (js_version_text (stable 1 4 2)) = true.
Proof.
  split; [vm_compute; reflexivity|].
  destruct (semver_matchers_agree (H:=ascii_decimal) Caret 1 2 3 (stable 1 4 2)) as (E & _ & _);
    [split; [lia | reflexivity] | split; [lia | reflexivity] | split; [lia | reflexivity] | |].
  - split; try (split; [cbn; lia | vm_compute; discriminate]).
    + intros p Hp. discriminate Hp.
    + discriminate.
    + vm_compute. lia.
  - rewrite <- E. vm_compute. reflexivity.
Defined.

(** [node_semver.py] reads numerals with leading zeros, which are not versions. *)
Lemma node_accepts_leading_zeros :
  node_semver_spec_matches (H:=ascii_decimal) ($"^01.2.3") ($"1.2.3") = true ∧
  version_matches_js_selector ($"1.2.3") ($"^01.2.3") = false.
Proof. split; vm_compute; reflexivity. Qed.
