(* ===== verification/ExecutionAssurance.v ===== *)
(** * Execution assurance

    Models [execution_assurance_contract.py]: atomic guarantees and when they
    satisfy a requirement, the validated records of providers, leases and
    terminal statements, and the framed digest that binds them.  Digest fields
    are [pyval]s; a tuple is a [PList] and fractional numbers are not
    represented.  Field names and domains are text without lone surrogates. *)

From S2P Require Import Prelude PyStr Sha256 Regex PyVal PyJson AsciiJson.
Local Open Scope Z_scope.
Local Open Scope py_scope.

(** ** Validators *)

Definition EXECUTION_ASSURANCE_SCHEMA_VERSION : pystr := $"1.0.0-alpha.1".
Definition MAX_FIELD_LENGTH : nat := 512.
Definition MAX_GUARANTEE_EVIDENCE_REFS : nat := 64.
Definition MAX_STREAM_DIGESTS : nat := 8.

(** [_require_str] *)
Definition require_str (value : pystr) (label : string) (max_length : nat) : result unit :=
  raise_if (bool_decide (value = []) || (max_length <? length value)%nat)
    (ValueError (label +:+ " must be a non-empty string of at most " +:+
      show (str_of_int (Z.of_nat max_length)) +:+ " characters")).

(** [_require_sha256] *)
Definition require_sha256_hex (value : pystr) (label : string) : result unit :=
  require_str value label 64 ;;
  raise_if (negb (length value =? 64)%nat || existsb (λ c, negb (is_hex c)) value)
    (ValueError (label +:+ " must be a lowercase SHA-256 hex digest")).

(** [_require_stream_count] and [_require_positive_int] *)
Definition require_stream_count (value : Z) (label : string) : result unit :=
  raise_if (value <? 0) (ValueError (label +:+ " must be a non-negative integer")).
Definition require_positive_int (value : Z) (label : string) : result unit :=
  raise_if (value <? 1) (ValueError (label +:+ " must be a positive integer")).

(** ** Framed digests *)

(** [_frame_scalar] *)
Fixpoint frame_scalar (v : pyval) : result json :=
  match v with
  | PNone => Ok JNull
  | PStr s => Ok (JStr s)
  | PBool b => Ok (JBool b)
  | PInt n => Ok (JInt n)
  | PList l => items ← map_result frame_scalar l ; Ok (JArr items)
  | PDict kv =>
      entries ← map_result (λ e : pystr * result json, j ← e.2 ; Ok (e.1, j))
        (sort_on fst (map (λ e : pystr * pyval, (e.1, frame_scalar e.2)) kv)) ;
      Ok (JObj entries)
  | POther name _ => Raise (ValueError ("unsupported digest field type: " +:+ name))
  end.

(** [digest.update(len(b).to_bytes(8, "big")); digest.update(b)] *)
Definition chunk (b : list Z) : list Z := be_bytes 8 (Z.of_nat (length b)) ++ b.

(** The two chunks of a field. *)
Definition frame_field (f : pystr * json) : list Z := chunk (utf8 f.1) ++ chunk (utf8 (dumps f.2)).

(** The bytes [framed_digest] hashes, for the fields in the order of the loop. *)
Definition framed_bytes (domain : pystr) (fields : list (pystr * json)) : list Z :=
  chunk (utf8 domain) ++ mjoin (frame_field <$> fields).

Definition framed_digest (domain : pystr) (fields : list (pystr * pyval)) : result pystr :=
  entries ← map_result (λ e : pystr * pyval, j ← frame_scalar e.2 ; Ok (e.1, j)) (sort_on fst fields) ;
  Ok (sha256_hex (framed_bytes domain entries)).

(** ** Enumerations *)

Inductive GuardExecutionAssuranceBoundary :=
  | OBSERVED_HOST | CONTROLLED_HOST | OS_ISOLATED | HARDWARE_ISOLATED.
Global Instance Boundary_eq_dec : EqDecision GuardExecutionAssuranceBoundary.
Proof. solve_decision. Defined.

Inductive GuardExecutionAttestationTrust := UNATTESTED | SELF_ATTESTED | VERIFIED.

Inductive AtomicGuaranteeKind :=
  | FILESYSTEM | SECRET | NETWORK | PROCESS | PRIVILEGE | RESOURCE | KERNEL_HARDWARE | IDENTITY
  | OUTPUT | CLEANUP | TENANT.
Global Instance AtomicGuaranteeKind_eq_dec : EqDecision AtomicGuaranteeKind.
Proof. solve_decision. Defined.
Definition AtomicGuaranteeKind_value (k : AtomicGuaranteeKind) : pystr :=
  match k with
  | FILESYSTEM => $"filesystem" | SECRET => $"secret" | NETWORK => $"network"
  | PROCESS => $"process" | PRIVILEGE => $"privilege" | RESOURCE => $"resource"
  | KERNEL_HARDWARE => $"kernel_hardware" | IDENTITY => $"identity" | OUTPUT => $"output"
  | CLEANUP => $"cleanup" | TENANT => $"tenant"
  end.
Global Instance AtomicGuaranteeKind_enum : PyEnum AtomicGuaranteeKind.
Proof.
  refine {| enum_value := AtomicGuaranteeKind_value;
    enum_members := [FILESYSTEM; SECRET; NETWORK; PROCESS; PRIVILEGE; RESOURCE; KERNEL_HARDWARE;
      IDENTITY; OUTPUT; CLEANUP; TENANT] |}; solve_enum.
Defined.

Inductive ExecutionOutcome := SUCCEEDED | FAILED | CANCELLED | Outcome_UNKNOWN.

(** ** Records *)

Record AtomicGuarantee := {
  guarantee_kind : AtomicGuaranteeKind;
  enforced : bool;
  boundary : GuardExecutionAssuranceBoundary;
  evidence_refs : list pystr;
}.

(** [AtomicGuarantee.__post_init__] *)
Definition check_AtomicGuarantee (g : AtomicGuarantee) : result unit :=
  raise_if (MAX_GUARANTEE_EVIDENCE_REFS <? length (evidence_refs g))%nat
    (ValueError "too many evidence refs") ;;
  for_each (λ r, require_str r "evidence_ref" MAX_FIELD_LENGTH) (evidence_refs g).

Record ProviderIdentity := {
  provider_kind : pystr;
  implementation_version : pystr;
  binary_or_image_digest : pystr;
  signing_identity : pystr;
  trust_domain : pystr;
}.

(** [ProviderIdentity.__post_init__] *)
Definition check_ProviderIdentity (p : ProviderIdentity) : result unit :=
  require_str (provider_kind p) "provider_kind" MAX_FIELD_LENGTH ;;
  require_str (implementation_version p) "implementation_version" MAX_FIELD_LENGTH ;;
  require_sha256_hex (binary_or_image_digest p) "binary_or_image_digest" ;;
  require_str (signing_identity p) "signing_identity" MAX_FIELD_LENGTH ;;
  require_str (trust_domain p) "trust_domain" MAX_FIELD_LENGTH.

Definition identity_fields (p : ProviderIdentity) : list (pystr * pystr) :=
  [($"provider_kind", provider_kind p);
   ($"implementation_version", implementation_version p);
   ($"binary_or_image_digest", binary_or_image_digest p);
   ($"signing_identity", signing_identity p);
   ($"trust_domain", trust_domain p)].
Definition thumbprint (p : ProviderIdentity) : result pystr :=
  framed_digest ($"guard.provider-identity.v1") ((λ f, (f.1, PStr f.2)) <$> identity_fields p).

Record SecretHandle := { handle_id : pystr; secret_scope : pystr }.

(** [SecretHandle.__post_init__] *)
Definition check_SecretHandle (h : SecretHandle) : result unit :=
  require_str (handle_id h) "handle_id" MAX_FIELD_LENGTH ;;
  require_str (secret_scope h) "scope" MAX_FIELD_LENGTH.

Record ExecutionLease := {
  plan_digest : pystr;
  provider_thumbprint : pystr;
  fencing_generation : Z;
  lease_expiry_epoch_seconds : Z;
  attempt_nonce : pystr;
  input_manifest_digest : pystr;
}.

(** [ExecutionLease.__post_init__] *)
Definition check_ExecutionLease (l : ExecutionLease) : result unit :=
  require_sha256_hex (plan_digest l) "plan_digest" ;;
  require_sha256_hex (provider_thumbprint l) "provider_thumbprint" ;;
  require_positive_int (fencing_generation l) "fencing_generation" ;;
  require_positive_int (lease_expiry_epoch_seconds l) "lease_expiry_epoch_seconds" ;;
  require_str (attempt_nonce l) "attempt_nonce" MAX_FIELD_LENGTH ;;
  require_sha256_hex (input_manifest_digest l) "input_manifest_digest".

Record TerminalStatement := {
  outcome : ExecutionOutcome;
  exit_code : option Z;
  stream_byte_counts : list (pystr * Z);
  stream_digests : list (pystr * pystr);
  truncated : bool;
  declared_output_digests : list pystr;
  cleanup_complete : bool;
  execution_instance : pystr;
  attestation_trust : GuardExecutionAttestationTrust;
}.

(** [TerminalStatement.__post_init__] *)
Definition check_TerminalStatement (t : TerminalStatement) : result unit :=
  raise_if (MAX_STREAM_DIGESTS <? length (stream_digests t))%nat
    (ValueError "too many stream digests") ;;
  raise_if (negb (py_subset (stream_digests t).*1 (stream_byte_counts t).*1
                  && py_subset (stream_byte_counts t).*1 (stream_digests t).*1))
    (ValueError "stream digests must cover every stream byte count") ;;
  for_each (λ e : pystr * Z,
    require_str e.1 "stream name" MAX_FIELD_LENGTH ;;
    require_stream_count e.2 "stream byte count") (stream_byte_counts t) ;;
  for_each (λ e : pystr * pystr,
    require_str e.1 "stream name" MAX_FIELD_LENGTH ;;
    require_sha256_hex e.2 "stream digest") (stream_digests t) ;;
  for_each (λ d, require_sha256_hex d "declared output digest") (declared_output_digests t) ;;
  require_str (execution_instance t) "execution_instance" MAX_FIELD_LENGTH.

Record DecisionContext := {
  repository_digest : pystr;
  workspace_digest : pystr;
  context_executable_digest : pystr;
  action_class : pystr;
  context_digest : pystr;
}.

Definition context_fields (c : DecisionContext) : list (pystr * pystr) :=
  [($"repository_digest", repository_digest c);
   ($"workspace_digest", workspace_digest c);
   ($"executable_digest", context_executable_digest c);
   ($"action_class", action_class c)].

(** [DecisionContext.__post_init__] *)
Definition make_DecisionContext (c : DecisionContext) : result DecisionContext :=
  require_sha256_hex (repository_digest c) "repository_digest" ;;
  require_sha256_hex (workspace_digest c) "workspace_digest" ;;
  require_sha256_hex (context_executable_digest c) "executable_digest" ;;
  require_str (action_class c) "action_class" MAX_FIELD_LENGTH ;;
  if bool_decide (context_digest c = []) then
    d ← framed_digest ($"guard.decision-context.v1") ((λ f, (f.1, PStr f.2)) <$> context_fields c) ;
    Ok {| repository_digest := repository_digest c; workspace_digest := workspace_digest c;
          context_executable_digest := context_executable_digest c;
          action_class := action_class c; context_digest := d |}
  else
    require_sha256_hex (context_digest c) "context_digest" ;;
    Ok c.

Record EvidenceSummary := {
  summary_context_digest : pystr;
  guarantee_kinds : list pystr;
  achieved_boundary : GuardExecutionAssuranceBoundary;
  degraded_reason : option pystr;
}.

(** [EvidenceSummary.__post_init__] *)
Definition check_EvidenceSummary (s : EvidenceSummary) : result unit :=
  require_sha256_hex (summary_context_digest s) "context_digest" ;;
  for_each (λ k, require_str k "guarantee_kind" MAX_FIELD_LENGTH) (guarantee_kinds s) ;;
  match degraded_reason s with
  | Some r => require_str r "degraded_reason" MAX_FIELD_LENGTH
  | None => Ok tt
  end.

(** ** Satisfying guarantees *)

(** [boundary_order.index] *)
Definition boundary_index (b : GuardExecutionAssuranceBoundary) : Z :=
  match b with
  | OBSERVED_HOST => 0 | CONTROLLED_HOST => 1 | OS_ISOLATED => 2 | HARDWARE_ISOLATED => 3
  end.

(** The set the loop over [provided] collects. *)
Definition satisfied_kinds (provided : list AtomicGuarantee) (minimum_index : Z)
    : list AtomicGuaranteeKind :=
  foldl (λ acc g,
    if negb (enforced g) then acc
    else if boundary_index (boundary g) <? minimum_index then acc
    else guarantee_kind g :: acc) [] provided.

Definition require_guarantees_satisfied (required : list AtomicGuaranteeKind)
    (provided : list AtomicGuarantee) (minimum_boundary : GuardExecutionAssuranceBoundary)
    : list pystr :=
  let satisfied := satisfied_kinds provided (boundary_index minimum_boundary) in
  AtomicGuaranteeKind_value <$> filter (λ k, py_in k satisfied = false) required.

(** ** Lemmas on framing *)

Lemma be_bytes_value n x :
  0 <= x < 256 ^ Z.of_nat n → foldl (λ acc b, 256 * acc + b) 0 (be_bytes n x) = x.
Proof.
  revert x. induction n as [|n IH]; intros x Hx; cbn [be_bytes].
  - cbn. change (256 ^ Z.of_nat 0) with 1 in Hx. lia.
  - rewrite foldl_app. cbn [foldl]. change 255 with (Z.ones 8). rewrite Z.land_ones, Z.shiftr_div_pow2 by lia.
    change (2 ^ 8) with 256.
    rewrite IH; [pose proof (Z.div_mod x 256); lia|].
    rewrite Nat2Z.inj_succ, Z.pow_succ_r in Hx by lia.
    split; [apply Z.div_pos; lia | apply Z.div_lt_upper_bound; lia].
Qed.

(** A length-prefixed chunk can be split off a byte string in one way only. *)
Lemma chunk_inj a b r s :
  Z.of_nat (length a) < 2 ^ 64 → Z.of_nat (length b) < 2 ^ 64 →
  chunk a ++ r = chunk b ++ s → a = b ∧ r = s.
Proof.
  intros Ha Hb. unfold chunk. rewrite <- !app_assoc. intros E.
  apply app_inj_1 in E as [El E]; [|by rewrite !be_bytes_length].
  assert (length a = length b) as Hl.
  { apply (f_equal (foldl (λ acc b, 256 * acc + b) 0)) in El.
    change (2 ^ 64) with (256 ^ Z.of_nat 8) in *. rewrite !be_bytes_value in El; lia. }
  by apply app_inj_1 in E.
Qed.

(** ** Lemmas on JSON strings *)

(** Unicode scalar values: code points that are not surrogates. *)
Definition scalar (c : Z) : bool := in_range 0 55295 c || in_range 57344 1114111 c.

Definition unhex (d : Z) : Z := if d <? 58 then d - 48 else d - 87.
Definition unhex4 (a b c d : Z) : Z := 4096 * unhex a + 256 * unhex b + 16 * unhex c + unhex d.
Definition short_unesc (e : Z) : Z :=
  if e =? 110 then 10 else if e =? 114 then 13 else if e =? 116 then 9
  else if e =? 102 then 12 else if e =? 98 then 8 else e.

(** Reads one character of a JSON string. *)
Definition unesc (s : pystr) : option (Z * pystr) :=
  match s with
  | x :: s1 =>
      if negb (x =? 92) then Some (x, s1) else
      match s1 with
      | e :: s2 =>
          if negb (e =? 117) then Some (short_unesc e, s2) else
          match s2 with
          | a :: b :: c :: d :: r =>
              let n := unhex4 a b c d in
              if negb (in_range 55296 56319 n) then Some (n, r) else
              match r with
              | _ :: _ :: a' :: b' :: c' :: d' :: r' =>
                  Some (65536 + 1024 * (n - 55296) + (unhex4 a' b' c' d' - 56320), r')
              | _ => None
              end
          | _ => None
          end
      | [] => None
      end
  | [] => None
  end.

Lemma unhex_hex n : 0 <= n < 16 → unhex (hex_digit n) = n.
Proof.
  intros Hn. unfold unhex, hex_digit. destruct (Z.ltb_spec n 10); case_match; lia.
Qed.

Lemma nibble n k : 0 <= k → Z.land (Z.shiftr n k) 15 = (n / 2 ^ k) mod 16.
Proof.
  intros Hk. change 15 with (Z.ones 4). rewrite Z.land_ones, Z.shiftr_div_pow2 by lia. done.
Qed.

Lemma esc_u_read n : 0 <= n < 65536 → ∃ a b c d, esc_u n = [92; 117; a; b; c; d] ∧ unhex4 a b c d = n.
Proof.
  intros Hn. do 4 eexists. split; [reflexivity|]. unfold unhex4.
  rewrite !unhex_hex by apply land_15. rewrite <- (Z.shiftr_0_r n) at 4.
  rewrite !nibble by lia.
  change (2 ^ 12) with 4096. change (2 ^ 8) with 256. change (2 ^ 4) with 16. change (2 ^ 0) with 1.
  Z.to_euclidean_division_equations. lia.
Qed.

(** Reading back what [json.dumps] writes for one character. *)
Lemma unesc_esc c r : scalar c = true → unesc (esc_char c ++ r) = Some (c, r).
Proof.
  intros Hc. unfold scalar, in_range in Hc. unfold esc_char.
  repeat match goal with
  | |- context [if ?x =? ?y then _ else _] => destruct (Z.eqb_spec x y) as [->|]; [reflexivity|]
  end.
  destruct (in_range 32 126 c) eqn:Er.
  { unfold unesc. cbn [app]. by rewrite (proj2 (Z.eqb_neq c 92)). }
  destruct (Z.ltb_spec c 65536) as [Hs|Hs].
  - destruct (esc_u_read c) as (a & b & c' & d & -> & Hn); [lia|]. cbn. rewrite Hn.
    unfold in_range. by replace ((55296 <=? c) && (c <=? 56319)) with false by lia.
  - cbv zeta. set (v := c - 65536).
    assert (Z.land (Z.shiftr v 10) 1023 = v / 1024 ∧ Z.land v 1023 = v mod 1024) as [-> ->].
    { change 1023 with (Z.ones 10). rewrite !Z.land_ones, Z.shiftr_div_pow2 by lia.
      change (2 ^ 10) with 1024. split; [|done]. apply Z.mod_small.
      split; [apply Z.div_pos; lia | apply Z.div_lt_upper_bound; lia]. }
    assert (0 <= v / 1024 < 1024 ∧ 0 <= v mod 1024 < 1024 ∧ v = 1024 * (v / 1024) + v mod 1024)
      as (Hq & Hm & Hv).
    { split; [|split; [apply Z.mod_pos_bound; lia | apply Z.div_mod; lia]].
      split; [apply Z.div_pos; lia | apply Z.div_lt_upper_bound; lia]. }
    destruct (esc_u_read (55296 + v / 1024)) as (a & b & c1 & d & -> & Hn); [lia|].
    destruct (esc_u_read (56320 + v mod 1024)) as (a' & b' & c1' & d' & -> & Hn'); [lia|].
    cbn [app unesc negb Z.eqb Pos.eqb]. cbv zeta. rewrite Hn, Hn'. unfold in_range.
    replace ((55296 <=? 55296 + v / 1024) && (55296 + v / 1024 <=? 56319)) with true by lia. cbn [negb].
    do 2 f_equal. lia.
Qed.

Lemma esc_char_head c : ∃ x l, esc_char c = x :: l ∧ x ≠ 34.
Proof.
  unfold esc_char. repeat case_match; (eexists _, _; split; [reflexivity|]); unfold in_range in *; lia.
Qed.

(** A JSON string can be read off a text in one way only. *)
Lemma dumps_str_inj s t r r' :
  forallb scalar s = true → forallb scalar t = true →
  dumps_str esc_char s ++ r = dumps_str esc_char t ++ r' → s = t ∧ r = r'.
Proof.
  unfold dumps_str. intros Hs Ht E. simpl in E. injection E as E. rewrite <- !app_assoc in E.
  revert t Ht E. induction s as [|c s IH]; intros [|d t] Ht E.
  - by injection E.
  - exfalso. cbn in E. destruct (esc_char_head d) as (x & l & Hx & Hne). rewrite Hx in E.
    injection E as E _. congruence.
  - exfalso. cbn in E. destruct (esc_char_head c) as (x & l & Hx & Hne). rewrite Hx in E.
    injection E as E _. congruence.
  - cbn in Hs, Ht. apply andb_true_iff in Hs as [Hc Hs], Ht as [Hd Ht].
    cbn [fmap list_fmap] in E.
    change (mjoin (esc_char c :: (esc_char <$> s))) with (esc_char c ++ mjoin (esc_char <$> s)) in E.
    change (mjoin (esc_char d :: (esc_char <$> t))) with (esc_char d ++ mjoin (esc_char <$> t)) in E.
    rewrite <- !app_assoc in E. apply (f_equal unesc) in E. rewrite !unesc_esc in E by done.
    injection E as -> E. by destruct (IH Hs t Ht E) as [-> ->].
Qed.

Lemma esc_char_length c : (length (esc_char c) <= 12)%nat.
Proof. unfold esc_char. repeat case_match; cbn; lia. Qed.

Lemma dumps_str_length s : (length (dumps_str esc_char s) <= 12 * length s + 2)%nat.
Proof.
  assert (length (mjoin (esc_char <$> s)) <= 12 * length s)%nat as Hl.
  { induction s as [|c s IH]; [done|].
    change (mjoin (esc_char <$> c :: s)) with (esc_char c ++ mjoin (esc_char <$> s)).
    rewrite length_app. pose proof (esc_char_length c). cbn [length]. lia. }
  unfold dumps_str. rewrite !length_app. cbn [length]. lia.
Qed.

(** ** Properties *)

(** Chunks of fields of strings, and the bound under which they are framed. *)
Definition short (s : pystr) : bool := (length s <=? 512)%nat && forallb scalar s.

Lemma string_chunk_inj s t r r' :
  short s = true → short t = true →
  chunk (utf8 (dumps (JStr s))) ++ r = chunk (utf8 (dumps (JStr t))) ++ r' → s = t ∧ r = r'.
Proof.
  unfold short, dumps. cbn [dumps_with]. rewrite !utf8_ascii by apply dumps_str_ascii.
  intros [Hls Hs]%andb_true_iff [Hlt Ht]%andb_true_iff E.
  apply Nat.leb_le in Hls, Hlt.
  pose proof (dumps_str_length s). pose proof (dumps_str_length t).
  apply chunk_inj in E as [E ->]; [|change (2 ^ 64) with 18446744073709551616; lia..].
  split; [|done]. apply (dumps_str_inj s t [] []); [done..|]. by rewrite E.
Qed.

(** With the same field names, the framed bytes determine the fields. *)
Lemma frame_fields_inj (ks : list pystr) (vs ws : list pystr) :
  Forall (λ k, Z.of_nat (length (utf8 k)) < 2 ^ 64) ks →
  Forall (λ v, short v = true) vs → Forall (λ v, short v = true) ws →
  length vs = length ks → length ws = length ks →
  mjoin (frame_field <$> zip ks (JStr <$> vs)) = mjoin (frame_field <$> zip ks (JStr <$> ws)) → vs = ws.
Proof.
  intros Hks. revert vs ws. induction Hks as [|k ks Hk _ IH]; intros [|v vs] [|w ws] Hv Hw Hlv Hlw E;
    try done.
  inversion_clear Hv as [|? ? Hv1 Hvs]. inversion_clear Hw as [|? ? Hw1 Hws].
  cbn [zip zip_with fmap list_fmap] in E.
  change (frame_field (k, JStr v) ++ mjoin (frame_field <$> zip ks (JStr <$> vs)) =
          frame_field (k, JStr w) ++ mjoin (frame_field <$> zip ks (JStr <$> ws))) in E.
  unfold frame_field at 1 3 in E. cbn [fst snd] in E. rewrite <- !app_assoc in E.
  apply chunk_inj in E as [_ E]; [|done..]. apply string_chunk_inj in E as [-> E]; [|done..].
  f_equal. cbn in Hlv, Hlw. apply (IH vs ws); [done..|lia|lia|done].
Qed.

(** The bytes hashed for an identity and for a decision context: the domain,
    then the fields by name. *)
Definition identity_bytes (p : ProviderIdentity) : list Z :=
  framed_bytes ($"guard.provider-identity.v1")
    (zip [$"binary_or_image_digest"; $"implementation_version"; $"provider_kind"; $"signing_identity";
          $"trust_domain"]
      (JStr <$> [binary_or_image_digest p; implementation_version p; provider_kind p;
                 signing_identity p; trust_domain p])).
Definition context_bytes (c : DecisionContext) : list Z :=
  framed_bytes ($"guard.decision-context.v1")
    (zip [$"action_class"; $"executable_digest"; $"repository_digest"; $"workspace_digest"]
      (JStr <$> [action_class c; context_executable_digest c; repository_digest c; workspace_digest c])).

(** Text of a record: no lone surrogates. *)
Definition identity_text (p : ProviderIdentity) : bool :=
  forallb scalar (provider_kind p) && forallb scalar (implementation_version p)
  && forallb scalar (signing_identity p) && forallb scalar (trust_domain p).

Lemma thumbprint_bytes p : thumbprint p = Ok (sha256_hex (identity_bytes p)).
Proof. reflexivity. Qed.

Lemma require_str_short s label :
  require_str s label MAX_FIELD_LENGTH = Ok tt → forallb scalar s = true → short s = true.
Proof.
  unfold require_str, short. intros [_ Hl]%raise_if_Ok%orb_false_iff ->. unfold MAX_FIELD_LENGTH in Hl.
  apply Nat.ltb_ge in Hl. by rewrite (proj2 (Nat.leb_le _ _) Hl).
Qed.

Lemma hex_scalar s : existsb (λ c, negb (is_hex c)) s = false → forallb scalar s = true.
Proof.
  intros Hs. apply forallb_Forall, Forall_forall. intros c Hc. apply existsb_false in Hs.
  rewrite Forall_forall in Hs. specialize (Hs c Hc). apply negb_false_iff in Hs.
  unfold is_hex, is_digit, in_range, scalar, in_range in *. lia.
Qed.

Lemma require_sha256_hex_short s label : require_sha256_hex s label = Ok tt → short s = true.
Proof.
  unfold require_sha256_hex, short. intros E. apply bind_Ok in E as ([] & _ & E).
  apply raise_if_Ok, orb_false_iff in E as [Hl Hh]. apply negb_false_iff, Nat.eqb_eq in Hl.
  rewrite Hl, (hex_scalar s Hh). done.
Qed.

Lemma identity_short p :
  check_ProviderIdentity p = Ok tt → identity_text p = true →
  Forall (λ v, short v = true) [binary_or_image_digest p; implementation_version p; provider_kind p;
    signing_identity p; trust_domain p].
Proof.
  unfold check_ProviderIdentity, identity_text. intros E.
  intros [[[H1 H2]%andb_true_iff H3]%andb_true_iff H4]%andb_true_iff.
  apply bind_Ok in E as ([] & E1 & E). apply bind_Ok in E as ([] & E2 & E).
  apply bind_Ok in E as ([] & E3 & E). apply bind_Ok in E as ([] & E4 & E5).
  repeat constructor; eauto using require_str_short, require_sha256_hex_short.
Qed.

(** a provider's thumbprint binds its whole identity: computing it never
    raises, it is the digest of [identity_bytes], two valid identities that hash
    the same bytes are equal in every field, and no decision context hashes the
    bytes of an identity: the length-prefixed frames cannot alias across fields
    or domains. *)
Theorem thumbprint_binds_identity (p q : ProviderIdentity)
    (Hp : check_ProviderIdentity p = Ok tt) (Hq : check_ProviderIdentity q = Ok tt)
    (Hpt : identity_text p = true) (Hqt : identity_text q = true) :
  thumbprint p = Ok (sha256_hex (identity_bytes p)) ∧
  (identity_bytes p = identity_bytes q → p = q) ∧
  ∀ c, context_bytes c ≠ identity_bytes p.
Proof.
  split; [apply thumbprint_bytes|]. split.
  - intros E. apply chunk_inj in E as [_ E]; [|vm_compute; reflexivity..].
    apply frame_fields_inj in E; [|repeat (constructor; [vm_compute; reflexivity|]); constructor|
      by apply identity_short|by apply identity_short|done|done].
    destruct p, q. cbn in E. by injection E as -> -> -> -> ->.
  - intros c E. apply chunk_inj in E as [E _]; [|vm_compute; reflexivity..]. vm_compute in E. done.
Qed.

Definition sample_identity_of (version : string) : ProviderIdentity :=
  {| provider_kind := $"oci"; implementation_version := lit version;
     binary_or_image_digest := replicate 64 97; signing_identity := $"signer"; trust_domain := $"local" |}.

Lemma thumbprint_binds_witness :
  identity_bytes (sample_identity_of "1.0") ≠ identity_bytes (sample_identity_of "1.1").
Proof.
  intros E.
  destruct (thumbprint_binds_identity (sample_identity_of "1.0") (sample_identity_of "1.1")
    ltac:(vm_compute; reflexivity) ltac:(vm_compute; reflexivity)
    ltac:(vm_compute; reflexivity) ltac:(vm_compute; reflexivity)) as (_ & Hinj & _).
  specialize (Hinj E). discriminate Hinj.
Defined.

Lemma satisfied_kinds_spec provided m k :
  k ∈ satisfied_kinds provided m ↔
  ∃ g, g ∈ provided ∧ guarantee_kind g = k ∧ enforced g = true ∧ m <= boundary_index (boundary g).
Proof.
  unfold satisfied_kinds. induction provided as [|g provided IH] using rev_ind.
  { split; [by intros ?%elem_of_nil | intros (g & Hg & _); by apply elem_of_nil in Hg]. }
  rewrite foldl_app. cbn [foldl].
  transitivity ((guarantee_kind g = k ∧ enforced g = true ∧ m <= boundary_index (boundary g)) ∨
    ∃ g, g ∈ provided ∧ guarantee_kind g = k ∧ enforced g = true ∧ m <= boundary_index (boundary g)).
  - rewrite <- IH. destruct (enforced g); cbn [negb]; [|intuition discriminate].
    destruct (Z.ltb_spec (boundary_index (boundary g)) m); [|rewrite elem_of_cons; intuition congruence].
    intuition lia.
  - setoid_rewrite elem_of_app. setoid_rewrite list_elem_of_singleton. split.
    + intros [Hg|(h & Hh & Hk)]; [exists g; auto | exists h; auto].
    + intros (h & [Hh| ->] & Hk); [right; by exists h | by left].
Qed.

(** a required guarantee is reported satisfied exactly when it is provided,
    enforced, at or above the minimum boundary: the kinds returned are those of
    [required], in order, for which no such guarantee exists; a stronger
    boundary never replaces a missing guarantee, and a higher minimum never
    satisfies more. *)
Theorem unsatisfied_guarantees_exact (required : list AtomicGuaranteeKind)
    (provided : list AtomicGuarantee) (m : GuardExecutionAssuranceBoundary) :
  let backed k m := ∃ g, g ∈ provided ∧ guarantee_kind g = k ∧ enforced g = true ∧
    boundary_index m <= boundary_index (boundary g) in
  (∃ ks, require_guarantees_satisfied required provided m = enum_value <$> ks ∧ ks `sublist_of` required ∧
    ∀ k, k ∈ ks ↔ k ∈ required ∧ ¬ backed k m) ∧
  (require_guarantees_satisfied required provided m = [] ↔ ∀ k, k ∈ required → backed k m) ∧
  ∀ m', boundary_index m <= boundary_index m' →
    require_guarantees_satisfied required provided m' = [] →
    require_guarantees_satisfied required provided m = [].
Proof.
  cbv zeta.
  assert (∀ m k, py_in k (satisfied_kinds provided (boundary_index m)) = false ↔
    ¬ ∃ g, g ∈ provided ∧ guarantee_kind g = k ∧ enforced g = true ∧
      boundary_index m <= boundary_index (boundary g)) as Hs
    by (intros; rewrite py_in_false, satisfied_kinds_spec; done).
  assert (∀ m, require_guarantees_satisfied required provided m = [] ↔ ∀ k, k ∈ required →
    ∃ g, g ∈ provided ∧ guarantee_kind g = k ∧ enforced g = true ∧
      boundary_index m <= boundary_index (boundary g)) as Hnil.
  { intros m0. unfold require_guarantees_satisfied. cbv zeta. split.
    - intros E%fmap_nil_inv k Hk. destruct (py_in k (satisfied_kinds provided (boundary_index m0))) eqn:Ek.
      + by apply satisfied_kinds_spec, py_in_true.
      + exfalso. eapply (not_elem_of_nil k). rewrite <- E. by apply list_elem_of_filter.
    - intros Hall. rewrite (filter_none _ required); [done|]. apply Forall_forall. intros k Hk.
      rewrite Hs. intros Hn. by apply Hn, Hall. }
  split; [|split; [apply Hnil|]].
  - eexists. split; [reflexivity|]. split; [apply sublist_filter|]. intros k.
    rewrite list_elem_of_filter, Hs. naive_solver.
  - intros m' Hm. rewrite !Hnil. intros Hall k Hk. destruct (Hall k Hk) as (g & ? & ? & ? & ?).
    exists g. repeat split; try done. lia.
Qed.
