(* ===== verification/PyPath.v ===== *)
(** * POSIX path text and shell words

    What the modelled code uses of [pathlib], [os.path] and [shlex]: the parts,
    text and name of a [PurePosixPath], [os.path.normpath] and [os.path.join],
    and [shlex.split(s, posix=True, comments=False)], whose reader is a state
    machine over the characters. *)

From S2P Require Import Prelude PyStr.
Local Open Scope Z_scope.
Local Open Scope py_scope.

(** ** Paths *)

(** The leading slashes: two are kept, three or more count as one. *)
Definition path_root (s : pystr) : pystr :=
  if startswith ($"//") s && negb (startswith ($"///") s) then $"//"
  else if startswith ($"/") s then $"/" else [].
(** [PurePosixPath(s)]: its parts after the root, its text and its [name] *)
Definition path_parts (s : pystr) : list pystr := filter (λ p, p ≠ [] ∧ p ≠ $".") (split_char 47 s).
Definition posix_str (s : pystr) : pystr :=
  let text := path_root s ++ join ($"/") (path_parts s) in
  if decide (text = []) then $"." else text.
Definition path_name (s : pystr) : pystr := default [] (last (path_parts s)).

(** [os.path.normpath(s)] *)
Definition norm_step (rooted : bool) (comps : list pystr) (comp : pystr) : list pystr :=
  if bool_decide (comp = []) || bool_decide (comp = $".") then comps
  else if negb (bool_decide (comp = $"..")) || (negb rooted && bool_decide (comps = []))
          || bool_decide (last comps = Some ($"..")) then comps ++ [comp]
  else removelast comps.
Definition norm_parts (s : pystr) : list pystr :=
  foldl (norm_step (negb (bool_decide (path_root s = [])))) [] (split_char 47 s).
Definition normpath (s : pystr) : pystr :=
  let text := path_root s ++ join ($"/") (norm_parts s) in
  if decide (text = []) then $"." else text.

(** [os.path.join(a, b)] *)
Definition path_join (a b : pystr) : pystr :=
  if startswith ($"/") b then b
  else if bool_decide (a = []) || endswith ($"/") a then a ++ b
  else a ++ $"/" ++ b.

(** ** Shell words *)

Inductive shlex_state :=
  | Blank                    (* between words *)
  | Word                     (* in a word *)
  | Quote (q : Z)            (* inside quotes *)
  | Escape (back : shlex_state).

Definition shlex_blank (c : Z) : bool := py_in c [32; 9; 13; 10].
Definition shlex_quote (c : Z) : bool := py_in c [39; 34].

(** The words of the rest of the text, in the reader's state, with the token
    read so far and whether a part of it was quoted. *)
Fixpoint shlex_words (st : shlex_state) (token : pystr) (quoted : bool) (s : pystr) : result (list pystr) :=
  let emit (rest : result (list pystr)) : result (list pystr) :=
    if bool_decide (token = []) && negb quoted then rest else words ← rest ; Ok (token :: words) in
  match st, s with
  | Blank, [] => Ok []
  | Blank, c :: s =>
      if shlex_blank c then shlex_words Blank [] false s
      else if c =? 92 then shlex_words (Escape Word) [] false s
      else if shlex_quote c then shlex_words (Quote c) [] false s
      else shlex_words Word [c] false s
  | Word, [] => emit (Ok [])
  | Word, c :: s =>
      if shlex_blank c then emit (shlex_words Blank [] false s)
      else if shlex_quote c then shlex_words (Quote c) token quoted s
      else if c =? 92 then shlex_words (Escape Word) token quoted s
      else shlex_words Word (token ++ [c]) quoted s
  | Quote _, [] => Raise (ValueError "No closing quotation")
  | Quote q, c :: s =>
      if c =? q then shlex_words Word token true s
      else if (c =? 92) && (q =? 34) then shlex_words (Escape (Quote q)) token true s
      else shlex_words (Quote q) (token ++ [c]) true s
  | Escape _, [] => Raise (ValueError "No escaped character")
  | Escape (Quote q), c :: s =>
      shlex_words (Quote q) (token ++ (if (c =? 92) || (c =? q) then [c] else [92; c])) quoted s
  | Escape _, c :: s => shlex_words Word (token ++ [c]) quoted s
  end.
Definition shlex_split (s : pystr) : result (list pystr) := shlex_words Blank [] false s.

(** ** Lemmas *)

(** A character that stands for itself in a word. *)
Definition plain_char (c : Z) : bool := negb (shlex_blank c) && negb (shlex_quote c) && negb (c =? 92).

Lemma shlex_word_plain token quoted w s :
  forallb plain_char w = true → shlex_words Word token quoted (w ++ s) = shlex_words Word (token ++ w) quoted s.
Proof.
  revert token. induction w as [|c w IH]; intros token; cbn [app forallb]; [by rewrite app_nil_r|].
  rewrite andb_true_iff. intros [Hc Hw]. unfold plain_char in Hc. rewrite !andb_true_iff, !negb_true_iff in Hc.
  destruct Hc as [[Hb Hq] He]. cbn [shlex_words]. rewrite Hb, Hq, He, IH by done. by rewrite <- app_assoc.
Qed.

Lemma shlex_split_cons c w s :
  plain_char c = true → forallb plain_char w = true →
  shlex_split ((c :: w) ++ s) = shlex_words Word (c :: w) false s.
Proof.
  intros Hc Hw. unfold plain_char in Hc. rewrite !andb_true_iff, !negb_true_iff in Hc. destruct Hc as [[Hb Hq] He].
  unfold shlex_split. cbn [app shlex_words]. rewrite Hb, He, Hq. by rewrite shlex_word_plain.
Qed.

(** Plain words joined by single spaces are split back. *)
Definition plain_word (w : pystr) : bool := negb (bool_decide (w = [])) && forallb plain_char w.
Lemma shlex_split_join words : forallb plain_word words = true → shlex_split (join ($" ") words) = Ok words.
Proof.
  induction words as [|w words IH]; [done|]. cbn [forallb]. rewrite andb_true_iff. intros [Hw Hws].
  unfold plain_word in Hw. apply andb_true_iff in Hw as [Hne Hp]. destruct w as [|c w]; [done|].
  cbn [forallb] in Hp. apply andb_true_iff in Hp as [Hc Hp]. destruct words as [|w' words].
  - cbn [join]. rewrite <- (app_nil_r (c :: w)), shlex_split_cons by done. cbn. by rewrite app_nil_r.
  - change (join ($" ") ((c :: w) :: w' :: words)) with ((c :: w) ++ 32 :: join ($" ") (w' :: words)).
    rewrite shlex_split_cons by done. specialize (IH Hws). unfold shlex_split in IH.
    generalize dependent (join ($" ") (w' :: words)). intros rest Hrest. cbn -[Z.eqb]. by rewrite Hrest.
Qed.

(** Parts without [".."] are what [normpath] keeps. *)
Lemma norm_parts_plain rooted comps l :
  Forall (λ p, p ≠ $"..") l →
  foldl (norm_step rooted) comps l = comps ++ filter (λ p, p ≠ [] ∧ p ≠ $".") l.
Proof.
  revert comps. induction l as [|p l IH]; intros comps; cbn [foldl]; [by rewrite app_nil_r|].
  intros [Hp Hl]%Forall_cons. rewrite IH by done. rewrite filter_cons. unfold norm_step.
  rewrite (bool_decide_eq_false_2 (p = $"..")) by done. cbn [negb orb].
  destruct (decide (p ≠ [] ∧ p ≠ $".")) as [[H1 H2]|Hn].
  - rewrite (bool_decide_eq_false_2 (p = [])), (bool_decide_eq_false_2 (p = $".")) by done. cbn [orb].
    by rewrite <- app_assoc.
  - assert (bool_decide (p = []) || bool_decide (p = $".") = true) as ->; [|done].
    destruct (decide (p = [])); [by rewrite bool_decide_eq_true_2|]. destruct (decide (p = $".")); [|naive_solver].
    by rewrite (bool_decide_eq_true_2 (p = $".")), orb_true_r.
Qed.
Lemma norm_parts_no_dotdot s : $".." ∉ path_parts s → norm_parts s = path_parts s.
Proof.
  intros Hs. unfold norm_parts. rewrite norm_parts_plain; [done|]. apply Forall_forall. intros p Hp ->.
  apply Hs. unfold path_parts. apply list_elem_of_filter. by split.
Qed.
