(* ===== verification/LinuxSupplyChain.v ===== *)
(** * Signed provenance of privileged Linux artifacts

    Models [runtime/linux_artifact_supply_chain.py]: the build-time manifest
    and its signature, the receipt of a verification, and the revalidation of a
    receipt against the trust and revocation of the moment.  Ed25519 is the
    class of [LinuxUdpDns.v].

    The theorems: a revalidated receipt is signed by a trusted, unrevoked key
    over exactly the component, version, release, digest and builder it states;
    a manifest made with a trusted key verifies for its bytes, and its receipt
    revalidates. *)

From S2P Require Import Prelude PyStr Sha256 Regex PyVal LinuxUdpDns.
Local Open Scope Z_scope.
Local Open Scope py_scope.

Module SupplyChain.

Definition SIGNATURE_RE : regex := RRep 128 (RSet hex09).
(** [[a-z0-9](?:[a-z0-9._-]{0,126}[a-z0-9])?] *)
Definition IDENTIFIER_RE : regex :=
  RCat (RSet az09) (ROpt (RCat (RUpTo 126 (RSet (az09 ++ [(46, 46); (95, 95); (45, 45)]))) (RSet az09))).
Definition SCHEMA_VERSION : Z := 1.
Definition SIGNATURE_DOMAIN : list Z := $"hol-guard-linux-artifact-manifest-v1" ++ [0].

Record LinuxArtifactSupplyChainManifest := {
  mf_schema_version : Z;
  mf_component_id : pystr;
  mf_version : pystr;
  mf_release_sequence : Z;
  mf_artifact_digest : pystr;
  mf_sbom_digest : pystr;
  mf_source_digest : pystr;
  mf_builder_id : pystr;
  mf_key_id : pystr;
  mf_signature : pystr;
}.

(** [LinuxArtifactSupplyChainManifest.__post_init__] *)
Definition check_manifest (m : LinuxArtifactSupplyChainManifest) : result unit :=
  raise_if (negb (mf_schema_version m =? SCHEMA_VERSION)) (ValueError "unsupported manifest schema") ;;
  raise_if (mf_release_sequence m <? 0) (ValueError "invalid release sequence") ;;
  for_each (λ f : string * pystr, raise_if (negb (fullmatch IDENTIFIER_RE f.2)) (ValueError ("invalid " +:+ f.1)))
    [("component_id", mf_component_id m); ("builder_id", mf_builder_id m); ("key_id", mf_key_id m)]%string ;;
  raise_if (bool_decide (mf_version m = []) || negb (bool_decide (mf_version m = strip (mf_version m)))
            || (128 <? length (mf_version m))%nat) (ValueError "invalid version") ;;
  for_each (λ f : string * pystr, raise_if (negb (fullmatch SHA256_RE f.2)) (ValueError ("invalid " +:+ f.1)))
    [("artifact_digest", mf_artifact_digest m); ("sbom_digest", mf_sbom_digest m);
     ("source_digest", mf_source_digest m)]%string ;;
  raise_if (negb (fullmatch SIGNATURE_RE (mf_signature m))) (ValueError "invalid signature").

(** [asdict(manifest)] without the signature *)
Definition manifest_fields (m : LinuxArtifactSupplyChainManifest) : list (pystr * json) :=
  [($"schema_version", JInt (mf_schema_version m)); ($"component_id", JStr (mf_component_id m));
   ($"version", JStr (mf_version m)); ($"release_sequence", JInt (mf_release_sequence m));
   ($"artifact_digest", JStr (mf_artifact_digest m)); ($"sbom_digest", JStr (mf_sbom_digest m));
   ($"source_digest", JStr (mf_source_digest m)); ($"builder_id", JStr (mf_builder_id m));
   ($"key_id", JStr (mf_key_id m))].

Definition canonical_json (j : json) : list Z := utf8 (dumps j).
Definition signature_payload (m : LinuxArtifactSupplyChainManifest) : list Z :=
  SIGNATURE_DOMAIN ++ canonical_json (JObj (manifest_fields m)).
Definition manifest_digest (m : LinuxArtifactSupplyChainManifest) : pystr :=
  sha256_hex (canonical_json (JObj (manifest_fields m ++ [($"signature", JStr (mf_signature m))]))).

Record LinuxArtifactSupplyChainReceipt := {
  rc_component_id : pystr;
  rc_version : pystr;
  rc_release_sequence : Z;
  rc_artifact_digest : pystr;
  rc_sbom_digest : pystr;
  rc_source_digest : pystr;
  rc_builder_id : pystr;
  rc_key_id : pystr;
  rc_manifest_digest : pystr;
  rc_signer_public_key : pystr;
  rc_manifest : LinuxArtifactSupplyChainManifest;
}.

(** The receipt of a manifest verified under a key. *)
Definition receipt_of (m : LinuxArtifactSupplyChainManifest) (public_key_hex : pystr) : LinuxArtifactSupplyChainReceipt :=
  {| rc_component_id := mf_component_id m; rc_version := mf_version m;
     rc_release_sequence := mf_release_sequence m; rc_artifact_digest := mf_artifact_digest m;
     rc_sbom_digest := mf_sbom_digest m; rc_source_digest := mf_source_digest m;
     rc_builder_id := mf_builder_id m; rc_key_id := mf_key_id m;
     rc_manifest_digest := manifest_digest m; rc_signer_public_key := public_key_hex; rc_manifest := m |}.

(** The comparison of a receipt with its manifest, field by field. *)
Definition receipt_bound (r : LinuxArtifactSupplyChainReceipt) : bool :=
  let m := rc_manifest r in
  bool_decide (rc_component_id r = mf_component_id m) && bool_decide (rc_version r = mf_version m)
  && (rc_release_sequence r =? mf_release_sequence m) && bool_decide (rc_artifact_digest r = mf_artifact_digest m)
  && bool_decide (rc_sbom_digest r = mf_sbom_digest m) && bool_decide (rc_source_digest r = mf_source_digest m)
  && bool_decide (rc_builder_id r = mf_builder_id m) && bool_decide (rc_key_id r = mf_key_id m)
  && bool_decide (rc_manifest_digest r = manifest_digest m).

Section signatures.
Context `{Ed25519}.

(** [from_public_bytes(bytes.fromhex(key)).verify(bytes.fromhex(signature), payload)]
    without [InvalidSignature] or [ValueError] *)
Definition signature_verifies (public_key_hex : pystr) (m : LinuxArtifactSupplyChainManifest) : bool :=
  match bytes_fromhex public_key_hex, bytes_fromhex (mf_signature m) with
  | Some pk, Some sig => accepts_public_bytes pk && verify pk sig (signature_payload m)
  | _, _ => false
  end.

Definition validate_provenance (r : LinuxArtifactSupplyChainReceipt) : result unit :=
  raise_if (negb (receipt_bound r)) (ValueError "receipt provenance is invalid") ;;
  raise_if (negb (signature_verifies (rc_signer_public_key r) (rc_manifest r)))
    (ValueError "receipt provenance is invalid").

Definition create_linux_artifact_supply_chain_manifest (component_id version : pystr) (release_sequence : Z)
    (artifact sbom : list Z) (source_digest builder_id key_id : pystr) (signing_key : private_key)
    : result LinuxArtifactSupplyChainManifest :=
  let signed signature :=
    {| mf_schema_version := SCHEMA_VERSION; mf_component_id := component_id; mf_version := version;
       mf_release_sequence := release_sequence; mf_artifact_digest := sha256_hex artifact;
       mf_sbom_digest := sha256_hex sbom; mf_source_digest := source_digest; mf_builder_id := builder_id;
       mf_key_id := key_id; mf_signature := signature |} in
  let unsigned := signed (replicate 128 48) in
  check_manifest unsigned ;;
  let m := signed (hexdigest (sign signing_key (signature_payload unsigned))) in
  check_manifest m ;;
  Ok m.

Definition verify_linux_artifact_supply_chain (m : LinuxArtifactSupplyChainManifest) (artifact sbom : list Z)
    (expected_component_id expected_version : pystr) (expected_release_sequence : Z) (expected_source_digest : pystr)
    (trusted_builder_ids : list pystr) (trusted_public_keys : list (pystr * pystr)) (revoked_key_ids : list pystr)
    : result LinuxArtifactSupplyChainReceipt :=
  raise_if (negb (bool_decide (mf_component_id m = expected_component_id))) (ValueError "component identity mismatch") ;;
  raise_if (negb (bool_decide (mf_version m = expected_version))) (ValueError "artifact version mismatch") ;;
  raise_if (negb (mf_release_sequence m =? expected_release_sequence)) (ValueError "artifact release sequence mismatch") ;;
  raise_if (negb (bool_decide (mf_source_digest m = expected_source_digest))) (ValueError "source digest mismatch") ;;
  raise_if (negb (py_in (mf_builder_id m) trusted_builder_ids)) (ValueError "artifact builder is not trusted") ;;
  raise_if (py_in (mf_key_id m) revoked_key_ids) (ValueError "manifest signer is revoked") ;;
  match dict_lookup (mf_key_id m) trusted_public_keys with
  | None => Raise (ValueError "manifest signer is not trusted")
  | Some public_key_hex =>
      raise_if (negb (bool_decide (mf_artifact_digest m = sha256_hex artifact))) (ValueError "artifact digest mismatch") ;;
      raise_if (negb (bool_decide (mf_sbom_digest m = sha256_hex sbom))) (ValueError "SBOM digest mismatch") ;;
      raise_if (negb (signature_verifies public_key_hex m)) (ValueError "manifest signature is invalid") ;;
      validate_provenance (receipt_of m public_key_hex) ;;
      Ok (receipt_of m public_key_hex)
  end.

Definition revalidate_linux_artifact_supply_chain_receipt (r : LinuxArtifactSupplyChainReceipt)
    (artifact_digest : pystr) (trusted_builder_ids : list pystr) (trusted_public_keys : list (pystr * pystr))
    (revoked_key_ids : list pystr) : result unit :=
  validate_provenance r ;;
  let m := rc_manifest r in
  raise_if (negb (py_in (mf_builder_id m) trusted_builder_ids)) (ValueError "artifact builder is not trusted") ;;
  raise_if (py_in (mf_key_id m) revoked_key_ids) (ValueError "manifest signer is revoked") ;;
  match dict_lookup (mf_key_id m) trusted_public_keys with
  | None => Raise (ValueError "manifest signer is not trusted")
  | Some public_key_hex =>
      raise_if (negb (bool_decide (mf_artifact_digest m = artifact_digest))) (ValueError "artifact digest mismatch") ;;
      raise_if (negb (receipt_bound r)) (ValueError "receipt manifest binding is invalid") ;;
      raise_if (negb (signature_verifies public_key_hex m)) (ValueError "manifest signature is invalid")
  end.

(** ** Properties *)

(** Signed by a trusted key that is not revoked. *)
Definition trusted_signature (trusted_public_keys : list (pystr * pystr)) (revoked_key_ids : list pystr)
    (m : LinuxArtifactSupplyChainManifest) : Prop :=
  mf_key_id m ∉ revoked_key_ids
  ∧ ∃ key pk sig, dict_lookup (mf_key_id m) trusted_public_keys = Some key
      ∧ bytes_fromhex key = Some pk ∧ bytes_fromhex (mf_signature m) = Some sig
      ∧ verify pk sig (signature_payload m) = true.

Lemma signature_verifies_spec key m :
  signature_verifies key m = true →
  ∃ pk sig, bytes_fromhex key = Some pk ∧ bytes_fromhex (mf_signature m) = Some sig ∧ verify pk sig (signature_payload m) = true.
Proof.
  unfold signature_verifies. destruct (bytes_fromhex key) as [pk|], (bytes_fromhex (mf_signature m)) as [sig|]; try done.
  rewrite andb_true_iff. intros [_ ?]. eauto.
Qed.

Lemma revalidate_Ok r digest builders keys revoked :
  revalidate_linux_artifact_supply_chain_receipt r digest builders keys revoked = Ok tt →
  receipt_bound r = true ∧ mf_artifact_digest (rc_manifest r) = digest ∧ mf_builder_id (rc_manifest r) ∈ builders
  ∧ trusted_signature keys revoked (rc_manifest r).
Proof.
  unfold revalidate_linux_artifact_supply_chain_receipt. intros [[Hb _]%then_Ok [Hbu [Hrev Hk]%then_Ok]%then_Ok]%then_Ok.
  apply raise_if_Ok in Hb, Hbu, Hrev. apply negb_false_iff in Hb, Hbu. apply py_in_true in Hbu. apply py_in_false in Hrev.
  destruct (dict_lookup _ keys) as [key|] eqn:E; [|done]. rewrite !then_Ok, !raise_if_Ok, !negb_false_iff, bool_decide_eq_true in Hk.
  destruct Hk as (Hd & _ & (pk & sig & Hpk & Hsig & Hv)%signature_verifies_spec). split_and!; [done..|]. split; [done|]. eauto 10.
Qed.

Lemma receipt_of_bound m key : receipt_bound (receipt_of m key) = true.
Proof. unfold receipt_bound, receipt_of. cbn -[manifest_digest]. by rewrite !bool_decide_eq_true_2, Z.eqb_refl. Qed.

(** Fields a manifest can have. *)
Record well_formed_fields (component version : pystr) (release : Z) (source builder key_id : pystr) : Prop := {
  well_formed_release : 0 <= release;
  well_formed_component : fullmatch IDENTIFIER_RE component = true;
  well_formed_builder : fullmatch IDENTIFIER_RE builder = true;
  well_formed_key_id : fullmatch IDENTIFIER_RE key_id = true;
  well_formed_version : version ≠ [] ∧ version = strip version ∧ (length version <= 128)%nat;
  well_formed_source : fullmatch SHA256_RE source = true;
}.

(** A manifest is accepted when its fields and its signature are well formed:
    the digests of the artifact and of its bill of materials always are. *)
Lemma check_manifest_Ok m artifact sbom :
  mf_schema_version m = SCHEMA_VERSION → mf_artifact_digest m = sha256_hex artifact → mf_sbom_digest m = sha256_hex sbom →
  fullmatch SIGNATURE_RE (mf_signature m) = true →
  check_manifest m = Ok tt
  ↔ well_formed_fields (mf_component_id m) (mf_version m) (mf_release_sequence m) (mf_source_digest m) (mf_builder_id m)
      (mf_key_id m).
Proof.
  intros Hs Ha Hb Hg. unfold check_manifest. rewrite Hs, Ha, Hb, Hg. rewrite !then_Ok, !for_each_Ok, !Forall_cons.
  cbn [snd]. rewrite !raise_if_Ok, !negb_false_iff, !orb_false_iff, !sha256_hex_matches, Z.ltb_ge, Nat.ltb_ge, negb_false_iff,
    bool_decide_eq_true, bool_decide_eq_false. split.
  - intros (_ & ? & (? & ? & ? & _) & ((? & ?) & ?) & (_ & _ & ? & _) & _). by split.
  - intros [? ? ? ? (? & ? & ?) ?]. repeat (split; try done).
Qed.

Lemma signature_shape key payload : fullmatch SIGNATURE_RE (hexdigest (sign key payload)) = true.
Proof.
  apply fullmatch_spec, matches_rep_set. split.
  - rewrite hexdigest_length. by rewrite (proj1 (sign_shape key payload)).
  - eapply Forall_impl; [apply hexdigest_hex|]. intros c Hc.
    unfold is_hex, is_digit in Hc. unfold in_set; simpl. by rewrite orb_false_r.
Qed.

(** C31: Provenance round trip: a manifest is created for an artifact and its
    bill of materials with a signing key, whatever their bytes are, exactly when
    its fields are well formed (a release that is not negative, identifiers and a
    source digest of their form, a version without surrounding blanks of 1 to
    128 characters); and then it verifies, for the same bytes and
    expectations, against any trust store that holds the key's public bytes
    under its id, trusts the builder and has not revoked the key; and the
    receipt so obtained revalidates under the same trust. *)
Theorem provenance_roundtrip component version release artifact sbom source builder key_id key :
  ((∃ m, create_linux_artifact_supply_chain_manifest component version release artifact sbom source builder key_id key = Ok m)
   ↔ well_formed_fields component version release source builder key_id)
  ∧ ∀ builders keys revoked m,
  create_linux_artifact_supply_chain_manifest component version release artifact sbom source builder key_id key = Ok m →
  dict_lookup key_id keys = Some (hexdigest (public_bytes key)) → builder ∈ builders → key_id ∉ revoked →
  ∃ r, verify_linux_artifact_supply_chain m artifact sbom component version release source builders keys revoked = Ok r
    ∧ rc_manifest r = m
    ∧ revalidate_linux_artifact_supply_chain_receipt r (sha256_hex artifact) builders keys revoked = Ok tt.
Proof.
  split.
  { unfold create_linux_artifact_supply_chain_manifest. cbv zeta. split.
    - intros [m [Hc _]%then_Ok]. by apply (check_manifest_Ok _ artifact sbom) in Hc.
    - intros Hf.
      eexists. apply then_Ok. split; [by apply (check_manifest_Ok _ artifact sbom)|].
      apply then_Ok. split; [|reflexivity]. apply (check_manifest_Ok _ artifact sbom); [done..|apply signature_shape|exact Hf]. }
  intros builders keys revoked m.
  unfold create_linux_artifact_supply_chain_manifest. cbv zeta. intros [_ [_ Hm]%then_Ok]%then_Ok Hk Hb Hr.
  injection Hm as Hm.
  assert (signature_verifies (hexdigest (public_bytes key)) m = true) as Hsig.
  { unfold signature_verifies. rewrite <- Hm. cbn [mf_signature]. rewrite !bytes_fromhex_hexdigest by (apply public_bytes_shape || apply sign_shape).
    rewrite accepts_public. cbn [andb]. apply verify_sign. }
  assert (mf_component_id m = component ∧ mf_version m = version ∧ mf_release_sequence m = release
    ∧ mf_artifact_digest m = sha256_hex artifact ∧ mf_sbom_digest m = sha256_hex sbom ∧ mf_source_digest m = source
    ∧ mf_builder_id m = builder ∧ mf_key_id m = key_id) as (E1 & E2 & E3 & E4 & E5 & E6 & E7 & E8) by (by subst m).
  clear Hm. exists (receipt_of m (hexdigest (public_bytes key))).
  assert (validate_provenance (receipt_of m (hexdigest (public_bytes key))) = Ok tt) as Hval.
  { unfold validate_provenance. rewrite receipt_of_bound. cbn [rc_signer_public_key rc_manifest receipt_of]. by rewrite Hsig. }
  unfold verify_linux_artifact_supply_chain, revalidate_linux_artifact_supply_chain_receipt. rewrite Hval, receipt_of_bound.
  cbn [rc_manifest receipt_of].
  rewrite E1, E2, E3, E4, E5, E6, E7, E8. rewrite Z.eqb_refl, (proj2 (py_in_true _ _) Hb), (proj2 (py_in_false _ _) Hr), Hk, Hsig.
  rewrite !(bool_decide_eq_true_2 (_ = _)) by done. cbn [negb raise_if mbind result_bind]. by rewrite Hval.
Qed.

End signatures.

(** A manifest of the sample key. *)
Notation sample_manifest :=
  (create_linux_artifact_supply_chain_manifest (H:=toy_ed25519) ($"broker") ($"1.0") 3 [1; 2] [3] (replicate 64 97)
     ($"builder") ($"k1") (42 : @private_key toy_ed25519)) (only parsing).
Lemma provenance_roundtrip_witness :
  ∃ m, sample_manifest = Ok m
    ∧ ∃ r, verify_linux_artifact_supply_chain (H:=toy_ed25519) m [1; 2] [3] ($"broker") ($"1.0") 3 (replicate 64 97)
             [$"builder"] [($"k1", hexdigest (@public_bytes toy_ed25519 42))] [] = Ok r ∧ rc_manifest r = m.
Proof.
  assert (∃ m, sample_manifest = Ok m) as [m Hm] by (eexists; vm_compute; reflexivity).
  exists m. split; [exact Hm|].
  destruct (proj2 (provenance_roundtrip (H:=toy_ed25519) _ _ _ _ _ _ _ _ _) [$"builder"]
    [($"k1", hexdigest (@public_bytes toy_ed25519 42))] [] m Hm) as (r & Hr & Hm' & _).
  - vm_compute. reflexivity.
  - left.
  - apply not_elem_of_nil.
  - exists r. split; [exact Hr | exact Hm'].
Defined.
End SupplyChain.
