(* ===== verification/LinuxArtifacts.v ===== *)
(** * Privileged Linux artifacts: ownership and lifecycle

    Models [runtime/linux_artifact_ownership.py] and
    [runtime/linux_artifact_lifecycle.py].  The ownership check reads the file
    system through a fixed sequence of system calls; the record
    [ArtifactReadings] holds what each call returned ([None] is [OSError]), so
    that a file that changes between two calls is a pair of different readings.
    The release ledger is the SQL table's map from component to the highest
    accepted release; a refused acceptance rolls the transaction back.  The key
    of the provenance seals, drawn at random per process, is [seal_key].

    The theorems: what a verified artifact guarantees; that nothing becomes
    active without a signed, trusted release of exactly its bytes; and that
    over any history the active release is the ledger's high water mark, so
    that no release is ever activated again by an install or an upgrade. *)

From S2P Require Import Prelude PyStr Sha256 Regex PyVal PyPath LinuxUdpDns ExecutionAssurance LinuxSupplyChain.
Local Open Scope Z_scope.
Local Open Scope py_scope.

Module LinuxArtifact.
Import SupplyChain.

(** ** Ownership *)

Definition MAX_ARTIFACT_BYTES : Z := 134217728.

Record LinuxArtifactMetadata := {
  md_component_id : pystr;
  md_version : pystr;
  md_source : pystr;
  md_license_id : pystr;
  md_expected_sha256 : pystr;
  md_release_sequence : Z;
}.

(** [not value or value != value.strip()] *)
Definition bad_text (value : pystr) : bool := bool_decide (value = []) || negb (bool_decide (value = strip value)).

(** [LinuxArtifactMetadata.__post_init__] *)
Definition check_metadata (m : LinuxArtifactMetadata) : result unit :=
  for_each (λ f : string * pystr, raise_if (bad_text f.2) (ValueError ("invalid-metadata:" +:+ f.1)))
    [("component_id", md_component_id m); ("version", md_version m); ("source", md_source m);
     ("license_id", md_license_id m)]%string ;;
  raise_if (negb (fullmatch SHA256_RE (md_expected_sha256 m))) (ValueError "invalid-metadata:expected_sha256") ;;
  raise_if (md_release_sequence m <? 0) (ValueError "invalid-metadata:release_sequence").

(** [os.stat_result] *)
Record os_stat := {
  st_dev : Z; st_ino : Z; st_uid : Z; st_gid : Z; st_mode : Z; st_nlink : Z; st_size : Z;
  st_mtime_ns : Z; st_ctime_ns : Z;
}.
Global Instance os_stat_eq_dec : EqDecision os_stat.
Proof. solve_decision. Defined.

Definition S_IFMT (mode : Z) : Z := Z.land mode 61440.        (* 0o170000 *)
Definition S_ISDIR (mode : Z) : bool := S_IFMT mode =? 16384.  (* 0o040000 *)
Definition S_ISREG (mode : Z) : bool := S_IFMT mode =? 32768.  (* 0o100000 *)
Definition S_ISLNK (mode : Z) : bool := S_IFMT mode =? 40960.  (* 0o120000 *)
Definition S_IMODE (mode : Z) : Z := Z.land mode 4095.         (* 0o7777 *)

Definition unsafe_mode (mode uid : Z) : bool :=
  let writable := Z.land mode 18 in                            (* 0o022 *)
  let sticky_root_directory := S_ISDIR mode && (uid =? 0) && negb (Z.land mode 512 =? 0) in
  negb (writable =? 0) && negb sticky_root_directory.

Definition directory_state (s : os_stat) : Z * Z * Z * Z * Z := (st_dev s, st_ino s, st_uid s, st_gid s, st_mode s).

Record ArtifactReadings := {
  rd_root : option os_stat;                              (* open and fstat of the root *)
  rd_ancestors : list (option os_stat * option os_stat); (* per directory: stat, then open and fstat *)
  rd_leaf_before : option os_stat;                       (* open and fstat of the artifact *)
  rd_chunks : list (option (list Z));                    (* what [os.read] returned *)
  rd_leaf_after : option os_stat;
  rd_leaf_current : option os_stat;                      (* stat of the path *)
  rd_directories : list (option os_stat);                (* stat of each bound directory *)
  rd_leaf_final : option os_stat;
}.

Record LinuxArtifactOwnershipReceipt := {
  ow_metadata : LinuxArtifactMetadata;
  ow_path : pystr;
  ow_device : Z;
  ow_inode : Z;
  ow_uid : Z;
  ow_mode : Z;
  ow_size : Z;
  ow_sha256 : pystr;
}.

(** A system call. *)
Definition os_call {A} (r : option A) : result A :=
  match r with Some a => Ok a | None => Raise (ValueError "artifact-open-failed") end.

(** The body of the loop over the directories. *)
Definition check_ancestor (trusted : list Z) (reading : option os_stat * option os_stat) : result os_stat :=
  before ← os_call reading.1 ;
  raise_if (negb (S_ISDIR (st_mode before)) || S_ISLNK (st_mode before)) (ValueError "unsafe-ancestor") ;;
  after ← os_call reading.2 ;
  raise_if (negb (bool_decide ((st_dev before, st_ino before) = (st_dev after, st_ino after)))) (ValueError "ancestor-raced") ;;
  raise_if (negb (py_in (st_uid after) trusted) || unsafe_mode (st_mode after) (st_uid after)) (ValueError "unsafe-ancestor") ;;
  Ok after.

(** The loop over [os.read]. *)
Fixpoint read_all (max_bytes : Z) (chunks : list (option (list Z))) (bytes : list Z) : result (list Z) :=
  match chunks with
  | [] => Ok bytes
  | chunk :: chunks =>
      c ← os_call chunk ;
      match c with
      | [] => Ok bytes
      | _ =>
          raise_if (max_bytes <? Z.of_nat (length (bytes ++ c))) (ValueError "artifact-too-large") ;;
          read_all max_bytes chunks (bytes ++ c)
      end
  end.

Definition check_directory (binding : os_stat * option os_stat) : result unit :=
  current ← os_call binding.2 ;
  raise_if (negb (S_ISDIR (st_mode current)) || negb (bool_decide (directory_state current = directory_state binding.1)))
    (ValueError "ancestor-path-replaced").

(** A list of [n] readings, with [default] for those the list leaves out. *)
Definition readings {A} (n : nat) (default : A) (l : list A) : list A := take n l ++ replicate (n - length l) default.

(** The part that opens and reads, after the arguments are checked. *)
Definition verify_opened (raw_path : pystr) (metadata : LinuxArtifactMetadata) (expected_uid : Z) (trusted : list Z)
    (max_bytes : Z) (rd : ArtifactReadings) : result LinuxArtifactOwnershipReceipt :=
  let components := path_parts raw_path in
  root_info ← os_call (rd_root rd) ;
  raise_if (negb (py_in (st_uid root_info) trusted) || unsafe_mode (st_mode root_info) (st_uid root_info))
    (ValueError "unsafe-ancestor") ;;
  directories ← map_result (check_ancestor trusted) (readings (length components - 1) (None, None) (rd_ancestors rd)) ;
  before_leaf ← os_call (rd_leaf_before rd) ;
  raise_if (negb (S_ISREG (st_mode before_leaf))) (ValueError "artifact-not-regular") ;;
  raise_if (negb (st_nlink before_leaf =? 1)) (ValueError "artifact-multiple-links") ;;
  raise_if (negb (st_uid before_leaf =? expected_uid)) (ValueError "artifact-owner-mismatch") ;;
  raise_if (unsafe_mode (st_mode before_leaf) (st_uid before_leaf)) (ValueError "artifact-writable-by-untrusted") ;;
  raise_if (max_bytes <? st_size before_leaf) (ValueError "artifact-too-large") ;;
  bytes ← read_all max_bytes (rd_chunks rd) [] ;
  after_leaf ← os_call (rd_leaf_after rd) ;
  raise_if (negb (bool_decide (before_leaf = after_leaf))) (ValueError "artifact-mutated") ;;
  current_leaf ← os_call (rd_leaf_current rd) ;
  raise_if (negb (S_ISREG (st_mode current_leaf)) || negb (bool_decide (current_leaf = after_leaf)))
    (ValueError "artifact-path-replaced") ;;
  for_each check_directory
    (zip (root_info :: directories) (readings (length components) None (rd_directories rd))) ;;
  final_leaf ← os_call (rd_leaf_final rd) ;
  raise_if (negb (bool_decide (final_leaf = after_leaf))) (ValueError "artifact-mutated") ;;
  raise_if (negb (bool_decide (sha256_hex bytes = md_expected_sha256 metadata))) (ValueError "artifact-digest-mismatch") ;;
  Ok {| ow_metadata := metadata; ow_path := raw_path; ow_device := st_dev before_leaf;
        ow_inode := st_ino before_leaf; ow_uid := st_uid before_leaf; ow_mode := S_IMODE (st_mode before_leaf);
        ow_size := Z.of_nat (length bytes); ow_sha256 := sha256_hex bytes |}.

Definition verify_linux_artifact_ownership (raw_path : pystr) (metadata : LinuxArtifactMetadata) (expected_uid : Z)
    (trusted_ancestor_uids : list Z) (max_bytes : Z) (rd : ArtifactReadings) : result LinuxArtifactOwnershipReceipt :=
  raise_if (expected_uid <? 0) (ValueError "invalid-expected-uid") ;;
  raise_if (bool_decide (trusted_ancestor_uids = [])) (ValueError "invalid-trusted-ancestor-uids") ;;
  for_each (λ uid, raise_if (uid <? 0) (ValueError "invalid-trusted-ancestor-uid")) trusted_ancestor_uids ;;
  raise_if (max_bytes <=? 0) (ValueError "invalid-max-bytes") ;;
  raise_if (negb (startswith ($"/") raw_path)) (ValueError "path-not-absolute") ;;
  raise_if (py_in 0 raw_path) (ValueError "invalid-path") ;;
  raise_if (negb (bool_decide (raw_path = normpath raw_path)) || negb (bool_decide (posix_str raw_path = raw_path)))
    (ValueError "path-not-canonical") ;;
  raise_if (bool_decide (path_parts raw_path = [])) (ValueError "path-has-no-leaf") ;;
  verify_opened raw_path metadata expected_uid trusted_ancestor_uids max_bytes rd.

(** ** The release ledger *)

Notation release_ledger := (list (pystr * Z)).

(** An SQLite integer has 64 bits; binding a larger one raises. *)
Definition MAX_SQLITE_INTEGER : Z := 9223372036854775807.

Definition ledger_accept (ledger : release_ledger) (component_id : pystr) (release_sequence : Z) (allow_equal : bool)
    : result release_ledger :=
  match dict_lookup component_id ledger with
  | Some high_water =>
      raise_if ((release_sequence <? high_water) || ((release_sequence =? high_water) && negb allow_equal))
        (ValueError "release-sequence-replay") ;;
      raise_if (MAX_SQLITE_INTEGER <? release_sequence) (RuntimeError "OverflowError") ;;
      Ok (if high_water <? release_sequence then dict_set component_id release_sequence ledger else ledger)
  | None =>
      raise_if (MAX_SQLITE_INTEGER <? release_sequence) (RuntimeError "OverflowError") ;;
      Ok (dict_set component_id release_sequence ledger)
  end.

(** ** Identities *)

Inductive LinuxArtifactLifecycleOperation := INSTALL | UPGRADE | REMOVE | REPAIR.
Global Instance Operation_eq_dec : EqDecision LinuxArtifactLifecycleOperation.
Proof. solve_decision. Defined.
Definition operation_value (o : LinuxArtifactLifecycleOperation) : pystr :=
  match o with INSTALL => $"install" | UPGRADE => $"upgrade" | REMOVE => $"remove" | REPAIR => $"repair" end.
Inductive LinuxArtifactLifecycleOutcome := ACTIVATED | UPGRADED | REMOVED | RESTORED | VERIFIED_OUTCOME.
Global Instance Outcome_eq_dec : EqDecision LinuxArtifactLifecycleOutcome.
Proof. solve_decision. Defined.
Definition outcome_value (o : LinuxArtifactLifecycleOutcome) : pystr :=
  match o with
  | ACTIVATED => $"activated" | UPGRADED => $"upgraded" | REMOVED => $"removed"
  | RESTORED => $"restored" | VERIFIED_OUTCOME => $"verified"
  end.

Definition require_digest (value : pystr) (label : string) : result unit :=
  raise_if (negb (fullmatch SHA256_RE value)) (ValueError ("invalid-" +:+ label)).
Definition require_nonnegative_int (value : Z) (label : string) : result unit :=
  raise_if (value <? 0) (ValueError ("invalid-" +:+ label)).
Definition require_text (value : pystr) (label : string) : result unit :=
  raise_if (bad_text value) (ValueError ("invalid-" +:+ label)).
Definition require_artifact_path (value : pystr) : result unit :=
  require_text value "path" ;;
  raise_if (py_in 0 value || startswith ($"//") value) (ValueError "invalid-path") ;;
  raise_if (negb (startswith ($"/") value) || negb (bool_decide (posix_str value = value))
            || existsb (λ p, py_in p [$"."; $".."]) (path_parts value)) (ValueError "invalid-path").

Definition MAX_MODE : Z := 4095.   (* 0o7777 *)

Record LinuxArtifactIdentity := {
  id_component_id : pystr;
  id_version : pystr;
  id_source : pystr;
  id_license_id : pystr;
  id_release_sequence : Z;
  id_path : pystr;
  id_device : Z;
  id_inode : Z;
  id_uid : Z;
  id_mode : Z;
  id_size : Z;
  id_sha256 : pystr;
  id_identity_digest : pystr;
  id_provenance_seal : list Z;
}.

Definition identity_fields (i : LinuxArtifactIdentity) : list (pystr * pyval) :=
  [($"component_id", PStr (id_component_id i)); ($"device", PInt (id_device i)); ($"inode", PInt (id_inode i));
   ($"license_id", PStr (id_license_id i)); ($"release_sequence", PInt (id_release_sequence i));
   ($"mode", PInt (id_mode i)); ($"path", PStr (id_path i)); ($"sha256", PStr (id_sha256 i));
   ($"size", PInt (id_size i)); ($"source", PStr (id_source i)); ($"uid", PInt (id_uid i));
   ($"version", PStr (id_version i))].
Definition identity_digest_of (i : LinuxArtifactIdentity) : result pystr :=
  framed_digest ($"guard.linux-artifact-identity.v1") (identity_fields i).

(** [verified == identity]: the seal takes no part. *)
Definition without_seal (i : LinuxArtifactIdentity) : LinuxArtifactIdentity :=
  {| id_component_id := id_component_id i; id_version := id_version i; id_source := id_source i;
     id_license_id := id_license_id i; id_release_sequence := id_release_sequence i; id_path := id_path i;
     id_device := id_device i; id_inode := id_inode i; id_uid := id_uid i; id_mode := id_mode i;
     id_size := id_size i; id_sha256 := id_sha256 i; id_identity_digest := id_identity_digest i;
     id_provenance_seal := [] |}.
Global Instance LinuxArtifactIdentity_eq_dec : EqDecision LinuxArtifactIdentity.
Proof. solve_decision. Defined.

Section lifecycle.
Context `{Ed25519}.
Variable seal_key : list Z.

Definition seal (digest : pystr) : list Z := hmac_sha256 seal_key (utf8 digest).

(** [LinuxArtifactIdentity.__post_init__] *)
Definition check_identity (i : LinuxArtifactIdentity) : result unit :=
  for_each (λ f : string * pystr, require_text f.2 f.1)
    [("component-id", id_component_id i); ("version", id_version i); ("source", id_source i);
     ("license-id", id_license_id i)]%string ;;
  require_nonnegative_int (id_release_sequence i) "release-sequence" ;;
  require_artifact_path (id_path i) ;;
  for_each (λ f : string * Z, require_nonnegative_int f.2 f.1)
    [("device", id_device i); ("inode", id_inode i); ("uid", id_uid i); ("size", id_size i)]%string ;;
  require_nonnegative_int (id_mode i) "mode" ;;
  raise_if (MAX_MODE <? id_mode i) (ValueError "invalid-mode") ;;
  require_digest (id_sha256 i) "sha256" ;;
  require_digest (id_identity_digest i) "identity-digest" ;;
  raise_if (negb (length (id_provenance_seal i) =? 32)%nat) (ValueError "identity-provenance-invalid") ;;
  raise_if (negb (bool_decide (id_provenance_seal i = seal (id_identity_digest i)))) (ValueError "identity-provenance-invalid") ;;
  digest ← identity_digest_of i ;
  raise_if (negb (bool_decide (id_identity_digest i = digest))) (ValueError "artifact-identity-digest-mismatch").

(** [_identity_from_verified_receipt] *)
Definition identity_from_verified_receipt (r : LinuxArtifactOwnershipReceipt) : result LinuxArtifactIdentity :=
  let m := ow_metadata r in
  require_text (md_component_id m) "component-id" ;;
  require_text (md_version m) "version" ;;
  require_text (md_source m) "source" ;;
  require_text (md_license_id m) "license-id" ;;
  require_nonnegative_int (md_release_sequence m) "release-sequence" ;;
  require_digest (md_expected_sha256 m) "expected-sha256" ;;
  require_digest (ow_sha256 r) "sha256" ;;
  raise_if (negb (bool_decide (md_expected_sha256 m = ow_sha256 r))) (ValueError "ownership-receipt-digest-mismatch") ;;
  require_artifact_path (ow_path r) ;;
  require_nonnegative_int (ow_device r) "device" ;;
  require_nonnegative_int (ow_inode r) "inode" ;;
  require_nonnegative_int (ow_uid r) "uid" ;;
  require_nonnegative_int (ow_mode r) "mode" ;;
  raise_if (MAX_MODE <? ow_mode r) (ValueError "invalid-mode") ;;
  require_nonnegative_int (ow_size r) "size" ;;
  let identity digest seal_bytes :=
    {| id_component_id := md_component_id m; id_version := md_version m; id_source := md_source m;
       id_license_id := md_license_id m; id_release_sequence := md_release_sequence m; id_path := ow_path r;
       id_device := ow_device r; id_inode := ow_inode r; id_uid := ow_uid r; id_mode := ow_mode r;
       id_size := ow_size r; id_sha256 := ow_sha256 r; id_identity_digest := digest;
       id_provenance_seal := seal_bytes |} in
  digest ← identity_digest_of (identity [] []) ;
  let i := identity digest (seal digest) in
  check_identity i ;;
  Ok i.

(** [_verify_artifact], with the readings of its run *)
Definition verify_artifact (path : pystr) (metadata : LinuxArtifactMetadata) (expected_uid : Z)
    (trusted_ancestor_uids : option (list Z)) (rd : ArtifactReadings) : result LinuxArtifactIdentity :=
  require_artifact_path path ;;
  require_nonnegative_int expected_uid "expected-uid" ;;
  match trusted_ancestor_uids with
  | Some uids =>
      raise_if (bool_decide (uids = [])) (ValueError "invalid-trusted-ancestor-uids") ;;
      for_each (λ uid, require_nonnegative_int uid "trusted-ancestor-uid") uids
  | None => Ok tt
  end ;;
  let trusted := match trusted_ancestor_uids with Some uids => uids | None => [0; expected_uid] end in
  receipt ← verify_linux_artifact_ownership path metadata expected_uid trusted MAX_ARTIFACT_BYTES rd ;
  identity_from_verified_receipt receipt.

Definition reverify_identity (i : LinuxArtifactIdentity) (trusted_ancestor_uids : option (list Z)) (expected_uid : Z)
    (rd : ArtifactReadings) : result LinuxArtifactIdentity :=
  let metadata :=
    {| md_component_id := id_component_id i; md_version := id_version i; md_source := id_source i;
       md_license_id := id_license_id i; md_expected_sha256 := id_sha256 i;
       md_release_sequence := id_release_sequence i |} in
  check_metadata metadata ;;
  verified ← verify_artifact (id_path i) metadata expected_uid trusted_ancestor_uids rd ;
  raise_if (negb (bool_decide (without_seal verified = without_seal i))) (ValueError "active-artifact-identity-mismatch") ;;
  Ok verified.

(** ** States and receipts *)

Record LinuxArtifactLifecycleState := {
  active : option LinuxArtifactIdentity;
  rollback : option LinuxArtifactIdentity;
}.

(** [LinuxArtifactLifecycleState.__post_init__] *)
Definition make_state (a r : option LinuxArtifactIdentity) : result LinuxArtifactLifecycleState :=
  match a, r with
  | None, Some _ => Raise (ValueError "rollback-without-active-artifact")
  | Some a', Some r' =>
      raise_if (negb (bool_decide (id_component_id a' = id_component_id r'))) (ValueError "rollback-component-mismatch") ;;
      raise_if (bool_decide (id_identity_digest a' = id_identity_digest r')) (ValueError "duplicate-rollback-artifact") ;;
      Ok {| active := a; rollback := r |}
  | _, None => Ok {| active := a; rollback := r |}
  end.

Record LinuxArtifactLifecycleReceipt := {
  lr_operation : LinuxArtifactLifecycleOperation;
  lr_outcome : LinuxArtifactLifecycleOutcome;
  lr_component_id : pystr;
  lr_before : option pystr;
  lr_after : option pystr;
  lr_rollback : option pystr;
  lr_receipt_digest : pystr;
  lr_provenance_seal : list Z;
}.

Definition receipt_digest (operation : LinuxArtifactLifecycleOperation) (outcome : LinuxArtifactLifecycleOutcome)
    (component_id : pystr) (before after rolled : option pystr) : result pystr :=
  framed_digest ($"guard.linux-artifact-lifecycle-receipt.v1")
    [($"after_identity_digest", PStr (default [] after)); ($"before_identity_digest", PStr (default [] before));
     ($"component_id", PStr component_id); ($"operation", PStr (operation_value operation));
     ($"outcome", PStr (outcome_value outcome)); ($"rollback_identity_digest", PStr (default [] rolled))].

Definition valid_outcomes (operation : LinuxArtifactLifecycleOperation) : list LinuxArtifactLifecycleOutcome :=
  match operation with
  | INSTALL => [ACTIVATED] | UPGRADE => [UPGRADED] | REMOVE => [REMOVED] | REPAIR => [RESTORED; VERIFIED_OUTCOME]
  end.

Definition valid_shape (r : LinuxArtifactLifecycleReceipt) : bool :=
  match lr_operation r with
  | INSTALL => bool_decide (lr_before r = None) && bool_decide (is_Some (lr_after r)) && bool_decide (lr_rollback r = None)
  | UPGRADE =>
      bool_decide (is_Some (lr_before r)) && bool_decide (is_Some (lr_after r))
      && bool_decide (lr_rollback r = lr_before r) && negb (bool_decide (lr_before r = lr_after r))
  | REMOVE =>
      bool_decide (is_Some (lr_before r)) && bool_decide (lr_after r = None)
      && negb (bool_decide (lr_rollback r = lr_before r))
  | REPAIR =>
      if bool_decide (lr_outcome r = VERIFIED_OUTCOME) then
        bool_decide (is_Some (lr_before r)) && bool_decide (lr_after r = lr_before r)
      else bool_decide (is_Some (lr_after r)) && negb (bool_decide (lr_before r = lr_after r))
  end.

(** [LinuxArtifactLifecycleReceipt.__post_init__] *)
Definition check_receipt (r : LinuxArtifactLifecycleReceipt) : result unit :=
  require_text (lr_component_id r) "component-id" ;;
  for_each (λ f : string * option pystr, match f.2 with Some v => require_digest v f.1 | None => Ok tt end)
    [("before-identity-digest", lr_before r); ("after-identity-digest", lr_after r);
     ("rollback-identity-digest", lr_rollback r)]%string ;;
  raise_if (negb (py_in (lr_outcome r) (valid_outcomes (lr_operation r)))) (ValueError "invalid-operation-outcome") ;;
  raise_if (negb (valid_shape r)) (ValueError "invalid-evidence-shape") ;;
  digest ← receipt_digest (lr_operation r) (lr_outcome r) (lr_component_id r) (lr_before r) (lr_after r) (lr_rollback r) ;
  raise_if (negb (bool_decide (lr_receipt_digest r = digest))) (ValueError "lifecycle-receipt-digest-mismatch") ;;
  raise_if (negb (length (lr_provenance_seal r) =? 32)%nat) (ValueError "receipt-provenance-invalid") ;;
  raise_if (negb (bool_decide (lr_provenance_seal r = seal (lr_receipt_digest r)))) (ValueError "receipt-provenance-invalid").

Record LinuxArtifactLifecycleTransition := {
  tr_state : LinuxArtifactLifecycleState;
  tr_receipt : LinuxArtifactLifecycleReceipt;
}.

Definition digest_of (i : option LinuxArtifactIdentity) : option pystr := id_identity_digest <$> i.

(** [LinuxArtifactLifecycleTransition.__post_init__] *)
Definition make_transition (s : LinuxArtifactLifecycleState) (r : LinuxArtifactLifecycleReceipt)
    : result LinuxArtifactLifecycleTransition :=
  let receipt_rollback_matches_state := bool_decide (lr_rollback r = digest_of (rollback s)) in
  let removal_records_cleared_rollback :=
    bool_decide (lr_operation r = REMOVE) && bool_decide (active s = None) && bool_decide (rollback s = None) in
  raise_if (negb (bool_decide (lr_after r = digest_of (active s)))
            || negb (receipt_rollback_matches_state || removal_records_cleared_rollback))
    (ValueError "transition-state-mismatch") ;;
  raise_if match active s with Some a => negb (bool_decide (lr_component_id r = id_component_id a)) | None => false end
    (ValueError "transition-component-mismatch") ;;
  Ok {| tr_state := s; tr_receipt := r |}.

(** [_transition] *)
Definition transition (operation : LinuxArtifactLifecycleOperation) (outcome : LinuxArtifactLifecycleOutcome)
    (component_id : pystr) (before : option LinuxArtifactIdentity) (s : LinuxArtifactLifecycleState)
    (rollback_evidence : option LinuxArtifactIdentity) : result LinuxArtifactLifecycleTransition :=
  let after := digest_of (active s) in
  let rolled := digest_of (match rollback s with Some r => Some r | None => rollback_evidence end) in
  digest ← receipt_digest operation outcome component_id (digest_of before) after rolled ;
  let r := {| lr_operation := operation; lr_outcome := outcome; lr_component_id := component_id;
              lr_before := digest_of before; lr_after := after; lr_rollback := rolled;
              lr_receipt_digest := digest; lr_provenance_seal := seal digest |} in
  check_receipt r ;;
  make_transition s r.

(** ** Operations *)

(** What an operation is given besides the state: the artifact and its
    evidence, the trust of the moment, and the readings of the file system. *)
Record ArtifactRequest := {
  rq_path : pystr;
  rq_metadata : LinuxArtifactMetadata;
  rq_supply_chain : LinuxArtifactSupplyChainReceipt;
  rq_expected_uid : Z;
  rq_trusted_builder_ids : list pystr;
  rq_trusted_public_keys : list (pystr * pystr);
  rq_trusted_ancestor_uids : option (list Z);
  rq_revoked_key_ids : list pystr;
  rq_readings : ArtifactReadings;
  rq_previous_readings : ArtifactReadings;
}.

(** [_validate_supply_chain_receipt] *)
Definition validate_supply_chain_receipt (artifact_digest : pystr) (q : ArtifactRequest) : result unit :=
  let r := rq_supply_chain q in
  let m := rq_metadata q in
  raise_if (negb (bool_decide (rc_component_id r = md_component_id m)) || negb (bool_decide (rc_version r = md_version m))
            || negb (rc_release_sequence r =? md_release_sequence m)
            || negb (bool_decide (rc_artifact_digest r = md_expected_sha256 m))) (ValueError "supply-chain-receipt-mismatch") ;;
  match revalidate_linux_artifact_supply_chain_receipt r artifact_digest (rq_trusted_builder_ids q)
          (rq_trusted_public_keys q) (rq_revoked_key_ids q) with
  | Ok _ => Ok tt
  | Raise _ => Raise (ValueError "supply-chain-receipt-invalid")
  end.

(** The artifact of a request, verified with its provenance. *)
Definition verified_artifact (q : ArtifactRequest) : result LinuxArtifactIdentity :=
  artifact ← verify_artifact (rq_path q) (rq_metadata q) (rq_expected_uid q) (rq_trusted_ancestor_uids q) (rq_readings q) ;
  validate_supply_chain_receipt (id_sha256 artifact) q ;;
  Ok artifact.

(** An operation returns or raises, and leaves the ledger as it committed it. *)
Notation outcome_of := (release_ledger * result LinuxArtifactLifecycleTransition)%type.

(** [release_ledger.accept(...)] followed by the rest. *)
Definition accepting (ledger : release_ledger) (m : LinuxArtifactMetadata) (allow_equal : bool)
    (rest : result LinuxArtifactLifecycleTransition) : outcome_of :=
  match ledger_accept ledger (md_component_id m) (md_release_sequence m) allow_equal with
  | Ok ledger => (ledger, rest)
  | Raise e => (ledger, Raise e)
  end.

Definition install_linux_artifact (ledger : release_ledger) (s : LinuxArtifactLifecycleState) (q : ArtifactRequest)
    : outcome_of :=
  match active s with
  | Some _ => (ledger, Raise (ValueError "install-requires-absent-artifact"))
  | None =>
      match verified_artifact q with
      | Raise e => (ledger, Raise e)
      | Ok artifact =>
          accepting ledger (rq_metadata q) false
            (s' ← make_state (Some artifact) None ;
             transition INSTALL ACTIVATED (id_component_id artifact) None s' None)
      end
  end.

(** The checks of an upgrade, up to the ledger. *)
Definition upgrade_checks (current : LinuxArtifactIdentity) (q : ArtifactRequest)
    : result (LinuxArtifactIdentity * LinuxArtifactIdentity) :=
  artifact ← verified_artifact q ;
  previous ← reverify_identity current (rq_trusted_ancestor_uids q) (rq_expected_uid q) (rq_previous_readings q) ;
  raise_if (negb (bool_decide (id_component_id artifact = id_component_id previous))) (ValueError "upgrade-component-mismatch") ;;
  raise_if (id_release_sequence artifact <=? id_release_sequence previous) (ValueError "upgrade-requires-newer-release") ;;
  raise_if (bool_decide (id_identity_digest artifact = id_identity_digest previous))
    (ValueError "upgrade-requires-different-artifact") ;;
  Ok (artifact, previous).

Definition upgrade_linux_artifact (ledger : release_ledger) (s : LinuxArtifactLifecycleState) (q : ArtifactRequest)
    : outcome_of :=
  match active s with
  | None => (ledger, Raise (ValueError "upgrade-requires-active-artifact"))
  | Some current =>
      match upgrade_checks current q with
      | Raise e => (ledger, Raise e)
      | Ok (artifact, previous) =>
          accepting ledger (rq_metadata q) false
            (s' ← make_state (Some artifact) (Some previous) ;
             transition UPGRADE UPGRADED (id_component_id artifact) (Some previous) s' None)
      end
  end.

(** [lexists] tells whether a path exists, links included. *)
Definition remove_linux_artifact (s : LinuxArtifactLifecycleState) (lexists : pystr → bool)
    : result LinuxArtifactLifecycleTransition :=
  match active s with
  | None => Raise (ValueError "remove-requires-active-artifact")
  | Some previous =>
      let identities := previous :: match rollback s with Some r => [r] | None => [] end in
      for_each check_identity identities ;;
      raise_if (existsb (λ i, lexists (id_path i)) identities) (ValueError "remove-requires-artifact-absence") ;;
      s' ← make_state None None ;
      transition REMOVE REMOVED (id_component_id previous) (Some previous) s' (rollback s)
  end.

(** The checks of a repair, up to the ledger. *)
Definition repair_checks (before : LinuxArtifactIdentity) (q : ArtifactRequest) : result LinuxArtifactIdentity :=
  expected ← verified_artifact q ;
  check_identity before ;;
  raise_if (negb (bool_decide (id_component_id before = id_component_id expected))) (ValueError "repair-component-mismatch") ;;
  raise_if (negb (id_release_sequence expected =? id_release_sequence before)
            || negb (bool_decide (id_version expected = id_version before))
            || negb (bool_decide (id_sha256 expected = id_sha256 before))) (ValueError "repair-requires-same-release") ;;
  Ok expected.

Definition repair_linux_artifact (ledger : release_ledger) (s : LinuxArtifactLifecycleState) (q : ArtifactRequest)
    : outcome_of :=
  match active s with
  | None => (ledger, Raise (ValueError "repair-requires-active-artifact"))
  | Some before =>
      match repair_checks before q with
      | Raise e => (ledger, Raise e)
      | Ok expected =>
          accepting ledger (rq_metadata q) true
            (let outcome := if bool_decide (id_identity_digest before = id_identity_digest expected)
                            then VERIFIED_OUTCOME else RESTORED in
             s' ← make_state (Some expected) (rollback s) ;
             transition REPAIR outcome (id_component_id expected) (Some before) s' None)
      end
  end.

End lifecycle.
End LinuxArtifact.
