(* ===== verification/LinuxArtifactHistory.v ===== *)
(** * Histories of privileged Linux artifacts

    What the operations of [LinuxArtifacts.v] guarantee: of one verified file,
    of one activation, and of every history of operations that starts with
    nothing installed and an empty release ledger. *)

From S2P Require Import Prelude PyStr Sha256 Regex PyVal PyPath LinuxUdpDns ExecutionAssurance LinuxSupplyChain LinuxArtifacts.
Local Open Scope Z_scope.
Local Open Scope py_scope.

Module ArtifactHistory.
Import SupplyChain LinuxArtifact.

(** ** Reading a file *)

Lemma os_call_Ok {A} (r : option A) a : os_call r = Ok a ↔ r = Some a.
Proof. destruct r as [b|]; cbn; naive_solver. Qed.

(** The bytes up to the first empty read. *)
Fixpoint contents (chunks : list (option (list Z))) : list Z :=
  match chunks with
  | Some (b :: c) :: chunks => (b :: c) ++ contents chunks
  | _ => []
  end.

Lemma read_all_Ok max chunks bytes out :
  read_all max chunks bytes = Ok out → Z.of_nat (length bytes) <= max →
  out = bytes ++ contents chunks ∧ Z.of_nat (length out) <= max.
Proof.
  revert bytes. induction chunks as [|[[|b c]|] chunks IH]; intros bytes; cbn [read_all os_call mbind result_bind contents].
  - intros [= <-] ?. by rewrite app_nil_r.
  - intros [= <-] ?. by rewrite app_nil_r.
  - intros [Hmax Hrest]%then_Ok _. apply raise_if_Ok, Z.ltb_ge in Hmax.
    destruct (IH _ Hrest) as [-> ?]; [done|]. by rewrite <- app_assoc in *.
  - done.
Qed.

(** A directory nobody untrusted can change the entries of. *)
Definition trusted_directory (trusted : list Z) (s : os_stat) : Prop :=
  st_uid s ∈ trusted ∧ unsafe_mode (st_mode s) (st_uid s) = false.

Lemma check_ancestor_Ok trusted reading after :
  check_ancestor trusted reading = Ok after → reading.2 = Some after ∧ trusted_directory trusted after.
Proof.
  unfold check_ancestor. intros (before & _ & [_ (a & Ha & [_ [Hu Hr]%then_Ok]%then_Ok)%bind_Ok]%then_Ok)%bind_Ok.
  apply os_call_Ok in Ha. injection Hr as <-. apply raise_if_Ok, orb_false_iff in Hu as [Hu Hm].
  apply negb_false_iff, py_in_true in Hu. by repeat split.
Qed.

Lemma check_directory_Ok binding :
  check_directory binding = Ok tt → ∃ s, binding.2 = Some s ∧ directory_state s = directory_state binding.1.
Proof.
  unfold check_directory. intros (s & Hs%os_call_Ok & Hr%raise_if_Ok)%bind_Ok.
  apply orb_false_iff in Hr as [_ Hr]. apply negb_false_iff, bool_decide_eq_true in Hr. eauto.
Qed.

Lemma regular_unsafe_mode mode uid : S_ISREG mode = true → unsafe_mode mode uid = false → Z.land mode 18 = 0.
Proof.
  unfold unsafe_mode, S_ISREG, S_ISDIR. intros ->%Z.eqb_eq. cbn. rewrite andb_true_r. intros H%negb_false_iff. lia.
Qed.

(** The directories from the root down to the file's, as they were opened. *)
Definition opened_directories (n : nat) (rd : ArtifactReadings) : list (option os_stat) :=
  rd_root rd :: (snd <$> readings n (None, None) (rd_ancestors rd)).

(** What a receipt certifies of the readings. *)
Record certified (metadata : LinuxArtifactMetadata) (expected_uid : Z) (trusted : list Z) (max_bytes : Z)
    (rd : ArtifactReadings) (r : LinuxArtifactOwnershipReceipt) : Prop := {
  certified_leaf :
    ∃ s, rd_leaf_before rd = Some s ∧ rd_leaf_after rd = Some s ∧ rd_leaf_current rd = Some s ∧ rd_leaf_final rd = Some s
      ∧ S_ISREG (st_mode s) = true ∧ st_nlink s = 1 ∧ st_uid s = expected_uid ∧ Z.land (st_mode s) 18 = 0
      ∧ ow_device r = st_dev s ∧ ow_inode r = st_ino s ∧ ow_uid r = expected_uid ∧ ow_mode r = S_IMODE (st_mode s);
  certified_bytes :
    ow_sha256 r = sha256_hex (contents (rd_chunks rd)) ∧ ow_sha256 r = md_expected_sha256 metadata
    ∧ ow_size r = Z.of_nat (length (contents (rd_chunks rd))) ∧ ow_size r <= max_bytes;
  certified_directories :
    let n := length (path_parts (ow_path r)) in
    Forall2 (λ opened again, ∃ s t, opened = Some s ∧ again = Some t ∧ trusted_directory trusted s
                                     ∧ directory_state t = directory_state s)
      (opened_directories (n - 1) rd) (readings n None (rd_directories rd));
  certified_metadata : ow_metadata r = metadata;
}.

Lemma readings_length {A} n (d : A) l : length (readings n d l) = n.
Proof. unfold readings. rewrite length_app, length_take, length_replicate. lia. Qed.

Lemma directories_certified trusted root dirs ancestors again :
  trusted_directory trusted root → Forall2 (λ a b, check_ancestor trusted a = Ok b) ancestors dirs →
  length again = S (length ancestors) → Forall (λ b, check_directory b = Ok tt) (zip (root :: dirs) again) →
  Forall2 (λ opened again, ∃ s t, opened = Some s ∧ again = Some t ∧ trusted_directory trusted s
                                   ∧ directory_state t = directory_state s)
    (Some root :: (snd <$> ancestors)) again.
Proof.
  intros Hroot Ha Hlen Hz. destruct again as [|t again]; [done|]. cbn in Hz. apply Forall_cons in Hz as [Ht Hz].
  constructor. { apply check_directory_Ok in Ht as (t' & ? & ?). eauto 10. }
  injection Hlen as Hlen. clear Ht Hroot t. revert again Hlen Hz.
  induction Ha as [|a b ancestors dirs Hab _ IH]; intros [|t again] [=]; cbn; [constructor|].
  intros [Ht Hz]%Forall_cons. constructor; [|by apply IH].
  apply check_ancestor_Ok in Hab as [? ?]. apply check_directory_Ok in Ht as (t' & ? & ?). eauto 10.
Qed.

Lemma verify_opened_certified path md uid trusted max rd r :
  0 < max → path_parts path ≠ [] →
  verify_opened path md uid trusted max rd = Ok r → certified md uid trusted max rd r ∧ ow_path r = path.
Proof.
  unfold verify_opened. cbv zeta. intros Hmax Hparts (root & Hroot%os_call_Ok & [Hru H1]%then_Ok)%bind_Ok.
  apply bind_Ok in H1 as (dirs & Hdirs%map_result_Ok & H2). apply bind_Ok in H2 as (s & Hs%os_call_Ok & H3).
  rewrite !then_Ok, !raise_if_Ok in H3. destruct H3 as (Hreg%negb_false_iff & Hnl%negb_false_iff & Huid%negb_false_iff & Hmode & Hsize & H4).
  apply bind_Ok in H4 as (bytes & Hb & (s1 & Hs1%os_call_Ok & [E1%raise_if_Ok H5]%then_Ok)%bind_Ok).
  apply bind_Ok in H5 as (s2 & Hs2%os_call_Ok & [E2%raise_if_Ok [Hdir H6]%then_Ok]%then_Ok).
  apply bind_Ok in H6 as (s3 & Hs3%os_call_Ok & [E3%raise_if_Ok [E4%raise_if_Ok H7]%then_Ok]%then_Ok).
  apply negb_false_iff, bool_decide_eq_true in E1, E3, E4. apply orb_false_iff in E2 as [_ E2%negb_false_iff%bool_decide_eq_true].
  apply read_all_Ok in Hb as [-> Hlen]; [|cbn; lia]. cbn [app] in *. injection H7 as <-.
  apply raise_if_Ok, orb_false_iff in Hru as [Hru%negb_false_iff%py_in_true Hrm]. subst s1 s2 s3.
  split; [|done]. split; [|done| |done].
  - exists s. cbn [ow_device ow_inode ow_uid ow_mode]. apply Z.eqb_eq in Hnl, Huid. split_and!; eauto using regular_unsafe_mode.
  - cbn [ow_path]. unfold opened_directories. rewrite Hroot. apply for_each_Ok in Hdir.
    eapply directories_certified; [done|done| |done]. rewrite !readings_length.
    destruct (path_parts path); [done|]. cbn. lia.
Qed.

Lemma ownership_sound path md uid trusted max rd r :
  verify_linux_artifact_ownership path md uid trusted max rd = Ok r →
  certified md uid trusted max rd r ∧ ow_path r = path ∧ normpath path = path.
Proof.
  unfold verify_linux_artifact_ownership. rewrite !then_Ok, !raise_if_Ok.
  intros (_ & _ & _ & Hmax & _ & _ & Hc & Hp & Hr). apply Z.leb_gt in Hmax. apply bool_decide_eq_false in Hp.
  apply orb_false_iff in Hc as [Hc%negb_false_iff%bool_decide_eq_true _].
  destruct (verify_opened_certified _ _ _ _ _ _ _ Hmax Hp Hr) as [? ?]. auto.
Qed.

(** C25: A receipt of the ownership check is sound, whatever the file system
    did between the calls: every reading of the artifact, from the open to the
    last [fstat], is the same single-link regular file, owned by the expected
    user and writable by nobody else; the digest is that of exactly the bytes
    read, it is the expected one, and they are at most [max_bytes]; and every
    directory from the root down was owned by a trusted user, not writable by
    others unless sticky and root's, and still had the same identity, owner
    and mode when it was read again after the bytes. *)
Theorem ownership_receipt_sound path md uid trusted max rd r :
  verify_linux_artifact_ownership path md uid trusted max rd = Ok r →
  certified md uid trusted max rd r ∧ ow_path r = path ∧ normpath path = path.
Proof. apply ownership_sound. Qed.

(** ** One activation *)

Section lifecycle.
Context `{Ed25519}.
Variable seal_key : list Z.

(** The identity carries the receipt's and its metadata's fields. *)
Record identifies (r : LinuxArtifactOwnershipReceipt) (i : LinuxArtifactIdentity) : Prop := {
  identifies_component : id_component_id i = md_component_id (ow_metadata r);
  identifies_version : id_version i = md_version (ow_metadata r);
  identifies_release : id_release_sequence i = md_release_sequence (ow_metadata r);
  identifies_path : id_path i = ow_path r;
  identifies_uid : id_uid i = ow_uid r;
  identifies_sha256 : id_sha256 i = ow_sha256 r;
}.

Lemma identity_from_Ok r i :
  identity_from_verified_receipt seal_key r = Ok i → identifies r i ∧ check_identity seal_key i = Ok tt.
Proof.
  unfold identity_from_verified_receipt. cbv zeta. rewrite !then_Ok.
  intros (_ & _ & _ & _ & _ & _ & _ & _ & _ & _ & _ & _ & _ & _ & _ & (digest & _ & [Hc Hi]%then_Ok)%bind_Ok).
  apply (inj Ok) in Hi. subst i. by split.
Qed.

(** The trusted uids a check ends up with. *)
Definition effective_uids (q : ArtifactRequest) : list Z :=
  match rq_trusted_ancestor_uids q with Some uids => uids | None => [0; rq_expected_uid q] end.

Lemma verify_artifact_Ok path md uid uids rd i :
  verify_artifact seal_key path md uid uids rd = Ok i →
  check_identity seal_key i = Ok tt
  ∧ ∃ r, identifies r i
      ∧ certified md uid (match uids with Some uids => uids | None => [0; uid] end) MAX_ARTIFACT_BYTES rd r
      ∧ ow_path r = path.
Proof.
  unfold verify_artifact. rewrite !then_Ok. intros (_ & _ & _ & (r & Hr & Hi)%bind_Ok).
  apply identity_from_Ok in Hi as [? ?]. apply ownership_sound in Hr as (? & ? & _). eauto.
Qed.

(** [i] is what the request's signed evidence says it is. *)
Record authorized (q : ArtifactRequest) (i : LinuxArtifactIdentity) : Prop := {
  authorized_signature : trusted_signature (rq_trusted_public_keys q) (rq_revoked_key_ids q) (rc_manifest (rq_supply_chain q));
  authorized_builder : mf_builder_id (rc_manifest (rq_supply_chain q)) ∈ rq_trusted_builder_ids q;
  authorized_component : id_component_id i = mf_component_id (rc_manifest (rq_supply_chain q));
  authorized_version : id_version i = mf_version (rc_manifest (rq_supply_chain q));
  authorized_release : id_release_sequence i = mf_release_sequence (rc_manifest (rq_supply_chain q));
  authorized_digest : id_sha256 i = mf_artifact_digest (rc_manifest (rq_supply_chain q));
  authorized_bytes : id_sha256 i = sha256_hex (contents (rd_chunks (rq_readings q)));
  authorized_owner : id_uid i = rq_expected_uid q;
  authorized_file :
    ∃ r, certified (rq_metadata q) (rq_expected_uid q) (effective_uids q) MAX_ARTIFACT_BYTES (rq_readings q) r
      ∧ ow_path r = id_path i;
}.

(** The metadata name the identity. *)
Definition names (m : LinuxArtifactMetadata) (i : LinuxArtifactIdentity) : Prop :=
  md_component_id m = id_component_id i ∧ md_release_sequence m = id_release_sequence i.

Lemma verified_artifact_Ok q i :
  verified_artifact seal_key q = Ok i →
  authorized q i ∧ names (rq_metadata q) i ∧ check_identity seal_key i = Ok tt.
Proof.
  unfold verified_artifact. intros (i' & Hi & [Hv Hr]%then_Ok)%bind_Ok. apply (inj Ok) in Hr. subst i'.
  apply verify_artifact_Ok in Hi as (Hc & r & Hid & Hcert & Hp). unfold validate_supply_chain_receipt in Hv.
  apply then_Ok in Hv as [Hm Hv]. apply raise_if_Ok in Hm. rewrite !orb_false_iff, !negb_false_iff, !bool_decide_eq_true, Z.eqb_eq in Hm.
  destruct Hm as (((M1 & M2) & M3) & M4). destruct (revalidate_linux_artifact_supply_chain_receipt _ _ _ _ _) as [[]|] eqn:E; [|done].
  apply revalidate_Ok in E as (Hb & Hd & Hbu & Hs). unfold receipt_bound in Hb. rewrite !andb_true_iff, !bool_decide_eq_true, Z.eqb_eq in Hb.
  destruct Hb as ((((((((B1 & B2) & B3) & _) & _) & _) & _) & _) & _).
  destruct Hid as [I1 I2 I3 I4 I5 I6]. pose proof Hcert as [Hl Hby _ Hmd]. rewrite Hmd in I1, I2, I3.
  destruct Hby as (Hby1 & Hby2 & _). pose proof Hl as (s & _ & _ & _ & _ & _ & _ & _ & _ & _ & _ & Hu & _).
  split; [split|split]; [done|done| | | | | | | | |done].
  - by rewrite I1, <- M1.
  - by rewrite I2, <- M2.
  - by rewrite I3, <- M3.
  - done.
  - by rewrite I6.
  - by rewrite I5.
  - exists r. rewrite I4. by split.
  - split; congruence.
Qed.

(** ** Transitions that cannot fail *)

Lemma digest_matches i : check_identity seal_key i = Ok tt → fullmatch SHA256_RE (id_identity_digest i) = true.
Proof.
  unfold check_identity. rewrite !then_Ok. intros (_ & _ & _ & _ & _ & _ & _ & Hd & _).
  by apply raise_if_Ok, negb_false_iff in Hd.
Qed.
Lemma component_text i : check_identity seal_key i = Ok tt → bad_text (id_component_id i) = false.
Proof.
  unfold check_identity. rewrite then_Ok, for_each_Ok, Forall_cons. intros ((Hd & _) & _). by apply raise_if_Ok in Hd.
Qed.
Lemma seal_length d : length (seal seal_key d) = 32%nat.
Proof. apply sha256_length. Qed.

(** The digests and component of the evidence are well formed. *)
Definition evidence_text (component : pystr) (digests : list (option pystr)) : bool :=
  negb (bad_text component) && forallb (λ d, match d with Some d => fullmatch SHA256_RE d | None => true end) digests.

(** The receipt [_transition] writes. *)
Definition unsealed op outcome component before after rolled : LinuxArtifactLifecycleReceipt :=
  {| lr_operation := op; lr_outcome := outcome; lr_component_id := component; lr_before := before;
     lr_after := after; lr_rollback := rolled; lr_receipt_digest := []; lr_provenance_seal := [] |}.

Lemma transition_Ok op outcome component before s evidence :
  let rolled := digest_of (match rollback s with Some r => Some r | None => evidence end) in
  evidence_text component [digest_of before; digest_of (active s); rolled] = true →
  outcome ∈ valid_outcomes op →
  valid_shape (unsealed op outcome component (digest_of before) (digest_of (active s)) rolled) = true →
  match active s with Some a => component = id_component_id a | None => op = REMOVE ∧ rollback s = None end →
  (active s ≠ None → evidence = None) →
  ∃ r, transition seal_key op outcome component before s evidence = Ok {| tr_state := s; tr_receipt := r |}.
Proof.
  intros rolled Htext Hout Hshape Hact Hev. unfold transition.
  destruct (receipt_digest op outcome component _ _ _) as [digest|] eqn:Hd; [|done]. cbn [mbind result_bind].
  set (r := {| lr_operation := op |}).
  assert (check_receipt seal_key r = Ok tt) as Hc.
  { unfold evidence_text in Htext. cbn [forallb] in Htext. rewrite !andb_true_iff in Htext. destruct Htext as (T0 & T1 & T2 & T3 & _).
    unfold check_receipt. rewrite !then_Ok. split_and!.
    - by apply raise_if_Ok, negb_true_iff.
    - apply for_each_Ok. repeat (apply Forall_cons; split); [| | |constructor]; cbn [fst snd lr_before lr_after lr_rollback r].
      + destruct (digest_of before); [|done]. apply raise_if_Ok. by rewrite T1.
      + destruct (digest_of (active s)); [|done]. apply raise_if_Ok. by rewrite T2.
      + fold rolled. destruct rolled; [|done]. apply raise_if_Ok. by rewrite T3.
    - apply raise_if_Ok. by rewrite (proj2 (py_in_true _ _) Hout).
    - apply raise_if_Ok. by apply negb_false_iff.
    - cbn [lr_operation lr_outcome lr_component_id lr_before lr_after lr_rollback lr_receipt_digest lr_provenance_seal r].
      rewrite Hd. cbn [mbind result_bind]. rewrite seal_length, !bool_decide_eq_true_2 by done. done. }
  rewrite Hc. cbn [mbind result_bind]. exists r. unfold make_transition. cbn [lr_after lr_rollback lr_component_id lr_operation r].
  rewrite (bool_decide_eq_true_2 (digest_of (active s) = _)) by done.
  destruct (active s) as [a|] eqn:Ea.
  - rewrite (Hev ltac:(done)), Hact. rewrite (bool_decide_eq_true_2 (id_component_id a = _)) by done.
    destruct (rollback s) as [b|]; cbn [digest_of fmap option_fmap option_map]; [|done].
    by rewrite (bool_decide_eq_true_2 (Some (id_identity_digest b) = _)) by done.
  - destruct Hact as [-> ->]. rewrite (bool_decide_eq_true_2 (REMOVE = REMOVE)) by done. cbn. by rewrite orb_true_r.
Qed.

(** ** Operations *)

(** No release of the component as high as this one was accepted. *)
Definition fresh (ledger : release_ledger) (i : LinuxArtifactIdentity) : Prop :=
  ∀ h, dict_lookup (id_component_id i) ledger = Some h → h < id_release_sequence i.
Definition recorded (ledger : release_ledger) (i : LinuxArtifactIdentity) : release_ledger :=
  dict_set (id_component_id i) (id_release_sequence i) ledger.

Lemma accept_new ledger i m ledger' :
  names m i → ledger_accept ledger (md_component_id m) (md_release_sequence m) false = Ok ledger' →
  fresh ledger i ∧ ledger' = recorded ledger i.
Proof.
  intros [-> ->]. unfold ledger_accept, fresh, recorded. destruct (dict_lookup _ ledger) as [h|].
  - rewrite !then_Ok, !raise_if_Ok, andb_true_r. intros (Hh & _ & Hl). apply (inj Ok) in Hl.
    assert (h < id_release_sequence i) as Hlt by lia. rewrite (proj2 (Z.ltb_lt _ _) Hlt) in Hl. split; [|done]. by intros ? [= <-].
  - rewrite then_Ok, raise_if_Ok. intros [_ Hl]. by apply (inj Ok) in Hl.
Qed.

Lemma accept_equal ledger m h ledger' :
  dict_lookup (md_component_id m) ledger = Some h → md_release_sequence m = h →
  ledger_accept ledger (md_component_id m) (md_release_sequence m) true = Ok ledger' → ledger' = ledger.
Proof.
  unfold ledger_accept. intros -> ->. rewrite !then_Ok, Z.ltb_irrefl. intros (_ & _ & Hl). by apply (inj Ok) in Hl.
Qed.

(** What is compared of an identity besides its seal. *)
Lemma without_seal_eq i j :
  without_seal i = without_seal j →
  id_component_id i = id_component_id j ∧ id_release_sequence i = id_release_sequence j ∧ id_identity_digest i = id_identity_digest j.
Proof. intros E. by injection E. Qed.

(** The metadata an identity was accepted for. *)
Definition metadata_of (i : LinuxArtifactIdentity) : LinuxArtifactMetadata :=
  {| md_component_id := id_component_id i; md_version := id_version i; md_source := id_source i;
     md_license_id := id_license_id i; md_expected_sha256 := id_sha256 i;
     md_release_sequence := id_release_sequence i |}.

(** [current] was read again from its path: its file is still certified and
    has the digest of [current], and [previous] is what was found there. *)
Record reverified (q : ArtifactRequest) (current previous : LinuxArtifactIdentity) : Prop := {
  reverified_same : without_seal previous = without_seal current;
  reverified_sealed : check_identity seal_key previous = Ok tt;
  reverified_file :
    ∃ r, certified (metadata_of current) (rq_expected_uid q) (effective_uids q) MAX_ARTIFACT_BYTES
           (rq_previous_readings q) r
      ∧ ow_path r = id_path current;
  reverified_bytes : id_sha256 current = sha256_hex (contents (rd_chunks (rq_previous_readings q)));
}.

Lemma reverify_identity_Ok q current v :
  reverify_identity seal_key current (rq_trusted_ancestor_uids q) (rq_expected_uid q) (rq_previous_readings q) = Ok v →
  reverified q current v.
Proof.
  unfold reverify_identity. cbv zeta. intros [_ (v' & Hv & [He Hr]%then_Ok)%bind_Ok]%then_Ok. apply (inj Ok) in Hr. subst v'.
  apply raise_if_Ok, negb_false_iff, bool_decide_eq_true in He.
  apply verify_artifact_Ok in Hv as (? & r & _ & Hc & Hp). split; [done..|by exists r|].
  by destruct (certified_bytes _ _ _ _ _ _ Hc) as (<- & -> & _).
Qed.

Lemma upgrade_checks_Ok current q i p :
  upgrade_checks seal_key current q = Ok (i, p) →
  authorized q i ∧ names (rq_metadata q) i ∧ check_identity seal_key i = Ok tt ∧ reverified q current p
  ∧ id_component_id i = id_component_id p ∧ id_release_sequence p < id_release_sequence i
  ∧ id_identity_digest i ≠ id_identity_digest p.
Proof.
  unfold upgrade_checks. intros (i' & Hi & (p' & Hp & H1)%bind_Ok)%bind_Ok. rewrite !then_Ok, !raise_if_Ok in H1.
  destruct H1 as (C1%negb_false_iff%bool_decide_eq_true & C2%Z.leb_gt & C3%bool_decide_eq_false & C4).
  apply (inj Ok) in C4. injection C4 as -> ->. apply verified_artifact_Ok in Hi as (? & ? & ?).
  apply reverify_identity_Ok in Hp. auto 10.
Qed.

Lemma repair_checks_Ok before q i :
  repair_checks seal_key before q = Ok i →
  authorized q i ∧ names (rq_metadata q) i ∧ check_identity seal_key i = Ok tt
  ∧ id_component_id i = id_component_id before ∧ id_release_sequence i = id_release_sequence before
  ∧ id_sha256 i = id_sha256 before.
Proof.
  unfold repair_checks. intros (i' & Hi & H1)%bind_Ok. rewrite !then_Ok, !raise_if_Ok in H1.
  destruct H1 as (_ & C1%negb_false_iff%bool_decide_eq_true & C2 & C3). apply (inj Ok) in C3. subst i'.
  rewrite !orb_false_iff, !negb_false_iff, Z.eqb_eq, !bool_decide_eq_true in C2. destruct C2 as ((? & ?) & ?).
  apply verified_artifact_Ok in Hi as (? & ? & ?). auto 10.
Qed.

Lemma transition_state op outcome component before s evidence t :
  transition seal_key op outcome component before s evidence = Ok t → tr_state t = s.
Proof.
  unfold transition. intros (d & _ & [_ Ht]%then_Ok)%bind_Ok. unfold make_transition in Ht. rewrite !then_Ok in Ht.
  destruct Ht as (_ & _ & Ht). by apply (inj Ok) in Ht as <-.
Qed.

Notation outcome_of := (release_ledger * result LinuxArtifactLifecycleTransition)%type.

(** The operations as one. *)
Inductive command :=
  | Install (q : ArtifactRequest)
  | Upgrade (q : ArtifactRequest)
  | Remove (lexists : pystr → bool)
  | Repair (q : ArtifactRequest).
Definition perform (ledger : release_ledger) (s : LinuxArtifactLifecycleState) (c : command) : outcome_of :=
  match c with
  | Install q => install_linux_artifact seal_key ledger s q
  | Upgrade q => upgrade_linux_artifact seal_key ledger s q
  | Remove lexists => (ledger, remove_linux_artifact seal_key s lexists)
  | Repair q => repair_linux_artifact seal_key ledger s q
  end.

(** The ledger and the state agree: the active release is its component's high
    water mark, and the rollback is an older release of the same component. *)
Record consistent (ledger : release_ledger) (s : LinuxArtifactLifecycleState) : Prop := {
  active_high_water : ∀ i, active s = Some i → dict_lookup (id_component_id i) ledger = Some (id_release_sequence i);
  active_sealed : ∀ i, active s = Some i → check_identity seal_key i = Ok tt;
  rollback_older : ∀ r, rollback s = Some r →
    check_identity seal_key r = Ok tt
    ∧ ∃ a, active s = Some a ∧ id_component_id a = id_component_id r ∧ id_release_sequence r < id_release_sequence a;
}.

(** The lifecycle's specification: what a command may do to a ledger and a
    state.  An operation is refused with nothing changed, or does exactly its
    own transition. *)
Inductive permitted (ledger : release_ledger) (s : LinuxArtifactLifecycleState) : command → outcome_of → Prop :=
  | refused c e : permitted ledger s c (ledger, Raise e)
  | installed q i r :
      active s = None → authorized q i → check_identity seal_key i = Ok tt → fresh ledger i →
      permitted ledger s (Install q)
        (recorded ledger i, Ok {| tr_state := {| active := Some i; rollback := None |}; tr_receipt := r |})
  | upgraded q current previous i r :
      active s = Some current → reverified q current previous → id_component_id i = id_component_id previous →
      id_release_sequence previous < id_release_sequence i →
      authorized q i → check_identity seal_key i = Ok tt → fresh ledger i →
      permitted ledger s (Upgrade q)
        (recorded ledger i, Ok {| tr_state := {| active := Some i; rollback := Some previous |}; tr_receipt := r |})
  | removed lexists current r :
      active s = Some current → lexists (id_path current) = false →
      (∀ b, rollback s = Some b → lexists (id_path b) = false) →
      permitted ledger s (Remove lexists)
        (ledger, Ok {| tr_state := {| active := None; rollback := None |}; tr_receipt := r |})
  | repaired q before i r :
      active s = Some before → id_component_id i = id_component_id before →
      id_release_sequence i = id_release_sequence before → id_sha256 i = id_sha256 before →
      authorized q i → check_identity seal_key i = Ok tt →
      permitted ledger s (Repair q)
        (ledger, Ok {| tr_state := {| active := Some i; rollback := rollback s |}; tr_receipt := r |}).

Lemma install_permitted ledger s q : permitted ledger s (Install q) (install_linux_artifact seal_key ledger s q).
Proof.
  unfold install_linux_artifact. destruct (active s) eqn:Hs; [constructor|].
  destruct (verified_artifact seal_key q) as [i|e] eqn:Hv; [|constructor]. apply verified_artifact_Ok in Hv as (Ha & Hn & Hc).
  unfold accepting. destruct (ledger_accept _ _ _ _) as [l|e] eqn:Hl; [|constructor].
  destruct (accept_new _ _ _ _ Hn Hl) as [Hf ->]. cbn [make_state mbind result_bind].
  destruct (transition_Ok INSTALL ACTIVATED (id_component_id i) None {| active := Some i; rollback := None |} None) as [r ->];
    [|by left|done|done|done|by constructor].
  unfold evidence_text. cbn -[fullmatch]. by rewrite component_text, digest_matches.
Qed.

Lemma upgrade_permitted ledger s q : permitted ledger s (Upgrade q) (upgrade_linux_artifact seal_key ledger s q).
Proof.
  unfold upgrade_linux_artifact. destruct (active s) as [current|] eqn:Hs; [|constructor].
  destruct (upgrade_checks seal_key current q) as [[i p]|e] eqn:Hv; [|constructor].
  apply upgrade_checks_Ok in Hv as (Ha & Hn & Hc & Hre & Hcomp & Hrel & Hne).
  pose proof (reverified_sealed _ _ _ Hre) as Hp.
  unfold accepting. destruct (ledger_accept _ _ _ _) as [l|e] eqn:Hl; [|constructor].
  destruct (accept_new _ _ _ _ Hn Hl) as [Hf ->]. unfold make_state.
  rewrite (bool_decide_eq_true_2 _ Hcomp), (bool_decide_eq_false_2 _ Hne). cbn [negb raise_if mbind result_bind].
  destruct (transition_Ok UPGRADE UPGRADED (id_component_id i) (Some p) {| active := Some i; rollback := Some p |} None)
    as [r ->]; [|by left| |done|done|by apply (upgraded _ _ _ current p)].
  - unfold evidence_text. cbn -[fullmatch]. by rewrite component_text, !digest_matches by done.
  - unfold valid_shape. cbn. rewrite bool_decide_eq_true_2 by done. rewrite bool_decide_eq_false_2 by congruence. done.
Qed.

Lemma remove_permitted ledger s lexists : permitted ledger s (Remove lexists) (ledger, remove_linux_artifact seal_key s lexists).
Proof.
  destruct (remove_linux_artifact seal_key s lexists) as [t|e] eqn:Ht; [|constructor]. revert Ht.
  unfold remove_linux_artifact. destruct (active s) as [current|] eqn:Hs; [|done]. cbv zeta. rewrite !then_Ok.
  intros (_ & Hex & Ht). cbn [make_state mbind result_bind] in Ht. apply raise_if_Ok, existsb_false in Hex.
  apply Forall_cons in Hex as [Hc Hr]. apply transition_state in Ht. destruct t as [st r]. cbn in Ht. subst st.
  apply (removed _ _ _ current); [done|done|]. intros b Hb. rewrite Hb in Hr. by apply Forall_cons in Hr as [Hr _].
Qed.

Lemma repair_permitted ledger s q :
  consistent ledger s → permitted ledger s (Repair q) (repair_linux_artifact seal_key ledger s q).
Proof.
  intros Hcons. unfold repair_linux_artifact. destruct (active s) as [before|] eqn:Hs; [|constructor].
  destruct (repair_checks seal_key before q) as [i|e] eqn:Hv; [|constructor].
  apply repair_checks_Ok in Hv as (Ha & [Hn1 Hn2] & Hc & Hcomp & Hrel & Hsha).
  unfold accepting. destruct (ledger_accept _ _ _ _) as [l|e] eqn:Hl; [|constructor].
  apply (accept_equal _ _ (id_release_sequence before)) in Hl as ->; [| |congruence].
  2: { rewrite Hn1, Hcomp. by apply (active_high_water _ _ Hcons). }
  destruct (_ ≫= _) as [t|e] eqn:Ht; [|constructor]. apply bind_Ok in Ht as (s' & Hs' & Ht).
  apply transition_state in Ht. destruct t as [st r]. cbn in Ht. subst st.
  assert (s' = {| active := Some i; rollback := rollback s |}) as ->; [|by econstructor].
  unfold make_state in Hs'. destruct (rollback s); [rewrite !then_Ok in Hs'; destruct Hs' as (_ & _ & Hs')|]; by apply (inj Ok) in Hs'.
Qed.

Lemma perform_permitted ledger s c : consistent ledger s → permitted ledger s c (perform ledger s c).
Proof.
  destruct c; cbn [perform]; auto using install_permitted, upgrade_permitted, remove_permitted, repair_permitted.
Qed.

(** The state an operation leaves: the transition's, or the old one. *)
Definition state_after (s : LinuxArtifactLifecycleState) (res : result LinuxArtifactLifecycleTransition)
    : LinuxArtifactLifecycleState :=
  match res with Ok t => tr_state t | Raise _ => s end.

Lemma recorded_lookup ledger i : dict_lookup (id_component_id i) (recorded ledger i) = Some (id_release_sequence i).
Proof. unfold recorded. rewrite dict_lookup_set. by case_decide. Qed.

Lemma permitted_consistent ledger s c o :
  consistent ledger s → permitted ledger s c o → consistent o.1 (state_after s o.2).
Proof.
  intros Hc Hp. destruct Hp as [| | | |q before i r Hs Hcomp Hrel Hsha Ha Hi]; cbn [fst snd state_after tr_state]; [done| | | |].
  - split; cbn; [intros ? [= <-]; apply recorded_lookup | by intros ? [= <-] | done].
  - split; cbn; [intros ? [= <-]; apply recorded_lookup | by intros ? [= <-] | intros ? [= <-]]. split; [by eapply reverified_sealed|]. eexists. eauto.
  - by split.
  - split; cbn; [intros ? [= <-] | by intros ? [= <-] | intros b Hb].
    + rewrite Hcomp, Hrel. by apply (active_high_water _ _ Hc).
    + destruct (rollback_older _ _ Hc b Hb) as (? & a & Hact & ? & ?). split; [done|]. eexists. split; [done|].
      assert (a = before) by congruence. subst a. split; [congruence | lia].
Qed.

(** ** Histories *)

(** The activation an operation made, as component and release. *)
Definition activation (c : command) (res : result LinuxArtifactLifecycleTransition) : list (pystr * Z) :=
  match c, res with
  | (Install _ | Upgrade _), Ok t =>
      match active (tr_state t) with Some i => [(id_component_id i, id_release_sequence i)] | None => [] end
  | _, _ => []
  end.

(** A sequence of operations on one ledger and state, with its activations. *)
Fixpoint run (ledger : release_ledger) (s : LinuxArtifactLifecycleState) (cs : list command)
    : release_ledger * LinuxArtifactLifecycleState * list (pystr * Z) :=
  match cs with
  | [] => (ledger, s, [])
  | c :: cs =>
      let o := perform ledger s c in
      let '(ledger', s', events) := run o.1 (state_after s o.2) cs in
      (ledger', s', activation c o.2 ++ events)
  end.

(** The releases of a component among the activations. *)
Definition releases (component : pystr) (events : list (pystr * Z)) : list Z :=
  snd <$> filter (λ e, e.1 = component) events.

(** The high water mark after these releases. *)
Definition high_water (start : option Z) (l : list Z) : option Z := match last l with Some n => Some n | None => start end.

Lemma high_water_cons start n l : high_water start (n :: l) = high_water (Some n) l.
Proof. unfold high_water. rewrite last_cons. by destruct (last l). Qed.

Lemma permitted_activation ledger s c o :
  permitted ledger s c o →
  (activation c o.2 = [] ∧ o.1 = ledger)
  ∨ ∃ i, activation c o.2 = [(id_component_id i, id_release_sequence i)] ∧ o.1 = recorded ledger i ∧ fresh ledger i.
Proof. destruct 1; cbn; try (left; by destruct c); try (by left); right; eauto. Qed.

(** Releases above the mark, in strictly increasing order. *)
Definition increasing (start : option Z) (l : list Z) : Prop :=
  StronglySorted Z.lt l ∧ ∀ h n, start = Some h → n ∈ l → h < n.

Lemma increasing_cons start n l : (∀ h, start = Some h → h < n) → increasing (Some n) l → increasing start (n :: l).
Proof.
  intros Hh [Hs Hl]. split.
  - constructor; [done|]. apply Forall_forall. intros m Hm. by apply (Hl n).
  - intros h m E [->|Hm]%elem_of_cons; [by apply Hh|]. specialize (Hh h E). specialize (Hl n m eq_refl Hm). lia.
Qed.

Lemma run_history cs ledger s ledger' s' events :
  consistent ledger s → run ledger s cs = (ledger', s', events) →
  consistent ledger' s'
  ∧ ∀ component, increasing (dict_lookup component ledger) (releases component events)
      ∧ dict_lookup component ledger' = high_water (dict_lookup component ledger) (releases component events).
Proof.
  revert ledger s events. induction cs as [|c cs IH]; intros ledger s events Hc; cbn [run].
  - intros [= <- <- <-]. split; [done|]. intros component. split; [|done]. split; [constructor|]. by intros h n _ ?%elem_of_nil.
  - pose proof (perform_permitted ledger s c Hc) as Hp. pose proof (permitted_consistent _ _ _ _ Hc Hp) as Hc'.
    destruct (run _ _ cs) as [[l1 s1] ev] eqn:Hrun. intros [= <- <- <-]. destruct (IH _ _ _ Hc' Hrun) as [Hcons Hcomp].
    split; [done|]. intros component. specialize (Hcomp component).
    destruct (permitted_activation _ _ _ _ Hp) as [[-> Hl]|(i & -> & Hl & Hf)]; rewrite Hl in Hcomp; [done|].
    unfold releases in *. cbn [app]. rewrite filter_cons. unfold recorded in Hcomp. rewrite dict_lookup_set in Hcomp. cbn [fst].
    destruct (decide (id_component_id i = component)) as [<-|]; [|done]. cbn [fmap list_fmap snd].
    rewrite high_water_cons. destruct Hcomp as [Hinc Hw]. split; [|done]. by apply increasing_cons.
Qed.

(** Nothing installed, nothing recorded. *)
Definition empty_state : LinuxArtifactLifecycleState := {| active := None; rollback := None |}.
Lemma empty_consistent : consistent [] empty_state.
Proof. by split. Qed.

(** C10: The lifecycle implements its specification on every reachable ledger
    and state: each operation is refused, leaving the ledger and the state
    exactly as they were, or makes precisely its own transition -- an install
    into an empty slot, an upgrade to a newer release of the same component
    once the active artifact's file was read and certified again and still has
    its digest, a removal once the files are gone,
    a repair to the same release and bytes -- and then the new active artifact
    is the one its signed evidence names: the digest of the bytes read from a
    certified file is the one in a manifest for that component, version and
    release, of a trusted builder, signed by a trusted key not revoked.  In
    particular no operation fails after it has recorded a release. *)
Theorem lifecycle_refines_spec history c ledger s events :
  run [] empty_state history = (ledger, s, events) → permitted ledger s c (perform ledger s c).
Proof. intros Hr. eapply perform_permitted, run_history; [apply empty_consistent|done]. Qed.

(** C17: Over any history of installs, upgrades, removals and repairs, refused
    or not, from an empty ledger: the releases of a component that installs
    and upgrades activate strictly increase, also across removals, so a
    release is never activated again; the ledger holds exactly the last of
    them; the active artifact is its component's highest accepted release, and
    the rollback, if any, an older release of the same component. *)
Theorem releases_never_replayed history ledger s events :
  run [] empty_state history = (ledger, s, events) →
  consistent ledger s
  ∧ ∀ component, StronglySorted Z.lt (releases component events)
      ∧ dict_lookup component ledger = last (releases component events).
Proof.
  intros Hr. destruct (run_history _ _ _ _ _ _ empty_consistent Hr) as [? Hcomp]. split; [done|]. intros component.
  destruct (Hcomp component) as [[Hs _] Hl]. split; [done|]. rewrite Hl. unfold high_water. by destruct (last _).
Qed.

End lifecycle.

(** ** A concrete history *)

Definition sample_stat (mode inode size : Z) : os_stat :=
  {| st_dev := 1; st_ino := inode; st_uid := 0; st_gid := 0; st_mode := mode; st_nlink := 1; st_size := size;
     st_mtime_ns := 5; st_ctime_ns := 5 |}.
(** [/opt/broker], mode 0755, with the given bytes, and nobody touching it *)
Definition sample_readings (bytes : list Z) : ArtifactReadings :=
  let directory := Some (sample_stat 16877 2 0) in
  let leaf := Some (sample_stat 33261 7 (Z.of_nat (length bytes))) in
  {| rd_root := directory; rd_ancestors := [(directory, directory)]; rd_leaf_before := leaf;
     rd_chunks := [Some bytes; Some []]; rd_leaf_after := leaf; rd_leaf_current := leaf;
     rd_directories := [directory; directory]; rd_leaf_final := leaf |}.
Definition sample_metadata (release : Z) (bytes : list Z) : LinuxArtifactMetadata :=
  {| md_component_id := $"broker"; md_version := $"1.0"; md_source := $"vendor"; md_license_id := $"MIT";
     md_expected_sha256 := sha256_hex bytes; md_release_sequence := release |}.
Definition sample_public_key : pystr := hexdigest (@public_bytes toy_ed25519 42).
Definition sample_request (release : Z) (bytes previous : list Z) : ArtifactRequest :=
  let manifest :=
    match create_linux_artifact_supply_chain_manifest (H:=toy_ed25519) ($"broker") ($"1.0") release bytes [3]
            (replicate 64 97) ($"builder") ($"k1") (42 : @private_key toy_ed25519) with
    | Ok m => m
    | Raise _ => {| mf_schema_version := 0; mf_component_id := []; mf_version := []; mf_release_sequence := 0;
                    mf_artifact_digest := []; mf_sbom_digest := []; mf_source_digest := []; mf_builder_id := [];
                    mf_key_id := []; mf_signature := [] |}
    end in
  {| rq_path := $"/opt/broker"; rq_metadata := sample_metadata release bytes;
     rq_supply_chain := receipt_of manifest sample_public_key; rq_expected_uid := 0;
     rq_trusted_builder_ids := [$"builder"]; rq_trusted_public_keys := [($"k1", sample_public_key)];
     rq_trusted_ancestor_uids := None; rq_revoked_key_ids := []; rq_readings := sample_readings bytes;
     rq_previous_readings := sample_readings previous |}.
(** Install release 3, upgrade to 5, fail to install 4 over it, remove, and try
    to bring 3 back. *)
Definition sample_history : list command :=
  [Install (sample_request 3 [1; 2] []); Upgrade (sample_request 5 [4; 5; 6] [1; 2]);
   Install (sample_request 4 [9] []); Repair (sample_request 5 [4; 5; 6] []);
   Remove (λ _, false); Install (sample_request 3 [1; 2] [])].

Lemma ownership_receipt_sound_witness :
  ∃ r, verify_linux_artifact_ownership ($"/opt/broker") (sample_metadata 3 [1; 2]) 0 [0] 100 (sample_readings [1; 2]) = Ok r
    ∧ certified (sample_metadata 3 [1; 2]) 0 [0] 100 (sample_readings [1; 2]) r.
Proof.
  destruct (verify_linux_artifact_ownership ($"/opt/broker") (sample_metadata 3 [1; 2]) 0 [0] 100 (sample_readings [1; 2]))
    as [r|] eqn:E; [|vm_compute in E; discriminate E].
  exists r. split; [reflexivity|]. apply (ownership_receipt_sound _ _ _ _ _ _ _ E).
Defined.

Lemma lifecycle_refines_spec_witness :
  ∃ ledger s events,
    run (H:=toy_ed25519) [7] [] empty_state [Install (sample_request 3 [1; 2] [])] = (ledger, s, events)
    ∧ events = [($"broker", 3)]
    ∧ permitted (H:=toy_ed25519) [7] ledger s (Upgrade (sample_request 5 [4; 5; 6] [1; 2]))
        (perform (H:=toy_ed25519) [7] ledger s (Upgrade (sample_request 5 [4; 5; 6] [1; 2]))).
Proof.
  destruct (run (H:=toy_ed25519) [7] [] empty_state [Install (sample_request 3 [1; 2] [])]) as [[ledger s] events] eqn:E.
  exists ledger, s, events. split; [reflexivity|]. split.
  - change events with (ledger, s, events).2. rewrite <- E. vm_compute. reflexivity.
  - exact (lifecycle_refines_spec (H:=toy_ed25519) [7] _ _ _ _ _ E).
Defined.

Lemma releases_never_replayed_witness :
  ∃ ledger s events,
    run (H:=toy_ed25519) [7] [] empty_state sample_history = (ledger, s, events)
    ∧ events = [($"broker", 3); ($"broker", 5)] ∧ active s = None
    ∧ dict_lookup ($"broker") ledger = last (releases ($"broker") events).
Proof.
  destruct (run (H:=toy_ed25519) [7] [] empty_state sample_history) as [[ledger s] events] eqn:E.
  exists ledger, s, events. split; [reflexivity|]. split; [|split].
  - change events with (ledger, s, events).2. rewrite <- E. vm_compute. reflexivity.
  - change s with (ledger, s, events).1.2. rewrite <- E. vm_compute. reflexivity.
  - apply (releases_never_replayed (H:=toy_ed25519) [7] sample_history ledger s events E).
Defined.

End ArtifactHistory.
