(* ===== verification/ProviderRecovery.v ===== *)
(** * Provider recovery and the network supervisor

    Models [provider_recovery.py] and [network_supervisor.py].  The retry
    delays the code computes ([0.0], [2.0 ** n] and the cap [30.0]) are whole
    seconds that floats represent exactly; they are integers here. *)

From S2P Require Import Prelude PyStr Sha256 Regex PyVal IpAddress NetworkContract.
Local Open Scope Z_scope.
Local Open Scope py_scope.

Definition MAX_ATTEMPTS : Z := 5.
Definition BACKOFF_CAP_SECONDS : Z := 30.

(** [ProviderHealthState] of [execution_assurance_contract.py] *)
Inductive ProviderHealthState :=
  | Health_UNKNOWN | Health_VERIFYING | Health_HEALTHY | Health_DEGRADED | Health_UNAVAILABLE
  | Health_REVOKED | Health_INCOMPATIBLE.

Inductive RecoveryPhase := HEALTHY | DEGRADED | RECOVERING | UNAVAILABLE.
Global Instance RecoveryPhase_eq_dec : EqDecision RecoveryPhase.
Proof. solve_decision. Defined.
Definition RecoveryPhase_value (p : RecoveryPhase) : pystr :=
  match p with
  | HEALTHY => $"healthy" | DEGRADED => $"degraded" | RECOVERING => $"recovering"
  | UNAVAILABLE => $"unavailable"
  end.

Definition to_provider_health_state (p : RecoveryPhase) : ProviderHealthState :=
  match p with
  | HEALTHY => Health_HEALTHY
  | DEGRADED => Health_DEGRADED
  | RECOVERING => Health_DEGRADED
  | UNAVAILABLE => Health_UNAVAILABLE
  end.

Definition from_provider_health_state (h : ProviderHealthState) : RecoveryPhase :=
  match h with
  | Health_HEALTHY => HEALTHY
  | Health_DEGRADED => DEGRADED
  | Health_UNAVAILABLE => UNAVAILABLE
  | Health_UNKNOWN => RECOVERING
  | Health_VERIFYING => RECOVERING
  | Health_REVOKED => UNAVAILABLE
  | Health_INCOMPATIBLE => UNAVAILABLE
  end.

Record RecoveryState := {
  phase : RecoveryPhase;
  attempt : Z;
  next_retry_seconds : Z;
  last_error_digest : option pystr;
  notice_dedupe_key : option pystr;
}.

(** [value or default] on an optional string. *)
Definition str_or (a b : option pystr) : option pystr :=
  match a with Some (c :: s) => Some (c :: s) | _ => b end.

(** [_dedupe_key] *)
Definition dedupe_key (p : RecoveryPhase) (error_digest : option pystr) : pystr :=
  take 16 (sha256_hex (utf8 (RecoveryPhase_value p ++ $":" ++
    default [] (str_or error_digest (Some ($"none")))))).

(** [_require_sha256] *)
Definition require_sha256 (value : pystr) (label : string) : result unit :=
  raise_if (negb (length value =? 64)%nat) (ValueError (label +:+ " must be a 64-char hex string")) ;;
  for_each (λ c, raise_if (negb (is_hex c)) (ValueError (label +:+ " must be lowercase hex"))) value.

(** [_require_dedupe_key] *)
Definition require_dedupe_key (value : pystr) (label : string) : result unit :=
  raise_if (bool_decide (value = []) || (128 <? length value)%nat)
    (ValueError (label +:+ " must be a non-empty string of at most 128 characters")).

(** [RecoveryState.__post_init__] *)
Definition make_RecoveryState (s : RecoveryState) : result RecoveryState :=
  raise_if (negb ((0 <=? attempt s) && (attempt s <=? MAX_ATTEMPTS)))
    (ValueError "attempt must be 0..5") ;;
  raise_if (next_retry_seconds s <? 0) (ValueError "next_retry_seconds must be non-negative") ;;
  match last_error_digest s with
  | Some d => require_sha256 d "last_error_digest"
  | None => Ok tt
  end ;;
  match notice_dedupe_key s with
  | None =>
      Ok {| phase := phase s; attempt := attempt s; next_retry_seconds := next_retry_seconds s;
            last_error_digest := last_error_digest s;
            notice_dedupe_key := Some (dedupe_key (phase s) (last_error_digest s)) |}
  | Some k => require_dedupe_key k "notice_dedupe_key" ;; Ok s
  end.

Definition next_recovery_state (s : RecoveryState) (succeeded : bool) (error_digest : option pystr)
    : result RecoveryState :=
  if succeeded then
    make_RecoveryState
      {| phase := HEALTHY; attempt := 0; next_retry_seconds := 0; last_error_digest := None;
         notice_dedupe_key := Some (dedupe_key HEALTHY None) |}
  else
  match error_digest with Some d => require_sha256 d "error_digest" | None => Ok tt end ;;
  let new_attempt := Z.min (attempt s + 1) MAX_ATTEMPTS in
  let new_error_digest := str_or error_digest (last_error_digest s) in
  let new_next_retry := Z.min (2 ^ new_attempt) BACKOFF_CAP_SECONDS in
  let new_phase :=
    if MAX_ATTEMPTS <=? new_attempt then UNAVAILABLE
    else if decide (phase s = HEALTHY) then DEGRADED
    else RECOVERING in
  make_RecoveryState
    {| phase := new_phase; attempt := new_attempt; next_retry_seconds := new_next_retry;
       last_error_digest := new_error_digest;
       notice_dedupe_key := Some (dedupe_key new_phase new_error_digest) |}.

Definition notice_label (p : RecoveryPhase) : pystr :=
  match p with
  | HEALTHY => $"Provider recovered"
  | DEGRADED => $"Provider degraded - recovering"
  | RECOVERING => $"Provider recovering"
  | UNAVAILABLE => $"Provider unavailable - retries exhausted"
  end.
Definition upper_char (c : Z) : Z := if is_lower c then c - 32 else c.

(** [_build_notice] *)
Definition build_notice (s : RecoveryState) : pystr :=
  $"[" ++ (upper_char <$> RecoveryPhase_value (phase s)) ++ $"] " ++ notice_label (phase s) ++
  $" (attempt " ++ str_of_int (attempt s) ++ $"/" ++ str_of_int MAX_ATTEMPTS ++ $")".

Definition recovery_notice (s : RecoveryState) (previous : option RecoveryState) : option pystr :=
  match previous with
  | None => if decide (phase s = HEALTHY) then None else Some (build_notice s)
  | Some p =>
      if decide (phase s = phase p) then
        match notice_dedupe_key s, notice_dedupe_key p with
        | Some k, Some k' => if decide (k = k') then None else Some (build_notice s)
        | _, _ => None
        end
      else
        match notice_dedupe_key s, notice_dedupe_key p with
        | Some k, Some k' => if decide (k = k') then None else Some (build_notice s)
        | _, _ => Some (build_notice s)
        end
  end.

(** ** [network_supervisor.py] *)

Record NetworkSupervisorHealth := {
  health_phase : RecoveryPhase;
  health_backend_id : option pystr;
  health_backend_digest : option pystr;
  health_effective_grade : EnforcementGrade;
  health_healthy_until : option Z;
  retry_attempt : Z;
  health_next_retry_seconds : Z;
}.

Definition permits_enforcement (h : NetworkSupervisorHealth) : bool :=
  bool_decide (health_phase h = HEALTHY)
  && negb (py_in (health_effective_grade h) [Grade_UNAVAILABLE; Grade_OBSERVE]).

Record supervisor := { advertisement : option BackendAdvertisement; recovery_state : RecoveryState }.

(** [NetworkSupervisor.__init__]; the recovery state it constructs. *)
Definition initial_recovery : RecoveryState :=
  {| phase := UNAVAILABLE; attempt := 0; next_retry_seconds := 0; last_error_digest := None;
     notice_dedupe_key := Some (dedupe_key UNAVAILABLE None) |}.
Definition new_supervisor : result supervisor :=
  r ← make_RecoveryState {| phase := UNAVAILABLE; attempt := 0; next_retry_seconds := 0;
                            last_error_digest := None; notice_dedupe_key := None |} ;
  Ok {| advertisement := None; recovery_state := r |}.

Definition health (s : supervisor) (now : Z) : NetworkSupervisorHealth :=
  match advertisement s with
  | None =>
      {| health_phase := phase (recovery_state s); health_backend_id := None;
         health_backend_digest := None; health_effective_grade := Grade_UNAVAILABLE;
         health_healthy_until := None; retry_attempt := attempt (recovery_state s);
         health_next_retry_seconds := next_retry_seconds (recovery_state s) |}
  | Some a =>
      if healthy_until_epoch_ms a <=? now then
        {| health_phase := DEGRADED; health_backend_id := Some (backend_id a);
           health_backend_digest := Some (backend_digest a);
           health_effective_grade := Grade_UNAVAILABLE;
           health_healthy_until := Some (healthy_until_epoch_ms a);
           retry_attempt := attempt (recovery_state s);
           health_next_retry_seconds := next_retry_seconds (recovery_state s) |}
      else
        {| health_phase := phase (recovery_state s); health_backend_id := Some (backend_id a);
           health_backend_digest := Some (backend_digest a);
           health_effective_grade := maximum_grade a;
           health_healthy_until := Some (healthy_until_epoch_ms a);
           retry_attempt := attempt (recovery_state s);
           health_next_retry_seconds := next_retry_seconds (recovery_state s) |}
  end.

Definition record_probe (s : supervisor) (a : option BackendAdvertisement) (now : Z)
    (error_digest : option pystr) : result (NetworkSupervisorHealth * supervisor) :=
  let succeeded := match a with Some a => now <? healthy_until_epoch_ms a | None => false end in
  r ← next_recovery_state (recovery_state s) succeeded (if succeeded then None else error_digest) ;
  let s' := {| advertisement := if succeeded then a else None; recovery_state := r |} in
  Ok (health s' now, s').

(** ** Recovery runs *)

(** The outcome of one attempt. *)
Inductive outcome := Success | Failure (error_digest : option pystr).

Definition advance (s : RecoveryState) (o : outcome) : result RecoveryState :=
  match o with
  | Success => next_recovery_state s true None
  | Failure e => next_recovery_state s false e
  end.
Fixpoint advance_all (s : RecoveryState) (os : list outcome) : result RecoveryState :=
  match os with
  | [] => Ok s
  | o :: os => s' ← advance s o ; advance_all s' os
  end.

Definition is_digest (d : pystr) : bool := (length d =? 64)%nat && forallb is_hex d.
Definition digest_ok (e : option pystr) : Prop := ∀ d, e = Some d → is_digest d = true.
Definition outcome_ok (o : outcome) : Prop :=
  match o with Success => True | Failure e => digest_ok e end.

(** What the state machine keeps of every state it is in. *)
Definition valid (s : RecoveryState) : Prop :=
  0 <= attempt s <= MAX_ATTEMPTS ∧ digest_ok (last_error_digest s).

(** The phase after [k] failures in a row, and the delay before the next attempt. *)
Definition phase_after (k : nat) : RecoveryPhase :=
  match k with
  | 0 => HEALTHY
  | 1 => DEGRADED
  | 2 | 3 | 4 => RECOVERING
  | _ => UNAVAILABLE
  end%nat.
Definition delay_after (k : nat) : Z :=
  match k with
  | 0%nat => 0 | 1%nat => 2 | 2%nat => 4 | 3%nat => 8 | 4%nat => 16 | _ => 30
  end.

(** The last digest reported by a run of failures. *)
Definition last_digest (es : list (option pystr)) : option pystr := foldl (λ acc e, str_or e acc) None es.

Lemma require_sha256_Ok d label : is_digest d = true → require_sha256 d label = Ok tt.
Proof.
  unfold is_digest, require_sha256. intros [Hl Hh]%andb_true_iff. rewrite Hl. simpl.
  unfold mbind, result_bind. apply for_each_Ok. apply forallb_Forall in Hh.
  eapply Forall_impl; [exact Hh|]. intros c Hc. by rewrite Hc.
Qed.

Lemma optional_sha256_Ok e label :
  digest_ok e → match e with Some d => require_sha256 d label | None => Ok tt end = Ok tt.
Proof. destruct e as [d|]; [|done]. intros Hd. by apply require_sha256_Ok, Hd. Qed.

Lemma dedupe_key_Ok p e label : require_dedupe_key (dedupe_key p e) label = Ok tt.
Proof.
  unfold require_dedupe_key, dedupe_key.
  match goal with |- context [sha256_hex ?m] => destruct (sha256_hex_shape m) as [Hl _];
    assert (length (take 16 (sha256_hex m)) = 16%nat) as Hk by (rewrite length_take, Hl; done);
    generalize dependent (take 16 (sha256_hex m)) end.
  intros k Hk. rewrite Hk, bool_decide_false; [done|]. by intros ->.
Qed.

Lemma make_state_Ok p n r e :
  0 <= n <= MAX_ATTEMPTS → 0 <= r → digest_ok e →
  make_RecoveryState {| phase := p; attempt := n; next_retry_seconds := r; last_error_digest := e;
    notice_dedupe_key := Some (dedupe_key p e) |} =
  Ok {| phase := p; attempt := n; next_retry_seconds := r; last_error_digest := e;
    notice_dedupe_key := Some (dedupe_key p e) |}.
Proof.
  intros Hn Hr He. unfold make_RecoveryState. cbn [attempt next_retry_seconds last_error_digest notice_dedupe_key].
  rewrite (proj2 (Z.leb_le 0 n)), (proj2 (Z.leb_le n MAX_ATTEMPTS)), (proj2 (Z.ltb_ge r 0)) by lia.
  rewrite optional_sha256_Ok by done. unfold mbind, result_bind. cbn [raise_if negb andb].
  by rewrite dedupe_key_Ok.
Qed.

Lemma str_or_ok a b : digest_ok a → digest_ok b → digest_ok (str_or a b).
Proof. intros Ha Hb. destruct a as [[|c s]|]; done. Qed.

(** A failure from a valid state moves on; it never raises. *)
Lemma failure_step s e :
  valid s → digest_ok e →
  ∃ s', advance s (Failure e) = Ok s' ∧ valid s' ∧ attempt s' = Z.min (attempt s + 1) MAX_ATTEMPTS ∧
    next_retry_seconds s' = Z.min (2 ^ attempt s') BACKOFF_CAP_SECONDS ∧
    last_error_digest s' = str_or e (last_error_digest s) ∧
    phase s' = (if MAX_ATTEMPTS <=? attempt s' then UNAVAILABLE
                else if decide (phase s = HEALTHY) then DEGRADED else RECOVERING).
Proof.
  intros [Hn Hd] He. cbn [advance]. unfold next_recovery_state. rewrite optional_sha256_Ok by done.
  unfold mbind, result_bind. cbv zeta.
  assert (0 <= 2 ^ Z.min (attempt s + 1) MAX_ATTEMPTS) by (apply Z.pow_nonneg; lia).
  rewrite make_state_Ok; [|unfold MAX_ATTEMPTS in *; lia|unfold BACKOFF_CAP_SECONDS; lia|by apply str_or_ok].
  eexists. split; [reflexivity|]. split; [|done]. split; [cbn; unfold MAX_ATTEMPTS in *; lia|].
  by apply str_or_ok.
Qed.

Lemma success_step s :
  advance s Success = Ok {| phase := HEALTHY; attempt := 0; next_retry_seconds := 0;
    last_error_digest := None; notice_dedupe_key := Some (dedupe_key HEALTHY None) |}.
Proof. cbn [advance]. unfold next_recovery_state. by rewrite make_state_Ok. Qed.

Lemma advance_valid s o : valid s → outcome_ok o → ∃ s', advance s o = Ok s' ∧ valid s'.
Proof.
  intros Hs Ho. destruct o as [|e]; [|destruct (failure_step s e Hs Ho) as (s' & ? & ? & _); eauto].
  rewrite success_step. eexists. split; [done|]. split; [cbn; unfold MAX_ATTEMPTS; lia | done].
Qed.

Lemma advance_all_valid s os :
  valid s → Forall outcome_ok os → ∃ s', advance_all s os = Ok s' ∧ valid s'.
Proof.
  intros Hs Hos. revert s Hs. induction Hos as [|o os Ho _ IH]; intros s Hs; [by exists s|].
  cbn [advance_all]. destruct (advance_valid s o Hs Ho) as (s1 & -> & Hs1). by apply IH.
Qed.

Lemma advance_all_app s os os' s' :
  advance_all s os = Ok s' → advance_all s (os ++ os') = advance_all s' os'.
Proof.
  revert s. induction os as [|o os IH]; cbn [advance_all app]; intros s E; [by injection E as <-|].
  apply bind_Ok in E as (s1 & -> & E). by apply IH.
Qed.

(** The state after [k] failures in a row since a success. *)
Definition after_failures (k : nat) (e : option pystr) (s : RecoveryState) : Prop :=
  valid s ∧ attempt s = Z.min (Z.of_nat k) MAX_ATTEMPTS ∧ phase s = phase_after k ∧
  next_retry_seconds s = delay_after k ∧ last_error_digest s = e.

Lemma failure_counts k e0 s e :
  after_failures k e0 s → digest_ok e →
  ∃ s', advance s (Failure e) = Ok s' ∧ after_failures (S k) (str_or e e0) s'.
Proof.
  intros (Hv & Ha & Hp & _ & He) Hd. destruct (failure_step s e Hv Hd) as (s' & Hs & Hv' & Ha' & Hr' & He' & Hp').
  exists s'. split; [done|]. split; [done|].
  assert (attempt s' = Z.min (Z.of_nat (S k)) MAX_ATTEMPTS) as Hk by (unfold MAX_ATTEMPTS in *; lia).
  split; [done|]. rewrite Hk in Hr', Hp'. rewrite Hp', Hr', He', He, Hp.
  destruct (decide (k < 4)%nat) as [Hlt|Hge].
  - destruct k as [|[|[|[|k]]]]; [done..|lia].
  - assert (Z.min (Z.of_nat (S k)) MAX_ATTEMPTS = 5) as -> by (unfold MAX_ATTEMPTS; lia).
    destruct k as [|[|[|[|k]]]]; [lia..|]. done.
Qed.

(** from any state the machine can be in, after any outcomes with
    well-formed digests it never raises, and its state is a function of the
    failures since the last success alone: after [k] of them the attempt count
    is [min k 5], the phase healthy, degraded, recovering or (from the fifth on)
    unavailable, the delay doubles from two seconds up to the cap of thirty,
    and the remembered digest is the last one reported. *)
Theorem recovery_closed_form (s0 : RecoveryState) (os : list outcome) (es : list (option pystr))
    (Hs0 : valid s0) (Hos : Forall outcome_ok os) (Hes : Forall digest_ok es) :
  ∃ s, advance_all s0 (os ++ Success :: (Failure <$> es)) = Ok s ∧
    attempt s = Z.min (Z.of_nat (length es)) 5 ∧ phase s = phase_after (length es) ∧
    next_retry_seconds s = delay_after (length es) ∧ last_error_digest s = last_digest es.
Proof.
  destruct (advance_all_valid s0 os Hs0 Hos) as (s1 & Hs1 & _).
  rewrite (advance_all_app _ _ _ _ Hs1). cbn [advance_all]. rewrite success_step.
  unfold mbind at 1, result_bind at 1.
  match goal with |- ∃ s, advance_all ?h _ = _ ∧ _ => set (h0 := h) end.
  assert (∃ s, advance_all h0 (Failure <$> es) = Ok s ∧ after_failures (length es) (last_digest es) s)
    as (s & Hs & _ & Ha & Hp & Hr & He); [|by exists s].
  clear Hs1 Hos. induction es as [|e es IH] using rev_ind.
  - exists h0. split; [done|]. split; [|done]. split; [cbn; unfold MAX_ATTEMPTS; lia|done].
  - apply Forall_app in Hes as [Hes He]. rewrite Forall_singleton in He.
    destruct (IH Hes) as (s & Hs & Haf). rewrite fmap_app, (advance_all_app _ _ _ _ Hs).
    destruct (failure_counts _ _ _ e Haf He) as (s' & Hs' & Haf').
    exists s'. cbn [fmap list_fmap advance_all]. rewrite Hs'. split; [done|].
    unfold last_digest. rewrite length_app, foldl_app. by rewrite Nat.add_1_r.
Qed.

(** The digests of the witnesses: sixty-four equal digits. *)
Definition digest_of (c : Z) : option pystr := Some (replicate 64 c).

Lemma recovery_closed_form_witness :
  ∃ s, advance_all initial_recovery
      ([Failure (digest_of 97)] ++ Success :: (Failure <$> [digest_of 97; None; digest_of 98])) = Ok s ∧
    attempt s = 3 ∧ phase s = RECOVERING ∧ next_retry_seconds s = 8 ∧
    last_error_digest s = digest_of 98.
Proof.
  apply (recovery_closed_form initial_recovery [Failure (digest_of 97)] [digest_of 97; None; digest_of 98]).
  - split; [vm_compute; split; discriminate | intros d Hd; discriminate Hd].
  - constructor; [|constructor]. intros d Hd. injection Hd as <-. vm_compute. reflexivity.
  - repeat constructor; intros d Hd; first [discriminate Hd | injection Hd as <-; vm_compute; reflexivity].
Defined.

(** A second notice is sent in the same phase when the error differs. *)
Lemma notice_without_phase_change :
  ∃ s s' n, advance_all initial_recovery [Failure (digest_of 97)] = Ok s ∧
    advance s (Failure (digest_of 98)) = Ok s' ∧ phase s' = phase s ∧
    recovery_notice s' (Some s) = Some n.
Proof.
  eexists _, _, _. split; [vm_compute; reflexivity|]. split; [vm_compute; reflexivity|].
  split; vm_compute; reflexivity.
Qed.

(** The first failure of a new supervisor is reported as recovering. *)
Lemma first_failure_is_recovering e s :
  digest_ok e → advance initial_recovery (Failure e) = Ok s → attempt s = 1 ∧ phase s = RECOVERING.
Proof.
  intros He Hs. assert (valid initial_recovery) as Hv by (split; [cbn; unfold MAX_ATTEMPTS; lia | done]).
  destruct (failure_step _ _ Hv He) as (s' & Hs' & _ & Ha & _ & _ & Hp). rewrite Hs in Hs'.
  injection Hs' as <-. change (attempt initial_recovery) with 0 in Ha.
  rewrite Ha in Hp. done.
Qed.

(** ** The supervisor's health *)

Record probe := { probed : option BackendAdvertisement; probe_at : Z; probe_error : option pystr }.

(** A probe whose error digest is malformed raises and changes nothing. *)
Definition observe_probe (s : supervisor) (p : probe) : supervisor :=
  match record_probe s (probed p) (probe_at p) (probe_error p) with
  | Ok (_, s') => s'
  | Raise _ => s
  end.

Definition probe_succeeds (p : probe) : bool :=
  match probed p with Some a => probe_at p <? healthy_until_epoch_ms a | None => false end.

Lemma record_probe_Ok s p :
  valid (recovery_state s) → digest_ok (probe_error p) →
  ∃ r, record_probe s (probed p) (probe_at p) (probe_error p) =
    Ok (health (observe_probe s p) (probe_at p), observe_probe s p) ∧
    observe_probe s p =
      {| advertisement := if probe_succeeds p then probed p else None; recovery_state := r |} ∧
    valid r ∧ (probe_succeeds p = true → phase r = HEALTHY).
Proof.
  intros Hv He. unfold observe_probe, record_probe. fold (probe_succeeds p). cbv zeta.
  destruct (probe_succeeds p) eqn:Hp.
  - change (next_recovery_state (recovery_state s) true None) with (advance (recovery_state s) Success).
    rewrite success_step. eexists. split; [reflexivity|]. split; [reflexivity|].
    split; [|done]. split; [cbn; unfold MAX_ATTEMPTS; lia | done].
  - change (next_recovery_state (recovery_state s) false (probe_error p))
      with (advance (recovery_state s) (Failure (probe_error p))).
    destruct (failure_step _ _ Hv He) as (r & -> & Hr & _). exists r. by split.
Qed.

Lemma new_supervisor_Ok :
  new_supervisor = Ok {| advertisement := None; recovery_state := initial_recovery |}.
Proof. reflexivity. Qed.

Lemma probes_valid s ps :
  valid (recovery_state s) → Forall (λ p, digest_ok (probe_error p)) ps →
  valid (recovery_state (foldl observe_probe s ps)).
Proof.
  intros Hs Hps. revert s Hs. induction Hps as [|p ps Hp _ IH]; intros s Hs; [done|].
  cbn [foldl]. apply IH. by destruct (record_probe_Ok s p Hs Hp) as (r & _ & -> & Hr & _).
Qed.

(** the supervisor reports enforcement exactly on fresh evidence: a new
    supervisor permits nothing, and after any probes with well-formed error
    digests, [health] permits enforcement at a time if and only if the last
    probe succeeded, its advertisement is still healthy at that time and its
    grade enforces; an earlier success is never reused after a failed probe. *)
Theorem supervisor_permits_iff_fresh (s : supervisor) (ps : list probe) (p : probe)
    (Hnew : new_supervisor = Ok s) (Hps : Forall (λ p, digest_ok (probe_error p)) (ps ++ [p])) :
  (∀ now, permits_enforcement (health s now) = false) ∧
  ∀ now, permits_enforcement (health (foldl observe_probe s (ps ++ [p])) now) = true ↔
    ∃ a, probed p = Some a ∧ probe_at p < healthy_until_epoch_ms a ∧ now < healthy_until_epoch_ms a ∧
      maximum_grade a ∉ [Grade_UNAVAILABLE; Grade_OBSERVE].
Proof.
  rewrite new_supervisor_Ok in Hnew. injection Hnew as <-. split; [done|]. intros now.
  apply Forall_app in Hps as [Hps Hp]. rewrite Forall_singleton in Hp. rewrite foldl_app. cbn [foldl].
  destruct (record_probe_Ok (foldl observe_probe {| advertisement := None; recovery_state := initial_recovery |} ps) p)
    as (r & _ & -> & _ & Hr); [|done|].
  { apply probes_valid; [|done]. split; [cbn; unfold MAX_ATTEMPTS; lia | done]. }
  unfold permits_enforcement, health, probe_succeeds in *. cbn [advertisement recovery_state].
  destruct (probed p) as [a|]; [|rewrite andb_false_r; naive_solver].
  destruct (Z.ltb_spec (probe_at p) (healthy_until_epoch_ms a)); cbn [advertisement];
    [|rewrite andb_false_r; split; [done | intros (a' & [= <-] & ? & _); lia]].
  destruct (Z.leb_spec (healthy_until_epoch_ms a) now); cbn [health_phase health_effective_grade];
    [split; [done | intros (a' & [= <-] & _ & ? & _); lia]|].
  rewrite (Hr eq_refl), bool_decide_true, andb_true_l, negb_true_iff, py_in_false by done. naive_solver.
Qed.

Definition sample_advertisement : BackendAdvertisement :=
  {| backend_id := $"linux.oci"; backend_digest := replicate 64 97; capabilities := [Cap_DENY_ALL];
     maximum_grade := Grade_DENY_ALL; healthy_until_epoch_ms := 5000;
     advertisement_schema_version := NETWORK_BACKEND_SCHEMA_VERSION |}.
Definition sample_probes : list probe :=
  [{| probed := None; probe_at := 1000; probe_error := digest_of 97 |}].
Definition good_probe : probe :=
  {| probed := Some sample_advertisement; probe_at := 2000; probe_error := None |}.

Lemma supervisor_witness :
  ∃ s, new_supervisor = Ok s ∧
    permits_enforcement (health (foldl observe_probe s (sample_probes ++ [good_probe])) 4999) = true.
Proof.
  exists {| advertisement := None; recovery_state := initial_recovery |}.
  split; [exact new_supervisor_Ok|].
  apply (supervisor_permits_iff_fresh _ sample_probes good_probe new_supervisor_Ok).
  - repeat constructor; intros d Hd; first [discriminate Hd | injection Hd as <-; vm_compute; reflexivity].
  - exists sample_advertisement. split; [reflexivity|]. split; [simpl; lia|]. split; [simpl; lia|].
    apply py_in_false. reflexivity.
Defined.
