(* ===== verification/LocalAuthority.v ===== *)
(** * Integrity of the rows that grant

    Models [local_authority_integrity.py], [policy_integrity.py],
    [store_local_once_authority.py] and the row helpers of
    [store_event_receipts.py]: the rows of [guard_local_once_approvals] and
    [policy_decisions], what is signed of them, and the verification of a
    stored row.

    The columns hold what the schema declares: texts, integers and nulls.  A
    MAC is HMAC-SHA256 under the key derived for the purpose, computed. *)

From S2P Require Import Prelude PyStr Sha256 PyVal PyJson AsciiJson PyTime.
Local Open Scope Z_scope.
Local Open Scope py_scope.

Module LocalAuthority.
Import Json.

Notation pydict := (list (pystr * pyval)).
Notation material := (option (list Z * pystr)).

Definition jtext : option pystr → json := jopt JStr.
Definition jint : option Z → json := jopt JInt.
Definition ptext (o : option pystr) : pyval := match o with Some s => PStr s | None => PNone end.
Definition pint (o : option Z) : pyval := match o with Some n => PInt n | None => PNone end.

(** ** Verification results *)

Inductive PolicyIntegrityStatus :=
  | valid | missing_integrity | tampered | unknown_key | rollback_detected | degraded_mode.
Global Instance PolicyIntegrityStatus_eq_dec : EqDecision PolicyIntegrityStatus.
Proof. solve_decision. Defined.
Definition status_text (s : PolicyIntegrityStatus) : pystr :=
  match s with
  | valid => $"valid" | missing_integrity => $"missing_integrity" | tampered => $"tampered"
  | unknown_key => $"unknown_key" | rollback_detected => $"rollback_detected" | degraded_mode => $"degraded_mode"
  end.
Record PolicyIntegrityVerificationResult := {
  status : PolicyIntegrityStatus;
  vr_payload_hash : option pystr;
  vr_key_id : option pystr;
  message : option pystr;
}.

(** [_string_or_none] *)
Definition string_or_none (o : option pystr) : option pystr := match o with Some [] => None | o => o end.

(** ** Purpose-bound signatures *)

Definition LOCAL_AUTHORITY_INTEGRITY_VERSION : Z := 1.
Definition LOCAL_AUTHORITY_INTEGRITY_MAC_ALGORITHM : pystr := $"hmac-sha256".
Definition LOCAL_AUTHORITY_INTEGRITY_DOMAIN : pystr := $"hol-guard.local-authority-integrity.v1".

Definition local_authority_envelope (payload : list (pystr * json)) (purpose signed_at : pystr) (integrity_version : Z) : json :=
  JObj [($"domain", JStr LOCAL_AUTHORITY_INTEGRITY_DOMAIN); ($"integrity_version", JInt integrity_version);
        ($"payload", JObj payload); ($"purpose", JStr purpose); ($"signed_at", JStr signed_at)].
Definition canonical_local_authority_payload (payload : list (pystr * json)) (purpose signed_at : pystr)
    (integrity_version : Z) : list Z :=
  utf8 (dumps (local_authority_envelope payload purpose signed_at integrity_version)).
Definition purpose_key (key : list Z) (purpose : pystr) : list Z :=
  hmac_sha256 key (utf8 LOCAL_AUTHORITY_INTEGRITY_DOMAIN ++ [0] ++ utf8 purpose).

(** The columns a signature fills. *)
Record integrity := {
  integrity_version : option Z;
  payload_hash : option pystr;
  payload_mac : option pystr;
  integrity_key_id : option pystr;
  signed_at : option pystr;
}.
Global Instance integrity_eq_dec : EqDecision integrity.
Proof. solve_decision. Defined.

Definition sign_local_authority_payload (payload : list (pystr * json)) (key : list Z) (key_id purpose at' : pystr)
    : integrity :=
  let canonical_payload := canonical_local_authority_payload payload purpose at' LOCAL_AUTHORITY_INTEGRITY_VERSION in
  {| integrity_version := Some LOCAL_AUTHORITY_INTEGRITY_VERSION;
     payload_hash := Some (sha256_hex canonical_payload);
     payload_mac := Some (hmac_sha256_hex (purpose_key key purpose) canonical_payload);
     integrity_key_id := Some key_id; signed_at := Some at' |}.

Definition verify_local_authority_payload (payload : list (pystr * json)) (i : integrity) (m : material) (purpose : pystr)
    : PolicyIntegrityVerificationResult :=
  let stored_payload_hash := string_or_none (payload_hash i) in
  let stored_key_id := string_or_none (integrity_key_id i) in
  let answer s h msg := {| status := s; vr_payload_hash := h; vr_key_id := stored_key_id; message := Some msg |} in
  match integrity_version i, stored_payload_hash, string_or_none (payload_mac i), stored_key_id,
        string_or_none (signed_at i) with
  | Some version, Some hash, Some mac, Some stored_id, Some at' =>
      if negb (version =? LOCAL_AUTHORITY_INTEGRITY_VERSION) then
        answer tampered stored_payload_hash ($"local_authority_integrity_version_unsupported")
      else
        match m with
        | None => answer unknown_key stored_payload_hash ($"local_authority_integrity_key_unavailable")
        | Some (key, key_id) =>
            if negb (bool_decide (stored_id = key_id)) then
              answer unknown_key stored_payload_hash ($"local_authority_integrity_key_unavailable")
            else
              let canonical_payload := canonical_local_authority_payload payload purpose at' version in
              let computed_hash := sha256_hex canonical_payload in
              if negb (bool_decide (hash = computed_hash)) then
                answer tampered (Some computed_hash) ($"local_authority_integrity_payload_hash_mismatch")
              else if negb (bool_decide (mac = hmac_sha256_hex (purpose_key key purpose) canonical_payload)) then
                answer tampered (Some computed_hash) ($"local_authority_integrity_mac_mismatch")
              else answer valid (Some computed_hash) LOCAL_AUTHORITY_INTEGRITY_MAC_ALGORITHM
        end
  | _, _, _, _, _ => answer missing_integrity stored_payload_hash ($"local_authority_integrity_metadata_missing")
  end.

(** ** One-shot approvals *)

Definition LOCAL_ONCE_INTEGRITY_PURPOSE : pystr := $"guard-local-once-approval".
Definition LOCAL_ONCE_LEGACY_AUTHORITY_KIND : pystr := $"legacy".
Definition EXACT_CLOUD_AUTHORITY_KIND : pystr := $"exact-cloud".
Definition EXACT_CLOUD_INTEGRITY_PURPOSE : pystr := $"guard-exact-cloud-local-once-v1".
Definition local_once_integrity_purpose (authority_kind : option pystr) : pystr :=
  if bool_decide (authority_kind = Some EXACT_CLOUD_AUTHORITY_KIND) then EXACT_CLOUD_INTEGRITY_PURPOSE
  else LOCAL_ONCE_INTEGRITY_PURPOSE.

(** A row of [guard_local_once_approvals]. *)
Record local_row := {
  lo_approval_id : pystr;
  lo_request_id : pystr;
  lo_harness : pystr;
  lo_artifact_id : pystr;
  lo_artifact_hash : pystr;
  lo_workspace : option pystr;
  lo_publisher : option pystr;
  lo_action : pystr;
  lo_created_at : pystr;
  lo_expires_at : pystr;
  lo_claimed_at : option pystr;
  lo_integrity : integrity;
  lo_authority_kind : option pystr;
}.
Global Instance local_row_eq_dec : EqDecision local_row.
Proof. solve_decision. Defined.

Definition local_once_approval_signed_payload (r : local_row) : list (pystr * json) :=
  [($"approval_id", JStr (lo_approval_id r)); ($"request_id", JStr (lo_request_id r)); ($"harness", JStr (lo_harness r));
   ($"artifact_id", JStr (lo_artifact_id r)); ($"artifact_hash", JStr (lo_artifact_hash r));
   ($"workspace", jtext (lo_workspace r)); ($"publisher", jtext (lo_publisher r)); ($"action", JStr (lo_action r));
   ($"created_at", JStr (lo_created_at r)); ($"expires_at", JStr (lo_expires_at r));
   ($"claimed_at", jtext (lo_claimed_at r))]
  ++ match lo_authority_kind r with Some k => [($"authority_kind", JStr k)] | None => [] end.
Definition verify_local_once_approval (r : local_row) (m : material) : PolicyIntegrityVerificationResult :=
  verify_local_authority_payload (local_once_approval_signed_payload r) (lo_integrity r) m
    (local_once_integrity_purpose (lo_authority_kind r)).
Definition local_once_approval_integrity_failure (r : local_row) (v : PolicyIntegrityVerificationResult) : pydict :=
  [($"approval_id", PStr (lo_approval_id r)); ($"decision_id", PNone); ($"harness", PStr (lo_harness r));
   ($"artifact_id", PStr (lo_artifact_id r)); ($"scope", PStr ($"artifact")); ($"source", PStr ($"approval-gate-once"));
   ($"integrity_status", PStr (status_text (status v))); ($"integrity_message", ptext (message v))].
Definition local_once_approval_payload (r : local_row) : pydict :=
  [($"action", PStr (lo_action r)); ($"approval_id", PStr (lo_approval_id r));
   ($"artifact_hash", PStr (lo_artifact_hash r)); ($"artifact_id", PStr (lo_artifact_id r)); ($"decision_id", PNone);
   ($"expires_at", PStr (lo_expires_at r)); ($"harness", PStr (lo_harness r));
   ($"integrity_key_id", ptext (integrity_key_id (lo_integrity r))); ($"integrity_status", PStr ($"valid"));
   ($"integrity_version", pint (integrity_version (lo_integrity r))); ($"owner", PNone);
   ($"publisher", ptext (lo_publisher r)); ($"reason", PStr ($"approved once in review"));
   ($"request_id", PStr (lo_request_id r)); ($"scope", PStr ($"artifact")); ($"source", PStr ($"approval-gate-once"));
   ($"signed_at", ptext (signed_at (lo_integrity r))); ($"updated_at", PStr (lo_created_at r));
   ($"workspace", ptext (lo_workspace r))]
  ++ match lo_authority_kind r with Some k => [($"authority_kind", PStr k)] | None => [] end.

(** ** Policy rows *)

Definition POLICY_INTEGRITY_VERSION : Z := 2.
Definition LEGACY_POLICY_INTEGRITY_VERSION : Z := 1.
Definition REMOTE_POLICY_SOURCES : list pystr :=
  [$"cloud-sync"; $"team-policy"; $"policy-bundle"; $"policy-bundle-canonical"; $"cloud-signed-memory"].
Definition is_remote_policy_source (source : pystr) : bool := bool_decide (source ∈ REMOTE_POLICY_SOURCES).

(** A row of [policy_decisions]. *)
Record policy_row := {
  pr_decision_id : Z;
  pr_harness : pystr;
  pr_scope : pystr;
  pr_artifact_id : option pystr;
  pr_action : pystr;
  pr_artifact_hash : option pystr;
  pr_workspace : option pystr;
  pr_publisher : option pystr;
  pr_source : pystr;
  pr_reason : option pystr;
  pr_owner : option pystr;
  pr_expires_at : option pystr;
  pr_updated_at : pystr;
  pr_integrity : integrity;
  pr_integrity_generation : option Z;
}.

Definition canonical_policy_payload (r : policy_row) (generation : option Z) (version : Z) : list Z :=
  let text (o : option pystr) := jtext (string_or_none o) in
  utf8 (dumps (JObj (
    [($"action", text (Some (pr_action r))); ($"artifact_hash", text (pr_artifact_hash r));
     ($"artifact_id", text (pr_artifact_id r)); ($"expires_at", text (pr_expires_at r));
     ($"harness", text (Some (pr_harness r))); ($"integrity_version", JInt version);
     ($"publisher", text (pr_publisher r)); ($"scope", text (Some (pr_scope r))); ($"source", text (Some (pr_source r)));
     ($"updated_at", text (Some (pr_updated_at r))); ($"workspace", text (pr_workspace r))]
    ++ if version =? POLICY_INTEGRITY_VERSION then
         [($"decision_id", JInt (pr_decision_id r)); ($"integrity_generation", jint generation);
          ($"owner", text (pr_owner r)); ($"reason", text (pr_reason r))]
       else []))).

(** The row with its signature of the generation. *)
Definition sign_local_policy_row (r : policy_row) (key : list Z) (key_id at' : pystr) (generation : Z) : policy_row :=
  let payload := canonical_policy_payload r (Some generation) POLICY_INTEGRITY_VERSION in
  {| pr_decision_id := pr_decision_id r; pr_harness := pr_harness r; pr_scope := pr_scope r;
     pr_artifact_id := pr_artifact_id r; pr_action := pr_action r; pr_artifact_hash := pr_artifact_hash r;
     pr_workspace := pr_workspace r; pr_publisher := pr_publisher r; pr_source := pr_source r; pr_reason := pr_reason r;
     pr_owner := pr_owner r; pr_expires_at := pr_expires_at r; pr_updated_at := pr_updated_at r;
     pr_integrity := {| integrity_version := Some POLICY_INTEGRITY_VERSION; payload_hash := Some (sha256_hex payload);
                        payload_mac := Some (hmac_sha256_hex key payload); integrity_key_id := Some key_id;
                        signed_at := Some at' |};
     pr_integrity_generation := Some generation |}.

(** [hmac.compare_digest] of two texts *)
Definition compare_digest (a b : pystr) : result bool :=
  raise_if (negb (is_ascii a && is_ascii b)) (TypeError "comparing strings with non-ASCII characters is not supported") ;;
  Ok (bool_decide (a = b)).

Definition verify_local_policy_row (r : policy_row) (m : material) (degraded : bool) (trusted_generation : option Z)
    : result PolicyIntegrityVerificationResult :=
  let i := pr_integrity r in
  let stored_key_id := string_or_none (integrity_key_id i) in
  let stored_payload_hash := string_or_none (payload_hash i) in
  let answer s h msg := Ok {| status := s; vr_payload_hash := h; vr_key_id := stored_key_id; message := Some msg |} in
  if degraded then answer degraded_mode stored_payload_hash ($"policy_integrity_backend_unavailable")
  else
    match integrity_version i, stored_key_id, stored_payload_hash, string_or_none (payload_mac i),
          string_or_none (signed_at i) with
    | Some version, Some stored_id, Some hash, Some mac, Some _ =>
        if negb ((version =? LEGACY_POLICY_INTEGRITY_VERSION) || (version =? POLICY_INTEGRITY_VERSION)) then
          answer tampered stored_payload_hash ($"policy_integrity_version_unsupported")
        else
          match m with
          | None => answer unknown_key stored_payload_hash ($"policy_integrity_key_unavailable")
          | Some (key, key_id) =>
              if negb (bool_decide (stored_id = key_id)) then
                answer unknown_key stored_payload_hash ($"policy_integrity_key_unavailable")
              else
                let payload := canonical_policy_payload r (pr_integrity_generation r) version in
                let computed_hash := sha256_hex payload in
                equal_hash ← compare_digest hash computed_hash ;
                if negb equal_hash then
                  answer tampered (Some computed_hash) ($"policy_integrity_payload_hash_mismatch")
                else
                equal_mac ← compare_digest mac (hmac_sha256_hex key payload) ;
                if negb equal_mac then
                  answer tampered (Some computed_hash) ($"policy_integrity_mac_mismatch")
                else if (version =? POLICY_INTEGRITY_VERSION)
                        && match trusted_generation with
                           | Some g => negb (bool_decide (pr_integrity_generation r = Some g))
                           | None => false
                           end
                then answer rollback_detected (Some computed_hash) ($"policy_integrity_generation_rollback")
                else answer valid (Some computed_hash) ($"hmac-sha256")
          end
    | _, _, _, _, _ => answer missing_integrity stored_payload_hash ($"policy_integrity_metadata_missing")
    end.

(** [_policy_integrity_result_for_row]; the mode is protected or not. *)
Definition policy_integrity_result_for_row (r : policy_row) (protected_mode : bool) (m : material)
    (trusted_generation : option Z) : result PolicyIntegrityVerificationResult :=
  if is_remote_policy_source (pr_source r) then
    Ok {| status := valid; vr_payload_hash := None; vr_key_id := None; message := None |}
  else verify_local_policy_row r m (negb protected_mode) trusted_generation.

(** [_policy_row_payload]; [state] is the mode and the enforcement of the
    integrity state. *)
Definition policy_row_payload (r : policy_row) (v : PolicyIntegrityVerificationResult) (state : option (pystr * pystr))
    : pydict :=
  let remote := is_remote_policy_source (pr_source r) in
  let column (k : pystr) (o : option pyval) : pydict := match o with Some v => [(k, v)] | None => [] end in
  [($"action", PStr (pr_action r)); ($"artifact_hash", ptext (pr_artifact_hash r));
   ($"artifact_id", ptext (pr_artifact_id r)); ($"decision_id", PInt (pr_decision_id r));
   ($"expires_at", ptext (pr_expires_at r)); ($"harness", PStr (pr_harness r)); ($"owner", ptext (pr_owner r));
   ($"publisher", ptext (pr_publisher r)); ($"reason", ptext (pr_reason r)); ($"scope", PStr (pr_scope r));
   ($"source", PStr (pr_source r)); ($"updated_at", PStr (pr_updated_at r)); ($"workspace", ptext (pr_workspace r))]
  ++ (if remote then []
      else [($"integrity_status", PStr (status_text (status v))); ($"integrity_message", ptext (message v))]
           ++ match state with
              | Some (mode, enforcement) => [($"integrity_mode", PStr mode); ($"integrity_enforcement", PStr enforcement)]
              | None => []
              end)
  ++ column ($"integrity_version") (PInt <$> integrity_version (pr_integrity r))
  ++ column ($"integrity_generation") (PInt <$> pr_integrity_generation r)
  ++ column ($"integrity_key_id") (PStr <$> integrity_key_id (pr_integrity r))
  ++ column ($"signed_at") (PStr <$> signed_at (pr_integrity r)).

End LocalAuthority.
