(* ===== verification/SavedApprovals.v ===== *)
(** * The store of saved approvals

    Models [store_event_receipts.py] (one-shot approvals),
    [store_exact_cloud_local_once.py], the claiming of saved decisions in
    [store_policy.py] ([approval_reuse_claim_disposition],
    [claim_approval_reuse_decisions]) and [native_review_claimed_allow] of
    [daemon/hook_native_review_binding.py].

    [authority_db] is what the database holds: the approvals, the policy rows,
    the revision its triggers count, and the events.  Each call is one
    transaction, a function on it.  [julianday] is SQLite's function, whose
    value on a text it cannot read is null; the order of [approvals] is the
    order in which the engine visits rows.  The key of the store, [uuid4], the
    clock, the integrity state of the policy rows and the decisions of the
    signed bundle are arguments. *)

From S2P Require Import Prelude PyStr Sha256 PyVal PyJson AsciiJson PyTime LocalAuthority.
Local Open Scope Z_scope.
Local Open Scope py_scope.

Module SavedApprovals.
Import Json LocalAuthority.

Record authority_db := {
  approvals : list local_row;
  policies : list policy_row;
  revision : option Z;
  events : list (pystr * json * pystr);
}.

(** [_approval_authority_revision] *)
Definition approval_authority_revision (db : authority_db) : Z := default (-1) (revision db).

(** A changed row of either table, with its trigger. *)
Definition set_approvals (l : list local_row) (db : authority_db) : authority_db :=
  {| approvals := l; policies := policies db; revision := Z.succ <$> revision db; events := events db |}.
Definition set_policies (l : list policy_row) (db : authority_db) : authority_db :=
  {| approvals := approvals db; policies := l; revision := Z.succ <$> revision db; events := events db |}.
Definition add_event (name : pystr) (payload : json) (at' : pystr) (db : authority_db) : authority_db :=
  {| approvals := approvals db; policies := policies db; revision := revision db;
     events := events db ++ [(name, payload, at')] |}.

(** ** Timestamps and workspaces *)

Section store.
Context `{PyUnicode, PyIsoFormat}.
Variable julianday : pystr → option Z.

Definition parse_utc_timestamp (value : pystr) : result Z :=
  let candidate := strip value in
  raise_if (bool_decide (candidate = [])) (ValueError "timestamp must not be empty") ;;
  match fromisoformat (replace_Z candidate) with
  | None => Raise (ValueError "Invalid isoformat string")
  | Some d =>
      let t := local_us d - default 0 (utcoffset_us d) in
      raise_if (negb (in_datetime_range t)) (RuntimeError "OverflowError: date value out of range") ;;
      Ok t
  end.
Definition canonical_utc_timestamp (value : pystr) : result pystr :=
  t ← parse_utc_timestamp value ; Ok (isoformat_utc t).
(** [_timestamp_has_expired]; only [ValueError] is caught. *)
Definition timestamp_has_expired (expires_at now : pystr) : result bool :=
  match (e ← parse_utc_timestamp expires_at ; n ← parse_utc_timestamp now ; Ok (e <=? n)) with
  | Raise (ValueError _) => Ok true
  | r => r
  end.

(** [julianday(expires_at) > julianday(now)] *)
Definition unexpired (expires_at now : pystr) : bool :=
  match julianday expires_at, julianday now with Some e, Some n => n <? e | _, _ => false end.

Definition WORKSPACE_POLICY_KEY_PREFIX : pystr := $"workspace:".
Fixpoint drop_slashes (s : pystr) : pystr :=
  match s with 47 :: ((_ :: _) as s') => drop_slashes s' | _ => s end.
Definition normalized_workspace_path (value : pystr) : pystr :=
  let normalized := (λ c : Z, if c =? 92 then 47 else c) <$> (strip value : list Z) in
  let normalized := reverse (drop_slashes (reverse normalized)) in
  match normalized with _ :: 58 :: _ => py_lower normalized | _ => normalized end.
(** [_workspace_policy_key] *)
Definition workspace_policy_key (workspace : option pystr) : option pystr :=
  w ← workspace ;
  if bool_decide (strip w = []) then None
  else Some (WORKSPACE_POLICY_KEY_PREFIX ++ sha256_hex (utf8 (normalized_workspace_path w))).

(** ** Recording *)

Record once_approval := {
  oa_request_id : pystr;
  oa_harness : pystr;
  oa_artifact_id : option pystr;
  oa_artifact_hash : option pystr;
  oa_workspace : option pystr;
  oa_publisher : option pystr;
  oa_action : pystr;
  oa_created_at : pystr;
  oa_expires_at : pystr;
}.

(** The texts of a row, which SQLite binds as UTF-8. *)
Definition row_texts (r : local_row) : list pystr :=
  [lo_approval_id r; lo_request_id r; lo_harness r; lo_artifact_id r; lo_artifact_hash r; lo_action r; lo_created_at r;
   lo_expires_at r]
  ++ omap id [lo_workspace r; lo_publisher r; lo_claimed_at r; lo_authority_kind r; payload_hash (lo_integrity r);
              payload_mac (lo_integrity r); integrity_key_id (lo_integrity r); signed_at (lo_integrity r)].
(** The insertion: the primary key is unique, and texts must be encodable. *)
Definition insert_approval (r : local_row) (db : authority_db) : result authority_db :=
  raise_if (negb (forallb (forallb scalar) (row_texts r))) (ValueError "UnicodeEncodeError") ;;
  raise_if (bool_decide (lo_approval_id r ∈ lo_approval_id <$> approvals db)) (RuntimeError "IntegrityError") ;;
  Ok (set_approvals (approvals db ++ [r]) db).

Definition with_integrity (i : integrity) (claimed_at : option pystr) (r : local_row) : local_row :=
  {| lo_approval_id := lo_approval_id r; lo_request_id := lo_request_id r; lo_harness := lo_harness r;
     lo_artifact_id := lo_artifact_id r; lo_artifact_hash := lo_artifact_hash r; lo_workspace := lo_workspace r;
     lo_publisher := lo_publisher r; lo_action := lo_action r; lo_created_at := lo_created_at r;
     lo_expires_at := lo_expires_at r; lo_claimed_at := claimed_at; lo_integrity := i;
     lo_authority_kind := lo_authority_kind r |}.
Definition unsigned : integrity :=
  {| integrity_version := None; payload_hash := None; payload_mac := None; integrity_key_id := None; signed_at := None |}.
(** The row signed as unclaimed, or as claimed, at a time. *)
Definition signed_row (key : list Z) (key_id : pystr) (claimed_at : option pystr) (at' : pystr) (r : local_row) : local_row :=
  with_integrity
    (sign_local_authority_payload (local_once_approval_signed_payload (with_integrity unsigned claimed_at r)) key key_id
       (local_once_integrity_purpose (lo_authority_kind r)) at') claimed_at r.

(** The row of an approval, before it is signed. *)
Definition approval_row (a : once_approval) (approval_id artifact_id artifact_hash created_at expires_at authority_kind : pystr)
    : local_row :=
  {| lo_approval_id := approval_id; lo_request_id := oa_request_id a; lo_harness := oa_harness a;
     lo_artifact_id := artifact_id; lo_artifact_hash := artifact_hash;
     lo_workspace := workspace_policy_key (oa_workspace a); lo_publisher := oa_publisher a; lo_action := oa_action a;
     lo_created_at := created_at; lo_expires_at := expires_at; lo_claimed_at := None; lo_integrity := unsigned;
     lo_authority_kind := Some authority_kind |}.
(** [persist_local_once_approval]; [approval_id] is the hexadecimal of [uuid4]. *)
Definition persist_local_once_approval (a : once_approval) (approval_id : pystr) (key : list Z) (key_id : pystr)
    (authority_kind : pystr) (db : authority_db) : result (option pystr * authority_db) :=
  match string_or_none (oa_artifact_id a), string_or_none (oa_artifact_hash a) with
  | Some artifact_id, Some artifact_hash =>
      raise_if (negb (bool_decide (authority_kind ∈ [LOCAL_ONCE_LEGACY_AUTHORITY_KIND; EXACT_CLOUD_AUTHORITY_KIND])))
        (ValueError "local approval authority kind is unsupported") ;;
      created_at ← canonical_utc_timestamp (oa_created_at a) ;
      expires_at ← canonical_utc_timestamp (oa_expires_at a) ;
      expired ← timestamp_has_expired expires_at created_at ;
      raise_if expired (ValueError "local approval expiry must be after its creation time") ;;
      let row := approval_row a approval_id artifact_id artifact_hash created_at expires_at authority_kind in
      db' ← insert_approval (signed_row key key_id None created_at row) db ;
      Ok (Some approval_id, db')
  | _, _ => Ok (None, db)
  end.
(** [record_local_once_approval] *)
Definition record_local_once_approval (a : once_approval) (approval_id : pystr) (m : material) (db : authority_db)
    : result (option pystr * authority_db) :=
  match m with
  | None => Ok (None, db)
  | Some (key, key_id) => persist_local_once_approval a approval_id key key_id LOCAL_ONCE_LEGACY_AUTHORITY_KIND db
  end.

(** ** Looking up *)

(** The first row, in the engine's order, of those no other precedes. *)
Definition first_by {A} (before : A → A → bool) (l : list A) : option A :=
  foldr (λ x best, match best with Some y => if before y x then Some y else Some x | None => Some x end) None l.

Record lookup := {
  lk_harness : pystr;
  lk_artifact_id : option pystr;
  lk_artifact_hash : option pystr;
  lk_workspace : option pystr;
  lk_publisher : option pystr;
}.

Definition null_or_equal (column value : option pystr) : bool :=
  match column with None => true | Some c => bool_decide (value = Some c) end.
Definition peek_matches (k : lookup) (artifact_id artifact_hash now : pystr) (r : local_row) : bool :=
  bool_decide (lo_claimed_at r = None) && bool_decide (lo_harness r = lk_harness k)
  && bool_decide (lo_artifact_id r = artifact_id) && bool_decide (lo_artifact_hash r = artifact_hash)
  && unexpired (lo_expires_at r) now
  && null_or_equal (lo_workspace r) (workspace_policy_key (lk_workspace k))
  && null_or_equal (lo_publisher r) (lk_publisher k)
  && null_or_equal (lo_authority_kind r) (Some LOCAL_ONCE_LEGACY_AUTHORITY_KIND).

Definition later_created (a b : local_row) : bool := py_ltb (lo_created_at b) (lo_created_at a).

(** [_peek_local_once_approval_lookup_locked]: the decision, or the failure to
    report. *)
Definition peek_local_once_approval_lookup (k : lookup) (now : pystr) (m : material) (db : authority_db)
    : option pydict * option pydict :=
  match string_or_none (lk_artifact_id k), string_or_none (lk_artifact_hash k) with
  | Some artifact_id, Some artifact_hash =>
      match first_by later_created (filter (λ r, peek_matches k artifact_id artifact_hash now r = true) (approvals db)) with
      | None => (None, None)
      | Some row =>
          let v := verify_local_once_approval row m in
          if negb (bool_decide (status v = valid)) then (None, Some (local_once_approval_integrity_failure row v))
          else if bool_decide (lo_authority_kind row = None) then
            (None, Some (dict_set ($"integrity_message") (PStr ($"legacy_local_once_provenance_unknown"))
                     (dict_set ($"integrity_status") (PStr ($"ambiguous_legacy")) (local_once_approval_integrity_failure row v))))
          else (Some (local_once_approval_payload row), None)
      end
  | _, _ => (None, None)
  end.
(** [peek_local_once_approval] *)
Definition peek_local_once_approval (k : lookup) (now : pystr) (m : material) (db : authority_db) : option pydict :=
  fst (peek_local_once_approval_lookup k now m db).

(** ** Claiming one approval *)

Definition identity_keys : list pystr :=
  [$"action"; $"approval_id"; $"artifact_hash"; $"artifact_id"; $"expires_at"; $"harness"; $"integrity_key_id";
   $"integrity_status"; $"integrity_version"; $"publisher"; $"request_id"; $"source"; $"signed_at"; $"updated_at";
   $"workspace"; $"authority_kind"].
Definition same_under (keys : list pystr) (a b : pydict) : bool :=
  forallb (λ k, py_eqb (dict_get k a) (dict_get k b)) keys.

Definition update_approval (approval_id : pystr) (f : local_row → local_row) (l : list local_row) : list local_row :=
  (λ r, if bool_decide (lo_approval_id r = approval_id ∧ lo_claimed_at r = None) then f r else r) <$> l.

(** [_claim_local_once_approval_by_id_locked] *)
Definition claim_local_once_approval_by_id (approval_id now : pystr) (expected : option pydict) (m : material)
    (consume : bool) (authority_kind : pystr) (db : authority_db) : result (option pydict * authority_db) :=
  now ← canonical_utc_timestamp now ;
  let rows := filter (λ r, lo_approval_id r = approval_id ∧ lo_claimed_at r = None ∧ unexpired (lo_expires_at r) now = true)
                (approvals db) in
  match rows with
  | [] => Ok (None, db)
  | row :: _ =>
      if negb (bool_decide (lo_authority_kind row = Some authority_kind)) then Ok (None, db)
      else if negb (bool_decide (status (verify_local_once_approval row m) = valid)) then Ok (None, db)
      else
        match m with
        | None => Ok (None, db)
        | Some (key, key_id) =>
            let decision := local_once_approval_payload row in
            if match expected with Some e => negb (same_under identity_keys decision e) | None => false end
            then Ok (None, db)
            else if negb consume then Ok (Some decision, db)
            else Ok (Some decision,
                     set_approvals (update_approval approval_id (signed_row key key_id (Some now) now) (approvals db)) db)
        end
  end.

Definition local_once_approval_is_reusable (artifact_id : pystr) : bool := contains ($":package-request:") artifact_id.

(** [_claim_local_once_approval_locked] *)
Definition claim_local_once_approval_locked (k : lookup) (now : pystr) (m : material) (db : authority_db)
    : result (option pydict * authority_db) :=
  match peek_local_once_approval k now m db with
  | None => Ok (None, db)
  | Some decision =>
      let reusable := match dict_get ($"artifact_id") decision with
                      | PStr a => local_once_approval_is_reusable a
                      | _ => false
                      end in
      if reusable then Ok (Some decision, db)
      else match dict_get ($"approval_id") decision with
           | PStr approval_id =>
               claim_local_once_approval_by_id approval_id now None m true LOCAL_ONCE_LEGACY_AUTHORITY_KIND db
           | _ => Ok (None, db)
           end
  end.

Definition json_of_text (v : pyval) : json := match v with PStr s => JStr s | _ => JNull end.
Definition applied_event (decision : pydict) : json :=
  JObj ((λ k, (k, json_of_text (dict_get k decision))) <$> [$"approval_id"; $"request_id"; $"harness"; $"artifact_id"]).

(** [claim_local_once_approval] *)
Definition claim_local_once_approval (approval_id claimed_at : pystr) (expected : option pydict) (m : material)
    (db : authority_db) : result (bool * authority_db) :=
  '(decision, db') ← claim_local_once_approval_by_id approval_id claimed_at expected m true
                       LOCAL_ONCE_LEGACY_AUTHORITY_KIND db ;
  match decision with
  | None => Ok (false, db)
  | Some d => Ok (true, add_event ($"approval.local_once_applied") (applied_event d) claimed_at db')
  end.

(** ** Exact Cloud authority *)

(** [v == s] *)
Definition is_text (v : pyval) (s : pystr) : bool := py_eqb v (PStr s).
Definition nonempty_text (v : pyval) : option pystr := match v with PStr (c :: s) => Some (c :: s) | _ => None end.

Record bindings := {
  bd_request_id : pystr;
  bd_harness : pystr;
  bd_artifact_id : pystr;
  bd_artifact_hash : pystr;
  bd_workspace : option pystr;
  bd_publisher : option pystr;
}.
(** [_request_bindings], of the approval request loaded. *)
Definition request_bindings (request : pydict) : option bindings :=
  let has k (v : pystr) := is_text (dict_get k request) v in
  if negb (has ($"status") ($"resolved")) || negb (has ($"resolution_action") ($"allow")) then None
  else if negb (has ($"resolution_scope") ($"artifact")) then None
  else if negb (has ($"policy_action") ($"review") || has ($"policy_action") ($"require-reapproval")) then None
  else
    request_id ← nonempty_text (dict_get ($"request_id") request) ;
    harness ← nonempty_text (dict_get ($"harness") request) ;
    artifact_id ← nonempty_text (dict_get ($"artifact_id") request) ;
    artifact_hash ← nonempty_text (dict_get ($"artifact_hash") request) ;
    Some {| bd_request_id := request_id; bd_harness := harness; bd_artifact_id := artifact_id;
            bd_artifact_hash := artifact_hash;
            bd_workspace := workspace_policy_key (nonempty_text (dict_get ($"workspace") request));
            bd_publisher := nonempty_text (dict_get ($"publisher") request) |}.

Definition exact_matches (b : bindings) (now : pystr) (r : local_row) : bool :=
  bool_decide (lo_authority_kind r = Some EXACT_CLOUD_AUTHORITY_KIND)
  && bool_decide (lo_request_id r = bd_request_id b) && bool_decide (lo_harness r = bd_harness b)
  && bool_decide (lo_artifact_id r = bd_artifact_id b) && bool_decide (lo_artifact_hash r = bd_artifact_hash b)
  && bool_decide (lo_claimed_at r = None) && unexpired (lo_expires_at r) now
  && bool_decide (lo_workspace r = bd_workspace b) && bool_decide (lo_publisher r = bd_publisher b).
Definition later_created_then_id (a b : local_row) : bool :=
  py_ltb (lo_created_at b) (lo_created_at a)
  || bool_decide (lo_created_at a = lo_created_at b) && py_ltb (lo_approval_id b) (lo_approval_id a).
(** [_exact_row_locked] *)
Definition exact_row (b : bindings) (now : pystr) (db : authority_db) : result (option local_row) :=
  now ← canonical_utc_timestamp now ;
  Ok (first_by later_created_then_id (filter (λ r, exact_matches b now r = true) (approvals db))).
(** [_verified_decision] *)
Definition verified_decision (row : option local_row) (m : material) (authority_revision : Z) : option pydict :=
  r ← row ;
  if bool_decide (status (verify_local_once_approval r m) = valid) then
    Some (dict_set ($"_approval_authority_revision") (PInt authority_revision) (local_once_approval_payload r))
  else None.

(** [peek_exact_cloud_local_once_approval]: [request] is the approval request
    loaded, if there is one. *)
Definition peek_exact_cloud_local_once_approval (request : option pydict) (now : pystr) (m : material) (db : authority_db)
    : result (option pydict) :=
  match m, request ≫= request_bindings with
  | Some _, Some b =>
      row ← exact_row b now db ; Ok (verified_decision row m (approval_authority_revision db))
  | _, _ => Ok None
  end.
(** [claim_exact_cloud_local_once_approval_locked] *)
Definition claim_exact_cloud_local_once_approval_locked (request : option pydict) (expected : pydict) (now : pystr)
    (m : material) (db : authority_db) : result (option pydict * authority_db) :=
  match request ≫= request_bindings with
  | None => Ok (None, db)
  | Some b =>
      row ← exact_row b now db ;
      match verified_decision row m (approval_authority_revision db) with
      | None => Ok (None, db)
      | Some decision =>
          match dict_get ($"approval_id") decision with
          | PStr approval_id =>
              claim_local_once_approval_by_id approval_id now (Some expected) m true EXACT_CLOUD_AUTHORITY_KIND db
          | _ => Ok (None, db)
          end
      end
  end.

(** ** Claiming the decisions of a launch *)

Inductive claim_disposition := consumed | retained.
Global Instance claim_disposition_eq_dec : EqDecision claim_disposition.
Proof. solve_decision. Defined.

Definition APPROVAL_GATE_POLICY_SOURCE : pystr := $"approval-gate".
Definition is_action_allow (d : pydict) : bool := is_text (dict_get ($"action") d) ($"allow").
Definition approval_reuse_claim_disposition (d : pydict) : option claim_disposition :=
  if negb (is_action_allow d) then None
  else
    match nonempty_text (dict_get ($"approval_id") d) with
    | Some _ =>
        artifact_id ← nonempty_text (dict_get ($"artifact_id") d) ;
        Some (if local_once_approval_is_reusable artifact_id then retained else consumed)
    | None =>
        match dict_get ($"decision_id") d with
        | PInt _ =>
            if is_text (dict_get ($"source") d) APPROVAL_GATE_POLICY_SOURCE
               && match dict_get ($"expires_at") d with PNone => false | _ => true end
            then Some consumed else Some retained
        | _ => None
        end
    end.

(** What [_refresh_policy_integrity_state] and the key store answer for a local
    row. *)
Record integrity_reading := {
  ir_mode : pystr;
  ir_enforcement : pystr;
  ir_generation : option Z;
  ir_material : material;
}.

(** The columns of [_materialized_policy_bundle_row_identity]. *)
Record row_identity := {
  id_harness : pystr; id_scope : pystr; id_artifact_id : option pystr; id_artifact_hash : option pystr;
  id_workspace : option pystr; id_publisher : option pystr; id_action : pystr; id_reason : option pystr;
  id_owner : option pystr; id_source : pystr; id_expires_at : option pystr;
}.
Global Instance row_identity_eq_dec : EqDecision row_identity.
Proof. solve_decision. Defined.
Definition materialized_policy_bundle_row_identity (r : policy_row) : row_identity :=
  {| id_harness := pr_harness r; id_scope := pr_scope r; id_artifact_id := pr_artifact_id r;
     id_artifact_hash := pr_artifact_hash r; id_workspace := pr_workspace r; id_publisher := pr_publisher r;
     id_action := pr_action r; id_reason := pr_reason r; id_owner := pr_owner r; id_source := pr_source r;
     id_expires_at := pr_expires_at r |}.

Definition policy_identity_keys : list pystr :=
  [$"action"; $"artifact_hash"; $"artifact_id"; $"decision_id"; $"expires_at"; $"harness"; $"integrity_enforcement";
   $"integrity_generation"; $"integrity_key_id"; $"integrity_mode"; $"integrity_status"; $"integrity_version"; $"owner";
   $"publisher"; $"reason"; $"signed_at"; $"scope"; $"source"; $"updated_at"; $"workspace"].

(** The conditions on the policy row of a decision, with the payload it has
    now; [None] refuses. *)
Definition policy_row_claimable (d : pydict) (r : policy_row) (bundle : option (list row_identity))
    (reading : policy_row → integrity_reading) : result (option pydict) :=
  if bool_decide (pr_source r ∈ [$"cloud-sync"; $"team-policy"]) then Ok None
  else if bool_decide (pr_source r = $"policy-bundle")
          && match bundle with
             | Some ids => negb (bool_decide (materialized_policy_bundle_row_identity r ∈ ids))
             | None => true
             end
  then Ok None
  else
    let remote := is_remote_policy_source (pr_source r) in
    let ir := reading r in
    v ← (if remote then policy_integrity_result_for_row r true None None
         else policy_integrity_result_for_row r (bool_decide (ir_mode ir = $"protected")) (ir_material ir) (ir_generation ir)) ;
    if negb (bool_decide (status v = valid)) then Ok None
    else
      let payload := policy_row_payload r v (if remote then None else Some (ir_mode ir, ir_enforcement ir)) in
      Ok (if same_under policy_identity_keys payload d then Some payload else None).

(** [_claim_approval_reuse_decision_locked]; [None] refuses. *)
Definition claim_approval_reuse_decision_locked (d : pydict) (current_time : pystr) (m : material)
    (bundle : option (list row_identity)) (reading : policy_row → integrity_reading) (db : authority_db)
    : result (option authority_db) :=
  match nonempty_text (dict_get ($"approval_id") d) with
  | Some approval_id =>
      if negb (is_text (dict_get ($"authority_kind") d) LOCAL_ONCE_LEGACY_AUTHORITY_KIND) then Ok None
      else
        match approval_reuse_claim_disposition d with
        | None => Ok None
        | Some disposition =>
            '(claimed, db') ← claim_local_once_approval_by_id approval_id current_time (Some d) m
                                (bool_decide (disposition = consumed)) LOCAL_ONCE_LEGACY_AUTHORITY_KIND db ;
            match claimed with
            | None => Ok None
            | Some c =>
                let name := match disposition with
                            | retained => $"approval.local_once_reused"
                            | consumed => $"approval.local_once_applied"
                            end in
                Ok (Some (add_event name (applied_event c) current_time db'))
            end
        end
  | None =>
      match dict_get ($"decision_id") d with
      | PInt decision_id =>
          let live (r : policy_row) :=
            bool_decide (pr_decision_id r = decision_id) && bool_decide (pr_action r = $"allow")
            && match pr_expires_at r with None => true | Some e => unexpired e current_time end in
          match filter (λ r, live r = true) (policies db) with
          | [] => Ok None
          | r :: _ =>
              claimable ← policy_row_claimable d r bundle reading ;
              match claimable with
              | None => Ok None
              | Some payload =>
                  match approval_reuse_claim_disposition payload with
                  | None => Ok None
                  | Some disposition =>
                      let db' :=
                        match disposition with
                        | consumed =>
                            set_policies (filter (λ r, ¬ (pr_decision_id r = decision_id ∧ pr_action r = $"allow")) (policies db)) db
                        | retained => db
                        end in
                      Ok (Some (add_event ($"approval.policy_reuse_applied")
                                  (JObj [($"decision_id", JInt decision_id); ($"harness", JStr (pr_harness r));
                                         ($"artifact_id", jtext (pr_artifact_id r)); ($"scope", JStr (pr_scope r))])
                                  current_time db'))
                  end
              end
          end
      | _ => Ok None
      end
  end.

Inductive decision_key := KApproval (id : pystr) | KPolicy (id : Z).
Global Instance decision_key_eq_dec : EqDecision decision_key.
Proof. solve_decision. Defined.
Definition decision_key_of (d : pydict) : option decision_key :=
  match nonempty_text (dict_get ($"approval_id") d) with
  | Some a => Some (KApproval a)
  | None => match dict_get ($"decision_id") d with PInt n => Some (KPolicy n) | _ => None end
  end.
Definition decision_revision (d : pydict) : option Z :=
  match dict_get ($"_approval_authority_revision") d with PInt n => if n <? 0 then None else Some n | _ => None end.

(** The loop that admits the decisions: the distinct ones, in order, and their
    common revision; [None] refuses. *)
Fixpoint admit_decisions (ds : list pydict) (expected : option Z) (seen : list decision_key)
    : option (list pydict * option Z) :=
  match ds with
  | [] => Some ([], expected)
  | d :: ds =>
      if negb (is_action_allow d) then None
      else
        n ← decision_revision d ;
        expected ← match expected with
                   | None => Some n
                   | Some e => if n =? e then Some e else None
                   end ;
        k ← decision_key_of d ;
        if bool_decide (k ∈ seen) then admit_decisions ds (Some expected) seen
        else '(unique, e) ← admit_decisions ds (Some expected) (k :: seen) ; Some (d :: unique, e)
  end.

Fixpoint claim_all (ds : list pydict) (current_time : pystr) (m : material) (bundle : option (list row_identity))
    (reading : policy_row → integrity_reading) (db : authority_db) : result (option authority_db) :=
  match ds with
  | [] => Ok (Some db)
  | d :: ds =>
      db' ← claim_approval_reuse_decision_locked d current_time m bundle reading db ;
      match db' with
      | None => Ok None
      | Some db' => claim_all ds current_time m bundle reading db'
      end
  end.

(** [claim_approval_reuse_decisions]: [clock] is the instant [_now] reads,
    [identities] the decisions derived from the authorized bundle. *)
Definition claim_approval_reuse_decisions (ds : list pydict) (now : option pystr) (clock : Z) (m : material)
    (identities : list row_identity) (reading : policy_row → integrity_reading) (db : authority_db)
    : result (bool * authority_db) :=
  current_time ← canonical_utc_timestamp (default (isoformat_utc clock) (string_or_none now)) ;
  match admit_decisions ds None [] with
  | None => Ok (false, db)
  | Some ([], _) => Ok (true, db)
  | Some (unique, expected) =>
      if negb (bool_decide (expected = Some (approval_authority_revision db))) then Ok (false, db)
      else
        let from_bundle := existsb (λ d, is_text (dict_get ($"source") d) ($"policy-bundle")) unique in
        let bundle := if from_bundle then Some identities else None in
        db' ← claim_all unique current_time m bundle reading db ;
        match db' with
        | None => Ok (false, db)
        | Some db' => Ok (true, db')
        end
  end.
(** [claim_approval_reuse_decision] *)
Definition claim_approval_reuse_decision (d : pydict) := claim_approval_reuse_decisions [d].

(** ** The approval of a native request *)

(** [native_review_claimed_allow]: the database may change between the lookup
    and the claim; exceptions of the store are caught. *)
Definition native_review_claimed_allow (k : lookup) (identity : option pystr) (claimed_saved_allow_hash : pystr)
    (claimed_approval_request_id : option pystr) (claim_saved_approval : bool) (peek_now claim_now : pystr) (m : material)
    (db_peek db_claim : authority_db) : result (bool * authority_db) :=
  match identity with
  | None => Ok (false, db_claim)
  | Some identity =>
      equal ← compare_digest identity claimed_saved_allow_hash ;
      if negb equal then Ok (false, db_claim)
      else
        match peek_local_once_approval
                {| lk_harness := lk_harness k; lk_artifact_id := lk_artifact_id k; lk_artifact_hash := Some identity;
                   lk_workspace := lk_workspace k; lk_publisher := None |} peek_now m db_peek with
        | None => Ok (false, db_claim)
        | Some decision =>
            if negb (is_action_allow decision) then Ok (false, db_claim)
            else if match claimed_approval_request_id with
                    | Some r => negb (is_text (dict_get ($"request_id") decision) r)
                    | None => false
                    end then Ok (false, db_claim)
            else if negb claim_saved_approval then Ok (true, db_claim)
            else
              match dict_get ($"approval_id") decision with
              | PStr approval_id =>
                  match claim_local_once_approval approval_id claim_now (Some decision) m db_claim with
                  | Ok r => Ok r
                  | Raise _ => Ok (false, db_claim)
                  end
              | _ => Ok (false, db_claim)
              end
        end
  end.

End store.

End SavedApprovals.
