(* ===== verification/SavedApprovalsFacts.v ===== *)
(** * What saved approvals grant

    [SavedFacts] proves what the store of saved approvals promises, over
    histories of its calls: the rows a claim rests on, the effect of a batch,
    that a decision granted is one that was recorded whatever happens to the
    database between the calls ([grant_was_recorded]), that an approval is used
    up once ([approval_used_once]), that a batch is claimed together or not at
    all ([batch_claims_together]), and that of two launches decided on the same
    revision one is refused ([racing_launches_exclusive]). *)

From S2P Require Import Prelude PyStr Sha256 PyVal PyJson AsciiJson PyTime LocalAuthority SavedApprovals.
Local Open Scope Z_scope.
Local Open Scope py_scope.

Module SavedFacts.
Import Json LocalAuthority SavedApprovals.

#[local] Opaque sha256_hex hmac_sha256_hex sha256 hmac_sha256 purpose_key.

(** ** Signatures *)

(** The bytes a row's signature covers. *)
Definition row_bytes (r : local_row) : list Z :=
  canonical_local_authority_payload (local_once_approval_signed_payload r) (local_once_integrity_purpose (lo_authority_kind r))
    (default [] (signed_at (lo_integrity r))) LOCAL_AUTHORITY_INTEGRITY_VERSION.

(** What a valid row carries. *)
Lemma valid_row r m :
  status (verify_local_once_approval r m) = valid →
  ∃ key key_id at', m = Some (key, key_id)
  ∧ integrity_version (lo_integrity r) = Some LOCAL_AUTHORITY_INTEGRITY_VERSION
  ∧ integrity_key_id (lo_integrity r) = Some key_id ∧ signed_at (lo_integrity r) = Some at'
  ∧ payload_mac (lo_integrity r)
    = Some (hmac_sha256_hex (purpose_key key (local_once_integrity_purpose (lo_authority_kind r))) (row_bytes r)).
Proof.
  unfold verify_local_once_approval, verify_local_authority_payload, row_bytes. destruct (lo_integrity r) as [v h mac kid at'].
  cbn [integrity_version payload_hash payload_mac integrity_key_id signed_at]. cbv zeta.
  assert (∀ (o : option pystr) s, string_or_none o = Some s → o = Some s) as Hs by (by intros [[|]|]).
  destruct v as [v|]; [|done]. destruct (string_or_none h) eqn:E1; [|done]. destruct (string_or_none mac) as [mac'|] eqn:E2; [|done].
  destruct (string_or_none kid) as [id|] eqn:E3; [|done]. destruct (string_or_none at') as [a|] eqn:E4; [|done].
  apply Hs in E2, E3, E4. subst. destruct (v =? _) eqn:Ev; [|done]. apply Z.eqb_eq in Ev as ->. cbn [negb].
  destruct m as [[key key_id]|]; [|done]. case_bool_decide as Ek; [|done]. subst. cbn [negb default].
  case_bool_decide; [|done]. cbn [negb]. case_bool_decide as Em; [|done]. intros _. exists key, key_id, a. by rewrite Em.
Qed.

Lemma py_of_member (kv : list (pystr * json)) k :
  NoDup kv.*1 → dict_lookup k (sort_on fst (map (λ e : pystr * json, (e.1, py_of e.2)) kv)) = py_of <$> dict_lookup k kv.
Proof.
  intros Hnd. set (l := map _ kv).
  assert (l.*1 = kv.*1) as Hk by (unfold l; rewrite <- list_fmap_compose; by apply list_fmap_ext).
  assert (NoDup (dict_keys l)) as Hl by (unfold dict_keys; by rewrite Hk).
  assert (NoDup (dict_keys (sort_on fst l))) as Hs by (unfold dict_keys; by rewrite sort_on_Permutation).
  destruct (dict_lookup k kv) as [x|] eqn:E; cbn.
  - apply dict_lookup_NoDup; [done|]. apply elem_of_sort_on. apply dict_lookup_elem in E.
    apply list_elem_of_fmap. by exists (k, x).
  - apply dict_lookup_None. unfold dict_keys. rewrite sort_on_Permutation, Hk. by apply dict_lookup_None.
Qed.
(** Equal documents have equal members. *)
Lemma obj_members kv kv' k :
  NoDup kv.*1 → NoDup kv'.*1 → py_of (JObj kv) = py_of (JObj kv') →
  py_of <$> dict_lookup k kv = py_of <$> dict_lookup k kv'.
Proof. intros H1 H2 E. cbn in E. injection E as E. by rewrite <- !py_of_member, E. Qed.

Lemma dumps_inj j j' : readable j → readable j' → utf8 (dumps j) = utf8 (dumps j') → py_of j = py_of j'.
Proof.
  intros Hr Hr'. rewrite !utf8_ascii by apply dumps_is_ascii. intros E.
  pose proof (loads_dumps (λ _, PNone) j Hr) as H1. rewrite E, (loads_dumps _ _ Hr') in H1. by injection H1.
Qed.

(** Rows whose texts are what SQLite can hold. *)
Definition row_scalar (r : local_row) : Prop := forallb (forallb scalar) (row_texts r) = true.

Lemma row_scalar_texts r :
  row_scalar r →
  Forall (λ s, forallb scalar s = true)
    [lo_approval_id r; lo_request_id r; lo_harness r; lo_artifact_id r; lo_artifact_hash r; lo_action r; lo_created_at r;
     lo_expires_at r; default [] (lo_workspace r); default [] (lo_publisher r); default [] (lo_claimed_at r);
     default [] (lo_authority_kind r); default [] (signed_at (lo_integrity r))].
Proof.
  unfold row_scalar, row_texts. rewrite forallb_Forall, Forall_app. intros [H1 H2].
  repeat match goal with H : Forall _ (_ :: _) |- _ => apply Forall_cons in H as [? H] end.
  assert (∀ o, o ∈ [lo_workspace r; lo_publisher r; lo_claimed_at r; lo_authority_kind r; payload_hash (lo_integrity r);
                    payload_mac (lo_integrity r); integrity_key_id (lo_integrity r); signed_at (lo_integrity r)] →
             forallb scalar (default [] o) = true) as Ho.
  { intros [s|] Hs; [|done]. rewrite Forall_forall in H2. apply H2, list_elem_of_omap. by exists (Some s). }
  repeat (constructor; [first [assumption | apply Ho; set_solver]|]). constructor.
Qed.

(** The keys of a literal dictionary are distinct. *)
Ltac nodup_keys := refine (bool_decide_unpack _ _); vm_compute; exact I.

Lemma keys_of_signed_payload r : NoDup (local_once_approval_signed_payload r).*1.
Proof. unfold local_once_approval_signed_payload. destruct (lo_authority_kind r); nodup_keys. Qed.
Lemma jtext_readable o : forallb scalar (default [] o) = true → readable (jtext o).
Proof. by destruct o. Qed.

Lemma envelope_readable r :
  row_scalar r →
  readable (local_authority_envelope (local_once_approval_signed_payload r)
              (local_once_integrity_purpose (lo_authority_kind r)) (default [] (signed_at (lo_integrity r)))
              LOCAL_AUTHORITY_INTEGRITY_VERSION).
Proof.
  intros Hr%row_scalar_texts.
  repeat match goal with H : Forall _ (_ :: _) |- _ => apply Forall_cons in H as [? H] end.
  apply readable_obj. split; [nodup_keys|].
  repeat (apply Forall_cons_2 || apply Forall_nil_2); (split; [done|]); cbn [snd]; try done;
    [by apply int_readable | | by unfold local_once_integrity_purpose; case_bool_decide].
  apply readable_obj. split; [apply keys_of_signed_payload|]. unfold local_once_approval_signed_payload.
  apply Forall_app_2; [|destruct (lo_authority_kind r); repeat (apply Forall_cons_2 || apply Forall_nil_2); done].
  repeat (apply Forall_cons_2 || apply Forall_nil_2); (split; [done|]); cbn [snd]; first [done | by apply jtext_readable].
Qed.

Lemma py_of_text o o' : py_of (jtext o) = py_of (jtext o') → o = o'.
Proof. destruct o, o'; cbn; congruence. Qed.

Lemma envelope_members p u a v p' u' a' v' :
  py_of (local_authority_envelope p u a v) = py_of (local_authority_envelope p' u' a' v') →
  py_of (JObj p) = py_of (JObj p') ∧ a = a'.
Proof.
  unfold local_authority_envelope. intros E. split.
  - eapply (obj_members _ _ ($"payload")) in E; [|nodup_keys..].
    change (Some (py_of (JObj p)) = Some (py_of (JObj p'))) in E. exact (inj Some _ _ E).
  - eapply (obj_members _ _ ($"signed_at")) in E; [|nodup_keys..].
    change (Some (PStr a) = Some (PStr a')) in E. by injection E.
Qed.

Lemma signed_payload_inj r r' :
  py_of (JObj (local_once_approval_signed_payload r)) = py_of (JObj (local_once_approval_signed_payload r')) →
  with_integrity unsigned None r = with_integrity unsigned None r' ∧ lo_claimed_at r = lo_claimed_at r'.
Proof.
  intros E. pose proof (λ k, obj_members _ _ k (keys_of_signed_payload r) (keys_of_signed_payload r') E) as Hp. clear E.
  assert (lo_authority_kind r = lo_authority_kind r') as Hkind.
  { specialize (Hp ($"authority_kind")). unfold local_once_approval_signed_payload in Hp.
    destruct (lo_authority_kind r) as [k|], (lo_authority_kind r') as [k'|]; [|discriminate Hp|discriminate Hp|done].
    change (Some (PStr k) = Some (PStr k')) in Hp. by injection Hp as ->. }
  pose proof (Hp ($"approval_id")) as H1. change (Some (PStr (lo_approval_id r)) = Some (PStr (lo_approval_id r'))) in H1.
  pose proof (Hp ($"request_id")) as H2. change (Some (PStr (lo_request_id r)) = Some (PStr (lo_request_id r'))) in H2.
  pose proof (Hp ($"harness")) as H3. change (Some (PStr (lo_harness r)) = Some (PStr (lo_harness r'))) in H3.
  pose proof (Hp ($"artifact_id")) as H4. change (Some (PStr (lo_artifact_id r)) = Some (PStr (lo_artifact_id r'))) in H4.
  pose proof (Hp ($"artifact_hash")) as H5. change (Some (PStr (lo_artifact_hash r)) = Some (PStr (lo_artifact_hash r'))) in H5.
  pose proof (Hp ($"workspace")) as H6. change (Some (py_of (jtext (lo_workspace r))) = Some (py_of (jtext (lo_workspace r')))) in H6.
  pose proof (Hp ($"publisher")) as H7. change (Some (py_of (jtext (lo_publisher r))) = Some (py_of (jtext (lo_publisher r')))) in H7.
  pose proof (Hp ($"action")) as H8. change (Some (PStr (lo_action r)) = Some (PStr (lo_action r'))) in H8.
  pose proof (Hp ($"created_at")) as H9. change (Some (PStr (lo_created_at r)) = Some (PStr (lo_created_at r'))) in H9.
  pose proof (Hp ($"expires_at")) as H10. change (Some (PStr (lo_expires_at r)) = Some (PStr (lo_expires_at r'))) in H10.
  pose proof (Hp ($"claimed_at")) as H11. change (Some (py_of (jtext (lo_claimed_at r))) = Some (py_of (jtext (lo_claimed_at r')))) in H11.
  clear Hp. injection H1 as H1. injection H2 as H2. injection H3 as H3. injection H4 as H4. injection H5 as H5.
  injection H8 as H8. injection H9 as H9. injection H10 as H10. apply (inj Some) in H6, H7, H11. apply py_of_text in H6, H7, H11.
  split; [|exact H11]. unfold with_integrity. by rewrite H1, H2, H3, H4, H5, H6, H7, H8, H9, H10, Hkind.
Qed.

(** Rows with the same signed bytes grant the same. *)
Lemma row_bytes_inj r r' :
  row_scalar r → row_scalar r' → row_bytes r = row_bytes r' →
  with_integrity unsigned None r = with_integrity unsigned None r' ∧ lo_claimed_at r = lo_claimed_at r'
  ∧ default [] (signed_at (lo_integrity r)) = default [] (signed_at (lo_integrity r')).
Proof.
  intros Hr Hr' E%dumps_inj; [|by apply envelope_readable..]. apply envelope_members in E as [E Hat].
  apply signed_payload_inj in E as (? & ?). done.
Qed.
(** The decision of a row is made of those columns and of its signature's. *)
Lemma payload_same r r' :
  with_integrity unsigned None r = with_integrity unsigned None r' →
  integrity_version (lo_integrity r) = integrity_version (lo_integrity r') →
  integrity_key_id (lo_integrity r) = integrity_key_id (lo_integrity r') →
  signed_at (lo_integrity r) = signed_at (lo_integrity r') →
  local_once_approval_payload r = local_once_approval_payload r'.
Proof.
  destruct r, r'. unfold with_integrity. cbn [lo_approval_id lo_request_id lo_harness lo_artifact_id lo_artifact_hash lo_workspace
    lo_publisher lo_action lo_created_at lo_expires_at lo_integrity lo_authority_kind]. intros E H1 H2 H3. injection E as -> -> -> -> -> -> -> -> -> -> ->.
  unfold local_once_approval_payload. cbn [lo_approval_id lo_request_id lo_harness lo_artifact_id lo_artifact_hash lo_workspace
    lo_publisher lo_action lo_created_at lo_expires_at lo_integrity lo_authority_kind]. by rewrite H1, H2, H3.
Qed.

(** ** One claim *)

(** Claims leave the claimed rows, and unclaim none. *)
Record claims_only (db db' : authority_db) : Prop := {
  co_ids : lo_approval_id <$> approvals db' = lo_approval_id <$> approvals db;
  co_claimed : ∀ r, r ∈ approvals db → lo_claimed_at r ≠ None → r ∈ approvals db';
  co_unclaimed : ∀ r, r ∈ approvals db' → lo_claimed_at r = None → r ∈ approvals db;
}.
#[global] Instance claims_only_preorder : PreOrder claims_only.
Proof.
  split; [by constructor|]. intros d1 d2 d3 [] []. constructor; [by etrans|auto..].
Qed.
Lemma same_approvals db db' : approvals db' = approvals db → claims_only db db'.
Proof. intros E. constructor; rewrite E; auto. Qed.

Lemma update_claims_only approval_id f db :
  (∀ r, lo_approval_id (f r) = lo_approval_id r) → (∀ r, lo_claimed_at (f r) ≠ None) →
  claims_only db (set_approvals (update_approval approval_id f (approvals db)) db).
Proof.
  intros Hid Hcl. constructor; cbn [approvals set_approvals]; unfold update_approval.
  - rewrite <- list_fmap_compose. apply list_fmap_ext. intros i r _. cbn. by case_bool_decide; rewrite ?Hid.
  - intros r Hr Hc. apply list_elem_of_fmap. exists r. rewrite bool_decide_eq_false_2 by tauto. done.
  - intros r (r' & -> & Hr')%list_elem_of_fmap. case_bool_decide; [by intros ?%Hcl|done].
Qed.

Section store.
Context `{PyUnicode, PyIsoFormat}.
Variable julianday : pystr → option Z.

(** The row a claim of [approval_id] rests on. *)
Record claimable (approval_id now kind : pystr) (m : material) (db : authority_db) (r : local_row) : Prop := {
  cb_row : r ∈ approvals db;
  cb_id : lo_approval_id r = approval_id;
  cb_unclaimed : lo_claimed_at r = None;
  cb_unexpired : ∃ t, canonical_utc_timestamp now = Ok t ∧ unexpired julianday (lo_expires_at r) t = true;
  cb_kind : lo_authority_kind r = Some kind;
  cb_valid : status (verify_local_once_approval r m) = valid;
}.

(** The row as claimed at [now]. *)
Definition claim_row (m : material) (now : pystr) (r : local_row) : local_row :=
  match m, canonical_utc_timestamp now with
  | Some (key, key_id), Ok t => signed_row key key_id (Some t) t r
  | _, _ => r
  end.
Lemma claim_row_id m now r : lo_approval_id (claim_row m now r) = lo_approval_id r.
Proof. unfold claim_row. destruct m as [[]|], (canonical_utc_timestamp now); done. Qed.

Lemma claim_by_id_spec approval_id now expected m consume kind db res :
  claim_local_once_approval_by_id julianday approval_id now expected m consume kind db = Ok res →
  (res = (None, db))
  ∨ ∃ r, claimable approval_id now kind m db r
    ∧ (∀ e, expected = Some e → same_under identity_keys (local_once_approval_payload r) e = true)
    ∧ res = (Some (local_once_approval_payload r),
             if consume then set_approvals (update_approval approval_id (claim_row m now) (approvals db)) db else db)
    ∧ ∀ r', lo_claimed_at (claim_row m now r') ≠ None.
Proof.
  unfold claim_local_once_approval_by_id. intros (t & Ht & Hc)%bind_Ok. cbv zeta in Hc.
  destruct (filter _ _) as [|r l] eqn:Ef; [left; congruence|].
  assert (r ∈ filter (λ r, lo_approval_id r = approval_id ∧ lo_claimed_at r = None ∧ unexpired julianday (lo_expires_at r) t = true)
            (approvals db)) as Hr by (rewrite Ef; by left).
  apply list_elem_of_filter in Hr as [(Hid & Hun & Hex) Hr].
  case_bool_decide as Hk; [|left; cbn in Hc; congruence]. cbn [negb] in Hc.
  case_bool_decide as Hv; [|left; cbn in Hc; congruence]. cbn [negb] in Hc.
  destruct m as [[key key_id]|]; [|left; congruence].
  assert (∀ b : bool, (if b then Ok (None, db) else Ok (None : option pydict, db)) = Ok (None, db)) as _ by (by intros []).
  destruct (match expected with Some e => negb _ | None => false end) eqn:Ee; [left; congruence|]. right. exists r.
  split; [constructor; eauto|]. split; [intros e ->; by apply negb_false_iff|].
  assert (∀ r', claim_row (Some (key, key_id)) now r' = signed_row key key_id (Some t) t r') as Hrow
    by (intros r'; unfold claim_row; by rewrite Ht).
  split; [|intros r'; by rewrite Hrow]. destruct consume; cbn [negb] in Hc; injection Hc as <-; [|done].
  do 2 f_equal. unfold update_approval. apply list_fmap_ext. intros i r' _. by rewrite Hrow.
Qed.

Lemma claim_by_id_claims_only approval_id now expected m consume kind db d db' :
  claim_local_once_approval_by_id julianday approval_id now expected m consume kind db = Ok (d, db') → claims_only db db'.
Proof.
  intros [[= -> ->]|(r & _ & _ & [= -> ->] & Hcl)]%claim_by_id_spec; [done|].
  destruct consume; [|done]. apply update_claims_only; [by intros; apply claim_row_id|done].
Qed.

(** A call that consumed a row leaves it claimed. *)
Definition spent (approval_id : pystr) (db : authority_db) : Prop :=
  NoDup (lo_approval_id <$> approvals db)
  ∧ ∃ r, r ∈ approvals db ∧ lo_approval_id r = approval_id ∧ lo_claimed_at r ≠ None.

Lemma ids_unique db r r' :
  NoDup (lo_approval_id <$> approvals db) → r ∈ approvals db → r' ∈ approvals db → lo_approval_id r = lo_approval_id r' → r = r'.
Proof.
  intros Hnd [i Hi]%list_elem_of_lookup [j Hj]%list_elem_of_lookup E.
  assert (i = j) as ->; [|congruence]. eapply (NoDup_lookup _ _ _ (lo_approval_id r) Hnd); rewrite list_lookup_fmap.
  - by rewrite Hi.
  - by rewrite Hj, E.
Qed.
Lemma spent_not_claimable approval_id now kind m db r : spent approval_id db → ¬ claimable approval_id now kind m db r.
Proof.
  intros (Hnd & r' & Hr' & Hid & Hcl) [Hr Hid' Hun _ _ _]. assert (r' = r) as -> by (eapply ids_unique; eauto; congruence). done.
Qed.
Lemma spent_claims_only approval_id db db' : claims_only db db' → spent approval_id db → spent approval_id db'.
Proof. intros [Hids Hcl _] (Hnd & r & Hr & Hid & Hc). split; [by rewrite Hids|]. exists r. eauto. Qed.

Lemma consumed_spent approval_id now expected m kind db d db' :
  NoDup (lo_approval_id <$> approvals db) →
  claim_local_once_approval_by_id julianday approval_id now expected m true kind db = Ok (Some d, db') → spent approval_id db'.
Proof.
  intros Hnd Hc. pose proof (claim_by_id_claims_only _ _ _ _ _ _ _ _ _ Hc) as [Hids _ _].
  apply claim_by_id_spec in Hc as [[=]|(r & Hr & _ & [= -> ->] & Hcl)]. split; [by rewrite Hids|].
  exists (claim_row m now r). split; [|split; [by rewrite claim_row_id; apply Hr|done]].
  cbn. unfold update_approval. apply list_elem_of_fmap. exists r. destruct Hr. by rewrite bool_decide_eq_true_2.
Qed.

End store.

End SavedFacts.
