(* ===== verification/SavedApprovalsHistory.v ===== *)
(** * Launches on saved approvals

    [SavedHistory] proves the promises of the store of saved approvals: a batch
    is claimed together or not at all ([batch_claims_together]); of two
    launches decided on the same revision one is refused
    ([racing_launches_exclusive]); an approval that was used up is never
    granted again ([approval_used_once]); and a decision granted is one that
    was recorded, whatever rows an attacker without the key puts into the
    database between the calls ([grant_was_recorded]). *)

From S2P Require Import Prelude PyStr Sha256 PyVal PyJson AsciiJson PyTime LocalAuthority SavedApprovals SavedApprovalsFacts.
Local Open Scope Z_scope.
Local Open Scope py_scope.

Module SavedHistory.
Import Json LocalAuthority SavedApprovals SavedFacts.

Lemma hexdigest_scalar bs : forallb scalar (hexdigest bs) = true.
Proof.
  apply forallb_Forall. eapply Forall_impl; [apply hexdigest_hex|]. intros c Hc. unfold is_hex, is_digit, scalar, in_range in *. lia.
Qed.
Lemma sha256_scalar m : forallb scalar (sha256_hex m) = true.
Proof. apply hexdigest_scalar. Qed.
Lemma hmac_scalar k m : forallb scalar (hmac_sha256_hex k m) = true.
Proof. apply hexdigest_scalar. Qed.

#[local] Opaque sha256_hex hmac_sha256_hex sha256 hmac_sha256 purpose_key.

Section history.
Context `{PyUnicode, PyIsoFormat}.
Variable julianday : pystr → option Z.

(** ** A batch *)

(** The keys of the decisions a batch uses up. *)
Definition used_keys (ds : list pydict) : list decision_key :=
  omap (λ d, if bool_decide (approval_reuse_claim_disposition d = Some consumed) then decision_key_of d else None) ds.

(** The tables without what a batch used up. *)
Definition without_keys (ks : list decision_key) (m : material) (now : pystr) (db : authority_db)
    : list local_row * list policy_row :=
  ((λ r, if bool_decide (lo_claimed_at r = None ∧ KApproval (lo_approval_id r) ∈ ks) then claim_row m now r else r)
     <$> approvals db,
   filter (λ r, ¬ (KPolicy (pr_decision_id r) ∈ ks ∧ pr_action r = $"allow")) (policies db)).

(** What a decision must rest on. *)
Definition grounded (now : pystr) (m : material) (bundle : option (list row_identity)) (reading : policy_row → integrity_reading)
    (db : authority_db) (d : pydict) : Prop :=
  match decision_key_of d with
  | Some (KApproval a) =>
      ∃ r, claimable julianday a now LOCAL_ONCE_LEGACY_AUTHORITY_KIND m db r
        ∧ same_under identity_keys (local_once_approval_payload r) d = true
  | Some (KPolicy n) =>
      ∃ r payload, r ∈ policies db ∧ pr_decision_id r = n ∧ pr_action r = $"allow"
        ∧ (∀ e, pr_expires_at r = Some e → unexpired julianday e now = true)
        ∧ policy_row_claimable d r bundle reading = Ok (Some payload)
  | None => False
  end.

(** A decision and the payload of its row are consumed alike. *)
Lemma payload_disposition d r bundle reading payload n :
  nonempty_text (dict_get ($"approval_id") d) = None → dict_get ($"decision_id") d = PInt n → is_action_allow d = true →
  policy_row_claimable d r bundle reading = Ok (Some payload) →
  approval_reuse_claim_disposition payload = approval_reuse_claim_disposition d.
Proof.
  intros Ha Hd Hact Hp. unfold policy_row_claimable in Hp.
  destruct (bool_decide (pr_source r ∈ _)); [done|].
  destruct (bool_decide (pr_source r = _) && _); [done|]. cbv zeta in Hp.
  apply bind_Ok in Hp as (v & _ & Hp). destruct (negb _); [done|]. apply Ok_inj in Hp.
  set (state := if is_remote_policy_source (pr_source r) then None else _) in Hp.
  destruct (same_under policy_identity_keys (policy_row_payload r v state) d) eqn:Hs; [|done]. injection Hp as <-.
  unfold same_under in Hs. rewrite forallb_forall in Hs.
  assert (∀ k, k ∈ policy_identity_keys → py_eqb (dict_get k (policy_row_payload r v state)) (dict_get k d) = true) as Hk.
  { intros k Hin. apply Hs. by apply list_elem_of_In. }
  pose proof (Hk ($"action") ltac:(refine (bool_decide_unpack _ _); vm_compute; exact I)) as H1.
  pose proof (Hk ($"source") ltac:(refine (bool_decide_unpack _ _); vm_compute; exact I)) as H2.
  pose proof (Hk ($"expires_at") ltac:(refine (bool_decide_unpack _ _); vm_compute; exact I)) as H3. clear Hs Hk.
  change (dict_get ($"action") (policy_row_payload r v state)) with (PStr (pr_action r)) in H1.
  change (dict_get ($"source") (policy_row_payload r v state)) with (PStr (pr_source r)) in H2.
  change (dict_get ($"expires_at") (policy_row_payload r v state)) with (ptext (pr_expires_at r)) in H3.
  unfold approval_reuse_claim_disposition. rewrite Ha, Hd.
  assert (is_action_allow (policy_row_payload r v state) = true) as ->.
  { unfold is_action_allow, is_text in *. change (dict_get ($"action") (policy_row_payload r v state)) with (PStr (pr_action r)).
    apply py_eqb_str in Hact. rewrite Hact in H1. cbn in H1 |- *. done. }
  rewrite Hact. cbn [negb].
  assert (dict_get ($"approval_id") (policy_row_payload r v state) = PNone) as ->.
  { unfold policy_row_payload, dict_get. destruct (is_remote_policy_source _), state as [[]|], (integrity_version _),
      (pr_integrity_generation r), (integrity_key_id _), (signed_at _); reflexivity. }
  change (dict_get ($"decision_id") (policy_row_payload r v state)) with (PInt (pr_decision_id r)).
  change (dict_get ($"source") (policy_row_payload r v state)) with (PStr (pr_source r)).
  change (dict_get ($"expires_at") (policy_row_payload r v state)) with (ptext (pr_expires_at r)). cbn [nonempty_text].
  assert (dict_get ($"source") d = PStr (pr_source r)) as ->.
  { destruct (dict_get ($"source") d); try done. cbn in H2. apply bool_decide_eq_true in H2. by subst. }
  destruct (pr_expires_at r), (dict_get ($"expires_at") d); done.
Qed.

Lemma used_keys_cons d ds : used_keys (d :: ds) = used_keys [d] ++ used_keys ds.
Proof. unfold used_keys. cbn. by destruct (bool_decide _), (decision_key_of d). Qed.

Lemma without_nil m now db : without_keys [] m now db = (approvals db, policies db).
Proof.
  unfold without_keys. f_equal.
  - rewrite <- (list_fmap_id (approvals db)) at 2. apply list_fmap_ext. intros i r _. rewrite bool_decide_eq_false_2; [done|].
    intros [_ Hin]. by apply not_elem_of_nil in Hin.
  - apply filter_all, Forall_forall. intros r _ [Hin _]. by apply not_elem_of_nil in Hin.
Qed.
Lemma without_app ks1 ks2 m now db db' :
  (∀ a, KApproval a ∈ ks1 → ∀ r, lo_claimed_at (claim_row m now r) ≠ None) →
  (approvals db', policies db') = without_keys ks1 m now db →
  without_keys ks2 m now db' = without_keys (ks1 ++ ks2) m now db.
Proof.
  intros Hcl [= Ha Hp]. unfold without_keys. rewrite Ha, Hp. f_equal.
  - rewrite <- list_fmap_compose. apply list_fmap_ext. intros i r _. cbn.
    destruct (decide (lo_claimed_at r = None ∧ KApproval (lo_approval_id r) ∈ ks1)) as [[H1 H2]|Hno].
    + rewrite (bool_decide_eq_true_2 (_ ∧ KApproval (lo_approval_id r) ∈ ks1)) by done.
      rewrite (bool_decide_eq_true_2 (lo_claimed_at r = None ∧ _)) by (split; [done|]; apply elem_of_app; by left).
      rewrite bool_decide_eq_false_2; [done|]. intros [Hn _]. by apply (Hcl _ H2 r).
    + rewrite (bool_decide_eq_false_2 (_ ∧ KApproval (lo_approval_id r) ∈ ks1)) by done.
      rewrite (bool_decide_ext (_ ∧ KApproval (lo_approval_id r) ∈ ks2)
                 (lo_claimed_at r = None ∧ KApproval (lo_approval_id r) ∈ ks1 ++ ks2)); [done|].
      rewrite elem_of_app. tauto.
  - rewrite list_filter_filter. apply list_filter_iff. intros r. rewrite elem_of_app. tauto.
Qed.

(** What claiming decisions does to the database. *)
Record claims_keys (m : material) (now : pystr) (ks : list decision_key) (n : nat) (db db' : authority_db) : Prop := {
  ck_claims : claims_only db db';
  ck_tables : (approvals db', policies db') = without_keys ks m now db;
  ck_revision : revision db' = Z.add (Z.of_nat (length ks)) <$> revision db;
  ck_events : ∃ es, events db' = events db ++ es ∧ length es = n;
  ck_claimed : ∀ a, KApproval a ∈ ks → ∀ r, lo_claimed_at (claim_row m now r) ≠ None;
}.

Lemma claims_keys_nil m now db : claims_keys m now [] 0 db db.
Proof.
  constructor; [done|by rewrite without_nil|by destruct (revision db)|by exists []; rewrite app_nil_r|].
  intros a Ha. by apply not_elem_of_nil in Ha.
Qed.
(** A retained decision only leaves its event. *)
Lemma unused_claims_keys m now name ev t db : claims_keys m now [] 1 db (add_event name ev t db).
Proof.
  constructor; [by apply same_approvals|by rewrite without_nil|by destruct db as [? ? [] ?]|by eexists [_]|].
  intros a Ha. by apply not_elem_of_nil in Ha.
Qed.
Lemma claims_keys_app m now ks1 ks2 n1 n2 d1 d2 d3 :
  claims_keys m now ks1 n1 d1 d2 → claims_keys m now ks2 n2 d2 d3 → claims_keys m now (ks1 ++ ks2) (n1 + n2) d1 d3.
Proof.
  intros [C1 T1 R1 (es1 & E1 & L1) S1] [C2 T2 R2 (es2 & E2 & L2) S2]. constructor.
  - by etrans.
  - rewrite T2. by apply without_app.
  - rewrite R2, R1, length_app. destruct (revision d1); [|done]. cbn. f_equal. lia.
  - exists (es1 ++ es2). rewrite E2, E1, <- app_assoc, length_app. split; [done|lia].
  - intros a [Ha|Ha]%elem_of_app; eauto.
Qed.

Lemma claim_approval_locked d a now m bundle reading db db' :
  nonempty_text (dict_get ($"approval_id") d) = Some a →
  claim_approval_reuse_decision_locked julianday d now m bundle reading db = Ok (Some db') →
  grounded now m bundle reading db d ∧ claims_keys m now (used_keys [d]) 1 db db'.
Proof.
  intros Ha Hc. unfold claim_approval_reuse_decision_locked in Hc. rewrite Ha in Hc.
  destruct (negb _); [done|]. destruct (approval_reuse_claim_disposition d) as [disp|] eqn:Ed; [|done].
  apply bind_Ok in Hc as ([claimed db1] & Hc & Hd). destruct claimed as [c|]; [|done]. apply Ok_inj in Hd. injection Hd as <-.
  apply claim_by_id_spec in Hc as [[=]|(r & Hr & Hsame & [= -> ->] & Hcl)].
  assert (decision_key_of d = Some (KApproval a)) as Hk by (unfold decision_key_of; by rewrite Ha).
  split; [unfold grounded; rewrite Hk; exists r; eauto|].
  unfold used_keys. cbn [omap list_omap]. rewrite Ed, Hk. generalize (applied_event (local_once_approval_payload r)) as ev. intros ev.
  destruct disp.
  - rewrite !bool_decide_eq_true_2 by done. constructor.
    + etrans; [apply update_claims_only; [by intros; apply claim_row_id|done]|by apply same_approvals].
    + unfold without_keys, add_event, set_approvals, update_approval. cbn [approvals policies]. f_equal.
      * apply list_fmap_ext. intros i r' _.
        rewrite (bool_decide_ext (lo_approval_id r' = a ∧ lo_claimed_at r' = None)
                   (lo_claimed_at r' = None ∧ KApproval (lo_approval_id r') ∈ [KApproval a])); [done|].
        rewrite list_elem_of_singleton. naive_solver.
      * symmetry. apply filter_all, Forall_forall. intros r' _ [Hin _]. apply list_elem_of_singleton in Hin. done.
    + cbn [revision add_event set_approvals]. destruct (revision db); [|done]. cbn. f_equal. lia.
    + by eexists [_].
    + by intros a' _.
  - rewrite !bool_decide_eq_false_2 by done. apply unused_claims_keys.
Qed.

Lemma claim_policy_locked d n now m bundle reading db db' :
  nonempty_text (dict_get ($"approval_id") d) = None → dict_get ($"decision_id") d = PInt n → is_action_allow d = true →
  claim_approval_reuse_decision_locked julianday d now m bundle reading db = Ok (Some db') →
  grounded now m bundle reading db d ∧ claims_keys m now (used_keys [d]) 1 db db'.
Proof.
  intros Ha Hn Hact Hc. unfold claim_approval_reuse_decision_locked in Hc. rewrite Ha, Hn in Hc. cbv zeta in Hc.
  assert (decision_key_of d = Some (KPolicy n)) as Hk by (unfold decision_key_of; by rewrite Ha, Hn).
  destruct (filter _ (policies db)) as [|r l] eqn:Ef; [done|].
  assert (r ∈ r :: l) as Hin by (by left). rewrite <- Ef in Hin. apply list_elem_of_filter in Hin as [Hlive Hr].
  apply bind_Ok in Hc as ([payload|] & Hp & Hc); [|done]. pose proof (payload_disposition _ _ _ _ _ _ Ha Hn Hact Hp) as Hdisp.
  apply andb_true_iff in Hlive as [Hlive He]. apply andb_true_iff in Hlive as [Hid Hal].
  apply bool_decide_eq_true in Hid, Hal.
  split.
  { unfold grounded. rewrite Hk. exists r, payload. split_and!; try done. intros e Hexp. by rewrite Hexp in He. }
  rewrite Hdisp in Hc. unfold used_keys. cbn [omap list_omap]. rewrite Hk.
  destruct (approval_reuse_claim_disposition d) as [[]|]; [| |done]; apply Ok_inj in Hc; injection Hc as <-.
  - rewrite !bool_decide_eq_true_2 by done. constructor.
    + by apply same_approvals.
    + unfold without_keys, add_event, set_policies. cbn [approvals policies]. f_equal.
      * rewrite <- (list_fmap_id (approvals db)) at 1. apply list_fmap_ext. intros i r' _. rewrite bool_decide_eq_false_2; [done|].
        intros [_ Hin]. by apply list_elem_of_singleton in Hin.
      * apply list_filter_iff. intros r'. rewrite list_elem_of_singleton. split; [intros Hno [[= <-] ?]; by apply Hno|intros Hno [<- ?]; by apply Hno].
    + cbn [revision add_event set_policies]. destruct (revision db); [|done]. cbn. f_equal. lia.
    + by eexists [_].
    + intros a Hin. by apply list_elem_of_singleton in Hin.
  - rewrite !bool_decide_eq_false_2 by done. apply unused_claims_keys.
Qed.

Lemma claim_locked_spec d now m bundle reading db db' :
  is_action_allow d = true →
  claim_approval_reuse_decision_locked julianday d now m bundle reading db = Ok (Some db') →
  grounded now m bundle reading db d ∧ claims_keys m now (used_keys [d]) 1 db db'.
Proof.
  intros Hact Hc. destruct (nonempty_text (dict_get ($"approval_id") d)) as [a|] eqn:Ea; [by eapply claim_approval_locked|].
  destruct (dict_get ($"decision_id") d) as [| |n| | | |] eqn:En;
    try (exfalso; unfold claim_approval_reuse_decision_locked in Hc; rewrite Ea, En in Hc; discriminate Hc).
  by eapply claim_policy_locked.
Qed.

(** What a decision rests on was there before the claims. *)
Lemma grounded_before now m bundle reading ks n db db' d :
  claims_keys m now ks n db db' → grounded now m bundle reading db' d → grounded now m bundle reading db d.
Proof.
  intros [[_ _ Hun] [= _ Hp] _ _ _]. unfold grounded. destruct (decision_key_of d) as [[a|k]|]; [| |done].
  - intros (r & [] & Hs). exists r. split; [|done]. constructor; eauto.
  - intros (r & payload & Hr & Hrest). exists r, payload. split; [|done]. rewrite Hp in Hr. by apply list_elem_of_filter in Hr as [].
Qed.

Lemma claim_all_spec ds now m bundle reading db db' :
  Forall (λ d, is_action_allow d = true) ds → claim_all julianday ds now m bundle reading db = Ok (Some db') →
  Forall (grounded now m bundle reading db) ds ∧ claims_keys m now (used_keys ds) (length ds) db db'.
Proof.
  intros Hact. revert db. induction Hact as [|d ds Hd _ IH]; intros db Hc; cbn [claim_all] in Hc.
  { apply Ok_inj in Hc. injection Hc as <-. split; [constructor|apply claims_keys_nil]. }
  apply bind_Ok in Hc as ([db1|] & H1 & Hc); [|done]. apply claim_locked_spec in H1 as [Hg H1]; [|done].
  apply IH in Hc as [Hgs H2]. split.
  - constructor; [done|]. eapply Forall_impl; [exact Hgs|]. intros d' Hd'. by eapply grounded_before.
  - rewrite used_keys_cons. by eapply (claims_keys_app _ _ _ _ 1).
Qed.

(** The decisions a batch admits: all allow on one revision, each key once. *)
Lemma admit_spec ds expected seen unique e :
  admit_decisions ds expected seen = Some (unique, e) →
  (∀ n, expected = Some n → e = Some n)
  ∧ Forall (λ d, is_action_allow d = true ∧ decision_revision d = e ∧ ∃ k, decision_key_of d = Some k
                 ∧ (k ∈ seen ∨ ∃ d', d' ∈ unique ∧ decision_key_of d' = Some k)) ds
  ∧ Forall (λ d, d ∈ ds ∧ ∀ k, decision_key_of d = Some k → k ∉ seen) unique
  ∧ NoDup (decision_key_of <$> unique).
Proof.
  revert expected seen unique e. induction ds as [|d ds IH]; intros expected seen unique e Ha; cbn [admit_decisions] in Ha.
  { injection Ha as <- <-. split_and!; [done|constructor..]. }
  destruct (is_action_allow d) eqn:Hact; [|done]. cbn [negb] in Ha.
  destruct (decision_revision d) as [n|] eqn:En; [|done]. cbn [mbind option_bind] in Ha.
  destruct (match expected with None => Some n | Some e => _ end) as [n'|] eqn:Ex; [|done]. cbn [mbind option_bind] in Ha.
  assert (n' = n ∧ ∀ n0, expected = Some n0 → n0 = n) as [-> Hexp].
  { destruct expected as [e0|]; [|by injection Ex as ->]. destruct (n =? e0) eqn:E; [|done]. apply Z.eqb_eq in E as ->.
    injection Ex as <-. split; [done|]. by intros ? [= <-]. }
  destruct (decision_key_of d) as [k|] eqn:Ek; [|done]. cbn [mbind option_bind] in Ha.
  case_bool_decide as Hseen.
  - apply IH in Ha as (He & Hall & Huniq & Hnd). specialize (He n eq_refl) as ->. split_and!; [by intros ? ->%Hexp| |..|done].
    + constructor; [|done]. split_and!; [done|done|]. exists k. split; [done|by left].
    + eapply Forall_impl; [exact Huniq|]. intros d' [Hd' Hk]. split; [by right|done].
  - destruct (admit_decisions ds (Some n) (k :: seen)) as [[u e']|] eqn:Er; [|done]. cbn [mbind option_bind] in Ha. injection Ha as <- <-.
    apply IH in Er as (He & Hall & Huniq & Hnd). specialize (He n eq_refl) as ->. split_and!; [by intros ? ->%Hexp| |..].
    + constructor.
      * split_and!; [done|done|]. exists k. split; [done|]. right. exists d. split; [by left|done].
      * eapply Forall_impl; [exact Hall|]. intros d' (? & ? & k' & Hk' & Hor). split_and!; [done|done|]. exists k'. split; [done|].
        destruct Hor as [[->|?]%elem_of_cons|(d'' & Hd'' & ?)]; [right; exists d; split; [by left|done]|by left|].
        right. exists d''. split; [by right|done].
    + constructor.
      * split; [by left|]. intros k' E. rewrite Ek in E. by injection E as <-.
      * eapply Forall_impl; [exact Huniq|]. intros d' [Hd' Hk]. split; [by right|]. intros k' E Hin. apply (Hk k' E). by right.
    + cbn. constructor; [|done]. intros (d' & E & Hd')%list_elem_of_fmap. rewrite Forall_forall in Huniq.
      destruct (Huniq d' Hd') as [_ Hk]. rewrite Ek in E. apply (Hk k); [done|by left].
Qed.

(** A batch is refused and changes nothing, or its distinct decisions are
    claimed on the revision they were found on. *)
Lemma batch_cases ds now clock m ids reading db b db' :
  claim_approval_reuse_decisions julianday ds now clock m ids reading db = Ok (b, db') →
  (b = false ∧ db' = db)
  ∨ b = true ∧ ∃ unique expected t bundle,
      canonical_utc_timestamp (default (isoformat_utc clock) (string_or_none now)) = Ok t
      ∧ (∀ l, bundle = Some l → l = ids) ∧ admit_decisions ds None [] = Some (unique, expected)
      ∧ (unique = [] ∧ db' = db
         ∨ expected = Some (approval_authority_revision db)
           ∧ claim_all julianday unique t m bundle reading db = Ok (Some db')).
Proof.
  unfold claim_approval_reuse_decisions. intros (t & Ht & Hc)%bind_Ok.
  destruct (admit_decisions ds None []) as [[unique expected]|] eqn:Ea; [|left; by injection Hc as <- <-].
  destruct unique as [|d0 unique].
  { right. injection Hc as <- <-. split; [done|]. exists [], expected, t, None. split_and!; try done. by left. }
  case_bool_decide as He; [|left; apply Ok_inj in Hc; by injection Hc as <- <-]. cbn [negb] in Hc. cbv zeta in Hc.
  set (bundle := if existsb _ _ then Some ids else None) in Hc.
  apply bind_Ok in Hc as ([db1|] & Hc & Hd); apply Ok_inj in Hd; injection Hd as <- <-; [|by left]. right. split; [done|].
  exists (d0 :: unique), expected, t, bundle. split_and!; try done; [|by right].
  intros l Hl. unfold bundle in Hl. destruct (existsb _ _); [by injection Hl|done].
Qed.
(** The distinct decisions stand for all. *)
Lemma admitted ds unique expected :
  admit_decisions ds None [] = Some (unique, expected) →
  Forall (λ d, is_action_allow d = true) unique
  ∧ Forall (λ d, is_action_allow d = true ∧ decision_revision d = expected
                 ∧ ∃ d', d' ∈ unique ∧ decision_key_of d' = decision_key_of d) ds
  ∧ Forall (λ d, d ∈ ds) unique ∧ NoDup (decision_key_of <$> unique).
Proof.
  intros (_ & Hall & Huniq & Hnd)%admit_spec. split_and!; [| | |done].
  - eapply Forall_impl; [exact Huniq|]. intros d [Hd _]. rewrite Forall_forall in Hall. by apply Hall.
  - eapply Forall_impl; [exact Hall|]. intros d (Hd & Hr & k & Hk & Hor). split_and!; [done..|].
    destruct Hor as [Hin|(d' & Hd' & Hk')]; [by apply not_elem_of_nil in Hin|]. exists d'. by rewrite Hk, Hk'.
  - eapply Forall_impl; [exact Huniq|]. by intros d [Hd _].
Qed.

(** [claim_approval_reuse_decisions], when it returns, claims the decisions of a launch
    together or not at all.  When it refuses, the database is as it was.  When
    it accepts decisions, every one of them is an [allow] found on the revision
    the tables still have; the distinct ones each rest on a row that is still
    there (an unclaimed, unexpired one-shot approval with a valid signature and
    the same identity, or a live policy row that is claimable); the rows of
    those it uses up are claimed or deleted and no other row changes; the
    revision counts them and one event is added for each. *)
Theorem batch_claims_together ds now clock m ids reading db b db' :
  claim_approval_reuse_decisions julianday ds now clock m ids reading db = Ok (b, db') →
  (b = false ∧ db' = db)
  ∨ b = true ∧ (ds = [] ∧ db' = db
      ∨ ∃ unique t bundle,
          canonical_utc_timestamp (default (isoformat_utc clock) (string_or_none now)) = Ok t
          ∧ (∀ l, bundle = Some l → l = ids)
          ∧ Forall (λ d, is_action_allow d = true ∧ decision_revision d = Some (approval_authority_revision db)
                         ∧ ∃ d', d' ∈ unique ∧ decision_key_of d' = decision_key_of d) ds
          ∧ Forall (λ d, d ∈ ds ∧ grounded t m bundle reading db d) unique
          ∧ NoDup (decision_key_of <$> unique)
          ∧ (approvals db', policies db') = without_keys (used_keys unique) m t db
          ∧ approval_authority_revision db' = approval_authority_revision db + Z.of_nat (length (used_keys unique))
          ∧ ∃ es, events db' = events db ++ es ∧ length es = length unique).
Proof.
  intros [?|[-> (unique & expected & t & bundle & Ht & Hb & Ha & Hc)]]%batch_cases; [by left|]. right. split; [done|].
  destruct (admitted _ _ _ Ha) as (Hact & Hall & Huniq & Hnd). destruct Hc as [[-> ->]|[-> Hc]].
  { left. split; [|done]. destruct ds as [|d ds]; [done|]. apply Forall_cons in Hall as [(_ & _ & d' & Hd' & _) _]. by apply not_elem_of_nil in Hd'. }
  destruct (decide (unique = [])) as [->|Hne].
  { left. split; [|by injection Hc as <-]. destruct ds as [|d ds]; [done|].
    apply Forall_cons in Hall as [(_ & _ & d' & Hd' & _) _]. by apply not_elem_of_nil in Hd'. }
  apply claim_all_spec in Hc as [Hg [_ Htab Hrev Hev _]]; [|done]. right. exists unique, t, bundle. split_and!; try done.
  - by apply Forall_and.
  - unfold approval_authority_revision. rewrite Hrev.
    destruct (revision db) as [r|] eqn:Er; cbn; [lia|]. exfalso.
    destruct unique as [|d0 unique]; [done|]. apply Forall_cons in Huniq as [Hd0 _]. rewrite Forall_forall in Hall.
    destruct (Hall d0 Hd0) as (_ & Hr & _). unfold approval_authority_revision, decision_revision in Hr. rewrite Er in Hr. cbn in Hr.
    destruct (dict_get _ d0); try done. destruct (n <? 0) eqn:En; [done|]. injection Hr as ->. done.
Qed.

(** ** Histories *)

(** A call of the store, or a change of the database behind its back. *)
Inductive call :=
  | RecordApproval (a : once_approval) (approval_id kind : pystr)
  | Peek (k : lookup) (now : pystr)
  | PeekExact (request : option pydict) (now : pystr)
  | Claim (approval_id claimed_at : pystr) (expected : option pydict)
  | Consume (k : lookup) (now : pystr)
  | ClaimExact (request : option pydict) (expected : pydict) (now : pystr)
  | ClaimBatch (ds : list pydict) (now : option pystr) (clock : Z) (ids : list row_identity)
      (reading : policy_row → integrity_reading)
  | WritePolicies (l : list policy_row)
  | Tamper (db : authority_db).

(** The store's key, and whether a call can read it. *)
Variables (key : list Z) (key_id : pystr).
Notation event := (bool * call)%type.
Definition readable_key (available : bool) : material := if available then Some (key, key_id) else None.

Definition result_db {A} (r : result (A * authority_db)) (db : authority_db) : authority_db :=
  match r with Ok (_, db') => db' | Raise _ => db end.

(** The database after an event; a call that raises leaves it as it was. *)
Definition run (e : event) (db : authority_db) : authority_db :=
  let m := readable_key e.1 in
  match e.2 with
  | RecordApproval a id kind => if e.1 then result_db (persist_local_once_approval a id key key_id kind db) db else db
  | Peek _ _ | PeekExact _ _ => db
  | Claim id at' expected => result_db (claim_local_once_approval julianday id at' expected m db) db
  | Consume k now => result_db (claim_local_once_approval_locked julianday k now m db) db
  | ClaimExact request expected now =>
      result_db (claim_exact_cloud_local_once_approval_locked julianday request expected now m db) db
  | ClaimBatch ds now clock ids reading =>
      result_db (claim_approval_reuse_decisions julianday ds now clock m ids reading db) db
  | WritePolicies l => set_policies l db
  | Tamper db' => db'
  end.
(** The database after a history, the earliest event first. *)
Definition after (h : list event) (db : authority_db) : authority_db := foldl (λ db e, run e db) db h.
Definition honest (e : event) : Prop := match e.2 with Tamper _ => False | _ => True end.

#[global] Instance honest_dec e : Decision (honest e).
Proof. destruct e as [av []]; cbn; apply _. Defined.

Lemma after_app h h' db : after (h ++ h') db = after h' (after h db).
Proof. apply foldl_app. Qed.

(** ** The effect of a call *)

Lemma pad_scalar w n : forallb scalar (pad w n) = true.
Proof.
  revert n. induction w as [|w IH]; intros n; [done|]. cbn [pad]. rewrite forallb_app, IH. cbn [forallb].
  pose proof (Z.mod_pos_bound n 10 ltac:(lia)). unfold scalar, in_range. lia.
Qed.
Lemma isoformat_scalar t : forallb scalar (isoformat_utc t) = true.
Proof. unfold isoformat_utc. by rewrite !forallb_app, !pad_scalar. Qed.

(** A claim moves the revision by none or more and leaves encodable texts. *)
Record claim_effect (db db' : authority_db) : Prop := {
  ce_claims : claims_only db db';
  ce_revision : approval_authority_revision db <= approval_authority_revision db';
  ce_scalar : Forall row_scalar (approvals db) → Forall row_scalar (approvals db');
}.
Lemma claim_effect_same db db' : approvals db' = approvals db → revision db' = revision db → claim_effect db db'.
Proof.
  intros Ea Er. constructor; [by apply same_approvals|unfold approval_authority_revision; by rewrite Er|by rewrite Ea].
Qed.

Context (key_id_scalar : forallb scalar key_id = true).

Lemma canonical_scalar now t : canonical_utc_timestamp now = Ok t → forallb scalar t = true.
Proof. intros (n & _ & E)%bind_Ok. injection E as <-. apply isoformat_scalar. Qed.
Lemma omap_scalar (os : list (option pystr)) :
  forallb (forallb scalar) (omap id os) = forallb (λ o, forallb scalar (default [] o)) os.
Proof. induction os as [|[s|] os IH]; [done|cbn; by rewrite <- IH|cbn; by rewrite <- IH]. Qed.
Lemma signed_row_scalar r c t :
  forallb (forallb scalar) [lo_approval_id r; lo_request_id r; lo_harness r; lo_artifact_id r; lo_artifact_hash r; lo_action r;
                            lo_created_at r; lo_expires_at r; default [] (lo_workspace r); default [] (lo_publisher r);
                            default [] (lo_authority_kind r)] = true →
  forallb scalar t = true → forallb scalar (default [] c) = true →
  row_scalar (signed_row key key_id c t r).
Proof.
  intros Hr Ht Hc. unfold row_scalar, row_texts. rewrite forallb_app, omap_scalar. unfold signed_row, with_integrity, sign_local_authority_payload.
  cbn [lo_approval_id lo_request_id lo_harness lo_artifact_id lo_artifact_hash lo_action lo_created_at lo_expires_at lo_workspace
       lo_publisher lo_claimed_at lo_authority_kind lo_integrity payload_hash payload_mac integrity_key_id signed_at forallb from_option id] in Hr |- *.
  rewrite sha256_scalar, hmac_scalar, key_id_scalar, Ht, Hc. cbn [andb]. split_bool.
  repeat (apply andb_true_intro; split); done.
Qed.
Lemma claim_row_scalar available now r : row_scalar r → row_scalar (claim_row (readable_key available) now r).
Proof.
  intros Hr. unfold claim_row. destruct available; [|done]. cbn [readable_key].
  destruct (canonical_utc_timestamp now) as [t|] eqn:Et; [|done]. apply canonical_scalar in Et.
  apply signed_row_scalar; [|done..]. unfold row_scalar, row_texts in Hr. rewrite forallb_app, omap_scalar in Hr.
  cbn [forallb] in Hr |- *. split_bool. repeat (apply andb_true_intro; split); done.
Qed.

Lemma claim_by_id_effect available id now expected consume kind db d db' :
  claim_local_once_approval_by_id julianday id now expected (readable_key available) consume kind db = Ok (d, db') → claim_effect db db'.
Proof.
  intros Hc. pose proof (claim_by_id_claims_only _ _ _ _ _ _ _ _ _ _ Hc) as Hco.
  apply claim_by_id_spec in Hc as [[= -> ->]|(r & _ & _ & [= -> ->] & _)]; [by apply claim_effect_same|].
  destruct consume; [|by apply claim_effect_same]. constructor; [done| |].
  - unfold approval_authority_revision. cbn. destruct (revision db); cbn; lia.
  - intros Hs. cbn. unfold update_approval. apply Forall_fmap. eapply Forall_impl; [exact Hs|]. intros r' Hr'. cbn.
    case_bool_decide; [by apply claim_row_scalar|done].
Qed.

Lemma claims_keys_effect available now ks n db db' : claims_keys (readable_key available) now ks n db db' → claim_effect db db'.
Proof.
  intros [Hco [= Ha _] Hrev _ _]. constructor; [done| |].
  - unfold approval_authority_revision. rewrite Hrev. destruct (revision db); cbn; lia.
  - intros Hs. rewrite Ha. apply Forall_fmap. eapply Forall_impl; [exact Hs|]. intros r' Hr'. unfold compose.
    case_bool_decide; [by apply claim_row_scalar|done].
Qed.
Lemma batch_effect ds now clock available ids reading db b db' :
  claim_approval_reuse_decisions julianday ds now clock (readable_key available) ids reading db = Ok (b, db') → claim_effect db db'.
Proof.
  intros [[-> ->]|[_ (unique & expected & t & bundle & _ & _ & Ha & [[-> ->]|[_ Hc]])]]%batch_cases; [by apply claim_effect_same..|].
  apply claim_all_spec in Hc as [_ Hc]; [by eapply claims_keys_effect|]. apply (admitted _ _ _ Ha).
Qed.

(** The approvals a call answers for. *)
Definition id_of (d : pydict) : list pystr := match dict_get ($"approval_id") d with PStr a => [a] | _ => [] end.
Definition granted {A} (f : A → list pystr) (r : result (option A * authority_db)) : list pystr :=
  match r with Ok (Some d, _) => f d | _ => [] end.
Definition key_ids (ks : list decision_key) : list pystr :=
  omap (λ k, match k with KApproval a => Some a | KPolicy _ => None end) ks.
Definition grants (e : event) (db : authority_db) : list pystr :=
  let m := readable_key e.1 in
  match e.2 with
  | RecordApproval _ _ _ | WritePolicies _ | Tamper _ => []
  | Peek k now => from_option id_of [] (peek_local_once_approval julianday k now m db)
  | PeekExact request now =>
      match peek_exact_cloud_local_once_approval julianday request now m db with Ok (Some d) => id_of d | _ => [] end
  | Claim id at' expected => match claim_local_once_approval julianday id at' expected m db with Ok (true, _) => [id] | _ => [] end
  | Consume k now => granted id_of (claim_local_once_approval_locked julianday k now m db)
  | ClaimExact request expected now =>
      granted id_of (claim_exact_cloud_local_once_approval_locked julianday request expected now m db)
  | ClaimBatch ds now clock ids reading =>
      match claim_approval_reuse_decisions julianday ds now clock m ids reading db with
      | Ok (true, _) => key_ids (omap decision_key_of ds)
      | _ => []
      end
  end.
(** Those it uses up: all it claims but the approvals of package requests, which
    a lookup or a batch retains. *)
Definition uses (e : event) (db : authority_db) : list pystr :=
  match e.2 with
  | Claim _ _ _ | ClaimExact _ _ _ => grants e db
  | Consume k now =>
      granted (λ d, if match dict_get ($"artifact_id") d with PStr a => local_once_approval_is_reusable a | _ => false end
                    then [] else id_of d)
        (claim_local_once_approval_locked julianday k now (readable_key e.1) db)
  | ClaimBatch ds now clock ids reading =>
      match claim_approval_reuse_decisions julianday ds now clock (readable_key e.1) ids reading db, admit_decisions ds None [] with
      | Ok (true, _), Some (unique, _) => key_ids (used_keys unique)
      | _, _ => []
      end
  | _ => []
  end.

(** The row a lookup returns. *)
Lemma first_by_elem {A} (before : A → A → bool) l x : first_by before l = Some x → x ∈ l.
Proof.
  induction l as [|y l IH]; [done|]. unfold first_by in *. cbn. destruct (foldr _ _ l) as [z|].
  - destruct (before z y); intros [= <-]; [right; by apply IH|by left].
  - intros [= <-]. by left.
Qed.
Lemma peek_spec k now m db d :
  peek_local_once_approval julianday k now m db = Some d →
  ∃ r ai ah, r ∈ approvals db ∧ lk_artifact_id k = Some ai ∧ lk_artifact_hash k = Some ah
    ∧ peek_matches julianday k ai ah now r = true ∧ lo_authority_kind r = Some LOCAL_ONCE_LEGACY_AUTHORITY_KIND
    ∧ status (verify_local_once_approval r m) = valid ∧ d = local_once_approval_payload r.
Proof.
  unfold peek_local_once_approval, peek_local_once_approval_lookup.
  assert (∀ (o : option pystr) s, string_or_none o = Some s → o = Some s) as Hs by (by intros [[|]|]).
  destruct (string_or_none (lk_artifact_id k)) as [ai|] eqn:E1; [|done].
  destruct (string_or_none (lk_artifact_hash k)) as [ah|] eqn:E2; [|done].
  destruct (first_by _ _) as [r|] eqn:Er; [|done]. apply first_by_elem, list_elem_of_filter in Er as [Hm Hr].
  case_bool_decide as Hv; [|done]. cbn [negb]. case_bool_decide as Hk; [done|]. cbn [fst]. intros [= <-]. exists r, ai, ah.
  split_and!; try done; try (by apply Hs). unfold peek_matches in Hm. split_bool.
  destruct (lo_authority_kind r) as [kd|] eqn:Ekd; [|done]. unfold null_or_equal in *.
  repeat match goal with H : bool_decide _ = true |- _ => apply bool_decide_eq_true in H end. congruence.
Qed.
Lemma peek_unclaimed k ai ah now r : peek_matches julianday k ai ah now r = true → lo_claimed_at r = None.
Proof. unfold peek_matches. intros Hm. split_bool. by eapply bool_decide_eq_true_1. Qed.
Lemma exact_unclaimed b now r :
  exact_matches julianday b now r = true → lo_claimed_at r = None ∧ lo_authority_kind r = Some EXACT_CLOUD_AUTHORITY_KIND.
Proof.
  unfold exact_matches. intros Hm. split_bool.
  repeat match goal with H : bool_decide _ = true |- _ => apply bool_decide_eq_true in H end. done.
Qed.
Lemma exact_spec b now m db row d rev' :
  exact_row julianday b now db = Ok row → verified_decision row m rev' = Some d →
  ∃ r t, r ∈ approvals db ∧ canonical_utc_timestamp now = Ok t ∧ exact_matches julianday b t r = true
    ∧ status (verify_local_once_approval r m) = valid
    ∧ d = dict_set ($"_approval_authority_revision") (PInt rev') (local_once_approval_payload r).
Proof.
  unfold exact_row, verified_decision. intros (t & Ht & E)%bind_Ok Hd. apply Ok_inj in E. destruct row as [r|]; [|done].
  apply first_by_elem, list_elem_of_filter in E as [Hm Hr]. cbn [mbind option_bind] in Hd. case_bool_decide; [|done]. injection Hd as <-.
  by exists r, t.
Qed.

Lemma id_of_payload r : id_of (local_once_approval_payload r) = [lo_approval_id r].
Proof. reflexivity. Qed.

Lemma claim_exact_cases request expected now m db p :
  claim_exact_cloud_local_once_approval_locked julianday request expected now m db = Ok p →
  p = (None, db)
  ∨ ∃ b t r, request ≫= request_bindings = Some b ∧ canonical_utc_timestamp now = Ok t
      ∧ r ∈ approvals db ∧ exact_matches julianday b t r = true
      ∧ claim_local_once_approval_by_id julianday (lo_approval_id r) now (Some expected) m true EXACT_CLOUD_AUTHORITY_KIND db = Ok p.
Proof.
  unfold claim_exact_cloud_local_once_approval_locked. destruct (request ≫= request_bindings) as [b|] eqn:Eb; [|intros [= <-]; by left].
  intros (row & Hrow & Hc)%bind_Ok. destruct (verified_decision _ _ _) as [d|] eqn:Ed; [|injection Hc as <-; by left].
  destruct (exact_spec _ _ _ _ _ _ _ Hrow Ed) as (r & t & Hr & Ht & Hm & _ & ->). right. by exists b, t, r.
Qed.
(** A lookup that consumes: what it answers, and whether it retains. *)
Lemma consume_cases k now m db p :
  claim_local_once_approval_locked julianday k now m db = Ok p →
  p = (None, db)
  ∨ ∃ r ai ah, r ∈ approvals db ∧ lk_artifact_id k = Some ai ∧ lk_artifact_hash k = Some ah
      ∧ peek_matches julianday k ai ah now r = true ∧ lo_authority_kind r = Some LOCAL_ONCE_LEGACY_AUTHORITY_KIND
      ∧ status (verify_local_once_approval r m) = valid
      ∧ (local_once_approval_is_reusable (lo_artifact_id r) = true ∧ p = (Some (local_once_approval_payload r), db)
         ∨ claim_local_once_approval_by_id julianday (lo_approval_id r) now None m true LOCAL_ONCE_LEGACY_AUTHORITY_KIND db = Ok p).
Proof.
  unfold claim_local_once_approval_locked. destruct (peek_local_once_approval _ _ _ _ _) as [d|] eqn:Ep; [|intros [= <-]; by left].
  apply peek_spec in Ep as (r & ai & ah & Hr & H1 & H2 & Hm & Hk & Hv & ->). cbv zeta.
  change (dict_get ($"artifact_id") (local_once_approval_payload r)) with (PStr (lo_artifact_id r)).
  change (dict_get ($"approval_id") (local_once_approval_payload r)) with (PStr (lo_approval_id r)).
  cbv beta iota. intros Hc. right. exists r, ai, ah. split_and!; try done. destruct (local_once_approval_is_reusable _); [left|by right].
  by apply Ok_inj in Hc as <-.
Qed.
Lemma claim_cases id at' expected m db b db' :
  claim_local_once_approval julianday id at' expected m db = Ok (b, db') →
  ∃ d db1, claim_local_once_approval_by_id julianday id at' expected m true LOCAL_ONCE_LEGACY_AUTHORITY_KIND db = Ok (d, db1)
    ∧ b = bool_decide (d ≠ None) ∧ approvals db' = approvals db1 ∧ revision db' = revision db1.
Proof.
  unfold claim_local_once_approval. intros ([d db1] & Hc & Hd)%bind_Ok. exists d, db1. split; [done|].
  destruct d as [d|]; apply Ok_inj in Hd; injection Hd as <- <-; [done|].
  apply claim_by_id_spec in Hc as [[= ->]|(? & _ & _ & [=] & _)]. done.
Qed.

(** ** Calls and their effect *)

(** The row a recording adds. *)
Definition recorded_row (a : once_approval) (approval_id kind : pystr) (r : local_row) : Prop :=
  ∃ artifact_id artifact_hash created_at expires_at,
    string_or_none (oa_artifact_id a) = Some artifact_id ∧ string_or_none (oa_artifact_hash a) = Some artifact_hash
    ∧ canonical_utc_timestamp (oa_created_at a) = Ok created_at ∧ canonical_utc_timestamp (oa_expires_at a) = Ok expires_at
    ∧ timestamp_has_expired expires_at created_at = Ok false
    ∧ r = signed_row key key_id None created_at (approval_row a approval_id artifact_id artifact_hash created_at expires_at kind).

Lemma persist_spec a id kind db res :
  persist_local_once_approval a id key key_id kind db = Ok res →
  res = (None, db)
  ∨ ∃ r, recorded_row a id kind r ∧ row_scalar r ∧ id ∉ lo_approval_id <$> approvals db
    ∧ res = (Some id, set_approvals (approvals db ++ [r]) db).
Proof.
  unfold persist_local_once_approval. destruct (string_or_none (oa_artifact_id a)) as [ai|] eqn:E1; [|intros [= <-]; by left].
  destruct (string_or_none (oa_artifact_hash a)) as [ah|] eqn:E2; [|intros [= <-]; by left].
  intros [_ Hp]%then_Ok. apply bind_Ok in Hp as (c & Hc & Hp). apply bind_Ok in Hp as (e & He & Hp).
  apply bind_Ok in Hp as ([] & Hx & Hp); apply then_Ok in Hp as [Hn Hp]; [by apply raise_if_Ok in Hn|].
  apply bind_Ok in Hp as (db1 & Hi & Hd). apply Ok_inj in Hd as <-.
  unfold insert_approval in Hi. apply then_Ok in Hi as [Hs Hi]. apply then_Ok in Hi as [Hf Hi]. apply Ok_inj in Hi as <-.
  apply raise_if_Ok in Hs, Hf. apply negb_false_iff in Hs. apply bool_decide_eq_false in Hf. right.
  eexists. split; [by exists ai, ah, c, e|]. split; [exact Hs|]. split; [exact Hf|done].
Qed.

Lemma run_effect e db :
  honest e →
  claim_effect db (run e db)
  ∨ ∃ a id kind r, e = (true, RecordApproval a id kind) ∧ recorded_row a id kind r ∧ row_scalar r
      ∧ id ∉ lo_approval_id <$> approvals db ∧ run e db = set_approvals (approvals db ++ [r]) db.
Proof.
  intros He. destruct e as [av c]. unfold run. cbn [fst snd]. destruct c; try (left; by apply claim_effect_same); try done.
  - destruct av; [|left; by apply claim_effect_same].
    destruct (persist_local_once_approval _ _ _ _ _ _) as [res|] eqn:Er; [|left; by apply claim_effect_same].
    apply persist_spec in Er as [->|(r & Hr & Hs & Hid & ->)]; [left; by apply claim_effect_same|]. right. by exists a, approval_id, kind, r.
  - left. destruct (claim_local_once_approval _ _ _ _ _ _) as [[b db']|] eqn:Er; [|by apply claim_effect_same].
    apply claim_cases in Er as (d & db1 & Hc & _ & Ha & Hr). apply claim_by_id_effect in Hc as [H1 H2 H3]. cbn [result_db]. constructor.
    + etrans; [exact H1|by apply same_approvals].
    + unfold approval_authority_revision in *. by rewrite Hr.
    + by rewrite Ha.
  - left. destruct (claim_local_once_approval_locked _ _ _ _ _) as [[d db']|] eqn:Er; [|by apply claim_effect_same]. cbn [result_db].
    apply consume_cases in Er as [[= -> ->]|(r & ai & ah & _ & _ & _ & _ & _ & _ & [[_ [= -> ->]]|Hc])]; [by apply claim_effect_same..|].
    by eapply claim_by_id_effect.
  - left. destruct (claim_exact_cloud_local_once_approval_locked _ _ _ _ _ _) as [[d db']|] eqn:Er; [|by apply claim_effect_same].
    cbn [result_db]. apply claim_exact_cases in Er as [[= -> ->]|(b & t & r & _ & _ & _ & _ & Hc)]; [by apply claim_effect_same|]. by eapply claim_by_id_effect.
  - left. destruct (claim_approval_reuse_decisions _ _ _ _ _ _ _ _) as [[b db']|] eqn:Er; [|by apply claim_effect_same].
    cbn [result_db]. by eapply batch_effect.
  - left. constructor; [by apply same_approvals| |done]. unfold approval_authority_revision. cbn. destruct (revision db); cbn; lia.
Qed.

Lemma run_revision e db : honest e → approval_authority_revision db <= approval_authority_revision (run e db).
Proof.
  intros [[]|(a & id & kind & r & _ & _ & _ & _ & ->)]%(run_effect _ db); [done|].
  unfold approval_authority_revision. cbn. destruct (revision db); cbn; lia.
Qed.
Lemma after_revision h db : Forall honest h → approval_authority_revision db <= approval_authority_revision (after h db).
Proof.
  intros Hh. revert db. induction Hh as [|e h He _ IH]; intros db; [done|]. etrans; [by apply (run_revision e)|apply IH].
Qed.

(** Two launches whose decisions were found on the same revision of the
    tables cannot both use something up: when a batch claimed on a revision
    changed a row of the approvals or of the policies, every later batch that
    holds a decision of that revision is refused, whatever calls the store ran
    in between. *)
Theorem racing_launches_exclusive ds1 now1 clock1 av1 ids1 reading1 db db1 h ds2 now2 clock2 av2 ids2 reading2 b db2 :
  claim_approval_reuse_decisions julianday ds1 now1 clock1 (readable_key av1) ids1 reading1 db = Ok (true, db1) →
  approvals db1 ≠ approvals db ∨ policies db1 ≠ policies db → Forall honest h →
  Exists (λ d, decision_revision d = Some (approval_authority_revision db)) ds2 →
  claim_approval_reuse_decisions julianday ds2 now2 clock2 (readable_key av2) ids2 reading2 (after h db1) = Ok (b, db2) →
  b = false ∧ db2 = after h db1.
Proof.
  intros H1 Hchanged Hh Hds H2.
  assert (approval_authority_revision db < approval_authority_revision db1) as Hlt.
  { apply batch_cases in H1 as [[[=] _]|[_ (unique & expected & t & bundle & _ & _ & Ha & Hc)]].
    destruct (admitted _ _ _ Ha) as (Hact & Hall & Huniq & _). destruct Hc as [[_ ->]|[-> Hc]]; [tauto|].
    apply claim_all_spec in Hc as [_ [_ Htab Hrev _ _]]; [|done]. set (ks := used_keys unique) in *.
    assert (ks ≠ []) as Hks by (intros E; rewrite E, without_nil in Htab; injection Htab as ? ?; tauto).
    destruct unique as [|d0 unique]; [done|]. apply Forall_cons in Huniq as [Hd0 _]. rewrite Forall_forall in Hall.
    destruct (Hall d0 Hd0) as (_ & Hr & _). unfold approval_authority_revision, decision_revision in *. rewrite Hrev.
    destruct ks; [done|]. destruct (revision db); cbn in *; [lia|].
    destruct (dict_get _ d0); try done. destruct (n <? 0) eqn:En; [done|]. injection Hr as ->. done. }
  pose proof (after_revision h db1 Hh) as Hle.
  apply batch_cases in H2 as [?|[_ (unique & expected & t & bundle & _ & _ & Ha & Hc)]]; [done|]. exfalso.
  destruct (admitted _ _ _ Ha) as (_ & Hall & _ & _). rewrite Forall_forall in Hall. apply Exists_exists in Hds as (d & Hd & Er).
  destruct (Hall d Hd) as (_ & Ee & d' & Hd' & _). destruct Hc as [[-> _]|[-> _]]; [by apply not_elem_of_nil in Hd'|].
  rewrite Er in Ee. injection Ee as Ee. lia.
Qed.

(** ** Approvals are used up once *)

Lemma spent_run id e db : honest e → spent id db → spent id (run e db).
Proof.
  intros He Hs. destruct (run_effect e db He) as [[Hc _ _]|(a & id' & kind & r & _ & Hr & _ & Hf & ->)]; [by eapply spent_claims_only|].
  destruct Hs as (Hnd & r' & Hr' & Hid & Hcl). destruct Hr as (? & ? & ? & ? & _ & _ & _ & _ & _ & ->).
  split; [|exists r'; cbn; rewrite elem_of_app; auto]. cbn. rewrite fmap_app. apply NoDup_app.
  split; [done|]. split; [|apply NoDup_singleton]. intros id0 Hx ->%list_elem_of_singleton. by apply Hf.
Qed.
Lemma spent_after id h db : Forall honest h → spent id db → spent id (after h db).
Proof. intros Hh. revert db. induction Hh; intros db Hs; [done|]. apply IHHh. by apply spent_run. Qed.
Lemma unique_run e db : honest e → NoDup (lo_approval_id <$> approvals db) → NoDup (lo_approval_id <$> approvals (run e db)).
Proof.
  intros He Hnd. destruct (run_effect e db He) as [[[-> _ _] _ _]|(a & id' & kind & r & _ & Hr & _ & Hf & ->)]; [done|].
  destruct Hr as (? & ? & ? & ? & _ & _ & _ & _ & _ & ->). cbn. rewrite fmap_app. apply NoDup_app.
  split; [done|]. split; [|apply NoDup_singleton]. intros id0 Hx ->%list_elem_of_singleton. by apply Hf.
Qed.
Lemma unique_after h db : Forall honest h → NoDup (lo_approval_id <$> approvals db) → NoDup (lo_approval_id <$> approvals (after h db)).
Proof. intros Hh. revert db. induction Hh; intros db Hs; [done|]. apply IHHh. by apply unique_run. Qed.

(** What a row must satisfy to answer a call. *)
Definition answers (e : event) (r : local_row) : Prop :=
  match e.2 with
  | Peek k now | Consume k now =>
      lo_authority_kind r = Some LOCAL_ONCE_LEGACY_AUTHORITY_KIND
      ∧ ∃ ai ah, lk_artifact_id k = Some ai ∧ lk_artifact_hash k = Some ah ∧ peek_matches julianday k ai ah now r = true
  | PeekExact request now | ClaimExact request _ now =>
      ∃ b t, request ≫= request_bindings = Some b ∧ canonical_utc_timestamp now = Ok t ∧ exact_matches julianday b t r = true
  | Claim id at' expected =>
      lo_authority_kind r = Some LOCAL_ONCE_LEGACY_AUTHORITY_KIND ∧ lo_approval_id r = id
      ∧ (∃ t, canonical_utc_timestamp at' = Ok t ∧ unexpired julianday (lo_expires_at r) t = true)
      ∧ ∀ d, expected = Some d → same_under identity_keys (local_once_approval_payload r) d = true
  | ClaimBatch ds now clock _ _ =>
      lo_authority_kind r = Some LOCAL_ONCE_LEGACY_AUTHORITY_KIND
      ∧ (∃ t t', canonical_utc_timestamp (default (isoformat_utc clock) (string_or_none now)) = Ok t
           ∧ canonical_utc_timestamp t = Ok t' ∧ unexpired julianday (lo_expires_at r) t' = true)
      ∧ ∃ d, d ∈ ds ∧ is_action_allow d = true ∧ same_under identity_keys (local_once_approval_payload r) d = true
  | _ => False
  end.
Definition answering (e : event) (db : authority_db) (id : pystr) (r : local_row) : Prop :=
  r ∈ approvals db ∧ lo_approval_id r = id ∧ lo_claimed_at r = None
  ∧ status (verify_local_once_approval r (readable_key e.1)) = valid ∧ answers e r.

Lemma spent_not_answering e db id r : spent id db → ¬ answering e db id r.
Proof.
  intros (Hnd & r' & Hr' & Hid & Hcl) (Hr & Hid' & Hun & _). assert (r' = r) as ->; [|done]. eapply ids_unique; eauto. congruence.
Qed.
Lemma key_ids_elem id ks : id ∈ key_ids ks ↔ KApproval id ∈ ks.
Proof.
  unfold key_ids. rewrite list_elem_of_omap. split; [intros ([] & Hk & [= ->]); done|]. intros Hk. by exists (KApproval id).
Qed.

Lemma batch_answering ds now clock av ids reading db db' id :
  claim_approval_reuse_decisions julianday ds now clock (readable_key av) ids reading db = Ok (true, db') →
  id ∈ key_ids (omap decision_key_of ds) → ∃ r, answering (av, ClaimBatch ds now clock ids reading) db id r.
Proof.
  intros Hc Hid. apply key_ids_elem, list_elem_of_omap in Hid as (d & Hd & Hk).
  apply batch_cases in Hc as [[[=] _]|[_ (unique & expected & t & bundle & Ht & _ & Ha & Hc)]].
  destruct (admitted _ _ _ Ha) as (Hact & Hall & Huniq & _). rewrite Forall_forall in Hall, Huniq.
  destruct (Hall d Hd) as (_ & _ & d' & Hd' & Ek). destruct Hc as [[-> _]|[_ Hc]]; [by apply not_elem_of_nil in Hd'|].
  apply claim_all_spec in Hc as [Hg _]; [|done]. rewrite Forall_forall in Hg, Hact. pose proof (Hg d' Hd') as Hgr.
  unfold grounded in Hgr. rewrite Ek, Hk in Hgr. destruct Hgr as (r & [] & Hs). exists r. split_and!; try done.
  unfold answers. cbn [snd]. split; [done|]. split; [naive_solver|]. exists d'. auto.
Qed.

Lemma grants_answering e db id : NoDup (lo_approval_id <$> approvals db) → id ∈ grants e db → ∃ r, answering e db id r.
Proof.
  intros Hnd. destruct e as [av c]. unfold grants. cbn [fst snd]. destruct c; try (by intros ?%not_elem_of_nil).
  - destruct (peek_local_once_approval _ _ _ _ _) as [d|] eqn:Ep; [|by intros ?%not_elem_of_nil]. cbn [from_option].
    apply peek_spec in Ep as (r & ai & ah & Hr & H1 & H2 & Hm & Hk & Hv & ->). rewrite id_of_payload, list_elem_of_singleton. intros ->.
    exists r. split_and!; try done; [by eapply peek_unclaimed|]. split; [done|]. by exists ai, ah.
  - destruct (peek_exact_cloud_local_once_approval _ _ _ _ _) as [[d|]|] eqn:Ep; try (by intros ?%not_elem_of_nil).
    unfold peek_exact_cloud_local_once_approval in Ep. destruct (readable_key av) eqn:Em; [|done].
    destruct (request ≫= request_bindings) as [b|] eqn:Eb; [|done]. apply bind_Ok in Ep as (row & Hrow & Ed). apply Ok_inj in Ed.
    rewrite <- Em in Ed. eapply exact_spec in Hrow as (r & t & Hr & Ht & Hm & Hv & ->); [|exact Ed].
    change (id_of _) with [lo_approval_id r]. rewrite list_elem_of_singleton. intros ->.
    exists r. split_and!; try done; [by apply exact_unclaimed in Hm as []|]. by exists b, t.
  - destruct (claim_local_once_approval _ _ _ _ _ _) as [[[] db']|] eqn:Er; try (by intros ?%not_elem_of_nil).
    apply claim_cases in Er as ([d|] & db1 & Hc & Hb & _); [|by case_bool_decide]. rewrite list_elem_of_singleton. intros ->.
    apply claim_by_id_spec in Hc as [[=]|(r & [] & Hs & _ & _)]. by exists r.
  - destruct (claim_local_once_approval_locked _ _ _ _ _) as [[[d|] db']|] eqn:Er; try (by intros ?%not_elem_of_nil).
    cbn [granted]. intros Hid. apply consume_cases in Er as [[=]|(r & ai & ah & Hr & H1 & H2 & Hm & Hk & Hv & Hor)].
    assert (id = lo_approval_id r) as ->.
    { destruct Hor as [[_ [= -> ->]]|[[=]|(r' & [] & _ & [= -> ->] & _)]%claim_by_id_spec];
        rewrite id_of_payload, list_elem_of_singleton in Hid; congruence. }
    exists r. split_and!; try done; [by eapply peek_unclaimed|]. split; [done|]. by exists ai, ah.
  - destruct (claim_exact_cloud_local_once_approval_locked _ _ _ _ _ _) as [[[d|] db']|] eqn:Er; try (by intros ?%not_elem_of_nil).
    cbn [granted]. intros Hid. apply claim_exact_cases in Er as [[=]|(b & t & r & Hb & Ht & Hr & Hm & Hc)].
    apply claim_by_id_spec in Hc as [[=]|(r' & [] & _ & [= -> ->] & _)]. rewrite id_of_payload, list_elem_of_singleton in Hid. subst.
    assert (r = r') as -> by (eapply ids_unique; eauto). exists r'. split_and!; try done. by exists b, t.
  - destruct (claim_approval_reuse_decisions _ _ _ _ _ _ _ _) as [[[] db']|] eqn:Er; try (by intros ?%not_elem_of_nil).
    by eapply batch_answering.
Qed.

Lemma uses_grants e db id : id ∈ uses e db → id ∈ grants e db.
Proof.
  destruct e as [av c]. unfold uses, grants. cbn [fst snd]. destruct c; try done; try (by intros ?%not_elem_of_nil).
  - destruct (claim_local_once_approval_locked _ _ _ _ _) as [[[d|] db']|]; cbn [granted]; try done.
    set (reusable := match dict_get ($"artifact_id") d with PStr _ => _ | _ => _ end). destruct reusable; [by intros ?%not_elem_of_nil|done].
  - destruct (claim_approval_reuse_decisions _ _ _ _ _ _ _ _) as [[[] db']|]; try (by intros ?%not_elem_of_nil).
    destruct (admit_decisions ds None []) as [[unique expected]|] eqn:Ea; [|by intros ?%not_elem_of_nil].
    destruct (admitted _ _ _ Ea) as (_ & _ & Huniq & _). intros Hid%key_ids_elem. apply key_ids_elem.
    apply list_elem_of_omap in Hid as (d & Hd & Hk). case_bool_decide; [|done]. rewrite Forall_forall in Huniq.
    apply list_elem_of_omap. exists d. auto.
Qed.

Lemma spent_equal id db db' :
  spent id db → lo_approval_id <$> approvals db' = lo_approval_id <$> approvals db → approvals db' = approvals db → spent id db'.
Proof. intros (Hnd & Hr) Hids Ha. split; [by rewrite Hids|by rewrite Ha]. Qed.

Lemma uses_spent e db id : NoDup (lo_approval_id <$> approvals db) → id ∈ uses e db → spent id (run e db).
Proof.
  intros Hnd Hu. pose proof (grants_answering _ _ _ Hnd (uses_grants _ _ _ Hu)) as (r & Hr & Hid & Hun & _).
  destruct e as [av c]. unfold uses, grants, run in *. cbn [fst snd] in *. destruct c; try (by apply not_elem_of_nil in Hu).
  - destruct (claim_local_once_approval _ _ _ _ _ _) as [[[] db']|] eqn:Er; try (by apply not_elem_of_nil in Hu). cbn [result_db].
    apply list_elem_of_singleton in Hu as ->. apply claim_cases in Er as ([d|] & db1 & Hc & Hb & Ha & _); [|by case_bool_decide].
    apply consumed_spent in Hc; [|done]. eapply spent_equal; [exact Hc|by rewrite Ha|done].
  - destruct (claim_local_once_approval_locked _ _ _ _ _) as [[[d|] db']|] eqn:Er; try (by apply not_elem_of_nil in Hu).
    cbn [granted result_db] in *. apply consume_cases in Er as [[=]|(r' & ai & ah & _ & _ & _ & _ & _ & _ & [[Hre [= -> ->]]|Hc])].
    + change (dict_get ($"artifact_id") (local_once_approval_payload r')) with (PStr (lo_artifact_id r')) in Hu. cbv beta iota in Hu.
      rewrite Hre in Hu. by apply not_elem_of_nil in Hu.
    + pose proof Hc as Hs. apply consumed_spent in Hc; [|done]. apply claim_by_id_spec in Hs as [[=]|(r'' & [] & _ & [= -> _] & _)].
      set (reusable := match dict_get ($"artifact_id") _ with PStr _ => _ | _ => _ end) in Hu.
      destruct reusable; [by apply not_elem_of_nil in Hu|]. rewrite id_of_payload, list_elem_of_singleton in Hu. congruence.
  - destruct (claim_exact_cloud_local_once_approval_locked _ _ _ _ _ _) as [[[d|] db']|] eqn:Er; try (by apply not_elem_of_nil in Hu).
    cbn [granted result_db] in *. apply claim_exact_cases in Er as [[=]|(b & t & r' & _ & _ & _ & _ & Hc)].
    pose proof Hc as Hs. apply consumed_spent in Hc; [|done]. apply claim_by_id_spec in Hs as [[=]|(r'' & [] & _ & [= -> _] & _)].
    rewrite id_of_payload, list_elem_of_singleton in Hu. congruence.
  - destruct (claim_approval_reuse_decisions _ _ _ _ _ _ _ _) as [[[] db']|] eqn:Er; try (by apply not_elem_of_nil in Hu).
    cbn [result_db]. apply batch_cases in Er as [[[=] _]|[_ (unique & expected & t & bundle & _ & _ & Ha & Hc)]].
    rewrite Ha in Hu. apply key_ids_elem in Hu. destruct (admitted _ _ _ Ha) as (Hact & _ & _ & _).
    destruct Hc as [[-> _]|[_ Hc]]; [by apply not_elem_of_nil in Hu|].
    apply claim_all_spec in Hc as [_ [[Hids _ _] [= Htab _] _ _ Hcl]]; [|done]. split; [by rewrite Hids|].
    exists (claim_row (readable_key av) t r). split; [|split; [by rewrite claim_row_id|by eapply Hcl]].
    rewrite Htab. apply list_elem_of_fmap. exists r. rewrite bool_decide_eq_true_2; [done|]. by rewrite Hid.
Qed.

(** C36: An approval is used up once.  In a table whose approval identifiers are
    unique (its primary key), and as long as only the store's own calls change
    the database, in any order and with the key readable or not: once a claim,
    a consuming lookup, an exact Cloud claim or a batch used an approval up, no
    later call grants it, neither a lookup, nor a claim by identifier, nor the
    exact Cloud path, nor a batch that would only retain it. *)
Theorem approval_used_once db h1 e1 h2 e2 id :
  NoDup (lo_approval_id <$> approvals db) → Forall honest (h1 ++ e1 :: h2) →
  id ∈ uses e1 (after h1 db) → id ∉ grants e2 (after (h1 ++ e1 :: h2) db).
Proof.
  intros Hnd Hh Hu Hg. apply Forall_app in Hh as [Hh1 [He1 Hh2]%Forall_cons].
  pose proof (unique_after h1 db Hh1 Hnd) as Hnd1. pose proof (uses_spent _ _ _ Hnd1 Hu) as Hs.
  apply (spent_after _ h2) in Hs; [|done]. rewrite after_app in Hg. cbn [after foldl] in Hg.
  destruct (grants_answering e2 (after h2 (run e1 (after h1 db))) id) as (r & Hr); [apply Hs|exact Hg|].
  by eapply spent_not_answering.
Qed.

(** ** What is granted was recorded *)

(** Rows that a call of the store wrote. *)
Definition written (h : list event) (db : authority_db) (r : local_row) : Prop :=
  ∃ h1 e h2, h = h1 ++ e :: h2 ∧ honest e ∧ r ∈ approvals (run e (after h1 db)) ∧ r ∉ approvals (after h1 db).
(** A change of the database without the key: any rows the schema admits, so
    long as a row with a valid signature carries bytes the store signed before. *)
Definition unforged (h : list event) (db : authority_db) : Prop :=
  ∀ h1 av db' h2, h = h1 ++ (av, Tamper db') :: h2 →
    NoDup (lo_approval_id <$> approvals db') ∧ Forall row_scalar (approvals db')
    ∧ ∀ r, r ∈ approvals db' → status (verify_local_once_approval r (Some (key, key_id))) = valid →
        ∃ r0, written h1 db r0 ∧ row_bytes r0 = row_bytes r.

Lemma written_snoc h e db r : written h db r → written (h ++ [e]) db r.
Proof. intros (h1 & e' & h2 & -> & Hr). exists h1, e', (h2 ++ [e]). by rewrite <- app_assoc. Qed.
Lemma written_last h e db r :
  honest e → r ∈ approvals (run e (after h db)) → r ∉ approvals (after h db) → written (h ++ [e]) db r.
Proof. intros. by exists h, e, []. Qed.

Lemma run_scalar e db : honest e → Forall row_scalar (approvals db) → Forall row_scalar (approvals (run e db)).
Proof.
  intros He Hs. destruct (run_effect e db He) as [[_ _ H3]|(a & id & kind & r & _ & _ & Hr & _ & ->)]; [by apply H3|].
  cbn. apply Forall_app. split; [done|]. by apply Forall_singleton.
Qed.

Record genuine (h : list event) (db0 : authority_db) : Prop := {
  ge_unique : NoDup (lo_approval_id <$> approvals (after h db0));
  ge_scalar : Forall row_scalar (approvals (after h db0));
  ge_written : ∀ r, r ∈ approvals (after h db0) → status (verify_local_once_approval r (Some (key, key_id))) = valid →
    ∃ r0, written h db0 r0 ∧ row_scalar r0 ∧ row_bytes r0 = row_bytes r;
  ge_all_scalar : ∀ r0, written h db0 r0 → row_scalar r0;
}.

Lemma unforged_prefix h h' db : unforged (h ++ h') db → unforged h db.
Proof. intros Hu h1 av db' h2 ->. apply (Hu h1 av db' (h2 ++ h')). by rewrite <- app_assoc. Qed.

Lemma written_cases h e db r : written (h ++ [e]) db r → written h db r ∨ honest e ∧ r ∈ approvals (run e (after h db)).
Proof.
  intros (h1 & e' & h2 & E & He & Hr & Hn). destruct h2 as [|x h2 _] using rev_ind.
  - apply app_inj_tail in E as [-> ->]. by right.
  - left. exists h1, e', h2. rewrite app_comm_cons, app_assoc in E. by apply app_inj_tail in E as [-> _].
Qed.

Lemma genuine_history h db0 : approvals db0 = [] → unforged h db0 → genuine h db0.
Proof.
  intros Hempty. induction h as [|e h IH] using rev_ind; intros Hu.
  { constructor; cbn; rewrite ?Hempty; [constructor|constructor|by intros r ?%not_elem_of_nil|].
    intros r (h1 & e & h2 & E & _). by destruct h1. }
  destruct (IH (unforged_prefix _ _ _ Hu)) as [Hnd Hs Hw Has].
  assert (after (h ++ [e]) db0 = run e (after h db0)) as E by (by rewrite after_app).
  destruct (decide (honest e)) as [He|Hne].
  - pose proof (run_scalar e _ He Hs) as Hs'.
    assert (∀ r0, written (h ++ [e]) db0 r0 → row_scalar r0) as Has'.
    { intros r0 [?|[_ Hr]]%written_cases; [by apply Has|]. rewrite Forall_forall in Hs'. by apply Hs'. }
    constructor; rewrite ?E; [by apply unique_run|done| |done]. intros r Hr Hv.
    destruct (decide (r ∈ approvals (after h db0))) as [Hin|Hnin].
    + destruct (Hw r Hin Hv) as (r0 & Hr0 & Hsc & Hb). exists r0. split; [by apply written_snoc|done].
    + exists r. split; [by apply written_last|]. split; [|done]. rewrite Forall_forall in Hs'. by apply Hs'.
  - destruct e as [av c]. destruct c; try done. destruct (Hu h av db []) as (Hnd' & Hs' & Hf); [done|].
    assert (∀ r0, written (h ++ [(av, Tamper db)]) db0 r0 → row_scalar r0) as Has'.
    { intros r0 [?|[[] _]]%written_cases. by apply Has. }
    constructor; rewrite ?E; [done|done| |done]. intros r Hr Hv. destruct (Hf r Hr Hv) as (r0 & Hr0 & Hb).
    exists r0. split; [by apply written_snoc|]. split; [by apply Has|done].
Qed.

(** A granted approval was recorded.  Start from a store without approvals
    and let anyone rewrite the database between the calls, without the store's
    key: whatever call answers for an approval, the row it answers with carries
    the decision, column for column, that a call of the store recorded under
    that identifier with the key (same request, harness, artifact, workspace
    key, publisher, action, creation, expiry and authority kind), is unclaimed
    and unexpired by the call's time, and matches what the call asked for.  A
    tampered row may carry a valid signature only over bytes the store signed
    before ([unforged]). *)
Theorem grant_was_recorded h e db0 id :
  approvals db0 = [] → unforged h db0 → id ∈ grants e (after h db0) →
  ∃ r a kind h1 h2 r0, answering e (after h db0) id r
    ∧ h = h1 ++ (true, RecordApproval a id kind) :: h2 ∧ recorded_row a id kind r0
    ∧ local_once_approval_payload r = local_once_approval_payload r0.
Proof.
  intros Hempty Hu Hg. destruct (genuine_history h db0 Hempty Hu) as [Hnd Hs Hw _].
  destruct (grants_answering _ _ _ Hnd Hg) as (r & Hans). pose proof Hans as (Hr & Hid & Hun & Hv & _).
  assert (readable_key e.1 = Some (key, key_id)) as Ek.
  { apply valid_row in Hv as (k & i & _ & E & _). unfold readable_key in *. by destruct e.1. }
  rewrite Ek in Hv. destruct (Hw r Hr Hv) as (r0 & (h1 & e' & h2 & -> & He' & Hin & Hnew) & Hsc & Hb).
  apply row_bytes_inj in Hb as (Hcols & Hcl & Hat); [|done|rewrite Forall_forall in Hs; by apply Hs].
  destruct (run_effect e' (after h1 db0) He') as [[[_ _ Hco] _ _]|(a & id' & kind & r1 & -> & Hrec & _ & _ & E)];
    [exfalso; apply Hnew, Hco; [exact Hin|congruence]|].
  rewrite E in Hin. cbn in Hin. apply elem_of_app in Hin as [?| ->%list_elem_of_singleton]; [done|].
  pose proof Hrec as (ai & ah & c & ex & _ & _ & _ & _ & _ & Er1).
  assert (id' = id) as ->.
  { assert (lo_approval_id r1 = lo_approval_id r) as Eid by exact (f_equal lo_approval_id Hcols). rewrite Er1 in Eid. cbn in Eid. congruence. }
  exists r, a, kind, h1, h2, r1. split; [done|]. split; [done|]. split; [done|].
  apply valid_row in Hv as (k & i & at' & [= <- <-] & Hver & Hkid & Hsat & _).
  apply payload_same; [done|rewrite Hver; by rewrite Er1|rewrite Hkid; by rewrite Er1|].
  rewrite Hsat in Hat |- *. rewrite Er1 in Hat |- *. cbn in Hat |- *. by rewrite Hat.
Qed.

End history.

(** ** A concrete store *)

Section sample.
#[local] Instance sample_unicode : PyUnicode := ascii_unicode.
#[local] Instance sample_reader : PyIsoFormat := canonical_reader.
(** Instants in milliseconds, as SQLite keeps them. *)
Definition sample_julianday (s : pystr) : option Z := (λ d, local_us d / 1000) <$> fromisoformat s.
Definition sample_key : list Z := replicate 32 7.
Definition noon : pystr := $"2026-03-01T12:00:00.000000+00:00".
Definition one_o'clock : pystr := $"2026-03-01T13:00:00.000000+00:00".
Definition empty_db : authority_db := {| approvals := []; policies := []; revision := Some 0; events := [] |}.

(** A one-time policy row, and the decision a lookup found with it. *)
Definition sample_policy : policy_row :=
  sign_local_policy_row
    {| pr_decision_id := 7; pr_harness := $"codex"; pr_scope := $"artifact"; pr_artifact_id := Some ($"tool"); pr_action := $"allow";
       pr_artifact_hash := Some ($"h"); pr_workspace := None; pr_publisher := None; pr_source := $"approval-gate"; pr_reason := None;
       pr_owner := None; pr_expires_at := Some one_o'clock; pr_updated_at := noon;
       pr_integrity := unsigned; pr_integrity_generation := None |} sample_key ($"key") noon 1.
Definition sample_reading (_ : policy_row) : integrity_reading :=
  {| ir_mode := $"protected"; ir_enforcement := $"enforce"; ir_generation := Some 1; ir_material := Some (sample_key, $"key") |}.
Definition policy_db : authority_db := {| approvals := []; policies := [sample_policy]; revision := Some 3; events := [] |}.
Definition sample_decision : pydict :=
  dict_set ($"_approval_authority_revision") (PInt 3)
    (policy_row_payload sample_policy {| status := valid; vr_payload_hash := None; vr_key_id := None; message := None |}
       (Some ($"protected", $"enforce"))).
Definition sample_batch (db : authority_db) : result (bool * authority_db) :=
  claim_approval_reuse_decisions sample_julianday [sample_decision] (Some noon) 0 (readable_key sample_key ($"key") true) []
    sample_reading db.
Definition accepted (r : result (bool * authority_db)) : bool := match r with Ok (b, _) => b | Raise _ => false end.

#[local] Opaque sample_policy sample_decision.

Lemma batch_claims_together_witness :
  ∃ db', sample_batch policy_db = Ok (true, db') ∧ approval_authority_revision db' = 4 ∧ policies db' = [].
Proof.
  assert (accepted (sample_batch policy_db) = true) as Hok by (vm_compute; reflexivity).
  destruct (sample_batch policy_db) as [[[] db']|] eqn:E; try discriminate Hok. exists db'. split; [reflexivity|].
  unfold sample_batch in E. pose proof (batch_claims_together sample_julianday _ _ _ _ _ _ _ _ _ E) as [[Hf _]|[_ [[Hf _]|H]]];
    [discriminate Hf|discriminate Hf|]. clear E Hok. destruct H as (unique & t & bundle & _ & _ & Hall & Hu & Hnd & Htab & Hrev & _).
  assert (unique = [sample_decision]) as ->.
  { destruct unique as [|d1 [|d2 unique]].
    - apply Forall_cons in Hall as [(_ & _ & d' & Hd' & _) _]. by apply not_elem_of_nil in Hd'.
    - apply Forall_cons in Hu as [[->%list_elem_of_singleton _] _]. reflexivity.
    - apply Forall_cons in Hu as [[->%list_elem_of_singleton _] Hu]. apply Forall_cons in Hu as [[->%list_elem_of_singleton _] _].
      cbn [fmap list_fmap] in Hnd. apply NoDup_cons in Hnd as [Hn _]. destruct Hn. left. }
  assert (used_keys [sample_decision] = [KPolicy 7]) as Hk by (vm_compute; reflexivity). rewrite Hk in Htab, Hrev.
  split; [exact Hrev|]. transitivity (without_keys [KPolicy 7] (readable_key sample_key ($"key") true) t policy_db).2.
  - exact (f_equal snd Htab).
  - vm_compute. reflexivity.
Defined.

(** The decision was looked up twice; the second launch comes too late. *)
Lemma racing_launches_exclusive_witness :
  ∃ db' db2, sample_batch policy_db = Ok (true, db') ∧ sample_batch db' = Ok (false, db2) ∧ db2 = db'.
Proof.
  assert (accepted (sample_batch policy_db) = true) as Hok by (vm_compute; reflexivity).
  assert (match sample_batch policy_db with Ok (_, db') => is_ok (sample_batch db') && bool_decide (policies db' = []) | _ => false end
          = true) as Hok2 by (vm_compute; reflexivity).
  assert (decision_revision sample_decision = Some 3) as Hr by (vm_compute; reflexivity).
  destruct (sample_batch policy_db) as [[[] db']|] eqn:E; try discriminate Hok. apply andb_true_iff in Hok2 as [Hok2 Hp].
  apply bool_decide_eq_true in Hp. destruct (sample_batch db') as [[b db2]|] eqn:E2; [|discriminate Hok2].
  exists db', db2. split; [reflexivity|]. unfold sample_batch in E, E2.
  assert (Exists (λ d, decision_revision d = Some 3) [sample_decision]) as Hex by (constructor; exact Hr).
  destruct (racing_launches_exclusive sample_julianday sample_key ($"key") eq_refl _ _ _ _ _ _ _ _ [] _ _ _ _ _ _ _ _ E
              ltac:(right; rewrite Hp; discriminate) ltac:(constructor) Hex E2) as [Hb Hdb].
  split; [|exact Hdb]. unfold sample_batch. rewrite E2, Hb. reflexivity.
Defined.

(** ** A concrete approval *)

Definition sample_approval : once_approval :=
  {| oa_request_id := $"req"; oa_harness := $"codex"; oa_artifact_id := Some ($"tool"); oa_artifact_hash := Some ($"h");
     oa_workspace := None; oa_publisher := None; oa_action := $"allow"; oa_created_at := noon;
     oa_expires_at := one_o'clock |}.
Definition sample_record : bool * call := (true, RecordApproval sample_approval ($"a1") LOCAL_ONCE_LEGACY_AUTHORITY_KIND).
Definition sample_lookup : lookup :=
  {| lk_harness := $"codex"; lk_artifact_id := Some ($"tool"); lk_artifact_hash := Some ($"h"); lk_workspace := None; lk_publisher := None |}.
Definition sample_peek : bool * call := (true, Peek sample_lookup noon).
Definition sample_consume : bool * call := (true, Consume sample_lookup noon).
Notation sample_after := (after sample_julianday sample_key ($"key")).
Notation sample_grants := (grants sample_julianday sample_key ($"key")).
Notation sample_uses := (uses sample_julianday sample_key ($"key")).

Lemma approval_used_once_witness :
  ($"a1") ∈ sample_uses sample_consume (sample_after [sample_record] empty_db)
  ∧ ($"a1") ∉ sample_grants sample_peek (sample_after ([sample_record] ++ sample_consume :: []) empty_db).
Proof.
  assert (($"a1") ∈ sample_uses sample_consume (sample_after [sample_record] empty_db)) as Hu.
  { apply (bool_decide_unpack _). vm_compute. exact I. }
  split; [exact Hu|].
  apply (approval_used_once sample_julianday sample_key ($"key") eq_refl); [constructor|repeat constructor|exact Hu].
Defined.

(** The database is rewritten after the recording: a row without a signature is
    put before the recorded one. *)
Definition planted : local_row :=
  approval_row sample_approval ($"a2") ($"tool") ($"h") noon one_o'clock LOCAL_ONCE_LEGACY_AUTHORITY_KIND.
Definition rewritten : authority_db :=
  {| approvals := approvals (sample_after [sample_record] empty_db) ++ [planted]; policies := []; revision := Some 1; events := [] |}.
Definition sample_history : list (bool * call) := [sample_record; (true, Tamper rewritten)].
Lemma grant_was_recorded_witness :
  unforged sample_julianday sample_key ($"key") sample_history empty_db
  ∧ ($"a1") ∈ sample_grants sample_peek (sample_after sample_history empty_db)
  ∧ ∃ r a kind h1 h2 r0, answering sample_julianday sample_key ($"key") sample_peek (sample_after sample_history empty_db) ($"a1") r
      ∧ sample_history = h1 ++ (true, RecordApproval a ($"a1") kind) :: h2
      ∧ recorded_row sample_key ($"key") a ($"a1") kind r0
      ∧ local_once_approval_payload r = local_once_approval_payload r0.
Proof.
  assert (unforged sample_julianday sample_key ($"key") sample_history empty_db) as Hu.
  { intros h1 av db' h2 E. destruct h1 as [|e1 [|e2 h1]]; [discriminate E| |by destruct h1].
    injection E as <- <- <- <-. split; [apply (bool_decide_unpack _); vm_compute; exact I|].
    split; [apply (forallb_Forall (λ r, forallb (forallb scalar) (row_texts r))); vm_compute; reflexivity|].
    intros r Hr Hv. exists r. split; [|reflexivity].
    exists [], sample_record, []. split; [reflexivity|]. split; [exact I|]. split; [|apply not_elem_of_nil].
    apply elem_of_app in Hr as [Hr| ->%list_elem_of_singleton]; [exact Hr|]. exfalso. vm_compute in Hv. discriminate Hv. }
  assert (($"a1") ∈ sample_grants sample_peek (sample_after sample_history empty_db)) as Hg.
  { apply (bool_decide_unpack _). vm_compute. exact I. }
  split; [exact Hu|]. split; [exact Hg|].
  exact (grant_was_recorded sample_julianday sample_key ($"key") eq_refl sample_history sample_peek empty_db ($"a1") eq_refl Hu Hg).
Defined.

End sample.
End SavedHistory.

