(* ===== verification/HookScheduler.v ===== *)
(** * Runtime hook scheduler

    Models [daemon/runtime_hook_scheduler.py], [runtime_hook_scheduler_contracts.py],
    [runtime_hook_scheduler_types.py] and [runtime_hook_deadline.py]: the daemon
    admits hook reviews under limits on running work, queued work and retained
    bytes, serves three lanes by weighted deficit round robin with an age
    boost, shares the slots between clients, and rejects what cannot finish
    before its deadline.

    A method runs under the condition's lock, so it is a function on the
    scheduler's attributes: a state and exception monad [M], in which an
    exception keeps what was assigned before it.  [condition.wait] gives the
    lock away: [acquire], [reserve_bytes] and [grow_reserved_bytes] are split
    there, and a call in progress is resumed at any time ([run]).  The injected
    [monotonic] is a sequence of readings, one per call.  Times are integers
    (nanoseconds) where the code has floating-point seconds.

    The queue holds the same mutable objects as the waiting calls do.  What a
    method writes to such an object ([admitted], [admitted_at],
    [rejection_reason]) is kept in [fates], indexed by the object's unique
    sequence number, so every holder sees it.  Cancellation events are numbers
    and [set_events] those that are set: between critical sections by the event
    [Cancel], and before any [is_set()] of a critical section by the
    environment ([cancels]), as [threading.Event.set] takes no lock. *)

From stdpp Require Import functions.
From S2P Require Import Prelude PyStr.
Local Open Scope Z_scope.
Local Open Scope py_scope.

Module Scheduler.

(** ** Types and constants *)

Inductive RuntimeHookLane := decision | content_security | evidence.
Global Instance RuntimeHookLane_eq_dec : EqDecision RuntimeHookLane.
Proof. solve_decision. Defined.

Inductive RuntimeHookAdmissionReason :=
  daemon_hook_deadline_exhausted | daemon_hook_queue_capacity | daemon_hook_queue_bytes.
Global Instance RuntimeHookAdmissionReason_eq_dec : EqDecision RuntimeHookAdmissionReason.
Proof. solve_decision. Defined.

Definition LANES : list RuntimeHookLane := [decision; content_security; evidence].
Definition LANE_WEIGHTS (l : RuntimeHookLane) : Z :=
  match l with decision => 4 | content_security => 3 | evidence => 1 end.

Definition AGE_BOOST : Z := 500000000.
Definition DEFAULT_SERVICE : Z := 750000000.
Definition MIN_SERVICE : Z := 100000000.
Definition MAX_SERVICE : Z := 2800000000.
Definition MIN_PREDICTION_SAMPLES : nat := 20.
Definition HISTOGRAM_WINDOW : Z := 60000000000.
Definition STABLE_HARNESSES : list pystr :=
  [$"pi"; $"omp"; $"codex"; $"claude-code"; $"cursor"; $"opencode"].

(** [deque(maxlen=2048)] *)
Definition SAMPLES : nat := 2048.

(** ** Deadlines *)

Definition MIN_BUDGET : Z := 100000000.
Definition MAX_BUDGET : Z := 4000000000.
Definition DEFAULT_BUDGET : Z := 4000000000.
Definition TRANSPORT_RESERVE : Z := 250000000.
Definition SERIALIZATION_RESERVE : Z := 50000000.

Record RuntimeHookDeadline := {
  expires_at : Z;
  transport_reserve : Z;
  serialization_reserve : Z;
}.
Global Instance RuntimeHookDeadline_eq_dec : EqDecision RuntimeHookDeadline.
Proof. solve_decision. Defined.

(** A hint is [None] when it is not a finite number. *)
Definition clamp_budget (remaining_hint : option Z) : Z :=
  match remaining_hint with
  | None => DEFAULT_BUDGET
  | Some value => Z.min MAX_BUDGET (Z.max MIN_BUDGET value)
  end.

Definition from_remaining_hint (remaining_hint : option Z) (now : Z) : RuntimeHookDeadline :=
  {| expires_at := now + Z.max MIN_BUDGET (clamp_budget remaining_hint - TRANSPORT_RESERVE);
     transport_reserve := TRANSPORT_RESERVE;
     serialization_reserve := SERIALIZATION_RESERVE |}.

Definition remaining (d : RuntimeHookDeadline) (now : Z) : Z := Z.max 0 (expires_at d - now).
Definition remaining_for_work (d : RuntimeHookDeadline) (now : Z) : Z :=
  Z.max 0 (remaining d now - serialization_reserve d).
Definition can_dispatch (d : RuntimeHookDeadline) (predicted now : Z) : bool :=
  predicted <=? remaining_for_work d now.

(** ** State *)

Record QueuedRuntimeHook := {
  sequence : Z;
  harness : pystr;
  client_key : pystr;
  lane : RuntimeHookLane;
  payload_bytes : Z;
  deadline : RuntimeHookDeadline;
  queued_at : Z;
  normalized_payload : list Z;
  cancellation : option nat;
}.
Global Instance QueuedRuntimeHook_eq_dec : EqDecision QueuedRuntimeHook.
Proof. solve_decision. Defined.

(** What became of a hook that was queued. *)
Inductive fate := Admitted_at (t : Z) | Rejected_for (r : RuntimeHookAdmissionReason).

(** A byte reservation: its size, and whether it was transferred or released.
    A scheduler keeps no list of its reservations; they are numbered here so
    that the calls that share one see its updates.  [is_owned_by] holds for the
    reservations of this scheduler, which are the only ones here. *)
Record RuntimeHookByteReservation := {
  reserved_bytes : Z;
  reservation_transferred : bool;
  reservation_released : bool;
}.
Global Instance RuntimeHookByteReservation_eq_dec : EqDecision RuntimeHookByteReservation.
Proof. solve_decision. Defined.


Definition group_key : Type := pystr * pystr.
Definition group : Type := group_key * list QueuedRuntimeHook.

Record limits := {
  per_harness_active_limit : Z;
  queued_limit : Z;
  per_harness_queued_limit : Z;
  per_client_queued_limit : Z;
  retained_bytes_limit : Z;
}.

(** The counters of the work held. *)
Record tallies := {
  queued : Z;
  queued_by_harness : gmap pystr Z;
  queued_by_client : gmap pystr Z;
  active : Z;
  active_by_harness : gmap pystr Z;
  active_by_client : gmap pystr Z;
  retained_bytes : Z;
}.

(** The counters and samples that are only reported. *)
Record metrics := {
  admitted : Z;
  completed : Z;
  expired : Z;
  cancelled : Z;
  retries : Z;
  rejected : RuntimeHookAdmissionReason → Z;
  queue_wait_samples : list Z;
  service_time_samples : list Z;
  queue_wait_by_lane : RuntimeHookLane → list (Z * Z);
  service_time_by_lane : RuntimeHookLane → list (Z * Z);
}.

Record sched := {
  lim : limits;
  active_limit : Z;
  queues : RuntimeHookLane → list group;
  last_sequence : Z;
  lane_cursor : nat;
  lane_deficits : RuntimeHookLane → Z;
  tal : tallies;
  met : metrics;
  fates : gmap Z fate;
  set_events : gset nat;
  reservations : list RuntimeHookByteReservation;
  reads : nat;
  polls : nat;
}.

Definition with_queues (q : RuntimeHookLane → list group) (s : sched) : sched :=
  {| lim := lim s; active_limit := active_limit s; queues := q; last_sequence := last_sequence s;
     lane_cursor := lane_cursor s; lane_deficits := lane_deficits s; tal := tal s; met := met s;
     fates := fates s; set_events := set_events s; reservations := reservations s;
     reads := reads s; polls := polls s |}.
Definition with_lanes (cursor : nat) (deficits : RuntimeHookLane → Z) (s : sched) : sched :=
  {| lim := lim s; active_limit := active_limit s; queues := queues s; last_sequence := last_sequence s;
     lane_cursor := cursor; lane_deficits := deficits; tal := tal s; met := met s;
     fates := fates s; set_events := set_events s; reservations := reservations s;
     reads := reads s; polls := polls s |}.
Definition with_tal (t : tallies) (s : sched) : sched :=
  {| lim := lim s; active_limit := active_limit s; queues := queues s; last_sequence := last_sequence s;
     lane_cursor := lane_cursor s; lane_deficits := lane_deficits s; tal := t; met := met s;
     fates := fates s; set_events := set_events s; reservations := reservations s;
     reads := reads s; polls := polls s |}.
Definition with_met (m : metrics) (s : sched) : sched :=
  {| lim := lim s; active_limit := active_limit s; queues := queues s; last_sequence := last_sequence s;
     lane_cursor := lane_cursor s; lane_deficits := lane_deficits s; tal := tal s; met := m;
     fates := fates s; set_events := set_events s; reservations := reservations s;
     reads := reads s; polls := polls s |}.
Definition with_fates (f : gmap Z fate) (s : sched) : sched :=
  {| lim := lim s; active_limit := active_limit s; queues := queues s; last_sequence := last_sequence s;
     lane_cursor := lane_cursor s; lane_deficits := lane_deficits s; tal := tal s; met := met s;
     fates := f; set_events := set_events s; reservations := reservations s;
     reads := reads s; polls := polls s |}.
Definition with_sequence (n : Z) (s : sched) : sched :=
  {| lim := lim s; active_limit := active_limit s; queues := queues s; last_sequence := n;
     lane_cursor := lane_cursor s; lane_deficits := lane_deficits s; tal := tal s; met := met s;
     fates := fates s; set_events := set_events s; reservations := reservations s;
     reads := reads s; polls := polls s |}.
Definition with_active_limit (n : Z) (s : sched) : sched :=
  {| lim := lim s; active_limit := n; queues := queues s; last_sequence := last_sequence s;
     lane_cursor := lane_cursor s; lane_deficits := lane_deficits s; tal := tal s; met := met s;
     fates := fates s; set_events := set_events s; reservations := reservations s;
     reads := reads s; polls := polls s |}.
Definition with_reads (n : nat) (s : sched) : sched :=
  {| lim := lim s; active_limit := active_limit s; queues := queues s; last_sequence := last_sequence s;
     lane_cursor := lane_cursor s; lane_deficits := lane_deficits s; tal := tal s; met := met s;
     fates := fates s; set_events := set_events s; reservations := reservations s;
     reads := n; polls := polls s |}.
Definition with_event (e : nat) (s : sched) : sched :=
  {| lim := lim s; active_limit := active_limit s; queues := queues s; last_sequence := last_sequence s;
     lane_cursor := lane_cursor s; lane_deficits := lane_deficits s; tal := tal s; met := met s;
     fates := fates s; set_events := {[e]} ∪ set_events s; reservations := reservations s;
     reads := reads s; polls := polls s |}.

(** The state once [is_set()] was asked: the events [es] that were set
    meanwhile. *)
Definition polled (es : gset nat) (s : sched) : sched :=
  {| lim := lim s; active_limit := active_limit s; queues := queues s; last_sequence := last_sequence s;
     lane_cursor := lane_cursor s; lane_deficits := lane_deficits s; tal := tal s; met := met s;
     fates := fates s; set_events := es ∪ set_events s; reservations := reservations s;
     reads := reads s; polls := S (polls s) |}.
Definition with_reservations (rs : list RuntimeHookByteReservation) (s : sched) : sched :=
  {| lim := lim s; active_limit := active_limit s; queues := queues s; last_sequence := last_sequence s;
     lane_cursor := lane_cursor s; lane_deficits := lane_deficits s; tal := tal s; met := met s;
     fates := fates s; set_events := set_events s; reservations := rs; reads := reads s;
     polls := polls s |}.

(** [RuntimeHookScheduler.__init__] *)
Definition make_RuntimeHookScheduler (l : limits) (limit : Z) : result sched :=
  raise_if ((limit <? 0) || existsb (λ n, n <? 1)
             [per_harness_active_limit l; queued_limit l; per_harness_queued_limit l;
              per_client_queued_limit l; retained_bytes_limit l])
    (ValueError "runtime hook scheduler limits must be positive") ;;
  Ok {| lim := l; active_limit := limit; queues := λ _, []; last_sequence := 0;
        lane_cursor := 0; lane_deficits := λ _, 0;
        tal := {| queued := 0; queued_by_harness := ∅; queued_by_client := ∅;
                  active := 0; active_by_harness := ∅; active_by_client := ∅; retained_bytes := 0 |};
        met := {| admitted := 0; completed := 0; expired := 0; cancelled := 0; retries := 0;
                  rejected := λ _, 0; queue_wait_samples := []; service_time_samples := [];
                  queue_wait_by_lane := λ _, []; service_time_by_lane := λ _, [] |};
        fates := ∅; set_events := ∅; reservations := []; reads := 0; polls := 0 |}.

(** ** The monad *)

Definition M (A : Type) : Type := sched → result A * sched.

Global Instance M_ret : MRet M := λ A a s, (Ok a, s).
Global Instance M_bind : MBind M := λ A B f m s,
  match m s with
  | (Ok a, s') => f a s'
  | (Raise e, s') => (Raise e, s')
  end.

Definition get {A} (f : sched → A) : M A := λ s, (Ok (f s), s).
Definition modify (f : sched → sched) : M unit := λ s, (Ok tt, f s).
Definition lift {A} (r : result A) : M A := λ s, (r, s).

(** ** Counters *)

Definition count_of (m : gmap pystr Z) (k : pystr) : Z := default 0 (m !! k).

Definition increment_counter (m : gmap pystr Z) (k : pystr) : gmap pystr Z := <[k := count_of m k + 1]> m.

Definition decrement_counter (m : gmap pystr Z) (k : pystr) : result (gmap pystr Z) :=
  match m !! k with
  | None => Raise (KeyError (show k))
  | Some n => Ok (if n - 1 =? 0 then delete k m else <[k := n - 1]> m)
  end.

Definition add_metrics (a c e k r : Z) (m : metrics) : metrics :=
  {| admitted := admitted m + a; completed := completed m + c; expired := expired m + e;
     cancelled := cancelled m + k; retries := retries m + r; rejected := rejected m;
     queue_wait_samples := queue_wait_samples m; service_time_samples := service_time_samples m;
     queue_wait_by_lane := queue_wait_by_lane m; service_time_by_lane := service_time_by_lane m |}.
Definition count_metrics (a c e k r : Z) : M unit := modify (λ s, with_met (add_metrics a c e k r (met s)) s).

Definition reject (reason : RuntimeHookAdmissionReason) : M unit :=
  modify (λ s, with_met
    {| admitted := admitted (met s); completed := completed (met s); expired := expired (met s);
       cancelled := cancelled (met s); retries := retries (met s);
       rejected := <[reason := rejected (met s) reason + 1]> (rejected (met s));
       queue_wait_samples := queue_wait_samples (met s); service_time_samples := service_time_samples (met s);
       queue_wait_by_lane := queue_wait_by_lane (met s);
       service_time_by_lane := service_time_by_lane (met s) |} s).

(** [deque.append] with [maxlen=2048] *)
Definition push {A} (l : list A) (x : A) : list A := drop (S (length l) - SAMPLES) (l ++ [x]).

Definition sample_wait (l : RuntimeHookLane) (at_ wait : Z) : M unit :=
  modify (λ s, with_met
    {| admitted := admitted (met s); completed := completed (met s); expired := expired (met s);
       cancelled := cancelled (met s); retries := retries (met s); rejected := rejected (met s);
       queue_wait_samples := push (queue_wait_samples (met s)) wait;
       service_time_samples := service_time_samples (met s);
       queue_wait_by_lane := <[l := push (queue_wait_by_lane (met s) l) (at_, wait)]> (queue_wait_by_lane (met s));
       service_time_by_lane := service_time_by_lane (met s) |} s).
Definition sample_service (l : RuntimeHookLane) (at_ time : Z) : M unit :=
  modify (λ s, with_met
    {| admitted := admitted (met s); completed := completed (met s); expired := expired (met s);
       cancelled := cancelled (met s); retries := retries (met s); rejected := rejected (met s);
       queue_wait_samples := queue_wait_samples (met s);
       service_time_samples := push (service_time_samples (met s)) time;
       queue_wait_by_lane := queue_wait_by_lane (met s);
       service_time_by_lane :=
         <[l := push (service_time_by_lane (met s) l) (at_, time)]> (service_time_by_lane (met s)) |} s).

(** ** Groups: the ordered dictionary of a lane *)

Definition hook_group (x : QueuedRuntimeHook) : group_key := (client_key x, harness x).

(** [clients.setdefault(key, deque()).append(item)] *)
Fixpoint group_append (key : group_key) (x : QueuedRuntimeHook) (gs : list group) : list group :=
  match gs with
  | [] => [(key, [x])]
  | (k, xs) :: gs => if decide (k = key) then (k, xs ++ [x]) :: gs else (k, xs) :: group_append key x gs
  end.

(** [clients[key] = items] *)
Fixpoint group_set (key : group_key) (items : list QueuedRuntimeHook) (gs : list group) : list group :=
  match gs with
  | [] => [(key, items)]
  | (k, xs) :: gs => if decide (k = key) then (k, items) :: gs else (k, xs) :: group_set key items gs
  end.

(** [clients.get(key)] *)
Fixpoint group_get (key : group_key) (gs : list group) : option (list QueuedRuntimeHook) :=
  match gs with
  | [] => None
  | (k, xs) :: gs => if decide (k = key) then Some xs else group_get key gs
  end.

(** [clients.pop(key, None)] *)
Definition group_pop (key : group_key) (gs : list group) : list group := filter (λ g, g.1 ≠ key) gs.

(** [clients[key] = items], or the group is popped when it is empty *)
Definition group_keep (key : group_key) (items : list QueuedRuntimeHook) (gs : list group) : list group :=
  match items with [] => group_pop key gs | _ => group_set key items gs end.

(** [items.remove(target)] *)
Fixpoint list_remove (x : QueuedRuntimeHook) (xs : list QueuedRuntimeHook) : option (list QueuedRuntimeHook) :=
  match xs with
  | [] => None
  | y :: ys => if decide (y = x) then Some ys else cons y <$> list_remove x ys
  end.

Definition set_lane (l : RuntimeHookLane) (gs : list group) : M unit :=
  modify (λ s, with_queues (<[l := gs]> (queues s)) s).

(** All groups, in the order of [self._queues.values()]. *)
Definition all_groups (s : sched) : list group := LANES ≫= queues s.

Definition set_fate (x : QueuedRuntimeHook) (f : fate) : M unit :=
  modify (λ s, with_fates (<[sequence x := f]> (fates s)) s).

(** ** The methods *)

(** What the scheduler does not control: the readings of [monotonic], and the
    cancellation events that other threads set just before each [is_set()].
    [threading.Event.set] does not take the scheduler's lock. *)
Record environment := {
  clock : nat → Z;
  cancels : nat → gset nat;
}.

Section methods.
Variable env : environment.

Definition monotonic : M Z := λ s, (Ok (clock env (reads s)), with_reads (S (reads s)) s).

Definition enqueue (x : QueuedRuntimeHook) : M unit :=
  modify (λ s, with_queues (<[lane x := group_append (hook_group x) x (queues s (lane x))]> (queues s)) s) ;;
  modify (λ s, with_tal
    {| queued := queued (tal s) + 1;
       queued_by_harness := increment_counter (queued_by_harness (tal s)) (harness x);
       queued_by_client := increment_counter (queued_by_client (tal s)) (client_key x);
       active := active (tal s); active_by_harness := active_by_harness (tal s);
       active_by_client := active_by_client (tal s); retained_bytes := retained_bytes (tal s) |} s).

Definition decrement_queued (x : QueuedRuntimeHook) : M unit :=
  t ← get tal ;
  by_harness ← lift (decrement_counter (queued_by_harness t) (harness x)) ;
  by_client ← lift (decrement_counter (queued_by_client t) (client_key x)) ;
  modify (with_tal
    {| queued := queued t - 1; queued_by_harness := by_harness; queued_by_client := by_client;
       active := active t; active_by_harness := active_by_harness t;
       active_by_client := active_by_client t; retained_bytes := retained_bytes t |}).

Definition add_retained (n : Z) : M unit :=
  modify (λ s, with_tal
    {| queued := queued (tal s); queued_by_harness := queued_by_harness (tal s);
       queued_by_client := queued_by_client (tal s); active := active (tal s);
       active_by_harness := active_by_harness (tal s); active_by_client := active_by_client (tal s);
       retained_bytes := retained_bytes (tal s) + n |} s).

Definition drop_queued (x : QueuedRuntimeHook) : M unit :=
  decrement_queued x ;; add_retained (- payload_bytes x).

Definition reject_queued (x : QueuedRuntimeHook) (reason : RuntimeHookAdmissionReason) : M unit :=
  drop_queued x ;; set_fate x (Rejected_for reason) ;; count_metrics 0 0 1 0 0.

(** [_remove_queued] *)
Definition remove_queued (x : QueuedRuntimeHook) : M bool :=
  clients ← get (λ s, queues s (lane x)) ;
  match group_get (hook_group x) clients with
  | None => mret false
  | Some items =>
      match list_remove x items with
      | None => mret false
      | Some rest => set_lane (lane x) (group_keep (hook_group x) rest clients) ;; drop_queued x ;; mret true
      end
  end.

(** [_remove_from_lane] *)
Definition remove_from_lane (x : QueuedRuntimeHook) : M unit :=
  clients ← get (λ s, queues s (lane x)) ;
  match group_get (hook_group x) clients with
  | None => lift (Raise (KeyError (show (client_key x))))
  | Some items =>
      match list_remove x items with
      | None => lift (Raise (ValueError "deque.remove(x): x not in deque"))
      | Some rest => set_lane (lane x) (group_keep (hook_group x) rest clients)
      end
  end.

Definition has_competing_client (c : pystr) (s : sched) : bool :=
  existsb (λ g : group, negb (bool_decide (g.1.1 = c))) (all_groups s).

(** [max(1, math.ceil(active_limit / 2))] *)
Definition active_share_limit (s : sched) : Z := Z.max 1 (- ((- active_limit s) / 2)).

(** [sorted(samples)[max(0, math.ceil(len(samples) * percentile) - 1)]]; the
    percentile is given in hundredths. *)
Definition percentile (samples : list Z) (hundredths : Z) : Z :=
  let n := Z.of_nat (length samples) in
  nth (Z.to_nat (Z.max 0 (- ((- (n * hundredths)) / 100) - 1))) (sort_on (λ x : Z, x) samples) 0.

(** The samples taken in the last minute. *)
Definition recent (now : Z) (samples : list (Z * Z)) : list Z :=
  (filter (λ p : Z * Z, now - p.1 <= HISTOGRAM_WINDOW) samples).*2.

Definition service_estimate (l : RuntimeHookLane) : M Z :=
  now ← monotonic ;
  samples ← get (λ s, recent now (service_time_by_lane (met s) l)) ;
  mret (if (length samples <? MIN_PREDICTION_SAMPLES)%nat then DEFAULT_SERVICE
        else Z.min MAX_SERVICE (Z.max MIN_SERVICE (percentile samples 95))).

Definition can_finish (x : QueuedRuntimeHook) : M bool :=
  estimate ← service_estimate (lane x) ;
  now ← monotonic ;
  mret (can_dispatch (deadline x) estimate now).

(** The harness has no slot left. *)
Definition harness_full (x : QueuedRuntimeHook) (s : sched) : bool :=
  per_harness_active_limit (lim s) <=? count_of (active_by_harness (tal s)) (harness x).
(** The client has its share while another client waits. *)
Definition share_full (x : QueuedRuntimeHook) (s : sched) : bool :=
  has_competing_client (client_key x) s
  && (active_share_limit s <=? count_of (active_by_client (tal s)) (client_key x)).
Definition blocked (x : QueuedRuntimeHook) (s : sched) : bool := harness_full x s || share_full x s.

(** The first of [candidates] that may run. *)
Fixpoint first_eligible (candidates : list QueuedRuntimeHook) : M (option QueuedRuntimeHook) :=
  match candidates with
  | [] => mret None
  | x :: candidates =>
      skip ← get (blocked x) ;
      if skip : bool then first_eligible candidates else
      ok ← can_finish x ;
      if ok : bool then remove_from_lane x ;; mret (Some x)
      else remove_queued x ;; set_fate x (Rejected_for daemon_hook_deadline_exhausted) ;;
           count_metrics 0 0 1 0 0 ;; first_eligible candidates
  end.

(** The heads of the groups that have waited long enough. *)
Definition aged_heads (now : Z) (s : sched) : list QueuedRuntimeHook :=
  filter (λ x, AGE_BOOST <= now - queued_at x) (all_groups s ≫= λ g, take 1 g.2).

Definition oldest_aged_eligible : M (option QueuedRuntimeHook) :=
  now ← monotonic ;
  candidates ← get (λ s, sort_on sequence (aged_heads now s)) ;
  first_eligible candidates.

(** [if items: clients[group_key] = items], after the group was popped *)
Definition put_back (key : group_key) (more : list QueuedRuntimeHook) (rest : list group) : list group :=
  match more with [] => rest | _ => group_set key more rest end.

(** [for _ in range(n)] over the groups of a lane. *)
Fixpoint scan_groups (n : nat) (l : RuntimeHookLane) : M (option QueuedRuntimeHook) :=
  match n with
  | O => mret None
  | S n =>
      clients ← get (λ s, queues s l) ;
      match clients with
      | [] => lift (Raise (KeyError "dictionary is empty"))
      | (key, []) :: _ => lift (Raise (IndexError "deque index out of range"))
      | (key, x :: more) :: rest =>
          set_lane l rest ;;
          skip ← get (blocked x) ;
          if skip : bool then set_lane l (group_set key (x :: more) rest) ;; scan_groups n l else
          ok ← can_finish x ;
          set_lane l (put_back key more rest) ;;
          if ok : bool then mret (Some x)
          else reject_queued x daemon_hook_deadline_exhausted ;; scan_groups n l
      end
  end.

Definition lane_at (cursor : nat) : RuntimeHookLane := nth cursor LANES decision.
Definition next_cursor (cursor : nat) : nat := S cursor mod 3.

(** [for _ in range(sum(_LANE_WEIGHTS.values()) + len(_LANES))] *)
Fixpoint visit_lanes (n : nat) : M (option QueuedRuntimeHook) :=
  match n with
  | O => mret None
  | S n =>
      l ← get (λ s, lane_at (lane_cursor s)) ;
      modify (λ s, if lane_deficits s l =? 0
                   then with_lanes (lane_cursor s) (<[l := LANE_WEIGHTS l]> (lane_deficits s)) s else s) ;;
      clients ← get (λ s, queues s l) ;
      deficit ← get (λ s, lane_deficits s l) ;
      match clients with
      | [] => modify (λ s, with_lanes (next_cursor (lane_cursor s)) (<[l := 0]> (lane_deficits s)) s) ;; visit_lanes n
      | _ =>
          if deficit <? 1 then visit_lanes n else
          found ← scan_groups (length clients) l ;
          match found with
          | Some x =>
              modify (λ s, with_lanes (if lane_deficits s l - 1 =? 0 then next_cursor (lane_cursor s) else lane_cursor s)
                             (<[l := lane_deficits s l - 1]> (lane_deficits s)) s) ;;
              mret (Some x)
          | None => modify (λ s, with_lanes (next_cursor (lane_cursor s)) (<[l := 0]> (lane_deficits s)) s) ;; visit_lanes n
          end
      end
  end.

Definition next_item : M (option QueuedRuntimeHook) :=
  boosted ← oldest_aged_eligible ;
  match boosted with
  | Some x => mret (Some x)
  | None => visit_lanes 11
  end.

(** [item.cancellation is not None and item.cancellation.is_set()] *)
Definition is_cancelled (x : QueuedRuntimeHook) (s : sched) : bool :=
  match cancellation x with Some e => bool_decide (e ∈ set_events s) | None => false end.
Definition poll (x : QueuedRuntimeHook) : M bool :=
  match cancellation x with
  | None => mret false
  | Some _ => modify (λ s, polled (cancels env (polls s)) s) ;; get (is_cancelled x)
  end.

(** The items that stay: [retained] of [_expire_waiters]. *)
Fixpoint retained (now : Z) (items : list QueuedRuntimeHook) : M (list QueuedRuntimeHook) :=
  match items with
  | [] => mret []
  | x :: items =>
      stays ← (if now <? expires_at (deadline x) then set ← poll x ; mret (negb set) else mret false) ;
      kept ← retained now items ;
      mret (if stays : bool then x :: kept else kept)
  end.

(** One item of the second loop of [_expire_waiters], which asks again. *)
Definition expire_item (now : Z) (x : QueuedRuntimeHook) : M unit :=
  if expires_at (deadline x) <=? now then
    drop_queued x ;; count_metrics 0 0 1 0 0 ;; set_fate x (Rejected_for daemon_hook_deadline_exhausted)
  else
    set ← poll x ;
    if set : bool then
      drop_queued x ;; count_metrics 0 0 0 1 0 ;; set_fate x (Rejected_for daemon_hook_deadline_exhausted)
    else mret tt.

Fixpoint expire_items (now : Z) (items : list QueuedRuntimeHook) : M unit :=
  match items with
  | [] => mret tt
  | x :: items => expire_item now x ;; expire_items now items
  end.

(** [for group_key in tuple(clients)] *)
Fixpoint expire_groups (now : Z) (l : RuntimeHookLane) (gs : list group) : M unit :=
  match gs with
  | [] => mret tt
  | (key, items) :: gs =>
      kept ← retained now items ;
      expire_items now items ;;
      clients ← get (λ s, queues s l) ;
      set_lane l (group_keep key kept clients) ;;
      expire_groups now l gs
  end.

Fixpoint expire_lanes (now : Z) (ls : list RuntimeHookLane) : M unit :=
  match ls with
  | [] => mret tt
  | l :: ls => gs ← get (λ s, queues s l) ; expire_groups now l gs ;; expire_lanes now ls
  end.

Definition expire_waiters : M unit := now ← monotonic ; expire_lanes now LANES.

(** The body of the loop of [_dispatch] for an item. *)
Definition admit_item (x : QueuedRuntimeHook) : M unit :=
  decrement_queued x ;;
  now ← monotonic ;
  set_fate x (Admitted_at now) ;;
  sample_wait (lane x) now (Z.max 0 (now - queued_at x)) ;;
  modify (λ s, with_tal
    {| queued := queued (tal s); queued_by_harness := queued_by_harness (tal s);
       queued_by_client := queued_by_client (tal s); active := active (tal s) + 1;
       active_by_harness := increment_counter (active_by_harness (tal s)) (harness x);
       active_by_client := increment_counter (active_by_client (tal s)) (client_key x);
       retained_bytes := retained_bytes (tal s) |} s) ;;
  count_metrics 1 0 0 0 0.

(** [while active < active_limit and queued > 0], with fuel *)
Fixpoint dispatch_loop (fuel : nat) : M unit :=
  match fuel with
  | O => mret tt
  | S fuel =>
      go ← get (λ s, (active (tal s) <? active_limit s) && (0 <? queued (tal s))) ;
      if go : bool then
        found ← next_item ;
        match found with
        | None => mret tt
        | Some x => admit_item x ;; dispatch_loop fuel
        end
      else mret tt
  end.

(** Every turn takes an item from the queue, so [queued] turns are enough. *)
Definition dispatch : M unit :=
  expire_waiters ;;
  n ← get (λ s, queued (tal s)) ;
  dispatch_loop (Z.to_nat n).

Definition release_permit (x : QueuedRuntimeHook) : M unit :=
  t ← get tal ;
  by_harness ← lift (decrement_counter (active_by_harness t) (harness x)) ;
  by_client ← lift (decrement_counter (active_by_client t) (client_key x)) ;
  modify (with_tal
    {| queued := queued t; queued_by_harness := queued_by_harness t; queued_by_client := queued_by_client t;
       active := active t - 1; active_by_harness := by_harness; active_by_client := by_client;
       retained_bytes := retained_bytes t - payload_bytes x |}) ;;
  count_metrics 0 1 0 0 0 ;;
  f ← get (λ s, fates s !! sequence x) ;
  match f with
  | Some (Admitted_at admitted_at) =>
      finished ← monotonic ;
      sample_service (lane x) finished (Z.max 0 (finished - admitted_at))
  | _ => mret tt
  end ;;
  dispatch.

Definition set_active_limit (n : Z) : M unit :=
  lift (raise_if (n <? 0) (ValueError "runtime hook scheduler active limit must not be negative")) ;;
  modify (with_active_limit n) ;;
  dispatch.

Definition record_retry : M unit := count_metrics 0 0 0 0 1.

(** *** Acquiring a slot *)

(** What a critical section of a call leads to. *)
Inductive outcome (A B : Type) := Returned (a : A) | Waiting (b : B).
Global Arguments Returned {_ _} _.
Global Arguments Waiting {_ _} _.

(** [RuntimeHookAdmission]: a permit for the item, or the reason. *)
Definition RuntimeHookAdmission : Type := QueuedRuntimeHook + RuntimeHookAdmissionReason.

(** The head of the waiting loop of [acquire], up to [condition.wait]. *)
Definition acquire_check (x : QueuedRuntimeHook) : M (outcome RuntimeHookAdmission QueuedRuntimeHook) :=
  f ← get (λ s, fates s !! sequence x) ;
  match f with
  | Some (Admitted_at _) => mret (Returned (inl x))
  | Some (Rejected_for r) => mret (Returned (inr r))
  | None =>
      now ← monotonic ;
      if expires_at (deadline x) - now <=? 0 then
        removed ← remove_queued x ;
        (if removed : bool then count_metrics 0 0 1 0 0 else mret tt) ;;
        mret (Returned (inr daemon_hook_deadline_exhausted))
      else
        set ← poll x ;
        if set : bool then
          removed ← remove_queued x ;
          (if removed : bool then count_metrics 0 0 0 1 0 else mret tt) ;;
          mret (Returned (inr daemon_hook_deadline_exhausted))
        else mret (Waiting x)
  end.

(** After [condition.wait] returned. *)
Definition acquire_wake (x : QueuedRuntimeHook) : M (outcome RuntimeHookAdmission QueuedRuntimeHook) :=
  dispatch ;; acquire_check x.

(** The queue listener is the owner's code: it calls public methods of the
    scheduler and may raise. *)
Record listener := {
  listener_limits : list Z;
  listener_raises : bool;
}.
Fixpoint set_limits (ns : list Z) : M unit :=
  match ns with [] => mret tt | n :: ns => set_active_limit n ;; set_limits ns end.
Definition call_listener (li : listener) : M unit :=
  set_limits (listener_limits li) ;;
  if listener_raises li then lift (Raise (RuntimeError "queue listener failed")) else mret tt.

(** [except BaseException]: clean up, then raise again. *)
Definition cleaning_up {A} (x : QueuedRuntimeHook) (m : M A) : M A := λ s,
  match m s with
  | (Ok a, s') => (Ok a, s')
  | (Raise e, s') =>
      match fates s' !! sequence x with
      | Some (Admitted_at _) => (release_permit x ;; lift (Raise e)) s'
      | _ => (remove_queued x ;; lift (Raise e)) s'
      end
  end.

Record request := {
  req_harness : pystr;
  req_client : pystr;
  req_lane : RuntimeHookLane;
  req_bytes : Z;
  req_deadline : Z + RuntimeHookDeadline;
  req_cancellation : option nat;
  req_payload : option (list Z);
}.

Definition resolved_deadline (d : Z + RuntimeHookDeadline) : RuntimeHookDeadline :=
  match d with
  | inl t => {| expires_at := t; transport_reserve := 0; serialization_reserve := 0 |}
  | inr d => d
  end.

Definition transfer (r : RuntimeHookByteReservation) : result RuntimeHookByteReservation :=
  raise_if (reservation_released r || reservation_transferred r)
    (RuntimeError "runtime hook byte reservation is no longer transferable") ;;
  Ok {| reserved_bytes := reserved_bytes r; reservation_transferred := true;
        reservation_released := reservation_released r |}.

(** The first reason to refuse a request outright. *)
Definition refusal (q : request) (reserved : bool) (now : Z) (s : sched) : option RuntimeHookAdmissionReason :=
  if expires_at (resolved_deadline (req_deadline q)) <=? now then Some daemon_hook_deadline_exhausted
  else if queued_limit (lim s) <=? queued (tal s) then Some daemon_hook_queue_capacity
  else if per_harness_queued_limit (lim s) <=? count_of (queued_by_harness (tal s)) (req_harness q)
    then Some daemon_hook_queue_capacity
  else if per_client_queued_limit (lim s) <=? count_of (queued_by_client (tal s)) (req_client q)
    then Some daemon_hook_queue_capacity
  else if negb reserved && (retained_bytes_limit (lim s) <? retained_bytes (tal s) + req_bytes q)
    then Some daemon_hook_queue_bytes
  else None.

Definition hook_of (q : request) (now : Z) (n : Z) : QueuedRuntimeHook :=
  {| sequence := n; harness := req_harness q; client_key := req_client q; lane := req_lane q;
     payload_bytes := req_bytes q; deadline := resolved_deadline (req_deadline q); queued_at := now;
     normalized_payload := default [] (req_payload q); cancellation := req_cancellation q |}.

(** The byte reservation with number [id]. *)
Definition reservation (id : nat) : M RuntimeHookByteReservation :=
  r ← get (λ s, reservations s !! id) ;
  lift (match r with Some r => Ok r | None => Raise (IndexError "no such reservation") end).
Definition set_reservation (id : nat) (r : RuntimeHookByteReservation) : M unit :=
  modify (λ s, with_reservations (<[id := r]> (reservations s)) s).

(** The first critical section of [acquire]. *)
Definition acquire (q : request) (rid : option nat) (li : option listener)
    : M (outcome RuntimeHookAdmission QueuedRuntimeHook) :=
  lift (raise_if (req_bytes q <? 0) (ValueError "payload_bytes must not be negative")) ;;
  lift (raise_if (match req_payload q with Some p => negb (Z.of_nat (length p) =? req_bytes q) | None => false end)
          (ValueError "normalized_payload length must match payload_bytes")) ;;
  now ← monotonic ;
  refused ← get (refusal q (bool_decide (is_Some rid)) now) ;
  match refused with
  | Some reason => reject reason ;; mret (Returned (inr reason))
  | None =>
      match rid with
      | Some id =>
          r ← reservation id ;
          lift (raise_if (negb (reserved_bytes r =? req_bytes q))
                  (ValueError "runtime hook byte reservation does not match payload size"))
      | None => mret tt
      end ;;
      modify (λ s, with_sequence (last_sequence s + 1) s) ;;
      x ← get (λ s, hook_of q now (last_sequence s)) ;
      match rid with
      | Some id => r ← reservation id ; r' ← lift (transfer r) ; set_reservation id r'
      | None => add_retained (req_bytes q)
      end ;;
      enqueue x ;;
      cleaning_up x
        (dispatch ;;
         f ← get (λ s, fates s !! sequence x) ;
         match f, li with
         | Some (Admitted_at _), _ | _, None => mret tt
         | _, Some li => call_listener li
         end ;;
         acquire_check x)
  end.

(** *** Byte reservations *)

(** The loop of [reserve_bytes] and [grow_reserved_bytes], up to
    [condition.wait]. *)
Definition reserve_check (n deadline : Z) : M (outcome (option RuntimeHookAdmissionReason) unit) :=
  full ← get (λ s, retained_bytes_limit (lim s) <? retained_bytes (tal s) + n) ;
  if full : bool then
    now ← monotonic ;
    if deadline - now <=? 0 then
      reject daemon_hook_deadline_exhausted ;; mret (Returned (Some daemon_hook_deadline_exhausted))
    else mret (Waiting tt)
  else add_retained n ;; mret (Returned None).

(** [reserve_bytes] after a wait, or without one *)
Definition reserve_wake (n deadline : Z) : M (outcome (option RuntimeHookAdmissionReason) unit) :=
  o ← reserve_check n deadline ;
  match o with
  | Returned None =>
      modify (λ s, with_reservations
        (reservations s ++ [{| reserved_bytes := n; reservation_transferred := false;
                               reservation_released := false |}]) s)
  | _ => mret tt
  end ;;
  mret o.

Definition reserve_bytes (n deadline : Z) : M (outcome (option RuntimeHookAdmissionReason) unit) :=
  lift (raise_if (n <? 0) (ValueError "payload_bytes must not be negative")) ;;
  now ← monotonic ;
  limit ← get (λ s, retained_bytes_limit (lim s)) ;
  if deadline <=? now then
    reject daemon_hook_deadline_exhausted ;; mret (Returned (Some daemon_hook_deadline_exhausted))
  else if limit <? n then
    reject daemon_hook_queue_bytes ;; mret (Returned (Some daemon_hook_queue_bytes))
  else reserve_wake n deadline.

Definition grow_reserved_bytes (current n deadline : Z) : M (outcome (option RuntimeHookAdmissionReason) unit) :=
  limit ← get (λ s, retained_bytes_limit (lim s)) ;
  if limit <? n then
    reject daemon_hook_queue_bytes ;; mret (Returned (Some daemon_hook_queue_bytes))
  else
    lift (raise_if (n - current <? 0) (ValueError "runtime hook byte growth cannot be negative")) ;;
    reserve_check (n - current) deadline.

Definition release_reserved_bytes (n : Z) : M unit := add_retained (- n).

Definition resized (r : RuntimeHookByteReservation) (n : Z) : RuntimeHookByteReservation :=
  {| reserved_bytes := n; reservation_transferred := reservation_transferred r;
     reservation_released := reservation_released r |}.

(** The end of [resize]: the new size, and what it gives back. *)
Definition resize_end (id : nat) (n : Z) : M unit :=
  r ← reservation id ;
  set_reservation id (resized r n) ;;
  if 0 <? reserved_bytes r - n then release_reserved_bytes (reserved_bytes r - n) else mret tt.

(** [resize] once [grow_reserved_bytes] returned or waits *)
Definition resize_grown (id : nat) (n : Z) (o : outcome (option RuntimeHookAdmissionReason) unit)
    : M (outcome (option RuntimeHookAdmissionReason) unit) :=
  match o with Returned None => resize_end id n | _ => mret tt end ;;
  mret o.

Definition resize (id : nat) (n deadline : Z) : M (outcome (option RuntimeHookAdmissionReason) unit) :=
  r ← reservation id ;
  lift (raise_if (reservation_released r || reservation_transferred r)
          (RuntimeError "runtime hook byte reservation is no longer resizable")) ;;
  lift (raise_if (n <? 0) (ValueError "runtime hook byte reservation cannot be negative")) ;;
  if reserved_bytes r <? n then
    o ← grow_reserved_bytes (reserved_bytes r) n deadline ;
    resize_grown id n o
  else resize_end id n ;; mret (Returned None).

(** [resize] after a wait of [grow_reserved_bytes] for [additional] bytes *)
Definition resize_wake (id : nat) (n additional deadline : Z)
    : M (outcome (option RuntimeHookAdmissionReason) unit) :=
  o ← reserve_check additional deadline ;
  resize_grown id n o.

Definition release_reservation (id : nat) : M unit :=
  r ← reservation id ;
  if reservation_released r || reservation_transferred r then mret tt else
  set_reservation id {| reserved_bytes := reserved_bytes r;
                        reservation_transferred := reservation_transferred r;
                        reservation_released := true |} ;;
  release_reserved_bytes (reserved_bytes r).

(** *** Reports *)

Definition oldest_queued (now : Z) (s : sched) : Z :=
  match all_groups s ≫= snd with
  | [] => 0
  | x :: xs => Z.max 0 (now - foldr Z.min (queued_at x) (queued_at <$> xs))
  end.

(** [_bounded_harness_counts] *)
Definition bounded_harness_counts (counts : gmap pystr Z) : gmap pystr Z :=
  map_fold (λ h n bounded,
    let key := if py_in h STABLE_HARNESSES then h else $"other" in
    <[key := count_of bounded key + n]> bounded) ∅ counts.

Definition timed_percentile (samples : list (Z * Z)) (now hundredths : Z) : Z :=
  percentile (recent now samples) hundredths.

(** [RuntimeHookSchedulerStats]; durations in nanoseconds *)
Record RuntimeHookSchedulerStats := {
  stat_active : Z;
  stat_active_limit : Z;
  stat_queued : Z;
  stat_queued_limit : Z;
  stat_retained_bytes : Z;
  stat_retained_bytes_limit : Z;
  stat_metrics : metrics;
  per_harness_active : gmap pystr Z;
  per_harness_queued : gmap pystr Z;
  queue_wait_p95 : Z;
  service_time_p95 : Z;
  queue_wait_p99 : Z;
  service_time_p99 : Z;
  stat_oldest_queued : Z;
  queue_wait_by_lane_p95 : RuntimeHookLane → Z;
  service_time_by_lane_p95 : RuntimeHookLane → Z;
  queue_wait_by_lane_p99 : RuntimeHookLane → Z;
  service_time_by_lane_p99 : RuntimeHookLane → Z;
}.

Definition stats : M RuntimeHookSchedulerStats :=
  now ← monotonic ;
  get (λ s,
    {| stat_active := active (tal s); stat_active_limit := active_limit s;
       stat_queued := queued (tal s); stat_queued_limit := queued_limit (lim s);
       stat_retained_bytes := retained_bytes (tal s); stat_retained_bytes_limit := retained_bytes_limit (lim s);
       stat_metrics := met s;
       per_harness_active := bounded_harness_counts (active_by_harness (tal s));
       per_harness_queued := bounded_harness_counts (queued_by_harness (tal s));
       queue_wait_p95 := percentile (queue_wait_samples (met s)) 95;
       service_time_p95 := percentile (service_time_samples (met s)) 95;
       queue_wait_p99 := percentile (queue_wait_samples (met s)) 99;
       service_time_p99 := percentile (service_time_samples (met s)) 99;
       stat_oldest_queued := oldest_queued now s;
       queue_wait_by_lane_p95 := λ l, timed_percentile (queue_wait_by_lane (met s) l) now 95;
       service_time_by_lane_p95 := λ l, timed_percentile (service_time_by_lane (met s) l) now 95;
       queue_wait_by_lane_p99 := λ l, timed_percentile (queue_wait_by_lane (met s) l) now 99;
       service_time_by_lane_p99 := λ l, timed_percentile (service_time_by_lane (met s) l) now 99 |}).

(** ** The scheduler and its callers *)

(** [RuntimeHookPermit] *)
Record RuntimeHookPermit := {
  permit_item : QueuedRuntimeHook;
  permit_released : bool;
}.

(** [RuntimeHookPermit.release] *)
Definition release (p : RuntimeHookPermit) : M RuntimeHookPermit :=
  if permit_released p then mret p else
  release_permit (permit_item p) ;;
  mret {| permit_item := permit_item p; permit_released := true |}.

(** A resize that waits: the reservation, the new size, the bytes it waits
    for and its deadline. *)
Record pending_resize := {
  resize_id : nat;
  resize_to : Z;
  resize_by : Z;
  resize_deadline : Z;
}.

(** The scheduler, the calls that wait in it and the permits handed out. *)
Record system := {
  sch : sched;
  waiting : list QueuedRuntimeHook;
  reserving : list (Z * Z);
  resizing : list pending_resize;
  permits : list RuntimeHookPermit;
}.

Inductive event :=
  | Acquire (q : request) (rid : option nat) (li : option listener)
  | Acquire_wakes (i : nat)
  | Release (i : nat)
  | Reserve (n deadline : Z)
  | Reserve_wakes (i : nat)
  | Resize (id : nat) (n deadline : Z)
  | Resize_wakes (i : nat)
  | Release_reservation (id : nat)
  | Set_active_limit (n : Z)
  | Record_retry
  | Cancel (e : nat).

Definition with_sch (s : sched) (y : system) : system :=
  {| sch := s; waiting := waiting y; reserving := reserving y; resizing := resizing y; permits := permits y |}.

(** The end of a critical section of [acquire]. *)
Definition settle (y : system) (r : result (outcome RuntimeHookAdmission QueuedRuntimeHook) * sched)
    : result unit * system :=
  match r with
  | (Ok (Returned (inl x)), s) =>
      (Ok tt, {| sch := s; waiting := waiting y; reserving := reserving y; resizing := resizing y;
                 permits := permits y ++ [{| permit_item := x; permit_released := false |}] |})
  | (Ok (Waiting x), s) =>
      (Ok tt, {| sch := s; waiting := waiting y ++ [x]; reserving := reserving y; resizing := resizing y;
                 permits := permits y |})
  | (Ok (Returned (inr _)), s) => (Ok tt, with_sch s y)
  | (Raise e, s) => (Raise e, with_sch s y)
  end.

(** The end of a critical section that leaves [z] waiting or is over. *)
Definition settle_bytes {B} (r : result (outcome B unit) * sched) (parked over : sched → system)
    : result unit * system :=
  match r with
  | (Ok (Waiting _), s) => (Ok tt, parked s)
  | (Ok (Returned _), s) => (Ok tt, over s)
  | (Raise e, s) => (Raise e, over s)
  end.

(** A call names a reservation that exists. *)
Definition issued (id : nat) (y : system) : bool := (id <? length (reservations (sch y)))%nat.

Definition run (e : event) (y : system) : result unit * system :=
  match e with
  | Acquire q rid li =>
      if match rid with Some id => issued id y | None => true end
      then settle y (acquire q rid li (sch y)) else (Ok tt, y)
  | Acquire_wakes i =>
      match waiting y !! i with
      | Some x =>
          settle {| sch := sch y; waiting := delete i (waiting y); reserving := reserving y;
                    resizing := resizing y; permits := permits y |} (acquire_wake x (sch y))
      | None => (Ok tt, y)
      end
  | Release i =>
      match permits y !! i with
      | Some p =>
          match release p (sch y) with
          | (Ok p', s) =>
              (Ok tt, {| sch := s; waiting := waiting y; reserving := reserving y; resizing := resizing y;
                         permits := <[i := p']> (permits y) |})
          | (Raise e, s) => (Raise e, with_sch s y)
          end
      | None => (Ok tt, y)
      end
  | Reserve n d =>
      settle_bytes (reserve_bytes n d (sch y))
        (λ s, {| sch := s; waiting := waiting y; reserving := reserving y ++ [(n, d)];
                 resizing := resizing y; permits := permits y |})
        (λ s, with_sch s y)
  | Reserve_wakes i =>
      match reserving y !! i with
      | Some (n, d) =>
          settle_bytes (reserve_wake n d (sch y)) (λ s, with_sch s y)
            (λ s, {| sch := s; waiting := waiting y; reserving := delete i (reserving y);
                     resizing := resizing y; permits := permits y |})
      | None => (Ok tt, y)
      end
  | Resize id n d =>
      if issued id y then
        settle_bytes (resize id n d (sch y))
          (λ s, {| sch := s; waiting := waiting y; reserving := reserving y;
                   resizing := resizing y ++
                     [{| resize_id := id; resize_to := n;
                         resize_by := n - match reservations s !! id with
                                          | Some r => reserved_bytes r | None => 0 end;
                         resize_deadline := d |}];
                   permits := permits y |})
          (λ s, with_sch s y)
      else (Ok tt, y)
  | Resize_wakes i =>
      match resizing y !! i with
      | Some p =>
          settle_bytes (resize_wake (resize_id p) (resize_to p) (resize_by p) (resize_deadline p) (sch y))
            (λ s, with_sch s y)
            (λ s, {| sch := s; waiting := waiting y; reserving := reserving y;
                     resizing := delete i (resizing y); permits := permits y |})
      | None => (Ok tt, y)
      end
  | Release_reservation id =>
      if issued id y then
        let '(r, s) := release_reservation id (sch y) in (r, with_sch s y)
      else (Ok tt, y)
  | Set_active_limit n => let '(r, s) := set_active_limit n (sch y) in (r, with_sch s y)
  | Record_retry => let '(r, s) := record_retry (sch y) in (r, with_sch s y)
  | Cancel e => (Ok tt, with_sch (with_event e (sch y)) y)
  end.

Definition initial (s : sched) : system :=
  {| sch := s; waiting := []; reserving := []; resizing := []; permits := [] |}.

Definition trace (es : list event) (y : system) : system := foldl (λ y e, (run e y).2) y es.

End methods.
End Scheduler.
