(* ===== verification/HookSchedulerFacts.v ===== *)
(** * Facts about the runtime hook scheduler

    A weakest precondition for the scheduler's monad (a method returns, and in
    a state with the property), the counters as counts of the work held, the
    lanes as collections of hooks, and on them the properties of dispatching
    and of the calls that interleave. *)

From Stdlib Require Import ssreflect.
From stdpp Require Import functions.
From S2P Require Import Prelude PyStr HookScheduler.
Local Open Scope Z_scope.
Local Open Scope py_scope.
Local Open Scope general_if_scope.

Module SchedulerFacts.
Import Scheduler.

Local Notation hook := QueuedRuntimeHook.

(** ** Methods that return *)

Definition wp {A} (m : M A) (Q : A → sched → Prop) (s : sched) : Prop :=
  match m s with (Ok a, s') => Q a s' | (Raise _, _) => False end.

Lemma wp_ret {A} (a : A) Q s : Q a s → wp (mret a) Q s.
Proof. done. Qed.
Lemma wp_bind {A B} (m : M A) (f : A → M B) Q s : wp m (λ a, wp (f a) Q) s → wp (m ≫= f) Q s.
Proof. rewrite /wp /mbind /M_bind. by destruct (m s) as [[a|e] s']. Qed.
Lemma wp_get {A} (f : sched → A) Q s : Q (f s) s → wp (get f) Q s.
Proof. done. Qed.
Lemma wp_modify f Q s : Q tt (f s) → wp (modify f) Q s.
Proof. done. Qed.
Lemma wp_lift {A} (a : A) Q s : Q a s → wp (lift (Ok a)) Q s.
Proof. done. Qed.
Lemma wp_mono {A} (m : M A) (P Q : A → sched → Prop) s :
  wp m P s → (∀ a s', P a s' → Q a s') → wp m Q s.
Proof. rewrite /wp. destruct (m s) as [[a|e] s']; naive_solver. Qed.
Lemma wp_Ok {A} (m : M A) Q s : wp m Q s → ∃ a s', m s = (Ok a, s') ∧ Q a s'.
Proof. rewrite /wp. destruct (m s) as [[a|e] s']; naive_solver. Qed.

(** ** Counters *)

Definition count (k : pystr) (ks : list pystr) : Z := Z.of_nat (length (filter (k =.) ks)).

Definition counter_ok (m : gmap pystr Z) (ks : list pystr) : Prop :=
  ∀ k, m !! k = if count k ks =? 0 then None else Some (count k ks).

Lemma count_cons k k' ks : count k (k' :: ks) = (if decide (k = k') then 1 else 0) + count k ks.
Proof. rewrite /count filter_cons. case_decide; simpl; lia. Qed.
Lemma count_nonneg k ks : 0 <= count k ks.
Proof. rewrite /count. lia. Qed.
Lemma count_le k ks : count k ks <= Z.of_nat (length ks).
Proof. rewrite /count. pose proof (length_filter (k =.) ks). lia. Qed.
Lemma count_app k ks ks' : count k (ks ++ ks') = count k ks + count k ks'.
Proof. rewrite /count filter_app length_app. lia. Qed.
Global Instance count_perm k : Proper ((≡ₚ) ==> (=)) (count k).
Proof. intros ks ks' H. by rewrite /count H. Qed.

Lemma counter_nil : counter_ok ∅ [].
Proof. intros k. by rewrite lookup_empty. Qed.
Global Instance counter_ok_perm m : Proper ((≡ₚ) ==> iff) (counter_ok m).
Proof. intros ks ks' H. by split; intros Hm k; rewrite (Hm k) (count_perm k _ _ H). Qed.
Lemma count_of_ok m ks k : counter_ok m ks → count_of m k = count k ks.
Proof. intros H. rewrite /count_of H. by case: (Z.eqb_spec (count k ks) 0) => [->|]. Qed.

Lemma counter_increment m k ks : counter_ok m ks → counter_ok (increment_counter m k) (k :: ks).
Proof.
  intros H k'. rewrite /increment_counter count_cons (count_of_ok _ _ _ H).
  destruct (decide (k' = k)) as [->|Hne].
  - rewrite lookup_insert_eq. pose proof (count_nonneg k ks).
    case (Z.eqb_spec (1 + count k ks) 0) => ?; [lia|]. f_equal; lia.
  - by rewrite lookup_insert_ne // H.
Qed.

Lemma counter_decrement m k ks :
  counter_ok m (k :: ks) → ∃ m', decrement_counter m k = Ok m' ∧ counter_ok m' ks.
Proof.
  intros H. rewrite /decrement_counter (H k) count_cons decide_True //.
  pose proof (count_nonneg k ks).
  case (Z.eqb_spec (1 + count k ks) 0) => ?; [lia|]. eexists; split; [done|]. intros k'.
  destruct (decide (k' = k)) as [->|Hne].
  - case (Z.eqb_spec (1 + count k ks - 1) 0) => ?; case (Z.eqb_spec (count k ks) 0) => ?; try lia.
    + by rewrite lookup_delete_eq.
    + rewrite lookup_insert_eq. f_equal; lia.
  - replace (count k' ks) with (count k' (k :: ks)) by (rewrite count_cons decide_False //; lia).
    rewrite -H. case (_ =? _); [by rewrite lookup_delete_ne|by rewrite lookup_insert_ne].
Qed.

(** ** The work held *)

Definition bytes (xs : list hook) : Z := foldr (λ x n, payload_bytes x + n) 0 xs.

Lemma bytes_app xs ys : bytes (xs ++ ys) = bytes xs + bytes ys.
Proof. rewrite /bytes. induction xs as [|x xs IH]; simpl; [done|]. rewrite IH. lia. Qed.
Global Instance bytes_perm : Proper ((≡ₚ) ==> (=)) bytes.
Proof. intros xs ys H. rewrite /bytes. induction H; simpl; lia. Qed.

(** The counters describe the hooks [Q] that wait, [A] that run, and [R] bytes
    of reservations. *)
Record counted (t : tallies) (Q A : list hook) (R : Z) : Prop := {
  counted_queued : queued t = Z.of_nat (length Q);
  counted_queued_harness : counter_ok (queued_by_harness t) (harness <$> Q);
  counted_queued_client : counter_ok (queued_by_client t) (client_key <$> Q);
  counted_active : active t = Z.of_nat (length A);
  counted_active_harness : counter_ok (active_by_harness t) (harness <$> A);
  counted_active_client : counter_ok (active_by_client t) (client_key <$> A);
  counted_bytes : retained_bytes t = bytes Q + bytes A + R;
}.

Lemma counted_perm t Q Q' A A' R : Q ≡ₚ Q' → A ≡ₚ A' → counted t Q A R → counted t Q' A' R.
Proof. intros HQ HA []. by split; rewrite -?HQ -?HA. Qed.

(** Methods that only touch the counters. *)
Lemma wp_add_retained n s (P : unit → sched → Prop) :
  (∀ t, (∀ Q A R, counted (tal s) Q A R → counted t Q A (R + n)) →
        retained_bytes t = retained_bytes (tal s) + n → P tt (with_tal t s)) →
  wp (add_retained n) P s.
Proof.
  intros H. apply wp_modify, H; [|done]. intros Q A R []. split; simpl; try done. lia.
Qed.

Lemma wp_decrement_queued x s Q A R (P : unit → sched → Prop) :
  counted (tal s) (x :: Q) A R →
  (∀ t, counted t Q A (R + payload_bytes x) → P tt (with_tal t s)) →
  wp (decrement_queued x) P s.
Proof.
  intros [Hq Hh Hc Ha Hah Hac Hb] H. apply wp_bind, wp_get.
  destruct (counter_decrement _ _ _ Hh) as (m1 & -> & ?), (counter_decrement _ _ _ Hc) as (m2 & -> & ?).
  apply wp_bind, wp_lift, wp_bind, wp_lift, wp_modify, H. split; simpl in *; try done.
  - lia.
  - rewrite Hb /bytes /=. lia.
Qed.

Lemma wp_drop_queued x s Q A R (P : unit → sched → Prop) :
  counted (tal s) (x :: Q) A R →
  (∀ t, counted t Q A R → P tt (with_tal t s)) →
  wp (drop_queued x) P s.
Proof.
  intros Hc H. apply wp_bind. eapply wp_decrement_queued; [done|]. intros t Ht.
  apply wp_add_retained. intros t' Ht' _. eapply (H t').
  replace R with (R + payload_bytes x + - payload_bytes x) by lia. by apply Ht'.
Qed.

(** ** Lanes *)

Definition gitems (gs : list group) : list hook := gs ≫= snd.
Definition qitems (q : RuntimeHookLane → list group) : list hook := LANES ≫= λ l, gitems (q l).

Lemma gitems_app gs gs' : gitems (gs ++ gs') = gitems gs ++ gitems gs'.
Proof. apply bind_app. Qed.
Lemma gitems_cons k xs gs : gitems ((k, xs) :: gs) = xs ++ gitems gs.
Proof. done. Qed.
Lemma elem_of_gitems x gs : x ∈ gitems gs ↔ ∃ k xs, (k, xs) ∈ gs ∧ x ∈ xs.
Proof.
  rewrite /gitems list_elem_of_bind. split.
  - intros ([k xs] & ? & ?). eauto.
  - intros (k & xs & ? & ?). exists (k, xs). eauto.
Qed.
Lemma elem_of_LANES l : l ∈ LANES.
Proof. destruct l; rewrite /LANES; set_solver. Qed.
Lemma elem_of_qitems x q : x ∈ qitems q ↔ ∃ l, x ∈ gitems (q l).
Proof.
  rewrite /qitems list_elem_of_bind. split; [naive_solver|].
  intros [l Hl]. exists l. split; [done|apply elem_of_LANES].
Qed.
Lemma qitems_groups s : all_groups s ≫= snd = qitems (queues s).
Proof. by rewrite /all_groups /qitems /gitems /LANES /= !bind_app. Qed.

Lemma qitems_insert q l gs D :
  gitems (q l) ≡ₚ D ++ gitems gs → qitems q ≡ₚ D ++ qitems (<[l := gs]> q).
Proof.
  intros H. rewrite /qitems /LANES /=.
  destruct l; rewrite fn_lookup_insert ?fn_lookup_insert_ne // H; clear H.
  - by rewrite -!app_assoc.
  - rewrite -!app_assoc (app_assoc _ D) (app_assoc D) (Permutation_app_comm (gitems _) D). by rewrite -!app_assoc.
  - rewrite -!app_assoc (app_assoc (gitems (q decision))) (app_assoc _ D).
    rewrite (Permutation_app_comm _ D). by rewrite -!app_assoc.
Qed.

(** A group holds the hooks of one client and harness in the order they came. *)
Record group_ok (l : RuntimeHookLane) (g : group) : Prop := {
  group_nonempty : g.2 ≠ [];
  group_members : Forall (λ x, lane x = l ∧ hook_group x = g.1) g.2;
  group_ordered : StronglySorted (λ x y, sequence x < sequence y) g.2;
}.
Record lane_ok (l : RuntimeHookLane) (gs : list group) : Prop := {
  lane_keys : NoDup gs.*1;
  lane_groups : Forall (group_ok l) gs;
}.

Lemma lane_ok_nil l : lane_ok l [].
Proof. split; constructor. Qed.

Lemma lane_ok_cons l k xs gs :
  lane_ok l ((k, xs) :: gs) ↔ k ∉ gs.*1 ∧ group_ok l (k, xs) ∧ lane_ok l gs.
Proof.
  split.
  - intros [Hk Hg]. apply NoDup_cons in Hk as [??]. apply Forall_cons in Hg as [??]. done.
  - intros (? & ? & [??]). split; [by apply NoDup_cons|by apply Forall_cons].
Qed.

Lemma lane_ok_app l gs gs' : lane_ok l (gs ++ gs') → lane_ok l gs ∧ lane_ok l gs'.
Proof.
  intros [Hk Hg]. rewrite fmap_app in Hk. apply NoDup_app in Hk as (? & ? & ?).
  apply Forall_app in Hg as [??]. done.
Qed.
Global Instance lane_ok_perm l : Proper ((≡ₚ) ==> iff) (lane_ok l).
Proof. intros gs gs' H. split; intros [Hk Hg]; split; [by rewrite -H|by rewrite -H|by rewrite H|by rewrite H]. Qed.
Global Instance gitems_perm : Proper ((≡ₚ) ==> (≡ₚ)) gitems.
Proof. intros gs gs' H. by rewrite /gitems H. Qed.

Lemma lane_item l gs x : lane_ok l gs → x ∈ gitems gs → lane x = l ∧ hook_group x ∈ gs.*1.
Proof.
  intros [_ Hg] (k & xs & Hk & Hx)%elem_of_gitems. rewrite Forall_forall in Hg.
  destruct (Hg _ Hk) as [_ Hm _]. rewrite Forall_forall in Hm. destruct (Hm _ Hx) as [? Heq]. split; [done|].
  rewrite Heq. apply list_elem_of_fmap. by exists (k, xs).
Qed.

(** *** Updates of a lane *)

Lemma group_set_fresh key xs gs : key ∉ gs.*1 → group_set key xs gs = gs ++ [(key, xs)].
Proof.
  induction gs as [|[k ys] gs IH]; [done|]. simpl. rewrite not_elem_of_cons. intros [? ?].
  rewrite decide_False //. by rewrite IH.
Qed.
Lemma group_pop_fresh key gs : key ∉ gs.*1 → group_pop key gs = gs.
Proof.
  intros H. apply filter_all, Forall_forall. intros [k xs] Hk. simpl. intros ->.
  apply H, list_elem_of_fmap. by exists (key, xs).
Qed.
Lemma group_get_None key gs : group_get key gs = None ↔ key ∉ gs.*1.
Proof.
  induction gs as [|[k ys] gs IH]; simpl; [split; [set_solver|done]|]. rewrite not_elem_of_cons -IH.
  case_decide; naive_solver.
Qed.

(** The group of a key, and the lane around it. *)
Lemma group_get_Some key gs xs :
  NoDup gs.*1 → group_get key gs = Some xs →
  ∃ a b, gs = a ++ (key, xs) :: b ∧ (∀ ys, group_keep key ys gs = match ys with [] => a ++ b | _ => a ++ (key, ys) :: b end).
Proof.
  induction gs as [|[k ys] gs IH]; simpl; [done|]. rewrite NoDup_cons. intros [Hk Hnd].
  case_decide as Heq.
  - intros [= ->]. subst k. exists [], gs. split; [done|]. intros [|z zs]; simpl.
    + rewrite /group_pop filter_cons_False; [naive_solver|]. by apply group_pop_fresh.
    + by rewrite decide_True.
  - intros Hget. destruct (IH Hnd Hget) as (a & b & -> & Hkeep). exists ((k, ys) :: a), b. split; [done|].
    intros [|z zs]; simpl.
    + rewrite /group_pop filter_cons_True //. f_equal. apply (Hkeep []).
    + rewrite decide_False //. f_equal. apply (Hkeep (z :: zs)).
Qed.

Lemma list_remove_Some x xs ys : list_remove x xs = Some ys → ∃ a b, xs = a ++ x :: b ∧ ys = a ++ b.
Proof.
  revert ys. induction xs as [|z xs IH]; intros ys; simpl; [done|]. case_decide as Hz.
  - intros [= ->]. subst z. by exists [], ys.
  - intros (ys' & Hr & ->)%fmap_Some. destruct (IH _ Hr) as (a & b & -> & ->). by exists (z :: a), b.
Qed.
Lemma list_remove_None x xs : list_remove x xs = None ↔ x ∉ xs.
Proof.
  induction xs as [|z xs IH]; simpl; [split; [set_solver|done]|]. rewrite not_elem_of_cons.
  case_decide as Hz; [naive_solver|]. rewrite fmap_None IH. naive_solver.
Qed.

Lemma ordered_sublist (xs ys : list hook) :
  xs `sublist_of` ys → StronglySorted (λ x y, sequence x < sequence y) ys →
  StronglySorted (λ x y, sequence x < sequence y) xs.
Proof.
  induction 1 as [|z xs ys Hs IH|z xs ys Hs IH]; intros Hso; [done| |].
  - apply StronglySorted_inv in Hso as [? Hf]. constructor; [auto|].
    rewrite Forall_forall in Hf. apply Forall_forall. intros w Hw. apply Hf. by eapply elem_of_submseteq, sublist_submseteq.
  - apply StronglySorted_inv in Hso as [? _]. auto.
Qed.

Lemma group_ok_sublist l k xs ys : xs ≠ [] → xs `sublist_of` ys → group_ok l (k, ys) → group_ok l (k, xs).
Proof.
  intros Hne Hs [? Hm Ho]. split; simpl in *; [done| |by apply (ordered_sublist xs ys)].
  rewrite Forall_forall in Hm. apply Forall_forall. intros w Hw. apply Hm. by eapply elem_of_submseteq, sublist_submseteq.
Qed.

(** A group that shrinks to [ys] keeps the lane in order. *)
Lemma group_keep_ok l key gs xs ys :
  lane_ok l gs → group_get key gs = Some xs → ys `sublist_of` xs →
  lane_ok l (group_keep key ys gs)
  ∧ (∀ D, xs ≡ₚ D ++ ys → gitems gs ≡ₚ D ++ gitems (group_keep key ys gs)).
Proof.
  intros Hl Hget Hsub. destruct (group_get_Some _ _ _ (lane_keys _ _ Hl) Hget) as (a & b & -> & Hkeep).
  rewrite Hkeep. assert (lane_ok l ((key, xs) :: a ++ b)) as Hl'.
  { by rewrite -(Permutation_middle a b) in Hl. }
  apply lane_ok_cons in Hl' as (Hk & Hg & Hab). split.
  - destruct ys as [|y ys]; [done|]. rewrite -Permutation_middle. apply lane_ok_cons. split_and!; try done.
    by apply (group_ok_sublist _ _ _ xs).
  - intros D HD. rewrite -(Permutation_middle a b) gitems_cons HD -app_assoc. f_equiv.
    destruct ys as [|y ys]; [done|]. by rewrite -(Permutation_middle a b (key, y :: ys)) gitems_cons.
Qed.

Lemma group_append_ok l gs x :
  lane_ok l gs → lane x = l → (∀ y, y ∈ gitems gs → sequence y < sequence x) →
  lane_ok l (group_append (hook_group x) x gs)
  ∧ gitems (group_append (hook_group x) x gs) ≡ₚ x :: gitems gs
  ∧ (∀ k, k ∈ (group_append (hook_group x) x gs).*1 → k = hook_group x ∨ k ∈ gs.*1).
Proof.
  intros Hl Hx. induction gs as [|[k xs] gs IH]; intros Hlt; simpl.
  - split_and!; [|done|set_solver]. apply lane_ok_cons. split_and!; [set_solver| |apply lane_ok_nil].
    split; simpl; [done|by repeat constructor|by repeat constructor].
  - apply lane_ok_cons in Hl as (Hk & [Hne Hm Ho] & Hgs). case_decide as Heq; simpl.
    + subst k. split_and!; [|by rewrite ?gitems_cons -app_assoc -Permutation_middle|set_solver].
      apply lane_ok_cons. split_and!; try done. split; simpl in *.
      * by destruct xs.
      * apply Forall_app. split; [done|]. by repeat constructor.
      * apply StronglySorted_app_2; [|done|by repeat constructor]. intros y z Hy ->%list_elem_of_singleton.
        apply Hlt. rewrite ?gitems_cons; set_solver.
    + destruct IH as (IH1 & IH2 & IH3); [done| |].
      { intros y Hy. apply Hlt. rewrite ?gitems_cons; set_solver. }
      split_and!.
      * apply lane_ok_cons. split_and!; [|done|done]. intros [?|?]%IH3; [|done]. congruence.
      * by rewrite ?gitems_cons IH2 -Permutation_middle.
      * intros k' [->|Hk']%elem_of_cons; [set_solver|]. destruct (IH3 _ Hk'); set_solver.
Qed.

Lemma group_get_pop key k gs : k ≠ key → group_get k (group_pop key gs) = group_get k gs.
Proof.
  intros Hne. induction gs as [|[k' xs] gs IH]; [done|]. rewrite /group_pop filter_cons /=.
  destruct (decide (k' = key)) as [->|?].
  - rewrite (decide_False (P := ¬ _)); [naive_solver|]. rewrite decide_False //.
  - rewrite (decide_True (P := ¬ _)) //=. case_decide; [done|apply IH].
Qed.
Lemma group_get_set key k ys gs : k ≠ key → group_get k (group_set key ys gs) = group_get k gs.
Proof.
  intros Hne. induction gs as [|[k' xs] gs IH]; simpl; [by rewrite decide_False|].
  destruct (decide (k' = key)) as [->|?]; simpl; [by rewrite !decide_False|]. by rewrite IH.
Qed.
Lemma group_get_keep key k ys gs : k ≠ key → group_get k (group_keep key ys gs) = group_get k gs.
Proof. intros. destruct ys; [by apply group_get_pop|by apply group_get_set]. Qed.

Lemma group_get_in key gs xs : group_get key gs = Some xs → (key, xs) ∈ gs.
Proof.
  induction gs as [|[k ys] gs IH]; simpl; [done|]. case_decide; [|set_solver].
  intros [= ->]. subst. set_solver.
Qed.
Lemma group_get_of key gs xs : NoDup gs.*1 → (key, xs) ∈ gs → group_get key gs = Some xs.
Proof.
  induction gs as [|[k ys] gs IH]; simpl; [set_solver|]. rewrite NoDup_cons. intros [Hk Hnd].
  intros [[= -> ->]|Hin]%elem_of_cons; [by rewrite decide_True|].
  rewrite decide_False; [|by auto]. intros ->. apply Hk, list_elem_of_fmap. by exists (key, xs).
Qed.

Lemma group_get_kept key xs ys gs :
  NoDup gs.*1 → group_get key gs = Some xs →
  group_get key (group_keep key ys gs) = match ys with [] => None | _ => Some ys end.
Proof.
  intros Hnd Hget. destruct (group_get_Some _ _ _ Hnd Hget) as (a & b & -> & ->).
  rewrite fmap_app fmap_cons in Hnd. destruct ys as [|y ys].
  - apply group_get_None. rewrite fmap_app. apply NoDup_app in Hnd as (_ & Ha & Hb).
    apply NoDup_cons in Hb as [Hb _]. intros [?|?]%elem_of_app; [|done]. by apply (Ha key); [|left].
  - apply group_get_of; [by rewrite fmap_app fmap_cons|set_solver].
Qed.

(** The lanes are in order and hold the hooks [Q]. *)
Record lanes_hold (q : RuntimeHookLane → list group) (Q : list hook) : Prop := {
  lanes_wf : ∀ l, lane_ok l (q l);
  lanes_items : qitems q ≡ₚ Q;
}.

Lemma lanes_hold_perm q Q Q' : Q ≡ₚ Q' → lanes_hold q Q → lanes_hold q Q'.
Proof. intros H [? Hi]. split; [done|by rewrite Hi]. Qed.

Lemma lanes_update q Q l gs D :
  lanes_hold q Q → lane_ok l gs → gitems (q l) ≡ₚ D ++ gitems gs →
  ∃ Q', Q ≡ₚ D ++ Q' ∧ lanes_hold (<[l := gs]> q) Q'.
Proof.
  intros [Hwf Hi] Hl Hp. exists (qitems (<[l := gs]> q)). split.
  - rewrite -Hi. by apply qitems_insert.
  - split; [|done]. intros l'. destruct (decide (l = l')) as [->|?].
    + by rewrite fn_lookup_insert.
    + by rewrite fn_lookup_insert_ne.
Qed.

(** [x] is the first of its group. *)
Definition head_of (q : RuntimeHookLane → list group) (x : hook) : Prop :=
  ∃ more, group_get (hook_group x) (q (lane x)) = Some (x :: more).

Lemma item_group q Q x :
  lanes_hold q Q → x ∈ Q → ∃ items, group_get (hook_group x) (q (lane x)) = Some items ∧ x ∈ items.
Proof.
  intros [Hwf Hi] Hx. rewrite -Hi in Hx. apply elem_of_qitems in Hx as [l Hx].
  destruct (lane_item _ _ _ (Hwf l) Hx) as [Hlane _]. apply elem_of_gitems in Hx as (k & xs & Hk & Hx).
  exists xs. split; [|done]. rewrite Hlane. pose proof (lane_groups _ _ (Hwf l)) as Hg.
  rewrite Forall_forall in Hg. destruct (Hg _ Hk) as [_ Hm _]. rewrite Forall_forall in Hm.
  destruct (Hm _ Hx) as [_ ->]. by apply group_get_of; [apply Hwf|].
Qed.

Lemma group_get_ok q Q l k xs :
  lanes_hold q Q → group_get k (q l) = Some xs →
  group_ok l (k, xs) ∧ (∀ x, x ∈ xs → x ∈ Q).
Proof.
  intros [Hwf Hi] Hget%group_get_in. pose proof (lane_groups _ _ (Hwf l)) as Hg.
  rewrite Forall_forall in Hg. split; [by apply Hg|]. intros x Hx. rewrite -Hi. apply elem_of_qitems. exists l.
  apply elem_of_gitems. eauto.
Qed.

(** *** Taking a hook off its lane *)

Definition first_of (x : hook) (Q : list hook) : Prop :=
  ∀ y, y ∈ Q → lane y = lane x → hook_group y = hook_group x → sequence x < sequence y.

Lemma take_item q Q x :
  lanes_hold q Q → x ∈ Q →
  ∃ items rest Q',
    group_get (hook_group x) (q (lane x)) = Some items ∧ list_remove x items = Some rest
    ∧ Q ≡ₚ x :: Q' ∧ lanes_hold (<[lane x := group_keep (hook_group x) rest (q (lane x))]> q) Q'
    ∧ (head_of q x → first_of x Q')
    ∧ (∀ y, head_of q y → (lane y, hook_group y) ≠ (lane x, hook_group x) →
            head_of (<[lane x := group_keep (hook_group x) rest (q (lane x))]> q) y).
Proof.
  intros Hq Hx. destruct (item_group _ _ _ Hq Hx) as (items & Hget & Hin).
  destruct (list_remove x items) as [rest|] eqn:Hr; [|by apply list_remove_None in Hr].
  destruct (list_remove_Some _ _ _ Hr) as (a & b & -> & ->).
  destruct (group_keep_ok (lane x) (hook_group x) _ _ (a ++ b) (lanes_wf _ _ Hq _) Hget) as [Hl Hp].
  { apply sublist_app; [done|]. by apply sublist_cons. }
  destruct (lanes_update _ _ _ _ [x] Hq Hl) as (Q' & HQ' & Hq').
  { apply Hp. by rewrite -Permutation_middle. }
  exists (a ++ x :: b), (a ++ b), Q'. split_and!; try done.
  - intros [more Hmore] y Hy Hlane Hgrp. rewrite Hget in Hmore. injection Hmore as Hab.
    destruct (item_group _ _ _ Hq' Hy) as (ys & Hys & Hyin).
    rewrite Hlane Hgrp fn_lookup_insert (group_get_kept _ _ _ _ (lane_keys _ _ (lanes_wf _ _ Hq _)) Hget) in Hys.
    destruct (group_get_ok _ _ _ _ _ Hq Hget) as [[_ _ Ho] _]. simpl in Ho.
    assert (y ∈ a ++ b) as Hyab by (destruct (a ++ b); [done|by injection Hys as ->]).
    destruct a as [|z a].
    + apply StronglySorted_inv in Ho as [_ Hf]. rewrite Forall_forall in Hf. by apply Hf.
    + injection Hab as ->. apply StronglySorted_inv in Ho as [_ Hf]. rewrite Forall_forall in Hf.
      specialize (Hf x ltac:(set_solver)). lia.
  - intros y [more Hmore] Hne. exists more. destruct (decide (lane y = lane x)) as [Hl'|Hl'].
    + rewrite Hl' fn_lookup_insert group_get_keep; [congruence|]. by rewrite -Hl'.
    + by rewrite fn_lookup_insert_ne.
Qed.

(** ** States of the scheduler *)

(** The lanes hold [Q]; the counters also count [X], taken off a lane but not
    settled yet. *)
Record holds (s : sched) (X Q A : list hook) (R : Z) : Prop := {
  holds_lanes : lanes_hold (queues s) Q;
  holds_tal : counted (tal s) (X ++ Q) A R;
}.

Lemma holds_ext s s' X Q A R :
  queues s' = queues s → tal s' = tal s → holds s X Q A R → holds s' X Q A R.
Proof. intros Hq Ht [??]. by split; rewrite ?Hq ?Ht. Qed.
Lemma holds_perm s X Q Q' A A' R : Q ≡ₚ Q' → A ≡ₚ A' → holds s X Q A R → holds s X Q' A' R.
Proof.
  intros HQ HA [Hl Ht]. split; [by eapply lanes_hold_perm|]. eapply counted_perm; [| |exact Ht]; [by rewrite HQ|done].
Qed.

(** What selecting work does to a state besides its lanes and counters: the
    hooks [D] are rejected, and nothing else is touched. *)
Record evolves (s : sched) (D : list hook) (s' : sched) : Prop := {
  ev_lim : lim s' = lim s;
  ev_limit : active_limit s' = active_limit s;
  ev_sequence : last_sequence s' = last_sequence s;
  ev_events : set_events s' = set_events s;
  ev_reservations : reservations s' = reservations s;
  ev_rejected : ∀ x, x ∈ D → fates s' !! sequence x = Some (Rejected_for daemon_hook_deadline_exhausted);
  ev_other : ∀ n, n ∉ sequence <$> D → fates s' !! n = fates s !! n;
}.

Lemma evolves_refl s s' :
  lim s' = lim s → active_limit s' = active_limit s → last_sequence s' = last_sequence s →
  set_events s' = set_events s → reservations s' = reservations s → fates s' = fates s → evolves s [] s'.
Proof. intros ? ? ? ? ? Hf. split; try done; [set_solver|by rewrite Hf]. Qed.

Lemma evolves_reject s x s' :
  lim s' = lim s → active_limit s' = active_limit s → last_sequence s' = last_sequence s →
  set_events s' = set_events s → reservations s' = reservations s →
  fates s' = <[sequence x := Rejected_for daemon_hook_deadline_exhausted]> (fates s) → evolves s [x] s'.
Proof.
  intros ? ? ? ? ? Hf. split; try done.
  - intros y ->%list_elem_of_singleton. by rewrite Hf lookup_insert_eq.
  - intros n Hn. rewrite Hf lookup_insert_ne //. set_solver.
Qed.

Lemma evolves_trans s1 s2 s3 D D' : evolves s1 D s2 → evolves s2 D' s3 → evolves s1 (D ++ D') s3.
Proof.
  intros [] []. split; try congruence.
  - intros x [Hx|Hx]%elem_of_app; [|by auto]. destruct (decide (sequence x ∈ sequence <$> D')) as [Hin|Hout].
    + apply list_elem_of_fmap in Hin as (y & -> & Hy). auto.
    + rewrite ev_other1 //. auto.
  - intros n. rewrite fmap_app not_elem_of_app. intros [??]. by rewrite ev_other1 ?ev_other0.
Qed.

Lemma evolves_then s1 s2 s3 D : evolves s1 D s2 → evolves s2 [] s3 → evolves s1 D s3.
Proof. intros H1 H2. rewrite -(app_nil_r D). by eapply evolves_trans. Qed.
Lemma then_evolves s1 s2 s3 D : evolves s1 [] s2 → evolves s2 D s3 → evolves s1 D s3.
Proof. intros H1 H2. change D with ([] ++ D). by eapply evolves_trans. Qed.

(** *** Blocked hooks *)

(** [x] has to wait for a slot of its harness, or of its client while another
    client waits. *)
Definition must_wait (s : sched) (Q A : list hook) (x : hook) : Prop :=
  per_harness_active_limit (lim s) <= count (harness x) (harness <$> A)
  ∨ (∃ y, y ∈ Q ∧ client_key y ≠ client_key x)
    ∧ active_share_limit s <= count (client_key x) (client_key <$> A).

Lemma competing_items c s Q :
  lanes_hold (queues s) Q → has_competing_client c s = true ↔ ∃ y, y ∈ Q ∧ client_key y ≠ c.
Proof.
  intros [Hwf Hi]. rewrite /has_competing_client existsb_Exists Exists_exists. split.
  - intros ([k xs] & Hin & Hk). rewrite /all_groups list_elem_of_bind in Hin. destruct Hin as (l & Hin & _).
    pose proof (lane_groups _ _ (Hwf l)) as Hg. rewrite Forall_forall in Hg. destruct (Hg _ Hin) as [Hne Hm _].
    destruct xs as [|x xs]; [done|]. apply Forall_cons in Hm as [[_ Hx] _]. simpl in Hx. exists x. split.
    + rewrite -Hi. apply elem_of_qitems. exists l. apply elem_of_gitems. exists k, (x :: xs). set_solver.
    + simpl in Hk. apply negb_true_iff, bool_decide_eq_false in Hk. by rewrite -Hx in Hk.
  - intros (y & Hy & Hc). destruct (item_group _ _ _ (Build_lanes_hold _ _ Hwf Hi) Hy) as (ys & Hg%group_get_in & _).
    exists (hook_group y, ys). split.
    + rewrite /all_groups list_elem_of_bind. exists (lane y). split; [done|apply elem_of_LANES].
    + simpl. by rewrite bool_decide_eq_false_2.
Qed.

Lemma blocked_spec s X Q A R x : holds s X Q A R → blocked x s = true ↔ must_wait s Q A x.
Proof.
  intros [Hl Ht]. rewrite /blocked /harness_full /share_full orb_true_iff andb_true_iff !Z.leb_le.
  rewrite (count_of_ok _ _ _ (counted_active_harness _ _ _ _ Ht)) (count_of_ok _ _ _ (counted_active_client _ _ _ _ Ht)).
  by rewrite (competing_items _ _ _ Hl).
Qed.

(** Fewer waiting hooks block less. *)
Lemma must_wait_mono s s' Q Q' A x :
  lim s' = lim s → active_limit s' = active_limit s → (∀ y, y ∈ Q' → client_key y ≠ client_key x → y ∈ Q) →
  must_wait s' Q' A x → must_wait s Q A x.
Proof.
  intros Hl Ha Hsub. rewrite /must_wait /active_share_limit Hl Ha. naive_solver.
Qed.

(** ** Selecting work *)

(** No cancellation event is set while a critical section runs: the two
    questions that [_expire_waiters] asks about a hook have one answer. *)
Class Undisturbed (env : environment) : Prop := undisturbed : ∀ k, cancels env k = ∅.

Section selection.
Context (env : environment) `{!Undisturbed env}.

Definition lanes_same (s s' : sched) : Prop :=
  lane_cursor s' = lane_cursor s ∧ lane_deficits s' = lane_deficits s.

Lemma wp_monotonic (P : Z → sched → Prop) s :
  P (clock env (reads s)) (with_reads (S (reads s)) s) → wp (monotonic env) P s.
Proof. done. Qed.

Lemma wp_can_finish x (P : bool → sched → Prop) s :
  (∀ b n, P b (with_reads n s)) → wp (can_finish env x) P s.
Proof. intros H. apply H. Qed.

(** The outcome [o] of a search: the hooks [D] were rejected on the way, and
    [Q'] still wait; a hook that was found need not wait, and none of its group
    came before it. *)
Record picks (s : sched) (Q A : list hook) (R : Z) (D : list hook) (o : option hook) (Q' : list hook) (s' : sched)
    : Prop := {
  pk_split : Q ≡ₚ D ++ option_list o ++ Q';
  pk_holds : holds s' (option_list o) Q' A R;
  pk_evolves : evolves s D s';
  pk_free : ∀ x, o = Some x → ¬ must_wait s Q' A x ∧ first_of x Q';
}.

Lemma wp_remove_queued x s Q A R (P : bool → sched → Prop) :
  holds s [] Q A R → x ∈ Q →
  (∀ Q' s', Q ≡ₚ x :: Q' → holds s' [] Q' A R → evolves s [] s' → lanes_same s s' → fates s' = fates s →
            (∀ y, head_of (queues s) y → (lane y, hook_group y) ≠ (lane x, hook_group x) → head_of (queues s') y) →
            P true s') →
  wp (remove_queued x) P s.
Proof.
  intros [Hl Ht] Hx H. destruct (take_item _ _ _ Hl Hx) as (items & rest & Q' & Hget & Hr & HQ & Hl' & _ & Hh).
  apply wp_bind, wp_get. rewrite Hget Hr. apply wp_bind, wp_modify, wp_bind.
  eapply (wp_drop_queued x _ Q' A R).
  { eapply counted_perm; [| |exact Ht]; [|done]. done. }
  intros t Hct. apply wp_ret, (H Q'); try done. by apply evolves_refl.
Qed.

Lemma wp_remove_absent x s Q A R (P : bool → sched → Prop) :
  holds s [] Q A R → x ∉ Q → P false s → wp (remove_queued x) P s.
Proof.
  intros [Hl Ht] Hx H. apply wp_bind, wp_get. destruct (group_get _ _) as [items|] eqn:Hget; [|done].
  destruct (group_get_ok _ _ _ _ _ Hl Hget) as [_ Hin]. assert (list_remove x items = None) as -> by (apply list_remove_None; auto). done.
Qed.

Lemma wp_remove_from_lane x s Q A R (P : unit → sched → Prop) :
  holds s [] Q A R → x ∈ Q → head_of (queues s) x →
  (∀ Q' s', Q ≡ₚ x :: Q' → holds s' [x] Q' A R → evolves s [] s' → lanes_same s s' → first_of x Q' → P tt s') →
  wp (remove_from_lane x) P s.
Proof.
  intros [Hl Ht] Hx Hhead H.
  destruct (take_item _ _ _ Hl Hx) as (items & rest & Q' & Hget & Hr & HQ & Hl' & Hf & _).
  apply wp_bind, wp_get. rewrite Hget Hr. apply wp_modify, (H Q'); try done; [| |by apply Hf].
  - split; [done|]. simpl. eapply counted_perm; [| |exact Ht]; [|done]. done.
  - by apply evolves_refl.
Qed.

(** A candidate that is rejected. *)
Lemma wp_reject_candidate x s Q A R (P : unit → sched → Prop) :
  holds s [] Q A R → x ∈ Q →
  (∀ Q' s', Q ≡ₚ x :: Q' → holds s' [] Q' A R → evolves s [x] s' → lanes_same s s' →
            (∀ y, head_of (queues s) y → (lane y, hook_group y) ≠ (lane x, hook_group x) → head_of (queues s') y) →
            P tt s') →
  wp (remove_queued x ;; set_fate x (Rejected_for daemon_hook_deadline_exhausted) ;; count_metrics 0 0 1 0 0) P s.
Proof.
  intros Hh Hx H. apply wp_bind. eapply wp_remove_queued; [done..|].
  intros Q' s' HQ Hh' Hev [Hc Hd] Hf Hheads. apply wp_bind, wp_modify, wp_modify, (H Q'); try done.
  - by eapply holds_ext, Hh'.
  - destruct Hev. apply evolves_reject; try done. by rewrite /= Hf.
Qed.

Lemma wp_then3 {A B C E} (a : M A) (b : M B) (c : M C) (k : M E) (P : E → sched → Prop) s :
  wp (a ;; b ;; c) (λ _, wp k P) s → wp (a ;; b ;; c ;; k) P s.
Proof.
  rewrite /wp /mbind /M_bind. destruct (a s) as [[?|?] s1]; [|done].
  destruct (b s1) as [[?|?] s2]; [|done]. by destruct (c s2) as [[?|?] s3].
Qed.

Lemma picks_after s1 s2 Q A R D Q1 D' o Q' s3 :
  Q ≡ₚ D ++ Q1 → evolves s1 D s2 → picks s2 Q1 A R D' o Q' s3 → picks s1 Q A R (D ++ D') o Q' s3.
Proof.
  intros HQ Hev [Hs Hh He Hf]. split; [|done|by eapply evolves_trans|].
  - by rewrite HQ Hs -app_assoc.
  - intros x Hx. destruct (Hf _ Hx) as [Hw ?]. split; [|done]. intros Hmw. apply Hw. destruct Hev.
    by eapply must_wait_mono, Hmw.
Qed.

(** The candidates are heads of different groups. *)
Lemma wp_first_eligible cs : ∀ s Q A R,
  holds s [] Q A R → Forall (head_of (queues s)) cs → NoDup ((λ x, (lane x, hook_group x)) <$> cs) →
  wp (first_eligible env cs) (λ o s', ∃ D Q',
    picks s Q A R D o Q' s' ∧ lanes_same s s'
    ∧ (o = None → D = [] → queues s' = queues s)
    ∧ (∀ y, y ∈ cs → y ∈ D ∨ must_wait s Q A y ∨ ∃ x, o = Some x ∧ (y = x ∨ ∃ a b, cs = a ++ x :: b ∧ y ∈ b))) s.
Proof.
  induction cs as [|x cs IH]; intros s Q A R Hh Hheads Hnd; simpl.
  { apply wp_ret. exists [], Q. split_and!; [|done|done|set_solver]. split; try done. by apply evolves_refl. }
  apply Forall_cons in Hheads as [Hx Hheads]. apply NoDup_cons in Hnd as [Hxcs Hnd].
  assert (x ∈ Q) as HxQ.
  { destruct Hx as [more Hmore]. destruct (group_get_ok _ _ _ _ _ (holds_lanes _ _ _ _ _ Hh) Hmore) as [_ Hin].
    apply Hin. set_solver. }
  apply wp_bind, wp_get. destruct (blocked x s) eqn:Hb.
  { eapply wp_mono; [by apply IH|]. intros o s' (D & Q' & Hp & Hs & Hn & Hcs). exists D, Q'. split_and!; try done.
    intros y [->|Hy]%elem_of_cons; [right; left; by eapply blocked_spec|].
    destruct (Hcs _ Hy) as [?|[?|(z & -> & Hz)]]; [by auto..|]. right; right. exists z. split; [done|].
    destruct Hz as [?|(a & b & -> & ?)]; [by left|]. right. by exists (x :: a), b. }
  apply wp_bind, wp_can_finish. intros ok n. set (s1 := with_reads n s).
  assert (holds s1 [] Q A R) as Hh1 by by eapply holds_ext, Hh.
  destruct ok.
  - apply wp_bind. eapply wp_remove_from_lane; [done..|]. intros Q' s2 HQ Hh2 Hev [Hc Hd] Hf. apply wp_ret.
    exists [], Q'. split_and!; [|done|done|].
    + split; try done; [by eapply then_evolves, Hev; apply evolves_refl|]. intros ? [= <-]. split; [|done].
      intros Hmw. assert (blocked x s = true); [|congruence]. eapply blocked_spec; [exact Hh|].
      eapply must_wait_mono, Hmw; try done. intros y Hy _. rewrite HQ elem_of_cons. by right.
    + intros y [->|Hy]%elem_of_cons; right; right; exists x; [by auto|]. split; [done|]. right. by exists [], cs.
  - apply wp_then3. eapply wp_reject_candidate; [done..|]. intros Q1 s2 HQ Hh2 Hev [Hc Hd] Hother.
    assert (evolves s [x] s2) as Hev' by (eapply then_evolves, Hev; by apply evolves_refl).
    eapply wp_mono.
    { apply (IH s2 Q1 A R Hh2); [|done]. rewrite Forall_forall in Hheads. apply Forall_forall.
      intros y Hy. apply Hother; [by apply Hheads|]. intros Heq. apply Hxcs. rewrite -Heq. apply list_elem_of_fmap. eauto. }
    intros o s3 (D & Q' & Hp & [Hc3 Hd3] & _ & Hcs). exists (x :: D), Q'. split_and!; [| |done|].
    + exact (picks_after _ _ _ _ _ [x] _ _ _ _ _ HQ Hev' Hp).
    + split; [by rewrite Hc3 Hc|by rewrite Hd3 Hd].
    + intros y [->|Hy]%elem_of_cons; [left; set_solver|]. destruct (Hcs _ Hy) as [?|[Hmw|(z & -> & Hz)]].
      * left; set_solver.
      * right; left. destruct Hev'. eapply must_wait_mono, Hmw; try done. intros w Hw _. rewrite HQ elem_of_cons. by right.
      * right; right. exists z. split; [done|]. destruct Hz as [?|(a & b & -> & ?)]; [by left|].
        right. by exists (x :: a), b.
Qed.

(** *** The groups of a lane *)

Lemma lanes_hold_ext q q' Q : (∀ l, q' l = q l) → lanes_hold q Q → lanes_hold q' Q.
Proof.
  intros H [Hwf Hi]. split; [intros l; by rewrite H|]. rewrite -Hi /qitems /LANES /=. by rewrite !H.
Qed.
Lemma lanes_hold_rotate q q' Q : (∀ l, q' l ≡ₚ q l) → lanes_hold q Q → lanes_hold q' Q.
Proof.
  intros H [Hwf Hi]. split; [intros l; by rewrite H|]. rewrite -Hi /qitems /LANES /=. by rewrite !H.
Qed.
Lemma fn_insert_twice (q : RuntimeHookLane → list group) l a b l' :
  (<[l := a]> (<[l := b]> q)) l' = (<[l := a]> q) l'.
Proof.
  destruct (decide (l = l')) as [->|?]; [by rewrite !fn_lookup_insert|by rewrite !fn_lookup_insert_ne].
Qed.

Lemma pop_head q Q l key x more rest :
  lanes_hold q Q → q l = (key, x :: more) :: rest →
  lane x = l ∧ hook_group x = key ∧ key ∉ rest.*1
  ∧ ∃ Q', Q ≡ₚ x :: Q' ∧ lanes_hold (<[l := put_back key more rest]> q) Q' ∧ first_of x Q'.
Proof.
  intros Hq Heq. pose proof (lanes_wf _ _ Hq l) as Hl. rewrite Heq in Hl.
  apply lane_ok_cons in Hl as (Hk & Hg & Hrest). pose proof (group_members _ _ Hg) as Hm.
  apply Forall_cons in Hm as [[Hlane Hgrp] _]. simpl in Hgrp. split_and!; [done..|].
  assert (lane_ok l (put_back key more rest)) as Hl'.
  { rewrite /put_back. destruct more as [|y more]; [done|]. rewrite group_set_fresh //.
    rewrite Permutation_app_comm. apply lane_ok_cons. split_and!; try done.
    by apply (group_ok_sublist _ _ _ (x :: y :: more)); [|apply sublist_cons|]. }
  destruct (lanes_update q Q l (put_back key more rest) [x] Hq Hl') as (Q' & HQ & Hq').
  { rewrite Heq gitems_cons /put_back. destruct more as [|y more]; [done|]. rewrite group_set_fresh // gitems_app /=.
    by rewrite ?gitems_cons app_nil_r (Permutation_app_comm (gitems rest)). }
  exists Q'. split_and!; try done. intros z Hz Hzl Hzg. destruct (item_group _ _ _ Hq' Hz) as (zs & Hget & Hin).
  rewrite Hzl Hzg Hlane fn_lookup_insert Hgrp /put_back in Hget.
  pose proof (group_ordered _ _ Hg) as Ho. apply StronglySorted_inv in Ho as [_ Hf]. rewrite Forall_forall in Hf.
  apply Hf. destruct more as [|y more].
  - exfalso. apply group_get_None in Hk. congruence.
  - rewrite group_set_fresh // in Hget. rewrite (group_get_of key _ (y :: more)) in Hget.
    + rewrite /put_back group_set_fresh // in Hl'. apply Hl'.
    + set_solver.
    + by injection Hget as ->.
Qed.

(** Whether the head of the popped group must wait does not depend on it. *)
Lemma popped_blocked s Q A R l key x more rest :
  holds s [] Q A R → queues s l = (key, x :: more) :: rest →
  let s1 := with_queues (<[l := rest]> (queues s)) s in
  blocked x s1 = true ↔ must_wait s Q A x.
Proof.
  intros Hh Heq s1. pose proof (holds_lanes _ _ _ _ _ Hh) as Hq. pose proof (lanes_wf _ _ Hq l) as Hl.
  rewrite Heq in Hl. apply lane_ok_cons in Hl as (_ & Hg & Hrest).
  destruct (lanes_update _ _ l rest (x :: more) Hq Hrest) as (Q' & HQ & Hq'); [by rewrite Heq|].
  assert (holds s1 (x :: more) Q' A R) as Hh1.
  { split; [done|]. eapply counted_perm; [| |apply (holds_tal _ _ _ _ _ Hh)]; done. }
  rewrite (blocked_spec _ _ _ _ _ _ Hh1). pose proof (group_members _ _ Hg) as Hm. rewrite Forall_forall in Hm.
  assert (∀ y, y ∈ x :: more → client_key y = client_key x) as Hc.
  { intros y Hy. destruct (Hm _ Hy) as [_ Hy'], (Hm x ltac:(set_solver)) as [_ Hx']. simpl in *.
    rewrite /hook_group in Hy', Hx'. congruence. }
  split; intros Hmw; eapply must_wait_mono, Hmw; try done; intros y Hy Hne.
  - rewrite HQ. set_solver.
  - rewrite HQ in Hy. apply elem_of_app in Hy as [Hy|?]; [|done]. by apply Hc in Hy.
Qed.

Lemma wp_reject_queued x s Q A R (P : unit → sched → Prop) :
  holds s [x] Q A R →
  (∀ s', holds s' [] Q A R → evolves s [x] s' → lanes_same s s' → queues s' = queues s → P tt s') →
  wp (reject_queued x daemon_hook_deadline_exhausted) P s.
Proof.
  intros [Hl Ht] H. apply wp_bind. eapply wp_drop_queued; [exact Ht|]. intros t Hct.
  apply wp_bind, wp_modify, wp_modify, H; [|by apply evolves_reject|done|done]. by split.
Qed.

(** The first [n] groups of the lane [l] were all found waiting. *)
Definition all_wait (s : sched) (Q A : list hook) (gs : list group) : Prop :=
  ∀ k x more, (k, x :: more) ∈ gs → must_wait s Q A x.

Lemma wp_scan_groups n : ∀ l s Q A R,
  holds s [] Q A R → (n <= length (queues s l))%nat →
  wp (scan_groups env n l) (λ o s', ∃ D Q',
    picks s Q A R D o Q' s' ∧ lanes_same s s'
    ∧ (o = None → D = [] →
       (∀ l', queues s' l' ≡ₚ queues s l') ∧ all_wait s Q A (take n (queues s l)))) s.
Proof.
  induction n as [|n IH]; intros l s Q A R Hh Hn; simpl.
  { apply wp_ret. exists [], Q. split_and!; [|done|].
    - split; try done. by apply evolves_refl.
    - intros _ _. split; [done|]. intros k y ys Hy. by apply not_elem_of_nil in Hy. }
  apply wp_bind, wp_get. destruct (queues s l) as [|[key [|x more]] rest] eqn:Heq; simpl in Hn; [lia| |].
  { exfalso. pose proof (lanes_wf _ _ (holds_lanes _ _ _ _ _ Hh) l) as Hl. rewrite Heq in Hl.
    apply lane_ok_cons in Hl as (_ & [Hne _ _] & _). done. }
  destruct (pop_head _ _ _ _ _ _ _ (holds_lanes _ _ _ _ _ Hh) Heq) as (Hlane & Hgrp & Hk & Q' & HQ & Hq' & Hf).
  apply wp_bind, wp_modify, wp_bind, wp_get.
  pose proof (popped_blocked _ _ _ _ _ _ _ _ _ Hh Heq) as Hb. simpl in Hb.
  destruct (blocked x _) eqn:Hbl.
  - apply wp_bind, wp_modify. rewrite group_set_fresh //. set (s2 := with_queues _ _).
    assert (∀ l', queues s2 l' ≡ₚ queues s l') as Hp.
    { intros l'. rewrite /= fn_insert_twice. destruct (decide (l = l')) as [->|?].
      - by rewrite fn_lookup_insert Heq Permutation_app_comm.
      - by rewrite fn_lookup_insert_ne. }
    assert (holds s2 [] Q A R) as Hh2.
    { split; [|by apply Hh]. by eapply lanes_hold_rotate, Hh. }
    assert (queues s2 l = rest ++ [(key, x :: more)]) as Hs2 by by rewrite /= fn_lookup_insert.
    eapply wp_mono; [apply (IH l s2 Q A R Hh2); rewrite Hs2 length_app /=; lia|].
    intros o s3 (D & Q3 & Hpk & Hls & Hnone). exists D, Q3. split_and!.
    + apply (picks_after s s2 Q A R [] Q D o Q3 s3); [done|by apply evolves_refl|done].
    + done.
    + intros Ho HD. destruct (Hnone Ho HD) as [Hq3 Hall]. split; [intros l'; by rewrite Hq3|].
      intros k y ys [[= -> -> ->]|Hy]%elem_of_cons; [by apply Hb|]. apply (Hall k y ys).
      rewrite Hs2 take_app_le //; lia.
  - apply wp_bind, wp_can_finish. intros ok m. apply wp_bind, wp_modify. set (s2 := with_queues _ _).
    assert (lanes_hold (queues s2) Q') as Hq2 by (eapply lanes_hold_ext, Hq'; intros l'; apply fn_insert_twice).
    assert (counted (tal s2) ([x] ++ Q') A R) as Ht2.
    { eapply counted_perm; [| |apply (holds_tal _ _ _ _ _ Hh)]; done. }
    assert (¬ must_wait s Q A x) as Hfree by (rewrite -Hb; congruence).
    destruct ok.
    + apply wp_ret. exists [], Q'. split_and!; [|done|done]. split; [done|by split|by apply evolves_refl|].
      intros ? [= <-]. split; [|done]. intros Hmw. apply Hfree. eapply must_wait_mono, Hmw; try done.
      intros y Hy _. rewrite HQ elem_of_cons. by right.
    + apply wp_bind. eapply (wp_reject_queued x s2 Q' A R); [by split|]. intros s3 Hh3 Hev3 Hls3 Hq3.
      eapply wp_mono; [apply (IH l s3 Q' A R Hh3)|].
      { rewrite Hq3 /= fn_lookup_insert /put_back. destruct more; [lia|]. rewrite group_set_fresh // length_app /=. lia. }
      intros o s4 (D & Q4 & Hpk & [Hc Hd] & Hnone). exists (x :: D), Q4. split_and!; [| |done].
      * apply (picks_after s s3 Q A R [x] Q' D o Q4 s4); [done| |done].
        eapply then_evolves, Hev3. by apply evolves_refl.
      * destruct Hls3 as [Hc3 Hd3]. split; [by rewrite Hc Hc3|by rewrite Hd Hd3].
Qed.

(** *** The rounds over the lanes *)

Record lanes_ok (s : sched) : Prop := {
  cursor_ok : (lane_cursor s < 3)%nat;
  deficits_ok : ∀ l, 0 <= lane_deficits s l;
}.

Lemma lanes_ok_same s s' : lanes_same s s' → lanes_ok s → lanes_ok s'.
Proof. intros [Hc Hd] [??]. by split; rewrite ?Hc ?Hd. Qed.
Lemma lanes_ok_with c d s : (c < 3)%nat → (∀ l, 0 <= d l) → lanes_ok (with_lanes c d s).
Proof. by split. Qed.
Lemma next_cursor_ok c : (next_cursor c < 3)%nat.
Proof. apply Nat.mod_upper_bound. lia. Qed.
Lemma insert_deficit (d : RuntimeHookLane → Z) l n :
  (∀ l, 0 <= d l) → 0 <= n → ∀ l', 0 <= (<[l := n]> d) l'.
Proof.
  intros Hd Hn l'. destruct (decide (l = l')) as [->|?]; [by rewrite fn_lookup_insert|by rewrite fn_lookup_insert_ne].
Qed.
Lemma LANE_WEIGHTS_pos l : 0 < LANE_WEIGHTS l.
Proof. by destruct l. Qed.

Lemma all_wait_mono s s' Q Q' A gs gs' :
  lim s' = lim s → active_limit s' = active_limit s → Q ≡ₚ Q' → gs ≡ₚ gs' →
  all_wait s' Q' A gs' → all_wait s Q A gs.
Proof.
  intros Hl Ha HQ Hgs H k x more Hin. rewrite Hgs in Hin. eapply must_wait_mono, (H _ _ _ Hin); try done.
  intros y. by rewrite HQ.
Qed.

(** The outcome of visiting [n] lanes from the cursor on. *)
Definition visits (n : nat) (s : sched) (Q A : list hook) (R : Z) (o : option hook) (s' : sched) : Prop :=
  ∃ D Q', picks s Q A R D o Q' s' ∧ lanes_ok s'
    ∧ (o = None → D = [] →
       (∀ l, queues s' l ≡ₚ queues s l)
       ∧ ∀ k, (k < n)%nat → all_wait s Q A (queues s (lane_at ((lane_cursor s + k) mod 3)))).

(** The cursor moves on from a lane in which nothing can run. *)
Lemma wp_next_lane n (K : M (option hook)) s s1 Q A R D1 Q1 :
  (∀ s Q, holds s [] Q A R → lanes_ok s → wp K (visits n s Q A R) s) →
  let l := lane_at (lane_cursor s) in
  picks s Q A R D1 None Q1 s1 → (D1 = [] → (∀ l, queues s1 l ≡ₚ queues s l) ∧ all_wait s Q A (queues s l)) →
  (lane_cursor s < 3)%nat → lane_cursor s1 = lane_cursor s → (∀ l, 0 <= lane_deficits s1 l) →
  wp (modify (λ s, with_lanes (next_cursor (lane_cursor s)) (<[l := 0]> (lane_deficits s)) s) ;; K)
    (visits (S n) s Q A R) s1.
Proof.
  intros IH l Hp Hw Hc3 Hc Hd. apply wp_bind, wp_modify. set (s2 := with_lanes _ _ _).
  assert (holds s2 [] Q1 A R) as Hh2 by by eapply holds_ext, Hp.
  assert (lanes_ok s2) as Hl2 by (split; [apply next_cursor_ok|by apply insert_deficit]).
  assert (evolves s D1 s2) as Hev by (eapply evolves_then; [apply Hp|by apply evolves_refl]).
  pose proof (pk_split _ _ _ _ _ _ _ _ Hp) as HQ. simpl in HQ.
  eapply wp_mono; [by apply IH|]. intros o s3 (D2 & Q2 & Hp2 & Hl3 & Hnone). exists (D1 ++ D2), Q2.
  split_and!; [by eapply picks_after|done|].
  intros Ho [HD1 HD2]%app_eq_nil. destruct (Hnone Ho HD2) as [Hq3 Hall], (Hw HD1) as [Hq1 Hfirst]. subst D1.
  split; [intros l'; by rewrite Hq3 Hq1|]. intros k Hk. destruct Hev, k as [|k].
  - by rewrite Nat.add_0_r Nat.mod_small.
  - assert ((lane_cursor s + S k) mod 3 = (lane_cursor s2 + k) mod 3)%nat as ->.
    { change (lane_cursor s2) with (S (lane_cursor s1) mod 3)%nat. rewrite Hc Nat.Div0.add_mod_idemp_l. f_equal. lia. }
    eapply all_wait_mono, (Hall k); [done..| |lia]. by rewrite -Hq1.
Qed.

Lemma wp_visit_lanes n : ∀ s Q A R,
  holds s [] Q A R → lanes_ok s → wp (visit_lanes env n) (visits n s Q A R) s.
Proof.
  induction n as [|n IH]; intros s Q A R Hh [Hc Hd]; simpl.
  { apply wp_ret. exists [], Q. split_and!; [|done|].
    - split; try done. by apply evolves_refl.
    - intros _ _. split; [done|lia]. }
  apply wp_bind, wp_get, wp_bind, wp_modify. set (l := lane_at (lane_cursor s)).
  set (s1 := if lane_deficits s l =? 0 then _ else _).
  assert (lane_cursor s1 = lane_cursor s ∧ (∀ l, 0 <= lane_deficits s1 l) ∧ 0 < lane_deficits s1 l
          ∧ queues s1 = queues s ∧ holds s1 [] Q A R ∧ evolves s [] s1) as (Hc1 & Hd1 & Hpos & Hq1 & Hh1 & Hev1).
  { pose proof (LANE_WEIGHTS_pos l). pose proof (Hd l). rewrite /s1. case: (Z.eqb_spec (lane_deficits s l) 0) => ? /=.
    - split_and!; [done|apply insert_deficit; [done|lia]|by rewrite fn_lookup_insert|done|by eapply holds_ext, Hh|by apply evolves_refl].
    - split_and!; [done|done|lia|done|done|by apply evolves_refl]. }
  clearbody s1. apply wp_bind, wp_get, wp_bind, wp_get. rewrite Hq1. destruct (queues s l) as [|g gs] eqn:Heq.
  - eapply (wp_next_lane n _ s s1 Q A R [] Q); [by intros; apply IH| | |done..].
    + by split.
    + intros _. rewrite Hq1. split; [done|]. fold l. rewrite Heq. intros k x more Hx. by apply not_elem_of_nil in Hx.
  - case: (Z.ltb_spec (lane_deficits s1 l) 1) => [?|_]; [lia|]. apply wp_bind.
    eapply wp_mono; [apply (wp_scan_groups _ l s1 Q A R Hh1); by rewrite Hq1 Heq|].
    intros [x|] s2 (D & Q2 & Hp & [Hc2 Hd2] & Hnone); (assert (picks s Q A R D _ Q2 s2) as Hp' by
      by apply (picks_after s s1 Q A R [] Q D _ Q2 s2)).
    + apply wp_bind, wp_modify, wp_ret. exists D, Q2. split_and!; [| |done].
      * destruct Hp' as [? Hh2 He ?]. split; [done|by eapply holds_ext, Hh2| |done].
        eapply evolves_then; [done|by apply evolves_refl].
      * apply lanes_ok_with; [rewrite Hc2 Hc1; case_match; [apply next_cursor_ok|done]|].
        rewrite Hd2. apply insert_deficit; [done|lia].
    + eapply (wp_next_lane n _ s s2 Q A R D Q2); [by intros; apply IH|done| |done|by rewrite Hc2|by rewrite Hd2].
      intros HD. destruct (Hnone eq_refl HD) as [Hq2 Hall]. rewrite Hq1 in Hq2 Hall. split; [done|].
      fold l. rewrite Heq. rewrite Heq take_ge in Hall; [done|]. destruct Hev1.
      by eapply all_wait_mono, Hall.
Qed.

(** *** The age boost *)

Definition heads (s : sched) : list hook := all_groups s ≫= λ g, take 1 g.2.

Lemma lane_heads l gs :
  lane_ok l gs → (λ x, (lane x, hook_group x)) <$> (gs ≫= λ g, take 1 g.2) = pair l <$> gs.*1.
Proof.
  induction gs as [|[k xs] gs IH]; [done|]. intros (_ & [Hne Hm _] & Hgs)%lane_ok_cons.
  destruct xs as [|x xs]; [done|]. apply Forall_cons in Hm as [[Hl Hk] _]. simpl in Hk.
  rewrite bind_cons fmap_app IH //=. by rewrite Hl Hk.
Qed.

Lemma heads_NoDup s Q : lanes_hold (queues s) Q → NoDup ((λ x, (lane x, hook_group x)) <$> heads s).
Proof.
  intros [Hwf _]. assert ((λ x, (lane x, hook_group x)) <$> heads s = LANES ≫= λ l, pair l <$> (queues s l).*1) as ->.
  { rewrite /heads /all_groups /LANES /= !bind_app !fmap_app. by rewrite (lane_heads decision) // (lane_heads content_security) // (lane_heads evidence). }
  assert (∀ l, NoDup (pair l <$> (queues s l).*1)) as Hnd.
  { intros l. apply NoDup_fmap_2; [apply _|]. apply Hwf. }
  rewrite /LANES /= app_nil_r. apply NoDup_app. split_and!; [done| |].
  - intros [l k]. rewrite elem_of_app !list_elem_of_fmap. naive_solver.
  - apply NoDup_app. split_and!; [done| |done]. intros [l k]. rewrite !list_elem_of_fmap. naive_solver.
Qed.

Lemma elem_of_heads s Q x : lanes_hold (queues s) Q → x ∈ heads s ↔ head_of (queues s) x.
Proof.
  intros [Hwf _]. rewrite /heads list_elem_of_bind. split.
  - intros ([k xs] & Hx & Hin). rewrite /all_groups list_elem_of_bind in Hin. destruct Hin as (l & Hin & _).
    pose proof (lane_groups _ _ (Hwf l)) as Hg. rewrite Forall_forall in Hg. destruct (Hg _ Hin) as [_ Hm _].
    destruct xs as [|y ys]; simpl in *; [by apply not_elem_of_nil in Hx|]. apply list_elem_of_singleton in Hx as <-.
    apply Forall_cons in Hm as [[Hl Hk] _]. exists ys. rewrite Hl. rewrite -Hk in Hin.
    by apply group_get_of; [apply Hwf|].
  - intros [more Hget%group_get_in]. exists (hook_group x, x :: more). split; [set_solver|].
    rewrite /all_groups list_elem_of_bind. exists (lane x). split; [done|apply elem_of_LANES].
Qed.

Lemma NoDup_fmap_filter {A B} (f : A → B) (P : A → Prop) `{∀ x, Decision (P x)} l :
  NoDup (f <$> l) → NoDup (f <$> filter P l).
Proof. intros Hnd. eapply sublist_NoDup; [exact Hnd|]. by apply fmap_sublist, sublist_filter. Qed.

(** A sorted list is in order. *)
Lemma sort_on_split (xs a b : list hook) x y :
  sort_on sequence xs = a ++ x :: b → y ∈ b → sequence x <= sequence y.
Proof.
  intros Heq Hy. pose proof (sort_on_sorted sequence xs) as Hs. rewrite Heq in Hs.
  apply StronglySorted_app_1_r, StronglySorted_inv in Hs as [_ Hf]. rewrite Forall_forall in Hf.
  specialize (Hf _ Hy). rewrite /key_le /py_leb /py_cmp /Z_py_ord in Hf.
  destruct (Z.compare_spec (sequence x) (sequence y)); [lia..|done].
Qed.

(** Of the hooks that head a group and have waited half a second, one that
    need not wait and is not rejected is not overtaken by a younger one. *)
Definition not_overtaken (s : sched) (Q A D : list hook) (o : option hook) : Prop :=
  ∀ y, head_of (queues s) y → AGE_BOOST <= clock env (reads s) - queued_at y →
       y ∈ D ∨ must_wait s Q A y ∨ ∃ x, o = Some x ∧ sequence x <= sequence y.

Lemma wp_oldest_aged s Q A R :
  holds s [] Q A R →
  wp (oldest_aged_eligible env) (λ o s', ∃ D Q',
    picks s Q A R D o Q' s' ∧ lanes_same s s' ∧ (o = None → D = [] → queues s' = queues s)
    ∧ not_overtaken s Q A D o) s.
Proof.
  intros Hh. pose proof (holds_lanes _ _ _ _ _ Hh) as Hl. apply wp_bind, wp_monotonic, wp_bind, wp_get.
  set (s1 := with_reads _ s). set (now := clock env (reads s)). set (cs := sort_on sequence (aged_heads now s1)).
  assert (∀ y, y ∈ cs ↔ head_of (queues s) y ∧ AGE_BOOST <= now - queued_at y) as Hcs.
  { intros y. rewrite elem_of_sort_on /aged_heads list_elem_of_filter -/(heads s1).
    rewrite (elem_of_heads s1 Q y Hl). naive_solver. }
  eapply wp_mono.
  - apply (wp_first_eligible cs s1 Q A R); [by eapply holds_ext, Hh| |].
    + apply Forall_forall. intros y Hy. by apply Hcs.
    + rewrite /cs sort_on_Permutation. apply NoDup_fmap_filter. by eapply (heads_NoDup s1).
  - intros o s2 (D & Q' & Hp & Hls & Hn & Hall). exists D, Q'. split_and!; [|done|done|].
    + by apply (picks_after s s1 Q A R [] Q D o Q' s2); [|apply evolves_refl|].
    + intros y Hy Hage. destruct (Hall y) as [?|[?|(x & -> & Hx)]]; [by apply Hcs|by left| |].
      * right; left. done.
      * right; right. exists x. split; [done|]. destruct Hx as [->|(a & b & Heq & Hin)]; [done|].
        by eapply sort_on_split.
Qed.

(** *** Selection as a whole *)

Lemma lane_visited c l : (c < 3)%nat → ∃ k, (k < 3)%nat ∧ lane_at ((c + k) mod 3) = l.
Proof.
  intros Hc. destruct l; destruct c as [|[|[|?]]]; try lia;
    first [by exists 0%nat; split; [lia|]|by exists 1%nat; split; [lia|]|by exists 2%nat; split; [lia|]].
Qed.

Lemma wp_next_item s Q A R :
  holds s [] Q A R → lanes_ok s →
  wp (next_item env) (λ o s', ∃ D Q',
    picks s Q A R D o Q' s' ∧ lanes_ok s' ∧ not_overtaken s Q A D o
    ∧ (o = None → D = [] → (∀ l, queues s' l ≡ₚ queues s l) ∧ ∀ l, all_wait s Q A (queues s l))) s.
Proof.
  intros Hh Hlo. apply wp_bind. eapply wp_mono; [by apply wp_oldest_aged|].
  intros [x|] s1 (D & Q1 & Hp & Hls & Hq1 & Hage).
  { apply wp_ret. exists D, Q1. split_and!; [done|by eapply lanes_ok_same|done|done]. }
  pose proof (pk_split _ _ _ _ _ _ _ _ Hp) as HQ. simpl in HQ.
  pose proof (pk_evolves _ _ _ _ _ _ _ _ Hp) as Hev.
  eapply wp_mono; [apply (wp_visit_lanes 11 s1 Q1 A R); [apply Hp|by eapply lanes_ok_same]|].
  intros o s2 (D2 & Q2 & Hp2 & Hlo2 & Hnone). exists (D ++ D2), Q2. split_and!; [by eapply picks_after|done| |].
  - intros y Hy Ha. destruct (Hage y Hy Ha) as [?|[?|(x & ? & _)]]; [left; set_solver|by auto|done].
  - intros Ho [-> ->]%app_eq_nil. destruct (Hnone Ho eq_refl) as [Hq Hall].
    rewrite (Hq1 eq_refl eq_refl) in Hq Hall. split; [done|]. intros l.
    destruct (lane_visited (lane_cursor s1) l) as (k & Hk & <-); [by apply (lanes_ok_same _ _ Hls)|].
    destruct Hev. eapply all_wait_mono, (Hall k); [done..|lia].
Qed.

(** ** Expiry *)

Lemma polled_same s : set_events (polled (cancels env (polls s)) s) = set_events s.
Proof. rewrite /= undisturbed. set_solver. Qed.

Lemma wp_poll x s (P : bool → sched → Prop) :
  (∀ s', fates s' = fates s → queues s' = queues s → tal s' = tal s → lanes_same s s' →
     evolves s [] s' → P (is_cancelled x s) s') →
  wp (poll env x) P s.
Proof.
  intros H. rewrite /poll. destruct (cancellation x) as [e|] eqn:Hx.
  - apply wp_bind, wp_modify, wp_get.
    assert (is_cancelled x (polled (cancels env (polls s)) s) = is_cancelled x s) as ->
      by by rewrite /is_cancelled polled_same.
    apply H; try done. apply evolves_refl; try done. apply polled_same.
  - assert (is_cancelled x s = false) as E by by rewrite /is_cancelled Hx. rewrite E in H.
    apply wp_ret, H; try done. by apply evolves_refl.
Qed.

(** The hooks that neither expired nor were cancelled. *)
Definition remaining_hooks (now : Z) (s : sched) (xs : list hook) : list hook :=
  filter (λ x, now < expires_at (deadline x) ∧ is_cancelled x s = false) xs.

Lemma remaining_ext now xs s s' :
  set_events s' = set_events s → remaining_hooks now s' xs = remaining_hooks now s xs.
Proof. intros H. by rewrite /remaining_hooks /is_cancelled H. Qed.

Lemma remaining_cons now x xs s :
  remaining_hooks now s (x :: xs)
  = if decide (now < expires_at (deadline x) ∧ is_cancelled x s = false) then x :: remaining_hooks now s xs
    else remaining_hooks now s xs.
Proof. by rewrite /remaining_hooks filter_cons. Qed.

Lemma wp_retained now xs : ∀ s,
  wp (retained env now xs) (λ kept s', kept = remaining_hooks now s xs
    ∧ queues s' = queues s ∧ tal s' = tal s ∧ lanes_same s s' ∧ evolves s [] s') s.
Proof.
  induction xs as [|x xs IH]; intros s; simpl.
  { apply wp_ret. split_and!; try done. by apply evolves_refl. }
  assert (∀ s' b, b = bool_decide (now < expires_at (deadline x) ∧ is_cancelled x s = false) →
    queues s' = queues s → tal s' = tal s → lanes_same s s' → evolves s [] s' →
    wp (kept ← retained env now xs ; mret (if b : bool then x :: kept else kept))
      (λ kept s', kept = remaining_hooks now s (x :: xs)
        ∧ queues s' = queues s ∧ tal s' = tal s ∧ lanes_same s s' ∧ evolves s [] s') s') as Hnext.
  { intros s' b Hb Hq Ht [Hcu Hde] Hev. apply wp_bind. eapply wp_mono; [apply IH|].
    intros kept s2 (-> & Hq2 & Ht2 & [Hcu2 Hde2] & Hev2). apply wp_ret. split_and!.
    - rewrite (remaining_ext _ _ s s') ?(ev_events _ _ _ Hev) // remaining_cons Hb.
      destruct (decide (now < expires_at (deadline x) ∧ is_cancelled x s = false)) as [Hd|Hd].
      + by rewrite bool_decide_eq_true_2.
      + by rewrite bool_decide_eq_false_2.
    - congruence.
    - congruence.
    - split; congruence.
    - by eapply then_evolves. }
  apply wp_bind. case: (Z.ltb_spec now (expires_at (deadline x))) => Hnow.
  - apply wp_bind, wp_poll. intros s' _ Hq Ht Hls Hev. apply wp_ret. apply Hnext; try done.
    destruct (is_cancelled x s); symmetry; [apply bool_decide_eq_false_2|apply bool_decide_eq_true_2]; naive_solver.
  - apply wp_ret, (Hnext s false); try done; [symmetry; apply bool_decide_eq_false_2; lia|by apply evolves_refl].
Qed.

Lemma wp_expire_item now x s Q A R (P : unit → sched → Prop) :
  counted (tal s) (x :: Q) A R →
  (now < expires_at (deadline x) ∧ is_cancelled x s = false →
   ∀ s', tal s' = tal s → evolves s [] s' → queues s' = queues s → lanes_same s s' → P tt s') →
  (¬ (now < expires_at (deadline x) ∧ is_cancelled x s = false) →
   ∀ s', counted (tal s') Q A R → evolves s [x] s' → queues s' = queues s → lanes_same s s' → P tt s') →
  wp (expire_item env now x) P s.
Proof.
  intros Hc Hkeep Hdrop. rewrite /expire_item.
  assert (∀ k c s1, ¬ (now < expires_at (deadline x) ∧ is_cancelled x s = false) →
    tal s1 = tal s → queues s1 = queues s → lanes_same s s1 → evolves s [] s1 →
    wp (drop_queued x ;; count_metrics 0 0 k c 0 ;; set_fate x (Rejected_for daemon_hook_deadline_exhausted)) P s1) as Hd.
  { intros k c s1 Hn Ht Hq [Hcu Hde] Hev. apply wp_bind. eapply wp_drop_queued; [by rewrite Ht|]. intros t Ht1.
    apply wp_bind, wp_modify, wp_modify, Hdrop; [done|done| |done|done].
    eapply then_evolves; [exact Hev|]. by apply evolves_reject. }
  case: (Z.leb_spec (expires_at (deadline x)) now) => ?; [apply Hd; [lia|done..|by apply evolves_refl]|].
  apply wp_bind, wp_poll. intros s' _ Hq Ht Hls Hev. destruct (is_cancelled x s) eqn:Hx.
  - apply Hd; naive_solver.
  - apply wp_ret, Hkeep; [naive_solver|done..].
Qed.

Lemma wp_expire_items now xs : ∀ s Q A R,
  counted (tal s) (xs ++ Q) A R →
  wp (expire_items env now xs) (λ _ s', ∃ D,
    xs ≡ₚ D ++ remaining_hooks now s xs ∧ counted (tal s') (remaining_hooks now s xs ++ Q) A R
    ∧ evolves s D s' ∧ queues s' = queues s ∧ lanes_same s s') s.
Proof.
  induction xs as [|x xs IH]; intros s Q A R Hc; simpl.
  { apply wp_ret. exists []. split_and!; try done. by apply evolves_refl. }
  apply wp_bind. eapply (wp_expire_item now x s (xs ++ Q)); [done| |].
  - intros Hk s1 Ht1 Hev1 Hq1 [Hcu Hde]. eapply wp_mono; [apply (IH s1 (x :: Q) A R)|].
    { rewrite Ht1. eapply counted_perm, Hc; [|done]. by rewrite -Permutation_middle. }
    intros _ s' (D & Hp & Hc' & Hev & Hq & [Hcu' Hde']). rewrite (remaining_ext _ _ _ _ (ev_events _ _ _ Hev1)) in Hp Hc'.
    exists D. rewrite remaining_cons decide_True //. split_and!.
    + rewrite -Permutation_middle. by apply Permutation_skip.
    + eapply counted_perm, Hc'; [|done]. by rewrite -Permutation_middle.
    + by eapply then_evolves.
    + congruence.
    + split; congruence.
  - intros Hk s1 Hc1 Hev1 Hq1 [Hcu Hde]. eapply wp_mono; [by apply (IH s1 Q A R)|].
    intros _ s' (D & Hp & Hc' & Hev & Hq & [Hcu' Hde']). rewrite (remaining_ext _ _ _ _ (ev_events _ _ _ Hev1)) in Hp Hc'.
    exists (x :: D). rewrite remaining_cons decide_False //. split_and!; try done.
    + by apply Permutation_skip.
    + change (x :: D) with ([x] ++ D). by eapply evolves_trans.
    + by rewrite Hq.
    + split; congruence.
Qed.

Lemma wp_expire_groups now l gs : ∀ s Q A R,
  holds s [] Q A R → NoDup gs.*1 → Forall (λ g : group, group_get g.1 (queues s l) = Some g.2) gs →
  wp (expire_groups env now l gs) (λ _ s', ∃ D Q', picks s Q A R D None Q' s' ∧ lanes_same s s') s.
Proof.
  induction gs as [|[key items] gs IH]; intros s Q A R Hh Hnd Hgs; simpl.
  { apply wp_ret. exists [], Q. split; [|done]. split; try done. by apply evolves_refl. }
  apply NoDup_cons in Hnd as [Hkey Hnd]. apply Forall_cons in Hgs as [Hget Hgs]. simpl in Hget.
  pose proof (holds_lanes _ _ _ _ _ Hh) as Hl.
  destruct (group_keep_ok l key _ _ (remaining_hooks now s items) (lanes_wf _ _ Hl l) Hget) as [Hl' Hp']; [apply sublist_filter|].
  apply wp_bind. eapply wp_mono; [apply wp_retained|]. intros kept s0 (-> & Hq0 & Ht0 & [Hcu0 Hde0] & Hev0). apply wp_bind.
  assert (∃ Qr, Q ≡ₚ items ++ Qr) as [Qr HQr].
  { destruct (group_get_Some _ _ _ (lane_keys _ _ (lanes_wf _ _ Hl l)) Hget) as (a & b & Hab & _).
    exists (qitems (<[l := a ++ b]> (queues s))). rewrite -(lanes_items _ _ Hl). apply qitems_insert.
    by rewrite Hab -(Permutation_middle a b) gitems_cons. }
  eapply wp_mono; [apply (wp_expire_items now items s0 Qr A R)|].
  { rewrite Ht0. eapply counted_perm; [exact HQr|done|apply Hh]. }
  intros _ s1 (D & HD & Hc1 & Hev1 & Hq1 & [Hcu1 Hde1]).
  rewrite (remaining_ext _ _ _ _ (ev_events _ _ _ Hev0)) in HD Hc1.
  apply (then_evolves _ _ _ _ Hev0) in Hev1. rewrite {}Hq0 in Hq1. rewrite {}Hcu0 in Hcu1. rewrite {}Hde0 in Hde1.
  apply wp_bind, wp_get, wp_bind, wp_modify. rewrite Hq1.
  set (s2 := with_queues _ _).
  destruct (lanes_update _ _ _ _ D Hl Hl' (Hp' D HD)) as (Q2 & HQ2 & Hl2).
  assert (holds s2 [] Q2 A R) as Hh2.
  { split; [done|]. eapply counted_perm, Hc1; [|done].
    apply (Permutation_app_inv_l D). by rewrite app_assoc -HD -HQr. }
  eapply wp_mono; [apply (IH s2 Q2 A R Hh2 Hnd)|].
  - apply Forall_forall. intros [k xs] Hk. rewrite Forall_forall in Hgs. rewrite /= fn_lookup_insert group_get_keep.
    + intros ->. apply Hkey, list_elem_of_fmap. by exists (key, xs).
    + apply (Hgs _ Hk).
  - intros _ s3 (D3 & Q3 & Hp3 & [Hcu3 Hde3]). exists (D ++ D3), Q3. split; [|by split; rewrite ?Hcu3 ?Hde3 /= ?Hcu1 ?Hde1].
    eapply picks_after; [exact HQ2| |exact Hp3]. eapply evolves_then; [exact Hev1|by apply evolves_refl].
Qed.

Lemma wp_expire_waiters s Q A R :
  holds s [] Q A R →
  wp (expire_waiters env) (λ _ s', ∃ D Q', picks s Q A R D None Q' s' ∧ lanes_same s s') s.
Proof.
  intros Hh. apply wp_bind, wp_monotonic. set (s1 := with_reads _ s). generalize (clock env (reads s)) => now.
  assert (holds s1 [] Q A R) as Hh1 by by eapply holds_ext, Hh.
  assert (∀ ls s1 Q, holds s1 [] Q A R → wp (expire_lanes env now ls)
            (λ _ s', ∃ D Q', picks s1 Q A R D None Q' s' ∧ lanes_same s1 s') s1) as Hall.
  { clear -Undisturbed0. induction ls as [|l ls IH]; intros s Q Hh; simpl.
    { apply wp_ret. exists [], Q. split; [|done]. split; try done. by apply evolves_refl. }
    apply wp_bind, wp_get, wp_bind. pose proof (lanes_wf _ _ (holds_lanes _ _ _ _ _ Hh) l) as Hl.
    eapply wp_mono; [apply (wp_expire_groups now l (queues s l) s Q A R Hh); [apply Hl|]|].
    - apply Forall_forall. intros [k xs] Hk. by apply group_get_of; [apply Hl|].
    - intros _ s1 (D & Q1 & Hp & [Hc Hd]). pose proof (pk_split _ _ _ _ _ _ _ _ Hp) as HQ. simpl in HQ.
      eapply wp_mono; [apply (IH s1 Q1), Hp|]. intros _ s2 (D2 & Q2 & Hp2 & [Hc2 Hd2]). exists (D ++ D2), Q2.
      split; [|split; congruence]. eapply picks_after; [exact HQ|apply Hp|exact Hp2]. }
  eapply wp_mono; [apply (Hall LANES s1 Q Hh1)|]. intros _ s2 (D & Q' & Hp & Hls). exists D, Q'. split; [|done].
  by apply (picks_after s s1 Q A R [] Q D None Q' s2); [|apply evolves_refl|].
Qed.

(** ** Dispatching *)

(** The hooks [D] were rejected and [N] admitted; nothing else was touched. *)
Record settles (s : sched) (D N : list hook) (s' : sched) : Prop := {
  st_lim : lim s' = lim s;
  st_limit : active_limit s' = active_limit s;
  st_sequence : last_sequence s' = last_sequence s;
  st_events : set_events s' = set_events s;
  st_reservations : reservations s' = reservations s;
  st_rejected : ∀ x, x ∈ D → fates s' !! sequence x = Some (Rejected_for daemon_hook_deadline_exhausted);
  st_admitted : ∀ x, x ∈ N → ∃ t, fates s' !! sequence x = Some (Admitted_at t);
  st_other : ∀ n, n ∉ sequence <$> (D ++ N) → fates s' !! n = fates s !! n;
}.

Lemma settles_evolves s D s' : evolves s D s' → settles s D [] s'.
Proof. intros []. split; try done; [by intros x Hx; apply not_elem_of_nil in Hx|by rewrite app_nil_r]. Qed.

Lemma settles_trans s1 s2 s3 D N D' N' :
  settles s1 D N s2 → settles s2 D' N' s3 → NoDup (sequence <$> (D ++ N) ++ (D' ++ N')) →
  settles s1 (D ++ D') (N ++ N') s3.
Proof.
  intros [] [] Hnd. rewrite fmap_app in Hnd. apply NoDup_app in Hnd as (_ & Hdis & _).
  assert (∀ x, x ∈ D ++ N → sequence x ∉ sequence <$> (D' ++ N')) as Hkeep.
  { intros x Hx. apply Hdis, list_elem_of_fmap. eauto. }
  split; try congruence.
  - intros x [Hx|Hx]%elem_of_app; [|by auto]. rewrite st_other1; [apply Hkeep; set_solver|by auto].
  - intros x [Hx|Hx]%elem_of_app; [|by auto]. rewrite st_other1; [apply Hkeep; set_solver|by auto].
  - intros n Hn. rewrite st_other1 ?st_other0 //; intros Hin; apply Hn;
      apply list_elem_of_fmap in Hin as (x & -> & Hx); apply list_elem_of_fmap; exists x; set_solver.
Qed.

(** The outcome of a dispatch: [E] had expired or were cancelled, [D] could not
    finish in time, [N] were admitted, [Q'] wait. *)
Record dispatches (s : sched) (Q A : list hook) (R : Z) (E D N Q' : list hook) (s' : sched) : Prop := {
  dp_split : Q ≡ₚ E ++ D ++ N ++ Q';
  dp_holds : holds s' [] Q' (N ++ A) R;
  dp_settles : settles s (E ++ D) N s';
  dp_lanes : lanes_ok s';
  dp_limit : Z.of_nat (length (N ++ A)) <= Z.max (Z.of_nat (length A)) (active_limit s);
  dp_harness : ∀ h, count h (harness <$> N ++ A)
                    <= Z.max (count h (harness <$> A)) (per_harness_active_limit (lim s));
  dp_share : ∀ c y, y ∈ Q' → client_key y ≠ c →
               count c (client_key <$> N ++ A) <= Z.max (count c (client_key <$> A)) (active_share_limit s);
  dp_fifo : ∀ x, x ∈ N → first_of x Q';
  dp_busy : D = [] → Z.of_nat (length (N ++ A)) < active_limit s → ∀ l, all_wait s' Q' (N ++ A) (queues s' l);
}.

Lemma wp_admit_item x s Q A R (P : unit → sched → Prop) :
  holds s [x] Q A R →
  (∀ s', holds s' [] Q (x :: A) R → settles s [] [x] s' → lanes_same s s' → P tt s') →
  wp (admit_item env x) P s.
Proof.
  intros [Hl Ht] H. apply wp_bind. eapply wp_decrement_queued; [exact Ht|]. intros t [Hq Hqh Hqc Ha Hah Hac Hb].
  apply wp_bind, wp_monotonic, wp_bind, wp_modify, wp_bind, wp_modify, wp_bind, wp_modify, wp_modify, H.
  - split; [done|]. simpl in *. split; try done; simpl.
    + lia.
    + by apply counter_increment.
    + by apply counter_increment.
    + rewrite Hb /=. lia.
  - split; try done; simpl.
    + intros y Hy. by apply not_elem_of_nil in Hy.
    + intros y ->%list_elem_of_singleton. rewrite lookup_insert_eq. eauto.
    + intros n Hn. rewrite lookup_insert_ne //. set_solver.
  - done.
Qed.

Lemma all_wait_nil s A q l Q' : lanes_hold q [] → all_wait s Q' A (q l).
Proof.
  intros [_ Hi] k x more Hin. exfalso. assert (x ∈ qitems q) as Hx.
  { apply elem_of_qitems. exists l. apply elem_of_gitems. exists k, (x :: more). set_solver. }
  rewrite Hi in Hx. by apply not_elem_of_nil in Hx.
Qed.

(** Nothing more to do. *)
Lemma dispatches_stop s Q A R D Q' s' :
  picks s Q A R D None Q' s' → lanes_ok s' →
  (D = [] → Z.of_nat (length A) < active_limit s → ∀ l, all_wait s' Q' A (queues s' l)) →
  dispatches s Q A R [] D [] Q' s'.
Proof.
  intros [Hsp Hh Hev _] Hl Hb. split; try done; simpl; try lia.
  - by apply settles_evolves.
  - intros x Hx. by apply not_elem_of_nil in Hx.
Qed.

Lemma all_wait_perm s Q A A' gs : A ≡ₚ A' → all_wait s Q A gs → all_wait s Q A' gs.
Proof. intros HA H k x more Hin. rewrite /must_wait -HA. by apply (H k x more). Qed.

Lemma must_wait_free s Q A x :
  ¬ must_wait s Q A x →
  count (harness x) (harness <$> A) < per_harness_active_limit (lim s)
  ∧ ∀ y, y ∈ Q → client_key y ≠ client_key x → count (client_key x) (client_key <$> A) < active_share_limit s.
Proof.
  rewrite /must_wait => H. split.
  - destruct (Z.lt_ge_cases (count (harness x) (harness <$> A)) (per_harness_active_limit (lim s))); [done|].
    exfalso. apply H. by left.
  - intros y Hy Hne.
    destruct (Z.lt_ge_cases (count (client_key x) (client_key <$> A)) (active_share_limit s)); [done|].
    exfalso. apply H. right. eauto.
Qed.

Lemma NoDup_part {A B} (f : A → B) (xs ys zs : list A) : NoDup (f <$> xs) → xs ≡ₚ ys ++ zs → NoDup (f <$> ys).
Proof. intros Hnd Hp. rewrite Hp fmap_app in Hnd. by apply NoDup_app in Hnd as (? & _ & _). Qed.

(** The fates of one turn and of the rest of the loop. *)
Lemma settles_turn s s1 s2 s' D1 x D N Q Q' :
  evolves s D1 s1 → settles s1 [] [x] s2 → settles s2 D N s' →
  NoDup (sequence <$> Q) → Q ≡ₚ (D1 ++ [x]) ++ (D ++ N) ++ Q' → settles s (D1 ++ D) (x :: N) s'.
Proof.
  intros Hev Hst Hst' Hnd HQ. change (x :: N) with ([x] ++ N). eapply settles_trans; [|exact Hst'|].
  - apply (settles_trans s s1 s2 D1 [] [] [x]) in Hst.
    + by rewrite app_nil_r in Hst.
    + by apply settles_evolves.
    + rewrite app_nil_r. by eapply NoDup_part, HQ.
  - eapply NoDup_part; [exact Hnd|]. by rewrite HQ app_assoc.
Qed.

(** One turn of the loop. *)
Lemma dispatches_turn s Q A R D1 x Q1 s1 s2 D N Q' s' :
  picks s Q A R D1 (Some x) Q1 s1 → settles s1 [] [x] s2 → NoDup (sequence <$> Q) →
  Z.of_nat (length A) < active_limit s →
  dispatches s2 Q1 (x :: A) R [] D N Q' s' →
  dispatches s Q A R [] (D1 ++ D) (x :: N) Q' s'.
Proof.
  intros [Hsp _ Hev Hfree] Hst Hnd Hlt [Hsp' Hh Hst' Hl Hlim Hhar Hsh Hff Hbusy].
  destruct (Hfree x eq_refl) as [Hw Hfirst]. apply must_wait_free in Hw as [Hwh Hwc].
  assert (lim s2 = lim s ∧ active_limit s2 = active_limit s) as [Elim Elimit].
  { destruct Hst, Hev. split; congruence. }
  assert (active_share_limit s2 = active_share_limit s) as Eshare by by rewrite /active_share_limit Elimit.
  assert (N ++ x :: A ≡ₚ (x :: N) ++ A) as HA by by rewrite -Permutation_middle.
  assert (∀ y, y ∈ Q' → y ∈ Q1) as Hsub by (intros y Hy; rewrite Hsp' !elem_of_app; auto).
  simpl in Hsp, Hsp'. rewrite Elim Elimit ?Eshare in Hlim Hhar Hsh Hbusy.
  assert (Q ≡ₚ (D1 ++ D) ++ (x :: N) ++ Q') as HQ.
  { rewrite Hsp Hsp' -app_assoc. f_equiv. by rewrite Permutation_middle. }
  split; try done.
  - by eapply holds_perm, Hh.
  - apply (settles_turn s s1 s2 s' D1 x D N Q Q' Hev Hst Hst' Hnd). by rewrite Hsp Hsp' -!app_assoc.
  - rewrite -HA. rewrite length_app /= in Hlim |- *. lia.
  - intros h. specialize (Hhar h). rewrite -HA. rewrite fmap_cons count_cons in Hhar.
    case_decide as Hd; [|lia]. subst h. lia.
  - intros c y Hy Hne. specialize (Hsh c y Hy Hne). rewrite -HA. rewrite (fmap_cons client_key) count_cons in Hsh.
    case_decide as Hd; [|lia]. subst c. specialize (Hwc y (Hsub y Hy) Hne). lia.
  - intros z [->|Hz]%elem_of_cons; [|by apply Hff]. intros y Hy. by apply Hfirst, Hsub.
  - intros [-> HD]%app_eq_nil Hb l. eapply all_wait_perm; [exact HA|]. apply Hbusy; [done|]. by rewrite HA.
Qed.

Lemma wp_dispatch_loop fuel : ∀ s Q A R,
  holds s [] Q A R → lanes_ok s → NoDup (sequence <$> Q) → (length Q <= fuel)%nat →
  wp (dispatch_loop env fuel) (λ _ s', ∃ D N Q', dispatches s Q A R [] D N Q' s') s.
Proof.
  induction fuel as [|fuel IH]; intros s Q A R Hh Hlo Hnd Hf; simpl.
  { apply wp_ret. destruct Q; [|simpl in *; lia]. exists [], [], []. apply dispatches_stop; [|done|].
    - split; try done. by apply evolves_refl.
    - intros _ _ l. apply all_wait_nil, Hh. }
  assert (picks s Q A R [] None Q s) as Hstop by (split; try done; by apply evolves_refl).
  pose proof (counted_queued _ _ _ _ (holds_tal _ _ _ _ _ Hh)) as Hq. simpl in Hq.
  pose proof (counted_active _ _ _ _ (holds_tal _ _ _ _ _ Hh)) as Ha.
  apply wp_bind, wp_get. case_match eqn:Hgo.
  - apply andb_true_iff in Hgo as [Hlt%Z.ltb_lt _]. apply wp_bind. eapply wp_mono; [by apply wp_next_item|].
    intros [x|] s1 (D1 & Q1 & Hp & Hlo1 & _ & Hnone).
    + apply wp_bind. eapply wp_admit_item; [apply Hp|]. intros s2 Hh2 Hst Hls.
      pose proof (pk_split _ _ _ _ _ _ _ _ Hp) as HQ. simpl in HQ.
      eapply wp_mono; [apply (IH s2 Q1 (x :: A) R Hh2)|].
      * by eapply lanes_ok_same.
      * apply (NoDup_part _ Q Q1 (D1 ++ [x])); [done|]. by rewrite HQ (Permutation_app_comm Q1) -app_assoc.
      * apply Permutation_length in HQ. rewrite length_app /= in HQ. lia.
      * intros _ s3 (D & N & Q' & Hd). exists (D1 ++ D), (x :: N), Q'. eapply dispatches_turn; [done..| |done]. lia.
    + apply wp_ret. exists D1, [], Q1. apply dispatches_stop; [done|done|]. intros -> _ l.
      destruct (Hnone eq_refl eq_refl) as [Hq1 Hall]. pose proof (pk_evolves _ _ _ _ _ _ _ _ Hp) as [].
      pose proof (pk_split _ _ _ _ _ _ _ _ Hp) as HQ. simpl in HQ.
      eapply all_wait_mono, (Hall l); [done..|by rewrite HQ|apply Hq1].
  - apply wp_ret. exists [], [], Q. apply dispatches_stop; [done|done|]. intros _ Hlt l.
    apply andb_false_iff in Hgo as [?%Z.ltb_ge|Hgo%Z.ltb_ge]; [lia|]. destruct Q; [|simpl in *; lia].
    apply all_wait_nil, Hh.
Qed.

(** Dispatching returns in every state in which the counters describe the
    lanes. *)
Lemma wp_dispatch s Q A R :
  holds s [] Q A R → lanes_ok s → NoDup (sequence <$> Q) →
  wp (dispatch env) (λ _ s', ∃ E D N Q', dispatches s Q A R E D N Q' s') s.
Proof.
  intros Hh Hlo Hnd. apply wp_bind. eapply wp_mono; [by apply wp_expire_waiters|].
  intros _ s1 (E & Q1 & Hp & Hls). apply wp_bind, wp_get.
  pose proof (pk_split _ _ _ _ _ _ _ _ Hp) as HQ. simpl in HQ. pose proof (pk_holds _ _ _ _ _ _ _ _ Hp) as Hh1.
  pose proof (counted_queued _ _ _ _ (holds_tal _ _ _ _ _ Hh1)) as Hq. simpl in Hq.
  eapply wp_mono; [apply (wp_dispatch_loop _ s1 Q1 A R Hh1)|].
  - by eapply lanes_ok_same.
  - apply (NoDup_part _ Q Q1 E); [done|]. by rewrite HQ (Permutation_app_comm E).
  - lia.
  - intros _ s2 (D & N & Q' & [Hsp Hh2 Hst Hl2 Hlim Hhar Hsh Hff Hbusy]). exists E, D, N, Q'.
    pose proof (pk_evolves _ _ _ _ _ _ _ _ Hp) as Hev. pose proof Hev as [].
    assert (active_share_limit s1 = active_share_limit s) as Eshare by by rewrite /active_share_limit ev_limit0.
    rewrite ev_lim0 ev_limit0 ?Eshare in Hlim Hhar Hsh Hbusy. simpl in Hsp, Hst.
    split; try done; [by rewrite HQ Hsp|].
    change N with ([] ++ N). eapply settles_trans; [by apply settles_evolves|done|]. rewrite app_nil_r.
    apply (NoDup_part _ Q _ Q'); [done|]. by rewrite HQ Hsp -!app_assoc.
Qed.

End selection.

End SchedulerFacts.
