(* ===== verification/HookSchedulerCalls.v ===== *)
(** * The runtime hook scheduler and its callers

    The invariant of the scheduler together with the calls that wait in it, the
    permits and the byte reservations it handed out: the counters are exact,
    every limit holds, no queued hook is without its caller, and hooks of one
    client and harness are admitted in the order of their arrival.  Every method
    keeps it, and none of them fails on its own account. *)

From Stdlib Require Import ssreflect.
From stdpp Require Import functions.
From S2P Require Import Prelude PyStr HookScheduler HookSchedulerFacts.
Local Open Scope Z_scope.
Local Open Scope py_scope.
Local Open Scope general_if_scope.

Module SchedulerCalls.
Import Scheduler SchedulerFacts.

Local Notation hook := QueuedRuntimeHook.

(** ** The invariant *)

(** Of the calls [W] that wait, those whose hook is still queued, and those
    whose hook was admitted meanwhile. *)
Definition is_admitted (f : option fate) : bool :=
  match f with Some (Admitted_at _) => true | _ => false end.
Definition still_queued (s : sched) (W : list hook) : list hook := filter (λ x, fates s !! sequence x = None) W.
Definition now_running (s : sched) (W : list hook) : list hook :=
  filter (λ x, is_admitted (fates s !! sequence x) = true) W.

Global Instance fate_eq_dec : EqDecision fate.
Proof. solve_decision. Defined.

Definition live (r : RuntimeHookByteReservation) : bool :=
  negb (reservation_transferred r || reservation_released r).
Definition live_bytes (rs : list RuntimeHookByteReservation) : Z :=
  foldr (λ r n, (if live r then reserved_bytes r else 0) + n) 0 rs.

(** The work [Q] and [A] with [R] reserved bytes is within the limits. *)
Record within (l : limits) (Q A : list hook) (R : Z) : Prop := {
  within_queued : Z.of_nat (length Q) <= queued_limit l;
  within_queued_harness : ∀ h, count h (harness <$> Q) <= per_harness_queued_limit l;
  within_queued_client : ∀ c, count c (client_key <$> Q) <= per_client_queued_limit l;
  within_active_harness : ∀ h, count h (harness <$> A) <= per_harness_active_limit l;
  within_bytes : bytes Q + bytes A + R <= retained_bytes_limit l;
}.

Definition ordered (A Q : list hook) : Prop := ∀ x, x ∈ A → first_of x Q.

(** The scheduler with the waiting calls [W] and the unreleased permits [P]. *)
Record ok (s : sched) (W P : list hook) : Prop := {
  ok_holds : holds s [] (still_queued s W) (P ++ now_running s W) (live_bytes (reservations s));
  ok_lanes : lanes_ok s;
  ok_within : within (lim s) (still_queued s W) (P ++ now_running s W) (live_bytes (reservations s));
  ok_order : ordered (P ++ now_running s W) (still_queued s W);
  ok_nodup : NoDup (sequence <$> W ++ P);
  ok_issued : ∀ x, x ∈ W ++ P → sequence x <= last_sequence s ∧ 0 <= payload_bytes x;
  ok_permits : ∀ x, x ∈ P → is_admitted (fates s !! sequence x) = true;
  ok_fates : ∀ n, last_sequence s < n → fates s !! n = None;
  ok_reserved : ∀ r, r ∈ reservations s → 0 <= reserved_bytes r;
  ok_limit : 0 <= active_limit s;
}.

(** ** Auxiliary facts *)

Lemma bytes_nonneg xs : (∀ x, x ∈ xs → 0 <= payload_bytes x) → 0 <= bytes xs.
Proof.
  induction xs as [|x xs IH]; intros H; [done|]. simpl. pose proof (H x ltac:(left)).
  specialize (IH (λ y Hy, H y ltac:(by right))). lia.
Qed.

Lemma within_shrink l Q A R X Q' :
  within l Q A R → Q ≡ₚ X ++ Q' → (∀ x, x ∈ Q → 0 <= payload_bytes x) → within l Q' A R.
Proof.
  intros [Hq Hh Hc Ha Hb] HQ Hpos. assert (0 <= bytes X).
  { apply bytes_nonneg. intros x Hx. apply Hpos. rewrite HQ. set_solver. }
  split; try done.
  - rewrite HQ length_app in Hq. lia.
  - intros h. specialize (Hh h). rewrite HQ fmap_app count_app in Hh. pose proof (count_nonneg h (harness <$> X)). lia.
  - intros c. specialize (Hc c). rewrite HQ fmap_app count_app in Hc. pose proof (count_nonneg c (client_key <$> X)). lia.
  - rewrite HQ bytes_app in Hb. lia.
Qed.

Lemma within_perm l Q Q' A A' R : Q ≡ₚ Q' → A ≡ₚ A' → within l Q A R → within l Q' A' R.
Proof.
  intros HQ HA [Hq Hh Hc Ha Hb]. split.
  - by rewrite -HQ.
  - intros h. by rewrite -HQ.
  - intros c. by rewrite -HQ.
  - intros h. by rewrite -HA.
  - by rewrite -HQ -HA.
Qed.

Lemma ordered_perm A A' Q Q' : A ≡ₚ A' → Q ≡ₚ Q' → ordered A Q → ordered A' Q'.
Proof. intros HA HQ H x Hx y Hy. rewrite -HA in Hx. rewrite -HQ in Hy. by apply H. Qed.

Lemma NoDup_seq (xs : list hook) : NoDup (sequence <$> xs) → NoDup xs.
Proof. apply NoDup_fmap_1. Qed.
Lemma seq_inj (xs : list hook) x y :
  NoDup (sequence <$> xs) → x ∈ xs → y ∈ xs → sequence x = sequence y → x = y.
Proof. intros Hnd Hx Hy He. by eapply (NoDup_fmap_separates sequence xs). Qed.

Lemma ok_perm s W W' P P' : W ≡ₚ W' → P ≡ₚ P' → ok s W P → ok s W' P'.
Proof.
  intros HW HP [Hh Hl Hw Ho Hnd Hi Hp Hf Hr Hlim].
  assert (still_queued s W ≡ₚ still_queued s W') as HQ by by rewrite /still_queued HW.
  assert (P ++ now_running s W ≡ₚ P' ++ now_running s W') as HA by by rewrite /now_running HW HP.
  split; try done.
  - by eapply holds_perm, Hh.
  - by eapply within_perm, Hw.
  - by eapply ordered_perm, Ho.
  - by rewrite -HW -HP.
  - intros x. rewrite -HW -HP. apply Hi.
  - intros x. rewrite -HP. apply Hp.
Qed.

(** ** Dispatching keeps the invariant *)

(** What becomes of a waiting call when [D] are rejected and [N] admitted. *)
Lemma settles_call s D N s' W Q' x :
  settles s D N s' → NoDup (sequence <$> W) → still_queued s W ≡ₚ D ++ N ++ Q' → x ∈ W →
  (fates s' !! sequence x = None ↔ x ∈ Q')
  ∧ (is_admitted (fates s' !! sequence x) = true ↔ x ∈ N ∨ is_admitted (fates s !! sequence x) = true).
Proof.
  intros [_ _ _ _ _ Hrej Hadm Hoth] Hnd HQ Hx.
  assert (∀ y, y ∈ D ++ N ++ Q' → y ∈ W ∧ fates s !! sequence y = None) as Hin.
  { intros y Hy. rewrite -HQ /still_queued list_elem_of_filter in Hy. tauto. }
  assert (fates s !! sequence x = None ↔ x ∈ D ++ N ++ Q') as HxQ.
  { rewrite -HQ /still_queued list_elem_of_filter. tauto. }
  assert (NoDup (D ++ N ++ Q')) as Hnd'.
  { rewrite -HQ. by apply NoDup_filter, NoDup_seq. }
  destruct (decide (sequence x ∈ sequence <$> (D ++ N))) as [Hs|Hs].
  - apply list_elem_of_fmap in Hs as (y & Hseq & Hy). assert (x = y) as <-.
    { eapply seq_inj; [exact Hnd|done| |done]. apply Hin. set_solver. }
    assert (x ∉ Q') as HnQ.
    { rewrite app_assoc in Hnd'. apply NoDup_app in Hnd' as (_ & Hdis & _). by apply Hdis. }
    apply elem_of_app in Hy as [Hy|Hy].
    + rewrite (Hrej _ Hy). split; [done|]. split; [done|]. intros [HN|Ha].
      * exfalso. apply NoDup_app in Hnd' as (_ & Hdis & _). apply (Hdis x Hy). set_solver.
      * by rewrite (proj2 HxQ) in Ha; [set_solver|].
    + destruct (Hadm _ Hy) as [t ->]. split; [done|]. split; [by left|done].
  - rewrite (Hoth _ Hs). assert (x ∉ D ++ N) as Hx'.
    { intros ?. apply Hs, list_elem_of_fmap. eauto. }
    split; [rewrite HxQ; set_solver|]. split; [by right|]. intros [?|?]; [set_solver|done].
Qed.

Lemma settles_calls s D N s' W P Q' :
  settles s D N s' → NoDup (sequence <$> W ++ P) → still_queued s W ≡ₚ D ++ N ++ Q' →
  (∀ x, x ∈ P → is_admitted (fates s !! sequence x) = true) →
  still_queued s' W ≡ₚ Q' ∧ P ++ now_running s' W ≡ₚ N ++ P ++ now_running s W
  ∧ (∀ x, x ∈ P → is_admitted (fates s' !! sequence x) = true).
Proof.
  intros Hst Hnd HQ Hadm. pose proof (NoDup_seq _ Hnd) as HndW. rewrite fmap_app in Hnd.
  apply NoDup_app in Hnd as (HndW' & Hdis & HndP).
  assert (∀ y, y ∈ D ++ N ++ Q' → y ∈ W ∧ fates s !! sequence y = None) as Hin.
  { intros y Hy. rewrite -HQ /still_queued list_elem_of_filter in Hy. tauto. }
  assert (NoDup (D ++ N ++ Q')) as Hnd' by (rewrite -HQ; by apply NoDup_filter, NoDup_seq).
  assert (NoDup N ∧ NoDup Q') as [HndN HndQ'].
  { apply NoDup_app in Hnd' as (_ & _ & H). apply NoDup_app in H as (? & _ & ?). done. }
  apply NoDup_app in HndW as (HndW & HWP & HndP').
  split_and!.
  - apply NoDup_Permutation; [by apply NoDup_filter|done|]. intros x. rewrite list_elem_of_filter. split.
    + intros [Hf Hx]. by apply (settles_call s D N s' W Q' x Hst HndW' HQ Hx).
    + intros Hx. assert (x ∈ W) as HxW by (apply Hin; set_solver). split; [|done].
      by apply (settles_call s D N s' W Q' x Hst HndW' HQ HxW).
  - rewrite (app_assoc N P) (Permutation_app_comm N P) -app_assoc. f_equiv. apply NoDup_Permutation.
    + by apply NoDup_filter.
    + apply NoDup_app. split_and!; [done| |by apply NoDup_filter]. intros x Hx [Ha _]%list_elem_of_filter.
      destruct (Hin x ltac:(set_solver)) as [_ Hn]. by rewrite Hn in Ha.
    + intros x. rewrite elem_of_app !list_elem_of_filter. split.
      * intros [Ha Hx]. apply (settles_call s D N s' W Q' x Hst HndW' HQ Hx) in Ha. naive_solver.
      * intros Hx. assert (x ∈ W) as HxW by (destruct Hx as [Hx|[_ ?]]; [apply Hin; set_solver|done]).
        split; [|done]. apply (settles_call s D N s' W Q' x Hst HndW' HQ HxW). naive_solver.
  - intros x Hx. rewrite (st_other _ _ _ _ Hst); [|by apply Hadm].
    intros (y & Hseq & Hy)%list_elem_of_fmap. destruct (Hin y ltac:(set_solver)) as [HyW _].
    apply (Hdis (sequence y)); [apply list_elem_of_fmap; eauto|]. rewrite -Hseq. apply list_elem_of_fmap. eauto.
Qed.

Section calls.
Context (env : environment) `{!Undisturbed env}.

(** Dispatching returns and keeps the invariant. *)
Lemma wp_dispatch_ok s W P :
  ok s W P →
  wp (dispatch env) (λ _ s', ok s' W P ∧ lim s' = lim s ∧ active_limit s' = active_limit s
                              ∧ reservations s' = reservations s ∧ last_sequence s' = last_sequence s) s.
Proof.
  intros [Hh Hl Hw Ho Hnd Hi Hp Hf Hr Hlim].
  assert (∀ x, x ∈ still_queued s W → x ∈ W ++ P) as HQW.
  { intros x [_ Hx]%list_elem_of_filter. set_solver. }
  eapply wp_mono; [apply (wp_dispatch env _ _ _ _ Hh Hl)|].
  { apply NoDup_fmap_filter. rewrite fmap_app in Hnd. by apply NoDup_app in Hnd as (? & _ & _). }
  intros _ s' (E & D & N & Q' & [Hsp Hh' Hst Hl' Hlim' Hhar _ Hff _]).
  rewrite (app_assoc E) in Hsp. pose proof (settles_calls s (E ++ D) N s' W P Q' Hst Hnd Hsp Hp) as (HQ & HA & Hp').
  destruct Hst as [Elim Elimit Eseq _ Eres _ Hadm Hoth].
  split_and!; try done. split; try done.
  - rewrite Eres. eapply holds_perm, Hh'; done.
  - rewrite Elim Eres. eapply within_perm; [by symmetry|by symmetry|].
    destruct (within_shrink _ _ _ _ ((E ++ D) ++ N) Q' Hw) as [Hq1 Hh1 Hc1 Ha1 Hb1].
    { by rewrite Hsp -!app_assoc. }
    { intros x Hx. by apply Hi, HQW. }
    split; try done.
    + intros h. specialize (Hhar h). specialize (Ha1 h). lia.
    + destruct Hw as [_ _ _ _ Hb]. rewrite Hsp !bytes_app in Hb. rewrite !bytes_app.
      assert (0 <= bytes (E ++ D)) as Hpos; [|rewrite bytes_app in Hpos; lia].
      apply bytes_nonneg. intros x Hx. apply Hi, HQW. rewrite Hsp. set_solver.
  - eapply ordered_perm; [by symmetry|by symmetry|]. intros x [Hx|Hx]%elem_of_app; [by apply Hff|].
    intros y Hy. apply Ho; [done|]. rewrite Hsp. set_solver.
  - intros x Hx. rewrite Eseq. by apply Hi.
  - intros n Hn. rewrite Eseq in Hn. rewrite Hoth; [|by apply Hf]. intros (x & -> & Hx)%list_elem_of_fmap.
    assert (x ∈ W ++ P) as Hx' by (apply HQW; rewrite Hsp; set_solver). destruct (Hi x Hx'). lia.
  - by rewrite Eres.
  - by rewrite Elimit.
Qed.

(** What a method leaves alone. *)
Record same_setting (s s' : sched) : Prop := {
  same_lim : lim s' = lim s;
  same_reservations : reservations s' = reservations s;
  same_sequence : last_sequence s' = last_sequence s;
}.
Lemma same_setting_trans s1 s2 s3 : same_setting s1 s2 → same_setting s2 s3 → same_setting s1 s3.
Proof. intros [] []. split; congruence. Qed.

(** An update that only reaches what the invariant does not look at. *)
Lemma ok_ext s s' W P :
  queues s' = queues s → tal s' = tal s → fates s' = fates s → lanes_same s s' → same_setting s s' →
  0 <= active_limit s' → ok s W P → ok s' W P.
Proof.
  intros Hq Ht Hfa Hls [El Er Es] Hlim [Hh Hl Hw Ho Hnd Hi Hp Hf Hr _].
  assert (still_queued s' W = still_queued s W) as EQ by by rewrite /still_queued Hfa.
  assert (now_running s' W = now_running s W) as EA by by rewrite /now_running Hfa.
  split; rewrite ?EQ ?EA ?El ?Er ?Es ?Hfa; try done.
  - by eapply holds_ext, Hh.
  - by eapply lanes_ok_same.
Qed.

Lemma wp_set_active_limit n s W P :
  ok s W P → 0 <= n → wp (set_active_limit env n) (λ _ s', ok s' W P ∧ same_setting s s') s.
Proof.
  intros Hok Hn. rewrite /set_active_limit /raise_if. case: (Z.ltb_spec n 0) => ?; [lia|].
  apply wp_bind, wp_lift, wp_bind, wp_modify. eapply wp_mono.
  - apply (wp_dispatch_ok (with_active_limit n s) W P). by eapply ok_ext, Hok.
  - intros _ s' (Hok' & El & _ & Er & Es). split; [done|]. by split.
Qed.

(** *** Permits *)

Lemma counted_release t x Q A R m m' :
  counted t Q (x :: A) R →
  decrement_counter (active_by_harness t) (harness x) = Ok m →
  decrement_counter (active_by_client t) (client_key x) = Ok m' →
  counted {| queued := queued t; queued_by_harness := queued_by_harness t; queued_by_client := queued_by_client t;
             active := active t - 1; active_by_harness := m; active_by_client := m';
             retained_bytes := retained_bytes t - payload_bytes x |} Q A R.
Proof.
  intros [Hq Hqh Hqc Ha Hah Hac Hb] Hm Hm'.
  destruct (counter_decrement _ _ _ Hah) as (m1 & Em1 & Hm1), (counter_decrement _ _ _ Hac) as (m2 & Em2 & Hm2).
  rewrite Hm in Em1. rewrite Hm' in Em2. injection Em1 as ->. injection Em2 as ->. simpl in *. split; simpl; try done; lia.
Qed.

Lemma within_release l Q x A R : within l Q (x :: A) R → 0 <= payload_bytes x → within l Q A R.
Proof.
  intros [Hq Hh Hc Ha Hb] Hx. split; try done.
  - intros h. specialize (Ha h). rewrite fmap_cons count_cons in Ha. case_decide; lia.
  - simpl in Hb. lia.
Qed.

Lemma wp_release_permit x s W P :
  ok s W (x :: P) → wp (release_permit env x) (λ _ s', ok s' W P ∧ same_setting s s') s.
Proof.
  intros [Hh Hl Hw Ho Hnd Hi Hp Hf Hr Hlim]. pose proof (holds_tal _ _ _ _ _ Hh) as Hc. simpl in Hc, Hw.
  apply wp_bind, wp_get.
  destruct (counter_decrement _ _ _ (counted_active_harness _ _ _ _ Hc)) as (m & Em & _),
    (counter_decrement _ _ _ (counted_active_client _ _ _ _ Hc)) as (m' & Em' & _).
  rewrite Em Em'. apply wp_bind, wp_lift, wp_bind, wp_lift, wp_bind, wp_modify, wp_bind, wp_modify, wp_bind, wp_get.
  set (s1 := with_met _ _). destruct (Hi x ltac:(set_solver)) as [_ Hx].
  assert (ok s1 W P) as Hok1.
  { split; try done; simpl.
    - split; [apply Hh|]. by eapply counted_release.
    - by split; apply Hl.
    - by eapply within_release.
    - intros y Hy. apply Ho. by right.
    - rewrite fmap_app fmap_cons -Permutation_middle in Hnd. apply NoDup_cons in Hnd as [_ ?]. by rewrite fmap_app.
    - intros y Hy. apply Hi. set_solver.
    - intros y Hy. apply Hp. by right. }
  assert (∀ s2, ok s2 W P → same_setting s s2 → wp (dispatch env) (λ _ s', ok s' W P ∧ same_setting s s') s2) as Hd.
  { intros s2 Hok2 Hs2. eapply wp_mono; [by apply wp_dispatch_ok|]. intros _ s' (Hok' & El & _ & Er & Es).
    split; [done|]. destruct Hs2. split; congruence. }
  apply wp_bind. destruct (fates s1 !! sequence x) as [[t|r]|]; [|by apply wp_ret, Hd..].
  apply wp_bind, wp_monotonic, wp_modify, Hd; [|done]. by eapply ok_ext, Hok1.
Qed.

(** A call whose hook was admitted gets its permit. *)
Lemma ok_grant s x W P :
  ok s (x :: W) P → is_admitted (fates s !! sequence x) = true → ok s W (x :: P).
Proof.
  intros [Hh Hl Hw Ho Hnd Hi Hp Hf Hr Hlim] Hx.
  assert (still_queued s (x :: W) = still_queued s W) as EQ.
  { rewrite /still_queued filter_cons_False //. by destruct (fates s !! sequence x). }
  assert (now_running s (x :: W) = x :: now_running s W) as EA by by rewrite /now_running filter_cons_True.
  assert (P ++ x :: now_running s W ≡ₚ (x :: P) ++ now_running s W) as HA by by rewrite -Permutation_middle.
  rewrite EQ EA in Hh Hw Ho. split; try done.
  - by eapply holds_perm, Hh.
  - by eapply within_perm, Hw.
  - by eapply ordered_perm, Ho.
  - by rewrite fmap_app fmap_cons -Permutation_middle -fmap_app -fmap_cons.
  - intros y Hy. apply Hi. set_solver.
  - intros y [->|Hy]%elem_of_cons; [done|by apply Hp].
Qed.

(** A call whose hook was rejected is over. *)
Lemma ok_refuse s x W P r :
  ok s (x :: W) P → fates s !! sequence x = Some (Rejected_for r) → ok s W P.
Proof.
  intros [Hh Hl Hw Ho Hnd Hi Hp Hf Hr Hlim] Hx.
  assert (still_queued s (x :: W) = still_queued s W) as EQ by (rewrite /still_queued filter_cons_False //; by rewrite Hx).
  assert (now_running s (x :: W) = now_running s W) as EA by (rewrite /now_running filter_cons_False //; by rewrite Hx).
  rewrite EQ EA in Hh Hw Ho. split; try done.
  - by apply NoDup_cons in Hnd as [_ ?].
  - intros y Hy. apply Hi. set_solver.
Qed.

(** A call that leaves the queue. *)
Lemma wp_leave x s W P (K : bool → sched → Prop) :
  ok s (x :: W) P → fates s !! sequence x = None →
  (∀ s', ok s' W P → same_setting s s' → K true s') → wp (remove_queued x) K s.
Proof.
  intros [Hh Hl Hw Ho Hnd Hi Hp Hf Hr Hlim] Hx HK.
  assert (still_queued s (x :: W) = x :: still_queued s W) as EQ by by rewrite /still_queued filter_cons_True.
  assert (now_running s (x :: W) = now_running s W) as EA by (rewrite /now_running filter_cons_False //; by rewrite Hx).
  rewrite EQ EA in Hh Hw Ho. eapply wp_remove_queued; [exact Hh|by left|].
  intros Q' s' HQ Hh' [El Ea Es _ Er _ _] Hls Hfa _. apply HK; [|by split].
  apply Permutation_cons_inv in HQ.
  assert (still_queued s' W = still_queued s W) as EQ' by by rewrite /still_queued Hfa.
  assert (now_running s' W = now_running s W) as EA' by by rewrite /now_running Hfa.
  split; rewrite ?EQ' ?EA' ?El ?Er ?Es ?Hfa ?Ea; try done.
  - by eapply holds_perm, Hh'; [symmetry|].
  - by eapply lanes_ok_same.
  - eapply (within_shrink _ _ _ _ [x]); [exact Hw|done|]. intros y [->|Hy]%elem_of_cons; apply Hi; [by left|].
    apply list_elem_of_filter in Hy as [_ Hy]. set_solver.
  - intros y Hy z Hz. apply Ho; [done|by right].
  - by apply NoDup_cons in Hnd as [_ ?].
  - intros y Hy. apply Hi. set_solver.
Qed.

(** ** Methods that return or raise *)

Definition wpx {A} (m : M A) (Q : A → sched → Prop) (E : exn → sched → Prop) (s : sched) : Prop :=
  match m s with (Ok a, s') => Q a s' | (Raise e, s') => E e s' end.

Lemma wpx_wp {A} (m : M A) Q E s : wp m Q s → wpx m Q E s.
Proof. rewrite /wp /wpx. by destruct (m s) as [[a|e] s']. Qed.
Lemma wpx_bind {A B} (m : M A) (f : A → M B) Q E s : wpx m (λ a, wpx (f a) Q E) E s → wpx (m ≫= f) Q E s.
Proof. rewrite /wpx /mbind /M_bind. by destruct (m s) as [[a|e] s']. Qed.
Lemma wpx_mono {A} (m : M A) (P Q : A → sched → Prop) (E F : exn → sched → Prop) s :
  wpx m P E s → (∀ a s', P a s' → Q a s') → (∀ e s', E e s' → F e s') → wpx m Q F s.
Proof. rewrite /wpx. destruct (m s) as [[a|e] s']; naive_solver. Qed.
Lemma wpx_raise_if b e (Q : unit → sched → Prop) (E : exn → sched → Prop) s :
  (b = true → E e s) → (b = false → Q tt s) → wpx (lift (raise_if b e)) Q E s.
Proof. rewrite /wpx /lift /raise_if. destruct b; auto. Qed.

(** The exceptions that the caller's arguments, its use of a reservation or
    its listener call for. *)
Definition caller_errors : list exn :=
  [ValueError "payload_bytes must not be negative";
   ValueError "normalized_payload length must match payload_bytes";
   ValueError "runtime hook byte reservation does not match payload size";
   RuntimeError "runtime hook byte reservation is no longer transferable";
   RuntimeError "runtime hook byte reservation is no longer resizable";
   ValueError "runtime hook byte reservation cannot be negative";
   ValueError "runtime hook scheduler active limit must not be negative";
   RuntimeError "queue listener failed"].
Definition caller_error (e : exn) : bool := bool_decide (e ∈ caller_errors).

Definition fails_ok (s : sched) (W P : list hook) (e : exn) (s' : sched) : Prop :=
  caller_error e = true ∧ ok s' W P ∧ same_setting s s'.

Lemma wpx_set_active_limit n s W P :
  ok s W P → wpx (set_active_limit env n) (λ _ s', ok s' W P ∧ same_setting s s') (fails_ok s W P) s.
Proof.
  intros Hok. case: (Z.ltb_spec n 0) => Hn; [|by apply wpx_wp, wp_set_active_limit].
  rewrite /set_active_limit. apply wpx_bind, wpx_raise_if => Hb; [|apply Z.ltb_ge in Hb; lia]. by split.
Qed.

Lemma wpx_set_limits W P ns : ∀ s,
  ok s W P → wpx (set_limits env ns) (λ _ s', ok s' W P ∧ same_setting s s') (fails_ok s W P) s.
Proof.
  induction ns as [|n ns IH]; intros s Hok; [by apply wpx_wp, wp_ret|]. simpl. apply wpx_bind.
  eapply wpx_mono; [by apply wpx_set_active_limit| |done]. intros _ s1 [Hok1 Hs1].
  eapply wpx_mono; [by apply IH| |].
  - intros _ s2 [Hok2 Hs2]. split; [done|by eapply same_setting_trans].
  - intros e s2 (He & Hok2 & Hs2). split_and!; [done..|by eapply same_setting_trans].
Qed.

Lemma wpx_call_listener li s W P :
  ok s W P → wpx (call_listener env li) (λ _ s', ok s' W P ∧ same_setting s s') (fails_ok s W P) s.
Proof.
  intros Hok. apply wpx_bind. eapply wpx_mono; [by apply wpx_set_limits| |done]. intros _ s1 [Hok1 Hs1].
  destruct (listener_raises li); by [|apply wpx_wp, wp_ret].
Qed.

(** ** Acquiring *)

(** Where a critical section of [acquire] leaves the call. *)
Definition after (o : outcome RuntimeHookAdmission hook) (W P : list hook) (s : sched) : Prop :=
  match o with
  | Returned (inl x) => ok s W (x :: P)
  | Returned (inr _) => ok s W P
  | Waiting x => ok s (x :: W) P
  end.

Lemma ok_count a c e k r s W P : ok s W P → ok (with_met (add_metrics a c e k r (met s)) s) W P.
Proof. intros Hok. pose proof (ok_limit _ _ _ Hok). by eapply ok_ext, Hok. Qed.
Lemma ok_reads n s W P : ok s W P → ok (with_reads n s) W P.
Proof. intros Hok. pose proof (ok_limit _ _ _ Hok). by eapply ok_ext, Hok. Qed.

Lemma wp_leave_counted x s W P a c e k r z :
  ok s (x :: W) P → fates s !! sequence x = None →
  wp (removed ← remove_queued x ;
      (if removed : bool then count_metrics a c e k r else mret tt) ;; mret (Returned (inr z)))
    (λ o s', after o W P s' ∧ same_setting s s') s.
Proof.
  intros Hok Hx. apply wp_bind. eapply wp_leave; [done..|]. intros s' Hok' [].
  apply wp_bind, wp_modify, wp_ret. split; [by apply ok_count|by split].
Qed.

Lemma wp_acquire_check x s W P :
  ok s (x :: W) P → wp (acquire_check env x) (λ o s', after o W P s' ∧ same_setting s s') s.
Proof.
  intros Hok. apply wp_bind, wp_get. destruct (fates s !! sequence x) as [[t|r]|] eqn:Hx.
  - apply wp_ret. split; [|done]. apply ok_grant; [done|by rewrite Hx].
  - apply wp_ret. split; [|done]. by eapply ok_refuse.
  - apply wp_bind, wp_monotonic. pose proof (ok_reads (S (reads s)) _ _ _ Hok) as Hok1.
    set (s1 := with_reads _ s) in *.
    assert (∀ a c e k r z s2, ok s2 (x :: W) P → fates s2 !! sequence x = None → same_setting s1 s2 →
      wp (removed ← remove_queued x ;
          (if removed : bool then count_metrics a c e k r else mret tt) ;; mret (Returned (inr z)))
        (λ o s', after o W P s' ∧ same_setting s s') s2) as Hleave.
    { intros ? ? ? ? ? ? s2 ? ? Hs2. eapply wp_mono; [by apply wp_leave_counted|]. intros o s' [? Hs']. split; [done|].
      destruct (same_setting_trans _ _ _ Hs2 Hs') as [? ? ?]. by split. }
    case: (_ <=? 0); [by apply Hleave|]. apply wp_bind. eapply wp_poll; [exact _|]. intros s2 Hf2 Hq2 Ht2 Hls2 [El2 Ea2 Es2 _ Er2 _ _].
    assert (same_setting s1 s2) as Hs2 by by split.
    assert (ok s2 (x :: W) P) as Hok2.
    { eapply ok_ext, Hok1; try done. rewrite Ea2. apply Hok1. }
    case: (is_cancelled x s1).
    + apply Hleave; [done|by rewrite Hf2|done].
    + by apply wp_ret.
Qed.

Lemma wp_acquire_wake x s W P :
  ok s (x :: W) P → wp (acquire_wake env x) (λ o s', after o W P s' ∧ same_setting s s') s.
Proof.
  intros Hok. apply wp_bind. eapply wp_mono; [by apply wp_dispatch_ok|]. intros _ s1 (Hok1 & El & _ & Er & Es).
  eapply wp_mono; [by apply wp_acquire_check|]. intros o s2 [? []]. split; [done|]. split; congruence.
Qed.

(** The cleanup leaves nothing of the call behind. *)
Lemma wpx_cleaning_up {A} x (m : M A) (Q : A → sched → Prop) s W P :
  wpx m Q (fails_ok s (x :: W) P) s → wpx (cleaning_up env x m) Q (fails_ok s W P) s.
Proof.
  rewrite /wpx /cleaning_up. destruct (m s) as [[a|e] s1]; [done|]. intros (He & Hok & Hs).
  assert (∀ (B : Type) (k : M B), wp k (λ _ s', ok s' W P ∧ same_setting s1 s') s1 →
    wpx (k ;; lift (Raise (A := A) e)) Q (fails_ok s W P) s1) as Hk.
  { intros B k Hk. apply wpx_bind, wpx_wp. eapply wp_mono; [exact Hk|]. intros b s2 [Hok2 Hs2].
    split_and!; [done..|by eapply same_setting_trans]. }
  destruct (fates s1 !! sequence x) as [[t|r]|] eqn:Hx; apply Hk.
  - apply wp_release_permit, ok_grant; [done|by rewrite Hx].
  - pose proof (ok_refuse _ _ _ _ _ Hok Hx) as Hok'. eapply wp_remove_absent; [apply Hok| |done].
    intros [Hn _]%list_elem_of_filter. congruence.
  - eapply wp_leave; [done..|]. auto.
Qed.

(** *** Byte reservations *)

Definition bytes_of (r : RuntimeHookByteReservation) : Z := if live r then reserved_bytes r else 0.

Lemma live_bytes_insert rs id r r' :
  rs !! id = Some r → live_bytes (<[id := r']> rs) = live_bytes rs - bytes_of r + bytes_of r'.
Proof.
  revert id. induction rs as [|z rs IH]; intros [|id] Hr; [done..| |]; simpl in *.
  - injection Hr as ->. rewrite /bytes_of. lia.
  - rewrite (IH _ Hr). lia.
Qed.
Lemma live_bytes_app rs rs' : live_bytes (rs ++ rs') = live_bytes rs + live_bytes rs'.
Proof. induction rs as [|r rs IH]; [done|]. simpl. rewrite IH. lia. Qed.

Lemma reserved_insert (rs : list RuntimeHookByteReservation) (id : nat) r :
  (∀ z, z ∈ rs → 0 <= reserved_bytes z) → 0 <= reserved_bytes r →
  ∀ z, z ∈ <[id := r]> rs → 0 <= reserved_bytes z.
Proof. intros Hrs Hr. rewrite -!Forall_forall in Hrs |- *. by apply Forall_insert. Qed.

(** The limits stay, and so do the reservations that are not in use. *)
Record keeps (id : option nat) (s s' : sched) : Prop := {
  keeps_lim : lim s' = lim s;
  keeps_length : (length (reservations s) ≤ length (reservations s'))%nat;
  keeps_reservations : ∀ j, (j < length (reservations s))%nat → id ≠ Some j →
                       reservations s' !! j = reservations s !! j;
}.
Lemma keeps_same id s s' : same_setting s s' → keeps id s s'.
Proof. intros []. split; intros; congruence || by rewrite same_reservations0. Qed.
Lemma keeps_trans id s1 s2 s3 : keeps id s1 s2 → keeps id s2 s3 → keeps id s1 s3.
Proof. intros [] []. split; intros; [congruence|lia|]. rewrite keeps_reservations1 //; [lia|auto]. Qed.

Lemma wp_reservation id r s (Q : RuntimeHookByteReservation → sched → Prop) :
  reservations s !! id = Some r → Q r s → wp (reservation id) Q s.
Proof. intros Hr HQ. apply wp_bind, wp_get. rewrite Hr. by apply wp_lift. Qed.

(** *** Queueing *)

Lemma refusal_None q b now s :
  refusal q b now s = None →
  queued (tal s) < queued_limit (lim s)
  ∧ count_of (queued_by_harness (tal s)) (req_harness q) < per_harness_queued_limit (lim s)
  ∧ count_of (queued_by_client (tal s)) (req_client q) < per_client_queued_limit (lim s)
  ∧ (b = false → retained_bytes (tal s) + req_bytes q <= retained_bytes_limit (lim s)).
Proof.
  rewrite /refusal. case: (Z.leb_spec (expires_at _) now) => // _.
  case: (Z.leb_spec (queued_limit _) _) => // ?. case: (Z.leb_spec (per_harness_queued_limit _) _) => // ?.
  case: (Z.leb_spec (per_client_queued_limit _) _) => // ?. destruct b; [done|].
  case: (Z.ltb_spec (retained_bytes_limit _) _) => //.
Qed.

Lemma wp_enqueue x s Q A R (K : unit → sched → Prop) :
  lanes_hold (queues s) Q → counted (tal s) Q A (R + payload_bytes x) →
  (∀ y, y ∈ Q → sequence y < sequence x) →
  (∀ q t, lanes_hold q (x :: Q) → counted t (x :: Q) A R → K tt (with_tal t (with_queues q s))) →
  wp (enqueue x) K s.
Proof.
  intros Hl [Hq Hqh Hqc Ha Hah Hac Hb] Hlt HK. apply wp_bind, wp_modify, wp_modify, HK; simpl.
  - destruct (group_append_ok (lane x) (queues s (lane x)) x) as (Hg & Hp & _); [apply Hl|done| |].
    { intros y Hy. apply Hlt. rewrite -(lanes_items _ _ Hl). apply elem_of_qitems. eauto. }
    split.
    + intros l. destruct (decide (lane x = l)) as [<-|?]; [by rewrite fn_lookup_insert|].
      rewrite fn_lookup_insert_ne //. apply Hl.
    + rewrite -(lanes_items _ _ Hl).
      pose proof (qitems_insert (<[lane x := group_append (hook_group x) x (queues s (lane x))]> (queues s))
        (lane x) (queues s (lane x)) [x]) as E. rewrite fn_lookup_insert in E. rewrite E //. simpl. f_equiv.
      rewrite /qitems /LANES /= !app_nil_r. destruct (lane x); reflexivity.
  - split; simpl; try done; try lia.
    + by apply counter_increment.
    + by apply counter_increment.
Qed.

(** The state once the bytes of a new hook [x] are accounted for. *)
Record charged (s : sched) (x : hook) (s1 : sched) : Prop := {
  ch_queues : queues s1 = queues s;
  ch_fates : fates s1 = fates s;
  ch_lanes : lanes_same s s1;
  ch_lim : lim s1 = lim s;
  ch_limit : active_limit s1 = active_limit s;
  ch_last : last_sequence s1 = last_sequence s + 1;
  ch_counted : ∀ Q A, counted (tal s) Q A (live_bytes (reservations s)) →
                      counted (tal s1) Q A (live_bytes (reservations s1) + payload_bytes x);
  ch_bytes : retained_bytes (tal s1) <= retained_bytes_limit (lim s);
  ch_reserved : ∀ r, r ∈ reservations s1 → 0 <= reserved_bytes r;
}.

Lemma wp_publish x s s1 W P :
  ok s W P → charged s x s1 → sequence x = last_sequence s1 → 0 <= payload_bytes x →
  queued (tal s) < queued_limit (lim s) →
  count_of (queued_by_harness (tal s)) (harness x) < per_harness_queued_limit (lim s) →
  count_of (queued_by_client (tal s)) (client_key x) < per_client_queued_limit (lim s) →
  wp (enqueue x) (λ _ s', ok s' (x :: W) P ∧ same_setting s1 s') s1.
Proof.
  intros [Hh Hl Hw Ho Hnd Hi Hp Hf Hr Hlim] [Eq Ef Els El Elim Elast Hc Hb Hr1] Hx Hpos Hq Hqh Hqc.
  pose proof (Hc _ _ (holds_tal _ _ _ _ _ Hh)) as Hc1. simpl in Hc1.
  pose proof (holds_tal _ _ _ _ _ Hh) as [Eqq Eqh Eqc _ _ _ _]. simpl in Eqq, Eqh, Eqc.
  rewrite Eqq in Hq. rewrite (count_of_ok _ _ _ Eqh) in Hqh. rewrite (count_of_ok _ _ _ Eqc) in Hqc.
  assert (∀ y, y ∈ W ++ P → sequence y < sequence x) as Hlt by (intros y [? _]%Hi; lia).
  assert (∀ y, y ∈ still_queued s W → sequence y < sequence x) as Hlt'.
  { intros y [_ Hy]%list_elem_of_filter. apply Hlt. set_solver. }
  assert (fates s !! sequence x = None) as Hfx by (apply Hf; lia).
  eapply (wp_enqueue x s1 (still_queued s W) (P ++ now_running s W)); [rewrite Eq; apply Hh|exact Hc1|done|].
  intros q t Hlq Hct. set (s2 := with_tal t _). split; [|done].
  assert (still_queued s2 (x :: W) = x :: still_queued s W) as EQ.
  { rewrite /still_queued filter_cons_True /= Ef //. }
  assert (now_running s2 (x :: W) = now_running s W) as EA.
  { rewrite /now_running filter_cons_False /= Ef // Hfx //. }
  split; rewrite ?EQ ?EA /= ?El ?Elim ?Ef; try done.
  - by eapply lanes_ok_same, Hl.
  - destruct Hw as [Wq Wh Wc Wa Wb]. split; try done.
    + simpl. lia.
    + intros h. rewrite fmap_cons count_cons. specialize (Wh h). case_decide as E; [|lia]. rewrite E in Wh |- *. lia.
    + intros c. rewrite fmap_cons count_cons. specialize (Wc c). case_decide as E; [|lia]. rewrite E in Wc |- *. lia.
    + pose proof (counted_bytes _ _ _ _ Hc1). simpl. lia.
  - intros y Hy z [->|Hz]%elem_of_cons; [|by apply Ho]. intros _ _. apply Hlt.
    apply elem_of_app in Hy as [?|[_ ?]%list_elem_of_filter]; set_solver.
  - apply NoDup_cons. split; [|done]. intros (y & Hy & Hin)%list_elem_of_fmap. specialize (Hlt _ Hin). lia.
  - intros y [->|Hy]%elem_of_cons; [split; [lia|done]|]. destruct (Hi _ Hy). split; [lia|done].
  - intros n Hn. apply Hf. lia.
Qed.

Lemma wpx_queued_call x li s W P :
  ok s (x :: W) P →
  wpx (cleaning_up env x
         (dispatch env ;;
          f ← get (λ s, fates s !! sequence x) ;
          match f, li with
          | Some (Admitted_at _), _ | _, None => mret tt
          | _, Some li => call_listener env li
          end ;;
          acquire_check env x))
    (λ o s', after o W P s' ∧ same_setting s s') (fails_ok s W P) s.
Proof.
  intros Hok. apply wpx_cleaning_up, wpx_bind, wpx_wp. eapply wp_mono; [by apply wp_dispatch_ok|].
  intros _ s1 (Hok1 & El & _ & Er & Es). assert (same_setting s s1) as Hs1 by by split.
  assert (∀ s2, ok s2 (x :: W) P → same_setting s1 s2 →
    wpx (acquire_check env x) (λ o s', after o W P s' ∧ same_setting s s') (fails_ok s (x :: W) P) s2) as Hcheck.
  { intros s2 Hok2 Hs2. apply wpx_wp. eapply wp_mono; [by apply wp_acquire_check|]. intros o s3 [? Hs3].
    split; [done|]. by do 2 (eapply same_setting_trans; [done|]). }
  apply wpx_bind, wpx_wp, wp_get, wpx_bind.
  assert (∀ li, wpx (call_listener env li)
    (λ _, wpx (acquire_check env x) (λ o s', after o W P s' ∧ same_setting s s') (fails_ok s (x :: W) P))
    (fails_ok s (x :: W) P) s1) as Hlisten.
  { intros l. eapply wpx_mono; [by apply wpx_call_listener|naive_solver|]. intros e s2 (He & Hok2 & Hs2).
    split_and!; [done..|by eapply same_setting_trans]. }
  by destruct (fates s1 !! sequence x) as [[]|], li; try apply Hlisten; apply wpx_wp, wp_ret, Hcheck.
Qed.

Lemma ok_sequence s W P : ok s W P → ok (with_sequence (last_sequence s + 1) s) W P.
Proof.
  intros [Hh Hl Hw Ho Hnd Hi Hp Hf Hr Hlim]. split; try done.
  - by eapply holds_ext, Hh.
  - by split; apply Hl.
  - intros x [? ?]%Hi. simpl. split; [lia|done].
  - intros n Hn. simpl in *. apply Hf. lia.
Qed.

Lemma charged_new q now s W P :
  ok s W P → retained_bytes (tal s) + req_bytes q <= retained_bytes_limit (lim s) →
  ∀ x t, (∀ Q A R, counted (tal s) Q A R → counted t Q A (R + payload_bytes x)) →
    x = hook_of q now (last_sequence s + 1) → retained_bytes t = retained_bytes (tal s) + req_bytes q →
    charged s x (with_tal t (with_sequence (last_sequence s + 1) s)).
Proof. intros Hok Hb x t Ht -> Et. split; try done; [intros Q A; apply Ht|simpl; lia|apply Hok]. Qed.

Lemma charged_transfer x r r' id s W P :
  ok s W P → reservations s !! id = Some r → transfer r = Ok r' → reserved_bytes r = payload_bytes x →
  charged s x (with_reservations (<[id := r']> (reservations s)) (with_sequence (last_sequence s + 1) s)).
Proof.
  intros Hok Hr Ht Ex. rewrite /transfer /raise_if in Ht.
  destruct (reservation_released r || reservation_transferred r) eqn:Hdead; [done|]. injection Ht as <-.
  split; try done; simpl.
  - intros Q A Hc. rewrite (live_bytes_insert _ _ _ _ Hr) /bytes_of /live /= orb_comm Hdead /=.
    replace (_ + payload_bytes x) with (live_bytes (reservations s)) by lia. done.
  - pose proof (counted_bytes _ _ _ _ (holds_tal _ _ _ _ _ (ok_holds _ _ _ Hok))) as ->.
    apply (ok_within _ _ _ Hok).
  - apply reserved_insert; [apply Hok|]. simpl. eapply ok_reserved; [done|]. by eapply list_elem_of_lookup_2.
Qed.

(** [acquire] leaves the scheduler and its calls consistent, whether it
    returns, waits or raises. *)
Lemma wpx_acquire q rid li s W P :
  ok s W P → (∀ id, rid = Some id → is_Some (reservations s !! id)) →
  wpx (acquire env q rid li) (λ o s', after o W P s' ∧ keeps rid s s')
    (λ e s', caller_error e = true ∧ ok s' W P ∧ keeps rid s s') s.
Proof.
  intros Hok Hrid. apply wpx_bind, wpx_raise_if => Hpos; [by split|]. apply Z.ltb_ge in Hpos.
  apply wpx_bind, wpx_raise_if => _; [by split|].
  apply wpx_bind, wpx_wp, wp_monotonic, wpx_bind, wpx_wp, wp_get.
  pose proof (ok_reads (S (reads s)) _ _ _ Hok) as Hok0. set (now := clock env _). set (s0 := with_reads _ s) in *.
  destruct (refusal q _ now s0) as [reason|] eqn:Href.
  { apply wpx_bind, wpx_wp, wp_modify, wpx_wp, wp_ret. split; [|done]. eapply ok_ext, Hok0; try done. apply Hok. }
  destruct (refusal_None _ _ _ _ Href) as (Hq & Hqh & Hqc & Hb). set (x := hook_of q now (last_sequence s + 1)).
  assert (∀ s1, charged s0 x s1 → sequence x = last_sequence s1 → keeps rid s s1 →
    wpx (enqueue x ;; cleaning_up env x
         (dispatch env ;;
          f ← get (λ s, fates s !! sequence x) ;
          match f, li with
          | Some (Admitted_at _), _ | _, None => mret tt
          | _, Some li => call_listener env li
          end ;;
          acquire_check env x))
      (λ o s', after o W P s' ∧ keeps rid s s')
      (λ e s', caller_error e = true ∧ ok s' W P ∧ keeps rid s s') s1) as Hgo.
  { intros s1 Hch Hx Hk. apply wpx_bind, wpx_wp. eapply wp_mono; [by eapply wp_publish|].
    intros _ s2 [Hok2 Hs2]. assert (keeps rid s s2) as Hk2 by by eapply keeps_trans, keeps_same.
    eapply wpx_mono; [by apply wpx_queued_call| |].
    - intros o s3 [? ?]. split; [done|by eapply keeps_trans, keeps_same].
    - intros e s3 (? & ? & ?). split_and!; [done..|by eapply keeps_trans, keeps_same]. }
  destruct rid as [id|].
  - destruct (Hrid id eq_refl) as [r Hr]. apply wpx_bind, wpx_bind, wpx_wp. eapply wp_reservation; [done|].
    apply wpx_raise_if => Hsz; [by split|]. apply negb_false_iff, Z.eqb_eq in Hsz.
    apply wpx_bind, wpx_wp, wp_modify, wpx_bind, wpx_wp, wp_get, wpx_bind, wpx_bind, wpx_wp.
    eapply wp_reservation; [done|]. apply wpx_bind.
    destruct (transfer r) as [r'|e] eqn:Ht.
    + apply wpx_wp, wp_lift, wpx_wp, wp_modify. apply Hgo; [by eapply (charged_transfer x r r' id s0)|done|].
      split; simpl; [done|by rewrite length_insert|]. intros j _ Hj. rewrite list_lookup_insert_ne //. congruence.
    + rewrite /transfer /raise_if in Ht. destruct (_ || _); [|done]. injection Ht as <-.
      split_and!; [done|by apply ok_sequence|by split].
  - apply wpx_bind, wpx_wp, wp_ret, wpx_bind, wpx_wp, wp_modify, wpx_bind, wpx_wp, wp_get, wpx_bind, wpx_wp.
    apply wp_add_retained. intros t Ht Et. apply Hgo; [|done|by split].
    eapply (charged_new q now s0); try done. by apply Hb.
Qed.

(** ** Reserving bytes *)

(** An update of the reservations and of the bytes counted for them. *)
Lemma ok_bytes s t rs W P :
  (∀ Q A, counted (tal s) Q A (live_bytes (reservations s)) → counted t Q A (live_bytes rs)) →
  retained_bytes t <= retained_bytes_limit (lim s) → (∀ r, r ∈ rs → 0 <= reserved_bytes r) →
  ok s W P → ok (with_reservations rs (with_tal t s)) W P.
Proof.
  intros Ht Hb Hrs [Hh Hl Hw Ho Hnd Hi Hp Hf Hr Hlim]. pose proof (Ht _ _ (holds_tal _ _ _ _ _ Hh)) as Hc.
  split; try done.
  - split; [apply Hh|done].
  - by split; apply Hl.
  - destruct Hw. split; try done. pose proof (counted_bytes _ _ _ _ Hc) as Eb.
    simpl in *. change (still_queued (with_reservations rs (with_tal t s)) W) with (still_queued s W).
    change (now_running (with_reservations rs (with_tal t s)) W) with (now_running s W). lia.
Qed.

Lemma wp_reserve_check n d s W P (K : outcome (option RuntimeHookAdmissionReason) unit → sched → Prop) :
  ok s W P →
  (∀ t, (∀ Q A R, counted (tal s) Q A R → counted t Q A (R + n)) →
        retained_bytes t <= retained_bytes_limit (lim s) → K (Returned None) (with_tal t s)) →
  (∀ o s', o ≠ Returned None → ok s' W P → same_setting s s' → K o s') →
  wp (reserve_check env n d) K s.
Proof.
  intros Hok Hdone Helse. apply wp_bind, wp_get. case: (Z.ltb_spec (retained_bytes_limit (lim s)) _) => Hfull.
  - pose proof (ok_reads (S (reads s)) _ _ _ Hok) as Hok0. apply wp_bind, wp_monotonic.
    case: (_ <=? 0); [apply wp_bind, wp_modify|]; apply wp_ret, Helse; try done.
    eapply ok_ext, Hok0; try done. apply Hok.
  - apply wp_bind, wp_add_retained. intros t Ht Et. apply wp_ret, Hdone; [done|lia].
Qed.

Lemma wp_reserve_wake n d s W P :
  ok s W P → 0 <= n → wp (reserve_wake env n d) (λ _ s', ok s' W P ∧ keeps None s s') s.
Proof.
  intros Hok Hn. apply wp_bind. eapply wp_reserve_check; [done| |].
  - intros t Ht Hb. apply wp_bind, wp_modify, wp_ret. split.
    + apply ok_bytes; [|done| |done].
      * intros Q A Hc. rewrite live_bytes_app /= Z.add_0_r. by apply Ht.
      * intros r [Hr| ->%list_elem_of_singleton]%elem_of_app; [by eapply ok_reserved|done].
    + split; simpl; [done|rewrite length_app; lia|]. intros j Hj _. by rewrite lookup_app_l.
  - intros o s' Ho Hok' Hs'. apply wp_bind. assert (ok s' W P ∧ keeps None s s') by (split; [done|by apply keeps_same]).
    by destruct o as [[]|[]]; [apply wp_ret, wp_ret| |apply wp_ret, wp_ret].
Qed.

Lemma ok_reject r s W P (K : unit → sched → Prop) :
  ok s W P → (∀ s', ok s' W P → same_setting s s' → K tt s') → wp (reject r) K s.
Proof. intros Hok HK. apply wp_modify, HK; [|done]. eapply ok_ext, Hok; try done. apply Hok. Qed.

Lemma wpx_reserve_bytes n d s W P :
  ok s W P →
  wpx (reserve_bytes env n d) (λ _ s', ok s' W P ∧ keeps None s s' ∧ 0 <= n) (fails_ok s W P) s.
Proof.
  intros Hok. apply wpx_bind, wpx_raise_if => Hn; [by split|]. apply Z.ltb_ge in Hn. apply wpx_wp.
  pose proof (ok_reads (S (reads s)) _ _ _ Hok) as Hok0.
  apply wp_bind, wp_monotonic, wp_bind, wp_get.
  case: (_ <=? _); [|case: (_ <? _)]; [apply wp_bind; eapply ok_reject; [done|]..|].
  1,2: intros s' Hok' []; apply wp_ret; split_and!; [done|by apply keeps_same|done].
  eapply wp_mono; [by apply wp_reserve_wake|]. intros o s' [? []]. by split_and!.
Qed.

Lemma bytes_of_live r n : live r = true → bytes_of (resized r n) = n ∧ bytes_of r = reserved_bytes r.
Proof. rewrite /bytes_of. intros Hr. change (live (resized r n)) with (live r). by rewrite Hr. Qed.

Lemma keeps_insert id r s t :
  keeps (Some id) s (with_reservations (<[id := r]> (reservations s)) (with_tal t s)).
Proof.
  split; simpl; [done|by rewrite length_insert|]. intros j _ Hj. rewrite list_lookup_insert_ne //. congruence.
Qed.

(** What a resize that waits relies on. *)
Definition growing (s : sched) (id : nat) (n by_ : Z) : Prop :=
  ∃ r, reservations s !! id = Some r ∧ live r = true ∧ reserved_bytes r + by_ = n ∧ 0 <= by_.

(** The part of [resize] and of its wake-up that waits for the bytes. *)
Lemma wp_grow id n by_ d s W P :
  ok s W P → growing s id n by_ →
  wp (o ← reserve_check env by_ d ; resize_grown id n o)
    (λ o s', ok s' W P ∧ keeps (Some id) s s' ∧ (o = Waiting tt → growing s' id n by_)) s.
Proof.
  intros Hok Hg. pose proof Hg as (r & Hr & Hlive & Hsz & Hby). apply wp_bind. eapply wp_reserve_check; [done| |].
  - intros t Ht Hb. apply wp_bind, wp_bind. eapply wp_reservation; [done|]. apply wp_bind, wp_modify.
    case: (Z.ltb_spec 0 (reserved_bytes r - n)) => ?; [lia|]. apply wp_ret, wp_ret. split_and!; [|apply (keeps_insert id (resized r n) s t)|done].
    destruct (bytes_of_live r n Hlive) as [E1 E2].
    pose proof (ok_reserved _ _ _ Hok r (list_elem_of_lookup_2 _ _ _ Hr)) as Hpos.
    apply ok_bytes; [|done|apply reserved_insert; [apply Hok|simpl; lia]|done].
    intros Q A Hc. apply Ht in Hc. rewrite (live_bytes_insert _ _ _ _ Hr) E1 E2.
    by replace (_ + n) with (live_bytes (reservations s) + by_) by lia.
  - intros o s' Ho Hok' Hs'. apply wp_bind.
    assert (ok s' W P ∧ keeps (Some id) s s' ∧ (o = Waiting tt → growing s' id n by_)) as HK.
    { split_and!; [done|by apply keeps_same|]. intros _. rewrite /growing (same_reservations _ _ Hs'). done. }
    by destruct o as [[]|[]]; [apply wp_ret, wp_ret| |apply wp_ret, wp_ret].
Qed.

Lemma not_dead r : reservation_released r || reservation_transferred r = false → live r = true.
Proof. rewrite /live orb_comm. by intros ->. Qed.

Lemma wpx_resize id n d s W P :
  ok s W P → is_Some (reservations s !! id) →
  wpx (resize env id n d)
    (λ o s', ok s' W P ∧ keeps (Some id) s s'
             ∧ (o = Waiting tt → ∃ r, reservations s' !! id = Some r ∧ growing s' id n (n - reserved_bytes r)))
    (fails_ok s W P) s.
Proof.
  intros Hok [r Hr]. apply wpx_bind, wpx_wp. eapply wp_reservation; [done|].
  apply wpx_bind, wpx_raise_if => Hdead; [by split|]. apply not_dead in Hdead as Hlive.
  apply wpx_bind, wpx_raise_if => Hn; [by split|]. apply Z.ltb_ge in Hn. apply wpx_wp.
  destruct (bytes_of_live r n Hlive) as [E1 E2].
  case: (Z.ltb_spec (reserved_bytes r) n) => Hgrow.
  - apply wp_bind, wp_bind, wp_get. case: (retained_bytes_limit (lim s) <? n).
    + apply wp_bind. eapply ok_reject; [done|]. intros s' Hok' Hs'. apply wp_ret, wp_bind, wp_ret, wp_ret.
      split_and!; [done|by apply keeps_same|done].
    + apply wp_bind. rewrite /raise_if. case: (Z.ltb_spec (n - reserved_bytes r) 0) => ?; [lia|]. apply wp_lift.
      assert (growing s id n (n - reserved_bytes r)) as Hg by (exists r; split_and!; [done..|lia|lia]).
      pose proof (wp_grow id n (n - reserved_bytes r) d s W P Hok Hg) as Hw.
      rewrite /wp /mbind /M_bind in Hw |- *. destruct (reserve_check env (n - reserved_bytes r) d s) as [[o|e] s1]; [|done].
      destruct (resize_grown id n o s1) as [[o'|e] s']; [|done]. destruct Hw as (? & ? & Hwait).
      split_and!; [done..|]. intros Ho. destruct (Hwait Ho) as (r' & Hr' & Hl' & Hs' & Hb'). exists r'. split; [done|].
      exists r'. split_and!; [done..|lia|lia].
  - assert (∀ t, (∀ Q A R, counted (tal s) Q A R → counted t Q A (R - (reserved_bytes r - n))) →
      retained_bytes t = retained_bytes (tal s) - (reserved_bytes r - n) →
      ok (with_reservations (<[id := resized r n]> (reservations s)) (with_tal t s)) W P) as Hshrink.
    { intros t Ht Et. apply ok_bytes; [| |apply reserved_insert; [apply Hok|done]|done].
      - intros Q A Hc. apply Ht in Hc. rewrite (live_bytes_insert _ _ _ _ Hr) E1 E2.
        by replace (_ + n) with (live_bytes (reservations s) - (reserved_bytes r - n)) by lia.
      - pose proof (counted_bytes _ _ _ _ (holds_tal _ _ _ _ _ (ok_holds _ _ _ Hok))) as Eb.
        pose proof (within_bytes _ _ _ _ (ok_within _ _ _ Hok)). simpl in *. lia. }
    apply wp_bind, wp_bind. eapply wp_reservation; [done|]. apply wp_bind, wp_modify.
    case: (Z.ltb_spec 0 (reserved_bytes r - n)) => Hless.
    + apply wp_add_retained. intros t Ht Et. apply wp_ret. split_and!; [|apply (keeps_insert id (resized r n) s t)|done].
      apply (Hshrink t); [|simpl in *; lia]. intros Q A R Hc. by apply Ht.
    + apply wp_ret, wp_ret. split_and!; [|apply (keeps_insert id (resized r n) s (tal s))|done].
      apply (Hshrink (tal s)); [|lia]. intros Q A R Hc. by replace (R - _) with R by lia.
Qed.

Lemma wp_release_reservation id s W P :
  ok s W P → is_Some (reservations s !! id) →
  wp (release_reservation id) (λ _ s', ok s' W P ∧ keeps (Some id) s s') s.
Proof.
  intros Hok [r Hr]. apply wp_bind. eapply wp_reservation; [done|].
  destruct (_ || _) eqn:Hdead; [by apply wp_ret|]. apply not_dead in Hdead as Hlive.
  apply wp_bind, wp_modify, wp_add_retained. set (r' := Build_RuntimeHookByteReservation _ _ _). intros t Ht Et.
  split; [|apply (keeps_insert id r' s t)].
  pose proof (ok_reserved _ _ _ Hok r (list_elem_of_lookup_2 _ _ _ Hr)) as Hpos.
  apply (ok_bytes s t); [| |apply reserved_insert; [apply Hok|done]|done].
  - intros Q A Hc. apply Ht in Hc. rewrite (live_bytes_insert _ _ _ _ Hr) /bytes_of Hlive /r' /live /= orb_true_r Z.add_0_r.
    done.
  - pose proof (counted_bytes _ _ _ _ (holds_tal _ _ _ _ _ (ok_holds _ _ _ Hok))) as Eb.
    pose proof (within_bytes _ _ _ _ (ok_within _ _ _ Hok)). simpl in *. lia.
Qed.

End calls.
End SchedulerCalls.
