(* ===== verification/HookSchedulerSystem.v ===== *)
(** * The runtime hook scheduler under any interleaving of its callers

    The theorems about the scheduler: along any sequence of critical sections
    of its callers the counters are exact and the limits hold, the scheduler
    raises only what its callers ask for, work is never left waiting beside
    free slots, slots are shared between clients, and hooks that have waited
    long are not overtaken. *)

From Stdlib Require Import ssreflect.
From stdpp Require Import functions.
From S2P Require Import Prelude PyStr HookScheduler HookSchedulerFacts HookSchedulerCalls.
Local Open Scope Z_scope.
Local Open Scope py_scope.
Local Open Scope general_if_scope.

Module SchedulerSystem.
Import Scheduler SchedulerFacts SchedulerCalls.

Local Notation hook := QueuedRuntimeHook.

(** The hooks whose permit is not released. *)
Definition held (ps : list RuntimeHookPermit) : list hook :=
  permit_item <$> filter (λ p, permit_released p = false) ps.

Record sys_ok (y : system) : Prop := {
  sys_calls : ok (sch y) (waiting y) (held (permits y));
  sys_reserving : Forall (λ p, 0 <= p.1) (reserving y);
  sys_resizing : Forall (λ p, growing (sch y) (resize_id p) (resize_to p) (resize_by p)) (resizing y);
  sys_distinct : NoDup (resize_id <$> resizing y);
}.

Section system.
Context (env : environment) `{!Undisturbed env}.

Lemma held_app ps qs : held (ps ++ qs) = held ps ++ held qs.
Proof. by rewrite /held filter_app fmap_app. Qed.

Lemma held_release ps i p :
  ps !! i = Some p → permit_released p = false →
  held ps ≡ₚ permit_item p :: held (<[i := {| permit_item := permit_item p; permit_released := true |}]> ps).
Proof.
  intros Hi Hp. rewrite insert_take_drop; [by eapply lookup_lt_Some|].
  rewrite -{1}(take_drop_middle _ _ _ Hi) !held_app.
  assert (∀ qs, held (p :: qs) = permit_item p :: held qs) as -> by (intros; by rewrite /held filter_cons_True).
  assert (∀ qs, held ({| permit_item := permit_item p; permit_released := true |} :: qs) = held qs) as ->.
  { intros qs. by rewrite /held filter_cons_False. }
  by rewrite Permutation_middle.
Qed.

Lemma growing_keeps id s s' j n b :
  keeps id s s' → id ≠ Some j → growing s j n b → growing s' j n b.
Proof.
  intros Hk Hj (r & Hr & H). exists r. split; [|done]. rewrite (keeps_reservations _ _ _ Hk) //.
  by eapply lookup_lt_Some.
Qed.

(** The waiting resizes that do not use [id] are not disturbed. *)
Lemma resizing_keeps id s s' (ps : list pending_resize) :
  keeps id s s' → (∀ p, p ∈ ps → id ≠ Some (resize_id p)) →
  Forall (λ p, growing s (resize_id p) (resize_to p) (resize_by p)) ps →
  Forall (λ p, growing s' (resize_id p) (resize_to p) (resize_by p)) ps.
Proof.
  rewrite !Forall_forall. intros Hk Hid H p Hp. eapply growing_keeps; [done|by apply Hid|by apply H].
Qed.

(** A reservation is used by one call at a time: no call names a reservation
    on which a resize waits. *)
Definition unshared (e : event) (y : system) : bool :=
  match e with
  | Acquire _ (Some id) _ | Resize id _ _ | Release_reservation id =>
      negb (existsb (λ p, (resize_id p =? id)%nat) (resizing y))
  | _ => true
  end.

Lemma issued_spec id y : issued id y = true → is_Some (reservations (sch y) !! id).
Proof. intros Hlt%Nat.ltb_lt. by apply lookup_lt_is_Some. Qed.
Lemma unshared_spec id y :
  negb (existsb (λ p, (resize_id p =? id)%nat) (resizing y)) = true →
  ∀ p, p ∈ resizing y → Some id ≠ Some (resize_id p).
Proof.
  intros Hp%negb_true_iff p Hin [= ->]. apply not_true_iff_false in Hp. apply Hp, existsb_exists.
  exists p. split; [by apply list_elem_of_In|by apply Nat.eqb_refl].
Qed.

(** What an event leaves: a consistent system, and an exception only for
    the caller's own error. *)
Definition leaves (y : system) (r : result unit * system) : Prop :=
  sys_ok r.2 ∧ lim (sch r.2) = lim (sch y) ∧ ∀ e, r.1 = Raise e → caller_error e = true.

Lemma leaves_same y : sys_ok y → leaves y (Ok tt, y).
Proof. intros Hy. by split; [|split]. Qed.

Lemma leaves_sched (r : result unit) s y id :
  sys_ok y → keeps id (sch y) s → (∀ p, p ∈ resizing y → id ≠ Some (resize_id p)) →
  ok s (waiting y) (held (permits y)) → (∀ e, r = Raise e → caller_error e = true) →
  leaves y (r, with_sch s y).
Proof.
  intros [Hc Hr Hz Hd] Hk Hid Hok He. split_and!; [|apply Hk|done]. split; try done. by eapply resizing_keeps.
Qed.

Lemma leaves_settle y y0 r id W :
  sys_ok y → lim (sch y0) = lim (sch y) → reserving y0 = reserving y → resizing y0 = resizing y → permits y0 = permits y →
  waiting y0 = W → (∀ p, p ∈ resizing y → id ≠ Some (resize_id p)) →
  match r with
  | (Ok o, s') => after o W (held (permits y)) s' ∧ keeps id (sch y) s'
  | (Raise e, s') => caller_error e = true ∧ ok s' W (held (permits y)) ∧ keeps id (sch y) s'
  end →
  leaves y (settle y0 r).
Proof.
  intros [Hc Hr Hz Hd] El E1 E2 E3 E4 Hid H.
  assert (∀ s, keeps id (sch y) s →
    Forall (λ p, growing s (resize_id p) (resize_to p) (resize_by p)) (resizing y)) as Hz' by (intros; by eapply resizing_keeps).
  destruct r as [[[[x|r]|x]|e] s].
  - destruct H as [Hok Hk]. split_and!; [|apply Hk|done]. split; simpl; rewrite ?E1 ?E2 ?E3 ?E4; auto.
    eapply ok_perm, Hok; [done|]. rewrite held_app /= (Permutation_app_comm (held _)) //.
  - destruct H as [Hok Hk]. split_and!; [|apply Hk|done]. split; simpl; rewrite ?E1 ?E2 ?E3 ?E4; auto.
  - destruct H as [Hok Hk]. split_and!; [|apply Hk|done]. split; simpl; rewrite ?E1 ?E2 ?E3 ?E4; auto.
    eapply ok_perm, Hok; [|done]. by rewrite Permutation_app_comm.
  - destruct H as (He & Hok & Hk). split_and!; [|apply Hk|by intros ? [= <-]].
    split; simpl; rewrite ?E1 ?E2 ?E3 ?E4; auto.
Qed.

Lemma waiting_delete (W : list hook) i x : W !! i = Some x → W ≡ₚ x :: delete i W.
Proof. intros H. by apply delete_Permutation. Qed.

Lemma run_acquire q rid li y :
  sys_ok y → unshared (Acquire q rid li) y = true → leaves y (run env (Acquire q rid li) y).
Proof.
  intros Hy Hs. simpl. destruct (match rid with Some id => issued id y | None => true end) eqn:Hu; [|by apply leaves_same].
  assert (∀ id, rid = Some id → is_Some (reservations (sch y) !! id)) as H1.
  { intros id ->. by apply issued_spec. }
  assert (∀ p, p ∈ resizing y → rid ≠ Some (resize_id p)) as H2.
  { destruct rid; [by apply unshared_spec|done]. }
  eapply (leaves_settle y y _ rid (waiting y)); try done.
  pose proof (wpx_acquire env q rid li _ _ _ (sys_calls _ Hy) H1) as H. rewrite /wpx in H.
  by destruct (acquire env q rid li (sch y)) as [[]].
Qed.

Lemma run_acquire_wakes i y : sys_ok y → leaves y (run env (Acquire_wakes i) y).
Proof.
  intros Hy. simpl. destruct (waiting y !! i) as [x|] eqn:Hx; [|by apply leaves_same].
  eapply (leaves_settle y _ _ None (delete i (waiting y))); try done.
  assert (ok (sch y) (x :: delete i (waiting y)) (held (permits y))) as Hok.
  { eapply ok_perm, Hy; [by apply waiting_delete|done]. }
  pose proof (wp_acquire_wake env x _ _ _ Hok) as H. rewrite /wp in H.
  destruct (acquire_wake env x (sch y)) as [[o|e] s]; [|done]. destruct H as [? ?]. split; [done|by apply keeps_same].
Qed.

Lemma run_release i y : sys_ok y → leaves y (run env (Release i) y).
Proof.
  intros Hy. simpl. destruct (permits y !! i) as [p|] eqn:Hp; [|by apply leaves_same].
  rewrite /release. destruct (permit_released p) eqn:Hr.
  { rewrite /mret /M_ret list_insert_id //. destruct y. by apply leaves_same. }
  assert (ok (sch y) (waiting y) (permit_item p :: held (<[i := {| permit_item := permit_item p; permit_released := true |}]> (permits y)))) as Hok.
  { eapply ok_perm, Hy; [done|by apply held_release]. }
  pose proof (wp_release_permit env _ _ _ _ Hok) as H. rewrite /wp in H. rewrite /mbind /M_bind.
  destruct (release_permit env (permit_item p) (sch y)) as [[[]|e] s]; [|done]. destruct H as [Hok' Hs].
  destruct Hy as [Hc Hrv Hz Hd]. split_and!; [|apply Hs|done]. split; try done.
  eapply resizing_keeps; [by apply (keeps_same None)|done|done].
Qed.

Lemma leaves_bytes {B} y (r : result (outcome B unit) * sched) (parked over : sched → system) :
  sys_ok y →
  match r with
  | (Ok (Waiting _), s) => lim (sch (parked s)) = lim (sch y) ∧ sys_ok (parked s)
  | (Ok (Returned _), s) => lim (sch (over s)) = lim (sch y) ∧ sys_ok (over s)
  | (Raise e, s) => caller_error e = true ∧ lim (sch (over s)) = lim (sch y) ∧ sys_ok (over s)
  end →
  leaves y (settle_bytes r parked over).
Proof.
  intros Hy H. destruct r as [[[b|[]]|e] s]; simpl.
  - by split_and!; [apply H..|].
  - by split_and!; [apply H..|].
  - destruct H as (He & H). split_and!; [apply H..|by intros ? [= <-]].
Qed.

Lemma keeps_all s s' ps :
  keeps None s s' → Forall (λ p, growing s (resize_id p) (resize_to p) (resize_by p)) ps →
  Forall (λ p, growing s' (resize_id p) (resize_to p) (resize_by p)) ps.
Proof. intros Hk. by eapply resizing_keeps. Qed.

Lemma NoDup_delete {A B} (f : A → B) (xs : list A) i : NoDup (f <$> xs) → NoDup (f <$> delete i xs).
Proof. intros H. eapply sublist_NoDup; [exact H|]. apply fmap_sublist, sublist_delete. Qed.

Lemma run_reserve n d y : sys_ok y → leaves y (run env (Reserve n d) y).
Proof.
  intros Hy. pose proof (wpx_reserve_bytes env n d _ _ _ (sys_calls _ Hy)) as H. rewrite /wpx in H. simpl.
  apply leaves_bytes; [done|]. destruct Hy as [Hc Hr Hz Hd].
  destruct (reserve_bytes env n d (sch y)) as [[[b|u]|e] s]; destruct H as (H1 & H2 & H3).
  - split; [apply H2|]. split; try done. by eapply keeps_all.
  - split; [apply H2|]. split; simpl; [done|by apply Forall_app; split; [|constructor]|by eapply keeps_all|done].
  - split; [done|]. split; [apply H3|]. split; try done. by eapply keeps_all; [apply keeps_same|].
Qed.

Lemma run_reserve_wakes i y : sys_ok y → leaves y (run env (Reserve_wakes i) y).
Proof.
  intros Hy. simpl. destruct (reserving y !! i) as [[n d]|] eqn:Hi; [|by apply leaves_same].
  apply leaves_bytes; [done|]. destruct Hy as [Hc Hr Hz Hd].
  assert (0 <= n) as Hn by by apply (Forall_lookup_1 _ _ _ _ Hr Hi).
  pose proof (wp_reserve_wake env n d _ _ _ Hc Hn) as H. rewrite /wp in H.
  destruct (reserve_wake env n d (sch y)) as [[[b|u]|e] s]; [..|done]; destruct H as (H1 & H2); (split; [apply H2|]).
  - split; simpl; [done|by apply Forall_delete|by eapply keeps_all|done].
  - split; simpl; [done..|by eapply keeps_all|done].
Qed.

Lemma run_resize id n d y :
  sys_ok y → unshared (Resize id n d) y = true → leaves y (run env (Resize id n d) y).
Proof.
  intros Hy Hs. pose proof (unshared_spec _ _ Hs) as Hother. simpl. destruct (issued id y) eqn:Hu; [|by apply leaves_same].
  pose proof (issued_spec _ _ Hu) as Hsome.
  apply leaves_bytes; [done|]. destruct Hy as [Hc Hr Hz Hd].
  pose proof (wpx_resize env id n d _ _ _ Hc Hsome) as H. rewrite /wpx in H.
  destruct (resize env id n d (sch y)) as [[[b|[]]|e] s]; destruct H as (H1 & H2 & H3).
  - split; [apply H2|]. split; try done. by eapply resizing_keeps.
  - split; [apply H2|]. destruct (H3 eq_refl) as (r & Hres & Hg). split; simpl; try done.
    + apply Forall_app. split; [by eapply resizing_keeps|]. constructor; [|done]. simpl. by rewrite Hres.
    + rewrite fmap_app. apply NoDup_app. split_and!; [done| |apply NoDup_singleton].
      intros j (p & -> & Hp)%list_elem_of_fmap Hj%list_elem_of_singleton. simpl in Hj. apply (Hother p Hp). congruence.
  - split; [done|]. split; [apply H3|]. split; try done. by eapply keeps_all; [apply keeps_same|].
Qed.

Lemma run_resize_wakes i y : sys_ok y → leaves y (run env (Resize_wakes i) y).
Proof.
  intros Hy. simpl. destruct (resizing y !! i) as [p|] eqn:Hi; [|by apply leaves_same].
  apply leaves_bytes; [done|]. destruct Hy as [Hc Hr Hz Hd].
  pose proof (Forall_lookup_1 _ _ _ _ Hz Hi) as Hg. simpl in Hg.
  assert (∀ q, q ∈ delete i (resizing y) → Some (resize_id p) ≠ Some (resize_id q)) as Hother.
  { rewrite (delete_Permutation _ _ _ Hi) fmap_cons in Hd. apply NoDup_cons in Hd as [Hp _].
    intros q Hq [= E]. apply Hp. rewrite E. apply list_elem_of_fmap. eauto. }
  pose proof (wp_grow env _ _ _ (resize_deadline p) _ _ _ Hc Hg) as H. rewrite /wp in H. rewrite /resize_wake.
  assert (∀ s, keeps (Some (resize_id p)) (sch y) s →
    Forall (λ p, growing s (resize_id p) (resize_to p) (resize_by p)) (delete i (resizing y))) as Hrest.
  { intros s Hk. eapply resizing_keeps; [done..|]. by apply Forall_delete. }
  match type of H with match ?r with _ => _ end => destruct r as [[[b|[]]|e] s] end; [..|done]; destruct H as (H1 & H2 & H3); (split; [apply H2|]).
  - split; simpl; [done..|by apply Hrest|by apply NoDup_delete].
  - split; simpl; try done. rewrite (delete_Permutation _ _ _ Hi). constructor; auto.
Qed.

Lemma run_release_reservation id y :
  sys_ok y → unshared (Release_reservation id) y = true → leaves y (run env (Release_reservation id) y).
Proof.
  intros Hy Hs. pose proof (unshared_spec _ _ Hs) as Hother. simpl. destruct (issued id y) eqn:Hu; [|by apply leaves_same].
  pose proof (issued_spec _ _ Hu) as Hsome.
  pose proof (wp_release_reservation id _ _ _ (sys_calls _ Hy) Hsome) as H. rewrite /wp in H.
  destruct (release_reservation id (sch y)) as [[[]|e] s]; [|done]. destruct H. by eapply leaves_sched.
Qed.

Lemma run_set_active_limit n y : sys_ok y → leaves y (run env (Set_active_limit n) y).
Proof.
  intros Hy. simpl. pose proof (wpx_set_active_limit env n _ _ _ (sys_calls _ Hy)) as H. rewrite /wpx in H.
  destruct (set_active_limit env n (sch y)) as [[[]|e] s].
  - destruct H. by eapply (leaves_sched _ _ _ None); [|apply keeps_same|..].
  - destruct H as (He & Hok & Hs). eapply (leaves_sched _ _ _ None); [done|by apply keeps_same|done|done|]. by intros ? [= <-].
Qed.

(** Every critical section keeps the system consistent. *)
Lemma run_ok e y : sys_ok y → unshared e y = true → leaves y (run env e y).
Proof.
  destruct e; intros Hy Hs.
  - by apply run_acquire.
  - by apply run_acquire_wakes.
  - by apply run_release.
  - by apply run_reserve.
  - by apply run_reserve_wakes.
  - by apply run_resize.
  - by apply run_resize_wakes.
  - by apply run_release_reservation.
  - by apply run_set_active_limit.
  - eapply (leaves_sched _ _ _ None); try done. apply ok_count, Hy.
  - eapply (leaves_sched _ _ _ None); try done. eapply ok_ext, Hy; try done. apply Hy.
Qed.

(** Calls in an order in which no reservation is shared. *)
Fixpoint unshared_calls (es : list event) (y : system) : bool :=
  match es with
  | [] => true
  | e :: es => unshared e y && unshared_calls es (run env e y).2
  end.

Lemma trace_ok es : ∀ y,
  sys_ok y → unshared_calls es y = true → sys_ok (trace env es y) ∧ lim (sch (trace env es y)) = lim (sch y).
Proof.
  rewrite /trace. induction es as [|e es IH]; intros y Hy Hs; [done|]. simpl in *.
  apply andb_true_iff in Hs as [He Hs]. destruct (run_ok e y Hy He) as (Hy' & El & _).
  destruct (IH _ Hy' Hs) as [? E]. split; [done|congruence].
Qed.

Lemma initial_ok l n s : make_RuntimeHookScheduler l n = Ok s → sys_ok (initial s) ∧ lim s = l.
Proof.
  rewrite /make_RuntimeHookScheduler /raise_if. destruct (_ || _) eqn:Hpos; [done|]. simpl. intros [= <-].
  apply orb_false_iff in Hpos as [Hn Hpos]. apply Z.ltb_ge in Hn. simpl in Hpos.
  repeat (apply orb_false_iff in Hpos as [?%Z.ltb_ge Hpos]). clear Hpos. split; [|done].
  split; [|by constructor..]. split; simpl; try done; try (by intros ? ?%elem_of_nil).
  - split; [split; [intros; apply lane_ok_nil|done]|]. split; simpl; try done; apply counter_nil.
  - split; simpl; [lia|done].
  - split; simpl; try (intros; rewrite /count /=); lia.
  - constructor.
Qed.

(** ** Theorems *)

(** The hooks that wait, those that run and the bytes reserved, seen from
    the callers. *)
Definition waiting_hooks (y : system) : list hook := still_queued (sch y) (waiting y).
Definition running_hooks (y : system) : list hook := held (permits y) ++ now_running (sch y) (waiting y).
Definition reserved (y : system) : Z := live_bytes (reservations (sch y)).

Definition reachable (l : limits) (n : Z) (y : system) : Prop :=
  ∃ s es, make_RuntimeHookScheduler l n = Ok s ∧ unshared_calls es (initial s) = true
          ∧ y = trace env es (initial s).

Lemma reachable_ok l n y : reachable l n y → sys_ok y ∧ lim (sch y) = l.
Proof.
  intros (s & es & Hs & Hu & ->). destruct (initial_ok _ _ _ Hs) as [Hy El]. destruct (trace_ok es _ Hy Hu) as [? E].
  split; [done|]. by rewrite E.
Qed.

Lemma reachable_limits l n y : reachable l n y → 1 <= per_harness_active_limit l.
Proof.
  intros (s & _ & Hs & _). rewrite /make_RuntimeHookScheduler /raise_if in Hs.
  destruct (_ || _) eqn:Hpos; [done|]. apply orb_false_iff in Hpos as [_ Hpos]. simpl in Hpos.
  apply orb_false_iff in Hpos as [?%Z.ltb_ge _]. lia.
Qed.


(** What a dispatch in a reachable state does to the calls that wait. *)
Lemma dispatch_reachable l n y :
  reachable l n y →
  ∃ s' E D N, dispatch env (sch y) = (Ok tt, s')
    ∧ dispatches (sch y) (waiting_hooks y) (running_hooks y) (reserved y) E D N (still_queued s' (waiting y)) s'
    ∧ held (permits y) ++ now_running s' (waiting y) ≡ₚ N ++ running_hooks y.
Proof.
  intros Hr. destruct (reachable_ok _ _ _ Hr) as [Hy _]. pose proof (sys_calls _ Hy) as [Hh Hlo _ _ Hnd _ Hp _ _ _].
  assert (NoDup (sequence <$> waiting_hooks y)) as Hnd'.
  { apply NoDup_fmap_filter. rewrite fmap_app in Hnd. by apply NoDup_app in Hnd as (? & _ & _). }
  destruct (wp_Ok _ _ _ (wp_dispatch env _ _ _ _ Hh Hlo Hnd')) as ([] & s' & Hs' & E & D & N & Q' & Hd).
  exists s', E, D, N. pose proof (dp_split _ _ _ _ _ _ _ _ _ Hd) as Hsp. rewrite (app_assoc E) in Hsp.
  pose proof (settles_calls _ _ _ _ _ _ _ (dp_settles _ _ _ _ _ _ _ _ _ Hd) Hnd Hsp Hp) as (HQ & HA & _).
  split_and!; [done| |done]. destruct Hd as [Hsp' Hh' Hst Hl Hlim Hhar Hsh Hff Hb]. split; try done.
  - by rewrite /waiting_hooks Hsp' HQ.
  - by eapply holds_perm, Hh'.
  - intros c z Hz. apply Hsh. by rewrite -HQ.
  - intros x Hx z Hz. apply Hff; [done|]. by rewrite -HQ.
  - intros HD Hlt k. intros k' x more Hin. pose proof (Hb HD Hlt k k' x more Hin) as [?|[(z & Hz & Hne) ?]]; [by left|].
    right. split; [|done]. exists z. by rewrite HQ.
Qed.

Definition refused (s : sched) (x : hook) : Prop :=
  fates s !! sequence x = Some (Rejected_for daemon_hook_deadline_exhausted).

(** C21: Under the conditions of [scheduler_exact] (no cancellation event is
    set while a critical section runs, and no call uses a reservation on which a
    resize waits), a dispatch returns in every reachable state.  It admits no hook
    beyond the active limit; while another client waits, it gives a client no
    slot beyond half of the limit; and it leaves no slot unused without need:
    when it refused no hook for its deadline and slots are free, the first hook
    of every group has to wait for its harness, or for its client's share. *)
Theorem dispatch_fair l n y :
  reachable l n y →
  ∃ s', dispatch env (sch y) = (Ok tt, s')
    ∧ let A := running_hooks y in
      let Q' := still_queued s' (waiting y) in
      let A' := held (permits y) ++ now_running s' (waiting y) in
      Z.of_nat (length A') <= Z.max (Z.of_nat (length A)) (active_limit (sch y))
      ∧ (∀ c z, z ∈ Q' → client_key z ≠ c →
           count c (client_key <$> A') <= Z.max (count c (client_key <$> A)) (active_share_limit (sch y)))
      ∧ ((∃ x, x ∈ waiting_hooks y ∧ refused s' x) ∨ active_limit (sch y) <= Z.of_nat (length A')
         ∨ ∀ x, head_of (queues s') x → must_wait s' Q' A' x).
Proof.
  intros Hr. destruct (dispatch_reachable _ _ _ Hr) as (s' & E & D & N & Hs' & Hd & HA). exists s'. split; [done|].
  simpl. split_and!; [rewrite HA; apply Hd| |].
  - intros c z Hz Hne. rewrite HA. by eapply (dp_share _ _ _ _ _ _ _ _ _ Hd).
  - destruct D as [|x D].
    + right. destruct (Z.lt_ge_cases (Z.of_nat (length (N ++ running_hooks y))) (active_limit (sch y))) as [Hlt|?];
        [|left; by rewrite HA].
      right. intros x [more Hx%group_get_in].
      destruct (dp_busy _ _ _ _ _ _ _ _ _ Hd eq_refl Hlt _ _ _ _ Hx) as [?|?]; [left|right]; by rewrite ?HA.
    + left. exists x. split.
      * rewrite (dp_split _ _ _ _ _ _ _ _ _ Hd). set_solver.
      * apply (st_rejected _ _ _ _ (dp_settles _ _ _ _ _ _ _ _ _ Hd)). set_solver.
Qed.

(** Hooks that wait while none runs do not all have to wait. *)
Lemma some_head_free s Q R :
  holds s [] Q [] R → Q ≠ [] → 1 <= per_harness_active_limit (lim s) → ¬ ∀ l, all_wait s Q [] (queues s l).
Proof.
  intros [Hl _] HQ Hlim Hall. destruct Q as [|x Q]; [done|].
  destruct (item_group _ _ x Hl ltac:(left)) as (items & Hget & Hin). destruct items as [|z more]; [by apply elem_of_nil in Hin|].
  destruct (Hall _ _ _ _ (group_get_in _ _ _ Hget)) as [Hf|[_ Hf]].
  - simpl in Hf. rewrite /count /= in Hf. lia.
  - rewrite /count /= /active_share_limit in Hf. lia.
Qed.

(** C33: Under the conditions of [scheduler_exact] (no cancellation event is
    set while a critical section runs, and no call uses a reservation on which a
    resize waits) the queue never stalls: when no hook runs, some hook waits and the
    active limit is positive, a dispatch returns and settles at least one of
    the waiting hooks, which is admitted or refused for its deadline. *)
Theorem idle_scheduler_progresses l n y :
  reachable l n y → running_hooks y = [] → waiting_hooks y ≠ [] → 1 <= active_limit (sch y) →
  ∃ s' x, dispatch env (sch y) = (Ok tt, s') ∧ x ∈ waiting_hooks y
    ∧ (refused s' x ∨ ∃ t, fates s' !! sequence x = Some (Admitted_at t)).
Proof.
  intros Hr HA HQ Hlim. destruct (dispatch_reachable _ _ _ Hr) as (s' & E & D & N & Hs' & Hd & HA').
  exists s'. pose proof (dp_split _ _ _ _ _ _ _ _ _ Hd) as Hsp. pose proof (dp_settles _ _ _ _ _ _ _ _ _ Hd) as Hst.
  destruct (E ++ D) as [|x ED] eqn:HED; [destruct N as [|x N]|].
  - exfalso. apply app_eq_nil in HED as [-> ->]. simpl in Hsp. destruct Hd as [_ Hh _ _ _ _ _ _ Hb]. rewrite HA in Hh Hb.
    eapply some_head_free; [exact Hh| | |].
    + intros E. apply HQ. apply Permutation_nil_r. by rewrite Hsp E.
    + rewrite (st_lim _ _ _ _ Hst). destruct (reachable_ok _ _ _ Hr) as [_ ->]. by eapply reachable_limits.
    + apply Hb; [done|]. simpl. lia.
  - exists x. split_and!; [done|rewrite Hsp; set_solver|]. right. apply (st_admitted _ _ _ _ Hst). by left.
  - exists x. split_and!; [done|rewrite Hsp app_assoc HED; by left|]. left. apply (st_rejected _ _ _ _ Hst). by left.
Qed.

(** Selecting the next hook returns; the hooks it takes off the queue are
    those it refuses for their deadline and the one it selects, which need not
    wait for its harness or its client's share and is the first of its group.
    A hook that heads its group and has waited for half a second is not
    overtaken: the hook selected is no younger, unless the old one is refused
    for its deadline or has to wait for its harness or its client's share. *)
Theorem aged_not_overtaken s Q A R :
  holds s [] Q A R → lanes_ok s →
  ∃ o s' D Q', next_item env s = (Ok o, s') ∧ Q ≡ₚ D ++ option_list o ++ Q'
    ∧ (∀ x, x ∈ D → refused s' x)
    ∧ (∀ x, o = Some x → ¬ must_wait s Q' A x ∧ first_of x Q')
    ∧ (∀ z, head_of (queues s) z → AGE_BOOST <= clock env (reads s) - queued_at z →
         refused s' z ∨ must_wait s Q A z ∨ ∃ x, o = Some x ∧ sequence x <= sequence z).
Proof.
  intros Hh Hlo. destruct (wp_Ok _ _ _ (wp_next_item env s Q A R Hh Hlo)) as (o & s' & Hs' & D & Q' & Hp & _ & Hage & _).
  exists o, s', D, Q'. destruct Hp as [Hsp _ Hev Hfree]. split_and!; try done; [apply Hev|].
  intros z Hz Ht. destruct (Hage z Hz Ht) as [?|?]; [left; by apply Hev|by right].
Qed.

End system.

(** ** Instances *)

Notation sample_limits :=
  {| per_harness_active_limit := 2; queued_limit := 8; per_harness_queued_limit := 6;
     per_client_queued_limit := 6; retained_bytes_limit := 100 |}.
Notation sample_request h c l d :=
  {| req_harness := h; req_client := c; req_lane := l; req_bytes := 10; req_deadline := inl d;
     req_cancellation := Some 1%nat; req_payload := None |}.
Definition sample_env : environment := {| clock := λ n, Z.of_nat n * 1000; cancels := λ _, ∅ |}.
Global Instance sample_undisturbed : Undisturbed sample_env.
Proof. done. Qed.
(** Two hooks run and two wait; then one is released, a call is cancelled
    and a reservation is made. *)
Notation sample_events :=
  [Acquire (sample_request ($"pi") ($"a") decision 10000000000) None None;
   Acquire (sample_request ($"pi") ($"a") decision 10000000000) None None;
   Acquire (sample_request ($"pi") ($"a") decision 10000000000) None None;
   Acquire (sample_request ($"omp") ($"b") evidence 10000000000) None None;
   Release 0; Acquire_wakes 1; Cancel 1; Acquire_wakes 0; Reserve 20 9000000000].
Definition sample_sched : sched :=
  match make_RuntimeHookScheduler sample_limits 2 with
  | Ok s => s
  | Raise _ => {| lim := sample_limits; active_limit := 0; queues := λ _, []; last_sequence := 0; lane_cursor := 0;
                  lane_deficits := λ _, 0;
                  tal := {| queued := 0; queued_by_harness := ∅; queued_by_client := ∅; active := 0;
                            active_by_harness := ∅; active_by_client := ∅; retained_bytes := 0 |};
                  met := {| admitted := 0; completed := 0; expired := 0; cancelled := 0; retries := 0;
                            rejected := λ _, 0; queue_wait_samples := []; service_time_samples := [];
                            queue_wait_by_lane := λ _, []; service_time_by_lane := λ _, [] |};
                  fates := ∅; set_events := ∅; reservations := []; reads := 0; polls := 0 |}
  end.

Lemma sample_reachable es :
  unshared_calls sample_env es (initial sample_sched) = true →
  reachable sample_env sample_limits 2 (trace sample_env es (initial sample_sched)).
Proof. by exists sample_sched, es. Qed.

Notation sample_system := (trace sample_env sample_events (initial sample_sched)).


Lemma dispatch_fair_witness :
  ∃ s', dispatch sample_env (sch sample_system) = (Ok tt, s')
    ∧ Z.of_nat (length (held (permits sample_system) ++ now_running s' (waiting sample_system))) <= 2.
Proof.
  destruct (dispatch_fair sample_env sample_limits 2 sample_system (sample_reachable sample_events eq_refl))
    as (s' & Hs' & Hl & _ & _).
  exists s'. split; [exact Hs'|]. etransitivity; [exact Hl|]. vm_compute. discriminate.
Defined.

(** Four hooks that cannot finish in time are refused by one selection, and
    the fifth is left to the next dispatch. *)
Notation late_events :=
  [Set_active_limit 0;
   Acquire (sample_request ($"pi") ($"a") decision 500000000) None None;
   Acquire (sample_request ($"pi") ($"a") decision 500000000) None None;
   Acquire (sample_request ($"pi") ($"a") decision 500000000) None None;
   Acquire (sample_request ($"pi") ($"a") decision 500000000) None None;
   Acquire (sample_request ($"pi") ($"a") decision 10000000000) None None;
   Set_active_limit 1].
Notation late_system := (trace sample_env late_events (initial sample_sched)).

Lemma idle_scheduler_progresses_witness :
  ∃ s' x, dispatch sample_env (sch late_system) = (Ok tt, s') ∧ x ∈ waiting_hooks late_system
    ∧ (refused s' x ∨ ∃ t, fates s' !! sequence x = Some (Admitted_at t)).
Proof.
  apply (idle_scheduler_progresses sample_env sample_limits 2 late_system (sample_reachable late_events eq_refl)).
  - vm_compute. reflexivity.
  - vm_compute. discriminate.
  - vm_compute. discriminate.
Defined.

(** A clock on which the two waiting hooks have waited for seconds. *)
Definition slow_env : environment := {| clock := λ n, Z.of_nat n * 100000000; cancels := λ _, ∅ |}.
Global Instance slow_undisturbed : Undisturbed slow_env.
Proof. done. Qed.
Notation slow_system := (trace slow_env (take 4 sample_events) (initial sample_sched)).

Lemma aged_not_overtaken_witness :
  sequence <$> waiting_hooks slow_system = [3; 4]
  ∧ ∃ o s', next_item slow_env (sch slow_system) = (Ok o, s')
    ∧ ∀ z, head_of (queues (sch slow_system)) z →
        AGE_BOOST <= clock slow_env (reads (sch slow_system)) - queued_at z →
        refused s' z ∨ must_wait (sch slow_system) (waiting_hooks slow_system) (running_hooks slow_system) z
        ∨ ∃ x, o = Some x ∧ sequence x <= sequence z.
Proof.
  split; [vm_compute; reflexivity|].
  destruct (reachable_ok slow_env sample_limits 2 slow_system) as [Hy _].
  { exists sample_sched, (take 4 sample_events). split_and!; reflexivity. }
  destruct (aged_not_overtaken slow_env (sch slow_system) (waiting_hooks slow_system) (running_hooks slow_system)
    (reserved slow_system)) as (o & s' & D & Q' & Ho & _ & _ & _ & H).
  - apply (sys_calls _ Hy).
  - apply (sys_calls _ Hy).
  - exists o, s'. split; [exact Ho|exact H].
Defined.

(** ** A cancellation in the middle of an expiry *)

(** The event 1 is set between the two questions of [_expire_waiters] about
    the one hook that is queued.  Readings 0 to 2 are those of [acquire], 3 and 4
    those of the expiry. *)
Definition racing_env : environment :=
  {| clock := λ n, Z.of_nat n * 1000; cancels := λ n, if (n =? 4)%nat then {[1%nat]} else ∅ |}.

(** One call waits for a slot; the next expiry is disturbed. *)
Notation waiting_system :=
  (trace racing_env [Set_active_limit 0; Acquire (sample_request ($"pi") ($"a") decision 10000000000) None None]
     (initial sample_sched)).

(** A hook whose cancellation is set between the two questions of
    [_expire_waiters] is dropped from the counters and kept in its lane: the
    scheduler then counts no waiting hook while one is queued, and every
    dispatch from then on raises [KeyError]. *)
Theorem cancellation_race_corrupts :
  let s := sch waiting_system in
  let s' := (expire_waiters racing_env s).2 in
  queued (tal s) = 1 ∧ sequence <$> (queues s decision ≫= snd) = [1]
  ∧ queued (tal s') = 0 ∧ sequence <$> (queues s' decision ≫= snd) = [1]
  ∧ (dispatch racing_env s').1 = Raise (KeyError (show ($"pi")))
  ∧ (dispatch racing_env (dispatch racing_env s').2).1 = Raise (KeyError (show ($"pi"))).
Proof. vm_compute. repeat split. Qed.

End SchedulerSystem.
