(* ===== verification/HookCapacity.v ===== *)
(** * Capacity of the hook worker processes

    Models [daemon/hook_process_capacity.py]: how many hook workers the daemon
    aims at.  [HookCapacity] holds the reading of the machine's limits, the
    memory of the process tree, the scaling policy and the locked wrapper
    around it.

    Times are integer nanoseconds and ratios integer billionths; what the code
    reads from outside (files, [sysconf], the load average, the output of [ps],
    the clock) is an argument.  [decimal] gives the digits [int] accepts.

    The theorems: the target moves by one at a time, between two workers and
    the maximum, and only for a reason that lasted ([scaling_justified]); the
    memory summed is that of the process tree ([tree_memory_exact]). *)

From S2P Require Import Prelude PyStr JsSemver.
Local Open Scope Z_scope.
Local Open Scope py_scope.

Module HookCapacity.

Definition seconds (n : Z) : Z := n * 1000000000.

Definition MIN_WORKERS : Z := 2.
Definition MAX_WORKERS : Z := 16.
Definition MAX_INITIAL_WORKERS : Z := 2.
Definition PRESSURE_SECONDS : Z := seconds 10.
Definition IDLE_SECONDS : Z := seconds 300.
Definition SPAWN_INTERVAL_SECONDS : Z := seconds 1.
Definition QUEUE_P95_SCALE_THRESHOLD_SECONDS : Z := 200000000.
Definition CPU_SCALE_CEILING : Z := 800000000.
Definition FAILURE_RATE_SCALE_CEILING : Z := 10000000.
Definition MEMORY_FLOOR_BYTES : Z := 512 * 1024 * 1024.
Definition MEMORY_CAP_BYTES : Z := 1536 * 1024 * 1024.

Definition backfill_window_after_capacity_enable (now delay active_deferral current_not_before current_force_after : Z)
    : Z * Z :=
  let requested_not_before := now + Z.max 0 delay in
  if delay <=? 0 then (current_not_before, Z.max current_force_after (now + active_deferral))
  else
    let not_before := Z.max current_not_before requested_not_before in
    (not_before, Z.max current_force_after (not_before + active_deferral)).

(** ** Limits of the machine *)

Section limits.
Context `{PyDecimal}.

(** The digits of [int(text)], single underscores between them. *)
Fixpoint int_digits (n : Z) (after_digit : bool) (s : pystr) : option Z :=
  match s with
  | [] => if after_digit then Some n else None
  | c :: s =>
      match decimal c with
      | Some d => int_digits (n * 10 + d) true s
      | None => if (c =? 95) && after_digit then int_digits n false s else None
      end
  end.
Definition MAX_INT_DIGITS : nat := 4300.
(** [int(text)]; [None] where it raises [ValueError]. *)
Definition int_of_text (text : pystr) : option Z :=
  let body (s : pystr) :=
    let digits := length (filter (λ c : Z, c ≠ 95) (s : list Z)) in
    if (MAX_INT_DIGITS <? digits)%nat then None else int_digits 0 false s in
  match strip text with
  | 43 :: s => body s
  | 45 :: s => Z.opp <$> body s
  | s => body s
  end.

(** [_read_text], of the decoded content of a file that could be read. *)
Definition read_text (content : option pystr) : option pystr :=
  text ← content ; match strip text with [] => None | value => Some value end.
Definition positive_int (value : option pystr) : option Z :=
  parsed ← int_of_text (default [] value) ; if 0 <? parsed then Some parsed else None.
(** [ceil(quota / period)] of positive integers; the division rounds to a
    double, which changes nothing for a quota below 2^52. *)
Definition ceil_div (quota period : Z) : Z := - (- quota / period).

Definition cgroup_cpu_count (cpu_max cpu_quota cpu_period : option pystr) : option Z :=
  let v1 :=
    quota ← positive_int (read_text cpu_quota) ; period ← positive_int (read_text cpu_period) ;
    Some (Z.max 1 (ceil_div quota period)) in
  match read_text cpu_max with
  | Some text =>
      match split_ws text with
      | [q; p] =>
          if bool_decide (q = $"max") then v1
          else
            match positive_int (Some q), positive_int (Some p) with
            | Some quota, Some period => Some (Z.max 1 (ceil_div quota period))
            | _, _ => v1
            end
      | _ => v1
      end
  | None => v1
  end.

(** [effective_cpu_count]: [os_count] is [os.cpu_count()]. *)
Definition effective_cpu_count (cpu_count os_count : option Z) (cpu_max cpu_quota cpu_period : option pystr) : Z :=
  let host_count := Z.max 1 (match cpu_count with
                             | Some n => n
                             | None => match os_count with Some 0 | None => MIN_WORKERS | Some n => n end
                             end) in
  match cpu_count with
  | Some _ => host_count
  | None =>
      match cgroup_cpu_count cpu_max cpu_quota cpu_period with
      | Some constrained => Z.min host_count constrained
      | None => host_count
      end
  end.

Definition initial_hook_worker_target (cpus : Z) : Z := Z.min MAX_INITIAL_WORKERS (Z.max MIN_WORKERS cpus).

Definition default_hook_worker_memory_ceiling (physical_memory_bytes : Z) : result Z :=
  raise_if (physical_memory_bytes <=? 0) (ValueError "physical_memory_bytes must be positive") ;;
  Ok (Z.min MEMORY_CAP_BYTES (Z.max MEMORY_FLOOR_BYTES (physical_memory_bytes / 5))).

Definition cgroup_memory_limit_bytes (memory_max memory_v1 : option pystr) : option Z :=
  let limit content :=
    let value := read_text content in
    if bool_decide (value = Some ($"max")) then None else positive_int value in
  match limit memory_max with Some n => Some n | None => limit memory_v1 end.

(** [physical_memory_bytes]: the page size and count of [sysconf], where they
    are known. *)
Definition physical_memory_bytes (pages : option (Z * Z)) (memory_max memory_v1 : option pystr) : option Z :=
  let cgroup_limit := cgroup_memory_limit_bytes memory_max memory_v1 in
  match pages with
  | None => cgroup_limit
  | Some (page_size, page_count) =>
      let total := page_size * page_count in
      if 0 <? total then
        Some (match cgroup_limit with Some limit => Z.min total limit | None => total end)
      else cgroup_limit
  end.

(** ** Memory of the process tree *)

(** [str.splitlines]; a line end that closes the text opens no line. *)
Definition is_line_end (c : Z) : bool :=
  in_range 10 13 c || in_range 28 30 c || (c =? 133) || (c =? 8232) || (c =? 8233).
Fixpoint splitlines_aux (s line : pystr) : list pystr :=
  match s with
  | [] => match line with [] => [] | _ => [reverse line] end
  | 13 :: 10 :: s => reverse line :: splitlines_aux s []
  | c :: s => if is_line_end c then reverse line :: splitlines_aux s [] else splitlines_aux s (c :: line)
  end.
Definition splitlines (s : pystr) : list pystr := splitlines_aux s [].

(** A row of [ps -axo pid=,ppid=,rss=]. *)
Record process_row := { row_pid : Z; row_ppid : Z; row_rss_kib : Z }.
Definition process_row_of (line : pystr) : option process_row :=
  match split_ws line with
  | [a; b; c] =>
      pid ← int_of_text a ; ppid ← int_of_text b ; rss ← int_of_text c ;
      Some {| row_pid := pid; row_ppid := ppid; row_rss_kib := rss |}
  | _ => None
  end.

(** One turn of the loop, and the loop: it ends when nothing was added. *)
Definition expand (rows : list process_row) (included : gset Z) : gset Z :=
  included ∪ list_to_set (row_pid <$> filter (λ r, row_ppid r ∈ included) rows).
Fixpoint descendants (fuel : nat) (rows : list process_row) (included : gset Z) : option (gset Z) :=
  match fuel with
  | O => None
  | S fuel =>
      let expanded := expand rows included in
      if bool_decide (expanded = included) then Some included else descendants fuel rows expanded
  end.

Definition sum_of (l : list Z) : Z := foldr Z.add 0 l.
(** The part of [process_tree_rss_bytes] after [ps] answered; the fuel is a
    turn more than there are rows. *)
Definition tree_rss (rows : list process_row) (roots : gset Z) : option Z :=
  if negb (bool_decide (roots ⊆ list_to_set (row_pid <$> rows))) then None
  else
    included ← descendants (S (length rows)) rows roots ;
    Some (sum_of (row_rss_kib <$> filter (λ r, row_pid r ∈ included) rows) * 1024).

(** [process_tree_rss_bytes]: [ps] is the output of the trusted [ps], where it
    answered with code 0; [posix] says the system is not Windows. *)
Definition process_tree_rss_bytes (process_ids : list Z) (posix : bool) (ps : option pystr) : option Z :=
  let roots := filter (λ p, 0 < p) process_ids in
  if bool_decide (roots = []) || negb posix then None
  else output ← ps ; tree_rss (omap process_row_of (splitlines output)) (list_to_set roots).

End limits.

(** ** The policy *)

Definition validate_hook_worker_limit (value : Z) : result Z :=
  raise_if (negb ((MIN_WORKERS <=? value) && (value <=? MAX_WORKERS)))
    (ValueError "hook worker limit must be between 2 and 16") ;;
  Ok value.

Record HookProcessLoad := {
  queue_p95_seconds : Z;
  queued : Z;
  cpu_ratio : option Z;
  rss_bytes : option Z;
  failure_rate : Z;
}.
Record HookProcessCapacityPolicy := {
  target : Z;
  maximum_target : Z;
  memory_ceiling_bytes : Z;
  pressure_since : option Z;
  idle_since : option Z;
  last_scale_up : option Z;
}.

Definition make_HookProcessCapacityPolicy (initial_target maximum memory_ceiling : Z)
    : result HookProcessCapacityPolicy :=
  initial_target ← validate_hook_worker_limit initial_target ;
  maximum ← validate_hook_worker_limit maximum ;
  raise_if (maximum <? initial_target) (ValueError "initial hook worker target exceeds maximum") ;;
  raise_if (memory_ceiling <=? 0) (ValueError "hook worker memory ceiling must be positive") ;;
  Ok {| target := initial_target; maximum_target := maximum; memory_ceiling_bytes := memory_ceiling;
        pressure_since := None; idle_since := None; last_scale_up := None |}.

Definition below (v : option Z) (ceiling : Z) : bool := match v with Some x => x <? ceiling | None => false end.
Definition pressured (ceiling : Z) (load : HookProcessLoad) : bool :=
  (0 <? queued load) && (QUEUE_P95_SCALE_THRESHOLD_SECONDS <? queue_p95_seconds load)
  && below (cpu_ratio load) CPU_SCALE_CEILING && below (rss_bytes load) ceiling
  && (failure_rate load <? FAILURE_RATE_SCALE_CEILING).

(** [HookProcessCapacityPolicy.observe]: the policy after it; it returns the
    target. *)
Definition observe (now : Z) (load : HookProcessLoad) (p : HookProcessCapacityPolicy) : HookProcessCapacityPolicy :=
  if pressured (memory_ceiling_bytes p) load then
    let since := default now (pressure_since p) in
    let grow := (PRESSURE_SECONDS <=? now - since)
                && match last_scale_up p with Some t => SPAWN_INTERVAL_SECONDS <=? now - t | None => true end
                && (target p <? maximum_target p) in
    {| target := if grow then target p + 1 else target p; maximum_target := maximum_target p;
       memory_ceiling_bytes := memory_ceiling_bytes p; pressure_since := Some since; idle_since := None;
       last_scale_up := if grow then Some now else last_scale_up p |}
  else
    let '(target', idle') :=
      if queued load =? 0 then
        match idle_since p with
        | None => (target p, Some now)
        | Some t => if (IDLE_SECONDS <=? now - t) && (MIN_WORKERS <? target p) then (target p - 1, Some now)
                    else (target p, Some t)
        end
      else (target p, None) in
    {| target := target'; maximum_target := maximum_target p; memory_ceiling_bytes := memory_ceiling_bytes p;
       pressure_since := None; idle_since := idle'; last_scale_up := last_scale_up p |}.

(** ** The locked wrapper *)

Record AdaptiveHookProcessCapacity := {
  policy : HookProcessCapacityPolicy;
  load_p95 : Z;
  load_queued : Z;
}.
Definition make_AdaptiveHookProcessCapacity (initial_target maximum_target : Z) (memory_ceiling physical_memory : option Z)
    : result AdaptiveHookProcessCapacity :=
  ceiling ← match memory_ceiling with
            | Some c => Ok c
            | None => default_hook_worker_memory_ceiling
                        (match physical_memory with Some 0 | None => 4 * 1024 * 1024 * 1024 | Some n => n end)
            end ;
  p ← make_HookProcessCapacityPolicy initial_target maximum_target ceiling ;
  Ok {| policy := p; load_p95 := 0; load_queued := 0 |}.
Definition observe_load (queue_p95 queued : Z) (c : AdaptiveHookProcessCapacity) : AdaptiveHookProcessCapacity :=
  {| policy := policy c; load_p95 := Z.max 0 queue_p95; load_queued := Z.max 0 queued |}.
Definition refresh (now : Z) (cpu_ratio : option Z) (failure_rate : Z) (rss_bytes : option Z)
    (c : AdaptiveHookProcessCapacity) : AdaptiveHookProcessCapacity :=
  {| policy := observe now {| queue_p95_seconds := load_p95 c; queued := load_queued c; cpu_ratio := cpu_ratio;
                              rss_bytes := rss_bytes; failure_rate := failure_rate |} (policy c);
     load_p95 := load_p95 c; load_queued := load_queued c |}.

(** ** The process tree *)

(** [p] is a root, or a row gives it a parent that descends from one. *)
Inductive descends (rows : list process_row) (roots : gset Z) : Z → Prop :=
  | descends_root p : p ∈ roots → descends rows roots p
  | descends_row r : r ∈ rows → descends rows roots (row_ppid r) → descends rows roots (row_pid r).

Lemma elem_of_expand rows included p :
  p ∈ expand rows included ↔ p ∈ included ∨ ∃ r, r ∈ rows ∧ row_ppid r ∈ included ∧ p = row_pid r.
Proof.
  unfold expand. rewrite elem_of_union, elem_of_list_to_set, list_elem_of_fmap. setoid_rewrite list_elem_of_filter. naive_solver.
Qed.

Lemma filter_grows {A} (P Q : A → Prop) `{∀ x, Decision (P x), ∀ x, Decision (Q x)} (l : list A) x :
  (∀ y, P y → Q y) → x ∈ l → ¬ P x → Q x → (length (filter P l) < length (filter Q l))%nat.
Proof.
  intros HPQ Hx HP HQ. induction l as [|y l IH]; [by apply not_elem_of_nil in Hx|].
  assert (length (filter P l) <= length (filter Q l))%nat as Hle.
  { clear -HPQ. induction l as [|z l IH]; [done|]. rewrite !filter_cons. repeat case_decide; cbn; try lia. naive_solver. }
  rewrite !filter_cons. apply elem_of_cons in Hx as [->|Hx].
  - rewrite decide_False, decide_True by done. cbn. lia.
  - specialize (IH Hx). repeat case_decide; cbn; try lia. naive_solver.
Qed.

(** The loop ends, in the processes that descend from those it started with. *)
Lemma descendants_closed fuel rows included :
  (length rows < fuel + length (filter (λ r, row_pid r ∈ included) rows))%nat →
  ∃ t, descendants fuel rows included = Some t ∧ included ⊆ t ∧ expand rows t = t ∧ ∀ p, p ∈ t → descends rows included p.
Proof.
  revert included. induction fuel as [|fuel IH]; intros included Hfuel.
  - pose proof (length_filter (λ r, row_pid r ∈ included) rows). lia.
  - cbn [descendants]. case_bool_decide as He.
    + exists included. split; [done|]. split; [done|]. split; [done|]. apply descends_root.
    + assert (∃ p, p ∈ expand rows included ∧ p ∉ included) as (p & Hp & Hnew).
      { destruct (set_choose_or_empty (expand rows included ∖ included)) as [[p Hp%elem_of_difference]|Hempty]; [by exists p|].
        destruct He. apply set_eq. intros p. split; [|intros Hp; apply elem_of_expand; by left]. set_solver. }
      pose proof Hp as Hp'. apply elem_of_expand in Hp' as [?|(r & Hr & Hpar & ->)]; [done|].
      destruct (IH (expand rows included)) as (t & Ht & Hsub & Hcl & Hd).
      { enough (length (filter (λ r, row_pid r ∈ included) rows) < length (filter (λ r, row_pid r ∈ expand rows included) rows))%nat
          by lia.
        apply (filter_grows _ _ _ r); try done. intros y Hy. apply elem_of_expand. by left. }
      exists t. split; [done|]. split; [|split; [done|]].
      * etrans; [|exact Hsub]. intros q Hq. apply elem_of_expand. by left.
      * intros q Hq%Hd. clear -Hq Hr Hpar. induction Hq as [q Hin|r' Hr' _ IHd]; [|by apply descends_row].
        apply elem_of_expand in Hin as [?|(r' & Hr' & Hin & ->)]; [by apply descends_root|].
        by apply descends_row, descends_root.
Qed.

Lemma tree_rss_exact rows roots :
  (¬ roots ⊆ list_to_set (row_pid <$> rows) ∧ tree_rss rows roots = None)
  ∨ (roots ⊆ list_to_set (row_pid <$> rows)
     ∧ ∃ included : gset Z, (∀ p, p ∈ included ↔ descends rows roots p)
       ∧ tree_rss rows roots = Some (sum_of (row_rss_kib <$> filter (λ r, row_pid r ∈ included) rows) * 1024)).
Proof.
  unfold tree_rss. case_bool_decide as Hr; [right|left; done]. split; [done|].
  destruct (descendants_closed (S (length rows)) rows roots) as (t & -> & Hsub & Hcl & Hd); [lia|].
  exists t. split; [|done]. intros p. split; [apply Hd|].
  induction 1 as [p Hp|r Hrow _ IH]; [by apply Hsub|]. rewrite <- Hcl. apply elem_of_expand. eauto.
Qed.

Section process_table.
Context `{PyDecimal}.

(** The rows a printed table stands for: a line of three fields that are
    integers is the row of the process, its parent and its memory; every other
    line is passed over. *)
Inductive prints : list pystr → list process_row → Prop :=
  | prints_nothing : prints [] []
  | prints_row line lines rows a b c pid ppid rss :
      split_ws line = [a; b; c] → int_of_text a = Some pid → int_of_text b = Some ppid → int_of_text c = Some rss →
      prints lines rows →
      prints (line :: lines) ({| row_pid := pid; row_ppid := ppid; row_rss_kib := rss |} :: rows)
  | prints_other line lines rows :
      (¬ ∃ a b c, split_ws line = [a; b; c] ∧ is_Some (int_of_text a) ∧ is_Some (int_of_text b) ∧ is_Some (int_of_text c)) →
      prints lines rows → prints (line :: lines) rows.

Lemma prints_parsed lines : prints lines (omap process_row_of lines).
Proof.
  induction lines as [|line lines IH]; [constructor|]. cbn [omap list_omap].
  destruct (process_row_of line) as [r|] eqn:Hr; unfold process_row_of in Hr.
  - destruct (split_ws line) as [|a [|b [|c [|]]]] eqn:Hl; try done.
    apply bind_Some in Hr as (pid & Ha & (ppid & Hb & (rss & Hc & [= <-])%bind_Some)%bind_Some). by eapply prints_row.
  - apply prints_other; [|done]. intros (a & b & c & Hl & [? Ha] & [? Hb] & [? Hc]). rewrite Hl, Ha, Hb, Hc in Hr. discriminate Hr.
Qed.

(** [process_tree_rss_bytes] is exact.  Without a positive process id among
    those it is asked for, on Windows, and where the trusted [ps] does not answer, it
    returns [None].  Otherwise it reads the lines that are a process, its parent
    and its memory, and passes over the others; it returns [None] when a positive
    id asked for is not among those processes, and else exactly the memory, in
    bytes, of the rows whose process descends from a positive id asked for, by the
    inductive definition of the process tree.  In every case it returns: the
    loop over the rows takes at most one turn more than there are rows. *)
Theorem tree_memory_exact process_ids posix ps :
  let roots := filter (λ p, 0 < p) process_ids in
  let answer := process_tree_rss_bytes process_ids posix ps in
  (roots = [] ∨ posix = false ∨ ps = None → answer = None)
  ∧ ∀ output, ps = Some output → posix = true → roots ≠ [] →
    ∃ rows, prints (splitlines output) rows
      ∧ ((∃ p, p ∈ roots ∧ p ∉ row_pid <$> rows) ∧ answer = None
         ∨ (∀ p, p ∈ roots → p ∈ row_pid <$> rows)
           ∧ ∃ included : gset Z, (∀ p, p ∈ included ↔ descends rows (list_to_set roots) p)
             ∧ answer = Some (sum_of (row_rss_kib <$> filter (λ r, row_pid r ∈ included) rows) * 1024)).
Proof.
  cbv zeta. unfold process_tree_rss_bytes. split.
  { intros [-> | [-> | ->]]; [done | by rewrite orb_true_r | by destruct (_ || _)]. }
  intros output -> -> Hne. rewrite (bool_decide_eq_false_2 _ Hne). cbn [negb orb mbind option_bind].
  exists (omap process_row_of (splitlines output)). split; [apply prints_parsed|].
  set (rows := omap process_row_of (splitlines output)). set (roots := filter (λ p, 0 < p) process_ids).
  destruct (tree_rss_exact rows (list_to_set roots)) as [[Hr Ha]|(Hr & Ha)]; [left|right]; (split; [|exact Ha]).
  - destruct (decide (Forall (λ p, p ∈ row_pid <$> rows) roots)) as [Hall|Hno%not_Forall_Exists]; [|by apply Exists_exists in Hno|tc_solve].
    destruct Hr. intros p. rewrite !elem_of_list_to_set. rewrite Forall_forall in Hall. apply Hall.
  - intros p Hp. specialize (Hr p). rewrite !elem_of_list_to_set in Hr. by apply Hr.
Qed.

End process_table.

(** ** Scaling *)

(** The policy after a history of observations, the latest first. *)
Notation observation := (Z * HookProcessLoad)%type.
Definition after (p : HookProcessCapacityPolicy) (h : list observation) : HookProcessCapacityPolicy :=
  foldr (λ o p, observe o.1 o.2 p) p h.

Definition idle (ceiling : Z) (load : HookProcessLoad) : bool := negb (pressured ceiling load) && (queued load =? 0).
(** Every observation since time [s] satisfied [b]. *)
Definition lasted (b : HookProcessLoad → bool) (h : list observation) (s : Z) : Prop :=
  ∃ h1 l h2, h = h1 ++ (s, l) :: h2 ∧ Forall (λ o, b o.2 = true) (h1 ++ [(s, l)]).
(** The target moved by [d] at time [s]. *)
Definition moved (p : HookProcessCapacityPolicy) (h : list observation) (d s : Z) : Prop :=
  ∃ h1 l h2, h = h1 ++ (s, l) :: h2 ∧ target (after p ((s, l) :: h2)) = target (after p h2) + d.
(** The clock does not run backwards. *)
Definition clocked (h : list observation) : Prop := StronglySorted (λ a b : observation, b.1 <= a.1) h.

Lemma lasted_cons b h s o : lasted b h s → b o.2 = true → lasted b (o :: h) s.
Proof. intros (h1 & l & h2 & -> & Hall) Hb. exists (o :: h1), l, h2. split; [done|]. by constructor. Qed.
Lemma lasted_now b h now l : b l = true → lasted b ((now, l) :: h) now.
Proof. intros Hb. exists [], l, h. split; [done|]. by repeat constructor. Qed.
Lemma lasted_since b h s now l : clocked ((now, l) :: h) → lasted b h s → s <= now.
Proof.
  intros Hc (h1 & l' & h2 & -> & _). apply StronglySorted_inv in Hc as [_ Hc]. rewrite Forall_forall in Hc.
  apply (Hc (s, l')). apply elem_of_app. right. by left.
Qed.
Lemma moved_cons p h d s o :
  moved p (o :: h) d s → moved p h d s ∨ s = o.1 ∧ target (observe o.1 o.2 (after p h)) = target (after p h) + d.
Proof.
  intros (h1 & l & h2 & E & Hd). destruct h1 as [|o' h1]; injection E as -> ->; [by right|left]. by exists h1, l, h2.
Qed.
Lemma moved_since p h d s now l : clocked ((now, l) :: h) → moved p h d s → s <= now.
Proof.
  intros Hc (h1 & l' & h2 & -> & _). apply StronglySorted_inv in Hc as [_ Hc]. rewrite Forall_forall in Hc.
  apply (Hc (s, l')). apply elem_of_app. right. by left.
Qed.

(** What the state says of the history. *)
Record scaled (p0 : HookProcessCapacityPolicy) (h : list observation) (p : HookProcessCapacityPolicy) : Prop := {
  scaled_range : MIN_WORKERS <= target p <= maximum_target p;
  scaled_limits : maximum_target p = maximum_target p0 ∧ memory_ceiling_bytes p = memory_ceiling_bytes p0;
  scaled_pressure : ∀ s, pressure_since p = Some s → lasted (pressured (memory_ceiling_bytes p0)) h s;
  scaled_idle : ∀ s, idle_since p = Some s → lasted (idle (memory_ceiling_bytes p0)) h s ∧ ∀ s', moved p0 h (-1) s' → s' <= s;
  scaled_up : ∀ s, moved p0 h 1 s → ∃ t, last_scale_up p = Some t ∧ s <= t;
}.

Definition step_justified (p0 : HookProcessCapacityPolicy) (h : list observation) (now : Z) (l : HookProcessLoad) : Prop :=
  let ceiling := memory_ceiling_bytes p0 in
  let before := target (after p0 h) in
  let next := target (after p0 ((now, l) :: h)) in
  next = before
  ∨ (next = before + 1
     ∧ (∃ s, lasted (pressured ceiling) ((now, l) :: h) s ∧ PRESSURE_SECONDS <= now - s)
     ∧ ∀ s, moved p0 h 1 s → SPAWN_INTERVAL_SECONDS <= now - s)
  ∨ (next = before - 1
     ∧ (∃ s, lasted (idle ceiling) ((now, l) :: h) s ∧ IDLE_SECONDS <= now - s)
     ∧ ∀ s, moved p0 h (-1) s → IDLE_SECONDS <= now - s).

Lemma pressured_step p0 h now l :
  clocked ((now, l) :: h) → scaled p0 h (after p0 h) → pressured (memory_ceiling_bytes p0) l = true →
  scaled p0 ((now, l) :: h) (after p0 ((now, l) :: h)) ∧ step_justified p0 h now l.
Proof.
  intros Hc [Hrange [Hmax Hceil] Hpress Hidle Hup] Hpl. unfold step_justified. cbn zeta.
  assert (∀ d s, moved p0 ((now, l) :: h) d s → moved p0 h d s
    ∨ s = now ∧ target (observe now l (after p0 h)) = target (after p0 h) + d) as Hmv by (intros d s; apply moved_cons).
  change (after p0 ((now, l) :: h)) with (observe now l (after p0 h)). set (p := after p0 h) in *.
  unfold observe in *. rewrite Hceil, Hpl in *. cbv zeta in *. set (since := default now (pressure_since p)) in *.
  assert (lasted (pressured (memory_ceiling_bytes p0)) ((now, l) :: h) since) as Hsince.
  { unfold since. destruct (pressure_since p) as [t|] eqn:Et; [by apply lasted_cons; [apply Hpress|]|by apply lasted_now]. }
  destruct (_ && _) eqn:Hgrow; cbn [target] in *.
  - apply andb_true_iff in Hgrow as [Hgrow Hlt]. apply andb_true_iff in Hgrow as [Hlong Hspawn]. split.
    + constructor; cbn [target maximum_target memory_ceiling_bytes pressure_since idle_since last_scale_up]; try done; [lia| |].
      * by intros s [= <-].
      * intros s Hs. exists now. split; [done|]. destruct (Hmv 1 s Hs) as [Hs'|[-> _]]; [by eapply moved_since|lia].
    + right. left. split; [done|]. split; [exists since; split; [done|lia]|].
      intros s Hs. destruct (Hup s Hs) as (t & Ht & Hle). rewrite Ht in Hspawn. lia.
  - split; [|by left].
    constructor; cbn [target maximum_target memory_ceiling_bytes pressure_since idle_since last_scale_up]; try done.
    + by intros s [= <-].
    + intros s Hs. destruct (Hmv 1 s Hs) as [Hs'|[_ Hd]]; [by apply Hup|lia].
Qed.

Lemma unpressured_step p0 h now l :
  clocked ((now, l) :: h) → scaled p0 h (after p0 h) → pressured (memory_ceiling_bytes p0) l = false →
  scaled p0 ((now, l) :: h) (after p0 ((now, l) :: h)) ∧ step_justified p0 h now l.
Proof.
  intros Hc [Hrange [Hmax Hceil] Hpress Hidle Hup] Hpl. unfold step_justified. cbn zeta.
  assert (∀ d s, moved p0 ((now, l) :: h) d s → moved p0 h d s
    ∨ s = now ∧ target (observe now l (after p0 h)) = target (after p0 h) + d) as Hmv by (intros d s; apply moved_cons).
  change (after p0 ((now, l) :: h)) with (observe now l (after p0 h)). set (p := after p0 h) in *.
  unfold observe in *. rewrite Hceil, Hpl in *.
  destruct (queued l =? 0) eqn:Hq; [|split; [|by left]; constructor; cbn in *; try done;
    intros s Hs; destruct (Hmv 1 s Hs) as [?|[_ ?]]; [by apply Hup|lia]].
  assert (idle (memory_ceiling_bytes p0) l = true) as Hil by (unfold idle; by rewrite Hpl, Hq).
  destruct (idle_since p) as [t|] eqn:Et; [destruct (_ && _) eqn:Hshrink|]; cbn [target fst] in *; split.
  - constructor; cbn [target maximum_target memory_ceiling_bytes pressure_since idle_since last_scale_up]; try done; [lia| |].
    + intros s [= <-]. split; [by apply lasted_now|]. intros s' Hs. destruct (Hmv _ s' Hs) as [?|[-> _]]; [by eapply moved_since|lia].
    + intros s Hs. destruct (Hmv 1 s Hs) as [?|[_ ?]]; [by apply Hup|lia].
  - right. right. destruct (Hidle t eq_refl) as [Hlast Hdown]. split; [done|]. split.
    + exists t. split; [by apply lasted_cons|lia].
    + intros s Hs. specialize (Hdown s Hs). lia.
  - constructor; cbn [target maximum_target memory_ceiling_bytes pressure_since idle_since last_scale_up]; try done.
    + intros s [= <-]. destruct (Hidle t eq_refl) as [Hlast Hdown]. split; [by apply lasted_cons|].
      intros s' Hs. destruct (Hmv _ s' Hs) as [?|[_ ?]]; [by apply Hdown|lia].
    + intros s Hs. destruct (Hmv 1 s Hs) as [?|[_ ?]]; [by apply Hup|lia].
  - by left.
  - constructor; cbn [target maximum_target memory_ceiling_bytes pressure_since idle_since last_scale_up]; try done.
    + intros s [= <-]. split; [by apply lasted_now|]. intros s' Hs. destruct (Hmv _ s' Hs) as [?|[_ ?]]; [by eapply moved_since|lia].
    + intros s Hs. destruct (Hmv 1 s Hs) as [?|[_ ?]]; [by apply Hup|lia].
  - by left.
Qed.

Lemma made_scaled initial maximum ceiling p0 :
  make_HookProcessCapacityPolicy initial maximum ceiling = Ok p0 →
  scaled p0 [] p0 ∧ maximum_target p0 = maximum ∧ maximum <= MAX_WORKERS.
Proof.
  unfold make_HookProcessCapacityPolicy, validate_hook_worker_limit. intros Hm.
  apply bind_Ok in Hm as (i & Hi & Hm). apply then_Ok in Hi as [Hi E]. injection E as <-.
  apply bind_Ok in Hm as (m & Hmax & Hm). apply then_Ok in Hmax as [Hmax E]. injection E as <-.
  apply then_Ok in Hm as [Hle Hm]. apply then_Ok in Hm as [_ Hm]. injection Hm as <-.
  apply raise_if_Ok in Hi, Hmax, Hle. apply negb_false_iff, andb_true_iff in Hi, Hmax.
  split; [|split; [done|unfold MAX_WORKERS in *; lia]].
  constructor; cbn [target maximum_target memory_ceiling_bytes pressure_since idle_since last_scale_up]; try done; [unfold MIN_WORKERS in *; lia|].
  intros s ([|o h1] & l & h2 & E & _); discriminate E.
Qed.
Lemma after_scaled p0 h : scaled p0 [] p0 → clocked h → scaled p0 h (after p0 h).
Proof.
  intros H0. induction h as [|[now l] h IH]; [done|]. intros Hc. pose proof Hc as Hc'. apply StronglySorted_inv in Hc' as [Hc' _].
  destruct (pressured (memory_ceiling_bytes p0) l) eqn:Hp; [eapply pressured_step|eapply unpressured_step]; auto.
Qed.

(** C32: After any history of observations on a clock that does not run
    backwards, the target of hook workers lies between two and the configured
    maximum, itself at most sixteen, and an observation moves it by one at most:
    up only when every observation of the last ten seconds or more showed
    pressure (a queue whose 95th percentile is over the threshold with
    processor, memory and failures below their ceilings) and no worker was
    added in the last second; down only when every observation of the last
    three hundred seconds or more was idle and no worker was removed in that
    time. *)
Theorem scaling_justified initial maximum ceiling p0 h now l :
  make_HookProcessCapacityPolicy initial maximum ceiling = Ok p0 → clocked ((now, l) :: h) →
  MIN_WORKERS <= target (after p0 ((now, l) :: h)) <= maximum ∧ maximum <= MAX_WORKERS ∧ step_justified p0 h now l.
Proof.
  intros (H0 & <- & Hmax)%made_scaled Hc. pose proof Hc as Hc'. apply StronglySorted_inv in Hc' as [Hc' _].
  pose proof (after_scaled p0 h H0 Hc') as Hs.
  assert (scaled p0 ((now, l) :: h) (after p0 ((now, l) :: h)) ∧ step_justified p0 h now l) as [Hs' Hj].
  { destruct (pressured (memory_ceiling_bytes p0) l) eqn:Hp; [by apply pressured_step|by apply unpressured_step]. }
  split; [|done]. pose proof (scaled_range _ _ _ Hs') as Hr. by rewrite (proj1 (scaled_limits _ _ _ Hs')) in Hr.
Qed.

(** ** A concrete scaling *)

Definition busy : HookProcessLoad :=
  {| queue_p95_seconds := 300000000; queued := 4; cpu_ratio := Some 500000000; rss_bytes := Some 1000; failure_rate := 0 |}.
(** Pressure for ten seconds, observed every two, adds a worker. *)
Lemma scaling_justified_witness :
  let h := (λ s, (seconds s, busy)) <$> [8; 6; 4; 2; 0] in
  ∃ p0, make_HookProcessCapacityPolicy 2 4 MEMORY_FLOOR_BYTES = Ok p0 ∧ clocked ((seconds 10, busy) :: h)
  ∧ target (after p0 ((seconds 10, busy) :: h)) = 3 ∧ step_justified p0 h (seconds 10) busy.
Proof.
  cbv zeta. eexists. split; [reflexivity|].
  assert (clocked ((seconds 10, busy) :: ((λ s, (seconds s, busy)) <$> [8; 6; 4; 2; 0]))) as Hc.
  { unfold clocked. cbn [fmap list_fmap].
    repeat first [apply SSorted_nil | apply SSorted_cons | apply Forall_nil_2 | apply Forall_cons_2 | vm_compute; discriminate].
    }
  split; [exact Hc|]. split; [reflexivity|]. eapply (scaling_justified 2 4 MEMORY_FLOOR_BYTES); [reflexivity|exact Hc].
Defined.

End HookCapacity.
