(* ===== verification/HookFloor.v ===== *)
(** * The emergency-safe floor of hook review

    Models [daemon/hook_availability_floor.py], [daemon/hook_launcher_recovery.py],
    the event and command readers of [daemon/hook_request_parsing.py], the path
    classification of [runtime/secret_sensitivity.py] and
    [runtime/home_path_text.py]: which hook payloads continue when native review
    cannot complete.  A [Path] is its text; [str(path)] is [posix_str], and
    [Path.home()] is the parameter [home].

    The theorems: an accepted path resolves inside the workspace; an accepted
    command is one of the listed inspection programs, without shell syntax, its
    path arguments inside the workspace and not secret; and what the launcher
    recovery adds to the floor. *)

From S2P Require Import Prelude PyStr Sha256 Regex PyVal PyPath.
Local Open Scope Z_scope.
Local Open Scope py_scope.

Module HookFloor.

Notation pydict := (list (pystr * pyval)).

(** [s.replace("\\", "/")] *)
Definition slashed (s : pystr) : pystr := (λ c, if c =? 92 then 47 else c) <$> s.
(** [s.replace("_", "").replace("-", "")] *)
Definition undashed (s : pystr) : pystr := filter (λ c, c ≠ 95 ∧ c ≠ 45) s.
(** [s.strip(chars)] and [s.rstrip(chars)], for one character *)
Fixpoint lstrip_char (ch : Z) (s : pystr) : pystr :=
  match s with c :: s' => if c =? ch then lstrip_char ch s' else s | [] => [] end.
Definition rstrip_char (ch : Z) (s : pystr) : pystr := reverse (lstrip_char ch (reverse s)).
Definition strip_char (ch : Z) (s : pystr) : pystr := rstrip_char ch (lstrip_char ch s).
(** [s.split(sep, 1)[0]], [s.split(sep, 1)[1]] and [s.rsplit(sep, 1)[-1]] *)
Definition before_char (sep : Z) (s : pystr) : pystr := (partition_char sep s).1.1.
Definition after_char (sep : Z) (s : pystr) : pystr := (partition_char sep s).2.
Definition after_last_char (sep : Z) (s : pystr) : pystr := default [] (last (split_char sep s)).

(** The first item for which [f] has a result. *)
Fixpoint first_some {A B} (f : A → option B) (l : list A) : option B :=
  match l with [] => None | a :: l => match f a with Some b => Some b | None => first_some f l end end.

(** [isinstance(value, str) and value.strip()], with the stripped text *)
Definition text_of (v : pyval) : option pystr :=
  match v with
  | PStr s => if decide (strip s = []) then None else Some (strip s)
  | _ => None
  end.
(** [isinstance(value, Mapping)] *)
Definition mapping_of (v : pyval) : option pydict := match v with PDict kv => Some kv | _ => None end.
(** The first of the keys with text. *)
Definition first_text (keys : list pystr) (d : pydict) : option pystr := first_some (λ k, text_of (dict_get k d)) keys.

Section floor.
Context `{PyUnicode}.
Variable home : pystr.

(** ** Secret paths *)

Record SecretPathMatch := {
  family : pystr;
  match_path : pystr;
  sensitivity : pystr;
  match_reason : pystr;
  requested_path : pystr;
}.

Definition expand_home (value : pystr) (home_dir : option pystr) : pystr :=
  let base := posix_str (default home home_dir) in
  if bool_decide (value = $"~") then base
  else if startswith ($"~/") value || startswith [126; 92] value then posix_str (path_join base (drop 2 value))
  else value.
Definition normalize_path (value : pystr) (cwd : option pystr) : pystr :=
  if startswith ($"/") value then normpath value
  else match cwd with
       | Some cwd => normpath (path_join (posix_str cwd) value)
       | None => normpath value
       end.

Definition SENSITIVE_BASENAME_LABELS : list (pystr * pystr) :=
  [($".npmrc", $"npm registry credentials"); ($".pypirc", $"Python package credentials");
   ($".netrc", $"netrc credentials"); ($".git-credentials", $"Git credential store");
   ($".terraform.tfvars", $"Terraform variable secrets"); ($"private-key.pem", $"wallet/private-key file");
   ($"private.key", $"wallet/private-key file"); ($"wallet.key", $"wallet/private-key file");
   ($"terraform.tfvars", $"Terraform variable secrets")].
Definition SENSITIVE_BASENAME_KEYWORDS : list pystr :=
  [$"private-key"; $"private_key"; $"wallet-key"; $"wallet_key"].
Definition REDACTED_BASENAME_LABELS : list (pystr * pystr) :=
  [($"id_rsa", $"SSH private key"); ($"id_ed25519", $"SSH private key"); ($"id_ecdsa", $"SSH private key")].
Definition SENSITIVE_DIRECTORY_LABELS : list (pystr * pystr) := [($".gnupg", $"GnuPG key material")].
Definition SENSITIVE_SUFFIX_LABELS : list ((pystr * pystr) * pystr) :=
  [(($".aws", $"credentials"), $"AWS shared credentials file"); (($".aws", $"config"), $"AWS shared config file");
   (($".docker", $"config.json"), $"Docker client config"); (($".kube", $"config"), $"Kubernetes config");
   (($".ssh", $"id_rsa"), $"SSH private key"); (($".ssh", $"id_ed25519"), $"SSH private key");
   (($".ssh", $"id_ecdsa"), $"SSH private key"); (($".ssh", $"config"), $"SSH client config")].
Definition SENSITIVE_PATH_REASONS : list (pystr * pystr) :=
  [($"local .env file", $"Guard treats .env files as sensitive because they commonly store local secrets.");
   ($"npm registry credentials", $"Guard treats .npmrc as sensitive because it may contain registry tokens.");
   ($"Python package credentials", $"Guard treats .pypirc as sensitive because it may contain package credentials.");
   ($"netrc credentials", $"Guard treats .netrc as sensitive because it may contain login secrets.");
   ($"Git credential store",
    $"Guard treats .git-credentials as sensitive because it may contain repository credentials.");
   ($"AWS shared credentials file",
    $"Guard treats AWS shared credentials as sensitive because they contain cloud access keys.");
   ($"AWS shared config file",
    $"Guard treats AWS shared config as sensitive because it may contain credential profiles.");
   ($"Docker client config",
    $"Guard treats Docker client config as sensitive because it may contain registry auth.");
   ($"Kubernetes config",
    $"Guard treats Kubernetes config as sensitive because it may include cluster credentials.");
   ($"SSH private key",
    $"Guard treats SSH private keys as sensitive because they provide direct host access.");
   ($"SSH client config",
    $"Guard treats SSH config as sensitive because it may reveal or shape host credentials.");
   ($"GnuPG key material",
    $"Guard treats GnuPG key material as sensitive because it can unlock encrypted assets.");
   ($"Terraform variable secrets",
    $"Guard treats Terraform variable files as sensitive because they often contain secrets.");
   ($"wallet/private-key file",
    $"Guard treats wallet and private-key files as sensitive because they can authorize account control.")].

(** [lowered_segments[-2:] == suffix] *)
Definition ends_with (suffix : pystr * pystr) (segments : list pystr) : bool :=
  bool_decide (drop (length segments - 2) segments = [suffix.1; suffix.2]).
Definition ssh_sensitivity (fam : pystr) : pystr := if decide (fam = $"SSH private key") then $"critical" else $"high".

(** The family and sensitivity of the lowered segments. *)
Definition classify_segments (segments : list pystr) : option (pystr * pystr) :=
  match last segments with
  | None => None
  | Some basename =>
      if bool_decide (basename = $".env") || startswith ($".env.") basename then Some ($"local .env file", $"critical")
      else match dict_lookup basename SENSITIVE_BASENAME_LABELS with
      | Some fam => Some (fam, if decide (fam = $"wallet/private-key file") then $"critical" else $"high")
      | None =>
          if existsb (λ keyword, contains keyword basename) SENSITIVE_BASENAME_KEYWORDS
          then Some ($"wallet/private-key file", $"critical")
          else match (if py_in ($"...") segments then dict_lookup basename REDACTED_BASENAME_LABELS else None) with
          | Some fam => Some (fam, ssh_sensitivity fam)
          | None =>
              match List.find (λ e : pystr * pystr, py_in e.1 segments) SENSITIVE_DIRECTORY_LABELS with
              | Some (_, fam) => Some (fam, $"high")
              | None =>
                  match List.find (λ e : (pystr * pystr) * pystr, ends_with e.1 segments) SENSITIVE_SUFFIX_LABELS with
                  | Some (_, fam) => Some (fam, ssh_sensitivity fam)
                  | None => None
                  end
              end
          end
      end
  end.

Definition lowered_segments (normalized : pystr) : list pystr :=
  filter (λ s, s ≠ []) (split_char 47 (py_lower (slashed normalized))).

Definition classify_secret_path (path : pystr) (cwd home_dir : option pystr) : option SecretPathMatch :=
  let requested := strip_char 34 (strip_char 39 (strip path)) in
  if bool_decide (requested = []) then None
  else
    let normalized := normalize_path (expand_home requested home_dir) cwd in
    match classify_segments (lowered_segments normalized) with
    | Some (fam, sens) =>
        Some {| family := fam; match_path := normalized; sensitivity := sens;
                match_reason := default [] (dict_lookup fam SENSITIVE_PATH_REASONS); requested_path := requested |}
    | None => None
    end.

(** ** Reading a payload *)

Definition compact_name (raw : pystr) : pystr := undashed (py_lower raw).

(** [runtime_hook_event_name] *)
Definition runtime_hook_event_name (payload : pydict) : pystr :=
  match first_text [$"event"; $"eventName"; $"hook_event_name"; $"hookEventName"; $"hook_name"; $"hookName"] payload with
  | None => $"PreToolUse"
  | Some raw =>
      let compact := compact_name raw in
      if py_in compact [$"pretool"; $"pretooluse"; $"beforeshellexecution"; $"beforereadfile"; $"beforewritefile";
                        $"beforemcpexecution"] then $"PreToolUse"
      else if py_in compact [$"posttool"; $"posttooluse"; $"aftershellexecution"; $"afterreadfile"; $"afterwritefile";
                             $"aftermcpexecution"] then $"PostToolUse"
      else if py_in compact [$"permissionrequest"; $"permissionrequestv2"] then $"PermissionRequest"
      else if py_in compact [$"prompt"; $"userpromptsubmit"; $"userpromptsubmitted"] then $"UserPromptSubmit"
      else raw
  end.

Definition COMMAND_KEYS : list pystr := [$"command"; $"cmd"; $"shell_command"; $"shellCommand"].

(** [pre_tool_command]: the text as it is, not stripped *)
Definition pre_tool_command (payload : pydict) : option pystr :=
  first_some (λ candidate,
      d ← mapping_of candidate ;
      first_some (λ k, match dict_get k d with
                          | PStr s => if decide (strip s = []) then None else Some s
                          | _ => None
                          end) COMMAND_KEYS)
    [dict_get ($"tool_input") payload; dict_get ($"arguments") payload; PDict payload].

Definition payload_source_events (payload : pydict) : list pystr :=
  omap (λ k, compact_name <$> text_of (dict_get k payload))
    [$"cursor_source_hook_event"; $"hook_event_name"; $"hookEventName"; $"event"; $"eventName"; $"hook_name"; $"hookName"].

Definition tool_name (payload : pydict) : pystr :=
  match first_text [$"tool_name"; $"toolName"; $"tool"] payload with
  | Some s => py_lower s
  | None =>
      match first_some (λ nested_key,
              d ← mapping_of (dict_get nested_key payload) ;
              first_text [$"name"; $"toolName"; $"tool_name"; $"tool"] d) [$"tool_call"; $"preToolUse"; $"tool_input"] with
      | Some s => py_lower s
      | None => []
      end
  end.

Definition payload_is_mcp (payload : pydict) : bool :=
  py_in ($"beforemcpexecution") (payload_source_events payload)
  || startswith ($"mcp") (tool_name payload) || py_in (tool_name payload) [$"mcp"; $"call_mcp_tool"].

Definition payload_command (payload : pydict) : option pystr :=
  match pre_tool_command payload with
  | Some command => Some command
  | None =>
      first_some (λ nested_key,
          nested ← mapping_of (dict_get nested_key payload) ;
          first_some (λ input_key,
              tool_input ← mapping_of (dict_get input_key nested) ;
              first_text COMMAND_KEYS tool_input) [$"input"; $"parameters"; $"arguments"])
        [$"tool_call"; $"preToolUse"]
  end.

Definition PATH_KEYS : list pystr :=
  [$"path"; $"file_path"; $"filePath"; $"filepath"; $"file"; $"filename"; $"target_path"; $"targetPath"].

(** The paths one candidate mapping names. *)
Definition candidate_paths (candidate : pyval) : list pystr :=
  match mapping_of candidate with
  | None => []
  | Some d =>
      omap (λ k, text_of (dict_get k d)) PATH_KEYS
      ++ match dict_get ($"paths") d with PList items => omap text_of items | _ => [] end
  end.
Definition payload_candidates (payload : pydict) : list pyval :=
  [PDict payload; dict_get ($"tool_input") payload; dict_get ($"arguments") payload]
  ++ ([$"tool_call"; $"preToolUse"] ≫= λ nested_key,
        match mapping_of (dict_get nested_key payload) with
        | Some nested => [PDict nested; dict_get ($"input") nested; dict_get ($"parameters") nested;
                          dict_get ($"arguments") nested]
        | None => []
        end).
Definition payload_paths (payload : pydict) : list pystr := payload_candidates payload ≫= candidate_paths.

(** ** Workspace-local paths *)

Definition UNSAFE_ABSOLUTE_PREFIXES : list pystr :=
  [$"/etc/"; $"/private/etc/"; $"/root/"; $"/var/root/"; $"/private/var/root/"; $"/proc/"; $"/sys/"; $"/dev/";
   $"/private/dev/"].

(** Two equal forms would count once; they never are. *)
Definition posix_forms (path : pystr) : list pystr :=
  let posix := py_lower (slashed (strip path)) in
  if bool_decide (posix = []) then []
  else if startswith ($"/private/") posix then [posix; drop 8 posix]
  else if startswith ($"/tmp/") posix || py_in posix [$"/tmp"; $"/var"] || startswith ($"/var/") posix
  then [posix; $"/private" ++ posix]
  else [posix].

Definition under_unsafe_prefix (forms : list pystr) : bool :=
  existsb (λ form, existsb (λ prefix, bool_decide (form = rstrip_char 47 prefix) || startswith prefix form)
    UNSAFE_ABSOLUTE_PREFIXES) forms.

Definition workspace_anchor (workspace : option pystr) : option pystr :=
  match workspace with
  | None => None
  | Some w =>
      let posix := rstrip_char 47 (slashed (posix_str w)) in
      if bool_decide (posix = []) || bool_decide (posix = $"/") || endswith ($":") posix then None
      else if under_unsafe_prefix (posix_forms posix) then None
      else
        let parts := filter (λ p, p ≠ [] ∧ p ≠ $".") (split_char 47 posix) in
        if bool_decide (parts = []) || py_in ($"..") parts then None
        else
          let lowered := py_lower posix in
          if startswith ($"/users/") lowered || startswith ($"/home/") lowered then
            if (length parts <? 3)%nat then None else Some posix
          else if startswith ($"/") posix && (length parts <? 2)%nat then None
          else if bool_decide (posix !! 1%nat = Some 58) then
            if (length parts <? 2)%nat then None
            else if (length parts <? 3)%nat
                    && py_in (py_lower (parts !!! 1%nat)) [$"users"; $"documents and settings"] then None
            else Some posix
          else Some posix
  end.

Definition home_relative (s : pystr) : bool :=
  startswith ($"~") s || startswith ($"$home") (py_lower s) || startswith ($"%userprofile%") (py_lower s).

Definition path_is_workspace_local (path : pystr) (workspace : option pystr) : bool :=
  let posix := slashed (strip path) in
  if bool_decide (posix = []) || startswith ($"//") posix then false
  else if home_relative posix then false
  else
    let forms := posix_forms posix in
    if bool_decide (forms = []) then false
    else if under_unsafe_prefix forms then false
    else
      let parts := filter (λ p, p ≠ [] ∧ p ≠ $".") (split_char 47 posix) in
      if py_in ($"..") parts then false
      else
        let candidate_is_absolute := startswith ($"/") posix || bool_decide (posix !! 1%nat = Some 58) in
        match workspace, workspace_anchor workspace with
        | Some _, None => false
        | None, _ => negb candidate_is_absolute
        | Some _, Some anchor =>
            if candidate_is_absolute then
              existsb (λ form, existsb (λ prefix, bool_decide (form = prefix) || startswith (prefix ++ $"/") form)
                (posix_forms anchor)) forms
            else true
        end.

(** ** Commands *)

Definition path_token_value (token : pystr) : pystr :=
  if startswith ($"-") token && py_in 61 token then after_char 61 token
  else if py_in 58 token && negb (startswith ($":") token) && negb (py_in 47 (before_char 58 token))
  then after_last_char 58 token
  else token.

Definition token_looks_like_path (token : pystr) : bool :=
  let value := path_token_value token in
  if home_relative value then true
  else if py_in value [$".."; $"."] then true
  else if startswith ($"-") token && negb (py_in 61 token) then false
  else py_in 47 value || py_in 92 value || startswith ($".") value || contains ($"..") value.

Definition is_secret (path : pystr) (workspace home_dir : option pystr) : bool :=
  bool_decide (is_Some (classify_secret_path path workspace home_dir)).

Definition token_is_secret_sensitive (token : pystr) (workspace home_dir : option pystr) : bool :=
  existsb (λ candidate, negb (bool_decide (candidate = [])) && is_secret candidate workspace home_dir)
    ([token; path_token_value token] ++ (if py_in 58 token then [after_last_char 58 token] else [])).

Definition flag_name (token : pystr) : pystr := before_char 61 token.

Definition SAFE_INSPECTION_BINARIES : list pystr :=
  [$"rg"; $"grep"; $"egrep"; $"fgrep"; $"ag"; $"ack"; $"cat"; $"head"; $"tail"; $"wc"; $"file"; $"stat"; $"bat"; $"fd";
   $"tree"].
Definition UNSAFE_FIND_FLAGS : list pystr :=
  [$"-delete"; $"-exec"; $"-execdir"; $"-ok"; $"-okdir"; $"-fprint"; $"-fprintf"; $"-fwrite"; $"-printf"; $"-fls"; $"-L";
   $"-H"; $"-follow"].
Definition SAFE_GIT_SUBCOMMANDS : list pystr :=
  [$"status"; $"diff"; $"log"; $"show"; $"rev-parse"; $"describe"; $"shortlog"; $"blame"; $"ls-files"; $"ls-tree";
   $"cat-file"; $"grep"; $"help"; $"version"].
Definition SAFE_GIT_STASH_SUBCOMMANDS : list pystr := [$"list"; $"show"].
Definition UNSAFE_GIT_FLAGS : list pystr :=
  [$"-d"; $"-D"; $"--delete"; $"--force"; $"-f"; $"--hard"; $"--exec"; $"--upload-pack"; $"--receive-pack"; $"--config";
   $"-c"; $"--work-tree"; $"--git-dir"; $"-C"; $"--output"; $"--ext-diff"; $"--textconv"].
Definition SAFE_HOL_GUARD_SUBCOMMANDS : list pystr := [$"status"; $"doctor"; $"version"; $"--version"; $"-V"].
Definition UNSAFE_INSPECTION_FLAGS : list pystr :=
  [$"--pre"; $"--exec"; $"--exec-batch"; $"--execdir"; $"--replace"; $"--recursive"; $"--dereference"; $"--follow"; $"-R";
   $"-r"; $"-L"; $"-o"; $"--output"].
Definition UNSAFE_FD_FLAGS : list pystr := [$"--exec"; $"--exec-batch"; $"--execdir"; $"-x"; $"-X"].
Definition UNSAFE_SHELL_MARKERS : list pystr :=
  [$"|"; $";"; $"`"; $"$("; $"${"; $">"; $"<"; [10]; [13]; $"&&"; $"||"; $"&"].

Definition git_command_is_emergency_safe (args : list pystr) : bool :=
  match args with
  | [] => false
  | subcommand :: rest =>
      if py_in subcommand [$"--version"; $"--help"] then true
      else if bool_decide (subcommand = $"stash") then
        match rest with second :: _ => py_in second SAFE_GIT_STASH_SUBCOMMANDS | [] => false end
      else if negb (py_in subcommand SAFE_GIT_SUBCOMMANDS) then false
      else negb (existsb (λ token, py_in (flag_name token) UNSAFE_GIT_FLAGS) rest)
  end.

Definition hol_guard_command_is_emergency_safe (args : list pystr) : bool :=
  match args with
  | [] => false
  | first :: rest =>
      if py_in first SAFE_HOL_GUARD_SUBCOMMANDS then true
      else bool_decide (first = $"guard")
           && match rest with second :: _ => py_in second SAFE_HOL_GUARD_SUBCOMMANDS | [] => false end
  end.

(** The verdict for a program and its arguments. *)
Definition binary_is_emergency_safe (binary : pystr) (args : list pystr) : bool :=
  let no_flags (unsafe : list pystr) := negb (existsb (λ token, py_in (flag_name token) unsafe) args) in
  if py_in binary [$"pwd"; $"true"; $"which"] then bool_decide (args = [])
  else if py_in binary [$"ls"; $"dir"] then no_flags UNSAFE_INSPECTION_FLAGS
  else if bool_decide (binary = $"fd") then no_flags (UNSAFE_FD_FLAGS ++ UNSAFE_INSPECTION_FLAGS)
  else if py_in binary SAFE_INSPECTION_BINARIES then no_flags UNSAFE_INSPECTION_FLAGS
  else if bool_decide (binary = $"find") then
    negb (existsb (λ token, py_in token UNSAFE_FIND_FLAGS || py_in (flag_name token) UNSAFE_INSPECTION_FLAGS) args)
  else if bool_decide (binary = $"git") then git_command_is_emergency_safe args
  else if py_in binary [$"hol-guard"; $"plugin-guard"] then hol_guard_command_is_emergency_safe args
  else false.

(** The checks both command readers start with, and their words. *)
Definition command_words (command : pystr) : option (list pystr) :=
  let stripped := strip command in
  if bool_decide (stripped = []) || (4096 <? length stripped)%nat then None
  else if existsb (λ marker, contains marker stripped) UNSAFE_SHELL_MARKERS then None
  else match shlex_split stripped with Ok tokens => Some tokens | Raise _ => None end.

Definition command_is_emergency_safe (command : pystr) (workspace home_dir : option pystr) : bool :=
  match command_words command with
  | None | Some [] => false
  | Some (program :: args) =>
      if existsb (λ token, token_is_secret_sensitive token workspace home_dir) args then false
      else if existsb (λ token, token_looks_like_path token
                                && negb (path_is_workspace_local (path_token_value token) workspace)) args then false
      else binary_is_emergency_safe (py_lower (path_name program)) args
  end.

(** ** The floor *)

Definition INSPECTION_TOOLS : list pystr :=
  [$"read"; $"read_file"; $"read_files"; $"open_file"; $"view"; $"view_file"; $"cat_file"; $"grep"; $"glob"; $"rg";
   $"search"; $"search_files"; $"semanticsearch"; $"codesearch"; $"globfilesearch"; $"list_dir"; $"listdir";
   $"list_directory"; $"list_files"; $"list_code_definition_names"; $"ls"].
Definition BLOCKED_SOURCE_EVENTS : list pystr :=
  [$"beforewritefile"; $"beforemcpexecution"; $"aftershellexecution"; $"aftermcpexecution"; $"afterwritefile";
   $"afterreadfile"].
Definition MUTATING_TOOLS : list pystr :=
  [$"edit"; $"edit_file"; $"multiedit"; $"write"; $"write_file"; $"apply_patch"; $"delete"; $"delete_file"; $"move";
   $"rename"; $"bash"; $"shell"; $"mcp"].

(** The guards both entry points share, on the event and the tool. *)
Definition blocked_source (payload : pydict) : bool :=
  existsb (λ e, py_in e BLOCKED_SOURCE_EVENTS) (payload_source_events payload).
Definition mutating_tool (name : pystr) : bool := py_in name MUTATING_TOOLS && negb (py_in name [$"bash"; $"shell"]).
Definition outside_service (payload : pydict) : bool :=
  payload_is_mcp payload || startswith ($"plugin-") (tool_name payload).

(** The workspace, or the payload's working directory. *)
Definition effective_workspace (payload : pydict) (workspace : option pystr) : option pystr :=
  match workspace with Some w => Some w | None => text_of (dict_get ($"cwd") payload) end.

Definition hook_action_is_emergency_safe (payload : pydict) (workspace home_dir : option pystr) : bool :=
  if negb (bool_decide (runtime_hook_event_name payload = $"PreToolUse")) then false
  else if blocked_source payload then false
  else if outside_service payload then false
  else
    let workspace := effective_workspace payload workspace in
    let name := tool_name payload in
    let paths := payload_paths payload in
    if mutating_tool name then false
    else if existsb (λ path, is_secret path workspace home_dir || negb (path_is_workspace_local path workspace)) paths
    then false
    else match payload_command payload with
         | Some command => command_is_emergency_safe command workspace home_dir
         | None =>
             if py_in name INSPECTION_TOOLS then negb (bool_decide (paths = []))
             else negb (bool_decide (paths = [])) && py_in name [[]; $"read"]
         end.

(** ** Launcher recovery *)

Definition LAUNCHER_REPAIR_BINARIES : list pystr := [$"hol-guard"; $"plugin-guard"].
Definition LAUNCHER_REPAIR_FLAGS : list pystr := [$"--dry-run"; $"--force-pypi-reinstall"; $"--json"].
Definition LAUNCHER_REPAIR_HARNESSES : list pystr :=
  [$"antigravity"; $"claude-code"; $"cline"; $"codex"; $"copilot"; $"cursor"; $"devin"; $"gemini"; $"grok"; $"hermes";
   $"kimi"; $"omp"; $"openclaw"; $"opencode"; $"paseo"; $"pi"; $"zcode"].

(** The loop over the tokens after the first: the positional ones, unless a
    flag is refused. *)
Fixpoint repair_positionals (tokens : list pystr) : option (list pystr) :=
  match tokens with
  | [] => Some []
  | token :: tokens =>
      if startswith ($"-") token then
        if negb (py_in (flag_name token) LAUNCHER_REPAIR_FLAGS) || py_in 61 token then None else repair_positionals tokens
      else positional ← repair_positionals tokens ; Some (token :: positional)
  end.

Definition repair_shape (positional : list pystr) : bool :=
  match positional with
  | first :: rest =>
      if bool_decide (first = $"install") then
        match rest with [harness] => py_in harness LAUNCHER_REPAIR_HARNESSES | _ => false end
      else if bool_decide (first = $"update") then bool_decide (rest = [])
      else if bool_decide (first = $"daemon") then py_in rest [[$"repair"]; [$"status"]]
      else false
  | [] => false
  end.

Definition command_is_launcher_repair (command : pystr) : bool :=
  match command_words command with
  | Some (program :: ((_ :: _) as args)) =>
      if negb (py_in program LAUNCHER_REPAIR_BINARIES) then false
      else match repair_positionals args with Some positional => repair_shape positional | None => false end
  | _ => false
  end.

Definition hook_action_is_launcher_recovery_safe (payload : pydict) (workspace home_dir : option pystr) : bool :=
  if bool_decide (is_Some (dict_lookup ($"guard_payload_ref") payload)) then false
  else if hook_action_is_emergency_safe payload workspace home_dir then true
  else if negb (bool_decide (runtime_hook_event_name payload = $"PreToolUse")) then false
  else if mutating_tool (tool_name payload) then false
  else if blocked_source payload then false
  else if outside_service payload then false
  else match payload_command payload with
       | Some command => command_is_launcher_repair command
       | None => false
       end.

(** ** Properties *)

Lemma split_char_cat sep a b : split_char sep (a ++ sep :: b) = split_char sep a ++ split_char sep b.
Proof.
  induction a as [|c a IH]; cbn [app split_char]; [by rewrite Z.eqb_refl|]. rewrite IH.
  destruct (c =? sep); [done|]. pose proof (split_char_nonempty sep a). by destruct (split_char sep a).
Qed.
Lemma path_parts_cat a b : path_parts (a ++ $"/" ++ b) = path_parts a ++ path_parts b.
Proof. unfold path_parts. change (a ++ $"/" ++ b) with (a ++ 47 :: b). by rewrite split_char_cat, filter_app. Qed.

Lemma existsb_all_false {A} (f : A → bool) l x : existsb f l = false → x ∈ l → f x = false.
Proof. rewrite existsb_false, Forall_forall. auto. Qed.

(** The text of a path, with its separators made uniform. *)
Definition path_text (path : pystr) : pystr := slashed (strip path).

(** The path, resolved against the workspace, lies in it: by its components,
    for a relative path; for an absolute one, up to letter case and the
    [/private] alias.  It has no [".."] for a link to escape through. *)
Definition confined (workspace : option pystr) (path : pystr) : Prop :=
  $".." ∉ path_parts (path_text path)
  ∧ under_unsafe_prefix (posix_forms (path_text path)) = false
  ∧ match workspace with
    | None => startswith ($"/") (path_text path) = false
    | Some _ =>
        ∃ anchor rest, workspace_anchor workspace = Some anchor
          ∧ ((startswith ($"/") (path_text path) = false
              ∧ norm_parts (path_join anchor (path_text path)) = path_parts anchor ++ rest)
             ∨ ∃ form prefix, form ∈ posix_forms (path_text path) ∧ prefix ∈ posix_forms anchor
                 ∧ path_parts form = path_parts prefix ++ rest)
    end.

Lemma anchor_parts workspace anchor :
  workspace_anchor workspace = Some anchor → anchor ≠ [] ∧ $".." ∉ path_parts anchor.
Proof.
  unfold workspace_anchor. destruct workspace as [w|]; [|done]. cbv zeta.
  set (posix := rstrip_char 47 _). destruct (bool_decide (posix = []) || _ || _) eqn:E1; [done|].
  destruct (under_unsafe_prefix _); [done|]. destruct (bool_decide (_ = []) || py_in _ _) eqn:E2; [done|].
  intros Ha. assert (anchor = posix) as ->.
  { repeat match type of Ha with context [if ?b then _ else _] => destruct b end; congruence. }
  apply orb_false_iff in E1 as [[E1 _]%orb_false_iff _], E2 as [_ E2]. apply bool_decide_eq_false in E1.
  apply py_in_false in E2. by split.
Qed.

Lemma path_parts_join a b :
  a ≠ [] → startswith ($"/") b = false → path_parts (path_join a b) = path_parts a ++ path_parts b.
Proof.
  intros Ha Hb. unfold path_join. rewrite Hb, bool_decide_eq_false_2 by done. cbn [orb].
  destruct (endswith ($"/") a) eqn:He; [|apply path_parts_cat].
  unfold endswith in He. change (reverse ($"/")) with [47] in He. destruct (reverse a) as [|c r] eqn:Hr; [done|].
  apply (f_equal reverse) in Hr. rewrite reverse_involutive, reverse_cons in Hr. subst a.
  assert (c = 47) as -> by (cbn [startswith] in He; lia). rewrite <- app_assoc. cbn [app].
  unfold path_parts. rewrite !split_char_cat, !filter_app. cbn. by rewrite app_nil_r.
Qed.

Lemma prefix_parts form prefix :
  bool_decide (form = prefix) || startswith (prefix ++ $"/") form = true →
  ∃ rest, path_parts form = path_parts prefix ++ rest.
Proof.
  rewrite orb_true_iff, bool_decide_eq_true, startswith_app. intros [->|[k ->]].
  - exists []. by rewrite app_nil_r.
  - exists (path_parts k). rewrite <- app_assoc. apply path_parts_cat.
Qed.

Lemma local_confined path workspace : path_is_workspace_local path workspace = true → confined workspace path.
Proof.
  unfold path_is_workspace_local, confined. cbv zeta. fold (path_text path). set (posix := path_text path).
  destruct (bool_decide (posix = []) || _); [done|]. destruct (home_relative posix); [done|].
  destruct (bool_decide (_ = [])); [done|]. destruct (under_unsafe_prefix _) eqn:Hu; [done|].
  fold (path_parts posix). destruct (py_in ($"..") (path_parts posix)) eqn:Hd; [done|]. apply py_in_false in Hd.
  destruct workspace as [w|].
  2: { intros Ha%negb_true_iff%orb_false_iff. by destruct Ha. }
  destruct (workspace_anchor (Some w)) as [anchor|] eqn:Ha; [|done]. destruct (anchor_parts _ _ Ha) as [Hne Hda].
  intros Hlocal. split; [done|]. split; [done|].
  destruct (startswith ($"/") posix || bool_decide (posix !! 1%nat = Some 58)) eqn:Habs.
  - apply existsb_exists in Hlocal as (form & Hform & (prefix & Hprefix & Hp)%existsb_exists).
    apply list_elem_of_In in Hform, Hprefix. destruct (prefix_parts _ _ Hp) as [rest Hrest].
    exists anchor, rest. split; [done|]. right. eauto.
  - apply orb_false_iff in Habs as [Habs _]. exists anchor, (path_parts posix). split; [done|]. left. split; [done|].
    rewrite norm_parts_no_dotdot; rewrite path_parts_join by done; [done|]. by intros [?|?]%elem_of_app.
Qed.

(** The programs the floor lets run. *)
Definition EMERGENCY_BINARIES : list pystr :=
  [$"pwd"; $"true"; $"which"; $"ls"; $"dir"; $"find"; $"git"; $"hol-guard"; $"plugin-guard"] ++ SAFE_INSPECTION_BINARIES.

Lemma binary_listed binary args : binary_is_emergency_safe binary args = true → binary ∈ EMERGENCY_BINARIES.
Proof.
  intros Hb. unfold binary_is_emergency_safe in Hb. cbv zeta in Hb.
  assert (∀ l, py_in binary l = true → Forall (λ b, b ∈ EMERGENCY_BINARIES) l → binary ∈ EMERGENCY_BINARIES) as Hin.
  { intros l Hl%py_in_true. rewrite Forall_forall. auto. }
  repeat match type of Hb with
  | (if py_in binary ?l then _ else _) = true =>
      destruct (py_in binary l) eqn:E;
      [apply (Hin _ E), (bool_decide_eq_true_1 _); vm_compute; reflexivity | clear E]
  | (if bool_decide (binary = ?x) then _ else _) = true =>
      destruct (decide (binary = x)) as [->|E];
      [apply (bool_decide_eq_true_1 _); vm_compute; reflexivity | rewrite (bool_decide_eq_false_2 _ E) in Hb; clear E]
  end.
  done.
Qed.

(** A command's words: non-empty text of at most 4096 characters, without
    shell syntax. *)
Lemma command_words_spec command words :
  command_words command = Some words →
  shlex_split (strip command) = Ok words ∧ (length (strip command) <= 4096)%nat
  ∧ Forall (λ marker, contains marker (strip command) = false) UNSAFE_SHELL_MARKERS.
Proof.
  unfold command_words. cbv zeta. destruct (_ || (4096 <? _)%nat) eqn:El; [done|].
  destruct (existsb _ UNSAFE_SHELL_MARKERS) eqn:Em; [done|]. destruct (shlex_split _) as [w|]; [|done]. intros [= <-].
  apply orb_false_iff in El as [_ El%Nat.ltb_ge]. apply existsb_false in Em. by split_and!.
Qed.

(** An argument the floor has judged: no reading of it as a path is a secret,
    and if it looks like a path it is confined. *)
Definition judged (workspace home_dir : option pystr) (token : pystr) : Prop :=
  classify_secret_path token workspace home_dir = None
  ∧ classify_secret_path (path_token_value token) workspace home_dir = None
  ∧ (token_looks_like_path token = true → confined workspace (path_token_value token)).

Lemma classify_empty workspace home_dir : classify_secret_path [] workspace home_dir = None.
Proof. reflexivity. Qed.
Lemma is_secret_false path workspace home_dir :
  negb (bool_decide (path = [])) && is_secret path workspace home_dir = false →
  classify_secret_path path workspace home_dir = None.
Proof.
  unfold is_secret. destruct (decide (path = [])) as [->|]; [done|]. rewrite (bool_decide_eq_false_2 (path = [])) by done.
  cbn [negb andb]. rewrite bool_decide_eq_false. by intros ?%eq_None_not_Some.
Qed.

(** What an accepted command is. *)
Definition inspection_command (workspace home_dir : option pystr) (command : pystr) : Prop :=
  ∃ program args, shlex_split (strip command) = Ok (program :: args)
    ∧ Forall (λ marker, contains marker (strip command) = false) UNSAFE_SHELL_MARKERS
    ∧ py_lower (path_name program) ∈ EMERGENCY_BINARIES
    ∧ binary_is_emergency_safe (py_lower (path_name program)) args = true
    ∧ Forall (judged workspace home_dir) args.

Lemma command_inspection command workspace home_dir :
  command_is_emergency_safe command workspace home_dir = true → inspection_command workspace home_dir command.
Proof.
  unfold command_is_emergency_safe. destruct (command_words command) as [[|program args]|] eqn:Hw; [done| |done].
  destruct (command_words_spec _ _ Hw) as (Hs & _ & Hm).
  intros Hsafe. assert (∀ b c : bool, (if b then false else c) = true → b = false ∧ c = true) as Hif by (by intros [] []).
  apply Hif in Hsafe as [E1 [E2 Hb]%Hif]. exists program, args.
  split; [done|]. split; [done|]. split; [exact (binary_listed _ _ Hb)|]. split; [done|].
  apply Forall_forall. intros token Ht. apply (existsb_all_false _ _ token) in E1, E2; [|done..].
  unfold token_is_secret_sensitive in E1. cbn [app existsb] in E1. rewrite !orb_false_iff in E1. destruct E1 as (S1 & S2 & _).
  split; [by apply is_secret_false|]. split; [by apply is_secret_false|]. intros Hl. cbn beta in E2. rewrite Hl in E2.
  apply negb_false_iff in E2. by apply local_confined.
Qed.

Lemma outside_service_false payload :
  outside_service payload = false →
  $"beforemcpexecution" ∉ payload_source_events payload ∧ startswith ($"mcp") (tool_name payload) = false
  ∧ tool_name payload ≠ $"call_mcp_tool" ∧ startswith ($"plugin-") (tool_name payload) = false.
Proof.
  intros [[[He%py_in_false Hs]%orb_false_iff Hn%py_in_false]%orb_false_iff Hp]%orb_false_iff.
  split_and!; [done..| |done]. intros E. apply Hn. rewrite E. right; left.
Qed.

(** C12: The emergency floor is sound: a payload that may continue without
    native review is a pre-tool event, not of an MCP server (by its event or
    by its tool's name) or a plugin (by its tool's name), whose
    tool writes nothing; each path it names resolves inside the workspace and
    is not a secret's; and it either runs a command -- one of a fixed list of
    inspection programs, judged by its name, in a text without pipes,
    redirections, substitutions or separators, every argument of which that
    looks like a path is confined and none a secret -- or names at least one
    path, to a tool of the inspection list or of no name. *)
Theorem emergency_floor_sound payload workspace home_dir :
  hook_action_is_emergency_safe payload workspace home_dir = true →
  let w := effective_workspace payload workspace in
  runtime_hook_event_name payload = $"PreToolUse"
  ∧ ($"beforemcpexecution" ∉ payload_source_events payload ∧ startswith ($"mcp") (tool_name payload) = false
     ∧ tool_name payload ≠ $"call_mcp_tool" ∧ startswith ($"plugin-") (tool_name payload) = false)
  ∧ blocked_source payload = false ∧ mutating_tool (tool_name payload) = false
  ∧ Forall (λ p, confined w p ∧ classify_secret_path p w home_dir = None) (payload_paths payload)
  ∧ match payload_command payload with
    | Some command => inspection_command w home_dir command
    | None => payload_paths payload ≠ [] ∧ (tool_name payload ∈ INSPECTION_TOOLS ∨ tool_name payload = [])
    end.
Proof.
  unfold hook_action_is_emergency_safe. cbv zeta. set (w := effective_workspace payload workspace).
  destruct (bool_decide (_ = $"PreToolUse")) eqn:Hev; [|done]. apply bool_decide_eq_true in Hev. cbn [negb].
  destruct (blocked_source payload) eqn:Hsrc; [done|]. destruct (outside_service payload) eqn:Hout; [done|].
  apply outside_service_false in Hout. destruct (mutating_tool _) eqn:Hmut; [done|].
  destruct (existsb _ (payload_paths payload)) eqn:Hp; [done|]. intros Hsafe.
  repeat (split; [done|]). split.
  - apply Forall_forall. intros p Hin. apply (existsb_all_false _ _ p) in Hp; [|done].
    apply orb_false_iff in Hp as [Hs%bool_decide_eq_false%eq_None_not_Some Hl%negb_false_iff]. split; [by apply local_confined | done].
  - destruct (payload_command payload) as [command|]; [by apply command_inspection|].
    destruct (py_in (tool_name payload) INSPECTION_TOOLS) eqn:Ht.
    + apply negb_true_iff, bool_decide_eq_false in Hsafe. apply py_in_true in Ht. auto.
    + apply andb_true_iff in Hsafe as [Hne%negb_true_iff%bool_decide_eq_false Hn%py_in_true].
      split; [done|]. apply elem_of_cons in Hn as [Hn|Hn%list_elem_of_singleton]; [by right|].
      rewrite Hn in Ht. vm_compute in Ht. discriminate Ht.
Qed.

(** The exact repair commands. *)
Definition repair_command (command : pystr) : Prop :=
  ∃ program args positional,
    shlex_split (strip command) = Ok (program :: args) ∧ program ∈ LAUNCHER_REPAIR_BINARIES
    ∧ positional = filter (λ a, startswith ($"-") a = false) args
    ∧ Forall (λ a, startswith ($"-") a = true → a ∈ LAUNCHER_REPAIR_FLAGS) args
    ∧ (positional = [$"update"] ∨ positional = [$"daemon"; $"repair"] ∨ positional = [$"daemon"; $"status"]
       ∨ ∃ harness, positional = [$"install"; harness] ∧ harness ∈ LAUNCHER_REPAIR_HARNESSES).

Lemma before_char_absent sep s : sep ∉ s → before_char sep s = s.
Proof.
  unfold before_char. induction s as [|c s IH]; intros Hn; cbn [partition_char]; [done|].
  apply not_elem_of_cons in Hn as [Hc Hs]. destruct (Z.eqb_spec c sep) as [->|]; [done|].
  specialize (IH Hs). destruct (partition_char sep s) as [[a f] b]. cbn in *. by rewrite IH.
Qed.

Lemma repair_positionals_spec args positional :
  repair_positionals args = Some positional →
  positional = filter (λ a, startswith ($"-") a = false) args
  ∧ Forall (λ a, startswith ($"-") a = true → a ∈ LAUNCHER_REPAIR_FLAGS) args.
Proof.
  revert positional. induction args as [|a args IH]; intros positional; cbn [repair_positionals]; [intros [= <-]; by split|].
  rewrite filter_cons. destruct (startswith ($"-") a) eqn:Ha.
  - destruct (negb _ || py_in 61 a) eqn:Hf; [done|]. apply orb_false_iff in Hf as [Hf%negb_false_iff%py_in_true He%py_in_false].
    unfold flag_name in Hf. rewrite before_char_absent in Hf by done. intros [-> Hall]%IH.
    rewrite decide_False by done. split; [done|]. by constructor.
  - intros (rest & Hr & [= <-])%bind_Some. apply IH in Hr as [-> Hall]. rewrite decide_True by done.
    split; [done|]. constructor; [congruence | done].
Qed.

Lemma repair_shape_spec positional :
  repair_shape positional = true →
  positional = [$"update"] ∨ positional = [$"daemon"; $"repair"] ∨ positional = [$"daemon"; $"status"]
  ∨ ∃ harness, positional = [$"install"; harness] ∧ harness ∈ LAUNCHER_REPAIR_HARNESSES.
Proof.
  destruct positional as [|first rest]; [done|]. cbn [repair_shape].
  destruct (decide (first = $"install")) as [->|]; [rewrite bool_decide_eq_true_2 by done|rewrite bool_decide_eq_false_2 by done].
  { destruct rest as [|h [|]]; try done. intros ?%py_in_true. eauto 10. }
  destruct (decide (first = $"update")) as [->|]; [rewrite bool_decide_eq_true_2 by done|rewrite bool_decide_eq_false_2 by done].
  { intros Hr%bool_decide_eq_true. subst rest. by left. }
  case_bool_decide as Hd; [subst first|done].
  intros Hr%py_in_true. apply elem_of_cons in Hr as [Hr|Hr%list_elem_of_singleton]; subst rest; auto.
Qed.

(** Launcher recovery adds exactly the repair commands: what it accepts
    carries no payload reference and is either within the emergency floor, or
    a pre-tool call of a shell whose command is, word for word, the bare name
    of a launcher with [install] of a known harness, [update], [daemon repair]
    or [daemon status], with no flags but the three of the repair. *)
Theorem launcher_recovery_exact payload workspace home_dir :
  hook_action_is_launcher_recovery_safe payload workspace home_dir = true →
  dict_lookup ($"guard_payload_ref") payload = None
  ∧ (hook_action_is_emergency_safe payload workspace home_dir = true
     ∨ runtime_hook_event_name payload = $"PreToolUse" ∧ payload_is_mcp payload = false
       ∧ mutating_tool (tool_name payload) = false
       ∧ ∃ command, payload_command payload = Some command ∧ repair_command command).
Proof.
  unfold hook_action_is_launcher_recovery_safe. destruct (bool_decide (is_Some _)) eqn:Href; [done|].
  apply bool_decide_eq_false, eq_None_not_Some in Href. intros Hs. split; [done|]. revert Hs.
  destruct (hook_action_is_emergency_safe _ _ _); [by left|]. destruct (bool_decide (_ = $"PreToolUse")) eqn:Hev; [|done].
  apply bool_decide_eq_true in Hev. cbn [negb]. destruct (mutating_tool _) eqn:Hmut; [done|].
  destruct (blocked_source payload); [done|]. destruct (outside_service payload) eqn:Hout; [done|].
  apply orb_false_iff in Hout as [Hmcp _]. destruct (payload_command payload) as [command|]; [|done].
  unfold command_is_launcher_repair. destruct (command_words command) as [[|program [|a args]]|] eqn:Hw; try done.
  destruct (py_in program _) eqn:Hprog; [|done]. cbn [negb]. destruct (repair_positionals _) as [positional|] eqn:Hpos; [|done].
  intros Hshape. right. repeat (split; [done|]). exists command. split; [done|].
  apply command_words_spec in Hw as (Hw & _). apply repair_positionals_spec in Hpos as [Hpos Hflags].
  exists program, (a :: args), positional. apply py_in_true in Hprog. apply repair_shape_spec in Hshape. by split_and!.
Qed.

(** The floor judges a program by the last component of its path alone:
    two commands with the same arguments, whose programs differ only in their
    directory, get the same verdict.  So a program of an inspection tool's
    name is accepted wherever it lies, and a path-qualified launcher too,
    which the launcher recovery's documentation rules out. *)
Theorem program_judged_by_name command command' program program' args workspace home_dir :
  command_words command = Some (program :: args) → command_words command' = Some (program' :: args) →
  path_name program = path_name program' →
  command_is_emergency_safe command workspace home_dir = command_is_emergency_safe command' workspace home_dir.
Proof. unfold command_is_emergency_safe. intros -> -> ->. reflexivity. Qed.

End floor.

(** ** Concrete payloads *)

Notation shell_payload command :=
  [($"hook_event_name", PStr ($"PreToolUse")); ($"cwd", PStr ($"/home/ann/project"));
   ($"tool_input", PDict [($"command", PStr ($command))])] (only parsing).

Lemma emergency_floor_sound_witness :
  hook_action_is_emergency_safe (H:=ascii_unicode) ($"/home/ann") (shell_payload "grep -n 'TODO list' src/app.ts") None None = true
  ∧ inspection_command (H:=ascii_unicode) ($"/home/ann") (Some ($"/home/ann/project")) None
      ($"grep -n 'TODO list' src/app.ts").
Proof.
  split; [vm_compute; reflexivity|].
  apply (emergency_floor_sound (H:=ascii_unicode) ($"/home/ann") (shell_payload "grep -n 'TODO list' src/app.ts") None None).
  vm_compute. reflexivity.
Defined.

Lemma launcher_recovery_exact_witness :
  hook_action_is_launcher_recovery_safe (H:=ascii_unicode) ($"/home/ann") (shell_payload "hol-guard install codex --json") None None
    = true
  ∧ repair_command ($"hol-guard install codex --json").
Proof.
  split; [vm_compute; reflexivity|].
  destruct (launcher_recovery_exact (H:=ascii_unicode) ($"/home/ann") (shell_payload "hol-guard install codex --json") None None)
    as [_ [E|(_ & _ & _ & command & E & Hr)]]; [vm_compute; reflexivity | vm_compute in E; discriminate E |].
  assert (command = $"hol-guard install codex --json") as <-; [|exact Hr].
  vm_compute in E. injection E as <-. vm_compute. reflexivity.
Defined.

Lemma program_judged_by_name_witness :
  command_is_emergency_safe (H:=ascii_unicode) ($"/home/ann") ($"/tmp/elsewhere/hol-guard status") None None
  = command_is_emergency_safe (H:=ascii_unicode) ($"/home/ann") ($"hol-guard status") None None
  ∧ hook_action_is_launcher_recovery_safe (H:=ascii_unicode) ($"/home/ann") (shell_payload "/tmp/elsewhere/hol-guard status")
      None None = true.
Proof.
  split; [|vm_compute; reflexivity].
  apply (program_judged_by_name (H:=ascii_unicode) ($"/home/ann") _ _ ($"/tmp/elsewhere/hol-guard") ($"hol-guard") [$"status"]);
    vm_compute; reflexivity.
Defined.
End HookFloor.
