(* ===== verification/HookResponses.v ===== *)
(** * Harness responses of hook review

    Models the renderers that turn a native decision into the JSON a harness
    reads: [daemon/hook_pretool_rendering.py], the response functions of
    [daemon/hook_worker_responses.py], and the responses of
    [daemon/hook_availability_policy.py] when review is unavailable.  [x in s]
    of a list or dictionary raises [TypeError], so renderers return a [result].
    [str] of a value that is no string, and the text a review's approval link
    adds to its reason, are parameters.

    The theorems: rendering a pre-tool decision keeps its floor, for every
    harness and every response; a review is never rendered as a permission; an
    unavailable review denies. *)

From S2P Require Import Prelude PyStr Sha256 Regex PyVal PyPath NativeObservations HookFloor.
Local Open Scope Z_scope.
Local Open Scope py_scope.

Module HookResponses.
Import HookFloor.

(** [value in {...}] for a set of strings *)
Definition in_set (v : pyval) (s : list pystr) : result bool :=
  match v with
  | PStr t => Ok (py_in t s)
  | PList _ | PDict _ => Raise (TypeError "unhashable type")
  | _ => Ok false
  end.
(** [value == text] *)
Definition is_text (v : pyval) (t : pystr) : bool := py_eqb v (PStr t).
(** [a and b] *)
Definition and_then (a b : result bool) : result bool := x ← a ; if (x : bool) then b else Ok false.
Definition or_else (a b : result bool) : result bool := x ← a ; if (x : bool) then Ok true else b.
(** [all(p(item) for item in items)] *)
Fixpoint all_of (p : pyval → result bool) (items : list pyval) : result bool :=
  match items with [] => Ok true | item :: items => and_then (p item) (all_of p items) end.

Section responses.
Context `{PyUnicode}.
Variable object_str : pyval → pystr.
Variable native_review_reason : pystr → pystr → pystr → pystr.

(** [str(value or default)] *)
Definition str_or (v : pyval) (default : pystr) : pystr :=
  if Native.truthy v then match v with PStr s => s | _ => object_str v end else default.

Definition canonical_hook_harness (harness : pystr) : pystr :=
  (λ c, if c =? 95 then 45 else c) <$> py_lower (strip harness).

Definition GROK_DECISION_HARNESSES : list pystr := [$"grok"; $"openclaw"].
Definition SILENT_WARNING_CODES : list pystr := [$"native_policy_observed"].

(** ** Pre-tool decisions *)

Definition CONTAINMENT_PROFILES : list (pystr * pystr) :=
  [($"native_python_eval_readonly_containment_required", $"python-eval-readonly-v1");
   ($"native_node_eval_readonly_containment_required", $"node-eval-readonly-v1");
   ($"native_package_test_readonly_containment_required", $"package-test-readonly-v1");
   ($"native_node_build_output_containment_required", $"node-build-output-v1");
   ($"native_node_tool_readonly_containment_required", $"node-tool-readonly-v1");
   ($"native_git_readonly_containment_required", $"git-readonly-v1");
   ($"native_vitest_readonly_containment_required", $"vitest-readonly-v1");
   ($"native_node_test_readonly_containment_required", $"node-test-readonly-v1");
   ($"native_pytest_readonly_containment_required", $"pytest-readonly-v2")].

Definition git_observation (item : pyval) : result bool :=
  match item with
  | PDict d =>
      and_then (in_set (dict_get ($"rule_id") d) [$"command.git.diff"; $"command.git.log"; $"command.git.show"])
        (Ok (py_eqb (dict_get ($"uncertainty_reasons") d) (PList [])
             && py_eqb (dict_get ($"effective_segment_indexes") d) (PList [PInt 0])))
  | _ => Ok false
  end.
Definition package_observation (item : pyval) : result bool :=
  match item with
  | PDict d =>
      Ok (is_text (dict_get ($"extension_id") d) ($"command.package.node")
          && is_text (dict_get ($"permission_id") d) ($"command.package.node.permission.package-protection")
          && py_eqb (dict_get ($"uncertainty_reasons") d) (PList []))
  | _ => Ok false
  end.

(** The evidence under which a containment receipt is rendered. *)
Definition contained_evidence (reason_code : pystr) (extensions : pyval) : result bool :=
  match extensions with
  | PDict ext =>
      match dict_get ($"binding") ext with
      | PDict binding =>
          and_then (Ok (match dict_get ($"uncertainty_count") binding with PInt n => n =? 0 | _ => false end
                        && match dict_get ($"evaluation_error") ext with PNone => true | _ => false end))
          (and_then
            (or_else (Ok (py_eqb (dict_get ($"observations") ext) (PList [])))
               (if bool_decide (reason_code = $"native_git_readonly_containment_required")
                then match dict_get ($"observations") ext with PList items => all_of git_observation items | _ => Ok false end
                else Ok false))
            (or_else (Ok (py_eqb (dict_get ($"permission_observations") ext) (PList [])))
               (if py_in reason_code [$"native_vitest_readonly_containment_required";
                     $"native_package_test_readonly_containment_required";
                     $"native_node_tool_readonly_containment_required"; $"native_node_build_output_containment_required"]
                then match dict_get ($"permission_observations") ext with
                     | PList items => all_of package_observation items
                     | _ => Ok false
                     end
                else Ok false)))
      | _ => Ok false
      end
  | _ => Ok false
  end.

(** The containment condition, before the evidence. *)
Definition containment_required (canonical reason_code : pystr) (response : pydict) : bool :=
  py_in canonical [$"omp"; $"zcode"] && is_text (dict_get ($"minimum_action") response) ($"sandbox-required")
  && is_text (dict_get ($"policy_action") response) ($"sandbox-required")
  && is_text (dict_get ($"decision") response) ($"deny") && is_text (dict_get ($"authority") response) ($"rust")
  && is_text (dict_get ($"schema") response) ($"guard-pre-tool-result.v1")
  && py_in reason_code (CONTAINMENT_PROFILES.*1).

(** [hookSpecificOutput] of a denied pre-tool event *)
Definition pre_tool_specific (permission reason : pystr) : pyval :=
  PDict [($"hookEventName", PStr ($"PreToolUse")); ($"permissionDecision", PStr permission);
         ($"permissionDecisionReason", PStr reason)].

Definition containment_receipt (canonical reason_code reason : pystr) : pydict :=
  [($"decision", PStr ($"deny")); ($"policy_action", PStr ($"sandbox-required")); ($"reason_code", PStr reason_code);
   ($"reason", PStr reason);
   ($"required_execution_profile", PStr (default [] (dict_lookup reason_code CONTAINMENT_PROFILES)))]
  ++ (if bool_decide (canonical = $"zcode") then [($"hookSpecificOutput", pre_tool_specific ($"deny") reason)] else []).

Definition render_allow (canonical : pystr) (action : pyval) (reason_code reason : pystr) : pydict :=
  let noticed := is_text action ($"warn") && negb (py_in reason_code SILENT_WARNING_CODES) in
  if py_in canonical [$"pi"; $"omp"] then
    [($"decision", PStr ($"allow")); ($"policy_action", action); ($"reason_code", PStr reason_code)]
    ++ (if noticed then [($"reason", PStr reason); ($"notice", PStr ($"warning"))] else [])
  else
    let hook_specific := PDict ([($"hookEventName", PStr ($"PreToolUse")); ($"permissionDecision", PStr ($"allow"))]
                                ++ (if noticed then [($"permissionDecisionReason", PStr reason)] else [])) in
    if py_in canonical GROK_DECISION_HARNESSES then
      [($"decision", PStr ($"allow")); ($"policy_action", action); ($"reason_code", PStr reason_code);
       ($"hookSpecificOutput", hook_specific)] ++ (if noticed then [($"reason", PStr reason)] else [])
    else [($"continue", PBool true); ($"policy_action", action); ($"reason_code", PStr reason_code);
          ($"hookSpecificOutput", hook_specific)].

Definition render_deny (canonical reason_code reason : pystr) : pydict :=
  if py_in canonical [$"pi"; $"omp"] then
    [($"decision", PStr ($"deny")); ($"reason", PStr reason); ($"model_output_action", PStr ($"block"));
     ($"notice", PStr ($"warning")); ($"policy_action", PStr ($"block")); ($"reason_code", PStr reason_code)]
  else if py_in canonical GROK_DECISION_HARNESSES then
    [($"decision", PStr ($"deny")); ($"reason", PStr reason); ($"policy_action", PStr ($"block"));
     ($"reason_code", PStr reason_code); ($"hookSpecificOutput", pre_tool_specific ($"deny") reason)]
  else [($"policy_action", PStr ($"block")); ($"reason_code", PStr reason_code);
        ($"hookSpecificOutput", pre_tool_specific ($"deny") reason)].

Definition harness_json_from_native_pre_tool (harness : pystr) (response : pydict) : result pydict :=
  let action := dict_get ($"minimum_action") response in
  let reason := str_or (dict_get ($"reason") response) ($"HOL Guard requires native review before execution.") in
  let reason_code := str_or (dict_get ($"reason_code") response) ($"native_pre_tool_review") in
  let canonical := canonical_hook_harness harness in
  contained ← (if containment_required canonical reason_code response
               then contained_evidence reason_code (dict_get ($"command_extensions") response) else Ok false) ;
  if contained : bool then Ok (containment_receipt canonical reason_code reason)
  else
    allowed ← in_set action [$"allow"; $"warn"] ;
    if (allowed : bool) && is_text (dict_get ($"decision") response) ($"allow")
    then Ok (render_allow canonical action reason_code reason)
    else Ok (render_deny canonical reason_code reason).




(** ** Prompts *)

Definition PROMPT_RISK_CLASSES : list pystr :=
  [$"local_env_read"; $"sensitive_material"; $"exfil_intent"; $"destructive_intent"; $"subprocess_intent";
   $"guard_bypass_intent"; $"prompt_injection_intent"].
Definition PROMPT_RISK_LABELS : list (pystr * pystr) :=
  [($"local_env_read", $"Prompt requests a local .env file.");
   ($"sensitive_material", $"Prompt requests potentially sensitive local material.");
   ($"exfil_intent", $"Prompt includes exfiltration-oriented transfer intent.");
   ($"destructive_intent", $"Prompt includes a destructive local action.");
   ($"subprocess_intent", $"Prompt requests subprocess execution.");
   ($"guard_bypass_intent", $"Prompt includes Guard bypass intent.");
   ($"prompt_injection_intent", $"Prompt asks to override trusted instructions.")].

Fixpoint position (x : pystr) (l : list pystr) : option nat :=
  match l with [] => None | y :: l => if decide (x = y) then Some O else S <$> position x l end.
(** Strictly increasing, as [indexes == sorted(set(indexes))] says. *)
Fixpoint ascending (l : list nat) : bool :=
  match l with a :: ((b :: _) as l') => (a <? b)%nat && ascending l' | _ => true end.
(** The classes of a valid list, in its order. *)
Definition prompt_classes (v : pyval) : option (list pystr) :=
  match v with
  | PList items =>
      if (length items =? 0)%nat || (6 <? length items)%nat then None
      else
        names ← mapM (λ item, match item with PStr s => Some s | _ => None end) items ;
        indexes ← mapM (λ s, position s PROMPT_RISK_CLASSES) names ;
        if ascending indexes then Some names else None
  | _ => None
  end.
Definition valid_prompt_risk_classes (v : pyval) : bool := bool_decide (is_Some (prompt_classes v)).
Definition risk_signals (v : pyval) : list pyval :=
  match prompt_classes v with
  | Some names => (λ n, PStr (default [] (dict_lookup n PROMPT_RISK_LABELS))) <$> names
  | None => []
  end.

Definition prompt_event : pyval := PDict [($"hookEventName", PStr ($"UserPromptSubmit"))].

Definition harness_json_from_native_prompt (harness : pystr) (response : pydict) : result pydict :=
  let canonical := canonical_hook_harness harness in
  if bool_decide (canonical = $"grok") then Ok []
  else
    let action := dict_get ($"minimum_action") response in
    let reason_code := str_or (dict_get ($"reason_code") response) ($"native_prompt_unavailable") in
    let signals := risk_signals (dict_get ($"prompt_risk_classes") response) in
    allowed ← (if is_text (dict_get ($"decision") response) ($"allow") then in_set action [$"allow"; $"warn"] else Ok false) ;
    if allowed : bool then
      if bool_decide (canonical = $"codex") then Ok [($"hookSpecificOutput", prompt_event)]
      else Ok ([($"policy_action", action); ($"reason_code", PStr reason_code); ($"hookSpecificOutput", prompt_event)]
               ++ (if negb (bool_decide (length signals = 0%nat)) && negb (bool_decide (canonical = $"copilot"))
                   then [($"risk_signals", PList signals)] else []))
    else
      let reason := str_or (dict_get ($"reason") response) ($"HOL Guard could not complete native prompt review safely.") in
      known ← in_set action [$"review"; $"require-reapproval"; $"sandbox-required"; $"block"] ;
      let policy_action := if known : bool then action else PStr ($"block") in
      if bool_decide (canonical = $"copilot") then
        Ok [($"behavior", PStr ($"deny")); ($"message", PStr reason); ($"interrupt", PBool false);
            ($"policy_action", policy_action); ($"reason_code", PStr reason_code)]
      else
        let codex := bool_decide (canonical = $"codex") in
        Ok ([($"decision", PStr ($"block")); ($"reason", PStr reason); ($"systemMessage", PStr reason);
             ($"policy_action", policy_action); ($"reason_code", PStr reason_code);
             ($"hookSpecificOutput",
              if codex then PDict [($"hookEventName", PStr ($"UserPromptSubmit")); ($"additionalContext", PStr reason)]
              else prompt_event)]
            ++ (if bool_decide (length signals = 0%nat) then [] else [($"risk_signals", PList signals)])
            ++ (if codex then [($"continue", PBool false); ($"stopReason", PStr reason)] else [])).

(** ** Tool outputs *)

Definition post_tool_native_block_response (reason reason_code : pystr) : pydict :=
  [($"decision", PStr ($"block")); ($"reason", PStr reason); ($"continue", PBool true); ($"stopReason", PStr reason);
   ($"policy_action", PStr ($"block")); ($"risk_summary", PStr reason); ($"model_output_action", PStr ($"block"));
   ($"notice", PStr ($"warning")); ($"reason_code", PStr reason_code);
   ($"hookSpecificOutput", PDict [($"hookEventName", PStr ($"PostToolUse")); ($"additionalContext", PStr reason)])].

Definition post_tool_blocked_reason : pystr := $"HOL Guard blocked this tool output because it could not be proven safe.".

Definition harness_json_from_native_post_tool (harness : pystr) (response : pydict) : result pydict :=
  let canonical := canonical_hook_harness harness in
  if py_in canonical [$"pi"; $"omp"] then Ok response
  else if bool_decide (canonical = $"cline") then
    Ok (omap (λ k, (λ v, (k, v)) <$> dict_lookup k response)
          [$"decision"; $"model_output_action"; $"reviewed_output_sha256"; $"reviewed_excerpt"; $"policy_action"])
  else if is_text (dict_get ($"decision") response) ($"allow")
          && is_text (dict_get ($"model_output_action") response) ($"allow_original") then
    let action := dict_get ($"policy_action") response in
    known ← in_set action [$"allow"; $"warn"] ;
    let action := if known : bool then action else PStr ($"allow") in
    if is_text action ($"warn") then
      Ok [($"policy_action", action);
          ($"hookSpecificOutput",
           PDict [($"hookEventName", PStr ($"PostToolUse"));
                  ($"permissionDecisionReason",
                   PStr (str_or (dict_get ($"reason") response)
                     ($"HOL Guard raised a non-blocking warning under the installed native policy.")))])]
    else Ok [($"policy_action", action); ($"hookSpecificOutput", PDict [($"hookEventName", PStr ($"PostToolUse"))])]
  else Ok (post_tool_native_block_response (str_or (dict_get ($"reason") response) post_tool_blocked_reason)
             (str_or (dict_get ($"reason_code") response) ($"native_hook_edge_block"))).

(** The payload is what [response.to_harness_json()] returned, or empty. *)
Definition harness_json_from_review_response (harness event_name : pystr) (payload : pydict) : pydict :=
  if negb (bool_decide (event_name = $"PostToolUse")) then payload
  else if py_in (canonical_hook_harness harness) [$"pi"; $"omp"] then payload
  else if bool_decide (str_or (dict_get ($"decision") payload) [] = $"allow")
          && bool_decide (str_or (dict_get ($"model_output_action") payload) [] = $"allow_original") then
    [($"policy_action", PStr ($"allow")); ($"hookSpecificOutput", PDict [($"hookEventName", PStr event_name)])]
  else post_tool_native_block_response (str_or (dict_get ($"reason") payload) post_tool_blocked_reason)
         (str_or (dict_get ($"reason_code") payload) ($"fast_path_block")).

(** ** Review that cannot finish *)

Definition integrity_fail_closed_pre_tool_response (harness reason reason_code : pystr) : pydict :=
  let canonical := canonical_hook_harness harness in
  if py_in canonical [$"pi"; $"omp"] then
    [($"decision", PStr ($"deny")); ($"reason", PStr reason); ($"policy_action", PStr ($"block"));
     ($"reason_code", PStr reason_code)]
  else if py_in canonical [$"grok"; $"hermes"; $"openclaw"] then
    [($"decision", PStr (if bool_decide (canonical = $"hermes") then $"block" else $"deny")); ($"reason", PStr reason);
     ($"policy_action", PStr ($"block")); ($"reason_code", PStr reason_code)]
  else [($"policy_action", PStr ($"block")); ($"reason_code", PStr reason_code);
        ($"hookSpecificOutput", pre_tool_specific ($"deny") reason)].

Definition permission_unavailable_response (harness event_name reason reason_code : pystr) : pydict :=
  let canonical := canonical_hook_harness harness in
  if bool_decide (canonical = $"copilot") then
    [($"behavior", PStr ($"deny")); ($"message", PStr reason); ($"interrupt", PBool false); ($"reason_code", PStr reason_code)]
  else if py_in canonical [$"pi"; $"omp"] then
    [($"decision", PStr ($"allow")); ($"reason", PStr reason); ($"policy_action", PStr ($"warn"));
     ($"notice", PStr ($"warning")); ($"reason_code", PStr reason_code)]
  else if py_in canonical [$"grok"; $"hermes"; $"openclaw"] then
    [($"decision", PStr ($"allow")); ($"reason", PStr reason); ($"reason_code", PStr reason_code)]
  else [($"continue", PBool true); ($"systemMessage", PStr reason); ($"reason_code", PStr reason_code);
        ($"hookSpecificOutput", PDict [($"hookEventName", PStr event_name)])].

Definition observe_lifecycle_fail_safe_response (harness event_name reason_code : pystr) : pydict :=
  let canonical := canonical_hook_harness harness in
  if bool_decide (canonical = $"grok") then []
  else if py_in canonical [$"hermes"; $"openclaw"; $"pi"; $"omp"] then
    [($"decision", PStr ($"allow")); ($"policy_action", PStr ($"allow")); ($"reason_code", PStr reason_code)]
  else [($"continue", PBool true); ($"policy_action", PStr ($"allow")); ($"reason_code", PStr reason_code);
        ($"hookSpecificOutput", PDict [($"hookEventName", PStr event_name)])].

Definition post_tool_fail_safe_response (harness reason_code : pystr) : pydict :=
  observe_lifecycle_fail_safe_response harness ($"PostToolUse") reason_code.

(** ** The availability policy *)

Definition LIFECYCLE_OBSERVE_EVENTS : list pystr :=
  [$"SessionStart"; $"SessionEnd"; $"SubagentStart"; $"SubagentStop"; $"Stop"; $"Notification"; $"TaskStart"; $"TaskError";
   $"SessionShutdown"; $"PermissionDenied"].
Definition compact_hook_event_name (event_name : pystr) : pystr := compact_name (strip event_name).
Definition LIFECYCLE_CANONICAL_BY_COMPACT : list (pystr * pystr) :=
  ((λ name, (compact_hook_event_name name, name)) <$> LIFECYCLE_OBSERVE_EVENTS)
  ++ [($"userpromptsubmit", $"UserPromptSubmit"); ($"userpromptsubmitted", $"UserPromptSubmit");
      ($"subagentend", $"SubagentStop")].
Definition canonical_lifecycle (compact : pystr) : option pystr := dict_lookup compact LIFECYCLE_CANONICAL_BY_COMPACT.

Definition lifecycle_event_is_observe_only (event_name : pystr) : bool :=
  let compact := compact_hook_event_name event_name in
  bool_decide (is_Some (canonical_lifecycle compact)) && negb (py_in compact [$"userpromptsubmit"; $"userpromptsubmitted"]).

Definition hook_event_pauses_when_unavailable (event_name : pystr) : bool :=
  let compact := compact_hook_event_name event_name in
  if py_in compact [$"userpromptsubmit"; $"userpromptsubmitted"] then true
  else if bool_decide (is_Some (canonical_lifecycle compact)) then false
  else if py_in compact [$"posttooluse"; $"posttool"] || startswith ($"after") compact then false
  else negb (py_in compact [$"posttooluse"; $"posttool"]) && negb (startswith ($"after") compact).

Definition DECISION_HOOK_HARNESSES : list pystr := [$"grok"; $"hermes"; $"openclaw"; $"pi"; $"omp"].
Definition PERMISSION_REQUEST_EVENTS : list pystr := [$"permissionrequest"; $"permissionrequestv2"; $"copilotpermissionrequest"].
Definition REVIEW_CANNOT_FINISH_REASON_CODES : list pystr :=
  [$"native_hook_disabled"; $"native_shadow_diagnostic_disabled"; $"native_policy_not_ready";
   $"native_hook_event_unavailable"; $"native_pre_tool_unavailable"; $"native_post_tool_unavailable"; $"native_overloaded";
   $"native_hook_worker_unavailable"; $"native_hook_worker_unavailable_before_compatibility";
   $"native_hook_worker_unsupported"; $"native_hook_worker_exception"; $"native_hook_compatibility_disabled";
   $"native_hook_edge_invalid_response"; $"native_hook_edge_unavailable"; $"python_hook_oracle_unavailable";
   $"python_oracle_exception"; $"watch_recording_only"; $"daemon_hook_queue_capacity"; $"daemon_hook_deadline_exhausted";
   $"daemon_hook_process_deadline_exhausted"; $"daemon_hook_process_not_ready"; $"daemon_hook_process_failed";
   $"daemon_hook_process_invalid_request"; $"daemon_hook_process_guard_home_mismatch"; $"daemon_worker_exception";
   $"harness_not_managed"; $"native_degraded_emergency_safe"].
Definition INTEGRITY_FAIL_CLOSED_REASON_CODES : list pystr := [$"invalid_hook_payload_reference"; $"daemon_hook_queue_bytes"].

Definition hook_event_is_permission_request (event_name : pystr) : bool :=
  py_in (compact_hook_event_name event_name) PERMISSION_REQUEST_EVENTS.

Definition hook_reason_continues_session (reason_code : pystr) : bool :=
  let code := strip reason_code in
  if py_in code INTEGRITY_FAIL_CLOSED_REASON_CODES then false else py_in code REVIEW_CANNOT_FINISH_REASON_CODES.

Definition recording_only_pre_tool_response (harness reason_code reason : pystr) : result pydict :=
  if py_in (canonical_hook_harness harness) DECISION_HOOK_HARNESSES then
    Ok [($"decision", PStr ($"allow")); ($"policy_action", PStr ($"warn")); ($"reason_code", PStr reason_code);
        ($"reason", PStr reason)]
  else
    harness_json_from_native_pre_tool harness
      [($"decision", PStr ($"allow")); ($"minimum_action", PStr ($"warn")); ($"policy_action", PStr ($"warn"));
       ($"reason_code", PStr reason_code); ($"reason", PStr reason)].

Definition availability_harness_response (harness event_name reason_code reason : pystr) (recording_only : bool)
    : result pydict :=
  let compact := compact_hook_event_name event_name in
  match canonical_lifecycle compact with
  | Some canonical =>
      if bool_decide (canonical = $"UserPromptSubmit") && negb recording_only then
        harness_json_from_native_prompt harness
          [($"decision", PStr ($"deny")); ($"minimum_action", PStr ($"block"));
           ($"reason_code", PStr ($"native_prompt_unavailable"));
           ($"reason", PStr ($"HOL Guard could not complete native prompt review safely."))]
      else Ok (observe_lifecycle_fail_safe_response harness canonical reason_code)
  | None =>
      if hook_event_is_permission_request event_name then
        Ok (permission_unavailable_response harness event_name reason reason_code)
      else if py_in compact [$"pretooluse"; $"pretool"] || startswith ($"before") compact then
        if recording_only && negb (py_in (strip reason_code) INTEGRITY_FAIL_CLOSED_REASON_CODES) then
          recording_only_pre_tool_response harness reason_code reason
        else Ok (integrity_fail_closed_pre_tool_response harness reason reason_code)
      else Ok (observe_lifecycle_fail_safe_response harness event_name reason_code)
  end.

(** Cursor's answers, with the exit status. *)
Definition cursor_after (hook_event_name : pystr) : bool :=
  py_in (compact_hook_event_name hook_event_name) [$"aftershellexecution"; $"aftermcpexecution"].
Definition cursor_fallback_permission (hook_event_name : pystr) : pydict * Z :=
  if cursor_after hook_event_name then ([], 0)
  else
    let reason := $"Guard could not complete a trusted hook decision. Retry or repair Guard from a terminal." in
    ([($"permission", PStr ($"deny")); ($"user_message", PStr reason); ($"agent_message", PStr reason)], 2).
Definition cursor_unparseable_input_permission (hook_event_name : pystr) (recording_only : bool) : pydict * Z :=
  if cursor_after hook_event_name then ([], 0)
  else if recording_only then ([($"permission", PStr ($"allow"))], 0)
  else ([($"permission", PStr ($"deny"));
         ($"user_message",
          PStr ($"Guard could not process this hook request safely. Retry or repair Guard from a terminal."))], 2).

(** ** What a harness reads *)

(** The harness-specific part. *)
Definition specific (out : pydict) : pydict :=
  match dict_get ($"hookSpecificOutput") out with PDict d => d | _ => [] end.
(** The answer stops it, for good or until it is approved. *)
Definition denies (out : pydict) : bool :=
  is_text (dict_get ($"decision") out) ($"deny") || is_text (dict_get ($"decision") out) ($"block")
  || is_text (dict_get ($"permissionDecision") (specific out)) ($"deny")
  || is_text (dict_get ($"permissionDecision") (specific out)) ($"ask")
  || is_text (dict_get ($"behavior") out) ($"deny").


(** The evidence under which a containment receipt may be given: the command
    evaluation raised no error and no uncertainty, and observed nothing, or
    nothing but certain observations of the one kind that the receipt's reason
    allows. *)
Record contained (reason_code : pystr) (extensions : pyval) : Prop := {
  contained_binding : ∃ ext binding, extensions = PDict ext ∧ dict_get ($"binding") ext = PDict binding
    ∧ dict_get ($"uncertainty_count") binding = PInt 0 ∧ dict_get ($"evaluation_error") ext = PNone
    ∧ (py_eqb (dict_get ($"observations") ext) (PList []) = true
       ∨ reason_code = $"native_git_readonly_containment_required"
         ∧ ∃ items, dict_get ($"observations") ext = PList items ∧ all_of git_observation items = Ok true)
    ∧ (py_eqb (dict_get ($"permission_observations") ext) (PList []) = true
       ∨ reason_code ∈ [$"native_vitest_readonly_containment_required";
                        $"native_package_test_readonly_containment_required";
                        $"native_node_tool_readonly_containment_required"; $"native_node_build_output_containment_required"]
         ∧ ∃ items, dict_get ($"permission_observations") ext = PList items ∧ all_of package_observation items = Ok true);
}.

















(** The events before a tool runs. *)
Definition pre_tool_event (event_name : pystr) : bool :=
  let compact := compact_hook_event_name event_name in
  py_in compact [$"pretooluse"; $"pretool"] || startswith ($"before") compact.



(** The events of a prompt. *)
Definition prompt_event_name (event_name : pystr) : bool :=
  py_in (compact_hook_event_name event_name) [$"userpromptsubmit"; $"userpromptsubmitted"].






(** The policy names the events whose pause is due when review is
    unavailable, but its own response continues some of them: an event it does
    not know is to pause, yet is answered as an observed lifecycle event, that
    is, continued or allowed. *)
Theorem pausing_event_continued harness event_name reason_code reason :
  hook_event_pauses_when_unavailable event_name = true →
  pre_tool_event event_name = false → prompt_event_name event_name = false →
  ∃ out, availability_harness_response harness event_name reason_code reason false = Ok out
    ∧ (hook_event_is_permission_request event_name = false →
       out = observe_lifecycle_fail_safe_response harness event_name reason_code ∧ denies out = false).
Proof.
  unfold hook_event_pauses_when_unavailable, availability_harness_response, pre_tool_event, prompt_event_name. cbv zeta.
  intros Hp Hpre Hpr. rewrite Hpr in Hp. rewrite Hpre. destruct (canonical_lifecycle _); [done|].
  destruct (hook_event_is_permission_request _); [by eexists|]. eexists. split; [reflexivity|]. intros _. split; [done|].
  unfold observe_lifecycle_fail_safe_response. cbv zeta. by repeat case_match.
Qed.

End responses.

Lemma pausing_event_continued_witness :
  hook_event_pauses_when_unavailable (H:=ascii_unicode) ($"PreCompact") = true
  ∧ ∃ out, availability_harness_response (H:=ascii_unicode) (λ _, []) ($"claude-code") ($"PreCompact") ($"native_overloaded") []
             false = Ok out ∧ dict_get ($"continue") out = PBool true.
Proof.
  split; [vm_compute; reflexivity|].
  destruct (pausing_event_continued (H:=ascii_unicode) (λ _, []) ($"claude-code") ($"PreCompact") ($"native_overloaded") [])
    as (out & Hout & Hobs); [vm_compute; reflexivity..|].
  exists out. split; [exact Hout|]. destruct Hobs as [-> _]; vm_compute; reflexivity.
Defined.

End HookResponses.
