(* ===== verification/NativeReceipt.v ===== *)
(** * Native hook decision receipts

    Models [native_decision_receipt.py]: the strict validation of a receipt the
    Rust edge issued for a hook decision, its content-derived id, and the
    agreement of a receipt with the result it came with.

    The theorems: a validated receipt's id is the SHA-256 of its identity
    fields' canonical JSON, so that receipts with one id agree on every
    identity field, unless SHA-256 collides; and one receipt cannot vouch for
    two different results. *)

From S2P Require Import Prelude PyStr Sha256 Regex PyVal PyJson AsciiJson ExecutionAssurance NativeObservations HookFloor HookResponses.
Local Open Scope Z_scope.
Local Open Scope py_scope.

Module NativeReceipt.
Import Json Native HookFloor.

Definition NATIVE_HOOK_DECISION_RECEIPT_SCHEMA : pystr := $"guard-native-hook-decision-receipt.v1".
Definition NATIVE_HOOK_DECISION_RECEIPT_MAX_BYTES : Z := 16 * 1024.
Definition NATIVE_HOOK_DECISION_RECEIPT_MAX_STRING_BYTES : nat := 512.

(** The character class [[a-z0-9_.:-]] *)
Definition id_chars : list (Z * Z) := az09 ++ [(95, 95); (46, 46); (58, 58); (45, 45)].
Definition IDENTIFIER : regex := RCat (RSet az09) (RUpTo 127 (RSet id_chars)).
Definition REQUEST_ID : regex := RCat (RSet az09) (RUpTo 255 (RSet id_chars)).
Definition HARNESS : regex := RCat (RSet az09) (RUpTo 63 (RSet (az09 ++ [(45, 45)]))).

Definition ACTIONS : list pystr :=
  [$"allow"; $"warn"; $"review"; $"require-reapproval"; $"sandbox-required"; $"block"].
Definition MODEL_ACTIONS : list pystr := [$"allow_original"; $"replace_with_reviewed_excerpt"; $"block"; $"not_applicable"].
Definition PAYLOAD_KINDS : list pystr := [$"inline"; $"source_file_ref"; $"encrypted_payload_ref"].
Definition OPTIONAL_FIELDS : list pystr :=
  [$"command_extensions"; $"origin_authentication"; $"execution_intent_digest"; $"prompt_risk_classes"].
(** The fields the identity is made of, after the schema and version. *)
Definition IDENTITY_FIELDS : list pystr :=
  [$"request_id"; $"request_digest"; $"harness"; $"event_name"; $"payload_kind"; $"policy_generation"; $"policy_digest";
   $"rule_digest"; $"runtime_identity"; $"decision"; $"model_output_action"; $"policy_action";
   $"observed_policy_action"; $"reason_code"; $"workspace_bound"; $"source_ref_external_allowed";
   $"reviewed_output_sha256"; $"observe_mode"; $"deadline_budget_ms"].
Definition REQUIRED_FIELDS : list pystr := [$"schema"; $"version"; $"authority"; $"decision_id"] ++ IDENTITY_FIELDS.

Definition bounded_identifier (v : pyval) (pattern : regex) (maximum : nat) : option pystr :=
  match v with
  | PStr s =>
      if bool_decide (s = []) || (maximum <? length s)%nat || negb (fullmatch pattern s) then None else Some s
  | _ => None
  end.

(** [_optional_digest(value) is not _INVALID] *)
Definition optional_digest (v : pyval) : bool :=
  match v with PNone => true | PStr s => fullmatch SHA256_RE s | _ => false end.

Notation valid_prompt_risk_classes := HookResponses.valid_prompt_risk_classes.

Definition dict_has (k : pystr) (d : pydict) : bool := bool_decide (is_Some (dict_lookup k d)).

(** An optional field, when the receipt carries it. *)
Definition optional_entry (k : pystr) (receipt : pydict) : list (pystr * json) :=
  if dict_has k receipt then [(k, as_json (dict_get k receipt))] else [].

Definition identity_payload (receipt : pydict) : list (pystr * json) :=
  [($"schema", JStr ($"guard-native-hook-decision-identity.v1")); ($"version", JInt 1)]
  ++ ((λ k, (k, as_json (dict_get k receipt))) <$> IDENTITY_FIELDS)
  ++ optional_entry ($"command_extensions") receipt ++ optional_entry ($"prompt_risk_classes") receipt.

Definition canonical_receipt_bytes (receipt : pydict) : list Z := utf8 (dumps_raw (JObj (identity_payload receipt))).

(** [isinstance(value, str) and value in {...}] *)
Definition str_in (v : pyval) (s : list pystr) : bool := match v with PStr t => py_in t s | _ => false end.

Definition validate_receipt_identity (receipt : pydict) : option pystr :=
  if negb (py_eqb (dict_get ($"schema") receipt) (PStr NATIVE_HOOK_DECISION_RECEIPT_SCHEMA))
     || negb (py_eqb (dict_get ($"version") receipt) (PInt 1)) then None
  else if negb (py_eqb (dict_get ($"authority") receipt) (PStr ($"rust"))) then None
  else
    decision_id ← bounded_identifier (dict_get ($"decision_id") receipt) SHA256_RE 64 ;
    _ ← bounded_identifier (dict_get ($"request_id") receipt) REQUEST_ID 256 ;
    _ ← bounded_identifier (dict_get ($"request_digest") receipt) SHA256_RE 64 ;
    _ ← bounded_identifier (dict_get ($"harness") receipt) HARNESS 64 ;
    if negb (str_in (dict_get ($"event_name") receipt) [$"PreToolUse"; $"PostToolUse"; $"UserPromptSubmit"]) then None
    else if negb (str_in (dict_get ($"payload_kind") receipt) PAYLOAD_KINDS) then None
    else if py_eqb (dict_get ($"event_name") receipt) (PStr ($"UserPromptSubmit"))
            && negb (py_eqb (dict_get ($"payload_kind") receipt) (PStr ($"inline"))) then None
    else match dict_get ($"policy_generation") receipt with
         | PInt generation => if (0 <? generation) && (generation <=? 2 ^ 63 - 1) then Some decision_id else None
         | _ => None
         end.

Definition validate_receipt_policy (receipt : pydict) : bool :=
  let event_name := dict_get ($"event_name") receipt in
  forallb (λ field, optional_digest (dict_get field receipt))
    [$"policy_digest"; $"rule_digest"; $"runtime_identity"; $"reviewed_output_sha256"]
  && str_in (dict_get ($"decision") receipt) [$"allow"; $"deny"]
  && str_in (dict_get ($"model_output_action") receipt) MODEL_ACTIONS
  && negb (py_eqb event_name (PStr ($"UserPromptSubmit"))
           && negb (py_eqb (dict_get ($"model_output_action") receipt) (PStr ($"not_applicable"))))
  && negb (dict_has ($"prompt_risk_classes") receipt
           && (negb (py_eqb event_name (PStr ($"UserPromptSubmit")))
               || negb (valid_prompt_risk_classes (dict_get ($"prompt_risk_classes") receipt))))
  && forallb (λ field, is_none (dict_get field receipt) || str_in (dict_get field receipt) ACTIONS)
       [$"policy_action"; $"observed_policy_action"]
  && bool_decide (is_Some (bounded_identifier (dict_get ($"reason_code") receipt) IDENTIFIER
                             NATIVE_HOOK_DECISION_RECEIPT_MAX_STRING_BYTES))
  && forallb (λ field, negb (dict_has field receipt)
                       || match dict_get field receipt with PStr s => fullmatch SHA256_RE s | _ => false end)
       [$"origin_authentication"; $"execution_intent_digest"].

Definition is_bool (v : pyval) : bool := match v with PBool _ => true | _ => false end.

Definition validate_receipt_limits (receipt : pydict) : bool :=
  forallb (λ field, is_bool (dict_get field receipt)) [$"workspace_bound"; $"source_ref_external_allowed"; $"observe_mode"]
  && match dict_get ($"deadline_budget_ms") receipt with
     | PNone => true
     | PInt budget => (1 <=? budget) && (budget <=? 9000)
     | _ => false
     end
  && (Z.of_nat (length (utf8 (dumps (as_json (PDict receipt))))) <=? NATIVE_HOOK_DECISION_RECEIPT_MAX_BYTES).

Definition validate_native_decision_receipt (v : pyval) : option pydict :=
  match v with
  | PDict receipt =>
      if negb (py_subset REQUIRED_FIELDS (dict_keys receipt))
         || negb (py_subset (dict_keys receipt) (REQUIRED_FIELDS ++ OPTIONAL_FIELDS)) then None
      else if dict_has ($"command_extensions") receipt
              && negb (valid_native_command_receipt_binding (dict_get ($"command_extensions") receipt)) then None
      else
        decision_id ← validate_receipt_identity receipt ;
        if negb (validate_receipt_policy receipt) || negb (validate_receipt_limits receipt) then None
        else if bool_decide (decision_id = sha256_hex (canonical_receipt_bytes receipt)) then Some receipt else None
  | _ => None
  end.

(** The expected fields of a result, for an event. *)
Definition expected_fields (event_name : pystr) (result : pydict) : pydict :=
  [($"decision", dict_get ($"decision") result);
   ($"model_output_action",
    if py_in event_name [$"PreToolUse"; $"UserPromptSubmit"] then PStr ($"not_applicable")
    else dict_get ($"model_output_action") result);
   ($"policy_action", dict_get ($"policy_action") result);
   ($"observed_policy_action", dict_get ($"observed_policy_action") result);
   ($"reason_code", dict_get ($"reason_code") result);
   ($"reviewed_output_sha256", dict_get ($"reviewed_output_sha256") result);
   ($"observe_mode", PBool match dict_get ($"observe_mode") result with PBool b => b | _ => false end)].

(** The command binding a result implies: none, a binding, or a refusal. *)
Definition expected_binding (event_name : pystr) (result : pydict) : option pydict :=
  match dict_get ($"command_extensions") result with
  | PNone => Some []
  | evidence =>
      o ← validate_native_command_observations evidence ;
      if py_in event_name [$"PreToolUse"; $"UserPromptSubmit"]
      then Some [($"command_extensions", PDict (binding o))] else None
  end.
Definition expected_prompt_classes (event_name : pystr) (result : pydict) : option pydict :=
  match dict_get ($"prompt_risk_classes") result with
  | PNone => Some []
  | classes =>
      if bool_decide (event_name = $"UserPromptSubmit") && valid_prompt_risk_classes classes
      then Some [($"prompt_risk_classes", classes)] else None
  end.

Definition receipt_matches_edge (payload : pydict) (receipt : pyval) : bool :=
  match validate_native_decision_receipt receipt, dict_get ($"event_name") payload, dict_get ($"harness") payload,
        dict_get ($"payload_kind") payload, dict_get ($"result") payload with
  | Some validated, PStr event_name, PStr harness, PStr payload_kind, PDict result =>
      if negb (py_eqb (dict_get ($"event_name") validated) (PStr event_name))
         || negb (py_eqb (dict_get ($"harness") validated) (PStr harness))
         || negb (py_eqb (dict_get ($"payload_kind") validated) (PStr payload_kind)) then false
      else if negb (is_none (dict_get ($"request_id") payload))
              && negb (py_eqb (dict_get ($"request_id") validated) (dict_get ($"request_id") payload)) then false
      else if bool_decide (event_name = $"UserPromptSubmit")
              && negb match dict_get ($"action") result with
                      | PDict action =>
                          py_eqb (dict_get ($"event") action) (PStr event_name)
                          && py_eqb (dict_get ($"action_type") action) (PStr ($"prompt"))
                      | _ => false
                      end then false
      else match expected_binding event_name result, expected_prompt_classes event_name result with
           | Some binding, Some classes =>
               negb (bool_decide (length binding = 0%nat) && dict_has ($"command_extensions") validated)
               && negb (bool_decide (length classes = 0%nat) && dict_has ($"prompt_risk_classes") validated)
               && forallb (λ e : pystr * pyval, py_eqb (dict_get e.1 validated) e.2)
                    (expected_fields event_name result ++ binding ++ classes)
           | _, _ => false
           end
  | _, _, _, _, _ => false
  end.

(** ** Values of a validated receipt *)

Definition scalar_value (v : pyval) : Prop :=
  match v with
  | PNone | PBool _ => True
  | PInt n => 0 <= n < 2 ^ 64
  | PStr s => ascii_text s
  | _ => False
  end.

Lemma scalar_value_json v :
  scalar_value v → readable (as_json v) ∧ ascii_json (as_json v) ∧ py_of (as_json v) = v.
Proof.
  destruct v as [|b|n|s| | |]; intros Hv; try done; cbn [as_json].
  - split; [done|]. split; [constructor|done].
  - split; [done|]. split; [constructor|done].
  - split; [|by split; [constructor|]]. apply int_readable. cbn [scalar_value] in Hv. lia.
  - split; [by apply ascii_scalar|]. split; [|done]. by constructor.
Qed.

Lemma bounded_identifier_Some v p n s :
  bounded_identifier v p n = Some s → v = PStr s ∧ fullmatch p s = true.
Proof.
  unfold bounded_identifier. destruct v; try done. case_match eqn:E; [done|]. intros [= <-].
  rewrite !orb_false_iff, negb_false_iff in E. by destruct E.
Qed.
Lemma bounded_scalar v p n s : ascii_regex p = true → bounded_identifier v p n = Some s → scalar_value v.
Proof. intros Hp [-> Hs]%bounded_identifier_Some. by apply (ascii_regex_matches p). Qed.

Lemma str_in_spec v l : str_in v l = true ↔ ∃ s, v = PStr s ∧ s ∈ l.
Proof. unfold str_in. destruct v; try (split; [done | by intros (? & ? & ?)]). rewrite py_in_true. naive_solver. Qed.
Lemma str_in_scalar v l : Forall ascii_text l → str_in v l = true → scalar_value v.
Proof. intros Hl (s & -> & Hs)%str_in_spec. rewrite Forall_forall in Hl. by apply Hl. Qed.
Lemma optional_digest_scalar v : optional_digest v = true → scalar_value v.
Proof. destruct v; try done. intros Hs. by apply (ascii_regex_matches SHA256_RE). Qed.
Lemma optional_action_scalar v : is_none v || str_in v ACTIONS = true → scalar_value v.
Proof.
  rewrite orb_true_iff. intros [Hn|Hs]; [by destruct v|]. eapply str_in_scalar; [|done].
  by apply ascii_texts.
Qed.
Lemma is_bool_scalar v : is_bool v = true → scalar_value v.
Proof. by destruct v. Qed.

(** The identity fields hold scalars. *)
Definition identity_scalars (r : pydict) : Prop := ∀ k, k ∈ IDENTITY_FIELDS → scalar_value (dict_get k r).

Lemma identity_values r id :
  validate_receipt_identity r = Some id →
  dict_get ($"decision_id") r = PStr id
  ∧ Forall (λ k, scalar_value (dict_get k r))
      [$"request_id"; $"request_digest"; $"harness"; $"event_name"; $"payload_kind"; $"policy_generation"].
Proof.
  unfold validate_receipt_identity. case_match; [done|]. case_match; [done|].
  intros (i & Hi & (x1 & H1 & (x2 & H2 & (x3 & H3 & Hr)%bind_Some)%bind_Some)%bind_Some)%bind_Some.
  destruct (str_in (dict_get ($"event_name") r) _) eqn:He; [|done]. destruct (str_in (dict_get ($"payload_kind") r) _) eqn:Hk; [|done].
  cbn [negb] in Hr. case_match; [done|]. destruct (dict_get ($"policy_generation") r) as [| |g| | | |] eqn:Hg; try done.
  destruct ((0 <? g) && _) eqn:Hb; [|done]. injection Hr as <-. apply andb_true_iff in Hb as [Hb1 Hb2].
  split; [by apply bounded_identifier_Some in Hi as [-> _]|]. rewrite !Forall_cons.
  split; [by eapply (bounded_scalar _ REQUEST_ID); [vm_compute; reflexivity|]|].
  split; [by eapply (bounded_scalar _ SHA256_RE); [vm_compute; reflexivity|]|].
  split; [by eapply (bounded_scalar _ HARNESS); [vm_compute; reflexivity|]|].
  split; [refine (str_in_scalar _ _ _ He); by apply ascii_texts|].
  split; [refine (str_in_scalar _ _ _ Hk); by apply ascii_texts|].
  split; [|constructor]. rewrite Hg. cbn. lia.
Qed.

Lemma policy_values r :
  validate_receipt_policy r = true →
  Forall (λ k, scalar_value (dict_get k r))
    [$"policy_digest"; $"rule_digest"; $"runtime_identity"; $"reviewed_output_sha256"; $"decision"; $"model_output_action";
     $"policy_action"; $"observed_policy_action"; $"reason_code"]
  ∧ (dict_has ($"prompt_risk_classes") r = true → valid_prompt_risk_classes (dict_get ($"prompt_risk_classes") r) = true).
Proof.
  unfold validate_receipt_policy. cbv zeta. rewrite !andb_true_iff. cbn [forallb]. rewrite !andb_true_iff.
  intros ((((((((D1 & D2 & D3 & D4 & _) & Hd) & Hm) & _) & Hc) & (A1 & A2 & _)) & Hr) & _).
  split.
  - apply bool_decide_eq_true in Hr as [rc Hr]. rewrite !Forall_cons. split_and!; try (by apply optional_digest_scalar);
      try (by apply optional_action_scalar); [| | |constructor].
    + refine (str_in_scalar _ _ _ Hd); by apply ascii_texts.
    + refine (str_in_scalar _ _ _ Hm); by apply ascii_texts.
    + by eapply (bounded_scalar _ IDENTIFIER); [vm_compute; reflexivity|].
  - intros Hh. rewrite Hh in Hc. apply negb_true_iff in Hc. cbn [andb] in Hc. apply orb_false_iff in Hc as [_ Hc].
    by apply negb_false_iff in Hc.
Qed.

Lemma limits_values r :
  validate_receipt_limits r = true →
  Forall (λ k, scalar_value (dict_get k r)) [$"workspace_bound"; $"source_ref_external_allowed"; $"observe_mode"; $"deadline_budget_ms"].
Proof.
  unfold validate_receipt_limits. cbn [forallb]. rewrite !andb_true_iff. intros ((B & D) & _). destruct B as (B1 & B2 & B3 & _).
  rewrite !Forall_cons. split_and!; [by apply is_bool_scalar..| |constructor].
  destruct (dict_get ($"deadline_budget_ms") r); try done. cbn. lia.
Qed.

(** What validation establishes. *)
Record validated (r : pydict) : Prop := {
  validated_scalars : identity_scalars r;
  validated_id : dict_get ($"decision_id") r = PStr (sha256_hex (canonical_receipt_bytes r));
  validated_binding :
    dict_has ($"command_extensions") r = true → valid_native_command_receipt_binding (dict_get ($"command_extensions") r) = true;
  validated_classes :
    dict_has ($"prompt_risk_classes") r = true → valid_prompt_risk_classes (dict_get ($"prompt_risk_classes") r) = true;
}.

Lemma validate_receipt_Some v r : validate_native_decision_receipt v = Some r → v = PDict r ∧ validated r.
Proof.
  unfold validate_native_decision_receipt. destruct v as [| | | | |receipt|]; try done. case_match; [done|].
  destruct (dict_has _ receipt && _) eqn:Hb; [done|]. intros (id & Hid & Hr)%bind_Some.
  destruct (validate_receipt_policy receipt) eqn:Hp; [|done]. destruct (validate_receipt_limits receipt) eqn:Hl; [|done].
  cbn [negb orb] in Hr. case_bool_decide as E; [|done]. injection Hr as <-. split; [done|].
  apply identity_values in Hid as [Hd Hi]. apply policy_values in Hp as [Hp Hc]. apply limits_values in Hl.
  split; [|by rewrite Hd, E| |done].
  - pose proof (Forall_app_2 _ _ _ Hi (Forall_app_2 _ _ _ Hp Hl)) as Hall. rewrite Forall_forall in Hall.
    intros k Hk. apply Hall. refine (proj1 (py_subset_true _ _) _ k Hk). vm_compute. reflexivity.
  - intros Hh. rewrite Hh in Hb. by apply negb_false_iff in Hb.
Qed.

Lemma dict_entry_get k v (d : pydict) : NoDup d.*1 → (k, v) ∈ d → dict_get k d = v.
Proof.
  intros Hnd Hin. unfold dict_get. assert (dict_lookup k d = Some v) as ->; [|done].
  induction d as [|[k' v'] d IH]; [by apply elem_of_nil in Hin|]. cbn in Hnd. apply NoDup_cons in Hnd as [Hk Hnd]. cbn.
  apply elem_of_cons in Hin as [[= <- <-]|Hin]; [by rewrite decide_True|]. rewrite decide_False; [by apply IH|].
  intros <-. apply Hk. apply list_elem_of_fmap. by exists (k, v).
Qed.

(** A dictionary's keys are distinct, as Python's are. *)
Definition distinct_keys (v : pyval) : Prop := match v with PDict d => NoDup d.*1 | _ => True end.

Lemma binding_json v :
  valid_native_command_receipt_binding v = true → distinct_keys v → readable (as_json v) ∧ ascii_json (as_json v).
Proof.
  destruct v as [| | | | |d|]; try done. cbn [valid_native_command_receipt_binding distinct_keys as_json].
  rewrite !andb_true_iff. intros ((((((Hf & Hs) & Hd) & I1) & I2) & I3) & I4) Hnd.
  unfold has_fields in Hf. apply andb_true_iff in Hf as [Hf _]. rewrite py_subset_true in Hf.
  assert (∀ k, k ∈ BINDING_FIELDS → scalar_value (dict_get k d)) as Hscalar.
  { assert (∀ v m, integer v m = true → m < 2 ^ 64 → scalar_value v) as Hint by (intros [] m; cbn; try done; lia).
    assert (∀ v, matches v SHA256_RE 64 = true → scalar_value v) as Hdig.
    { intros []; try done. cbn. rewrite andb_true_iff. intros [_ ?]. by apply (ascii_regex_matches SHA256_RE). }
    cbn [forallb] in Hd. rewrite !andb_true_iff in Hd. destruct Hd as (D1 & D2 & D3 & D4 & D5 & _). apply py_eqb_str in Hs.
    intros k Hk. assert (Forall (λ k, scalar_value (dict_get k d))
      [$"program_digest"; $"catalog_digest"; $"trust_digest"; $"control_effective_digest"; $"observations_digest";
       $"control_revision"; $"managed_control_revision"; $"observation_count"; $"uncertainty_count"; $"schema"]) as Hall.
    { rewrite !Forall_cons. split_and!; try (by apply Hdig); try (by eapply Hint); [|constructor]. rewrite Hs.
      assert (Forall ascii_text [$"guard.native-command-receipt-binding.v1"]) as Ha by (by apply ascii_texts).
      by apply Forall_cons in Ha as [Ha _]. }
    rewrite Forall_forall in Hall. apply Hall. refine (proj1 (py_subset_true _ _) _ k Hk). vm_compute. reflexivity. }
  assert (∀ k v, (k, v) ∈ d → ascii_text k ∧ scalar_value v) as Hentry.
  { intros k v Hin. assert (k ∈ BINDING_FIELDS) as Hk.
    { apply Hf. unfold dict_keys. apply list_elem_of_fmap. by exists (k, v). }
    split; [|rewrite <- (dict_entry_get k v d); auto].
    assert (Forall ascii_text BINDING_FIELDS) as Ha by (by apply ascii_texts). rewrite Forall_forall in Ha. by apply Ha. }
  rewrite readable_obj, ascii_json_obj. split; [split|].
  - by rewrite <- list_fmap_compose.
  - apply Forall_map, Forall_forall. intros [k v] Hin. cbn. destruct (Hentry k v Hin) as [Ha Hv].
    split; [by apply ascii_scalar | by apply scalar_value_json].
  - apply Forall_map, Forall_forall. intros [k v] Hin. cbn. destruct (Hentry k v Hin) as [Ha Hv].
    split; [done | by apply scalar_value_json].
Qed.

Lemma position_elem x l i : HookResponses.position x l = Some i → x ∈ l.
Proof.
  revert i. induction l as [|y l IH]; intros i; [done|]. cbn. case_decide as E; [subst; left|].
  intros (j & Hj & _)%fmap_Some. right. by eapply IH.
Qed.

Lemma classes_json v :
  valid_prompt_risk_classes v = true → readable (as_json v) ∧ ascii_json (as_json v).
Proof.
  unfold HookResponses.valid_prompt_risk_classes. rewrite bool_decide_eq_true. intros [names Hn].
  destruct v as [| | | |items| |]; try done. cbn [HookResponses.prompt_classes] in Hn. case_match; [done|].
  apply bind_Some in Hn as (ns & Hns & (ix & Hix & _)%bind_Some). apply mapM_Some in Hns, Hix. cbn [as_json].
  assert (Forall (λ item, ∃ s, item = PStr s ∧ s ∈ HookResponses.PROMPT_RISK_CLASSES) items) as Hall.
  { clear H. revert ix Hix. induction Hns as [|item s items ns Hs _ IH]; intros ix Hix; [constructor|].
    apply Forall2_cons_inv_l in Hix as (i & ix' & Hi & Hix & ->). constructor; [|by eapply IH].
    destruct item; try done. injection Hs as <-. eexists. split; [done|]. by eapply position_elem. }
  assert (Forall ascii_text HookResponses.PROMPT_RISK_CLASSES) as Ha by (by apply ascii_texts). rewrite Forall_forall in Ha.
  rewrite readable_arr, ascii_json_arr.
  split; apply Forall_map; (eapply Forall_impl; [exact Hall|]); intros item (s & -> & Hs); cbn.
  - by apply ascii_scalar, Ha.
  - constructor; [by apply Ha | constructor].
Qed.

Lemma optional_entry_json k r :
  ascii_text k → (dict_has k r = true → readable (as_json (dict_get k r)) ∧ ascii_json (as_json (dict_get k r))) →
  Forall (λ e, (forallb scalar e.1 = true ∧ readable e.2) ∧ ascii_text e.1 ∧ ascii_json e.2) (optional_entry k r).
Proof.
  intros Hk Hv. unfold optional_entry. destruct (dict_has k r); [|constructor]. destruct (Hv eq_refl).
  constructor; [|constructor]. cbn. auto using ascii_scalar.
Qed.

Lemma identity_keys r : NoDup (identity_payload r).*1.
Proof.
  unfold identity_payload, optional_entry. destruct (dict_has ($"command_extensions") r), (dict_has ($"prompt_risk_classes") r);
    apply (bool_decide_eq_true_1 _); vm_compute; reflexivity.
Qed.

Lemma identity_json r :
  validated r → distinct_keys (dict_get ($"command_extensions") r) →
  readable (JObj (identity_payload r)) ∧ ascii_json (JObj (identity_payload r)).
Proof.
  intros Hv Hd. rewrite readable_obj, ascii_json_obj.
  assert (Forall ascii_text ([$"schema"; $"version"; $"guard-native-hook-decision-identity.v1"; $"command_extensions";
            $"prompt_risk_classes"] ++ IDENTITY_FIELDS)) as Ha by (by apply ascii_texts).
  rewrite Forall_app, !Forall_cons in Ha. destruct Ha as ((A1 & A2 & A3 & A4 & A5 & _) & Afields).
  assert (Forall (λ e, (forallb scalar e.1 = true ∧ readable e.2) ∧ ascii_text e.1 ∧ ascii_json e.2) (identity_payload r)) as Hall.
  { unfold identity_payload. rewrite !Forall_app. split; [|split; [|split]].
    - destruct (scalar_value_json (PInt 1)) as (N1 & N2 & _); [done|].
      destruct (scalar_value_json (PStr ($"guard-native-hook-decision-identity.v1"))) as (S1 & S2 & _); [done|].
      apply Forall_cons; split; [|apply Forall_cons; split; [|constructor]]; split; split; auto using ascii_scalar.
    - apply Forall_fmap, Forall_forall. intros k Hk. cbn. destruct (scalar_value_json _ (validated_scalars _ Hv k Hk)) as (? & ? & _).
      rewrite Forall_forall in Afields. auto using ascii_scalar.
    - apply optional_entry_json; [done|]. intros Hh. apply binding_json; [by apply (validated_binding _ Hv) | done].
    - apply optional_entry_json; [done|]. intros Hh. apply classes_json. by apply (validated_classes _ Hv). }
  split; [split; [apply identity_keys|]|]; (eapply Forall_impl; [exact Hall|]); intros e ((? & ?) & ? & ?); by split.
Qed.

(** The fields two receipts have in common: the same values, and the same
    optional ones, as JSON. *)
Definition same_identity (r r' : pydict) : Prop :=
  (∀ k, k ∈ IDENTITY_FIELDS → dict_get k r = dict_get k r')
  ∧ ∀ k, k ∈ [$"command_extensions"; $"prompt_risk_classes"] →
      dict_has k r = dict_has k r' ∧ (dict_has k r = true → py_of (as_json (dict_get k r)) = py_of (as_json (dict_get k r'))).

Lemma payload_entry k r j : (k, j) ∈ identity_payload r → k ∉ [$"schema"; $"version"] → j = as_json (dict_get k r).
Proof.
  unfold identity_payload, optional_entry. rewrite !elem_of_app. intros [Hin|[Hin|[Hin|Hin]]] Hk.
  - exfalso. apply Hk. apply elem_of_cons in Hin as [[= -> _]|Hin]; [left|]. apply list_elem_of_singleton in Hin as [= -> _].
    right. left.
  - apply list_elem_of_fmap in Hin as (k' & [= -> ->] & _). done.
  - destruct (dict_has _ r); [|by apply elem_of_nil in Hin]. by apply list_elem_of_singleton in Hin as [= -> ->].
  - destruct (dict_has _ r); [|by apply elem_of_nil in Hin]. by apply list_elem_of_singleton in Hin as [= -> ->].
Qed.

Lemma payload_keys k r :
  k ∈ (identity_payload r).*1 ↔
  k ∈ [$"schema"; $"version"] ++ IDENTITY_FIELDS ∨ k ∈ [$"command_extensions"; $"prompt_risk_classes"] ∧ dict_has k r = true.
Proof.
  unfold identity_payload, optional_entry. rewrite !fmap_app, !elem_of_app, <- list_fmap_compose, list_fmap_id.
  destruct (dict_has ($"command_extensions") r) eqn:E1, (dict_has ($"prompt_risk_classes") r) eqn:E2; cbn [fmap list_fmap fst];
    rewrite ?elem_of_cons, ?elem_of_nil; naive_solver congruence.
Qed.

Local Instance PStr_inj : Inj (=) (=) PStr.
Proof. by intros x y [= ->]. Qed.
Local Instance PDict_inj : Inj (=) (=) PDict.
Proof. by intros x y [= ->]. Qed.
Lemma elem_of_map_sorted {A B} (f : pystr * A → B) kv e : e ∈ map f (sort_on fst kv) ↔ e ∈ map f kv.
Proof.
  split; intros (x & -> & Hx)%list_elem_of_fmap; apply list_elem_of_fmap; exists x; (split; [done|]); by apply (elem_of_sort_on fst).
Qed.

Lemma same_payload_same_identity r r' :
  validated r → validated r' → py_of (JObj (identity_payload r)) = py_of (JObj (identity_payload r')) → same_identity r r'.
Proof.
  intros Hv Hv' E. rewrite !py_of_obj in E. apply (inj PDict) in E.
  assert (∀ e, e ∈ map (λ e : pystr * json, (e.1, py_of e.2)) (identity_payload r)
             ↔ e ∈ map (λ e : pystr * json, (e.1, py_of e.2)) (identity_payload r')) as Hmem.
  { intros e. pose proof (f_equal (λ l, e ∈ l) E) as Ee. cbn beta in Ee. by rewrite <- (elem_of_map_sorted _ (identity_payload r)), Ee, elem_of_map_sorted. }
  assert (∀ k, k ∈ (identity_payload r).*1 ↔ k ∈ (identity_payload r').*1) as Hkeys.
  { intros k. rewrite !list_elem_of_fmap. split; intros ([k' j] & -> & Hin).
    - assert ((k', py_of j) ∈ map (λ e : pystr * json, (e.1, py_of e.2)) (identity_payload r)) as Hp
        by (apply list_elem_of_fmap; by exists (k', j)).
      apply Hmem, list_elem_of_fmap in Hp as ([k2 j2] & [= -> _] & Hin'). by exists (k2, j2).
    - assert ((k', py_of j) ∈ map (λ e : pystr * json, (e.1, py_of e.2)) (identity_payload r')) as Hp
        by (apply list_elem_of_fmap; by exists (k', j)).
      apply Hmem, list_elem_of_fmap in Hp as ([k2 j2] & [= -> _] & Hin'). by exists (k2, j2). }
  assert (∀ k, k ∈ (identity_payload r).*1 → k ∉ [$"schema"; $"version"] →
            py_of (as_json (dict_get k r)) = py_of (as_json (dict_get k r'))) as Hval.
  { intros k Hk Hns. apply list_elem_of_fmap in Hk as ([k' j] & -> & Hin). cbn [fst] in *.
    pose proof (payload_entry _ _ _ Hin Hns) as ->.
    assert ((k', py_of (as_json (dict_get k' r))) ∈ map (λ e : pystr * json, (e.1, py_of e.2)) (identity_payload r)) as Hp
      by (apply list_elem_of_fmap; by exists (k', as_json (dict_get k' r))).
    apply Hmem, list_elem_of_fmap in Hp as ([k2 j2] & [= <- Hj] & Hin'). by rewrite Hj, (payload_entry _ _ _ Hin' Hns). }
  assert (∀ k, k ∈ IDENTITY_FIELDS ++ [$"command_extensions"; $"prompt_risk_classes"] → k ∉ [$"schema"; $"version"]) as Hns.
  { apply (Forall_forall (λ k, k ∉ [$"schema"; $"version"])), (bool_decide_eq_true_1 _). vm_compute. reflexivity. }
  split.
  - intros k Hk. pose proof (scalar_value_json _ (validated_scalars _ Hv k Hk)) as (_ & _ & H1).
    pose proof (scalar_value_json _ (validated_scalars _ Hv' k Hk)) as (_ & _ & H2). rewrite <- H1, <- H2. apply Hval.
    + apply payload_keys. left. apply elem_of_app. by right.
    + apply Hns, elem_of_app. by left.
  - intros k Hk. assert (k ∉ [$"schema"; $"version"]) as Hsv by (apply Hns, elem_of_app; by right).
    assert (k ∉ IDENTITY_FIELDS) as Hni.
    { revert k Hk Hsv. intros k Hk _. revert k Hk.
      apply (Forall_forall (λ k, k ∉ IDENTITY_FIELDS)), (bool_decide_eq_true_1 _). vm_compute. reflexivity. }
    assert (∀ r, k ∈ (identity_payload r).*1 ↔ dict_has k r = true) as Hpk.
    { intros r0. rewrite payload_keys, elem_of_app. tauto. }
    split.
    + apply eq_true_iff_eq. by rewrite <- !Hpk.
    + intros Hh. apply Hval; [by apply Hpk | done].
Qed.

(** The two receipts are a collision of SHA-256: different identity bytes, one
    digest. *)
Definition receipts_collide (r r' : pydict) : Prop :=
  canonical_receipt_bytes r ≠ canonical_receipt_bytes r'
  ∧ sha256_hex (canonical_receipt_bytes r) = sha256_hex (canonical_receipt_bytes r').

(** A receipt's id commits to its decision: two validated receipts with one id
    agree on every identity field, unless they exhibit a collision. *)
Lemma decision_id_commits v v' r r' :
  validate_native_decision_receipt v = Some r → validate_native_decision_receipt v' = Some r' →
  distinct_keys (dict_get ($"command_extensions") r) → distinct_keys (dict_get ($"command_extensions") r') →
  dict_get ($"decision_id") r = dict_get ($"decision_id") r' →
  same_identity r r' ∨ receipts_collide r r'.
Proof.
  intros [_ Hv]%validate_receipt_Some [_ Hv']%validate_receipt_Some Hd Hd' Hid.
  rewrite (validated_id _ Hv), (validated_id _ Hv') in Hid. apply (inj PStr) in Hid.
  destruct (decide (canonical_receipt_bytes r = canonical_receipt_bytes r')) as [E|E]; [left | right; by split].
  destruct (identity_json _ Hv Hd) as [Hr Ha], (identity_json _ Hv' Hd') as [Hr' Ha'].
  apply same_payload_same_identity; [done..|]. by apply canonical_bytes_inj.
Qed.

(** ** Receipts and results *)

(** The fields of a result a receipt repeats. *)
Definition EDGE_FIELDS : list pystr :=
  [$"decision"; $"policy_action"; $"observed_policy_action"; $"reason_code"; $"reviewed_output_sha256"].

(** The result of a payload. *)
Definition edge_result (payload : pydict) : pydict := match dict_get ($"result") payload with PDict d => d | _ => [] end.

(** A value that is nothing or text equals what it compares equal to. *)
Lemma py_eqb_text v w : (v = PNone ∨ ∃ s, v = PStr s) → py_eqb v w = true → v = w.
Proof. intros [->|[s ->]]; destruct w; try done. cbn. by intros ->%bool_decide_eq_true. Qed.

(** The fields of a validated receipt that a result repeats are text or nothing. *)
Lemma edge_fields_text v r k :
  validate_native_decision_receipt v = Some r → k ∈ EDGE_FIELDS → dict_get k r = PNone ∨ ∃ s, dict_get k r = PStr s.
Proof.
  intros Hv Hk. unfold validate_native_decision_receipt in Hv. destruct v as [| | | | |d|]; try done. case_match; [done|].
  case_match; [done|]. apply bind_Some in Hv as (id & _ & Hr).
  destruct (validate_receipt_policy d) eqn:Hp; [|done]. destruct (validate_receipt_limits d); [|done]. cbn [negb orb] in Hr.
  case_bool_decide; [|done]. injection Hr as <-. unfold validate_receipt_policy in Hp. cbv zeta in Hp.
  rewrite !andb_true_iff in Hp. cbn [forallb] in Hp. rewrite !andb_true_iff in Hp.
  destruct Hp as ((((((((_ & _ & _ & D4 & _) & Hd) & _) & _) & _) & (A1 & A2 & _)) & Hrc) & _).
  assert (∀ v l, is_none v || str_in v l = true → v = PNone ∨ ∃ s, v = PStr s) as Hopt.
  { intros w l [Hn|(s & -> & _)%str_in_spec]%orb_true_iff; [left; by destruct w | eauto]. }
  apply bool_decide_eq_true in Hrc as [rc [Hrc _]%bounded_identifier_Some].
  unfold EDGE_FIELDS in Hk. rewrite !elem_of_cons, elem_of_nil in Hk. destruct Hk as [->|[->|[->|[->|[->|[]]]]]]; eauto.
  - apply str_in_spec in Hd as (s & -> & _). eauto.
  - destruct (dict_get ($"reviewed_output_sha256") d); try done; eauto.
Qed.

(** What a matching receipt says of its payload. *)
Lemma matches_edge payload v :
  receipt_matches_edge payload v = true →
  ∃ r, validate_native_decision_receipt v = Some r
    ∧ (∀ k, k ∈ [$"event_name"; $"harness"; $"payload_kind"] → dict_get k payload = dict_get k r)
    ∧ (∀ k, k ∈ EDGE_FIELDS → dict_get k (edge_result payload) = dict_get k r).
Proof.
  unfold receipt_matches_edge, edge_result. destruct (validate_native_decision_receipt v) as [r|] eqn:Hv; [|done].
  destruct (dict_get ($"event_name") payload) as [| | |event| | |] eqn:E1; try done.
  destruct (dict_get ($"harness") payload) as [| | |harness| | |] eqn:E2; try done.
  destruct (dict_get ($"payload_kind") payload) as [| | |kind| | |] eqn:E3; try done.
  destruct (dict_get ($"result") payload) as [| | | | |result|] eqn:E4; try done.
  destruct (negb _ || _ || _) eqn:H1; [done|]. destruct (negb (is_none _) && _); [done|].
  destruct (bool_decide (event = _) && _); [done|]. destruct (expected_binding _ _) as [binding|]; [|done].
  destruct (expected_prompt_classes _ _) as [classes|]; [|done]. rewrite !andb_true_iff. intros ((_ & _) & Hall).
  rewrite !orb_false_iff, !negb_false_iff in H1. destruct H1 as ((K1 & K2) & K3). apply py_eqb_str in K1, K2, K3.
  exists r. split; [done|]. split.
  - intros k Hk. rewrite !elem_of_cons, elem_of_nil in Hk. destruct Hk as [->|[->|[->|[]]]]; congruence.
  - intros k Hk. symmetry. apply py_eqb_text; [by eapply edge_fields_text|].
    rewrite forallb_app, andb_true_iff in Hall. destruct Hall as [Hall _]. unfold expected_fields in Hall. cbn [forallb fst snd] in Hall.
    rewrite !andb_true_iff in Hall. destruct Hall as (F1 & _ & F3 & F4 & F5 & F6 & _).
    unfold EDGE_FIELDS in Hk. rewrite !elem_of_cons, elem_of_nil in Hk. by destruct Hk as [->|[->|[->|[->|[->|[]]]]]].
Qed.

(** C16: One receipt, one decision: two hook results that match receipts of the
    same decision id (receipts whose command extensions are dictionaries, with
    no key twice) are for the same event, harness and payload kind, and
    carry the same decision, policy actions, reason code and reviewed-output
    digest -- unless their identity bytes are a collision of SHA-256.  So a
    receipt of an allowed call cannot stand beside a result that denies it, nor
    the other way round; it is not tied to one request, since the edge does not
    compare the receipt's request digest with the payload. *)
Theorem one_receipt_one_decision payload payload' v v' r r' :
  receipt_matches_edge payload v = true → receipt_matches_edge payload' v' = true →
  validate_native_decision_receipt v = Some r → validate_native_decision_receipt v' = Some r' →
  distinct_keys (dict_get ($"command_extensions") r) → distinct_keys (dict_get ($"command_extensions") r') →
  dict_get ($"decision_id") r = dict_get ($"decision_id") r' →
  ((∀ k, k ∈ [$"event_name"; $"harness"; $"payload_kind"] → dict_get k payload = dict_get k payload')
   ∧ ∀ k, k ∈ EDGE_FIELDS → dict_get k (edge_result payload) = dict_get k (edge_result payload'))
  ∨ receipts_collide r r'.
Proof.
  intros Hm Hm' Hv Hv' Hd Hd' Hid. destruct (matches_edge _ _ Hm) as (q & Hq & Q1 & Q2), (matches_edge _ _ Hm') as (q' & Hq' & Q1' & Q2').
  rewrite Hv in Hq. rewrite Hv' in Hq'. injection Hq as <-. injection Hq' as <-.
  destruct (decision_id_commits _ _ _ _ Hv Hv' Hd Hd' Hid) as [[Hsame _]|Hc]; [left | by right]. split; intros k Hk.
  - rewrite (Q1 k Hk), (Q1' k Hk). apply Hsame. refine (proj1 (py_subset_true _ _) _ k Hk). vm_compute. reflexivity.
  - rewrite (Q2 k Hk), (Q2' k Hk). apply Hsame. refine (proj1 (py_subset_true _ _) _ k Hk). vm_compute. reflexivity.
Qed.

(** ** A concrete receipt *)

(** The receipt of an allowed shell call, with its content-derived id. *)
Definition sample_fields : pydict :=
  [($"schema", PStr NATIVE_HOOK_DECISION_RECEIPT_SCHEMA); ($"version", PInt 1); ($"authority", PStr ($"rust"));
   ($"request_id", PStr ($"req-1")); ($"request_digest", PStr (replicate 64 97)); ($"harness", PStr ($"codex"));
   ($"event_name", PStr ($"PreToolUse")); ($"payload_kind", PStr ($"inline")); ($"policy_generation", PInt 4);
   ($"policy_digest", PStr (replicate 64 98)); ($"rule_digest", PNone); ($"runtime_identity", PNone);
   ($"decision", PStr ($"allow")); ($"model_output_action", PStr ($"not_applicable")); ($"policy_action", PStr ($"allow"));
   ($"observed_policy_action", PNone); ($"reason_code", PStr ($"native_policy_allowed")); ($"workspace_bound", PBool true);
   ($"source_ref_external_allowed", PBool false); ($"reviewed_output_sha256", PNone); ($"observe_mode", PBool false);
   ($"deadline_budget_ms", PInt 900)].
Definition sample_receipt : pydict :=
  ($"decision_id", PStr (sha256_hex (canonical_receipt_bytes sample_fields))) :: sample_fields.
Definition sample_edge : pydict :=
  [($"event_name", PStr ($"PreToolUse")); ($"harness", PStr ($"codex")); ($"payload_kind", PStr ($"inline"));
   ($"result", PDict [($"decision", PStr ($"allow")); ($"policy_action", PStr ($"allow"));
                      ($"reason_code", PStr ($"native_policy_allowed")); ($"observe_mode", PBool false)])].

(** The same result, sent with the request it answers and a note. *)
Definition sample_replay : pydict :=
  ($"request_id", PStr ($"req-1")) :: ($"note", PStr ($"again")) :: sample_edge.

Lemma one_receipt_one_decision_witness :
  receipt_matches_edge sample_edge (PDict sample_receipt) = true
  ∧ receipt_matches_edge sample_replay (PDict sample_receipt) = true
  ∧ (((∀ k, k ∈ [$"event_name"; $"harness"; $"payload_kind"] → dict_get k sample_edge = dict_get k sample_replay)
      ∧ ∀ k, k ∈ EDGE_FIELDS → dict_get k (edge_result sample_edge) = dict_get k (edge_result sample_replay))
     ∨ receipts_collide sample_receipt sample_receipt).
Proof.
  split; [vm_compute; reflexivity|]. split; [vm_compute; reflexivity|].
  apply (one_receipt_one_decision sample_edge sample_replay (PDict sample_receipt) (PDict sample_receipt)
           sample_receipt sample_receipt);
    [vm_compute; reflexivity | vm_compute; reflexivity | vm_compute; reflexivity | vm_compute; reflexivity
    | vm_compute; exact I | vm_compute; exact I | reflexivity].
Defined.

End NativeReceipt.
