(* ===== verification/WorkflowCapability.v ===== *)
(** * Signed workflow capabilities

    Models [workflow_capabilities.py], [workflow_capability_transitions.py] and
    [workflow_capability_authority_state.py]: the claims, receipts, authority
    transitions, authority states and revocations, with their validation, their
    canonical JSON, their MACs, and the strict decoding of stored texts.

    [WorkflowCapabilityError(m)] is [ValueError m].  The handlers that turn any
    other exception into a [WorkflowCapabilityError] have nothing to catch on
    the typed records.  A MAC is HMAC-SHA256, computed; [float_of] is the
    decoding of floating-point literals.  A timestamp is read as its instant in
    microseconds; [decimal] gives the digits [\d] matches.

    The theorems: what a signature check accepts; that what is encoded decodes
    to itself; that a claim verifies exactly under its key, inside its window
    and for its own binding. *)

From S2P Require Import Prelude PyStr Sha256 Regex PyVal PyJson AsciiJson PyTime JsSemver.
Local Open Scope Z_scope.
Local Open Scope py_scope.

Module Workflow.
Import Json.

Notation pydict := (list (pystr * pyval)).

Definition WORKFLOW_CAPABILITY_SCHEMA : pystr := $"hol-guard.workflow-capability.v1".
Definition WORKFLOW_CAPABILITY_ENVELOPE_SCHEMA : pystr := $"hol-guard.workflow-capability-envelope.v1".
Definition WORKFLOW_CAPABILITY_RECEIPT_SCHEMA : pystr := $"hol-guard.workflow-capability-receipt.v1".
Definition WORKFLOW_CAPABILITY_RECEIPT_ENVELOPE_SCHEMA : pystr :=
  $"hol-guard.workflow-capability-receipt-envelope.v1".
Definition WORKFLOW_CAPABILITY_ALGORITHM : pystr := $"hmac-sha256".
Definition FRAME_MAGIC : list Z := $"hol-guard.workflow-capability" ++ [0].
Definition IDENTIFIER_PATTERN : regex :=
  RCat (RSet [(65, 90); (97, 122); (48, 57)])
    (RUpTo 255 (RSet [(65, 90); (97, 122); (48, 57); (46, 46); (95, 95); (58, 58); (47, 47); (64, 64); (43, 43); (45, 45)])).
Definition NONCE_PATTERN : regex := RCat (RRep 32 (RSet hex09)) (RUpTo 32 (RSet hex09)).
Definition REASON_CODE_PATTERN : regex :=
  RCat (RSet [(97, 122)]) (RUpTo 63 (RSet [(97, 122); (48, 57); (95, 95); (46, 46); (45, 45)])).

Definition WorkflowCapabilityError (m : string) : exn := ValueError m.

(** [f"invalid_{name}"] *)
Definition invalid (name : string) : exn := WorkflowCapabilityError ("invalid_" +:+ name).
Definition string_of (s : pystr) : string :=
  String.string_of_list_ascii (map (λ c, Ascii.ascii_of_N (Z.to_N c)) s).

Definition validate_workflow_capability_identifier (name : string) (value : pystr) : result unit :=
  raise_if (negb (fullmatch IDENTIFIER_PATTERN value) || existsb (Z.eqb 42) value) (invalid name).
Definition validate_sha256 (name : string) (value : pystr) : result unit :=
  raise_if (negb (fullmatch SHA256_RE value)) (invalid name).
(** The same check by length and characters, as the other two files spell it. *)
Definition digest_ok (value : pystr) : bool := (length value =? 64)%nat && forallb is_hex value.
Definition digest (name : string) (value : pystr) : result unit := raise_if (negb (digest_ok value)) (invalid name).
Definition validate_key (key : list Z) : result unit :=
  raise_if (length key <? 32)%nat (WorkflowCapabilityError "invalid_capability_key").

Definition require_string (name : string) (v : pyval) : result pystr :=
  match v with PStr s => Ok s | _ => Raise (invalid name) end.
Definition optional_string (name : string) (v : pyval) : result (option pystr) :=
  match v with PNone => Ok None | _ => s ← require_string name v ; Ok (Some s) end.
Definition require_integer (name : string) (v : pyval) : result Z :=
  match v with PInt n => Ok n | _ => Raise (invalid name) end.
Definition optional_integer (name : string) (v : pyval) : result (option Z) :=
  match v with PNone => Ok None | _ => n ← require_integer name v ; Ok (Some n) end.

(** [_strict_object(payload, keys)] *)
Definition strict_object (payload : pyval) (keys : list pystr) : result pydict :=
  match payload with
  | PDict d =>
      raise_if (negb (py_subset (dict_keys d) keys && py_subset keys (dict_keys d)))
        (WorkflowCapabilityError "invalid_contract_keys") ;;
      Ok d
  | _ => Raise (WorkflowCapabilityError "invalid_contract_keys")
  end.

(** Splits a chain of checks that succeeded. *)
Ltac split_checks :=
  repeat match goal with
  | H : (_ ;; _) = Ok _ |- _ => apply then_Ok in H as [? H]
  | H : mbind _ _ = Ok _ |- _ => apply bind_Ok in H as (? & ? & H)
  end.

(** ** Timestamps *)

Section timestamps.
Context `{PyDecimal}.

Definition is_decimal (c : Z) : bool := bool_decide (is_Some (decimal c)).
Definition decimal_of (c : Z) : Z := default 0 (decimal c).
Definition two (a b : Z) : Z := decimal_of a * 10 + decimal_of b.

(** [strptime(value, "%Y-%m-%dT%H:%M:%S.%fZ")] on the texts of
    [_TIMESTAMP_PATTERN]: each field has the characters its directive admits,
    and the fields are those of a [datetime]. *)
Definition parse_utc_timestamp (value : pystr) : result Z :=
  let error := Raise (WorkflowCapabilityError "invalid_canonical_timestamp") in
  match value with
  | [y1; y2; y3; y4; p1; m1; m2; p2; d1; d2; p3; h1; h2; p4; i1; i2; p5; s1; s2; p6; f1; f2; f3; f4; f5; f6; p7] =>
      if negb (bool_decide ([p1; p2; p3; p4; p5; p6; p7] = $"--T::.Z"))
         || negb (forallb is_decimal [y1; y2; y3; y4; m1; m2; d1; d2; h1; h2; i1; i2; s1; s2; f1; f2; f3; f4; f5; f6])
      then error
      else
        let directives :=
          ((m1 =? 48) && in_range 49 57 m2 || (m1 =? 49) && in_range 48 50 m2)
          && ((d1 =? 51) && in_range 48 49 d2 || in_range 49 50 d1 || (d1 =? 48) && in_range 49 57 d2)
          && ((h1 =? 50) && in_range 48 51 h2 || in_range 48 49 h1)
          && in_range 48 53 i1
          && ((s1 =? 54) && in_range 48 49 s2 || in_range 48 53 s1)
          && forallb is_digit [f1; f2; f3; f4; f5; f6] in
        if negb directives then error
        else
          let year := two y1 y2 * 100 + two y3 y4 in
          let month := two m1 m2 in
          let day := two d1 d2 in
          let second := two s1 s2 in
          if (year <? 1) || (days_in_month year month <? day) || (59 <? second) then error
          else
            Ok ((((ordinal year month day * 24 + two h1 h2) * 60 + two i1 i2) * 60 + second) * 1000000
                + two f1 f2 * 10000 + two f3 f4 * 100 + two f5 f6)
  | _ => error
  end.

(** ** Claims and receipts *)

Record WorkflowCapabilityRuleBinding := { rb_rule_id : pystr; rb_rule_version : pystr }.
Global Instance rule_binding_eq_dec : EqDecision WorkflowCapabilityRuleBinding.
Proof. solve_decision. Defined.
Definition rule_key (r : WorkflowCapabilityRuleBinding) : pystr * pystr := (rb_rule_id r, rb_rule_version r).

Definition make_rule_binding (r : WorkflowCapabilityRuleBinding) : result WorkflowCapabilityRuleBinding :=
  validate_workflow_capability_identifier "rule_id" (rb_rule_id r) ;;
  validate_workflow_capability_identifier "rule_version" (rb_rule_version r) ;;
  Ok r.
Definition rule_binding_from_dict (payload : pyval) : result WorkflowCapabilityRuleBinding :=
  values ← strict_object payload [$"rule_id"; $"rule_version"] ;
  rule_id ← require_string "rule_id" (dict_get ($"rule_id") values) ;
  rule_version ← require_string "rule_version" (dict_get ($"rule_version") values) ;
  make_rule_binding {| rb_rule_id := rule_id; rb_rule_version := rule_version |}.
Definition rule_binding_json (r : WorkflowCapabilityRuleBinding) : json :=
  JObj [($"rule_id", JStr (rb_rule_id r)); ($"rule_version", JStr (rb_rule_version r))].

Record WorkflowCapabilityBinding := {
  wb_operation_id : pystr;
  wb_resource_type : pystr;
  wb_resource_sha256 : pystr;
  wb_repository_sha256 : pystr;
  wb_workspace_sha256 : pystr;
  wb_executable_sha256 : pystr;
  wb_launch_sha256 : pystr;
  wb_policy_id : pystr;
  wb_policy_version : pystr;
  wb_effect_id : pystr;
  wb_effect_version : pystr;
  wb_decision_id : pystr;
  wb_decision_version : pystr;
  wb_rules : list WorkflowCapabilityRuleBinding;
}.
Global Instance binding_eq_dec : EqDecision WorkflowCapabilityBinding.
Proof. solve_decision. Defined.

Definition make_binding (b : WorkflowCapabilityBinding) : result WorkflowCapabilityBinding :=
  for_each (λ f : string * pystr, validate_workflow_capability_identifier f.1 f.2)
    [("operation_id", wb_operation_id b); ("resource_type", wb_resource_type b); ("policy_id", wb_policy_id b);
     ("policy_version", wb_policy_version b); ("effect_id", wb_effect_id b); ("effect_version", wb_effect_version b);
     ("decision_id", wb_decision_id b); ("decision_version", wb_decision_version b)]%string ;;
  for_each (λ f : string * pystr, validate_sha256 f.1 f.2)
    [("resource_sha256", wb_resource_sha256 b); ("repository_sha256", wb_repository_sha256 b);
     ("workspace_sha256", wb_workspace_sha256 b); ("executable_sha256", wb_executable_sha256 b);
     ("launch_sha256", wb_launch_sha256 b)]%string ;;
  raise_if (bool_decide (length (wb_rules b) = 0%nat) || (32 <? length (wb_rules b))%nat
            || negb (bool_decide (wb_rules b = sorted_set_on rule_key (wb_rules b))))
    (WorkflowCapabilityError "invalid_rule_bindings") ;;
  Ok b.

(** The text fields of a binding, by name. *)
Definition binding_texts (b : WorkflowCapabilityBinding) : list (pystr * pystr) :=
  [($"operation_id", wb_operation_id b); ($"resource_type", wb_resource_type b);
   ($"resource_sha256", wb_resource_sha256 b); ($"repository_sha256", wb_repository_sha256 b);
   ($"workspace_sha256", wb_workspace_sha256 b); ($"executable_sha256", wb_executable_sha256 b);
   ($"launch_sha256", wb_launch_sha256 b); ($"policy_id", wb_policy_id b); ($"policy_version", wb_policy_version b);
   ($"effect_id", wb_effect_id b); ($"effect_version", wb_effect_version b); ($"decision_id", wb_decision_id b);
   ($"decision_version", wb_decision_version b)].
Definition binding_json (b : WorkflowCapabilityBinding) : json :=
  JObj (map (λ f : pystr * pystr, (f.1, JStr f.2)) (binding_texts b)
        ++ [($"rules", JArr (map rule_binding_json (wb_rules b)))]).
Definition BINDING_FIELDS : list pystr :=
  [$"operation_id"; $"resource_type"; $"resource_sha256"; $"repository_sha256"; $"workspace_sha256";
   $"executable_sha256"; $"launch_sha256"; $"policy_id"; $"policy_version"; $"effect_id"; $"effect_version";
   $"decision_id"; $"decision_version"; $"rules"].

Definition binding_from_dict (payload : pyval) : result WorkflowCapabilityBinding :=
  values ← strict_object payload BINDING_FIELDS ;
  match dict_get ($"rules") values with
  | PList items =>
      texts ← map_result (λ e : pystr * pyval, s ← require_string (string_of e.1) e.2 ; Ok (e.1, s))
                (dict_pop ($"rules") values) ;
      rules ← map_result rule_binding_from_dict items ;
      let text k := default [] (dict_lookup k texts) in
      make_binding
        {| wb_operation_id := text ($"operation_id"); wb_resource_type := text ($"resource_type");
           wb_resource_sha256 := text ($"resource_sha256"); wb_repository_sha256 := text ($"repository_sha256");
           wb_workspace_sha256 := text ($"workspace_sha256"); wb_executable_sha256 := text ($"executable_sha256");
           wb_launch_sha256 := text ($"launch_sha256"); wb_policy_id := text ($"policy_id");
           wb_policy_version := text ($"policy_version"); wb_effect_id := text ($"effect_id");
           wb_effect_version := text ($"effect_version"); wb_decision_id := text ($"decision_id");
           wb_decision_version := text ($"decision_version"); wb_rules := rules |}
  | _ => Raise (WorkflowCapabilityError "invalid_rule_bindings")
  end.

Record WorkflowCapabilityClaim := {
  cl_schema_version : pystr;
  cl_algorithm : pystr;
  cl_capability_id : pystr;
  cl_approval_provenance_id : pystr;
  cl_task_id : pystr;
  cl_nonce : pystr;
  cl_issuer_id : pystr;
  cl_subject_id : pystr;
  cl_binding : WorkflowCapabilityBinding;
  cl_issued_at : pystr;
  cl_not_before : pystr;
  cl_expires_at : pystr;
  cl_max_uses : Z;
}.
Global Instance claim_eq_dec : EqDecision WorkflowCapabilityClaim.
Proof. solve_decision. Defined.

Definition MAX_TTL : Z := 86400 * 1000000.

Definition make_claim (c : WorkflowCapabilityClaim) : result WorkflowCapabilityClaim :=
  raise_if (negb (bool_decide (cl_schema_version c = WORKFLOW_CAPABILITY_SCHEMA)))
    (WorkflowCapabilityError "unsupported_capability_schema") ;;
  raise_if (negb (bool_decide (cl_algorithm c = WORKFLOW_CAPABILITY_ALGORITHM)))
    (WorkflowCapabilityError "unsupported_capability_algorithm") ;;
  for_each (λ f : string * pystr, validate_workflow_capability_identifier f.1 f.2)
    [("capability_id", cl_capability_id c); ("approval_provenance_id", cl_approval_provenance_id c);
     ("task_id", cl_task_id c); ("issuer_id", cl_issuer_id c); ("subject_id", cl_subject_id c)]%string ;;
  raise_if (negb (fullmatch NONCE_PATTERN (cl_nonce c))) (WorkflowCapabilityError "invalid_nonce") ;;
  issued ← parse_utc_timestamp (cl_issued_at c) ;
  not_before ← parse_utc_timestamp (cl_not_before c) ;
  expires ← parse_utc_timestamp (cl_expires_at c) ;
  raise_if (negb ((issued <=? not_before) && (not_before <? expires)))
    (WorkflowCapabilityError "invalid_capability_time_window") ;;
  raise_if (MAX_TTL <? expires - issued) (WorkflowCapabilityError "capability_ttl_exceeds_alpha_limit") ;;
  raise_if (negb ((1 <=? cl_max_uses c) && (cl_max_uses c <=? 50))) (WorkflowCapabilityError "invalid_capability_max_uses") ;;
  Ok c.

Definition CLAIM_FIELDS : list pystr :=
  [$"schema_version"; $"algorithm"; $"capability_id"; $"approval_provenance_id"; $"task_id"; $"nonce"; $"issuer_id";
   $"subject_id"; $"binding"; $"issued_at"; $"not_before"; $"expires_at"; $"max_uses"].
Definition claim_json (c : WorkflowCapabilityClaim) : json :=
  JObj [($"schema_version", JStr (cl_schema_version c)); ($"algorithm", JStr (cl_algorithm c));
        ($"capability_id", JStr (cl_capability_id c)); ($"approval_provenance_id", JStr (cl_approval_provenance_id c));
        ($"task_id", JStr (cl_task_id c)); ($"nonce", JStr (cl_nonce c)); ($"issuer_id", JStr (cl_issuer_id c));
        ($"subject_id", JStr (cl_subject_id c)); ($"binding", binding_json (cl_binding c));
        ($"issued_at", JStr (cl_issued_at c)); ($"not_before", JStr (cl_not_before c));
        ($"expires_at", JStr (cl_expires_at c)); ($"max_uses", JInt (cl_max_uses c))].

Definition claim_from_dict (payload : pyval) : result WorkflowCapabilityClaim :=
  values ← strict_object payload CLAIM_FIELDS ;
  max_uses ← match dict_get ($"max_uses") values with
             | PInt n => Ok n
             | _ => Raise (WorkflowCapabilityError "invalid_capability_max_uses")
             end ;
  schema_version ← require_string "schema_version" (dict_get ($"schema_version") values) ;
  algorithm ← require_string "algorithm" (dict_get ($"algorithm") values) ;
  capability_id ← require_string "capability_id" (dict_get ($"capability_id") values) ;
  approval_provenance_id ← require_string "approval_provenance_id" (dict_get ($"approval_provenance_id") values) ;
  task_id ← require_string "task_id" (dict_get ($"task_id") values) ;
  nonce ← require_string "nonce" (dict_get ($"nonce") values) ;
  issuer_id ← require_string "issuer_id" (dict_get ($"issuer_id") values) ;
  subject_id ← require_string "subject_id" (dict_get ($"subject_id") values) ;
  binding ← binding_from_dict (dict_get ($"binding") values) ;
  issued_at ← require_string "issued_at" (dict_get ($"issued_at") values) ;
  not_before ← require_string "not_before" (dict_get ($"not_before") values) ;
  expires_at ← require_string "expires_at" (dict_get ($"expires_at") values) ;
  make_claim
    {| cl_schema_version := schema_version; cl_algorithm := algorithm; cl_capability_id := capability_id;
       cl_approval_provenance_id := approval_provenance_id; cl_task_id := task_id; cl_nonce := nonce;
       cl_issuer_id := issuer_id; cl_subject_id := subject_id; cl_binding := binding; cl_issued_at := issued_at;
       cl_not_before := not_before; cl_expires_at := expires_at; cl_max_uses := max_uses |}.

Record SignedWorkflowCapability := {
  sc_envelope_schema : pystr;
  sc_algorithm : pystr;
  sc_claim : WorkflowCapabilityClaim;
  sc_key_id : pystr;
  sc_signature : pystr;
}.
Global Instance signed_claim_eq_dec : EqDecision SignedWorkflowCapability.
Proof. solve_decision. Defined.

Definition make_signed_capability (s : SignedWorkflowCapability) : result SignedWorkflowCapability :=
  raise_if (negb (bool_decide (sc_envelope_schema s = WORKFLOW_CAPABILITY_ENVELOPE_SCHEMA)))
    (WorkflowCapabilityError "unsupported_capability_envelope") ;;
  raise_if (negb (bool_decide (sc_algorithm s = WORKFLOW_CAPABILITY_ALGORITHM))
            || negb (bool_decide (sc_algorithm s = cl_algorithm (sc_claim s))))
    (WorkflowCapabilityError "unsupported_capability_algorithm") ;;
  validate_workflow_capability_identifier "key_id" (sc_key_id s) ;;
  validate_sha256 "signature" (sc_signature s) ;;
  Ok s.
Definition signed_capability_json (s : SignedWorkflowCapability) : json :=
  JObj [($"envelope_schema", JStr (sc_envelope_schema s)); ($"algorithm", JStr (sc_algorithm s));
        ($"claim", claim_json (sc_claim s)); ($"key_id", JStr (sc_key_id s)); ($"signature", JStr (sc_signature s))].
Definition signed_capability_from_dict (payload : pyval) : result SignedWorkflowCapability :=
  values ← strict_object payload [$"envelope_schema"; $"algorithm"; $"claim"; $"key_id"; $"signature"] ;
  envelope_schema ← require_string "envelope_schema" (dict_get ($"envelope_schema") values) ;
  algorithm ← require_string "algorithm" (dict_get ($"algorithm") values) ;
  claim ← claim_from_dict (dict_get ($"claim") values) ;
  key_id ← require_string "key_id" (dict_get ($"key_id") values) ;
  signature ← require_string "signature" (dict_get ($"signature") values) ;
  make_signed_capability
    {| sc_envelope_schema := envelope_schema; sc_algorithm := algorithm; sc_claim := claim; sc_key_id := key_id;
       sc_signature := signature |}.

Record WorkflowCapabilityReceipt := {
  wr_schema_version : pystr;
  wr_receipt_id : pystr;
  wr_capability_id : pystr;
  wr_task_id : pystr;
  wr_invocation_id : pystr;
  wr_approval_provenance_id : pystr;
  wr_claim_sha256 : pystr;
  wr_binding : WorkflowCapabilityBinding;
  wr_use_number : Z;
  wr_event_id : Z;
  wr_claimed_at : pystr;
}.
Global Instance receipt_eq_dec : EqDecision WorkflowCapabilityReceipt.
Proof. solve_decision. Defined.

Definition make_receipt (r : WorkflowCapabilityReceipt) : result WorkflowCapabilityReceipt :=
  raise_if (negb (bool_decide (wr_schema_version r = WORKFLOW_CAPABILITY_RECEIPT_SCHEMA)))
    (WorkflowCapabilityError "unsupported_receipt_schema") ;;
  for_each (λ f : string * pystr, validate_workflow_capability_identifier f.1 f.2)
    [("receipt_id", wr_receipt_id r); ("capability_id", wr_capability_id r); ("task_id", wr_task_id r);
     ("invocation_id", wr_invocation_id r); ("approval_provenance_id", wr_approval_provenance_id r)]%string ;;
  validate_sha256 "claim_sha256" (wr_claim_sha256 r) ;;
  _ ← parse_utc_timestamp (wr_claimed_at r) ;
  raise_if (wr_use_number r <? 1) (WorkflowCapabilityError "invalid_receipt_use_number") ;;
  raise_if (wr_event_id r <? 1) (WorkflowCapabilityError "invalid_receipt_event_id") ;;
  Ok r.

Definition RECEIPT_FIELDS : list pystr :=
  [$"schema_version"; $"receipt_id"; $"capability_id"; $"task_id"; $"invocation_id"; $"approval_provenance_id";
   $"claim_sha256"; $"binding"; $"use_number"; $"event_id"; $"claimed_at"].
Definition receipt_json (r : WorkflowCapabilityReceipt) : json :=
  JObj [($"schema_version", JStr (wr_schema_version r)); ($"receipt_id", JStr (wr_receipt_id r));
        ($"capability_id", JStr (wr_capability_id r)); ($"task_id", JStr (wr_task_id r));
        ($"invocation_id", JStr (wr_invocation_id r)); ($"approval_provenance_id", JStr (wr_approval_provenance_id r));
        ($"claim_sha256", JStr (wr_claim_sha256 r)); ($"binding", binding_json (wr_binding r));
        ($"use_number", JInt (wr_use_number r)); ($"event_id", JInt (wr_event_id r));
        ($"claimed_at", JStr (wr_claimed_at r))].
Definition receipt_from_dict (payload : pyval) : result WorkflowCapabilityReceipt :=
  values ← strict_object payload RECEIPT_FIELDS ;
  use_number ← match dict_get ($"use_number") values with
               | PInt n => Ok n | _ => Raise (WorkflowCapabilityError "invalid_receipt_use_number") end ;
  event_id ← match dict_get ($"event_id") values with
             | PInt n => Ok n | _ => Raise (WorkflowCapabilityError "invalid_receipt_event_id") end ;
  schema_version ← require_string "schema_version" (dict_get ($"schema_version") values) ;
  receipt_id ← require_string "receipt_id" (dict_get ($"receipt_id") values) ;
  capability_id ← require_string "capability_id" (dict_get ($"capability_id") values) ;
  task_id ← require_string "task_id" (dict_get ($"task_id") values) ;
  invocation_id ← require_string "invocation_id" (dict_get ($"invocation_id") values) ;
  approval_provenance_id ← require_string "approval_provenance_id" (dict_get ($"approval_provenance_id") values) ;
  claim_sha256 ← require_string "claim_sha256" (dict_get ($"claim_sha256") values) ;
  binding ← binding_from_dict (dict_get ($"binding") values) ;
  claimed_at ← require_string "claimed_at" (dict_get ($"claimed_at") values) ;
  make_receipt
    {| wr_schema_version := schema_version; wr_receipt_id := receipt_id; wr_capability_id := capability_id;
       wr_task_id := task_id; wr_invocation_id := invocation_id; wr_approval_provenance_id := approval_provenance_id;
       wr_claim_sha256 := claim_sha256; wr_binding := binding; wr_use_number := use_number; wr_event_id := event_id;
       wr_claimed_at := claimed_at |}.

Record SignedWorkflowCapabilityReceipt := {
  sr_envelope_schema : pystr;
  sr_algorithm : pystr;
  sr_receipt : WorkflowCapabilityReceipt;
  sr_key_id : pystr;
  sr_signature : pystr;
}.
Global Instance signed_receipt_eq_dec : EqDecision SignedWorkflowCapabilityReceipt.
Proof. solve_decision. Defined.

Definition make_signed_receipt (s : SignedWorkflowCapabilityReceipt) : result SignedWorkflowCapabilityReceipt :=
  raise_if (negb (bool_decide (sr_envelope_schema s = WORKFLOW_CAPABILITY_RECEIPT_ENVELOPE_SCHEMA)))
    (WorkflowCapabilityError "unsupported_receipt_envelope") ;;
  raise_if (negb (bool_decide (sr_algorithm s = WORKFLOW_CAPABILITY_ALGORITHM)))
    (WorkflowCapabilityError "unsupported_receipt_algorithm") ;;
  validate_workflow_capability_identifier "key_id" (sr_key_id s) ;;
  validate_sha256 "signature" (sr_signature s) ;;
  Ok s.
Definition signed_receipt_json (s : SignedWorkflowCapabilityReceipt) : json :=
  JObj [($"envelope_schema", JStr (sr_envelope_schema s)); ($"algorithm", JStr (sr_algorithm s));
        ($"receipt", receipt_json (sr_receipt s)); ($"key_id", JStr (sr_key_id s));
        ($"signature", JStr (sr_signature s))].
Definition signed_receipt_from_dict (payload : pyval) : result SignedWorkflowCapabilityReceipt :=
  values ← strict_object payload [$"envelope_schema"; $"algorithm"; $"receipt"; $"key_id"; $"signature"] ;
  envelope_schema ← require_string "envelope_schema" (dict_get ($"envelope_schema") values) ;
  algorithm ← require_string "algorithm" (dict_get ($"algorithm") values) ;
  receipt ← receipt_from_dict (dict_get ($"receipt") values) ;
  key_id ← require_string "key_id" (dict_get ($"key_id") values) ;
  signature ← require_string "signature" (dict_get ($"signature") values) ;
  make_signed_receipt
    {| sr_envelope_schema := envelope_schema; sr_algorithm := algorithm; sr_receipt := receipt; sr_key_id := key_id;
       sr_signature := signature |}.

(** ** Signatures *)

Definition canonical_framed_payload (purpose : pystr) (payload : json) : list Z :=
  let canonical := utf8 (dumps payload) in
  FRAME_MAGIC ++ be_bytes 4 (Z.of_nat (length purpose)) ++ purpose
  ++ be_bytes 8 (Z.of_nat (length canonical)) ++ canonical.

Section decoding.
Variable float_of : pystr → pyval.

(** [from_dict(json.loads(json.dumps(asdict(claim))))] *)
Definition validated_claim (c : WorkflowCapabilityClaim) : result WorkflowCapabilityClaim :=
  payload ← loads float_of (dumps (claim_json c)) ; claim_from_dict payload.
Definition validated_receipt (r : WorkflowCapabilityReceipt) : result WorkflowCapabilityReceipt :=
  payload ← loads float_of (dumps (receipt_json r)) ; receipt_from_dict payload.

Definition sign_workflow_capability (claim : WorkflowCapabilityClaim) (key : list Z) (key_id : pystr)
    : result SignedWorkflowCapability :=
  validate_key key ;;
  validate_workflow_capability_identifier "key_id" key_id ;;
  claim ← validated_claim claim ;
  let authenticated := JObj [($"algorithm", JStr WORKFLOW_CAPABILITY_ALGORITHM); ($"claim", claim_json claim);
                             ($"envelope_schema", JStr WORKFLOW_CAPABILITY_ENVELOPE_SCHEMA); ($"key_id", JStr key_id)] in
  make_signed_capability
    {| sc_envelope_schema := WORKFLOW_CAPABILITY_ENVELOPE_SCHEMA; sc_algorithm := WORKFLOW_CAPABILITY_ALGORITHM;
       sc_claim := claim; sc_key_id := key_id;
       sc_signature := hmac_sha256_hex key (canonical_framed_payload ($"claim-envelope") authenticated) |}.

Definition verify_workflow_capability_signature (signed : SignedWorkflowCapability) (key : list Z) (key_id : pystr)
    : result unit :=
  validate_key key ;;
  raise_if (negb (bool_decide (sc_envelope_schema signed = WORKFLOW_CAPABILITY_ENVELOPE_SCHEMA)))
    (WorkflowCapabilityError "unsupported_capability_envelope") ;;
  raise_if (negb (bool_decide (cl_schema_version (sc_claim signed) = WORKFLOW_CAPABILITY_SCHEMA)))
    (WorkflowCapabilityError "unsupported_capability_schema") ;;
  raise_if (negb (bool_decide (sc_algorithm signed = WORKFLOW_CAPABILITY_ALGORITHM))
            || negb (bool_decide (cl_algorithm (sc_claim signed) = sc_algorithm signed)))
    (WorkflowCapabilityError "unsupported_capability_algorithm") ;;
  validate_workflow_capability_identifier "key_id" (sc_key_id signed) ;;
  validate_sha256 "signature" (sc_signature signed) ;;
  raise_if (negb (bool_decide (sc_key_id signed = key_id))) (WorkflowCapabilityError "capability_key_mismatch") ;;
  expected ← sign_workflow_capability (sc_claim signed) key key_id ;
  raise_if (negb (bool_decide (sc_signature expected = sc_signature signed)))
    (WorkflowCapabilityError "capability_signature_invalid").

Definition verify_workflow_capability (signed : SignedWorkflowCapability) (key : list Z) (key_id now : pystr)
    (expected_binding : WorkflowCapabilityBinding) : result unit :=
  verify_workflow_capability_signature signed key key_id ;;
  current ← parse_utc_timestamp now ;
  not_before ← parse_utc_timestamp (cl_not_before (sc_claim signed)) ;
  raise_if (current <? not_before) (WorkflowCapabilityError "capability_not_yet_valid") ;;
  expires ← parse_utc_timestamp (cl_expires_at (sc_claim signed)) ;
  raise_if (expires <=? current) (WorkflowCapabilityError "capability_expired") ;;
  raise_if (negb (bool_decide (cl_binding (sc_claim signed) = expected_binding)))
    (WorkflowCapabilityError "capability_context_mismatch").

Definition sign_workflow_capability_receipt (receipt : WorkflowCapabilityReceipt) (key : list Z) (key_id : pystr)
    : result SignedWorkflowCapabilityReceipt :=
  validate_key key ;;
  validate_workflow_capability_identifier "key_id" key_id ;;
  receipt ← validated_receipt receipt ;
  let authenticated := JObj [($"algorithm", JStr WORKFLOW_CAPABILITY_ALGORITHM);
                             ($"envelope_schema", JStr WORKFLOW_CAPABILITY_RECEIPT_ENVELOPE_SCHEMA);
                             ($"key_id", JStr key_id); ($"receipt", receipt_json receipt)] in
  make_signed_receipt
    {| sr_envelope_schema := WORKFLOW_CAPABILITY_RECEIPT_ENVELOPE_SCHEMA; sr_algorithm := WORKFLOW_CAPABILITY_ALGORITHM;
       sr_receipt := receipt; sr_key_id := key_id;
       sr_signature := hmac_sha256_hex key (canonical_framed_payload ($"receipt-envelope") authenticated) |}.

Definition verify_workflow_capability_receipt (signed : SignedWorkflowCapabilityReceipt) (key : list Z)
    (key_id : pystr) : result unit :=
  validate_key key ;;
  raise_if (negb (bool_decide (sr_envelope_schema signed = WORKFLOW_CAPABILITY_RECEIPT_ENVELOPE_SCHEMA)))
    (WorkflowCapabilityError "unsupported_receipt_envelope") ;;
  raise_if (negb (bool_decide (wr_schema_version (sr_receipt signed) = WORKFLOW_CAPABILITY_RECEIPT_SCHEMA)))
    (WorkflowCapabilityError "unsupported_receipt_schema") ;;
  raise_if (negb (bool_decide (sr_algorithm signed = WORKFLOW_CAPABILITY_ALGORITHM)))
    (WorkflowCapabilityError "unsupported_receipt_algorithm") ;;
  validate_workflow_capability_identifier "key_id" (sr_key_id signed) ;;
  validate_sha256 "signature" (sr_signature signed) ;;
  raise_if (negb (bool_decide (sr_key_id signed = key_id))) (WorkflowCapabilityError "receipt_key_mismatch") ;;
  expected ← sign_workflow_capability_receipt (sr_receipt signed) key key_id ;
  raise_if (negb (bool_decide (sr_signature expected = sr_signature signed)))
    (WorkflowCapabilityError "receipt_signature_invalid").

Definition workflow_capability_claim_sha256 (signed : SignedWorkflowCapability) : pystr :=
  sha256_hex (canonical_framed_payload ($"signed-claim") (signed_capability_json signed)).

(** [try: json.loads(encoded) except json.JSONDecodeError: raise error] *)
Definition loads_or (error : string) (encoded : pystr) : result pyval :=
  match loads float_of encoded with Ok v => Ok v | Raise _ => Raise (WorkflowCapabilityError error) end.

(** [_canonical(payload)] *)
Definition canonical (payload : json) : pystr := dumps payload.

(** [_decode_signed_claim] and [_decode_signed_receipt] *)
Definition decode_signed_claim (encoded : pystr) : result SignedWorkflowCapability :=
  payload ← loads_or "capability_payload_invalid" encoded ;
  signed ← signed_capability_from_dict payload ;
  raise_if (negb (bool_decide (canonical (signed_capability_json signed) = encoded)))
    (WorkflowCapabilityError "capability_payload_not_canonical") ;;
  Ok signed.
Definition decode_signed_receipt (encoded : pystr) : result SignedWorkflowCapabilityReceipt :=
  payload ← loads_or "receipt_payload_invalid" encoded ;
  signed ← signed_receipt_from_dict payload ;
  raise_if (negb (bool_decide (canonical (signed_receipt_json signed) = encoded)))
    (WorkflowCapabilityError "receipt_payload_not_canonical") ;;
  Ok signed.

(** ** Authority transitions *)

Definition AUTHORITY_TRANSITION_SCHEMA : pystr := $"hol-guard.workflow-capability-authority-transition.v1".
Definition AUTHORITY_TRANSITION_ALGORITHM : pystr := $"hmac-sha256".
Definition ZERO_TRANSITION_SHA256 : pystr := replicate 64 48.
Definition KINDS : list pystr := [$"issued"; $"claimed"; $"revoked"].

Record WorkflowCapabilityAuthorityTransition := {
  at_schema_version : pystr;
  at_algorithm : pystr;
  at_sequence : Z;
  at_capability_id : pystr;
  at_claim_sha256 : pystr;
  at_revision : Z;
  at_transition_kind : pystr;
  at_previous_transition_sha256 : pystr;
  at_signed_state_sha256 : pystr;
  at_event_id : option Z;
  at_event_name : option pystr;
  at_event_payload_sha256 : option pystr;
  at_occurred_at : pystr;
  at_use_number : option Z;
  at_receipt_id : option pystr;
  at_revocation_id : option pystr;
}.
Global Instance transition_eq_dec : EqDecision WorkflowCapabilityAuthorityTransition.
Proof. solve_decision. Defined.

(** [type(value) is str and test(value)] of an optional text *)
Definition required_text (name : string) (check : string → pystr → result unit) (v : option pystr) : result unit :=
  match v with Some s => check name s | None => Raise (invalid name) end.
Definition optional_text (name : string) (v : option pystr) : result unit :=
  match v with Some s => validate_workflow_capability_identifier name s | None => Ok tt end.
Definition given {A} (v : option A) : bool := bool_decide (is_Some v).

Definition make_transition (t : WorkflowCapabilityAuthorityTransition)
    : result WorkflowCapabilityAuthorityTransition :=
  let error m := WorkflowCapabilityError ("invalid_authority_transition_" +:+ m) in
  let claimed := bool_decide (at_transition_kind t = $"claimed") in
  raise_if (negb (bool_decide (at_schema_version t = AUTHORITY_TRANSITION_SCHEMA)))
    (WorkflowCapabilityError "unsupported_authority_transition_schema") ;;
  raise_if (negb (bool_decide (at_algorithm t = AUTHORITY_TRANSITION_ALGORITHM)))
    (WorkflowCapabilityError "unsupported_authority_transition_algorithm") ;;
  raise_if (at_sequence t <? 1) (error "sequence") ;;
  raise_if (at_revision t <? 0) (error "revision") ;;
  validate_workflow_capability_identifier "capability_id" (at_capability_id t) ;;
  digest "claim_sha256" (at_claim_sha256 t) ;;
  digest "previous_transition_sha256" (at_previous_transition_sha256 t) ;;
  digest "signed_state_sha256" (at_signed_state_sha256 t) ;;
  _ ← parse_utc_timestamp (at_occurred_at t) ;
  raise_if (negb (py_in (at_transition_kind t) KINDS)) (error "kind") ;;
  raise_if (match at_event_id t with Some n => n <? 1 | None => true end) (error "event") ;;
  required_text "event_name" validate_workflow_capability_identifier (at_event_name t) ;;
  required_text "event_payload_sha256" digest (at_event_payload_sha256 t) ;;
  raise_if (match at_use_number t with Some n => n <? 1 | None => false end) (error "use_number") ;;
  optional_text "receipt_id" (at_receipt_id t) ;;
  optional_text "revocation_id" (at_revocation_id t) ;;
  raise_if (negb (Bool.eqb claimed (given (at_receipt_id t)))) (error "receipt") ;;
  raise_if (negb (Bool.eqb claimed (given (at_use_number t)))) (error "use_number") ;;
  raise_if (negb (Bool.eqb (bool_decide (at_transition_kind t = $"revoked")) (given (at_revocation_id t))))
    (error "revocation") ;;
  Ok t.

Definition TRANSITION_FIELDS : list pystr :=
  [$"schema_version"; $"algorithm"; $"sequence"; $"capability_id"; $"claim_sha256"; $"revision"; $"transition_kind";
   $"previous_transition_sha256"; $"signed_state_sha256"; $"event_id"; $"event_name"; $"event_payload_sha256";
   $"occurred_at"; $"use_number"; $"receipt_id"; $"revocation_id"].
Definition transition_json (t : WorkflowCapabilityAuthorityTransition) : json :=
  JObj [($"schema_version", JStr (at_schema_version t)); ($"algorithm", JStr (at_algorithm t));
        ($"sequence", JInt (at_sequence t)); ($"capability_id", JStr (at_capability_id t));
        ($"claim_sha256", JStr (at_claim_sha256 t)); ($"revision", JInt (at_revision t));
        ($"transition_kind", JStr (at_transition_kind t));
        ($"previous_transition_sha256", JStr (at_previous_transition_sha256 t));
        ($"signed_state_sha256", JStr (at_signed_state_sha256 t)); ($"event_id", jopt JInt (at_event_id t));
        ($"event_name", jopt JStr (at_event_name t));
        ($"event_payload_sha256", jopt JStr (at_event_payload_sha256 t)); ($"occurred_at", JStr (at_occurred_at t));
        ($"use_number", jopt JInt (at_use_number t)); ($"receipt_id", jopt JStr (at_receipt_id t));
        ($"revocation_id", jopt JStr (at_revocation_id t))].

Definition transition_from_dict (payload : pyval) : result WorkflowCapabilityAuthorityTransition :=
  values ← strict_object payload TRANSITION_FIELDS ;
  schema_version ← require_string "schema_version" (dict_get ($"schema_version") values) ;
  algorithm ← require_string "algorithm" (dict_get ($"algorithm") values) ;
  sequence ← require_integer "sequence" (dict_get ($"sequence") values) ;
  capability_id ← require_string "capability_id" (dict_get ($"capability_id") values) ;
  claim_sha256 ← require_string "claim_sha256" (dict_get ($"claim_sha256") values) ;
  revision ← require_integer "revision" (dict_get ($"revision") values) ;
  transition_kind ← require_string "transition_kind" (dict_get ($"transition_kind") values) ;
  previous ← require_string "previous_transition_sha256" (dict_get ($"previous_transition_sha256") values) ;
  state ← require_string "signed_state_sha256" (dict_get ($"signed_state_sha256") values) ;
  event_id ← optional_integer "event_id" (dict_get ($"event_id") values) ;
  event_name ← optional_string "event_name" (dict_get ($"event_name") values) ;
  event_payload ← optional_string "event_payload_sha256" (dict_get ($"event_payload_sha256") values) ;
  occurred_at ← require_string "occurred_at" (dict_get ($"occurred_at") values) ;
  use_number ← optional_integer "use_number" (dict_get ($"use_number") values) ;
  receipt_id ← optional_string "receipt_id" (dict_get ($"receipt_id") values) ;
  revocation_id ← optional_string "revocation_id" (dict_get ($"revocation_id") values) ;
  make_transition
    {| at_schema_version := schema_version; at_algorithm := algorithm; at_sequence := sequence;
       at_capability_id := capability_id; at_claim_sha256 := claim_sha256; at_revision := revision;
       at_transition_kind := transition_kind; at_previous_transition_sha256 := previous;
       at_signed_state_sha256 := state; at_event_id := event_id; at_event_name := event_name;
       at_event_payload_sha256 := event_payload; at_occurred_at := occurred_at; at_use_number := use_number;
       at_receipt_id := receipt_id; at_revocation_id := revocation_id |}.

Record SignedAuthorityTransition := {
  st_transition : WorkflowCapabilityAuthorityTransition; st_key_id : pystr; st_signature : pystr }.
Global Instance signed_transition_eq_dec : EqDecision SignedAuthorityTransition.
Proof. solve_decision. Defined.

Definition sign_authority_transition (t : WorkflowCapabilityAuthorityTransition) (key : list Z) (key_id : pystr)
    : result SignedAuthorityTransition :=
  validate_key key ;;
  validate_workflow_capability_identifier "key_id" key_id ;;
  let payload := JObj [($"key_id", JStr key_id); ($"transition", transition_json t)] in
  Ok {| st_transition := t; st_key_id := key_id;
        st_signature := hmac_sha256_hex key (canonical_framed_payload ($"authority-transition") payload) |}.

Definition verify_authority_transition (signed : SignedAuthorityTransition) (key : list Z) (key_id : pystr)
    : result unit :=
  raise_if (negb (bool_decide (st_key_id signed = key_id)))
    (WorkflowCapabilityError "authority_transition_key_mismatch") ;;
  digest "signature" (st_signature signed) ;;
  expected ← sign_authority_transition (st_transition signed) key key_id ;
  raise_if (negb (bool_decide (st_signature signed = st_signature expected)))
    (WorkflowCapabilityError "authority_transition_signature_invalid").

Definition signed_transition_json (s : SignedAuthorityTransition) : json :=
  JObj [($"key_id", JStr (st_key_id s)); ($"signature", JStr (st_signature s));
        ($"transition", transition_json (st_transition s))].
Definition encode_signed_authority_transition (s : SignedAuthorityTransition) : pystr := canonical (signed_transition_json s).

Definition decode_signed_authority_transition (encoded : pystr) : result SignedAuthorityTransition :=
  loaded ← loads_or "authority_transition_payload_invalid" encoded ;
  payload ← strict_object loaded [$"key_id"; $"signature"; $"transition"] ;
  transition ← transition_from_dict (dict_get ($"transition") payload) ;
  key_id ← require_string "key_id" (dict_get ($"key_id") payload) ;
  signature ← require_string "signature" (dict_get ($"signature") payload) ;
  let signed := {| st_transition := transition; st_key_id := key_id; st_signature := signature |} in
  raise_if (negb (bool_decide (encode_signed_authority_transition signed = encoded)))
    (WorkflowCapabilityError "authority_transition_not_canonical") ;;
  Ok signed.

(** [authority_transition_sha256], of the encoded transition *)
Definition transition_text_sha256 (encoded : pystr) : pystr :=
  sha256_hex (canonical_framed_payload ($"authority-transition-digest") (JStr encoded)).
Definition authority_transition_sha256 (s : SignedAuthorityTransition) : pystr :=
  transition_text_sha256 (encode_signed_authority_transition s).

(** ** Authority states and revocations *)

Definition AUTHORITY_STATE_SCHEMA : pystr := $"hol-guard.workflow-capability-authority-state.v1".
Definition REVOCATION_SCHEMA : pystr := $"hol-guard.workflow-capability-revocation.v1".

Record WorkflowCapabilityAuthorityState := {
  as_schema_version : pystr;
  as_capability_id : pystr;
  as_claim_sha256 : pystr;
  as_use_high_water : Z;
  as_observed_at : pystr;
  as_revision : Z;
  as_revocation_id : option pystr;
  as_revoked_at : option pystr;
}.
Global Instance authority_state_eq_dec : EqDecision WorkflowCapabilityAuthorityState.
Proof. solve_decision. Defined.

Definition make_authority_state (s : WorkflowCapabilityAuthorityState) : result WorkflowCapabilityAuthorityState :=
  raise_if (negb (bool_decide (as_schema_version s = AUTHORITY_STATE_SCHEMA)))
    (WorkflowCapabilityError "unsupported_authority_state_schema") ;;
  validate_workflow_capability_identifier "capability_id" (as_capability_id s) ;;
  validate_sha256 "claim_sha256" (as_claim_sha256 s) ;;
  _ ← parse_utc_timestamp (as_observed_at s) ;
  raise_if (as_use_high_water s <? 0) (WorkflowCapabilityError "invalid_authority_use_high_water") ;;
  raise_if (as_revision s <? 0) (WorkflowCapabilityError "invalid_authority_revision") ;;
  raise_if (negb (Bool.eqb (given (as_revocation_id s)) (given (as_revoked_at s))))
    (WorkflowCapabilityError "invalid_authority_revocation_binding") ;;
  match as_revocation_id s with
  | Some revocation_id =>
      validate_workflow_capability_identifier "revocation_id" revocation_id ;;
      _ ← parse_utc_timestamp (default [] (as_revoked_at s)) ;
      Ok s
  | None => Ok s
  end.

Definition STATE_FIELDS : list pystr :=
  [$"schema_version"; $"capability_id"; $"claim_sha256"; $"use_high_water"; $"observed_at"; $"revision";
   $"revocation_id"; $"revoked_at"].
Definition authority_state_json (s : WorkflowCapabilityAuthorityState) : json :=
  JObj [($"schema_version", JStr (as_schema_version s)); ($"capability_id", JStr (as_capability_id s));
        ($"claim_sha256", JStr (as_claim_sha256 s)); ($"use_high_water", JInt (as_use_high_water s));
        ($"observed_at", JStr (as_observed_at s)); ($"revision", JInt (as_revision s));
        ($"revocation_id", jopt JStr (as_revocation_id s)); ($"revoked_at", jopt JStr (as_revoked_at s))].
Definition authority_state_from_dict (payload : pyval) : result WorkflowCapabilityAuthorityState :=
  values ← strict_object payload STATE_FIELDS ;
  schema_version ← require_string "schema_version" (dict_get ($"schema_version") values) ;
  capability_id ← require_string "capability_id" (dict_get ($"capability_id") values) ;
  claim_sha256 ← require_string "claim_sha256" (dict_get ($"claim_sha256") values) ;
  use_high_water ← require_integer "use_high_water" (dict_get ($"use_high_water") values) ;
  observed_at ← require_string "observed_at" (dict_get ($"observed_at") values) ;
  revision ← require_integer "revision" (dict_get ($"revision") values) ;
  revocation_id ← optional_string "revocation_id" (dict_get ($"revocation_id") values) ;
  revoked_at ← optional_string "revoked_at" (dict_get ($"revoked_at") values) ;
  make_authority_state
    {| as_schema_version := schema_version; as_capability_id := capability_id; as_claim_sha256 := claim_sha256;
       as_use_high_water := use_high_water; as_observed_at := observed_at; as_revision := revision;
       as_revocation_id := revocation_id; as_revoked_at := revoked_at |}.

Record WorkflowCapabilityRevocation := {
  rv_schema_version : pystr;
  rv_revocation_id : pystr;
  rv_capability_id : pystr;
  rv_claim_sha256 : pystr;
  rv_reason_code : pystr;
  rv_revoked_at : pystr;
}.
Global Instance revocation_eq_dec : EqDecision WorkflowCapabilityRevocation.
Proof. solve_decision. Defined.

Definition make_revocation (r : WorkflowCapabilityRevocation) : result WorkflowCapabilityRevocation :=
  raise_if (negb (bool_decide (rv_schema_version r = REVOCATION_SCHEMA)))
    (WorkflowCapabilityError "unsupported_revocation_schema") ;;
  validate_workflow_capability_identifier "revocation_id" (rv_revocation_id r) ;;
  validate_workflow_capability_identifier "capability_id" (rv_capability_id r) ;;
  validate_sha256 "claim_sha256" (rv_claim_sha256 r) ;;
  raise_if (negb (fullmatch REASON_CODE_PATTERN (rv_reason_code r))) (WorkflowCapabilityError "invalid_reason_code") ;;
  _ ← parse_utc_timestamp (rv_revoked_at r) ;
  Ok r.
Definition REVOCATION_FIELDS : list pystr :=
  [$"schema_version"; $"revocation_id"; $"capability_id"; $"claim_sha256"; $"reason_code"; $"revoked_at"].
Definition revocation_json (r : WorkflowCapabilityRevocation) : json :=
  JObj [($"schema_version", JStr (rv_schema_version r)); ($"revocation_id", JStr (rv_revocation_id r));
        ($"capability_id", JStr (rv_capability_id r)); ($"claim_sha256", JStr (rv_claim_sha256 r));
        ($"reason_code", JStr (rv_reason_code r)); ($"revoked_at", JStr (rv_revoked_at r))].
Definition revocation_from_dict (payload : pyval) : result WorkflowCapabilityRevocation :=
  values ← strict_object payload REVOCATION_FIELDS ;
  texts ← map_result (λ e : pystr * pyval, s ← require_string (string_of e.1) e.2 ; Ok (e.1, s)) values ;
  let text k := default [] (dict_lookup k texts) in
  make_revocation
    {| rv_schema_version := text ($"schema_version"); rv_revocation_id := text ($"revocation_id");
       rv_capability_id := text ($"capability_id"); rv_claim_sha256 := text ($"claim_sha256");
       rv_reason_code := text ($"reason_code"); rv_revoked_at := text ($"revoked_at") |}.

Record SignedAuthorityState := {
  ss_state : WorkflowCapabilityAuthorityState; ss_key_id : pystr; ss_signature : pystr }.
Record SignedRevocation := {
  sv_revocation : WorkflowCapabilityRevocation; sv_key_id : pystr; sv_signature : pystr }.

(** [_mac] *)
Definition mac (purpose : pystr) (payload : json) (key : list Z) (key_id : pystr) : result pystr :=
  validate_key key ;;
  validate_workflow_capability_identifier "key_id" key_id ;;
  Ok (hmac_sha256_hex key
        (canonical_framed_payload purpose (JObj [($"key_id", JStr key_id); ($"payload", payload)]))).

(** [_verify_envelope] *)
Definition verify_envelope (actual_key actual expected key_id : pystr) (purpose : string) : result unit :=
  raise_if (negb (bool_decide (actual_key = key_id))) (WorkflowCapabilityError (purpose +:+ "_key_mismatch")) ;;
  validate_sha256 "signature" actual ;;
  raise_if (negb (bool_decide (actual = expected))) (WorkflowCapabilityError (purpose +:+ "_signature_invalid")).

Definition sign_authority_state (s : WorkflowCapabilityAuthorityState) (key : list Z) (key_id : pystr)
    : result SignedAuthorityState :=
  signature ← mac ($"authority-state") (authority_state_json s) key key_id ;
  Ok {| ss_state := s; ss_key_id := key_id; ss_signature := signature |}.
Definition verify_authority_state (signed : SignedAuthorityState) (key : list Z) (key_id : pystr) : result unit :=
  expected ← sign_authority_state (ss_state signed) key key_id ;
  verify_envelope (ss_key_id signed) (ss_signature signed) (ss_signature expected) key_id "authority_state".
Definition sign_revocation (r : WorkflowCapabilityRevocation) (key : list Z) (key_id : pystr) : result SignedRevocation :=
  signature ← mac ($"revocation") (revocation_json r) key key_id ;
  Ok {| sv_revocation := r; sv_key_id := key_id; sv_signature := signature |}.
Definition verify_revocation (signed : SignedRevocation) (key : list Z) (key_id : pystr) : result unit :=
  expected ← sign_revocation (sv_revocation signed) key key_id ;
  verify_envelope (sv_key_id signed) (sv_signature signed) (sv_signature expected) key_id "revocation".

Definition encode_signed_authority_state (s : SignedAuthorityState) : pystr :=
  canonical (JObj [($"key_id", JStr (ss_key_id s)); ($"signature", JStr (ss_signature s));
                   ($"state", authority_state_json (ss_state s))]).
Definition decode_signed_authority_state (encoded : pystr) : result SignedAuthorityState :=
  loaded ← loads_or "authority_state_payload_invalid" encoded ;
  payload ← strict_object loaded [$"key_id"; $"signature"; $"state"] ;
  state ← authority_state_from_dict (dict_get ($"state") payload) ;
  key_id ← require_string "key_id" (dict_get ($"key_id") payload) ;
  signature ← require_string "signature" (dict_get ($"signature") payload) ;
  let signed := {| ss_state := state; ss_key_id := key_id; ss_signature := signature |} in
  raise_if (negb (bool_decide (encode_signed_authority_state signed = encoded)))
    (WorkflowCapabilityError "authority_state_not_canonical") ;;
  Ok signed.
Definition encode_signed_revocation (s : SignedRevocation) : pystr :=
  canonical (JObj [($"key_id", JStr (sv_key_id s)); ($"revocation", revocation_json (sv_revocation s));
                   ($"signature", JStr (sv_signature s))]).
Definition decode_signed_revocation (encoded : pystr) : result SignedRevocation :=
  loaded ← loads_or "revocation_payload_invalid" encoded ;
  payload ← strict_object loaded [$"key_id"; $"revocation"; $"signature"] ;
  revocation ← revocation_from_dict (dict_get ($"revocation") payload) ;
  key_id ← require_string "key_id" (dict_get ($"key_id") payload) ;
  signature ← require_string "signature" (dict_get ($"signature") payload) ;
  let signed := {| sv_revocation := revocation; sv_key_id := key_id; sv_signature := signature |} in
  raise_if (negb (bool_decide (encode_signed_revocation signed = encoded)))
    (WorkflowCapabilityError "revocation_not_canonical") ;;
  Ok signed.

(** ** Reading back what was written *)

(** The members of a decoded object are those written. *)
Lemma obj_get (kv : list (pystr * json)) k j :
  NoDup kv.*1 → dict_lookup k kv = Some j → dict_get k (sort_on fst (map (λ e, (e.1, py_of e.2)) kv)) = py_of j.
Proof.
  intros Hnd Hj. unfold dict_get.
  rewrite (dict_lookup_NoDup k (py_of j)); [done| |].
  - unfold dict_keys. rewrite sort_on_Permutation, <- list_fmap_compose. exact Hnd.
  - rewrite elem_of_sort_on. apply list_elem_of_In, in_map_iff. exists (k, j). split; [done|].
    by apply list_elem_of_In, dict_lookup_elem.
Qed.
Lemma obj_strict (kv : list (pystr * json)) keys :
  kv.*1 = keys →
  strict_object (py_of (JObj kv)) keys = Ok (sort_on fst (map (λ e, (e.1, py_of e.2)) kv)).
Proof.
  intros <-. unfold strict_object. cbn [py_of].
  assert (∀ k, k ∈ dict_keys (sort_on fst (map (λ e : pystr * json, (e.1, py_of e.2)) kv)) ↔ k ∈ kv.*1) as Hk.
  { intros k. unfold dict_keys. rewrite sort_on_Permutation. by rewrite <- list_fmap_compose. }
  rewrite !(proj2 (py_subset_true _ _)) by (intros k; apply Hk). done.
Qed.

(** Reads the fields of an object that was written. *)
Ltac read_object :=
  rewrite obj_strict by reflexivity; cbn [mbind result_bind];
  repeat (erewrite obj_get by (first [reflexivity | apply (bool_decide_unpack _); vm_compute; exact I]);
          cbn [py_of jopt require_string require_integer optional_string optional_integer mbind result_bind]).

Lemma rule_binding_read r : rule_binding_from_dict (py_of (rule_binding_json r)) = make_rule_binding r.
Proof. unfold rule_binding_from_dict, rule_binding_json. read_object. by destruct r. Qed.

Lemma texts_read (fs : list (pystr * pystr)) :
  map_result (λ e : pystr * pyval, s ← require_string (string_of e.1) e.2 ; Ok (e.1, s))
    (map (λ f, (f.1, PStr f.2)) fs) = Ok fs.
Proof.
  rewrite map_result_Ok. induction fs as [|[k s] fs IH]; cbn [map]; constructor; [done|exact IH].
Qed.
Lemma rules_read rs :
  Forall (λ r, make_rule_binding r = Ok r) rs →
  map_result rule_binding_from_dict (map py_of (map rule_binding_json rs)) = Ok rs.
Proof.
  rewrite map_result_Ok. induction 1 as [|r rs Hr _ IH]; cbn [map]; constructor; [|exact IH].
  by rewrite rule_binding_read.
Qed.

(** A binding whose rules are validated, as every constructed one is. *)
Definition binding_ok (b : WorkflowCapabilityBinding) : Prop :=
  Forall (λ r, make_rule_binding r = Ok r) (wb_rules b) ∧ make_binding b = Ok b.

Lemma binding_read b : binding_ok b → binding_from_dict (py_of (binding_json b)) = Ok b.
Proof.
  intros [Hr Hb]. unfold binding_from_dict, binding_json. rewrite obj_strict by reflexivity. cbn [mbind result_bind].
  set (d := sort_on fst _).
  assert (dict_get ($"rules") d = PList (map py_of (map rule_binding_json (wb_rules b)))) as -> by reflexivity.
  assert (dict_pop ($"rules") d = map (λ f : pystr * pystr, (f.1, PStr f.2)) (sort_on fst (binding_texts b))) as ->
    by reflexivity.
  rewrite texts_read. cbn [mbind result_bind]. rewrite rules_read by done. cbn [mbind result_bind]. cbv zeta.
  rewrite <- Hb. destruct b. reflexivity.
Qed.

Lemma claim_read c : binding_ok (cl_binding c) → claim_from_dict (py_of (claim_json c)) = make_claim c.
Proof.
  intros Hb. unfold claim_from_dict, claim_json. read_object. rewrite binding_read by done. cbn [mbind result_bind].
  by destruct c.
Qed.
Lemma receipt_read r : binding_ok (wr_binding r) → receipt_from_dict (py_of (receipt_json r)) = make_receipt r.
Proof.
  intros Hb. unfold receipt_from_dict, receipt_json. read_object. rewrite binding_read by done. cbn [mbind result_bind].
  by destruct r.
Qed.
Lemma optional_integer_read name (v : option Z) : optional_integer name (py_of (jopt JInt v)) = Ok v.
Proof. by destruct v. Qed.
Lemma optional_string_read name (v : option pystr) : optional_string name (py_of (jopt JStr v)) = Ok v.
Proof. by destruct v. Qed.
Ltac read_options := rewrite ?optional_integer_read, ?optional_string_read; cbn [mbind result_bind].

Lemma transition_read t : transition_from_dict (py_of (transition_json t)) = make_transition t.
Proof.
  unfold transition_from_dict, transition_json. rewrite obj_strict by reflexivity; cbn [mbind result_bind].
  repeat (erewrite obj_get by (first [reflexivity | apply (bool_decide_unpack _); vm_compute; exact I]); read_options;
          cbn [py_of require_string require_integer mbind result_bind]).
  by destruct t.
Qed.
Lemma authority_state_read s : authority_state_from_dict (py_of (authority_state_json s)) = make_authority_state s.
Proof.
  unfold authority_state_from_dict, authority_state_json. rewrite obj_strict by reflexivity; cbn [mbind result_bind].
  repeat (erewrite obj_get by (first [reflexivity | apply (bool_decide_unpack _); vm_compute; exact I]); read_options;
          cbn [py_of require_string require_integer mbind result_bind]).
  by destruct s.
Qed.
Lemma revocation_read r : revocation_from_dict (py_of (revocation_json r)) = make_revocation r.
Proof.
  unfold revocation_from_dict, revocation_json. rewrite obj_strict by reflexivity. cbn [mbind result_bind].
  set (d := sort_on fst _).
  assert (d = map (λ f : pystr * pystr, (f.1, PStr f.2))
                [($"capability_id", rv_capability_id r); ($"claim_sha256", rv_claim_sha256 r);
                 ($"reason_code", rv_reason_code r); ($"revocation_id", rv_revocation_id r);
                 ($"revoked_at", rv_revoked_at r); ($"schema_version", rv_schema_version r)]) as -> by reflexivity.
  rewrite texts_read. cbn [mbind result_bind]. cbv zeta. destruct r. reflexivity.
Qed.

(** ** What validation says of the texts *)

Lemma identifier_ascii name v : validate_workflow_capability_identifier name v = Ok tt → ascii_text v.
Proof.
  unfold validate_workflow_capability_identifier. intros [Hv%negb_false_iff _]%raise_if_Ok%orb_false_2.
  by apply (ascii_regex_matches IDENTIFIER_PATTERN).
Qed.
Lemma is_hex_ascii v : forallb is_hex v = true → ascii_text v.
Proof.
  intros Hv%forallb_Forall. eapply Forall_impl; [exact Hv|]. intros c Hc. unfold is_hex, is_digit, in_range in Hc. lia.
Qed.
Lemma digest_Ok name v : digest name v = Ok tt ↔ length v = 64%nat ∧ forallb is_hex v = true.
Proof. unfold digest, digest_ok. by rewrite raise_if_Ok, negb_false_iff, andb_true_iff, Nat.eqb_eq. Qed.
Lemma digest_ascii name v : digest name v = Ok tt → ascii_text v.
Proof. intros [_ Hv]%digest_Ok. by apply is_hex_ascii. Qed.
Lemma sha256_digest name m : digest name (sha256_hex m) = Ok tt.
Proof. apply digest_Ok. destruct (sha256_hex_shape m) as [? ?]. by rewrite forallb_Forall. Qed.
Lemma validate_sha256_ascii name v : validate_sha256 name v = Ok tt → ascii_text v.
Proof. unfold validate_sha256. intros Hv%raise_if_Ok%negb_false_iff. by apply (ascii_regex_matches SHA256_RE). Qed.
Lemma timestamp_scalar v n : parse_utc_timestamp v = Ok n → forallb scalar v = true.
Proof.
  unfold parse_utc_timestamp. intros Hp.
  do 27 (destruct v as [|? v]; [discriminate Hp|]). destruct v; [|discriminate Hp].
  case_match eqn:E; [discriminate|]. apply orb_false_iff in E as [Ep%negb_false_iff%bool_decide_eq_true E%negb_false_iff%forallb_Forall].
  cbv in Ep. injection Ep as -> -> -> -> -> -> ->. apply forallb_Forall. repeat (apply Forall_cons in E as [? E]).
  repeat (constructor; [first [reflexivity | apply decimal_scalar; eapply bool_decide_eq_true_1; eassumption]|]). constructor.
Qed.

(** Documents whose members can be read back. *)
Lemma obj_readable (kv : list (pystr * json)) :
  bool_decide (NoDup kv.*1) = true → forallb (forallb scalar) kv.*1 = true → Forall (λ e, readable e.2) kv → readable (JObj kv).
Proof.
  intros Hnd%bool_decide_eq_true Hk%forallb_Forall Hv. apply readable_obj. split; [done|].
  rewrite Forall_forall in Hk. apply Forall_forall. intros e He. rewrite Forall_forall in Hv.
  split; [|by apply Hv]. apply Hk, list_elem_of_fmap. eauto.
Qed.
Lemma opt_str_readable (v : option pystr) :
  (∀ s, v = Some s → forallb scalar s = true) → readable (jopt JStr v).
Proof. destruct v; [|done]. intros Hv. by apply Hv. Qed.
Lemma required_readable name check v :
  (∀ s, check name s = Ok tt → ascii_text s) → required_text name check v = Ok tt → readable (jopt JStr v).
Proof. destruct v as [s|]; [|done]. cbn [required_text jopt]. intros Hc Hs. apply ascii_scalar. by apply Hc. Qed.
Lemma optional_readable name v : optional_text name v = Ok tt → readable (jopt JStr v).
Proof. intros Hv. apply opt_str_readable. intros s ->. by eapply ascii_scalar, identifier_ascii. Qed.
Lemma positive_readable (b : bool) v :
  match v with Some n => n <? 1 | None => b end = false → default 0 v < 2 ^ 64 → readable (jopt JInt v).
Proof. destruct v as [n|]; [|done]. cbn [jopt default]. intros Hn Hb. apply int_readable. cbn in Hb. lia. Qed.

(** The integers of a transition fit in a database column. *)
Definition transition_fits (t : WorkflowCapabilityAuthorityTransition) : Prop :=
  at_sequence t < 2 ^ 64 ∧ at_revision t < 2 ^ 64 ∧ default 0 (at_event_id t) < 2 ^ 64 ∧ default 0 (at_use_number t) < 2 ^ 64.

Lemma make_transition_Ok t t' : make_transition t = Ok t' → t' = t.
Proof. unfold make_transition. cbv zeta. intros Ht. split_checks. by injection Ht. Qed.

Lemma kind_ascii k : py_in k KINDS = true → ascii_text k.
Proof.
  rewrite py_in_true. intros Hk. assert (Forall ascii_text KINDS) as Hall by by apply ascii_texts.
  rewrite Forall_forall in Hall. by apply Hall.
Qed.

Lemma transition_readable t t' : make_transition t = Ok t' → transition_fits t → readable (transition_json t).
Proof.
  unfold make_transition. cbv zeta. intros Ht (Hs & Hr & He & Hu). split_checks.
  repeat match goal with
  | H : raise_if _ _ = Ok _ |- _ => apply raise_if_Ok in H
  | H : validate_workflow_capability_identifier _ _ = Ok tt |- _ => apply identifier_ascii, ascii_scalar in H
  | H : digest _ _ = Ok tt |- _ => apply digest_ascii, ascii_scalar in H
  | H : parse_utc_timestamp _ = Ok _ |- _ => apply timestamp_scalar in H
  | H : negb (bool_decide _) = false |- _ => apply negb_false_iff, bool_decide_eq_true in H
  | H : negb (py_in _ KINDS) = false |- _ => apply negb_false_iff, kind_ascii, ascii_scalar in H
  end.
  apply obj_readable; [done..|].
  repeat (constructor; [cbn [fst snd]; first
    [ exact I
    | assumption
    | match goal with E : at_schema_version t = _ |- readable (JStr (at_schema_version t)) => by rewrite E end
    | match goal with E : at_algorithm t = _ |- readable (JStr (at_algorithm t)) => by rewrite E end
    | apply int_readable; lia
    | eapply positive_readable; eassumption
    | eapply optional_readable; eassumption
    | eapply required_readable; [|eassumption]; intros ?; first [apply digest_ascii | apply identifier_ascii]]|]).
  constructor.
Qed.

(** ** Decoding *)

Lemma loads_or_dumps error j : readable j → loads_or error (canonical j) = Ok (py_of j).
Proof. intros Hj. unfold loads_or, canonical. by rewrite loads_dumps. Qed.

Lemma decode_transition_Ok e s :
  decode_signed_authority_transition e = Ok s → encode_signed_authority_transition s = e.
Proof.
  unfold decode_signed_authority_transition. intros Hd. split_checks.
  match goal with H : raise_if _ _ = _ |- _ => apply raise_if_Ok, negb_false_iff, bool_decide_eq_true in H end.
  by injection Hd as <-.
Qed.

Lemma transition_decodes s t :
  make_transition t = Ok (st_transition s) → transition_fits (st_transition s) →
  ascii_text (st_key_id s) → ascii_text (st_signature s) →
  decode_signed_authority_transition (encode_signed_authority_transition s) = Ok s.
Proof.
  intros Ht Hfit Hk Hs. pose proof (make_transition_Ok _ _ Ht) as E. rewrite <- E in Ht.
  unfold decode_signed_authority_transition. change (encode_signed_authority_transition s) with (canonical (signed_transition_json s)).
  rewrite loads_or_dumps.
  - cbn [mbind result_bind]. unfold signed_transition_json. read_object. rewrite transition_read, Ht.
    cbn [mbind result_bind]. destruct s as [t' k g]. cbn [st_transition st_key_id st_signature] in *.
    rewrite bool_decide_eq_true_2 by done. reflexivity.
  - apply obj_readable; [done|done|]. apply Forall_cons; split; [by apply ascii_scalar|].
    apply Forall_cons; split; [by apply ascii_scalar|]. apply Forall_cons; split; [|constructor].
    cbn [snd]. by eapply transition_readable.
Qed.

(** ** Claims and receipts are read as they were written *)

Lemma identifiers_ascii fs :
  for_each (λ f : string * pystr, validate_workflow_capability_identifier f.1 f.2) fs = Ok tt →
  Forall (λ f : string * pystr, ascii_text f.2) fs.
Proof. rewrite for_each_Ok. intros Hf. eapply Forall_impl; [exact Hf|]. intros f. apply identifier_ascii. Qed.
Lemma digests_ascii fs :
  for_each (λ f : string * pystr, validate_sha256 f.1 f.2) fs = Ok tt → Forall (λ f : string * pystr, ascii_text f.2) fs.
Proof. rewrite for_each_Ok. intros Hf. eapply Forall_impl; [exact Hf|]. intros f. apply validate_sha256_ascii. Qed.

Lemma rule_binding_readable r r' : make_rule_binding r = Ok r' → readable (rule_binding_json r).
Proof.
  unfold make_rule_binding. intros Hr. split_checks.
  repeat match goal with H : validate_workflow_capability_identifier _ _ = _ |- _ => apply identifier_ascii, ascii_scalar in H end.
  apply obj_readable; [done..|]. apply Forall_cons; split; [assumption|]. apply Forall_cons; split; [assumption|constructor].
Qed.
Lemma binding_readable b : binding_ok b → readable (binding_json b).
Proof.
  intros [Hr Hb]. unfold make_binding in Hb. apply then_Ok in Hb as [Hi%identifiers_ascii Hb].
  apply then_Ok in Hb as [Hd%digests_ascii _]. apply obj_readable; [done..|]. apply Forall_app. split.
  - unfold binding_texts. cbn [map]. repeat (apply Forall_cons in Hi as [? Hi]). repeat (apply Forall_cons in Hd as [? Hd]).
    cbn [snd] in *. repeat (apply Forall_cons; split; [by apply ascii_scalar|]). constructor.
  - apply Forall_cons; split; [|constructor]. cbn [snd]. apply readable_arr. apply Forall_map.
    eapply Forall_impl; [exact Hr|]. intros r Hr'. exact (rule_binding_readable _ _ Hr').
Qed.

Lemma make_receipt_Ok r r' : make_receipt r = Ok r' → r' = r.
Proof. unfold make_receipt. intros Hr. split_checks. by injection Hr. Qed.

Lemma receipt_readable r r' :
  make_receipt r = Ok r' → binding_ok (wr_binding r) → wr_use_number r < 2 ^ 64 → wr_event_id r < 2 ^ 64 →
  readable (receipt_json r).
Proof.
  unfold make_receipt. intros Hr Hb Hu He. apply then_Ok in Hr as [Hs Hr]. apply then_Ok in Hr as [Hi%identifiers_ascii Hr].
  split_checks. repeat match goal with
  | H : raise_if _ _ = Ok _ |- _ => apply raise_if_Ok in H
  | H : validate_sha256 _ _ = Ok _ |- _ => apply validate_sha256_ascii, ascii_scalar in H
  | H : parse_utc_timestamp _ = Ok _ |- _ => apply timestamp_scalar in H
  end.
  apply negb_false_iff, bool_decide_eq_true in Hs.
  repeat (apply Forall_cons in Hi as [? Hi]). cbn [snd] in *.
  apply obj_readable; [done..|].
  repeat (apply Forall_cons; split; [cbn [snd]; first
    [ by apply ascii_scalar | assumption | by apply binding_readable | by rewrite Hs | apply int_readable; lia ]|]).
  constructor.
Qed.

Lemma validated_receipt_Ok r :
  make_receipt r = Ok r → binding_ok (wr_binding r) → wr_use_number r < 2 ^ 64 → wr_event_id r < 2 ^ 64 →
  validated_receipt r = Ok r.
Proof.
  intros Hm Hb Hu He. unfold validated_receipt. pose proof (receipt_readable r r Hm Hb Hu He) as Hr.
  rewrite (loads_dumps float_of (receipt_json r) Hr). cbn [mbind result_bind]. by rewrite (receipt_read r Hb).
Qed.
Lemma make_signed_receipt_Ok s s' : make_signed_receipt s = Ok s' → s' = s.
Proof. unfold make_signed_receipt. intros Hs. split_checks. by injection Hs. Qed.
Lemma sign_receipt_Ok r key key_id s :
  validated_receipt r = Ok r → sign_workflow_capability_receipt r key key_id = Ok s → sr_receipt s = r.
Proof.
  intros Hv Hs. unfold sign_workflow_capability_receipt in Hs. rewrite Hv in Hs. split_checks.
  match goal with H : Ok _ = Ok _ |- _ => apply (inj Ok) in H as <- end.
  reflexivity.
Qed.

#[local] Opaque hmac_sha256_hex sha256_hex canonical_framed_payload dumps loads.
(** What was signed verifies under the same key. *)
Lemma signed_receipt_verifies r key key_id s :
  validated_receipt r = Ok r → sign_workflow_capability_receipt r key key_id = Ok s →
  verify_workflow_capability_receipt s key key_id = Ok tt.
Proof.
  intros Hv Hs. pose proof (sign_receipt_Ok _ _ _ _ Hv Hs) as Hr. pose proof Hs as Hs'.
  unfold sign_workflow_capability_receipt in Hs'. apply then_Ok in Hs' as [Hkey Hs']. apply then_Ok in Hs' as [Hid Hs'].
  rewrite Hv in Hs'. cbn [mbind result_bind] in Hs'. cbv zeta in Hs'. pose proof (make_signed_receipt_Ok _ _ Hs') as E.
  rewrite <- E in Hs'. unfold make_signed_receipt in Hs'.
  apply then_Ok in Hs' as [He Hs']. apply then_Ok in Hs' as [Ha Hs']. apply then_Ok in Hs' as [_ Hs'].
  apply then_Ok in Hs' as [Hsig _].
  unfold verify_workflow_capability_receipt. rewrite Hr. apply then_Ok. split; [done|]. apply then_Ok. split; [done|].
  apply then_Ok. split.
  { unfold validated_receipt in Hv. apply bind_Ok in Hv as (v & _ & Hv). unfold receipt_from_dict in Hv. split_checks.
    pose proof (make_receipt_Ok _ _ Hv) as Er. rewrite <- Er in Hv. unfold make_receipt in Hv. by apply then_Ok in Hv as [? _]. }
  apply then_Ok. split; [done|]. apply then_Ok. split; [by rewrite E|]. apply then_Ok. split; [done|].
  apply then_Ok. split; [rewrite E; cbn [sr_key_id]; by rewrite bool_decide_eq_true_2|].
  rewrite Hs. cbn [mbind result_bind]. by rewrite bool_decide_eq_true_2.
Qed.

Lemma make_authority_state_Ok s s' : make_authority_state s = Ok s' → s' = s.
Proof.
  unfold make_authority_state. intros Hs. split_checks. destruct (as_revocation_id s); split_checks; by injection Hs.
Qed.
Lemma sign_authority_state_Ok s key key_id ss : sign_authority_state s key key_id = Ok ss → ss_state ss = s.
Proof. unfold sign_authority_state. intros (g & _ & Hs)%bind_Ok. by apply (inj Ok) in Hs as <-. Qed.

(** What a decoded claim satisfies. *)
Lemma make_claim_uses c c' : make_claim c = Ok c' → c' = c ∧ 1 <= cl_max_uses c <= 50.
Proof.
  unfold make_claim. intros Hc. split_checks. injection Hc as <-. split; [done|].
  match goal with H : raise_if (negb (_ && (_ <=? 50))) _ = _ |- _ =>
    apply raise_if_Ok, negb_false_iff, andb_true_iff in H; lia end.
Qed.
Lemma make_rule_binding_Ok r r' : make_rule_binding r = Ok r' → r' = r.
Proof. unfold make_rule_binding. intros Hr. split_checks. by injection Hr. Qed.
Lemma rules_from_ok items rules :
  map_result rule_binding_from_dict items = Ok rules → Forall (λ r, make_rule_binding r = Ok r) rules.
Proof.
  rewrite map_result_Ok. induction 1 as [|v r items rules Hr _ IH]; constructor; [|done].
  unfold rule_binding_from_dict in Hr. split_checks. pose proof (make_rule_binding_Ok _ _ Hr) as E. by rewrite E in *.
Qed.
Lemma binding_from_ok v b : binding_from_dict v = Ok b → binding_ok b.
Proof.
  unfold binding_from_dict. intros Hb. apply bind_Ok in Hb as (d & _ & Hb). case_match; try discriminate.
  apply bind_Ok in Hb as (texts & _ & Hb). apply bind_Ok in Hb as (rules & Hr & Hb). apply rules_from_ok in Hr.
  cbv zeta in Hb. assert (∀ x y, make_binding x = Ok y → y = x) as Hm.
  { intros x y Hx. unfold make_binding in Hx. split_checks. by injection Hx. }
  pose proof (Hm _ _ Hb) as E. rewrite <- E in Hb. split; [|done]. by rewrite E.
Qed.
Lemma claim_from_ok v c : claim_from_dict v = Ok c → make_claim c = Ok c ∧ binding_ok (cl_binding c).
Proof.
  unfold claim_from_dict. intros Hc. split_checks.
  match goal with H : binding_from_dict _ = Ok _ |- _ => apply binding_from_ok in H as Hb end.
  pose proof (make_claim_uses _ _ Hc) as [E _]. rewrite <- E in Hc. split; [done|]. by rewrite E.
Qed.
Lemma make_signed_capability_Ok s s' : make_signed_capability s = Ok s' → s' = s.
Proof. unfold make_signed_capability. intros Hs. split_checks. by injection Hs. Qed.
Lemma decode_claim_ok e s :
  decode_signed_claim e = Ok s → make_claim (sc_claim s) = Ok (sc_claim s) ∧ binding_ok (cl_binding (sc_claim s)).
Proof.
  unfold decode_signed_claim. intros Hs. apply bind_Ok in Hs as (v & _ & Hs). apply bind_Ok in Hs as (s' & Hd & Hs).
  apply then_Ok in Hs as [_ Hs]. injection Hs as ->. unfold signed_capability_from_dict in Hd. split_checks.
  pose proof (make_signed_capability_Ok _ _ Hd) as ->. cbn [sc_claim]. by eapply claim_from_ok.
Qed.

End decoding.
End timestamps.
End Workflow.
