(* ===== verification/WorkflowLedger.v ===== *)
(** * The authority ledger of workflow capabilities and its external control

    Models the tables of [store_workflow_capabilities_schema.py],
    [store_workflow_capability_transitions.py] (the signed, hash-chained ledger
    and its validation), [store_workflow_capability_control.py] (the control
    record kept outside the database) and [store_workflow_capability_time.py].

    A table is the list of its rows; [order by] sorts.  Integer columns hold
    what SQLite's 64-bit integers hold, an insertion beyond raises.  What a
    [PRIMARY KEY] or [UNIQUE] constraint refuses is refused by the insertion;
    the remaining constraints and triggers hold for every row the operations
    write.  The migration of the schema itself is not modelled.  Events carry
    no floating-point numbers.

    The control record is written to a credential store that may refuse a
    write, or the process may be killed before or after it; [write_outcome]
    says what happens to one write. *)

From S2P Require Import Prelude PyStr Sha256 Regex PyVal PyJson AsciiJson JsSemver NativeObservations WorkflowCapability.
Local Open Scope Z_scope.
Local Open Scope py_scope.

Module WorkflowLedger.
Import Json Native Workflow.

(** ** Tables *)

Record capability_row := {
  cap_capability_id : pystr;
  cap_approval_provenance_id : pystr;
  cap_nonce : pystr;
  cap_signed_claim_json : pystr;
  cap_key_id : pystr;
  cap_issued_at : pystr;
  cap_not_before : pystr;
  cap_expires_at : pystr;
  cap_max_uses : Z;
  cap_used_count : Z;
  cap_revoked_at : option pystr;
  cap_revocation_code : option pystr;
}.
Record state_row := {
  sta_capability_id : pystr;
  sta_signed_state_json : pystr;
  sta_key_id : pystr;
  sta_revision : Z;
  sta_use_high_water : Z;
  sta_observed_at : pystr;
  sta_revocation_id : option pystr;
}.
Record revocation_row := {
  rev_revocation_id : pystr;
  rev_capability_id : pystr;
  rev_signed_revocation_json : pystr;
  rev_key_id : pystr;
  rev_revoked_at : pystr;
}.
Record receipt_row := {
  rcp_receipt_id : pystr;
  rcp_capability_id : pystr;
  rcp_task_id : pystr;
  rcp_invocation_id : pystr;
  rcp_approval_provenance_id : pystr;
  rcp_signed_receipt_json : pystr;
  rcp_claimed_at : pystr;
  rcp_use_number : Z;
  rcp_event_id : Z;
}.
Record transition_row := {
  led_sequence : Z;
  led_capability_id : pystr;
  led_revision : Z;
  led_transition_kind : pystr;
  led_previous_transition_sha256 : pystr;
  led_signed_transition_json : pystr;
  led_key_id : pystr;
  led_event_id : Z;
}.
(** A row of [guard_events] *)
Record event_row := {
  evt_event_id : Z;
  evt_event_name : pystr;
  evt_payload_json : pystr;
  evt_occurred_at : pystr;
}.

(** The database, with the [AUTOINCREMENT] counter of [guard_events]. *)
Record tables := {
  capabilities : list capability_row;
  states : list state_row;
  revocations : list revocation_row;
  receipts : list receipt_row;
  transitions : list transition_row;
  events : list event_row;
  event_sequence : Z;
}.

Definition IntegrityError : exn := RuntimeError "IntegrityError".
Definition OverflowError : exn := RuntimeError "OverflowError".
Definition MAX_SQLITE_INTEGER : Z := 9223372036854775807.
Definition bind_integer (n : Z) : result unit := raise_if (MAX_SQLITE_INTEGER <? n) OverflowError.

Definition WORKFLOW_EVENTS : list pystr :=
  [$"workflow_capability.issued"; $"workflow_capability.claimed"; $"workflow_capability.revoked"].

Section ledger.
Context `{PyDecimal}.
Variable float_of : pystr → pyval.

(** ** The ledger *)

(** [_state_sha256], of the encoded state *)
Definition state_text_sha256 (encoded : pystr) : pystr :=
  sha256_hex (canonical_framed_payload ($"authority-state-digest") (JStr encoded)).
Definition state_sha256 (s : SignedAuthorityState) : pystr := state_text_sha256 (encode_signed_authority_state s).
(** [_event_payload_sha256], of the encoded payload *)
Definition event_text_sha256 (encoded : pystr) : pystr :=
  sha256_hex (canonical_framed_payload ($"authority-event") (JStr encoded)).
Definition event_payload_sha256 (payload : json) : pystr := event_text_sha256 (canonical payload).

Definition build_authority_transition (signed_claim : SignedWorkflowCapability) (signed_state : SignedAuthorityState)
    (sequence : Z) (previous_transition_sha256 transition_kind : pystr) (event_id : Z) (event_name : pystr)
    (event_payload : json) (occurred_at : pystr) (use_number : option Z) (receipt_id revocation_id : option pystr)
    (key : list Z) (key_id : pystr) : result SignedAuthorityTransition :=
  transition ← make_transition
    {| at_schema_version := AUTHORITY_TRANSITION_SCHEMA; at_algorithm := AUTHORITY_TRANSITION_ALGORITHM;
       at_sequence := sequence; at_capability_id := cl_capability_id (sc_claim signed_claim);
       at_claim_sha256 := workflow_capability_claim_sha256 signed_claim;
       at_revision := as_revision (ss_state signed_state); at_transition_kind := transition_kind;
       at_previous_transition_sha256 := previous_transition_sha256;
       at_signed_state_sha256 := state_sha256 signed_state; at_event_id := Some event_id;
       at_event_name := Some event_name; at_event_payload_sha256 := Some (event_payload_sha256 event_payload);
       at_occurred_at := occurred_at; at_use_number := use_number; at_receipt_id := receipt_id;
       at_revocation_id := revocation_id |} ;
  sign_authority_transition transition key key_id.

Definition append_authority_transition (signed : SignedAuthorityTransition) (db : tables) : result tables :=
  let t := st_transition signed in
  let event_id := default 0 (at_event_id t) in
  bind_integer (at_sequence t) ;; bind_integer (at_revision t) ;; bind_integer event_id ;;
  raise_if (existsb (λ r, (led_sequence r =? at_sequence t)
                          || bool_decide (led_capability_id r = at_capability_id t) && (led_revision r =? at_revision t)
                          || (led_event_id r =? event_id)) (transitions db)) IntegrityError ;;
  Ok {| capabilities := capabilities db; states := states db; revocations := revocations db; receipts := receipts db;
        transitions := transitions db ++
          [{| led_sequence := at_sequence t; led_capability_id := at_capability_id t; led_revision := at_revision t;
              led_transition_kind := at_transition_kind t;
              led_previous_transition_sha256 := at_previous_transition_sha256 t;
              led_signed_transition_json := encode_signed_authority_transition signed; led_key_id := st_key_id signed;
              led_event_id := event_id |}];
        events := events db; event_sequence := event_sequence db |}.

(** [_decode_event_payload], then its digest *)
Definition decoded_payload_sha256 (encoded : pystr) : result pystr :=
  let error := WorkflowCapabilityError "capability_authority_transition_event_invalid" in
  payload ← loads_or float_of "capability_authority_transition_event_invalid" encoded ;
  match payload with
  | PDict _ =>
      raise_if (negb (bool_decide (canonical (as_json payload) = encoded))) error ;;
      Ok (event_payload_sha256 (as_json payload))
  | _ => Raise error
  end.

Definition validate_transition_event (db : tables) (t : WorkflowCapabilityAuthorityTransition) : result unit :=
  let error := WorkflowCapabilityError "capability_authority_transition_event_invalid" in
  match snd <$> list_find (λ e, Some (evt_event_id e) = at_event_id t) (events db) with
  | None => Raise error
  | Some e =>
      raise_if (negb (bool_decide (Some (evt_event_name e) = at_event_name t))
                || negb (bool_decide (evt_occurred_at e = at_occurred_at t))) error ;;
      digest ← decoded_payload_sha256 (evt_payload_json e) ;
      raise_if (negb (bool_decide (Some digest = at_event_payload_sha256 t))) error
  end.

(** The columns of a row repeat the signed fields. *)
Definition columns_authentic (row : transition_row) (signed : SignedAuthorityTransition) : bool :=
  let t := st_transition signed in
  (led_sequence row =? at_sequence t) && bool_decide (led_capability_id row = at_capability_id t)
  && (led_revision row =? at_revision t) && bool_decide (led_transition_kind row = at_transition_kind t)
  && bool_decide (led_previous_transition_sha256 row = at_previous_transition_sha256 t)
  && bool_decide (led_key_id row = st_key_id signed) && bool_decide (Some (led_event_id row) = at_event_id t).

(** The loop over the rows, from the expected sequence and the previous digest:
    the transitions read, and the digest of the last. *)
Fixpoint validate_rows (db : tables) (key : list Z) (key_id : pystr) (expected : Z) (previous : pystr)
    (rows : list transition_row) : result (list SignedAuthorityTransition * pystr) :=
  match rows with
  | [] => Ok ([], previous)
  | row :: rows =>
      signed ← decode_signed_authority_transition float_of (led_signed_transition_json row) ;
      verify_authority_transition signed key key_id ;;
      let t := st_transition signed in
      raise_if (match at_event_id t with None => true | Some _ => false end
                || negb (columns_authentic row signed) || negb (at_sequence t =? expected)
                || negb (bool_decide (at_previous_transition_sha256 t = previous)))
        (WorkflowCapabilityError "capability_authority_transition_chain_invalid") ;;
      validate_transition_event db t ;;
      '(rest, head) ← validate_rows db key key_id (expected + 1) (authority_transition_sha256 signed) rows ;
      Ok (signed :: rest, head)
  end.

Definition ledger_rows (db : tables) : list transition_row := sort_on led_sequence (transitions db).
Definition workflow_event_ids (db : tables) : list Z :=
  evt_event_id <$> filter (λ e, evt_event_name e ∈ WORKFLOW_EVENTS) (events db).

Definition validate_global_authority_ledger (db : tables) (key : list Z) (key_id : pystr) : result (Z * pystr) :=
  let rows := ledger_rows db in
  '(signed, head) ← validate_rows db key key_id 1 ZERO_TRANSITION_SHA256 rows ;
  let transition_event_ids := omap (λ s, at_event_id (st_transition s)) signed in
  let event_ids := workflow_event_ids db in
  raise_if (negb (py_subset event_ids transition_event_ids && py_subset transition_event_ids event_ids)
            || negb (length event_ids =? length rows)%nat)
    (WorkflowCapabilityError "capability_authority_event_cardinality_invalid") ;;
  Ok (Z.of_nat (length rows), head).

(** The loop of [validate_capability_transition_projection] over the rows of
    one capability. *)
Fixpoint read_projection (key : list Z) (key_id capability_id claim_sha256 : pystr) (expected_revision : Z)
    (rows : list transition_row) : result (list WorkflowCapabilityAuthorityTransition) :=
  match rows with
  | [] => Ok []
  | row :: rows =>
      signed ← decode_signed_authority_transition float_of (led_signed_transition_json row) ;
      verify_authority_transition signed key key_id ;;
      let t := st_transition signed in
      raise_if (negb (at_revision t =? expected_revision) || negb (bool_decide (at_capability_id t = capability_id))
                || negb (bool_decide (at_claim_sha256 t = claim_sha256)))
        (WorkflowCapabilityError "capability_authority_transition_projection_invalid") ;;
      rest ← read_projection key key_id capability_id claim_sha256 (expected_revision + 1) rows ;
      Ok (t :: rest)
  end.

Definition of_kind (kind : pystr) (ts : list WorkflowCapabilityAuthorityTransition)
    : list WorkflowCapabilityAuthorityTransition := filter (λ t, at_transition_kind t = kind) ts.

Definition validate_capability_transition_projection (db : tables) (signed_claim : SignedWorkflowCapability)
    (signed_state : SignedAuthorityState) (receipt_count : nat) (revocation_id : option pystr) (key : list Z)
    (key_id : pystr) : result unit :=
  let error := WorkflowCapabilityError "capability_authority_transition_projection_invalid" in
  let capability_id := cl_capability_id (sc_claim signed_claim) in
  let rows := sort_on led_revision (filter (λ r, led_capability_id r = capability_id) (transitions db)) in
  raise_if (bool_decide (length rows = 0%nat)) (WorkflowCapabilityError "capability_authority_transition_missing") ;;
  ts ← read_projection key key_id capability_id (workflow_capability_claim_sha256 signed_claim) 0 rows ;
  raise_if (negb (bool_decide ((at_transition_kind <$> head ts) = Some ($"issued")))
            || existsb (λ t, bool_decide (at_transition_kind t = $"issued")) (tail ts)) error ;;
  let claims := of_kind ($"claimed") ts in
  raise_if (negb (bool_decide (at_use_number <$> claims = Some <$> (Z.of_nat <$> seq 1 receipt_count)))) error ;;
  let receipt_rows := sort_on rcp_use_number (filter (λ r, rcp_capability_id r = capability_id) (receipts db)) in
  raise_if (negb (bool_decide (((λ t, (at_receipt_id t, at_use_number t, at_event_id t)) <$> claims)
                               = ((λ r, (Some (rcp_receipt_id r), Some (rcp_use_number r), Some (rcp_event_id r)))
                                    <$> receipt_rows)))) error ;;
  let revokes := of_kind ($"revoked") ts in
  raise_if (negb (length revokes =? (if given revocation_id then 1 else 0))%nat) error ;;
  raise_if (match revokes with
            | t :: _ => negb (bool_decide (at_revocation_id t = revocation_id))
                        || negb (bool_decide (last (at_transition_kind <$> ts) = Some ($"revoked")))
            | [] => false
            end) error ;;
  raise_if (negb (bool_decide ((λ t, (at_revision t, at_signed_state_sha256 t)) <$> last ts
                               = Some (as_revision (ss_state signed_state), state_sha256 signed_state)))) error.

(** ** The control record *)

Record WorkflowCapabilityControl := {
  wc_version : Z;
  wc_committed_sequence : Z;
  wc_committed_head_sha256 : pystr;
  wc_pending_sequence : option Z;
  wc_pending_head_sha256 : option pystr;
  wc_observed_at : pystr;
}.
Global Instance control_eq_dec : EqDecision WorkflowCapabilityControl.
Proof. solve_decision. Defined.

Definition make_control (c : WorkflowCapabilityControl) : result WorkflowCapabilityControl :=
  raise_if (negb (wc_version c =? 1)) (WorkflowCapabilityError "unsupported_capability_control_version") ;;
  raise_if (wc_committed_sequence c <? 0) (WorkflowCapabilityError "invalid_capability_control_sequence") ;;
  digest "committed_head_sha256" (wc_committed_head_sha256 c) ;;
  raise_if (negb (Bool.eqb (given (wc_pending_sequence c)) (given (wc_pending_head_sha256 c))))
    (WorkflowCapabilityError "invalid_capability_control_pending") ;;
  match wc_pending_sequence c with
  | Some pending =>
      raise_if (negb (pending =? wc_committed_sequence c + 1)) (WorkflowCapabilityError "invalid_capability_control_pending") ;;
      digest "pending_head_sha256" (default [] (wc_pending_head_sha256 c))
  | None => Ok tt
  end ;;
  _ ← parse_utc_timestamp (wc_observed_at c) ;
  Ok c.

Definition CONTROL_FIELDS : list pystr :=
  [$"version"; $"committed_sequence"; $"committed_head_sha256"; $"pending_sequence"; $"pending_head_sha256";
   $"observed_at"].
Definition control_json_fields (c : WorkflowCapabilityControl) : list (pystr * json) :=
  [($"version", JInt (wc_version c)); ($"committed_sequence", JInt (wc_committed_sequence c));
   ($"committed_head_sha256", JStr (wc_committed_head_sha256 c));
   ($"pending_sequence", jopt JInt (wc_pending_sequence c));
   ($"pending_head_sha256", jopt JStr (wc_pending_head_sha256 c)); ($"observed_at", JStr (wc_observed_at c))].
Definition control_json (c : WorkflowCapabilityControl) : json := JObj (control_json_fields c).
Definition encode_control (c : WorkflowCapabilityControl) : pystr := canonical (control_json c).

Definition control_invalid : exn := WorkflowCapabilityError "capability_control_invalid".
Definition control_string (v : pyval) : result pystr := match v with PStr s => Ok s | _ => Raise control_invalid end.
Definition control_integer (v : pyval) : result Z := match v with PInt n => Ok n | _ => Raise control_invalid end.
Definition control_optional {A} (read : pyval → result A) (v : pyval) : result (option A) :=
  match v with PNone => Ok None | _ => a ← read v ; Ok (Some a) end.

Definition decode_control (encoded : pystr) : result WorkflowCapabilityControl :=
  payload ← loads_or float_of "capability_control_invalid" encoded ;
  match payload with
  | PDict d =>
      raise_if (negb (py_subset (dict_keys d) CONTROL_FIELDS && py_subset CONTROL_FIELDS (dict_keys d)))
        control_invalid ;;
      version ← control_integer (dict_get ($"version") d) ;
      committed_sequence ← control_integer (dict_get ($"committed_sequence") d) ;
      committed_head ← control_string (dict_get ($"committed_head_sha256") d) ;
      pending_sequence ← control_optional control_integer (dict_get ($"pending_sequence") d) ;
      pending_head ← control_optional control_string (dict_get ($"pending_head_sha256") d) ;
      observed_at ← control_string (dict_get ($"observed_at") d) ;
      control ← make_control
        {| wc_version := version; wc_committed_sequence := committed_sequence;
           wc_committed_head_sha256 := committed_head; wc_pending_sequence := pending_sequence;
           wc_pending_head_sha256 := pending_head; wc_observed_at := observed_at |} ;
      raise_if (negb (bool_decide (encode_control control = encoded))) control_invalid ;;
      Ok control
  | _ => Raise control_invalid
  end.

(** What a write to the credential store does: it is stored and confirmed; it is
    refused, stored or not; the process is killed, after it or before. *)
Inductive write_outcome := Accepted | Refused (stored : bool) | Killed (stored : bool).

(** The database; the control text the credential store holds, whether reading
    it succeeds, and the outcomes of the writes to come (beyond the list they
    are accepted).  [announced] is a history variable: the texts of the
    transitions whose digests were offered to the credential store. *)
Record world := {
  db : tables;
  control_text : option pystr;
  reads : bool;
  outcomes : list write_outcome;
  announced : list pystr;
}.

Definition M (A : Type) : Type := world → result A * world.
Global Instance M_ret : MRet M := λ A a w, (Ok a, w).
Global Instance M_bind : MBind M := λ A B f m w,
  match m w with (Ok a, w) => f a w | (Raise e, w) => (Raise e, w) end.
Definition lift {A} (r : result A) : M A := λ w, (r, w).
Definition on_tables {A} (f : tables → result A) : M A := λ w, (f (db w), w).
Definition set_tables (t : tables) : M unit := λ w,
  (Ok tt, {| db := t; control_text := control_text w; reads := reads w; outcomes := outcomes w; announced := announced w |}).
Definition announce (text : pystr) : M unit := λ w,
  (Ok tt, {| db := db w; control_text := control_text w; reads := reads w; outcomes := outcomes w; announced := announced w ++ [text] |}).
(** A statement on the database. *)
Definition statement (f : tables → result tables) : M unit := t ← on_tables f ; set_tables t.

Definition killed : exn := RuntimeError "killed".

(** [_store_control] *)
Definition store_control (c : WorkflowCapabilityControl) : M unit := λ w,
  let o := default Accepted (head (outcomes w)) in
  let stored := match o with Accepted => true | Refused s | Killed s => s end in
  (match o with
   | Accepted => Ok tt
   | Refused _ => Raise (WorkflowCapabilityError "capability_control_unavailable")
   | Killed _ => Raise killed
   end,
   {| db := db w; control_text := if stored then Some (encode_control c) else control_text w; reads := reads w;
      outcomes := tail (outcomes w); announced := announced w |}).

(** [_load_workflow_capability_control]: a read that fails gives [None]. *)
Definition load_control : M (option pystr) := λ w, (Ok (if reads w then control_text w else None), w).

(** [validate_monotonic_workflow_capability_time] *)
Definition validate_monotonic_workflow_capability_time (now observed_at : pystr) : result bool :=
  current ← parse_utc_timestamp now ;
  observed ← parse_utc_timestamp observed_at ;
  raise_if (current <? observed) (WorkflowCapabilityError "capability_clock_rollback") ;;
  Ok (observed <? current).

Definition has_authority_data (t : tables) : bool :=
  negb (length (capabilities t) + length (transitions t) + length (workflow_event_ids t) =? 0)%nat.

Definition committed (sequence : Z) (head observed_at : pystr) : WorkflowCapabilityControl :=
  {| wc_version := 1; wc_committed_sequence := sequence; wc_committed_head_sha256 := head;
     wc_pending_sequence := None; wc_pending_head_sha256 := None; wc_observed_at := observed_at |}.

(** A control made and stored. *)
Definition make_and_store (c : WorkflowCapabilityControl) : M WorkflowCapabilityControl :=
  c ← lift (make_control c) ; store_control c ;; mret c.

(** The control before it is compared: read, or created. *)
Definition open_control (now : pystr) (create : bool) : M WorkflowCapabilityControl :=
  encoded ← load_control ;
  match encoded with
  | Some text => lift (decode_control text)
  | None =>
      occupied ← on_tables (λ t, Ok (has_authority_data t)) ;
      lift (raise_if occupied (WorkflowCapabilityError "capability_control_bootstrap_refused")) ;;
      lift (raise_if (negb create) (WorkflowCapabilityError "capability_control_unavailable")) ;;
      make_and_store (committed 0 ZERO_TRANSITION_SHA256 now)
  end.

(** What was left pending is committed when the ledger holds it. *)
Definition resolve_pending (sequence : Z) (head : pystr) (control : WorkflowCapabilityControl)
    : M WorkflowCapabilityControl :=
  match wc_pending_sequence control with
  | Some pending =>
      lift (raise_if (negb (sequence =? pending) || negb (bool_decide (Some head = wc_pending_head_sha256 control)))
              (WorkflowCapabilityError "capability_control_pending_unresolved")) ;;
      make_and_store (committed sequence head (wc_observed_at control))
  | None => mret control
  end.

Definition load_validate_and_observe_control (key : list Z) (key_id now : pystr) (create : bool)
    : M WorkflowCapabilityControl :=
  '(sequence, head) ← on_tables (λ t, validate_global_authority_ledger t key key_id) ;
  control ← open_control now create ;
  control ← resolve_pending sequence head control ;
  lift (raise_if (negb (sequence =? wc_committed_sequence control)
                  || negb (bool_decide (head = wc_committed_head_sha256 control)))
          (WorkflowCapabilityError "capability_control_rollback_detected")) ;;
  advance ← lift (validate_monotonic_workflow_capability_time now (wc_observed_at control)) ;
  if advance : bool then
    make_and_store
      {| wc_version := wc_version control; wc_committed_sequence := wc_committed_sequence control;
         wc_committed_head_sha256 := wc_committed_head_sha256 control;
         wc_pending_sequence := wc_pending_sequence control; wc_pending_head_sha256 := wc_pending_head_sha256 control;
         wc_observed_at := now |}
  else mret control.

Definition prepare_control_transition (control : WorkflowCapabilityControl) (signed : SignedAuthorityTransition)
    : M WorkflowCapabilityControl :=
  let t := st_transition signed in
  lift (raise_if (given (wc_pending_sequence control) || negb (at_sequence t =? wc_committed_sequence control + 1)
                  || negb (bool_decide (at_previous_transition_sha256 t = wc_committed_head_sha256 control)))
          (WorkflowCapabilityError "capability_control_transition_invalid")) ;;
  announce (encode_signed_authority_transition signed) ;;
  make_and_store
    {| wc_version := wc_version control; wc_committed_sequence := wc_committed_sequence control;
       wc_committed_head_sha256 := wc_committed_head_sha256 control; wc_pending_sequence := Some (at_sequence t);
       wc_pending_head_sha256 := Some (authority_transition_sha256 signed); wc_observed_at := at_occurred_at t |}.

Definition finalize_control_transition (pending : WorkflowCapabilityControl) : M unit :=
  match wc_pending_sequence pending, wc_pending_head_sha256 pending with
  | Some sequence, Some head =>
      c ← lift (make_control (committed sequence head (wc_observed_at pending))) ; store_control c
  | _, _ => lift (Raise (WorkflowCapabilityError "capability_control_pending_missing"))
  end.

End ledger.
End WorkflowLedger.
