(* ===== verification/WorkflowChain.v ===== *)
(** * The chained ledger and the control record, their lemmas

    What the validation of the ledger establishes ([linked]), what the control
    record says of the ledger it was written for ([control_for]), and a
    postcondition logic for the operations on the [world]: [ends m Q E w] says
    that [m], run in [w], ends in [Q] where it returns and in [E] where it
    raises.  The operations on the control keep [control_for]. *)

From S2P Require Import Prelude PyStr Sha256 Regex PyVal PyJson AsciiJson JsSemver NativeObservations WorkflowCapability WorkflowLedger.
Local Open Scope Z_scope.
Local Open Scope py_scope.

Module WorkflowChain.
Import Json Native Workflow WorkflowLedger.

(** ** Postconditions *)

Definition ends {A} (m : M A) (Q : A → world → Prop) (E : world → Prop) (w : world) : Prop :=
  match m w with (Ok a, w') => Q a w' | (Raise _, w') => E w' end.

Lemma ends_ret {A} (a : A) Q E w : Q a w → ends (mret a) Q E w.
Proof. done. Qed.
Lemma ends_bind {A B} (m : M A) (f : A → M B) Q E w : ends m (λ a, ends (f a) Q E) E w → ends (mbind f m) Q E w.
Proof. unfold ends, mbind, M_bind. destruct (m w) as [[a|e] w']; done. Qed.
Lemma ends_mono {A} (m : M A) (Q Q' : A → world → Prop) (E E' : world → Prop) w :
  ends m Q E w → (∀ a w', m w = (Ok a, w') → Q a w' → Q' a w') → (∀ w', E w' → E' w') → ends m Q' E' w.
Proof. unfold ends. intros Hm HQ HE. destruct (m w) as [[a|e] w'] eqn:Hmw; [by apply HQ|by apply HE]. Qed.
Lemma ends_lift {A} (r : result A) (Q : A → world → Prop) (E : world → Prop) w :
  (∀ a, r = Ok a → Q a w) → E w → ends (lift r) Q E w.
Proof. unfold ends, lift. destruct r; [|done]. intros HQ _. by apply HQ. Qed.
Lemma ends_lift_unit (r : result unit) (Q : unit → world → Prop) (E : world → Prop) w :
  (r = Ok tt → Q tt w) → E w → ends (lift r) Q E w.
Proof. intros HQ HE. apply ends_lift; [|done]. intros [] ?. by apply HQ. Qed.
Lemma ends_on_tables {A} (f : tables → result A) (Q : A → world → Prop) (E : world → Prop) w :
  (∀ a, f (db w) = Ok a → Q a w) → E w → ends (on_tables f) Q E w.
Proof. unfold ends, on_tables. destruct (f (db w)); [|done]. intros HQ _. by apply HQ. Qed.

(** Where an operation returned, its parts did. *)
Lemma M_bind_Ok {A B} (m : M A) (f : A → M B) w b w' :
  mbind f m w = (Ok b, w') → ∃ a w1, m w = (Ok a, w1) ∧ f a w1 = (Ok b, w').
Proof. unfold mbind, M_bind. destruct (m w) as [[a|e] w1]; [|done]. eauto. Qed.
Lemma lift_Ok {A} (r : result A) w a w' : lift r w = (Ok a, w') → r = Ok a ∧ w' = w.
Proof. unfold lift. by intros [= -> ->]. Qed.
Lemma on_tables_Ok {A} (f : tables → result A) w a w' : on_tables f w = (Ok a, w') → f (db w) = Ok a ∧ w' = w.
Proof. unfold on_tables. intros [= -> ->]. done. Qed.
Lemma statement_Ok f w u w' : statement f w = (Ok u, w') → ∃ t, f (db w) = Ok t.
Proof. unfold statement. intros (t & w1 & [Ht _]%on_tables_Ok & _)%M_bind_Ok. eauto. Qed.

(** ** The world seen by the credential store *)

(** What does not touch the ledger, the control or its history. *)
Definition quiet {A} (m : M A) : Prop := ∀ w,
  control_text (m w).2 = control_text w ∧ announced (m w).2 = announced w ∧ transitions (db (m w).2) = transitions (db w).

Lemma quiet_ret {A} (a : A) : quiet (mret a).
Proof. done. Qed.
Lemma quiet_lift {A} (r : result A) : quiet (lift r).
Proof. done. Qed.
Lemma quiet_on_tables {A} (f : tables → result A) : quiet (on_tables f).
Proof. done. Qed.
Lemma quiet_bind {A B} (m : M A) (f : A → M B) : quiet m → (∀ a, quiet (f a)) → quiet (mbind f m).
Proof.
  intros Hm Hf w. unfold mbind, M_bind. specialize (Hm w). destruct (m w) as [[a|e] w']; [|done].
  cbn [snd] in Hm. destruct Hm as (<- & <- & <-). apply Hf.
Qed.
Lemma quiet_statement f :
  (∀ t t', f t = Ok t' → transitions t' = transitions t) → quiet (statement f).
Proof.
  intros Hf w. unfold statement, mbind, M_bind, on_tables, set_tables. destruct (f (db w)) as [t|e] eqn:Ht; [|done].
  cbn. by rewrite (Hf _ _ Ht).
Qed.
Create HintDb quiet discriminated.
#[export] Hint Resolve quiet_ret quiet_lift quiet_on_tables quiet_bind quiet_statement : quiet.

Lemma ends_quiet {A} (m : M A) (Q : A → world → Prop) (E : world → Prop) w :
  quiet m →
  (∀ a w', m w = (Ok a, w') → control_text w' = control_text w → announced w' = announced w →
     transitions (db w') = transitions (db w) → Q a w') →
  (∀ w', control_text w' = control_text w → announced w' = announced w → transitions (db w') = transitions (db w) → E w') →
  ends m Q E w.
Proof.
  intros Hm HQ HE. unfold ends. specialize (Hm w). destruct (m w) as [[a|e] w'] eqn:Hmw; cbn [snd] in Hm;
    destruct Hm as (? & ? & ?); [by apply HQ | by apply HE].
Qed.

Section chain.
Context `{PyDecimal}.
Variable float_of : pystr → pyval.

(** ** Linked texts *)

Definition text_of (r : transition_row) : pystr := led_signed_transition_json r.
Definition ledger_texts (t : tables) : list pystr := text_of <$> ledger_rows t.

Definition head_from (previous : pystr) (texts : list pystr) : pystr :=
  match last texts with Some e => transition_text_sha256 e | None => previous end.
Definition head_of (texts : list pystr) : pystr := head_from ZERO_TRANSITION_SHA256 texts.

Definition decodes (e : pystr) (s : SignedAuthorityTransition) : Prop :=
  decode_signed_authority_transition float_of e = Ok s.

(** Each text decodes, is numbered and carries the digest of the one before. *)
Fixpoint linked_from (n : Z) (previous : pystr) (texts : list pystr) : Prop :=
  match texts with
  | [] => True
  | e :: texts =>
      (∃ s, decodes e s ∧ at_sequence (st_transition s) = n ∧ at_previous_transition_sha256 (st_transition s) = previous)
      ∧ linked_from (n + 1) (transition_text_sha256 e) texts
  end.
Definition linked : list pystr → Prop := linked_from 1 ZERO_TRANSITION_SHA256.

Lemma head_from_cons p e l : head_from p (e :: l) = head_from (transition_text_sha256 e) l.
Proof. unfold head_from. rewrite last_cons. by destruct (last l). Qed.
Lemma head_of_snoc l e : head_of (l ++ [e]) = transition_text_sha256 e.
Proof. unfold head_of, head_from. by rewrite last_snoc. Qed.

Lemma linked_from_snoc n p l e :
  linked_from n p (l ++ [e]) ↔
  linked_from n p l ∧ ∃ s, decodes e s ∧ at_sequence (st_transition s) = n + Z.of_nat (length l)
    ∧ at_previous_transition_sha256 (st_transition s) = head_from p l.
Proof.
  revert n p. induction l as [|x l IH]; intros n p; cbn [app linked_from length].
  - unfold head_from. cbn. rewrite Z.add_0_r. naive_solver.
  - rewrite IH, head_from_cons. replace (n + 1 + Z.of_nat (length l)) with (n + Z.of_nat (S (length l))) by lia. tauto.
Qed.
Lemma linked_snoc l e :
  linked (l ++ [e]) ↔
  linked l ∧ ∃ s, decodes e s ∧ at_sequence (st_transition s) = Z.of_nat (length l) + 1
    ∧ at_previous_transition_sha256 (st_transition s) = head_of l.
Proof. unfold linked, head_of. rewrite linked_from_snoc. by rewrite (Z.add_comm 1). Qed.
Lemma linked_decodes n p l e : linked_from n p l → e ∈ l → ∃ s, decodes e s.
Proof.
  revert n p. induction l as [|x l IH]; intros n p Hl He; [by apply elem_of_nil in He|].
  destruct Hl as [(s & Hs & _) Hl]. apply elem_of_cons in He as [->|He]; eauto.
Qed.

(** No two of these texts have the same digest. *)
Definition links_distinct (texts : list pystr) : Prop :=
  ∀ a b, a ∈ texts → b ∈ texts → transition_text_sha256 a = transition_text_sha256 b → a = b.

(** The length and the last digest determine the whole ledger. *)
Lemma linked_unique texts l l' :
  links_distinct texts → l ⊆ texts → l' ⊆ texts → linked l → linked l' → length l = length l' → head_of l = head_of l' →
  l = l'.
Proof.
  intros Hd. revert l'. induction l as [|e l IH] using rev_ind; intros l' Hl Hl' Hk Hk' Hlen Hh.
  - by destruct l'.
  - destruct l' as [|e' l' _] using rev_ind; [rewrite length_app in Hlen; cbn in Hlen; lia|].
    rewrite !head_of_snoc in Hh. assert (e = e') as <- by (apply Hd; set_solver).
    apply linked_snoc in Hk as [Hk (s & Hs & _ & Hp)]. apply linked_snoc in Hk' as [Hk' (s' & Hs' & _ & Hp')].
    unfold decodes in *. simplify_eq. rewrite !length_app in Hlen. cbn in Hlen.
    f_equal. apply IH; [set_solver|set_solver|done|done|lia|congruence].
Qed.

(** ** What the validation of the ledger establishes *)

Lemma validate_rows_linked t key key_id n p rows signed h :
  validate_rows float_of t key key_id n p rows = Ok (signed, h) →
  linked_from n p (text_of <$> rows) ∧ h = head_from p (text_of <$> rows)
  ∧ Forall2 (λ r s, decodes (text_of r) s ∧ columns_authentic r s = true) rows signed
  ∧ ∀ i r, rows !! i = Some r → led_sequence r = n + Z.of_nat i.
Proof.
  revert n p signed h. induction rows as [|r rows IH]; intros n p signed h Hv; cbn [validate_rows] in Hv.
  - injection Hv as <- <-. repeat split; try done.
  - apply bind_Ok in Hv as (s & Hs & Hv). apply then_Ok in Hv as [_ Hv]. apply then_Ok in Hv as [Hc Hv].
    apply then_Ok in Hv as [_ Hv]. apply bind_Ok in Hv as ([rest h'] & Hrest & Hv). injection Hv as <- <-.
    apply raise_if_Ok in Hc. apply orb_false_2 in Hc as [Hc Hp%negb_false_iff%bool_decide_eq_true].
    apply orb_false_2 in Hc as [Hc Hn%negb_false_iff]. apply orb_false_2 in Hc as [_ Hc%negb_false_iff].
    apply Z.eqb_eq in Hn. pose proof (decode_transition_Ok _ _ _ Hs) as He.
    assert (authority_transition_sha256 s = transition_text_sha256 (text_of r)) as Hd.
    { unfold authority_transition_sha256. by rewrite He. }
    rewrite Hd in Hrest. apply IH in Hrest as (Hl & -> & Hf & Hi). cbn [fmap list_fmap linked_from].
    rewrite head_from_cons. split; [|split; [done|split]].
    + split; [|done]. eauto.
    + constructor; [|done]. split; [exact Hs|done].
    + intros [|i] r' Hr'; cbn in Hr'.
      * injection Hr' as <-. unfold columns_authentic in Hc. rewrite !andb_true_iff in Hc. lia.
      * apply Hi in Hr'. lia.
Qed.

(** Integer columns hold 64-bit integers. *)
Definition tables_typed (t : tables) : Prop := Forall (λ r, led_sequence r <= MAX_SQLITE_INTEGER) (transitions t).

Lemma validate_global_linked t key key_id n h :
  validate_global_authority_ledger float_of t key key_id = Ok (n, h) →
  linked (ledger_texts t) ∧ n = Z.of_nat (length (ledger_texts t)) ∧ h = head_of (ledger_texts t)
  ∧ (tables_typed t → n <= MAX_SQLITE_INTEGER)
  ∧ ∀ r, r ∈ transitions t → ∃ s, decodes (text_of r) s ∧ columns_authentic r s = true.
Proof.
  unfold validate_global_authority_ledger. intros Hv. apply bind_Ok in Hv as ([signed h'] & Hr & Hv).
  apply then_Ok in Hv as [_ Hv]. injection Hv as <- <-. apply validate_rows_linked in Hr as (Hl & Hh & Hf & Hi).
  unfold ledger_texts. rewrite length_fmap. split; [exact Hl|]. split; [done|]. split; [exact Hh|]. split.
  - intros Ht. destruct (last (ledger_rows t)) as [r|] eqn:Hlast.
    + rewrite last_lookup in Hlast. pose proof (Hi _ _ Hlast) as Hs. apply list_elem_of_lookup_2 in Hlast as Hin.
      apply elem_of_sort_on in Hin. unfold tables_typed in Ht. rewrite Forall_forall in Ht. apply Ht in Hin.
      apply lookup_lt_Some in Hlast. lia.
    + apply last_None in Hlast. rewrite Hlast. cbn. unfold MAX_SQLITE_INTEGER. lia.
  - intros r Hr. assert (r ∈ ledger_rows t) as Hr' by by apply elem_of_sort_on.
    apply list_elem_of_lookup_1 in Hr' as [i Hr']. eapply Forall2_lookup_l in Hf as (s & _ & Hs); [|done]. eauto.
Qed.

Lemma ledger_texts_elem t e : e ∈ ledger_texts t ↔ ∃ r, r ∈ transitions t ∧ text_of r = e.
Proof using Type.
  unfold ledger_texts, ledger_rows. rewrite list_elem_of_fmap. setoid_rewrite elem_of_sort_on.
  split; intros (r & ? & ?); exists r; by split.
Qed.

(** ** The control record is read as it was written *)

Lemma make_control_Ok c c' : make_control c = Ok c' → c' = c.
Proof. unfold make_control. intros Hc. split_checks. by injection Hc. Qed.

Lemma make_control_pending c c' :
  make_control c = Ok c' →
  match wc_pending_sequence c with
  | Some n => n = wc_committed_sequence c + 1 ∧ ∃ h, wc_pending_head_sha256 c = Some h
  | None => wc_pending_head_sha256 c = None
  end.
Proof.
  unfold make_control. intros Hc. apply then_Ok in Hc as [_ Hc]. apply then_Ok in Hc as [_ Hc].
  apply then_Ok in Hc as [_ Hc]. apply then_Ok in Hc as [Hg Hc]. apply then_Ok in Hc as [Hp _].
  apply raise_if_Ok, negb_false_iff, eqb_prop in Hg.
  destruct (wc_pending_sequence c) as [n|].
  - apply then_Ok in Hp as [Hp%raise_if_Ok%negb_false_iff%Z.eqb_eq _]. split; [done|].
    destruct (wc_pending_head_sha256 c) as [h|]; [eauto|discriminate Hg].
  - destruct (wc_pending_head_sha256 c); [discriminate Hg|done].
Qed.

Lemma control_optional_read {A} (read : pyval → result A) (f : A → json) (v : option A) :
  (∀ a, read (py_of (f a)) = Ok a) → (∀ a, py_of (f a) ≠ PNone) → control_optional read (py_of (jopt f v)) = Ok v.
Proof.
  intros Hr Hn. destruct v as [a|]; [|done]. cbn [jopt]. unfold control_optional. specialize (Hr a). specialize (Hn a).
  destruct (py_of (f a)); [done|..]; by rewrite Hr.
Qed.

Lemma control_readable c c' :
  make_control c = Ok c' → wc_committed_sequence c <= MAX_SQLITE_INTEGER → readable (control_json c).
Proof.
  intros Hc Hb. pose proof (make_control_pending _ _ Hc) as Hp. unfold make_control in Hc. split_checks.
  repeat match goal with
  | H : raise_if _ _ = Ok _ |- _ => apply raise_if_Ok in H
  | H : digest _ _ = Ok tt |- _ => apply digest_ascii, ascii_scalar in H
  | H : parse_utc_timestamp _ = Ok _ |- _ => apply timestamp_scalar in H
  end.
  unfold MAX_SQLITE_INTEGER in Hb. unfold control_json. apply obj_readable; [done|done|].
  apply Forall_cons; split; [cbn [snd]; apply int_readable; lia|].
  apply Forall_cons; split; [cbn [snd]; apply int_readable; lia|].
  apply Forall_cons; split; [assumption|].
  destruct (wc_pending_sequence c) as [n|].
  - destruct Hp as [-> [h Hh]]. rewrite Hh in *.
    match goal with H : (_ ;; digest _ _) = Ok _ |- _ =>
      apply then_Ok in H as [_ H]; apply digest_ascii, ascii_scalar in H; cbn [default] in H end.
    apply Forall_cons; split; [cbn [snd jopt]; apply int_readable; lia|].
    apply Forall_cons; split; [assumption|]. apply Forall_cons; split; [assumption|constructor].
  - rewrite Hp. apply Forall_cons; split; [done|]. apply Forall_cons; split; [done|].
    apply Forall_cons; split; [assumption|constructor].
Qed.

Lemma control_decodes c :
  make_control c = Ok c → wc_committed_sequence c <= MAX_SQLITE_INTEGER → decode_control float_of (encode_control c) = Ok c.
Proof.
  intros Hc Hb. unfold decode_control. change (encode_control c) with (canonical (control_json c)).
  rewrite loads_or_dumps by by eapply control_readable. cbn [mbind result_bind].
  pose proof (obj_strict (control_json_fields c) CONTROL_FIELDS eq_refl) as Hs.
  unfold strict_object in Hs. change (py_of (JObj (control_json_fields c))) with (py_of (control_json c)) in Hs.
  destruct (py_of (control_json c)) as [| | | | | |d] eqn:Hd; try discriminate Hs.
  apply then_Ok in Hs as [Hk%raise_if_Ok Hs]. rewrite Hk. cbn [raise_if mbind result_bind]. apply (inj Ok) in Hs as ->.
  unfold control_json_fields.
  repeat (erewrite obj_get by (first [reflexivity | apply (bool_decide_unpack _); vm_compute; exact I]);
          rewrite ?(control_optional_read control_integer JInt), ?(control_optional_read control_string JStr) by done;
          cbn [py_of control_string control_integer mbind result_bind]).
  destruct c as [v n h pn ph o]. cbn [wc_version wc_committed_sequence wc_committed_head_sha256 wc_pending_sequence
    wc_pending_head_sha256 wc_observed_at] in *. rewrite Hc. cbn [mbind result_bind].
  rewrite bool_decide_eq_true_2 by done. reflexivity.
Qed.

(** ** What the control says of the ledger *)

(** The control is that of ledger [l]: it was made, it commits to the length
    and the head of [l], and what it leaves pending is one announced text
    that continues [l]. *)
Definition control_for (l : list pystr) (ann : list pystr) (c : WorkflowCapabilityControl) : Prop :=
  make_control c = Ok c ∧ wc_committed_sequence c = Z.of_nat (length l) ∧ wc_committed_head_sha256 c = head_of l
  ∧ ∀ h, wc_pending_head_sha256 c = Some h → ∃ e, e ∈ ann ∧ h = transition_text_sha256 e ∧ linked (l ++ [e]).

(** The credential store holds the control of ledger [l], or nothing where
    there never was one.  [seen] are texts of the databases. *)
Record safe (seen l : list pystr) (ctl : option pystr) (ann : list pystr) : Prop := {
  safe_linked : linked l;
  safe_known : l ⊆ seen ++ ann;
  safe_bound : Z.of_nat (length l) <= MAX_SQLITE_INTEGER;
  safe_control : match ctl with None => l = [] | Some text => ∃ c, text = encode_control c ∧ control_for l ann c end;
}.
(** The ledger grew. *)
Definition still_safe (seen l : list pystr) (ctl : option pystr) (ann : list pystr) : Prop :=
  ∃ l', l `prefix_of` l' ∧ safe seen l' ctl ann.
(** The database holds known texts and 64-bit integers. *)
Definition known_tables (seen : list pystr) (w : world) : Prop :=
  ledger_texts (db w) ⊆ seen ++ announced w ∧ tables_typed (db w).

Lemma safe_still seen l ctl ann : safe seen l ctl ann → still_safe seen l ctl ann.
Proof. by exists l. Qed.
Lemma control_for_mono l ann ann' c : ann ⊆ ann' → control_for l ann c → control_for l ann' c.
Proof.
  intros Ha (? & ? & ? & Hp). repeat split; try done. intros h Hh. destruct (Hp h Hh) as (e & He & ?). exists e.
  split; [by apply Ha|done].
Qed.
Lemma safe_announce seen l ctl ann ann' : ann ⊆ ann' → safe seen l ctl ann → safe seen l ctl ann'.
Proof.
  intros Ha [Hl Hk Hb Hc]. constructor; [done|set_solver|done|]. destruct ctl; [|done].
  destruct Hc as (c & -> & Hc). exists c. split; [done|]. by eapply control_for_mono.
Qed.
Lemma safe_store seen l ctl ann c :
  safe seen l ctl ann → control_for l ann c → safe seen l (Some (encode_control c)) ann.
Proof. intros [Hl Hk Hb _] Hc. constructor; [done..|]. by exists c. Qed.
Lemma committed_for l ann o c : make_control (committed (Z.of_nat (length l)) (head_of l) o) = Ok c →
  c = committed (Z.of_nat (length l)) (head_of l) o ∧ control_for l ann c.
Proof. intros Hc. pose proof (make_control_Ok _ _ Hc) as ->. by repeat split. Qed.

(** ** The operations on the control *)

Definition stored (c : WorkflowCapabilityControl) (w : world) : world :=
  {| db := db w; control_text := Some (encode_control c); reads := reads w; outcomes := tail (outcomes w); announced := announced w |}.
Definition unstored (w : world) : world :=
  {| db := db w; control_text := control_text w; reads := reads w; outcomes := tail (outcomes w); announced := announced w |}.

Lemma ends_store c (Q : unit → world → Prop) (E : world → Prop) w :
  Q tt (stored c w) → E (stored c w) → E (unstored w) → ends (store_control c) Q E w.
Proof. unfold ends, store_control. cbv zeta. destruct (default Accepted (head (outcomes w))) as [|[]|[]]; done. Qed.
Lemma ends_make_and_store c (Q : WorkflowCapabilityControl → world → Prop) (E : world → Prop) w :
  (make_control c = Ok c → Q c (stored c w) ∧ E (stored c w) ∧ E (unstored w)) → E w → ends (make_and_store c) Q E w.
Proof.
  intros HQ HE. unfold make_and_store. apply ends_bind, ends_lift; [|done]. intros c' Hc.
  pose proof (make_control_Ok _ _ Hc) as ->. destruct (HQ Hc) as (? & ? & ?). apply ends_bind. by apply ends_store.
Qed.

Lemma open_control_for now create seen l w :
  safe seen l (control_text w) (announced w) → (create = true → reads w = true) →
  ends (open_control float_of now create)
    (λ c w', db w' = db w ∧ announced w' = announced w ∧ control_text w' = Some (encode_control c)
             ∧ control_for l (announced w) c)
    (λ w', announced w' = announced w ∧ safe seen l (control_text w') (announced w)) w.
Proof.
  intros Hs Hread. unfold open_control. apply ends_bind. unfold ends at 1. cbn [load_control].
  change (load_control w) with (Ok (if reads w then control_text w else None), w). cbv beta iota.
  pose proof (safe_control _ _ _ _ Hs) as Hc.
  destruct (reads w) eqn:Hr; cycle 1.
  { apply ends_bind, ends_on_tables; [|done]. intros occ _. apply ends_bind, ends_lift_unit; [|done]. intros _.
    apply ends_bind, ends_lift_unit; [|done]. intros Hcr%raise_if_Ok%negb_false_iff. by specialize (Hread Hcr). }
  destruct (control_text w) as [text|] eqn:Ht.
  - destruct Hc as (c & -> & Hc). pose proof Hc as (Hm & Hn & _). pose proof (safe_bound _ _ _ _ Hs).
    rewrite control_decodes by (done || lia). unfold ends, lift. done.
  - subst l. apply ends_bind, ends_on_tables; [|by rewrite Ht]. intros occ _. apply ends_bind, ends_lift_unit; [|by rewrite Ht].
    intros _. apply ends_bind, ends_lift_unit; [|by rewrite Ht]. intros _.
    apply ends_make_and_store; [|by rewrite Ht]. intros [_ Hc]%(committed_for [] (announced w)). unfold stored, unstored.
    cbn [db announced control_text]. rewrite Ht.
    assert (safe seen [] (Some (encode_control (committed 0 ZERO_TRANSITION_SHA256 now))) (announced w))
      by by eapply safe_store. done.
Qed.

(** A ledger the control names, or that its pending text continues, is the
    control's. *)
Lemma resolved seen l ann c t h p :
  links_distinct (seen ++ ann) → safe seen l (Some (encode_control c)) ann → control_for l ann c →
  linked t → t ⊆ seen ++ ann → wc_pending_sequence c = Some p → Z.of_nat (length t) = p →
  Some h = wc_pending_head_sha256 c → h = head_of t →
  ∃ e, t = l ++ [e].
Proof.
  intros Hd Hs (Hm & Hn & Hh & Hp) Ht Hk Hps Hlen Hpending ->. destruct (Hp _ (eq_sym Hpending)) as (e & He & Ed & Hl).
  exists e. pose proof (make_control_pending _ _ Hm) as Hpp. rewrite Hps in Hpp. destruct Hpp as [-> _].
  eapply (linked_unique (seen ++ ann)); try done.
  - apply list_subseteq_app_iff_l. split; [by apply Hs|]. set_solver.
  - rewrite length_app. cbn. lia.
  - by rewrite head_of_snoc.
Qed.
Lemma unchanged seen l ann c t :
  links_distinct (seen ++ ann) → safe seen l (Some (encode_control c)) ann → control_for l ann c →
  linked t → t ⊆ seen ++ ann → Z.of_nat (length t) = wc_committed_sequence c → head_of t = wc_committed_head_sha256 c →
  t = l.
Proof.
  intros Hd Hs (Hm & Hn & Hh & Hp) Ht Hk Hlen Hhead.
  eapply (linked_unique (seen ++ ann)); try done; [by apply Hs|by apply Hs|lia|congruence].
Qed.
(** Loading the control: it is that of the ledger in the database, nothing
    pending. *)
Definition loaded (seen l : list pystr) (w : world) (key : list Z) (key_id : pystr) (c : WorkflowCapabilityControl)
    (w' : world) : Prop :=
  let t := ledger_texts (db w) in
  l `prefix_of` t ∧ db w' = db w ∧ announced w' = announced w ∧ control_text w' = Some (encode_control c)
  ∧ control_for t (announced w) c ∧ wc_pending_head_sha256 c = None ∧ safe seen t (control_text w') (announced w)
  ∧ ∃ n h, validate_global_authority_ledger float_of (db w) key key_id = Ok (n, h).

Lemma resolve_for seen l w c h :
  links_distinct (seen ++ announced w) → safe seen l (Some (encode_control c)) (announced w) →
  control_text w = Some (encode_control c) → control_for l (announced w) c →
  linked h → h ⊆ seen ++ announced w → Z.of_nat (length h) <= MAX_SQLITE_INTEGER →
  ends (resolve_pending (Z.of_nat (length h)) (head_of h) c)
    (λ c' w', db w' = db w ∧ announced w' = announced w ∧ control_text w' = Some (encode_control c')
       ∧ ∃ l', l `prefix_of` l' ∧ safe seen l' (control_text w') (announced w) ∧ control_for l' (announced w) c'
       ∧ wc_pending_sequence c' = None)
    (λ w', announced w' = announced w ∧ still_safe seen l (control_text w') (announced w)) w.
Proof.
  intros Hd Hs Hc Hfor Ht Hk Hb. rewrite <- Hc in Hs. unfold resolve_pending.
  destruct (wc_pending_sequence c) as [p|] eqn:Hp.
  - apply ends_bind, ends_lift_unit; [|by split; [|apply safe_still]].
    intros [Hn Hh]%raise_if_Ok%orb_false_2. apply negb_false_iff, Z.eqb_eq in Hn. apply negb_false_iff, bool_decide_eq_true in Hh.
    assert (∃ e, h = l ++ [e]) as [e He] by by (eapply resolved; first [done | by rewrite <- Hc]).
    assert (l `prefix_of` h) as Hpre by (exists [e]; done).
    apply ends_make_and_store; [|by split; [|apply safe_still]].
    intros Hm. pose proof (committed_for h (announced w) _ _ Hm) as [_ Hfor'].
    assert (safe seen h (Some (encode_control (committed (Z.of_nat (length h)) (head_of h) (wc_observed_at c)))) (announced w)) as Hst.
    { constructor; try done. eauto. }
    unfold stored, unstored. cbn [db announced control_text]. split; [|split].
    + split; [done|]. split; [done|]. split; [done|]. by exists h.
    + split; [done|]. by exists h.
    + split; [done|]. by apply safe_still.
  - apply ends_ret. split; [done|]. split; [done|]. split; [done|]. by exists l.
Qed.

Lemma load_for key key_id now create seen l w :
  links_distinct (seen ++ announced w) → known_tables seen w → safe seen l (control_text w) (announced w) →
  (create = true → reads w = true) →
  ends (load_validate_and_observe_control float_of key key_id now create) (loaded seen l w key key_id)
    (λ w', announced w' = announced w ∧ still_safe seen l (control_text w') (announced w)) w.
Proof.
  intros Hd [Hk Hty] Hs Hread. unfold load_validate_and_observe_control. apply ends_bind, ends_on_tables; [|by split; [|apply safe_still]].
  intros [n h] Hv. pose proof (validate_global_linked _ _ _ _ _ Hv) as (Ht & -> & -> & Hb & _). specialize (Hb Hty).
  apply ends_bind. eapply ends_mono; [by apply open_control_for| |].
  2:{ intros w' [Ha Hs']. by split; [|apply safe_still]. }
  intros c w1 _ (Hdb & Ha & Hc & Hfor). set (t := ledger_texts (db w)) in *.
  apply ends_bind. eapply ends_mono; [apply (resolve_for seen l); rewrite ?Ha; try done; by eapply safe_store| |by rewrite Ha].
  rewrite Ha, Hdb. intros c' w2 _ (Hdb2 & Ha2 & Hc2 & l' & Hpre & Hs2 & Hfor2 & Hp2).
  assert (announced w2 = announced w ∧ still_safe seen l (control_text w2) (announced w)) as Herr by by split; [|exists l'].
  apply ends_bind, ends_lift_unit; [|done]. intros [Hn Hh]%raise_if_Ok%orb_false_2.
  apply negb_false_iff, Z.eqb_eq in Hn. apply negb_false_iff, bool_decide_eq_true in Hh.
  assert (t = l') as <-. { eapply unchanged; try done. by rewrite <- Hc2. }
  pose proof Hfor2 as (Hm2 & _). pose proof (make_control_pending _ _ Hm2) as Hph. rewrite Hp2 in Hph.
  apply ends_bind, ends_lift; [|done]. intros advance _. destruct advance.
  - apply ends_make_and_store; [|done]. intros Hm.
    set (c3 := {| wc_version := _ |}) in *.
    assert (control_for t (announced w) c3) as Hfor3 by by (destruct Hfor2 as (_ & ? & ? & ?); repeat split).
    assert (safe seen t (Some (encode_control c3)) (announced w)) as Hs3 by by eapply safe_store.
    unfold stored, unstored. cbn [db announced control_text]. split; [|split; [|exact Herr]].
    + unfold loaded. cbn zeta. fold t. repeat (split; [done|]). eauto.
    + split; [done|]. by exists t.
  - apply ends_ret. unfold loaded. cbn zeta. fold t. repeat (split; [done|]). eauto.
Qed.

(** A transition that can be written, and read back. *)
Definition writable (s : SignedAuthorityTransition) : Prop :=
  make_transition (st_transition s) = Ok (st_transition s) ∧ transition_fits (st_transition s)
  ∧ ascii_text (st_key_id s) ∧ ascii_text (st_signature s).

(** The control leaves the text of [s] pending after ledger [l]. *)
Definition prepared (seen l : list pystr) (s : SignedAuthorityTransition) (c : WorkflowCapabilityControl) (w : world) : Prop :=
  let e := encode_signed_authority_transition s in
  decodes e s ∧ linked (l ++ [e]) ∧ e ∈ announced w ∧ control_text w = Some (encode_control c)
  ∧ control_for l (announced w) c ∧ wc_pending_sequence c = Some (Z.of_nat (length l) + 1)
  ∧ wc_pending_head_sha256 c = Some (transition_text_sha256 e) ∧ safe seen l (control_text w) (announced w).

(** An operation stopped: the ledger may have grown by what was announced. *)
Definition stopped (seen l : list pystr) (ann : list pystr) (w : world) : Prop :=
  ann ⊆ announced w ∧ still_safe seen l (control_text w) (announced w).

Lemma prepare_for seen l c s w :
  safe seen l (control_text w) (announced w) → control_for l (announced w) c → writable s →
  ends (prepare_control_transition c s)
    (λ c' w', db w' = db w ∧ announced w ⊆ announced w' ∧ prepared seen l s c' w') (stopped seen l (announced w)) w.
Proof.
  intros Hs Hfor (Hm & Hfit & Hk & Hg). unfold prepare_control_transition. cbv zeta.
  set (e := encode_signed_authority_transition s).
  apply ends_bind, ends_lift_unit; [|by split; [|apply safe_still]].
  intros [[_ Hn]%orb_false_2 Hp]%raise_if_Ok%orb_false_2. apply negb_false_iff, Z.eqb_eq in Hn.
  apply negb_false_iff, bool_decide_eq_true in Hp. pose proof Hfor as (_ & Hlen & Hhead & _). rewrite Hlen in Hn. rewrite Hhead in Hp.
  apply ends_bind. unfold announce at 1. unfold ends at 1. fold e.
  set (w1 := {| db := db w |}). assert (announced w ⊆ announced w1) as Ha by by apply list_subseteq_app_l.
  assert (e ∈ announced w1) as He by (apply elem_of_app; right; by apply list_elem_of_singleton).
  assert (safe seen l (control_text w1) (announced w1)) as Hs1 by by eapply safe_announce.
  assert (decodes e s) as Hdec by by eapply transition_decodes.
  assert (linked (l ++ [e])) as Hl. { apply linked_snoc. split; [by apply Hs|]. by exists s. }
  apply ends_make_and_store; [|by split; [|apply safe_still]]. intros Hc. set (c' := {| wc_version := _ |}) in *.
  assert (control_for l (announced w1) c') as Hfor'.
  { split; [done|]. split; [done|]. split; [done|]. intros h [= <-]. by exists e. }
  assert (safe seen l (Some (encode_control c')) (announced w1)) as Hs2 by by eapply safe_store.
  unfold stored, unstored. split; [|split].
  - split; [done|]. split; [done|]. unfold prepared. fold e. cbn zeta. split; [done|]. split; [done|].
    split; [done|]. split; [done|]. split; [done|]. split; [cbn; by rewrite Hn|]. done.
  - split; [done|]. by apply safe_still.
  - split; [done|]. by apply safe_still.
Qed.

Lemma finalize_for seen l s c w :
  prepared seen l s c w → Z.of_nat (length l) + 1 <= MAX_SQLITE_INTEGER →
  let e := encode_signed_authority_transition s in
  ends (finalize_control_transition c)
    (λ _ w', db w' = db w ∧ announced w' = announced w ∧ safe seen (l ++ [e]) (control_text w') (announced w'))
    (λ w', db w' = db w ∧ stopped seen l (announced w) w') w.
Proof.
  intros (Hd & Hl & He & Hc & Hfor & Hps & Hph & Hs) Hb e. unfold finalize_control_transition. rewrite Hps, Hph. fold e in Hl, He |- *.
  assert (stopped seen l (announced w) w) as Hstop by by split; [|apply safe_still].
  apply ends_bind, ends_lift; [|done]. intros c' Hm.
  assert (c' = committed (Z.of_nat (length (l ++ [e]))) (head_of (l ++ [e])) (wc_observed_at c) ∧ control_for (l ++ [e]) (announced w) c')
    as [_ Hfor'].
  { rewrite head_of_snoc. rewrite length_app. cbn [length]. replace (Z.of_nat (length l + 1)) with (Z.of_nat (length l) + 1) by lia.
    pose proof (make_control_Ok _ _ Hm) as ->. split; [done|]. rewrite <- (head_of_snoc l e) in Hm |- *.
    split; [done|]. split; [rewrite length_app; cbn; lia|]. by split. }
  assert (safe seen (l ++ [e]) (Some (encode_control c')) (announced w)) as Hs'.
  { constructor; [done|pose proof (safe_known _ _ _ _ Hs); set_solver|rewrite length_app; cbn; lia|]. by exists c'. }
  apply ends_store; unfold stored, unstored; cbn [db announced control_text].
  - done.
  - split; [done|]. split; [done|]. exists (l ++ [e]). split; [by exists [e]|done].
  - done.
Qed.

End chain.
End WorkflowChain.
