(* ===== verification/WorkflowStore.v ===== *)
(** * The store of workflow capabilities

    Models [store_workflow_capabilities.py], [store_workflow_capability_authority.py],
    [store_workflow_capability_revocation.py], [store_workflow_capability_lookup.py],
    [store_workflow_capability_receipt_lookup.py] and the helpers of
    [store_workflow_capability_common.py]: issuing, claiming, revoking and
    looking up capabilities, each in one transaction between two writes of the
    external control.

    An operation runs under a cross-process lock, so it is a function on the
    [world]; [environment] holds what it reads from outside: the clock's text,
    the store's key, the hexadecimal of [uuid4] and whether the commit
    succeeds.  A transaction that raises, or whose commit fails, leaves the
    database as it was; what was written to the credential store stays. *)

From S2P Require Import Prelude PyStr Sha256 Regex PyVal PyJson AsciiJson JsSemver NativeObservations WorkflowCapability WorkflowLedger.
Local Open Scope Z_scope.
Local Open Scope py_scope.

Module WorkflowStore.
Import Json Native Workflow WorkflowLedger.

Section store.
Context `{PyDecimal}.
Variable float_of : pystr → pyval.

(** ** Events *)

Definition private_reference (purpose value : pystr) : pystr :=
  sha256_hex (canonical_framed_payload ($"audit-" ++ purpose) (JStr value)).
Definition workflow_capability_event_payload (capability_id : pystr) (invocation_id : option pystr)
    (extra : list (pystr * json)) : json :=
  JObj ([($"capability_ref", JStr (private_reference ($"capability") capability_id))] ++ extra
        ++ match invocation_id with
           | Some i => [($"invocation_ref", JStr (private_reference ($"invocation") i))]
           | None => []
           end).
Definition claim_event_extra (approval_provenance_id receipt_id task_id : pystr) (use_number : Z) : list (pystr * json) :=
  [($"approval_provenance_ref", JStr (private_reference ($"approval-provenance") approval_provenance_id));
   ($"receipt_ref", JStr (private_reference ($"receipt") receipt_id));
   ($"task_ref", JStr (private_reference ($"task") task_id)); ($"use_number", JInt use_number)].
(** [_claim_event_payload], and [_event_payload] of the authority file *)
Definition claim_event_payload (r : WorkflowCapabilityReceipt) : json :=
  workflow_capability_event_payload (wr_capability_id r) (Some (wr_invocation_id r))
    (claim_event_extra (wr_approval_provenance_id r) (wr_receipt_id r) (wr_task_id r) (wr_use_number r)).

Definition next_event_id (t : tables) : Z := foldr Z.max (event_sequence t) (evt_event_id <$> events t) + 1.

Definition insert_workflow_capability_event (event_name capability_id : pystr) (invocation_id : option pystr)
    (occurred_at : pystr) (extra : list (pystr * json)) (t : tables) : result (tables * Z) :=
  let event_id := next_event_id t in
  raise_if (MAX_SQLITE_INTEGER <? event_id) (RuntimeError "OperationalError") ;;
  Ok ({| capabilities := capabilities t; states := states t; revocations := revocations t; receipts := receipts t;
         transitions := transitions t;
         events := events t ++
           [{| evt_event_id := event_id; evt_event_name := event_name;
               evt_payload_json := canonical (workflow_capability_event_payload capability_id invocation_id extra);
               evt_occurred_at := occurred_at |}];
         event_sequence := event_id |}, event_id).

(** ** Authority *)

(** [_write_state(insert=True)] *)
Definition insert_state (signed : SignedAuthorityState) (t : tables) : result tables :=
  let s := ss_state signed in
  raise_if (existsb (λ r, bool_decide (sta_capability_id r = as_capability_id s)) (states t)) IntegrityError ;;
  Ok {| capabilities := capabilities t;
        states := states t ++
          [{| sta_capability_id := as_capability_id s; sta_signed_state_json := encode_signed_authority_state signed;
              sta_key_id := ss_key_id signed; sta_revision := as_revision s; sta_use_high_water := as_use_high_water s;
              sta_observed_at := as_observed_at s; sta_revocation_id := as_revocation_id s |}];
        revocations := revocations t; receipts := receipts t; transitions := transitions t; events := events t;
        event_sequence := event_sequence t |}.

Definition create_authority_state (signed_claim : SignedWorkflowCapability) (key : list Z) (key_id now : pystr)
    : M SignedAuthorityState :=
  state ← lift (make_authority_state
    {| as_schema_version := AUTHORITY_STATE_SCHEMA; as_capability_id := cl_capability_id (sc_claim signed_claim);
       as_claim_sha256 := workflow_capability_claim_sha256 signed_claim; as_use_high_water := 0; as_observed_at := now;
       as_revision := 0; as_revocation_id := None; as_revoked_at := None |}) ;
  signed ← lift (sign_authority_state state key key_id) ;
  statement (insert_state signed) ;;
  mret signed.

(** [_write_state(insert=False)] *)
Definition update_state (signed : SignedAuthorityState) (t : tables) : result tables :=
  let s := ss_state signed in
  let mine r := bool_decide (sta_capability_id r = as_capability_id s) in
  bind_integer (as_revision s) ;; bind_integer (as_use_high_water s) ;;
  raise_if (negb (length (filter mine (states t)) =? 1)%nat)
    (WorkflowCapabilityError "capability_authority_state_update_failed") ;;
  Ok {| capabilities := capabilities t;
        states := (λ r, if mine r then
            {| sta_capability_id := sta_capability_id r; sta_signed_state_json := encode_signed_authority_state signed;
               sta_key_id := ss_key_id signed; sta_revision := as_revision s; sta_use_high_water := as_use_high_water s;
               sta_observed_at := as_observed_at s; sta_revocation_id := as_revocation_id s |} else r) <$> states t;
        revocations := revocations t; receipts := receipts t; transitions := transitions t; events := events t;
        event_sequence := event_sequence t |}.

Definition or_else_old {A} (new old : option A) : option A := match new with None => old | _ => new end.

Definition advance_authority_state (s : WorkflowCapabilityAuthorityState) (key : list Z) (key_id now : pystr)
    (use_high_water : option Z) (revocation_id revoked_at : option pystr) : M SignedAuthorityState :=
  current ← lift (parse_utc_timestamp now) ;
  observed ← lift (parse_utc_timestamp (as_observed_at s)) ;
  lift (raise_if (current <? observed) (WorkflowCapabilityError "capability_clock_rollback")) ;;
  updated ← lift (make_authority_state
    {| as_schema_version := as_schema_version s; as_capability_id := as_capability_id s;
       as_claim_sha256 := as_claim_sha256 s; as_use_high_water := default (as_use_high_water s) use_high_water;
       as_observed_at := now; as_revision := as_revision s + 1;
       as_revocation_id := or_else_old revocation_id (as_revocation_id s);
       as_revoked_at := or_else_old revoked_at (as_revoked_at s) |}) ;
  signed ← lift (sign_authority_state updated key key_id) ;
  statement (update_state signed) ;;
  mret signed.

Definition insert_revocation (row : revocation_row) (t : tables) : result tables :=
  raise_if (existsb (λ r, bool_decide (rev_revocation_id r = rev_revocation_id row)
                          || bool_decide (rev_capability_id r = rev_capability_id row)) (revocations t)) IntegrityError ;;
  Ok {| capabilities := capabilities t; states := states t; revocations := revocations t ++ [row];
        receipts := receipts t; transitions := transitions t; events := events t; event_sequence := event_sequence t |}.

Definition append_revocation (signed_claim : SignedWorkflowCapability) (reason_code revoked_at revocation_id : pystr)
    (key : list Z) (key_id : pystr) : M WorkflowCapabilityRevocation :=
  revocation ← lift (make_revocation
    {| rv_schema_version := REVOCATION_SCHEMA; rv_revocation_id := revocation_id;
       rv_capability_id := cl_capability_id (sc_claim signed_claim);
       rv_claim_sha256 := workflow_capability_claim_sha256 signed_claim; rv_reason_code := reason_code;
       rv_revoked_at := revoked_at |}) ;
  signed ← lift (sign_revocation revocation key key_id) ;
  statement (insert_revocation
    {| rev_revocation_id := revocation_id; rev_capability_id := rv_capability_id revocation;
       rev_signed_revocation_json := encode_signed_revocation signed; rev_key_id := key_id; rev_revoked_at := revoked_at |}) ;;
  mret revocation.

Definition load_revocation (t : tables) (signed_claim : SignedWorkflowCapability) (key : list Z) (key_id : pystr)
    : result (option WorkflowCapabilityRevocation) :=
  let capability_id := cl_capability_id (sc_claim signed_claim) in
  match filter (λ r, rev_capability_id r = capability_id) (revocations t) with
  | [] => Ok None
  | [row] =>
      signed ← decode_signed_revocation float_of (rev_signed_revocation_json row) ;
      verify_revocation signed key key_id ;;
      let r := sv_revocation signed in
      raise_if (negb (bool_decide (rev_revocation_id row = rv_revocation_id r))
                || negb (bool_decide (rev_key_id row = sv_key_id signed))
                || negb (bool_decide (rev_revoked_at row = rv_revoked_at r))
                || negb (bool_decide (rv_capability_id r = capability_id))
                || negb (bool_decide (rv_claim_sha256 r = workflow_capability_claim_sha256 signed_claim)))
        (WorkflowCapabilityError "capability_revocation_binding_invalid") ;;
      Ok (Some r)
  | _ => Raise (WorkflowCapabilityError "capability_revocation_history_invalid")
  end.

(** The event a receipt row is joined with. *)
Definition event_of (t : tables) (event_id : Z) : option event_row :=
  snd <$> list_find (λ e, evt_event_id e = event_id) (events t).

(** The checks of one receipt row against the claim and the joined event. *)
Definition validate_receipt_row (t : tables) (signed_claim : SignedWorkflowCapability) (key : list Z) (key_id : pystr)
    (expected_use : Z) (row : receipt_row) : result unit :=
  signed ← decode_signed_receipt float_of (rcp_signed_receipt_json row) ;
  verify_workflow_capability_receipt float_of signed key key_id ;;
  let r := sr_receipt signed in
  raise_if (negb (wr_use_number r =? expected_use) || negb (rcp_use_number row =? expected_use)
            || negb (bool_decide (wr_receipt_id r = rcp_receipt_id row))
            || negb (bool_decide (wr_task_id r = rcp_task_id row))
            || negb (bool_decide (wr_invocation_id r = rcp_invocation_id row))
            || negb (bool_decide (wr_approval_provenance_id r = rcp_approval_provenance_id row))
            || negb (bool_decide (wr_claimed_at r = rcp_claimed_at row))
            || negb (wr_event_id r =? rcp_event_id row)
            || negb (bool_decide (wr_capability_id r = cl_capability_id (sc_claim signed_claim)))
            || negb (bool_decide (wr_claim_sha256 r = workflow_capability_claim_sha256 signed_claim))
            || negb (bool_decide (wr_binding r = cl_binding (sc_claim signed_claim))))
    (WorkflowCapabilityError "capability_receipt_history_invalid") ;;
  let error := WorkflowCapabilityError "capability_receipt_event_history_invalid" in
  match event_of t (rcp_event_id row) with
  | None => Raise error
  | Some e =>
      raise_if (negb (bool_decide (evt_event_name e = $"workflow_capability.claimed"))
                || negb (bool_decide (evt_occurred_at e = wr_claimed_at r))) error ;;
      raise_if (negb (bool_decide (evt_payload_json e = canonical (claim_event_payload r)))) error
  end.

Fixpoint validate_receipt_rows (t : tables) (signed_claim : SignedWorkflowCapability) (key : list Z) (key_id : pystr)
    (expected_use : Z) (rows : list receipt_row) : result unit :=
  match rows with
  | [] => Ok tt
  | row :: rows =>
      validate_receipt_row t signed_claim key key_id expected_use row ;;
      validate_receipt_rows t signed_claim key key_id (expected_use + 1) rows
  end.

Definition receipt_rows (t : tables) (capability_id : pystr) : list receipt_row :=
  sort_on rcp_use_number (filter (λ r, rcp_capability_id r = capability_id) (receipts t)).
Definition validate_receipt_history (t : tables) (signed_claim : SignedWorkflowCapability) (key : list Z)
    (key_id : pystr) : result nat :=
  let rows := receipt_rows t (cl_capability_id (sc_claim signed_claim)) in
  validate_receipt_rows t signed_claim key key_id 1 rows ;;
  Ok (length rows).

Definition load_and_validate_authority (t : tables) (signed_claim : SignedWorkflowCapability) (key : list Z)
    (key_id : pystr) (used_count : Z) (revoked_at revocation_code : option pystr)
    : result WorkflowCapabilityAuthorityState :=
  let capability_id := cl_capability_id (sc_claim signed_claim) in
  match snd <$> list_find (λ r, sta_capability_id r = capability_id) (states t) with
  | None => Raise (WorkflowCapabilityError "capability_authority_state_missing")
  | Some row =>
      signed_state ← decode_signed_authority_state float_of (sta_signed_state_json row) ;
      verify_authority_state signed_state key key_id ;;
      let s := ss_state signed_state in
      raise_if (negb (bool_decide (capability_id = as_capability_id s)) || negb (bool_decide (key_id = ss_key_id signed_state))
                || negb (sta_revision row =? as_revision s) || negb (sta_use_high_water row =? as_use_high_water s)
                || negb (bool_decide (sta_observed_at row = as_observed_at s))
                || negb (bool_decide (sta_revocation_id row = as_revocation_id s))
                || negb (bool_decide (as_claim_sha256 s = workflow_capability_claim_sha256 signed_claim)))
        (WorkflowCapabilityError "capability_authority_state_binding_invalid") ;;
      receipt_count ← validate_receipt_history t signed_claim key key_id ;
      raise_if (negb (as_use_high_water s =? Z.of_nat receipt_count) || negb (used_count =? Z.of_nat receipt_count))
        (WorkflowCapabilityError "capability_use_high_water_invalid") ;;
      revocation ← load_revocation t signed_claim key key_id ;
      let error := WorkflowCapabilityError "capability_revocation_state_invalid" in
      match revocation with
      | None => raise_if (given (as_revocation_id s) || given revoked_at || given revocation_code) error
      | Some r =>
          raise_if (negb (bool_decide (as_revocation_id s = Some (rv_revocation_id r)))
                    || negb (bool_decide (as_revoked_at s = Some (rv_revoked_at r)))
                    || negb (bool_decide (revoked_at = Some (rv_revoked_at r)))
                    || negb (bool_decide (revocation_code = Some (rv_reason_code r)))) error
      end ;;
      validate_capability_transition_projection float_of t signed_claim signed_state receipt_count
        (rv_revocation_id <$> revocation) key key_id ;;
      Ok s
  end.

(** [_validate_claim_row] *)
Definition validate_claim_row (signed : SignedWorkflowCapability) (row : capability_row) (capability_id : pystr)
    : result unit :=
  let c := sc_claim signed in
  raise_if (negb (bool_decide (cl_capability_id c = capability_id))
            || negb (bool_decide (cap_approval_provenance_id row = cl_approval_provenance_id c))
            || negb (bool_decide (cap_nonce row = cl_nonce c)) || negb (bool_decide (cap_key_id row = sc_key_id signed))
            || negb (bool_decide (cap_issued_at row = cl_issued_at c))
            || negb (bool_decide (cap_not_before row = cl_not_before c))
            || negb (bool_decide (cap_expires_at row = cl_expires_at c)) || negb (cap_max_uses row =? cl_max_uses c))
    (WorkflowCapabilityError "capability_row_binding_invalid").

Definition find_capability (capability_id : pystr) (t : tables) : option capability_row :=
  snd <$> list_find (λ r, cap_capability_id r = capability_id) (capabilities t).

(** ** Operations *)

Record environment := {
  now : pystr;
  store_key : option (list Z * pystr);
  uuid : pystr;
  commits : bool;
}.
Variable env : environment.

(** [with self._connect() as connection: ...] *)
Definition transaction {A} (body : M A) : M A := λ w,
  match body w with
  | (Ok a, w') =>
      if commits env then (Ok a, w')
      else (Raise (RuntimeError "OperationalError"),
            {| db := db w; control_text := control_text w'; reads := reads w'; outcomes := outcomes w'; announced := announced w' |})
  | (Raise e, w') => (Raise e, {| db := db w; control_text := control_text w'; reads := reads w'; outcomes := outcomes w'; announced := announced w' |})
  end.

(** [_require_store_key] *)
Definition require_store_key : M (list Z * pystr) :=
  lift (match store_key env with Some k => Ok k | None => Raise (WorkflowCapabilityError "capability_key_unavailable") end).

Definition insert_event (event_name capability_id : pystr) (invocation_id : option pystr) (extra : list (pystr * json))
    : M Z :=
  '(t, event_id) ← on_tables (insert_workflow_capability_event event_name capability_id invocation_id (now env) extra) ;
  set_tables t ;; mret event_id.

Definition insert_capability (row : capability_row) (t : tables) : result tables :=
  raise_if (existsb (λ r, bool_decide (cap_capability_id r = cap_capability_id row)
                          || bool_decide (cap_nonce r = cap_nonce row)) (capabilities t))
    (WorkflowCapabilityError "capability_already_exists") ;;
  Ok {| capabilities := capabilities t ++ [row]; states := states t; revocations := revocations t;
        receipts := receipts t; transitions := transitions t; events := events t; event_sequence := event_sequence t |}.

(** The last statements of the three operations: the transition is built,
    announced in the control, appended. *)
Definition record_transition (control : WorkflowCapabilityControl) (signed : SignedWorkflowCapability)
    (signed_state : SignedAuthorityState) (kind : pystr) (event_id : Z) (payload : json) (use_number : option Z)
    (receipt_id revocation_id : option pystr) (key : list Z) (key_id : pystr) : M WorkflowCapabilityControl :=
  transition ← lift (build_authority_transition signed signed_state (wc_committed_sequence control + 1)
    (wc_committed_head_sha256 control) kind event_id ($"workflow_capability." ++ kind) payload (now env) use_number
    receipt_id revocation_id key key_id) ;
  pending ← prepare_control_transition control transition ;
  statement (append_authority_transition transition) ;;
  mret pending.

Definition issue_workflow_capability (signed : SignedWorkflowCapability) (approval_provenance_id : pystr)
    : M SignedWorkflowCapability :=
  let claim := sc_claim signed in
  lift (validate_workflow_capability_identifier "approval_provenance_id" approval_provenance_id) ;;
  lift (raise_if (negb (bool_decide (approval_provenance_id = cl_approval_provenance_id claim)))
          (WorkflowCapabilityError "capability_approval_binding_mismatch")) ;;
  '(key, key_id) ← require_store_key ;
  lift (verify_workflow_capability float_of signed key key_id (now env) (cl_binding claim)) ;;
  pending ← transaction
    (control ← load_validate_and_observe_control float_of key key_id (now env) true ;
     statement (insert_capability
       {| cap_capability_id := cl_capability_id claim; cap_approval_provenance_id := approval_provenance_id;
          cap_nonce := cl_nonce claim; cap_signed_claim_json := canonical (signed_capability_json signed);
          cap_key_id := key_id; cap_issued_at := cl_issued_at claim; cap_not_before := cl_not_before claim;
          cap_expires_at := cl_expires_at claim; cap_max_uses := cl_max_uses claim; cap_used_count := 0;
          cap_revoked_at := None; cap_revocation_code := None |}) ;;
     let extra := [($"approval_provenance_ref", JStr (private_reference ($"approval-provenance") approval_provenance_id));
                   ($"max_uses", JInt (cl_max_uses claim)); ($"task_ref", JStr (private_reference ($"task") (cl_task_id claim)))] in
     event_id ← insert_event ($"workflow_capability.issued") (cl_capability_id claim) None extra ;
     signed_state ← create_authority_state signed key key_id (now env) ;
     record_transition control signed signed_state ($"issued") event_id
       (workflow_capability_event_payload (cl_capability_id claim) None extra) None None None key key_id) ;
  finalize_control_transition pending ;;
  mret signed.

(** The capability row, decoded and compared with its claim. *)
Definition read_capability (capability_id : pystr) : M (option (capability_row * SignedWorkflowCapability)) :=
  row ← on_tables (λ t, Ok (find_capability capability_id t)) ;
  match row with
  | None => mret None
  | Some row =>
      signed ← lift (decode_signed_claim float_of (cap_signed_claim_json row)) ;
      lift (validate_claim_row signed row capability_id) ;;
      mret (Some (row, signed))
  end.
Definition read_authority (row : capability_row) (signed : SignedWorkflowCapability) (key : list Z) (key_id : pystr)
    : M WorkflowCapabilityAuthorityState :=
  on_tables (λ t, load_and_validate_authority t signed key key_id (cap_used_count row) (cap_revoked_at row)
                    (cap_revocation_code row)).

(** [update ... set used_count = ? where capability_id = ? and used_count = ?
    and revoked_at is null], with its row count *)
Definition countable (capability_id : pystr) (used_count : Z) (r : capability_row) : bool :=
  bool_decide (cap_capability_id r = capability_id) && (cap_used_count r =? used_count) && negb (given (cap_revoked_at r)).
Definition with_used_count (n : Z) (r : capability_row) : capability_row :=
  {| cap_capability_id := cap_capability_id r; cap_approval_provenance_id := cap_approval_provenance_id r;
     cap_nonce := cap_nonce r; cap_signed_claim_json := cap_signed_claim_json r; cap_key_id := cap_key_id r;
     cap_issued_at := cap_issued_at r; cap_not_before := cap_not_before r; cap_expires_at := cap_expires_at r;
     cap_max_uses := cap_max_uses r; cap_used_count := n; cap_revoked_at := cap_revoked_at r;
     cap_revocation_code := cap_revocation_code r |}.
Definition count_use (capability_id : pystr) (used_count use_number : Z) (t : tables) : result tables :=
  let mine := countable capability_id used_count in
  raise_if (negb (length (filter mine (capabilities t)) =? 1)%nat) (WorkflowCapabilityError "capability_claim_conflict") ;;
  Ok {| capabilities := (λ r, if mine r then with_used_count use_number r else r) <$> capabilities t;
        states := states t; revocations := revocations t; receipts := receipts t; transitions := transitions t;
        events := events t; event_sequence := event_sequence t |}.

Definition insert_receipt (row : receipt_row) (t : tables) : result tables :=
  raise_if (existsb (λ r, bool_decide (rcp_receipt_id r = rcp_receipt_id row)
                          || bool_decide (rcp_invocation_id r = rcp_invocation_id row)
                          || bool_decide (rcp_capability_id r = rcp_capability_id row)
                             && (rcp_use_number r =? rcp_use_number row)) (receipts t))
    (WorkflowCapabilityError "capability_claim_conflict") ;;
  Ok {| capabilities := capabilities t; states := states t; revocations := revocations t;
        receipts := receipts t ++ [row]; transitions := transitions t; events := events t;
        event_sequence := event_sequence t |}.

(** The conditions a claim must meet, once its authority is validated. *)
Definition claim_admitted (row : capability_row) (signed : SignedWorkflowCapability)
    (state : WorkflowCapabilityAuthorityState) (invocation_id : pystr) (expected_binding : WorkflowCapabilityBinding)
    (subject_id task_id issuer_id approval_provenance_id : pystr) (key : list Z) (key_id : pystr) (t : tables)
    : result unit :=
  let c := sc_claim signed in
  verify_workflow_capability float_of signed key key_id (now env) expected_binding ;;
  raise_if (negb (bool_decide (cl_subject_id c = subject_id)) || negb (bool_decide (cl_task_id c = task_id))
            || negb (bool_decide (cl_issuer_id c = issuer_id))
            || negb (bool_decide (cl_approval_provenance_id c = approval_provenance_id)))
    (WorkflowCapabilityError "capability_claimant_context_mismatch") ;;
  raise_if (given (as_revocation_id state)) (WorkflowCapabilityError "capability_revoked") ;;
  raise_if (cl_max_uses c <=? cap_used_count row) (WorkflowCapabilityError "capability_exhausted") ;;
  raise_if (existsb (λ r, bool_decide (rcp_invocation_id r = invocation_id)) (receipts t))
    (WorkflowCapabilityError "capability_invocation_replayed").

(** The statements of a claim that was admitted. *)
Definition claim_use (control : WorkflowCapabilityControl) (row : capability_row) (signed : SignedWorkflowCapability)
    (state : WorkflowCapabilityAuthorityState) (invocation_id : pystr) (expected_binding : WorkflowCapabilityBinding)
    (key : list Z) (key_id : pystr) : M (SignedWorkflowCapabilityReceipt * WorkflowCapabilityControl) :=
  let c := sc_claim signed in
  let capability_id := cl_capability_id c in
  let use_number := cap_used_count row + 1 in
  let receipt_id := $"wcr-" ++ uuid env in
  statement (count_use capability_id (cap_used_count row) use_number) ;;
  let extra := claim_event_extra (cl_approval_provenance_id c) receipt_id (cl_task_id c) use_number in
  event_id ← insert_event ($"workflow_capability.claimed") capability_id (Some invocation_id) extra ;
  receipt ← lift (make_receipt
    {| wr_schema_version := WORKFLOW_CAPABILITY_RECEIPT_SCHEMA; wr_receipt_id := receipt_id;
       wr_capability_id := capability_id; wr_task_id := cl_task_id c; wr_invocation_id := invocation_id;
       wr_approval_provenance_id := cl_approval_provenance_id c;
       wr_claim_sha256 := workflow_capability_claim_sha256 signed; wr_binding := expected_binding;
       wr_use_number := use_number; wr_event_id := event_id; wr_claimed_at := now env |}) ;
  signed_receipt ← lift (sign_workflow_capability_receipt float_of receipt key key_id) ;
  statement (insert_receipt
    {| rcp_receipt_id := receipt_id; rcp_capability_id := capability_id; rcp_task_id := wr_task_id receipt;
       rcp_invocation_id := invocation_id; rcp_approval_provenance_id := wr_approval_provenance_id receipt;
       rcp_signed_receipt_json := canonical (signed_receipt_json signed_receipt); rcp_claimed_at := now env;
       rcp_use_number := use_number; rcp_event_id := event_id |}) ;;
  signed_state ← advance_authority_state state key key_id (now env) (Some use_number) None None ;
  pending ← record_transition control signed signed_state ($"claimed") event_id
    (workflow_capability_event_payload capability_id (Some invocation_id) extra) (Some use_number) (Some receipt_id) None
    key key_id ;
  mret (signed_receipt, pending).

Definition claim_workflow_capability (capability_id invocation_id : pystr) (expected_binding : WorkflowCapabilityBinding)
    (expected_subject_id expected_task_id expected_issuer_id expected_approval_provenance_id : pystr)
    : M SignedWorkflowCapabilityReceipt :=
  lift (for_each (λ f : string * pystr, validate_workflow_capability_identifier f.1 f.2)
    [("capability_id", capability_id); ("invocation_id", invocation_id); ("expected_subject_id", expected_subject_id);
     ("expected_task_id", expected_task_id); ("expected_issuer_id", expected_issuer_id);
     ("expected_approval_provenance_id", expected_approval_provenance_id)]%string) ;;
  '(key, key_id) ← require_store_key ;
  '(signed_receipt, pending) ← transaction
    (control ← load_validate_and_observe_control float_of key key_id (now env) false ;
     found ← read_capability capability_id ;
     match found with
     | None => lift (Raise (WorkflowCapabilityError "capability_not_found"))
     | Some (row, signed) =>
         state ← read_authority row signed key key_id ;
         on_tables (claim_admitted row signed state invocation_id expected_binding expected_subject_id expected_task_id
                      expected_issuer_id expected_approval_provenance_id key key_id) ;;
         claim_use control row signed state invocation_id expected_binding key key_id
     end) ;
  finalize_control_transition pending ;;
  mret signed_receipt.

(** [update ... set revoked_at = ?, revocation_code = ? where capability_id = ?
    and revoked_at is null], and whether it changed one row *)
Definition mark_revoked (capability_id revoked_at reason_code : pystr) (t : tables) : result (tables * bool) :=
  let mine r := bool_decide (cap_capability_id r = capability_id) && negb (given (cap_revoked_at r)) in
  Ok ({| capabilities := (λ r, if mine r then
           {| cap_capability_id := cap_capability_id r; cap_approval_provenance_id := cap_approval_provenance_id r;
              cap_nonce := cap_nonce r; cap_signed_claim_json := cap_signed_claim_json r; cap_key_id := cap_key_id r;
              cap_issued_at := cap_issued_at r; cap_not_before := cap_not_before r; cap_expires_at := cap_expires_at r;
              cap_max_uses := cap_max_uses r; cap_used_count := cap_used_count r; cap_revoked_at := Some revoked_at;
              cap_revocation_code := Some reason_code |} else r) <$> capabilities t;
         states := states t; revocations := revocations t; receipts := receipts t; transitions := transitions t;
         events := events t; event_sequence := event_sequence t |},
      (length (filter mine (capabilities t)) =? 1)%nat).

(** The statements of a revocation; [None] where the method returns [False]. *)
Definition revoke_use (control : WorkflowCapabilityControl) (signed : SignedWorkflowCapability)
    (state : WorkflowCapabilityAuthorityState) (reason_code : pystr) (key : list Z) (key_id : pystr)
    : M (option WorkflowCapabilityControl) :=
  let capability_id := cl_capability_id (sc_claim signed) in
  let revocation_id := $"wcv-" ++ uuid env in
  append_revocation signed reason_code (now env) revocation_id key key_id ;;
  '(t, one) ← on_tables (mark_revoked capability_id (now env) reason_code) ;
  set_tables t ;;
  if negb one then mret None
  else
    let extra := [($"revocation_ref", JStr (private_reference ($"revocation-code") reason_code))] in
    event_id ← insert_event ($"workflow_capability.revoked") capability_id None extra ;
    signed_state ← advance_authority_state state key key_id (now env) None (Some revocation_id) (Some (now env)) ;
    pending ← record_transition control signed signed_state ($"revoked") event_id
      (workflow_capability_event_payload capability_id None extra) None None (Some revocation_id) key key_id ;
    mret (Some pending).

Definition revoke_workflow_capability (capability_id reason_code : pystr) : M bool :=
  lift (validate_workflow_capability_identifier "capability_id" capability_id) ;;
  lift (raise_if (negb (fullmatch REASON_CODE_PATTERN reason_code)) (WorkflowCapabilityError "invalid_reason_code")) ;;
  '(key, key_id) ← require_store_key ;
  pending ← transaction
    (control ← load_validate_and_observe_control float_of key key_id (now env) false ;
     found ← read_capability capability_id ;
     match found with
     | None => mret None
     | Some (row, signed) =>
         lift (verify_workflow_capability_signature float_of signed key key_id) ;;
         state ← read_authority row signed key key_id ;
         if given (as_revocation_id state) then mret None
         else revoke_use control signed state reason_code key key_id
     end) ;
  match pending with
  | None => mret false
  | Some pending => finalize_control_transition pending ;; mret true
  end.

(** [load_validated_workflow_capability] *)
Definition load_validated_workflow_capability (capability_id : pystr) (key : list Z) (key_id : pystr)
    : M (option SignedWorkflowCapability) :=
  found ← read_capability capability_id ;
  match found with
  | None => mret None
  | Some (row, signed) =>
      lift (verify_workflow_capability_signature float_of signed key key_id) ;;
      read_authority row signed key key_id ;;
      mret (Some signed)
  end.

Definition lookup_workflow_capability (capability_id : pystr) : M (option SignedWorkflowCapability) :=
  lift (validate_workflow_capability_identifier "capability_id" capability_id) ;;
  '(key, key_id) ← require_store_key ;
  transaction
    (load_validate_and_observe_control float_of key key_id (now env) false ;;
     load_validated_workflow_capability capability_id key key_id).

(** How a receipt is selected: by its id or by its invocation. *)
Inductive receipt_selector := By_receipt_id (id : pystr) | By_invocation_id (id : pystr).
Definition selects (s : receipt_selector) (r : receipt_row) : bool :=
  match s with
  | By_receipt_id id => bool_decide (rcp_receipt_id r = id)
  | By_invocation_id id => bool_decide (rcp_invocation_id r = id)
  end.
Definition validate_selector (s : receipt_selector) : result unit :=
  match s with
  | By_receipt_id id => validate_workflow_capability_identifier "receipt_id" id
  | By_invocation_id id => validate_workflow_capability_identifier "invocation_id" id
  end.

(** The comparisons of a receipt row with its signed receipt, the claim and
    the event. *)
Definition check_receipt_row (row : receipt_row) (signed_claim : SignedWorkflowCapability)
    (r : WorkflowCapabilityReceipt) (t : tables) : result unit :=
  let c := sc_claim signed_claim in
  raise_if (negb (bool_decide (rcp_receipt_id row = wr_receipt_id r))
            || negb (bool_decide (rcp_capability_id row = wr_capability_id r))
            || negb (bool_decide (rcp_task_id row = wr_task_id r))
            || negb (bool_decide (rcp_invocation_id row = wr_invocation_id r))
            || negb (bool_decide (rcp_approval_provenance_id row = wr_approval_provenance_id r))
            || negb (bool_decide (rcp_claimed_at row = wr_claimed_at r))
            || negb (rcp_use_number row =? wr_use_number r) || negb (rcp_event_id row =? wr_event_id r))
    (WorkflowCapabilityError "receipt_row_binding_invalid") ;;
  raise_if (negb (bool_decide (wr_capability_id r = cl_capability_id c)) || negb (bool_decide (wr_task_id r = cl_task_id c))
            || negb (bool_decide (wr_approval_provenance_id r = cl_approval_provenance_id c))
            || negb (bool_decide (wr_binding r = cl_binding c))
            || negb (bool_decide (wr_claim_sha256 r = workflow_capability_claim_sha256 signed_claim)))
    (WorkflowCapabilityError "receipt_claim_binding_invalid") ;;
  let error := WorkflowCapabilityError "receipt_event_binding_invalid" in
  match event_of t (rcp_event_id row) with
  | None => Raise error
  | Some e =>
      raise_if (negb (bool_decide (evt_event_name e = $"workflow_capability.claimed"))
                || negb (bool_decide (evt_occurred_at e = wr_claimed_at r))
                || negb (bool_decide (evt_payload_json e = canonical (claim_event_payload r)))) error
  end.

(** [lookup_workflow_capability_receipt], its selector given. *)
Definition lookup_receipt_by (selector : receipt_selector) : M (option SignedWorkflowCapabilityReceipt) :=
  lift (validate_selector selector) ;;
  '(key, key_id) ← require_store_key ;
  transaction
    (load_validate_and_observe_control float_of key key_id (now env) false ;;
     row ← on_tables (λ t, Ok (snd <$> list_find (λ r, selects selector r = true) (receipts t))) ;
     match row with
     | None => mret None
     | Some row =>
         claim ← load_validated_workflow_capability (rcp_capability_id row) key key_id ;
         match claim with
         | None => lift (Raise (WorkflowCapabilityError "receipt_claim_missing"))
         | Some signed_claim =>
             signed ← lift (decode_signed_receipt float_of (rcp_signed_receipt_json row)) ;
             lift (verify_workflow_capability_receipt float_of signed key key_id) ;;
             on_tables (check_receipt_row row signed_claim (sr_receipt signed)) ;;
             mret (Some signed)
         end
     end).
Definition lookup_workflow_capability_receipt (receipt_id invocation_id : option pystr)
    : M (option SignedWorkflowCapabilityReceipt) :=
  match receipt_id, invocation_id with
  | None, None | Some _, Some _ => lift (Raise (WorkflowCapabilityError "receipt_lookup_requires_exact_selector"))
  | Some id, None => lookup_receipt_by (By_receipt_id id)
  | None, Some id => lookup_receipt_by (By_invocation_id id)
  end.

End store.
End WorkflowStore.
