(* ===== verification/WorkflowHistory.v ===== *)
(** * Histories of workflow capabilities

    The five operations of the store, called any number of times over one
    database and one credential store, while the database is at any moment
    replaced by another (an older copy put back, rows added or removed), the
    credential store refuses writes, commits fail and the process is killed.

    [claims_survive_rollback]: whatever happens, the receipts handed out for a
    capability carry increasing use numbers, never more than the uses its claim
    allows, and none follows a revocation that was reported.  The lemmas before
    it say what each operation leaves: [safe], the control of a ledger that only
    grows. *)

From S2P Require Import Prelude PyStr Sha256 Regex PyVal PyJson AsciiJson JsSemver NativeObservations WorkflowCapability WorkflowLedger WorkflowChain WorkflowStore.
Local Open Scope Z_scope.
Local Open Scope py_scope.

Module WorkflowHistory.
Import Json Native Workflow WorkflowLedger WorkflowChain WorkflowStore.

Section history.
Context `{PyDecimal}.
Variable float_of : pystr → pyval.

(** ** Requests and histories *)

Inductive request :=
  | Issue (signed : SignedWorkflowCapability) (approval_provenance_id : pystr)
  | Claim (capability_id invocation_id : pystr) (expected_binding : WorkflowCapabilityBinding)
      (subject_id task_id issuer_id approval_provenance_id : pystr)
  | Revoke (capability_id reason_code : pystr)
  | Lookup (capability_id : pystr)
  | Lookup_receipt (receipt_id invocation_id : option pystr).
Inductive answer :=
  | Issued (signed : SignedWorkflowCapability)
  | Claimed (receipt : SignedWorkflowCapabilityReceipt)
  | Revoked (revoked : bool)
  | Found (capability : option SignedWorkflowCapability)
  | Receipt (receipt : option SignedWorkflowCapabilityReceipt).

Definition serve (env : environment) (r : request) : M answer :=
  match r with
  | Issue signed approval => s ← issue_workflow_capability float_of env signed approval ; mret (Issued s)
  | Claim id invocation binding subject task issuer approval =>
      s ← claim_workflow_capability float_of env id invocation binding subject task issuer approval ; mret (Claimed s)
  | Revoke id reason => b ← revoke_workflow_capability float_of env id reason ; mret (Revoked b)
  | Lookup id => c ← lookup_workflow_capability float_of env id ; mret (Found c)
  | Lookup_receipt rid iid => s ← lookup_workflow_capability_receipt float_of env rid iid ; mret (Receipt s)
  end.

(** A call, with what the environment and the credential store do during it:
    whether it can be read, and how it takes the writes; or the database
    replaced. *)
Inductive step :=
  | Call (env : environment) (readable : bool) (os : list write_outcome) (r : request)
  | Replace (t : tables).

Definition with_outcomes (readable : bool) (os : list write_outcome) (w : world) : world :=
  {| db := db w; control_text := control_text w; reads := readable; outcomes := os; announced := announced w |}.
Definition with_tables (t : tables) (w : world) : world :=
  {| db := t; control_text := control_text w; reads := reads w; outcomes := outcomes w; announced := announced w |}.

(** The requests with their results, and the world that is left. *)
Fixpoint run (steps : list step) (w : world) : list (request * result answer) * world :=
  match steps with
  | [] => ([], w)
  | Replace t :: steps => run steps (with_tables t w)
  | Call env readable os r :: steps =>
      let a := serve env r (with_outcomes readable os w) in
      let rest := run steps a.2 in
      ((r, a.1) :: rest.1, rest.2)
  end.

(** ** What the statements leave alone *)

Lemma quiet_insert_event env name id inv extra : quiet (insert_event env name id inv extra).
Proof.
  intros w. unfold insert_event, insert_workflow_capability_event, mbind, M_bind, on_tables, set_tables. cbv zeta.
  destruct (MAX_SQLITE_INTEGER <? next_event_id (db w)); done.
Qed.
Lemma quiet_insert_state s : quiet (statement (insert_state s)).
Proof. apply quiet_statement. intros t t' Hf. unfold insert_state in Hf. split_checks. by injection Hf as <-. Qed.
Lemma quiet_update_state s : quiet (statement (update_state s)).
Proof. apply quiet_statement. intros t t' Hf. unfold update_state in Hf. split_checks. by injection Hf as <-. Qed.
Lemma quiet_insert_revocation r : quiet (statement (insert_revocation r)).
Proof. apply quiet_statement. intros t t' Hf. unfold insert_revocation in Hf. split_checks. by injection Hf as <-. Qed.
Lemma quiet_insert_capability r : quiet (statement (insert_capability r)).
Proof. apply quiet_statement. intros t t' Hf. unfold insert_capability in Hf. split_checks. by injection Hf as <-. Qed.
Lemma quiet_insert_receipt r : quiet (statement (insert_receipt r)).
Proof. apply quiet_statement. intros t t' Hf. unfold insert_receipt in Hf. split_checks. by injection Hf as <-. Qed.
Lemma quiet_count_use id u n : quiet (statement (count_use id u n)).
Proof. apply quiet_statement. intros t t' Hf. unfold count_use in Hf. split_checks. by injection Hf as <-. Qed.
Lemma quiet_mark_revoked id at' reason : quiet ('(t, one) ← on_tables (mark_revoked id at' reason) ; set_tables t ;; mret one).
Proof. done. Qed.
#[local] Hint Resolve quiet_insert_event quiet_insert_state quiet_update_state quiet_insert_revocation
  quiet_insert_capability quiet_insert_receipt quiet_count_use quiet_mark_revoked : quiet.

Lemma quiet_create s key kid now : quiet (create_authority_state s key kid now).
Proof. unfold create_authority_state. eauto with quiet. Qed.
Lemma quiet_advance s key kid now u rid at' : quiet (advance_authority_state s key kid now u rid at').
Proof. unfold advance_authority_state. eauto 12 with quiet. Qed.
Lemma quiet_append_revocation s reason at' id key kid : quiet (append_revocation s reason at' id key kid).
Proof. unfold append_revocation. eauto 12 with quiet. Qed.
#[local] Hint Resolve quiet_create quiet_advance quiet_append_revocation : quiet.

(** ** What is announced stays announced *)

Definition mono {A} (m : M A) : Prop := ∀ w, announced w ⊆ announced (m w).2.
Lemma mono_quiet {A} (m : M A) : quiet m → mono m.
Proof. intros Hm w. destruct (Hm w) as (_ & -> & _). reflexivity. Qed.
Lemma mono_bind {A B} (m : M A) (f : A → M B) : mono m → (∀ a, mono (f a)) → mono (mbind f m).
Proof.
  intros Hm Hf w. unfold mbind, M_bind. specialize (Hm w). destruct (m w) as [[a|e] w']; [|exact Hm].
  etrans; [exact Hm|]. apply Hf.
Qed.
Lemma mono_set_tables t : mono (set_tables t).
Proof. intros w. reflexivity. Qed.
Lemma mono_statement f : mono (statement f).
Proof. unfold statement. apply mono_bind; [by apply mono_quiet|]. intros t. apply mono_set_tables. Qed.
Lemma mono_store c : mono (store_control c).
Proof. intros w. reflexivity. Qed.
Lemma mono_announce e : mono (announce e).
Proof. intros w. by apply list_subseteq_app_l. Qed.
Lemma mono_transaction {A} env (m : M A) : mono m → mono (transaction env m).
Proof.
  intros Hm w. specialize (Hm w). unfold transaction. destruct (m w) as [[a|e] w']; [|exact Hm]. by destruct (commits env).
Qed.
Lemma mono_load_control : mono load_control.
Proof. intros w. reflexivity. Qed.
Hint Resolve mono_bind mono_set_tables mono_statement mono_store mono_announce mono_transaction mono_load_control : mono.
Hint Extern 2 (mono (lift _)) => apply mono_quiet, quiet_lift : mono.
Hint Extern 2 (mono (on_tables _)) => apply mono_quiet, quiet_on_tables : mono.
Hint Extern 2 (mono (mret _)) => apply mono_quiet, quiet_ret : mono.

(** Walks through an operation, statement by statement. *)
Ltac announced_stays :=
  repeat (cbv zeta; first
    [ solve [eauto 1 with mono nocore]
    | apply mono_transaction
    | apply mono_bind; [|intros ?]
    | match goal with |- mono (match ?x with _ => _ end) => destruct x end ]).

Lemma mono_load key kid now create : mono (load_validate_and_observe_control float_of key kid now create).
Proof.
  unfold load_validate_and_observe_control, open_control, resolve_pending, make_and_store. announced_stays.
Qed.
Lemma mono_record env c signed state kind eid payload un rid vid key kid :
  mono (record_transition env c signed state kind eid payload un rid vid key kid).
Proof. unfold record_transition, prepare_control_transition, make_and_store. announced_stays. Qed.
Lemma mono_finalize c : mono (finalize_control_transition c).
Proof. unfold finalize_control_transition. announced_stays. Qed.
Lemma mono_event env name id inv extra : mono (insert_event env name id inv extra).
Proof. apply mono_quiet, quiet_insert_event. Qed.
Lemma mono_create s key kid now : mono (create_authority_state s key kid now).
Proof. apply mono_quiet, quiet_create. Qed.
Lemma mono_advance s key kid now u rid at' : mono (advance_authority_state s key kid now u rid at').
Proof. apply mono_quiet, quiet_advance. Qed.
Lemma mono_append s reason at' id key kid : mono (append_revocation s reason at' id key kid).
Proof. apply mono_quiet, quiet_append_revocation. Qed.
Hint Resolve mono_load mono_record mono_finalize mono_event mono_create mono_advance mono_append : mono.

Lemma mono_serve env r : mono (serve env r).
Proof.
  unfold serve, issue_workflow_capability, claim_workflow_capability, revoke_workflow_capability, claim_use, revoke_use,
    lookup_workflow_capability, lookup_workflow_capability_receipt, load_validated_workflow_capability, require_store_key,
    read_capability, read_authority.
  announced_stays.
Qed.
Lemma run_announced steps w : announced w ⊆ announced (run steps w).2.
Proof.
  revert w. induction steps as [|[env rd os r|t] steps IH]; intros w; cbn [run]; [reflexivity| |].
  - cbn [snd]. etrans; [exact (mono_serve env r (with_outcomes rd os w))|]. apply IH.
  - exact (IH (with_tables t w)).
Qed.

(** ** What the ledger says of a capability *)

(** Transition [x] is in the ledger. *)
Definition in_ledger (l : list pystr) (x : WorkflowCapabilityAuthorityTransition) : Prop :=
  ∃ e s, e ∈ l ∧ decodes float_of e s ∧ st_transition s = x.

Lemma in_ledger_prefix l l' x : l `prefix_of` l' → in_ledger l x → in_ledger l' x.
Proof. intros [k ->] (e & s & He & Hs). exists e, s. split; [apply elem_of_app; by left|done]. Qed.

Lemma read_projection_all key kid cap sha n rows ts :
  read_projection float_of key kid cap sha n rows = Ok ts →
  Forall2 (λ r x, ∃ s, decodes float_of (text_of r) s ∧ st_transition s = x ∧ at_claim_sha256 x = sha) rows ts.
Proof.
  revert n ts. induction rows as [|r rows IH]; intros n ts Hr; cbn [read_projection] in Hr.
  - injection Hr as <-. constructor.
  - apply bind_Ok in Hr as (s & Hs & Hr). apply then_Ok in Hr as [_ Hr]. apply then_Ok in Hr as [Hc Hr].
    apply bind_Ok in Hr as (rest & Hrest & Hr). injection Hr as <-.
    apply raise_if_Ok, orb_false_2 in Hc as [_ Hc%negb_false_iff%bool_decide_eq_true].
    constructor; [by exists s|]. by eapply IH.
Qed.

(** The transitions of a capability whose ledger and projection validate: they
    carry its digest, the claims among them are numbered up to the number of
    receipts, and one revokes it only where a revocation is recorded. *)
Lemma projection_says t signed state n rid key kid h x :
  validate_capability_transition_projection float_of t signed state n rid key kid = Ok tt →
  validate_global_authority_ledger float_of t key kid = Ok h →
  in_ledger (ledger_texts t) x → at_capability_id x = cl_capability_id (sc_claim signed) →
  at_claim_sha256 x = workflow_capability_claim_sha256 signed
  ∧ (at_transition_kind x = $"claimed" → ∃ u, at_use_number x = Some u ∧ 1 <= u <= Z.of_nat n)
  ∧ (at_transition_kind x = $"revoked" → rid ≠ None).
Proof.
  destruct h as [m h]. intros Hp Hg (e & s & He & Hs & Hx) Hcap.
  apply validate_global_linked in Hg as (_ & _ & _ & _ & Hrows).
  apply ledger_texts_elem in He as (r & Hr & <-). destruct (Hrows r Hr) as (s' & Hs' & Hcol).
  assert (s' = s) as -> by (unfold decodes in *; congruence).
  unfold validate_capability_transition_projection in Hp. cbv zeta in Hp.
  apply then_Ok in Hp as [_ Hp]. apply bind_Ok in Hp as (ts & Hts & Hp). apply then_Ok in Hp as [_ Hp].
  apply then_Ok in Hp as [Huse Hp]. apply then_Ok in Hp as [_ Hp]. apply then_Ok in Hp as [Hrev _].
  apply raise_if_Ok, negb_false_iff, bool_decide_eq_true in Huse. apply raise_if_Ok, negb_false_iff, Nat.eqb_eq in Hrev.
  apply read_projection_all in Hts.
  assert (r ∈ sort_on led_revision (filter (λ r, led_capability_id r = cl_capability_id (sc_claim signed)) (transitions t))) as Hin.
  { apply elem_of_sort_on, list_elem_of_filter. split; [|done]. unfold columns_authentic in Hcol.
    repeat (apply andb_true_iff in Hcol as [Hcol ?]). rewrite <- Hcap, <- Hx. by eapply bool_decide_eq_true_1. }
  apply list_elem_of_lookup_1 in Hin as [i Hi]. eapply Forall2_lookup_l in Hts as (y & Hy & s' & Hs'' & Hey & Hsha); [|exact Hi].
  assert (s' = s) as -> by (unfold decodes in *; congruence). rewrite Hx in Hey. subst y.
  apply list_elem_of_lookup_2 in Hy. split; [done|]. split.
  - intros Hk. assert (x ∈ of_kind ($"claimed") ts) as Hc by by apply list_elem_of_filter.
    assert (at_use_number x ∈ (Some <$> (Z.of_nat <$> seq 1 n))) as Hu by (rewrite <- Huse; by apply list_elem_of_fmap_2).
    apply list_elem_of_fmap in Hu as (u & -> & Hu). apply list_elem_of_fmap in Hu as (k & -> & Hk'%elem_of_seq).
    exists (Z.of_nat k). split; [done|lia].
  - intros Hk ->. assert (x ∈ of_kind ($"revoked") ts) as Hc by by apply list_elem_of_filter.
    destruct (of_kind ($"revoked") ts); [by apply not_elem_of_nil in Hc|discriminate Hrev].
Qed.

(** The authority of a capability that was validated: the uses counted are its
    receipts, and it is revoked where a revocation is recorded. *)
Lemma authority_says t signed key kid used at' code state h x :
  load_and_validate_authority float_of t signed key kid used at' code = Ok state →
  validate_global_authority_ledger float_of t key kid = Ok h →
  in_ledger (ledger_texts t) x → at_capability_id x = cl_capability_id (sc_claim signed) →
  at_claim_sha256 x = workflow_capability_claim_sha256 signed
  ∧ (at_transition_kind x = $"claimed" → ∃ u, at_use_number x = Some u ∧ 1 <= u <= used)
  ∧ (at_transition_kind x = $"revoked" → as_revocation_id state ≠ None).
Proof.
  intros Ha Hg Hx Hcap. unfold load_and_validate_authority in Ha. cbv zeta in Ha.
  destruct (snd <$> list_find _ (states t)) as [row|]; [|discriminate Ha].
  apply bind_Ok in Ha as (ss & _ & Ha). apply then_Ok in Ha as [_ Ha]. apply then_Ok in Ha as [_ Ha].
  apply bind_Ok in Ha as (n & _ & Ha). apply then_Ok in Ha as [Hn Ha]. apply bind_Ok in Ha as (rev & _ & Ha).
  apply then_Ok in Ha as [Hrev Ha]. apply then_Ok in Ha as [Hp Ha]. injection Ha as <-.
  apply raise_if_Ok, orb_false_2 in Hn as [_ Hn%negb_false_iff%Z.eqb_eq].
  destruct (projection_says _ _ _ _ _ _ _ _ _ Hp Hg Hx Hcap) as (Hsha & Hclaim & Hrevoke). split; [done|]. split.
  - intros Hk. destruct (Hclaim Hk) as (u & Hu & Hle). exists u. split; [done|lia].
  - intros Hk. specialize (Hrevoke Hk). destruct rev as [r|]; [|done].
    apply raise_if_Ok in Hrev. repeat (apply orb_false_2 in Hrev as [Hrev _]).
    apply negb_false_iff, bool_decide_eq_true in Hrev. by rewrite Hrev.
Qed.

(** ** Recording a transition *)

Lemma sign_writable t key kid s :
  make_transition t = Ok t → transition_fits t → sign_authority_transition t key kid = Ok s → writable s ∧ st_transition s = t.
Proof.
  intros Hm Hf Hs. unfold sign_authority_transition in Hs. apply then_Ok in Hs as [_ Hs].
  apply then_Ok in Hs as [Hk%identifier_ascii Hs]. cbv zeta in Hs. apply (inj Ok) in Hs as <-. unfold writable. cbn [st_transition st_key_id st_signature].
  split; [|done]. split; [done|]. split; [done|]. split; [done|].
  unfold hmac_sha256_hex. eapply (digest_ascii ""%string), sha256_digest.
Qed.

(** What a recorded transition says. *)
Definition says (s : SignedAuthorityTransition) (signed : SignedWorkflowCapability) (kind : pystr) (use : option Z) : Prop :=
  let t := st_transition s in
  at_capability_id t = cl_capability_id (sc_claim signed) ∧ at_claim_sha256 t = workflow_capability_claim_sha256 signed
  ∧ at_transition_kind t = kind ∧ at_use_number t = use.

(** The transition is in the database and pending in the control. *)
Definition recorded (seen l : list pystr) (w : world) (signed : SignedWorkflowCapability) (kind : pystr) (use : option Z)
    (c : WorkflowCapabilityControl) (w' : world) : Prop :=
  ∃ s, prepared float_of seen l s c w' ∧ announced w ⊆ announced w' ∧ Z.of_nat (length l) + 1 <= MAX_SQLITE_INTEGER
  ∧ known_tables seen w' ∧ says s signed kind use.

Lemma append_known seen w w' s t :
  append_authority_transition s (db w') = Ok t → known_tables seen w → transitions (db w') = transitions (db w) →
  announced w ⊆ announced w' → encode_signed_authority_transition s ∈ announced w' →
  at_sequence (st_transition s) <= MAX_SQLITE_INTEGER
  ∧ ledger_texts t ⊆ seen ++ announced w' ∧ tables_typed t.
Proof.
  intros Ha [Hk Hty] Ht Hann He. unfold append_authority_transition in Ha. cbv zeta in Ha. split_checks.
  match goal with H : bind_integer (at_sequence _) = _ |- _ => apply raise_if_Ok, Z.ltb_ge in H as Hseq end.
  split; [done|]. apply (inj Ok) in Ha as <-. split.
  - intros e (r & Hr & <-)%ledger_texts_elem. cbn [transitions] in Hr. apply elem_of_app in Hr as [Hr|Hr].
    + rewrite Ht in Hr. assert (text_of r ∈ seen ++ announced w) as Hin by (apply Hk, ledger_texts_elem; eauto).
      apply elem_of_app in Hin as [?|?]; apply elem_of_app; [by left|right; by apply Hann].
    + apply list_elem_of_singleton in Hr as ->. apply elem_of_app. by right.
  - unfold tables_typed. cbn [transitions]. apply Forall_app. split; [by rewrite Ht|]. by constructor.
Qed.

Lemma record_for env seen l c w0 w signed state kind eid payload un rid vid key kid :
  safe float_of seen l (control_text w) (announced w) → control_for float_of l (announced w) c → known_tables seen w0 →
  announced w = announced w0 → transitions (db w) = transitions (db w0) →
  as_revision (ss_state state) <= MAX_SQLITE_INTEGER → eid <= MAX_SQLITE_INTEGER → default 0 un <= MAX_SQLITE_INTEGER →
  ends (record_transition env c signed state kind eid payload un rid vid key kid)
    (recorded seen l w0 signed kind un) (stopped float_of seen l (announced w0)) w.
Proof.
  intros Hs Hfor Hk Hann Htr Hrev Heid Hun. unfold record_transition. rewrite <- Hann.
  assert (stopped float_of seen l (announced w) w) as Hstop by (split; [done|by apply safe_still]).
  apply ends_bind, ends_lift; [|done]. intros s Hb. unfold build_authority_transition in Hb.
  apply bind_Ok in Hb as (t & Hm & Hb). pose proof (make_transition_Ok _ _ Hm) as E. rewrite <- E in Hm.
  pose proof Hfor as (_ & Hlen & _). pose proof (safe_bound _ _ _ _ _ Hs). unfold MAX_SQLITE_INTEGER in *.
  apply sign_writable in Hb as [Hw Hst]; [|done|rewrite E; unfold transition_fits; cbn [at_sequence at_revision at_event_id at_use_number]; rewrite Hlen; change (default 0 (Some eid)) with eid; lia].
  apply ends_bind. eapply ends_mono; [by apply (prepare_for float_of seen l)| |done].
  intros c' w1 _ (Hdb & Ha1 & Hp). unfold statement. apply ends_bind, ends_bind, ends_on_tables.
  2:{ split; [done|]. apply safe_still. by apply Hp. }
  intros t' Hap. pose proof Hp as (_ & _ & He & _).
  eapply append_known in Hap as (Hseq & Hkt & Hty); [|exact Hk|by rewrite Hdb|by rewrite <- Hann|exact He].
  unfold ends, set_tables, mret, M_ret. exists s. split; [exact Hp|]. split; [by rewrite <- Hann|]. split.
  { rewrite Hst, E in Hseq. cbn [at_sequence] in Hseq. rewrite Hlen in Hseq. done. }
  split; [by split|]. unfold says. rewrite Hst, E. done.
Qed.

(** ** Operations between the load and the commit *)

(** What every operation starts from: distinct digests, a known database, a
    safe control. *)
Definition ready (seen l : list pystr) (w : world) : Prop :=
  links_distinct (seen ++ announced w) ∧ known_tables seen w ∧ safe float_of seen l (control_text w) (announced w).
(** An operation failed: at most, the ledger grew by what was announced. *)
Definition failed (seen l : list pystr) (w w' : world) : Prop :=
  known_tables seen w' ∧ stopped float_of seen l (announced w) w'.
(** An operation succeeded. *)
Definition served {A} (seen l : list pystr) (w : world) (R : list pystr → A → Prop) (a : A) (w' : world) : Prop :=
  known_tables seen w' ∧ announced w ⊆ announced w'
  ∧ ∃ l', l `prefix_of` l' ∧ safe float_of seen l' (control_text w') (announced w') ∧ R l' a.

Lemma ready_failed seen l w : ready seen l w → failed seen l w w.
Proof. intros (_ & Hk & Hs). split; [done|]. split; [done|by apply safe_still]. Qed.

Lemma ends_transaction {A} env (m : M A) (Q : A → world → Prop) seen l w :
  known_tables seen w →
  ends m (λ a w', Q a w' ∧ stopped float_of seen l (announced w) w') (stopped float_of seen l (announced w)) w →
  ends (transaction env m) Q (failed seen l w) w.
Proof.
  intros [Hk Hty] Hm. unfold ends, transaction in *.
  assert (∀ w', stopped float_of seen l (announced w) w' →
    failed seen l w {| db := db w; control_text := control_text w'; reads := reads w'; outcomes := outcomes w'; announced := announced w' |}) as Hf.
  { intros w' Hs. split; [|exact Hs]. split; [|done]. cbn [db announced]. destruct Hs as [Ha _].
    intros e He. apply Hk, elem_of_app in He as [He|He]; apply elem_of_app; [by left|right; by apply Ha]. }
  destruct (m w) as [[a|e] w']; [|by apply Hf]. destruct Hm as [HQ Hs]. destruct (commits env); [done|by apply Hf].
Qed.

(** After the load, while nothing touches the ledger. *)
Definition at_work (seen l : list pystr) (w : world) (c : WorkflowCapabilityControl) (w' : world) : Prop :=
  let t := ledger_texts (db w) in
  l `prefix_of` t ∧ control_for float_of t (announced w) c ∧ safe float_of seen t (control_text w') (announced w)
  ∧ announced w' = announced w ∧ transitions (db w') = transitions (db w).

Lemma at_work_stopped seen l w c w' : at_work seen l w c w' → stopped float_of seen l (announced w) w'.
Proof. intros (Hp & _ & Hs & Ha & _). split; [by rewrite Ha|]. exists (ledger_texts (db w)). by rewrite Ha. Qed.
Lemma ends_work {A} (m : M A) (Q : A → world → Prop) seen l w c w1 :
  quiet m → at_work seen l w c w1 → (∀ a w2, m w1 = (Ok a, w2) → at_work seen l w c w2 → Q a w2) →
  ends m Q (stopped float_of seen l (announced w)) w1.
Proof.
  intros Hm (Hp & Hf & Hs & Ha & Ht) HQ.
  assert (∀ w2, control_text w2 = control_text w1 → announced w2 = announced w1 → transitions (db w2) = transitions (db w1) →
    at_work seen l w c w2) as Hw.
  { intros w2 Ec Ea Et. unfold at_work. by rewrite Ec, Ea, Et. }
  apply ends_quiet; [done| |].
  - intros a w2 Hm2 Ec Ea Et. apply HQ; [done|by apply Hw].
  - intros w2 Ec Ea Et. by eapply at_work_stopped, Hw.
Qed.

Lemma ends_load {A} env key kid create (f : WorkflowCapabilityControl → M A) (Q : A → world → Prop) seen l w :
  ready seen l w → (create = true → reads w = true) →
  (∀ c w1, at_work seen l w c w1 → db w1 = db w →
     (∃ h, validate_global_authority_ledger float_of (db w) key kid = Ok h) →
     ends (f c) Q (stopped float_of seen l (announced w)) w1) →
  ends (mbind f (load_validate_and_observe_control float_of key kid (now env) create)) Q
    (stopped float_of seen l (announced w)) w.
Proof.
  intros (Hd & Hk & Hs) Hread HQ. apply ends_bind. eapply ends_mono; [by apply (load_for float_of key kid (now env) create seen l)| |].
  - intros c w1 _ (Hp & Hdb & Ha & Hc & Hfor & _ & Hs1 & n & h & Hv). apply HQ; [|done|eauto].
    unfold at_work. by rewrite Hdb.
  - intros w' [Ha Hst]. split; [by rewrite Ha|by rewrite Ha].
Qed.

(** The commit: the ledger is longer by the recorded transition. *)
Definition extended (l : list pystr) (signed : SignedWorkflowCapability) (kind : pystr) (use : option Z) (l' : list pystr) : Prop :=
  ∃ s, decodes float_of (encode_signed_authority_transition s) s ∧ says s signed kind use
  ∧ l' = l ++ [encode_signed_authority_transition s].

Lemma extended_in l signed kind use l' : extended l signed kind use l' → ∃ x, in_ledger l' x
  ∧ at_capability_id x = cl_capability_id (sc_claim signed) ∧ at_claim_sha256 x = workflow_capability_claim_sha256 signed
  ∧ at_transition_kind x = kind ∧ at_use_number x = use.
Proof.
  intros (s & Hd & Hs & ->). exists (st_transition s). split; [|exact Hs].
  exists (encode_signed_authority_transition s), s. split; [|done]. apply elem_of_app. right. by apply list_elem_of_singleton.
Qed.

Lemma ends_finalize {A} seen l w signed kind use c (a : A) (R : list pystr → A → Prop) w1 :
  l `prefix_of` ledger_texts (db w) → recorded seen (ledger_texts (db w)) w signed kind use c w1 →
  (∀ l', extended (ledger_texts (db w)) signed kind use l' → R l' a) →
  ends (finalize_control_transition c ;; mret a) (served seen l w R) (failed seen l w) w1.
Proof.
  intros Hp (s & Hprep & Ha & Hb & [Hk Hty] & Hsays) HR. apply ends_bind.
  eapply ends_mono; [by apply (finalize_for float_of seen (ledger_texts (db w)) s c)| |].
  - intros [] w2 _ (Hdb & Ha2 & Hs). unfold ends, mret, M_ret. split; [|split].
    + split; [rewrite Hdb, Ha2|rewrite Hdb]; done.
    + by rewrite Ha2.
    + eexists. split; [|split; [exact Hs|]].
      * etrans; [exact Hp|]. by eexists.
      * apply HR. exists s. split; [|done]. by apply Hprep.
  - intros w2 (Hdb & Hann & Hstill). destruct Hstill as (l' & Hl' & Hs). split; [|split].
    + split; [|by rewrite Hdb]. rewrite Hdb. intros e He. apply Hk, elem_of_app in He as [He|He]; apply elem_of_app; [by left|].
      right. by apply Hann.
    + etrans; [exact Ha|exact Hann].
    + exists l'. split; [by etrans|done].
Qed.

Lemma recorded_stopped seen l w signed kind use c w1 :
  l `prefix_of` ledger_texts (db w) → recorded seen (ledger_texts (db w)) w signed kind use c w1 →
  stopped float_of seen l (announced w) w1.
Proof. intros Hp (s & Hprep & Ha & _). split; [done|]. eexists. split; [exact Hp|]. by apply Hprep. Qed.

Lemma ends_record env seen l w c w1 signed state kind eid payload un rid vid key kid :
  known_tables seen w → at_work seen l w c w1 →
  as_revision (ss_state state) <= MAX_SQLITE_INTEGER → eid <= MAX_SQLITE_INTEGER → default 0 un <= MAX_SQLITE_INTEGER →
  ends (record_transition env c signed state kind eid payload un rid vid key kid)
    (recorded seen (ledger_texts (db w)) w signed kind un) (stopped float_of seen l (announced w)) w1.
Proof.
  intros Hk (Hp & Hfor & Hs & Ha & Ht) ? ? ?. eapply ends_mono.
  - eapply (record_for env seen (ledger_texts (db w)) c w); rewrite ?Ha; try done.
  - done.
  - intros w' [Hann (l' & Hl' & Hs')]. split; [done|]. exists l'. split; [by etrans|done].
Qed.

Lemma event_bound env name id inv extra w eid w' :
  insert_event env name id inv extra w = (Ok eid, w') → eid <= MAX_SQLITE_INTEGER.
Proof.
  unfold insert_event, insert_workflow_capability_event, mbind, M_bind, on_tables, set_tables. cbv zeta.
  destruct (MAX_SQLITE_INTEGER <? next_event_id (db w)) eqn:E; cbn; [done|]. intros [= <- _]. lia.
Qed.

(** ** The operations *)

Lemma create_revision sc key kid at' w ss w' :
  create_authority_state sc key kid at' w = (Ok ss, w') → as_revision (ss_state ss) = 0.
Proof.
  unfold create_authority_state.
  intros (s & w1 & [Hs _]%lift_Ok & (ss' & w2 & [Hg _]%lift_Ok & (u & w3 & _ & Hr)%M_bind_Ok)%M_bind_Ok)%M_bind_Ok.
  injection Hr as <- _. apply make_authority_state_Ok in Hs as ->. by apply sign_authority_state_Ok in Hg as ->.
Qed.
Lemma advance_bounds s key kid at' u rid at2 w ss w' :
  advance_authority_state s key kid at' u rid at2 w = (Ok ss, w') →
  as_revision (ss_state ss) <= MAX_SQLITE_INTEGER ∧ default 0 u <= MAX_SQLITE_INTEGER.
Proof.
  unfold advance_authority_state.
  intros (? & ? & _ & (? & ? & _ & (? & ? & _ & Hr)%M_bind_Ok)%M_bind_Ok)%M_bind_Ok.
  apply M_bind_Ok in Hr as (s' & w1 & [Hs _]%lift_Ok & (ss' & w2 & [Hg _]%lift_Ok & Hr)%M_bind_Ok).
  apply M_bind_Ok in Hr as (? & w3 & [t Ht]%statement_Ok & Hr). injection Hr as <- _.
  unfold update_state in Ht. cbv zeta in Ht. apply then_Ok in Ht as [Hrev Ht]. apply then_Ok in Ht as [Hu _].
  apply raise_if_Ok, Z.ltb_ge in Hrev, Hu. split; [done|].
  apply sign_authority_state_Ok in Hg. rewrite Hg in Hu. apply make_authority_state_Ok in Hs. rewrite Hs in Hu.
  destruct u; [exact Hu|]. unfold MAX_SQLITE_INTEGER. cbn. lia.
Qed.

Lemma read_capability_Ok id w row signed w' :
  read_capability float_of id w = (Ok (Some (row, signed)), w') →
  (∃ e, decode_signed_claim float_of e = Ok signed) ∧ cl_capability_id (sc_claim signed) = id ∧ w' = w.
Proof.
  unfold read_capability. intros (r & w1 & [_ ->]%on_tables_Ok & Hr)%M_bind_Ok. destruct r as [r|]; [|discriminate Hr].
  apply M_bind_Ok in Hr as (s & w2 & [Hs ->]%lift_Ok & Hr). apply M_bind_Ok in Hr as ([] & w3 & [Hv ->]%lift_Ok & Hr).
  injection Hr as -> -> <-. split; [eauto|]. split; [|done]. unfold validate_claim_row in Hv. cbv zeta in Hv. apply raise_if_Ok in Hv.
  repeat (apply orb_false_2 in Hv as [Hv _]). by apply negb_false_iff, bool_decide_eq_true in Hv.
Qed.
Lemma quiet_read_capability id : quiet (read_capability float_of id).
Proof.
  unfold read_capability. apply quiet_bind; [done|]. intros [r|]; [|done]. eauto with quiet.
Qed.
Lemma quiet_load_validated id key kid : quiet (load_validated_workflow_capability float_of id key kid).
Proof.
  unfold load_validated_workflow_capability. apply quiet_bind; [apply quiet_read_capability|].
  intros [[row signed]|]; [|done]. unfold read_authority. eauto 12 with quiet.
Qed.
#[local] Hint Resolve quiet_read_capability quiet_load_validated : quiet.

(** Nothing was written. *)
Lemma work_served {A} (R : list pystr → A → Prop) seen l w c (a : A) w' :
  known_tables seen w → at_work seen l w c w' → (∀ l', l `prefix_of` l' → R l' a) → served seen l w R a w'.
Proof.
  intros [Hk Hty] (Hp & _ & Hs & Ha & Ht) HR. split; [split|split].
  - rewrite Ha. intros e (r & Hr & He)%ledger_texts_elem. apply Hk, ledger_texts_elem. exists r. by rewrite <- Ht.
  - unfold tables_typed. by rewrite Ht.
  - by rewrite Ha.
  - exists (ledger_texts (db w)). rewrite Ha. auto.
Qed.

Definition anything {A} (_ : list pystr) (_ : A) : Prop := True.

Lemma issue_served env signed approval seen l w :
  ready seen l w → reads w = true → ends (issue_workflow_capability float_of env signed approval) (served seen l w anything) (failed seen l w) w.
Proof.
  intros Hr Hread. pose proof (ready_failed _ _ _ Hr) as Hf. pose proof Hr as (_ & Hk & _). unfold issue_workflow_capability. cbv zeta.
  apply ends_bind, ends_lift; [intros _ _|done]. apply ends_bind, ends_lift; [intros _ _|done].
  apply ends_bind, ends_lift; [intros [key kid] _|done]. apply ends_bind, ends_lift; [intros _ _|done].
  apply ends_bind. eapply ends_mono; [eapply (ends_transaction env _ (λ c w1, l `prefix_of` ledger_texts (db w)
    ∧ recorded seen (ledger_texts (db w)) w signed ($"issued") None c w1)); [done|]| |done].
  2:{ intros c w1 _ [Hp Hrec]. by apply (ends_finalize seen l w signed ($"issued") None). }
  apply ends_load; [done|done|]. intros c w1 Hw1 _ _.
  apply ends_bind. eapply ends_work; [apply quiet_insert_capability|exact Hw1|]. intros _ w2 _ Hw2.
  apply ends_bind. eapply ends_work; [apply quiet_insert_event|exact Hw2|]. intros eid w3 He%event_bound Hw3.
  apply ends_bind. eapply ends_work; [apply quiet_create|exact Hw3|]. intros ss w4 Hss%create_revision Hw4.
  pose proof Hw4 as (Hp & _).
  eapply ends_mono; [eapply ends_record; [done|exact Hw4|rewrite Hss; unfold MAX_SQLITE_INTEGER; lia|done|unfold MAX_SQLITE_INTEGER; cbn; lia]| |done].
  intros c' w5 _ Hrec. split; [by split|]. by eapply recorded_stopped.
Qed.

Lemma lookup_served env id seen l w :
  ready seen l w → ends (lookup_workflow_capability float_of env id) (served seen l w anything) (failed seen l w) w.
Proof.
  intros Hr. pose proof (ready_failed _ _ _ Hr) as Hf. pose proof Hr as (_ & Hk & _). unfold lookup_workflow_capability.
  apply ends_bind, ends_lift; [intros _ _|done]. apply ends_bind, ends_lift; [intros [key kid] _|done].
  apply ends_transaction; [done|]. apply ends_load; [done|by intros [=]|]. intros c w1 Hw1 _ _.
  eapply ends_work; [apply quiet_load_validated|exact Hw1|]. intros a w2 _ Hw2.
  split; [by eapply work_served|by eapply at_work_stopped].
Qed.

Lemma lookup_by_served env sel seen l w :
  ready seen l w → ends (lookup_receipt_by float_of env sel) (served seen l w anything) (failed seen l w) w.
Proof.
  intros Hr. pose proof (ready_failed _ _ _ Hr) as Hf. pose proof Hr as (_ & Hk & _). unfold lookup_receipt_by.
  apply ends_bind, ends_lift; [intros _ _|done]. apply ends_bind, ends_lift; [intros [key kid] _|done].
  apply ends_transaction; [done|]. apply ends_load; [done|by intros [=]|]. intros c w1 Hw1 _ _.
  eapply ends_work; [|exact Hw1|].
  - apply quiet_bind; [done|]. intros [row|]; [|done]. apply quiet_bind; [apply quiet_load_validated|].
    intros [sc|]; [|done]. eauto 12 with quiet.
  - intros a w2 _ Hw2. split; [by eapply work_served|by eapply at_work_stopped].
Qed.

(** A receipt that was granted on ledger [l], which became [l']: it counts a
    use of the claim, more than any in the ledger, of the digest the ledger has
    for the capability; no revocation is in the ledger. *)
Definition receipt_granted (l : list pystr) (id : pystr) (l' : list pystr) (sr : SignedWorkflowCapabilityReceipt) : Prop :=
  let r := sr_receipt sr in
  (∃ signed, cl_capability_id (sc_claim signed) = id ∧ wr_claim_sha256 r = workflow_capability_claim_sha256 signed
     ∧ 1 <= wr_use_number r <= cl_max_uses (sc_claim signed) ∧ cl_max_uses (sc_claim signed) <= 50)
  ∧ wr_capability_id r = id
  ∧ (∃ x, in_ledger l' x ∧ at_capability_id x = id ∧ at_claim_sha256 x = wr_claim_sha256 r
       ∧ at_transition_kind x = $"claimed" ∧ at_use_number x = Some (wr_use_number r))
  ∧ (∀ x, in_ledger l x → at_capability_id x = id → at_claim_sha256 x = wr_claim_sha256 r
       ∧ (at_transition_kind x = $"claimed" → ∃ u, at_use_number x = Some u ∧ u < wr_use_number r)
       ∧ at_transition_kind x ≠ $"revoked").

(** The receipt of the statements of an admitted claim. *)
Lemma claim_use_for env c row signed state invocation binding key kid seen l w w1 :
  known_tables seen w → at_work seen l w c w1 → binding_ok binding →
  ends (claim_use float_of env c row signed state invocation binding key kid)
    (λ a w2, (l `prefix_of` ledger_texts (db w)
       ∧ recorded seen (ledger_texts (db w)) w signed ($"claimed") (Some (cap_used_count row + 1)) a.2 w2)
       ∧ let r := sr_receipt a.1 in wr_capability_id r = cl_capability_id (sc_claim signed)
         ∧ wr_claim_sha256 r = workflow_capability_claim_sha256 signed ∧ wr_use_number r = cap_used_count row + 1
         ∧ 1 <= wr_use_number r)
    (stopped float_of seen l (announced w)) w1.
Proof.
  intros Hk Hw1 Hb. unfold claim_use. cbv zeta.
  apply ends_bind. eapply ends_work; [apply quiet_count_use|exact Hw1|]. intros _ w2 _ Hw2.
  apply ends_bind. eapply ends_work; [apply quiet_insert_event|exact Hw2|]. intros eid w3 He%event_bound Hw3.
  apply ends_bind, ends_lift; [|by eapply at_work_stopped]. intros r Hr.
  pose proof (make_receipt_Ok _ _ Hr) as Er. rewrite <- Er in Hr.
  apply ends_bind, ends_lift; [|by eapply at_work_stopped]. intros sr Hsr.
  apply ends_bind. eapply ends_work; [apply quiet_insert_receipt|exact Hw3|]. intros _ w4 _ Hw4.
  apply ends_bind. eapply ends_work; [apply quiet_advance|exact Hw4|]. intros ss w5 [Hrev Hu]%advance_bounds Hw5.
  change (cap_used_count row + 1 <= MAX_SQLITE_INTEGER) in Hu. pose proof Hw5 as (Hp & _).
  apply ends_bind. eapply ends_mono; [by eapply ends_record| |done].
  intros c' w6 _ Hrec. apply ends_ret. split; [by split|]. cbn [fst].
  unfold MAX_SQLITE_INTEGER in *. apply sign_receipt_Ok in Hsr as ->.
  2:{ apply validated_receipt_Ok; rewrite ?Er; cbn [wr_binding wr_use_number wr_event_id]; try done; [by rewrite <- Er|lia|lia]. }
  assert (1 <= wr_use_number r) as H1.
  { unfold make_receipt in Hr. split_checks.
    match goal with H : raise_if (wr_use_number _ <? 1) _ = _ |- _ => apply raise_if_Ok in H; lia end. }
  split; [by rewrite Er|]. split; [by rewrite Er|]. split; [by rewrite Er|done].
Qed.

Lemma claim_admitted_Ok env row signed state invocation binding subject task issuer approval key kid t :
  claim_admitted float_of env row signed state invocation binding subject task issuer approval key kid t = Ok tt →
  cl_binding (sc_claim signed) = binding ∧ as_revocation_id state = None ∧ cap_used_count row < cl_max_uses (sc_claim signed).
Proof.
  unfold claim_admitted. cbv zeta. intros Hc. apply then_Ok in Hc as [Hv Hc]. apply then_Ok in Hc as [_ Hc].
  apply then_Ok in Hc as [Hr Hc]. apply then_Ok in Hc as [Hm _].
  apply raise_if_Ok, Z.leb_gt in Hm. apply raise_if_Ok in Hr. split; [|split; [|done]].
  - unfold verify_workflow_capability in Hv. split_checks.
    match goal with H : raise_if (negb (bool_decide (cl_binding _ = _))) _ = _ |- _ =>
      apply raise_if_Ok, negb_false_iff, bool_decide_eq_true in H; exact H end.
  - destruct (as_revocation_id state); [discriminate Hr|done].
Qed.

Lemma claim_served env id invocation binding subject task issuer approval seen l w :
  ready seen l w →
  ends (claim_workflow_capability float_of env id invocation binding subject task issuer approval)
    (served seen l w (receipt_granted l id)) (failed seen l w) w.
Proof.
  intros Hr. pose proof (ready_failed _ _ _ Hr) as Hf. pose proof Hr as (_ & Hk & _). unfold claim_workflow_capability.
  apply ends_bind, ends_lift; [intros _ _|done]. apply ends_bind, ends_lift; [intros [key kid] _|done].
  apply ends_bind. eapply ends_mono; [eapply (ends_transaction env _ (λ a w1, ∃ signed,
    (l `prefix_of` ledger_texts (db w)
     ∧ recorded seen (ledger_texts (db w)) w signed ($"claimed") (Some (wr_use_number (sr_receipt a.1))) a.2 w1)
    ∧ ∀ l', extended (ledger_texts (db w)) signed ($"claimed") (Some (wr_use_number (sr_receipt a.1))) l' →
        receipt_granted l id l' a.1)); [done|]| |done].
  2:{ intros [sr c] w1 _ (signed & [Hp Hrec] & HR). by eapply ends_finalize. }
  apply ends_load; [done|by intros [=]|]. intros c w1 Hw1 Hdb [h Hg].
  apply ends_bind. eapply ends_work; [apply quiet_read_capability|exact Hw1|]. intros found w2 Hfound Hw2.
  destruct found as [[row signed]|]; [|by eapply at_work_stopped].
  apply read_capability_Ok in Hfound as ([e He] & Hid & ->). apply decode_claim_ok in He as [Hmake Hbind].
  unfold read_authority. apply ends_bind, ends_on_tables; [|by eapply at_work_stopped]. intros state Hstate. rewrite Hdb in Hstate.
  apply ends_bind, ends_on_tables; [|by eapply at_work_stopped]. intros [] Had.
  apply claim_admitted_Ok in Had as (Hbinding & Hrev & Hmax). rewrite Hbinding in Hbind.
  eapply ends_mono; [by eapply claim_use_for| |done].
  intros [sr c'] w2 _ ([Hp Hrec] & Hcap & Hsha & Hn & H1). cbn [fst snd] in *. split; [|by eapply recorded_stopped].
  exists signed. rewrite Hn. split; [by split|]. intros l' Hext. unfold receipt_granted. cbv zeta. rewrite Hcap, Hsha, Hn in *.
  pose proof (make_claim_uses _ _ Hmake) as [_ [_ H50]].
  split; [exists signed; split; [done|]; split; [done|]; lia|]. split; [done|]. split.
  - apply extended_in in Hext as (x & Hx & Hxc & Hxs & Hxk & Hxu). exists x. by rewrite <- Hid.
  - intros x Hx Hxc. rewrite <- Hid in Hxc.
    destruct (authority_says _ _ _ _ _ _ _ _ _ _ Hstate Hg (in_ledger_prefix _ _ _ Hp Hx) Hxc) as (? & Hu & Hr').
    split; [done|]. split.
    + intros Hxk. destruct (Hu Hxk) as (u & -> & ?). exists u. split; [done|lia].
    + intros Hxk. by apply (Hr' Hxk).
Qed.

(** A revocation that was reported is in the ledger. *)
Definition revocation_recorded (id : pystr) (l' : list pystr) (revoked : bool) : Prop :=
  revoked = true → ∃ x, in_ledger l' x ∧ at_capability_id x = id ∧ at_transition_kind x = $"revoked".

Lemma revoke_use_for env c signed state reason key kid seen l w w1 :
  known_tables seen w → at_work seen l w c w1 →
  ends (revoke_use env c signed state reason key kid)
    (λ a w2, match a with
             | Some c' => l `prefix_of` ledger_texts (db w)
                          ∧ recorded seen (ledger_texts (db w)) w signed ($"revoked") None c' w2
             | None => at_work seen l w c w2
             end) (stopped float_of seen l (announced w)) w1.
Proof.
  intros Hk Hw1. unfold revoke_use. cbv zeta.
  apply ends_bind. eapply ends_work; [apply quiet_append_revocation|exact Hw1|]. intros rv w2 _ Hw2.
  apply ends_bind, ends_on_tables; [|by eapply at_work_stopped]. intros [t one] [= <- _]. apply ends_bind.
  unfold set_tables at 1, ends at 1. set (w3 := {| db := _ |}). assert (at_work seen l w c w3) as Hw3 by exact Hw2.
  destruct one; [|done]. cbn [negb].
  apply ends_bind. eapply ends_work; [apply quiet_insert_event|exact Hw3|]. intros eid w4 He%event_bound Hw4.
  apply ends_bind. eapply ends_work; [apply quiet_advance|exact Hw4|]. intros ss w5 [Hrev _]%advance_bounds Hw5. pose proof Hw5 as (Hp & _).
  apply ends_bind. eapply ends_mono; [by eapply ends_record; [| | | |unfold MAX_SQLITE_INTEGER; cbn; lia]| |done].
  intros c' w6 _ Hrec. by apply ends_ret.
Qed.

Lemma revoke_served env id reason seen l w :
  ready seen l w →
  ends (revoke_workflow_capability float_of env id reason) (served seen l w (revocation_recorded id)) (failed seen l w) w.
Proof.
  intros Hr. pose proof (ready_failed _ _ _ Hr) as Hf. pose proof Hr as (_ & Hk & _). unfold revoke_workflow_capability.
  apply ends_bind, ends_lift; [intros _ _|done]. apply ends_bind, ends_lift; [intros _ _|done].
  apply ends_bind, ends_lift; [intros [key kid] _|done].
  apply ends_bind. eapply ends_mono; [eapply (ends_transaction env _ (λ a w1, match a with
    | Some c => ∃ signed, cl_capability_id (sc_claim signed) = id ∧ l `prefix_of` ledger_texts (db w)
                ∧ recorded seen (ledger_texts (db w)) w signed ($"revoked") None c w1
    | None => served seen l w (revocation_recorded id) false w1 end)); [done|]| |done].
  2:{ intros [c|] w1 _; [|done]. intros (signed & <- & Hp & Hrec). eapply ends_finalize; [done..|].
      intros l' (x & Hx & Hc & _ & Hkd & _)%extended_in _. by exists x. }
  assert (∀ c w', at_work seen l w c w' → served seen l w (revocation_recorded id) false w'
    ∧ stopped float_of seen l (announced w) w') as Hnone.
  { intros c w' Hw'. split; [|by eapply at_work_stopped]. eapply work_served; [done..|]. by intros l' _ [=]. }
  apply ends_load; [done|by intros [=]|]. intros c w1 Hw1 _ _.
  apply ends_bind. eapply ends_work; [apply quiet_read_capability|exact Hw1|]. intros found w2 Hfound Hw2.
  destruct found as [[row signed]|]; [|by eapply Hnone].
  apply read_capability_Ok in Hfound as (_ & Hid & ->).
  apply ends_bind, ends_lift; [intros _ _|by eapply at_work_stopped].
  apply ends_bind, ends_on_tables; [intros state _|by eapply at_work_stopped].
  destruct (given (as_revocation_id state)); [by eapply Hnone|].
  eapply ends_mono; [by eapply revoke_use_for| |done].
  intros [c'|] w2 _; [|by intros Hw; eapply Hnone]. intros [Hp Hrec]. split; [by exists signed|by eapply recorded_stopped].
Qed.

(** ** Histories *)

(** What an answer says of the ledger. *)
Definition answer_says (l : list pystr) (r : request) (l' : list pystr) (a : answer) : Prop :=
  match r, a with
  | Claim id _ _ _ _ _ _, Claimed sr => receipt_granted l id l' sr
  | Revoke id _, Revoked b => revocation_recorded id l' b
  | Claim _ _ _ _ _ _ _, _ | Revoke _ _, _ => False
  | _, Claimed _ | _, Revoked _ => False
  | _, _ => True
  end.

Lemma ends_answer {A} (m : M A) (f : A → answer) (R : list pystr → A → Prop) (R' : list pystr → answer → Prop) seen l w :
  ends m (served seen l w R) (failed seen l w) w → (∀ l' a, R l' a → R' l' (f a)) →
  ends (a ← m ; mret (f a)) (served seen l w R') (failed seen l w) w.
Proof.
  intros Hm HR. apply ends_bind. eapply ends_mono; [exact Hm| |done].
  intros a w' _ (Hk & Ha & l' & Hp & Hs & HRa). apply ends_ret. split; [done|]. split; [done|]. exists l'. auto.
Qed.
Lemma lookup_receipt_served env rid iid seen l w :
  ready seen l w → ends (lookup_workflow_capability_receipt float_of env rid iid) (served seen l w anything) (failed seen l w) w.
Proof.
  intros Hr. destruct rid as [rid|], iid as [iid|]; [|by apply lookup_by_served..|]; apply ends_lift; try done; by apply ready_failed.
Qed.
(** An issue starts the control afresh where there is none, so it has to see
    the one there is. *)
Definition issue_reads (s : step) : Prop :=
  match s with Call _ readable _ (Issue _ _) => readable = true | _ => True end.

Lemma serve_served env rd os r seen l w0 :
  let w := with_outcomes rd os w0 in
  ready seen l w → issue_reads (Call env rd os r) → ends (serve env r) (served seen l w (answer_says l r)) (failed seen l w) w.
Proof.
  intros w Hr Hread. destruct r; (eapply ends_answer;
    [first [by apply issue_served | by apply claim_served | by apply revoke_served | by apply lookup_served
           | by apply lookup_receipt_served]|done]).
Qed.

(** The receipts handed out for a capability. *)
Definition receipts_of (id : pystr) (tr : list (request * result answer)) : list WorkflowCapabilityReceipt :=
  omap (λ e, match e.2 with
             | Ok (Claimed sr) => if bool_decide (wr_capability_id (sr_receipt sr) = id) then Some (sr_receipt sr) else None
             | _ => None
             end) tr.
Definition replaced (steps : list step) : list tables :=
  omap (λ s, match s with Replace t => Some t | Call _ _ _ _ => None end) steps.

(** What holds of the receipts handed out from ledger [l] on. *)
Record history_holds (l : list pystr) (id : pystr) (tr : list (request * result answer)) : Prop := {
  holds_sorted : StronglySorted Z.lt (wr_use_number <$> receipts_of id tr);
  holds_fresh : Forall (λ r, ∀ x, in_ledger l x → at_capability_id x = id → at_claim_sha256 x = wr_claim_sha256 r
      ∧ (at_transition_kind x = $"claimed" → ∃ u, at_use_number x = Some u ∧ u < wr_use_number r)
      ∧ at_transition_kind x ≠ $"revoked") (receipts_of id tr);
  holds_bound : receipts_of id tr ≠ [] → ∃ signed, cl_capability_id (sc_claim signed) = id ∧ cl_max_uses (sc_claim signed) <= 50
      ∧ Forall (λ r, wr_claim_sha256 r = workflow_capability_claim_sha256 signed
                     ∧ 1 <= wr_use_number r <= cl_max_uses (sc_claim signed)) (receipts_of id tr);
  holds_revoked : ∀ tr1 reason tr2, tr = tr1 ++ (Revoke id reason, Ok (Revoked true)) :: tr2 → receipts_of id tr2 = [];
}.

Lemma history_mono l l' id tr : l `prefix_of` l' → history_holds l' id tr → history_holds l id tr.
Proof.
  intros Hp [Hs Hf Hb Hr]. constructor; [done| |done|done]. eapply Forall_impl; [exact Hf|]. intros r Hx x Hin.
  by apply Hx, (in_ledger_prefix _ _ _ Hp).
Qed.
Lemma history_nil l id : history_holds l id [].
Proof. constructor; [constructor|constructor|done|]. by intros [|] ? ?. Qed.

(** An answer that is no receipt of the capability. *)
Lemma history_skip l id e tr :
  receipts_of id [e] = [] →
  (∀ reason, e = (Revoke id reason, Ok (Revoked true)) → receipts_of id tr = []) →
  history_holds l id tr → history_holds l id (e :: tr).
Proof.
  intros He Hrev [Hs Hf Hb Hr]. assert (receipts_of id (e :: tr) = receipts_of id tr) as E.
  { change (e :: tr) with ([e] ++ tr). unfold receipts_of in *. by rewrite omap_app, He. }
  constructor; rewrite ?E; try done. intros [|e' tr1] reason tr2 Htr.
  - injection Htr as -> ->. by eapply Hrev.
  - injection Htr as -> ->. by eapply Hr.
Qed.
(** A receipt of the capability. *)
Lemma history_grant l l' id c inv b su ta is' ap sr tr :
  l `prefix_of` l' → c = id → receipt_granted l c l' sr → history_holds l' id tr →
  history_holds l id ((Claim c inv b su ta is' ap, Ok (Claimed sr)) :: tr).
Proof.
  intros Hp -> ((signed & Hid & Hsha & Hn & H50) & Hcap & (x & Hx & Hxc & Hxs & Hxk & Hxu) & Hall) Hh.
  pose proof (history_mono _ _ _ _ Hp Hh) as [_ Hf' _ _]. destruct Hh as [Hs Hf Hb Hr].
  set (r := sr_receipt sr) in *.
  assert (receipts_of id ((Claim id inv b su ta is' ap, Ok (Claimed sr)) :: tr) = r :: receipts_of id tr) as E.
  { unfold receipts_of. cbn [omap list_omap snd]. fold r. by rewrite bool_decide_eq_true_2 by done. }
  assert (Forall (λ r', wr_claim_sha256 r' = wr_claim_sha256 r ∧ wr_use_number r < wr_use_number r') (receipts_of id tr)) as Hlater.
  { eapply Forall_impl; [exact Hf|]. intros r' Hr'. destruct (Hr' x Hx Hxc) as (Hs' & Hu & _). split; [congruence|].
    destruct (Hu Hxk) as (u & Hu' & ?). rewrite Hxu in Hu'. by injection Hu' as ->. }
  constructor; rewrite ?E.
  - cbn. constructor; [done|]. apply Forall_fmap. eapply Forall_impl; [exact Hlater|]. by intros r' [_ ?].
  - constructor; [exact Hall|exact Hf'].
  - intros _. destruct (decide (receipts_of id tr = [])) as [->|Hne].
    + exists signed. split; [done|]. split; [done|]. by constructor.
    + destruct (Hb Hne) as (signed' & Hid' & H50' & Hall'). exists signed'. split; [done|]. split; [done|].
      constructor; [|done]. destruct (receipts_of id tr) as [|r' rs]; [done|].
      apply Forall_cons in Hall' as [[Hs' Hn'] _]. apply Forall_cons in Hlater as [[Hs'' Hlt] _]. split; [congruence|lia].
  - intros [|e' tr1] reason tr2 Htr; [discriminate Htr|]. injection Htr as <- ->. by eapply Hr.
Qed.

Lemma history_answer l l' id r a tr :
  l `prefix_of` l' → answer_says l r l' a → history_holds l' id tr → history_holds l id ((r, Ok a) :: tr).
Proof.
  intros Hp Ha Hh. pose proof (history_mono _ _ _ _ Hp Hh) as Hl.
  destruct r as [| c inv b su ta is' ap | c reason | |]; cbn [answer_says] in Ha; destruct a as [|sr|rv| |]; try done;
    try (by apply history_skip).
  - destruct (decide (c = id)) as [Hc|Hc]; [by eapply history_grant|].
    destruct Ha as (_ & Hcap & _). apply history_skip; [|done|done]. unfold receipts_of. cbn [omap list_omap snd].
    rewrite bool_decide_eq_false_2; [done|congruence].
  - apply history_skip; [done| |done]. intros reason' [= -> -> ->]. destruct (Ha eq_refl) as (x & Hx & Hc & Hk).
    destruct Hh as [_ Hf _ _]. destruct (receipts_of id tr) as [|r rs]; [done|]. apply Forall_cons in Hf as [Hr _].
    by destruct (Hr x Hx Hc) as (_ & _ & ?).
Qed.

Lemma history_run seen id steps l w :
  links_distinct (seen ++ announced (run steps w).2) → known_tables seen w → safe float_of seen l (control_text w) (announced w) →
  Forall (λ t, tables_typed t ∧ ledger_texts t ⊆ seen) (replaced steps) → Forall issue_reads steps → history_holds l id (run steps w).1.
Proof.
  revert l w. induction steps as [|[env rd os r|t] steps IH]; intros l w Hd Hk Hs Hrep Hreads; cbn [run] in *; [apply history_nil| |];
    apply Forall_cons in Hreads as [Hread Hreads].
  - set (w0 := with_outcomes rd os w) in *. cbn [fst snd] in *.
    assert (announced w ⊆ announced (run steps (serve env r w0).2).2) as Hm.
    { etrans; [exact (mono_serve env r w0)|apply run_announced]. }
    assert (ready seen l w0) as Hready.
    { split; [|by split]. intros a b Ha Hb. apply Hd; set_solver. }
    pose proof (serve_served env rd os r seen l w Hready Hread) as Hw. fold w0 in Hw. unfold ends in Hw.
    destruct (serve env r w0) as [[a|e] w1]; cbn [fst snd] in *.
    + destruct Hw as (Hk1 & _ & l' & Hp & Hs1 & Ha). eapply history_answer; [exact Hp|exact Ha|]. by apply IH.
    + destruct Hw as (Hk1 & _ & l' & Hp & Hs1). apply history_skip; [done|done|].
      eapply history_mono; [exact Hp|]. by apply IH.
  - apply Forall_cons in Hrep as [[Hty Hin] Hrep]. apply IH; try done. split; [|done]. cbn [db announced with_tables]. set_solver.
Qed.

(** ** The theorem *)

Definition first_run (t : tables) : world := {| db := t; control_text := None; reads := true; outcomes := []; announced := [] |}.
(** The texts of the ledgers of a history: of the databases, and announced. *)
Definition history_texts (steps : list step) (t : tables) : list pystr :=
  mjoin (ledger_texts <$> t :: replaced steps) ++ announced (run steps (first_run t)).2.

Lemma increasing_bounded l a b : StronglySorted Z.lt l → Forall (λ x, a < x <= b) l → Z.of_nat (length l) <= Z.max 0 (b - a).
Proof.
  revert a. induction l as [|x l IH]; intros a Hs Hl; [cbn; lia|].
  apply StronglySorted_inv in Hs as [Hs Hx]. apply Forall_cons in Hl as [[Hax Hxb] Hl].
  assert (Z.of_nat (length l) <= Z.max 0 (b - x)); [|cbn [length]; lia]. apply IH; [done|].
  rewrite Forall_forall in Hx, Hl |- *. intros y Hy. specialize (Hx y Hy). specialize (Hl y Hy). cbn beta in *. lia.
Qed.

(** C3: Whatever is done to the database, nobody gets more out of a capability
    than was approved.  Over any sequence of calls, while the database is
    replaced at will (an older copy put back, rows edited, everything removed),
    commits fail, the credential store refuses writes and the process is
    killed: the receipts handed out for a capability carry the digest of one
    claim and strictly increasing use numbers, they are no more than the uses
    that claim allows, 50 at most, and none follows a revocation that was
    reported.  Assumed: there was no control at first, it can be read whenever a
    capability is issued, and no two of the transition texts in play have the
    same SHA-256. *)
Theorem claims_survive_rollback steps t id :
  Forall tables_typed (t :: replaced steps) → links_distinct (history_texts steps t) → Forall issue_reads steps →
  let tr := (run steps (first_run t)).1 in
  let receipts := receipts_of id tr in
  StronglySorted Z.lt (wr_use_number <$> receipts)
  ∧ (receipts ≠ [] → ∃ signed, cl_capability_id (sc_claim signed) = id ∧ cl_max_uses (sc_claim signed) <= 50
       ∧ Z.of_nat (length receipts) <= cl_max_uses (sc_claim signed)
       ∧ Forall (λ r, wr_claim_sha256 r = workflow_capability_claim_sha256 signed
                      ∧ 1 <= wr_use_number r <= cl_max_uses (sc_claim signed)) receipts)
  ∧ (∀ before reason after, tr = before ++ (Revoke id reason, Ok (Revoked true)) :: after → receipts_of id after = []).
Proof.
  intros Hty Hd Hreads. cbv zeta. unfold history_texts in Hd. set (seen := mjoin (ledger_texts <$> t :: replaced steps)) in *.
  assert (∀ t', t' ∈ t :: replaced steps → ledger_texts t' ⊆ seen) as Hseen.
  { intros t' Ht' e He. apply list_elem_of_join. exists (ledger_texts t'). split; [done|exact (list_elem_of_fmap_2 _ _ _ Ht')]. }
  apply Forall_cons in Hty as [Hty Hrep].
  assert (history_holds [] id (run steps (first_run t)).1) as [Hs _ Hb Hr].
  { eapply (history_run seen); [exact Hd| | | |exact Hreads].
    - split; [|done]. cbn [db announced first_run]. etrans; [apply Hseen; left|by apply list_subseteq_app_l].
    - constructor; [done|set_solver|unfold MAX_SQLITE_INTEGER; cbn; lia|done].
    - rewrite Forall_forall in Hrep |- *. intros t' Ht'. split; [by apply Hrep|]. apply Hseen. by right. }
  split; [exact Hs|]. split; [|exact Hr]. intros Hne. destruct (Hb Hne) as (signed & Hid & H50 & Hall).
  exists signed. split; [done|]. split; [done|]. split; [|done].
  pose proof (increasing_bounded _ 0 (cl_max_uses (sc_claim signed)) Hs) as Hl. rewrite length_fmap in Hl.
  destruct (receipts_of id _) as [|r rs]; [done|]. pose proof (Forall_inv Hall) as [_ ?].
  rewrite Z.max_r in Hl by lia. rewrite Z.sub_0_r in Hl. apply Hl. apply Forall_fmap. eapply Forall_impl; [exact Hall|].
  intros r' [_ ?]. cbn. lia.
Qed.

End history.

(** ** A concrete history *)

Section sample.
#[local] Instance sample_decimal : PyDecimal := ascii_decimal.
Definition no_float (_ : pystr) : pyval := PNone.
Definition sample_key : list Z := replicate 32 7.
Definition sample_binding : WorkflowCapabilityBinding :=
  {| wb_operation_id := $"git.push"; wb_resource_type := $"branch"; wb_resource_sha256 := replicate 64 97;
     wb_repository_sha256 := replicate 64 98; wb_workspace_sha256 := replicate 64 99; wb_executable_sha256 := replicate 64 100;
     wb_launch_sha256 := replicate 64 101; wb_policy_id := $"policy"; wb_policy_version := $"1"; wb_effect_id := $"effect";
     wb_effect_version := $"1"; wb_decision_id := $"decision"; wb_decision_version := $"1";
     wb_rules := [{| rb_rule_id := $"rule"; rb_rule_version := $"1" |}] |}.
Definition sample_claim : WorkflowCapabilityClaim :=
  {| cl_schema_version := WORKFLOW_CAPABILITY_SCHEMA; cl_algorithm := WORKFLOW_CAPABILITY_ALGORITHM;
     cl_capability_id := $"cap"; cl_approval_provenance_id := $"approval"; cl_task_id := $"task";
     cl_nonce := replicate 32 48; cl_issuer_id := $"issuer"; cl_subject_id := $"subject"; cl_binding := sample_binding;
     cl_issued_at := $"2026-01-01T00:00:00.000000Z"; cl_not_before := $"2026-01-01T00:00:00.000000Z";
     cl_expires_at := $"2026-01-01T01:00:00.000000Z"; cl_max_uses := 2 |}.
Definition sample_env (minute uuid : pystr) : environment :=
  {| now := $"2026-01-01T00:" ++ minute ++ $":00.000000Z"; store_key := Some (sample_key, $"key"); uuid := uuid; commits := true |}.
Definition sample_signed : SignedWorkflowCapability :=
  match sign_workflow_capability no_float sample_claim sample_key ($"key") with
  | Ok s => s
  | Raise _ => {| sc_envelope_schema := []; sc_algorithm := []; sc_claim := sample_claim; sc_key_id := []; sc_signature := [] |}
  end.
Definition no_tables : tables :=
  {| capabilities := []; states := []; revocations := []; receipts := []; transitions := []; events := []; event_sequence := 0 |}.
Definition sample_issue : step := Call (sample_env ($"01") ($"u1")) true [] (Issue sample_signed ($"approval")).
Definition sample_use (minute uuid invocation : pystr) : step :=
  Call (sample_env minute uuid) true [] (Claim ($"cap") invocation sample_binding ($"subject") ($"task") ($"issuer") ($"approval")).
Definition sample_first_use : step := sample_use ($"02") ($"u2") ($"inv-1").
(** Issued and used twice; the database put back to an empty one, where the next
    claim is refused. *)
Definition sample_steps : list step :=
  [sample_issue; sample_first_use; sample_use ($"03") ($"u3") ($"inv-2"); Replace no_tables;
   sample_use ($"04") ($"u4") ($"inv-3")].

(** The use number of a receipt, or the error. *)
Definition outcome (e : request * result answer) : option (Z + exn) :=
  match e.2 with
  | Ok (Claimed r) => Some (inl (wr_use_number (sr_receipt r)))
  | Ok _ => None
  | Raise e => Some (inr e)
  end.

Definition links_distinct_in (texts : list pystr) : bool :=
  let hs := (λ e, (transition_text_sha256 e, e)) <$> texts in
  forallb (λ a, forallb (λ b, negb (bool_decide (a.1 = b.1)) || bool_decide (a.2 = b.2)) hs) hs.
Lemma links_distinct_checked texts : links_distinct_in texts = true → links_distinct texts.
Proof.
  unfold links_distinct_in. cbv zeta. rewrite forallb_Forall, Forall_fmap, Forall_forall. intros Hall a b Ha Hb Eab.
  specialize (Hall a Ha). cbn in Hall. rewrite forallb_Forall, Forall_fmap, Forall_forall in Hall. specialize (Hall b Hb).
  cbn in Hall. rewrite (bool_decide_eq_true_2 (transition_text_sha256 a = _)) in Hall by done.
  by eapply bool_decide_eq_true_1.
Qed.

(** What came back, and what is asked of the digests, in one run of the history. *)
Definition sample_answers : list (option (Z + exn)) :=
  [None; Some (inl 1); Some (inl 2); Some (inr (WorkflowCapabilityError "capability_control_rollback_detected"))].
Definition sample_check (r : list (request * result answer) * world) : bool :=
  links_distinct_in (mjoin (ledger_texts <$> no_tables :: replaced sample_steps) ++ announced r.2)
  && bool_decide (outcome <$> r.1 = sample_answers).
Lemma sample_checked r :
  sample_check r = true →
  links_distinct (mjoin (ledger_texts <$> no_tables :: replaced sample_steps) ++ announced r.2)
  ∧ outcome <$> r.1 = sample_answers.
Proof. by intros [Hd%links_distinct_checked Ho%bool_decide_eq_true]%andb_true_iff. Qed.

(** The theorem at the sample history, and what came back. *)
Lemma claims_survive_rollback_witness :
  Forall tables_typed (no_tables :: replaced sample_steps)
  ∧ links_distinct (history_texts no_float sample_steps no_tables) ∧ Forall issue_reads sample_steps
  ∧ let tr := (run no_float sample_steps (first_run no_tables)).1 in
    outcome <$> tr = sample_answers
    ∧ StronglySorted Z.lt (wr_use_number <$> receipts_of ($"cap") tr).
Proof.
  assert (Forall tables_typed (no_tables :: replaced sample_steps)) as Hty.
  { unfold tables_typed. apply (bool_decide_unpack _). vm_compute. exact I. }
  assert (sample_check (run no_float sample_steps (first_run no_tables)) = true) as Hc by (vm_compute; reflexivity).
  destruct (sample_checked _ Hc) as [Hd Ho].
  assert (Forall issue_reads sample_steps) as Hr by (repeat constructor).
  split; [exact Hty|]. split; [exact Hd|]. split; [exact Hr|]. cbv zeta. split; [exact Ho|].
  exact (proj1 (claims_survive_rollback no_float sample_steps no_tables ($"cap") Hty Hd Hr)).
Defined.
End sample.

End WorkflowHistory.
