(* ===== verification/WorkflowClaims.v ===== *)
(** * What a single call does

    [claim_justified]: a claim that returned was made of a signed, unexpired,
    unrevoked capability with uses left, for its own binding and parties and
    for an invocation never seen, and its receipt is stored and verifies.
    [interrupted_store_closed]: when the process was killed between announcing
    a transition and committing it, every later call raises and changes nothing,
    until the database holds what was announced. *)

From S2P Require Import Prelude PyStr Sha256 Regex PyVal PyJson AsciiJson JsSemver NativeObservations WorkflowCapability WorkflowLedger WorkflowChain WorkflowStore WorkflowHistory.
Local Open Scope Z_scope.
Local Open Scope py_scope.

Module WorkflowClaims.
Import Json Native Workflow WorkflowLedger WorkflowChain WorkflowStore WorkflowHistory.

Section claims.
Context `{PyDecimal}.
Variable float_of : pystr → pyval.

(** ** Statements on the database *)

(** What keeps the database. *)
Definition keeps_db {A} (m : M A) : Prop := ∀ w, db (m w).2 = db w.
Lemma keeps_bind {A B} (m : M A) (f : A → M B) : keeps_db m → (∀ a, keeps_db (f a)) → keeps_db (mbind f m).
Proof.
  intros Hm Hf w. unfold mbind, M_bind. specialize (Hm w). destruct (m w) as [[a|e] w1]; [|exact Hm].
  cbn [snd] in Hm. rewrite <- Hm. apply Hf.
Qed.
Lemma keeps_make c : keeps_db (make_and_store c).
Proof. unfold make_and_store. apply keeps_bind; [done|]. intros c'. by apply keeps_bind. Qed.
Lemma keeps_load key kid at' create : keeps_db (load_validate_and_observe_control float_of key kid at' create).
Proof.
  unfold load_validate_and_observe_control. apply keeps_bind; [done|]. intros [n h]. apply keeps_bind.
  { unfold open_control. apply keeps_bind; [done|]. intros [t|]; [done|]. do 3 (apply keeps_bind; [done|]; intros ?).
    apply keeps_make. }
  intros c. apply keeps_bind.
  { unfold resolve_pending. destruct (wc_pending_sequence c); [|done]. apply keeps_bind; [done|]. intros _. apply keeps_make. }
  intros c'. apply keeps_bind; [done|]. intros _. apply keeps_bind; [done|]. intros [|]; [apply keeps_make|done].
Qed.
Lemma keeps_finalize c : keeps_db (finalize_control_transition c).
Proof.
  unfold finalize_control_transition. destruct (wc_pending_sequence c), (wc_pending_head_sha256 c); try done. by apply keeps_bind.
Qed.
Lemma keeps_prepare c s : keeps_db (prepare_control_transition c s).
Proof. unfold prepare_control_transition. do 2 (apply keeps_bind; [done|]; intros ?). apply keeps_make. Qed.

Lemma keeps_Ok {A} (m : M A) w a w' : keeps_db m → m w = (Ok a, w') → db w' = db w.
Proof. intros Hm E. specialize (Hm w). by rewrite E in Hm. Qed.
Lemma transaction_Ok {A} env (m : M A) w a w' : transaction env m w = (Ok a, w') → m w = (Ok a, w').
Proof. unfold transaction. destruct (m w) as [[b|e] w1]; [|done]. by destruct (commits env). Qed.
Lemma statement_db f w u w' : statement f w = (Ok u, w') → f (db w) = Ok (db w').
Proof.
  unfold statement. intros (t & w1 & [Ht ->]%on_tables_Ok & Hs)%M_bind_Ok. unfold set_tables in Hs. by injection Hs as _ <-.
Qed.

(** The load validated the ledger. *)
Lemma load_validated key kid at' create w c w' :
  load_validate_and_observe_control float_of key kid at' create w = (Ok c, w') →
  db w' = db w ∧ ∃ h, validate_global_authority_ledger float_of (db w) key kid = Ok h.
Proof.
  intros Hl. split; [by eapply keeps_Ok; [apply keeps_load|]|]. unfold load_validate_and_observe_control in Hl.
  apply M_bind_Ok in Hl as (h & w1 & [Hv _]%on_tables_Ok & _). eauto.
Qed.

(** ** What the validated authority says of the tables *)

Definition receipts_for (t : tables) (id : pystr) : list receipt_row := filter (λ r, rcp_capability_id r = id) (receipts t).
Definition revocations_for (t : tables) (id : pystr) : list revocation_row := filter (λ r, rev_capability_id r = id) (revocations t).

Lemma authority_tables t signed key kid used at' code state :
  load_and_validate_authority float_of t signed key kid used at' code = Ok state →
  let id := cl_capability_id (sc_claim signed) in
  used = Z.of_nat (length (receipts_for t id)) ∧ (as_revocation_id state = None → revocations_for t id = [] ∧ at' = None).
Proof.
  intros Ha id. unfold load_and_validate_authority in Ha. cbv zeta in Ha.
  destruct (snd <$> list_find _ (states t)) as [row|]; [|discriminate Ha].
  apply bind_Ok in Ha as (ss & _ & Ha). apply then_Ok in Ha as [_ Ha]. apply then_Ok in Ha as [_ Ha].
  apply bind_Ok in Ha as (n & Hn & Ha). apply then_Ok in Ha as [Hused Ha]. apply bind_Ok in Ha as (rev & Hrev & Ha).
  apply then_Ok in Ha as [Hmatch Ha]. apply then_Ok in Ha as [_ Ha]. injection Ha as <-. split.
  - apply raise_if_Ok, orb_false_2 in Hused as [_ Hused%negb_false_iff%Z.eqb_eq]. rewrite Hused. f_equal.
    unfold validate_receipt_history in Hn. cbv zeta in Hn. apply then_Ok in Hn as [_ Hn]. injection Hn as <-.
    unfold receipt_rows. by rewrite length_sort_on.
  - intros Hnone. destruct rev as [r|].
    + apply raise_if_Ok in Hmatch. repeat (apply orb_false_2 in Hmatch as [Hmatch _]).
      apply negb_false_iff, bool_decide_eq_true in Hmatch. congruence.
    + unfold load_revocation in Hrev. cbv zeta in Hrev. fold id in Hrev. fold (revocations_for t id) in Hrev.
      destruct (revocations_for t id) as [|x [|]]; [|exfalso; split_checks; discriminate Hrev|discriminate Hrev].
      split; [done|]. apply raise_if_Ok, orb_false_2 in Hmatch as [Hmatch _]. apply orb_false_2 in Hmatch as [_ Hmatch].
      by destruct at'.
Qed.

(** The window of a claim. *)
Definition in_window (c : WorkflowCapabilityClaim) (at' : pystr) : Prop :=
  ∃ t not_before expires, parse_utc_timestamp at' = Ok t ∧ parse_utc_timestamp (cl_not_before c) = Ok not_before
  ∧ parse_utc_timestamp (cl_expires_at c) = Ok expires ∧ not_before <= t < expires.

Lemma verify_in_window signed key kid at' binding :
  verify_workflow_capability float_of signed key kid at' binding = Ok tt →
  verify_workflow_capability_signature float_of signed key kid = Ok tt ∧ in_window (sc_claim signed) at'
  ∧ cl_binding (sc_claim signed) = binding.
Proof.
  unfold verify_workflow_capability. intros Hv. apply then_Ok in Hv as [Hs Hv]. apply bind_Ok in Hv as (t & Ht & Hv).
  apply bind_Ok in Hv as (nb & Hnb & Hv). apply then_Ok in Hv as [Hlo Hv]. apply bind_Ok in Hv as (ex & Hex & Hv).
  apply then_Ok in Hv as [Hhi Hb]. apply raise_if_Ok in Hlo, Hhi. apply raise_if_Ok, negb_false_iff, bool_decide_eq_true in Hb.
  split; [done|]. split; [|done]. exists t, nb, ex. repeat split; try done; lia.
Qed.

(** ** What the statements of a claim leave *)

(** The receipts and the capabilities stay. *)
Definition same_rows (t t' : tables) : Prop := receipts t' = receipts t ∧ capabilities t' = capabilities t.

Lemma event_rows env name id inv extra w eid w' :
  insert_event env name id inv extra w = (Ok eid, w') → same_rows (db w) (db w').
Proof.
  unfold insert_event, insert_workflow_capability_event, mbind, M_bind, on_tables, set_tables. cbv zeta.
  destruct (MAX_SQLITE_INTEGER <? next_event_id (db w)); cbn; [done|]. by intros [= <- <-].
Qed.
Lemma advance_rows s key kid at' u rid at2 w ss w' :
  advance_authority_state s key kid at' u rid at2 w = (Ok ss, w') → same_rows (db w) (db w').
Proof.
  unfold advance_authority_state.
  intros (? & ? & [_ ->]%lift_Ok & (? & ? & [_ ->]%lift_Ok & (? & ? & [_ ->]%lift_Ok & Hr)%M_bind_Ok)%M_bind_Ok)%M_bind_Ok.
  apply M_bind_Ok in Hr as (s' & w1 & [_ ->]%lift_Ok & (ss' & w2 & [_ ->]%lift_Ok & Hr)%M_bind_Ok).
  apply M_bind_Ok in Hr as (? & w3 & Ht%statement_db & Hr). injection Hr as _ <-.
  unfold update_state in Ht. cbv zeta in Ht. split_checks. by injection Ht as <-.
Qed.
Lemma record_rows env c signed state kind eid payload un rid vid key kid w c' w' :
  record_transition env c signed state kind eid payload un rid vid key kid w = (Ok c', w') → same_rows (db w) (db w').
Proof.
  unfold record_transition. intros (s & w1 & [_ ->]%lift_Ok & (c1 & w2 & Hp & Hr)%M_bind_Ok)%M_bind_Ok.
  apply keeps_Ok in Hp; [|apply keeps_prepare]. apply M_bind_Ok in Hr as (? & w3 & Ht%statement_db & Hr). injection Hr as _ <-.
  rewrite Hp in Ht. unfold append_authority_transition in Ht. cbv zeta in Ht. split_checks. by injection Ht as <-.
Qed.

(** The row counted up is the one that was read. *)
Lemma count_use_counts id row n t t' :
  count_use id (cap_used_count row) n t = Ok t' → find_capability id t = Some row → cap_revoked_at row = None →
  receipts t' = receipts t ∧ cap_used_count <$> find_capability id t' = Some n.
Proof.
  unfold count_use, find_capability. cbv zeta. intros [_ Ht]%then_Ok Hf Hrev. apply (inj Ok) in Ht as <-. split; [done|].
  cbn [capabilities]. set (up := λ r, if countable id (cap_used_count row) r then with_used_count n r else r).
  induction (capabilities t) as [|r rs IH]; [discriminate Hf|]. cbn [fmap list_fmap list_find] in *.
  assert (cap_capability_id (up r) = cap_capability_id r) as Hid by by (unfold up; destruct (countable _ _ r)).
  rewrite Hid. destruct (decide (cap_capability_id r = id)) as [He|He].
  - cbn in Hf |- *. injection Hf as ->. unfold up, countable. rewrite bool_decide_eq_true_2, Z.eqb_refl, Hrev by done. done.
  - cbn in IH, Hf |- *. rewrite <- IH.
    + by destruct (list_find _ (up <$> rs)) as [[]|].
    + by destruct (list_find _ rs) as [[]|].
Qed.

(** The receipt of a claim, and its row. *)
Definition receipt_of (env : environment) (signed : SignedWorkflowCapability) (invocation : pystr)
    (binding : WorkflowCapabilityBinding) (use event_id : Z) : WorkflowCapabilityReceipt :=
  {| wr_schema_version := WORKFLOW_CAPABILITY_RECEIPT_SCHEMA; wr_receipt_id := $"wcr-" ++ uuid env;
     wr_capability_id := cl_capability_id (sc_claim signed); wr_task_id := cl_task_id (sc_claim signed);
     wr_invocation_id := invocation; wr_approval_provenance_id := cl_approval_provenance_id (sc_claim signed);
     wr_claim_sha256 := workflow_capability_claim_sha256 signed; wr_binding := binding; wr_use_number := use;
     wr_event_id := event_id; wr_claimed_at := now env |}.
Definition row_of (sr : SignedWorkflowCapabilityReceipt) : receipt_row :=
  let r := sr_receipt sr in
  {| rcp_receipt_id := wr_receipt_id r; rcp_capability_id := wr_capability_id r; rcp_task_id := wr_task_id r;
     rcp_invocation_id := wr_invocation_id r; rcp_approval_provenance_id := wr_approval_provenance_id r;
     rcp_signed_receipt_json := canonical (signed_receipt_json sr); rcp_claimed_at := wr_claimed_at r;
     rcp_use_number := wr_use_number r; rcp_event_id := wr_event_id r |}.

Lemma claim_use_Ok env c row signed state invocation binding key kid w sr c' w' :
  claim_use float_of env c row signed state invocation binding key kid w = (Ok (sr, c'), w') → binding_ok binding →
  find_capability (cl_capability_id (sc_claim signed)) (db w) = Some row → cap_revoked_at row = None →
  ∃ eid, sr_receipt sr = receipt_of env signed invocation binding (cap_used_count row + 1) eid
  ∧ verify_workflow_capability_receipt float_of sr key kid = Ok tt
  ∧ receipts (db w') = receipts (db w) ++ [row_of sr]
  ∧ cap_used_count <$> find_capability (cl_capability_id (sc_claim signed)) (db w') = Some (cap_used_count row + 1).
Proof.
  intros Hu Hb Hf Hrev. unfold claim_use in Hu. cbv zeta in Hu.
  apply M_bind_Ok in Hu as (? & w1 & Hc%statement_db & Hu). eapply count_use_counts in Hc as [Hr1 Hn1]; [|done|done].
  apply M_bind_Ok in Hu as (eid & w2 & He & Hu). pose proof (event_bound _ _ _ _ _ _ _ _ He) as Hbe. apply event_rows in He as [Hr2 Hn2].
  apply M_bind_Ok in Hu as (r & ? & [Hr ->]%lift_Ok & Hu). apply M_bind_Ok in Hu as (sr' & ? & [Hs ->]%lift_Ok & Hu).
  pose proof (make_receipt_Ok _ _ Hr) as Er. fold (receipt_of env signed invocation binding (cap_used_count row + 1) eid) in Er, Hr.
  rewrite <- Er in Hr. apply M_bind_Ok in Hu as (? & w3 & Hi%statement_db & Hu).
  unfold insert_receipt in Hi. cbv zeta in Hi. apply then_Ok in Hi as [_ Hi]. apply (inj Ok) in Hi.
  apply M_bind_Ok in Hu as (ss & w4 & Ha & Hu). pose proof (advance_bounds _ _ _ _ _ _ _ _ _ _ Ha) as [_ Hbu].
  change (cap_used_count row + 1 <= MAX_SQLITE_INTEGER) in Hbu. apply advance_rows in Ha as [Hr4 Hn4].
  apply M_bind_Ok in Hu as (c1 & w5 & [Hr5 Hn5]%record_rows & Hu). injection Hu as <- -> <-.
  assert (validated_receipt float_of r = Ok r) as Hval.
  { unfold MAX_SQLITE_INTEGER in *. apply validated_receipt_Ok; [done|by rewrite Er| |]; rewrite Er; unfold receipt_of; cbn [wr_use_number wr_event_id]; lia. }
  pose proof (sign_receipt_Ok _ _ _ _ _ Hval Hs) as Hsr. exists eid. split; [by rewrite Hsr|].
  split; [by eapply signed_receipt_verifies|]. split.
  - rewrite Hr5, Hr4, <- Hi. cbn [receipts]. rewrite Hr2, Hr1. unfold row_of. cbv zeta. by rewrite Hsr, Er.
  - rewrite <- Hn1. unfold find_capability. rewrite Hn5, Hn4, <- Hi. cbn [capabilities]. by rewrite Hn2.
Qed.

(** ** Justified claims *)

Lemma admitted_says env row signed state invocation binding subject task issuer approval key kid t :
  claim_admitted float_of env row signed state invocation binding subject task issuer approval key kid t = Ok tt →
  let c := sc_claim signed in
  (verify_workflow_capability_signature float_of signed key kid = Ok tt ∧ in_window c (now env) ∧ cl_binding c = binding)
  ∧ (cl_subject_id c = subject ∧ cl_task_id c = task ∧ cl_issuer_id c = issuer ∧ cl_approval_provenance_id c = approval)
  ∧ as_revocation_id state = None ∧ cap_used_count row < cl_max_uses c
  ∧ invocation ∉ rcp_invocation_id <$> receipts t.
Proof.
  unfold claim_admitted. cbv zeta. intros Hc. apply then_Ok in Hc as [Hv%verify_in_window Hc]. apply then_Ok in Hc as [Hp Hc].
  apply then_Ok in Hc as [Hr Hc]. apply then_Ok in Hc as [Hm Hi]. split; [exact Hv|].
  apply raise_if_Ok in Hp, Hr, Hm, Hi. apply Z.leb_gt in Hm.
  repeat (apply orb_false_2 in Hp as [Hp ?]). repeat match goal with H : negb (bool_decide _) = false |- _ =>
    apply negb_false_iff, bool_decide_eq_true in H end.
  split; [done|]. split; [by destruct (as_revocation_id state)|]. split; [done|].
  intros (r & -> & Hin)%list_elem_of_fmap. rewrite existsb_false, Forall_forall in Hi. specialize (Hi r Hin). by rewrite bool_decide_eq_true_2 in Hi.
Qed.

(** C9: A claim that returned was justified, and is recorded.  The ledger of the
    database was valid under the store's key; the capability was in it, signed
    under that key, inside its validity window, for the binding, subject, task,
    issuer and approval asked for; it had no revocation, fewer receipts than its
    claim allows, and the invocation had none.  The receipt counts the next use
    and verifies under the key; it is the one row added to the receipts, and the
    capability's counter went up by one. *)
Theorem claim_justified env w id invocation binding subject task issuer approval sr w' :
  claim_workflow_capability float_of env id invocation binding subject task issuer approval w = (Ok sr, w') →
  ∃ key kid row signed event_id,
    let c := sc_claim signed in
    store_key env = Some (key, kid) ∧ (∃ h, validate_global_authority_ledger float_of (db w) key kid = Ok h)
  ∧ find_capability id (db w) = Some row ∧ decode_signed_claim float_of (cap_signed_claim_json row) = Ok signed
  ∧ cl_capability_id c = id
  ∧ (verify_workflow_capability_signature float_of signed key kid = Ok tt ∧ in_window c (now env) ∧ cl_binding c = binding)
  ∧ (cl_subject_id c = subject ∧ cl_task_id c = task ∧ cl_issuer_id c = issuer ∧ cl_approval_provenance_id c = approval)
  ∧ revocations_for (db w) id = []
  ∧ cap_used_count row = Z.of_nat (length (receipts_for (db w) id)) ∧ cap_used_count row < cl_max_uses c
  ∧ invocation ∉ rcp_invocation_id <$> receipts (db w)
  ∧ sr_receipt sr = receipt_of env signed invocation binding (cap_used_count row + 1) event_id
  ∧ verify_workflow_capability_receipt float_of sr key kid = Ok tt
  ∧ receipts (db w') = receipts (db w) ++ [row_of sr]
  ∧ cap_used_count <$> find_capability id (db w') = Some (cap_used_count row + 1).
Proof.
  unfold claim_workflow_capability. intros (? & ? & [_ ->]%lift_Ok & Hc)%M_bind_Ok.
  apply M_bind_Ok in Hc as ([key kid] & ? & [Hkey ->]%lift_Ok & Hc).
  apply M_bind_Ok in Hc as ([sr' pending] & w1 & Hbody%transaction_Ok & Hc).
  apply M_bind_Ok in Hc as (? & w2 & Hfin & Hc). injection Hc as -> ->. apply keeps_Ok in Hfin; [|apply keeps_finalize].
  apply M_bind_Ok in Hbody as (c & w3 & [Hdb Hg]%load_validated & Hbody).
  apply M_bind_Ok in Hbody as (found & w4 & Hfound & Hbody). destruct found as [[row signed]|]; [|discriminate Hbody].
  pose proof (read_capability_Ok _ _ _ _ _ _ Hfound) as (_ & Hid & ->).
  unfold read_capability in Hfound. apply M_bind_Ok in Hfound as (found & ? & [Hf ->]%on_tables_Ok & Hfound). rewrite Hdb in Hf.
  destruct found as [row'|]; [|discriminate Hfound]. apply M_bind_Ok in Hfound as (signed' & ? & [Hdec ->]%lift_Ok & Hfound).
  apply M_bind_Ok in Hfound as (? & ? & [_ ->]%lift_Ok & Hfound). injection Hfound as -> ->.
  apply M_bind_Ok in Hbody as (state & ? & [Hst ->]%on_tables_Ok & Hbody). apply authority_tables in Hst as [Hused Hrev].
  apply M_bind_Ok in Hbody as ([] & ? & [Had ->]%on_tables_Ok & Huse). apply admitted_says in Had as (Hv & Hparties & Hnone & Hmax & Hfresh).
  rewrite Hdb in Hused, Hrev, Hfresh. destruct (Hrev Hnone) as [Hnorev Hat]. injection Hf as Hf.
  destruct (decode_claim_ok _ _ _ Hdec) as [_ Hb]. rewrite (proj2 (proj2 Hv)) in Hb. rewrite <- Hid in Hf.
  eapply claim_use_Ok in Huse as (eid & Hsr & Hver & Hrows & Hcount); [|done|by rewrite Hdb|done].
  exists key, kid, row, signed, eid. cbv zeta. rewrite Hdb, <- Hfin in Hrows. rewrite <- Hfin in Hcount. rewrite Hid in *.
  assert (store_key env = Some (key, kid)) as Hk by (by destruct (store_key env); simplify_eq/=).
  repeat (split; [assumption|]). done.
Qed.

(** ** Interrupted transitions *)

(** The database [t] holds the transition the control [c] announced: its
    ledger is valid under some key and ends in it. *)
Definition holds_announced (c : WorkflowCapabilityControl) (t : tables) : Prop :=
  ∃ key kid n head, validate_global_authority_ledger float_of t key kid = Ok (n, head)
    ∧ wc_pending_sequence c = Some n ∧ wc_pending_head_sha256 c = Some head.
(** The control has a transition pending that the database does not hold. *)
Definition interrupted (c : WorkflowCapabilityControl) (w : world) : Prop :=
  (∃ text, control_text w = Some text ∧ decode_control float_of text = Ok c)
  ∧ wc_pending_sequence c ≠ None ∧ ¬ holds_announced c (db w).
(** Nothing was done but to raise. *)
Definition refused {A} (w : world) (r : result A * world) : Prop :=
  (∃ e, r.1 = Raise e) ∧ db r.2 = db w ∧ control_text r.2 = control_text w.

Lemma refused_load c key kid at' create w :
  interrupted c w → (create = true → reads w = true) → refused w (load_validate_and_observe_control float_of key kid at' create w).
Proof.
  intros ((text & Ht & Hd) & Hn & Hno) Hread. unfold load_validate_and_observe_control, mbind, M_bind, on_tables.
  destruct (validate_global_authority_ledger float_of (db w) key kid) as [[m h]|e] eqn:Hv; [|by split; [eexists|]].
  unfold open_control, load_control, mbind, M_bind.
  destruct (reads w); [|destruct create; [by specialize (Hread eq_refl)|]; unfold on_tables, lift, refused;
    destruct (has_authority_data (db w)); by split; [eexists|]].
  rewrite Ht. unfold lift. rewrite Hd. unfold resolve_pending. destruct (wc_pending_sequence c) as [n|] eqn:Hp; [|done].
  unfold mbind, M_bind, lift. destruct (_ || _) eqn:Hcmp; [by split; [eexists|]|].
  destruct Hno. apply orb_false_iff in Hcmp as [->%negb_false_iff%Z.eqb_eq Hh%negb_false_iff%bool_decide_eq_true].
  by exists key, kid, n, h.
Qed.
Lemma refused_lift {A B} (r : result A) (f : A → M B) w :
  (∀ a, refused w (f a w)) → refused w (mbind f (lift r) w).
Proof. intros Hf. unfold mbind, M_bind, lift. destruct r; [apply Hf|]. by split; [eexists|]. Qed.
Lemma refused_bind {A B} (m : M A) (f : A → M B) w : refused w (m w) → refused w (mbind f m w).
Proof. intros Hm. unfold mbind, M_bind. destruct (m w) as [[a|e] w1]; destruct Hm as ([x Hx] & ? & ?); [discriminate Hx|].
  by split; [eexists|]. Qed.
Lemma refused_transaction {A} env (m : M A) w : refused w (m w) → refused w (transaction env m w).
Proof.
  intros Hm. unfold transaction. destruct (m w) as [[a|e] w1]; destruct Hm as ([x Hx] & _ & Hc); [discriminate Hx|].
  by split; [eexists|].
Qed.

Lemma serve_refused c env rd os r w0 :
  let w := with_outcomes rd os w0 in
  interrupted c w → issue_reads (Call env rd os r) → refused w (serve float_of env r w).
Proof.
  intros w Hw Hread. assert (∀ {A} key kid create (f : WorkflowCapabilityControl → M A),
    (create = true → rd = true) → refused w (transaction env (mbind f (load_validate_and_observe_control float_of key kid (now env) create)) w)) as Hload.
  { intros. by apply refused_transaction, refused_bind, (refused_load c). }
  assert (∀ sel, refused w (lookup_receipt_by float_of env sel w)) as Hsel.
  { intros sel. do 2 (apply refused_lift; intros ?). case_match. by apply Hload. }
  destruct r; apply refused_bind;
    [cbn in Hread; unfold issue_workflow_capability | unfold claim_workflow_capability | unfold revoke_workflow_capability
    | unfold lookup_workflow_capability | unfold lookup_workflow_capability_receipt];
    repeat (cbv zeta; first
      [ by apply Hload | by apply refused_bind; apply Hload | apply Hsel
      | apply refused_lift; intros ?
      | match goal with |- refused _ (match ?x with _ => _ end _) => destruct x end
      | by split; [eexists|] ]).
Qed.

(** A database without as many transitions as the control announced. *)
Lemma short_of_announced c t n :
  wc_pending_sequence c = Some n → Z.of_nat (length (transitions t)) ≠ n → ¬ holds_announced c t.
Proof.
  intros Hn Hlen (key & kid & m & head & Hv & Hm & _). apply Hlen. rewrite Hn in Hm. injection Hm as ->.
  apply validate_global_linked in Hv as (_ & Hv & _). unfold ledger_texts, ledger_rows in Hv.
  by rewrite length_fmap, length_sort_on in Hv.
Qed.

(** C40: An interrupted store stays closed.  When the control announces a
    transition that the database does not hold (the process was killed, or the
    commit failed, in between), every later call, of any operation, raises, and
    neither the database nor the control is changed by it -- as long as the
    database is replaced, if at all, only by databases that do not hold the
    announced transition as the end of a valid ledger, and as long as the control
    can be read whenever a capability is issued (an issue that cannot read it
    starts a control afresh). *)
Theorem interrupted_store_closed c steps w :
  interrupted c w → Forall (λ t, ¬ holds_announced c t) (replaced steps) → Forall issue_reads steps →
  Forall (λ e, ∃ x, e.2 = Raise x) (run float_of steps w).1
  ∧ db (run float_of steps w).2 = default (db w) (last (replaced steps))
  ∧ control_text (run float_of steps w).2 = control_text w.
Proof.
  revert w. induction steps as [|[env rd os r|t] steps IH]; intros w Hw Hrep Hreads; cbn [run]; [done| |];
    apply Forall_cons in Hreads as [Hread Hreads].
  - cbn [fst snd]. assert (interrupted c (with_outcomes rd os w)) as Hw' by exact Hw.
    destruct (serve_refused c env rd os r w Hw' Hread) as (He & Hdb & Hc). set (w1 := (serve float_of env r (with_outcomes rd os w)).2) in *.
    assert (interrupted c w1) as Hw1. { unfold interrupted. rewrite Hdb, Hc. exact Hw. }
    destruct (IH w1 Hw1 Hrep Hreads) as (Hall & Hdb1 & Hc1). rewrite Hdb1, Hc1, Hdb, Hc. split; [by constructor|done].
  - apply Forall_cons in Hrep as [Hno Hrep]. destruct Hw as (Ht & Hn & _).
    destruct (IH (with_tables t w)) as (Hall & Hdb1 & Hc1); [by split|done|done|].
    split; [exact Hall|]. split; [|exact Hc1]. rewrite Hdb1. change (replaced (Replace t :: steps)) with (t :: replaced steps).
    rewrite last_cons. by destruct (last (replaced steps)).
Qed.

End claims.

(** ** Concrete calls *)

#[local] Instance claims_decimal : PyDecimal := ascii_decimal.

(** A first use of the sample capability, just issued. *)
Definition issued_world : world := (run no_float [sample_issue] (first_run no_tables)).2.
Definition first_use : result SignedWorkflowCapabilityReceipt * world :=
  claim_workflow_capability no_float (sample_env ($"02") ($"u2")) ($"cap") ($"inv-1") sample_binding ($"subject") ($"task")
    ($"issuer") ($"approval") issued_world.
Lemma claim_justified_witness :
  ∃ sr w', first_use = (Ok sr, w') ∧ verify_workflow_capability_receipt no_float sr sample_key ($"key") = Ok tt
  ∧ revocations_for (db issued_world) ($"cap") = [] ∧ receipts (db w') = receipts (db issued_world) ++ [row_of sr].
Proof.
  assert (match first_use.1 with Ok _ => True | Raise _ => False end) as Hok by (vm_compute; exact I).
  destruct first_use as [[sr|e] w'] eqn:E; [|destruct Hok]. exists sr, w'. split; [reflexivity|].
  destruct (claim_justified no_float _ _ _ _ _ _ _ _ _ _ _ E) as (key & kid & row & signed & eid & Hc). cbv zeta in Hc.
  destruct Hc as (Hk & _ & _ & _ & _ & _ & _ & Hrev & _ & _ & _ & _ & Hver & Hrows & _).
  cbn in Hk. injection Hk as <- <-. split; [exact Hver|]. split; [exact Hrev|exact Hrows].
Defined.

(** The process was killed when the first issue announced its transition;
    another issue is refused. *)
Definition killed_world : world :=
  (run no_float [Call (sample_env ($"01") ($"u1")) true [Accepted; Killed true] (Issue sample_signed ($"approval"))]
    (first_run no_tables)).2.
Definition killed_check : bool :=
  let w := killed_world in
  match control_text w with
  | Some text =>
      match decode_control no_float text with
      | Ok c => bool_decide (wc_pending_sequence c = Some 1) && (length (transitions (db w)) =? 0)%nat
      | Raise _ => false
      end
  | None => false
  end.
Lemma killed_interrupted : killed_check = true → ∃ c, interrupted no_float c killed_world ∧ wc_pending_sequence c = Some 1.
Proof.
  unfold killed_check. cbv zeta. generalize killed_world. intros w. unfold interrupted. destruct (control_text w) as [text|]; [|done].
  destruct (decode_control no_float text) as [c|] eqn:Hc; [|done]. intros [Hp%bool_decide_eq_true Hl%Nat.eqb_eq]%andb_true_iff.
  exists c. split; [|done]. split; [by exists text|]. split; [by rewrite Hp|]. apply (short_of_announced no_float _ _ 1); [done|]. by rewrite Hl.
Qed.
Lemma interrupted_store_closed_witness :
  Forall (λ e, ∃ x, e.2 = Raise x) (run no_float [sample_issue; Replace no_tables; sample_first_use] killed_world).1.
Proof.
  assert (killed_check = true) as Hk by (vm_compute; reflexivity). destruct (killed_interrupted Hk) as (c & Hi & Hp).
  refine (proj1 (interrupted_store_closed no_float c [sample_issue; Replace no_tables; sample_first_use] killed_world Hi _
    ltac:(repeat constructor))).
  constructor; [|constructor]. apply (short_of_announced no_float _ _ 1 Hp). discriminate.
Defined.
(** Reading the control fails like a control that never was: over an emptied
    database an issue whose read failed starts it afresh, and the capability
    counts its uses again from 1. *)
Lemma failed_read_forgets :
  outcome <$> (run no_float
    [sample_issue; sample_first_use; Replace no_tables;
     Call (sample_env ($"03") ($"u3")) false [] (Issue sample_signed ($"approval"));
     sample_use ($"04") ($"u4") ($"inv-1")] (first_run no_tables)).1
  = [None; Some (inl 1); None; Some (inl 1)].
Proof. vm_compute. reflexivity. Qed.

End WorkflowClaims.
